(* ===== verification/_CoqProject ===== *)
-Q . S2P
Prelude.v
RuntimeJson.v
JsonBuild.v
JsonMem.v
RuntimeEvent.v
RuntimeControl.v
CancelToken.v
Utf8.v
Graph.v
GraphFacts.v
GraphRun.v
SpeechOutput.v
SpeechInput.v
TextSplitter.v
Tool.v
ToolRegistry.v
ToolRegistryFacts.v
ToolRuntime.v
ToolRuntimeFacts.v
ToolSchema.v
ToolSchemaFacts.v
ToolExport.v
ToolExportFacts.v
ToolContracts.v
DagCompiler.v
DagFacts.v
DagPlanFacts.v
CflowRegion.v
CflowOptimizer.v
CflowFacts.v
Resilience.v
Prompt.v
PromptFacts.v
PromptWire.v
Sse.v
SseFacts.v
SseChat.v
SseAnthropic.v
SseResponses.v
JsonRecord.v
RuntimeStore.v
RuntimeStoreFacts.v
AgentJob.v
AgentJobFacts.v
AgentJobSpec.v
AgentJobLife.v
StateGraph.v
StateGraphApi.v
StateGraphTypes.v
StateGraphFacts.v
StateGraphOps.v
StateGraphSafe.v
StateGraphRun.v
StateGraphResume.v
StateGraphSeamless.v
StateGraphRuns.v
StateGraphSnapshot.v
AgentPolicy.v
AgentPolicyFacts.v
AgentInbox.v
AgentInboxQueue.v
AgentInboxSafe.v
AgentExecution.v
AgentRouter.v
AgentRouterTask.v
AgentRouterIntent.v
AgentRouterOps.v
AgentRouterFacts.v
AgentRouterInv.v
AgentRouterSlots.v
AgentRouterLife.v
AgentRouterSafe.v
AgentRouterLifecycle.v
AgentRouterSystem.v
AgentRouterGroup.v
