(* ===== verification/Prelude.v ===== *)
(** * Verification of the TurboAgent runtime core

    Root file: documentation of the whole development, and the shared prelude.

    ** The program

    TurboAgent (C) runs agents: a model is called through a provider, its tool
    calls are executed by registered tools, a graph says what comes next, and a
    host can cancel, checkpoint and resume.  This development models the parts
    that carry this logic as functions and step relations on explicit state, and
    proves what makes them correct.

    ** Conventions

    - Every definition that models code is preceded by a comment naming its file,
      lines and symbol under src/.  Names are the source's.
    - Machine integers are [Z] with their wrap-around written out ([u64], [u32]);
      texts and byte buffers are [string] or lists; NULL is [None].
    - A JSON string has a length, a C string ends at its first NUL.  Where the code
      reads a JSON string with strlen, strcmp or a copy of a C string, the model
      reads its C text ([c_string], [json_c_text],
      [turbo_runtime_json_value_as_string]).
    - Memory: an allocation takes the next answer of an [oracle], so every
      definition covers every pattern of failing allocations; [plenty] oracles
      never fail.  A setter whose result the code ignores leaves the document without
      the member when memory fails ([quiet], [raw_string] and the like), and a parser
      that runs out of memory answers as for a malformed text ([parse_text]); so
      what is built of a document (identifiers, checkpoints, wire documents) is
      stated for [plenty] oracles.  Values that are freed on the way out are not followed, save
      where lifetime is the point (RuntimeControl, ToolRuntime, the speech
      buffers).
    - Host callbacks, transports, providers, clocks and tools are functions over
      a world [W] (or records of such functions), so that a theorem holds for any
      of them.
    - Libraries outside src/ are type classes with their documented behaviour as
      a second class of laws, and each has a concrete instance that shows that
      the laws hold together and on which the witnesses run.

    ** Interfaces

    - [RuntimeJson]: [JsonApi], [JsonLaws] (json_parser.h), [JsonSetters] and
      [JsonSettersLaws] (its convenience setters), [JsonMembers] (member lists);
      [JsonMem]: [JsonNewLaws]; [JsonRecord]: [JsonRecordLaws].  Instances:
      [RuntimeJson.JsonTree], [JsonMem.JsonNew], [JsonRecord.JsonRecordTree].
    - [RuntimeStoreFacts]: [RuntimeStoreLaws], what a backend of records promises
      its clients, a failed acknowledgement included; the memory backend
      discharges it, the agent jobs rely on it.
    - [CancelToken]: what a borrowed cancellation token promises to the code that
      polls it.  Its client is Resilience; [ControlledToken] discharges the laws
      with the operations of RuntimeControl.
    - [Tool]: [Cmeta], the native types and descriptors behind native tools.
    - [CflowRegion]: [Cflow], the compiler of native pipelines; it has no laws.
    - [StateGraph]: [JsonHeight], documents have a height, which bounds the merge
      of objects; instance [StateGraphRuns.JsonHeightTree].
    - Mustache (Prompt), [json_get_int] (Sse): parameters with no laws; so is
      [free_tstr] (Sse), what the process does after free() on a text of another
      allocator, which the Anthropic stream runs into when the input of a call is no
      object: [anthropic_stream] is about streams without such an input.

    ** Files

    Data and JSON
    - RuntimeJson: src/runtime_data/src/turbo_runtime_json.c.  The exact integer
      reader ([json_as_int64_exact]) and all-or-nothing setters.
    - JsonBuild, JsonMem: chains of setters, and the monad [mem] of code that
      builds documents and gives up when memory fails; [gives] is what such code
      answers while memory lasts.
    - RuntimeEvent: the trace event of src/runtime_data/src/turbo_event.c.
    - Utf8: code points and their encoding, shared by the speech filters.

    Cancellation and model calls
    - RuntimeControl: src/runtime_core (source, shared state, tokens, waits).  A
      heap model: memory safety, the first reason wins, what a wait answers.
    - CancelToken: the interface of the token.
    - Resilience: src/agent/src/turbo_agent_resilience.c (retry policy, delay,
      attempt records, transport loop, usage records).  The attempt and time
      limits, that nothing is retried after success or cancellation, exact delays.

    The graph runtime (src/runtime/src/turbo_graph.c)
    - Graph: builder, topology identifiers, checkpoints, the two executors.
    - GraphFacts: the builder refines a map-and-list specification; while memory
      lasts identifiers are canonical and checkpoints read back
      ([GraphRuns.truncated_identifiers], [GraphRuns.steps_lost] when it does not).
    - GraphRun: termination under a step limit; what every result promises; a run
      that is interrupted and resumed does what the uninterrupted run does.

    State graphs (src/runtime/src/turbo_state_graph.c)
    - StateGraph: channels and their reducers, nodes with updates and sends,
      threads, runs, history; start, resume, host updates, forks.
    - StateGraphApi: the builder, what a node may do to its context, documents,
      readers, snapshots, nodes that run another graph.
    - StateGraphTypes: what a channel may hold, and that every reducer answers it.
    - StateGraphFacts, StateGraphOps, StateGraphSafe: the invariant of a graph
      under any sequence of builder and run operations (identifiers of runs, entries
      and checkpoints are unique, those of threads need not be; loading a snapshot
      is StateGraphSnapshot's), and what an operation leaves alone; [wp]
      steps through an operation for every world, memory and early return.
    - StateGraphRun: a step limit ends every execution.
    - StateGraphResume, StateGraphSeamless: an interrupted execution that is
      resumed ends as the uninterrupted one ([follows]: two executions in step).
    - StateGraphRuns: concrete runs.
    - StateGraphSnapshot: what a snapshot holds, and that loading it restores it in
      a graph of the same topology and in no other.

    Speech
    - SpeechOutput: src/speech_output.  Delivery of the provider's PCM, wiping of
      buffers, one cancellation, the spoken-text filter.
    - SpeechInput: src/speech_input.  The frame queue under interleaved offers,
      transcripts, bounded pumps.

    Tools (src/runtime_tools, src/agent_compiler/src/turbo_agent_contracts.c)
    - Tool, ToolRegistry, ToolRegistryFacts: the registry's invariant, lookup,
      projection and composition, the discipline of execution.
    - ToolRuntime, ToolRuntimeFacts: runtimes, reference counts and the bridge to
      a registry: binding is atomic, calls through the bridge are the runtime's.
    - ToolSchema, ToolSchemaFacts: the evaluator of parameter schemas decides
      [admits], the meaning of each keyword.
    - ToolExport, ToolExportFacts: the declarations sent to providers, when there
      are any, and that the names in them resolve to the tools they name.
    - ToolContracts: when the result of one tool may be the argument of another.

    - AgentPolicy, AgentPolicyFacts: src/agent/src/turbo_agent_policy.c.  A path that
      validates stays inside the workspace; a projection for a policy shows exactly
      the tools it lets run; which actions run, wait or are denied.
    - AgentInbox, AgentInboxQueue, AgentInboxSafe: src/agent/src/turbo_agent_inbox.c.
      An operation is its sections under the mutex; [step] lets any threads run
      sections in any order.  Accepted messages are never lost or doubled, room is
      accounted for, and every operation is a run of such sections: what it makes of
      the queue, or why it refuses.  While all messages are of one kind they are
      claimed oldest first; with two kinds [AgentInboxRuns.other_kind_overtakes].

    The compiler of tool plans (src/agent_compiler)
    - DagCompiler, DagFacts, DagPlanFacts: admission, dependency resolution, cycle
      detection and the sealed plan.
    - CflowRegion, CflowOptimizer, CflowFacts: native regions of a plan, the graph
      of functions CFlow is given for them, and their discovery.

    Text
    - TextSplitter: src/agent/src/turbo_text_splitter.c; the chunks tile the text.

    Providers (src/provider)
    - Prompt, PromptFacts, PromptWire: canonical messages and their conversion to
      three wire formats.  A message that validates has a [message_view]; each
      conversion is a reference function of the views.
    - Sse, SseFacts, SseChat, SseAnthropic, SseResponses: streamed responses.
      Cutting a rendered stream gives its data back; each provider's response is
      the document of all streamed pieces joined; [anthropic_gap] is a fault of
      the code.

    Routing of model calls (src/agent/src/turbo_agent_router*.c, turbo_agent_execution.c)
    - AgentExecution: an execution on a thread pool: admission, what the worker
      publishes, cancellation, one handing over of the result.
    - AgentRouter, AgentRouterFacts: endpoints, requests, the authority of agents;
      the choice of an endpoint is the first cheapest that qualifies.
    - AgentRouterTask, AgentRouterIntent, AgentRouterOps: tasks and their documents,
      the intents of admissions, and every control operation on tasks and groups
      over one explicit state.
    - AgentRouterInv, AgentRouterSlots, AgentRouterLife, AgentRouterSafe,
      AgentRouterLifecycle: the invariant [router_inv], the changes of state that
      keep it and the operations made of them ([keeps], [after]).
    - AgentRouterSystem, AgentRouterGroup: any calls and worker steps as a system;
      slots are the live tasks, groups are delivered all at once.

    Records and jobs
    - JsonRecord: documents with given members, and chains of setters that build
      them or fail ([builds]).
    - RuntimeStore, RuntimeStoreFacts: src/runtime/src/turbo_runtime_store.c, the
      JSON operations over a table of callbacks and the memory backend, a finite
      map.  [tells] and [commits] say what an operation of a client reads and
      writes, over any backend.
    - AgentJob, AgentJobFacts: src/harness/src/turbo_agent_job.c.  A job as the
      abstract value it stands for, the records that store it, and that reading
      its history gives it back.
    - AgentJobSpec, AgentJobLife: the operations refine the abstract job whatever
      the backend and memory do; what was acknowledged stays; creation claims an
      identity once; snapshots read back.

    ** How the parts meet

    The registry's entries call handlers of a bridged ToolRuntime; its schemas are
    those ToolSchema evaluates, before execution (ToolRegistry) and at admission
    (DagCompiler); a plan's registry is a projection of ToolRegistry; a region
    (CflowRegion) is cut from a plan; Resilience polls a token of RuntimeControl
    through CancelToken; the graph's executors poll a token status and emit
    RuntimeEvent events and checkpoints; the documents streams are put together
    into (Sse) are built by the constructors of Prompt and hold messages that its
    validator accepts; jobs
    and the messages of an inbox are records of a runtime's store.

    ** Fuel and bounds

    The graph executors take fuel; [run_terminates] gives the number of
    iterations a step limit allows, as [state_graph_terminates] does for state
    graphs, where the merge of objects has the height of the update as its fuel.
    A node that runs another graph reports the exhaustion of its fuel as an
    error.  Nodes of a state graph do not call operations of the graph they run
    in; a child graph is part of the world.  The schema evaluator recurses to the code's own
    depth limit.  The hash of the DAG compiler takes fuel for the depth of a
    document and answers [None] only when it is exhausted.  Waits and transports
    take the schedule of events as a list, and end with it only when the code
    would go on waiting.  The event loop of a stream takes the length of its text
    ([sse_loop_fuel]).

    ** Not modelled

    - Persistence: event logs, run history, SQLite and file stores, the store of
      state graph snapshots; sessions and the remote protocol; the agent loop and
      its workflows, the observations, inspection, review intents and tool lane of
      the router, the harness but for its jobs; knowledge, memory and vector stores.  They
      are the next steps of this development, from the core outwards.
    - The certificate and the diagram of a DAG plan; the schemas of messages.
    - HTTP, MCP, command line, coding tools, audio capture, WebAssembly: glue
      over the operating system or over engines outside src/.
    - Destruction of values without aliases; memory ordering of atomics.
    - src/vendor, src/tools/lemon: third-party code. *)

From stdpp Require Export base option list strings gmap.
From Stdlib Require Export ZArith Lia.

#[global] Open Scope Z_scope.

(** ** Machine integers

    [size_t] and [uint64_t] are 64-bit, [unsigned int] and [uint32_t] are
    32-bit; values are kept in [Z] and every operation that can wrap says so. *)

Definition UINT64_MAX : Z := 18446744073709551615.
Definition SIZE_MAX : Z := 18446744073709551615.
Definition UINT32_MAX : Z := 4294967295.
Definition UINT_MAX : Z := 4294967295.
Definition INT64_MAX : Z := 9223372036854775807.
Definition INT64_MIN : Z := -9223372036854775808.

(** Unsigned 64-bit wrap-around. *)
Definition u64 (z : Z) : Z := z mod 2 ^ 64.

Lemma u64_small z : 0 <= z <= UINT64_MAX -> u64 z = z.
Proof. intros H. apply Z.mod_small. unfold UINT64_MAX in H. lia. Qed.

Lemma u64_range z : 0 <= u64 z <= UINT64_MAX.
Proof.
  unfold u64, UINT64_MAX. pose proof (Z.mod_pos_bound z (2 ^ 64)). lia.
Qed.

(** Unsigned 32-bit wrap-around. *)
Definition u32 (z : Z) : Z := z mod 2 ^ 32.

Lemma u32_small z : 0 <= z <= UINT_MAX -> u32 z = z.
Proof. intros H. apply Z.mod_small. unfold UINT_MAX in H. lia. Qed.

(** The code of a C character, as an [unsigned char]. *)
Definition char_code (c : Ascii.ascii) : Z := Z.of_nat (Ascii.nat_of_ascii c).

Lemma char_code_range c : 0 <= char_code c < 256.
Proof. unfold char_code. pose proof (Ascii.nat_ascii_bounded c). lia. Qed.

Lemma string_app_assoc (s t u : string) : ((s ++ t) ++ u = s ++ (t ++ u))%string.
Proof. induction s as [|c s IH]; [done|].
  change (String c ((s ++ t) ++ u) = String c (s ++ t ++ u))%string. by rewrite IH.
Qed.

Lemma string_app_nil_r (s : string) : (s ++ "" = s)%string.
Proof. induction s as [|c s IH]; [done|].
  change (String c (s ++ EmptyString) = String c s)%string. by rewrite IH.
Qed.

(** The bytes of a buffer that a C string function sees. *)
Definition ch_nul : Ascii.ascii := Ascii.ascii_of_nat 0.

Fixpoint c_string (s : string) : string :=
  match s with
  | EmptyString => EmptyString
  | String c s => if decide (c = ch_nul) then EmptyString else String c (c_string s)
  end.

(** A text without NUL, the only kind a [const char *] can pass. *)
Definition c_text (s : string) : Prop := c_string s = s.
Definition c_text_if (s : option string) : Prop := from_option c_text True s.

#[export] Instance c_text_dec s : Decision (c_text s).
Proof. unfold c_text. apply _. Defined.
#[export] Instance c_text_if_dec s : Decision (c_text_if s).
Proof. destruct s; cbn; apply _. Defined.

Lemma c_string_idem s : c_string (c_string s) = c_string s.
Proof.
  induction s as [|c s IH]; [done|]. cbn. destruct (decide (c = ch_nul)) as [|Hc]; [done|].
  cbn. by rewrite decide_False, IH.
Qed.

Lemma c_text_string s : c_text (c_string s).
Proof. apply c_string_idem. Qed.

Lemma c_string_text s : c_text s -> c_string s = s.
Proof. done. Qed.

Lemma c_text_app s t : c_text s -> c_text t -> c_text (s ++ t).
Proof.
  unfold c_text. intros Hs Ht. induction s as [|c s IH]; [done|]. cbn in Hs.
  change (String c s ++ t)%string with (String c (s ++ t)). cbn.
  destruct (decide (c = ch_nul)); [done|]. injection Hs as Hs. by rewrite IH.
Qed.

Lemma c_text_default d x : c_text d -> c_text_if x -> c_text (default d x).
Proof. by destruct x. Qed.

Create HintDb c_texts.
#[export] Hint Resolve c_text_app : c_texts.
#[export] Hint Resolve c_text_string : c_texts.
#[export] Hint Extern 1 (c_text (String _ _)) => (by vm_compute) : c_texts.
#[export] Hint Extern 1 (c_text EmptyString) => done : c_texts.

(** ** Allocation

    An allocation that can fail consumes one answer of an oracle; an exhausted
    oracle means that every later allocation succeeds. *)

Definition oracle : Type := list bool.

Definition alloc (o : oracle) : bool * oracle :=
  match o with
  | [] => (true, [])
  | b :: o' => (b, o')
  end.

Lemma alloc_tail b o o' : alloc o = (b, o') -> forall x, x ∈ o' -> x ∈ o.
Proof. destruct o as [|c o]; simpl; intros [= <- <-] x; [done|]. by right. Qed.

Lemma alloc_false o o' : alloc o = (false, o') -> false ∈ o.
Proof. destruct o as [|c o]; simpl; intros [= -> <-]. by left. Qed.

(** A computation that only takes answers off the oracle. *)
Definition consumes {A} (f : oracle -> A * oracle) : Prop := forall o x, x ∈ (f o).2 -> x ∈ o.

Lemma consumes_alloc : consumes alloc.
Proof. intros o x. destruct (alloc o) as [b o'] eqn:E. by apply (alloc_tail _ _ _ E). Qed.

(** Memory does not run out. *)
Definition plenty (o : oracle) : Prop := false ∉ o.

Lemma alloc_plenty o : plenty o -> exists o', plenty o' /\ alloc o = (true, o').
Proof.
  unfold plenty. destruct o as [|[] o]; simpl; intros Hp; [by exists []| |set_solver].
  exists o. split; [set_solver|done].
Qed.

Lemma plenty_nil : plenty [].
Proof. unfold plenty. set_solver. Qed.

(** A computation whose answer memory cannot change, as long as there is some. *)
Definition steady {A} (f : oracle -> A * oracle) : Prop :=
  exists a, forall o, plenty o -> exists o', plenty o' /\ f o = (a, o').

Lemma steady_ret {A} (a : A) : steady (fun o => (a, o)).
Proof. exists a. intros o Hp. by exists o. Qed.

Lemma steady_alloc : steady alloc.
Proof. exists true. apply alloc_plenty. Qed.

Lemma steady_bind {A B} (f : oracle -> A * oracle) (k : A -> oracle -> B * oracle) :
  steady f -> (forall a, steady (k a)) -> steady (fun o => let (a, o) := f o in k a o).
Proof.
  intros [a Ha] Hk. destruct (Hk a) as [b Hb]. exists b. intros o Hp.
  destruct (Ha o Hp) as (o1 & Hp1 & ->). by apply Hb.
Qed.

Lemma steady_ext {A} (f g : oracle -> A * oracle) : (forall o, f o = g o) -> steady g -> steady f.
Proof. intros E [a Ha]. exists a. intros o Hp. rewrite E. by apply Ha. Qed.

(** The answer can be read off any two runs. *)
Lemma steady_agree {A} (f : oracle -> A * oracle) o o' : steady f -> plenty o -> plenty o' ->
  (f o).1 = (f o').1.
Proof.
  intros [a Ha] Hp Hp'. destruct (Ha o Hp) as (? & _ & ->), (Ha o' Hp') as (? & _ & ->). done.
Qed.

(** [salts] status codes the source names ([salts/errno]-style header, not
    under src/): only their identity is used, never their value. *)
Inductive salts_status : Type :=
| SALTS_OK | SALTS_EINVAL | SALTS_ENOMEM | SALTS_ERANGE | SALTS_EALREADY
| SALTS_ETIMEDOUT | SALTS_ECANCELED | SALTS_ENOENT | SALTS_EPROTO | SALTS_EIO
| SALTS_EBUSY | SALTS_ENOSPC | SALTS_ENOBUFS | SALTS_ENOTSUP | SALTS_EPERM
| SALTS_OTHER (code : Z).

#[global] Instance salts_status_eq_dec : EqDecision salts_status.
Proof. solve_decision. Defined.

(** ** Automation *)

(** Case split on the innermost scrutinee of the goal or of a hypothesis. *)
Ltac split_match :=
  match goal with
  | |- context [match ?x with _ => _ end] =>
      lazymatch x with
      | context [match _ with _ => _ end] => fail
      | _ => destruct x eqn:?
      end
  | H : context [match ?x with _ => _ end] |- _ =>
      lazymatch x with
      | context [match _ with _ => _ end] => fail
      | _ => destruct x eqn:?
      end
  end.

(** Boolean comparisons of integers become propositions. *)
Ltac bool_to_prop :=
  repeat match goal with
    | H : (_ && _) = true |- _ => apply andb_prop in H; destruct H
    | H : (_ || _) = false |- _ => apply orb_false_elim in H; destruct H
    | H : (_ <=? _) = true |- _ => apply Z.leb_le in H
    | H : (_ <=? _) = false |- _ => apply Z.leb_gt in H
    | H : (_ <? _) = true |- _ => apply Z.ltb_lt in H
    | H : (_ <? _) = false |- _ => apply Z.ltb_ge in H
    | H : (_ =? _) = true |- _ => apply Z.eqb_eq in H
    | H : (_ =? _) = false |- _ => apply Z.eqb_neq in H
    | H : negb _ = true |- _ => apply negb_true_iff in H
    | H : negb _ = false |- _ => apply negb_false_iff in H
    | H : bool_decide _ = true |- _ => apply bool_decide_eq_true in H
    | H : bool_decide _ = false |- _ => apply bool_decide_eq_false in H
    end.

(** Split everything and finish with arithmetic or congruence. *)
Ltac crush :=
  repeat (split_match; simplify_eq/=); bool_to_prop; simplify_eq/=;
  try done; try lia.
