(* ===== verification/RuntimeJson.v ===== *)
(** * JSON values (src/runtime_data/src/turbo_runtime_json.c)

    The JSON library itself ([json_parser.h]) is not under src/: it is a type
    class of operations, [JsonApi], with its documented behaviour as a class of
    laws, [JsonLaws].  The wrappers of [turbo_runtime_json.c] are translated on
    top of it: ownership-preserving setters with their error codes and the
    exact integer reader.  [JsonTree] is a concrete instance, used to run the
    definitions and to show that the laws are consistent. *)

From stdpp Require Import pretty.
Set Warnings "-register-all".
From S2P Require Import Prelude.

(** ** IEEE doubles, as exact values *)

(** A finite double is [mantissa * 2 ^ exponent]. *)
Inductive cdouble : Type :=
| DFinite (mantissa exponent : Z)
| DInf (negative : bool)
| DNan.

#[global] Instance cdouble_eq_dec : EqDecision cdouble.
Proof. solve_decision. Defined.

(** [isfinite(d) && trunc(d) == d], giving the integer. *)
Definition double_integral (d : cdouble) : option Z :=
  match d with
  | DFinite m e =>
      if 0 <=? e then Some (m * 2 ^ e)
      else if m mod 2 ^ (- e) =? 0 then Some (m / 2 ^ (- e)) else None
  | _ => None
  end.

(** Conversion of a non-negative integer to [double]: exact below [2 ^ 53],
    otherwise rounded to 53 significant bits, ties to even. *)
Definition double_of_uint (n : Z) : cdouble :=
  if n <? 2 ^ 53 then DFinite n 0
  else
    let e := Z.log2 n - 52 in
    let q := n / 2 ^ e in
    let r := n mod 2 ^ e in
    let up := (2 ^ (e - 1) <? r) || ((r =? 2 ^ (e - 1)) && Z.odd q) in
    DFinite (if up then q + 1 else q) e.

Lemma double_of_uint_exact n :
  n < 2 ^ 53 -> double_integral (double_of_uint n) = Some n.
Proof.
  intros Hn. unfold double_of_uint. apply Z.ltb_lt in Hn. rewrite Hn.
  simpl. f_equal. lia.
Qed.

(** The comparisons of C: false as soon as one side is not a number. *)
Definition double_compare (a b : cdouble) : option comparison :=
  match a, b with
  | DNan, _ | _, DNan => None
  | DInf na, DInf nb =>
      Some (match na, nb with
            | true, false => Lt | false, true => Gt | _, _ => Eq end)
  | DInf na, DFinite _ _ => Some (if na then Lt else Gt)
  | DFinite _ _, DInf nb => Some (if nb then Gt else Lt)
  | DFinite m e, DFinite m' e' =>
      let low := Z.min e e' in Some (m * 2 ^ (e - low) ?= m' * 2 ^ (e' - low))
  end.

Definition double_lt (a b : cdouble) : bool :=
  match double_compare a b with Some Lt => true | _ => false end.
Definition double_le (a b : cdouble) : bool :=
  match double_compare a b with Some Lt | Some Eq => true | _ => false end.
Definition double_eq (a b : cdouble) : bool :=
  match double_compare a b with Some Eq => true | _ => false end.

Definition isfinite (d : cdouble) : bool :=
  match d with DFinite _ _ => true | _ => false end.

(** ** Decimal integers: the part of [strtoimax] the reader relies on *)

Definition is_space (c : Ascii.ascii) : bool :=
  let n := char_code c in (n =? 32) || ((9 <=? n) && (n <=? 13)).

Definition digit_value (c : Ascii.ascii) : option Z :=
  let n := char_code c in
  if (48 <=? n) && (n <=? 57) then Some (n - 48) else None.

Fixpoint skip_space (s : string) : string :=
  match s with
  | String c rest => if is_space c then skip_space rest else s
  | EmptyString => s
  end.

(** Value of a non-empty run of digits that is the whole rest of the text. *)
Fixpoint digits_value (acc : Z) (s : string) : option Z :=
  match s with
  | EmptyString => Some acc
  | String c rest =>
      match digit_value c with
      | Some d => digits_value (acc * 10 + d) rest
      | None => None
      end
  end.

Definition unsigned_value (s : string) : option Z :=
  match s with EmptyString => None | _ => digits_value 0 s end.

(** The integer [strtoimax(s, &end, 10)] denotes when [end] reaches the end of
    the text; [None] when some text is left over. *)
Definition decimal_value (s : string) : option Z :=
  match skip_space s with
  | String c rest =>
      if char_code c =? 45 (* '-' *) then Z.opp <$> unsigned_value rest
      else if char_code c =? 43 (* '+' *) then unsigned_value rest
      else unsigned_value (String c rest)
  | EmptyString => None
  end.

(** [strtoimax] with [errno == 0] and [end] at the end of the text. *)
Definition strtoimax_all (s : string) : option Z :=
  n ← decimal_value s;
  if (INT64_MIN <=? n) && (n <=? INT64_MAX) then Some n else None.

(** ** The library interface *)

Inductive json_kind : Type :=
| JSON_NULL | JSON_BOOL | JSON_NUMBER | JSON_STRING | JSON_ARRAY | JSON_OBJECT.

#[global] Instance json_kind_eq_dec : EqDecision json_kind.
Proof. solve_decision. Defined.

(** Pure views of the library's operations.  Constructors and insertions can
    also fail for lack of memory: their callers consume an oracle answer. *)
Class JsonApi (J : Type) := {
  json_type : J -> json_kind;
  json_create_null : J;
  json_create_string : string -> J;
  json_create_int64 : Z -> J;
  json_create_number : cdouble -> J;
  json_create_object : J;
  json_create_array : J;
  json_clone : J -> J;
  json_object_add : J -> string -> J -> J;
  json_object_get : J -> string -> option J;
  json_array_add : J -> J -> J;
  json_object_size : J -> Z;
  json_array_size : J -> Z;
  json_array_items : J -> list J;
  json_bool : J -> bool;
  json_number : J -> cdouble;
  json_number_text : J -> option string;
  json_string : J -> string;
  json_serialize : J -> string;
  json_parse : string -> option J
}.

(** A number text with no fraction and no exponent. *)
Definition plain_text (t : string) : bool :=
  forallb (fun c => negb ((char_code c =? 46) (* '.' *) || (char_code c =? 101) (* 'e' *)
                          || (char_code c =? 69) (* 'E' *)))
    (String.list_ascii_of_string t).

(** What the callers rely on.  [json_equiv] is equality of documents; parsing a
    serialized document gives an equivalent one. *)
Class JsonLaws (J : Type) `{JsonApi J} := {
  json_equiv : relation J;
  #[global] json_equiv_equivalence :: Equivalence json_equiv;
  json_type_proper : forall a b, json_equiv a b -> json_type a = json_type b;
  json_get_proper : forall a b k, json_equiv a b ->
    option_Forall2 json_equiv (json_object_get a k) (json_object_get b k);
  json_string_proper : forall a b, json_equiv a b -> json_string a = json_string b;
  json_number_proper : forall a b, json_equiv a b ->
    json_type a = JSON_NUMBER -> json_number a = json_number b;
  json_items_proper : forall a b, json_equiv a b ->
    Forall2 json_equiv (json_array_items a) (json_array_items b);
  json_clone_equiv : forall j, json_equiv (json_clone j) j;
  json_parse_serialize : forall j,
    exists j', json_parse (json_serialize j) = Some j' /\ json_equiv j' j;
  json_type_object : json_type json_create_object = JSON_OBJECT;
  json_type_array : json_type json_create_array = JSON_ARRAY;
  json_type_array_add : forall a v, json_type a = JSON_ARRAY ->
    json_type (json_array_add a v) = JSON_ARRAY;
  json_items_create : json_array_items json_create_array = [];
  json_items_add : forall a v, json_type a = JSON_ARRAY ->
    json_array_items (json_array_add a v) = json_array_items a ++ [v];
  json_type_string : forall s, json_type (json_create_string s) = JSON_STRING;
  json_type_number : forall d, json_type (json_create_number d) = JSON_NUMBER;
  json_string_create : forall s, json_string (json_create_string s) = s;
  json_number_create : forall d, json_number (json_create_number d) = d;
  json_type_add : forall o k v, json_type o = JSON_OBJECT ->
    json_type (json_object_add o k v) = JSON_OBJECT;
  json_get_add : forall o k v, json_type o = JSON_OBJECT ->
    json_object_get (json_object_add o k v) k = Some v;
  json_get_add_ne : forall o k k' v, json_type o = JSON_OBJECT -> k <> k' ->
    json_object_get (json_object_add o k v) k' = json_object_get o k';
  (** the exact token of a number, when it is a plain integer, agrees with the
      double up to the rounding of the conversion *)
  json_number_text_agrees : forall j t n, json_type j = JSON_NUMBER ->
    json_number_text j = Some t -> plain_text t = true ->
    double_integral (json_number j) = Some n -> 0 <= n < 2 ^ 53 ->
    decimal_value t = Some n
}.

(** The library's own convenience setters.  Their callers ignore whether they
    ran out of memory, so they are given with the oracle; only their behaviour
    with enough memory is relied on. *)
Class JsonSetters (J : Type) `{JsonApi J} := {
  json_object_set_string : J -> string -> string -> oracle -> J * oracle;
  json_object_set_number : J -> string -> cdouble -> oracle -> J * oracle;
  json_object_set_bool : J -> string -> bool -> oracle -> J * oracle;
  json_object_set_null : J -> string -> oracle -> J * oracle;
  json_object_add_owned : J -> string -> J -> oracle -> J * oracle;
  json_array_add_owned : J -> J -> oracle -> J * oracle;
  json_create_bool : bool -> J
}.

Class JsonSettersLaws (J : Type) `{JsonSetters J} := {
  json_set_string_plenty : forall obj k s o, plenty o -> exists o', plenty o' /\
    json_object_set_string obj k s o = (json_object_add obj k (json_create_string s), o');
  json_set_number_plenty : forall obj k d o, plenty o -> exists o', plenty o' /\
    json_object_set_number obj k d o = (json_object_add obj k (json_create_number d), o');
  json_set_bool_plenty : forall obj k b o, plenty o -> exists o', plenty o' /\
    json_object_set_bool obj k b o = (json_object_add obj k (json_create_bool b), o');
  json_set_null_plenty : forall obj k o, plenty o -> exists o', plenty o' /\
    json_object_set_null obj k o = (json_object_add obj k json_create_null, o');
  json_object_add_plenty : forall obj k v o, plenty o -> exists o', plenty o' /\
    json_object_add_owned obj k v o = (json_object_add obj k v, o');
  json_array_add_plenty : forall a v o, plenty o -> exists o', plenty o' /\
    json_array_add_owned a v o = (json_array_add a v, o');
  json_set_string_consumes : forall obj k s, consumes (json_object_set_string obj k s);
  json_set_number_consumes : forall obj k d, consumes (json_object_set_number obj k d);
  json_object_add_consumes : forall obj k v, consumes (json_object_add_owned obj k v);
  json_array_add_consumes : forall a v, consumes (json_array_add_owned a v);
  json_type_bool : forall b, json_type (json_create_bool b) = JSON_BOOL;
  json_bool_create : forall b, json_bool (json_create_bool b) = b
}.

(** Walking through the members of an object, in order: [json_object_key] and
    [json_object_value] at the indices below [json_object_size].  Keys are C strings:
    the library takes and gives them as such. *)
Class JsonMembers (J : Type) `{JsonApi J} := {
  json_members : J -> list (string * J)
}.

Class JsonMembersLaws (J : Type) `{JsonMembers J} := {
  json_members_size : forall j, json_object_size j = Z.of_nat (length (json_members j));
  json_items_size : forall j, json_array_size j = Z.of_nat (length (json_array_items j));
  json_get_member : forall j k v, json_object_get j k = Some v -> (k, v) ∈ json_members j;
  json_member_get : forall j k v, (k, v) ∈ json_members j -> is_Some (json_object_get j k)
}.

(** The text of a string as [strcmp], [strlen] and [tstr_dup] see it: up to its
    first NUL.  [json_string] is the whole text, of [json_string_len] bytes. *)
Definition json_c_text {J} `{JsonApi J} (j : J) : string := c_string (json_string j).

Lemma json_c_text_proper {J} `{JsonLaws J} (a b : J) :
  json_equiv a b -> json_c_text a = json_c_text b.
Proof. intros E. unfold json_c_text. by rewrite (json_string_proper _ _ E). Qed.

Lemma json_c_text_is {J} `{JsonApi J} (j : J) : c_text (json_c_text j).
Proof. apply c_text_string. Qed.
#[export] Hint Resolve json_c_text_is : c_texts.

Lemma json_c_text_create {J} `{JsonLaws J} s : json_c_text (json_create_string (J := J) s) = c_string s.
Proof. unfold json_c_text. by rewrite json_string_create. Qed.

(** ** The wrappers *)

(* src/runtime_data/include/turbo_runtime_json.h 15-22 turbo_runtime_json_status_t *)
Inductive turbo_runtime_json_status : Type :=
| TURBO_RUNTIME_JSON_OK
| TURBO_RUNTIME_JSON_ERROR
| TURBO_RUNTIME_JSON_INVALID_ARGUMENT
| TURBO_RUNTIME_JSON_OUT_OF_MEMORY
| TURBO_RUNTIME_JSON_TYPE_MISMATCH
| TURBO_RUNTIME_JSON_NOT_FOUND.

Section wrappers.
Context {J : Type} `{JsonApi J}.

(** Every setter returns the status, the object afterwards and the oracle. *)
Definition set_result : Type := turbo_runtime_json_status * option J * oracle.

(* src/runtime_data/src/turbo_runtime_json.c 14-25 turbo_runtime_json_object_set *)
Definition turbo_runtime_json_object_set (object : option J) (key : option string)
    (field_value : option J) (o : oracle) : set_result :=
  match object, key, field_value with
  | Some obj, Some k, Some v =>
      if negb (bool_decide (json_type obj = JSON_OBJECT))
      then (TURBO_RUNTIME_JSON_TYPE_MISMATCH, object, o)
      else
        let (added, o) := alloc o in
        if added then (TURBO_RUNTIME_JSON_OK, Some (json_object_add obj k v), o)
        else (TURBO_RUNTIME_JSON_OUT_OF_MEMORY, object, o)
  | _, _, _ => (TURBO_RUNTIME_JSON_INVALID_ARGUMENT, object, o)
  end.

(** The value is NULL when its construction ran out of memory. *)
(* src/runtime_data/src/turbo_runtime_json.c 28-39 turbo_runtime_json_object_set_owned *)
Definition turbo_runtime_json_object_set_owned (object : option J) (key : option string)
    (value : option J) (o : oracle) : set_result :=
  match value with
  | None => (TURBO_RUNTIME_JSON_OUT_OF_MEMORY, object, o)
  | Some v => turbo_runtime_json_object_set object key (Some v) o
  end.

(** The shared shape of the typed setters: argument and type checks, then the
    construction of the value, then the insertion. *)
Definition set_constructed (object : option J) (key : option string) (arg : option J)
    (o : oracle) : set_result :=
  match object, key, arg with
  | Some obj, Some _, Some v =>
      if negb (bool_decide (json_type obj = JSON_OBJECT))
      then (TURBO_RUNTIME_JSON_TYPE_MISMATCH, object, o)
      else
        let (created, o) := alloc o in
        turbo_runtime_json_object_set_owned object key (if created then Some v else None) o
  | _, _, _ => (TURBO_RUNTIME_JSON_INVALID_ARGUMENT, object, o)
  end.

(* src/runtime_data/src/turbo_runtime_json.c 41-50 turbo_runtime_json_object_set_string *)
Definition turbo_runtime_json_object_set_string (object : option J) (key : option string)
    (value : option string) (o : oracle) : set_result :=
  set_constructed object key (json_create_string <$> value) o.

(* src/runtime_data/src/turbo_runtime_json.c 52-61 turbo_runtime_json_object_set_int64 *)
Definition turbo_runtime_json_object_set_int64 (object : option J) (key : option string)
    (value : Z) (o : oracle) : set_result :=
  set_constructed object key (Some (json_create_int64 value)) o.

(* src/runtime_data/src/turbo_runtime_json.c 63-72 turbo_runtime_json_object_set_clone *)
Definition turbo_runtime_json_object_set_clone (object : option J) (key : option string)
    (value : option J) (o : oracle) : set_result :=
  set_constructed object key (json_clone <$> value) o.

(* src/runtime_data/src/turbo_runtime_json.c 74-85 turbo_runtime_json_array_append *)
Definition turbo_runtime_json_array_append (array : option J) (element_value : option J)
    (o : oracle) : set_result :=
  match array, element_value with
  | Some arr, Some v =>
      if negb (bool_decide (json_type arr = JSON_ARRAY))
      then (TURBO_RUNTIME_JSON_TYPE_MISMATCH, array, o)
      else
        let (added, o) := alloc o in
        if added then (TURBO_RUNTIME_JSON_OK, Some (json_array_add arr v), o)
        else (TURBO_RUNTIME_JSON_OUT_OF_MEMORY, array, o)
  | _, _ => (TURBO_RUNTIME_JSON_INVALID_ARGUMENT, array, o)
  end.

(* src/runtime_data/src/turbo_runtime_json.c 87-99 turbo_runtime_json_value_size *)
Definition turbo_runtime_json_value_size (value : option J) : Z :=
  match value with
  | None => 0
  | Some v =>
      match json_type v with
      | JSON_OBJECT => json_object_size v
      | JSON_ARRAY => json_array_size v
      | _ => 0
      end
  end.

(* src/runtime_data/src/turbo_runtime_json.c 101-105 turbo_runtime_json_value_as_bool *)
Definition turbo_runtime_json_value_as_bool (value : option J) (default_value : Z) : Z :=
  match value with
  | Some v => if bool_decide (json_type v = JSON_BOOL)
              then (if json_bool v then 1 else 0) else default_value
  | None => default_value
  end.

(** The double path: finite, integral and within [[-2^63, 2^63)]. *)
(* src/runtime_data/src/turbo_runtime_json.c 136-142 turbo_runtime_json_value_as_int64 *)
Definition int64_of_double (number : cdouble) (default_value : Z) : Z :=
  match double_integral number with
  | Some n => if (n <? -9223372036854775808) || (9223372036854775808 <=? n)
              then default_value else n
  | None => default_value
  end.

(* src/runtime_data/src/turbo_runtime_json.c 107-143 turbo_runtime_json_value_as_int64 *)
Definition turbo_runtime_json_value_as_int64 (value : option J) (default_value : Z) : Z :=
  match value with
  | None => default_value
  | Some v =>
      if negb (bool_decide (json_type v = JSON_NUMBER)) then default_value
      else
        match json_number_text v with
        | Some t =>
            if (0 <? Z.of_nat (String.length t)) && (Z.of_nat (String.length t) <? 22)
               && plain_text t
            then default default_value (strtoimax_all t)
            else int64_of_double (json_number v) default_value
        | None => int64_of_double (json_number v) default_value
        end
  end.

(* src/runtime_data/src/turbo_runtime_json.c 145-150 turbo_runtime_json_value_as_double *)
Definition turbo_runtime_json_value_as_double (value : option J) (default_value : cdouble)
  : cdouble :=
  match value with
  | Some v => if bool_decide (json_type v = JSON_NUMBER) then json_number v else default_value
  | None => default_value
  end.

(** A C string: its reader sees the bytes before the first NUL. *)
(* src/runtime_data/src/turbo_runtime_json.c 152-156 turbo_runtime_json_value_as_string *)
Definition turbo_runtime_json_value_as_string (value : option J) : option string :=
  match value with
  | Some v => if bool_decide (json_type v = JSON_STRING) then Some (json_c_text v) else None
  | None => None
  end.

Lemma as_string_c_text (value : option J) s :
  turbo_runtime_json_value_as_string value = Some s -> c_text s.
Proof. destruct value as [v|]; cbn; [|done]. case_bool_decide; [intros [= <-]; apply json_c_text_is|done]. Qed.

End wrappers.

(** ** Lemmas: printing and reading decimal integers *)

Lemma digit_value_char d : (d < 10)%N -> digit_value (pretty_N_char d) = Some (Z.of_N d).
Proof.
  intros Hd. assert (d = 0 \/ d = 1 \/ d = 2 \/ d = 3 \/ d = 4 \/ d = 5 \/ d = 6 \/
    d = 7 \/ d = 8 \/ d = 9)%N as Hcase by lia.
  by repeat destruct Hcase as [->|Hcase]; subst.
Qed.

Lemma pretty_N_go_ind (P : N -> string -> Prop) :
  (forall s, P 0%N s) ->
  (forall x s, (0 < x)%N -> P (x / 10)%N (String (pretty_N_char (x mod 10)) s) -> P x s) ->
  forall x s, P x s.
Proof.
  intros H0 Hs x. induction (N.lt_wf_0 x) as [x _ IH]. intros s.
  destruct (decide (x = 0%N)) as [->|Hne]; [apply H0|].
  apply Hs; [lia|]. apply IH, N.div_lt; lia.
Qed.

Lemma digits_value_go x s :
  digits_value 0 (pretty_N_go x s) = digits_value (Z.of_N x) s.
Proof.
  revert x s. apply pretty_N_go_ind; [done|]. intros x s Hx IH.
  rewrite pretty_N_go_step, IH by done. simpl.
  rewrite digit_value_char by (apply N.mod_lt; lia).
  f_equal. pose proof (N.div_mod' x 10). lia.
Qed.

Lemma length_go_le k x s :
  Z.of_N x < 10 ^ Z.of_nat k -> (String.length (pretty_N_go x s) <= k + String.length s)%nat.
Proof.
  revert x s. induction k as [|k IH]; intros x s Hx.
  - assert (x = 0%N) as -> by lia. rewrite pretty_N_go_0. lia.
  - destruct (decide (x = 0%N)) as [->|Hne]; [rewrite pretty_N_go_0; lia|].
    rewrite pretty_N_go_step by lia. etrans; [apply IH|simpl; lia].
    rewrite Nat2Z.inj_succ, Z.pow_succ_r in Hx by lia.
    revert Hx. generalize (10 ^ Z.of_nat k). intros b Hx.
    pose proof (N.div_mod' x 10). pose proof (N.le_0_l (x mod 10)). lia.
Qed.

Lemma length_go_pos x s :
  (0 < x)%N -> (String.length s < String.length (pretty_N_go x s))%nat.
Proof.
  assert (forall x s, (String.length s <= String.length (pretty_N_go x s))%nat) as Hle.
  { apply (pretty_N_go_ind (fun x s => String.length s <= String.length (pretty_N_go x s))%nat);
      [done|]. intros y t Hy IH. rewrite pretty_N_go_step by done. simpl in IH. lia. }
  intros Hx. rewrite pretty_N_go_step by done. eapply Nat.lt_le_trans; [|apply Hle]. simpl. lia.
Qed.

Lemma plain_text_char d s :
  (d < 10)%N -> plain_text s = true -> plain_text (String (pretty_N_char d) s) = true.
Proof.
  intros Hd Hs. assert (d = 0 \/ d = 1 \/ d = 2 \/ d = 3 \/ d = 4 \/ d = 5 \/ d = 6 \/
    d = 7 \/ d = 8 \/ d = 9)%N as Hcase by lia.
  by repeat destruct Hcase as [->|Hcase]; subst.
Qed.

Lemma plain_text_go x s : plain_text s = true -> plain_text (pretty_N_go x s) = true.
Proof.
  revert x s. apply (pretty_N_go_ind (fun x s => plain_text s = true -> _)); [done|].
  intros x s Hx IH Hs. rewrite pretty_N_go_step by done.
  apply IH, plain_text_char; [apply N.mod_lt; lia|done].
Qed.

(** The first character of a printed natural number is a digit. *)
Lemma go_head x s :
  (0 < x)%N -> exists d r, (d < 10)%N /\ pretty_N_go x s = String (pretty_N_char d) r.
Proof.
  revert x s. apply (pretty_N_go_ind (fun x s => (0 < x)%N -> _)); [lia|].
  intros x s Hx IH _. rewrite pretty_N_go_step by done.
  destruct (decide (0 < x / 10)%N) as [Hd|Hd]; [by apply IH|].
  assert ((x / 10)%N = 0%N) as -> by (apply N.le_0_r, N.nlt_ge; done). rewrite pretty_N_go_0.
  eexists _, _. split; [|done]. apply N.mod_lt. lia.
Qed.

Lemma unsigned_value_go x :
  (0 < x)%N -> unsigned_value (pretty_N_go x "") = Some (Z.of_N x).
Proof.
  intros Hx. destruct (go_head x "" Hx) as (d & r & _ & E).
  unfold unsigned_value. rewrite E, <- E. apply (digits_value_go x "").
Qed.

Definition dash : Ascii.ascii := Ascii.Ascii true false true true false true false false.

Lemma decimal_value_pretty z : decimal_value (pretty z) = Some z.
Proof.
  destruct z as [|p|p]; [done| |].
  - change (decimal_value (pretty_N_go (N.pos p) "") = Some (Z.pos p)).
    pose proof (unsigned_value_go (N.pos p) ltac:(lia)) as Hv.
    destruct (go_head (N.pos p) "" ltac:(lia)) as (d & r & Hd & E).
    rewrite E in *. unfold decimal_value.
    assert (Hc : is_space (pretty_N_char d) = false /\
                 (char_code (pretty_N_char d) =? 45) = false /\
                 (char_code (pretty_N_char d) =? 43) = false).
    { assert (d = 0 \/ d = 1 \/ d = 2 \/ d = 3 \/ d = 4 \/ d = 5 \/ d = 6 \/
        d = 7 \/ d = 8 \/ d = 9)%N as Hcase by lia.
      by repeat destruct Hcase as [->|Hcase]; subst. }
    destruct Hc as (Hsp & Hm & Hp). cbn [skip_space]. by rewrite Hsp, Hm, Hp.
  - change (decimal_value (String dash (pretty_N_go (N.pos p) "")) = Some (Z.neg p)).
    pose proof (unsigned_value_go (N.pos p) ltac:(lia)) as Hv.
    unfold decimal_value. cbn [skip_space]. change (is_space dash) with false. cbv iota.
    change (char_code dash =? 45) with true. cbv iota. by rewrite Hv.
Qed.

Lemma pretty_int64_length z :
  INT64_MIN <= z <= INT64_MAX ->
  (0 < String.length (pretty z) < 22)%nat /\ plain_text (pretty z) = true.
Proof.
  unfold INT64_MIN, INT64_MAX. intros Hz. destruct z as [|p|p]; [split; [simpl; lia|done]| |].
  - change (pretty (Z.pos p)) with (pretty_N_go (N.pos p) "").
    pose proof (length_go_pos (N.pos p) "" ltac:(lia)).
    pose proof (length_go_le 19 (N.pos p) "" ltac:(simpl; lia)) as Hl.
    simpl in *. split; [lia|]. by apply plain_text_go.
  - change (pretty (Z.neg p)) with (String dash (pretty_N_go (N.pos p) "")).
    pose proof (length_go_le 19 (N.pos p) "" ltac:(simpl; lia)) as Hl.
    simpl in *. split; [lia|]. by apply plain_text_go.
Qed.

Lemma strtoimax_all_range s n :
  strtoimax_all s = Some n -> INT64_MIN <= n <= INT64_MAX /\ decimal_value s = Some n.
Proof.
  unfold strtoimax_all. destruct (decimal_value s) as [m|]; [|done]. simpl.
  case_match; intros; simplify_eq. by bool_to_prop.
Qed.

(** ** Properties of the wrappers *)

Section laws.
Context {J : Type} `{JsonLaws J}.

(** A number whose token is the decimal print of a 64-bit integer reads back. *)
Lemma json_as_int64_token (v : J) n d :
  json_type v = JSON_NUMBER -> json_number_text v = Some (pretty n) ->
  INT64_MIN <= n <= INT64_MAX -> turbo_runtime_json_value_as_int64 (Some v) d = n.
Proof.
  intros Hty Htxt Hn. destruct (pretty_int64_length n Hn) as [Hlen Hplain].
  unfold turbo_runtime_json_value_as_int64. rewrite Htxt, Hplain.
  rewrite bool_decide_eq_true_2 by done. cbn [negb].
  replace (0 <? Z.of_nat (String.length (pretty n))) with true by (symmetry; apply Z.ltb_lt; lia).
  replace (Z.of_nat (String.length (pretty n)) <? 22) with true
    by (symmetry; apply Z.ltb_lt; lia).
  simpl. unfold strtoimax_all. rewrite decimal_value_pretty. simpl.
  unfold INT64_MIN, INT64_MAX in *.
  by rewrite (proj2 (Z.leb_le _ _) (proj1 Hn)), (proj2 (Z.leb_le _ _) (proj2 Hn)).
Qed.

(** C40. The exact integer reader: any number whose token is the decimal print of a
    64-bit integer reads back as exactly that integer (the extreme values
    included), whatever the double of that number is; and whatever the input,
    the result is the caller's default or a 64-bit integer that the token or
    the double denotes exactly. *)
Theorem json_as_int64_exact (v : J) (d : Z) :
  (forall n, json_type v = JSON_NUMBER -> json_number_text v = Some (pretty n) ->
     INT64_MIN <= n <= INT64_MAX -> turbo_runtime_json_value_as_int64 (Some v) d = n) /\
  (turbo_runtime_json_value_as_int64 (Some v) d = d \/
   (json_type v = JSON_NUMBER /\
    INT64_MIN <= turbo_runtime_json_value_as_int64 (Some v) d <= INT64_MAX /\
    ((exists t, json_number_text v = Some t /\
        decimal_value t = Some (turbo_runtime_json_value_as_int64 (Some v) d)) \/
     double_integral (json_number v) =
       Some (turbo_runtime_json_value_as_int64 (Some v) d)))).
Proof.
  split.
  - intros n. apply json_as_int64_token.
  - assert (Hdbl : int64_of_double (json_number v) d = d \/
      INT64_MIN <= int64_of_double (json_number v) d <= INT64_MAX /\
      double_integral (json_number v) = Some (int64_of_double (json_number v) d)).
    { unfold int64_of_double. destruct (double_integral (json_number v)) as [n|]; [|by left].
      case_match; [by left|]. right. bool_to_prop. unfold INT64_MIN, INT64_MAX.
      split; [lia|done]. }
    unfold turbo_runtime_json_value_as_int64.
    destruct (bool_decide_reflect (json_type v = JSON_NUMBER)) as [Hty|]; [|by left].
    cbn [negb]. destruct (json_number_text v) as [t|];
      [|destruct Hdbl as [?|[? ?]]; [by left|by right; eauto]].
    case_match; [|destruct Hdbl as [?|[? ?]]; [by left|by right; eauto]].
    destruct (strtoimax_all t) as [n|] eqn:E; [|by left].
    apply strtoimax_all_range in E as [Hr Hd]. right. simpl. by eauto 6.
Qed.

(** Integers a double holds exactly read back, whether the reader goes through
    the token or through the double. *)
Lemma json_as_int64_number (v : J) n d :
  json_type v = JSON_NUMBER -> json_number v = double_of_uint n -> 0 <= n < 2 ^ 53 ->
  turbo_runtime_json_value_as_int64 (Some v) d = n.
Proof.
  intros Hty Hnum Hn.
  assert (Hint : double_integral (json_number v) = Some n)
    by (rewrite Hnum; apply double_of_uint_exact; lia).
  assert (Hdbl : int64_of_double (json_number v) d = n).
  { unfold int64_of_double. rewrite Hint. case_match; [|done]. bool_to_prop.
    unfold INT64_MIN, INT64_MAX in *. lia. }
  unfold turbo_runtime_json_value_as_int64. rewrite bool_decide_eq_true_2 by done. cbn [negb].
  destruct (json_number_text v) as [t|] eqn:Et; [|done].
  destruct (_ && _ && plain_text t) eqn:Eb; [|done].
  apply andb_prop in Eb as [_ Hplain].
  pose proof (json_number_text_agrees v t n Hty Et Hplain Hint Hn) as Hv.
  unfold strtoimax_all. rewrite Hv. simpl.
  case_match; [done|]. unfold INT64_MIN, INT64_MAX in *. lia.
Qed.

(** The typed setters are all-or-nothing: on OK the receiver is the old object
    with exactly that key set to the constructed value, and on any other status
    the receiver is unchanged. *)
Theorem json_setters_atomic (obj : J) (k : string) (arg : option J) (o : oracle) :
  match set_constructed (Some obj) (Some k) arg o with
  | (TURBO_RUNTIME_JSON_OK, after, _) =>
      exists obj' v, after = Some obj' /\ arg = Some v /\ json_object_get obj' k = Some v /\
        json_type obj' = JSON_OBJECT /\
        (forall k', k <> k' -> json_object_get obj' k' = json_object_get obj k')
  | (TURBO_RUNTIME_JSON_INVALID_ARGUMENT, after, o') =>
      after = Some obj /\ arg = None /\ o' = o
  | (TURBO_RUNTIME_JSON_TYPE_MISMATCH, after, o') =>
      after = Some obj /\ json_type obj <> JSON_OBJECT /\ o' = o
  | (TURBO_RUNTIME_JSON_OUT_OF_MEMORY, after, _) =>
      after = Some obj /\ json_type obj = JSON_OBJECT /\ false ∈ o
  | _ => False
  end.
Proof.
  unfold set_constructed. destruct arg as [v|]; [|done].
  destruct (bool_decide_reflect (json_type obj = JSON_OBJECT)) as [Hty|]; [|done].
  cbn [negb]. destruct o as [|[] [|[] o]]; simpl; unfold turbo_runtime_json_object_set;
    rewrite ?bool_decide_eq_true_2 by done; simpl;
    try (repeat split; (done || set_solver)).
  all: do 2 eexists; repeat split; eauto using json_get_add, json_get_add_ne, json_type_add.
Qed.

End laws.

(** ** A concrete instance

    Trees with the exact number token; documents are equal when the trees are.
    Serialization goes through a bit encoding of the tree. *)

Module JsonTree.

Inductive jtree : Type :=
| JNull
| JBool (b : bool)
| JNum (token : option string) (d : cdouble)
| JStr (s : string)
| JArr (l : list jtree)
| JObj (l : list (string * jtree)).

#[local] Instance cdouble_countable : Countable cdouble.
Proof.
  refine (inj_countable'
    (fun d => match d with
              | DFinite m e => inl (m, e) | DInf b => inr (inl b) | DNan => inr (inr tt) end)
    (fun x => match x with
              | inl (m, e) => DFinite m e | inr (inl b) => DInf b | inr (inr _) => DNan end) _).
  by intros [].
Defined.

Definition leaf : Type := bool + (option string * cdouble) + string.

Fixpoint to_gen (j : jtree) : gen_tree leaf :=
  match j with
  | JNull => GenNode 0 []
  | JBool b => GenLeaf (inl (inl b))
  | JNum t d => GenLeaf (inl (inr (t, d)))
  | JStr s => GenNode 1 [GenLeaf (inr s)]
  | JArr l => GenNode 2 (map to_gen l)
  | JObj l => GenNode 3 (map (fun kv => GenNode 4 [GenLeaf (inr (fst kv)); to_gen (snd kv)]) l)
  end.

Fixpoint of_gen (t : gen_tree leaf) : jtree :=
  match t with
  | GenLeaf (inl (inl b)) => JBool b
  | GenLeaf (inl (inr (t, d))) => JNum t d
  | GenLeaf (inr s) => JStr s
  | GenNode 1 [GenLeaf (inr s)] => JStr s
  | GenNode 2 l => JArr (map of_gen l)
  | GenNode 3 l =>
      JObj (map (fun t => match t with
                          | GenNode _ [GenLeaf (inr k); v] => (k, of_gen v)
                          | _ => (EmptyString, JNull)
                          end) l)
  | _ => JNull
  end.

Lemma of_to_gen : forall j, of_gen (to_gen j) = j.
Proof.
  fix IH 1. intros [|b|t d|s|l|l]; [reflexivity..| |]; simpl; f_equal; rewrite map_map.
  - induction l as [|x l IHl]; simpl; [reflexivity|]. f_equal; [apply IH|exact IHl].
  - induction l as [|[k v] l IHl]; simpl; [reflexivity|].
    f_equal; [f_equal; apply IH|exact IHl].
Qed.

Fixpoint bits (p : positive) : string :=
  match p with
  | xH => EmptyString
  | xO q => String (Ascii.ascii_of_nat 48) (bits q)
  | xI q => String (Ascii.ascii_of_nat 49) (bits q)
  end.

Fixpoint unbits (s : string) : positive :=
  match s with
  | EmptyString => xH
  | String c r => if char_code c =? 48 then xO (unbits r) else xI (unbits r)
  end.

Lemma unbits_bits p : unbits (bits p) = p.
Proof. induction p; simpl; by rewrite ?IHp. Qed.

Definition serialize (j : jtree) : string := bits (encode (to_gen j)).
Definition parse (s : string) : option jtree := of_gen <$> decode (unbits s).

Lemma parse_serialize j : parse (serialize j) = Some j.
Proof. unfold parse, serialize. by rewrite unbits_bits, decode_encode; simpl; rewrite of_to_gen. Qed.

Fixpoint assoc_set (l : list (string * jtree)) (k : string) (v : jtree)
  : list (string * jtree) :=
  match l with
  | [] => [(k, v)]
  | (k', v') :: r => if decide (k = k') then (k, v) :: r else (k', v') :: assoc_set r k v
  end.

Fixpoint assoc_get (l : list (string * jtree)) (k : string) : option jtree :=
  match l with
  | [] => None
  | (k', v) :: r => if decide (k = k') then Some v else assoc_get r k
  end.

Lemma assoc_get_set l k v : assoc_get (assoc_set l k v) k = Some v.
Proof. induction l as [|[k' v'] l IH]; simpl; repeat (case_decide; simpl); done. Qed.

Lemma assoc_get_set_ne l k k' v :
  k <> k' -> assoc_get (assoc_set l k v) k' = assoc_get l k'.
Proof.
  intros Hne. induction l as [|[k0 v0] l IH]; simpl; repeat (case_decide; simpl);
    subst; congruence.
Qed.

#[export] Instance jtree_api : JsonApi jtree := {
  json_type j := match j with
    | JNull => JSON_NULL | JBool _ => JSON_BOOL | JNum _ _ => JSON_NUMBER
    | JStr _ => JSON_STRING | JArr _ => JSON_ARRAY | JObj _ => JSON_OBJECT end;
  json_create_null := JNull;
  json_create_string := JStr;
  json_create_int64 z := JNum (Some (pretty z)) (DFinite z 0);
  json_create_number d := JNum None d;
  json_create_object := JObj [];
  json_create_array := JArr [];
  json_clone j := j;
  json_object_add o k v := match o with JObj l => JObj (assoc_set l k v) | _ => o end;
  json_object_get o k := match o with JObj l => assoc_get l k | _ => None end;
  json_array_add a v := match a with JArr l => JArr (l ++ [v]) | _ => a end;
  json_object_size o := match o with JObj l => Z.of_nat (length l) | _ => 0 end;
  json_array_size a := match a with JArr l => Z.of_nat (length l) | _ => 0 end;
  json_array_items a := match a with JArr l => l | _ => [] end;
  json_bool j := match j with JBool b => b | _ => false end;
  json_number j := match j with
    | JNum (Some t) _ => default DNan ((fun z => DFinite z 0) <$> decimal_value t)
    | JNum None d => d
    | _ => DNan end;
  json_number_text j := match j with JNum t _ => t | _ => None end;
  json_string j := match j with JStr s => s | _ => EmptyString end;
  json_serialize := serialize;
  json_parse := parse
}.

#[export] Instance jtree_laws : JsonLaws jtree.
Proof.
  refine {| json_equiv := eq |}; simpl; try done.
  - by intros a b ->.
  - intros a b k ->. by case_match; [..|destruct (assoc_get l k)]; constructor.
  - by intros a b ->.
  - by intros a b ->.
  - by intros a b ->.
  - intros j. exists j. split; [apply parse_serialize|done].
  - by intros [].
  - by intros [].
  - by intros [].
  - intros [] k v; try done. intros _. apply assoc_get_set.
  - intros [] k k' v; try done. intros _. apply assoc_get_set_ne.
  - intros [| |token d| | |] t n; try done. intros _ -> _.
    destruct (decimal_value t) as [z|]; simpl; [|done]. intros [= <-] _. f_equal. lia.
Defined.

(** A setter that finds no memory leaves its object as it was. *)
#[export] Instance jtree_setters : JsonSetters jtree := {
  json_object_set_string obj k s o :=
    let (ok, o) := alloc o in (if ok then json_object_add obj k (json_create_string s) else obj, o);
  json_object_set_number obj k d o :=
    let (ok, o) := alloc o in (if ok then json_object_add obj k (json_create_number d) else obj, o);
  json_object_set_bool obj k b o :=
    let (ok, o) := alloc o in (if ok then json_object_add obj k (JBool b) else obj, o);
  json_object_set_null obj k o :=
    let (ok, o) := alloc o in (if ok then json_object_add obj k JNull else obj, o);
  json_object_add_owned obj k v o :=
    let (ok, o) := alloc o in (if ok then json_object_add obj k v else obj, o);
  json_array_add_owned a v o :=
    let (ok, o) := alloc o in (if ok then json_array_add a v else a, o);
  json_create_bool := JBool
}.

#[export] Instance jtree_setters_laws : JsonSettersLaws jtree.
Proof.
  split; intros; try done;
    [ .. | ]; try (intros o' x; cbn; destruct (alloc o') as [b o2] eqn:E; by apply (alloc_tail _ _ _ E));
    destruct (alloc_plenty o) as (o' & Ho & E); try done; exists o'; (split; [done|]); cbn; by rewrite E.
Qed.

#[export] Instance jtree_members : JsonMembers jtree := {
  json_members o := match o with JObj l => l | _ => [] end
}.

#[export] Instance jtree_members_laws : JsonMembersLaws jtree.
Proof.
  split.
  - by intros [].
  - by intros [].
  - intros [] k v; try done. cbn. induction l as [|[k' v'] l IH]; cbn; [done|].
    case_decide as E; [|by intros ?%IH; right]. intros [= ->]. subst. by left.
  - intros [] k v; cbn; try (intros Hin; by apply elem_of_nil in Hin).
    induction l as [|[k' v'] l IH]; cbn; [intros Hin; by apply elem_of_nil in Hin|].
    case_decide as E; [by eexists|]. intros [Heq|Hin]%elem_of_cons; [by injection Heq as ? _|auto].
Qed.

End JsonTree.

Module JsonRuns.
Import JsonTree.

(** The runtime-state example: an object whose "revision" is set to 7. *)
Lemma json_setters_atomic_witness :
  turbo_runtime_json_object_set_int64 (Some json_create_object) (Some "revision") 7 [] =
    (TURBO_RUNTIME_JSON_OK, Some (JObj [("revision", JNum (Some "7") (DFinite 7 0))]), []) /\
  exists obj' v, JObj [("revision", JNum (Some "7") (DFinite 7 0))] = obj' /\
    JNum (Some "7") (DFinite 7 0) = v /\ json_object_get obj' "revision" = Some v.
Proof.
  split; [reflexivity|].
  pose proof (json_setters_atomic (J := jtree) json_create_object "revision"
                (Some (JNum (Some "7") (DFinite 7 0))) []) as Hs.
  simpl in Hs. destruct Hs as (obj' & v & Ho & Hv & Hg & _).
  exists obj', v. injection Ho as Ho. injection Hv as Hv. repeat split; [exact Ho|exact Hv|exact Hg].
Defined.

(** The extreme token reads back although its double is not exact. *)
Lemma json_as_int64_exact_witness :
  turbo_runtime_json_value_as_int64 (Some (JNum (Some "-9223372036854775808") DNan)) 0 =
  INT64_MIN.
Proof.
  apply (json_as_int64_exact (JNum (Some "-9223372036854775808") DNan) 0);
    [reflexivity..|split; discriminate].
Defined.

End JsonRuns.
