(* ===== verification/JsonBuild.v ===== *)
(** * Building JSON records

    Chains of setters, checked (each one's failure ends the chain) and unchecked
    (the library's convenience setters, whose failure the code ignores), with
    what they build while memory lasts: the members in order. *)

From S2P Require Import Prelude RuntimeJson.

Definition setter (J : Type) : Type := option J -> oracle -> turbo_runtime_json_status * option J * oracle.
Definition raw_setter (J : Type) : Type := J -> oracle -> J * oracle.

Section setters.
Context {J : Type} `{JsonSetters J}.

(** A member that is changed in place; nothing when the object does not hold it. *)
Definition update_member (obj : J) (k : string) (v : J) : J :=
  match json_object_get obj k with
  | Some _ => json_object_add obj k v
  | None => obj
  end.


Definition set_string (k : string) (v : option string) : setter J :=
  fun obj o => turbo_runtime_json_object_set_string obj (Some k) v o.
Definition set_int64 (k : string) (v : Z) : setter J :=
  fun obj o => turbo_runtime_json_object_set_int64 obj (Some k) v o.

(** A chain of setters joined by [||]: the first failure ends it. *)
Fixpoint set_all (setters : list (setter J)) (obj : option J) (o : oracle)
  : bool * option J * oracle :=
  match setters with
  | [] => (true, obj, o)
  | f :: rest =>
      match f obj o with
      | (TURBO_RUNTIME_JSON_OK, obj, o) => set_all rest obj o
      | (_, obj, o) => (false, obj, o)
      end
  end.

(** Unchecked setters in sequence. *)
Fixpoint raw_all (setters : list (raw_setter J)) (obj : J) (o : oracle) : J * oracle :=
  match setters with
  | [] => (obj, o)
  | f :: rest => let (obj, o) := f obj o in raw_all rest obj o
  end.

Definition raw_string (k v : string) : raw_setter J := fun obj o => json_object_set_string obj k v o.
Definition raw_number (k : string) (n : Z) : raw_setter J :=
  fun obj o => json_object_set_number obj k (double_of_uint n) o.
Definition raw_null (k : string) : raw_setter J := fun obj o => json_object_set_null obj k o.
Definition raw_optional (k : string) (v : option string) : raw_setter J :=
  match v with Some v => raw_string k v | None => raw_null k end.

Definition raw_bool (k : string) (b : bool) : raw_setter J := fun obj o => json_object_set_bool obj k b o.
Definition raw_member (k : string) (v : J) : raw_setter J :=
  fun obj o => json_object_add_owned obj k v o.

End setters.

Section setter_facts.
Context {J : Type} `{JsonSettersLaws J, !JsonLaws J}.

Definition add_member (obj : J) (kv : string * J) : J := json_object_add obj kv.1 kv.2.

(** A setter that adds one member whenever memory is left. *)
Definition sets (f : setter J) (kv : string * J) : Prop :=
  forall obj o, json_type obj = JSON_OBJECT -> plenty o -> exists o', plenty o' /\
    f (Some obj) o = (TURBO_RUNTIME_JSON_OK, Some (add_member obj kv), o').

Lemma set_all_plenty fs kvs : Forall2 sets fs kvs -> forall obj o,
  json_type obj = JSON_OBJECT -> plenty o ->
  exists o', plenty o' /\ set_all fs (Some obj) o = (true, Some (foldl add_member obj kvs), o').
Proof.
  induction 1 as [|f kv fs kvs Hf _ IH]; intros obj o Hty Ho; cbn [set_all foldl].
  - by exists o.
  - destruct (Hf obj o Hty Ho) as (o1 & Ho1 & ->). apply IH; [|done].
    by apply json_type_add.
Qed.

Lemma object_set_plenty (obj : J) k v o : json_type obj = JSON_OBJECT -> plenty o ->
  exists o', plenty o' /\ turbo_runtime_json_object_set (Some obj) (Some k) (Some v) o =
    (TURBO_RUNTIME_JSON_OK, Some (json_object_add obj k v), o').
Proof.
  intros Hty Ho. unfold turbo_runtime_json_object_set.
  rewrite bool_decide_eq_true_2 by done. cbn [negb].
  destruct (alloc_plenty o Ho) as (o' & Ho' & ->). by exists o'.
Qed.

Lemma set_constructed_plenty (obj : J) k v o : json_type obj = JSON_OBJECT -> plenty o ->
  exists o', plenty o' /\ set_constructed (Some obj) (Some k) (Some v) o =
    (TURBO_RUNTIME_JSON_OK, Some (json_object_add obj k v), o').
Proof.
  intros Hty Ho. unfold set_constructed.
  rewrite bool_decide_eq_true_2 by done. cbn [negb].
  destruct (alloc_plenty o Ho) as (o' & Ho' & ->). by apply object_set_plenty.
Qed.

(** Each unchecked setter adds its member while memory lasts. *)
Definition raw_sets (f : raw_setter J) (kv : string * J) : Prop :=
  forall obj o, plenty o -> exists o', plenty o' /\ f obj o = (add_member obj kv, o').

Lemma raw_all_plenty fs kvs : Forall2 raw_sets fs kvs -> forall obj o, plenty o ->
  exists o', plenty o' /\ raw_all fs obj o = (foldl add_member obj kvs, o').
Proof.
  induction 1 as [|f kv fs kvs Hf _ IH]; intros obj o Ho; cbn [raw_all foldl]; [by exists o|].
  destruct (Hf obj o Ho) as (o1 & Ho1 & ->). by apply IH.
Qed.

Lemma foldl_add_type kvs : forall obj : J,
  json_type obj = JSON_OBJECT -> json_type (foldl add_member obj kvs) = JSON_OBJECT.
Proof. induction kvs; intros obj Hty; [done|]. by apply IHkvs, json_type_add. Qed.

Lemma foldl_add_get_other kvs k : forall obj : J, json_type obj = JSON_OBJECT ->
  k ∉ kvs.*1 -> json_object_get (foldl add_member obj kvs) k = json_object_get obj k.
Proof.
  induction kvs as [|[k' v] kvs IH]; intros obj Hty Hk; [done|]. cbn in *.
  apply not_elem_of_cons in Hk as [Hne Hk].
  rewrite IH; [|by apply json_type_add|done]. by apply json_get_add_ne.
Qed.

Lemma foldl_add_get kvs k v : forall obj : J, json_type obj = JSON_OBJECT ->
  NoDup kvs.*1 -> (k, v) ∈ kvs -> json_object_get (foldl add_member obj kvs) k = Some v.
Proof.
  induction kvs as [|[k' v'] kvs IH]; intros obj Hty Hnd Hin;
    [by apply elem_of_nil in Hin|].
  cbn in *. apply NoDup_cons in Hnd as [Hk' Hnd]. apply elem_of_cons in Hin as [[= -> ->]|Hin].
  - rewrite foldl_add_get_other; [|by apply json_type_add|done]. by apply json_get_add.
  - by apply IH; [apply json_type_add|..].
Qed.

End setter_facts.
