(* ===== verification/JsonMem.v ===== *)
(** * Building JSON values in memory that may run out

    Code that builds a document and gives up on the first failed allocation is a
    computation [mem]: it answers a value or NULL.  [gives] says what a
    computation answers while memory lasts; its lemmas, one per operation, are
    the hints of [gives]. *)

From S2P Require Import Prelude RuntimeJson JsonBuild.

Definition mem (A : Type) : Type := oracle -> option A * oracle.

#[global] Instance mem_ret : MRet mem := fun A x o => (Some x, o).
#[global] Instance mem_bind : MBind mem := fun A B k m o =>
  match m o with
  | (Some x, o) => k x o
  | (None, o) => (None, o)
  end.

Section mem.
Context {A : Type}.

Definition mem_fail : mem A := fun o => (None, o).

(** An answer that is looked at later, and one that must not be NULL. *)
Definition attempt (m : mem A) : mem (option A) := fun o => let (x, o) := m o in (Some x, o).
Definition need (x : option A) : mem A := fun o => (x, o).

(** A value the library allocates. *)
Definition create (x : A) : mem A := fun o => let (ok, o) := alloc o in (if ok then Some x else None, o).

End mem.

(** One step per element, the first failure ends the loop. *)
Fixpoint mem_fold {A S : Type} (f : S -> A -> mem S) (l : list A) (s : S) : mem S :=
  match l with
  | [] => mret s
  | x :: l => s ← f s x; mem_fold f l s
  end.

Section json.
Context {J : Type} `{JsonSetters J}.

Definition create_object : mem J := create json_create_object.
Definition create_array : mem J := create json_create_array.
Definition create_string (s : string) : mem J := create (json_create_string s).

(** A text that is parsed: NULL for one that is no document and for lack of
    memory. *)
Definition parse_text (text : string) : mem J :=
  value ← need (json_parse text);
  create value.

(** The checked wrappers; the caller gives up when one fails. *)
Definition put (obj : J) (key : string) (value : J) : mem J := fun o =>
  match turbo_runtime_json_object_set (Some obj) (Some key) (Some value) o with
  | (TURBO_RUNTIME_JSON_OK, obj, o) => (obj, o)
  | (_, _, o) => (None, o)
  end.

Definition append (array value : J) : mem J := fun o =>
  match turbo_runtime_json_array_append (Some array) (Some value) o with
  | (TURBO_RUNTIME_JSON_OK, array, o) => (array, o)
  | (_, _, o) => (None, o)
  end.

Definition put_string (obj : J) (key value : string) : mem J :=
  v ← create_string value; put obj key v.

(** The library's own setters, whose failure the code ignores. *)
Definition quiet (f : raw_setter J) (obj : J) : mem J := fun o =>
  let (obj, o) := f obj o in (Some obj, o).

Definition quiet_append (array value : J) : mem J :=
  quiet (fun a o => json_array_add_owned a value o) array.

(** [json_object_get] of a value that may be NULL, and the text of a member. *)
Definition member (value : option J) (key : string) : option J :=
  v ← value; json_object_get v key.

Definition member_string (value : option J) (key : string) : option string :=
  turbo_runtime_json_value_as_string (member value key).

Definition has_type (value : option J) (t : json_kind) : bool :=
  match value with Some v => bool_decide (json_type v = t) | None => false end.

End json.

(** Documented facts about new values. *)
Class JsonNewLaws (J : Type) `{JsonApi J} := {
  json_type_null : json_type json_create_null = JSON_NULL;
  json_get_new : forall k, json_object_get json_create_object k = None
}.

Module JsonNew.
Import JsonTree.
#[export] Instance jtree_new_laws : JsonNewLaws jtree.
Proof. by split. Qed.
End JsonNew.

(** An object built member by member, and what a key finds in it. *)
Definition object_of {J} `{JsonApi J} (kvs : list (string * J)) : J :=
  foldl add_member json_create_object kvs.

Fixpoint assoc {J} (k : string) (kvs : list (string * J)) : option J :=
  match kvs with
  | [] => None
  | (k', v) :: r =>
      match assoc k r with
      | Some w => Some w
      | None => if String.eqb k' k then Some v else None
      end
  end.

(** An array built by appending. *)
Definition array_of {J} `{JsonApi J} (l : list J) : J := foldl json_array_add json_create_array l.

(** ** While memory lasts *)

Definition gives {A} (m : mem A) (x : option A) : Prop :=
  forall o, plenty o -> exists o', plenty o' /\ m o = (x, o').

Section gives.
Context {A B : Type}.

Lemma gives_ret (x : A) : gives (mret x) (Some x).
Proof. intros o Ho. by exists o. Qed.

Lemma gives_fail : gives (mem_fail (A := A)) None.
Proof. intros o Ho. by exists o. Qed.

Lemma gives_need (x : option A) : gives (need x) x.
Proof. intros o Ho. by exists o. Qed.

Lemma gives_create (x : A) : gives (create x) (Some x).
Proof.
  intros o Ho. unfold create. destruct (alloc_plenty o Ho) as (o' & Ho' & ->). by exists o'.
Qed.

Lemma gives_attempt (m : mem A) x : gives m x -> gives (attempt m) (Some x).
Proof. intros Hm o Ho. destruct (Hm o Ho) as (o' & Ho' & E). exists o'. unfold attempt. by rewrite E. Qed.

Lemma gives_bind (m : mem A) (k : A -> mem B) x y :
  gives m (Some x) -> gives (k x) y -> gives (m ≫= k) y.
Proof.
  intros Hm Hk o Ho. destruct (Hm o Ho) as (o1 & Ho1 & E). unfold mbind, mem_bind. rewrite E.
  by apply Hk.
Qed.

Lemma gives_bind_none (m : mem A) (k : A -> mem B) : gives m None -> gives (m ≫= k) None.
Proof.
  intros Hm o Ho. destruct (Hm o Ho) as (o1 & Ho1 & E). unfold mbind, mem_bind. rewrite E. by exists o1.
Qed.

(** The answer is determined. *)
Lemma gives_unique (m : mem A) x y : gives m x -> gives m y -> x = y.
Proof.
  intros Hx Hy. destruct (Hx [] plenty_nil) as (o & _ & Ex), (Hy [] plenty_nil) as (o' & _ & Ey). congruence.
Qed.

End gives.

(** Computations that only take answers off the oracle. *)
Section consumes.
Context {A B : Type}.

Lemma consumes_ret (x : A) : consumes (mret x : mem A).
Proof. by intros o y. Qed.

Lemma consumes_bind (m : mem A) (k : A -> mem B) : consumes m -> (forall x, consumes (k x)) -> consumes (m ≫= k).
Proof.
  intros Hm Hk o y. unfold mbind, mem_bind. specialize (Hm o y). destruct (m o) as [[x|] o1]; cbn in *; [|done].
  intros Hy. by apply Hm, (Hk x).
Qed.

Lemma consumes_create (x : A) : consumes (create x).
Proof. intros o y. unfold create. destruct (alloc o) as [b o1] eqn:E. by apply (alloc_tail _ _ _ E). Qed.

Lemma consumes_need (x : option A) : consumes (need x).
Proof. by intros o y. Qed.

Lemma consumes_attempt (m : mem A) : consumes m -> consumes (attempt m).
Proof. intros Hm o y. specialize (Hm o y). unfold attempt. by destruct (m o). Qed.

End consumes.

Lemma consumes_fold {A S} (f : S -> A -> mem S) l : (forall s x, consumes (f s x)) -> forall s, consumes (mem_fold f l s).
Proof.
  intros Hf. induction l as [|x l IH]; intros s; cbn [mem_fold]; [apply consumes_ret|]. by apply consumes_bind.
Qed.

(** A loop whose every step answers computes a pure fold. *)
Lemma gives_fold {A S} (f : S -> A -> mem S) (g : S -> A -> S) (P : S -> Prop) (l : list A) :
  Forall (fun x => forall s, P s -> P (g s x) /\ gives (f s x) (Some (g s x))) l ->
  forall s, P s -> gives (mem_fold f l s) (Some (foldl g s l)).
Proof.
  induction 1 as [|x l Hx _ IH]; intros s Hs; cbn; [apply gives_ret|].
  destruct (Hx s Hs) as [Hp Hg]. eapply gives_bind; [exact Hg|]. by apply IH.
Qed.

(** A loop with a step that fails, after steps that answer. *)
Lemma gives_fold_none {A S} (f : S -> A -> mem S) (g : S -> A -> S) (P : S -> Prop) (l : list A) x r :
  Forall (fun x => forall s, P s -> P (g s x) /\ gives (f s x) (Some (g s x))) l ->
  (forall s, P s -> gives (f s x) None) ->
  forall s, P s -> gives (mem_fold f (l ++ x :: r) s) None.
Proof.
  intros Hl Hx. induction Hl as [|y l Hy _ IH]; intros s Hs; cbn.
  - by apply gives_bind_none, Hx.
  - destruct (Hy s Hs) as [Hp Hg]. eapply gives_bind; [exact Hg|]. by apply IH.
Qed.

Lemma consumes_quiet {J} (f : raw_setter J) obj : consumes (f obj) -> consumes (quiet f obj).
Proof. intros Hf o y. specialize (Hf o y). unfold quiet. by destruct (f obj o). Qed.

Section gives_json.
Context {J : Type} `{JsonSettersLaws J, !JsonLaws J}.

Lemma gives_parse text : gives (parse_text (J := J) text) (json_parse text).
Proof.
  unfold parse_text. destruct (json_parse text) as [v|].
  - eapply gives_bind; [apply gives_need|apply gives_create].
  - apply gives_bind_none, gives_need.
Qed.

Lemma gives_put (obj : J) k v : json_type obj = JSON_OBJECT ->
  gives (put obj k v) (Some (json_object_add obj k v)).
Proof.
  intros Hty o Ho. unfold put. destruct (object_set_plenty obj k v o Hty Ho) as (o' & Ho' & ->).
  by exists o'.
Qed.

Lemma gives_put_string (obj : J) k s : json_type obj = JSON_OBJECT ->
  gives (put_string obj k s) (Some (json_object_add obj k (json_create_string s))).
Proof. intros Hty. eapply gives_bind; [apply gives_create|]. by apply gives_put. Qed.

Lemma gives_append (a v : J) : json_type a = JSON_ARRAY ->
  gives (append a v) (Some (json_array_add a v)).
Proof.
  intros Hty o Ho. unfold append, turbo_runtime_json_array_append.
  rewrite bool_decide_eq_true_2 by done. cbn [negb].
  destruct (alloc_plenty o Ho) as (o' & Ho' & ->). by exists o'.
Qed.

Lemma gives_quiet (f : raw_setter J) kv obj : raw_sets f kv ->
  gives (quiet f obj) (Some (add_member obj kv)).
Proof.
  intros Hf o Ho. unfold quiet. destruct (Hf obj o Ho) as (o' & Ho' & ->). by exists o'.
Qed.

Lemma gives_quiet_append (a v : J) : gives (quiet_append a v) (Some (json_array_add a v)).
Proof.
  intros o Ho. unfold quiet_append, quiet. destruct (json_array_add_plenty a v o Ho) as (o' & Ho' & ->).
  by exists o'.
Qed.

Lemma raw_string_sets k s : raw_sets (J := J) (raw_string k s) (k, json_create_string s).
Proof. intros obj o Ho. by apply json_set_string_plenty. Qed.

Lemma raw_number_sets k n : raw_sets (J := J) (raw_number k n) (k, json_create_number (double_of_uint n)).
Proof. intros obj o Ho. by apply json_set_number_plenty. Qed.

Lemma raw_null_sets k : raw_sets (J := J) (raw_null k) (k, json_create_null).
Proof. intros obj o Ho. by apply json_set_null_plenty. Qed.

Lemma raw_member_sets k (v : J) : raw_sets (raw_member k v) (k, v).
Proof. intros obj o Ho. by apply json_object_add_plenty. Qed.

Lemma foldl_add_assoc k kvs : forall obj : J, json_type obj = JSON_OBJECT ->
  json_object_get (foldl add_member obj kvs) k =
  match assoc k kvs with Some v => Some v | None => json_object_get obj k end.
Proof.
  induction kvs as [|[k' v] kvs IH]; intros obj Hty; [done|]. cbn [foldl assoc].
  rewrite IH by (by apply json_type_add). destruct (assoc k kvs); [done|]. unfold add_member. cbn [fst snd].
  destruct (String.eqb_spec k' k) as [->|Hne]; [by apply json_get_add|by apply json_get_add_ne].
Qed.

Lemma object_of_get `{!JsonNewLaws J} k (kvs : list (string * J)) :
  json_object_get (object_of kvs) k = assoc k kvs.
Proof.
  unfold object_of. rewrite foldl_add_assoc by apply json_type_object.
  destruct (assoc k kvs); [done|apply json_get_new].
Qed.

Lemma object_of_type (kvs : list (string * J)) : json_type (object_of kvs) = JSON_OBJECT.
Proof. apply foldl_add_type, json_type_object. Qed.

Lemma object_of_snoc (kvs : list (string * J)) k v :
  add_member (object_of kvs) (k, v) = object_of (kvs ++ [(k, v)]).
Proof. unfold object_of. by rewrite foldl_app. Qed.

(** Appending a list of values. *)
Lemma array_add_all (l : list J) : forall a, json_type a = JSON_ARRAY ->
  json_type (foldl json_array_add a l) = JSON_ARRAY /\
  json_array_items (foldl json_array_add a l) = json_array_items a ++ l.
Proof.
  induction l as [|x l IH]; intros a Ha; cbn [foldl]; [by rewrite app_nil_r|].
  destruct (IH (json_array_add a x)) as [Ht Hi]; [by apply json_type_array_add|]. split; [done|].
  by rewrite Hi, json_items_add, <- app_assoc.
Qed.

Lemma array_of_spec (l : list J) :
  json_type (array_of l) = JSON_ARRAY /\ json_array_items (array_of l) = l.
Proof.
  destruct (array_add_all l json_create_array json_type_array) as [Ht Hi].
  split; [done|]. unfold array_of. by rewrite Hi, json_items_create.
Qed.

(** A loop that appends what each element gives, until one gives NULL. *)
Lemma gives_append_each (f : J -> J -> mem J) (l : list J) ys :
  Forall2 (fun x y => forall a, json_type a = JSON_ARRAY ->
    gives (f a x) (foldl json_array_add a <$> y)) l ys ->
  forall a, json_type a = JSON_ARRAY ->
  gives (mem_fold f l a) (foldl json_array_add a ∘ mjoin <$> mapM id ys).
Proof.
  induction 1 as [|x y l ys Hx _ IH]; intros a Ha; cbn [mem_fold mapM]; [apply gives_ret|].
  specialize (Hx a Ha). destruct y as [y|]; cbn in Hx |- *; [|by apply gives_bind_none].
  eapply gives_bind; [exact Hx|]. destruct (array_add_all y a Ha) as [Ht _].
  specialize (IH _ Ht). destruct (mapM id ys) as [zs|]; cbn in IH |- *; [|done].
  by rewrite foldl_app.
Qed.

(** One converted value per element. *)
Lemma gives_each (f : J -> mem J) (l : list J) ys :
  Forall2 (fun x y => gives (f x) y) l ys -> forall a, json_type a = JSON_ARRAY ->
  gives (mem_fold (fun a x => y ← f x; quiet_append a y) l a)
    (foldl json_array_add a <$> mapM id ys).
Proof.
  intros Hall a Ha.
  pose proof (gives_append_each (fun a x => y ← f x; quiet_append a y) l
    ((fun y : option J => (fun z => [z]) <$> y) <$> ys)) as Hg.
  replace (foldl json_array_add a <$> mapM id ys) with
    (foldl json_array_add a ∘ mjoin <$> mapM id ((fun y : option J => (fun z => [z]) <$> y) <$> ys)).
  - apply Hg; [|done]. apply Forall2_fmap_r. eapply Forall2_impl; [exact Hall|]. intros x y Hx b Hb.
    destruct y as [y|]; cbn; [|by apply gives_bind_none]. eapply gives_bind; [exact Hx|].
    apply gives_quiet_append.
  - clear. revert a. induction ys as [|[y|] ys IH]; intros a; cbn; [done| |done].
    specialize (IH (json_array_add a y)).
    destruct (mapM id ys), (mapM id ((fun y : option J => (fun z => [z]) <$> y) <$> ys)); cbn in IH |- *; done.
Qed.

End gives_json.

Create HintDb gives.
#[export] Hint Resolve gives_ret gives_fail gives_need gives_create gives_attempt gives_put
  gives_put_string gives_append gives_quiet gives_quiet_append raw_string_sets raw_number_sets
  raw_null_sets raw_member_sets : gives.

(** Run a straight-line computation: every bind answers by a hint. *)
Ltac gives_step :=
  first [eapply gives_bind; [solve [eauto with gives]|] | eapply gives_bind_none; solve [eauto with gives]].
