(* ===== verification/RuntimeEvent.v ===== *)
(** * Canonical runtime events (src/runtime_data/src/turbo_event.c)

    The event a graph run sends to its sink: an object with exactly the fields
    kind, name, detail, payload and status, or NULL when memory runs out. *)

From S2P Require Import Prelude RuntimeJson.

Section event.
Context {J : Type} `{JsonApi J}.

(** [true] is the C result 0; the object is the one after the call. *)
(* src/runtime_data/src/turbo_event.c 7-22 turbo_event_set_string_field *)
Definition turbo_event_set_string_field (object : J) (key : string) (value : option string)
    (o : oracle) : bool * J * oracle :=
  let (created, o) := alloc o in
  if negb created then (false, object, o)
  else
    let field := json_create_string (default EmptyString value) in
    match turbo_runtime_json_object_set (Some object) (Some key) (Some field) o with
    | (TURBO_RUNTIME_JSON_OK, Some object, o) => (true, object, o)
    | (_, _, o) => (false, object, o)
    end.

(** The chain of [||]: the first failing field stops the construction. *)
Fixpoint event_set_fields (object : J) (fields : list (string * option string))
    (o : oracle) : bool * J * oracle :=
  match fields with
  | [] => (true, object, o)
  | (k, v) :: rest =>
      let '(ok, object, o) := turbo_event_set_string_field object k v o in
      if ok then event_set_fields object rest o else (false, object, o)
  end.

(* src/runtime_data/src/turbo_event.c 758-782 turbo_event_trace_create_json_value *)
Definition turbo_event_trace_create_json_value (name detail payload : option string)
    (status : Z) (o : oracle) : option J * oracle :=
  let (created, o) := alloc o in
  if negb created then (None, o)
  else
    let (status_created, o) := alloc o in
    if negb status_created then (None, o)
    else
      let '(ok, event, o) :=
        event_set_fields json_create_object
          [("kind", Some "trace"); ("name", name); ("detail", detail); ("payload", payload)]
          o in
      if negb ok then (None, o)
      else
        match turbo_runtime_json_object_set (Some event) (Some "status")
                (Some (json_create_int64 status)) o with
        | (TURBO_RUNTIME_JSON_OK, event, o) => (event, o)
        | (_, _, o) => (None, o)
        end.

End event.

Section event_laws.
Context {J : Type} `{JsonLaws J}.

(** The document a trace event is, when it is created at all. *)
Definition trace_event_document (name detail payload : option string) (status : Z) : J :=
  json_object_add
    (json_object_add
      (json_object_add
        (json_object_add
          (json_object_add json_create_object "kind" (json_create_string "trace"))
          "name" (json_create_string (default EmptyString name)))
        "detail" (json_create_string (default EmptyString detail)))
      "payload" (json_create_string (default EmptyString payload)))
    "status" (json_create_int64 status).

Lemma event_set_string_field_cases object key value o :
  json_type object = JSON_OBJECT ->
  exists o', turbo_event_set_string_field object key value o =
      (true, json_object_add object key (json_create_string (default EmptyString value)), o') \/
    turbo_event_set_string_field object key value o = (false, object, o').
Proof.
  intros Hty. unfold turbo_event_set_string_field, turbo_runtime_json_object_set.
  rewrite bool_decide_eq_true_2 by done. cbn [negb].
  destruct (alloc o) as [[] o1]; cbn [negb]; [|by eexists; right].
  destruct (alloc o1) as [[] o2]; by eexists; eauto.
Qed.

Lemma trace_create_cases name detail payload status o :
  exists o', turbo_event_trace_create_json_value name detail payload status o =
      (Some (trace_event_document name detail payload status), o') \/
    turbo_event_trace_create_json_value name detail payload status o = (None, o').
Proof.
  unfold turbo_event_trace_create_json_value.
  destruct (alloc o) as [[] o1]; cbn [negb]; [|by eexists; right].
  destruct (alloc o1) as [[] o2]; cbn [negb]; [|by eexists; right].
  unfold event_set_fields, trace_event_document.
  set (k0 := json_create_object).
  assert (T0 : json_type k0 = JSON_OBJECT) by apply json_type_object.
  destruct (event_set_string_field_cases k0 "kind" (Some "trace") o2 T0) as [o3 [-> | ->]];
    [|by eexists; right].
  set (k1 := json_object_add k0 _ _).
  assert (T1 : json_type k1 = JSON_OBJECT) by by apply json_type_add.
  destruct (event_set_string_field_cases k1 "name" name o3 T1) as [o4 [-> | ->]];
    [|by eexists; right].
  set (k2 := json_object_add k1 _ _).
  assert (T2 : json_type k2 = JSON_OBJECT) by by apply json_type_add.
  destruct (event_set_string_field_cases k2 "detail" detail o4 T2) as [o5 [-> | ->]];
    [|by eexists; right].
  set (k3 := json_object_add k2 _ _).
  assert (T3 : json_type k3 = JSON_OBJECT) by by apply json_type_add.
  destruct (event_set_string_field_cases k3 "payload" payload o5 T3) as [o6 [-> | ->]];
    [|by eexists; right].
  set (k4 := json_object_add k3 _ _).
  assert (T4 : json_type k4 = JSON_OBJECT) by by apply json_type_add.
  cbn [negb]. unfold turbo_runtime_json_object_set.
  rewrite bool_decide_eq_true_2 by done. cbn [negb].
  destruct (alloc o6) as [[] o7]; by eexists; eauto.
Qed.

End event_laws.
