(* ===== verification/RuntimeControl.v ===== *)
(** * Cancellation control (src/runtime_core)

    The cancel source, its shared reference-counted state and its tokens.
    A heap holds the one shared state, the source handle and the tokens made
    from it; an operation that would touch freed memory yields [None], so that
    memory safety is a statement about reachable heaps.  Operations guarded by
    the mutex, and the atomic counters, are single atomic steps; the
    compare-and-swap retry loop is modelled separately with the values its
    failed attempts observe. *)

From S2P Require Import Prelude.

(** ** Data *)

Module Control.

(* src/runtime_core/include/turbo_runtime_control.h 19-19 TURBO_CANCEL_NONE *)
Definition TURBO_CANCEL_NONE : Z := 0.
(* src/runtime_core/include/turbo_runtime_control.h 20-20 TURBO_CANCEL_USER *)
Definition TURBO_CANCEL_USER : Z := 1.
(* src/runtime_core/include/turbo_runtime_control.h 21-21 TURBO_CANCEL_DEADLINE *)
Definition TURBO_CANCEL_DEADLINE : Z := 2.
(* src/runtime_core/include/turbo_runtime_control.h 22-22 TURBO_CANCEL_SHUTDOWN *)
Definition TURBO_CANCEL_SHUTDOWN : Z := 3.
(* src/runtime_core/include/turbo_runtime_control.h 23-23 TURBO_CANCEL_PARENT *)
Definition TURBO_CANCEL_PARENT : Z := 4.
(* src/runtime_core/include/turbo_runtime_control.h 12-12 TURBO_RUNTIME_CONTROL_ABI_VERSION *)
Definition TURBO_RUNTIME_CONTROL_ABI_VERSION : Z := 1.
(* src/runtime_core/include/turbo_runtime_control.h 13-13 TURBO_RUNTIME_WAIT_INFINITE *)
Definition TURBO_RUNTIME_WAIT_INFINITE : Z := UINT64_MAX.
(* src/runtime_core/src/turbo_runtime_control.c 10-10 TURBO_CANCEL_MAX_WAIT_SLICE_MS *)
Definition TURBO_CANCEL_MAX_WAIT_SLICE_MS : Z := UINT32_MAX - 1.
(* src/runtime_core/src/turbo_runtime_control.c 11-11 TURBO_MILLISECONDS_TO_NANOSECONDS *)
Definition TURBO_MILLISECONDS_TO_NANOSECONDS : Z := 1000000.

(* src/runtime_core/include/turbo_runtime_control.h 26-30 turbo_cancel_wait_status_t *)
Inductive turbo_cancel_wait_status : Type :=
| TURBO_CANCEL_WAIT_SIGNALED
| TURBO_CANCEL_WAIT_TIMEOUT
| TURBO_CANCEL_WAIT_INVALID_ARGUMENT.

(** [sizeof] of the configuration: two [uint32_t], one [uint64_t] and two
    pointers. *)
Definition sizeof_config : Z := 32.

Section control.

(** The platform clock and the callbacks read a world the library never
    changes; a callback closes over its borrowed [clock_user_data]. *)
Context {World : Type} (cmeta_monotonic_ms : World -> Z).

(* src/runtime_core/src/turbo_runtime_control.c 13-21 turbo_cancel_state_t *)
Record turbo_cancel_state := mk_state {
  ref_count : Z;
  reason : Z;
  deadline_mono_ms : Z;
  monotonic_ms : option (World -> Z);
  broadcasts : nat  (** [cmeta_cond_broadcast] calls on [cond] so far *)
}.

(* src/runtime_core/include/turbo_runtime_control.h 41-50 turbo_cancel_source_config_t *)
Record turbo_cancel_source_config := mk_config {
  cfg_struct_size : Z;
  cfg_abi_version : Z;
  cfg_deadline_mono_ms : Z;
  cfg_monotonic_ms : option (World -> Z)
}.

(** Source handle, shared state and tokens (each with its own count). *)
(* src/runtime_core/src/turbo_runtime_control.c 23-30 turbo_cancel_token_s *)
Record cancel_heap := mk_heap {
  h_state : option turbo_cancel_state;  (** [None]: freed *)
  h_source : bool;
  h_tokens : gmap nat Z
}.

Definition set_ref (n : Z) (st : turbo_cancel_state) : turbo_cancel_state :=
  mk_state n (reason st) (deadline_mono_ms st) (monotonic_ms st) (broadcasts st).
Definition publish (r : Z) (st : turbo_cancel_state) : turbo_cancel_state :=
  mk_state (ref_count st) r (deadline_mono_ms st) (monotonic_ms st)
    (S (broadcasts st)).
Definition set_state (st : option turbo_cancel_state) (h : cancel_heap) : cancel_heap :=
  mk_heap st (h_source h) (h_tokens h).
Definition set_tokens (m : gmap nat Z) (h : cancel_heap) : cancel_heap :=
  mk_heap (h_state h) (h_source h) m.

(** ** The shared state *)

(* src/runtime_core/src/turbo_runtime_control.c 32-37 turbo_cancel_state_now_ms *)
Definition turbo_cancel_state_now_ms (w : World) (st : turbo_cancel_state) : Z :=
  match monotonic_ms st with
  | Some f => f w
  | None => cmeta_monotonic_ms w
  end.

(* src/runtime_core/src/turbo_runtime_control.c 39-45 turbo_cancel_config_valid *)
Definition turbo_cancel_config_valid (config : option turbo_cancel_source_config) : bool :=
  match config with
  | None => true
  | Some c =>
      (sizeof_config <=? cfg_struct_size c)
      && (cfg_abi_version c =? TURBO_RUNTIME_CONTROL_ABI_VERSION)
  end.

(** The compare-and-swap loop: each element of [observed] is the counter value
    a failed attempt wrote back into [current]; when the list is exhausted the
    next attempt succeeds.  The result is the answer and the counter. *)
(* src/runtime_core/src/turbo_runtime_control.c 47-64 turbo_cancel_state_retain *)
Fixpoint turbo_cancel_state_retain (observed : list Z) (current : Z) : bool * Z :=
  if current =? SIZE_MAX then (false, current)
  else match observed with
       | [] => (true, current + 1)
       | c :: rest => turbo_cancel_state_retain rest c
       end.

(* src/runtime_core/src/turbo_runtime_control.c 66-78 turbo_cancel_state_release *)
Definition turbo_cancel_state_release (st : option turbo_cancel_state)
  : option turbo_cancel_state :=
  match st with
  | None => None
  | Some s => if ref_count s =? 1 then None
              else Some (set_ref (u64 (ref_count s - 1)) s)
  end.

(* src/runtime_core/src/turbo_runtime_control.c 80-82 turbo_cancel_reason_valid *)
Definition turbo_cancel_reason_valid (r : Z) : bool :=
  (TURBO_CANCEL_USER <=? r) && (r <=? TURBO_CANCEL_PARENT).

(* src/runtime_core/src/turbo_runtime_control.c 84-92 turbo_cancel_state_refresh_deadline_locked *)
Definition turbo_cancel_state_refresh_deadline_locked
    (st : turbo_cancel_state) (now_ms : Z) : turbo_cancel_state :=
  if (reason st =? TURBO_CANCEL_NONE) && negb (deadline_mono_ms st =? 0)
     && (deadline_mono_ms st <=? now_ms)
  then publish TURBO_CANCEL_DEADLINE st
  else st.

(* src/runtime_core/src/turbo_runtime_control.c 94-102 turbo_cancel_reason_status *)
Definition turbo_cancel_reason_status (r : Z) : salts_status :=
  if r =? TURBO_CANCEL_NONE then SALTS_OK
  else if r =? TURBO_CANCEL_DEADLINE then SALTS_ETIMEDOUT
  else SALTS_ECANCELED.

(* src/runtime_core/src/turbo_runtime_control.c 104-109 turbo_cancel_saturating_add_ms *)
Definition turbo_cancel_saturating_add_ms (start duration : Z) : Z :=
  if UINT64_MAX - start <? duration then UINT64_MAX else u64 (start + duration).

(** ** Source *)

(** [out_source] tells whether the out pointer is non-NULL.  The four oracle
    answers are the two [calloc]s, the mutex and the condition variable. *)
(* src/runtime_core/src/turbo_runtime_control.c 111-151 turbo_cancel_source_create *)
Definition turbo_cancel_source_create (config : option turbo_cancel_source_config)
    (out_source : bool) (o : oracle) : salts_status * option cancel_heap * oracle :=
  if negb out_source then (SALTS_EINVAL, None, o)
  else if negb (turbo_cancel_config_valid config) then (SALTS_EINVAL, None, o)
  else
    let (source_ok, o) := alloc o in
    let (state_ok, o) := alloc o in
    if negb source_ok || negb state_ok then (SALTS_ENOMEM, None, o)
    else
      let (mutex_ok, o) := alloc o in
      let (cond_ok, o) := alloc o in
      if negb mutex_ok || negb cond_ok then (SALTS_ENOMEM, None, o)
      else
        let st :=
          match config with
          | Some c => mk_state 1 TURBO_CANCEL_NONE (cfg_deadline_mono_ms c)
                        (cfg_monotonic_ms c) 0
          | None => mk_state 1 TURBO_CANCEL_NONE 0 None 0
          end in
        (SALTS_OK, Some (mk_heap (Some st) true ∅), o).

(** Destroying a NULL source ([h_source = false] models the absent handle)
    does nothing. *)
(* src/runtime_core/src/turbo_runtime_control.c 153-160 turbo_cancel_source_destroy *)
Definition turbo_cancel_source_destroy (h : cancel_heap) : option cancel_heap :=
  if negb (h_source h) then Some h
  else match h_state h with
       | None => None
       | Some _ => Some (mk_heap (turbo_cancel_state_release (h_state h)) false (h_tokens h))
       end.

(** [fresh] is the address the token allocation returns. *)
(* src/runtime_core/src/turbo_runtime_control.c 162-186 turbo_cancel_source_token *)
Definition turbo_cancel_source_token (fresh : nat) (out_token : bool) (h : cancel_heap)
    (o : oracle) : option (salts_status * cancel_heap * oracle) :=
  if negb out_token then Some (SALTS_EINVAL, h, o)
  else if negb (h_source h) then Some (SALTS_EINVAL, h, o)
  else match h_state h with
       | None => None
       | Some st =>
           let (retained, count) := turbo_cancel_state_retain [] (ref_count st) in
           let st := set_ref count st in
           if negb retained then Some (SALTS_ERANGE, set_state (Some st) h, o)
           else
             let (token_ok, o) := alloc o in
             if negb token_ok
             then Some (SALTS_ENOMEM,
                        set_state (turbo_cancel_state_release (Some st)) h, o)
             else Some (SALTS_OK,
                        set_tokens (<[fresh := 1]> (h_tokens h))
                          (set_state (Some st) h), o)
       end.

(* src/runtime_core/src/turbo_runtime_control.c 188-206 turbo_cancel_source_cancel *)
Definition turbo_cancel_source_cancel (r : Z) (w : World) (h : cancel_heap)
  : option (salts_status * cancel_heap) :=
  if negb (h_source h) || negb (turbo_cancel_reason_valid r) then Some (SALTS_EINVAL, h)
  else match h_state h with
       | None => None
       | Some st =>
           let st := turbo_cancel_state_refresh_deadline_locked st
                       (turbo_cancel_state_now_ms w st) in
           if negb (reason st =? TURBO_CANCEL_NONE)
           then Some (SALTS_EALREADY, set_state (Some st) h)
           else Some (SALTS_OK, set_state (Some (publish r st)) h)
       end.

(* src/runtime_core/src/turbo_runtime_control.c 208-219 turbo_cancel_source_reason *)
Definition turbo_cancel_source_reason (w : World) (h : cancel_heap)
  : option (Z * cancel_heap) :=
  if negb (h_source h) then Some (TURBO_CANCEL_NONE, h)
  else match h_state h with
       | None => None
       | Some st =>
           let st := turbo_cancel_state_refresh_deadline_locked st
                       (turbo_cancel_state_now_ms w st) in
           Some (reason st, set_state (Some st) h)
       end.

(** ** Tokens

    A token argument is [None] for NULL and [Some t] for an address; an address
    that is not a live token is a dangling pointer. *)

(** The retry loop of a token also refuses a dead counter (0). *)
(* src/runtime_core/src/turbo_runtime_control.c 227-236 turbo_cancel_token_retain *)
Fixpoint turbo_cancel_token_retain_loop (observed : list Z) (current : Z) : bool * Z :=
  if (current =? 0) || (current =? SIZE_MAX) then (false, current)
  else match observed with
       | [] => (true, current + 1)
       | c :: rest => turbo_cancel_token_retain_loop rest c
       end.

(* src/runtime_core/src/turbo_runtime_control.c 221-237 turbo_cancel_token_retain *)
Definition turbo_cancel_token_retain (token : option nat) (h : cancel_heap)
  : option (option nat * cancel_heap) :=
  match token with
  | None => Some (None, h)
  | Some t =>
      match h_tokens h !! t with
      | None => None
      | Some n =>
          let (ok, n') := turbo_cancel_token_retain_loop [] n in
          Some (if ok then Some t else None, set_tokens (<[t := n']> (h_tokens h)) h)
      end
  end.

(* src/runtime_core/src/turbo_runtime_control.c 239-249 turbo_cancel_token_release *)
Definition turbo_cancel_token_release (token : option nat) (h : cancel_heap)
  : option cancel_heap :=
  match token with
  | None => Some h
  | Some t =>
      match h_tokens h !! t with
      | None => None
      | Some n =>
          if negb (n =? 1) then Some (set_tokens (<[t := u64 (n - 1)]> (h_tokens h)) h)
          else match h_state h with
               | None => None
               | Some _ => Some (set_tokens (delete t (h_tokens h))
                                   (set_state (turbo_cancel_state_release (h_state h)) h))
               end
      end
  end.

(** The locked section the three token queries share. *)
(* src/runtime_core/src/turbo_runtime_control.c 270-274 turbo_cancel_token_reason *)
Definition token_refreshed_reason (token : nat) (w : World) (h : cancel_heap)
  : option (Z * cancel_heap) :=
  match h_tokens h !! token, h_state h with
  | Some _, Some st =>
      let st := turbo_cancel_state_refresh_deadline_locked st
                  (turbo_cancel_state_now_ms w st) in
      Some (reason st, set_state (Some st) h)
  | _, _ => None
  end.

(* src/runtime_core/src/turbo_runtime_control.c 251-262 turbo_cancel_token_check *)
Definition turbo_cancel_token_check (token : option nat) (w : World) (h : cancel_heap)
  : option (salts_status * cancel_heap) :=
  match token with
  | None => Some (SALTS_EINVAL, h)
  | Some t =>
      '(r, h) ← token_refreshed_reason t w h; Some (turbo_cancel_reason_status r, h)
  end.

(* src/runtime_core/src/turbo_runtime_control.c 264-275 turbo_cancel_token_reason *)
Definition turbo_cancel_token_reason (token : option nat) (w : World) (h : cancel_heap)
  : option (Z * cancel_heap) :=
  match token with
  | None => Some (TURBO_CANCEL_NONE, h)
  | Some t => token_refreshed_reason t w h
  end.

(* src/runtime_core/src/turbo_runtime_control.c 277-282 turbo_cancel_token_deadline_mono_ms *)
Definition turbo_cancel_token_deadline_mono_ms (token : option nat) (h : cancel_heap)
  : option Z :=
  match token with
  | None => Some 0
  | Some t =>
      match h_tokens h !! t, h_state h with
      | Some _, Some st => Some (deadline_mono_ms st)
      | _, _ => None
      end
  end.

(** ** Waiting

    While the waiter sleeps the mutex is released: a [wake] says what another
    thread published meanwhile through [turbo_cancel_source_cancel] (reason and
    the world it read the clock in), and the world at the wake-up. *)

Inductive wait_call : Type :=
| COND_WAIT
| COND_TIMEDWAIT (nanoseconds : Z).

Record wake := mk_wake {
  wk_cancel : option (Z * World);
  wk_world : World
}.

(** The effect of a concurrent cancellation on the shared state. *)
(* src/runtime_core/src/turbo_runtime_control.c 196-204 turbo_cancel_source_cancel *)
Definition concurrent_cancel (c : option (Z * World)) (st : turbo_cancel_state)
  : turbo_cancel_state :=
  match c with
  | None => st
  | Some (r, w) =>
      if negb (turbo_cancel_reason_valid r) then st
      else
        let st := turbo_cancel_state_refresh_deadline_locked st
                    (turbo_cancel_state_now_ms w st) in
        if negb (reason st =? TURBO_CANCEL_NONE) then st else publish r st
  end.

(* src/runtime_core/src/turbo_runtime_control.c 316-321 turbo_cancel_token_wait *)
Definition wake_deadline (has_caller_deadline : bool) (caller_deadline_ms : Z)
    (st : turbo_cancel_state) : Z :=
  let d := if has_caller_deadline then caller_deadline_ms else UINT64_MAX in
  if negb (deadline_mono_ms st =? 0) && (deadline_mono_ms st <? d)
  then deadline_mono_ms st else d.

(* src/runtime_core/src/turbo_runtime_control.c 323-333 turbo_cancel_token_wait *)
Definition wait_call_for (wake_deadline_ms now_ms : Z) : wait_call :=
  if wake_deadline_ms =? UINT64_MAX then COND_WAIT
  else
    let wait_ms := u64 (wake_deadline_ms - now_ms) in
    let wait_ms := if TURBO_CANCEL_MAX_WAIT_SLICE_MS <? wait_ms
                   then TURBO_CANCEL_MAX_WAIT_SLICE_MS else wait_ms in
    COND_TIMEDWAIT (u64 (wait_ms * TURBO_MILLISECONDS_TO_NANOSECONDS)).

(** One iteration per world; [None] when the wakes run out with the thread
    still asleep.  The calls are those made on the condition variable. *)
(* src/runtime_core/src/turbo_runtime_control.c 302-334 turbo_cancel_token_wait *)
Fixpoint wait_loop (has_caller_deadline : bool) (caller_deadline_ms : Z)
    (wakes : list wake) (w : World) (st : turbo_cancel_state)
  : option turbo_cancel_wait_status * list wait_call * turbo_cancel_state :=
  let now_ms := turbo_cancel_state_now_ms w st in
  let st := turbo_cancel_state_refresh_deadline_locked st now_ms in
  if negb (reason st =? TURBO_CANCEL_NONE)
  then (Some TURBO_CANCEL_WAIT_SIGNALED, [], st)
  else if has_caller_deadline && (caller_deadline_ms <=? now_ms)
  then (Some TURBO_CANCEL_WAIT_TIMEOUT, [], st)
  else
    let call := wait_call_for (wake_deadline has_caller_deadline caller_deadline_ms st)
                  now_ms in
    match wakes with
    | [] => (None, [call], st)
    | k :: rest =>
        let '(status, calls, st) :=
          wait_loop has_caller_deadline caller_deadline_ms rest (wk_world k)
            (concurrent_cancel (wk_cancel k) st) in
        (status, call :: calls, st)
    end.

(** [w0] is the world of the clock read before the lock is taken, [w1] that of
    the first iteration. *)
(* src/runtime_core/src/turbo_runtime_control.c 284-337 turbo_cancel_token_wait *)
Definition turbo_cancel_token_wait (token : option nat) (timeout_ms : Z)
    (w0 w1 : World) (wakes : list wake) (h : cancel_heap)
  : option (option turbo_cancel_wait_status * list wait_call * cancel_heap) :=
  match token with
  | None => Some (Some TURBO_CANCEL_WAIT_INVALID_ARGUMENT, [], h)
  | Some t =>
      match h_tokens h !! t, h_state h with
      | Some _, Some st =>
          let has_caller_deadline := negb (timeout_ms =? TURBO_RUNTIME_WAIT_INFINITE) in
          let now_ms := turbo_cancel_state_now_ms w0 st in
          let caller_deadline_ms :=
            if has_caller_deadline then turbo_cancel_saturating_add_ms now_ms timeout_ms
            else UINT64_MAX in
          let '(status, calls, st) :=
            wait_loop has_caller_deadline caller_deadline_ms wakes w1 st in
          Some (status, calls, set_state (Some st) h)
      | _, _ => None
      end
  end.

(** ** The protocol of the handles

    A client uses only handles it owns: the source until it destroys it, a
    token once per reference it holds. *)

Inductive control_op : Type :=
| OpDestroySource
| OpToken (fresh : nat)
| OpCancel (r : Z) (w : World)
| OpSourceReason (w : World)
| OpRetain (t : nat)
| OpRelease (t : nat)
| OpCheck (t : nat) (w : World)
| OpReason (t : nat) (w : World)
| OpWait (t : nat) (timeout_ms : Z) (w0 w1 : World) (wakes : list wake).

(** The handle the operation uses is owned (and a new token gets an address
    no live token has). *)
Definition owned (op : control_op) (h : cancel_heap) : bool :=
  match op with
  | OpDestroySource | OpCancel _ _ | OpSourceReason _ => h_source h
  | OpToken fresh => h_source h && bool_decide (h_tokens h !! fresh = None)
  | OpRetain t | OpRelease t | OpCheck t _ | OpReason t _ | OpWait t _ _ _ _ =>
      bool_decide (is_Some (h_tokens h !! t))
  end.

(** The heap after an operation; [None]: freed memory was touched. *)
Definition control_exec (op : control_op) (h : cancel_heap) (o : oracle)
  : option (cancel_heap * oracle) :=
  match op with
  | OpDestroySource => h ← turbo_cancel_source_destroy h; Some (h, o)
  | OpToken fresh => '(_, h, o) ← turbo_cancel_source_token fresh true h o; Some (h, o)
  | OpCancel r w => '(_, h) ← turbo_cancel_source_cancel r w h; Some (h, o)
  | OpSourceReason w => '(_, h) ← turbo_cancel_source_reason w h; Some (h, o)
  | OpRetain t => '(_, h) ← turbo_cancel_token_retain (Some t) h; Some (h, o)
  | OpRelease t => h ← turbo_cancel_token_release (Some t) h; Some (h, o)
  | OpCheck t w => '(_, h) ← turbo_cancel_token_check (Some t) w h; Some (h, o)
  | OpReason t w => '(_, h) ← turbo_cancel_token_reason (Some t) w h; Some (h, o)
  | OpWait t ms w0 w1 wakes =>
      '(_, _, h) ← turbo_cancel_token_wait (Some t) ms w0 w1 wakes h; Some (h, o)
  end.

Inductive control_step : cancel_heap * oracle -> cancel_heap * oracle -> Prop :=
| control_step_op op h o h' o' :
    owned op h = true ->
    control_exec op h o = Some (h', o') ->
    control_step (h, o) (h', o').

(** ** Invariant *)

Definition live_handles (h : cancel_heap) : Z :=
  (if h_source h then 1 else 0) + Z.of_nat (size (h_tokens h)).

(** The shared state exists exactly while a handle does, and counts them. *)
Record heap_ok (h : cancel_heap) : Prop := {
  ok_count : match h_state h with
             | Some st => ref_count st = live_handles h /\ 1 <= ref_count st <= SIZE_MAX
             | None => live_handles h = 0
             end;
  ok_tokens : forall t n, h_tokens h !! t = Some n -> 1 <= n <= SIZE_MAX
}.

(** The reason published so far. *)
Definition heap_reason (h : cancel_heap) : Z :=
  match h_state h with Some st => reason st | None => TURBO_CANCEL_NONE end.

(** ** Lemmas *)

Lemma retain_loop_decides observed current ok n :
  turbo_cancel_state_retain observed current = (ok, n) ->
  exists c, c ∈ current :: observed /\
    ((ok = true /\ c <> SIZE_MAX /\ n = c + 1) \/ (ok = false /\ c = SIZE_MAX /\ n = c)).
Proof.
  revert current. induction observed as [|v rest IH]; intros current; simpl;
    destruct (current =? SIZE_MAX) eqn:E; bool_to_prop; intros Heq.
  - simplify_eq. eexists. split; [left|]. right. done.
  - simplify_eq. eexists. split; [left|]. left. done.
  - simplify_eq. eexists. split; [left|]. right. done.
  - destruct (IH _ Heq) as (c & Hc & Hr). exists c. split; [by right|done].
Qed.

Lemma refresh_reason st now :
  reason (turbo_cancel_state_refresh_deadline_locked st now) =
  if (reason st =? TURBO_CANCEL_NONE) && negb (deadline_mono_ms st =? 0)
     && (deadline_mono_ms st <=? now)
  then TURBO_CANCEL_DEADLINE else reason st.
Proof. unfold turbo_cancel_state_refresh_deadline_locked. by case_match. Qed.

(** [st'] is [st] after some publications: only the reason and the number of
    broadcasts may change, and at most once, from NONE. *)
Definition evolves (st st' : turbo_cancel_state) : Prop :=
  ref_count st' = ref_count st /\ deadline_mono_ms st' = deadline_mono_ms st /\
  monotonic_ms st' = monotonic_ms st /\
  ((reason st' = reason st /\ broadcasts st' = broadcasts st) \/
   (reason st = TURBO_CANCEL_NONE /\ reason st' <> TURBO_CANCEL_NONE /\
    broadcasts st' = S (broadcasts st))).

#[global] Instance evolves_refl : Reflexive evolves.
Proof. intros st. repeat split; auto. Qed.

#[global] Instance evolves_trans : Transitive evolves.
Proof.
  intros a b c (?&?&?&Hab) (?&?&?&Hbc). repeat split; try congruence.
  destruct Hab as [[]|(?&?&?)], Hbc as [[]|(?&?&?)];
    first [left; split; congruence | right; repeat split; congruence | congruence].
Qed.

Lemma refresh_evolves st now :
  evolves st (turbo_cancel_state_refresh_deadline_locked st now).
Proof.
  unfold turbo_cancel_state_refresh_deadline_locked. case_match; [|reflexivity].
  bool_to_prop. repeat split. right. by repeat split.
Qed.

Lemma valid_reason_not_none r :
  turbo_cancel_reason_valid r = true -> r <> TURBO_CANCEL_NONE.
Proof.
  unfold turbo_cancel_reason_valid, TURBO_CANCEL_USER, TURBO_CANCEL_NONE.
  intros. bool_to_prop. lia.
Qed.

Lemma publish_evolves r st :
  reason st = TURBO_CANCEL_NONE -> r <> TURBO_CANCEL_NONE -> evolves st (publish r st).
Proof. intros. repeat split. right. by repeat split. Qed.

Lemma concurrent_cancel_evolves c st : evolves st (concurrent_cancel c st).
Proof.
  destruct c as [[r w]|]; simpl; [|reflexivity].
  destruct (turbo_cancel_reason_valid r) eqn:Hv; simpl; [|reflexivity].
  etransitivity; [apply refresh_evolves|]. case_match; [reflexivity|].
  bool_to_prop. apply publish_evolves; eauto using valid_reason_not_none.
Qed.

Lemma wait_loop_evolves hc cd wakes w st status calls st' :
  wait_loop hc cd wakes w st = (status, calls, st') -> evolves st st'.
Proof.
  revert w st status calls. induction wakes as [|k rest IH]; intros w st status calls;
    simpl; repeat case_match; intros; simplify_eq;
    try apply refresh_evolves.
  etransitivity; [apply refresh_evolves|].
  etransitivity; [apply concurrent_cancel_evolves|]. eauto.
Qed.

(** Every operation on a live state either evolves it, or changes only its
    reference count, or frees it. *)
Lemma heap_ok_state h st :
  heap_ok h -> h_state h = Some st ->
  ref_count st = live_handles h /\ 1 <= ref_count st <= SIZE_MAX.
Proof. intros [Hc _] E. by rewrite E in Hc. Qed.

Lemma heap_ok_token_live h t n :
  heap_ok h -> h_tokens h !! t = Some n -> exists st, h_state h = Some st.
Proof.
  intros [Hc _] Ht. destruct (h_state h) as [st|]; [by exists st|].
  unfold live_handles in Hc. exfalso.
  assert (size (h_tokens h) <> 0%nat).
  { intros Hz. apply map_size_empty_iff in Hz. by rewrite Hz, lookup_empty in Ht. }
  destruct (h_source h); lia.
Qed.

Lemma heap_ok_source_live h :
  heap_ok h -> h_source h = true -> exists st, h_state h = Some st.
Proof.
  intros [Hc _] Hs. destruct (h_state h) as [st|]; [by exists st|].
  unfold live_handles in Hc. rewrite Hs in Hc. lia.
Qed.

Lemma heap_ok_evolves h st st' :
  heap_ok h -> h_state h = Some st -> evolves st st' -> heap_ok (set_state (Some st') h).
Proof.
  intros Hok E (Hr & _). destruct (heap_ok_state _ _ Hok E). destruct Hok as [_ Ht].
  split; simpl; [|exact Ht]. unfold live_handles in *. simpl. lia.
Qed.

Lemma token_refreshed_ok t w h n :
  heap_ok h -> h_tokens h !! t = Some n ->
  exists st st', h_state h = Some st /\ evolves st st' /\
    token_refreshed_reason t w h = Some (reason st', set_state (Some st') h).
Proof.
  intros Hok Ht. destruct (heap_ok_token_live _ _ _ Hok Ht) as [st Est].
  unfold token_refreshed_reason. rewrite Ht, Est.
  eexists st, _. split; [done|]. split; [apply refresh_evolves|done].
Qed.

(** The shape of every step from a good heap. *)
Inductive step_shape (h : cancel_heap) : cancel_heap -> Prop :=
| shape_evolves st st' :
    h_state h = Some st -> evolves st st' -> step_shape h (set_state (Some st') h)
| shape_release st src toks :
    h_state h = Some st ->
    (if src : bool then 1 else 0) + Z.of_nat (size toks) = live_handles h - 1 ->
    (forall t n, toks !! t = Some n -> h_tokens h !! t = Some n) ->
    step_shape h (mk_heap (turbo_cancel_state_release (Some st)) src toks)
| shape_new_token st fresh :
    h_state h = Some st -> ref_count st <> SIZE_MAX -> h_tokens h !! fresh = None ->
    step_shape h (mk_heap (Some (set_ref (ref_count st + 1) st)) (h_source h)
                    (<[fresh := 1]> (h_tokens h)))
| shape_token_count t n n' :
    h_tokens h !! t = Some n -> 1 <= n' <= SIZE_MAX ->
    step_shape h (set_tokens (<[t := n']> (h_tokens h)) h)
| shape_same st st' :
    h_state h = Some st -> st' = st -> step_shape h (set_state (Some st') h).

Lemma release_retained st :
  1 <= ref_count st < SIZE_MAX ->
  turbo_cancel_state_release (Some (set_ref (ref_count st + 1) st)) = Some st.
Proof.
  intros H. unfold turbo_cancel_state_release, set_ref; simpl.
  replace (ref_count st + 1 =? 1) with false by (symmetry; apply Z.eqb_neq; lia).
  rewrite u64_small by (unfold SIZE_MAX, UINT64_MAX in *; lia).
  destruct st; simpl. do 2 f_equal. lia.
Qed.

Lemma heap_eta h : set_state (h_state h) h = h.
Proof. by destruct h. Qed.

Lemma new_token_shape fresh h o :
  heap_ok h -> h_source h = true -> h_tokens h !! fresh = None ->
  exists rc h' o', turbo_cancel_source_token fresh true h o = Some (rc, h', o') /\
    step_shape h h'.
Proof.
  intros Hok Hs Hf. destruct (heap_ok_source_live _ Hok Hs) as [st Est].
  destruct (heap_ok_state _ _ Hok Est) as [_ Hr].
  unfold turbo_cancel_source_token. rewrite Hs, Est. cbn -[alloc turbo_cancel_state_release].
  destruct (ref_count st =? SIZE_MAX) eqn:E; bool_to_prop;
    cbn -[alloc turbo_cancel_state_release].
  - do 3 eexists. split; [done|]. apply (shape_same _ st); [done|]. by destruct st.
  - destruct (alloc o) as [[] o']; cbn -[turbo_cancel_state_release].
    + do 3 eexists. split; [done|]. by apply (shape_new_token h st fresh).
    + do 3 eexists. split; [done|]. rewrite release_retained by lia.
      by apply (shape_same _ st).
Qed.

Lemma retain_shape t n h :
  heap_ok h -> h_tokens h !! t = Some n ->
  exists r h', turbo_cancel_token_retain (Some t) h = Some (r, h') /\ step_shape h h'.
Proof.
  intros Hok Ht. pose proof (ok_tokens _ Hok _ _ Ht) as Hn.
  unfold turbo_cancel_token_retain. rewrite Ht. simpl.
  destruct ((n =? 0) || (n =? SIZE_MAX)) eqn:E.
  - do 2 eexists. split; [done|]. by apply (shape_token_count h t n n).
  - bool_to_prop. do 2 eexists. split; [done|]. apply (shape_token_count h t n); [done|lia].
Qed.

Lemma release_shape t n h :
  heap_ok h -> h_tokens h !! t = Some n ->
  exists h', turbo_cancel_token_release (Some t) h = Some h' /\ step_shape h h'.
Proof.
  intros Hok Ht. pose proof (ok_tokens _ Hok _ _ Ht) as Hn.
  destruct (heap_ok_token_live _ _ _ Hok Ht) as [st Est].
  unfold turbo_cancel_token_release. rewrite Ht, Est.
  destruct (n =? 1) eqn:E; bool_to_prop; simpl; eexists; (split; [reflexivity|]).
  - apply (shape_release h st (h_source h) (delete t (h_tokens h))); [done| |].
    + rewrite map_size_delete_Some by eauto. unfold live_handles.
      assert (size (h_tokens h) <> 0%nat).
      { intros Hz. apply map_size_empty_iff in Hz. by rewrite Hz, lookup_empty in Ht. }
      lia.
    + intros t' n'. rewrite lookup_delete_Some. tauto.
  - rewrite u64_small by (unfold SIZE_MAX, UINT64_MAX in *; lia).
    apply (shape_token_count h t n); [done|lia].
Qed.

Lemma control_exec_shape op h o :
  heap_ok h -> owned op h = true ->
  exists h' o', control_exec op h o = Some (h', o') /\ step_shape h h'.
Proof.
  intros Hok Hown. destruct op; cbn -[turbo_cancel_source_token turbo_cancel_token_retain
    turbo_cancel_token_release] in *; bool_to_prop.
  - destruct (heap_ok_source_live _ Hok Hown) as [st Est].
    unfold turbo_cancel_source_destroy. rewrite Hown, Est. simpl.
    do 2 eexists. split; [done|]. apply (shape_release h st); [done| |done].
    unfold live_handles. rewrite Hown. lia.
  - destruct (new_token_shape fresh h o) as (rc & h' & o' & -> & Hs); eauto.
  - destruct (heap_ok_source_live _ Hok Hown) as [st Est].
    unfold turbo_cancel_source_cancel. rewrite Hown, Est. simpl.
    destruct (turbo_cancel_reason_valid r) eqn:Hv; simpl.
    + case_match eqn:E; simpl; do 2 eexists; (split; [done|]);
        apply (shape_evolves h st); try done; [apply refresh_evolves|].
      bool_to_prop. etransitivity; [apply refresh_evolves|].
      apply publish_evolves; eauto using valid_reason_not_none.
    + do 2 eexists. split; [done|]. rewrite <- (heap_eta h) at 2. rewrite Est.
      by apply (shape_same h st).
  - destruct (heap_ok_source_live _ Hok Hown) as [st Est].
    unfold turbo_cancel_source_reason. rewrite Hown, Est. simpl.
    do 2 eexists. split; [done|]. apply (shape_evolves h st); [done|apply refresh_evolves].
  - destruct Hown as [n Ht]. destruct (retain_shape t n h) as (r & h' & -> & Hs); eauto.
  - destruct Hown as [n Ht]. destruct (release_shape t n h) as (h' & -> & Hs); eauto.
  - destruct Hown as [n Ht].
    destruct (token_refreshed_ok t w h n) as (st & st' & ? & ? & E); [done..|].
    rewrite E. simpl. do 2 eexists. split; [done|]. by eapply shape_evolves.
  - destruct Hown as [n Ht].
    destruct (token_refreshed_ok t w h n) as (st & st' & ? & ? & E); [done..|].
    rewrite E. simpl. do 2 eexists. split; [done|]. by eapply shape_evolves.
  - destruct Hown as [n Ht]. destruct (heap_ok_token_live _ _ _ Hok Ht) as [st Est].
    rewrite Ht, Est. case_match. destruct p as [status calls]. simpl.
    do 2 eexists. split; [done|]. eapply shape_evolves; [done|]. by eapply wait_loop_evolves.
Qed.

Lemma step_shape_ok h h' : heap_ok h -> step_shape h h' -> heap_ok h'.
Proof.
  intros Hok Hs. destruct Hs as [st st' E He|st src toks E Hc Ht|st fresh E Hm Hf
    |t n n' E Hn|st st' E ->].
  - by eapply heap_ok_evolves.
  - destruct (heap_ok_state _ _ Hok E) as [Hr Hb].
    split; cbn -[turbo_cancel_state_release]; [|intros t n Hl; eapply (ok_tokens _ Hok); eauto].
    unfold live_handles at 1 2. cbn -[turbo_cancel_state_release].
    unfold turbo_cancel_state_release. destruct (ref_count st =? 1) eqn:E1; bool_to_prop; [lia|].
    simpl. rewrite u64_small by (unfold SIZE_MAX, UINT64_MAX in *; lia). lia.
  - destruct (heap_ok_state _ _ Hok E) as [Hr Hb]. split; simpl.
    + unfold live_handles in *. simpl. rewrite map_size_insert_None by done. lia.
    + intros t n. rewrite lookup_insert_Some. intros [[<- <-]|[_ Hl]];
        [unfold SIZE_MAX; lia|by eapply (ok_tokens _ Hok)].
  - split; simpl.
    + replace (live_handles (set_tokens (<[t:=n']> (h_tokens h)) h)) with (live_handles h);
        [apply (ok_count _ Hok)|].
      unfold live_handles; simpl. by rewrite map_size_insert_Some by eauto.
    + intros t' m. rewrite lookup_insert_Some. intros [[<- <-]|[_ Hl]];
        [done|by eapply (ok_tokens _ Hok)].
  - rewrite <- E, heap_eta. done.
Qed.

Lemma create_ok config o rc h o' :
  turbo_cancel_source_create config true o = (rc, Some h, o') -> heap_ok h.
Proof.
  unfold turbo_cancel_source_create. simpl. intros Hc.
  repeat case_match; simplify_eq/=; split; simpl; try set_solver;
    unfold live_handles; simpl; rewrite ?map_size_empty; simpl; unfold SIZE_MAX; lia.
Qed.

(** Freed memory has no owner left, so nothing steps from it. *)
Lemma owned_live op h : heap_ok h -> owned op h = true -> h_state h <> None.
Proof.
  intros Hok Hown E. enough (exists st, h_state h = Some st) as [st E'] by congruence.
  destruct op; simpl in Hown; bool_to_prop;
    first [by eapply heap_ok_source_live
          | destruct Hown as [n Ht]; by eapply heap_ok_token_live].
Qed.

Lemma control_step_inv x y :
  control_step x y -> heap_ok x.1 ->
  step_shape x.1 y.1 /\ heap_ok y.1 /\ h_state x.1 <> None.
Proof.
  intros [op h o h' o' Hown Hex] Hok. simpl in *.
  destruct (control_exec_shape op h o Hok Hown) as (h2 & o2 & E & Hs). simplify_eq.
  eauto using step_shape_ok, owned_live.
Qed.

Lemma steps_ok x y : rtc control_step x y -> heap_ok x.1 -> heap_ok y.1.
Proof. induction 1; intros; [done|]. edestruct control_step_inv as (?&?&?); eauto. Qed.

(** The published reason never changes once it is there, and the waiters are
    woken exactly when it is published. *)
Definition published_once (h : cancel_heap) : Prop :=
  match h_state h with
  | Some st => broadcasts st = if reason st =? TURBO_CANCEL_NONE then 0%nat else 1%nat
  | None => True
  end.

Lemma evolves_published st st' :
  evolves st st' ->
  broadcasts st = (if reason st =? TURBO_CANCEL_NONE then 0%nat else 1%nat) ->
  broadcasts st' = (if reason st' =? TURBO_CANCEL_NONE then 0%nat else 1%nat).
Proof.
  intros (_ & _ & _ & [[Er Eb]|(En & En' & Eb)]) Hb; rewrite Eb.
  - by rewrite Er.
  - rewrite En in Hb. simpl in Hb. rewrite Hb. by apply Z.eqb_neq in En' as ->.
Qed.

Lemma release_reason st st' :
  turbo_cancel_state_release (Some st) = Some st' ->
  reason st' = reason st /\ broadcasts st' = broadcasts st.
Proof. unfold turbo_cancel_state_release. case_match; intros; simplify_eq/=. done. Qed.

Lemma step_shape_published h h' :
  step_shape h h' -> published_once h ->
  published_once h' /\
  (heap_reason h <> TURBO_CANCEL_NONE -> h_state h' <> None ->
   heap_reason h' = heap_reason h).
Proof.
  unfold published_once, heap_reason.
  intros Hs Hp. destruct Hs as [st st' E He|st src toks E Hc Ht|st fresh E Hm Hf
    |t n n' E Hn|st st' E ->]; cbn -[turbo_cancel_state_release]; rewrite ?E in *.
  - split; [by eapply evolves_published|].
    destruct He as (_ & _ & _ & [[-> _]|(? & _)]); done.
  - destruct (turbo_cancel_state_release (Some st)) as [st'|] eqn:Er; [|done].
    apply release_reason in Er as [-> ->]. done.
  - done.
  - by split.
  - done.
Qed.

Lemma steps_published x y :
  rtc control_step x y -> heap_ok x.1 -> published_once x.1 ->
  published_once y.1 /\
  (heap_reason x.1 <> TURBO_CANCEL_NONE -> h_state y.1 <> None ->
   heap_reason y.1 = heap_reason x.1).
Proof.
  induction 1 as [|x y z Hxy Hyz IH]; intros Hok Hp; [done|].
  destruct (control_step_inv _ _ Hxy Hok) as (Hs & Hok' & _).
  destruct (step_shape_published _ _ Hs Hp) as [Hp' Hr].
  destruct (IH Hok' Hp') as [Hpz Hrz]. split; [done|]. intros Hne Hz.
  assert (Hy : h_state y.1 <> None).
  { destruct Hyz as [|y y' z Hy _]; [done|]. by apply (control_step_inv _ _ Hy Hok'). }
  rewrite Hrz, Hr; auto. by rewrite Hr.
Qed.

Lemma create_published config o rc h o' :
  turbo_cancel_source_create config true o = (rc, Some h, o') -> published_once h.
Proof.
  unfold turbo_cancel_source_create. simpl. intros Hc.
  by repeat case_match; simplify_eq/=.
Qed.

(** ** Properties *)

(** C8. Memory safety and absence of leaks: from a created source, whatever
    sequence of operations the handles' owners make, every operation on an
    owned handle is defined (it never touches freed memory), and the shared
    state is freed exactly when the last handle is gone. *)
Theorem control_memory_safe config o rc h0 o0 h o' :
  turbo_cancel_source_create config true o = (rc, Some h0, o0) ->
  rtc control_step (h0, o0) (h, o') ->
  (forall op, owned op h = true -> is_Some (control_exec op h o')) /\
  (h_state h = None <-> h_source h = false /\ h_tokens h = ∅).
Proof.
  intros Hc Hr. pose proof (steps_ok _ _ Hr (create_ok _ _ _ _ _ Hc)) as Hok. simpl in Hok. split.
  - intros op Hown. destruct (control_exec_shape op h o' Hok Hown) as (? & ? & -> & _). eauto.
  - pose proof (ok_count _ Hok) as Hcnt. unfold live_handles in Hcnt. split.
    + intros E. rewrite E in Hcnt. destruct (h_source h); [lia|]. split; [done|].
      apply map_size_empty_iff. lia.
    + intros [Hs Ht]. rewrite Hs, Ht in Hcnt.
      destruct (h_state h) as [st|]; [|done].
      rewrite map_size_empty in Hcnt. simpl in Hcnt. lia.
Qed.

(** C9. The first reason wins: along any sequence of operations, once a reason is
    published every later operation leaves it in place while the state lives,
    and the waiters have been woken exactly once. *)
Theorem control_first_reason_wins config o rc h0 o0 h1 o1 h2 o2 :
  turbo_cancel_source_create config true o = (rc, Some h0, o0) ->
  rtc control_step (h0, o0) (h1, o1) ->
  rtc control_step (h1, o1) (h2, o2) ->
  heap_reason h1 <> TURBO_CANCEL_NONE ->
  forall st, h_state h2 = Some st ->
  reason st = heap_reason h1 /\ broadcasts st = 1%nat.
Proof.
  intros Hc H01 H12 Hne st Est.
  pose proof (create_ok _ _ _ _ _ Hc) as Hok0.
  pose proof (create_published _ _ _ _ _ Hc) as Hp0.
  pose proof (steps_ok _ _ H01 Hok0) as Hok1.
  destruct (steps_published _ _ H01 Hok0 Hp0) as [Hp1 _].
  destruct (steps_published _ _ H12 Hok1 Hp1) as [Hp2 Hr]. simpl in *.
  specialize (Hr Hne). rewrite Est in Hr. specialize (Hr ltac:(done)).
  unfold published_once in Hp2. unfold heap_reason in Hr at 1. rewrite Est in Hp2, Hr.
  split; [done|]. rewrite Hp2, Hr. by apply Z.eqb_neq in Hne as ->.
Qed.

(** The answer of a check: OK while no reason is published and the deadline
    (if any) is in the future, ETIMEDOUT when the deadline is what was
    published, ECANCELED for an explicit reason; it is the reason then stored. *)
Theorem control_check_spec t w h n st :
  h_tokens h !! t = Some n -> h_state h = Some st ->
  let expired := negb (deadline_mono_ms st =? 0) &&
                 (deadline_mono_ms st <=? turbo_cancel_state_now_ms w st) in
  exists h', heap_reason h' = (if (reason st =? TURBO_CANCEL_NONE) && expired
                      then TURBO_CANCEL_DEADLINE else reason st) /\
    turbo_cancel_token_check (Some t) w h =
    Some (if reason st =? TURBO_CANCEL_NONE
          then if expired then SALTS_ETIMEDOUT else SALTS_OK
          else if reason st =? TURBO_CANCEL_DEADLINE then SALTS_ETIMEDOUT
          else SALTS_ECANCELED, h').
Proof.
  intros Ht Est. cbv zeta. unfold turbo_cancel_token_check, token_refreshed_reason.
  rewrite Ht, Est. simpl.
  set (st' := turbo_cancel_state_refresh_deadline_locked _ _).
  assert (Er : reason st' = _) by apply refresh_reason. rewrite <- andb_assoc in Er.
  exists (set_state (Some st') h). unfold heap_reason, turbo_cancel_reason_status. simpl.
  rewrite Er. split; [done|]. do 2 f_equal.
  destruct (reason st =? TURBO_CANCEL_NONE) eqn:E; simpl; rewrite ?E; [|done].
  destruct (negb _ && _); [done|by rewrite E].
Qed.

(** ** Waiting *)

(** The earlier of the two deadlines a waiter watches: the caller's limit, if
    it gave one, and the token's own, if it has one. *)
Definition wait_due (hc : bool) (limit : Z) (st : turbo_cancel_state) : Z :=
  Z.min (if hc then limit else UINT64_MAX)
        (if deadline_mono_ms st =? 0 then UINT64_MAX else deadline_mono_ms st).

(** What the waiter asks of the condition variable at the clock reading [now],
    when the earlier deadline is [d]: an untimed wait only when there is no
    deadline at all, and otherwise exactly the time left, a slice at most, in
    nanoseconds that do not overflow. *)
Definition call_ok (d now : Z) (c : wait_call) : Prop :=
  match c with
  | COND_WAIT => d = UINT64_MAX
  | COND_TIMEDWAIT ns =>
      now < d < UINT64_MAX /\ ns <= UINT64_MAX /\
      ns = TURBO_MILLISECONDS_TO_NANOSECONDS * Z.min TURBO_CANCEL_MAX_WAIT_SLICE_MS (d - now)
  end.

Lemma wait_call_for_ok d now :
  0 <= now < d -> d <= UINT64_MAX -> call_ok d now (wait_call_for d now).
Proof.
  intros Hn Hd. unfold wait_call_for. destruct (d =? UINT64_MAX) eqn:E; bool_to_prop; [done|].
  rewrite (u64_small (d - now)) by lia.
  replace (if _ <? _ then _ else _) with (Z.min TURBO_CANCEL_MAX_WAIT_SLICE_MS (d - now))
    by (case_match; bool_to_prop; lia).
  unfold call_ok, TURBO_CANCEL_MAX_WAIT_SLICE_MS, UINT32_MAX, UINT64_MAX,
    TURBO_MILLISECONDS_TO_NANOSECONDS in *.
  rewrite u64_small by (unfold UINT64_MAX; lia). lia.
Qed.

Lemma wake_deadline_due hc cd st :
  cd <= UINT64_MAX -> wake_deadline hc cd st = wait_due hc cd st.
Proof.
  intros Hcd. unfold wake_deadline, wait_due.
  destruct (deadline_mono_ms st =? 0) eqn:E; cbn [negb andb]; [by destruct hc; lia|].
  destruct hc; case_match; bool_to_prop; lia.
Qed.

(** Every world an iteration reads the clock in. *)
Definition wait_worlds (w1 : World) (wakes : list wake) : list World :=
  w1 :: (wk_world <$> wakes).

Lemma evolves_now st st' w :
  evolves st st' -> turbo_cancel_state_now_ms w st' = turbo_cancel_state_now_ms w st.
Proof. intros (_ & _ & E & _). unfold turbo_cancel_state_now_ms. by rewrite E. Qed.

Lemma wait_loop_sound hc cd wakes w st status calls st' :
  wait_loop hc cd wakes w st = (status, calls, st') ->
  match status with
  | Some TURBO_CANCEL_WAIT_SIGNALED => reason st' <> TURBO_CANCEL_NONE
  | Some TURBO_CANCEL_WAIT_TIMEOUT =>
      hc = true /\ reason st' = TURBO_CANCEL_NONE /\
      exists w', w' ∈ wait_worlds w wakes /\ cd <= turbo_cancel_state_now_ms w' st
  | Some TURBO_CANCEL_WAIT_INVALID_ARGUMENT => False
  | None => length calls = S (length wakes)
  end.
Proof.
  revert w st status calls. induction wakes as [|k rest IH]; intros w st status calls;
    cbn [wait_loop]; cbv zeta;
    set (st1 := turbo_cancel_state_refresh_deadline_locked st _) in *;
    (destruct (reason st1 =? TURBO_CANCEL_NONE) eqn:Er; cbn [negb];
      [|intros; simplify_eq; by bool_to_prop]);
    (destruct (hc && _) eqn:Et;
      [intros; simplify_eq; bool_to_prop; repeat split; try done; exists w; split; [left|done]|]).
  - intros; by simplify_eq.
  - destruct (wait_loop _ _ rest _ _) as [[s c] st2] eqn:Eg. intros; simplify_eq.
    apply IH in Eg. destruct status as [[]|]; try done.
    + destruct Eg as (-> & Hr & w' & Hw & Hcd). repeat split; try done.
      exists w'. split; [by right|]. revert Hcd.
      rewrite (evolves_now _ _ _ (concurrent_cancel_evolves _ _)).
      by rewrite (evolves_now st st1 w' (refresh_evolves _ _)).
    + simpl. lia.
Qed.

(** A wake-up the waiter cannot sleep through. *)
Definition decisive (hc : bool) (cd : Z) (st : turbo_cancel_state) (k : wake) : Prop :=
  (exists r w, wk_cancel k = Some (r, w) /\ turbo_cancel_reason_valid r = true) \/
  (hc = true /\ cd <= turbo_cancel_state_now_ms (wk_world k) st) \/
  (deadline_mono_ms st <> 0 /\
   deadline_mono_ms st <= turbo_cancel_state_now_ms (wk_world k) st).

Lemma evolves_decisive hc cd st st' k :
  evolves st st' -> decisive hc cd st k -> decisive hc cd st' k.
Proof.
  intros He. unfold decisive. rewrite (evolves_now _ _ _ He).
  destruct He as (_ & -> & _). done.
Qed.

Lemma refresh_expired st now :
  deadline_mono_ms st <> 0 -> deadline_mono_ms st <= now ->
  reason (turbo_cancel_state_refresh_deadline_locked st now) <> TURBO_CANCEL_NONE.
Proof.
  intros H0 Hn. rewrite refresh_reason. apply Z.eqb_neq in H0. apply Z.leb_le in Hn.
  rewrite H0, Hn. destruct (reason st =? TURBO_CANCEL_NONE) eqn:E; simpl; [done|].
  by bool_to_prop.
Qed.

Lemma concurrent_cancel_publishes r w st :
  turbo_cancel_reason_valid r = true ->
  reason (concurrent_cancel (Some (r, w)) st) <> TURBO_CANCEL_NONE.
Proof.
  intros Hv. unfold concurrent_cancel. rewrite Hv. cbn [negb]. cbv zeta.
  destruct (reason (turbo_cancel_state_refresh_deadline_locked _ _) =? _) eqn:E; simpl.
  - by apply valid_reason_not_none.
  - by bool_to_prop.
Qed.

Lemma refresh_keeps st now :
  reason st <> TURBO_CANCEL_NONE ->
  reason (turbo_cancel_state_refresh_deadline_locked st now) <> TURBO_CANCEL_NONE.
Proof. intros H. rewrite refresh_reason. by case_match. Qed.

(** The loop stops in the iteration after a decisive wake-up. *)
Lemma wait_loop_stops_first hc cd k rest st :
  decisive hc cd st k ->
  ((wait_loop hc cd rest (wk_world k) (concurrent_cancel (wk_cancel k) st)).1).1 <> None.
Proof.
  intros Hd.
  assert (Hsig : forall st', reason (turbo_cancel_state_refresh_deadline_locked st'
      (turbo_cancel_state_now_ms (wk_world k) st')) <> TURBO_CANCEL_NONE ->
      ((wait_loop hc cd rest (wk_world k) st').1).1 <> None).
  { intros st' Hn. apply Z.eqb_neq in Hn. destruct rest; cbn [wait_loop]; by rewrite Hn. }
  assert (Hev := concurrent_cancel_evolves (wk_cancel k) st).
  destruct Hd as [(r & w & Ek & Hv)|[[-> Hcd]|[H0 Hdl]]].
  - rewrite Ek. by apply Hsig, refresh_keeps, concurrent_cancel_publishes.
  - rewrite <- (evolves_now _ _ _ Hev) in Hcd. apply Z.leb_le in Hcd.
    destruct rest; cbn [wait_loop]; cbv zeta; rewrite Hcd; by case_match.
  - apply Hsig, refresh_expired; [by destruct Hev as (_ & -> & _)|].
    rewrite (evolves_now _ _ _ Hev). by destruct Hev as (_ & -> & _).
Qed.

Lemma wait_loop_live hc cd wakes w st :
  Exists (decisive hc cd st) wakes -> ((wait_loop hc cd wakes w st).1).1 <> None.
Proof.
  revert w st. induction wakes as [|k rest IH]; intros w st Hex;
    [by apply Exists_nil in Hex|].
  cbn [wait_loop]. cbv zeta.
  set (st1 := turbo_cancel_state_refresh_deadline_locked st _).
  assert (He : evolves st st1) by apply refresh_evolves.
  destruct (negb _); [done|]. destruct (hc && _); [done|].
  assert (((wait_loop hc cd rest (wk_world k) (concurrent_cancel (wk_cancel k) st1)).1).1
          <> None) as Hrec.
  { apply Exists_cons in Hex as [Hd|Hex].
    - by apply wait_loop_stops_first, (evolves_decisive _ _ st).
    - apply IH. eapply Exists_impl; [exact Hex|]. intros k'.
      apply evolves_decisive. etransitivity; [done|]. apply concurrent_cancel_evolves. }
  by destruct (wait_loop hc cd rest _ _) as [[]].
Qed.

Lemma saturating_add_eq a b :
  0 <= a <= UINT64_MAX -> 0 <= b <= UINT64_MAX ->
  turbo_cancel_saturating_add_ms a b = Z.min UINT64_MAX (a + b).
Proof.
  intros. unfold turbo_cancel_saturating_add_ms. case_match; bool_to_prop; [lia|].
  rewrite u64_small; lia.
Qed.

Lemma wake_deadline_evolves hc cd st st' :
  evolves st st' -> wake_deadline hc cd st' = wake_deadline hc cd st.
Proof. intros (_ & E & _). unfold wake_deadline. by rewrite E. Qed.

Lemma wait_iteration_call_ok hc cd st now :
  0 <= now <= UINT64_MAX -> cd <= UINT64_MAX ->
  reason (turbo_cancel_state_refresh_deadline_locked st now) = TURBO_CANCEL_NONE ->
  hc && (cd <=? now) = false ->
  call_ok (wake_deadline hc cd st) now (wait_call_for (wake_deadline hc cd st) now).
Proof.
  intros Hn Hcd Hr Hc.
  destruct (decide (wake_deadline hc cd st = UINT64_MAX)) as [->|Hne]; [done|].
  enough (now < wake_deadline hc cd st <= UINT64_MAX) by (apply wait_call_for_ok; lia).
  revert Hne. rewrite refresh_reason in Hr. unfold wake_deadline.
  destruct (negb (deadline_mono_ms st =? 0)) eqn:E0; simpl in *.
  - assert (now < deadline_mono_ms st).
    { destruct (reason st =? TURBO_CANCEL_NONE) eqn:E; simpl in *; [|by bool_to_prop].
      destruct (_ <=? now) eqn:?; [done|]. by bool_to_prop. }
    destruct hc; simpl in *; destruct (deadline_mono_ms st <? _) eqn:?;
      bool_to_prop; intros; lia.
  - destruct hc; simpl in *; bool_to_prop; intros; lia.
Qed.

Lemma wait_loop_calls hc cd wakes w st status calls st' :
  cd <= UINT64_MAX ->
  (forall v, v ∈ wait_worlds w wakes ->
     0 <= turbo_cancel_state_now_ms v st <= UINT64_MAX) ->
  wait_loop hc cd wakes w st = (status, calls, st') ->
  exists slept, slept `prefix_of` wait_worlds w wakes /\
    Forall2 (fun v => call_ok (wake_deadline hc cd st) (turbo_cancel_state_now_ms v st))
      slept calls.
Proof.
  intros Hcd. revert w st status calls.
  induction wakes as [|k rest IH]; intros w st status calls Hw; cbn [wait_loop]; cbv zeta;
    pose proof (refresh_evolves st (turbo_cancel_state_now_ms w st)) as He;
    pose proof (wait_iteration_call_ok hc cd st (turbo_cancel_state_now_ms w st)
       (Hw w ltac:(left)) Hcd) as Hcall;
    set (st1 := turbo_cancel_state_refresh_deadline_locked st _) in *;
    (destruct (reason st1 =? TURBO_CANCEL_NONE) eqn:Er; cbn [negb];
      [|intros; simplify_eq; exists []; split; [apply prefix_nil|constructor]]);
    (destruct (hc && _) eqn:Et;
      [intros; simplify_eq; exists []; split; [apply prefix_nil|constructor]|]);
    apply Z.eqb_eq in Er; specialize (Hcall Er eq_refl);
    rewrite <- (wake_deadline_evolves hc cd _ _ He) in Hcall.
  - intros [= <- <- <-]. rewrite <- (wake_deadline_evolves hc cd st st1 He).
    exists [w]. split; [done|]. by constructor.
  - destruct (wait_loop _ _ rest _ _) as [[s c] st2] eqn:Eg. intros [= <- <- <-].
    assert (He2 := evolves_trans _ _ _ He (concurrent_cancel_evolves (wk_cancel k) st1)).
    apply IH in Eg as (slept & Hp & Hall);
      [|intros v Hv; rewrite (evolves_now _ _ _ He2); apply Hw; by right].
    rewrite (wake_deadline_evolves hc cd _ _ He2) in Hall.
    rewrite (wake_deadline_evolves hc cd _ _ He) in Hcall |- *.
    exists (w :: slept). split; [by apply prefix_cons|]. constructor; [done|].
    eapply Forall2_impl; [exact Hall|]. intros v c'.
    cbv beta. by rewrite (evolves_now _ _ _ He2).
Qed.

(** C10. A wait on an owned token answers truthfully: SIGNALED only with a published
    reason, TIMEOUT only with none and only once some clock reading has reached
    the start plus the timeout (saturated at the largest 64-bit value), never
    INVALID_ARGUMENT; it does not stay asleep after a wake-up by which a
    cancellation was published or one of the deadlines had passed; and every
    sleep is short enough to see the deadlines: iteration by iteration it asks
    for an untimed wait only when neither the caller nor the token has a
    deadline, and otherwise for exactly the time left until the earlier one, a
    slice at most, without overflow in nanoseconds. *)
Theorem control_wait_spec t timeout_ms w0 w1 wakes h n st :
  h_tokens h !! t = Some n -> h_state h = Some st ->
  0 <= timeout_ms <= UINT64_MAX ->
  (forall w, w ∈ w0 :: wait_worlds w1 wakes ->
     0 <= turbo_cancel_state_now_ms w st <= UINT64_MAX) ->
  let hc := negb (timeout_ms =? TURBO_RUNTIME_WAIT_INFINITE) in
  let limit := Z.min UINT64_MAX (turbo_cancel_state_now_ms w0 st + timeout_ms) in
  exists status calls st',
    turbo_cancel_token_wait (Some t) timeout_ms w0 w1 wakes h =
      Some (status, calls, set_state (Some st') h) /\
    evolves st st' /\
    match status with
    | Some TURBO_CANCEL_WAIT_SIGNALED => reason st' <> TURBO_CANCEL_NONE
    | Some TURBO_CANCEL_WAIT_TIMEOUT =>
        hc = true /\ reason st' = TURBO_CANCEL_NONE /\
        exists w, w ∈ wait_worlds w1 wakes /\ limit <= turbo_cancel_state_now_ms w st
    | Some TURBO_CANCEL_WAIT_INVALID_ARGUMENT => False
    | None => ~ Exists (decisive hc limit st) wakes
    end /\
    exists slept, slept `prefix_of` wait_worlds w1 wakes /\
      Forall2 (fun w => call_ok (wait_due hc limit st) (turbo_cancel_state_now_ms w st))
        slept calls.
Proof.
  intros Ht Est Hms Hnow hc limit. unfold turbo_cancel_token_wait. rewrite Ht, Est.
  cbv zeta. fold hc.
  destruct (wait_loop hc _ wakes w1 st) as [[status calls] st'] eqn:E.
  do 3 eexists. split; [done|]. split; [by eapply wait_loop_evolves|].
  pose proof (wait_loop_sound _ _ _ _ _ _ _ _ E) as Hs.
  rewrite saturating_add_eq in E, Hs by (done || apply Hnow; left). fold limit in E, Hs. split.
  - destruct status as [[]|]; [done| |done|].
    + destruct Hs as (Hc & Hr & w & Hw & Hl). rewrite Hc in *. eauto 6.
    + intros Hex. pose proof (wait_loop_live hc limit wakes w1 st Hex) as Hl.
      destruct hc; [by rewrite E in Hl|].
      apply (wait_loop_live false UINT64_MAX wakes w1 st); [|by rewrite E].
      eapply Exists_impl; [exact Hex|]. intros k. unfold decisive.
      intros [?|[[? ?]|?]]; [by left|done|by right; right].
  - assert (Hle : (if hc then limit else UINT64_MAX) <= UINT64_MAX)
      by (subst limit; destruct hc; lia).
    apply wait_loop_calls in E as (slept & Hp & Hall);
      [|done|intros v Hv; apply Hnow; by right].
    exists slept. split; [done|]. rewrite wake_deadline_due in Hall by done.
    by destruct hc.
Qed.

End control.
End Control.

(** ** Concrete runs

    The world is the platform clock reading itself. *)

Module ControlRuns.
Import Control.

(* not a section variable: the identity clock *)
Definition now : Z -> Z := fun w => w.

(** A source with a deadline at 100 and one token, address 7. *)
Definition cfg100 : turbo_cancel_source_config (World := Z) :=
  mk_config sizeof_config TURBO_RUNTIME_CONTROL_ABI_VERSION 100 None.

Definition st100 (refs r : Z) (b : nat) : turbo_cancel_state (World := Z) :=
  mk_state refs r 100 None b.

Definition h_start : cancel_heap (World := Z) := mk_heap (Some (st100 1 0 0)) true ∅.
Definition h_token : cancel_heap (World := Z) :=
  mk_heap (Some (st100 2 0 0)) true {[7%nat := 1]}.
Definition h_user : cancel_heap (World := Z) :=
  mk_heap (Some (st100 2 1 1)) true {[7%nat := 1]}.
Definition h_orphan : cancel_heap (World := Z) :=
  mk_heap (Some (st100 1 1 1)) false {[7%nat := 1]}.

Lemma create_start :
  turbo_cancel_source_create (Some cfg100) true [] = (SALTS_OK, Some h_start, []).
Proof. reflexivity. Defined.

Lemma step_token : control_step now (h_start, []) (h_token, []).
Proof. by apply (control_step_op now (OpToken 7)). Defined.

Lemma step_cancel : control_step now (h_token, []) (h_user, []).
Proof. by apply (control_step_op now (OpCancel TURBO_CANCEL_USER 5)). Defined.

Lemma step_destroy : control_step now (h_user, []) (h_orphan, []).
Proof. by apply (control_step_op now OpDestroySource). Defined.

Lemma control_memory_safe_witness :
  is_Some (control_exec now (OpRelease 7) h_orphan []) /\
  (h_state h_orphan = None <-> h_source h_orphan = false /\ h_tokens h_orphan = ∅).
Proof.
  destruct (control_memory_safe now (Some cfg100) [] SALTS_OK h_start [] h_orphan [])
    as [Hdef Hfree].
  - exact create_start.
  - eapply rtc_l; [exact step_token|]. eapply rtc_l; [exact step_cancel|].
    apply rtc_once. exact step_destroy.
  - split; [by apply Hdef|exact Hfree].
Defined.

Lemma control_first_reason_wins_witness :
  reason (st100 1 1 1) = TURBO_CANCEL_USER /\ broadcasts (st100 1 1 1) = 1%nat.
Proof.
  apply (control_first_reason_wins now (Some cfg100) [] SALTS_OK h_start [] h_user []
           h_orphan []).
  - exact create_start.
  - eapply rtc_l; [exact step_token|]. apply rtc_once. exact step_cancel.
  - apply rtc_once. exact step_destroy.
  - discriminate.
  - reflexivity.
Defined.

Lemma control_check_spec_witness :
  exists h', heap_reason h' = TURBO_CANCEL_DEADLINE /\
    turbo_cancel_token_check now (Some 7%nat) 100 h_token = Some (SALTS_ETIMEDOUT, h').
Proof. exact (control_check_spec now 7 100 h_token 1 (st100 2 0 0) eq_refl eq_refl). Defined.

(** A caller timeout of 20 from time 10: a spurious wake-up at 15, then 31. *)
Definition two_wakes : list (wake (World := Z)) := [mk_wake None 15; mk_wake None 31].

Lemma control_wait_spec_witness :
  turbo_cancel_token_wait now (Some 7%nat) 20 10 10 two_wakes h_token =
    Some (Some TURBO_CANCEL_WAIT_TIMEOUT,
      [COND_TIMEDWAIT 20000000; COND_TIMEDWAIT 15000000], h_token) /\
  exists slept, slept `prefix_of` [10; 15; 31] /\
    Forall2 (call_ok 30) slept [COND_TIMEDWAIT 20000000; COND_TIMEDWAIT 15000000].
Proof.
  destruct (control_wait_spec now 7 20 10 10 two_wakes h_token 1 (st100 2 0 0)
    eq_refl eq_refl) as (s & c & st' & E & _ & _ & slept & Hp & Hall).
  - unfold UINT64_MAX. lia.
  - intros w Hw. unfold wait_worlds, two_wakes in Hw. simpl in Hw.
    unfold turbo_cancel_state_now_ms, now, UINT64_MAX. simpl. set_unfold. lia.
  - vm_compute in E. injection E as <- <- _. split; [reflexivity|].
    exists slept. split; [exact Hp|exact Hall].
Defined.

End ControlRuns.
