(* ===== verification/CancelToken.v ===== *)
(** * The cancellation token, as its clients see it

    The interface between the cancellation control (RuntimeControl.v) and the
    code that polls a token it borrowed: the retry loop, the invoke gate.  A
    client's world holds the token; [cancel_reason] is the reason published so
    far.  [CancelTokenLaws] states what the control promises to a holder of a
    live token: answers tell the published reason, a published reason stays,
    a wait that answers SIGNALED comes with one.

    [ControlledToken] discharges the laws with the operations of RuntimeControl
    on any heap with a live token, for any schedule of wake-ups and concurrent
    cancellations. *)

From S2P Require Import Prelude RuntimeControl.
Import Control.

Class CancelToken (W : Type) := {
  token_check : W -> salts_status * W;
  token_reason : W -> Z * W;
  token_wait : Z -> W -> turbo_cancel_wait_status * W
}.

Class CancelTokenLaws (W : Type) `{CancelToken W} := {
  token_live : W -> Prop;
  cancel_reason : W -> Z;
  token_check_law : forall w, token_live w -> let (s, w') := token_check w in
    token_live w' /\ s = turbo_cancel_reason_status (cancel_reason w') /\
    (cancel_reason w <> TURBO_CANCEL_NONE -> cancel_reason w' = cancel_reason w);
  token_reason_law : forall w, token_live w -> let (r, w') := token_reason w in
    token_live w' /\ r = cancel_reason w' /\
    (cancel_reason w <> TURBO_CANCEL_NONE -> cancel_reason w' = cancel_reason w);
  token_wait_law : forall ms w, token_live w -> 0 <= ms <= UINT_MAX ->
    let (s, w') := token_wait ms w in
    token_live w' /\ s <> TURBO_CANCEL_WAIT_INVALID_ARGUMENT /\
    (s = TURBO_CANCEL_WAIT_SIGNALED -> cancel_reason w' <> TURBO_CANCEL_NONE) /\
    (cancel_reason w <> TURBO_CANCEL_NONE -> cancel_reason w' = cancel_reason w)
}.

Lemma reason_status_ok r : turbo_cancel_reason_status r = SALTS_OK <-> r = TURBO_CANCEL_NONE.
Proof.
  unfold turbo_cancel_reason_status. repeat case_match; bool_to_prop; split; congruence.
Qed.

(** ** The control implements the interface *)

Module ControlledToken.

(** The platform clock is [env_now]; each wait consumes one schedule of wake-ups,
    after which the caller's timeout is reached. *)
Record token_env := mk_token_env {
  env_now : Z;
  env_token : nat;
  env_heap : cancel_heap (World := Z);
  env_wakes : list (list (wake (World := Z)))
}.

Definition platform_clock : Z -> Z := fun w => w.

Definition env_after (h : cancel_heap) (e : token_env) : token_env :=
  mk_token_env (env_now e) (env_token e) h (env_wakes e).

Definition env_limit (ms : Z) (e : token_env) : Z := Z.min UINT64_MAX (env_now e + ms).

#[export] Instance env_cancel_token : CancelToken token_env := {
  token_check e :=
    match turbo_cancel_token_check platform_clock (Some (env_token e)) (env_now e) (env_heap e) with
    | Some (s, h) => (s, env_after h e)
    | None => (SALTS_EINVAL, e)
    end;
  token_reason e :=
    match turbo_cancel_token_reason platform_clock (Some (env_token e)) (env_now e) (env_heap e) with
    | Some (r, h) => (r, env_after h e)
    | None => (TURBO_CANCEL_NONE, e)
    end;
  token_wait ms e :=
    match turbo_cancel_token_wait platform_clock (Some (env_token e)) ms (env_now e) (env_now e)
            (default [] (head (env_wakes e)) ++ [mk_wake None (env_limit ms e)]) (env_heap e) with
    | Some (Some s, _, h) => (s, mk_token_env (env_now e) (env_token e) h (tail (env_wakes e)))
    | _ => (TURBO_CANCEL_WAIT_INVALID_ARGUMENT, e)
    end
}.

(** A live token whose source uses the platform clock. *)
Definition env_live (e : token_env) : Prop :=
  0 <= env_now e <= UINT64_MAX /\ is_Some (h_tokens (env_heap e) !! env_token e) /\
  exists st, h_state (env_heap e) = Some st /\ monotonic_ms st = None.

Lemma evolves_keeps (st st' : turbo_cancel_state (World := Z)) : evolves st st' ->
  reason st <> TURBO_CANCEL_NONE -> reason st' = reason st.
Proof. intros (_ & _ & _ & [[? _]|[? _]]); [done|congruence]. Qed.

(** Every query ends in a heap whose state evolved from the one before. *)
Lemma env_evolved (e e' : token_env) st st' :
  env_live e -> h_state (env_heap e) = Some st -> evolves st st' ->
  env_now e' = env_now e -> env_token e' = env_token e ->
  env_heap e' = set_state (Some st') (env_heap e) ->
  env_live e' /\ heap_reason (env_heap e') = reason st' /\
  (heap_reason (env_heap e) <> TURBO_CANCEL_NONE ->
   heap_reason (env_heap e') = heap_reason (env_heap e)).
Proof.
  intros (Hnow & Htok & st0 & Est & Hclock) Est' Hev En Et Eh.
  rewrite Est in Est'. injection Est' as <-.
  unfold env_live, heap_reason. rewrite En, Et, Eh, Est. cbn. split; [|split; [done|]].
  - split; [done|]. split; [done|]. exists st'. split; [done|].
    destruct Hev as (_ & _ & -> & _). done.
  - intros Hr. by apply evolves_keeps.
Qed.

Lemma env_refreshed (e : token_env) st :
  env_live e -> h_state (env_heap e) = Some st ->
  let st' := turbo_cancel_state_refresh_deadline_locked st
               (turbo_cancel_state_now_ms platform_clock (env_now e) st) in
  let e' := env_after (set_state (Some st') (env_heap e)) e in
  env_live e' /\ heap_reason (env_heap e') = reason st' /\
  (heap_reason (env_heap e) <> TURBO_CANCEL_NONE ->
   heap_reason (env_heap e') = heap_reason (env_heap e)).
Proof. intros Hl Est. apply (env_evolved e _ st); try done. apply refresh_evolves. Qed.

#[export] Instance env_cancel_token_laws : CancelTokenLaws token_env.
Proof.
  refine (Build_CancelTokenLaws _ _ env_live (fun e => heap_reason (env_heap e)) _ _ _).
  - intros e Hlive. pose proof Hlive as (_ & [n Ht] & st & Est & _).
    cbn. unfold turbo_cancel_token_check, token_refreshed_reason. rewrite Ht, Est. cbn.
    destruct (env_refreshed e st Hlive Est) as (Hl & Hr & Hk).
    split; [exact Hl|]. split; [by f_equal|exact Hk].
  - intros e Hlive. pose proof Hlive as (_ & [n Ht] & st & Est & _).
    cbn. unfold turbo_cancel_token_reason, token_refreshed_reason. rewrite Ht, Est. cbn.
    destruct (env_refreshed e st Hlive Est) as (Hl & Hr & Hk).
    split; [exact Hl|]. by split.
  - intros ms e Hlive Hms. pose proof Hlive as (Hnow & [n Ht] & st & Est & Hclock).
    cbn. unfold turbo_cancel_token_wait. rewrite Ht, Est. cbv zeta.
    replace (ms =? TURBO_RUNTIME_WAIT_INFINITE) with false
      by (symmetry; apply Z.eqb_neq; unfold TURBO_RUNTIME_WAIT_INFINITE, UINT64_MAX, UINT_MAX in *; lia).
    cbn [negb].
    assert (Hnow_st : forall w, turbo_cancel_state_now_ms platform_clock w st = w)
      by (intros w; unfold turbo_cancel_state_now_ms; by rewrite Hclock).
    rewrite Hnow_st, saturating_add_eq by (unfold UINT64_MAX, UINT_MAX in *; lia).
    fold (env_limit ms e).
    destruct (wait_loop platform_clock true _ _ _ st) as [[status calls] st'] eqn:E.
    pose proof (wait_loop_live platform_clock true (env_limit ms e)
      (default [] (head (env_wakes e)) ++ [mk_wake None (env_limit ms e)]) (env_now e) st) as Hret.
    rewrite E in Hret. cbn in Hret.
    pose proof (wait_loop_sound _ _ _ _ _ _ _ _ _ E) as Hs.
    pose proof (wait_loop_evolves _ _ _ _ _ _ _ _ _ E) as Hev.
    destruct status as [s|].
    2: { exfalso. apply Hret; [|done]. apply Exists_app. right. apply Exists_cons. left.
         right. left. split; [done|]. cbn. rewrite Hnow_st. done. }
    edestruct (env_evolved e (mk_token_env (env_now e) (env_token e)
      (set_state (Some st') (env_heap e)) (tail (env_wakes e)))) as (Hl & Hr & Hk);
      [exact Hlive|exact Est|exact Hev|done..|].
    split; [exact Hl|]. split; [by destruct s|]. split; [|exact Hk].
    intros ->. cbn in Hs. rewrite Hr. exact Hs.
Defined.

End ControlledToken.
