(* ===== verification/Utf8.v ===== *)
(** * UTF-8 (RFC 3629): what the speech validators decide

    The encoding of a code point, the continuation-byte loop both validators
    share, and the loop over a text as a scan of code points.  The validators
    themselves are in [SpeechOutput] and [SpeechInput]. *)

From S2P Require Import Prelude.

Definition byte (b : Z) : Prop := 0 <= b < 256.

(** Unicode scalar values. *)
Definition scalar (cp : Z) : Prop := 0 <= cp < 55296 \/ 57343 < cp <= 1114111.

(** RFC 3629, section 3. *)
Definition encode (cp : Z) : list Z :=
  if cp <? 128 then [cp]
  else if cp <? 2048 then [192 + cp / 64; 128 + cp mod 64]
  else if cp <? 65536 then [224 + cp / 4096; 128 + (cp / 64) mod 64; 128 + cp mod 64]
  else [240 + cp / 262144; 128 + (cp / 4096) mod 64; 128 + (cp / 64) mod 64; 128 + cp mod 64].

Definition encode_all (cps : list Z) : list Z := concat (encode <$> cps).

(** The inner loop: [n] more continuation bytes. *)
(* src/speech_output/src/turbo_agent_speech_output.c 96-100 valid_plain_utf8 *)
Fixpoint continuation (n : nat) (cp : Z) (p : list Z) : option (Z * list Z) :=
  match n, p with
  | O, _ => Some (cp, p)
  | S _, [] => None
  | S n, b :: p =>
      if negb (Z.land b 192 =? 128) then None
      else continuation n (Z.lor (Z.shiftl cp 6) (Z.land b 63)) p
  end.

(** [while (i < len)]: one step consumes one code point or refuses the text. *)
Fixpoint scan (step : list Z -> option (list Z)) (fuel : nat) (p : list Z) : bool :=
  match p, fuel with
  | [], _ => true
  | _ :: _, O => false
  | _ :: _, S fuel => match step p with Some rest => scan step fuel rest | None => false end
  end.

(** ** Bytes *)

Definition all_bytes : list Z := Z.of_nat <$> seq 0 256.

(** A decidable fact about bytes holds when it holds of the 256. *)
Lemma byte_forall (f : Z -> bool) b : forallb f all_bytes = true -> byte b -> f b = true.
Proof.
  intros Hf Hb. rewrite forallb_forall in Hf. apply Hf. apply list_elem_of_In.
  unfold all_bytes. apply list_elem_of_fmap. exists (Z.to_nat b). unfold byte in Hb.
  split; [lia|]. apply elem_of_seq. lia.
Qed.

Lemma continuation_byte b : byte b -> (Z.land b 192 =? 128) = (128 <=? b) && (b <? 192).
Proof.
  intros Hb. apply Bool.eqb_prop.
  by apply (byte_forall (fun b => Bool.eqb (Z.land b 192 =? 128) ((128 <=? b) && (b <? 192)))).
Qed.

Lemma low_bits b : byte b -> 128 <= b < 192 -> Z.land b 63 = b - 128.
Proof.
  intros Hb Hr.
  pose proof (byte_forall
    (fun b => negb ((128 <=? b) && (b <? 192)) || (Z.land b 63 =? b - 128)) b eq_refl Hb) as Hf.
  cbv beta in Hf.
  rewrite (proj2 (Z.leb_le _ _)), (proj2 (Z.ltb_lt _ _)) in Hf by lia. by apply Z.eqb_eq in Hf.
Qed.

Lemma shift_or cp x : 0 <= x < 64 -> Z.lor (Z.shiftl cp 6) x = cp * 64 + x.
Proof.
  intros Hx. assert (Hl : Z.land (Z.shiftl cp 6) x = 0).
  { apply Z.bits_inj'. intros n Hn. rewrite Z.land_spec, Z.bits_0.
    destruct (decide (n < 6)) as [Hlt|Hge]; [by rewrite Z.shiftl_spec_low|].
    rewrite (Z.bits_above_log2 x n); [by rewrite andb_false_r|lia|].
    destruct (decide (x = 0)) as [->|Hne]; [simpl; lia|].
    assert (Z.log2 x < 6); [|lia]. apply Z.log2_lt_pow2; simpl; lia. }
  rewrite <- Z.lxor_lor, <- Z.add_nocarry_lxor by done.
  rewrite Z.shiftl_mul_pow2 by lia. change (2 ^ 6) with 64. lia.
Qed.

Lemma continuation_step n cp b p :
  byte b -> continuation (S n) cp (b :: p) =
  if (128 <=? b) && (b <? 192) then continuation n (cp * 64 + (b - 128)) p else None.
Proof.
  intros Hb. simpl. rewrite continuation_byte by done.
  destruct ((128 <=? b) && (b <? 192)) eqn:E; simpl; [|done]. bool_to_prop.
  by rewrite low_bits, shift_or by (done || lia).
Qed.

(** ** One multi-byte code point *)

(** The smallest code point that needs [extra] continuation bytes, and one more
    than the largest. *)
Definition first_of (extra : nat) : Z :=
  match extra with 1%nat => 128 | 2%nat => 2048 | _ => 65536 end.
Definition last_of (extra : nat) : Z :=
  match extra with 1%nat => 2048 | 2%nat => 65536 | _ => 2097152 end.
Definition lead_of (extra : nat) : Z :=
  match extra with 1%nat => 192 | 2%nat => 224 | _ => 240 end.

Definition push (cp b : Z) : Z := cp * 64 + (b - 128).

Lemma continuation_iff n x p cp rest :
  Forall byte p ->
  continuation n x p = Some (cp, rest) <->
  exists bs, length bs = n /\ Forall (fun b => 128 <= b < 192) bs /\ p = bs ++ rest /\
    cp = foldl push x bs.
Proof.
  intros Hp. revert x p Hp. induction n as [|n IH]; intros x p Hp.
  - simpl. split; [intros [= <- <-]; by exists []|].
    intros (bs & Hl & _ & -> & ->). apply length_zero_iff_nil in Hl. by subst.
  - destruct p as [|b p].
    { simpl. split; [done|]. intros ([|? ?] & [=] & _ & [=] & _). }
    apply Forall_cons in Hp as [Hb Hp]. rewrite continuation_step by done.
    destruct ((128 <=? b) && (b <? 192)) eqn:E.
    + bool_to_prop. rewrite (IH _ _ Hp). split.
      * intros (bs & Hl & Hf & -> & ->). exists (b :: bs). simpl. rewrite Forall_cons.
        repeat split; [lia|lia|lia|done].
      * intros ([|b' bs] & [=] & Hf & [= <- ->] & ->). apply Forall_cons in Hf as [_ Hf].
        by exists bs.
    + split; [done|]. intros ([|b' bs] & [=] & Hf & [= <- ->] & ->).
      apply Forall_cons in Hf as [Hr _].
      rewrite (proj2 (Z.leb_le _ _)), (proj2 (Z.ltb_lt _ _)) in E by lia. done.
Qed.

Lemma base64_div x r : 0 <= r < 64 -> (x * 64 + r) / 64 = x /\ (x * 64 + r) mod 64 = r.
Proof.
  intros Hr. rewrite Z.div_add_l, Z.div_small, Z.add_0_r by lia.
  split; [done|]. rewrite Z.add_comm, Z.mod_add by lia. by apply Z.mod_small.
Qed.

Lemma encode_2 x b1 : 0 <= b1 < 64 -> 128 <= x * 64 + b1 < 2048 ->
  encode (x * 64 + b1) = [192 + x; 128 + b1].
Proof.
  intros H1 Hr. unfold encode. rewrite (proj2 (Z.ltb_ge _ 128)), (proj2 (Z.ltb_lt _ 2048)) by lia.
  by destruct (base64_div x b1 H1) as [-> ->].
Qed.

Lemma encode_3 x b1 b2 : 0 <= b1 < 64 -> 0 <= b2 < 64 ->
  2048 <= (x * 64 + b1) * 64 + b2 < 65536 ->
  encode ((x * 64 + b1) * 64 + b2) = [224 + x; 128 + b1; 128 + b2].
Proof.
  intros H1 H2 Hr. unfold encode.
  rewrite (proj2 (Z.ltb_ge _ 128)), (proj2 (Z.ltb_ge _ 2048)), (proj2 (Z.ltb_lt _ 65536)) by lia.
  change 4096 with (64 * 64). rewrite <- Z.div_div by lia.
  destruct (base64_div (x * 64 + b1) b2 H2) as [-> ->].
  by destruct (base64_div x b1 H1) as [-> ->].
Qed.

Lemma encode_4 x b1 b2 b3 : 0 <= b1 < 64 -> 0 <= b2 < 64 -> 0 <= b3 < 64 ->
  65536 <= ((x * 64 + b1) * 64 + b2) * 64 + b3 ->
  encode (((x * 64 + b1) * 64 + b2) * 64 + b3) = [240 + x; 128 + b1; 128 + b2; 128 + b3].
Proof.
  intros H1 H2 H3 Hr. unfold encode.
  rewrite (proj2 (Z.ltb_ge _ 128)), (proj2 (Z.ltb_ge _ 2048)), (proj2 (Z.ltb_ge _ 65536)) by lia.
  change 262144 with (64 * (64 * 64)). change 4096 with (64 * 64).
  rewrite <- !Z.div_div by lia.
  destruct (base64_div ((x * 64 + b1) * 64 + b2) b3 H3) as [-> ->].
  destruct (base64_div (x * 64 + b1) b2 H2) as [-> ->].
  by destruct (base64_div x b1 H1) as [-> ->].
Qed.

(** A code point's own bytes are continuation bytes after a lead. *)
Lemma continuation_encode extra x p cp rest :
  (1 <= extra <= 3)%nat -> Forall byte p ->
  first_of extra <= cp < last_of extra ->
  continuation extra x p = Some (cp, rest) <-> lead_of extra + x :: p = encode cp ++ rest.
Proof.
  intros He Hp Hcp. rewrite continuation_iff by done. split.
  - intros (bs & Hl & Hf & -> & ->).
    destruct extra as [|[|[|[|]]]]; try lia; simpl in Hcp;
      repeat (destruct bs as [|? bs]; simpl in Hl; try lia);
      repeat (apply Forall_cons in Hf as [? Hf]); unfold push in *; simpl in *.
    + rewrite encode_2 by lia. simpl. repeat f_equal; lia.
    + rewrite encode_3 by lia. simpl. repeat f_equal; lia.
    + rewrite encode_4 by lia. simpl. repeat f_equal; lia.
  - pose proof (Z.div_mod cp 64 ltac:(lia)) as D1. pose proof (Z.mod_pos_bound cp 64 ltac:(lia)).
    set (q1 := cp / 64) in *. set (r1 := cp mod 64) in *.
    pose proof (Z.div_mod q1 64 ltac:(lia)) as D2. pose proof (Z.mod_pos_bound q1 64 ltac:(lia)).
    set (q2 := q1 / 64) in *. set (r2 := q1 mod 64) in *.
    pose proof (Z.div_mod q2 64 ltac:(lia)) as D3. pose proof (Z.mod_pos_bound q2 64 ltac:(lia)).
    set (q3 := q2 / 64) in *. set (r3 := q2 mod 64) in *. clearbody q1 r1 q2 r2 q3 r3.
    destruct extra as [|[|[|[|]]]]; try lia; simpl in Hcp.
    + rewrite D1 in Hcp |- *. rewrite (Z.mul_comm 64 q1) in *. rewrite encode_2 by lia.
      simpl. intros [= Hx ->]. exists [128 + r1]. unfold push. simpl.
      rewrite Forall_singleton. repeat split; lia.
    + rewrite D1, D2 in Hcp |- *. rewrite (Z.mul_comm 64 (_ + _)), (Z.mul_comm 64 q2) in *.
      rewrite encode_3 by lia.
      simpl. intros [= Hx ->]. exists [128 + r2; 128 + r1]. unfold push. simpl.
      rewrite Forall_cons, Forall_singleton. repeat split; lia.
    + rewrite D1, D2, D3 in Hcp |- *.
      rewrite (Z.mul_comm 64 q3), (Z.mul_comm 64 (q3 * 64 + r3)), (Z.mul_comm 64 (_ + r2)) in *.
      rewrite encode_4 by lia.
      simpl. intros [= Hx ->]. exists [128 + r3; 128 + r2; 128 + r1]. unfold push. simpl.
      rewrite !Forall_cons. repeat split; try lia. done.
Qed.

(** ** Whole texts *)

Lemma encode_nonempty cp : exists b bs, encode cp = b :: bs.
Proof. unfold encode. repeat case_match; eauto. Qed.

Lemma scan_iff (ok : Z -> Prop) (step : list Z -> option (list Z)) fuel p :
  (forall p rest, Forall byte p -> p <> [] ->
     step p = Some rest <-> exists cp, ok cp /\ p = encode cp ++ rest) ->
  Forall byte p -> (length p <= fuel)%nat ->
  scan step fuel p = true <-> exists cps, Forall ok cps /\ p = encode_all cps.
Proof.
  intros Hstep. revert p. induction fuel as [|fuel IH]; intros [|b p] Hp Hl; simpl in Hl; try lia;
    try (simpl; split; [intros _; by exists []|done]).
  cbn [scan]. split.
  - destruct (step (b :: p)) as [rest|] eqn:E; [|done].
    apply Hstep in E as (cp & Hok & Heq); [|done..]. rewrite Heq in Hp.
    apply Forall_app in Hp as [_ Hp].
    destruct (encode_nonempty cp) as (c & cs & Hc).
    intros Hs. apply IH in Hs as (cps & Hcps & ->); [|done|].
    + exists (cp :: cps). rewrite Forall_cons. split; [done|]. by rewrite Heq.
    + apply (f_equal length) in Heq. rewrite Hc, length_app in Heq. simpl in Heq. lia.
  - intros ([|cp cps] & Hf & Heq); [done|]. apply Forall_cons in Hf as [Hok Hf].
    change (encode_all (cp :: cps)) with (encode cp ++ encode_all cps) in Heq.
    rewrite (proj2 (Hstep (b :: p) (encode_all cps) Hp ltac:(done))) by eauto.
    destruct (encode_nonempty cp) as (c & cs & Hc).
    apply IH; [|apply (f_equal length) in Heq; rewrite Hc, length_app in Heq; simpl in Heq; lia
              |by eauto].
    rewrite Heq in Hp. by apply Forall_app in Hp as [_ Hp].
Qed.

(** ** Lead bytes *)

Definition extra_of (a : Z) : nat := if a <=? 223 then 1 else if a <=? 239 then 2 else 3.

Lemma encode_lead cp : 128 <= cp <= 1114111 ->
  exists b bs, encode cp = b :: bs /\ 194 <= b <= 244 /\
    first_of (extra_of b) <= cp < last_of (extra_of b).
Proof.
  intros Hcp. unfold encode. rewrite (proj2 (Z.ltb_ge _ 128)) by lia.
  pose proof (Z.div_mod cp 64 ltac:(lia)). pose proof (Z.mod_pos_bound cp 64 ltac:(lia)).
  pose proof (Z.div_mod cp 4096 ltac:(lia)). pose proof (Z.mod_pos_bound cp 4096 ltac:(lia)).
  pose proof (Z.div_mod cp 262144 ltac:(lia)). pose proof (Z.mod_pos_bound cp 262144 ltac:(lia)).
  unfold extra_of.
  destruct (cp <? 2048) eqn:E1; [|destruct (cp <? 65536) eqn:E2]; bool_to_prop;
    (do 2 eexists; split; [reflexivity|]).
  - rewrite (proj2 (Z.leb_le _ 223)) by lia. simpl. lia.
  - rewrite (proj2 (Z.leb_gt _ 223)), (proj2 (Z.leb_le _ 239)) by lia. simpl. lia.
  - rewrite (proj2 (Z.leb_gt _ 223)), (proj2 (Z.leb_gt _ 239)) by lia. simpl. lia.
Qed.

Lemma extra_range a : (1 <= extra_of a <= 3)%nat.
Proof. unfold extra_of. repeat case_match; lia. Qed.

Lemma continuation_bound n x p cp rest m :
  Forall byte p -> continuation n x p = Some (cp, rest) -> 0 <= x < m ->
  0 <= cp < m * 64 ^ Z.of_nat n /\ (n <= length p)%nat.
Proof.
  intros Hp Hc Hx. apply continuation_iff in Hc as (bs & Hl & Hf & -> & ->); [|done].
  rewrite length_app, Hl. split; [|lia]. clear Hp. revert x m n Hl Hx.
  induction bs as [|b bs IH]; intros x m n Hl Hx; simpl in Hl; subst n;
    [simpl; lia|].
  apply Forall_cons in Hf as [Hb Hf].
  pose proof (IH Hf (push x b) (m * 64) (length bs) eq_refl ltac:(unfold push; lia)).
  cbn [length foldl]. rewrite Nat2Z.inj_succ, Z.pow_succ_r by lia. lia.
Qed.

(** A lead byte and what follows it: decoding and encoding agree. *)
Lemma multibyte_iff a r rest cp :
  Forall byte r -> 194 <= a <= 244 ->
  (continuation (extra_of a) (a - lead_of (extra_of a)) r = Some (cp, rest) /\
   first_of (extra_of a) <= cp <= 1114111) <->
  (a :: r = encode cp ++ rest /\ 128 <= cp <= 1114111).
Proof.
  intros Hr Ha. pose proof (extra_range a) as He. split.
  - intros [Hc Hcp].
    assert (Hm : 0 <= a - lead_of (extra_of a) < last_of (extra_of a) / 64 ^ Z.of_nat (extra_of a)).
    { unfold extra_of. destruct (a <=? 223) eqn:E1; [|destruct (a <=? 239) eqn:E2]; bool_to_prop;
        vm_compute (last_of _ / _); simpl lead_of; lia. }
    destruct (continuation_bound _ _ _ _ _ _ Hr Hc Hm) as [Hb _].
    assert (Hlast : last_of (extra_of a) / 64 ^ Z.of_nat (extra_of a) * 64 ^ Z.of_nat (extra_of a) =
                    last_of (extra_of a)) by (destruct (extra_of a) as [|[|[|[|]]]]; try lia; done).
    rewrite Hlast in Hb. apply continuation_encode in Hc; [|done..|lia].
    replace (lead_of (extra_of a) + (a - lead_of (extra_of a))) with a in Hc by lia.
    split; [done|]. destruct (extra_of a) as [|[|[|[|]]]]; simpl in Hcp; lia.
  - intros [Heq Hcp]. destruct (encode_lead cp Hcp) as (b & bs & Hb & Hrange & Hcp').
    assert (a = b) as <- by (rewrite Hb in Heq; by injection Heq).
    split; [|lia]. apply continuation_encode; [done..|].
    by replace (lead_of (extra_of a) + (a - lead_of (extra_of a))) with a by lia.
Qed.

(** Masking a lead byte leaves its payload. *)
Lemma lead_masks a : 194 <= a <= 244 ->
  (a <= 223 -> Z.land a 31 = a - 192) /\ (223 < a <= 239 -> Z.land a 15 = a - 224) /\
  (239 < a -> Z.land a 7 = a - 240).
Proof.
  intros Ha.
  pose proof (byte_forall (fun a => negb ((194 <=? a) && (a <=? 244)) ||
    (if a <=? 223 then Z.land a 31 =? a - 192 else if a <=? 239 then Z.land a 15 =? a - 224
     else Z.land a 7 =? a - 240)) a eq_refl ltac:(unfold byte; lia)) as Hf. cbv beta in Hf.
  rewrite (proj2 (Z.leb_le 194 _)), (proj2 (Z.leb_le _ 244)) in Hf by lia. simpl in Hf.
  destruct (a <=? 223) eqn:E1; [|destruct (a <=? 239) eqn:E2]; bool_to_prop; lia.
Qed.

Lemma encode_ascii cp : cp < 128 -> encode cp = [cp].
Proof. intros Hc. unfold encode. by rewrite (proj2 (Z.ltb_lt _ 128)) by lia. Qed.

(** ** One step of a validator *)

(** The [if] chain both validators classify the lead byte with. *)
(* src/speech_output/src/turbo_agent_speech_output.c 85-94 valid_plain_utf8 *)
Definition lead_split (a : Z) : nat * Z :=
  if a <=? 223 then (1%nat, Z.land a 31)
  else if a <=? 239 then (2%nat, Z.land a 15)
  else (3%nat, Z.land a 7).

Lemma lead_split_spec a : 194 <= a <= 244 ->
  lead_split a = (extra_of a, a - lead_of (extra_of a)).
Proof.
  intros Ha. destruct (lead_masks a Ha) as (M1 & M2 & M3). unfold lead_split, extra_of.
  destruct (a <=? 223) eqn:F1; [|destruct (a <=? 239) eqn:F2]; bool_to_prop; simpl; f_equal; lia.
Qed.

Lemma continuation_short n x p :
  Forall byte p -> (length p < n)%nat -> continuation n x p = None.
Proof.
  intros Hp Hl. destruct (continuation n x p) as [[cp rest]|] eqn:E; [|done].
  apply continuation_iff in E as (bs & Hb & _ & -> & _); [|done].
  rewrite length_app in Hl. lia.
Qed.

(** How the first byte of an encoding tells what it encodes. *)
Lemma encode_first cp a r rest :
  scalar cp -> a :: r = encode cp ++ rest ->
  cp < 128 /\ a = cp /\ r = rest \/ 128 <= cp <= 1114111 /\ 194 <= a <= 244.
Proof.
  intros Hs Heq. unfold scalar in Hs. destruct (decide (cp < 128)) as [Hlt|Hge].
  - rewrite encode_ascii in Heq by done. injection Heq as <- <-. by left.
  - right. destruct (encode_lead cp) as (b & bs & Hb & Hrange & _); [lia|].
    rewrite Hb in Heq. injection Heq as <- _. lia.
Qed.

(** The part of a step behind a lead byte, for any test [refuse] of the decoded
    code point that refuses what the encoding length forbids. *)
Lemma multibyte_step (ok : Z -> Prop) (refuse : nat -> Z -> bool) a r rest :
  Forall byte r -> 194 <= a <= 244 ->
  (forall cp, refuse (extra_of a) cp = false <->
     first_of (extra_of a) <= cp <= 1114111 /\ ok cp) ->
  (let '(extra, cp) := lead_split a in
   if (length r <? extra)%nat then None
   else match continuation extra cp r with
        | None => None
        | Some (cp, rest) => if refuse extra cp then None else Some rest
        end) = Some rest <->
  exists cp, ok cp /\ 128 <= cp <= 1114111 /\ a :: r = encode cp ++ rest.
Proof.
  intros Hr Ha Href. rewrite (lead_split_spec a Ha). cbv beta iota.
  destruct (length r <? extra_of a)%nat eqn:El.
  - apply Nat.ltb_lt in El. split; [done|]. intros (cp & _ & Hcp & Heq).
    destruct (proj2 (multibyte_iff a r rest cp Hr Ha)) as [Hc _]; [done|].
    by rewrite continuation_short in Hc.
  - split.
    + destruct (continuation _ _ r) as [[cp rest']|] eqn:Ec; [|done].
      destruct (refuse (extra_of a) cp) eqn:Eref; [done|]. intros [= ->].
      apply Href in Eref as [Hcp Hok].
      destruct (proj1 (multibyte_iff a r rest cp Hr Ha)) as [Heq Hge]; [done|]. eauto.
    + intros (cp & Hok & Hcp & Heq).
      destruct (proj2 (multibyte_iff a r rest cp Hr Ha)) as [-> Hfirst]; [done|].
      by rewrite (proj2 (Href cp)).
Qed.
