(* ===== verification/Graph.v ===== *)
(** * The graph runtime (src/runtime/src/turbo_graph.c): definitions

    A graph is a table of named nodes with callbacks and a table of edges with
    optional predicates.  This file translates the builder, the topology
    identifier and its cache, checkpoints, and the two executors: the JSON one
    ([run_internal]) and the JSON-native one with events and cooperative
    cancellation ([run_internal_json_value]).  Their properties are in
    [GraphFacts].

    - Callbacks are functions of their context and of a world [W] they may read
      and change; they close over their [user_data].  They do not restructure
      the graph they run in.
    - JSON states are values: the run owns the state it threads, and [json_clone]
      is the library's.
    - Every allocation consumes one answer of the run's oracle.
    - The effects a caller can see (node calls, checkpoints, events) are kept in
      a trace, next to the world the callbacks change. *)

From stdpp Require Import sorting.
From S2P Require Import Prelude RuntimeJson JsonBuild JsonMem RuntimeEvent.

(* src/runtime/include/turbo_graph.h 19-33 turbo_graph_exec_status_t *)
Inductive turbo_graph_exec_status : Type :=
| TURBO_GRAPH_EXEC_OK
| TURBO_GRAPH_EXEC_STOP
| TURBO_GRAPH_EXEC_INTERRUPTED
| TURBO_GRAPH_EXEC_ERROR
| TURBO_GRAPH_EXEC_STEP_LIMIT
| TURBO_GRAPH_EXEC_ROUTE_NOT_FOUND
| TURBO_GRAPH_EXEC_NODE_NOT_FOUND
| TURBO_GRAPH_EXEC_INVALID_ARGUMENT
| TURBO_GRAPH_EXEC_DUPLICATE_NODE
| TURBO_GRAPH_EXEC_OUT_OF_MEMORY
| TURBO_GRAPH_EXEC_CHECKPOINT_MISMATCH
| TURBO_GRAPH_EXEC_CANCELLED
| TURBO_GRAPH_EXEC_DEADLINE.

#[global] Instance exec_status_eq_dec : EqDecision turbo_graph_exec_status.
Proof. solve_decision. Defined.

(* src/runtime/include/turbo_graph.h 67-72 turbo_graph_run_result_t *)
Record turbo_graph_run_result := mk_result {
  res_status : turbo_graph_exec_status;
  res_last_node : option string;
  res_next_node : option string;
  res_steps : Z
}.

(** [strcmp], by unsigned characters. *)
Fixpoint strcmp (a b : string) : Z :=
  match a, b with
  | EmptyString, EmptyString => 0
  | EmptyString, String _ _ => -1
  | String _ _, EmptyString => 1
  | String c a', String d b' =>
      if char_code c =? char_code d then strcmp a' b'
      else if char_code c <? char_code d then -1 else 1
  end.

(** The comparators chain [strcmp]s, the first non-zero one deciding. *)
Fixpoint strcmp_chain (l : list (string * string)) : Z :=
  match l with
  | [] => 0
  | (a, b) :: rest => let c := strcmp a b in if negb (c =? 0) then c else strcmp_chain rest
  end.

Section graph.
Context {W J : Type} `{JsonSetters J}.

(** [tstr_cat_typed(tstr_new(), format, ...)] of the string library. *)
Context (tstr_cat_typed : string -> list string -> string).

(** ** Data *)

(** The context has no back pointer to the graph: [ctx_set_next] takes the
    graph as an argument instead. *)
(* src/runtime/include/turbo_graph.h 35-45 turbo_graph_exec_ctx_t *)
Record turbo_graph_exec_ctx := mk_ctx {
  ctx_state : option J;
  ctx_json_value_state : option J;
  ctx_current_node : string;
  ctx_next_node : option string;
  ctx_step : Z;
  ctx_stop : bool
}.

(** Node callbacks return a status and may change their context. *)
(* src/runtime/include/turbo_graph.h 47-48 turbo_graph_node_fn *)
Definition node_fn : Type := turbo_graph_exec_ctx -> W -> Z * turbo_graph_exec_ctx * W.
(** Predicates get a [const] context. *)
(* src/runtime/include/turbo_graph.h 49-51 turbo_graph_edge_predicate_fn *)
Definition predicate_fn : Type := turbo_graph_exec_ctx -> W -> Z * W.

(* src/runtime/src/turbo_graph.c 12-18 turbo_graph_node_entry_t *)
Record turbo_graph_node_entry := mk_node {
  node_name : string;
  node_semantic_id : string;
  node_json_fn : option node_fn;
  node_json_value_fn : option node_fn
}.

(* src/runtime/src/turbo_graph.c 20-27 turbo_graph_edge_entry_t *)
Record turbo_graph_edge_entry := mk_edge {
  from_index : nat;
  to_index : nat;
  edge_semantic_id : string;
  edge_json_predicate : option predicate_fn;
  edge_json_value_predicate : option predicate_fn
}.

(* src/runtime/src/turbo_graph.c 29-39 turbo_graph_s *)
Record turbo_graph := mk_graph {
  graph_name : option string;
  entry_node : option string;
  nodes : list turbo_graph_node_entry;
  node_capacity : Z;
  edges : list turbo_graph_edge_entry;
  edge_capacity : Z;
  topology_id : option string
}.

(* src/runtime/src/turbo_graph.c 41-46 turbo_graph_checkpoint_s *)
Record turbo_graph_checkpoint := mk_checkpoint {
  cp_next_node : string;
  cp_steps : Z;
  cp_state : J;
  cp_topology_id : option string
}.

(* src/runtime/include/turbo_graph.h 55-63 turbo_graph_run_options_t *)
Record turbo_graph_run_options := mk_options {
  max_steps : Z;
  start_node : option string;
  interrupt_before_nodes : option (list (option string));
  skip_initial_interrupt : bool;
  checkpoint_cb : option (turbo_graph_checkpoint -> W -> W)
}.

Definition set_topology_id (t : option string) (g : turbo_graph) : turbo_graph :=
  mk_graph (graph_name g) (entry_node g) (nodes g) (node_capacity g) (edges g)
    (edge_capacity g) t.

(** ** Topology *)

(* src/runtime/src/turbo_graph.c 50-52 turbo_graph_join_edge_semantic_id *)
Definition turbo_graph_join_edge_semantic_id (from to : string) : string :=
  tstr_cat_typed "{}->{}" [from; to].

(* src/runtime/src/turbo_graph.c 54-60 turbo_graph_node_kind_text *)
Definition turbo_graph_node_kind_text (node : turbo_graph_node_entry) : string :=
  match node_json_value_fn node with Some _ => "bind" | None => "json" end.

(* src/runtime/src/turbo_graph.c 62-74 turbo_graph_edge_predicate_kind_text *)
Definition turbo_graph_edge_predicate_kind_text (edge : turbo_graph_edge_entry) : string :=
  match edge_json_value_predicate edge, edge_json_predicate edge with
  | Some _, _ => "json_value_predicate"
  | None, Some _ => "json_predicate"
  | None, None => "always"
  end.

(* src/runtime/src/turbo_graph.c 76-79 turbo_graph_effective_semantic_id *)
Definition turbo_graph_effective_semantic_id (semantic_id : option string) (fallback : string)
  : string :=
  match semantic_id with
  | Some (String c s) => String c s
  | _ => fallback
  end.

(* src/runtime/src/turbo_graph.c 81-88 turbo_graph_invalidate_topology_id *)
Definition turbo_graph_invalidate_topology_id (g : turbo_graph) : turbo_graph :=
  set_topology_id None g.

(** What the sorted pointers are read for: semantic id, name, kind. *)
Definition node_ref : Type := string * string * string.
(** The edge references: semantic id, from, to, predicate kind. *)
(* src/runtime/src/turbo_graph.c 111-116 turbo_graph_edge_topology_ref_t *)
Definition edge_ref : Type := string * string * string * string.

Definition ref_of_node (n : turbo_graph_node_entry) : node_ref :=
  (node_semantic_id n, node_name n, turbo_graph_node_kind_text n).

Definition name_at (g : turbo_graph) (i : nat) : string :=
  default EmptyString (node_name <$> nodes g !! i).

(* src/runtime/src/turbo_graph.c 200-203 turbo_graph_topology_json_create *)
Definition ref_of_edge (g : turbo_graph) (e : turbo_graph_edge_entry) : edge_ref :=
  (edge_semantic_id e, name_at g (from_index e), name_at g (to_index e),
   turbo_graph_edge_predicate_kind_text e).

(* src/runtime/src/turbo_graph.c 92-108 turbo_graph_node_ptr_compare *)
Definition turbo_graph_node_ptr_compare (l r : node_ref) : Z :=
  let '(ls, ln, lk) := l in let '(rs, rn, rk) := r in
  strcmp_chain [(ls, rs); (ln, rn); (lk, rk)].

(* src/runtime/src/turbo_graph.c 110-141 turbo_graph_edge_ptr_compare *)
Definition turbo_graph_edge_ptr_compare (l r : edge_ref) : Z :=
  let '(ls, lf, lt, lk) := l in let '(rs, rf, rt, rk) := r in
  strcmp_chain [(ls, rs); (lf, rf); (lt, rt); (lk, rk)].

(** [qsort] with a comparator. *)
Definition node_le (l r : node_ref) : Prop := turbo_graph_node_ptr_compare l r <= 0.
Definition edge_le (l r : edge_ref) : Prop := turbo_graph_edge_ptr_compare l r <= 0.
#[global] Instance node_le_dec : RelDecision node_le := fun l r => Z_le_dec _ _.
#[global] Instance edge_le_dec : RelDecision edge_le := fun l r => Z_le_dec _ _.

(** [n] allocations in a row, stopping at the first that fails. *)
Fixpoint alloc_n (n : nat) (o : oracle) : bool * oracle :=
  match n with
  | O => (true, o)
  | S n => let (ok, o) := alloc o in if ok then alloc_n n o else (false, o)
  end.

(** The setters of the documents are not checked: a document that memory did not
    suffice for lacks members. *)
(* src/runtime/src/turbo_graph.c 221-240 turbo_graph_topology_json_create *)
Definition node_document (r : node_ref) : mem J :=
  let '(semantic_id, name, kind) := r in
  node ← create_object;
  node ← quiet (raw_string "name" name) node;
  node ← quiet (raw_string "semantic_id" semantic_id) node;
  quiet (raw_string "kind" kind) node.

(* src/runtime/src/turbo_graph.c 242-266 turbo_graph_topology_json_create *)
Definition edge_document (r : edge_ref) : mem J :=
  let '(semantic_id, from, to, kind) := r in
  edge ← create_object;
  edge ← quiet (raw_string "from" from) edge;
  edge ← quiet (raw_string "to" to) edge;
  edge ← quiet (raw_string "semantic_id" semantic_id) edge;
  quiet (raw_string "predicate_kind" kind) edge.

(** From the sorted references.  The two arrays are inserted in the root before
    they are filled. *)
(* src/runtime/src/turbo_graph.c 216-266 turbo_graph_topology_json_create *)
Definition topology_document (name entry : string) (node_refs : list node_ref)
    (edge_refs : list edge_ref) : mem J :=
  root ← quiet (raw_string "graph_name" name) json_create_object;
  root ← quiet (raw_string "entry_node" entry) root;
  root ← quiet (raw_member "nodes" json_create_array) root;
  root ← quiet (raw_member "edges" json_create_array) root;
  nodes ← mem_fold (fun nodes r => node ← node_document r; quiet_append nodes node) node_refs json_create_array;
  edges ← mem_fold (fun edges r => edge ← edge_document r; quiet_append edges edge) edge_refs json_create_array;
  mret (update_member (update_member root "nodes" nodes) "edges" edges).

(** Allocations in the source's order: the three containers (all attempted),
    the two pointer arrays, one reference per edge, then the document. *)
(* src/runtime/src/turbo_graph.c 143-277 turbo_graph_topology_json_create *)
Definition turbo_graph_topology_json_create (g : turbo_graph) (o : oracle)
  : option J * oracle :=
  let (root_ok, o) := alloc o in
  let (nodes_ok, o) := alloc o in
  let (edges_ok, o) := alloc o in
  if negb (root_ok && nodes_ok && edges_ok) then (None, o)
  else
    let (ok, o) := alloc_n (if decide (nodes g = []) then 0 else 1) o in
    if negb ok then (None, o)
    else
      let (ok, o) := alloc_n (if decide (edges g = []) then 0 else S (length (edges g))) o in
      if negb ok then (None, o)
      else
        let node_refs := merge_sort node_le (ref_of_node <$> nodes g) in
        let edge_refs := merge_sort edge_le (ref_of_edge g <$> edges g) in
        topology_document (default EmptyString (graph_name g)) (default EmptyString (entry_node g))
          node_refs edge_refs o.

(* src/runtime/src/turbo_graph.c 279-295 turbo_graph_topology_id_build *)
Definition turbo_graph_topology_id_build (g : turbo_graph) (o : oracle)
  : option string * oracle :=
  match turbo_graph_topology_json_create g o with
  | (None, o) => (None, o)
  | (Some root, o) =>
      let (ok, o) := alloc o in
      (if ok then Some (json_serialize root) else None, o)
  end.

(** Cached in the graph on first use. *)
(* src/runtime/src/turbo_graph.c 1310-1330 turbo_graph_topology_id *)
Definition turbo_graph_topology_id (g : turbo_graph) (o : oracle)
  : option string * turbo_graph * oracle :=
  match topology_id g with
  | Some t => (Some t, g, o)
  | None =>
      match turbo_graph_topology_id_build g o with
      | (None, o) => (None, g, o)
      | (Some t, o) => (Some t, set_topology_id (Some t) g, o)
      end
  end.

(** ** Builder

    Every operation returns its status, the graph afterwards and the oracle. *)

Definition build_result : Type := turbo_graph_exec_status * turbo_graph * oracle.

(** [None] is [(size_t)-1]. *)
(* src/runtime/src/turbo_graph.c 330-344 turbo_graph_find_node_index *)
Fixpoint find_index_from (i : nat) (l : list turbo_graph_node_entry) (name : string)
  : option nat :=
  match l with
  | [] => None
  | n :: rest => if strcmp (node_name n) name =? 0 then Some i
                 else find_index_from (S i) rest name
  end.

(* src/runtime/src/turbo_graph.c 330-344 turbo_graph_find_node_index *)
Definition turbo_graph_find_node_index (g : turbo_graph) (name : string) : option nat :=
  find_index_from 0 (nodes g) name.

(* src/runtime/src/turbo_graph.c 346-364 turbo_graph_reserve_nodes *)
Definition turbo_graph_reserve_nodes (g : turbo_graph) (o : oracle) : build_result :=
  if Z.of_nat (length (nodes g)) <? node_capacity g then (TURBO_GRAPH_EXEC_OK, g, o)
  else
    let new_capacity := if node_capacity g =? 0 then 4 else u64 (node_capacity g * 2) in
    let (ok, o) := alloc o in
    if ok then (TURBO_GRAPH_EXEC_OK,
                mk_graph (graph_name g) (entry_node g) (nodes g) new_capacity (edges g)
                  (edge_capacity g) (topology_id g), o)
    else (TURBO_GRAPH_EXEC_OUT_OF_MEMORY, g, o).

(* src/runtime/src/turbo_graph.c 366-384 turbo_graph_reserve_edges *)
Definition turbo_graph_reserve_edges (g : turbo_graph) (o : oracle) : build_result :=
  if Z.of_nat (length (edges g)) <? edge_capacity g then (TURBO_GRAPH_EXEC_OK, g, o)
  else
    let new_capacity := if edge_capacity g =? 0 then 8 else u64 (edge_capacity g * 2) in
    let (ok, o) := alloc o in
    if ok then (TURBO_GRAPH_EXEC_OK,
                mk_graph (graph_name g) (entry_node g) (nodes g) (node_capacity g) (edges g)
                  new_capacity (topology_id g), o)
    else (TURBO_GRAPH_EXEC_OUT_OF_MEMORY, g, o).

(* src/runtime/src/turbo_graph.c 1044-1059 turbo_graph_create *)
Definition turbo_graph_create (name : option string) (o : oracle)
  : option turbo_graph * oracle :=
  let (ok, o) := alloc o in
  if negb ok then (None, o)
  else
    match name with
    | None => (Some (mk_graph None None [] 0 [] 0 None), o)
    | Some s =>
        let (ok, o) := alloc o in
        (if ok then Some (mk_graph (Some s) None [] 0 [] 0 None) else None, o)
    end.

Definition append_node (n : turbo_graph_node_entry) (g : turbo_graph) : turbo_graph :=
  mk_graph (graph_name g) (entry_node g) (nodes g ++ [n]) (node_capacity g) (edges g)
    (edge_capacity g) (topology_id g).
Definition append_edge (e : turbo_graph_edge_entry) (g : turbo_graph) : turbo_graph :=
  mk_graph (graph_name g) (entry_node g) (nodes g) (node_capacity g) (edges g ++ [e])
    (edge_capacity g) (topology_id g).

(** The part the two node operations share, after the argument check: the
    duplicate test, the reservation and the two string copies. *)
(* src/runtime/src/turbo_graph.c 1103-1129 turbo_graph_add_node_ex *)
Definition add_node_entry (g : turbo_graph) (name : string) (semantic_id : option string)
    (json_fn json_value_fn : option node_fn) (o : oracle) : build_result :=
  match turbo_graph_find_node_index g name with
  | Some _ => (TURBO_GRAPH_EXEC_DUPLICATE_NODE, g, o)
  | None =>
      match turbo_graph_reserve_nodes g o with
      | (TURBO_GRAPH_EXEC_OK, g, o) =>
          let (name_ok, o) := alloc o in
          if negb name_ok then (TURBO_GRAPH_EXEC_OUT_OF_MEMORY, g, o)
          else
            let (id_ok, o) := alloc o in
            if negb id_ok then (TURBO_GRAPH_EXEC_OUT_OF_MEMORY, g, o)
            else
              let n := mk_node name (turbo_graph_effective_semantic_id semantic_id name)
                         json_fn json_value_fn in
              (TURBO_GRAPH_EXEC_OK, turbo_graph_invalidate_topology_id (append_node n g), o)
      | (status, g, o) => (status, g, o)
      end
  end.

(** NULL arguments are [None]. *)
(* src/runtime/src/turbo_graph.c 1091-1130 turbo_graph_add_node_ex *)
Definition turbo_graph_add_node_ex (g : turbo_graph) (name semantic_id : option string)
    (fn : option node_fn) (o : oracle) : build_result :=
  match name, fn with
  | Some name, Some fn => add_node_entry g name semantic_id (Some fn) None o
  | _, _ => (TURBO_GRAPH_EXEC_INVALID_ARGUMENT, g, o)
  end.

(* src/runtime/src/turbo_graph.c 1086-1089 turbo_graph_add_node *)
Definition turbo_graph_add_node (g : turbo_graph) (name : option string)
    (fn : option node_fn) (o : oracle) : build_result :=
  turbo_graph_add_node_ex g name None fn o.

(* src/runtime/src/turbo_graph.c 1138-1176 turbo_graph_add_json_value_node_ex *)
Definition turbo_graph_add_json_value_node_ex (g : turbo_graph)
    (name semantic_id : option string) (fn : option node_fn) (o : oracle) : build_result :=
  match name, fn with
  | Some name, Some fn => add_node_entry g name semantic_id None (Some fn) o
  | _, _ => (TURBO_GRAPH_EXEC_INVALID_ARGUMENT, g, o)
  end.

(* src/runtime/src/turbo_graph.c 1132-1136 turbo_graph_add_json_value_node *)
Definition turbo_graph_add_json_value_node (g : turbo_graph) (name : option string)
    (fn : option node_fn) (o : oracle) : build_result :=
  turbo_graph_add_json_value_node_ex g name None fn o.

(* src/runtime/src/turbo_graph.c 1197-1225 turbo_graph_add_edge_ex *)
Definition add_edge_entry (g : turbo_graph) (from to semantic_id : option string)
    (json_predicate json_value_predicate : option predicate_fn) (o : oracle) : build_result :=
  match from, to with
  | Some from, Some to =>
      match turbo_graph_find_node_index g from, turbo_graph_find_node_index g to with
      | Some from_index, Some to_index =>
          match turbo_graph_reserve_edges g o with
          | (TURBO_GRAPH_EXEC_OK, g, o) =>
              let (id_ok, o) := alloc o in
              if negb id_ok then (TURBO_GRAPH_EXEC_OUT_OF_MEMORY, g, o)
              else
                let id := match semantic_id with
                          | Some (String c s) => String c s
                          | _ => turbo_graph_join_edge_semantic_id from to
                          end in
                (TURBO_GRAPH_EXEC_OK,
                 turbo_graph_invalidate_topology_id
                   (append_edge (mk_edge from_index to_index id json_predicate
                                   json_value_predicate) g), o)
          | (status, g, o) => (status, g, o)
          end
      | _, _ => (TURBO_GRAPH_EXEC_NODE_NOT_FOUND, g, o)
      end
  | _, _ => (TURBO_GRAPH_EXEC_INVALID_ARGUMENT, g, o)
  end.

(* src/runtime/src/turbo_graph.c 1184-1226 turbo_graph_add_edge_ex *)
Definition turbo_graph_add_edge_ex (g : turbo_graph) (from to semantic_id : option string)
    (predicate : option predicate_fn) (o : oracle) : build_result :=
  add_edge_entry g from to semantic_id predicate None o.

(* src/runtime/src/turbo_graph.c 1178-1182 turbo_graph_add_edge *)
Definition turbo_graph_add_edge (g : turbo_graph) (from to : option string)
    (predicate : option predicate_fn) (o : oracle) : build_result :=
  turbo_graph_add_edge_ex g from to None predicate o.

(* src/runtime/src/turbo_graph.c 1234-1274 turbo_graph_add_json_value_edge_ex *)
Definition turbo_graph_add_json_value_edge_ex (g : turbo_graph)
    (from to semantic_id : option string) (predicate : option predicate_fn) (o : oracle)
  : build_result :=
  add_edge_entry g from to semantic_id None predicate o.

(* src/runtime/src/turbo_graph.c 1228-1232 turbo_graph_add_json_value_edge *)
Definition turbo_graph_add_json_value_edge (g : turbo_graph) (from to : option string)
    (predicate : option predicate_fn) (o : oracle) : build_result :=
  turbo_graph_add_json_value_edge_ex g from to None predicate o.

(* src/runtime/src/turbo_graph.c 1276-1296 turbo_graph_set_entry *)
Definition turbo_graph_set_entry (g : turbo_graph) (name : option string) (o : oracle)
  : build_result :=
  match name with
  | None => (TURBO_GRAPH_EXEC_INVALID_ARGUMENT, g, o)
  | Some name =>
      match turbo_graph_find_node_index g name with
      | None => (TURBO_GRAPH_EXEC_NODE_NOT_FOUND, g, o)
      | Some _ =>
          let (ok, o) := alloc o in
          if negb ok then (TURBO_GRAPH_EXEC_OUT_OF_MEMORY, g, o)
          else (TURBO_GRAPH_EXEC_OK,
                turbo_graph_invalidate_topology_id
                  (mk_graph (graph_name g) (Some name) (nodes g) (node_capacity g) (edges g)
                     (edge_capacity g) (topology_id g)), o)
      end
  end.

(* src/runtime/src/turbo_graph.c 1298-1300 turbo_graph_get_entry *)
Definition turbo_graph_get_entry (g : option turbo_graph) : option string :=
  g ← g; entry_node g.

(* src/runtime/src/turbo_graph.c 1302-1304 turbo_graph_node_count *)
Definition turbo_graph_node_count (g : option turbo_graph) : Z :=
  match g with Some g => Z.of_nat (length (nodes g)) | None => 0 end.

(* src/runtime/src/turbo_graph.c 1306-1308 turbo_graph_edge_count *)
Definition turbo_graph_edge_count (g : option turbo_graph) : Z :=
  match g with Some g => Z.of_nat (length (edges g)) | None => 0 end.

(** ** Context helpers for callbacks *)

(* src/runtime/src/turbo_graph.c 1332-1344 turbo_graph_ctx_set_next *)
Definition turbo_graph_ctx_set_next (g : option turbo_graph) (ctx : turbo_graph_exec_ctx)
    (next_node : option string) : turbo_graph_exec_status * turbo_graph_exec_ctx :=
  match g, next_node with
  | Some g, Some next =>
      match turbo_graph_find_node_index g next with
      | None => (TURBO_GRAPH_EXEC_NODE_NOT_FOUND, ctx)
      | Some _ =>
          (TURBO_GRAPH_EXEC_OK,
           mk_ctx (ctx_state ctx) (ctx_json_value_state ctx) (ctx_current_node ctx)
             (Some next) (ctx_step ctx) (ctx_stop ctx))
      end
  | _, _ => (TURBO_GRAPH_EXEC_INVALID_ARGUMENT, ctx)
  end.

(* src/runtime/src/turbo_graph.c 1346-1350 turbo_graph_ctx_stop *)
Definition turbo_graph_ctx_stop (ctx : turbo_graph_exec_ctx) : turbo_graph_exec_ctx :=
  mk_ctx (ctx_state ctx) (ctx_json_value_state ctx) (ctx_current_node ctx)
    (ctx_next_node ctx) (ctx_step ctx) true.

(** ** The run monad

    A run threads the graph (its topology cache can be filled), the oracle, the
    world and the trace; a computation either continues or leaves the C
    function with a result. *)

Inductive observation : Type :=
| ObsNode (name : string) (step : Z)
| ObsCheckpoint (c : turbo_graph_checkpoint)
| ObsEvent (e : J).

Record run_state := mk_run {
  rs_graph : turbo_graph;
  rs_oracle : oracle;
  rs_world : W;
  rs_trace : list observation;
  rs_json : J  (** the caller-visible state, [*state_ptr] *)
}.

Definition run (A : Type) : Type := run_state -> (turbo_graph_run_result + A) * run_state.

#[global] Instance run_ret : MRet run := fun A a s => (inr a, s).
#[global] Instance run_bind : MBind run := fun A B k m s =>
  match m s with
  | (inl r, s) => (inl r, s)
  | (inr a, s) => k a s
  end.

(** [turbo_graph_result_init(out_result, status, ...); return status;] *)
(* src/runtime/src/turbo_graph.c 297-309 turbo_graph_result_init *)
Definition turbo_graph_result_init {A} (status : turbo_graph_exec_status)
    (last_node next_node : option string) (steps : Z) : run A :=
  fun s => (inl (mk_result status last_node next_node steps), s).

(** [if (status != OK) { result_init(out, status, last, next, steps); return status; }] *)
Definition require_ok (status : turbo_graph_exec_status) (last_node next_node : option string)
    (steps : Z) : run unit :=
  if decide (status = TURBO_GRAPH_EXEC_OK) then mret ()
  else turbo_graph_result_init status last_node next_node steps.

Definition alloc_m : run bool := fun s =>
  let (b, o) := alloc (rs_oracle s) in
  (inr b, mk_run (rs_graph s) o (rs_world s) (rs_trace s) (rs_json s)).

Definition get_graph : run turbo_graph := fun s => (inr (rs_graph s), s).
Definition get_json : run J := fun s => (inr (rs_json s), s).
Definition put_json (j : J) : run unit := fun s =>
  (inr (), mk_run (rs_graph s) (rs_oracle s) (rs_world s) (rs_trace s) j).
Definition observe (ob : observation) (f : W -> W) : run unit := fun s =>
  (inr (), mk_run (rs_graph s) (rs_oracle s) (f (rs_world s)) (rs_trace s ++ [ob]) (rs_json s)).
Definition with_world {A} (f : W -> A * W) : run A := fun s =>
  let (a, w) := f (rs_world s) in
  (inr a, mk_run (rs_graph s) (rs_oracle s) w (rs_trace s) (rs_json s)).
Definition with_oracle {A} (f : oracle -> A * oracle) : run A := fun s =>
  let (a, o) := f (rs_oracle s) in
  (inr a, mk_run (rs_graph s) o (rs_world s) (rs_trace s) (rs_json s)).

(** ** Checkpoints *)

(* src/runtime/src/turbo_graph.c 48-48 TURBO_GRAPH_CHECKPOINT_SCHEMA_VERSION *)
Definition TURBO_GRAPH_CHECKPOINT_SCHEMA_VERSION : Z := 3.

(** A clone of an optional tree; NULL becomes a null value. *)
(* src/runtime/src/turbo_graph.c 403-417 turbo_graph_clone_json *)
Definition turbo_graph_clone_json (state : option J) (o : oracle) : option J * oracle :=
  let (ok, o) := alloc o in
  (if ok then Some (match state with None => json_create_null | Some j => json_clone j end)
   else None, o).

(* src/runtime/src/turbo_graph.c 386-401 turbo_graph_clone_json_value_state *)
Definition turbo_graph_clone_json_value_state (state : option J) (o : oracle)
  : option J * oracle := turbo_graph_clone_json state o.

(* src/runtime/src/turbo_graph.c 419-437 turbo_graph_json_value_state_to_json *)
Definition turbo_graph_json_value_state_to_json (state : option J) (o : oracle)
  : option J * oracle := turbo_graph_clone_json state o.

(* src/runtime/src/turbo_graph.c 1513-1544 turbo_graph_checkpoint_create *)
Definition turbo_graph_checkpoint_create (next_node : option string) (steps : Z)
    (state : option J) (o : oracle)
  : turbo_graph_exec_status * option turbo_graph_checkpoint * oracle :=
  match next_node with
  | None => (TURBO_GRAPH_EXEC_INVALID_ARGUMENT, None, o)
  | Some next =>
      let (ok, o) := alloc o in
      if negb ok then (TURBO_GRAPH_EXEC_OUT_OF_MEMORY, None, o)
      else
        let (ok, o) := alloc o in
        if negb ok then (TURBO_GRAPH_EXEC_OUT_OF_MEMORY, None, o)
        else
          match turbo_graph_clone_json state o with
          | (None, o) => (TURBO_GRAPH_EXEC_OUT_OF_MEMORY, None, o)
          | (Some j, o) => (TURBO_GRAPH_EXEC_OK, Some (mk_checkpoint next steps j None), o)
          end
  end.

(* src/runtime/src/turbo_graph.c 1546-1561 turbo_graph_checkpoint_create_json_value *)
Definition turbo_graph_checkpoint_create_json_value (next_node : option string) (steps : Z)
    (state : option J) (o : oracle)
  : turbo_graph_exec_status * option turbo_graph_checkpoint * oracle :=
  match turbo_graph_json_value_state_to_json state o with
  | (None, o) => (TURBO_GRAPH_EXEC_OUT_OF_MEMORY, None, o)
  | (Some j, o) => turbo_graph_checkpoint_create next_node steps (Some j) o
  end.

(* src/runtime/src/turbo_graph.c 439-461 turbo_graph_checkpoint_set_topology *)
Definition turbo_graph_checkpoint_set_topology (c : turbo_graph_checkpoint) (g : turbo_graph)
    (o : oracle)
  : turbo_graph_exec_status * turbo_graph_checkpoint * turbo_graph * oracle :=
  match turbo_graph_topology_id g o with
  | (None, g, o) => (TURBO_GRAPH_EXEC_OUT_OF_MEMORY, c, g, o)
  | (Some t, g, o) =>
      let (ok, o) := alloc o in
      if negb ok then (TURBO_GRAPH_EXEC_OUT_OF_MEMORY, c, g, o)
      else (TURBO_GRAPH_EXEC_OK,
            mk_checkpoint (cp_next_node c) (cp_steps c) (cp_state c) (Some t), g, o)
  end.

(* src/runtime/src/turbo_graph.c 463-483 turbo_graph_checkpoint_matches_graph *)
Definition turbo_graph_checkpoint_matches_graph (c : turbo_graph_checkpoint) (g : turbo_graph)
    (o : oracle) : turbo_graph_exec_status * bool * turbo_graph * oracle :=
  match cp_topology_id c with
  | None => (TURBO_GRAPH_EXEC_OK, false, g, o)
  | Some ct =>
      match turbo_graph_topology_id g o with
      | (None, g, o) => (TURBO_GRAPH_EXEC_OUT_OF_MEMORY, false, g, o)
      | (Some t, g, o) => (TURBO_GRAPH_EXEC_OK, strcmp ct t =? 0, g, o)
      end
  end.

(* src/runtime/src/turbo_graph.c 1563-1590 turbo_graph_checkpoint_clone *)
Definition turbo_graph_checkpoint_clone (c : turbo_graph_checkpoint) (o : oracle)
  : turbo_graph_exec_status * option turbo_graph_checkpoint * oracle :=
  match turbo_graph_checkpoint_create (Some (cp_next_node c)) (cp_steps c)
          (Some (cp_state c)) o with
  | (TURBO_GRAPH_EXEC_OK, Some copy, o) =>
      match cp_topology_id c with
      | None => (TURBO_GRAPH_EXEC_OK, Some copy, o)
      | Some t =>
          let (ok, o) := alloc o in
          if negb ok then (TURBO_GRAPH_EXEC_OUT_OF_MEMORY, None, o)
          else (TURBO_GRAPH_EXEC_OK,
                Some (mk_checkpoint (cp_next_node copy) (cp_steps copy) (cp_state copy)
                        (Some t)), o)
      end
  | (status, _, o) => (status, None, o)
  end.

(* src/runtime/src/turbo_graph.c 1592-1594 turbo_graph_checkpoint_schema_version *)
Definition turbo_graph_checkpoint_schema_version : Z := TURBO_GRAPH_CHECKPOINT_SCHEMA_VERSION.

(** The setters are not checked. *)
(* src/runtime/src/turbo_graph.c 1630-1635 turbo_graph_checkpoint_serialize *)
Definition checkpoint_document (c : turbo_graph_checkpoint) (state_copy : J) : mem J :=
  root ← quiet (raw_number "checkpoint_version" TURBO_GRAPH_CHECKPOINT_SCHEMA_VERSION) json_create_object;
  root ← quiet (raw_string "next_node" (cp_next_node c)) root;
  root ← quiet (raw_number "steps" (cp_steps c)) root;
  root ← quiet (raw_string "topology_id" (default EmptyString (cp_topology_id c))) root;
  quiet (raw_member "state" state_copy) root.

(* src/runtime/src/turbo_graph.c 1611-1641 turbo_graph_checkpoint_serialize *)
Definition turbo_graph_checkpoint_serialize (c : option turbo_graph_checkpoint) (o : oracle)
  : option string * oracle :=
  match c with
  | None => (None, o)
  | Some c =>
      let (ok, o) := alloc o in
      if negb ok then (None, o)
      else
        match turbo_graph_clone_json (Some (cp_state c)) o with
        | (None, o) => (None, o)
        | (Some state_copy, o) =>
            match checkpoint_document c state_copy o with
            | (None, o) => (None, o)
            | (Some root, o) =>
                let (ok, o) := alloc o in
                (if ok then Some (json_serialize root) else None, o)
            end
        end
  end.

(** [json_get_string]: the text of a string member, up to its first NUL. *)
Definition json_get_string (root : J) (key : string) : option string :=
  v ← json_object_get root key;
  if decide (json_type v = JSON_STRING) then Some (json_c_text v) else None.

(* src/runtime/src/turbo_graph.c 1643-1700 turbo_graph_checkpoint_deserialize *)
Definition turbo_graph_checkpoint_deserialize (json : option string) (o : oracle)
  : turbo_graph_exec_status * option turbo_graph_checkpoint * oracle :=
  match json with
  | None => (TURBO_GRAPH_EXEC_INVALID_ARGUMENT, None, o)
  | Some text =>
      let (ok, o) := alloc o in
      match (if ok then json_parse text else None) with
      | None => (TURBO_GRAPH_EXEC_ERROR, None, o)
      | Some root =>
          let version := turbo_runtime_json_value_as_int64
                           (json_object_get root "checkpoint_version") (-1) in
          let steps := match json_object_get root "steps" with
                       | Some v => turbo_runtime_json_value_as_int64 (Some v) (-1)
                       | None => 0
                       end in
          match json_get_string root "next_node", json_object_get root "state",
                json_get_string root "topology_id" with
          | Some next_node, Some state, Some topology_id_text =>
              if negb (version =? TURBO_GRAPH_CHECKPOINT_SCHEMA_VERSION)
                 || (steps <? 0) || (SIZE_MAX <? steps) || (9007199254740991 <? steps)
              then (TURBO_GRAPH_EXEC_ERROR, None, o)
              else
                match turbo_graph_checkpoint_create (Some next_node) steps (Some state) o with
                | (TURBO_GRAPH_EXEC_OK, Some c, o) =>
                    if decide (topology_id_text = EmptyString)
                    then (TURBO_GRAPH_EXEC_OK, Some c, o)
                    else
                      let (ok, o) := alloc o in
                      if negb ok then (TURBO_GRAPH_EXEC_OUT_OF_MEMORY, None, o)
                      else (TURBO_GRAPH_EXEC_OK,
                            Some (mk_checkpoint (cp_next_node c) (cp_steps c) (cp_state c)
                                    (Some topology_id_text)), o)
                | (status, _, o) => (status, None, o)
                end
          | _, _, _ => (TURBO_GRAPH_EXEC_ERROR, None, o)
          end
      end
  end.

(* src/runtime/src/turbo_graph.c 1702-1704 turbo_graph_checkpoint_next_node *)
Definition turbo_graph_checkpoint_next_node (c : option turbo_graph_checkpoint)
  : option string := cp_next_node <$> c.
(* src/runtime/src/turbo_graph.c 1706-1708 turbo_graph_checkpoint_steps *)
Definition turbo_graph_checkpoint_steps (c : option turbo_graph_checkpoint) : Z :=
  default 0 (cp_steps <$> c).
(* src/runtime/src/turbo_graph.c 1710-1712 turbo_graph_checkpoint_state *)
Definition turbo_graph_checkpoint_state (c : option turbo_graph_checkpoint) : option J :=
  cp_state <$> c.
(* src/runtime/src/turbo_graph.c 1596-1598 turbo_graph_checkpoint_topology_id *)
Definition turbo_graph_checkpoint_topology_id (c : option turbo_graph_checkpoint)
  : option string := c ← c; cp_topology_id c.
(* src/runtime/src/turbo_graph.c 1714-1721 turbo_graph_checkpoint_state_json_value *)
Definition turbo_graph_checkpoint_state_json_value (c : option turbo_graph_checkpoint)
    (o : oracle) : option J * oracle :=
  match c with
  | None => (None, o)
  | Some c => let (ok, o) := alloc o in (if ok then Some (json_clone (cp_state c)) else None, o)
  end.

(** ** Emission during a run *)

(** [event_sink] is [None] for NULL. *)
(* src/runtime/src/turbo_graph.c 311-328 turbo_graph_emit_trace_event *)
Definition turbo_graph_emit_trace_event (event_sink : option (J -> W -> W))
    (name detail payload : string) (status : Z) : run turbo_graph_exec_status :=
  match event_sink with
  | None => mret TURBO_GRAPH_EXEC_OK
  | Some sink =>
      event ← with_oracle (turbo_event_trace_create_json_value (Some name) (Some detail)
                             (Some payload) status);
      match event with
      | None => mret TURBO_GRAPH_EXEC_OUT_OF_MEMORY
      | Some e => observe (ObsEvent e) (sink e);; mret TURBO_GRAPH_EXEC_OK
      end
  end.

(** Run [set_topology] on the run's graph. *)
Definition set_topology_m (c : turbo_graph_checkpoint)
  : run (turbo_graph_exec_status * turbo_graph_checkpoint) := fun s =>
  let '(status, c, g, o) := turbo_graph_checkpoint_set_topology c (rs_graph s) (rs_oracle s) in
  (inr (status, c), mk_run g o (rs_world s) (rs_trace s) (rs_json s)).

(* src/runtime/src/turbo_graph.c 485-511 turbo_graph_emit_checkpoint_json *)
Definition turbo_graph_emit_checkpoint_json (options : option turbo_graph_run_options)
    (next_node : string) (steps : Z) (state : J) : run turbo_graph_exec_status :=
  match o ← options; checkpoint_cb o with
  | None => mret TURBO_GRAPH_EXEC_OK
  | Some cb =>
      created ← with_oracle (turbo_graph_checkpoint_create (Some next_node) steps (Some state));
      match created with
      | (TURBO_GRAPH_EXEC_OK, Some c) =>
          '(status, c) ← set_topology_m c;
          if decide (status = TURBO_GRAPH_EXEC_OK)
          then observe (ObsCheckpoint c) (cb c);; mret TURBO_GRAPH_EXEC_OK
          else mret status
      | (status, _) => mret status
      end
  end.

(* src/runtime/src/turbo_graph.c 513-546 turbo_graph_emit_checkpoint_json_value *)
Definition turbo_graph_emit_checkpoint_json_value (options : option turbo_graph_run_options)
    (next_node : string) (steps : Z) (state : J) : run turbo_graph_exec_status :=
  match o ← options; checkpoint_cb o with
  | None => mret TURBO_GRAPH_EXEC_OK
  | Some _ =>
      json_state ← with_oracle (turbo_graph_json_value_state_to_json (Some state));
      match json_state with
      | None => mret TURBO_GRAPH_EXEC_OUT_OF_MEMORY
      | Some j => turbo_graph_emit_checkpoint_json options next_node steps j
      end
  end.

(* src/runtime/src/turbo_graph.c 548-565 turbo_graph_should_interrupt_before *)
Definition turbo_graph_should_interrupt_before (options : option turbo_graph_run_options)
    (name : string) : bool :=
  match o ← options; interrupt_before_nodes o with
  | None => false
  | Some l => existsb (fun c => match c with Some n => strcmp n name =? 0 | None => false end) l
  end.

(** The token is its check, a function of the world. *)
(* src/runtime/src/turbo_graph.c 567-583 turbo_graph_cancel_status *)
Definition turbo_graph_cancel_status (cancel_token : option (W -> salts_status * W))
  : run turbo_graph_exec_status :=
  match cancel_token with
  | None => mret TURBO_GRAPH_EXEC_OK
  | Some check =>
      status ← with_world check;
      mret (match status with
            | SALTS_OK => TURBO_GRAPH_EXEC_OK
            | SALTS_ETIMEDOUT => TURBO_GRAPH_EXEC_DEADLINE
            | SALTS_ECANCELED => TURBO_GRAPH_EXEC_CANCELLED
            | _ => TURBO_GRAPH_EXEC_ERROR
            end)
  end.

(** ** The executors

    Both loops carry the current node, the last node that ran, the step count
    and whether the first interrupt is still to be skipped. *)

(* src/runtime/src/turbo_graph.c 589-594 turbo_graph_run_internal *)
Record loop_vars := mk_loop {
  lv_current : string;
  lv_last : option string;
  lv_steps : Z;
  lv_skip : bool
}.

(** [while (current_node)]: the current node is never NULL again, so the loop is
    left only through a result.  [None]: out of fuel. *)
Fixpoint while_run (iteration : loop_vars -> run loop_vars) (fuel : nat) (v : loop_vars)
    (s : run_state) : option turbo_graph_run_result * run_state :=
  match fuel with
  | O => (None, s)
  | S fuel =>
      match iteration v s with
      | (inl r, s) => (Some r, s)
      | (inr v, s) => while_run iteration fuel v s
      end
  end.

Definition size_incr (n : Z) : Z := u64 (n + 1).

(** The checks of both loops that precede the node: step limit and entry
    interrupt.  [emit] is the executor's checkpoint function. *)
(* src/runtime/src/turbo_graph.c 616-635 turbo_graph_run_internal *)
Definition check_step_limit (options : option turbo_graph_run_options) (v : loop_vars)
  : run unit :=
  let limit := default 0 (max_steps <$> options) in
  if (0 <? limit) && (limit <=? lv_steps v)
  then turbo_graph_result_init TURBO_GRAPH_EXEC_STEP_LIMIT (lv_last v) (Some (lv_current v))
         (lv_steps v)
  else mret ().

(* src/runtime/src/turbo_graph.c 622-635 turbo_graph_run_internal *)
Definition check_entry_interrupt
    (emit : option turbo_graph_run_options -> string -> Z -> J -> run turbo_graph_exec_status)
    (options : option turbo_graph_run_options) (v : loop_vars) : run unit :=
  if negb (lv_skip v) && turbo_graph_should_interrupt_before options (lv_current v)
  then
    state ← get_json;
    status ← emit options (lv_current v) (lv_steps v) state;
    require_ok status (lv_last v) (Some (lv_current v)) (lv_steps v);;
    turbo_graph_result_init TURBO_GRAPH_EXEC_INTERRUPTED (lv_last v) (Some (lv_current v))
      (lv_steps v)
  else mret ().

(* src/runtime/src/turbo_graph.c 637-642 turbo_graph_run_internal *)
Definition find_current (v : loop_vars) : run (nat * turbo_graph_node_entry) :=
  g ← get_graph;
  match i ← turbo_graph_find_node_index g (lv_current v); n ← nodes g !! i; Some (i, n) with
  | None => turbo_graph_result_init TURBO_GRAPH_EXEC_NODE_NOT_FOUND (lv_last v)
              (Some (lv_current v)) (lv_steps v)
  | Some x => mret x
  end.

(** A call of a node callback: its status and context, and its trace entry. *)
Definition call_node (fn : node_fn) (ctx : turbo_graph_exec_ctx)
  : run (Z * turbo_graph_exec_ctx) :=
  observe (ObsNode (ctx_current_node ctx) (ctx_step ctx)) id;;
  with_world (fn ctx).

(** The node asked to stop: with a next node the run is interrupted there, with
    a checkpoint; without one it stops. *)
(* src/runtime/src/turbo_graph.c 667-689 turbo_graph_run_internal *)
Definition stop_after_node
    (emit : option turbo_graph_run_options -> string -> Z -> J -> run turbo_graph_exec_status)
    (options : option turbo_graph_run_options) (ctx : turbo_graph_exec_ctx)
    (last : option string) (steps : Z) (state : J) : run loop_vars :=
  match ctx_next_node ctx with
  | None => turbo_graph_result_init TURBO_GRAPH_EXEC_STOP last None steps
  | Some next =>
      g ← get_graph;
      match i ← turbo_graph_find_node_index g next; nodes g !! i with
      | None => turbo_graph_result_init TURBO_GRAPH_EXEC_NODE_NOT_FOUND last (Some next) steps
      | Some n =>
          let resolved_next := node_name n in
          status ← emit options resolved_next steps state;
          require_ok status last (Some resolved_next) steps;;
          turbo_graph_result_init TURBO_GRAPH_EXEC_INTERRUPTED last (Some resolved_next) steps
      end
  end.

(** The edges in order; the result is the chosen target and the number of edges
    seen.  [predicate] tells how the executor decides one edge: [None] for an
    unconditional edge. *)
(* src/runtime/src/turbo_graph.c 699-727 turbo_graph_run_internal *)
Fixpoint route (predicate : turbo_graph_edge_entry -> option (run Z)) (g : turbo_graph)
    (current_index : nat) (last : option string) (steps : Z)
    (l : list turbo_graph_edge_entry) (outgoing_count : nat) : run (option string * nat) :=
  match l with
  | [] => mret (None, outgoing_count)
  | e :: rest =>
      if negb (from_index e =? current_index)%nat
      then route predicate g current_index last steps rest outgoing_count
      else
        match predicate e with
        | None => mret (Some (name_at g (to_index e)), S outgoing_count)
        | Some p =>
            predicate_status ← p;
            if predicate_status <? 0
            then turbo_graph_result_init TURBO_GRAPH_EXEC_ERROR last None steps
            else if 0 <? predicate_status
            then mret (Some (name_at g (to_index e)), S outgoing_count)
            else route predicate g current_index last steps rest (S outgoing_count)
        end
  end.

(** The node's own choice wins over the edges. *)
(* src/runtime/src/turbo_graph.c 691-728 turbo_graph_run_internal *)
Definition choose_next (predicate : turbo_graph_edge_entry -> option (run Z))
    (ctx : turbo_graph_exec_ctx) (current_index : nat) (last : option string) (steps : Z)
  : run (option string * nat) :=
  g ← get_graph;
  match ctx_next_node ctx with
  | Some next =>
      match turbo_graph_find_node_index g next with
      | None => turbo_graph_result_init TURBO_GRAPH_EXEC_NODE_NOT_FOUND last (Some next) steps
      | Some _ => mret (Some next, O)
      end
  | None => route predicate g current_index last steps (edges g) O
  end.

(** *** [turbo_graph_run_internal]: the mutable JSON state *)

(** Only [json_predicate] is looked at: an edge without one is unconditional. *)
(* src/runtime/src/turbo_graph.c 707-713 turbo_graph_run_internal *)
Definition json_edge_predicate (ctx : turbo_graph_exec_ctx) (e : turbo_graph_edge_entry)
  : option (run Z) :=
  p ← edge_json_predicate e; Some (with_world (p ctx)).

(** The node call; the context keeps the pointer to the state, which the node
    may have changed in place. *)
(* src/runtime/src/turbo_graph.c 644-660 turbo_graph_run_internal *)
Definition run_json_node (n : turbo_graph_node_entry) (v : loop_vars)
  : run (Z * turbo_graph_exec_ctx) :=
  state ← get_json;
  let ctx := mk_ctx (Some state) None (node_name n) None (lv_steps v) false in
  match node_json_fn n with
  | None => turbo_graph_result_init TURBO_GRAPH_EXEC_INVALID_ARGUMENT (lv_last v)
              (Some (lv_current v)) (lv_steps v)
  | Some fn =>
      '(node_status, ctx) ← call_node fn ctx;
      put_json (default state (ctx_state ctx));;
      mret (node_status, ctx)
  end.

(* src/runtime/src/turbo_graph.c 607-757 turbo_graph_run_internal *)
Definition run_internal_iteration (options : option turbo_graph_run_options) (v : loop_vars)
  : run loop_vars :=
  check_step_limit options v;;
  check_entry_interrupt turbo_graph_emit_checkpoint_json options v;;
  '(current_index, n) ← find_current v;
  '(node_status, ctx) ← run_json_node n v;
  let steps := size_incr (lv_steps v) in
  let last := Some (node_name n) in
  if node_status <? 0 then turbo_graph_result_init TURBO_GRAPH_EXEC_ERROR last None steps
  else
    state ← get_json;
    if ctx_stop ctx || (0 <? node_status)
    then stop_after_node turbo_graph_emit_checkpoint_json options ctx last steps state
    else
      '(resolved_next, outgoing_count) ←
        choose_next (json_edge_predicate ctx) ctx current_index last steps;
      match resolved_next with
      | None =>
          if (0 <? outgoing_count)%nat
          then turbo_graph_result_init TURBO_GRAPH_EXEC_ROUTE_NOT_FOUND last None steps
          else turbo_graph_result_init TURBO_GRAPH_EXEC_OK last None steps
      | Some next =>
          status ← turbo_graph_emit_checkpoint_json options next steps state;
          require_ok status last (Some next) steps;;
          if turbo_graph_should_interrupt_before options next
          then turbo_graph_result_init TURBO_GRAPH_EXEC_INTERRUPTED last (Some next) steps
          else mret (mk_loop next last steps false)
      end.

(** NULL graph or state are refused by the callers of this model. *)
(* src/runtime/src/turbo_graph.c 585-761 turbo_graph_run_internal *)
Definition turbo_graph_run_internal (fuel : nat) (start : option string) (initial_steps : Z)
    (options : option turbo_graph_run_options) (s : run_state)
  : option turbo_graph_run_result * run_state :=
  match start with
  | None => (Some (mk_result TURBO_GRAPH_EXEC_INVALID_ARGUMENT None None 0), s)
  | Some current =>
      while_run (run_internal_iteration options) fuel
        (mk_loop current None initial_steps
           (default false (skip_initial_interrupt <$> options))) s
  end.

(** *** [turbo_graph_run_internal_json_value]: events and cancellation *)

Section json_value.
Context (options : option turbo_graph_run_options)
        (cancel_token : option (W -> salts_status * W))
        (event_sink : option (J -> W -> W)).

(** Cancellation observed before a node is checkpointed at that node. *)
(* src/runtime/src/turbo_graph.c 803-819 turbo_graph_run_internal_json_value *)
Definition check_cancelled (v : loop_vars) : run unit :=
  cancel_status ← turbo_graph_cancel_status cancel_token;
  if decide (cancel_status = TURBO_GRAPH_EXEC_OK) then mret ()
  else
    state ← get_json;
    status ← turbo_graph_emit_checkpoint_json_value options (lv_current v) (lv_steps v) state;
    require_ok status (lv_last v) (Some (lv_current v)) (lv_steps v);;
    turbo_graph_result_init cancel_status (lv_last v) (Some (lv_current v)) (lv_steps v).

(** A JSON-native node works on the state itself; a JSON node works on a clone,
    its choice of next node is resolved to the graph's own name, and the clone
    is copied back. *)
(* src/runtime/src/turbo_graph.c 863-904 turbo_graph_run_internal_json_value *)
Definition run_value_node (n : turbo_graph_node_entry) (v : loop_vars)
  : run (Z * turbo_graph_exec_ctx) :=
  state ← get_json;
  let ctx := mk_ctx None (Some state) (node_name n) None (lv_steps v) false in
  match node_json_value_fn n, node_json_fn n with
  | Some fn, _ =>
      '(node_status, ctx) ← call_node fn ctx;
      put_json (default state (ctx_json_value_state ctx));;
      mret (node_status, ctx)
  | None, Some fn =>
      cloned ← alloc_m;
      if negb cloned
      then turbo_graph_result_init TURBO_GRAPH_EXEC_OUT_OF_MEMORY (lv_last v)
             (Some (lv_current v)) (lv_steps v)
      else
        let json_state := json_clone state in
        '(node_status, ctx) ←
          call_node fn (mk_ctx (Some json_state) (Some state) (node_name n) None
                          (lv_steps v) false);
        g ← get_graph;
        ctx ← match ctx_next_node ctx with
              | None => mret ctx
              | Some next =>
                  match i ← turbo_graph_find_node_index g next; nodes g !! i with
                  | None => turbo_graph_result_init TURBO_GRAPH_EXEC_NODE_NOT_FOUND (lv_last v)
                              (Some next) (lv_steps v)
                  | Some m => mret (mk_ctx (ctx_state ctx) (ctx_json_value_state ctx)
                                      (ctx_current_node ctx) (Some (node_name m))
                                      (ctx_step ctx) (ctx_stop ctx))
                  end
              end;
        copied ← alloc_m;
        if negb copied
        then turbo_graph_result_init TURBO_GRAPH_EXEC_OUT_OF_MEMORY (lv_last v)
               (Some (lv_current v)) (lv_steps v)
        else
          let updated := json_clone (default json_state (ctx_state ctx)) in
          put_json updated;;
          mret (node_status, mk_ctx None (Some updated) (ctx_current_node ctx)
                               (ctx_next_node ctx) (ctx_step ctx) (ctx_stop ctx))
  | None, None =>
      turbo_graph_result_init TURBO_GRAPH_EXEC_INVALID_ARGUMENT (lv_last v)
        (Some (lv_current v)) (lv_steps v)
  end.

(** A JSON predicate sees a clone of the state. *)
(* src/runtime/src/turbo_graph.c 961-983 turbo_graph_run_internal_json_value *)
Definition value_edge_predicate (ctx : turbo_graph_exec_ctx) (last : option string) (steps : Z)
    (e : turbo_graph_edge_entry) : option (run Z) :=
  match edge_json_value_predicate e, edge_json_predicate e with
  | None, None => None
  | Some p, _ => Some (with_world (p ctx))
  | None, Some p =>
      Some (state ← get_json;
            cloned ← alloc_m;
            if negb cloned
            then turbo_graph_result_init TURBO_GRAPH_EXEC_OUT_OF_MEMORY last None steps
            else with_world (p (mk_ctx (Some (json_clone state)) (ctx_json_value_state ctx)
                                  (ctx_current_node ctx) (ctx_next_node ctx) (ctx_step ctx)
                                  (ctx_stop ctx))))
  end.

(** No edge matched: an error when there were edges, the end otherwise. *)
(* src/runtime/src/turbo_graph.c 996-1010 turbo_graph_run_internal_json_value *)
Definition complete_run (last_name : string) (outgoing_count : nat) (steps : Z)
  : run loop_vars :=
  if (0 <? outgoing_count)%nat
  then turbo_graph_result_init TURBO_GRAPH_EXEC_ROUTE_NOT_FOUND (Some last_name) None steps
  else
    status ← turbo_graph_emit_trace_event event_sink "graph.route" "complete" last_name 0;
    require_ok status (Some last_name) None steps;;
    turbo_graph_result_init TURBO_GRAPH_EXEC_OK (Some last_name) None steps.

(** The route is announced and checkpointed; cancellation comes before an
    interrupt. *)
(* src/runtime/src/turbo_graph.c 1012-1037 turbo_graph_run_internal_json_value *)
Definition take_route (next : string) (last : option string) (steps : Z) (state : J)
  : run loop_vars :=
  status ← turbo_graph_emit_trace_event event_sink "graph.route" "next" next 0;
  require_ok status last (Some next) steps;;
  status ← turbo_graph_emit_checkpoint_json_value options next steps state;
  require_ok status last (Some next) steps;;
  status ← turbo_graph_cancel_status cancel_token;
  require_ok status last (Some next) steps;;
  if turbo_graph_should_interrupt_before options next
  then turbo_graph_result_init TURBO_GRAPH_EXEC_INTERRUPTED last (Some next) steps
  else mret (mk_loop next last steps false).

(** After the node: its error, its stop, or the choice of the next node. *)
(* src/runtime/src/turbo_graph.c 908-994 turbo_graph_run_internal_json_value *)
Definition after_value_node (current_index : nat) (last_name : string) (steps : Z)
    (node_status : Z) (ctx : turbo_graph_exec_ctx) : run loop_vars :=
  let last := Some last_name in
  if node_status <? 0
  then
    turbo_graph_emit_trace_event event_sink "graph.node" "error" last_name node_status;;
    turbo_graph_result_init TURBO_GRAPH_EXEC_ERROR last None steps
  else
    state ← get_json;
    if ctx_stop ctx || (0 <? node_status)
    then
      status ← turbo_graph_emit_trace_event event_sink "graph.node" "stop" last_name node_status;
      require_ok status last None steps;;
      stop_after_node turbo_graph_emit_checkpoint_json_value options ctx last steps state
    else
      status ← turbo_graph_emit_trace_event event_sink "graph.node" "finish" last_name 0;
      require_ok status last None steps;;
      '(resolved_next, outgoing_count) ←
        choose_next (value_edge_predicate ctx last steps) ctx current_index last steps;
      match resolved_next with
      | None => complete_run last_name outgoing_count steps
      | Some next => take_route next last steps state
      end.

(* src/runtime/src/turbo_graph.c 794-861 turbo_graph_run_internal_json_value *)
Definition run_value_iteration (v : loop_vars) : run loop_vars :=
  check_cancelled v;;
  check_step_limit options v;;
  check_entry_interrupt turbo_graph_emit_checkpoint_json_value options v;;
  '(current_index, n) ← find_current v;
  status ← turbo_graph_emit_trace_event event_sink "graph.node" "start" (node_name n) 0;
  require_ok status (lv_last v) (Some (lv_current v)) (lv_steps v);;
  '(node_status, ctx) ← run_value_node n v;
  after_value_node current_index (node_name n) (size_incr (lv_steps v)) node_status ctx.

(* src/runtime/src/turbo_graph.c 763-792 turbo_graph_run_internal_json_value *)
Definition turbo_graph_run_internal_json_value (fuel : nat) (start : option string)
    (initial_steps : Z) (s : run_state) : option turbo_graph_run_result * run_state :=
  match start with
  | None => (Some (mk_result TURBO_GRAPH_EXEC_INVALID_ARGUMENT None None 0), s)
  | Some current =>
      while_run run_value_iteration fuel
        (mk_loop current None initial_steps
           (default false (skip_initial_interrupt <$> options))) s
  end.

End json_value.

(** ** Entry points

    The outcome of a call: the returned status ([None]: out of fuel), the result
    summary if one was written, the state handed to the caller, and the run
    state left behind ([None] when the run never started). *)

Record outcome := mk_outcome {
  out_status : option turbo_graph_exec_status;
  out_result : option turbo_graph_run_result;
  out_state : option J;
  out_run : option run_state
}.

(** A refusal before the run: a status and a result written with it. *)
Definition refused (status : turbo_graph_exec_status) (next : option string) (steps : Z)
    (s : option run_state) : outcome :=
  mk_outcome (Some status) (Some (mk_result status None next steps)) None s.

Definition start_of (options : option turbo_graph_run_options) (g : option turbo_graph)
  : option string :=
  match o ← options; start_node o with
  | Some n => Some n
  | None => turbo_graph_get_entry g
  end.

(** The state is the caller's own, mutated in place. *)
(* src/runtime/src/turbo_graph.c 1352-1359 turbo_graph_run *)
Definition turbo_graph_run (fuel : nat) (g : option turbo_graph) (state : option J)
    (options : option turbo_graph_run_options) (o : oracle) (w : W) : outcome :=
  match g, state with
  | Some g, Some j =>
      let (r, s) := turbo_graph_run_internal fuel (start_of options (Some g)) 0 options
                      (mk_run g o w [] j) in
      mk_outcome (res_status <$> r) r (Some (rs_json s)) (Some s)
  | _, _ => refused TURBO_GRAPH_EXEC_INVALID_ARGUMENT None 0 None
  end.

(** The statuses after which the state is still handed to the caller. *)
(* src/runtime/src/turbo_graph.c 1404-1411 turbo_graph_run_json_value_stream_controlled *)
Definition keeps_state (status : turbo_graph_exec_status) : bool :=
  match status with
  | TURBO_GRAPH_EXEC_OK | TURBO_GRAPH_EXEC_STOP | TURBO_GRAPH_EXEC_INTERRUPTED
  | TURBO_GRAPH_EXEC_CANCELLED | TURBO_GRAPH_EXEC_DEADLINE | TURBO_GRAPH_EXEC_ERROR => true
  | _ => false
  end.

Definition deliver (r : option turbo_graph_run_result) (s : run_state) : outcome :=
  mk_outcome (res_status <$> r) r
    (r ← r; if keeps_state (res_status r) then Some (rs_json s) else None) (Some s).

(* src/runtime/src/turbo_graph.c 1379-1415 turbo_graph_run_json_value_stream_controlled *)
Definition turbo_graph_run_json_value_stream_controlled (fuel : nat) (g : option turbo_graph)
    (state : option J) (options : option turbo_graph_run_options)
    (cancel_token : option (W -> salts_status * W)) (event_sink : option (J -> W -> W))
    (o : oracle) (w : W) : outcome :=
  match turbo_graph_clone_json_value_state state o with
  | (None, o) => mk_outcome (Some TURBO_GRAPH_EXEC_OUT_OF_MEMORY) None None None
  | (Some bound_state, o) =>
      match g with
      | None => refused TURBO_GRAPH_EXEC_INVALID_ARGUMENT None 0 None
      | Some g =>
          let (r, s) :=
            turbo_graph_run_internal_json_value options cancel_token event_sink fuel
              (start_of options (Some g)) 0 (mk_run g o w [] bound_state) in
          deliver r s
      end
  end.

(* src/runtime/src/turbo_graph.c 1369-1377 turbo_graph_run_json_value_stream *)
Definition turbo_graph_run_json_value_stream (fuel : nat) (g : option turbo_graph)
    (state : option J) (options : option turbo_graph_run_options)
    (event_sink : option (J -> W -> W)) (o : oracle) (w : W) : outcome :=
  turbo_graph_run_json_value_stream_controlled fuel g state options None event_sink o w.

(* src/runtime/src/turbo_graph.c 1361-1367 turbo_graph_run_json_value *)
Definition turbo_graph_run_json_value (fuel : nat) (g : option turbo_graph) (state : option J)
    (options : option turbo_graph_run_options) (o : oracle) (w : W) : outcome :=
  turbo_graph_run_json_value_stream fuel g state options None o w.

(** The topology check both resume functions begin with. *)
(* src/runtime/src/turbo_graph.c 1429-1438 turbo_graph_run_checkpoint *)
Definition admit_checkpoint (g : turbo_graph) (c : turbo_graph_checkpoint) (o : oracle)
  : turbo_graph_exec_status * turbo_graph * oracle :=
  match turbo_graph_checkpoint_matches_graph c g o with
  | (TURBO_GRAPH_EXEC_OK, matches, g, o) =>
      (if matches then TURBO_GRAPH_EXEC_OK else TURBO_GRAPH_EXEC_CHECKPOINT_MISMATCH, g, o)
  | (status, _, g, o) => (status, g, o)
  end.

(* src/runtime/src/turbo_graph.c 1417-1441 turbo_graph_run_checkpoint *)
Definition turbo_graph_run_checkpoint (fuel : nat) (g : option turbo_graph)
    (checkpoint : option turbo_graph_checkpoint) (options : option turbo_graph_run_options)
    (o : oracle) (w : W) : outcome :=
  match g, checkpoint with
  | Some g, Some c =>
      match admit_checkpoint g c o with
      | (TURBO_GRAPH_EXEC_OK, g, o) =>
          let (r, s) := turbo_graph_run_internal fuel (Some (cp_next_node c)) (cp_steps c)
                          options (mk_run g o w [] (cp_state c)) in
          mk_outcome (res_status <$> r) r (Some (rs_json s)) (Some s)
      | (status, g, o) =>
          refused status (Some (cp_next_node c)) (cp_steps c)
            (Some (mk_run g o w [] (cp_state c)))
      end
  | _, _ => refused TURBO_GRAPH_EXEC_INVALID_ARGUMENT None 0 None
  end.

(* src/runtime/src/turbo_graph.c 1462-1511 turbo_graph_run_checkpoint_json_value_stream_controlled *)
Definition turbo_graph_run_checkpoint_json_value_stream_controlled (fuel : nat)
    (g : option turbo_graph) (checkpoint : option turbo_graph_checkpoint)
    (options : option turbo_graph_run_options)
    (cancel_token : option (W -> salts_status * W)) (event_sink : option (J -> W -> W))
    (o : oracle) (w : W) : outcome :=
  match g, checkpoint with
  | Some g, Some c =>
      match admit_checkpoint g c o with
      | (TURBO_GRAPH_EXEC_OK, g, o) =>
          let (cloned, o) := alloc o in
          let s := mk_run g o w [] (json_clone (cp_state c)) in
          if negb cloned
          then refused TURBO_GRAPH_EXEC_OUT_OF_MEMORY (Some (cp_next_node c)) (cp_steps c)
                 (Some s)
          else
            let (r, s) :=
              turbo_graph_run_internal_json_value options cancel_token event_sink fuel
                (Some (cp_next_node c)) (cp_steps c) s in
            deliver r s
      | (status, g, o) =>
          refused status (Some (cp_next_node c)) (cp_steps c)
            (Some (mk_run g o w [] (cp_state c)))
      end
  | _, _ => refused TURBO_GRAPH_EXEC_INVALID_ARGUMENT None 0 None
  end.

(* src/runtime/src/turbo_graph.c 1452-1460 turbo_graph_run_checkpoint_json_value_stream *)
Definition turbo_graph_run_checkpoint_json_value_stream (fuel : nat) (g : option turbo_graph)
    (checkpoint : option turbo_graph_checkpoint) (options : option turbo_graph_run_options)
    (event_sink : option (J -> W -> W)) (o : oracle) (w : W) : outcome :=
  turbo_graph_run_checkpoint_json_value_stream_controlled fuel g checkpoint options None
    event_sink o w.

(* src/runtime/src/turbo_graph.c 1443-1450 turbo_graph_run_checkpoint_json_value *)
Definition turbo_graph_run_checkpoint_json_value (fuel : nat) (g : option turbo_graph)
    (checkpoint : option turbo_graph_checkpoint) (options : option turbo_graph_run_options)
    (o : oracle) (w : W) : outcome :=
  turbo_graph_run_checkpoint_json_value_stream fuel g checkpoint options None o w.

End graph.
