(* ===== verification/GraphFacts.v ===== *)
(** * The graph runtime: properties

    Topology identifiers, the builder's invariant and atomicity, checkpoint
    round trips, and what the executors guarantee about steps, cancellation,
    interrupts and resumption.  Definitions are in [Graph]. *)

From stdpp Require Import sorting.
From S2P Require Import Prelude RuntimeJson JsonBuild JsonMem RuntimeEvent Graph.

(** ** String comparison *)

Lemma strcmp_refl a : strcmp a a = 0.
Proof. induction a as [|c a IH]; simpl; [done|]. by rewrite Z.eqb_refl. Qed.

Lemma char_code_inj c d : char_code c = char_code d -> c = d.
Proof.
  unfold char_code. intros Heq. apply Nat2Z.inj in Heq.
  rewrite <- (Ascii.ascii_nat_embedding c), <- (Ascii.ascii_nat_embedding d). by rewrite Heq.
Qed.

Lemma strcmp_eq a b : strcmp a b = 0 <-> a = b.
Proof.
  split; [|intros ->; apply strcmp_refl].
  revert b. induction a as [|c a IH]; intros [|d b]; simpl; try done.
  destruct (char_code c =? char_code d) eqn:E; bool_to_prop.
  - intros Heq. f_equal; [by apply char_code_inj|by apply IH].
  - by case_match.
Qed.

Lemma strcmp_sign a b : strcmp a b = - strcmp b a.
Proof.
  revert b. induction a as [|c a IH]; intros [|d b]; simpl; try done.
  rewrite (Z.eqb_sym (char_code d)). destruct (char_code c =? char_code d) eqn:E; [apply IH|].
  bool_to_prop. destruct (char_code c <? char_code d) eqn:E1,
    (char_code d <? char_code c) eqn:E2; bool_to_prop; lia.
Qed.

Lemma strcmp_trans a b c : strcmp a b <= 0 -> strcmp b c <= 0 -> strcmp a c <= 0.
Proof.
  revert b c. induction a as [|x a IH]; intros [|y b] [|z c]; simpl; try lia.
  destruct (char_code x =? char_code y) eqn:E1, (char_code y =? char_code z) eqn:E2,
    (char_code x =? char_code z) eqn:E3; bool_to_prop; try lia; [by apply IH|..];
    destruct (char_code x <? char_code y) eqn:?, (char_code y <? char_code z) eqn:?,
      (char_code x <? char_code z) eqn:?; bool_to_prop; lia.
Qed.

(** Lexicographic chains over lists of the same length. *)
Lemma chain_eq (l : list (string * string)) :
  strcmp_chain l = 0 <-> Forall (fun p => fst p = snd p) l.
Proof.
  induction l as [|[a b] l IH]; simpl; [by split|].
  rewrite Forall_cons. simpl. destruct (strcmp a b =? 0) eqn:E; bool_to_prop; simpl.
  - apply strcmp_eq in E. rewrite IH. tauto.
  - rewrite <- strcmp_eq. tauto.
Qed.

Lemma chain_sign (l : list (string * string)) :
  strcmp_chain (prod_swap <$> l) = - strcmp_chain l.
Proof.
  induction l as [|[a b] l IH]; simpl; [done|]. rewrite (strcmp_sign b a).
  destruct (strcmp a b =? 0) eqn:E; bool_to_prop.
  - rewrite E. simpl. apply IH.
  - replace (- strcmp a b =? 0) with false by (symmetry; apply Z.eqb_neq; lia). done.
Qed.

Lemma chain_trans (a b c : list string) :
  length a = length b -> length b = length c ->
  strcmp_chain (zip a b) <= 0 -> strcmp_chain (zip b c) <= 0 -> strcmp_chain (zip a c) <= 0.
Proof.
  revert b c. induction a as [|x a IH]; intros [|y b] [|z c]; simpl; try lia.
  intros Hab Hbc.
  destruct (strcmp x y =? 0) eqn:E1, (strcmp y z =? 0) eqn:E2, (strcmp x z =? 0) eqn:E3;
    bool_to_prop; simpl;
    repeat match goal with H : strcmp _ _ = 0 |- _ => apply strcmp_eq in H; subst end;
    rewrite ?strcmp_refl in *; try done; try lia.
  - apply IH; lia.
  - rewrite (strcmp_sign z y). lia.
  - intros. by apply (strcmp_trans x y z).
Qed.

#[global] Instance node_le_total : Total node_le.
Proof.
  intros [[ls ln] lk] [[rs rn] rk]. unfold node_le, turbo_graph_node_ptr_compare.
  pose proof (chain_sign [(ls, rs); (ln, rn); (lk, rk)]) as Hs. simpl fmap in Hs.
  unfold prod_swap in Hs. simpl fst in Hs. simpl snd in Hs. lia.
Qed.

#[global] Instance node_le_trans : Transitive node_le.
Proof.
  intros [[as_ an] ak] [[bs bn] bk] [[cs cn] ck].
  apply (chain_trans [as_; an; ak] [bs; bn; bk] [cs; cn; ck]); done.
Qed.

#[global] Instance node_le_antisym : AntiSymm (=) node_le.
Proof.
  intros [[ls ln] lk] [[rs rn] rk]. unfold node_le, turbo_graph_node_ptr_compare.
  pose proof (chain_sign [(ls, rs); (ln, rn); (lk, rk)]) as Hs. simpl fmap in Hs.
  unfold prod_swap in Hs. simpl fst in Hs. simpl snd in Hs. intros H1 H2.
  assert (strcmp_chain [(ls, rs); (ln, rn); (lk, rk)] = 0) as Hz by lia.
  apply chain_eq in Hz. rewrite !Forall_cons in Hz. simpl in Hz.
  destruct_and! Hz. congruence.
Qed.

#[global] Instance edge_le_total : Total edge_le.
Proof.
  intros [[[ls lf] lt] lk] [[[rs rf] rt] rk]. unfold edge_le, turbo_graph_edge_ptr_compare.
  pose proof (chain_sign [(ls, rs); (lf, rf); (lt, rt); (lk, rk)]) as Hs. simpl fmap in Hs.
  unfold prod_swap in Hs. simpl fst in Hs. simpl snd in Hs. lia.
Qed.

#[global] Instance edge_le_trans : Transitive edge_le.
Proof.
  intros [[[as_ af] at_] ak] [[[bs bf] bt] bk] [[[cs cf] ct] ck].
  apply (chain_trans [as_; af; at_; ak] [bs; bf; bt; bk] [cs; cf; ct; ck]); done.
Qed.

#[global] Instance edge_le_antisym : AntiSymm (=) edge_le.
Proof.
  intros [[[ls lf] lt] lk] [[[rs rf] rt] rk]. unfold edge_le, turbo_graph_edge_ptr_compare.
  pose proof (chain_sign [(ls, rs); (lf, rf); (lt, rt); (lk, rk)]) as Hs. simpl fmap in Hs.
  unfold prod_swap in Hs. simpl fst in Hs. simpl snd in Hs. intros H1 H2.
  assert (strcmp_chain [(ls, rs); (lf, rf); (lt, rt); (lk, rk)] = 0) as Hz by lia.
  apply chain_eq in Hz. rewrite !Forall_cons in Hz. simpl in Hz.
  destruct_and! Hz. congruence.
Qed.

(** Sorting forgets the order. *)
Lemma merge_sort_canonical {A} (R : relation A) `{!RelDecision R, !Total R, !Transitive R,
    !AntiSymm (=) R} (l1 l2 : list A) :
  merge_sort R l1 = merge_sort R l2 <-> l1 ≡ₚ l2.
Proof.
  split; intros Hp.
  - rewrite <- (merge_sort_Permutation R l1), Hp. apply merge_sort_Permutation.
  - apply (StronglySorted_unique R); try by apply StronglySorted_merge_sort.
    by rewrite !merge_sort_Permutation.
Qed.

Section graph_facts.
Context {W J : Type} `{JsonSettersLaws J, !JsonLaws J}.

(** ** Topology *)

(** What a topology identifier identifies: the name, the entry and, up to the
    order of registration, the nodes and the edges by name. *)
Definition same_topology (g1 g2 : turbo_graph (W := W) (J := J)) : Prop :=
  default EmptyString (graph_name g1) = default EmptyString (graph_name g2) /\
  default EmptyString (entry_node g1) = default EmptyString (entry_node g2) /\
  ref_of_node <$> nodes g1 ≡ₚ ref_of_node <$> nodes g2 /\
  ref_of_edge g1 <$> edges g1 ≡ₚ ref_of_edge g2 <$> edges g2.

(** The documents while memory lasts. *)
Definition node_doc (r : node_ref) : J :=
  let '(semantic_id, name, kind) := r in
  object_of [("name", json_create_string name); ("semantic_id", json_create_string semantic_id);
             ("kind", json_create_string kind)].

Definition edge_doc (r : edge_ref) : J :=
  let '(semantic_id, from, to, kind) := r in
  object_of [("from", json_create_string from); ("to", json_create_string to);
             ("semantic_id", json_create_string semantic_id); ("predicate_kind", json_create_string kind)].

Definition topology_root (name entry : string) : J :=
  object_of [("graph_name", json_create_string name); ("entry_node", json_create_string entry);
             ("nodes", json_create_array); ("edges", json_create_array)].

Definition topology_doc (name entry : string) (ns : list node_ref) (es : list edge_ref) : J :=
  json_object_add (json_object_add (topology_root name entry) "nodes" (array_of (node_doc <$> ns)))
    "edges" (array_of (edge_doc <$> es)).

Definition graph_document (g : turbo_graph (W := W) (J := J)) : J :=
  topology_doc (default EmptyString (graph_name g)) (default EmptyString (entry_node g))
    (merge_sort node_le (ref_of_node <$> nodes g))
    (merge_sort edge_le (ref_of_edge g <$> edges g)).

Ltac gives_quiets :=
  repeat first
    [ eapply gives_bind; [apply gives_quiet; first [apply raw_string_sets|apply raw_number_sets|apply raw_member_sets]|]
    | eapply gives_bind; [apply gives_create|]
    | apply gives_quiet; first [apply raw_string_sets|apply raw_number_sets|apply raw_member_sets]
    | apply gives_ret ].

Lemma node_document_gives r : gives (node_document r) (Some (node_doc r)).
Proof. destruct r as [[s n] k]. unfold node_document. gives_quiets. Qed.

Lemma edge_document_gives r : gives (edge_document r) (Some (edge_doc r)).
Proof. destruct r as [[[s f] t] k]. unfold edge_document. gives_quiets. Qed.

Lemma fold_documents {A} (document : A -> mem J) (doc : A -> J) l : (forall r, gives (document r) (Some (doc r))) ->
  gives (mem_fold (fun items r => item ← document r; quiet_append items item) l json_create_array) (Some (array_of (doc <$> l))).
Proof.
  intros Hd. unfold array_of.
  assert (Hf : forall a, foldl json_array_add a (doc <$> l) = foldl (fun a x => json_array_add a (doc x)) a l)
    by (induction l as [|x l IH]; intros a; [done|apply IH]).
  rewrite Hf.
  apply (gives_fold _ (fun a x => json_array_add a (doc x)) (fun _ => True)); [|done].
  apply Forall_forall. intros x _ a _. split; [done|]. eapply gives_bind; [apply Hd|apply gives_quiet_append].
Qed.

Lemma update_add_member (o : J) k v w : json_object_get o k = Some w -> update_member o k v = json_object_add o k v.
Proof. unfold update_member. by intros ->. Qed.

Lemma topology_document_gives name entry ns es :
  gives (topology_document name entry ns es) (Some (topology_doc name entry ns es)).
Proof.
  unfold topology_document. do 4 (eapply gives_bind; [apply gives_quiet; first [apply raw_string_sets|apply raw_member_sets]|]).
  eapply gives_bind; [apply fold_documents, node_document_gives|].
  eapply gives_bind; [apply fold_documents, edge_document_gives|].
  change (add_member (add_member (add_member (add_member json_create_object ("graph_name", json_create_string name))
    ("entry_node", json_create_string entry)) ("nodes", json_create_array)) ("edges", json_create_array))
    with (topology_root name entry).
  assert (Hroot : json_type (topology_root name entry) = JSON_OBJECT) by apply object_of_type.
  assert (Hn : json_object_get (topology_root name entry) "nodes" = Some json_create_array)
    by (unfold topology_root, object_of; by rewrite foldl_add_assoc by apply json_type_object).
  assert (He : json_object_get (topology_root name entry) "edges" = Some json_create_array)
    by (unfold topology_root, object_of; by rewrite foldl_add_assoc by apply json_type_object).
  rewrite (update_add_member _ "nodes" _ _ Hn).
  rewrite (update_add_member _ "edges" _ json_create_array) by (by rewrite json_get_add_ne).
  apply gives_ret.
Qed.

Lemma alloc_n_plenty n o : plenty o -> exists o', plenty o' /\ alloc_n n o = (true, o').
Proof.
  revert o. induction n as [|n IH]; intros o Ho; cbn [alloc_n]; [by exists o|].
  destruct (alloc_plenty o Ho) as (o1 & Ho1 & ->). by apply IH.
Qed.

(** While memory lasts the identifier is the serialized document. *)
Lemma topology_build_gives (g : turbo_graph (W := W) (J := J)) :
  gives (turbo_graph_topology_id_build g) (Some (json_serialize (graph_document g))).
Proof.
  intros o Ho. unfold turbo_graph_topology_id_build, turbo_graph_topology_json_create.
  do 3 (destruct (alloc_plenty o Ho) as (o1 & Ho1 & ->); clear o Ho; rename o1 into o, Ho1 into Ho).
  cbn [andb negb].
  do 2 (match goal with |- context [alloc_n ?n o] => destruct (alloc_n_plenty n o Ho) as (o1 & Ho1 & ->) end;
        clear o Ho; rename o1 into o, Ho1 into Ho; cbn [negb]).
  destruct (topology_document_gives (default EmptyString (graph_name g)) (default EmptyString (entry_node g))
    (merge_sort node_le (ref_of_node <$> nodes g)) (merge_sort edge_le (ref_of_edge g <$> edges g)) o Ho) as (o1 & Ho1 & ->).
  destruct (alloc_plenty o1 Ho1) as (o2 & Ho2 & ->). by exists o2.
Qed.

(** *** Documents determine what they were made of *)

(** The whole text of a member. *)
Definition member_text (root : J) (k : string) : option string :=
  v ← json_object_get root k; if decide (json_type v = JSON_STRING) then Some (json_string v) else None.

Lemma member_text_proper (a b : J) k : json_equiv a b -> member_text a k = member_text b k.
Proof.
  intros Hab. unfold member_text. destruct (json_get_proper a b k Hab) as [x y Hxy|]; simpl; [|done].
  by rewrite (json_type_proper _ _ Hxy), (json_string_proper _ _ Hxy).
Qed.

Lemma member_text_of (kvs : list (string * J)) k s : assoc k kvs = Some (json_create_string s) ->
  member_text (object_of kvs) k = Some s.
Proof.
  intros Hk. unfold member_text, object_of. rewrite foldl_add_assoc, Hk by apply json_type_object. cbn.
  by rewrite decide_True, json_string_create by apply json_type_string.
Qed.

Lemma texts_agree (a b : J) k s t : json_equiv a b -> member_text a k = Some s -> member_text b k = Some t -> s = t.
Proof. intros Hab Ha Hb. rewrite (member_text_proper _ _ k Hab) in Ha. congruence. Qed.

Ltac agree He k := eapply (texts_agree _ _ k _ _ He); apply member_text_of; reflexivity.

Lemma node_document_inj (r1 r2 : node_ref) : json_equiv (node_doc r1) (node_doc r2) -> r1 = r2.
Proof.
  destruct r1 as [[s1 n1] k1], r2 as [[s2 n2] k2]. intros He.
  f_equal; [f_equal|]; [agree He "semantic_id"|agree He "name"|agree He "kind"].
Qed.

Lemma edge_document_inj (r1 r2 : edge_ref) : json_equiv (edge_doc r1) (edge_doc r2) -> r1 = r2.
Proof.
  destruct r1 as [[[s1 f1] t1] k1], r2 as [[[s2 f2] t2] k2]. intros He.
  f_equal; [f_equal; [f_equal|]|]; [agree He "semantic_id"|agree He "from"|agree He "to"|agree He "predicate_kind"].
Qed.

Lemma array_of_items (l : list J) (a : J) :
  json_type a = JSON_ARRAY ->
  json_type (foldl json_array_add a l) = JSON_ARRAY /\
  json_array_items (foldl json_array_add a l) = json_array_items a ++ l.
Proof.
  revert a. induction l as [|x l IH]; intros a Ha; simpl; [by rewrite app_nil_r|].
  destruct (IH (json_array_add a x)) as [Ht ->]; [by apply json_type_array_add|].
  by rewrite json_items_add, <- app_assoc by done.
Qed.

Lemma array_items (l : list J) : json_array_items (array_of l) = l.
Proof.
  destruct (array_of_items l json_create_array) as [_ Hi]; [apply json_type_array|].
  unfold array_of. by rewrite Hi, json_items_create.
Qed.

Lemma items_equiv_inj {A} (doc : A -> J) (l1 l2 : list A) :
  (forall x y, json_equiv (doc x) (doc y) -> x = y) ->
  Forall2 json_equiv (doc <$> l1) (doc <$> l2) -> l1 = l2.
Proof.
  intros Hinj. revert l2. induction l1 as [|x l1 IH]; intros [|y l2] Hf; inversion Hf; subst;
    [done|]. f_equal; auto.
Qed.

Lemma topology_doc_get name entry ns es :
  let d := topology_doc name entry ns es in
  member_text d "graph_name" = Some name /\ member_text d "entry_node" = Some entry /\
  json_object_get d "nodes" = Some (array_of (node_doc <$> ns)) /\
  json_object_get d "edges" = Some (array_of (edge_doc <$> es)).
Proof.
  cbv zeta. unfold topology_doc. set (root := topology_root name entry).
  assert (Ht : json_type root = JSON_OBJECT) by apply object_of_type.
  assert (Ht' : json_type (json_object_add root "nodes" (array_of (node_doc <$> ns))) = JSON_OBJECT)
    by (by apply json_type_add).
  unfold member_text. rewrite !(json_get_add_ne _ "edges") by done. rewrite !(json_get_add_ne _ "nodes") by done.
  rewrite !json_get_add by done. split_and!; try done; by apply member_text_of.
Qed.

Lemma items_agree {A} (doc : A -> J) (a b : J) k l1 l2 : (forall x y, json_equiv (doc x) (doc y) -> x = y) ->
  json_equiv a b -> json_object_get a k = Some (array_of (doc <$> l1)) ->
  json_object_get b k = Some (array_of (doc <$> l2)) -> l1 = l2.
Proof.
  intros Hinj Hab Ha Hb. pose proof (json_get_proper _ _ k Hab) as Hg. rewrite Ha, Hb in Hg.
  inversion Hg as [x y Hxy|]; subst. apply json_items_proper in Hxy. rewrite !array_items in Hxy.
  by apply (items_equiv_inj doc).
Qed.

Lemma topology_doc_inj n1 e1 ns1 es1 n2 e2 ns2 es2 :
  json_equiv (topology_doc n1 e1 ns1 es1) (topology_doc n2 e2 ns2 es2) ->
  n1 = n2 /\ e1 = e2 /\ ns1 = ns2 /\ es1 = es2.
Proof.
  intros He. destruct (topology_doc_get n1 e1 ns1 es1) as (A1 & A2 & A3 & A4).
  destruct (topology_doc_get n2 e2 ns2 es2) as (B1 & B2 & B3 & B4). cbv zeta in *.
  split_and!; [by eapply texts_agree|by eapply texts_agree| |].
  - eapply (items_agree node_doc); [apply node_document_inj|done..].
  - eapply (items_agree edge_doc); [apply edge_document_inj|done..].
Qed.

Lemma serialize_inj (a b : J) : json_serialize a = json_serialize b -> json_equiv a b.
Proof.
  intros He. destruct (json_parse_serialize a) as (a' & Ha & Ea).
  destruct (json_parse_serialize b) as (b' & Hb & Eb). rewrite He in Ha. simplify_eq.
  by rewrite <- Ea.
Qed.

(** C6. The topology identifier is canonical.  While memory lasts every graph has one,
    and two graphs get the same identifier exactly when they have the same name and
    entry and, whatever the order the nodes and edges were registered in, the same
    nodes and edges.  (The members of the document are set unchecked: when memory runs
    out an identifier can be that of a truncated document,
    [GraphRuns.truncated_identifiers].) *)
Theorem topology_id_canonical (g1 g2 : turbo_graph (W := W) (J := J)) o1 o2 :
  plenty o1 -> plenty o2 ->
  exists t1 t2 o1' o2', turbo_graph_topology_id_build g1 o1 = (Some t1, o1') /\
    turbo_graph_topology_id_build g2 o2 = (Some t2, o2') /\
    (t1 = t2 <-> same_topology g1 g2).
Proof.
  intros Ho1 Ho2. destruct (topology_build_gives g1 o1 Ho1) as (o1' & _ & E1), (topology_build_gives g2 o2 Ho2) as (o2' & _ & E2).
  do 4 eexists. split; [exact E1|]. split; [exact E2|]. unfold graph_document. split.
  - intros Heq. apply serialize_inj, topology_doc_inj in Heq as (Hn & He & Hns & Hes).
    apply merge_sort_canonical in Hns, Hes; try apply _. by repeat split.
  - intros (-> & -> & Hns & Hes).
    rewrite (proj2 (merge_sort_canonical node_le _ _) Hns).
    by rewrite (proj2 (merge_sort_canonical edge_le _ _) Hes).
Qed.

(** ** Lookup *)

Lemma find_from_spec k (l : list (turbo_graph_node_entry (W := W) (J := J))) name :
  match find_index_from k l name with
  | Some i => exists n, (k <= i)%nat /\ l !! (i - k)%nat = Some n /\ node_name n = name /\
      forall j m, (j < i - k)%nat -> l !! j = Some m -> node_name m <> name
  | None => name ∉ node_name <$> l
  end.
Proof.
  revert k. induction l as [|n l IH]; intros k; simpl; [set_solver|].
  destruct (strcmp (node_name n) name =? 0) eqn:E; bool_to_prop.
  - apply strcmp_eq in E. exists n. rewrite Nat.sub_diag. repeat split; [lia|done|lia].
  - assert (Hne : node_name n <> name) by (by rewrite <- strcmp_eq).
    specialize (IH (S k)). destruct (find_index_from (S k) l name) as [i|];
      [|by intros [->|?]%elem_of_cons].
    destruct IH as (m & Hk & Hl & Hm & Hfirst). exists m.
    replace (i - k)%nat with (S (i - S k)) by lia. repeat split; [lia|done|done|].
    intros [|j] m' Hj; simpl; [by intros [= <-]|]. apply Hfirst. lia.
Qed.

Lemma find_node_Some (g : turbo_graph (W := W) (J := J)) name i :
  turbo_graph_find_node_index g name = Some i ->
  exists n, nodes g !! i = Some n /\ node_name n = name.
Proof.
  unfold turbo_graph_find_node_index. intros E.
  pose proof (find_from_spec 0 (nodes g) name) as Hs. rewrite E in Hs.
  destruct Hs as (n & _ & Hl & Hn & _). rewrite Nat.sub_0_r in Hl. eauto.
Qed.

Lemma find_node_None (g : turbo_graph (W := W) (J := J)) name :
  turbo_graph_find_node_index g name = None <-> name ∉ node_name <$> nodes g.
Proof.
  unfold turbo_graph_find_node_index.
  pose proof (find_from_spec 0 (nodes g) name) as Hs.
  destruct (find_index_from 0 (nodes g) name) as [i|]; [|done].
  destruct Hs as (n & _ & Hl & Hn & _). split; [done|]. intros Hni. destruct Hni.
  apply list_elem_of_fmap. exists n. split; [done|]. by eapply list_elem_of_lookup_2.
Qed.

Lemma find_node_In (g : turbo_graph (W := W) (J := J)) name :
  is_Some (turbo_graph_find_node_index g name) <-> name ∈ node_name <$> nodes g.
Proof.
  pose proof (find_node_None g name) as Hn.
  destruct (turbo_graph_find_node_index g name) as [i|].
  - split; [|by eauto]. intros _. destruct (decide (name ∈ node_name <$> nodes g)); [done|].
    by apply Hn in n.
  - split; [by intros [? ?]|]. intros Hin. by apply Hn in Hin.
Qed.

(** ** Checkpoints *)

(** What survives serialization: an empty topology identifier reads back as
    none, and the state up to the library's equivalence. *)
Definition checkpoint_equiv (c1 c2 : turbo_graph_checkpoint (J := J)) : Prop :=
  cp_next_node c1 = cp_next_node c2 /\ cp_steps c1 = cp_steps c2 /\
  json_equiv (cp_state c1) (cp_state c2) /\
  default EmptyString (cp_topology_id c1) = default EmptyString (cp_topology_id c2).

Definition checkpoint_doc (c : turbo_graph_checkpoint (J := J)) (state : J) : J :=
  object_of [("checkpoint_version", json_create_number (double_of_uint TURBO_GRAPH_CHECKPOINT_SCHEMA_VERSION));
             ("next_node", json_create_string (cp_next_node c));
             ("steps", json_create_number (double_of_uint (cp_steps c)));
             ("topology_id", json_create_string (default EmptyString (cp_topology_id c)));
             ("state", state)].

Lemma checkpoint_document_gives c state : gives (checkpoint_document c state) (Some (checkpoint_doc c state)).
Proof. unfold checkpoint_document. gives_quiets. Qed.

Lemma get_int64_equiv (a b : J) k n d :
  json_equiv a b -> json_object_get b k = Some (json_create_number (double_of_uint n)) ->
  0 <= n < 2 ^ 53 ->
  exists v, json_object_get a k = Some v /\ turbo_runtime_json_value_as_int64 (Some v) d = n.
Proof.
  intros Hab Hb Hn. pose proof (json_get_proper a b k Hab) as Hg. rewrite Hb in Hg.
  inversion Hg as [x y Hxy Hx Hy|]; subst. exists x. split; [done|].
  assert (Hty : json_type x = JSON_NUMBER)
    by (rewrite (json_type_proper _ _ Hxy); apply json_type_number).
  apply json_as_int64_number; [done| |done].
  by rewrite (json_number_proper _ _ Hxy Hty), json_number_create.
Qed.

(** A text of the checkpoint, as reading it back gives it. *)
Lemma get_text_equiv (a : J) kvs k s : json_equiv a (object_of kvs) -> assoc k kvs = Some (json_create_string s) ->
  c_string s = s -> json_get_string a k = Some s.
Proof.
  intros Ha Hk Hs. unfold json_get_string. pose proof (json_get_proper _ _ k Ha) as Hg.
  unfold object_of in Hg. rewrite foldl_add_assoc, Hk in Hg by apply json_type_object.
  inversion Hg as [x y Hxy Hx Hy|]; subst. cbn. unfold json_c_text.
  rewrite (json_type_proper _ _ Hxy), (json_string_proper _ _ Hxy), json_string_create.
  by rewrite decide_True, Hs by apply json_type_string.
Qed.

Lemma checkpoint_serialize_gives c o : plenty o -> exists o', plenty o' /\
  turbo_graph_checkpoint_serialize (Some c) o = (Some (json_serialize (checkpoint_doc c (json_clone (cp_state c)))), o').
Proof.
  intros Ho. unfold turbo_graph_checkpoint_serialize, turbo_graph_clone_json.
  destruct (alloc_plenty o Ho) as (o1 & K1 & ->). cbn [negb]. destruct (alloc_plenty o1 K1) as (o2 & K2 & ->).
  destruct (checkpoint_document_gives c (json_clone (cp_state c)) o2 K2) as (o3 & K3 & ->).
  destruct (alloc_plenty o3 K3) as (o4 & K4 & ->). by exists o4.
Qed.

(** C7. Checkpoints survive a round trip through their text.  While memory lasts a
    checkpoint whose texts are C texts and whose step count a double holds exactly is
    serialized, and what was serialized is read back as an equivalent checkpoint.
    (Its members are set unchecked: when memory runs out a checkpoint can be
    serialized without its step count and is read back with none,
    [GraphRuns.steps_lost].) *)
Theorem checkpoint_roundtrip (c : turbo_graph_checkpoint (J := J)) o o2 :
  plenty o -> plenty o2 -> 0 <= cp_steps c < 2 ^ 53 ->
  c_string (cp_next_node c) = cp_next_node c ->
  c_string (default EmptyString (cp_topology_id c)) = default EmptyString (cp_topology_id c) ->
  exists text o1 c' o3, turbo_graph_checkpoint_serialize (Some c) o = (Some text, o1) /\
    turbo_graph_checkpoint_deserialize (Some text) o2 = (TURBO_GRAPH_EXEC_OK, Some c', o3) /\
    checkpoint_equiv c' c.
Proof.
  intros Ho Ho2 Hsteps Hnext Htop. destruct (checkpoint_serialize_gives c o Ho) as (o1 & _ & Hser).
  set (j := json_clone (cp_state c)) in *.
  destruct (json_parse_serialize (checkpoint_doc c j)) as (root & Hp & Hr).
  assert (Hget : forall k, json_object_get (checkpoint_doc c j) k =
    match assoc k _ with Some v => Some v | None => json_object_get json_create_object k end)
    by (intros k; apply foldl_add_assoc, json_type_object).
  destruct (get_int64_equiv root _ "checkpoint_version" TURBO_GRAPH_CHECKPOINT_SCHEMA_VERSION (-1) Hr) as (vv & Gv & Iv);
    [by rewrite Hget|unfold TURBO_GRAPH_CHECKPOINT_SCHEMA_VERSION; lia|].
  destruct (get_int64_equiv root _ "steps" (cp_steps c) (-1) Hr) as (vs & Gs & Is); [by rewrite Hget|done|].
  pose proof (json_get_proper root _ "state" Hr) as Gst. rewrite Hget in Gst. cbn in Gst.
  inversion Gst as [st y Hst Est|]; subst y.
  exists (json_serialize (checkpoint_doc c j)), o1. unfold turbo_graph_checkpoint_deserialize.
  destruct (alloc_plenty o2 Ho2) as (o3 & K3 & ->). rewrite Hp.
  rewrite (get_text_equiv _ _ "next_node" _ Hr eq_refl Hnext), (get_text_equiv _ _ "topology_id" _ Hr eq_refl Htop).
  rewrite Gv, Gs, <- Est, Iv, Is, Z.eqb_refl. cbn [negb].
  rewrite !(proj2 (Z.ltb_ge _ _)) by (unfold SIZE_MAX; lia). cbn [orb].
  unfold turbo_graph_checkpoint_create, turbo_graph_clone_json.
  do 2 (destruct (alloc_plenty o3 K3) as (o4 & K4 & ->); cbn [negb]; clear o3 K3; rename o4 into o3, K4 into K3).
  destruct (alloc_plenty o3 K3) as (o4 & K4 & ->).
  assert (Hstate : json_equiv (json_clone st) (cp_state c)) by (rewrite json_clone_equiv, Hst; apply json_clone_equiv).
  destruct (decide _) as [He|He].
  - do 2 eexists. split; [exact Hser|]. split; [done|]. split_and!; try done.
  - destruct (alloc_plenty o4 K4) as (o5 & K5 & ->). cbn [negb]. do 2 eexists. split; [exact Hser|]. done.
Qed.

(** ** Builder *)

Context (tstr_cat_typed : string -> list string -> string).

Inductive builder_op : Type :=
| AddNode (name semantic_id : option string) (fn : option (node_fn (W := W) (J := J)))
| AddValueNode (name semantic_id : option string) (fn : option (node_fn (W := W) (J := J)))
| AddEdge (from to semantic_id : option string) (p : option (predicate_fn (W := W) (J := J)))
| AddValueEdge (from to semantic_id : option string)
    (p : option (predicate_fn (W := W) (J := J)))
| SetEntry (name : option string)
| TopologyId.

Definition builder_exec (op : builder_op) (g : turbo_graph) (o : oracle)
  : turbo_graph_exec_status * turbo_graph * oracle :=
  match op with
  | AddNode name id fn => turbo_graph_add_node_ex g name id fn o
  | AddValueNode name id fn => turbo_graph_add_json_value_node_ex g name id fn o
  | AddEdge from to id p => turbo_graph_add_edge_ex tstr_cat_typed g from to id p o
  | AddValueEdge from to id p =>
      turbo_graph_add_json_value_edge_ex tstr_cat_typed g from to id p o
  | SetEntry name => turbo_graph_set_entry g name o
  | TopologyId =>
      let '(t, g, o) := turbo_graph_topology_id g o in
      (match t with Some _ => TURBO_GRAPH_EXEC_OK | None => TURBO_GRAPH_EXEC_OUT_OF_MEMORY end,
       g, o)
  end.

Fixpoint builder_execs (ops : list builder_op) (g : turbo_graph) (o : oracle)
  : turbo_graph * oracle :=
  match ops with
  | [] => (g, o)
  | op :: ops => let '(_, g, o) := builder_exec op g o in builder_execs ops g o
  end.

(** Growth of the two arrays: the capacity covers the entries and at most
    doubles them, so it cannot wrap below [2 ^ 62] entries. *)
Definition capacity_ok (len : nat) (first capacity : Z) : Prop :=
  Z.of_nat len < 2 ^ 62 ->
  Z.of_nat len <= capacity <= Z.max first (2 * Z.of_nat len).

Record graph_wf (g : turbo_graph (W := W) (J := J)) : Prop := {
  wf_names : NoDup (node_name <$> nodes g);
  wf_callbacks : Forall (fun n => is_Some (node_json_fn n) \/ is_Some (node_json_value_fn n))
                   (nodes g);
  wf_edges : Forall (fun e => (from_index e < length (nodes g))%nat /\
                              (to_index e < length (nodes g))%nat) (edges g);
  wf_entry : forall n, entry_node g = Some n -> n ∈ node_name <$> nodes g;
  wf_node_capacity : capacity_ok (length (nodes g)) 4 (node_capacity g);
  wf_edge_capacity : capacity_ok (length (edges g)) 8 (edge_capacity g)
}.

(** A cached topology identifier is that of the graph. *)
Definition cache_ok (g : turbo_graph (W := W) (J := J)) : Prop :=
  forall t, topology_id g = Some t -> t = json_serialize (graph_document g).

(** Everything a caller can observe of a graph: only the capacities, which are
    private, are left out. *)
Definition same_content (g1 g2 : turbo_graph (W := W) (J := J)) : Prop :=
  graph_name g1 = graph_name g2 /\ entry_node g1 = entry_node g2 /\ nodes g1 = nodes g2 /\
  edges g1 = edges g2 /\ topology_id g1 = topology_id g2.

#[local] Instance same_content_equivalence : Equivalence same_content.
Proof.
  split; [by intros g|by intros g1 g2 (?&?&?&?&?)|].
  intros g1 g2 g3 (?&?&?&?&?) (?&?&?&?&?). repeat split; congruence.
Qed.

Lemma same_content_document g1 g2 :
  same_content g1 g2 -> graph_document g1 = graph_document g2.
Proof.
  intros (Hn & He & Hns & Hes & _). unfold graph_document, ref_of_edge, name_at.
  by rewrite Hn, He, Hns, Hes.
Qed.

Lemma same_content_find g1 g2 name :
  same_content g1 g2 ->
  turbo_graph_find_node_index g1 name = turbo_graph_find_node_index g2 name.
Proof. intros (_ & _ & Hns & _). unfold turbo_graph_find_node_index. by rewrite Hns. Qed.

(** Reservation: the content stays; on OK there is room for one more entry. *)
Definition has_room (len : nat) (first capacity : Z) : Prop :=
  Z.of_nat len < 2 ^ 62 ->
  Z.of_nat len < capacity <= Z.max first (2 * Z.of_nat len).

Lemma grown_capacity len first cap :
  first = 4 \/ first = 8 -> capacity_ok len first cap -> ~ Z.of_nat len < cap ->
  has_room len first (if cap =? 0 then first else u64 (cap * 2)).
Proof.
  unfold capacity_ok, has_room. intros Hf Hc Hge Hl. specialize (Hc Hl).
  case_match; bool_to_prop; [lia|].
  rewrite u64_small by (unfold UINT64_MAX; lia). lia.
Qed.

Lemma reserve_nodes_spec g o :
  graph_wf g ->
  exists st g' o', turbo_graph_reserve_nodes g o = (st, g', o') /\
    same_content g g' /\ graph_wf g' /\
    ((st = TURBO_GRAPH_EXEC_OK /\ has_room (length (nodes g')) 4 (node_capacity g')) \/
     st = TURBO_GRAPH_EXEC_OUT_OF_MEMORY /\ false ∈ o) /\ (forall x, x ∈ o' -> x ∈ o).
Proof.
  intros Hwf. unfold turbo_graph_reserve_nodes.
  destruct (Z.of_nat (length (nodes g)) <? node_capacity g) eqn:E; bool_to_prop.
  - do 3 eexists. split; [done|]. split; [done|]. split; [done|]. split; [|done].
    left. split; [done|]. intros Hl. pose proof (wf_node_capacity _ Hwf Hl). lia.
  - destruct (alloc o) as [[] o'] eqn:Ea; pose proof (alloc_tail _ _ _ Ea) as Ht.
    2: { do 3 eexists. split; [done|]. split; [reflexivity|]. split; [done|].
         split; [|done]. right. split; [done|]. by eapply alloc_false. }
    do 3 eexists. split; [done|]. split; [done|].
    assert (Hr := grown_capacity (length (nodes g)) 4 (node_capacity g) ltac:(by left)
                    (wf_node_capacity _ Hwf) ltac:(lia)).
    split; [|split; [left; split; [done|exact Hr]|done]].
    destruct Hwf. split; try done. simpl. intros Hl. specialize (Hr Hl). simpl. lia.
Qed.

Lemma reserve_edges_spec g o :
  graph_wf g ->
  exists st g' o', turbo_graph_reserve_edges g o = (st, g', o') /\
    same_content g g' /\ graph_wf g' /\
    ((st = TURBO_GRAPH_EXEC_OK /\ has_room (length (edges g')) 8 (edge_capacity g')) \/
     st = TURBO_GRAPH_EXEC_OUT_OF_MEMORY /\ false ∈ o) /\ (forall x, x ∈ o' -> x ∈ o).
Proof.
  intros Hwf. unfold turbo_graph_reserve_edges.
  destruct (Z.of_nat (length (edges g)) <? edge_capacity g) eqn:E; bool_to_prop.
  - do 3 eexists. split; [done|]. split; [done|]. split; [done|]. split; [|done].
    left. split; [done|]. intros Hl. pose proof (wf_edge_capacity _ Hwf Hl). lia.
  - destruct (alloc o) as [[] o'] eqn:Ea; pose proof (alloc_tail _ _ _ Ea) as Ht.
    2: { do 3 eexists. split; [done|]. split; [reflexivity|]. split; [done|].
         split; [|done]. right. split; [done|]. by eapply alloc_false. }
    do 3 eexists. split; [done|]. split; [done|].
    assert (Hr := grown_capacity (length (edges g)) 8 (edge_capacity g) ltac:(by right)
                    (wf_edge_capacity _ Hwf) ltac:(lia)).
    split; [|split; [left; split; [done|exact Hr]|done]].
    destruct Hwf. split; try done. simpl. intros Hl. specialize (Hr Hl). simpl. lia.
Qed.

Lemma room_capacity len first cap :
  has_room len first cap -> capacity_ok (S len) first cap.
Proof. unfold has_room, capacity_ok. intros Hr Hl. specialize (Hr ltac:(lia)). lia. Qed.

Lemma append_node_wf g n :
  graph_wf g -> node_name n ∉ node_name <$> nodes g ->
  is_Some (node_json_fn n) \/ is_Some (node_json_value_fn n) ->
  has_room (length (nodes g)) 4 (node_capacity g) ->
  graph_wf (turbo_graph_invalidate_topology_id (append_node n g)).
Proof.
  intros [Hn Hc He Hen _ Hec] Hfresh Hfn Hroom.
  split; simpl; try done.
  - rewrite fmap_app. apply NoDup_app. split; [done|]. split; [|apply NoDup_singleton].
    intros x Hx Hx'. apply list_elem_of_singleton in Hx'. by subst x.
  - by apply Forall_app; split; [|apply Forall_singleton].
  - eapply Forall_impl; [exact He|]. intros e []. rewrite length_app. simpl. lia.
  - intros x Hx. rewrite fmap_app. apply elem_of_app. left. by apply Hen.
  - rewrite length_app, Nat.add_1_r. by apply room_capacity.
Qed.

Lemma append_edge_wf g e :
  graph_wf g -> (from_index e < length (nodes g))%nat -> (to_index e < length (nodes g))%nat ->
  has_room (length (edges g)) 8 (edge_capacity g) ->
  graph_wf (turbo_graph_invalidate_topology_id (append_edge e g)).
Proof.
  intros [Hn Hc He Hen Hnc _] Hf Ht Hroom. split; simpl; try done.
  - by apply Forall_app; split; [|apply Forall_singleton].
  - rewrite length_app, Nat.add_1_r. by apply room_capacity.
Qed.

Lemma find_node_lt (g : turbo_graph (W := W) (J := J)) name i :
  turbo_graph_find_node_index g name = Some i -> (i < length (nodes g))%nat.
Proof. intros (n & Hl & _)%find_node_Some. by eapply lookup_lt_Some. Qed.

(** *** The builder's contract

    A graph is specified by its name, its entry, a finite map of nodes and a
    list of edges between names; there are no indices, capacities or cache. *)
Record graph_spec := mk_spec {
  sp_name : option string;
  sp_entry : option string;
  sp_nodes : gmap string (turbo_graph_node_entry (W := W) (J := J));
  sp_edges : list (string * string * string * option (predicate_fn (W := W) (J := J)) *
                   option (predicate_fn (W := W) (J := J)))
}.

Definition spec_add_node (name semantic_id : option string)
    (fn : option (node_fn (W := W) (J := J))) (native : bool) (sp : graph_spec)
  : turbo_graph_exec_status * graph_spec :=
  match name, fn with
  | Some name, Some fn =>
      match sp_nodes sp !! name with
      | Some _ => (TURBO_GRAPH_EXEC_DUPLICATE_NODE, sp)
      | None =>
          let n := mk_node name (turbo_graph_effective_semantic_id semantic_id name)
                     (if native then None else Some fn) (if native then Some fn else None) in
          (TURBO_GRAPH_EXEC_OK,
           mk_spec (sp_name sp) (sp_entry sp) (<[name := n]> (sp_nodes sp)) (sp_edges sp))
      end
  | _, _ => (TURBO_GRAPH_EXEC_INVALID_ARGUMENT, sp)
  end.

Definition spec_add_edge (from to semantic_id : option string)
    (p : option (predicate_fn (W := W) (J := J))) (native : bool) (sp : graph_spec)
  : turbo_graph_exec_status * graph_spec :=
  match from, to with
  | Some f, Some t =>
      match sp_nodes sp !! f, sp_nodes sp !! t with
      | Some _, Some _ =>
          let id := turbo_graph_effective_semantic_id semantic_id
                      (tstr_cat_typed "{}->{}" [f; t]) in
          (TURBO_GRAPH_EXEC_OK,
           mk_spec (sp_name sp) (sp_entry sp) (sp_nodes sp)
             (sp_edges sp ++ [(f, t, id, if native then None else p, if native then p else None)]))
      | _, _ => (TURBO_GRAPH_EXEC_NODE_NOT_FOUND, sp)
      end
  | _, _ => (TURBO_GRAPH_EXEC_INVALID_ARGUMENT, sp)
  end.

Definition spec_exec (op : builder_op) (sp : graph_spec)
  : turbo_graph_exec_status * graph_spec :=
  match op with
  | AddNode name id fn => spec_add_node name id fn false sp
  | AddValueNode name id fn => spec_add_node name id fn true sp
  | AddEdge from to id p => spec_add_edge from to id p false sp
  | AddValueEdge from to id p => spec_add_edge from to id p true sp
  | SetEntry None => (TURBO_GRAPH_EXEC_INVALID_ARGUMENT, sp)
  | SetEntry (Some n) =>
      match sp_nodes sp !! n with
      | None => (TURBO_GRAPH_EXEC_NODE_NOT_FOUND, sp)
      | Some _ => (TURBO_GRAPH_EXEC_OK,
                   mk_spec (sp_name sp) (Some n) (sp_nodes sp) (sp_edges sp))
      end
  | TopologyId => (TURBO_GRAPH_EXEC_OK, sp)
  end.

Definition named (n : turbo_graph_node_entry (W := W) (J := J)) :
  string * turbo_graph_node_entry (W := W) (J := J) := (node_name n, n).

Definition spec_of (g : turbo_graph (W := W) (J := J)) : graph_spec :=
  mk_spec (graph_name g) (entry_node g) (list_to_map (named <$> nodes g))
    ((fun e => (name_at g (from_index e), name_at g (to_index e), edge_semantic_id e,
                edge_json_predicate e, edge_json_value_predicate e)) <$> edges g).

Lemma named_fst (l : list (turbo_graph_node_entry (W := W) (J := J))) :
  (named <$> l).*1 = node_name <$> l.
Proof. rewrite <- list_fmap_compose. by apply list_fmap_ext. Qed.

Lemma same_content_spec g1 g2 : same_content g1 g2 -> spec_of g1 = spec_of g2.
Proof.
  intros (Hn & He & Hns & Hes & _). unfold spec_of, name_at. by rewrite Hn, He, Hns, Hes.
Qed.

(** The table search and the map agree. *)
Lemma spec_lookup (g : turbo_graph (W := W) (J := J)) name :
  is_Some (sp_nodes (spec_of g) !! name) <-> is_Some (turbo_graph_find_node_index g name).
Proof.
  rewrite find_node_In, <- (named_fst (nodes g)). simpl. rewrite <- not_eq_None_Some.
  pose proof (not_elem_of_list_to_map (M := gmap string) (named <$> nodes g) name) as Hl.
  destruct (decide (name ∈ (named <$> nodes g).*1)) as [Hin|Hni]; [|tauto].
  split; [done|]. intros _ Hn. by apply Hl in Hn.
Qed.

Lemma spec_lookup_None (g : turbo_graph (W := W) (J := J)) name :
  turbo_graph_find_node_index g name = None -> sp_nodes (spec_of g) !! name = None.
Proof.
  intros Hf. destruct (sp_nodes (spec_of g) !! name) eqn:E; [|done].
  destruct (proj1 (spec_lookup g name)); eauto. congruence.
Qed.

Lemma spec_lookup_Some (g : turbo_graph (W := W) (J := J)) name i :
  turbo_graph_find_node_index g name = Some i ->
  exists n, sp_nodes (spec_of g) !! name = Some n.
Proof. intros Hf. apply spec_lookup. eauto. Qed.

Lemma spec_append_node (g : turbo_graph (W := W) (J := J)) n :
  graph_wf g -> node_name n ∉ node_name <$> nodes g ->
  spec_of (turbo_graph_invalidate_topology_id (append_node n g)) =
  mk_spec (graph_name g) (entry_node g)
    (<[node_name n := n]> (sp_nodes (spec_of g))) (sp_edges (spec_of g)).
Proof.
  intros Hwf Hfresh. unfold spec_of. simpl. f_equal.
  - rewrite fmap_app, list_to_map_app. simpl. rewrite insert_empty.
    rewrite <- insert_union_singleton_r; [done|].
    apply not_elem_of_list_to_map_1. by rewrite named_fst.
  - apply list_fmap_ext. intros i e He.
    assert (Hwe := proj1 (Forall_lookup _ _) (wf_edges _ Hwf) _ _ He). simpl in Hwe.
    unfold name_at. simpl. by rewrite !lookup_app_l by lia.
Qed.

Lemma name_at_find (g : turbo_graph (W := W) (J := J)) name i :
  turbo_graph_find_node_index g name = Some i -> name_at g i = name.
Proof. intros (n & Hl & Hn)%find_node_Some. unfold name_at. by rewrite Hl. Qed.

(** What a result owes to a specification. *)
Definition implements (g : turbo_graph (W := W) (J := J)) (o : oracle)
    (res : turbo_graph_exec_status * turbo_graph (W := W) (J := J) * oracle)
    (spec : turbo_graph_exec_status * graph_spec) : Prop :=
  let '(st, g', _) := res in
  graph_wf g' /\
  ((st, spec_of g') = spec \/ st = TURBO_GRAPH_EXEC_OUT_OF_MEMORY /\ false ∈ o) /\
  (st <> TURBO_GRAPH_EXEC_OK -> same_content g g').

Lemma implements_error g o st o' spec :
  graph_wf g -> (st, spec_of g) = spec \/ st = TURBO_GRAPH_EXEC_OUT_OF_MEMORY /\ false ∈ o ->
  implements g o (st, g, o') spec.
Proof. intros Hwf Hs. split; [done|]. split; [done|]. by intros _. Qed.

Lemma implements_oom g g' o o' spec :
  graph_wf g' -> same_content g g' -> false ∈ o ->
  implements g o (TURBO_GRAPH_EXEC_OUT_OF_MEMORY, g', o') spec.
Proof. intros Hwf Hs Hf. split; [done|]. split; [by right|]. by intros _. Qed.

Lemma implements_ok g g' o o' sp :
  graph_wf g' -> spec_of g' = sp ->
  implements g o (TURBO_GRAPH_EXEC_OK, g', o') (TURBO_GRAPH_EXEC_OK, sp).
Proof. intros Hwf <-. split; [done|]. split; [by left|]. done. Qed.

Lemma add_node_implements g name id (fn : node_fn (W := W) (J := J)) (native : bool) o :
  graph_wf g ->
  implements g o (add_node_entry g name id (if native then None else Some fn)
                    (if native then Some fn else None) o)
    (spec_add_node (Some name) id (Some fn) native (spec_of g)).
Proof.
  intros Hwf. unfold add_node_entry, spec_add_node.
  destruct (turbo_graph_find_node_index g name) as [i|] eqn:Ef.
  { apply spec_lookup_Some in Ef as [m ->]. apply implements_error; auto. }
  rewrite (spec_lookup_None _ _ Ef).
  destruct (reserve_nodes_spec g o Hwf) as (st1 & g1 & o1 & -> & Hs & Hwf1 & Hst & Hsub).
  destruct Hst as [[-> Hroom]|[-> Hf]]; [|by apply implements_oom].
  destruct (alloc o1) as [[] o2] eqn:E2; cbn [negb];
    [|apply alloc_false in E2; apply implements_oom; by auto].
  pose proof (alloc_tail _ _ _ E2) as Hsub2.
  destruct (alloc o2) as [[] o3] eqn:E3; cbn [negb];
    [|apply alloc_false in E3; apply implements_oom; by auto].
  assert (Hfresh : name ∉ node_name <$> nodes g1)
    by (apply find_node_None; by rewrite <- (same_content_find g g1)).
  apply implements_ok.
  - apply append_node_wf; try done. simpl. destruct native; by eauto.
  - by rewrite spec_append_node, (same_content_spec _ _ Hs).
Qed.

Lemma add_edge_implements g from to id p (native : bool) o :
  graph_wf g ->
  implements g o (add_edge_entry tstr_cat_typed g (Some from) (Some to) id
                    (if native then None else p) (if native then p else None) o)
    (spec_add_edge (Some from) (Some to) id p native (spec_of g)).
Proof.
  intros Hwf. unfold add_edge_entry, spec_add_edge.
  destruct (turbo_graph_find_node_index g from) as [i|] eqn:Ef.
  2: { rewrite (spec_lookup_None _ _ Ef). apply implements_error; auto. }
  destruct (spec_lookup_Some _ _ _ Ef) as [mf ->].
  destruct (turbo_graph_find_node_index g to) as [j|] eqn:Et.
  2: { rewrite (spec_lookup_None _ _ Et). apply implements_error; auto. }
  destruct (spec_lookup_Some _ _ _ Et) as [mt ->].
  destruct (reserve_edges_spec g o Hwf) as (st1 & g1 & o1 & -> & Hs & Hwf1 & Hst & Hsub).
  destruct Hst as [[-> Hroom]|[-> Hf]]; [|by apply implements_oom].
  destruct (alloc o1) as [[] o2] eqn:E2; cbn [negb];
    [|apply alloc_false in E2; apply implements_oom; by auto].
  rewrite (same_content_find _ _ from Hs) in Ef. rewrite (same_content_find _ _ to Hs) in Et.
  apply implements_ok.
  - by apply append_edge_wf; simpl; [|eapply find_node_lt|eapply find_node_lt|].
  - rewrite (same_content_spec _ _ Hs). unfold spec_of. simpl.
    pose proof (name_at_find g1 from i Ef) as Hi. pose proof (name_at_find g1 to j Et) as Hj.
    unfold name_at in *. rewrite fmap_app. simpl. rewrite Hi, Hj. by destruct id as [[]|].
Qed.

Lemma set_entry_implements g name o :
  graph_wf g ->
  implements g o (turbo_graph_set_entry g name o) (spec_exec (SetEntry name) (spec_of g)).
Proof.
  intros Hwf. unfold turbo_graph_set_entry, spec_exec.
  destruct name as [name|]; [|apply implements_error; auto].
  destruct (turbo_graph_find_node_index g name) as [i|] eqn:Ef.
  2: { rewrite (spec_lookup_None _ _ Ef). apply implements_error; auto. }
  destruct (spec_lookup_Some _ _ _ Ef) as [mf ->].
  destruct (alloc o) as [[] o2] eqn:E2; cbn [negb];
    [|apply alloc_false in E2; apply implements_oom; by auto].
  apply implements_ok; [|done]. destruct Hwf. split; simpl; try done.
  intros n [= <-]. apply find_node_In. eauto.
Qed.

Lemma alloc_n_false n o o' :
  alloc_n n o = (false, o') -> false ∈ o.
Proof.
  revert o. induction n as [|n IH]; intros o; simpl; [done|].
  destruct (alloc o) as [[] o1] eqn:E; [|intros _; by eapply alloc_false].
  intros Hf%IH. by eapply alloc_tail.
Qed.

Lemma alloc_n_tail n b o o' :
  alloc_n n o = (b, o') -> forall x, x ∈ o' -> x ∈ o.
Proof.
  revert o. induction n as [|n IH]; intros o; simpl; [by intros [= <- <-]|].
  destruct (alloc o) as [[] o1] eqn:E; [|intros [= <- <-]; by eapply alloc_tail].
  intros Hf x Hx. eapply alloc_tail; [done|]. by eapply IH.
Qed.

Lemma plenty_dec o : plenty o \/ false ∈ o.
Proof. unfold plenty. destruct (decide (false ∈ o)); [by right|by left]. Qed.

(** The identifier as it is computed: that of the graph while memory lasts. *)
Lemma topology_build_cases (g : turbo_graph (W := W) (J := J)) o t o' :
  turbo_graph_topology_id_build g o = (t, o') -> t = Some (json_serialize (graph_document g)) \/ false ∈ o.
Proof.
  intros E. destruct (plenty_dec o) as [Ho|]; [left|by right].
  destruct (topology_build_gives g o Ho) as (o2 & _ & E2). congruence.
Qed.

Lemma alloc_n_consumes n : consumes (alloc_n n).
Proof. intros o x. destruct (alloc_n n o) as [b o'] eqn:E. by apply (alloc_n_tail _ _ _ _ E). Qed.

Lemma node_document_consumes r : consumes (node_document (J := J) r).
Proof.
  destruct r as [[s n] k]. unfold node_document.
  repeat first [apply consumes_bind; [|intros ?]|apply consumes_create|apply consumes_quiet, json_set_string_consumes].
Qed.

Lemma edge_document_consumes r : consumes (edge_document (J := J) r).
Proof.
  destruct r as [[[s f] t] k]. unfold edge_document.
  repeat first [apply consumes_bind; [|intros ?]|apply consumes_create|apply consumes_quiet, json_set_string_consumes].
Qed.

Lemma topology_document_consumes name entry ns es : consumes (topology_document (J := J) name entry ns es).
Proof.
  unfold topology_document.
  repeat first [apply consumes_bind; [|intros ?]|apply consumes_quiet, json_set_string_consumes
    |apply consumes_quiet, json_object_add_consumes|apply consumes_ret
    |apply consumes_fold; intros ? ?
    |apply node_document_consumes|apply edge_document_consumes|apply consumes_quiet, json_array_add_consumes].
Qed.

Lemma topology_build_consumes (g : turbo_graph (W := W) (J := J)) : consumes (turbo_graph_topology_id_build g).
Proof.
  intros o x. unfold turbo_graph_topology_id_build, turbo_graph_topology_json_create.
  destruct (alloc o) as [b1 o1] eqn:E1, (alloc o1) as [b2 o2] eqn:E2, (alloc o2) as [b3 o3] eqn:E3.
  pose proof (alloc_tail _ _ _ E1 x) as T1. pose proof (alloc_tail _ _ _ E2 x) as T2. pose proof (alloc_tail _ _ _ E3 x) as T3.
  destruct (negb (b1 && b2 && b3)); [cbn; auto|].
  destruct (alloc_n _ o3) as [b4 o4] eqn:E4. pose proof (alloc_n_tail _ _ _ _ E4 x) as T4. destruct (negb b4); [cbn; auto 10|].
  destruct (alloc_n _ o4) as [b5 o5] eqn:E5. pose proof (alloc_n_tail _ _ _ _ E5 x) as T5. destruct (negb b5); [cbn; auto 10|].
  match goal with |- context [topology_document ?a ?b ?c ?d o5] =>
    pose proof (topology_document_consumes a b c d o5 x) as T6; destruct (topology_document a b c d o5) as [[root|] o6] end;
    cbn in T6 |- *; [|auto 10].
  destruct (alloc o6) as [b7 o7] eqn:E7. pose proof (alloc_tail _ _ _ E7 x) as T7. cbn. auto 10.
Qed.

Lemma cache_wf g t : graph_wf g -> graph_wf (set_topology_id t g).
Proof. by intros []. Qed.

Lemma topology_id_implements g o :
  graph_wf g ->
  implements g o (builder_exec TopologyId g o) (TURBO_GRAPH_EXEC_OK, spec_of g).
Proof.
  intros Hwf. unfold builder_exec, turbo_graph_topology_id.
  destruct (topology_id g) as [t|]; [apply implements_ok; done|].
  destruct (turbo_graph_topology_id_build g o) as [[t|] o'] eqn:E.
  - apply implements_ok; [by apply cache_wf|done].
  - apply topology_build_cases in E as [E|Hf]; [done|]. by apply implements_oom.
Qed.

(** The identifier a graph remembers. *)
Lemma topology_id_caches (g : turbo_graph (W := W) (J := J)) o t g' o' :
  turbo_graph_topology_id g o = (t, g', o') -> cache_ok g -> plenty o -> cache_ok g'.
Proof.
  unfold turbo_graph_topology_id. intros E Hc Ho. destruct (topology_id g) as [u|] eqn:Eu; [by injection E as <- <- <-|].
  destruct (turbo_graph_topology_id_build g o) as [[v|] o1] eqn:Eb; injection E as <- <- <-; [|done].
  apply topology_build_cases in Eb as [Eb|Hf]; [|done]. injection Eb as ->. by intros u [= <-].
Qed.

Lemma reserve_keeps_cache g o st g' o' : turbo_graph_reserve_nodes g o = (st, g', o') \/
  turbo_graph_reserve_edges g o = (st, g', o') -> cache_ok g -> cache_ok g'.
Proof.
  unfold turbo_graph_reserve_nodes, turbo_graph_reserve_edges.
  intros [E|E]; repeat case_match; simplify_eq; intros Hc; exact Hc.
Qed.

(** A change of the graph forgets the identifier. *)
Lemma builder_caches g op o st g' o' :
  builder_exec op g o = (st, g', o') -> cache_ok g -> plenty o -> cache_ok g'.
Proof.
  intros E Hc Ho. destruct op as [[n|] id [fn|]|[n|] id [fn|]|[f|] [t|] id p|[f|] [t|] id p|[n|]|]; cbn in E;
    unfold turbo_graph_add_node_ex, turbo_graph_add_json_value_node_ex, turbo_graph_add_edge_ex,
      turbo_graph_add_json_value_edge_ex, add_node_entry, add_edge_entry, turbo_graph_set_entry in E;
    repeat match type of E with
    | context [turbo_graph_topology_id ?g ?o] =>
        destruct (turbo_graph_topology_id g o) as [[? ?] ?] eqn:Et; simplify_eq; by eapply topology_id_caches
    | context [turbo_graph_reserve_nodes ?g ?o] =>
        destruct (turbo_graph_reserve_nodes g o) as [[? ?] ?] eqn:?
    | context [turbo_graph_reserve_edges ?g ?o] =>
        destruct (turbo_graph_reserve_edges g o) as [[? ?] ?] eqn:?
    | context [match ?x with _ => _ end] => destruct x eqn:?
    end; simplify_eq; try done; try (by intros u [=]);
    by eapply reserve_keeps_cache; eauto.
Qed.

Lemma builder_implements g op o :
  graph_wf g -> implements g o (builder_exec op g o) (spec_exec op (spec_of g)).
Proof.
  intros Hwf. destruct op as [[n|] id [fn|]|[n|] id [fn|]|[f|] [t|] id p|[f|] [t|] id p|n|];
    try (apply implements_error; by auto).
  - by apply (add_node_implements g n id fn false).
  - by apply (add_node_implements g n id fn true).
  - by apply (add_edge_implements g f t id p false).
  - by apply (add_edge_implements g f t id p true).
  - by apply set_entry_implements.
  - by apply topology_id_implements.
Qed.


Lemma create_wf name o g o' :
  turbo_graph_create name o = (Some g, o') -> graph_wf g.
Proof.
  unfold turbo_graph_create. intros Hc.
  assert (exists n, g = mk_graph n None [] 0 [] 0 None) as [n ->]
    by (repeat case_match; simplify_eq; eauto).
  split; simpl; try done; try constructor; intros _; simpl; lia.
Qed.

Lemma builder_execs_wf ops g o :
  graph_wf g -> graph_wf (builder_execs ops g o).1.
Proof.
  revert g o. induction ops as [|op ops IH]; intros g o Hwf; simpl; [done|].
  assert (Hi := builder_implements g op o Hwf).
  destruct (builder_exec op g o) as [[st g'] o'] eqn:E. by apply IH, Hi.
Qed.

End graph_facts.

(** ** Concrete graphs *)

Module GraphRuns.
Import JsonTree.

Definition cat (fmt : string) (args : list string) : string :=
  match args with [a; b] => String.append a (String.append "->" b) | _ => fmt end.

(** Nodes count their calls in the world. *)
Definition count_node : node_fn (W := Z) (J := jtree) := fun ctx w => (0, ctx, w + 1).

Definition plan : builder_op (W := Z) (J := jtree) := AddNode (Some "plan") None (Some count_node).
Definition act : builder_op (W := Z) (J := jtree) := AddValueNode (Some "act") (Some "v1") (Some count_node).
Definition link : builder_op (W := Z) (J := jtree) := AddEdge (Some "plan") (Some "act") None None.

Definition empty_graph : turbo_graph (W := Z) (J := jtree) :=
  mk_graph (Some "demo") None [] 0 [] 0 None.
Definition agent : turbo_graph :=
  (builder_execs cat [plan; act; link; SetEntry (Some "plan")] empty_graph []).1.
Definition agent_reordered : turbo_graph :=
  (builder_execs cat [act; plan; SetEntry (Some "plan"); link] empty_graph []).1.

Lemma empty_graph_wf : graph_wf empty_graph.
Proof. by apply (create_wf (Some "demo") [] empty_graph []). Defined.

Lemma agent_wf : graph_wf agent.
Proof. apply builder_execs_wf, empty_graph_wf. Defined.

Lemma topology_id_canonical_witness :
  exists t1 t2, turbo_graph_topology_id_build agent [] = (Some t1, []) /\
    turbo_graph_topology_id_build agent_reordered [] = (Some t2, []) /\ t1 = t2.
Proof.
  destruct (topology_id_canonical agent agent_reordered [] []) as (t1 & t2 & o1 & o2 & E1 & E2 & Heq); [apply plenty_nil..|].
  exists t1, t2. split; [rewrite E1; f_equal; by apply (f_equal snd) in E1|].
  split; [rewrite E2; f_equal; by apply (f_equal snd) in E2|]. apply Heq.
  split; [reflexivity|]. split; [reflexivity|]. split; simpl; [constructor|reflexivity].
Defined.

(** The allocations of an identifier: the three containers, the two arrays of
    references with one reference per edge, the root's four members, and per node
    one object, its three members and its place.  With the tenth and eleventh
    refused, the name and semantic id of the only node are lost. *)
Definition lonely (name : string) : turbo_graph (W := Z) (J := jtree) :=
  (builder_execs cat [AddNode (Some name) None (Some count_node)] empty_graph []).1.

Example truncated_identifiers : exists o t o',
  turbo_graph_topology_id_build (lonely "a") o = (Some t, o') /\
  turbo_graph_topology_id_build (lonely "b") o = (Some t, o') /\ ~ same_topology (lonely "a") (lonely "b").
Proof.
  exists (replicate 9 true ++ [false; false]). do 2 eexists. split; [vm_compute; reflexivity|].
  split; [vm_compute; reflexivity|]. intros (_ & _ & Hn & _). cbn in Hn.
  apply Permutation_singleton_inj in Hn. discriminate Hn.
Qed.


Definition paused : turbo_graph_checkpoint (J := jtree) :=
  mk_checkpoint "act" 41 (JObj [("k", JStr "v")]) (Some "topology").

Lemma checkpoint_roundtrip_witness :
  exists text c', (turbo_graph_checkpoint_serialize (Some paused) []).1 = Some text /\
    (turbo_graph_checkpoint_deserialize (Some text) []).1 = (TURBO_GRAPH_EXEC_OK, Some c') /\
    checkpoint_equiv c' paused.
Proof.
  destruct (checkpoint_roundtrip paused [] []) as (text & o1 & c' & o3 & Hs & Hd & Hc);
    [apply plenty_nil|apply plenty_nil|simpl; lia|reflexivity|reflexivity|].
  exists text, c'. rewrite Hs, Hd. split; [reflexivity|]. split; [reflexivity|exact Hc].
Defined.

(** The fifth allocation of a serialization is that of the step count. *)
Example steps_lost : exists text c',
  (turbo_graph_checkpoint_serialize (Some paused) [true; true; true; true; false]).1 = Some text /\
  (turbo_graph_checkpoint_deserialize (Some text) []).1 = (TURBO_GRAPH_EXEC_OK, Some c') /\
  cp_steps paused = 41 /\ cp_steps c' = 0.
Proof. do 2 eexists. split; [vm_compute; reflexivity|]. split; [vm_compute; reflexivity|]. done. Qed.

End GraphRuns.
