(* ===== verification/GraphRun.v ===== *)
(** * The graph runtime: what a run guarantees

    The step limit as a termination measure, the contract of every result
    (which node a caller may resume from and which checkpoint it holds), and the
    equivalence of an interrupted and resumed run with an uninterrupted one.
    A small weakest-precondition calculus over the run monad carries the proofs.
    Definitions are in [Graph]. *)

From S2P Require Import Prelude RuntimeJson RuntimeEvent Graph GraphFacts.

Create HintDb run_wp.

Section graph_run.
Context {W J : Type} `{Api : JsonApi J, !JsonSetters J, !JsonSettersLaws J, !JsonLaws J}.

#[local] Abbreviation graph := (turbo_graph (W := W) (J := J)).
#[local] Abbreviation rstate := (run_state (W := W) (J := J)).
#[local] Abbreviation roptions := (option (turbo_graph_run_options (W := W) (J := J))).
#[local] Abbreviation runs := (run (W := W) (J := J)).

(** ** Weakest preconditions *)

(** [Q] of the value a computation continues with, [E] of the result it leaves
    the executor with. *)
Definition wp {A} (m : runs A) (Q : A -> run_state -> Prop)
    (E : turbo_graph_run_result -> run_state -> Prop) (s : run_state) : Prop :=
  match m s with
  | (inl r, s') => E r s'
  | (inr a, s') => Q a s'
  end.

Lemma wp_bind {A B} (m : runs A) (k : A -> run B) Q E s :
  wp m (fun a => wp (k a) Q E) E s -> wp (m ≫= k) Q E s.
Proof. unfold wp, mbind, run_bind. by destruct (m s) as [[r|a] s']. Qed.

Lemma wp_ret {A} (a : A) Q E (s : rstate) : Q a s -> wp (mret a) Q E s.
Proof. done. Qed.

Lemma wp_result {A} st l n k Q E (s : rstate) :
  E (mk_result st l n k) s -> wp (A := A) (turbo_graph_result_init st l n k) Q E s.
Proof. done. Qed.

Lemma wp_require st l n k Q E (s : rstate) :
  (st = TURBO_GRAPH_EXEC_OK -> Q tt s) ->
  (st <> TURBO_GRAPH_EXEC_OK -> E (mk_result st l n k) s) ->
  wp (require_ok st l n k) Q E s.
Proof. intros HQ HE. unfold require_ok. case_decide; [by apply HQ|by apply HE]. Qed.

Lemma wp_mono {A} (m : runs A) (Q Q' : A -> run_state -> Prop)
    (E E' : turbo_graph_run_result -> run_state -> Prop) s :
  wp m Q E s -> (forall a s', Q a s' -> Q' a s') -> (forall r s', E r s' -> E' r s') ->
  wp m Q' E' s.
Proof. unfold wp. destruct (m s) as [[r|a] s']; auto. Qed.

(** ** What a run keeps *)

(** The graph a run works on differs from the caller's at most in the cached
    topology identifier. *)
Definition same_tables (g1 g2 : graph) : Prop :=
  graph_name g1 = graph_name g2 /\ entry_node g1 = entry_node g2 /\ nodes g1 = nodes g2 /\
  edges g1 = edges g2.

Definition run_inv (g0 : graph) (s : rstate) : Prop :=
  graph_wf (rs_graph s) /\ same_tables g0 (rs_graph s).

Lemma same_tables_document (g1 g2 : graph) :
  same_tables g1 g2 -> graph_document g1 = graph_document g2.
Proof.
  intros (Hn & He & Hns & Hes). unfold graph_document, ref_of_edge, name_at.
  by rewrite Hn, He, Hns, Hes.
Qed.

Lemma same_tables_find (g1 g2 : graph) name :
  same_tables g1 g2 ->
  turbo_graph_find_node_index g1 name = turbo_graph_find_node_index g2 name.
Proof. intros (_ & _ & Hns & _). unfold turbo_graph_find_node_index. by rewrite Hns. Qed.

Lemma topology_id_run (g0 g : graph) o :
  graph_wf g -> same_tables g0 g ->
  exists g' o', graph_wf g' /\ same_tables g0 g' /\
    ((exists t, turbo_graph_topology_id g o = (Some t, g', o') /\ topology_id g' = Some t) \/
     turbo_graph_topology_id g o = (None, g', o')).
Proof.
  intros Hwf Hs. unfold turbo_graph_topology_id. destruct (topology_id g) as [t|] eqn:Et.
  - exists g, o. eauto 8.
  - destruct (turbo_graph_topology_id_build g o) as [[t|] o'].
    + exists (set_topology_id (Some t) g), o'. split; [by apply cache_wf|]. eauto 8.
    + exists g, o'. eauto.
Qed.

(** ** Emission *)

(** With a checkpoint callback, the last thing the caller was given is a
    checkpoint of this node, step count and state, bound to the identifier the graph
    remembers. *)
Definition checkpointed (options : roptions)
    (next : string) (steps : Z) (state : J) (s : rstate) : Prop :=
  is_Some (o ← options; checkpoint_cb o) ->
  exists before c, rs_trace s = before ++ [ObsCheckpoint c] /\
    cp_next_node c = next /\ cp_steps c = steps /\ json_equiv (cp_state c) state /\
    is_Some (cp_topology_id c) /\ cp_topology_id c = topology_id (rs_graph s).

(** What the two checkpoint functions owe to the executors. *)
Definition emits_checkpoints
    (emit : roptions -> string -> Z -> J -> runs turbo_graph_exec_status)
  : Prop :=
  forall g0 options next steps state Q E s, run_inv g0 s ->
    (forall s', run_inv g0 s' -> rs_json s' = rs_json s ->
       checkpointed options next steps state s' -> Q TURBO_GRAPH_EXEC_OK s') ->
    (forall s', run_inv g0 s' -> Q TURBO_GRAPH_EXEC_OUT_OF_MEMORY s') ->
    wp (emit options next steps state) Q E s.

Lemma checkpoint_create_cases next steps (state : J) o :
  exists o', turbo_graph_checkpoint_create (Some next) steps (Some state) o =
      (TURBO_GRAPH_EXEC_OK, Some (mk_checkpoint next steps (json_clone state) None), o') \/
    turbo_graph_checkpoint_create (Some next) steps (Some state) o =
      (TURBO_GRAPH_EXEC_OUT_OF_MEMORY, None, o').
Proof.
  unfold turbo_graph_checkpoint_create, turbo_graph_clone_json.
  destruct (alloc o) as [[] o1]; cbn [negb]; [|by eauto].
  destruct (alloc o1) as [[] o2]; cbn [negb]; [|by eauto].
  destruct (alloc o2) as [[] o3]; eauto.
Qed.

Lemma emit_json_spec : emits_checkpoints turbo_graph_emit_checkpoint_json.
Proof.
  intros g0 options next steps state Q E s Hinv HQ HE.
  unfold turbo_graph_emit_checkpoint_json.
  destruct (o ← options; checkpoint_cb o) as [cb|] eqn:Ecb.
  2: { apply wp_ret, HQ; [done..|]. intros [? Hcb]. congruence. }
  apply wp_bind. unfold wp, with_oracle.
  destruct (checkpoint_create_cases next steps state (rs_oracle s)) as [o1 [-> | ->]];
    [|by apply HE].
  unfold mbind, run_bind, set_topology_m, turbo_graph_checkpoint_set_topology.
  destruct Hinv as [Hwf Hs]. cbn [rs_graph rs_oracle].
  destruct (topology_id_run g0 (rs_graph s) o1 Hwf Hs) as (g' & o2 & Hwf' & Hs' & [(t & -> & Hcache)| ->]);
    [|by apply HE].
  destruct (alloc o2) as [[] o3]; cbn [negb]; [|by apply HE].
  rewrite decide_True by done. simpl. apply HQ; [done..|]. intros _.
  do 2 eexists. split; [done|]. simpl. rewrite Hcache. repeat split; [apply json_clone_equiv|by eexists].
Qed.

Lemma emit_json_value_spec : emits_checkpoints turbo_graph_emit_checkpoint_json_value.
Proof.
  intros g0 options next steps state Q E s Hinv HQ HE.
  unfold turbo_graph_emit_checkpoint_json_value.
  destruct (o ← options; checkpoint_cb o) as [cb|] eqn:Ecb.
  2: { apply wp_ret, HQ; [done..|]. intros [? Hcb]. congruence. }
  apply wp_bind. unfold wp at 1, with_oracle, turbo_graph_json_value_state_to_json,
    turbo_graph_clone_json.
  destruct (alloc (rs_oracle s)) as [[] o1]; [|by apply HE].
  apply (emit_json_spec g0); [done| |done].
  intros s' Hinv' Hj Hc. apply HQ; [done..|]. intros Hcb.
  destruct (Hc Hcb) as (b & c & Ht & Hn & Hst & He & Htop & Hcache).
  exists b, c. repeat split; try done. by rewrite He, json_clone_equiv.
Qed.

Lemma emit_trace_spec g0 sink name detail payload status Q E (s : rstate) :
  run_inv g0 s ->
  (forall s', run_inv g0 s' -> rs_json s' = rs_json s -> Q TURBO_GRAPH_EXEC_OK s') ->
  (forall s', run_inv g0 s' -> Q TURBO_GRAPH_EXEC_OUT_OF_MEMORY s') ->
  wp (turbo_graph_emit_trace_event sink name detail payload status) Q E s.
Proof.
  intros Hinv HQ HE. unfold turbo_graph_emit_trace_event. destruct sink as [sink|];
    [|by apply wp_ret, HQ].
  apply wp_bind. unfold wp, with_oracle.
  destruct (trace_create_cases (Some name) (Some detail) (Some payload) status (rs_oracle s))
    as [o' [-> | ->]]; simpl; [by apply HQ|by apply HE].
Qed.

(** The statuses a token's check maps to. *)
Definition cancel_statuses (st : turbo_graph_exec_status) : Prop :=
  st = TURBO_GRAPH_EXEC_CANCELLED \/ st = TURBO_GRAPH_EXEC_DEADLINE \/ st = TURBO_GRAPH_EXEC_ERROR.

Lemma cancel_status_spec token Q E (s : rstate) :
  (forall s' st, rs_graph s' = rs_graph s -> rs_json s' = rs_json s -> rs_trace s' = rs_trace s ->
     st = TURBO_GRAPH_EXEC_OK \/ cancel_statuses st -> Q st s') ->
  wp (turbo_graph_cancel_status token) Q E s.
Proof.
  intros HQ. unfold turbo_graph_cancel_status, cancel_statuses in *.
  destruct token as [check|]; [|apply wp_ret, HQ; auto].
  apply wp_bind. unfold wp at 1, with_world. destruct (check (rs_world s)) as [st w].
  apply wp_ret. apply HQ; [done..|]. destruct st; auto.
Qed.

(** ** The contract of a result *)

Definition names (g : graph) : list string := node_name <$> nodes g.

(** A result a caller can resume from names an existing node and comes with its
    checkpoint; a node that is not found is really absent; a finished run has
    no next node; the statuses of other operations never appear. *)
Definition result_contract (g0 : graph) (options : roptions) (r : turbo_graph_run_result)
    (s : rstate) : Prop :=
  run_inv g0 s /\
  match res_status r with
  | TURBO_GRAPH_EXEC_OK | TURBO_GRAPH_EXEC_STOP | TURBO_GRAPH_EXEC_ROUTE_NOT_FOUND =>
      res_next_node r = None
  | TURBO_GRAPH_EXEC_INTERRUPTED | TURBO_GRAPH_EXEC_CANCELLED | TURBO_GRAPH_EXEC_DEADLINE =>
      exists n, res_next_node r = Some n /\ n ∈ names g0 /\
        checkpointed options n (res_steps r) (rs_json s) s
  | TURBO_GRAPH_EXEC_STEP_LIMIT =>
      exists n, res_next_node r = Some n /\ n ∈ names g0 /\
        0 < default 0 (max_steps <$> options) <= res_steps r
  | TURBO_GRAPH_EXEC_NODE_NOT_FOUND => exists n, res_next_node r = Some n /\ n ∉ names g0
  | TURBO_GRAPH_EXEC_ERROR | TURBO_GRAPH_EXEC_OUT_OF_MEMORY => True
  | TURBO_GRAPH_EXEC_INVALID_ARGUMENT | TURBO_GRAPH_EXEC_DUPLICATE_NODE
  | TURBO_GRAPH_EXEC_CHECKPOINT_MISMATCH => False
  end.

(** The step counts one iteration can leave with: before or after its node. *)
Definition leaves (g0 : graph) (options : roptions) (v : loop_vars)
    (r : turbo_graph_run_result) (s : rstate) : Prop :=
  result_contract g0 options r s /\
  (res_steps r = lv_steps v \/
   res_steps r = size_incr (lv_steps v) /\
   (0 < default 0 (max_steps <$> options) -> lv_steps v < default 0 (max_steps <$> options))).

(** What a continuing iteration leaves. *)
Definition continues (g0 : graph) (options : roptions) (v v' : loop_vars) (s : rstate) : Prop :=
  run_inv g0 s /\ lv_current v' ∈ names g0 /\ lv_steps v' = size_incr (lv_steps v) /\
  (0 < default 0 (max_steps <$> options) -> lv_steps v < default 0 (max_steps <$> options)).

Lemma names_same (g0 : graph) (s : rstate) : run_inv g0 s -> names g0 = names (rs_graph s).
Proof. intros [_ (_ & _ & Hns & _)]. unfold names. by rewrite Hns. Qed.

Lemma found_name (g0 : graph) (s : rstate) name (n : turbo_graph_node_entry) :
  run_inv g0 s ->
  (i ← turbo_graph_find_node_index (rs_graph s) name; nodes (rs_graph s) !! i) = Some n ->
  node_name n = name /\ name ∈ names g0.
Proof.
  intros Hinv Hf. destruct (turbo_graph_find_node_index (rs_graph s) name) as [i|] eqn:E;
    [|done]. destruct (find_node_Some _ _ _ E) as (m & Hl & Hm). simpl in Hf.
  rewrite Hl in Hf. injection Hf as ->. split; [done|].
  rewrite (names_same _ _ Hinv). apply find_node_In. eauto.
Qed.

Lemma unfound_name (g0 : graph) (s : rstate) name :
  run_inv g0 s ->
  (i ← turbo_graph_find_node_index (rs_graph s) name; nodes (rs_graph s) !! i) = None ->
  name ∉ names g0.
Proof.
  intros Hinv Hf. rewrite (names_same _ _ Hinv). apply find_node_None.
  destruct (turbo_graph_find_node_index (rs_graph s) name) as [i|] eqn:E; [|done].
  destruct (find_node_Some _ _ _ E) as (m & Hl & _). simpl in Hf. congruence.
Qed.

Lemma inv_json (g0 : graph) (s : rstate) j : run_inv g0 s ->
  run_inv g0 (mk_run (rs_graph s) (rs_oracle s) (rs_world s) (rs_trace s) j).
Proof. done. Qed.

Lemma inv_graph (g0 : graph) (s s' : rstate) :
  run_inv g0 s -> rs_graph s' = rs_graph s -> run_inv g0 s'.
Proof. unfold run_inv. by intros ? ->. Qed.

Section executor.
Context (g0 : graph) (options : roptions) (v : loop_vars).
#[local] Abbreviation limit := (default 0 (max_steps <$> options)).

(** Leaving before the node, and after it. *)
Lemma leave_before st n (s : rstate) :
  result_contract g0 options (mk_result st (lv_last v) n (lv_steps v)) s ->
  leaves g0 options v (mk_result st (lv_last v) n (lv_steps v)) s.
Proof. intros Hc. split; [done|by left]. Qed.

Lemma leave_after st l n (s : rstate) :
  (0 < limit -> lv_steps v < limit) ->
  result_contract g0 options (mk_result st l n (size_incr (lv_steps v))) s ->
  leaves g0 options v (mk_result st l n (size_incr (lv_steps v))) s.
Proof. intros Hl Hc. split; [done|by right]. Qed.

Lemma step_limit_spec Q (s : rstate) :
  run_inv g0 s -> lv_current v ∈ names g0 ->
  ((0 < limit -> lv_steps v < limit) -> Q tt s) ->
  wp (check_step_limit options v) Q (leaves g0 options v) s.
Proof.
  intros Hinv Hcur HQ. unfold check_step_limit. cbv zeta.
  destruct ((0 <? limit) && (limit <=? lv_steps v)) eqn:E.
  - bool_to_prop. apply wp_result, leave_before. split; [done|]. simpl. eauto.
  - apply wp_ret, HQ. intros Hl. apply andb_false_iff in E as [E|E]; bool_to_prop; lia.
Qed.

Lemma entry_interrupt_spec emit Q (s : rstate) :
  emits_checkpoints emit -> run_inv g0 s -> lv_current v ∈ names g0 -> Q tt s ->
  wp (check_entry_interrupt emit options v) Q (leaves g0 options v) s.
Proof.
  intros Hemit Hinv Hcur HQ. unfold check_entry_interrupt.
  destruct (negb _ && _); [|by apply wp_ret].
  apply wp_bind. apply (wp_bind (emit _ _ _ _)). simpl.
  apply (Hemit g0); [done|intros s' Hinv' Hj Hc|intros s' Hinv'].
  - apply wp_bind, wp_ret, wp_result, leave_before. split; [done|]. simpl. rewrite Hj. eauto.
  - by apply wp_bind, wp_result, leave_before.
Qed.

Lemma find_current_spec Q E (s : rstate) :
  run_inv g0 s -> lv_current v ∈ names g0 ->
  (forall i n, nodes (rs_graph s) !! i = Some n -> node_name n = lv_current v -> Q (i, n) s) ->
  wp (find_current v) Q E s.
Proof.
  intros Hinv Hcur HQ. unfold find_current. apply wp_bind. unfold wp at 1, get_graph.
  destruct (turbo_graph_find_node_index (rs_graph s) (lv_current v)) as [i|] eqn:Ef.
  - destruct (find_node_Some _ _ _ Ef) as (n & Hl & Hn). simpl. rewrite Hl. simpl.
    by apply wp_ret, HQ.
  - exfalso. apply (proj1 (find_node_None _ _) Ef). by rewrite (names_same _ _ Hinv) in Hcur.
Qed.

(** After the node: the errors, the stop, the route. *)
Context (Hran : 0 < limit -> lv_steps v < limit).

Lemma stop_spec emit ctx last (s : rstate) Q :
  emits_checkpoints emit -> run_inv g0 s ->
  wp (stop_after_node emit options ctx last (size_incr (lv_steps v)) (rs_json s)) Q
    (leaves g0 options v) s.
Proof.
  intros Hemit Hinv. unfold stop_after_node. destruct (ctx_next_node ctx) as [next|].
  2: { apply wp_result, leave_after; [done|]. by split. }
  apply wp_bind. unfold wp at 1, get_graph. cbv beta.
  destruct (i ← turbo_graph_find_node_index (rs_graph s) next; nodes (rs_graph s) !! i)
    as [n|] eqn:Ef.
  2: { apply wp_result, leave_after; [done|]. split; [done|]. simpl.
       eexists. split; [done|]. by eapply unfound_name. }
  destruct (found_name _ _ _ _ Hinv Ef) as [Hn Hin]. cbv zeta. apply wp_bind.
  apply (Hemit g0); [done|intros s' Hinv' Hj Hc|intros s' Hinv'].
  - apply wp_bind, wp_ret, wp_result, leave_after; [done|]. split; [done|]. simpl.
    rewrite Hj. eexists. split; [done|]. rewrite Hn. split; [done|]. by rewrite <- Hn.
  - by apply wp_bind, wp_result, leave_after.
Qed.

Lemma name_at_in (g : graph) i :
  (i < length (nodes g))%nat -> name_at g i ∈ names g.
Proof.
  intros Hi. destruct (lookup_lt_is_Some_2 _ _ Hi) as [n Hn]. unfold name_at, names.
  rewrite Hn. simpl. apply list_elem_of_fmap. exists n. split; [done|].
  by eapply list_elem_of_lookup_2.
Qed.

(** A predicate that keeps the run's invariant, or leaves like the executor. *)
Definition good_predicate
    (predicate : turbo_graph_edge_entry (W := W) (J := J) -> option (runs Z)) : Prop :=
  forall e p, predicate e = Some p -> forall (s : rstate) (Q : Z -> rstate -> Prop),
    run_inv g0 s -> (forall z s', run_inv g0 s' -> rs_json s' = rs_json s -> Q z s') ->
    wp p Q (leaves g0 options v) s.

Lemma route_spec predicate (g : graph) index last l count (s : rstate)
    (Q : option string * nat -> rstate -> Prop) :
  good_predicate predicate -> same_tables g0 g -> run_inv g0 s ->
  Forall (fun e => (to_index e < length (nodes g))%nat) l ->
  (forall next k s', run_inv g0 s' -> rs_json s' = rs_json s ->
     (forall n, next = Some n -> n ∈ names g0) -> Q (next, k) s') ->
  wp (route predicate g index last (size_incr (lv_steps v)) l count) Q
    (leaves g0 options v) s.
Proof.
  intros Hp Hg Hinv Hl HQ. revert s count Hinv HQ.
  induction Hl as [|e l He Hl IH]; intros s count Hinv HQ; simpl; [by apply wp_ret, HQ|].
  assert (Hto : forall n, Some (name_at g (to_index e)) = Some n -> n ∈ names g0)
    by (intros n [= <-]; destruct Hg as (_ & _ & Hns & _); unfold names; rewrite Hns;
        by apply name_at_in).
  destruct (negb _); [by apply IH|].
  destruct (predicate e) as [p|] eqn:Ep; [|by apply wp_ret, HQ].
  apply wp_bind. apply (Hp e p Ep); [done|]. intros z s' Hinv' Hj.
  destruct (z <? 0); [by apply wp_result, leave_after|].
  destruct (0 <? z); [by apply wp_ret, HQ|].
  apply IH; [done|]. intros next k s2 H2 Hj2. apply HQ; [done|]. by rewrite Hj2.
Qed.


Lemma choose_next_spec predicate ctx index last (s : rstate)
    (Q : option string * nat -> rstate -> Prop) :
  good_predicate predicate -> run_inv g0 s ->
  (forall next k s', run_inv g0 s' -> rs_json s' = rs_json s ->
     (forall n, next = Some n -> n ∈ names g0) -> Q (next, k) s') ->
  wp (choose_next predicate ctx index last (size_incr (lv_steps v))) Q
    (leaves g0 options v) s.
Proof.
  intros Hp Hinv HQ. unfold choose_next. apply wp_bind. unfold wp at 1, get_graph. cbv beta.
  destruct (ctx_next_node ctx) as [next|].
  - destruct (turbo_graph_find_node_index (rs_graph s) next) as [i|] eqn:Ef.
    + apply wp_ret, HQ; [done..|]. intros n [= <-]. rewrite (names_same _ _ Hinv).
      apply find_node_In. eauto.
    + apply wp_result, leave_after; [done|]. split; [done|]. simpl. eexists. split; [done|].
      rewrite (names_same _ _ Hinv). by apply find_node_None.
  - apply route_spec; [done|apply Hinv|done| |done].
    eapply Forall_impl; [apply wf_edges, Hinv|]. intros e []. done.
Qed.

End executor.

(** ** The JSON executor *)

Lemma wp_call_node (fn : node_fn (W := W) (J := J)) ctx Q E (s : rstate) :
  (forall z ctx' s', rs_graph s' = rs_graph s -> rs_json s' = rs_json s -> Q (z, ctx') s') ->
  wp (call_node fn ctx) Q E s.
Proof.
  intros HQ. unfold call_node. apply wp_bind. unfold wp, observe, with_world. simpl.
  destruct (fn ctx (rs_world s)) as [[z c] w]. by apply HQ.
Qed.

Lemma json_predicate_good g0 options v ctx :
  good_predicate g0 options v (json_edge_predicate ctx).
Proof.
  intros e p Hp s Q Hinv HQ. unfold json_edge_predicate in Hp.
  destruct (edge_json_predicate e) as [f|]; simpl in Hp; [|done]. injection Hp as <-.
  unfold wp, with_world. destruct (f ctx (rs_world s)) as [z w]. by apply HQ.
Qed.

Lemma json_iteration_spec g0 options v (s : rstate) :
  run_inv g0 s -> lv_current v ∈ names g0 ->
  (forall n, n ∈ nodes g0 -> is_Some (node_json_fn n)) ->
  wp (run_internal_iteration options v) (continues g0 options v) (leaves g0 options v) s.
Proof.
  intros Hinv Hcur Hfns. unfold run_internal_iteration.
  apply wp_bind, (step_limit_spec g0); [done..|intros Hran].
  apply wp_bind, (entry_interrupt_spec g0); [apply emit_json_spec|done..|].
  apply wp_bind, (find_current_spec g0); [done..|intros index n Hn Hname].
  apply wp_bind. unfold run_json_node.
  assert (Hfn : is_Some (node_json_fn n)).
  { apply Hfns. destruct Hinv as [_ (_ & _ & -> & _)]. by eapply list_elem_of_lookup_2. }
  destruct Hfn as [fn ->]. apply wp_bind. unfold wp at 1, get_json. cbv beta.
  apply wp_bind, wp_call_node. intros z ctx s1 Hg1 Hj1.
  apply wp_bind. unfold wp at 1, put_json. apply wp_ret. cbv zeta.
  set (s2 := mk_run (rs_graph s1) _ _ _ _).
  assert (Hinv2 : run_inv g0 s2) by by apply (inv_graph g0 s).
  clearbody s2. destruct (z <? 0); [by apply wp_result, leave_after|].
  apply wp_bind. unfold wp at 1, get_json. cbv beta.
  destruct (ctx_stop ctx || (0 <? z)); [by apply stop_spec; [|apply emit_json_spec|]|].
  apply wp_bind, choose_next_spec; [done|apply json_predicate_good|done|].
  intros next k s3 Hinv3 Hj3 Hin. destruct next as [next|].
  2: { destruct (0 <? k)%nat; by apply wp_result, leave_after. }
  apply wp_bind, (emit_json_spec g0); [done|intros s4 Hinv4 Hj4 Hc|intros s4 Hinv4].
  2: { by apply wp_bind, wp_result, leave_after. }
  apply wp_bind, wp_ret. destruct (turbo_graph_should_interrupt_before options next).
  - apply wp_result, leave_after; [done|]. split; [done|]. simpl.
    rewrite Hj4, Hj3. eauto.
  - apply wp_ret. split; [done|]. simpl. auto.
Qed.

(** ** The JSON-native executor *)

Lemma value_predicate_good g0 options v ctx last :
  (0 < default 0 (max_steps <$> options) -> lv_steps v < default 0 (max_steps <$> options)) ->
  good_predicate g0 options v (value_edge_predicate ctx last (size_incr (lv_steps v))).
Proof.
  intros Hran e p Hp s Q Hinv HQ. unfold value_edge_predicate in Hp.
  destruct (edge_json_value_predicate e) as [f|].
  { injection Hp as <-. unfold wp, with_world. destruct (f ctx (rs_world s)). by apply HQ. }
  destruct (edge_json_predicate e) as [f|]; [|done]. injection Hp as <-.
  apply wp_bind. unfold wp at 1, get_json. cbv beta.
  apply wp_bind. unfold wp at 1, alloc_m. destruct (alloc (rs_oracle s)) as [[] o]; cbn [negb].
  - unfold wp, with_world. simpl. destruct (f _ _). by apply HQ.
  - by apply wp_result, leave_after.
Qed.

Lemma value_node_spec g0 options v n (s : rstate) (Q : Z * turbo_graph_exec_ctx -> rstate -> Prop) :
  run_inv g0 s -> is_Some (node_json_fn n) \/ is_Some (node_json_value_fn n) ->
  (forall z ctx s', run_inv g0 s' -> Q (z, ctx) s') ->
  wp (run_value_node n v) Q (leaves g0 options v) s.
Proof.
  intros Hinv Hfn HQ. unfold run_value_node. apply wp_bind. unfold wp at 1, get_json. cbv beta.
  cbv zeta. destruct (node_json_value_fn n) as [fn|].
  { apply wp_bind, wp_call_node. intros z ctx s1 Hg1 Hj1.
    apply wp_bind. unfold wp at 1, put_json. apply wp_ret, HQ. by apply (inv_graph g0 s). }
  destruct Hfn as [[fn ->]|[? [=]]].
  apply wp_bind. unfold wp at 1, alloc_m. destruct (alloc (rs_oracle s)) as [[] o]; cbn [negb].
  2: { by apply wp_result, leave_before. }
  apply wp_bind, wp_call_node. intros z ctx s1 Hg1 Hj1.
  assert (Hinv1 : run_inv g0 s1) by by apply (inv_graph g0 s).
  apply wp_bind. unfold wp at 1, get_graph. cbv beta. apply wp_bind.
  apply (wp_mono _ (fun _ s' => s' = s1) _ (leaves g0 options v)).
  - destruct (ctx_next_node ctx) as [next|]; [|by apply wp_ret].
    destruct (i ← turbo_graph_find_node_index (rs_graph s1) next; nodes (rs_graph s1) !! i)
      as [m|] eqn:Ef; [by apply wp_ret|].
    apply wp_result, leave_before. split; [done|]. simpl. eexists. split; [done|].
    by eapply unfound_name.
  - intros ctx' s2 ->. apply wp_bind. unfold wp at 1, alloc_m.
    destruct (alloc (rs_oracle s1)) as [[] o2]; cbn [negb].
    + apply wp_bind. unfold wp at 1, put_json. by apply wp_ret, HQ.
    + by apply wp_result, leave_before.
  - done.
Qed.

Section value.
Context (g0 : graph) (options : roptions) (token : option (W -> salts_status * W))
  (sink : option (J -> W -> W)) (v : loop_vars).

Lemma check_cancelled_spec (s : rstate) (Q : unit -> rstate -> Prop) :
  run_inv g0 s -> lv_current v ∈ names g0 -> (forall s', run_inv g0 s' -> Q tt s') ->
  wp (check_cancelled options token v) Q (leaves g0 options v) s.
Proof.
  intros Hinv Hcur HQ. unfold check_cancelled. apply wp_bind, cancel_status_spec.
  intros s1 st Hg Hj _ Hst. assert (Hinv1 : run_inv g0 s1) by by apply (inv_graph g0 s).
  destruct Hst as [-> | Hst]; [by apply wp_ret, HQ|].
  rewrite decide_False by (destruct Hst as [->|[->| ->]]; discriminate).
  apply wp_bind. unfold wp at 1, get_json. cbv beta.
  apply wp_bind, (emit_json_value_spec g0); [done|intros s2 H2 Hj2 Hc|intros s2 H2].
  2: { by apply wp_bind, wp_result, leave_before. }
  apply wp_bind, wp_ret, wp_result, leave_before. split; [done|]. rewrite <- Hj2 in Hc.
  destruct Hst as [->|[->| ->]]; simpl; eauto.
Qed.

Lemma take_route_spec next last (s : rstate) :
  (0 < default 0 (max_steps <$> options) -> lv_steps v < default 0 (max_steps <$> options)) ->
  run_inv g0 s -> next ∈ names g0 ->
  wp (take_route options token sink next last (size_incr (lv_steps v)) (rs_json s))
    (continues g0 options v) (leaves g0 options v) s.
Proof.
  intros Hran Hinv Hin. unfold take_route.
  apply wp_bind, (emit_trace_spec g0); [done|intros s1 H1 Hj1|intros s1 H1].
  2: { by apply wp_bind, wp_result, leave_after. }
  apply wp_bind, wp_ret, wp_bind, (emit_json_value_spec g0);
    [done|intros s2 H2 Hj2 Hc|intros s2 H2].
  2: { by apply wp_bind, wp_result, leave_after. }
  rewrite <- Hj1, <- Hj2 in Hc. apply wp_bind, wp_ret, wp_bind, cancel_status_spec.
  intros s3 st Hg3 Hj3 Ht3 Hst. assert (H3 : run_inv g0 s3) by by apply (inv_graph g0 s2).
  assert (Hc3 : checkpointed options next (size_incr (lv_steps v)) (rs_json s3) s3)
    by (unfold checkpointed in *; by rewrite Hj3, Ht3, Hg3).
  apply wp_bind, wp_require; [intros -> |intros Hne].
  - destruct (turbo_graph_should_interrupt_before options next).
    + apply wp_result, leave_after; [done|]. split; [done|]. simpl. eauto.
    + apply wp_ret. split; [done|]. simpl. auto.
  - apply leave_after; [done|]. split; [done|].
    destruct Hst as [->|[->|[->| ->]]]; simpl; eauto. done.
Qed.

Lemma after_value_node_spec index name z ctx (s : rstate) :
  (0 < default 0 (max_steps <$> options) -> lv_steps v < default 0 (max_steps <$> options)) ->
  run_inv g0 s ->
  wp (after_value_node options token sink index name (size_incr (lv_steps v)) z ctx)
    (continues g0 options v) (leaves g0 options v) s.
Proof.
  intros Hran Hinv. unfold after_value_node. cbv zeta. destruct (z <? 0).
  { apply wp_bind, (emit_trace_spec g0); [done|..]; intros; by apply wp_result, leave_after. }
  apply wp_bind. unfold wp at 1, get_json. cbv beta. destruct (_ || _).
  - apply wp_bind, (emit_trace_spec g0); [done|intros s1 H1 Hj1|intros s1 H1].
    2: { by apply wp_bind, wp_result, leave_after. }
    apply wp_bind, wp_ret. rewrite <- Hj1.
    by apply stop_spec; [|apply emit_json_value_spec|].
  - apply wp_bind, (emit_trace_spec g0); [done|intros s1 H1 Hj1|intros s1 H1].
    2: { by apply wp_bind, wp_result, leave_after. }
    apply wp_bind, wp_ret, wp_bind, choose_next_spec; [done|by apply value_predicate_good|done|].
    intros next k s2 H2 Hj2 Hin. destruct next as [next|].
    + rewrite <- Hj1, <- Hj2. apply take_route_spec; auto.
    + unfold complete_run. destruct (0 <? k)%nat; [by apply wp_result, leave_after|].
      apply wp_bind, (emit_trace_spec g0); [done|..]; intros; apply wp_bind;
        [apply wp_ret|]; by apply wp_result, leave_after.
Qed.

Lemma value_iteration_spec (s : rstate) :
  run_inv g0 s -> lv_current v ∈ names g0 ->
  wp (run_value_iteration options token sink v) (continues g0 options v) (leaves g0 options v) s.
Proof.
  intros Hinv Hcur. unfold run_value_iteration.
  apply wp_bind, check_cancelled_spec; [done..|intros s1 H1].
  apply wp_bind, (step_limit_spec g0); [done..|intros Hran].
  apply wp_bind, (entry_interrupt_spec g0); [apply emit_json_value_spec|done..|].
  apply wp_bind, (find_current_spec g0); [done..|intros index n Hn Hname].
  apply wp_bind, (emit_trace_spec g0); [done|intros s2 H2 Hj2|intros s2 H2].
  2: { by apply wp_bind, wp_result, leave_before. }
  apply wp_bind, wp_ret, wp_bind, value_node_spec; [done| |].
  - destruct H1 as [Hwf _]. by apply (proj1 (Forall_lookup _ _) (wf_callbacks _ Hwf) _ _ Hn).
  - intros z ctx s3 H3. by apply after_value_node_spec.
Qed.

End value.

(** ** The loop *)

Section loop.
Context (g0 : graph) (options : roptions) (iteration : loop_vars -> runs loop_vars).
#[local] Abbreviation limit := (default 0 (max_steps <$> options)).
Hypothesis iteration_spec : forall v (s : rstate), run_inv g0 s -> lv_current v ∈ names g0 ->
  wp (iteration v) (continues g0 options v) (leaves g0 options v) s.

Lemma while_contract fuel v (s : rstate) r s' :
  run_inv g0 s -> lv_current v ∈ names g0 ->
  while_run iteration fuel v s = (Some r, s') -> result_contract g0 options r s'.
Proof.
  revert v s. induction fuel as [|fuel IH]; intros v s Hinv Hcur; simpl; [done|].
  pose proof (iteration_spec v s Hinv Hcur) as Hit. unfold wp in Hit.
  destruct (iteration v s) as [[r1|v1] s1].
  - intros [= <- <-]. apply Hit.
  - destruct Hit as (H1 & H2 & _). by apply IH.
Qed.

(** The step limit is a measure: the loop returns within [limit - steps + 1]
    iterations and never counts past the limit. *)
Lemma while_returns fuel v (s : rstate) :
  run_inv g0 s -> lv_current v ∈ names g0 -> 0 < limit <= SIZE_MAX -> 0 <= lv_steps v ->
  (Z.to_nat (limit - lv_steps v) < fuel)%nat ->
  exists r s', while_run iteration fuel v s = (Some r, s') /\
    lv_steps v <= res_steps r <= Z.max (lv_steps v) limit.
Proof.
  intros Hinv Hcur Hlim. revert v s Hinv Hcur.
  induction fuel as [|fuel IH]; intros v s Hinv Hcur Hpos Hfuel; [lia|]. simpl.
  pose proof (iteration_spec v s Hinv Hcur) as Hit. unfold wp in Hit.
  assert (Hsz : lv_steps v < limit -> size_incr (lv_steps v) = lv_steps v + 1)
    by (intros; apply u64_small; unfold SIZE_MAX, UINT64_MAX in *; lia).
  destruct (iteration v s) as [[r1|v1] s1].
  - exists r1, s1. split; [done|]. destruct Hit as [_ [-> | [-> Hl]]]; [lia|].
    rewrite Hsz by (apply Hl; lia). specialize (Hl ltac:(lia)). lia.
  - destruct Hit as (H1 & H2 & Hst & Hl). specialize (Hl ltac:(lia)). rewrite Hsz in Hst by done.
    destruct (IH v1 s1 H1 H2 ltac:(lia) ltac:(lia)) as (r & s' & -> & Hb).
    exists r, s'. split; [done|]. lia.
Qed.

End loop.

Lemma run_value_result (g : graph) (options : roptions) token sink fuel start steps
    (s : rstate) r s' :
  graph_wf (rs_graph s) -> same_tables g (rs_graph s) -> start ∈ names g ->
  turbo_graph_run_internal_json_value options token sink fuel (Some start) steps s = (Some r, s') ->
  result_contract g options r s'.
Proof.
  intros Hwf Hs Hin. apply while_contract; [|by split|done].
  intros v s1 H1 H2. by apply value_iteration_spec.
Qed.

(** C3. Termination under a step limit: with one unit of fuel per step left, plus
    one, both executors return, and the step count never passes the limit (or
    the count the run was resumed with, when that was already past it). *)
Theorem run_terminates (g : graph) (options : roptions) token sink start steps (s : rstate) :
  graph_wf (rs_graph s) -> same_tables g (rs_graph s) -> start ∈ names g ->
  0 < default 0 (max_steps <$> options) <= SIZE_MAX -> 0 <= steps ->
  let fuel := S (Z.to_nat (default 0 (max_steps <$> options) - steps)) in
  (exists r s',
     turbo_graph_run_internal_json_value options token sink fuel (Some start) steps s =
       (Some r, s') /\
     steps <= res_steps r <= Z.max steps (default 0 (max_steps <$> options))) /\
  ((forall n, n ∈ nodes g -> is_Some (node_json_fn n)) ->
   exists r s',
     turbo_graph_run_internal fuel (Some start) steps options s = (Some r, s') /\
     steps <= res_steps r <= Z.max steps (default 0 (max_steps <$> options))).
Proof.
  intros Hwf Hs Hin Hlim Hpos fuel. split; [|intros Hfns];
    unfold turbo_graph_run_internal_json_value, turbo_graph_run_internal;
    match goal with |- context [while_run _ _ ?x _] =>
      apply (while_returns g options _) with (v := x) end; subst fuel; simpl; try done; try lia.
  - intros v s1 H1 H2. by apply value_iteration_spec.
  - intros v s1 H1 H2. by apply json_iteration_spec.
Qed.

(** ** Frames: the trace a run starts with, and its memory *)

Definition pre (t : list observation) (s : rstate) : rstate :=
  mk_run (rs_graph s) (rs_oracle s) (rs_world s) (t ++ rs_trace s) (rs_json s).

(** A computation only appends to the trace, only consumes the oracle, and while
    memory lasts remembers no topology identifier but the graph's. *)
Definition framed {A} (m : runs A) : Prop := forall s t,
  m (pre t s) = ((m s).1, pre t (m s).2) /\ (forall x, x ∈ rs_oracle (m s).2 -> x ∈ rs_oracle s) /\
  (plenty (rs_oracle s) -> cache_ok (rs_graph s) -> cache_ok (rs_graph (m s).2)).

Lemma plenty_tail (o o' : oracle) : (forall x, x ∈ o' -> x ∈ o) -> plenty o -> plenty o'.
Proof. unfold plenty. auto. Qed.

Lemma framed_bind {A B} (m : runs A) (k : A -> runs B) :
  framed m -> (forall a, framed (k a)) -> framed (m ≫= k).
Proof.
  intros Hm Hk s t. destruct (Hm s t) as (Ht & Ho & Hc).
  unfold mbind, run_bind. rewrite Ht. destruct (m s) as [[r|a] s']; simpl in *; [done|].
  destruct (Hk a s' t) as (Ht' & Ho' & Hc'). split; [done|]. split; [eauto|].
  intros Hp Hok. apply Hc'; [by eapply plenty_tail|by apply Hc].
Qed.

Lemma framed_with_oracle {A} (f : oracle -> A * oracle) :
  (forall o x, x ∈ (f o).2 -> x ∈ o) -> framed (with_oracle f).
Proof.
  intros Hf s t. unfold with_oracle. simpl. specialize (Hf (rs_oracle s)).
  by destruct (f (rs_oracle s)).
Qed.

Lemma framed_with_world {A} (f : W -> A * W) : framed (with_world f).
Proof. intros s t. unfold with_world. simpl. by destruct (f (rs_world s)). Qed.

Lemma framed_ret {A} (a : A) : framed (mret a : runs A).
Proof. by intros s t. Qed.
Lemma framed_result {A} st l n k : framed (turbo_graph_result_init st l n k : runs A).
Proof. by intros s t. Qed.
Lemma framed_require st l n k : framed (require_ok st l n k : runs unit).
Proof. intros s t. unfold require_ok. by case_decide. Qed.
Lemma framed_observe ob f : framed (observe ob f : runs unit).
Proof. intros s t. split; [|done]. unfold observe, pre. simpl. by rewrite app_assoc. Qed.
Lemma framed_get_graph : framed (get_graph : runs _).
Proof. by intros s t. Qed.
Lemma framed_get_json : framed (get_json : runs J).
Proof. by intros s t. Qed.
Lemma framed_put_json j : framed (put_json j : runs unit).
Proof. by intros s t. Qed.

Lemma framed_alloc : framed (alloc_m : runs bool).
Proof.
  intros s t. unfold alloc_m. simpl. destruct (alloc (rs_oracle s)) as [b o] eqn:E. simpl.
  split; [done|]. split; [by eapply alloc_tail|done].
Qed.

#[local] Hint Resolve framed_bind framed_with_world framed_ret framed_result framed_require
  framed_observe framed_get_graph framed_get_json framed_put_json framed_alloc : run_wp.

(** Oracle consumers give back a tail. *)
Ltac tails :=
  repeat match goal with
    | H : alloc ?o = (_, ?o') |- _ => pose proof (alloc_tail _ _ _ H); clear H
    | H : alloc_n _ ?o = (_, ?o') |- _ => pose proof (alloc_n_tail _ _ _ _ H); clear H
    end; eauto 20.

Lemma set_field_tail (ob : J) k v o x :
  x ∈ (turbo_event_set_string_field ob k v o).2 -> x ∈ o.
Proof.
  unfold turbo_event_set_string_field, turbo_runtime_json_object_set.
  destruct (alloc o) as [[] o1] eqn:?; cbn [negb]; [|tails].
  destruct (negb _); [tails|]. destruct (alloc o1) as [[] o2] eqn:?; simpl; tails.
Qed.

Lemma set_fields_tail fs (ob : J) o x :
  x ∈ (event_set_fields ob fs o).2 -> x ∈ o.
Proof.
  revert ob o. induction fs as [|[k v] fs IH]; intros ob o; simpl; [done|].
  pose proof (set_field_tail ob k v o x) as Ht.
  destruct (turbo_event_set_string_field ob k v o) as [[[] ob'] o1]; simpl in *; eauto.
Qed.

Lemma trace_event_tail n d p st o x :
  x ∈ (turbo_event_trace_create_json_value (J := J) n d p st o).2 -> x ∈ o.
Proof.
  unfold turbo_event_trace_create_json_value.
  destruct (alloc o) as [[] o1] eqn:E1; cbn [negb]; [|tails].
  destruct (alloc o1) as [[] o2] eqn:E2; cbn [negb]; [|tails].
  match goal with |- context [event_set_fields ?ob ?fs o2] =>
    pose proof (set_fields_tail fs ob o2 x) as Ht;
    destruct (event_set_fields ob fs o2) as [[ok ev] o3] end.
  destruct ok; cbn [negb]; [|tails].
  unfold turbo_runtime_json_object_set. simpl in Ht.
  destruct (negb _); [tails|]. destruct (alloc o3) as [[] o4] eqn:E3; simpl; tails.
Qed.

Lemma checkpoint_create_tail next steps (state : option J) o x :
  x ∈ (turbo_graph_checkpoint_create next steps state o).2 -> x ∈ o.
Proof.
  unfold turbo_graph_checkpoint_create, turbo_graph_clone_json.
  destruct next as [next|]; [|done].
  destruct (alloc o) as [[] o1] eqn:?; cbn [negb]; [|tails].
  destruct (alloc o1) as [[] o2] eqn:?; cbn [negb]; [|tails].
  destruct (alloc o2) as [[] o3] eqn:?; simpl; tails.
Qed.

Lemma topology_id_tail (g : graph) o x : x ∈ (turbo_graph_topology_id g o).2 -> x ∈ o.
Proof.
  unfold turbo_graph_topology_id. destruct (topology_id g); [done|].
  pose proof (topology_build_consumes g o x) as Ht. destruct (turbo_graph_topology_id_build g o) as [[t|] o']; done.
Qed.

Lemma framed_set_topology c : framed (set_topology_m c : runs _).
Proof.
  intros s t. unfold set_topology_m, turbo_graph_checkpoint_set_topology. simpl.
  pose proof (topology_id_tail (rs_graph s) (rs_oracle s)) as Ht.
  pose proof (topology_id_caches (rs_graph s) (rs_oracle s)) as Hc.
  destruct (turbo_graph_topology_id (rs_graph s) (rs_oracle s)) as [[[id|] g'] o]; simpl in *.
  - destruct (alloc o) as [[] o'] eqn:E; cbn [negb]; simpl; (split; [done|]); (split; [tails|]); intros; by eapply Hc.
  - split; [done|]. split; [done|]. intros. by eapply Hc.
Qed.

#[local] Hint Resolve framed_set_topology : run_wp.

Ltac frames :=
  repeat first
    [ apply framed_bind; [|intros ?]
    | solve [eauto with run_wp]
    | apply framed_with_oracle; intros ? ?; solve [eauto using trace_event_tail,
        checkpoint_create_tail]
    | case_decide
    | match goal with |- framed (match ?x with _ => _ end) => destruct x end
    | match goal with |- framed (let _ := _ in _) => cbv zeta end ].

Lemma framed_emit_trace sink a b c st : framed (turbo_graph_emit_trace_event sink a b c st : runs _).
Proof. unfold turbo_graph_emit_trace_event. frames. Qed.

Lemma framed_emit_json (options : roptions) n k j :
  framed (turbo_graph_emit_checkpoint_json options n k j).
Proof. unfold turbo_graph_emit_checkpoint_json. frames. Qed.

Lemma clone_json_tail (state : option J) o x :
  x ∈ (turbo_graph_json_value_state_to_json state o).2 -> x ∈ o.
Proof.
  unfold turbo_graph_json_value_state_to_json, turbo_graph_clone_json.
  destruct (alloc o) as [[] o1] eqn:?; simpl; tails.
Qed.

Lemma framed_emit_value (options : roptions) n k j :
  framed (turbo_graph_emit_checkpoint_json_value options n k j).
Proof.
  unfold turbo_graph_emit_checkpoint_json_value.
  destruct (o ← options; checkpoint_cb o); [|apply framed_ret].
  apply framed_bind; [apply framed_with_oracle; intros; by eapply clone_json_tail|].
  intros [j'|]; [apply framed_emit_json|apply framed_ret].
Qed.

Lemma framed_cancel token : framed (turbo_graph_cancel_status token : runs _).
Proof. unfold turbo_graph_cancel_status. frames. Qed.

Lemma framed_call (fn : node_fn (W := W) (J := J)) ctx : framed (call_node fn ctx).
Proof. unfold call_node. frames. Qed.

#[local] Hint Resolve framed_emit_trace framed_emit_value framed_cancel framed_call : run_wp.

Lemma framed_route p (g : graph) i last k l c :
  (forall e m, p e = Some m -> framed m) -> framed (route p g i last k l c).
Proof.
  intros Hp. revert c. induction l as [|e l IH]; intros c; simpl; [apply framed_ret|].
  destruct (negb _); [done|]. destruct (p e) as [m|] eqn:E; [|apply framed_ret].
  apply framed_bind; [by eapply Hp|]. intros z. frames.
Qed.

Lemma framed_value_predicate ctx last k e m :
  value_edge_predicate ctx last k e = Some m -> framed (m : runs Z).
Proof.
  unfold value_edge_predicate. intros Hm. repeat case_match; simplify_eq; frames.
Qed.

Lemma framed_iteration (options : roptions) token sink v :
  framed (run_value_iteration options token sink v).
Proof.
  unfold run_value_iteration, check_cancelled, check_step_limit, check_entry_interrupt,
    find_current, run_value_node. cbv zeta. frames.
  unfold after_value_node, stop_after_node, choose_next, complete_run, take_route.
  cbv zeta. frames; apply framed_route; intros; by eapply framed_value_predicate.
Qed.

Lemma framed_while (iteration : loop_vars -> runs loop_vars) fuel v (s : rstate) t :
  (forall v, framed (iteration v)) ->
  while_run iteration fuel v (pre t s) =
    ((while_run iteration fuel v s).1, pre t (while_run iteration fuel v s).2) /\
  (forall x, x ∈ rs_oracle (while_run iteration fuel v s).2 -> x ∈ rs_oracle s) /\
  (plenty (rs_oracle s) -> cache_ok (rs_graph s) -> cache_ok (rs_graph (while_run iteration fuel v s).2)).
Proof.
  intros Hf. revert v s. induction fuel as [|fuel IH]; intros v s; simpl; [done|].
  destruct (Hf v s t) as (-> & Ho & Hc). destruct (iteration v s) as [[r|v'] s']; simpl in *; [done|].
  destruct (IH v' s') as (-> & Ho' & Hc'). split; [done|]. split; [eauto|].
  intros Hp Hok. apply Hc'; [by eapply plenty_tail|by apply Hc].
Qed.

(** C2. Every result of the JSON-native executor, from any node of a well-formed
    graph: the run left the graph's tables alone; a result the caller can resume
    from (interrupted, cancelled, past the deadline) names an existing node and,
    with a checkpoint callback, the last thing the caller was given is the
    checkpoint of that node, step count and state, bound to the topology identifier
    the graph remembers; a finished run has no next node; a node reported missing is
    missing.  While memory lasts that identifier is the graph's own. *)
Theorem run_value_contract (g : graph) (options : roptions) token sink fuel start steps
    (s : rstate) r s' :
  graph_wf (rs_graph s) -> same_tables g (rs_graph s) -> start ∈ names g ->
  turbo_graph_run_internal_json_value options token sink fuel (Some start) steps s = (Some r, s') ->
  result_contract g options r s' /\
  (plenty (rs_oracle s) -> cache_ok (rs_graph s) -> forall t, topology_id (rs_graph s') = Some t ->
     t = json_serialize (graph_document g)).
Proof.
  intros Hwf Hs Hin Hrun. pose proof (run_value_result g _ _ _ _ _ _ _ _ _ Hwf Hs Hin Hrun) as Hc. split; [done|].
  intros Hp Hok t Ht. destruct Hc as [[_ Htab] _]. rewrite (same_tables_document _ _ Htab).
  destruct (framed_while _ fuel (mk_loop start None steps (default false (skip_initial_interrupt <$> options))) s []
    (framed_iteration options token sink)) as (_ & _ & Hk).
  unfold turbo_graph_run_internal_json_value in Hrun. simpl in Hrun. rewrite Hrun in Hk. by apply (Hk Hp Hok).
Qed.

(** ** Interrupting and resuming *)

(** Results up to the last node that ran: a resumed run has not seen it. *)
Definition same_but_last (r1 r2 : turbo_graph_run_result) : Prop :=
  res_status r1 = res_status r2 /\ res_next_node r1 = res_next_node r2 /\
  res_steps r1 = res_steps r2.

Definition rel_last {A} (m1 m2 : runs A) : Prop := forall s,
  (m1 s).2 = (m2 s).2 /\
  match (m1 s).1, (m2 s).1 with
  | inl r1, inl r2 => same_but_last r1 r2
  | inr a1, inr a2 => a1 = a2
  | _, _ => False
  end.

Lemma rel_last_refl {A} (m : runs A) : rel_last m m.
Proof. intros s. split; [done|]. by destruct (m s) as [[r|a] s']. Qed.

Lemma rel_last_bind {A B} (m1 m2 : runs A) (k1 k2 : A -> runs B) :
  rel_last m1 m2 -> (forall a, rel_last (k1 a) (k2 a)) -> rel_last (m1 ≫= k1) (m2 ≫= k2).
Proof.
  intros Hm Hk s. destruct (Hm s) as [Hs Hr]. unfold mbind, run_bind.
  destruct (m1 s) as [[r1|a1] s1], (m2 s) as [[r2|a2] s2]; simpl in *; subst; try done.
  apply Hk.
Qed.

Lemma rel_last_result {A} st l1 l2 n k :
  rel_last (turbo_graph_result_init st l1 n k : runs A) (turbo_graph_result_init st l2 n k).
Proof. by intros s. Qed.

Lemma rel_last_require st l1 l2 n k :
  rel_last (require_ok st l1 n k : runs unit) (require_ok st l2 n k).
Proof. intros s. unfold require_ok. by case_decide. Qed.

#[local] Hint Resolve rel_last_result rel_last_require : run_wp.

Ltac rels :=
  repeat first
    [ solve [eauto with run_wp] | apply rel_last_refl
    | apply rel_last_bind; [|intros ?]
    | match goal with
      | |- rel_last (if ?x then _ else _) _ => destruct x
      | |- rel_last (match ?x with _ => _ end) _ => destruct x
      end ].

(** Two option blocks that differ in the interrupts only. *)
Context (max : Z) (start_at : option string) (l : list (option string))
  (cb : turbo_graph_checkpoint (J := J) -> W -> W).
Context (token : option (W -> salts_status * W)) (sink : option (J -> W -> W)).

Definition interrupting (skip : bool) : roptions :=
  Some (mk_options max start_at (Some l) skip (Some cb)).
Definition straight (skip : bool) : roptions :=
  Some (mk_options max start_at None skip (Some cb)).

#[local] Abbreviation stops := (turbo_graph_should_interrupt_before (interrupting false)).

(** Without interrupts neither the last node nor the skip flag matters. *)
Lemma last_iteration b n l1 l2 k b1 b2 :
  rel_last (run_value_iteration (straight b) token sink (mk_loop n l1 k b1))
    (run_value_iteration (straight b) token sink (mk_loop n l2 k b2)).
Proof.
  unfold run_value_iteration, check_cancelled, check_step_limit, check_entry_interrupt,
    find_current, run_value_node, turbo_graph_should_interrupt_before. simpl.
  rewrite !andb_false_r. rels.
Qed.

(** With interrupts an iteration does the same as without, except that it may
    leave where the other continues. *)
Definition rel_interrupt (m1 m2 : runs loop_vars) : Prop := forall s,
  (m1 s = m2 s /\ forall v s', m1 s = (inr v, s') -> stops (lv_current v) = false) \/
  (exists v s', m2 s = (inr v, s') /\
     m1 s = (inl (mk_result TURBO_GRAPH_EXEC_INTERRUPTED (lv_last v) (Some (lv_current v))
                    (lv_steps v)), s')).

Lemma rel_interrupt_bind {A} (m : runs A) (k1 k2 : A -> runs loop_vars) :
  (forall a, rel_interrupt (k1 a) (k2 a)) -> rel_interrupt (m ≫= k1) (m ≫= k2).
Proof.
  intros Hk s. unfold mbind, run_bind. destruct (m s) as [[r|a] s'].
  - left. split; [done|]. intros v s'' [=].
  - apply Hk.
Qed.

(** Computations that never continue. *)
Definition leaving (m : runs loop_vars) : Prop := forall s, exists r, (m s).1 = inl r.

Lemma rel_interrupt_leaving m : leaving m -> rel_interrupt m m.
Proof.
  intros Hl s. left. split; [done|]. intros v s' Hm. destruct (Hl s) as [r Hr].
  by rewrite Hm in Hr.
Qed.

Lemma leaving_result st la n k : leaving (turbo_graph_result_init st la n k).
Proof. intros s. by eexists. Qed.

Lemma leaving_bind {A} (m : runs A) (k : A -> runs loop_vars) :
  (forall a, leaving (k a)) -> leaving (m ≫= k).
Proof.
  intros Hk s. unfold mbind, run_bind. destruct (m s) as [[r|a] s']; [by eexists|apply Hk].
Qed.

Lemma leaving_stop emit (options : roptions) ctx la k j :
  leaving (stop_after_node emit options ctx la k j).
Proof.
  unfold stop_after_node. destruct (ctx_next_node ctx); [|apply leaving_result].
  apply leaving_bind. intros g. destruct (i ← _; _); [|apply leaving_result].
  cbv zeta. do 2 (apply leaving_bind; intros ?). apply leaving_result.
Qed.

Lemma leaving_complete name n k : leaving (complete_run sink name n k).
Proof.
  unfold complete_run. destruct (_ <? _)%nat; [apply leaving_result|].
  do 2 (apply leaving_bind; intros ?). apply leaving_result.
Qed.

Lemma interrupt_iteration b b' v :
  lv_skip v = true \/ stops (lv_current v) = false ->
  rel_interrupt (run_value_iteration (interrupting b) token sink v)
    (run_value_iteration (straight b') token sink v).
Proof.
  intros Hv. unfold run_value_iteration.
  do 2 (apply (rel_interrupt_bind _ _ _); intros _).
  assert (Hi : check_entry_interrupt turbo_graph_emit_checkpoint_json_value (interrupting b) v =
               check_entry_interrupt turbo_graph_emit_checkpoint_json_value (straight b') v).
  { unfold check_entry_interrupt. destruct Hv as [-> | Hs]; [done|].
    change (turbo_graph_should_interrupt_before (interrupting b) (lv_current v))
      with (stops (lv_current v)).
    change (turbo_graph_should_interrupt_before (straight b') (lv_current v)) with false.
    by rewrite Hs, !andb_false_r. }
  rewrite Hi. apply rel_interrupt_bind. intros _. apply rel_interrupt_bind. intros [index n].
  do 2 (apply rel_interrupt_bind; intros ?). apply rel_interrupt_bind. intros [z ctx].
  unfold after_value_node. cbv zeta. destruct (z <? 0).
  { apply rel_interrupt_leaving, leaving_bind. intros ?. apply leaving_result. }
  apply rel_interrupt_bind. intros j. destruct (_ || _).
  { do 2 (apply rel_interrupt_bind; intros ?). apply rel_interrupt_leaving, leaving_stop. }
  do 2 (apply rel_interrupt_bind; intros ?). apply rel_interrupt_bind. intros [[next|] k].
  2: { apply rel_interrupt_leaving, leaving_complete. }
  unfold take_route. do 6 (apply (rel_interrupt_bind _ _ _); intros ?).
  change (turbo_graph_should_interrupt_before (interrupting b) next) with (stops next).
  change (turbo_graph_should_interrupt_before (straight b') next) with false. cbn iota.
  intros s. destruct (stops next) eqn:E.
  - right. do 2 eexists. split; reflexivity.
  - left. split; [done|]. by intros v' s' [= <- <-].
Qed.

Lemma while_interrupt fuel b b' v (s : rstate) r s' :
  lv_skip v = true \/ stops (lv_current v) = false ->
  while_run (run_value_iteration (interrupting b) token sink) fuel v s = (Some r, s') ->
  while_run (run_value_iteration (straight b') token sink) fuel v s = (Some r, s') \/
  exists v' k, (k <= fuel)%nat /\
    r = mk_result TURBO_GRAPH_EXEC_INTERRUPTED (lv_last v') (Some (lv_current v')) (lv_steps v') /\
    forall f, while_run (run_value_iteration (straight b') token sink) (k + f) v s =
              while_run (run_value_iteration (straight b') token sink) f v' s'.
Proof.
  revert v s. induction fuel as [|fuel IH]; intros v s Hv; simpl; [done|].
  destruct (interrupt_iteration b b' v Hv s) as [[Heq Hnext]|(v' & s1 & Hd & ->)].
  - rewrite <- Heq.
    destruct (run_value_iteration (interrupting b) token sink v s) as [[r1|v1] s1] eqn:E;
      [by left|]. intros Hw. destruct (IH v1 s1 ltac:(right; by eapply Hnext) Hw)
      as [Hl|(v' & k & Hk & -> & Hf)]; [by left|].
    right. exists v', (S k). split; [lia|]. split; [done|]. intros f. simpl. by rewrite <- Heq, Hf.
  - intros [= <- <-]. right. exists v', 1%nat. split; [lia|]. split; [done|].
    intros f. simpl. by rewrite Hd.
Qed.

Lemma while_last fuel b n l1 l2 k b1 b2 (s : rstate) :
  let w1 := while_run (run_value_iteration (straight b) token sink) fuel (mk_loop n l1 k b1) s in
  let w2 := while_run (run_value_iteration (straight b) token sink) fuel (mk_loop n l2 k b2) s in
  w1.2 = w2.2 /\ option_Forall2 same_but_last w1.1 w2.1.
Proof.
  destruct fuel as [|fuel]; simpl; [split; [done|constructor]|].
  destruct (last_iteration b n l1 l2 k b1 b2 s) as [Hs Hr].
  destruct (run_value_iteration _ _ _ (mk_loop n l1 k b1) s) as [[r1|v1] s1],
    (run_value_iteration _ _ _ (mk_loop n l2 k b2) s) as [[r2|v2] s2]; simpl in *; subst;
    try done; [split; [done|by constructor]|].
  split; [done|]. destruct (while_run _ _ v2 s2).1; constructor. done.
Qed.

(** C1. Interrupting and resuming is invisible.  When an interrupt point pauses a
    run that has a checkpoint callback, the last checkpoint the caller received
    can be resumed on the same graph and world, and the run it resumes to does
    exactly what the uninterrupted run would have done from there: the same
    world, state and graph, the same further node calls, checkpoints and
    events, the same result but for the last node's name.  (Or the pause is not
    the interrupt point's: a node asked for it, and the uninterrupted run stops
    there as well.) *)
Theorem interrupt_resume_seamless (g : graph) b b' fuel start steps (s0 : rstate) r1 s1 :
  (forall a c : J, json_equiv a c -> a = c) ->
  graph_wf (rs_graph s0) -> same_tables g (rs_graph s0) -> start ∈ names g ->
  rs_oracle s0 = [] -> b = true \/ stops start = false ->
  turbo_graph_run_internal_json_value (interrupting b) token sink fuel (Some start) steps s0 =
    (Some r1, s1) ->
  res_status r1 = TURBO_GRAPH_EXEC_INTERRUPTED ->
  turbo_graph_run_internal_json_value (straight b) token sink fuel (Some start) steps s0 =
    (Some r1, s1) \/
  exists before c k, rs_trace s1 = before ++ [ObsCheckpoint c] /\ forall fuel2,
    let whole := turbo_graph_run_internal_json_value (straight b) token sink (k + fuel2)
                   (Some start) steps s0 in
    let resumed := turbo_graph_run_checkpoint_json_value_stream_controlled fuel2
                     (Some (rs_graph s1)) (Some c) (straight b') token sink [] (rs_world s1) in
    option_Forall2 same_but_last whole.1 (out_result resumed) /\
    exists s2, out_run resumed = Some s2 /\ whole.2 = pre (rs_trace s1) s2.
Proof.
  intros Heq Hwf Htab Hin Ho Hskip Hrun Hst.
  pose proof (run_value_result g _ _ _ _ _ _ _ _ _ Hwf Htab Hin Hrun) as [Hinv Hc].
  unfold turbo_graph_run_internal_json_value in Hrun. simpl in Hrun.
  assert (Hnil : rs_oracle s1 = []).
  { destruct (framed_while _ fuel (mk_loop start None steps b) s0 []
      (framed_iteration (interrupting b) token sink)) as (_ & Ht & _). rewrite Hrun in Ht.
    simpl in Ht. destruct (rs_oracle s1) as [|x o]; [done|]. specialize (Ht x ltac:(by left)).
    rewrite Ho in Ht. by apply not_elem_of_nil in Ht. }
  destruct (while_interrupt fuel b b (mk_loop start None steps b) s0 r1 s1 Hskip Hrun) as [?|(v & k & _ & -> & Hf)];
    [by left|right].
  simpl in Hc. destruct Hc as (n & [= <-] & Hn & Hcp).
  destruct (Hcp ltac:(by eexists)) as (before & c & Ht & Hnx & Hks & Hj & [t Htop] & Hcache).
  rewrite Htop in Hcache. symmetry in Hcache.
  exists before, c, k. split; [done|]. intros fuel2. cbv zeta.
  unfold turbo_graph_run_checkpoint_json_value_stream_controlled, admit_checkpoint,
    turbo_graph_checkpoint_matches_graph, turbo_graph_topology_id.
  rewrite Htop, Hcache, strcmp_refl. simpl.
  assert (json_clone (cp_state c) = rs_json s1) as ->
    by (rewrite (Heq _ _ (json_clone_equiv _)); by apply Heq).
  rewrite Hnx, Hks.
  assert (Hs1 : pre (rs_trace s1) (mk_run (rs_graph s1) [] (rs_world s1) [] (rs_json s1)) = s1)
    by (unfold pre; simpl; rewrite app_nil_r, <- Hnil; by destruct s1).
  destruct (while_last fuel2 b (lv_current v) (lv_last v) None (lv_steps v) (lv_skip v) b' s1)
    as [W2 W1]. rewrite <- Hs1 in W1, W2 at 2.
  replace (mk_loop (lv_current v) (lv_last v) (lv_steps v) (lv_skip v)) with v in W1, W2
    by by destruct v.
  rewrite Hf.
  pose proof (framed_while (run_value_iteration (straight b) token sink) fuel2
    (mk_loop (lv_current v) None (lv_steps v) b')
    (mk_run (rs_graph s1) [] (rs_world s1) [] (rs_json s1)) (rs_trace s1)
    (framed_iteration (straight b) token sink)) as (Hfr & _).
  rewrite Hfr in W1, W2. simpl in W1, W2.
  change (run_value_iteration (straight b')) with (run_value_iteration (straight b)).
  destruct (while_run _ fuel2 (mk_loop (lv_current v) None (lv_steps v) b') _) as [r2 s2].
  rewrite Hs1 in W1. simpl. split; [done|]. exists s2. split; [done|]. exact W2.
Qed.

End graph_run.

(** ** Concrete runs *)

Module GraphRunDemo.
Import JsonTree GraphRuns.

Definition seen (c : turbo_graph_checkpoint (J := jtree)) (w : Z) : Z := w + 100.
Definition start_state : run_state (W := Z) (J := jtree) := mk_run agent [] 0 [] (JObj []).
Definition pausing := interrupting 10 None [Some "act"] seen true.

(** The agent's two nodes, paused before the second. *)
Definition paused_run :=
  turbo_graph_run_internal_json_value pausing None None 5 (Some "plan") 0 start_state.
Definition paused_result : turbo_graph_run_result :=
  mk_result TURBO_GRAPH_EXEC_INTERRUPTED (Some "plan") (Some "act") 1.

Lemma paused_run_result :
  turbo_graph_run_internal_json_value pausing None None 5 (Some "plan") 0 start_state =
  (Some paused_result, paused_run.2).
Proof. vm_compute. reflexivity. Defined.

Lemma agent_tables : same_tables agent (rs_graph start_state).
Proof. unfold start_state. cbn [rs_graph]. repeat split. Defined.

Lemma plan_in : "plan" ∈ names agent.
Proof. by left. Defined.

Lemma agent_cache : cache_ok (rs_graph start_state).
Proof. intros t Ht. vm_compute in Ht. discriminate Ht. Defined.

Lemma run_value_contract_witness :
  result_contract agent pausing paused_result paused_run.2 /\
  forall t, topology_id (rs_graph paused_run.2) = Some t -> t = json_serialize (graph_document agent).
Proof.
  destruct (run_value_contract agent pausing None None 5 "plan" 0 start_state paused_result paused_run.2) as [Hc Ht];
    [exact agent_wf|exact agent_tables|exact plan_in|exact paused_run_result|].
  split; [exact Hc|]. apply Ht; [apply plenty_nil|exact agent_cache].
Defined.

Lemma run_terminates_witness :
  exists r s, turbo_graph_run_internal_json_value pausing None None 11 (Some "plan") 0 start_state
    = (Some r, s) /\ 0 <= res_steps r <= 10.
Proof.
  destruct (run_terminates agent pausing None None "plan" 0 start_state agent_wf agent_tables
              plan_in) as [(r & s & Hr & Hb) _]; [by split|done|].
  exists r, s. split; [exact Hr|exact Hb].
Defined.

Lemma interrupt_resume_seamless_witness :
  exists before c k, rs_trace paused_run.2 = before ++ [ObsCheckpoint c] /\ forall fuel2,
    let whole := turbo_graph_run_internal_json_value (straight 10 None seen true) None None
                   (k + fuel2) (Some "plan") 0 start_state in
    let resumed := turbo_graph_run_checkpoint_json_value_stream_controlled fuel2
                     (Some (rs_graph paused_run.2)) (Some c) (straight 10 None seen true) None None []
                     (rs_world paused_run.2) in
    option_Forall2 same_but_last whole.1 (out_result resumed) /\
    exists s2, out_run resumed = Some s2 /\ whole.2 = pre (rs_trace paused_run.2) s2.
Proof.
  destruct (interrupt_resume_seamless 10 None [Some "act"] seen None None agent true true 5 "plan" 0
              start_state paused_result paused_run.2) as [Hsame|Hres];
    [by intros a c ->|exact agent_wf|exact agent_tables|exact plan_in|reflexivity|by left
    |exact paused_run_result|reflexivity| |exact Hres].
  exfalso. apply (f_equal fst) in Hsame. vm_compute in Hsame. discriminate Hsame.
Defined.

(** The edge's native predicate refuses it. *)
Definition refuse : predicate_fn (W := Z) (J := jtree) := fun _ w => (0, w).
Definition guarded : turbo_graph (W := Z) (J := jtree) :=
  (builder_execs cat [plan; AddNode (Some "act") None (Some count_node);
     AddValueEdge (Some "plan") (Some "act") None (Some refuse)] empty_graph []).1.
Definition guarded_start : run_state (W := Z) (J := jtree) := mk_run guarded [] 0 [] (JObj []).

(** The JSON executor does not evaluate native predicates: it takes the edge the
    native executor refuses. *)
Lemma json_run_ignores_native_predicates :
  (turbo_graph_run_internal 5 (Some "plan") 0 None guarded_start).1 =
    Some (mk_result TURBO_GRAPH_EXEC_OK (Some "act") None 2) /\
  (turbo_graph_run_internal_json_value None None None 5 (Some "plan") 0 guarded_start).1 =
    Some (mk_result TURBO_GRAPH_EXEC_ROUTE_NOT_FOUND (Some "plan") None 1).
Proof. split; reflexivity. Qed.

End GraphRunDemo.
