(* ===== verification/SpeechOutput.v ===== *)
(** * Speech output (src/speech_output)

    Text to speech for one host: an approved text is handed to a provider, whose
    PCM blocks are staged one at a time for the host.  The buffers are modelled
    with their contents, so that wiping them is visible; the provider is a record
    of functions over a world; a ghost log records what the provider produced
    and was asked, and what the host took. *)

From stdpp Require Import sorting.
From S2P Require Import Prelude Utf8.

(* src/speech_output/include/turbo_agent_speech_output.h 15-15 TURBO_AGENT_SPEECH_OUTPUT_ABI_VERSION *)
Definition TURBO_AGENT_SPEECH_OUTPUT_ABI_VERSION : Z := 1.
(* src/speech_output/include/turbo_agent_speech_output.h 16-16 TURBO_AGENT_TTS_RATE_HZ *)
Definition TURBO_AGENT_TTS_RATE_HZ : Z := 24000.
(* src/speech_output/include/turbo_agent_speech_output.h 17-17 TURBO_AGENT_TTS_CHANNELS *)
Definition TURBO_AGENT_TTS_CHANNELS : Z := 1.
(* src/speech_output/include/turbo_agent_speech_output.h 18-18 TURBO_AGENT_TTS_BITS_PER_SAMPLE *)
Definition TURBO_AGENT_TTS_BITS_PER_SAMPLE : Z := 16.
(* src/speech_output/include/turbo_agent_speech_output.h 19-19 TURBO_AGENT_TTS_FRAME_MS *)
Definition TURBO_AGENT_TTS_FRAME_MS : Z := 20.
(* src/speech_output/include/turbo_agent_speech_output.h 20-20 TURBO_AGENT_TTS_SAMPLES_PER_FRAME *)
Definition TURBO_AGENT_TTS_SAMPLES_PER_FRAME : nat := 480.
(* src/speech_output/include/turbo_agent_speech_output.h 21-21 TURBO_AGENT_TTS_MAX_TEXT_BYTES *)
Definition TURBO_AGENT_TTS_MAX_TEXT_BYTES : nat := 4096.
(* src/speech_output/include/turbo_agent_speech_output.h 22-22 TURBO_AGENT_TTS_MAX_VOICE_BYTES *)
Definition TURBO_AGENT_TTS_MAX_VOICE_BYTES : nat := 63.
(* src/speech_output/include/turbo_agent_speech_output.h 23-23 TURBO_AGENT_TTS_MAX_AUDIO_MS *)
Definition TURBO_AGENT_TTS_MAX_AUDIO_MS : Z := 30000.

(* src/speech_output/include/turbo_agent_speech_output.h 27-40 turbo_agent_tts_result_t *)
Inductive turbo_agent_tts_result : Type :=
| TURBO_TTS_OK
| TURBO_TTS_EINVAL
| TURBO_TTS_ENOMEM
| TURBO_TTS_EBUSY
| TURBO_TTS_ECAPACITY
| TURBO_TTS_ESTATE
| TURBO_TTS_EPROVIDER
| TURBO_TTS_ETEXT
| TURBO_TTS_ESTALE
| TURBO_TTS_EBUFFER
| TURBO_TTS_EAGAIN
| TURBO_TTS_EUNSUPPORTED.

(* src/speech_output/include/turbo_agent_speech_output.h 42-51 turbo_agent_tts_state_t *)
Inductive turbo_agent_tts_state : Type :=
| TURBO_TTS_IDLE
| TURBO_TTS_SYNTHESIZING
| TURBO_TTS_STAGING_DRAINING
| TURBO_TTS_CANCEL_PENDING
| TURBO_TTS_SETTLED
| TURBO_TTS_CANCELED
| TURBO_TTS_FAILED.

#[global] Instance tts_result_eq_dec : EqDecision turbo_agent_tts_result.
Proof. solve_decision. Defined.
#[global] Instance tts_state_eq_dec : EqDecision turbo_agent_tts_state.
Proof. solve_decision. Defined.

(** The kind is an integer the provider writes; these are its named values. *)
(* src/speech_output/include/turbo_agent_speech_output.h 53-60 turbo_agent_tts_poll_kind_t *)
Inductive turbo_agent_tts_poll_kind : Type :=
| TURBO_TTS_WOULD_BLOCK
| TURBO_TTS_PCM
| TURBO_TTS_PCM_FINAL
| TURBO_TTS_SOURCE_DONE
| TURBO_TTS_PROVIDER_CANCELED
| TURBO_TTS_PROVIDER_FAILED
| tts_unknown_kind (value : Z).

#[global] Instance tts_poll_kind_eq_dec : EqDecision turbo_agent_tts_poll_kind.
Proof. solve_decision. Defined.

(* src/speech_output/include/turbo_agent_speech_output.h 62-67 turbo_agent_tts_format_t *)
Record turbo_agent_tts_format := mk_format {
  sample_rate_hz : Z;
  channels : Z;
  bits_per_sample : Z;
  frame_ms : Z
}.

(** [size_t], [uint32_t], the 16-byte format and two [uint32_t], padded. *)
Definition sizeof_config : Z := 40.
(** [size_t], [uint32_t] (padded) and four pointers. *)
Definition sizeof_provider : Z := 48.

(* src/speech_output/include/turbo_agent_speech_output.h 96-102 turbo_agent_tts_config_t *)
Record turbo_agent_tts_config := mk_config {
  cfg_struct_size : Z;
  cfg_abi_version : Z;
  cfg_output : turbo_agent_tts_format;
  max_text_bytes : Z;
  max_audio_ms : Z
}.

(** ** Text, voice and language *)

(** A C string is the list of its bytes up to the terminator. *)
(* src/speech_output/src/turbo_agent_speech_output.c 47-52 valid_language *)
Definition valid_language (s : option (list Z)) : bool :=
  match s with
  | Some [101; 110] | Some [106; 97] | Some [122; 104] => true
  | _ => false
  end.

(* src/speech_output/src/turbo_agent_speech_output.c 60-62 valid_voice *)
Definition voice_char (c : Z) : bool :=
  ((97 <=? c) && (c <=? 122)) || ((65 <=? c) && (c <=? 90)) || ((48 <=? c) && (c <=? 57))
  || (c =? 95) || (c =? 45) || (c =? 46).

(** The loop over indices [0 .. MAX_VOICE_BYTES]; [n] of them are left. *)
(* src/speech_output/src/turbo_agent_speech_output.c 57-64 valid_voice *)
Fixpoint valid_voice_from (n : nat) (s : list Z) : bool :=
  match n with
  | O => false
  | S n => match s with
           | [] => true
           | c :: rest => if voice_char c then valid_voice_from n rest else false
           end
  end.

(* src/speech_output/src/turbo_agent_speech_output.c 54-65 valid_voice *)
Definition valid_voice (s : option (list Z)) : bool :=
  match s with
  | None | Some [] => false
  | Some s => valid_voice_from (S TURBO_AGENT_TTS_MAX_VOICE_BYTES) s
  end.

(** The code points refused outside printable ASCII. *)
(* src/speech_output/src/turbo_agent_speech_output.c 101-110 valid_plain_utf8 *)
Definition refused_code_point (extra : nat) (cp : Z) : bool :=
  ((extra =? 1)%nat && (cp <? 128)) || ((extra =? 2)%nat && (cp <? 2048))
  || ((extra =? 3)%nat && (cp <? 65536)) || (1114111 <? cp)
  || ((55296 <=? cp) && (cp <=? 57343)) || (cp =? 127) || ((128 <=? cp) && (cp <=? 159))
  || (cp =? 1564) || (cp =? 65279) || ((8206 <=? cp) && (cp <=? 8207))
  || ((8232 <=? cp) && (cp <=? 8238)) || ((8294 <=? cp) && (cp <=? 8297)).

(** One turn of the loop: the bytes after one code point, or a refusal. *)
(* src/speech_output/src/turbo_agent_speech_output.c 77-110 valid_plain_utf8 *)
Definition plain_step (p : list Z) : option (list Z) :=
  match p with
  | [] => None
  | a :: rest =>
      if (32 <=? a) && (a <? 127) then
        if (a =? 60) || (a =? 62) then None else Some rest
      else if (a <? 194) || (244 <? a) then None
      else
        let '(extra, cp) := lead_split a in
        if (length rest <? extra)%nat then None
        else match continuation extra cp rest with
             | None => None
             | Some (cp, rest) => if refused_code_point extra cp then None else Some rest
             end
  end.

(* src/speech_output/src/turbo_agent_speech_output.c 72-113 valid_plain_utf8 *)
Definition valid_plain_utf8 (input : option (list Z)) : bool :=
  match input with
  | None => false
  | Some p =>
      if (length p =? 0)%nat || (TURBO_AGENT_TTS_MAX_TEXT_BYTES <? length p)%nat then false
      else scan plain_step (length p) p
  end.

(* src/speech_output/src/turbo_agent_speech_output.c 115-126 turbo_agent_tts_config_init *)
Definition turbo_agent_tts_config_init : turbo_agent_tts_config :=
  mk_config sizeof_config TURBO_AGENT_SPEECH_OUTPUT_ABI_VERSION
    (mk_format TURBO_AGENT_TTS_RATE_HZ TURBO_AGENT_TTS_CHANNELS
       TURBO_AGENT_TTS_BITS_PER_SAMPLE TURBO_AGENT_TTS_FRAME_MS)
    (Z.of_nat TURBO_AGENT_TTS_MAX_TEXT_BYTES) TURBO_AGENT_TTS_MAX_AUDIO_MS.

(** ** The provider, the object and its log *)

Section speech_output.
Context {World : Type}.

(** What a poll leaves: its return value, the contents of the 480-sample buffer,
    the sample count and the kind. *)
Record poll_answer := mk_answer {
  ans_rc : Z;
  ans_frame : list Z;
  ans_samples : N;
  ans_kind : turbo_agent_tts_poll_kind
}.

(** The callbacks close over their borrowed context; NULL ones are [None]. *)
(* src/speech_output/include/turbo_agent_speech_output.h 82-94 turbo_agent_tts_provider_v1_t *)
Record turbo_agent_tts_provider := mk_provider {
  pv_struct_size : Z;
  pv_abi_version : Z;
  pv_begin : option (Z -> list Z -> Z -> list Z -> list Z -> turbo_agent_tts_format ->
                     World -> Z * World);
  pv_poll_pcm : option (Z -> list Z -> World -> poll_answer * World);
  pv_request_cancel : option (Z -> World -> World)
}.

(* src/speech_output/src/turbo_agent_speech_output.c 128-133 turbo_agent_tts_provider_v1_init *)
Definition turbo_agent_tts_provider_v1_init : turbo_agent_tts_provider :=
  mk_provider sizeof_provider TURBO_AGENT_SPEECH_OUTPUT_ABI_VERSION None None None.

(** The callbacks copied by [create], all present. *)
Record provider_table := mk_table {
  begin_fn : Z -> list Z -> Z -> list Z -> list Z -> turbo_agent_tts_format -> World -> Z * World;
  poll_pcm_fn : Z -> list Z -> World -> poll_answer * World;
  request_cancel_fn : Z -> World -> World
}.

(** Ghost log of a generation, oldest first. *)
Inductive speech_event : Type :=
| EvBegin (generation : Z)
| EvProduced (pcm : list Z)
| EvConsumed (pcm : list Z)
| EvCancelRequest (generation : Z).

(* src/speech_output/src/turbo_agent_speech_output.c 7-21 turbo_agent_speech_output_s *)
Record turbo_agent_speech_output := mk_output {
  provider : provider_table;
  config : turbo_agent_tts_config;
  state : turbo_agent_tts_state;
  generation_id : Z;
  total_pcm_samples : Z;
  max_pcm_samples : Z;
  pending_samples : Z;
  pending_offset : Z;
  fail_pending : bool;
  text : list Z;
  voice : list Z;
  language : list Z;
  frame : list Z;
  log : list speech_event  (** ghost *)
}.

Definition set_state (st : turbo_agent_tts_state) (x : turbo_agent_speech_output) :=
  mk_output (provider x) (config x) st (generation_id x) (total_pcm_samples x)
    (max_pcm_samples x) (pending_samples x) (pending_offset x) (fail_pending x) (text x)
    (voice x) (language x) (frame x) (log x).
Definition set_pending (fr : list Z) (n off : Z) (x : turbo_agent_speech_output) :=
  mk_output (provider x) (config x) (state x) (generation_id x) (total_pcm_samples x)
    (max_pcm_samples x) n off (fail_pending x) (text x) (voice x) (language x) fr (log x).
Definition set_total (n : Z) (x : turbo_agent_speech_output) :=
  mk_output (provider x) (config x) (state x) (generation_id x) n
    (max_pcm_samples x) (pending_samples x) (pending_offset x) (fail_pending x) (text x)
    (voice x) (language x) (frame x) (log x).
Definition set_fail (b : bool) (x : turbo_agent_speech_output) :=
  mk_output (provider x) (config x) (state x) (generation_id x) (total_pcm_samples x)
    (max_pcm_samples x) (pending_samples x) (pending_offset x) b (text x) (voice x)
    (language x) (frame x) (log x).
Definition set_request (tx vo la : list Z) (x : turbo_agent_speech_output) :=
  mk_output (provider x) (config x) (state x) (generation_id x) (total_pcm_samples x)
    (max_pcm_samples x) (pending_samples x) (pending_offset x) (fail_pending x) tx vo la
    (frame x) (log x).
Definition set_generation (g : Z) (x : turbo_agent_speech_output) :=
  mk_output (provider x) (config x) (state x) g (total_pcm_samples x) (max_pcm_samples x)
    (pending_samples x) (pending_offset x) (fail_pending x) (text x) (voice x) (language x)
    (frame x) (log x).
Definition record_event (e : speech_event) (x : turbo_agent_speech_output) :=
  mk_output (provider x) (config x) (state x) (generation_id x) (total_pcm_samples x)
    (max_pcm_samples x) (pending_samples x) (pending_offset x) (fail_pending x) (text x)
    (voice x) (language x) (frame x) (log x ++ [e]).

(** [memcpy(dst, src, |src|)], for a source that fits. *)
Definition overwrite (src dst : list Z) : list Z := src ++ drop (length src) dst.

(* src/speech_output/src/turbo_agent_speech_output.c 23-29 wipe *)
Definition wipe (buffer : list Z) : list Z := replicate (length buffer) 0.

(* src/speech_output/src/turbo_agent_speech_output.c 31-35 clear_pending *)
Definition clear_pending (x : turbo_agent_speech_output) : turbo_agent_speech_output :=
  set_pending (wipe (frame x)) 0 0 x.

(* src/speech_output/src/turbo_agent_speech_output.c 37-45 finish_generation *)
Definition finish_generation (x : turbo_agent_speech_output) (next : turbo_agent_tts_state)
  : turbo_agent_speech_output :=
  let x := clear_pending x in
  let x := set_request (wipe (text x)) (wipe (voice x)) (wipe (language x)) x in
  set_state next (set_fail false x).

(** ** Operations

    Results, with the object and the world afterwards. *)

Definition output_result : Type :=
  turbo_agent_tts_result * turbo_agent_speech_output * World.

(* src/speech_output/src/turbo_agent_speech_output.c 142-149 turbo_agent_speech_output_create *)
Definition config_valid (c : turbo_agent_tts_config) : bool :=
  (cfg_struct_size c =? sizeof_config)
  && (cfg_abi_version c =? TURBO_AGENT_SPEECH_OUTPUT_ABI_VERSION)
  && (1 <=? max_text_bytes c) && (max_text_bytes c <=? Z.of_nat TURBO_AGENT_TTS_MAX_TEXT_BYTES)
  && (TURBO_AGENT_TTS_FRAME_MS <=? max_audio_ms c)
  && (max_audio_ms c <=? TURBO_AGENT_TTS_MAX_AUDIO_MS)
  && (max_audio_ms c mod TURBO_AGENT_TTS_FRAME_MS =? 0).

(* src/speech_output/src/turbo_agent_speech_output.c 152-156 turbo_agent_speech_output_create *)
Definition format_supported (f : turbo_agent_tts_format) : bool :=
  (sample_rate_hz f =? TURBO_AGENT_TTS_RATE_HZ) && (channels f =? TURBO_AGENT_TTS_CHANNELS)
  && (bits_per_sample f =? TURBO_AGENT_TTS_BITS_PER_SAMPLE)
  && (frame_ms f =? TURBO_AGENT_TTS_FRAME_MS).

(** [out_output]: whether the out pointer is non-NULL. *)
(* src/speech_output/src/turbo_agent_speech_output.c 135-170 turbo_agent_speech_output_create *)
Definition turbo_agent_speech_output_create (c : option turbo_agent_tts_config)
    (p : option turbo_agent_tts_provider) (out_output : bool) (o : oracle)
  : turbo_agent_tts_result * option turbo_agent_speech_output * oracle :=
  if negb out_output then (TURBO_TTS_EINVAL, None, o)
  else match c with
  | None => (TURBO_TTS_EINVAL, None, o)
  | Some c =>
      if negb (config_valid c) then (TURBO_TTS_EINVAL, None, o)
      else if negb (format_supported (cfg_output c)) then (TURBO_TTS_EUNSUPPORTED, None, o)
      else match p with
      | Some (mk_provider size version (Some b) (Some poll) (Some cancel)) =>
          if negb (size =? sizeof_provider)
             || negb (version =? TURBO_AGENT_SPEECH_OUTPUT_ABI_VERSION)
          then (TURBO_TTS_EINVAL, None, o)
          else
            let (ok, o) := alloc o in
            if negb ok then (TURBO_TTS_ENOMEM, None, o)
            else
              (TURBO_TTS_OK,
               Some (mk_output (mk_table b poll cancel) c TURBO_TTS_IDLE 0 0
                       (u64 (max_audio_ms c * TURBO_AGENT_TTS_RATE_HZ) / 1000) 0 0 false
                       (replicate (S TURBO_AGENT_TTS_MAX_TEXT_BYTES) 0)
                       (replicate (S TURBO_AGENT_TTS_MAX_VOICE_BYTES) 0) (replicate 3 0)
                       (replicate TURBO_AGENT_TTS_SAMPLES_PER_FRAME 0) []), o)
      | _ => (TURBO_TTS_EINVAL, None, o)
      end
  end.

(** NULL objects are refused by every operation ([TURBO_TTS_EINVAL]); the
    operations below are given the object. *)
(* src/speech_output/src/turbo_agent_speech_output.c 172-177 check_generation *)
Definition check_generation (x : turbo_agent_speech_output) (generation : Z)
  : turbo_agent_tts_result :=
  if generation =? 0 then TURBO_TTS_EINVAL
  else if generation =? generation_id x then TURBO_TTS_OK else TURBO_TTS_ESTALE.

(** The states with a provider at work or samples to consume. *)
(* src/speech_output/src/turbo_agent_speech_output.c 189-192 turbo_agent_speech_output_begin *)
Definition busy (x : turbo_agent_speech_output) : bool :=
  bool_decide (state x = TURBO_TTS_SYNTHESIZING)
  || bool_decide (state x = TURBO_TTS_STAGING_DRAINING)
  || bool_decide (state x = TURBO_TTS_CANCEL_PENDING).

(** The voice's bytes, as [valid_voice] scanned them. *)
(* src/speech_output/src/turbo_agent_speech_output.c 179-220 turbo_agent_speech_output_begin *)
Definition turbo_agent_speech_output_begin (x : turbo_agent_speech_output) (generation : Z)
    (approved voice_id lang : option (list Z)) (w : World) : output_result :=
  match approved, voice_id, lang with
  | Some approved, Some voice_id, Some lang =>
      if (generation =? 0) || negb (valid_voice (Some voice_id))
         || negb (valid_language (Some lang))
      then (TURBO_TTS_EINVAL, x, w)
      else if busy x then (TURBO_TTS_EBUSY, x, w)
      else if generation <=? generation_id x then (TURBO_TTS_ESTALE, x, w)
      else if (length approved =? 0)%nat
              || (max_text_bytes (config x) <? Z.of_nat (length approved))
      then (TURBO_TTS_ECAPACITY, x, w)
      else if negb (valid_plain_utf8 (Some approved)) then (TURBO_TTS_ETEXT, x, w)
      else
        let x := clear_pending x in
        let x := set_request (wipe (text x)) (wipe (voice x)) (wipe (language x)) x in
        let x := set_request (overwrite approved (text x)) (overwrite voice_id (voice x))
                   (overwrite (take 2 lang) (language x)) x in
        let x := set_fail false (set_total 0 (set_generation generation x)) in
        let x := record_event (EvBegin generation) x in
        let (rc, w) := begin_fn (provider x) generation (text x)
                         (Z.of_nat (length approved)) (voice x) (language x)
                         (cfg_output (config x)) w in
        if negb (rc =? 0)
        then (TURBO_TTS_EPROVIDER, finish_generation x TURBO_TTS_FAILED, w)
        else (TURBO_TTS_OK, set_state TURBO_TTS_SYNTHESIZING x, w)
  | _, _, _ => (TURBO_TTS_EINVAL, x, w)
  end.

(* src/speech_output/src/turbo_agent_speech_output.c 222-231 cancel_failed *)
Definition cancel_failed (x : turbo_agent_speech_output) (status : turbo_agent_tts_result)
    (w : World) : output_result :=
  let x := clear_pending x in
  let (x, w) :=
    if bool_decide (state x = TURBO_TTS_CANCEL_PENDING) then (x, w)
    else
      let x := set_state TURBO_TTS_CANCEL_PENDING x in
      (record_event (EvCancelRequest (generation_id x)) x,
       request_cancel_fn (provider x) (generation_id x) w) in
  (status, set_fail true x, w).

(** While cancellation settles, late PCM is discarded and only a terminal kind
    without samples ends the generation. *)
(* src/speech_output/src/turbo_agent_speech_output.c 256-273 turbo_agent_speech_output_pump *)
Definition pump_canceling (x : turbo_agent_speech_output) (samples : Z)
    (kind : turbo_agent_tts_poll_kind) (w : World) : output_result :=
  match kind with
  | TURBO_TTS_PCM | TURBO_TTS_PCM_FINAL => (TURBO_TTS_EAGAIN, clear_pending x, w)
  | TURBO_TTS_PROVIDER_CANCELED | TURBO_TTS_SOURCE_DONE | TURBO_TTS_PROVIDER_FAILED =>
      if samples =? 0
      then (TURBO_TTS_OK,
            finish_generation x
              (if fail_pending x || bool_decide (kind = TURBO_TTS_PROVIDER_FAILED)
               then TURBO_TTS_FAILED else TURBO_TTS_CANCELED), w)
      else cancel_failed x TURBO_TTS_EPROVIDER w
  | _ => cancel_failed x TURBO_TTS_EPROVIDER w
  end.

(** A PCM block is staged, unless its size or the generation's cap refuses it. *)
(* src/speech_output/src/turbo_agent_speech_output.c 274-287 turbo_agent_speech_output_pump *)
Definition pump_pcm (x : turbo_agent_speech_output) (samples : Z)
    (kind : turbo_agent_tts_poll_kind) (w : World) : output_result :=
  if (bool_decide (kind = TURBO_TTS_PCM)
      && negb (samples =? Z.of_nat TURBO_AGENT_TTS_SAMPLES_PER_FRAME))
     || (bool_decide (kind = TURBO_TTS_PCM_FINAL) && (samples =? 0))
  then cancel_failed x TURBO_TTS_EPROVIDER w
  else if u64 (max_pcm_samples x - total_pcm_samples x) <? samples
  then cancel_failed x TURBO_TTS_ECAPACITY w
  else
    let x := set_total (u64 (total_pcm_samples x + samples)) x in
    let x := set_pending (frame x) samples 0 x in
    let x := if bool_decide (kind = TURBO_TTS_PCM_FINAL)
             then set_state TURBO_TTS_STAGING_DRAINING x else x in
    (TURBO_TTS_OK, record_event (EvProduced (take (Z.to_nat samples) (frame x))) x, w).

(** What one poll's answer does. *)
(* src/speech_output/src/turbo_agent_speech_output.c 249-306 turbo_agent_speech_output_pump *)
Definition pump_answer (x : turbo_agent_speech_output) (canceling : bool) (a : poll_answer)
    (w : World) : output_result :=
  let samples := Z.of_N (ans_samples a) in
  let kind := ans_kind a in
  if negb (ans_rc a =? 0) then cancel_failed x TURBO_TTS_EPROVIDER w
  else if Z.of_nat TURBO_AGENT_TTS_SAMPLES_PER_FRAME <? samples
  then cancel_failed x TURBO_TTS_EPROVIDER w
  else if bool_decide (kind = TURBO_TTS_WOULD_BLOCK) && (samples =? 0)
  then (TURBO_TTS_EAGAIN, clear_pending x, w)
  else if canceling then pump_canceling x samples kind w
  else match kind with
  | TURBO_TTS_PCM | TURBO_TTS_PCM_FINAL => pump_pcm x samples kind w
  | _ =>
      if negb (samples =? 0) then cancel_failed x TURBO_TTS_EPROVIDER w
      else match kind with
      | TURBO_TTS_SOURCE_DONE =>
          if total_pcm_samples x =? 0
          then (TURBO_TTS_EPROVIDER, finish_generation x TURBO_TTS_FAILED, w)
          else (TURBO_TTS_OK, finish_generation x TURBO_TTS_SETTLED, w)
      | TURBO_TTS_PROVIDER_FAILED | TURBO_TTS_PROVIDER_CANCELED =>
          (TURBO_TTS_EPROVIDER, finish_generation x TURBO_TTS_FAILED, w)
      | _ => cancel_failed x TURBO_TTS_EPROVIDER w
      end
  end.

(** The provider writes into the object's own buffer, whose size it cannot
    change. *)
(* src/speech_output/src/turbo_agent_speech_output.c 233-307 turbo_agent_speech_output_pump *)
Definition turbo_agent_speech_output_pump (x : turbo_agent_speech_output) (generation : Z)
    (w : World) : output_result :=
  match check_generation x generation with
  | TURBO_TTS_OK =>
      match state x with
      | TURBO_TTS_SYNTHESIZING | TURBO_TTS_CANCEL_PENDING =>
          let canceling := bool_decide (state x = TURBO_TTS_CANCEL_PENDING) in
          if negb (pending_samples x =? 0) then (TURBO_TTS_EBUSY, x, w)
          else
            let (a, w) := poll_pcm_fn (provider x) generation (frame x) w in
            let x := set_pending (resize (length (frame x)) 0 (ans_frame a))
                       (pending_samples x) (pending_offset x) x in
            pump_answer x canceling a w
      | TURBO_TTS_STAGING_DRAINING => (TURBO_TTS_EBUSY, x, w)
      | _ => (TURBO_TTS_ESTATE, x, w)
      end
  | rc => (rc, x, w)
  end.

(** The staged samples the host has not consumed. *)
Definition staged (x : turbo_agent_speech_output) : list Z :=
  drop (Z.to_nat (pending_offset x)) (take (Z.to_nat (pending_samples x)) (frame x)).

(** The states in which the host may look at samples and consume them. *)
Definition staging (x : turbo_agent_speech_output) : bool :=
  bool_decide (state x = TURBO_TTS_SYNTHESIZING)
  || bool_decide (state x = TURBO_TTS_STAGING_DRAINING).

(** [out_ok]: both out pointers are non-NULL.  The borrowed pointer is its
    offset into the buffer. *)
(* src/speech_output/src/turbo_agent_speech_output.c 309-325 turbo_agent_speech_output_peek_pcm *)
Definition turbo_agent_speech_output_peek_pcm (x : turbo_agent_speech_output)
    (generation : Z) (out_ok : bool) : turbo_agent_tts_result * option Z * Z :=
  if negb out_ok then (TURBO_TTS_EINVAL, None, 0)
  else match check_generation x generation with
  | TURBO_TTS_OK =>
      if negb (staging x) then (TURBO_TTS_ESTATE, None, 0)
      else if pending_samples x =? 0 then (TURBO_TTS_EAGAIN, None, 0)
      else (TURBO_TTS_OK, Some (pending_offset x), u64 (pending_samples x - pending_offset x))
  | rc => (rc, None, 0)
  end.

(* src/speech_output/src/turbo_agent_speech_output.c 327-349 turbo_agent_speech_output_consume_pcm *)
Definition turbo_agent_speech_output_consume_pcm (x : turbo_agent_speech_output)
    (generation accepted : Z) : turbo_agent_tts_result * turbo_agent_speech_output :=
  match check_generation x generation with
  | TURBO_TTS_OK =>
      if negb (staging x) then (TURBO_TTS_ESTATE, x)
      else if pending_samples x =? 0 then (TURBO_TTS_EAGAIN, x)
      else if (accepted =? 0) || (u64 (pending_samples x - pending_offset x) <? accepted)
      then (TURBO_TTS_EBUFFER, x)
      else
        let x := record_event (EvConsumed (take (Z.to_nat accepted) (staged x))) x in
        let x := set_pending (frame x) (pending_samples x)
                   (u64 (pending_offset x + accepted)) x in
        if pending_offset x =? pending_samples x
        then
          let last := bool_decide (state x = TURBO_TTS_STAGING_DRAINING) in
          let x := clear_pending x in
          (TURBO_TTS_OK, if last then finish_generation x TURBO_TTS_SETTLED else x)
        else (TURBO_TTS_OK, x)
  | rc => (rc, x)
  end.

(* src/speech_output/src/turbo_agent_speech_output.c 351-364 turbo_agent_speech_output_cancel *)
Definition turbo_agent_speech_output_cancel (x : turbo_agent_speech_output)
    (generation : Z) (w : World) : output_result :=
  match check_generation x generation with
  | TURBO_TTS_OK =>
      match state x with
      | TURBO_TTS_CANCEL_PENDING | TURBO_TTS_CANCELED => (TURBO_TTS_OK, x, w)
      | TURBO_TTS_SYNTHESIZING | TURBO_TTS_STAGING_DRAINING =>
          let x := set_state TURBO_TTS_CANCEL_PENDING (clear_pending x) in
          (TURBO_TTS_OK, record_event (EvCancelRequest generation) x,
           request_cancel_fn (provider x) generation w)
      | _ => (TURBO_TTS_ESTATE, x, w)
      end
  | rc => (rc, x, w)
  end.

(* src/speech_output/src/turbo_agent_speech_output.c 366-369 turbo_agent_speech_output_get_state *)
Definition turbo_agent_speech_output_get_state (x : option turbo_agent_speech_output)
  : turbo_agent_tts_state :=
  match x with Some x => state x | None => TURBO_TTS_FAILED end.

(** The handle afterwards; the memory is wiped before it is freed. *)
(* src/speech_output/src/turbo_agent_speech_output.c 371-381 turbo_agent_speech_output_destroy *)
Definition turbo_agent_speech_output_destroy (handle : option turbo_agent_speech_output)
  : turbo_agent_tts_result * option turbo_agent_speech_output :=
  match handle with
  | None => (TURBO_TTS_EINVAL, None)
  | Some x => if busy x then (TURBO_TTS_EBUSY, Some x) else (TURBO_TTS_OK, None)
  end.

(** ** Calls of a host *)

Inductive speech_op : Type :=
| OpBegin (generation : Z) (approved voice_id lang : option (list Z))
| OpPump (generation : Z)
| OpConsume (generation : Z) (accepted : N)
| OpCancel (generation : Z).

Definition speech_exec (op : speech_op) (x : turbo_agent_speech_output) (w : World)
  : output_result :=
  match op with
  | OpBegin g a v l => turbo_agent_speech_output_begin x g a v l w
  | OpPump g => turbo_agent_speech_output_pump x g w
  | OpConsume g n =>
      let (rc, x) := turbo_agent_speech_output_consume_pcm x g (Z.of_N n) in (rc, x, w)
  | OpCancel g => turbo_agent_speech_output_cancel x g w
  end.

Fixpoint speech_execs (ops : list speech_op) (x : turbo_agent_speech_output) (w : World)
  : turbo_agent_speech_output * World :=
  match ops with
  | [] => (x, w)
  | op :: ops => let '(_, x, w) := speech_exec op x w in speech_execs ops x w
  end.

(** ** The invariant *)

(** What a log says about its last generation. *)
Record tally := mk_tally {
  t_generation : Z;
  t_produced : list Z;
  t_consumed : list Z;
  t_cancels : nat;
  t_late : bool  (** PCM produced or consumed after a cancel request *)
}.

Definition tally_step (t : tally) (e : speech_event) : tally :=
  match e with
  | EvBegin g => mk_tally g [] [] 0 (t_late t)
  | EvProduced l => mk_tally (t_generation t) (t_produced t ++ l) (t_consumed t) (t_cancels t)
                      (t_late t || (0 <? t_cancels t)%nat)
  | EvConsumed l => mk_tally (t_generation t) (t_produced t) (t_consumed t ++ l) (t_cancels t)
                      (t_late t || (0 <? t_cancels t)%nat)
  | EvCancelRequest _ => mk_tally (t_generation t) (t_produced t) (t_consumed t)
                           (S (t_cancels t)) (t_late t)
  end.

Definition tally_of (l : list speech_event) : tally :=
  foldl tally_step (mk_tally 0 [] [] 0 false) l.

Definition begins (l : list speech_event) : list Z :=
  omap (fun e => match e with EvBegin g => Some g | _ => None end) l.

Lemma output_tally_app l e : tally_of (l ++ [e]) = tally_step (tally_of l) e.
Proof. unfold tally_of. by rewrite foldl_app. Qed.

Definition zeros (n : nat) : list Z := replicate n 0.

(** What holds even in the middle of an operation. *)
Record speech_core (x : turbo_agent_speech_output) : Prop := {
  core_text : length (text x) = S TURBO_AGENT_TTS_MAX_TEXT_BYTES;
  core_voice : length (voice x) = S TURBO_AGENT_TTS_MAX_VOICE_BYTES;
  core_language : length (language x) = 3%nat;
  core_frame : length (frame x) = TURBO_AGENT_TTS_SAMPLES_PER_FRAME;
  core_config : config_valid (config x) = true;
  core_max : max_pcm_samples x = max_audio_ms (config x) * 24;
  core_total : 0 <= total_pcm_samples x <= max_pcm_samples x;
  core_generation : 0 <= generation_id x;
  core_late : t_late (tally_of (log x)) = false;
  core_begins : StronglySorted Z.lt (begins (log x)) /\
                Forall (fun g => g <= generation_id x) (begins (log x));
  core_produced : total_pcm_samples x = Z.of_nat (length (t_produced (tally_of (log x))))
}.

(** No trace of a generation is left in the buffers. *)
Definition no_residue (x : turbo_agent_speech_output) : Prop :=
  text x = zeros (length (text x)) /\ voice x = zeros (length (voice x)) /\
  language x = zeros (length (language x)) /\ frame x = zeros (length (frame x)).

Definition nothing_pending (x : turbo_agent_speech_output) : Prop :=
  pending_samples x = 0 /\ pending_offset x = 0 /\ frame x = zeros (length (frame x)).

Definition state_ok (x : turbo_agent_speech_output) : Prop :=
  let t := tally_of (log x) in
  match state x with
  | TURBO_TTS_IDLE => nothing_pending x /\ no_residue x /\ log x = []
  | TURBO_TTS_SYNTHESIZING | TURBO_TTS_STAGING_DRAINING =>
      (nothing_pending x /\ state x = TURBO_TTS_SYNTHESIZING \/
       0 <= pending_offset x < pending_samples x /\
       pending_samples x <= Z.of_nat (length (frame x))) /\
      t_produced t = t_consumed t ++ staged x /\ t_cancels t = 0%nat /\ fail_pending x = false
  | TURBO_TTS_CANCEL_PENDING => nothing_pending x /\ t_cancels t = 1%nat
  | TURBO_TTS_CANCELED => nothing_pending x /\ no_residue x /\ t_cancels t = 1%nat
  | TURBO_TTS_SETTLED =>
      nothing_pending x /\ no_residue x /\ t_cancels t = 0%nat /\
      t_consumed t = t_produced t /\ t_produced t <> []
  | TURBO_TTS_FAILED => nothing_pending x /\ no_residue x /\ (t_cancels t <= 1)%nat
  end.

Definition speech_wf (x : turbo_agent_speech_output) : Prop := speech_core x /\ state_ok x.

Lemma wipe_zeros l : wipe l = zeros (length (wipe l)).
Proof. unfold wipe, zeros. by rewrite length_replicate. Qed.

Lemma wipe_length l : length (wipe l) = length l.
Proof. apply length_replicate. Qed.

#[local] Hint Resolve wipe_zeros : core.

Lemma clear_core x : speech_core x -> speech_core (clear_pending x).
Proof. intros []. split; try done. simpl. by rewrite wipe_length. Qed.

Lemma clear_nothing x : nothing_pending (clear_pending x).
Proof. split; [done|]. split; [done|]. apply wipe_zeros. Qed.

Lemma finish_core x next : speech_core x -> speech_core (finish_generation x next).
Proof. intros []. split; simpl; rewrite ?wipe_length; done. Qed.

Lemma finish_residue x next : no_residue (finish_generation x next).
Proof. repeat split; apply wipe_zeros. Qed.

Lemma finish_nothing x next : nothing_pending (finish_generation x next).
Proof. repeat split; apply wipe_zeros. Qed.

(** Ending a generation: what is left to show is what the tally says. *)
Lemma output_finish_wf x next :
  speech_core x ->
  match next with
  | TURBO_TTS_CANCELED => t_cancels (tally_of (log x)) = 1%nat
  | TURBO_TTS_SETTLED => t_cancels (tally_of (log x)) = 0%nat /\
      t_consumed (tally_of (log x)) = t_produced (tally_of (log x)) /\
      t_produced (tally_of (log x)) <> []
  | TURBO_TTS_FAILED => (t_cancels (tally_of (log x)) <= 1)%nat
  | _ => False
  end ->
  speech_wf (finish_generation x next).
Proof.
  intros Hc Ht. split; [by apply finish_core|].
  pose proof (finish_residue x next) as Hr. pose proof (finish_nothing x next) as Hn.
  unfold state_ok. replace (state (finish_generation x next)) with next by done.
  destruct next; try done; simpl log; tauto.
Qed.

(** A cancel request happens once, whichever way it comes. *)
Lemma cancel_failed_wf x status w :
  speech_core x ->
  t_cancels (tally_of (log x)) =
    (if bool_decide (state x = TURBO_TTS_CANCEL_PENDING) then 1%nat else 0%nat) ->
  let '(rc, x', _) := cancel_failed x status w in
  rc = status /\ speech_wf x' /\ state x' = TURBO_TTS_CANCEL_PENDING.
Proof.
  intros Hc Ht. unfold cancel_failed. simpl state.
  destruct (bool_decide_reflect (state x = TURBO_TTS_CANCEL_PENDING)) as [Hs|Hs].
  - split; [done|]. split; [|done].
    split; [by destruct (clear_core x Hc); split|]. unfold state_ok. simpl. rewrite Hs.
    split; [apply (clear_nothing x)|done].
  - split; [done|]. split; [|done].
    split.
    + destruct (clear_core x Hc). split; simpl in *; rewrite ?output_tally_app; simpl; try done.
      unfold begins in *. rewrite omap_app. simpl. by rewrite app_nil_r.
    + unfold state_ok. simpl. split; [apply (clear_nothing x)|]. rewrite output_tally_app. simpl.
      by rewrite Ht.
Qed.

Lemma valid_voice_length s : valid_voice (Some s) = true ->
  (length s <= TURBO_AGENT_TTS_MAX_VOICE_BYTES)%nat.
Proof.
  unfold valid_voice. destruct s as [|c s]; [done|]. generalize (c :: s). clear c s. intros s.
  generalize TURBO_AGENT_TTS_MAX_VOICE_BYTES. intros n. revert s.
  induction n as [|n IH]; intros [|c s]; simpl; try lia; try done.
  - by destruct (voice_char c).
  - destruct (voice_char c); [|done]. intros Hs. specialize (IH s Hs). lia.
Qed.

Lemma output_overwrite_length src dst :
  (length src <= length dst)%nat -> length (overwrite src dst) = length dst.
Proof. intros Hl. unfold overwrite. rewrite length_app, length_drop. lia. Qed.

Lemma config_limits c : config_valid c = true ->
  1 <= max_text_bytes c <= 4096 /\ 20 <= max_audio_ms c <= 30000 /\ max_audio_ms c mod 20 = 0.
Proof.
  unfold config_valid, TURBO_AGENT_TTS_FRAME_MS, TURBO_AGENT_TTS_MAX_AUDIO_MS,
    TURBO_AGENT_TTS_MAX_TEXT_BYTES. intros Hc. bool_to_prop. lia.
Qed.

Lemma output_create_wf c p out o x o' :
  turbo_agent_speech_output_create c p out o = (TURBO_TTS_OK, Some x, o') -> speech_wf x.
Proof.
  unfold turbo_agent_speech_output_create. destruct out; [|done]. destruct c as [c|]; [|done].
  cbn [negb]. destruct (config_valid c) eqn:Ec; [|done]. cbn [negb].
  destruct (negb _); [done|]. destruct p as [[? ? [b|] [poll|] [cancel|]]|]; try done.
  destruct (_ || _); [done|]. destruct (alloc o) as [[] o1]; [|done]. intros [= <- <-].
  apply config_limits in Ec as Hl. split; [|by repeat split].
  split; simpl; rewrite ?length_replicate; try done; try lia.
  - unfold TURBO_AGENT_TTS_RATE_HZ. rewrite u64_small by (unfold UINT64_MAX; lia).
    replace (max_audio_ms c * 24000) with (max_audio_ms c * 24 * 1000) by lia.
    by rewrite Z.div_mul by lia.
  - split; [lia|]. apply Z.div_pos; [|lia]. apply u64_range.
  - split; constructor.
Qed.

(** Between generations nothing is pending, staged or left over. *)
Lemma idle_wf x : speech_wf x -> busy x = false -> nothing_pending x /\ no_residue x.
Proof.
  intros [_ Hs] Hb. unfold busy, state_ok in *.
  destruct (state x); simpl in Hb; try done; tauto.
Qed.

(** The object [begin] hands to the provider. *)
Definition begun (x : turbo_agent_speech_output) (g : Z) (a v l : list Z)
  : turbo_agent_speech_output :=
  record_event (EvBegin g)
    (set_fail false (set_total 0 (set_generation g
      (set_request (overwrite a (wipe (text x))) (overwrite v (wipe (voice x)))
         (overwrite (take 2 l) (wipe (language x))) (clear_pending x))))).

Lemma begun_core x g a v l :
  speech_core x -> generation_id x < g ->
  Z.of_nat (length a) <= max_text_bytes (config x) ->
  (length v <= TURBO_AGENT_TTS_MAX_VOICE_BYTES)%nat ->
  speech_core (begun x g a v l).
Proof.
  intros Hc Hg Ha Hv. pose proof (config_limits _ (core_config x Hc)) as Hcfg.
  destruct Hc as [Ht Hvo Hl Hf Hcf Hm Htot Hgen Hlate [Hsort Hle] Hpr].
  assert (Hl2 : (length (take 2 l) <= 2)%nat) by (rewrite length_take; lia).
  unfold TURBO_AGENT_TTS_MAX_TEXT_BYTES, TURBO_AGENT_TTS_MAX_VOICE_BYTES in *.
  split; simpl; rewrite ?output_tally_app; simpl; try done; try lia;
    try (rewrite output_overwrite_length; rewrite ?wipe_length;
         unfold TURBO_AGENT_TTS_MAX_TEXT_BYTES, TURBO_AGENT_TTS_MAX_VOICE_BYTES; lia).
  - by rewrite wipe_length.
  - unfold begins in *. rewrite omap_app. simpl. split.
    + apply StronglySorted_app_2; [|done|by repeat constructor].
      intros y z Hy Hz. apply list_elem_of_singleton in Hz as ->.
      rewrite Forall_forall in Hle. specialize (Hle _ Hy). lia.
    + apply Forall_app. split; [|by apply Forall_singleton].
      eapply Forall_impl; [exact Hle|]. simpl. lia.
Qed.

Lemma output_begin_wf x g a v l w : speech_wf x ->
  speech_wf (turbo_agent_speech_output_begin x g a v l w).1.2.
Proof.
  intros Hwf. unfold turbo_agent_speech_output_begin.
  destruct a as [a|]; [|done]. destruct v as [v|]; [|done]. destruct l as [l|]; [|done].
  destruct ((g =? 0) || _ || _) eqn:E1; [done|]. destruct (busy x) eqn:Eb; [done|].
  destruct (g <=? generation_id x) eqn:E2; [done|].
  destruct ((length a =? 0)%nat || _) eqn:E3; [done|].
  destruct (negb (valid_plain_utf8 (Some a))); [done|]. bool_to_prop.
  match goal with H : valid_voice _ = true |- _ => apply valid_voice_length in H end.
  cbv zeta. fold (begun x g a v l).
  change (record_event _ _) with (begun x g a v l).
  assert (Hc : speech_core (begun x g a v l)) by (apply begun_core; try done; apply Hwf).
  assert (Ht : tally_of (log (begun x g a v l)) =
               mk_tally g [] [] 0 (t_late (tally_of (log x)))) by (simpl; by rewrite output_tally_app).
  destruct (begin_fn _ _ _ _ _ _ _ w) as [rc w']. destruct (negb (rc =? 0)); simpl fst; simpl snd.
  - apply output_finish_wf; [done|]. rewrite Ht. simpl. lia.
  - split; [by destruct Hc; split|].
    unfold state_ok. simpl state. cbv zeta. change (log (set_state _ _)) with (log (begun x g a v l)).
    rewrite Ht. split; [left; split; [apply (clear_nothing x)|done]|]. done.
Qed.

(** The world the frame was just written in by a provider that may have left
    anything in it. *)
Lemma pump_pcm_wf x samples kind w :
  speech_core x -> state x = TURBO_TTS_SYNTHESIZING -> fail_pending x = false ->
  t_cancels (tally_of (log x)) = 0%nat ->
  t_produced (tally_of (log x)) = t_consumed (tally_of (log x)) ->
  0 <= samples <= Z.of_nat TURBO_AGENT_TTS_SAMPLES_PER_FRAME ->
  kind = TURBO_TTS_PCM \/ kind = TURBO_TTS_PCM_FINAL ->
  speech_wf (pump_pcm x samples kind w).1.2.
Proof.
  intros Hc Hs Hfail Ht Hpc Hn Hk. unfold pump_pcm.
  assert (Hcf : forall st, speech_wf (cancel_failed x st w).1.2).
  { intros st. pose proof (cancel_failed_wf x st w Hc) as Hcw.
    rewrite Hs, bool_decide_eq_false_2 in Hcw by done. specialize (Hcw Ht).
    destruct (cancel_failed x st w) as [[? ?] ?]. apply Hcw. }
  destruct (_ || _) eqn:E1; [apply Hcf|].
  assert (Hpos : 0 < samples).
  { destruct Hk as [-> | ->]; simpl in E1; rewrite ?orb_false_r in E1; bool_to_prop;
      unfold TURBO_AGENT_TTS_SAMPLES_PER_FRAME in *; lia. }
  destruct Hc as [Htx Hvo Hl Hf Hcfg Hm Htot Hgen Hlate Hbeg Hpr].
  pose proof (config_limits _ Hcfg) as Hlim.
  rewrite u64_small by (unfold UINT64_MAX; lia).
  destruct (max_pcm_samples x - total_pcm_samples x <? samples) eqn:E2; [apply Hcf|].
  bool_to_prop. rewrite u64_small by (unfold UINT64_MAX; lia). cbv zeta. simpl fst. simpl snd.
  assert (Hlen : length (take (Z.to_nat samples) (frame x)) = Z.to_nat samples)
    by (rewrite length_take; lia).
  set (b := bool_decide (kind = TURBO_TTS_PCM_FINAL)) in *. clearbody b. split.
  - split; try by destruct b.
    + destruct b; simpl; lia.
    + destruct b; simpl; rewrite output_tally_app; simpl; by rewrite Hlate, Ht.
    + destruct b; simpl; unfold begins in *; rewrite omap_app; simpl; by rewrite app_nil_r.
    + destruct b; simpl; rewrite output_tally_app; simpl; rewrite length_app, Hlen; lia.
  - unfold state_ok. destruct b; simpl; rewrite ?Hs, output_tally_app; simpl;
      (split; [right; simpl; lia|]); (split; [|by rewrite ?Ht]);
      unfold staged; simpl; by rewrite drop_0, Hpc.
Qed.

(** What a poll's answer does to an object that is valid but for the frame the
    provider may have overwritten. *)
Lemma pump_answer_wf x a w :
  speech_core x -> staged x = [] ->
  state x = TURBO_TTS_SYNTHESIZING /\ fail_pending x = false /\
    t_cancels (tally_of (log x)) = 0%nat /\
    t_produced (tally_of (log x)) = t_consumed (tally_of (log x)) \/
  state x = TURBO_TTS_CANCEL_PENDING /\ t_cancels (tally_of (log x)) = 1%nat ->
  speech_wf (pump_answer x (bool_decide (state x = TURBO_TTS_CANCEL_PENDING)) a w).1.2.
Proof.
  intros Hc Hstaged Hst. unfold pump_answer. cbv zeta.
  assert (Hcf : forall st, speech_wf (cancel_failed x st w).1.2).
  { intros st. pose proof (cancel_failed_wf x st w Hc) as Hcw.
    destruct Hst as [(Hs & _ & Ht & _)|[Hs Ht]]; rewrite Hs in Hcw; specialize (Hcw Ht);
      destruct (cancel_failed x st w) as [[? ?] ?]; apply Hcw. }
  destruct (negb (ans_rc a =? 0)); [apply Hcf|].
  destruct (_ <? Z.of_N (ans_samples a)) eqn:En; [apply Hcf|]. bool_to_prop.
  assert (Hclear : speech_wf (clear_pending x)).
  { split; [by apply clear_core|]. unfold state_ok. simpl.
    destruct Hst as [(-> & Hf & Ht & Hp)|[-> Ht]].
    - split; [left; split; [apply (clear_nothing x)|done]|]. split; [|done].
      unfold staged. simpl. by rewrite app_nil_r.
    - split; [apply (clear_nothing x)|done]. }
  destruct (bool_decide (ans_kind a = TURBO_TTS_WOULD_BLOCK) && _); [done|].
  destruct Hst as [(Hs & Hf & Ht & Hp)|[Hs Ht]]; rewrite Hs.
  - rewrite bool_decide_eq_false_2 by done.
    destruct (ans_kind a) eqn:Ek; try (destruct (negb _); apply Hcf);
      try (apply pump_pcm_wf; auto; lia).
    + destruct (negb _); [apply Hcf|].
      destruct (total_pcm_samples x =? 0) eqn:Ez; bool_to_prop; apply output_finish_wf; try done;
        [lia|]. repeat split; try done. intros Hnil.
      rewrite (core_produced x Hc), Hnil in Ez. done.
    + destruct (negb _); [apply Hcf|]. apply output_finish_wf; [done|lia].
    + destruct (negb _); [apply Hcf|]. apply output_finish_wf; [done|lia].
  - rewrite bool_decide_eq_true_2 by done. unfold pump_canceling.
    destruct (ans_kind a); try done; try apply Hcf; (destruct (_ =? 0); [|apply Hcf]);
      apply output_finish_wf; try done; destruct (_ || _); lia.
Qed.

Lemma check_ok x g : check_generation x g = TURBO_TTS_OK -> g = generation_id x.
Proof. unfold check_generation. repeat case_match; intros; bool_to_prop; done. Qed.

Lemma pump_wf x g w : speech_wf x -> speech_wf (turbo_agent_speech_output_pump x g w).1.2.
Proof.
  intros Hwf. unfold turbo_agent_speech_output_pump.
  destruct (check_generation x g); try done. destruct Hwf as [Hc Hs].
  assert (Hwf : speech_wf x) by done. unfold state_ok in Hs. cbv zeta in *.
  assert (Hpoll : forall a, speech_core
    (set_pending (resize (length (frame x)) 0 (ans_frame a)) (pending_samples x)
       (pending_offset x) x)).
  { intros a. destruct Hc. split; try done. simpl. by rewrite length_resize. }
  assert (Hstaged : forall a, pending_samples x = 0 ->
    staged (set_pending (resize (length (frame x)) 0 (ans_frame a)) (pending_samples x)
       (pending_offset x) x) = []) by (intros a Hz; unfold staged; simpl; rewrite Hz; apply drop_nil).
  destruct (state x) eqn:Est; try done; destruct (negb (pending_samples x =? 0)) eqn:Ep; try done;
    bool_to_prop; destruct (poll_pcm_fn _ _ _ _) as [a w'];
    pose proof (pump_answer_wf _ a w' (Hpoll a) (Hstaged a Ep)) as Hp; simpl state in Hp;
    rewrite Est in Hp; apply Hp.
  - left. destruct Hs as (_ & Hpr & Ht & Hf). repeat split; try done.
    simpl log. rewrite Hpr. unfold staged. rewrite Ep. change (Z.to_nat 0) with 0%nat. by rewrite take_0, drop_nil, app_nil_r.
  - right. split; [done|]. apply Hs.
Qed.

Lemma staged_length x :
  0 <= pending_offset x < pending_samples x -> pending_samples x <= Z.of_nat (length (frame x)) ->
  Z.of_nat (length (staged x)) = pending_samples x - pending_offset x.
Proof. intros Ho Hp. unfold staged. rewrite length_drop, length_take. lia. Qed.

Lemma staged_advance x n :
  0 <= pending_offset x -> 0 <= n ->
  drop (Z.to_nat (pending_offset x + n)) (take (Z.to_nat (pending_samples x)) (frame x)) =
  drop (Z.to_nat n) (staged x).
Proof. intros Ho Hn. unfold staged. rewrite drop_drop. f_equal. lia. Qed.

Lemma consume_core x l : speech_core x -> t_cancels (tally_of (log x)) = 0%nat ->
  speech_core (record_event (EvConsumed l) x).
Proof.
  intros [] Ht. split; simpl; rewrite ?output_tally_app; simpl; try done.
  - by rewrite core_late0, Ht.
  - unfold begins in *. rewrite omap_app. simpl. by rewrite app_nil_r.
Qed.

Lemma consume_wf x g n : speech_wf x -> 0 <= n ->
  speech_wf (turbo_agent_speech_output_consume_pcm x g n).2.
Proof.
  intros Hwf Hn. unfold turbo_agent_speech_output_consume_pcm.
  destruct (check_generation x g); try done. destruct (staging x) eqn:Est; [|done]. cbn [negb].
  destruct (pending_samples x =? 0) eqn:Ep; [done|]. bool_to_prop.
  destruct Hwf as [Hc Hs] eqn:Ewf. clear Ewf. unfold state_ok in Hs. cbv zeta in Hs.
  assert (Hst : state x = TURBO_TTS_SYNTHESIZING \/ state x = TURBO_TTS_STAGING_DRAINING)
    by (unfold staging in Est; destruct (state x); auto; discriminate Est).
  assert (Hs' : (0 <= pending_offset x < pending_samples x /\
                 pending_samples x <= Z.of_nat (length (frame x))) /\
    t_produced (tally_of (log x)) = t_consumed (tally_of (log x)) ++ staged x /\
    t_cancels (tally_of (log x)) = 0%nat /\ fail_pending x = false).
  { destruct Hst as [Hq|Hq]; rewrite Hq in Hs; destruct Hs as ([[[? _] _]|?] & ?); by auto. }
  destruct Hs' as ([Ho Hfr] & Hpr & Ht & Hf). pose proof (core_frame x Hc) as Hlen.
  assert (H480 : Z.of_nat (length (frame x)) = 480) by by rewrite Hlen.
  rewrite (u64_small (pending_samples x - pending_offset x)) by (unfold UINT64_MAX; lia).
  destruct ((n =? 0) || _) eqn:En; [done|].
  bool_to_prop. cbv zeta. simpl. rewrite u64_small by (unfold UINT64_MAX; lia).
  pose proof (consume_core x (take (Z.to_nat n) (staged x)) Hc Ht) as Hcc.
  destruct (pending_offset x + n =? pending_samples x) eqn:Ee; bool_to_prop.
  - assert (Hall : take (Z.to_nat n) (staged x) = staged x)
      by (apply take_ge; pose proof (staged_length x Ho Hfr); lia).
    assert (Hne : t_produced (tally_of (log x)) <> []).
    { intros Hnil. rewrite Hnil in Hpr. symmetry in Hpr. apply app_nil in Hpr as [_ Hz].
      pose proof (staged_length x Ho Hfr) as Hl. rewrite Hz in Hl. simpl in Hl. lia. }
    destruct Hst as [Hq|Hq]; rewrite Hq; simpl.
    + split; [by apply (clear_core (set_pending _ _ _ _)); destruct Hcc; split|].
      unfold state_ok. simpl. rewrite Hq, output_tally_app. simpl.
      split; [left; split; [apply (clear_nothing x)|done]|].
      split; [|by rewrite Ht]. unfold staged at 2. simpl. by rewrite app_nil_r, Hall.
    + apply output_finish_wf.
      * by apply (clear_core (set_pending _ _ _ _)); destruct Hcc; split.
      * simpl. rewrite output_tally_app. simpl. by rewrite Hall, Ht, <- Hpr.
  - split; [by destruct Hcc; split|]. unfold state_ok. simpl.
    assert (Hsplit : t_produced (tally_of (log x)) =
      (t_consumed (tally_of (log x)) ++ take (Z.to_nat n) (staged x)) ++
      drop (Z.to_nat n) (staged x)) by by rewrite <- app_assoc, take_drop.
    destruct Hst as [Hq|Hq]; rewrite Hq, output_tally_app; simpl;
      (split; [right; simpl; lia|]); (split; [|by rewrite Ht]);
      unfold staged at 2; simpl; by rewrite staged_advance by lia.
Qed.

Lemma output_cancel_wf x g w : speech_wf x -> speech_wf (turbo_agent_speech_output_cancel x g w).1.2.
Proof.
  intros Hwf. unfold turbo_agent_speech_output_cancel.
  destruct (check_generation x g); try done. destruct Hwf as [Hc Hs].
  assert (Hwf : speech_wf x) by done. unfold state_ok in Hs. cbv zeta in Hs.
  destruct (state x) eqn:Est; try done; simpl; destruct Hs as (_ & _ & Ht & _);
    (split;
     [ destruct (clear_core x Hc); split; simpl in *; rewrite ?output_tally_app; simpl; try done;
       unfold begins in *; rewrite omap_app; simpl; by rewrite app_nil_r
     | unfold state_ok; simpl; rewrite output_tally_app; simpl; rewrite Ht;
       split; [apply (clear_nothing x)|done] ]).
Qed.

Lemma output_exec_wf op x w : speech_wf x -> speech_wf (speech_exec op x w).1.2.
Proof.
  intros Hwf. destruct op as [g a v l|g|g n|g]; simpl.
  - by apply output_begin_wf.
  - by apply pump_wf.
  - pose proof (consume_wf x g (Z.of_N n) Hwf ltac:(lia)) as Hc.
    by destruct (turbo_agent_speech_output_consume_pcm x g (Z.of_N n)).
  - by apply output_cancel_wf.
Qed.

Lemma output_execs_wf ops x w : speech_wf x -> speech_wf (speech_execs ops x w).1.
Proof.
  revert x w. induction ops as [|op ops IH]; intros x w Hwf; simpl; [done|].
  pose proof (output_exec_wf op x w Hwf) as Hx. destruct (speech_exec op x w) as [[rc x'] w'].
  by apply IH.
Qed.

(** ** What a host can rely on *)

(** C11. Delivery: whatever calls the host makes, while a generation is being
    synthesized or drained the PCM the provider produced for it is exactly what
    the host consumed followed by what is still staged, in order; a settled
    generation was consumed completely and was not empty; and the PCM of a
    generation never exceeds the configured duration. *)
Theorem speech_delivery c p out o x o' ops w :
  turbo_agent_speech_output_create c p out o = (TURBO_TTS_OK, Some x, o') ->
  let y := (speech_execs ops x w).1 in
  let t := tally_of (log y) in
  Z.of_nat (length (t_produced t)) <= max_audio_ms (config y) * 24 /\
  (staging y = true -> t_produced t = t_consumed t ++ staged y) /\
  (state y = TURBO_TTS_SETTLED -> t_consumed t = t_produced t /\ t_produced t <> []).
Proof.
  intros Hx%output_create_wf. cbv zeta. destruct (output_execs_wf ops x w Hx) as [Hc Hs].
  set (y := (speech_execs ops x w).1) in *. unfold state_ok in Hs. cbv zeta in Hs.
  rewrite <- (core_produced y Hc), <- (core_max y Hc). split; [apply (core_total y Hc)|].
  unfold staging. split; [|intros Hst; rewrite Hst in Hs; tauto].
  destruct (state y); intros Hst; try discriminate Hst; tauto.
Qed.

(** Privacy: in every state in which the object can be destroyed or reused
    nothing of the generation is left: the text, voice, language and PCM buffers
    are zero and no sample is staged; and the object can be destroyed in exactly
    those states. *)
Theorem speech_no_residue c p out o x o' ops w :
  turbo_agent_speech_output_create c p out o = (TURBO_TTS_OK, Some x, o') ->
  let y := (speech_execs ops x w).1 in
  turbo_agent_speech_output_destroy (Some y) =
    (if busy y then (TURBO_TTS_EBUSY, Some y) else (TURBO_TTS_OK, None)) /\
  (busy y = false -> no_residue y /\ staged y = []).
Proof.
  intros Hx%output_create_wf. cbv zeta. pose proof (output_execs_wf ops x w Hx) as Hwf.
  split; [done|]. intros Hb. destruct (idle_wf _ Hwf Hb) as [(Hp & Ho & _) Hr].
  split; [done|]. unfold staged. rewrite Hp, Ho. done.
Qed.

(** Cancellation: the provider is asked to cancel at most once per generation,
    however often the host cancels or the provider misbehaves; a generation
    ends canceled only after that request; and once it was made no PCM of that
    generation is staged for, or consumed by, the host. *)
Theorem speech_cancel_once c p out o x o' ops w :
  turbo_agent_speech_output_create c p out o = (TURBO_TTS_OK, Some x, o') ->
  let y := (speech_execs ops x w).1 in
  let t := tally_of (log y) in
  (t_cancels t <= 1)%nat /\ t_late t = false /\
  (state y = TURBO_TTS_CANCELED \/ state y = TURBO_TTS_CANCEL_PENDING ->
     t_cancels t = 1%nat /\ staged y = []).
Proof.
  intros Hx%output_create_wf. cbv zeta. destruct (output_execs_wf ops x w Hx) as [Hc Hs].
  set (y := (speech_execs ops x w).1) in *. unfold state_ok in Hs. cbv zeta in Hs.
  split; [|split; [apply (core_late y Hc)|]].
  - destruct (state y); destruct_and?; try lia.
    match goal with H : log y = [] |- _ => rewrite H end. simpl. lia.
  - intros Hst. assert (nothing_pending y /\ t_cancels (tally_of (log y)) = 1%nat) as [Hn ->]
      by (destruct Hst as [Hq|Hq]; rewrite Hq in Hs; tauto).
    split; [done|]. destruct Hn as (Hp & Ho & _). unfold staged. by rewrite Hp, Ho.
Qed.

(** Generations: the identifiers of the generations begun are strictly
    increasing, and a call for any other generation than the current one leaves
    the object and the provider alone. *)
Theorem speech_generations c p out o x o' ops w :
  turbo_agent_speech_output_create c p out o = (TURBO_TTS_OK, Some x, o') ->
  let y := (speech_execs ops x w).1 in
  StronglySorted Z.lt (begins (log y)) /\
  forall g n w', g <> generation_id y ->
    (forall op, op = OpPump g \/ op = OpConsume g n \/ op = OpCancel g ->
       (speech_exec op y w').1.2 = y /\ (speech_exec op y w').2 = w') /\
    (forall a v l, g < generation_id y ->
       (speech_exec (OpBegin g a v l) y w').1.2 = y /\ (speech_exec (OpBegin g a v l) y w').2 = w').
Proof.
  intros Hx%output_create_wf. cbv zeta. destruct (output_execs_wf ops x w Hx) as [Hc _].
  set (y := (speech_execs ops x w).1) in *. clearbody y. split; [apply (core_begins y Hc)|].
  intros g n w' Hg.
  assert (check_generation y g <> TURBO_TTS_OK) as Hck by by intros ?%check_ok.
  split.
  - intros op [-> |[-> | ->]]; simpl; unfold turbo_agent_speech_output_pump,
      turbo_agent_speech_output_consume_pcm, turbo_agent_speech_output_cancel;
      by destruct (check_generation y g).
  - intros a v l Hlt. simpl. unfold turbo_agent_speech_output_begin.
    destruct a; [|done]. destruct v; [|done]. destruct l; [|done].
    destruct (_ || _ || _); [done|]. destruct (busy y); [done|].
    by rewrite (proj2 (Z.leb_le _ _)) by lia.
Qed.

End speech_output.

(** ** The text filter *)

(** What may be spoken: no control characters, markup brackets, byte order mark
    or bidirectional controls. *)
Definition speakable (cp : Z) : Prop :=
  scalar cp /\ 32 <= cp /\ cp <> 60 /\ cp <> 62 /\ ~ (127 <= cp <= 159) /\ cp <> 1564 /\
  cp <> 65279 /\ ~ (8206 <= cp <= 8207) /\ ~ (8232 <= cp <= 8238) /\ ~ (8294 <= cp <= 8297).

Lemma refused_iff extra cp :
  (1 <= extra <= 3)%nat ->
  refused_code_point extra cp = false <-> first_of extra <= cp <= 1114111 /\ speakable cp.
Proof.
  intros He. unfold refused_code_point, speakable, scalar.
  rewrite !orb_false_iff, !andb_false_iff, !Z.ltb_ge, !Z.eqb_neq, !Z.leb_gt, !Nat.eqb_neq.
  destruct extra as [|[|[|[|]]]]; try lia; simpl; lia.
Qed.

Lemma plain_step_iff p rest :
  Forall byte p -> p <> [] ->
  plain_step p = Some rest <-> exists cp, speakable cp /\ p = encode cp ++ rest.
Proof.
  intros Hp Hne. destruct p as [|a r]; [done|]. apply Forall_cons in Hp as [Ha Hr]. simpl.
  assert (Hfirst : forall cp, speakable cp -> a :: r = encode cp ++ rest ->
    cp < 128 /\ a = cp /\ r = rest \/ 128 <= cp <= 1114111 /\ 194 <= a <= 244)
    by (intros cp [Hs _]; by apply encode_first).
  destruct ((32 <=? a) && (a <? 127)) eqn:E1.
  { bool_to_prop. destruct ((a =? 60) || (a =? 62)) eqn:E2.
    - split; [done|]. intros (cp & Hs & Heq). apply orb_true_iff in E2.
      unfold speakable in Hs. destruct (Hfirst _ Hs Heq) as [(_ & -> & _)|]; [|lia].
      destruct E2; bool_to_prop; lia.
    - bool_to_prop. split.
      + intros [= <-]. exists a. rewrite encode_ascii by lia. split; [|done].
        unfold speakable, scalar. lia.
      + intros (cp & Hs & Heq). destruct (Hfirst _ Hs Heq) as [(_ & _ & ->)|]; [done|lia]. }
  apply andb_false_iff in E1. destruct ((a <? 194) || (244 <? a)) eqn:E2.
  { split; [done|]. intros (cp & Hs & Heq). apply orb_true_iff in E2.
    destruct (Hfirst _ Hs Heq) as [(? & -> & _)|]; [unfold speakable in Hs|];
      destruct E1, E2; bool_to_prop; lia. }
  bool_to_prop.
  etrans; [apply (multibyte_step speakable refused_code_point a r rest Hr); [lia|]|].
  - intros cp. apply refused_iff, extra_range.
  - split; [intros (cp & ? & _ & ?); eauto|]. intros (cp & Hs & Heq). exists cp.
    split; [done|]. split; [|done].
    destruct (Hfirst _ Hs Heq) as [(? & -> & _)|[? _]]; [|done]. unfold speakable in Hs. lia.
Qed.

(** The text filter accepts exactly the well-formed UTF-8 texts of 1 to 4096
    bytes in which every code point may be spoken: no overlong form, surrogate,
    truncation, control character, markup bracket or bidirectional control gets
    through, and nothing else is refused. *)
Theorem valid_plain_utf8_iff p :
  Forall byte p ->
  valid_plain_utf8 (Some p) = true <->
  (1 <= length p <= TURBO_AGENT_TTS_MAX_TEXT_BYTES)%nat /\
  exists cps, Forall speakable cps /\ p = encode_all cps.
Proof.
  intros Hp. unfold valid_plain_utf8.
  destruct ((length p =? 0)%nat || _) eqn:E.
  - split; [done|]. intros [Hl _]. apply orb_true_iff in E as [E|E].
    + apply Nat.eqb_eq in E. lia.
    + apply Nat.ltb_lt in E. lia.
  - apply orb_false_iff in E as [E1 E2]. apply Nat.eqb_neq in E1. apply Nat.ltb_ge in E2.
    rewrite (scan_iff speakable plain_step (length p) p);
      [|intros; by apply plain_step_iff|done|done].
    split; [intros Hex; split; [lia|done]|tauto].
Qed.

(** ** Concrete runs *)

Module SpeechOutputRuns.

(** A provider with one full block, then a final one of two samples; the world
    counts its polls. *)
Definition tone : turbo_agent_tts_provider (World := nat) :=
  mk_provider sizeof_provider TURBO_AGENT_SPEECH_OUTPUT_ABI_VERSION
    (Some (fun _ _ _ _ _ _ _ => (0, 0%nat)))
    (Some (fun _ _ n =>
       (if (n =? 0)%nat then mk_answer 0 (replicate 480 7) 480 TURBO_TTS_PCM
        else mk_answer 0 [5; 6] 2 TURBO_TTS_PCM_FINAL, S n)))
    (Some (fun _ n => n)).

Definition created : turbo_agent_speech_output (World := nat) :=
  match (turbo_agent_speech_output_create (Some turbo_agent_tts_config_init) (Some tone) true []).1.2
  with
  | Some x => x
  | None => mk_output (mk_table (fun _ _ _ _ _ _ n => (0, n))
              (fun _ _ n => (mk_answer 0 [] 0 TURBO_TTS_WOULD_BLOCK, n)) (fun _ n => n))
              turbo_agent_tts_config_init TURBO_TTS_IDLE 0 0 0 0 0 false [] [] [] [] []
  end.

Lemma output_created_ok :
  turbo_agent_speech_output_create (Some turbo_agent_tts_config_init) (Some tone) true [] =
  (TURBO_TTS_OK, Some created, []).
Proof. vm_compute. reflexivity. Defined.

(** "Hi!" in English, by the voice "a". *)
Definition hello : list speech_op :=
  [OpBegin 1 (Some [72; 105; 33]) (Some [97]) (Some [101; 110]); OpPump 1; OpConsume 1 480;
   OpPump 1].

Lemma speech_delivery_witness :
  let y := (speech_execs hello created 0%nat).1 in
  state y = TURBO_TTS_STAGING_DRAINING /\
  t_produced (tally_of (log y)) = t_consumed (tally_of (log y)) ++ [5; 6].
Proof.
  cbv zeta. split; [vm_compute; reflexivity|].
  destruct (speech_delivery _ _ _ _ _ _ hello 0%nat output_created_ok) as (_ & Hs & _).
  rewrite Hs by (vm_compute; reflexivity). reflexivity.
Defined.

Lemma speech_no_residue_witness :
  let y := (speech_execs (hello ++ [OpConsume 1 2]) created 0%nat).1 in
  state y = TURBO_TTS_SETTLED /\ no_residue y.
Proof.
  cbv zeta. split; [vm_compute; reflexivity|].
  apply (speech_no_residue _ _ _ _ _ _ (hello ++ [OpConsume 1 2]) 0%nat output_created_ok).
  vm_compute. reflexivity.
Defined.

Lemma speech_cancel_once_witness :
  let y := (speech_execs (hello ++ [OpCancel 1; OpPump 1; OpCancel 1]) created 0%nat).1 in
  t_cancels (tally_of (log y)) = 1%nat /\ staged y = [].
Proof.
  cbv zeta.
  destruct (speech_cancel_once _ _ _ _ _ _ (hello ++ [OpCancel 1; OpPump 1; OpCancel 1]) 0%nat
              output_created_ok) as (_ & _ & Hc).
  apply Hc. right. vm_compute. reflexivity.
Defined.

Lemma speech_generations_witness :
  (speech_exec (OpPump 9) (speech_execs hello created 0%nat).1 0%nat).1.2 =
  (speech_execs hello created 0%nat).1.
Proof.
  destruct (speech_generations _ _ _ _ _ _ hello 0%nat output_created_ok) as [_ Hg].
  apply (Hg 9 0%N 0%nat); [vm_compute; discriminate|by left].
Defined.

(** U+00E9 is accepted; its overlong relatives and U+202E are not. *)
Lemma valid_plain_utf8_iff_witness :
  Forall byte [99; 97; 102; 195; 169] /\
  exists cps, Forall speakable cps /\ [99; 97; 102; 195; 169] = encode_all cps.
Proof.
  assert (Hb : Forall byte [99; 97; 102; 195; 169])
    by (repeat (apply Forall_cons; split; [unfold byte; lia|]); apply Forall_nil; exact I).
  split; [exact Hb|]. apply (valid_plain_utf8_iff _ Hb). vm_compute. reflexivity.
Defined.

End SpeechOutputRuns.
