(* ===== verification/SpeechInput.v ===== *)
(** * Speech input (src/speech_input)

    Frames offered by a capture thread are queued in a fixed ring and given, in
    order and within a budget, to a speech recognizer on the control thread; the
    one transcript of an utterance can be taken once.

    The ring is a list of [capacity] slots with its head and count.  Every region
    the source protects with its lock is one atomic step; [offer_frame] is the
    only operation another thread may run, so a control operation that unlocks in
    between is given, for each gap, the offers that arrive there.  An offer that
    meets the lock is refused ([contended]).  A ghost log records the frames
    accepted and delivered, the cancellations and the transcripts taken. *)

From stdpp Require Import sorting.
From S2P Require Import Prelude Utf8.

(* src/speech_input/include/turbo_agent_speech_input.h 13-13 TURBO_AGENT_SPEECH_INPUT_ABI_VERSION *)
Definition TURBO_AGENT_SPEECH_INPUT_ABI_VERSION : Z := 1.
(* src/speech_input/include/turbo_agent_speech_input.h 14-14 TURBO_AGENT_SPEECH_SAMPLE_RATE_HZ *)
Definition TURBO_AGENT_SPEECH_SAMPLE_RATE_HZ : Z := 16000.
(* src/speech_input/include/turbo_agent_speech_input.h 15-15 TURBO_AGENT_SPEECH_CHANNELS *)
Definition TURBO_AGENT_SPEECH_CHANNELS : Z := 1.
(* src/speech_input/include/turbo_agent_speech_input.h 16-16 TURBO_AGENT_SPEECH_SAMPLES_PER_FRAME *)
Definition TURBO_AGENT_SPEECH_SAMPLES_PER_FRAME : nat := 320.
(* src/speech_input/include/turbo_agent_speech_input.h 17-17 TURBO_AGENT_SPEECH_MAX_QUEUED_FRAMES *)
Definition TURBO_AGENT_SPEECH_MAX_QUEUED_FRAMES : Z := 128.
(* src/speech_input/include/turbo_agent_speech_input.h 18-18 TURBO_AGENT_SPEECH_MAX_TEXT_BYTES *)
Definition TURBO_AGENT_SPEECH_MAX_TEXT_BYTES : Z := 4096.
(* src/speech_input/include/turbo_agent_speech_input.h 19-19 TURBO_AGENT_SPEECH_MAX_UTTERANCE_FRAMES *)
Definition TURBO_AGENT_SPEECH_MAX_UTTERANCE_FRAMES : Z := 3000.

(* src/speech_input/include/turbo_agent_speech_input.h 23-34 turbo_agent_speech_status_t *)
Inductive turbo_agent_speech_status : Type :=
| TURBO_AGENT_SPEECH_OK
| TURBO_AGENT_SPEECH_EINVAL
| TURBO_AGENT_SPEECH_ENOMEM
| TURBO_AGENT_SPEECH_EBUSY
| TURBO_AGENT_SPEECH_ECAPACITY
| TURBO_AGENT_SPEECH_ESTATE
| TURBO_AGENT_SPEECH_EPROVIDER
| TURBO_AGENT_SPEECH_ETEXT
| TURBO_AGENT_SPEECH_ESTALE
| TURBO_AGENT_SPEECH_EBUFFER.

(* src/speech_input/include/turbo_agent_speech_input.h 36-44 turbo_agent_speech_state_t *)
Inductive turbo_agent_speech_state : Type :=
| TURBO_AGENT_SPEECH_IDLE
| TURBO_AGENT_SPEECH_ACTIVE
| TURBO_AGENT_SPEECH_DRAINING
| TURBO_AGENT_SPEECH_FINAL
| TURBO_AGENT_SPEECH_NO_SPEECH
| TURBO_AGENT_SPEECH_CANCELED
| TURBO_AGENT_SPEECH_FAILED.

(** The provider writes the kind as an integer. *)
(* src/speech_input/include/turbo_agent_speech_input.h 46-51 turbo_agent_speech_transcript_kind_t *)
Inductive turbo_agent_speech_transcript_kind : Type :=
| TURBO_AGENT_SPEECH_NONE
| TURBO_AGENT_SPEECH_PARTIAL
| TURBO_AGENT_SPEECH_TRANSCRIPT_FINAL
| TURBO_AGENT_SPEECH_TRANSCRIPT_NO_SPEECH
| speech_unknown_kind (value : Z).

#[global] Instance speech_status_eq_dec : EqDecision turbo_agent_speech_status.
Proof. solve_decision. Defined.
#[global] Instance speech_state_eq_dec : EqDecision turbo_agent_speech_state.
Proof. solve_decision. Defined.
#[global] Instance speech_kind_eq_dec : EqDecision turbo_agent_speech_transcript_kind.
Proof. solve_decision. Defined.

(** [utf8] and [length]: a NULL pointer with any length, or a pointer to
    [length] bytes. *)
Inductive transcript_text : Type :=
| NullText (length : N)
| Text (bytes : list Z).

(* src/speech_input/include/turbo_agent_speech_input.h 55-59 turbo_agent_speech_transcript_t *)
Record turbo_agent_speech_transcript := mk_transcript {
  tr_kind : turbo_agent_speech_transcript_kind;
  tr_text : transcript_text
}.

Definition text_length (t : transcript_text) : Z :=
  match t with NullText n => Z.of_N n | Text l => Z.of_nat (length l) end.
Definition text_is_null (t : transcript_text) : bool :=
  match t with NullText _ => true | Text _ => false end.
Definition text_bytes (t : transcript_text) : list Z :=
  match t with NullText _ => [] | Text l => l end.

(** [size_t] and eight [uint32_t]. *)
Definition sizeof_config : Z := 40.
(** [size_t], [uint32_t] (padded) and five pointers. *)
Definition sizeof_provider : Z := 56.

(* src/speech_input/include/turbo_agent_speech_input.h 73-83 turbo_agent_speech_config_t *)
Record turbo_agent_speech_config := mk_config {
  cfg_struct_size : Z;
  cfg_abi_version : Z;
  sample_rate_hz : Z;
  channels : Z;
  bits_per_sample : Z;
  samples_per_frame : Z;
  queue_frames : Z;
  max_utterance_frames : Z;
  max_text_bytes : Z
}.

(* src/speech_input/src/turbo_agent_speech_input.c 7-10 speech_slot_t *)
Definition speech_slot : Type := list Z * Z.

Definition zero_slot : speech_slot := (replicate TURBO_AGENT_SPEECH_SAMPLES_PER_FRAME 0, 0).

(** ** UTF-8 *)

(* src/speech_input/src/turbo_agent_speech_input.c 54-57 valid_utf8 *)
Definition lead_byte (a : Z) : option (nat * Z) :=
  if (194 <=? a) && (a <=? 223) then Some (1%nat, Z.land a 31)
  else if (224 <=? a) && (a <=? 239) then Some (2%nat, Z.land a 15)
  else if (240 <=? a) && (a <=? 244) then Some (3%nat, Z.land a 7)
  else None.

(* src/speech_input/src/turbo_agent_speech_input.c 64-67 valid_utf8 *)
Definition malformed (extra : nat) (cp : Z) : bool :=
  ((extra =? 1)%nat && (cp <? 128)) || ((extra =? 2)%nat && (cp <? 2048))
  || ((extra =? 3)%nat && (cp <? 65536)) || ((55296 <=? cp) && (cp <=? 57343))
  || (1114111 <? cp).

(** One turn of the loop. *)
(* src/speech_input/src/turbo_agent_speech_input.c 49-67 valid_utf8 *)
Definition utf8_step (p : list Z) : option (list Z) :=
  match p with
  | [] => None
  | a :: rest =>
      if a =? 0 then None
      else if a <? 128 then Some rest
      else match lead_byte a with
      | None => None
      | Some (extra, cp) =>
          if (length rest <? extra)%nat then None
          else match continuation extra cp rest with
               | None => None
               | Some (cp, rest) => if malformed extra cp then None else Some rest
               end
      end
  end.

(* src/speech_input/src/turbo_agent_speech_input.c 44-70 valid_utf8 *)
Definition valid_utf8 (s : transcript_text) : bool :=
  match s with
  | NullText n => (n =? 0)%N
  | Text p => scan utf8_step (length p) p
  end.

(* src/speech_input/src/turbo_agent_speech_input.c 103-115 turbo_agent_speech_config_init *)
Definition turbo_agent_speech_config_init : turbo_agent_speech_config :=
  mk_config sizeof_config TURBO_AGENT_SPEECH_INPUT_ABI_VERSION TURBO_AGENT_SPEECH_SAMPLE_RATE_HZ
    TURBO_AGENT_SPEECH_CHANNELS 16 (Z.of_nat TURBO_AGENT_SPEECH_SAMPLES_PER_FRAME) 16 1500 1024.

(** ** The object *)

Section speech_input.
Context {World : Type}.

(** Callbacks over the world; [accept_frame] and [finish] leave a transcript. *)
(* src/speech_input/include/turbo_agent_speech_input.h 61-71 turbo_agent_speech_provider_v1_t *)
Record turbo_agent_speech_provider := mk_provider {
  pv_struct_size : Z;
  pv_abi_version : Z;
  pv_begin : option (Z -> World -> Z * World);
  pv_accept_frame : option (list Z -> Z -> World -> Z * turbo_agent_speech_transcript * World);
  pv_finish : option (World -> Z * turbo_agent_speech_transcript * World);
  pv_cancel : option (World -> World)
}.

(* src/speech_input/src/turbo_agent_speech_input.c 117-123 turbo_agent_speech_provider_v1_init *)
Definition turbo_agent_speech_provider_v1_init : turbo_agent_speech_provider :=
  mk_provider sizeof_provider TURBO_AGENT_SPEECH_INPUT_ABI_VERSION None None None None.

Record provider_table := mk_table {
  begin_fn : Z -> World -> Z * World;
  accept_frame_fn : list Z -> Z -> World -> Z * turbo_agent_speech_transcript * World;
  finish_fn : World -> Z * turbo_agent_speech_transcript * World;
  cancel_fn : World -> World
}.

(** Ghost log, oldest first. *)
Inductive speech_event : Type :=
| EvUtterance (utterance : Z)
| EvAccepted (slot : speech_slot)
| EvDelivered (slot : speech_slot)
| EvCancel
| EvTaken (kind : turbo_agent_speech_transcript_kind) (text : list Z).

(** What the capture thread shares with the control thread. *)
(* src/speech_input/src/turbo_agent_speech_input.c 12-28 turbo_agent_speech_input_s *)
Record turbo_agent_speech_input := mk_input {
  state : turbo_agent_speech_state;
  queue : list speech_slot;
  capacity : nat;
  head : nat;
  count : nat;
  accepted : Z;
  utterance_id : Z;
  last_timestamp_us : Z;
  has_timestamp : bool;
  max_frames : Z;
  max_text : Z;
  provider : provider_table;
  partial : list Z;
  final : list Z;
  partial_len : nat;
  final_len : nat;
  revision : Z;
  terminal_kind : turbo_agent_speech_transcript_kind;
  final_taken : bool;
  log : list speech_event  (** ghost *)
}.

Definition set_state (st : turbo_agent_speech_state) (x : turbo_agent_speech_input) :=
  mk_input st (queue x) (capacity x) (head x) (count x) (accepted x) (utterance_id x)
    (last_timestamp_us x) (has_timestamp x) (max_frames x) (max_text x) (provider x) (partial x)
    (final x) (partial_len x) (final_len x) (revision x) (terminal_kind x) (final_taken x) (log x).
Definition set_queue (q : list speech_slot) (h c : nat) (x : turbo_agent_speech_input) :=
  mk_input (state x) q (capacity x) h c (accepted x) (utterance_id x)
    (last_timestamp_us x) (has_timestamp x) (max_frames x) (max_text x) (provider x) (partial x)
    (final x) (partial_len x) (final_len x) (revision x) (terminal_kind x) (final_taken x) (log x).
Definition set_admission (n : Z) (has : bool) (ts : Z) (x : turbo_agent_speech_input) :=
  mk_input (state x) (queue x) (capacity x) (head x) (count x) n (utterance_id x)
    ts has (max_frames x) (max_text x) (provider x) (partial x)
    (final x) (partial_len x) (final_len x) (revision x) (terminal_kind x) (final_taken x) (log x).
Definition set_utterance (u : Z) (x : turbo_agent_speech_input) :=
  mk_input (state x) (queue x) (capacity x) (head x) (count x) (accepted x) u
    (last_timestamp_us x) (has_timestamp x) (max_frames x) (max_text x) (provider x) (partial x)
    (final x) (partial_len x) (final_len x) (revision x) (terminal_kind x) (final_taken x) (log x).
Definition set_partial (p : list Z) (n : nat) (r : Z) (x : turbo_agent_speech_input) :=
  mk_input (state x) (queue x) (capacity x) (head x) (count x) (accepted x) (utterance_id x)
    (last_timestamp_us x) (has_timestamp x) (max_frames x) (max_text x) (provider x) p
    (final x) n (final_len x) r (terminal_kind x) (final_taken x) (log x).
Definition set_final (f : list Z) (n : nat) (k : turbo_agent_speech_transcript_kind)
    (taken : bool) (x : turbo_agent_speech_input) :=
  mk_input (state x) (queue x) (capacity x) (head x) (count x) (accepted x) (utterance_id x)
    (last_timestamp_us x) (has_timestamp x) (max_frames x) (max_text x) (provider x) (partial x)
    f (partial_len x) n (revision x) k taken (log x).
Definition record_event (e : speech_event) (x : turbo_agent_speech_input) :=
  mk_input (state x) (queue x) (capacity x) (head x) (count x) (accepted x) (utterance_id x)
    (last_timestamp_us x) (has_timestamp x) (max_frames x) (max_text x) (provider x) (partial x)
    (final x) (partial_len x) (final_len x) (revision x) (terminal_kind x) (final_taken x)
    (log x ++ [e]).

(** [memcpy(dst, src, |src|)] for a source that fits, and [buf[0] = 0]. *)
Definition overwrite (src dst : list Z) : list Z := src ++ drop (length src) dst.
Definition truncate (buf : list Z) : list Z := overwrite [0] buf.
Definition wipe (buf : list Z) : list Z := replicate (length buf) 0.

(** ** Operations *)

(* src/speech_input/src/turbo_agent_speech_input.c 84-89 clear_queue_locked *)
Definition clear_queue_locked (x : turbo_agent_speech_input) : turbo_agent_speech_input :=
  set_queue (replicate (capacity x) zero_slot) 0 0 x.

(** The text a transcript may hold, for this object: what is copied. *)
(* src/speech_input/src/turbo_agent_speech_input.c 72-82 copy_transcript *)
Definition copy_transcript (x : turbo_agent_speech_input) (t : transcript_text)
    (dst : list Z) : turbo_agent_speech_status * list Z * nat :=
  if (negb (text_length t =? 0) && text_is_null t) || (max_text x <? text_length t)
     || negb (valid_utf8 t)
  then (TURBO_AGENT_SPEECH_ETEXT, dst, O)
  else (TURBO_AGENT_SPEECH_OK, overwrite (text_bytes t ++ [0]) dst, length (text_bytes t)).

(** An offer from the capture thread.  [pcm] is [None] for NULL, and [samples] is
    the count it comes with; [contended]: the lock was held. *)
Record offer := mk_offer {
  of_utterance : Z;
  of_pcm : option (list Z);
  of_samples : Z;
  of_timestamp : Z;
  of_contended : bool
}.

(** [memcpy] copies one frame of the caller's samples. *)
(* src/speech_input/src/turbo_agent_speech_input.c 202-237 turbo_agent_speech_offer_frame *)
Definition turbo_agent_speech_offer_frame (x : turbo_agent_speech_input) (f : offer)
  : turbo_agent_speech_status * turbo_agent_speech_input :=
  match of_pcm f with
  | None => (TURBO_AGENT_SPEECH_EINVAL, x)
  | Some pcm =>
      if negb (of_samples f =? Z.of_nat TURBO_AGENT_SPEECH_SAMPLES_PER_FRAME)
         || (of_utterance f =? 0)
      then (TURBO_AGENT_SPEECH_EINVAL, x)
      else if of_contended f then (TURBO_AGENT_SPEECH_EBUSY, x)
      else if negb (of_utterance f =? utterance_id x) then (TURBO_AGENT_SPEECH_ESTALE, x)
      else if negb (bool_decide (state x = TURBO_AGENT_SPEECH_ACTIVE))
      then (TURBO_AGENT_SPEECH_ESTATE, x)
      else if has_timestamp x && (of_timestamp f <=? last_timestamp_us x)
      then (TURBO_AGENT_SPEECH_EINVAL, x)
      else if (count x =? capacity x)%nat || (max_frames x <=? accepted x)
      then (TURBO_AGENT_SPEECH_ECAPACITY, x)
      else
        let slot := (resize TURBO_AGENT_SPEECH_SAMPLES_PER_FRAME 0 pcm, of_timestamp f) in
        let q := <[((head x + count x) mod capacity x)%nat := slot]> (queue x) in
        let x := set_queue q (head x) (S (count x)) x in
        let x := set_admission (accepted x + 1) true (of_timestamp f) x in
        (TURBO_AGENT_SPEECH_OK, record_event (EvAccepted slot) x)
  end.

(** The offers that arrive while a control operation does not hold the lock; the
    environment is one list of offers per gap. *)
Definition environment : Type := list (list offer).

Definition offers (l : list offer) (x : turbo_agent_speech_input) : turbo_agent_speech_input :=
  foldl (fun x f => (turbo_agent_speech_offer_frame x f).2) x l.

Definition gap (x : turbo_agent_speech_input) (env : environment)
  : turbo_agent_speech_input * environment :=
  match env with
  | [] => (x, [])
  | l :: env => (offers l x, env)
  end.

(* src/speech_input/src/turbo_agent_speech_input.c 91-101 fail_provider *)
Definition fail_provider (x : turbo_agent_speech_input) (w : World)
  : turbo_agent_speech_input * World :=
  let x := clear_queue_locked (set_state TURBO_AGENT_SPEECH_FAILED x) in
  let x := set_partial (wipe (partial x)) 0 (revision x) x in
  let x := set_final (wipe (final x)) 0 (terminal_kind x) (final_taken x) x in
  (record_event EvCancel x, cancel_fn (provider x) w).

(* src/speech_input/src/turbo_agent_speech_input.c 131-147 turbo_agent_speech_create *)
Definition config_valid (c : turbo_agent_speech_config) : bool :=
  (cfg_struct_size c =? sizeof_config)
  && (cfg_abi_version c =? TURBO_AGENT_SPEECH_INPUT_ABI_VERSION)
  && (sample_rate_hz c =? TURBO_AGENT_SPEECH_SAMPLE_RATE_HZ)
  && (channels c =? TURBO_AGENT_SPEECH_CHANNELS) && (bits_per_sample c =? 16)
  && (samples_per_frame c =? Z.of_nat TURBO_AGENT_SPEECH_SAMPLES_PER_FRAME)
  && (1 <=? queue_frames c) && (queue_frames c <=? TURBO_AGENT_SPEECH_MAX_QUEUED_FRAMES)
  && (1 <=? max_utterance_frames c)
  && (max_utterance_frames c <=? TURBO_AGENT_SPEECH_MAX_UTTERANCE_FRAMES)
  && (1 <=? max_text_bytes c) && (max_text_bytes c <=? TURBO_AGENT_SPEECH_MAX_TEXT_BYTES).

(** The object and its three buffers are allocated; all three are attempted. *)
(* src/speech_input/src/turbo_agent_speech_input.c 125-167 turbo_agent_speech_create *)
Definition turbo_agent_speech_create (c : option turbo_agent_speech_config)
    (p : option turbo_agent_speech_provider) (out_input : bool) (o : oracle)
  : turbo_agent_speech_status * option turbo_agent_speech_input * oracle :=
  if negb out_input then (TURBO_AGENT_SPEECH_EINVAL, None, o)
  else match c, p with
  | Some c, Some (mk_provider size version (Some b) (Some a) (Some f) (Some k)) =>
      if negb (config_valid c) || negb (size =? sizeof_provider)
         || negb (version =? TURBO_AGENT_SPEECH_INPUT_ABI_VERSION)
      then (TURBO_AGENT_SPEECH_EINVAL, None, o)
      else
        let (ok, o) := alloc o in
        if negb ok then (TURBO_AGENT_SPEECH_ENOMEM, None, o)
        else
          let (queue_ok, o) := alloc o in
          let (partial_ok, o) := alloc o in
          let (final_ok, o) := alloc o in
          if negb (queue_ok && partial_ok && final_ok) then (TURBO_AGENT_SPEECH_ENOMEM, None, o)
          else
            let buffer := replicate (S (Z.to_nat (max_text_bytes c))) 0 in
            (TURBO_AGENT_SPEECH_OK,
             Some (mk_input TURBO_AGENT_SPEECH_IDLE
                     (replicate (Z.to_nat (queue_frames c)) zero_slot)
                     (Z.to_nat (queue_frames c)) 0 0 0 0 0 false (max_utterance_frames c)
                     (max_text_bytes c) (mk_table b a f k) buffer buffer 0 0 0
                     TURBO_AGENT_SPEECH_NONE false []), o)
  | _, _ => (TURBO_AGENT_SPEECH_EINVAL, None, o)
  end.

(** NULL objects are refused by every operation; those below are given one.
    Results: the status, the object and the world afterwards. *)
Definition input_result : Type := turbo_agent_speech_status * turbo_agent_speech_input * World.

(** The states with a provider at work. *)
(* src/speech_input/src/turbo_agent_speech_input.c 173-174 turbo_agent_speech_begin *)
Definition working (x : turbo_agent_speech_input) : bool :=
  bool_decide (state x = TURBO_AGENT_SPEECH_ACTIVE)
  || bool_decide (state x = TURBO_AGENT_SPEECH_DRAINING).

(** [begin]'s first locked region. *)
(* src/speech_input/src/turbo_agent_speech_input.c 183-192 turbo_agent_speech_begin *)
Definition reset_utterance (x : turbo_agent_speech_input) (utterance : Z)
  : turbo_agent_speech_input :=
  let x := clear_queue_locked x in
  let x := set_admission 0 false (last_timestamp_us x) x in
  let x := set_utterance utterance x in
  let x := set_partial (truncate (partial x)) 0 0 x in
  let x := set_final (truncate (final x)) 0 TURBO_AGENT_SPEECH_NONE false x in
  record_event (EvUtterance utterance) (set_state TURBO_AGENT_SPEECH_IDLE x).

(* src/speech_input/src/turbo_agent_speech_input.c 169-200 turbo_agent_speech_begin *)
Definition turbo_agent_speech_begin (x : turbo_agent_speech_input) (utterance : Z)
    (env : environment) (w : World) : input_result :=
  if utterance =? 0 then (TURBO_AGENT_SPEECH_EINVAL, x, w)
  else if working x then (TURBO_AGENT_SPEECH_EBUSY, x, w)
  else if utterance <=? utterance_id x then (TURBO_AGENT_SPEECH_ESTALE, x, w)
  else
    let (x, _) := gap (reset_utterance x utterance) env in
    let (rc, w) := begin_fn (provider x) utterance w in
    if negb (rc =? 0)
    then let (x, w) := fail_provider x w in (TURBO_AGENT_SPEECH_EPROVIDER, x, w)
    else (TURBO_AGENT_SPEECH_OK, set_state TURBO_AGENT_SPEECH_ACTIVE x, w).

(* src/speech_input/src/turbo_agent_speech_input.c 239-249 turbo_agent_speech_request_finish *)
Definition turbo_agent_speech_request_finish (x : turbo_agent_speech_input)
  : turbo_agent_speech_status * turbo_agent_speech_input :=
  if negb (bool_decide (state x = TURBO_AGENT_SPEECH_ACTIVE))
  then (TURBO_AGENT_SPEECH_ESTATE, x)
  else (TURBO_AGENT_SPEECH_OK, set_state TURBO_AGENT_SPEECH_DRAINING x).

(** The locked region that takes the next frame: the slot is erased. *)
(* src/speech_input/src/turbo_agent_speech_input.c 272-277 turbo_agent_speech_pump *)
Definition dequeue (x : turbo_agent_speech_input) : speech_slot * turbo_agent_speech_input :=
  let slot := default zero_slot (queue x !! head x) in
  let x := set_queue (<[head x := zero_slot]> (queue x)) ((head x + 1) mod capacity x)
             (pred (count x)) x in
  (slot, record_event (EvDelivered slot) x).

(** The transcript that ends an utterance: [None] to fail with [ETEXT]. *)
(* src/speech_input/src/turbo_agent_speech_input.c 283-293 turbo_agent_speech_pump *)
Definition terminal_text (x : turbo_agent_speech_input) (r : turbo_agent_speech_transcript)
  : option (turbo_agent_speech_state * list Z * nat) :=
  let copied :=
    match copy_transcript x (tr_text r) (final x) with
    | (TURBO_AGENT_SPEECH_OK, f, n) => Some (f, n)
    | _ => None
    end in
  match tr_kind r with
  | TURBO_AGENT_SPEECH_TRANSCRIPT_FINAL =>
      if text_length (tr_text r) =? 0 then None
      else '(f, n) ← copied; Some (TURBO_AGENT_SPEECH_FINAL, f, n)
  | TURBO_AGENT_SPEECH_TRANSCRIPT_NO_SPEECH =>
      if negb (text_is_null (tr_text r)) || negb (text_length (tr_text r) =? 0) then None
      else '(f, n) ← copied; Some (TURBO_AGENT_SPEECH_NO_SPEECH, f, n)
  | _ => None
  end.

(** The end of a draining utterance. *)
(* src/speech_input/src/turbo_agent_speech_input.c 280-301 turbo_agent_speech_pump *)
Definition pump_finish (x : turbo_agent_speech_input) (env : environment) (w : World)
  : input_result :=
  let '(rc, r, w) := finish_fn (provider x) w in
  let (x, env) := gap x env in
  if negb (rc =? 0)
  then let (x, w) := fail_provider x w in (TURBO_AGENT_SPEECH_EPROVIDER, x, w)
  else match terminal_text x r with
  | None => let (x, w) := fail_provider x w in (TURBO_AGENT_SPEECH_ETEXT, x, w)
  | Some (st, f, n) =>
      let x := set_final f n (tr_kind r) (final_taken x) x in
      let x := set_partial (truncate (partial x)) 0 (revision x) (set_state st x) in
      (TURBO_AGENT_SPEECH_OK, x, w)
  end.

(** What the provider answered to one frame: [None] to fail with [ETEXT]. *)
(* src/speech_input/src/turbo_agent_speech_input.c 310-317 turbo_agent_speech_pump *)
Definition partial_text (x : turbo_agent_speech_input) (r : turbo_agent_speech_transcript)
  : option turbo_agent_speech_input :=
  match tr_kind r with
  | TURBO_AGENT_SPEECH_PARTIAL =>
      match copy_transcript x (tr_text r) (partial x) with
      | (TURBO_AGENT_SPEECH_OK, p, n) => Some (set_partial p n (u64 (revision x + 1)) x)
      | _ => None
      end
  | TURBO_AGENT_SPEECH_NONE =>
      if negb (text_is_null (tr_text r)) || negb (text_length (tr_text r) =? 0) then None
      else Some x
  | _ => None
  end.

(** The loop of [pump]; [budget] frames are left.  The result also gives the
    number of frames pumped when the call succeeds.  [None]: out of fuel. *)
(* src/speech_input/src/turbo_agent_speech_input.c 257-324 turbo_agent_speech_pump *)
Fixpoint pump_loop (fuel : nat) (x : turbo_agent_speech_input) (pumped budget : Z)
    (env : environment) (w : World) : option (input_result * Z) :=
  match fuel with
  | O => None
  | S fuel =>
      if negb (working x) then Some ((TURBO_AGENT_SPEECH_ESTATE, x, w), 0)
      else if negb (count x =? 0)%nat && (pumped <? budget)
      then
        let (slot, x) := dequeue x in
        let '(rc, r, w) := accept_frame_fn (provider x) slot.1 slot.2 w in
        let (x, env) := gap x env in
        if negb (rc =? 0)
        then let (x, w) := fail_provider x w in Some ((TURBO_AGENT_SPEECH_EPROVIDER, x, w), 0)
        else match partial_text x r with
        | None => let (x, w) := fail_provider x w in Some ((TURBO_AGENT_SPEECH_ETEXT, x, w), 0)
        | Some x =>
            let pumped := pumped + 1 in
            if pumped =? budget then Some ((TURBO_AGENT_SPEECH_OK, x, w), pumped)
            else pump_loop fuel x pumped budget env w
        end
      else if bool_decide (state x = TURBO_AGENT_SPEECH_DRAINING) && (count x =? 0)%nat
      then let '(st, x, w) := pump_finish x env w in
           Some ((st, x, w), if bool_decide (st = TURBO_AGENT_SPEECH_OK) then pumped else 0)
      else Some ((TURBO_AGENT_SPEECH_OK, x, w), pumped)
  end.

(** [out_pumped]: whether the out pointer is non-NULL. *)
(* src/speech_input/src/turbo_agent_speech_input.c 251-325 turbo_agent_speech_pump *)
Definition turbo_agent_speech_pump (x : turbo_agent_speech_input) (frame_budget : Z)
    (out_pumped : bool) (env : environment) (w : World) : option (input_result * Z) :=
  if negb out_pumped || (frame_budget =? 0)
  then Some ((TURBO_AGENT_SPEECH_EINVAL, x, w), 0)
  else pump_loop (Z.to_nat frame_budget) x 0 frame_budget env w.

(* src/speech_input/src/turbo_agent_speech_input.c 327-342 turbo_agent_speech_cancel *)
Definition turbo_agent_speech_cancel (x : turbo_agent_speech_input) (w : World)
  : input_result :=
  if negb (working x) then (TURBO_AGENT_SPEECH_ESTATE, x, w)
  else
    let x := clear_queue_locked (set_state TURBO_AGENT_SPEECH_CANCELED x) in
    let x := set_partial (truncate (partial x)) 0 (revision x) x in
    let x := set_final (truncate (final x)) 0 (terminal_kind x) (final_taken x) x in
    (TURBO_AGENT_SPEECH_OK, record_event EvCancel x, cancel_fn (provider x) w).

(** What is written to the caller: the text with its terminator (when it fits),
    the length and the revision. *)
(* src/speech_input/src/turbo_agent_speech_input.c 344-365 turbo_agent_speech_read_partial *)
Definition turbo_agent_speech_read_partial (x : turbo_agent_speech_input) (dst_bytes : Z)
  : turbo_agent_speech_status * option (list Z) * nat * Z :=
  if (revision x =? 0) || negb (working x) then (TURBO_AGENT_SPEECH_ESTATE, None, O, 0)
  else if dst_bytes <=? Z.of_nat (partial_len x)
  then (TURBO_AGENT_SPEECH_EBUFFER, None, partial_len x, revision x)
  else (TURBO_AGENT_SPEECH_OK, Some (take (S (partial_len x)) (partial x)), partial_len x,
        revision x).

(** What is written to the caller, and the object afterwards. *)
(* src/speech_input/src/turbo_agent_speech_input.c 367-390 turbo_agent_speech_take_final *)
Definition turbo_agent_speech_take_final (x : turbo_agent_speech_input) (dst_bytes : Z)
  : turbo_agent_speech_status *
    option (list Z * nat * turbo_agent_speech_transcript_kind) * turbo_agent_speech_input :=
  if (negb (bool_decide (state x = TURBO_AGENT_SPEECH_FINAL))
      && negb (bool_decide (state x = TURBO_AGENT_SPEECH_NO_SPEECH))) || final_taken x
  then (TURBO_AGENT_SPEECH_ESTATE, None, x)
  else if dst_bytes <=? Z.of_nat (final_len x)
  then (TURBO_AGENT_SPEECH_EBUFFER, Some ([], final_len x, terminal_kind x), x)
  else
    let text := take (S (final_len x)) (final x) in
    let x := set_final (final x) (final_len x) (terminal_kind x) true x in
    (TURBO_AGENT_SPEECH_OK, Some (text, final_len x, terminal_kind x),
     record_event (EvTaken (terminal_kind x) (take (final_len x) (final x))) x).

(* src/speech_input/src/turbo_agent_speech_input.c 392-400 turbo_agent_speech_get_state *)
Definition turbo_agent_speech_get_state (x : option turbo_agent_speech_input)
  : turbo_agent_speech_state :=
  match x with Some x => state x | None => TURBO_AGENT_SPEECH_FAILED end.

(* src/speech_input/src/turbo_agent_speech_input.c 402-422 turbo_agent_speech_destroy *)
Definition turbo_agent_speech_destroy (handle : option turbo_agent_speech_input)
  : turbo_agent_speech_status * option turbo_agent_speech_input :=
  match handle with
  | None => (TURBO_AGENT_SPEECH_EINVAL, None)
  | Some x => if working x then (TURBO_AGENT_SPEECH_EBUSY, Some x)
              else (TURBO_AGENT_SPEECH_OK, None)
  end.

(** ** Calls of the two threads *)

Inductive speech_op : Type :=
| OpOffer (f : offer)
| OpBegin (utterance : Z) (env : environment)
| OpFinish
| OpPump (budget : N) (env : environment)
| OpCancel
| OpTake (dst_bytes : Z).

(** [None]: a pump that ran out of fuel. *)
Definition speech_exec (op : speech_op) (x : turbo_agent_speech_input) (w : World)
  : option input_result :=
  match op with
  | OpOffer f => let (st, x) := turbo_agent_speech_offer_frame x f in Some (st, x, w)
  | OpBegin u env => Some (turbo_agent_speech_begin x u env w)
  | OpFinish => let (st, x) := turbo_agent_speech_request_finish x in Some (st, x, w)
  | OpPump b env => fst <$> turbo_agent_speech_pump x (Z.of_N b) true env w
  | OpCancel => Some (turbo_agent_speech_cancel x w)
  | OpTake n => let '(st, _, x) := turbo_agent_speech_take_final x n in Some (st, x, w)
  end.

Fixpoint speech_execs (ops : list speech_op) (x : turbo_agent_speech_input) (w : World)
  : option (turbo_agent_speech_input * World) :=
  match ops with
  | [] => Some (x, w)
  | op :: ops => '(_, x, w) ← speech_exec op x w; speech_execs ops x w
  end.

(** ** The ring *)

(** The frames in the queue, oldest first. *)
Definition ring (q : list speech_slot) (cap h n : nat) : list speech_slot :=
  (fun i => default zero_slot (q !! ((h + i) mod cap)%nat)) <$> seq 0 n.

Definition contents (x : turbo_agent_speech_input) : list speech_slot :=
  ring (queue x) (capacity x) (head x) (count x).

(** The slots that hold no frame are erased. *)
Definition erased (q : list speech_slot) (cap h n : nat) : Prop :=
  forall i, (n <= i < cap)%nat -> q !! ((h + i) mod cap)%nat = Some zero_slot.

Lemma ring_index cap h i : (h < cap)%nat -> (i < cap)%nat ->
  ((h + i) mod cap)%nat = (if decide (h + i < cap) then h + i else h + i - cap)%nat.
Proof.
  intros Hh Hi. case_decide; [by apply Nat.mod_small|].
  rewrite <- (Nat.mod_small (h + i - cap) cap) by lia.
  replace (h + i)%nat with (h + i - cap + 1 * cap)%nat at 1 by lia. by apply Nat.Div0.mod_add.
Qed.

Lemma ring_inj cap h i j : (h < cap)%nat -> (i < cap)%nat -> (j < cap)%nat ->
  ((h + i) mod cap)%nat = ((h + j) mod cap)%nat -> i = j.
Proof. intros Hh Hi Hj. rewrite !ring_index by done. repeat case_decide; lia. Qed.

Lemma ring_lt cap h i : (h < cap)%nat -> (i < cap)%nat -> ((h + i) mod cap < cap)%nat.
Proof. intros. apply Nat.mod_upper_bound. lia. Qed.

Lemma ring_push q cap h n slot :
  (h < cap)%nat -> (n < cap)%nat -> length q = cap ->
  ring (<[((h + n) mod cap)%nat := slot]> q) cap h (S n) = ring q cap h n ++ [slot].
Proof.
  intros Hh Hn Hl. unfold ring. rewrite seq_S, fmap_app. simpl. f_equal.
  - apply list_fmap_ext. intros i j Hij. apply lookup_seq in Hij as [-> Hi].
    f_equal. apply list_lookup_insert_ne. intros Heq. apply ring_inj in Heq; lia.
  - rewrite list_lookup_insert_eq; [done|]. rewrite Hl. by apply ring_lt.
Qed.

Lemma ring_pop q cap h n :
  (h < cap)%nat -> (S n <= cap)%nat -> length q = cap ->
  ring q cap h (S n) =
  default zero_slot (q !! h) :: ring (<[h := zero_slot]> q) cap ((h + 1) mod cap) n.
Proof.
  intros Hh Hn Hl. unfold ring. rewrite <- cons_seq. simpl. rewrite Nat.add_0_r.
  rewrite (Nat.mod_small h) by done. f_equal. rewrite <- fmap_S_seq, <- list_fmap_compose.
  apply list_fmap_ext. intros i j Hij. apply lookup_seq in Hij as [-> Hi]. simpl.
  replace (((h + 1) mod cap + i) mod cap)%nat with ((h + S i) mod cap)%nat
    by (rewrite Nat.Div0.add_mod_idemp_l; f_equal; lia).
  f_equal. symmetry. apply list_lookup_insert_ne. intros Heq.
  rewrite <- (Nat.mod_small h cap) in Heq at 1 by done. rewrite <- (Nat.add_0_r h) in Heq at 1.
  apply ring_inj in Heq; lia.
Qed.

Lemma erased_push q cap h n slot :
  (h < cap)%nat -> (n < cap)%nat -> length q = cap -> erased q cap h n ->
  erased (<[((h + n) mod cap)%nat := slot]> q) cap h (S n).
Proof.
  intros Hh Hn Hl He i Hi. rewrite list_lookup_insert_ne; [apply He; lia|].
  intros Heq. apply ring_inj in Heq; lia.
Qed.

Lemma erased_pop q cap h n :
  (h < cap)%nat -> (S n <= cap)%nat -> length q = cap -> erased q cap h (S n) ->
  erased (<[h := zero_slot]> q) cap ((h + 1) mod cap) n.
Proof.
  intros Hh Hn Hl He i Hi.
  replace (((h + 1) mod cap + i) mod cap)%nat with ((h + S i) mod cap)%nat
    by (rewrite Nat.Div0.add_mod_idemp_l; f_equal; lia).
  destruct (decide (S i = cap)) as [Hlast|].
  - replace (h + S i)%nat with (h + 1 * cap)%nat by lia.
    rewrite Nat.Div0.mod_add, Nat.mod_small by done. apply list_lookup_insert_eq. lia.
  - rewrite list_lookup_insert_ne; [apply He; lia|]. intros Heq.
    rewrite <- (Nat.mod_small h cap) in Heq at 1 by done. rewrite <- (Nat.add_0_r h) in Heq at 1.
    apply ring_inj in Heq; lia.
Qed.

Lemma erased_clear cap : erased (replicate cap zero_slot) cap 0 0.
Proof.
  intros i Hi. simpl. rewrite Nat.mod_small by lia. apply lookup_replicate. split; [done|lia].
Qed.

(** ** The invariant *)

(** What the log says about its last utterance. *)
Record tally := mk_tally {
  t_accepted : list speech_slot;
  t_delivered : list speech_slot;
  t_cancels : nat;
  t_takes : nat
}.

Definition tally_step (t : tally) (e : speech_event) : tally :=
  match e with
  | EvUtterance _ => mk_tally [] [] 0 0
  | EvAccepted s => mk_tally (t_accepted t ++ [s]) (t_delivered t) (t_cancels t) (t_takes t)
  | EvDelivered s => mk_tally (t_accepted t) (t_delivered t ++ [s]) (t_cancels t) (t_takes t)
  | EvCancel => mk_tally (t_accepted t) (t_delivered t) (S (t_cancels t)) (t_takes t)
  | EvTaken _ _ => mk_tally (t_accepted t) (t_delivered t) (t_cancels t) (S (t_takes t))
  end.

Definition tally_of (l : list speech_event) : tally :=
  foldl tally_step (mk_tally [] [] 0 0) l.

Lemma tally_app l e : tally_of (l ++ [e]) = tally_step (tally_of l) e.
Proof. unfold tally_of. by rewrite foldl_app. Qed.

Definition utterances (l : list speech_event) : list Z :=
  omap (fun e => match e with EvUtterance u => Some u | _ => None end) l.

(** A buffer holding [n] bytes of valid text and a terminator. *)
Definition good_text (buf : list Z) (n : nat) : Prop :=
  valid_utf8 (Text (take n buf)) = true /\ buf !! n = Some 0.

Definition state_ok (x : turbo_agent_speech_input) : Prop :=
  let t := tally_of (log x) in
  match state x with
  | TURBO_AGENT_SPEECH_IDLE =>
      count x = 0%nat /\ t_accepted t = t_delivered t /\ t_cancels t = 0%nat /\
      final_taken x = false
  | TURBO_AGENT_SPEECH_ACTIVE | TURBO_AGENT_SPEECH_DRAINING =>
      t_accepted t = t_delivered t ++ contents x /\ t_cancels t = 0%nat /\
      final_taken x = false /\ (revision x <> 0 -> good_text (partial x) (partial_len x))
  | TURBO_AGENT_SPEECH_FINAL =>
      count x = 0%nat /\ t_accepted t = t_delivered t /\ t_cancels t = 0%nat /\
      terminal_kind x = TURBO_AGENT_SPEECH_TRANSCRIPT_FINAL /\ (0 < final_len x)%nat /\
      good_text (final x) (final_len x)
  | TURBO_AGENT_SPEECH_NO_SPEECH =>
      count x = 0%nat /\ t_accepted t = t_delivered t /\ t_cancels t = 0%nat /\
      terminal_kind x = TURBO_AGENT_SPEECH_TRANSCRIPT_NO_SPEECH /\ final_len x = 0%nat /\
      good_text (final x) (final_len x)
  | TURBO_AGENT_SPEECH_CANCELED | TURBO_AGENT_SPEECH_FAILED =>
      count x = 0%nat /\ t_cancels t = 1%nat /\ final_taken x = false
  end.

Record input_wf (x : turbo_agent_speech_input) : Prop := {
  w_capacity : (1 <= capacity x)%nat /\ Z.of_nat (capacity x) <= 128;
  w_queue : length (queue x) = capacity x;
  w_head : (head x < capacity x)%nat;
  w_count : (count x <= capacity x)%nat;
  w_accepted : accepted x = Z.of_nat (length (t_accepted (tally_of (log x)))) /\
               accepted x <= max_frames x <= 3000;
  w_text : 1 <= max_text x <= 4096 /\ Z.of_nat (length (partial x)) = max_text x + 1 /\
           Z.of_nat (length (final x)) = max_text x + 1;
  w_lengths : Z.of_nat (partial_len x) <= max_text x /\ Z.of_nat (final_len x) <= max_text x;
  w_utterances : 0 <= utterance_id x /\ StronglySorted Z.lt (utterances (log x)) /\
                 Forall (fun u => u <= utterance_id x) (utterances (log x));
  w_erased : erased (queue x) (capacity x) (head x) (count x);
  w_times : StronglySorted Z.lt (snd <$> t_accepted (tally_of (log x))) /\
            (has_timestamp x = false -> t_accepted (tally_of (log x)) = []) /\
            (has_timestamp x = true ->
             Forall (fun ts => ts <= last_timestamp_us x) (snd <$> t_accepted (tally_of (log x))));
  w_takes : t_takes (tally_of (log x)) = (if final_taken x then 1%nat else 0%nat);
  w_state : state_ok x
}.

Lemma sorted_snoc (l : list Z) z :
  StronglySorted Z.lt l -> Forall (fun y => y < z) l -> StronglySorted Z.lt (l ++ [z]).
Proof.
  intros Hl Hz. apply StronglySorted_app_2; [|done|by repeat constructor].
  intros y y' Hy Hy'. apply list_elem_of_singleton in Hy' as ->.
  rewrite Forall_forall in Hz. by apply Hz.
Qed.

Lemma utterances_other l e :
  (forall u, e <> EvUtterance u) -> utterances (l ++ [e]) = utterances l.
Proof.
  intros He. unfold utterances. rewrite omap_app. destruct e; simpl; rewrite ?app_nil_r; try done.
  by destruct (He utterance).
Qed.

Lemma input_create_wf c p out o x o' :
  turbo_agent_speech_create c p out o = (TURBO_AGENT_SPEECH_OK, Some x, o') -> input_wf x.
Proof.
  unfold turbo_agent_speech_create. destruct out; [|done]. cbn [negb].
  destruct c as [c|]; [|done]. destruct p as [[? ? [b|] [a|] [f|] [k|]]|]; try done.
  destruct (negb (config_valid c) || _ || _) eqn:E; [done|].
  apply orb_false_iff in E as [[E _]%orb_false_iff _]. apply negb_false_iff in E.
  destruct (alloc o) as [[] o1]; [|done]. cbn [negb]. destruct (alloc o1) as [? o2].
  destruct (alloc o2) as [? o3]. destruct (alloc o3) as [? o4]. destruct (negb _); [done|].
  intros [= <- <-]. unfold config_valid, TURBO_AGENT_SPEECH_MAX_QUEUED_FRAMES,
    TURBO_AGENT_SPEECH_MAX_UTTERANCE_FRAMES, TURBO_AGENT_SPEECH_MAX_TEXT_BYTES in E.
  bool_to_prop.
  split; simpl; rewrite ?length_replicate; try done; try lia; try (repeat split; by constructor).
  - repeat split; try lia; constructor.
  - apply erased_clear.
Qed.

Lemma offer_wf x f : input_wf x -> input_wf (turbo_agent_speech_offer_frame x f).2.
Proof.
  intros Hwf. unfold turbo_agent_speech_offer_frame. destruct (of_pcm f) as [pcm|]; [|done].
  destruct (_ || _); [done|]. destruct (of_contended f); [done|]. destruct (negb _); [done|].
  destruct (bool_decide_reflect (state x = TURBO_AGENT_SPEECH_ACTIVE)) as [Hst|]; [|done].
  cbn [negb]. destruct (has_timestamp x && _) eqn:Ets; [done|].
  destruct ((count x =? capacity x)%nat || _) eqn:Ec; [done|]. cbv zeta. simpl.
  set (slot := (resize _ _ _, _)). apply orb_false_iff in Ec as [Ec Ea].
  apply Nat.eqb_neq in Ec. bool_to_prop.
  destruct Hwf as [Hcap Hq Hh Hn Hacc Htext Hlen Hutt Her [Hs [Hno Hlast]] Htk Hok].
  assert (Hlt : Forall (fun ts => ts < of_timestamp f) (snd <$> t_accepted (tally_of (log x)))).
  { destruct (has_timestamp x) eqn:Eh; [|by rewrite Hno; constructor]. simpl in Ets. bool_to_prop.
    eapply Forall_impl; [by apply Hlast|]. simpl. lia. }
  split; simpl; rewrite ?tally_app, ?utterances_other; simpl; try done; try lia.
  - by rewrite length_insert.
  - rewrite length_app. simpl. lia.
  - apply erased_push; [done|lia|done|done].
  - rewrite fmap_app. simpl. split; [by apply sorted_snoc|]. split; [done|]. intros _.
    apply Forall_app. split; [|by apply Forall_singleton].
    eapply Forall_impl; [exact Hlt|]. simpl. lia.
  - unfold state_ok in *. simpl. rewrite Hst in *. rewrite tally_app. simpl.
    destruct Hok as (Hacc' & ?). split; [|done]. unfold contents in *. simpl.
    rewrite ring_push by lia. by rewrite Hacc', app_assoc.
Qed.

(** What the capture thread cannot change. *)
Definition same_control (x y : turbo_agent_speech_input) : Prop :=
  state x = state y /\ provider x = provider y /\ partial x = partial y /\ final x = final y /\
  revision x = revision y /\ max_text x = max_text y /\
  t_delivered (tally_of (log x)) = t_delivered (tally_of (log y)).

Lemma offer_control x f : same_control x (turbo_agent_speech_offer_frame x f).2.
Proof.
  unfold turbo_agent_speech_offer_frame. repeat case_match; try done.
  cbv zeta. repeat split. simpl. by rewrite tally_app.
Qed.

#[local] Instance same_control_trans : Transitive same_control.
Proof. intros x y z (?&?&?&?&?&?&?) (?&?&?&?&?&?&?). repeat split; congruence. Qed.

Lemma gap_spec x env :
  input_wf x -> input_wf (gap x env).1 /\ same_control x (gap x env).1.
Proof.
  intros Hwf. destruct env as [|l env]; simpl; [done|]. revert x Hwf.
  induction l as [|f l IH]; intros x Hwf; simpl; [done|].
  pose proof (offer_wf x f Hwf) as Hf. destruct (IH _ Hf) as [Hl Hc].
  split; [done|]. by etrans; [apply offer_control|].
Qed.

Lemma copy_spec x t dst dst' n :
  copy_transcript x t dst = (TURBO_AGENT_SPEECH_OK, dst', n) ->
  Z.of_nat (length dst) = max_text x + 1 ->
  length dst' = length dst /\ Z.of_nat n <= max_text x /\ Z.of_nat n = text_length t /\
  good_text dst' n.
Proof.
  unfold copy_transcript. destruct (_ || _ || _) eqn:E; [done|]. intros [= <- <-] Hd.
  apply orb_false_iff in E as [[En El]%orb_false_iff Ev]. bool_to_prop.
  assert (Hlen : Z.of_nat (length (text_bytes t)) = text_length t).
  { destruct t as [m|l]; simpl in *; [|done]. rewrite andb_true_r in En. bool_to_prop. lia. }
  assert (Hv : valid_utf8 (Text (text_bytes t)) = true) by by destruct t.
  repeat split; [|lia|done| |].
  - unfold overwrite. rewrite length_app, length_drop, length_app. simpl. lia.
  - unfold overwrite. rewrite <- app_assoc. by rewrite take_app_length.
  - unfold overwrite. rewrite <- app_assoc, lookup_app_r by lia. by rewrite Nat.sub_diag.
Qed.

Lemma overwrite_length src dst :
  (length src <= length dst)%nat -> length (overwrite src dst) = length dst.
Proof. intros Hl. unfold overwrite. rewrite length_app, length_drop. lia. Qed.

Lemma truncate_length buf : (1 <= length buf)%nat -> length (truncate buf) = length buf.
Proof. intros Hl. by apply overwrite_length. Qed.

Lemma contents_empty x : count x = 0%nat -> contents x = [].
Proof. intros Hc. unfold contents, ring. by rewrite Hc. Qed.

(** Failing and cancelling: the same clean up, once. *)
Lemma stop_wf x st p f :
  input_wf x -> st = TURBO_AGENT_SPEECH_CANCELED \/ st = TURBO_AGENT_SPEECH_FAILED ->
  length p = length (partial x) -> length f = length (final x) ->
  t_cancels (tally_of (log x)) = 0%nat -> final_taken x = false ->
  input_wf (record_event EvCancel
    (set_final f 0 (terminal_kind x) (final_taken x)
      (set_partial p 0 (revision x) (clear_queue_locked (set_state st x))))).
Proof.
  intros [Hcap Hq Hh Hn Hacc Htext Hlen Hutt Her Hti Htk Hok] Hst Hp Hf Hc Ht.
  split; simpl; rewrite ?tally_app, ?utterances_other; simpl; try done; try lia.
  - apply length_replicate.
  - apply erased_clear.
  - unfold state_ok. simpl. rewrite tally_app. simpl. rewrite Hc.
    by destruct Hst as [-> | ->].
Qed.

Lemma fail_wf x w :
  input_wf x -> t_cancels (tally_of (log x)) = 0%nat -> final_taken x = false ->
  input_wf (fail_provider x w).1.
Proof.
  intros Hwf Hc Ht. unfold fail_provider. cbv zeta. simpl fst.
  eapply (stop_wf x TURBO_AGENT_SPEECH_FAILED (wipe (partial x)) (wipe (final x))); auto;
    apply length_replicate.
Qed.

Lemma working_ok x : input_wf x -> working x = true ->
  (state x = TURBO_AGENT_SPEECH_ACTIVE \/ state x = TURBO_AGENT_SPEECH_DRAINING) /\
  t_accepted (tally_of (log x)) = t_delivered (tally_of (log x)) ++ contents x /\
  t_cancels (tally_of (log x)) = 0%nat /\ final_taken x = false /\
  (revision x <> 0 -> good_text (partial x) (partial_len x)).
Proof.
  intros Hwf Hw. pose proof (w_state x Hwf) as Hs. unfold state_ok, working in *.
  destruct (state x); try discriminate Hw; cbv zeta in Hs; auto.
Qed.

Lemma reset_wf x u :
  input_wf x -> utterance_id x < u -> input_wf (reset_utterance x u).
Proof.
  intros [Hcap Hq Hh Hn Hacc Htext Hlen (Hu & Hsort & Hle) Her Hti Htk Hok] Hlt.
  split; simpl; rewrite ?tally_app; simpl; try done; try lia;
    try done.
  - apply length_replicate.
  - rewrite !length_drop. lia.
  - unfold utterances in *. rewrite omap_app. simpl. split; [lia|]. split.
    + apply sorted_snoc; [done|]. eapply Forall_impl; [exact Hle|]. simpl. lia.
    + apply Forall_app. split; [|by apply Forall_singleton].
      eapply Forall_impl; [exact Hle|]. simpl. lia.
  - apply erased_clear.
  - split; [constructor|]. split; [done|]. intros _. constructor.
  - unfold state_ok. simpl. by rewrite tally_app.
Qed.

Lemma begin_wf x u env w :
  input_wf x -> input_wf (turbo_agent_speech_begin x u env w).1.2.
Proof.
  intros Hwf. unfold turbo_agent_speech_begin. destruct (u =? 0); [done|].
  destruct (working x); [done|]. destruct (u <=? utterance_id x) eqn:E; [done|]. bool_to_prop.
  destruct (gap_spec _ env (reset_wf x u Hwf E)) as [Hg (Hs & _ & _ & _ & Hr & _)].
  destruct (gap (reset_utterance x u) env) as [y env']. simpl in Hg, Hs, Hr.
  pose proof (w_state y Hg) as Hok. unfold state_ok in Hok. rewrite <- Hs in Hok.
  destruct Hok as (Hcount & Had & Hc & Ht). destruct (begin_fn (provider y) u w) as [rc w'].
  destruct (negb (rc =? 0)).
  - pose proof (fail_wf y w' Hg Hc Ht) as Hf. by destruct (fail_provider y w').
  - simpl. destruct Hg as [Hcap Hq Hh Hn Hacc Htext Hlen Hutt Her Hti Htk _]. split; try done.
    unfold state_ok. simpl. rewrite contents_empty, app_nil_r by done.
    repeat split; try done; by rewrite <- Hr.
Qed.

Lemma set_state_wf x st :
  input_wf x -> state_ok (set_state st x) -> input_wf (set_state st x).
Proof. intros [] Hok. by split. Qed.

Lemma finish_wf x : input_wf x -> input_wf (turbo_agent_speech_request_finish x).2.
Proof.
  intros Hwf. unfold turbo_agent_speech_request_finish.
  destruct (bool_decide_reflect (state x = TURBO_AGENT_SPEECH_ACTIVE)) as [Hst|]; [|done].
  apply set_state_wf; [done|]. pose proof (w_state x Hwf) as Hok. unfold state_ok in *.
  by rewrite Hst in Hok.
Qed.

Lemma dequeue_wf x :
  input_wf x -> working x = true -> count x <> 0%nat -> input_wf (dequeue x).2.
Proof.
  intros Hwf Hw Hne. pose proof (working_ok x Hwf Hw) as (Hst & Hacc' & Hc & Ht & Hgood).
  destruct Hwf as [Hcap Hq Hh Hn Hacc Htext Hlen Hutt Her Hti Htk _].
  destruct (count x) as [|n] eqn:En; [done|]. unfold dequeue. cbv zeta. rewrite En. simpl.
  split; simpl; rewrite ?tally_app, ?utterances_other; simpl; try done; try lia.
  - by rewrite length_insert.
  - apply Nat.mod_upper_bound. lia.
  - apply erased_pop; [done|lia|done|done].
  - unfold state_ok. simpl. rewrite tally_app. simpl.
    assert (Hsplit : contents x = default zero_slot (queue x !! head x) ::
      ring (<[head x := zero_slot]> (queue x)) (capacity x) ((head x + 1) mod capacity x) n)
      by (unfold contents; rewrite En; by apply ring_pop).
    rewrite Hsplit in Hacc'. unfold contents. simpl.
    destruct Hst as [-> | ->]; (split; [by rewrite <- app_assoc|done]).
Qed.

Lemma partial_wf x r y :
  input_wf x -> working x = true -> partial_text x r = Some y ->
  input_wf y /\ working y = true.
Proof.
  intros Hwf Hw. unfold partial_text. pose proof (working_ok x Hwf Hw) as (Hst & ? & ? & ? & ?).
  destruct (tr_kind r); try done.
  - destruct (_ || _); [done|]. by intros [= <-].
  - destruct (copy_transcript x (tr_text r) (partial x)) as [[[] p] n] eqn:E; try done.
    intros [= <-]. apply copy_spec in E as (Hl & Hn & _ & Hg); [|apply Hwf].
    destruct Hwf as [Hcap Hq Hh Hc Hacc Htext Hlen Hutt Her Hti Htk _]. split; [|done].
    split; simpl; try done; try lia.
    unfold state_ok. simpl. destruct Hst as [-> | ->]; done.
Qed.

Lemma terminal_wf x r st f n :
  input_wf x -> state x = TURBO_AGENT_SPEECH_DRAINING -> count x = 0%nat ->
  terminal_text x r = Some (st, f, n) ->
  input_wf (set_partial (truncate (partial x)) 0 (revision x)
    (set_state st (set_final f n (tr_kind r) (final_taken x) x))).
Proof.
  intros Hwf Hst Hcount Hterm.
  destruct (working_ok x Hwf ltac:(unfold working; by rewrite Hst)) as (_ & Had & Hc & Ht & _).
  rewrite contents_empty, app_nil_r in Had by done.
  assert (Hcopy : copy_transcript x (tr_text r) (final x) = (TURBO_AGENT_SPEECH_OK, f, n) /\
    (st = TURBO_AGENT_SPEECH_FINAL /\ tr_kind r = TURBO_AGENT_SPEECH_TRANSCRIPT_FINAL /\
       text_length (tr_text r) <> 0 \/
     st = TURBO_AGENT_SPEECH_NO_SPEECH /\ tr_kind r = TURBO_AGENT_SPEECH_TRANSCRIPT_NO_SPEECH /\
       text_length (tr_text r) = 0)).
  { unfold terminal_text in Hterm. destruct (copy_transcript x (tr_text r) (final x)) as [[[] p] m];
      destruct (tr_kind r); try done;
      (destruct (_ =? 0) eqn:El in Hterm; bool_to_prop;
       rewrite ?orb_true_r, ?orb_false_r in Hterm; simpl in Hterm; try done).
    all: try (destruct (negb _); [done|]); simpl in Hterm; simplify_eq; auto. }
  destruct Hcopy as [Hcopy Hkind].
  apply copy_spec in Hcopy as (Hlf & Hn & Hnl & Hg); [|apply Hwf].
  destruct Hwf as [Hcap Hq Hh Hcn Hacc Htext Hlen Hutt Her Hti Htk _].
  split; simpl; try done; try lia.
  - rewrite length_drop. lia.
  - unfold state_ok. simpl. destruct Hkind as [(-> & Hk & Hz)|(-> & Hk & Hz)];
      rewrite Hcount; repeat split; try done; try lia; apply Hg.
Qed.

Lemma fail_delivered x w :
  t_delivered (tally_of (log (fail_provider x w).1)) = t_delivered (tally_of (log x)).
Proof. simpl. by rewrite tally_app. Qed.

(** Failing inside a pump. *)
Lemma pump_fail_wf x w :
  input_wf x -> working x = true -> input_wf (fail_provider x w).1.
Proof.
  intros Hwf Hw. destruct (working_ok x Hwf Hw) as (_ & _ & Hc & Ht & _). by apply fail_wf.
Qed.

Lemma gap_working x env : input_wf x -> working x = true -> working (gap x env).1 = true.
Proof.
  intros Hwf Hw. destruct (gap_spec x env Hwf) as [_ [Hs _]]. unfold working in *. by rewrite <- Hs.
Qed.

(** While draining no offer is admitted. *)
Lemma gap_draining x env :
  state x = TURBO_AGENT_SPEECH_DRAINING -> (gap x env).1 = x.
Proof.
  intros Hst. destruct env as [|l env]; [done|]. simpl.
  induction l as [|f l IH]; [done|]. simpl.
  assert ((turbo_agent_speech_offer_frame x f).2 = x) as ->; [|done].
  unfold turbo_agent_speech_offer_frame. rewrite Hst.
  destruct (of_pcm f); [|done]. destruct (_ || _); [done|]. destruct (of_contended f); [done|].
  by destruct (negb _).
Qed.

Lemma pump_finish_wf x env w :
  input_wf x -> state x = TURBO_AGENT_SPEECH_DRAINING -> count x = 0%nat ->
  input_wf (pump_finish x env w).1.2 /\
  t_delivered (tally_of (log (pump_finish x env w).1.2)) = t_delivered (tally_of (log x)).
Proof.
  intros Hwf Hst Hcount. unfold pump_finish.
  destruct (finish_fn (provider x) w) as [[rc r] w1].
  pose proof (gap_draining x env Hst) as Hg. destruct (gap x env) as [y env']. simpl in Hg.
  subst y. assert (Hw : working x = true) by (unfold working; by rewrite Hst).
  pose proof (pump_fail_wf x w1 Hwf Hw) as Hf. pose proof (fail_delivered x w1) as Hd.
  destruct (fail_provider x w1) as [z w2]. destruct (negb (rc =? 0)); [done|].
  destruct (terminal_text x r) as [[[st f] n]|] eqn:Et; [|done].
  split; [|done]. exact (terminal_wf x r st f n Hwf Hst Hcount Et).
Qed.

(** One pump: within its budget of provider calls it returns, and on success the
    reported count is the number of frames it delivered. *)
Lemma pump_loop_spec fuel x pumped budget env w :
  input_wf x -> 0 <= pumped < budget -> fuel = Z.to_nat (budget - pumped) ->
  exists st y w' k, pump_loop fuel x pumped budget env w = Some ((st, y, w'), k) /\
    input_wf y /\ 0 <= k <= budget /\
    let before := Z.of_nat (length (t_delivered (tally_of (log x)))) in
    let after := Z.of_nat (length (t_delivered (tally_of (log y)))) in
    before <= after <= before + (budget - pumped) /\
    (st = TURBO_AGENT_SPEECH_OK -> after = before + (k - pumped)).
Proof.
  revert x pumped env w. induction fuel as [|fuel IH]; intros x pumped env w Hwf Hp Hfuel; [lia|].
  cbn [pump_loop]. destruct (working x) eqn:Hw; cbn [negb].
  2: { do 4 eexists. split; [done|]. split; [done|]. split; [lia|]. split; [lia|done]. }
  destruct (negb (count x =? 0)%nat && (pumped <? budget)) eqn:Ehas.
  - bool_to_prop. match goal with H : (_ =? _)%nat = false |- _ => apply Nat.eqb_neq in H end.
    destruct (dequeue x) as [slot x1] eqn:Ed.
    assert (Hwf1 : input_wf x1) by (replace x1 with (dequeue x).2 by (by rewrite Ed); by apply dequeue_wf).
    assert (Hw1 : working x1 = true) by (unfold dequeue in Ed; by injection Ed as <- <-).
    assert (Hd1 : length (t_delivered (tally_of (log x1))) =
                  S (length (t_delivered (tally_of (log x))))).
    { unfold dequeue in Ed. injection Ed as _ <-. simpl. rewrite tally_app. simpl.
      rewrite length_app. simpl. lia. }
    destruct (accept_frame_fn (provider x1) slot.1 slot.2 w) as [[rc r] w1].
    destruct (gap_spec x1 env Hwf1) as [Hwf2 (_ & _ & _ & _ & _ & _ & Hd2)].
    pose proof (gap_working x1 env Hwf1 Hw1) as Hw2.
    destruct (gap x1 env) as [x2 env2]. simpl in Hwf2, Hd2, Hw2.
    pose proof (pump_fail_wf x2 w1 Hwf2 Hw2) as Hf. pose proof (fail_delivered x2 w1) as Hfd.
    destruct (fail_provider x2 w1) as [x3 w3]. simpl in Hf, Hfd.
    rewrite <- Hd2 in Hfd.
    destruct (negb (rc =? 0)).
    { do 4 eexists. split; [done|]. split; [done|]. split; [lia|]. cbv zeta.
      rewrite Hfd, Hd1. split; [lia|done]. }
    destruct (partial_text x2 r) as [x4|] eqn:Ep.
    2: { do 4 eexists. split; [done|]. split; [done|]. split; [lia|]. cbv zeta.
         rewrite Hfd, Hd1. split; [lia|done]. }
    assert (Hd4 : t_delivered (tally_of (log x4)) = t_delivered (tally_of (log x2)))
      by (unfold partial_text in Ep; repeat case_match; by simplify_eq).
    destruct (partial_wf x2 r x4 Hwf2 Hw2 Ep) as [Hwf4 Hw4].
    destruct (pumped + 1 =? budget) eqn:Eb; bool_to_prop.
    + do 4 eexists. split; [done|]. split; [done|]. split; [lia|]. cbv zeta.
      rewrite Hd4, <- Hd2, Hd1. split; lia.
    + destruct (IH x4 (pumped + 1) env2 w1 Hwf4 ltac:(lia) ltac:(lia))
        as (st & y & w' & k & -> & Hy & Hk & Hb & Hex).
      do 4 eexists. split; [done|]. split; [done|]. split; [lia|]. cbv zeta in *.
      rewrite Hd4, <- Hd2, Hd1 in Hb, Hex. split; [lia|]. intros Hok. specialize (Hex Hok). lia.
  - destruct (bool_decide (state x = TURBO_AGENT_SPEECH_DRAINING) && (count x =? 0)%nat) eqn:Ee.
    + bool_to_prop. match goal with H : (_ =? _)%nat = true |- _ => apply Nat.eqb_eq in H end.
      destruct (pump_finish_wf x env w) as [Hy Hd]; [done..|].
      destruct (pump_finish x env w) as [[st y] w']. simpl in Hy, Hd.
      do 4 eexists. split; [done|]. split; [done|]. cbv zeta. rewrite Hd.
      case_bool_decide; (split; [lia|]); (split; [lia|]); [lia|done].
    + do 4 eexists. split; [done|]. split; [done|]. split; [lia|]. cbv zeta. lia.
Qed.

Lemma cancel_wf x w : input_wf x -> input_wf (turbo_agent_speech_cancel x w).1.2.
Proof.
  intros Hwf. unfold turbo_agent_speech_cancel. destruct (working x) eqn:Hw; [|done].
  cbn [negb]. destruct (working_ok x Hwf Hw) as (_ & _ & Hc & Ht & _). cbv zeta. simpl fst.
  pose proof (w_text x Hwf) as Hl.
  apply (stop_wf x TURBO_AGENT_SPEECH_CANCELED (truncate (partial x)) (truncate (final x)));
    auto; apply truncate_length; lia.
Qed.

Lemma take_wf x n : input_wf x -> input_wf (turbo_agent_speech_take_final x n).2.
Proof.
  intros Hwf. unfold turbo_agent_speech_take_final. destruct (_ || final_taken x) eqn:E; [done|].
  destruct (n <=? _); [done|]. cbv zeta. simpl. apply orb_false_iff in E as [E Ht].
  apply andb_false_iff in E.
  destruct Hwf as [Hcap Hq Hh Hc Hacc Htext Hlen Hutt Her Hti Htk Hok].
  rewrite Ht in Htk. unfold state_ok in Hok. cbv zeta in Hok.
  split; simpl; rewrite ?tally_app, ?utterances_other; simpl; try done; try lia.
  unfold state_ok. simpl. rewrite tally_app. simpl.
  destruct E as [E|E]; bool_to_prop; rewrite E in Hok |- *; done.
Qed.

Lemma exec_wf op x w : input_wf x ->
  exists st y w', speech_exec op x w = Some (st, y, w') /\ input_wf y.
Proof.
  intros Hwf. destruct op as [f|u env| |b env| |n]; simpl.
  - pose proof (offer_wf x f Hwf). destruct (turbo_agent_speech_offer_frame x f). eauto.
  - pose proof (begin_wf x u env w Hwf). destruct (turbo_agent_speech_begin x u env w) as [[??]?].
    eauto.
  - pose proof (finish_wf x Hwf). destruct (turbo_agent_speech_request_finish x). eauto.
  - unfold turbo_agent_speech_pump. destruct (negb true || (Z.of_N b =? 0)) eqn:E; [by simpl; eauto|].
    simpl in E. bool_to_prop.
    destruct (pump_loop_spec (Z.to_nat (Z.of_N b)) x 0 (Z.of_N b) env w Hwf ltac:(lia) ltac:(lia))
      as (st & y & w' & k & -> & Hy & _). simpl. eauto.
  - pose proof (cancel_wf x w Hwf). destruct (turbo_agent_speech_cancel x w) as [[??]?]. eauto.
  - pose proof (take_wf x n Hwf). destruct (turbo_agent_speech_take_final x n) as [[??]?]. eauto.
Qed.

Lemma execs_wf ops x w : input_wf x ->
  exists y w', speech_execs ops x w = Some (y, w') /\ input_wf y.
Proof.
  revert x w. induction ops as [|op ops IH]; intros x w Hwf; simpl; [by eauto|].
  destruct (exec_wf op x w Hwf) as (st & y & w' & -> & Hy). by apply IH.
Qed.

(** ** What a host can rely on *)

(** C12. The queue is a queue: whatever the calls of the control thread and however
    the offers of the capture thread fall between and inside them, every call
    returns and, while an utterance is worked on, the frames accepted for it are
    exactly those delivered to the recognizer followed by those queued, in order;
    a finished utterance was delivered completely; the timestamps of accepted
    frames strictly increase; and the queue and the utterance stay within their
    configured bounds. *)
Theorem input_fifo c p out o x o' ops w :
  turbo_agent_speech_create c p out o = (TURBO_AGENT_SPEECH_OK, Some x, o') ->
  exists y w', speech_execs ops x w = Some (y, w') /\
  let t := tally_of (log y) in
  (working y = true -> t_accepted t = t_delivered t ++ contents y) /\
  (state y = TURBO_AGENT_SPEECH_FINAL \/ state y = TURBO_AGENT_SPEECH_NO_SPEECH ->
     t_accepted t = t_delivered t) /\
  StronglySorted Z.lt (snd <$> t_accepted t) /\
  (count y <= capacity y)%nat /\ Z.of_nat (capacity y) <= TURBO_AGENT_SPEECH_MAX_QUEUED_FRAMES /\
  Z.of_nat (length (t_accepted t)) <= max_frames y /\
  max_frames y <= TURBO_AGENT_SPEECH_MAX_UTTERANCE_FRAMES.
Proof.
  intros Hx%input_create_wf. destruct (execs_wf ops x w Hx) as (y & w' & Hrun & Hwf).
  exists y, w'. split; [done|]. cbv zeta.
  pose proof (w_accepted y Hwf). pose proof (w_capacity y Hwf). pose proof (w_state y Hwf) as Hok.
  unfold TURBO_AGENT_SPEECH_MAX_QUEUED_FRAMES, TURBO_AGENT_SPEECH_MAX_UTTERANCE_FRAMES.
  repeat split; try lia; [..|apply (w_times y Hwf)|apply (w_count y Hwf)].
  - intros Hw. by apply working_ok.
  - unfold state_ok in Hok. intros Hst. destruct Hst as [Hst|Hst]; rewrite Hst in Hok; tauto.
Qed.

(** No audio is kept: a slot that holds no queued frame is erased, so when no
    utterance is worked on the whole queue is; and the object can be destroyed in
    exactly those states. *)
Theorem input_erased c p out o x o' ops w :
  turbo_agent_speech_create c p out o = (TURBO_AGENT_SPEECH_OK, Some x, o') ->
  exists y w', speech_execs ops x w = Some (y, w') /\
  (forall i, (count y <= i < capacity y)%nat ->
     queue y !! ((head y + i) mod capacity y)%nat = Some zero_slot) /\
  (working y = false -> queue y = replicate (capacity y) zero_slot) /\
  turbo_agent_speech_destroy (Some y) =
    (if working y then (TURBO_AGENT_SPEECH_EBUSY, Some y) else (TURBO_AGENT_SPEECH_OK, None)).
Proof.
  intros Hx%input_create_wf. destruct (execs_wf ops x w Hx) as (y & w' & Hrun & Hwf).
  exists y, w'. split; [done|]. split; [apply (w_erased y Hwf)|]. split; [|done].
  intros Hw. pose proof (w_state y Hwf) as Hok. unfold state_ok, working in *.
  assert (Hc : count y = 0%nat) by (destruct (state y); try discriminate Hw; tauto).
  pose proof (w_queue y Hwf) as Hl. pose proof (w_head y Hwf) as Hh.
  apply list_eq. intros i. destruct (decide (i < capacity y)%nat) as [Hi|Hge].
  - rewrite (proj2 (lookup_replicate _ _ _ _)) by done.
    pose proof (w_erased y Hwf) as He. rewrite Hc in He.
    destruct (decide (head y <= i)%nat).
    + specialize (He (i - head y)%nat ltac:(lia)). rewrite ring_index in He by lia.
      rewrite decide_True in He by lia. by replace (head y + (i - head y))%nat with i in He by lia.
    + specialize (He (i + capacity y - head y)%nat ltac:(lia)). rewrite ring_index in He by lia.
      rewrite decide_False in He by lia.
      by replace (head y + (i + capacity y - head y) - capacity y)%nat with i in He by lia.
  - rewrite lookup_ge_None_2 by lia. symmetry. apply lookup_ge_None_2.
    rewrite length_replicate. lia.
Qed.

(** The pump is bounded: one call makes at most [budget] provider calls for
    frames, however many frames arrive meanwhile, and returns; on success the
    count it reports is the number of frames it delivered. *)
Theorem input_pump_bounded c p out o x o' ops w y w' budget env w1 :
  turbo_agent_speech_create c p out o = (TURBO_AGENT_SPEECH_OK, Some x, o') ->
  speech_execs ops x w = Some (y, w') -> 0 < budget ->
  exists st z w2 k, turbo_agent_speech_pump y budget true env w1 = Some ((st, z, w2), k) /\
    0 <= k <= budget /\
    let before := Z.of_nat (length (t_delivered (tally_of (log y)))) in
    let after := Z.of_nat (length (t_delivered (tally_of (log z)))) in
    before <= after <= before + budget /\ (st = TURBO_AGENT_SPEECH_OK -> after = before + k).
Proof.
  intros Hx%input_create_wf Hrun Hb. destruct (execs_wf ops x w Hx) as (y' & w'' & Hrun' & Hwf).
  rewrite Hrun in Hrun'. injection Hrun' as <- <-. unfold turbo_agent_speech_pump.
  rewrite (proj2 (Z.eqb_neq budget 0)) by lia. cbn [negb orb].
  destruct (pump_loop_spec (Z.to_nat budget) y 0 budget env w1 Hwf ltac:(lia)
              ltac:(f_equal; lia)) as (st & z & w2 & k & -> & _ & Hk & Hd & Hok).
  exists st, z, w2, k. split; [done|]. split; [done|]. cbv zeta in *.
  split; [lia|]. intros Hst. specialize (Hok Hst). lia.
Qed.

(** One transcript: the provider is cancelled at most once and the transcript
    taken at most once per utterance; what is taken is a terminated, well-formed
    UTF-8 text within the configured size (non-empty for a final transcript,
    empty for no speech), after every accepted frame was delivered and without a
    cancellation; it cannot be taken again, and a canceled or failed utterance
    yields none. *)
Theorem input_transcript c p out o x o' ops w y w' :
  turbo_agent_speech_create c p out o = (TURBO_AGENT_SPEECH_OK, Some x, o') ->
  speech_execs ops x w = Some (y, w') ->
  let t := tally_of (log y) in
  (t_cancels t <= 1)%nat /\ (t_takes t <= 1)%nat /\
  (forall n text len kind z,
     turbo_agent_speech_take_final y n = (TURBO_AGENT_SPEECH_OK, Some (text, len, kind), z) ->
     exists bytes, text = bytes ++ [0] /\ length bytes = len /\ valid_utf8 (Text bytes) = true /\
       Z.of_nat len <= max_text y /\ Z.of_nat len < n /\
       (kind = TURBO_AGENT_SPEECH_TRANSCRIPT_FINAL /\ bytes <> [] \/
        kind = TURBO_AGENT_SPEECH_TRANSCRIPT_NO_SPEECH /\ bytes = []) /\
       t_cancels t = 0%nat /\ t_accepted t = t_delivered t /\
       forall m, (turbo_agent_speech_take_final z m).1.1 = TURBO_AGENT_SPEECH_ESTATE) /\
  (t_cancels t = 1%nat ->
     forall m, (turbo_agent_speech_take_final y m).1.1 = TURBO_AGENT_SPEECH_ESTATE).
Proof.
  intros Hx%input_create_wf Hrun. destruct (execs_wf ops x w Hx) as (y' & w'' & Hrun' & Hwf).
  rewrite Hrun in Hrun'. injection Hrun' as <- <-. cbv zeta.
  pose proof (w_state y Hwf) as Hok. unfold state_ok in Hok. cbv zeta in Hok.
  split; [destruct (state y); destruct_and?; lia|].
  split; [rewrite (w_takes y Hwf); destruct (final_taken y); lia|]. split.
  - intros n text len kind z. unfold turbo_agent_speech_take_final.
    destruct (_ || final_taken y) eqn:E; [done|]. apply orb_false_iff in E as [E Ht].
    destruct (n <=? Z.of_nat (final_len y)) eqn:En; [done|]. cbv zeta. bool_to_prop.
    intros [= <- <- <- <-]. exists (take (final_len y) (final y)).
    pose proof (w_lengths y Hwf). pose proof (w_text y Hwf).
    assert (Hlen : length (take (final_len y) (final y)) = final_len y)
      by (rewrite length_take; lia).
    apply andb_false_iff in E. rewrite !negb_false_iff, !bool_decide_eq_true in E.
    assert (Hgood : good_text (final y) (final_len y) /\ t_cancels (tally_of (log y)) = 0%nat /\
      t_accepted (tally_of (log y)) = t_delivered (tally_of (log y)) /\
      (terminal_kind y = TURBO_AGENT_SPEECH_TRANSCRIPT_FINAL /\ (0 < final_len y)%nat \/
       terminal_kind y = TURBO_AGENT_SPEECH_TRANSCRIPT_NO_SPEECH /\ final_len y = 0%nat))
      by (destruct E as [E|E]; rewrite E in Hok; tauto).
    destruct Hgood as ([Hv Hz] & Hc & Had & Hk).
    repeat split; try done; try lia; [by apply take_S_r| |].
    + destruct Hk as [[-> Hp]|[-> Hp]]; [left|right]; (split; [done|]);
        [intros Hnil; rewrite Hnil in Hlen; simpl in Hlen; lia|by rewrite Hp, take_0].
    + intros m. simpl. by rewrite orb_true_r.
  - intros Hc m. unfold turbo_agent_speech_take_final.
    destruct (state y) eqn:Es; try (destruct_and?; lia); done.
Qed.

End speech_input.

(** ** The text filter *)

(** Scalar values other than NUL. *)
Definition text_scalar (cp : Z) : Prop := scalar cp /\ cp <> 0.

Lemma malformed_iff extra cp :
  (1 <= extra <= 3)%nat ->
  malformed extra cp = false <-> first_of extra <= cp <= 1114111 /\ text_scalar cp.
Proof.
  intros He. unfold malformed, text_scalar, scalar.
  rewrite !orb_false_iff, !andb_false_iff, !Z.ltb_ge, !Z.leb_gt, !Nat.eqb_neq.
  destruct extra as [|[|[|[|]]]]; try lia; simpl; lia.
Qed.

Lemma lead_byte_split a :
  lead_byte a = if (194 <=? a) && (a <=? 244) then Some (lead_split a) else None.
Proof. unfold lead_byte, lead_split. repeat case_match; bool_to_prop; try done; lia. Qed.

Lemma utf8_step_iff p rest :
  Forall byte p -> p <> [] ->
  utf8_step p = Some rest <-> exists cp, text_scalar cp /\ p = encode cp ++ rest.
Proof.
  intros Hp Hne. destruct p as [|a r]; [done|]. apply Forall_cons in Hp as [Ha Hr].
  assert (Hfirst : forall cp, text_scalar cp -> a :: r = encode cp ++ rest ->
    cp < 128 /\ a = cp /\ r = rest \/ 128 <= cp <= 1114111 /\ 194 <= a <= 244)
    by (intros cp [Hs _]; by apply encode_first).
  unfold byte in Ha. simpl. destruct (a =? 0) eqn:E0; bool_to_prop.
  { split; [done|]. intros (cp & Hs & Heq).
    destruct (Hfirst _ Hs Heq) as [(_ & -> & _)|]; [by destruct Hs|lia]. }
  destruct (a <? 128) eqn:E1; bool_to_prop.
  { split.
    - intros [= <-]. exists a. rewrite encode_ascii by done. split; [|done].
      unfold text_scalar, scalar. lia.
    - intros (cp & Hs & Heq). destruct (Hfirst _ Hs Heq) as [(_ & _ & ->)|]; [done|lia]. }
  rewrite lead_byte_split. destruct ((194 <=? a) && (a <=? 244)) eqn:E2; bool_to_prop.
  - pose proof (multibyte_step text_scalar malformed a r rest Hr ltac:(lia)) as Hm.
    destruct (lead_split a) as [extra x] eqn:El. etrans; [apply Hm|].
    + intros cp. apply malformed_iff, extra_range.
    + split; [intros (cp & ? & _ & ?); eauto|]. intros (cp & Hs & Heq). exists cp.
      split; [done|]. split; [|done]. destruct (Hfirst _ Hs Heq) as [(? & -> & _)|[? _]]; [lia|done].
  - split; [done|]. intros (cp & Hs & Heq). apply andb_false_iff in E2.
    destruct (Hfirst _ Hs Heq) as [(? & -> & _)|[_ ?]]; [lia|]. destruct E2; bool_to_prop; lia.
Qed.

(** The transcript filter accepts exactly the well-formed UTF-8 texts without
    NUL: the encodings of sequences of non-zero scalar values. *)
Theorem valid_utf8_iff p :
  Forall byte p ->
  valid_utf8 (Text p) = true <-> exists cps, Forall text_scalar cps /\ p = encode_all cps.
Proof.
  intros Hp. unfold valid_utf8. apply scan_iff; [|done|done].
  intros. by apply utf8_step_iff.
Qed.

(** ** Concrete runs *)

Module SpeechInputRuns.

(** A recognizer that hears "ok" in anything. *)
Definition recognizer : turbo_agent_speech_provider (World := nat) :=
  mk_provider sizeof_provider TURBO_AGENT_SPEECH_INPUT_ABI_VERSION
    (Some (fun _ w => (0, w)))
    (Some (fun _ _ w => (0, mk_transcript TURBO_AGENT_SPEECH_NONE (NullText 0), S w)))
    (Some (fun w => (0, mk_transcript TURBO_AGENT_SPEECH_TRANSCRIPT_FINAL (Text [111; 107]), w)))
    (Some (fun w => w)).

Definition created : turbo_agent_speech_input (World := nat) :=
  match (turbo_agent_speech_create (Some turbo_agent_speech_config_init) (Some recognizer) true
           []).1.2 with
  | Some x => x
  | None => mk_input TURBO_AGENT_SPEECH_IDLE [] 0 0 0 0 0 0 false 0 0
              (mk_table (fun _ w => (0, w))
                 (fun _ _ w => (0, mk_transcript TURBO_AGENT_SPEECH_NONE (NullText 0), w))
                 (fun w => (0, mk_transcript TURBO_AGENT_SPEECH_NONE (NullText 0), w))
                 (fun w => w)) [] [] 0 0 0 TURBO_AGENT_SPEECH_NONE false []
  end.

Lemma created_ok :
  turbo_agent_speech_create (Some turbo_agent_speech_config_init) (Some recognizer) true [] =
  (TURBO_AGENT_SPEECH_OK, Some created, []).
Proof. vm_compute. reflexivity. Defined.

Definition voice (ts : Z) : offer := mk_offer 1 (Some (replicate 320 9)) 320 ts false.

(** Two frames are queued; a third arrives while the first is recognized. *)
Definition talk : list speech_op :=
  [OpBegin 1 []; OpOffer (voice 10); OpOffer (voice 20); OpPump 1 [[voice 30]]].

Definition result (ops : list speech_op) : turbo_agent_speech_input * nat :=
  default (created, 0%nat) (speech_execs ops created 0%nat).

Lemma result_run ops y w :
  speech_execs ops created 0%nat = Some (y, w) -> (result ops).1 = y.
Proof. intros Hrun. unfold result. rewrite Hrun. reflexivity. Defined.

Lemma input_fifo_witness :
  exists y w', speech_execs talk created 0%nat = Some (y, w') /\
    snd <$> t_accepted (tally_of (log y)) = [10; 20; 30] /\
    t_accepted (tally_of (log y)) = t_delivered (tally_of (log y)) ++ contents y.
Proof.
  destruct (input_fifo _ _ _ _ _ _ talk 0%nat created_ok) as (y & w' & Hrun & Hq & _).
  exists y, w'. split; [exact Hrun|]. apply result_run in Hrun as <-.
  split; [vm_compute; reflexivity|]. apply Hq. vm_compute. reflexivity.
Defined.

Lemma input_erased_witness :
  exists y w', speech_execs (talk ++ [OpCancel]) created 0%nat = Some (y, w') /\
    queue y = replicate (capacity y) zero_slot.
Proof.
  destruct (input_erased _ _ _ _ _ _ (talk ++ [OpCancel]) 0%nat created_ok)
    as (y & w' & Hrun & _ & He & _).
  exists y, w'. split; [exact Hrun|]. apply He. apply result_run in Hrun as <-.
  vm_compute. reflexivity.
Defined.

Lemma input_pump_bounded_witness :
  exists st z w2 k, turbo_agent_speech_pump (result talk).1 1 true [] 0%nat =
    Some ((st, z, w2), k) /\ 0 <= k <= 1.
Proof.
  destruct (input_pump_bounded _ _ _ _ _ _ talk 0%nat (result talk).1 (result talk).2 1 [] 0%nat
              created_ok) as (st & z & w2 & k & Hp & Hk & _);
    [vm_compute; reflexivity|lia|].
  exists st, z, w2, k. split; [exact Hp|exact Hk].
Defined.

Definition finished : list speech_op := talk ++ [OpFinish; OpPump 2 []; OpPump 1 []].

Lemma input_transcript_witness :
  exists z, turbo_agent_speech_take_final (result finished).1 64 =
      (TURBO_AGENT_SPEECH_OK,
       Some ([111; 107; 0], 2%nat, TURBO_AGENT_SPEECH_TRANSCRIPT_FINAL), z) /\
    (turbo_agent_speech_take_final z 64).1.1 = TURBO_AGENT_SPEECH_ESTATE.
Proof.
  exists (turbo_agent_speech_take_final (result finished).1 64).2.
  split; [vm_compute; reflexivity|].
  destruct (input_transcript _ _ _ _ _ _ finished 0%nat (result finished).1 (result finished).2
              created_ok) as (_ & _ & Ht & _); [vm_compute; reflexivity|].
  destruct (Ht 64 [111; 107; 0] 2%nat TURBO_AGENT_SPEECH_TRANSCRIPT_FINAL
              (turbo_agent_speech_take_final (result finished).1 64).2)
    as (_ & _ & _ & _ & _ & _ & _ & _ & _ & Hagain); [vm_compute; reflexivity|].
  apply Hagain.
Defined.

Lemma valid_utf8_iff_witness :
  Forall byte [240; 159; 142; 164] /\
  exists cps, Forall text_scalar cps /\ [240; 159; 142; 164] = encode_all cps.
Proof.
  assert (Hb : Forall byte [240; 159; 142; 164])
    by (repeat (apply Forall_cons; split; [unfold byte; lia|]); apply Forall_nil; exact I).
  split; [exact Hb|]. apply (valid_utf8_iff _ Hb). vm_compute. reflexivity.
Defined.

End SpeechInputRuns.
