(* ===== verification/TextSplitter.v ===== *)
(** * Text splitter (src/agent/src/turbo_text_splitter.c)

    Splitting a text into overlapping chunks for the vector store: the search
    for a cut after a newline, the loop with its [size_t] arithmetic and every
    allocation, and the chunk documents with their byte offsets.

    [tiles] specifies the cuts without the loop: where each chunk ends, and that
    the chunks overlap by exactly the requested number of bytes, so that the
    text can be put together again ([tiles_reassemble]). *)

From S2P Require Import Prelude RuntimeJson.

Abbreviation text_bytes := (list Ascii.ascii).

Definition newline : Ascii.ascii := Ascii.ascii_of_nat 10.

(** [text[i] == '\n'] *)
Definition newline_at (text : text_bytes) (i : Z) : bool :=
  bool_decide (text !! Z.to_nat i = Some newline).

(** The bytes [start, end) of a text. *)
Definition slice (text : text_bytes) (start fin : Z) : text_bytes :=
  take (Z.to_nat (fin - start)) (drop (Z.to_nat start) text).

(* src/agent/include/turbo_text_splitter.h 13-16 turbo_text_splitter_options_t *)
Record turbo_text_splitter_options := mk_splitter_options {
  chunk_size : Z;
  chunk_overlap : Z
}.

(** [for (i = target; i > target / 2; --i)], [n] iterations being left. *)
(* src/agent/src/turbo_text_splitter.c 15-19 turbo_text_splitter_next_chunk_len *)
Fixpoint newline_scan (text : text_bytes) (i : Z) (n : nat) : option Z :=
  match n with
  | O => None
  | S n => if newline_at text i then Some (i + 1) else newline_scan text (i - 1) n
  end.

(* src/agent/src/turbo_text_splitter.c 7-21 turbo_text_splitter_next_chunk_len *)
Definition turbo_text_splitter_next_chunk_len (text : text_bytes) (remaining target : Z) : Z :=
  if remaining <=? target then remaining
  else default target (newline_scan text target (Z.to_nat (target - target / 2))).

(** The default size; the defaults of absent options. *)
(* src/agent/src/turbo_text_splitter.c 47-51 turbo_text_splitter_split_text *)
Definition effective_options (options : option turbo_text_splitter_options)
  : turbo_text_splitter_options :=
  let size := match options with Some opt => chunk_size opt | None => 0 end in
  let overlap := match options with Some opt => chunk_overlap opt | None => 0 end in
  mk_splitter_options (if size =? 0 then 2048 else size) overlap.

(** The length of the chunk at [offset], never too short to advance. *)
(* src/agent/src/turbo_text_splitter.c 62-71 turbo_text_splitter_split_text *)
Definition chunk_length (text : text_bytes) (opt : turbo_text_splitter_options)
    (offset : Z) : Z :=
  let remaining := Z.of_nat (length text) - offset in
  let chunk_len :=
    turbo_text_splitter_next_chunk_len (drop (Z.to_nat offset) text) remaining (chunk_size opt) in
  if (chunk_len <=? chunk_overlap opt) && (chunk_overlap opt <? remaining)
  then chunk_overlap opt + 1 else chunk_len.

Section splitter.
Context {J : Type} `{JsonSetters J}.

(** The chunk object is allocated first; the copy of the text comes after the
    check for an empty chunk.  [None]: the whole split fails. *)
(* src/agent/src/turbo_text_splitter.c 65-87 turbo_text_splitter_split_text *)
Definition append_chunk (text : text_bytes) (offset chunk_len : Z) (chunks : J) (o : oracle)
  : option J * oracle :=
  let (have_chunk, o) := alloc o in
  if (chunk_len =? 0) || negb have_chunk then (None, o)
  else
    let (have_text, o) := alloc o in
    if negb have_text then (None, o)
    else
      let chunk_text := slice text offset (offset + chunk_len) in
      let (chunk, o) := json_object_set_string json_create_object "text"
                          (String.string_of_list_ascii chunk_text) o in
      let (chunk, o) := json_object_set_number chunk "start" (double_of_uint offset) o in
      let (chunk, o) := json_object_set_number chunk "end"
                          (double_of_uint (u64 (offset + chunk_len))) o in
      let (chunks, o) := json_array_add_owned chunks chunk o in
      (Some chunks, o).

(** [None] is running out of fuel; [Some (None, _)] the failure exit. *)
(* src/agent/src/turbo_text_splitter.c 61-93 turbo_text_splitter_split_text *)
Fixpoint split_loop (fuel : nat) (text : text_bytes) (opt : turbo_text_splitter_options)
    (offset : Z) (chunks : J) (o : oracle) : option (option J * oracle) :=
  let text_len := Z.of_nat (length text) in
  if text_len <=? offset then Some (Some chunks, o)
  else
    match fuel with
    | O => None
    | S fuel =>
        let chunk_len := chunk_length text opt offset in
        match append_chunk text offset chunk_len chunks o with
        | (None, o) => Some (None, o)
        | (Some chunks, o) =>
            if text_len <=? u64 (offset + chunk_len) then Some (Some chunks, o)
            else split_loop fuel text opt
                   (u64 (offset + u64 (chunk_len - chunk_overlap opt))) chunks o
        end
    end.

(** The result: status, the output and the rest of the oracle. *)
(* src/agent/src/turbo_text_splitter.c 35-97 turbo_text_splitter_split_text *)
Definition turbo_text_splitter_split_text (fuel : nat) (text : option text_bytes)
    (options : option turbo_text_splitter_options) (out_chunks_json : bool) (o : oracle)
  : option (Z * option J * oracle) :=
  match text with
  | None => Some (-1, None, o)
  | Some text =>
      if negb out_chunks_json then Some (-1, None, o)
      else
        let opt := effective_options options in
        if chunk_size opt <=? chunk_overlap opt then Some (-1, None, o)
        else
          let (have_chunks, o) := alloc o in
          if negb have_chunks then Some (-1, None, o)
          else
            match split_loop fuel text opt 0 json_create_array o with
            | None => None
            | Some (None, o) => Some (-1, None, o)
            | Some (Some chunks, o) => Some (0, Some chunks, o)
            end
  end.

(** ** Specification *)

(** The document of the chunk [start, end). *)
Definition chunk_document (text : text_bytes) (span : Z * Z) : J :=
  json_object_add
    (json_object_add
      (json_object_add json_create_object "text"
        (json_create_string (String.string_of_list_ascii (slice text span.1 span.2))))
      "start" (json_create_number (double_of_uint span.1)))
    "end" (json_create_number (double_of_uint span.2)).
End splitter.

Section tiles.
Context (text : text_bytes) (size overlap : Z).

(** Where a chunk at [s] that is not the rest of the text ends: after the last
    newline of the second half of the window, but past the overlap; without
    such a newline the chunk has the full size. *)
Definition cut (s e : Z) : Prop :=
  (exists i, size / 2 < i <= size /\ newline_at text (s + i) = true /\
     (forall j, i < j <= size -> newline_at text (s + j) = false) /\
     e - s = Z.max i overlap + 1) \/
  ((forall j, size / 2 < j <= size -> newline_at text (s + j) = false) /\ e - s = size).

Inductive tiles : Z -> list (Z * Z) -> Prop :=
| tiles_last s :
    s < Z.of_nat (length text) ->
    Z.of_nat (length text) - s <= size \/ cut s (Z.of_nat (length text)) ->
    tiles s [(s, Z.of_nat (length text))]
| tiles_cons s e rest :
    cut s e -> e < Z.of_nat (length text) ->
    tiles (e - overlap) rest -> tiles s ((s, e) :: rest).

End tiles.

(** What is left of the chunks when the repeated bytes are dropped. *)
Definition reassemble (text : text_bytes) (overlap : Z) (spans : list (Z * Z)) : text_bytes :=
  match spans with
  | [] => []
  | (s, e) :: rest => slice text s e ++ mjoin ((fun sp => slice text (sp.1 + overlap) sp.2) <$> rest)
  end.

(** ** The cuts *)

Lemma newline_scan_spec text n : forall i,
  match newline_scan text i n with
  | Some r => exists k, i - Z.of_nat n < k <= i /\ r = k + 1 /\ newline_at text k = true /\
      forall j, k < j <= i -> newline_at text j = false
  | None => forall j, i - Z.of_nat n < j <= i -> newline_at text j = false
  end.
Proof.
  induction n as [|n IH]; intros i; cbn [newline_scan]; [lia|].
  destruct (newline_at text i) eqn:E; [exists i; repeat split; (done || lia)|].
  specialize (IH (i - 1)).
  assert (Hj : forall j, i - 1 < j <= i -> newline_at text j = false)
    by (intros j Hj; replace j with i by lia; done).
  destruct (newline_scan text (i - 1) n) as [r|].
  - destruct IH as (k & Hk & -> & Hn & Hnone). exists k. repeat split; (done || lia || idtac).
    intros j Hjk. destruct (decide (j <= i - 1)); [apply Hnone; lia|apply Hj; lia].
  - intros j Hjk. destruct (decide (j <= i - 1)); [apply IH; lia|apply Hj; lia].
Qed.

Lemma newline_at_drop text s i : 0 <= s -> 0 <= i ->
  newline_at (drop (Z.to_nat s) text) i = newline_at text (s + i).
Proof.
  intros Hs Hi. unfold newline_at. by rewrite lookup_drop, Z2Nat.inj_add by lia.
Qed.

Lemma newline_at_inside text i : 0 <= i -> newline_at text i = true -> i < Z.of_nat (length text).
Proof.
  unfold newline_at. intros Hi Hn. apply bool_decide_eq_true, lookup_lt_Some in Hn. lia.
Qed.

(** What one call of the cut search gives inside the loop. *)
Lemma chunk_length_spec text opt s :
  0 <= chunk_overlap opt < chunk_size opt -> 0 <= s < Z.of_nat (length text) ->
  let e := s + chunk_length text opt s in
  let len := Z.of_nat (length text) in
  s < e <= len /\
  (e = len /\ (len - s <= chunk_size opt \/ cut text (chunk_size opt) (chunk_overlap opt) s len) \/
   chunk_overlap opt < e - s /\ cut text (chunk_size opt) (chunk_overlap opt) s e).
Proof.
  destruct opt as [size overlap]. intros Ho Hs. cbn [chunk_size chunk_overlap] in *.
  unfold chunk_length, turbo_text_splitter_next_chunk_len. cbn [chunk_size chunk_overlap].
  set (len := Z.of_nat (length text)) in *. cbv zeta.
  destruct (Z.leb_spec (len - s) size) as [Hle|Hgt].
  { replace ((len - s <=? overlap) && (overlap <? len - s)) with false by lia.
    split; [lia|]. left. split; [lia|by left]. }
  assert (Hhalf : 0 <= size / 2 < size) by (split; [apply Z.div_pos|apply Z.div_lt]; lia).
  pose proof (newline_scan_spec (drop (Z.to_nat s) text) (Z.to_nat (size - size / 2)) size) as Hscan.
  rewrite Z2Nat.id in Hscan by lia.
  destruct (newline_scan _ _ _) as [r|]; cbn [default from_option].
  - destruct Hscan as (k & Hk & -> & Hn & Hnone).
    rewrite newline_at_drop in Hn by lia. apply newline_at_inside in Hn as Hin; [|lia].
    assert (Hlen : (if (k + 1 <=? overlap) && (overlap <? len - s) then overlap + 1 else k + 1)
                   = Z.max k overlap + 1)
      by (destruct (Z.leb_spec (k + 1) overlap), (Z.ltb_spec overlap (len - s)); cbn [andb]; lia).
    unfold id. rewrite Hlen. split; [lia|right; split; [lia|left]].
    exists k. repeat split; (done || lia || idtac).
    intros j Hj. rewrite <- newline_at_drop by lia. apply Hnone. lia.
  - replace ((size <=? overlap) && _) with false by (symmetry; apply andb_false_intro1; lia).
    split; [lia|right; split; [lia|right]]. split; [|lia].
    intros j Hj. rewrite <- newline_at_drop by lia. apply Hscan. lia.
Qed.

(** ** Putting the text together again *)

Lemma slice_all text : slice text 0 (Z.of_nat (length text)) = text.
Proof. unfold slice. rewrite Z.sub_0_r, Nat2Z.id, firstn_all. done. Qed.

Lemma slice_app text a b c : 0 <= a <= b -> b <= c ->
  slice text a c = slice text a b ++ slice text b c.
Proof.
  intros Hab Hbc. unfold slice.
  replace (drop (Z.to_nat b) text) with (drop (Z.to_nat (b - a)) (drop (Z.to_nat a) text))
    by (rewrite drop_drop; f_equal; lia).
  replace (Z.to_nat (c - a)) with (Z.to_nat (b - a) + Z.to_nat (c - b))%nat by lia.
  by rewrite <- take_take_drop.
Qed.

Lemma cut_longer text size overlap s e :
  0 <= overlap < size -> cut text size overlap s e -> overlap < e - s <= size + 1.
Proof. intros Ho [(i & ? & _ & _ & ?)|[_ ?]]; lia. Qed.

Lemma tiles_reassemble text size overlap s spans :
  0 <= overlap < size -> 0 <= s -> tiles text size overlap s spans ->
  reassemble text overlap spans = slice text s (Z.of_nat (length text)).
Proof.
  intros Ho Hs Ht. revert Hs. induction Ht as [s Hlt _|s e rest Hcut Hlt Ht IH]; intros Hs; simpl.
  { apply app_nil_r. }
  apply cut_longer in Hcut as Hlong; [|done].
  rewrite (slice_app text s e (Z.of_nat (length text))) by lia. f_equal.
  specialize (IH ltac:(lia)).
  assert (Hhd : exists e' rest', rest = (e - overlap, e') :: rest' /\ e < e' <= Z.of_nat (length text)).
  { inversion Ht as [? Hl|? e' ? Hc]; subst; [do 2 eexists; split; [done|lia]|].
    apply cut_longer in Hc; [|done]. do 2 eexists; split; [done|lia]. }
  destruct Hhd as (e' & rest' & -> & He'). cbn [reassemble] in IH. simpl.
  rewrite (slice_app text (e - overlap) e (Z.of_nat (length text))) in IH by lia.
  rewrite (slice_app text (e - overlap) e e'), <- app_assoc in IH by lia.
  replace (e - overlap + overlap) with e by lia. by apply app_inv_head in IH.
Qed.

(** ** The loop *)

Section split.
Context {J : Type} `{JsonSettersLaws J, !JsonLaws J}.

Lemma append_chunk_plenty text offset chunk_len (chunks : J) o :
  0 < chunk_len -> 0 <= offset -> offset + chunk_len <= SIZE_MAX -> plenty o ->
  exists o', plenty o' /\ append_chunk text offset chunk_len chunks o =
    (Some (json_array_add chunks (chunk_document text (offset, offset + chunk_len))), o').
Proof.
  intros Hpos Hoff Hmax Ho. unfold append_chunk.
  destruct (alloc_plenty o Ho) as (o1 & Ho1 & ->).
  replace (chunk_len =? 0) with false by lia. cbn [orb negb].
  destruct (alloc_plenty o1 Ho1) as (o2 & Ho2 & ->). cbn [negb].
  destruct (json_set_string_plenty (J := J) json_create_object "text"
    (String.string_of_list_ascii (slice text offset (offset + chunk_len))) o2 Ho2) as (o3 & Ho3 & ->).
  edestruct (json_set_number_plenty (J := J)) as (o4 & Ho4 & ->); [exact Ho3|].
  edestruct (json_set_number_plenty (J := J)) as (o5 & Ho5 & ->); [exact Ho4|].
  edestruct (json_array_add_plenty (J := J)) as (o6 & Ho6 & ->); [exact Ho5|].
  exists o6. split; [done|]. rewrite u64_small; [done|]. unfold UINT64_MAX, SIZE_MAX in *. lia.
Qed.

(** Enough fuel is one unit per byte left; no [size_t] operation wraps. *)
Lemma split_loop_spec text opt fuel : forall s (chunks : J) o,
  0 <= chunk_overlap opt < chunk_size opt -> Z.of_nat (length text) <= SIZE_MAX ->
  0 <= s <= Z.of_nat (length text) -> Z.of_nat (length text) - s <= Z.of_nat fuel ->
  exists r o', split_loop fuel text opt s chunks o = Some (r, o') /\
    (plenty o -> json_type chunks = JSON_ARRAY -> exists arr spans, r = Some arr /\
       json_array_items arr = json_array_items chunks ++ (chunk_document text <$> spans) /\
       (s = Z.of_nat (length text) /\ spans = [] \/
        tiles text (chunk_size opt) (chunk_overlap opt) s spans)).
Proof.
  induction fuel as [|fuel IH]; intros s chunks o Ho Hmax Hs Hfuel; cbn [split_loop];
    destruct (Z.leb_spec (Z.of_nat (length text)) s) as [Hend|Hlt]; try lia.
  1,2: exists (Some chunks), o; split; [done|]; intros _ _; exists chunks, [];
    repeat split; [by rewrite app_nil_r|left; split; [lia|done]].
  destruct (chunk_length_spec text opt s Ho ltac:(lia)) as [He Hcut].
  set (n := chunk_length text opt s) in *.
  pose proof (append_chunk_plenty text s n chunks o ltac:(lia) ltac:(lia) ltac:(lia)) as Hplenty.
  destruct (append_chunk text s n chunks o) as [[chunks'|] o1] eqn:Eapp.
  2: { exists None, o1. split; [done|]. intros Hp _. by destruct (Hplenty Hp) as (? & _ & [= ?]). }
  rewrite u64_small by (unfold UINT64_MAX, SIZE_MAX in *; lia).
  destruct (Z.leb_spec (Z.of_nat (length text)) (s + n)) as [Hlast|Hmore].
  { exists (Some chunks'), o1. split; [done|]. intros Hp Hty.
    destruct (Hplenty Hp) as (o' & _ & [= -> _]). do 2 eexists. split; [done|].
    rewrite json_items_add by done. replace (s + n) with (Z.of_nat (length text)) in * by lia.
    split; [|right; apply tiles_last; [lia|]]; [done|]. destruct Hcut as [[_ ?]|[_ ?]]; [done|by right]. }
  destruct Hcut as [[? _]|[Hlong Hcut]]; [lia|].
  rewrite (u64_small (n - _)) by (unfold UINT64_MAX, SIZE_MAX in *; lia).
  rewrite u64_small by (unfold UINT64_MAX, SIZE_MAX in *; lia).
  replace (s + (n - chunk_overlap opt)) with (s + n - chunk_overlap opt) by lia.
  destruct (IH (s + n - chunk_overlap opt) chunks' o1) as (r & o' & -> & HIH); try lia.
  exists r, o'. split; [done|]. intros Hp Hty.
  destruct (Hplenty Hp) as (o2 & Ho2 & [= -> ->]).
  destruct HIH as (arr & spans & -> & Hitems & Hspans); [done|by apply json_type_array_add|].
  exists arr, ((s, s + n) :: spans). split; [done|].
  rewrite Hitems, json_items_add, <- app_assoc by done. split; [done|right].
  destruct Hspans as [[? ->]|Hspans]; [lia|]. by apply tiles_cons.
Qed.

(** Splitting always returns.  It fails exactly for a missing argument, an
    overlap that is not smaller than the chunk size, or exhausted memory.
    Otherwise the documents are those of spans that tile the text: each chunk
    ends after the last newline of the second half of its window (or is full
    size), consecutive chunks overlap by exactly the requested bytes, and the
    chunks without the repeated bytes are the text. *)
Theorem split_text_tiles (text : text_bytes) (options : option turbo_text_splitter_options)
    (fuel : nat) (o : oracle) :
  let opt := effective_options options in
  Z.of_nat (length text) <= SIZE_MAX -> (length text <= fuel)%nat -> 0 <= chunk_overlap opt ->
  exists rc out o',
    turbo_text_splitter_split_text (J := J) fuel (Some text) options true o = Some (rc, out, o') /\
    (rc = 0 /\ is_Some out \/ rc = -1 /\ out = None) /\
    (chunk_size opt <= chunk_overlap opt -> rc = -1) /\
    (plenty o -> chunk_overlap opt < chunk_size opt -> exists arr spans,
       rc = 0 /\ out = Some arr /\ json_array_items arr = chunk_document text <$> spans /\
       (text = [] /\ spans = [] \/ tiles text (chunk_size opt) (chunk_overlap opt) 0 spans) /\
       reassemble text (chunk_overlap opt) spans = text).
Proof.
  cbv zeta. intros Hmax Hfuel Hov. unfold turbo_text_splitter_split_text. cbn [negb].
  set (opt := effective_options options) in *.
  destruct (Z.leb_spec (chunk_size opt) (chunk_overlap opt)) as [Hbad|Hgood].
  { exists (-1), None, o. split; [done|]. split; [by right|]. split; [done|lia]. }
  destruct (alloc o) as [[] o1] eqn:Ea; cbn [negb].
  2: { apply alloc_false in Ea. exists (-1), None, o1.
       split; [done|]. split; [by right|]. split; [done|]. intros Hp. by destruct Hp. }
  destruct (split_loop_spec text opt fuel 0 json_create_array o1) as (r & o' & -> & Hr); try lia.
  assert (Hpure : plenty o -> exists arr spans, r = Some arr /\
    json_array_items arr = chunk_document text <$> spans /\
    (text = [] /\ spans = [] \/ tiles text (chunk_size opt) (chunk_overlap opt) 0 spans) /\
    reassemble text (chunk_overlap opt) spans = text).
  { intros Hp. destruct (alloc_plenty o Hp) as (o2 & Ho2 & Ea'). rewrite Ea in Ea'.
    injection Ea' as ->. destruct (Hr Ho2 json_type_array) as (arr & spans & -> & Hi & Hs).
    rewrite json_items_create in Hi. exists arr, spans. split; [done|]. split; [done|].
    destruct Hs as [[Hl ->]|Hs].
    - apply eq_sym, (Nat2Z.inj _ 0), nil_length_inv in Hl. subst text. split; [by left|done].
    - split; [by right|]. rewrite (tiles_reassemble _ (chunk_size opt) _ 0); [apply slice_all|lia..|done]. }
  destruct r as [arr|].
  - exists 0, (Some arr), o'. split; [done|]. split; [left; by split|]. split; [lia|].
    intros Hp _. destruct (Hpure Hp) as (arr' & spans & [= <-] & ?). by exists arr, spans.
  - exists (-1), None, o'. split; [done|]. split; [by right|]. split; [done|].
    intros Hp _. by destruct (Hpure Hp) as (? & ? & [= ?] & _).
Qed.

End split.

(** ** Concrete runs *)

Module TextSplitterRuns.
Import JsonTree.

Definition bytes (s : string) : text_bytes := String.list_ascii_of_string s.

(** A newline of a literal below is written as a bar. *)
Definition with_newlines (s : string) : text_bytes :=
  (fun c => if bool_decide (c = Ascii.ascii_of_nat 124) then newline else c) <$> bytes s.

Definition spans_of (s : string) (size overlap : Z) : option (list (option string * cdouble * cdouble)) :=
  match turbo_text_splitter_split_text (J := jtree) 100 (Some (with_newlines s))
          (Some (mk_splitter_options size overlap)) true [] with
  | Some (0, Some arr, _) =>
      Some ((fun doc => (json_string <$> json_object_get doc "text",
                         default DNan (json_number <$> json_object_get doc "start"),
                         default DNan (json_number <$> json_object_get doc "end")))
            <$> json_array_items arr)
  | _ => None
  end.

(** The repository's own test of overlapping chunks. *)
Example split_overlapping : spans_of "abcdefghij" 5 2 =
  Some [(Some "abcde", DFinite 0 0, DFinite 5 0); (Some "defgh", DFinite 3 0, DFinite 8 0);
        (Some "ghij", DFinite 6 0, DFinite 10 0)].
Proof. vm_compute. reflexivity. Qed.

(** A newline just after the window makes the chunk one byte longer than the
    chunk size. *)
Example chunk_longer_than_size :
  option_map (map (fun d => (d.1.2, d.2))) (spans_of "abcdef|0123456789XYZ" 6 0) =
  Some [(DFinite 0 0, DFinite 7 0); (DFinite 7 0, DFinite 13 0);
        (DFinite 13 0, DFinite 19 0); (DFinite 19 0, DFinite 20 0)].
Proof. vm_compute. reflexivity. Qed.

Definition demo_text : text_bytes := with_newlines "abcdef|0123456789XYZ".
Definition demo_options : option turbo_text_splitter_options := Some (mk_splitter_options 10 8).

Lemma split_text_tiles_witness :
  (Z.of_nat (length demo_text) <= SIZE_MAX /\ (length demo_text <= 20)%nat) /\
  exists arr spans o',
    turbo_text_splitter_split_text (J := jtree) 20 (Some demo_text) demo_options true [] =
      Some (0, Some arr, o') /\
    json_array_items arr = chunk_document demo_text <$> spans /\
    reassemble demo_text 8 spans = demo_text.
Proof.
  assert (Hpre : Z.of_nat (length demo_text) <= SIZE_MAX /\ (length demo_text <= 20)%nat)
    by (split; vm_compute; [done|lia]).
  split; [exact Hpre|].
  destruct (split_text_tiles (J := jtree) demo_text demo_options 20 [] (proj1 Hpre) (proj2 Hpre)
              ltac:(vm_compute; done)) as (rc & out & o' & Hrun & _ & _ & Hplenty).
  destruct (Hplenty plenty_nil ltac:(vm_compute; done)) as (arr & spans & -> & -> & Hi & _ & Hr).
  exists arr, spans, o'. exact (conj Hrun (conj Hi Hr)).
Defined.

End TextSplitterRuns.
