(* ===== verification/Tool.v ===== *)
(** * Tool data (src/runtime_tools/include/turbo_tool.h)

    Status codes, execution policies, effect flags, execution contexts, tool
    definitions in their six versions and native projections.  The CMeta library
    behind native projections is not under src/: it is the class [Cmeta].

    Handlers close over their user data and act on a world [W]. *)

From S2P Require Import Prelude RuntimeJson.

(* src/runtime_tools/include/turbo_tool.h 20-34 turbo_tool_status_t *)
Inductive turbo_tool_status : Type :=
| TURBO_TOOL_OK | TURBO_TOOL_ERROR | TURBO_TOOL_INVALID_ARGUMENT | TURBO_TOOL_DUPLICATE
| TURBO_TOOL_NOT_FOUND | TURBO_TOOL_OUT_OF_MEMORY | TURBO_TOOL_CANCELLED
| TURBO_TOOL_DEADLINE_EXCEEDED | TURBO_TOOL_OUTPUT_LIMIT | TURBO_TOOL_UNKNOWN_SIDE_EFFECT
| TURBO_TOOL_BACKPRESSURE | TURBO_TOOL_FUEL_EXHAUSTED | TURBO_TOOL_TRAPPED.

#[global] Instance turbo_tool_status_eq_dec : EqDecision turbo_tool_status.
Proof. solve_decision. Defined.

(** Enumerations come from callers: they are kept as integers. *)
(* src/runtime_tools/include/turbo_tool.h 36-40 turbo_tool_execution_mode_t *)
Definition TURBO_TOOL_EXECUTION_SEQUENTIAL : Z := 0.
Definition TURBO_TOOL_EXECUTION_PARALLEL_SAFE : Z := 1.
Definition TURBO_TOOL_EXECUTION_EXCLUSIVE : Z := 2.
(* src/runtime_tools/include/turbo_tool.h 42-46 turbo_tool_idempotency_t *)
Definition TURBO_TOOL_IDEMPOTENCY_NONE : Z := 0.
Definition TURBO_TOOL_IDEMPOTENCY_KEYED : Z := 1.
Definition TURBO_TOOL_IDEMPOTENCY_READ_ONLY : Z := 2.

(* src/runtime_tools/include/turbo_tool.h 48-51 turbo_tool_execution_policy_t *)
Record turbo_tool_execution_policy := mk_policy {
  ep_mode : Z;
  ep_idempotency : Z
}.

(* src/runtime_tools/include/turbo_tool.h 202-202 TURBO_TOOL_EFFECT_UNKNOWN *)
Definition TURBO_TOOL_EFFECT_UNKNOWN : Z := 1.
(* src/runtime_tools/include/turbo_tool.h 203-203 TURBO_TOOL_EFFECT_PURE *)
Definition TURBO_TOOL_EFFECT_PURE : Z := 2.
(** The other flags: read 4, write 8, process 16, network 32, external 64. *)
(* src/runtime_tools/include/turbo_tool.h 204-213 TURBO_TOOL_EFFECT_KNOWN_MASK *)
Definition TURBO_TOOL_EFFECT_KNOWN_MASK : Z :=
  Z.lor (Z.lor TURBO_TOOL_EFFECT_UNKNOWN TURBO_TOOL_EFFECT_PURE)
    (Z.lor (Z.lor 4 8) (Z.lor (Z.lor 16 32) 64)).

(* src/runtime_tools/include/turbo_tool.h 53-54 TURBO_TOOL_EXECUTION_CONTEXT_ABI_VERSION *)
Definition TURBO_TOOL_EXECUTION_CONTEXT_ABI_VERSION : Z := 2.
Definition TURBO_TOOL_EXECUTION_CONTEXT_ABI_VERSION_V1 : Z := 1.

(** Two [uint32_t], a pointer, one [uint64_t] and four pointers come before the
    first sink; four pointers follow. *)
(* src/runtime_tools/include/turbo_tool.h 99-100 TURBO_TOOL_EXECUTION_CONTEXT_V1_SIZE *)
Definition TURBO_TOOL_EXECUTION_CONTEXT_V1_SIZE : Z := 56.
Definition sizeof_execution_context : Z := 88.

(** The fields code under src/ reads; the token itself lives in the world. *)
(* src/runtime_tools/include/turbo_tool.h 68-97 turbo_tool_execution_context_t *)
Record turbo_tool_execution_context := mk_context {
  ctx_struct_size : Z;
  ctx_abi_version : Z;
  ctx_cancel_token : bool;
  ctx_deadline_mono_ms : Z;
  ctx_thread_id : option string;
  ctx_run_id : option string;
  ctx_turn_id : option string;
  ctx_tool_call_id : option string
}.

(** ** CMeta *)

(** Descriptors, types and callables, with the queries the registry and the
    region compiler make. *)
Class Cmeta := {
  cmeta_type : Type;
  cmeta_function_desc : Type;
  cmeta_function_abi_desc : Type;
  cmeta_callable : Type;
  cmeta_function_desc_valid : cmeta_function_desc -> bool;
  cmeta_function_abi_desc_valid : cmeta_function_abi_desc -> bool;
  cmeta_function_desc_equal : cmeta_function_desc -> cmeta_function_desc -> bool;
  abi_function : cmeta_function_abi_desc -> cmeta_function_desc;
  fd_param_count : cmeta_function_desc -> Z;
  fd_return_type : cmeta_function_desc -> cmeta_type;
  fd_effects : cmeta_function_desc -> Z;
  fd_properties : cmeta_function_desc -> Z;
  fd_result_flags : cmeta_function_desc -> Z;
  cmeta_function_param : cmeta_function_desc -> Z -> option (cmeta_type * Z);
  cmeta_callable_bind : cmeta_callable -> option cmeta_callable;
  callable_effects : cmeta_callable -> Z;
  callable_properties : cmeta_callable -> Z;
  (** signature: whether its protocol is by value, its result and parameters *)
  cmeta_fn_signature : cmeta_callable -> option (bool * cmeta_type * list cmeta_type);
  cmeta_type_equal : cmeta_type -> cmeta_type -> bool;
  cmeta_effects_are_pure : Z -> bool
}.

Section tool.
Context {J W : Type} `{Cmeta}.

(* src/runtime_tools/include/turbo_tool.h 253-259 turbo_tool_native_projection_t *)
Record turbo_tool_native_projection := mk_projection {
  np_struct_size : Z;
  np_abi_version : Z;
  np_function : cmeta_function_desc;
  np_abi : cmeta_function_abi_desc;
  np_callable : cmeta_callable
}.

(* src/runtime_tools/include/turbo_tool.h 102-112 turbo_tool_handler_fn *)
Definition turbo_tool_handler_fn : Type := string -> W -> Z * option string * W.
Definition turbo_tool_json_value_handler_fn : Type := option J -> W -> Z * option J * W.
Definition turbo_tool_context_handler_fn : Type :=
  string -> option turbo_tool_execution_context -> W -> turbo_tool_status * option string * W.
Definition turbo_tool_json_value_context_handler_fn : Type :=
  option J -> option turbo_tool_execution_context -> W -> turbo_tool_status * option J * W.
Definition turbo_tool_user_data_free_fn : Type := W -> W.

(* src/runtime_tools/include/turbo_tool.h 114-124 turbo_tool_definition_t *)
Record turbo_tool_definition := mk_definition {
  d_name : option string;
  d_description : option string;
  d_parameters_json : option string;
  d_parameters_schema : option J;
  d_strict : Z;
  d_handler : option turbo_tool_handler_fn;
  d_json_value_handler : option turbo_tool_json_value_handler_fn;
  d_user_data_free : option turbo_tool_user_data_free_fn
}.

(* src/runtime_tools/include/turbo_tool.h 133-138 turbo_tool_definition_v2_t *)
Record turbo_tool_definition_v2 := mk_definition_v2 {
  d2_struct_size : Z;
  d2_abi_version : Z;
  d2_definition : turbo_tool_definition;
  d2_execution_policy : turbo_tool_execution_policy
}.

(** The capability array and its count: [None] is NULL with a count that is not
    zero; any entry may be NULL. *)
Definition capabilities_arg : Type := option (list (option string)).

(* src/runtime_tools/include/turbo_tool.h 149-156 turbo_tool_definition_v3_t *)
Record turbo_tool_definition_v3 := mk_definition_v3 {
  d3_struct_size : Z;
  d3_abi_version : Z;
  d3_definition : turbo_tool_definition;
  d3_execution_policy : turbo_tool_execution_policy;
  d3_required_capabilities : capabilities_arg
}.

(* src/runtime_tools/include/turbo_tool.h 167-176 turbo_tool_definition_v4_t *)
Record turbo_tool_definition_v4 := mk_definition_v4 {
  d4_struct_size : Z;
  d4_abi_version : Z;
  d4_definition : turbo_tool_definition;
  d4_execution_policy : turbo_tool_execution_policy;
  d4_required_capabilities : capabilities_arg;
  d4_context_handler : option turbo_tool_context_handler_fn;
  d4_json_value_context_handler : option turbo_tool_json_value_context_handler_fn
}.

(* src/runtime_tools/include/turbo_tool.h 187-198 turbo_tool_definition_v5_t *)
Record turbo_tool_definition_v5 := mk_definition_v5 {
  d5_struct_size : Z;
  d5_abi_version : Z;
  d5_definition : turbo_tool_definition;
  d5_execution_policy : turbo_tool_execution_policy;
  d5_required_capabilities : capabilities_arg;
  d5_context_handler : option turbo_tool_context_handler_fn;
  d5_json_value_context_handler : option turbo_tool_json_value_context_handler_fn;
  d5_result_schema_json : option string;
  d5_strict_result : Z
}.

(* src/runtime_tools/include/turbo_tool.h 225-237 turbo_tool_definition_v6_t *)
Record turbo_tool_definition_v6 := mk_definition_v6 {
  d6_struct_size : Z;
  d6_abi_version : Z;
  d6_definition : turbo_tool_definition;
  d6_execution_policy : turbo_tool_execution_policy;
  d6_required_capabilities : capabilities_arg;
  d6_context_handler : option turbo_tool_context_handler_fn;
  d6_json_value_context_handler : option turbo_tool_json_value_context_handler_fn;
  d6_result_schema_json : option string;
  d6_strict_result : Z;
  d6_effect_flags : Z
}.

End tool.

Arguments mk_definition {J W}.
Arguments turbo_tool_definition : clear implicits.
Arguments turbo_tool_definition_v2 : clear implicits.
Arguments turbo_tool_definition_v3 : clear implicits.
Arguments turbo_tool_definition_v4 : clear implicits.
Arguments turbo_tool_definition_v5 : clear implicits.
Arguments turbo_tool_definition_v6 : clear implicits.
Arguments turbo_tool_handler_fn : clear implicits.
Arguments turbo_tool_json_value_handler_fn : clear implicits.
Arguments turbo_tool_context_handler_fn : clear implicits.
Arguments turbo_tool_json_value_context_handler_fn : clear implicits.
Arguments turbo_tool_user_data_free_fn : clear implicits.

(** Sizes of the versioned structures on a 64-bit platform. *)
Definition sizeof_definition_v2 : Z := 96.
Definition sizeof_definition_v3 : Z := 112.
Definition sizeof_definition_v4 : Z := 128.
Definition sizeof_definition_v5 : Z := 144.
Definition sizeof_definition_v6 : Z := 152.

(* src/runtime_tools/include/turbo_tool.h 239-239 TURBO_TOOL_NATIVE_PROJECTION_ABI_VERSION *)
Definition TURBO_TOOL_NATIVE_PROJECTION_ABI_VERSION : Z := 1.

(** ** A concrete CMeta

    A function is its parameter types, its result type, its effects and its
    result flags; it describes itself and calls itself. *)

Module CmetaToy.

Record toy_function := mk_toy {
  toy_params : list (nat * Z);
  toy_return : nat;
  toy_effects : Z;
  toy_result_flags : Z
}.

#[global] Instance toy_function_eq_dec : EqDecision toy_function.
Proof. solve_decision. Defined.

#[export] Instance toy_cmeta : Cmeta := {
  cmeta_type := nat;
  cmeta_function_desc := toy_function;
  cmeta_function_abi_desc := toy_function;
  cmeta_callable := toy_function;
  cmeta_function_desc_valid _ := true;
  cmeta_function_abi_desc_valid _ := true;
  cmeta_function_desc_equal f g := bool_decide (f = g);
  abi_function f := f;
  fd_param_count f := Z.of_nat (length (toy_params f));
  fd_return_type := toy_return;
  fd_effects := toy_effects;
  fd_properties _ := 0;
  fd_result_flags := toy_result_flags;
  cmeta_function_param f i := toy_params f !! Z.to_nat i;
  cmeta_callable_bind f := Some f;
  callable_effects := toy_effects;
  callable_properties _ := 0;
  cmeta_fn_signature f := Some (true, toy_return f, (toy_params f).*1);
  cmeta_type_equal := Nat.eqb;
  cmeta_effects_are_pure e := e =? 0
}.

End CmetaToy.
