(* ===== verification/ToolRegistry.v ===== *)
(** * Tool registry (src/runtime_tools/src/turbo_tool_registry.c)

    The registry is its list of entries and its capacity.  Lookup is by exact
    name first, then by the one entry whose name has the given text as its
    OpenAI-compatible form.  All versions of the add operation, removal, the
    readers, native projections, capabilities, metadata, projection and
    composition of registries, and the four ways to execute a tool.

    A NULL registry or text is [None].  Entries are values: a borrowed pointer
    that is read is the value read.  [user_data_free] is the callback that
    releases the user data a handler closes over. *)

From S2P Require Import Prelude RuntimeJson JsonMem Tool.

(** ** Names *)

(* src/runtime_tools/src/turbo_tool_registry.c 24-27 turbo_tool_openai_name_char_valid *)
Definition turbo_tool_openai_name_char_valid (ch : Ascii.ascii) : bool :=
  let c := char_code ch in
  ((97 <=? c) && (c <=? 122)) || ((65 <=? c) && (c <=? 90)) || ((48 <=? c) && (c <=? 57))
  || (c =? 95) || (c =? 45).

Definition underscore : Ascii.ascii := Ascii.ascii_of_nat 95.

(* src/runtime_tools/src/turbo_tool_registry.c 29-44 turbo_tool_openai_compatible_name_equals *)
Fixpoint turbo_tool_openai_compatible_name_equals (original compatible : string) : bool :=
  match original, compatible with
  | EmptyString, EmptyString => true
  | String a original, String b compatible =>
      let ch := if turbo_tool_openai_name_char_valid a then a else underscore in
      bool_decide (ch = b) && turbo_tool_openai_compatible_name_equals original compatible
  | _, _ => false
  end.

(** The compatible form itself. *)
Fixpoint compatible_form (s : string) : string :=
  match s with
  | EmptyString => EmptyString
  | String a s => String (if turbo_tool_openai_name_char_valid a then a else underscore)
                    (compatible_form s)
  end.

Definition nonempty_text (s : option string) : bool :=
  match s with Some (String _ _) => true | _ => false end.

(** ** Validation *)

(* src/runtime_tools/src/turbo_tool_registry.c 211-218 turbo_tool_execution_policy_valid *)
Definition turbo_tool_execution_policy_valid (p : turbo_tool_execution_policy) : bool :=
  (TURBO_TOOL_EXECUTION_SEQUENTIAL <=? ep_mode p) && (ep_mode p <=? TURBO_TOOL_EXECUTION_EXCLUSIVE)
  && (TURBO_TOOL_IDEMPOTENCY_NONE <=? ep_idempotency p)
  && (ep_idempotency p <=? TURBO_TOOL_IDEMPOTENCY_READ_ONLY).

(* src/runtime_tools/src/turbo_tool_registry.c 220-232 turbo_tool_effect_flags_valid *)
Definition turbo_tool_effect_flags_valid (flags : Z) : bool :=
  if negb (Z.land flags (Z.lxor UINT64_MAX TURBO_TOOL_EFFECT_KNOWN_MASK) =? 0) then false
  else if flags =? 0 then true
  else if negb (Z.land flags TURBO_TOOL_EFFECT_UNKNOWN =? 0)
          && negb (flags =? TURBO_TOOL_EFFECT_UNKNOWN) then false
  else if negb (Z.land flags TURBO_TOOL_EFFECT_PURE =? 0)
          && negb (flags =? TURBO_TOOL_EFFECT_PURE) then false
  else true.

(* src/runtime_tools/src/turbo_tool_registry.c 234-237 turbo_tool_effect_flags_normalize *)
Definition turbo_tool_effect_flags_normalize (flags : Z) : Z :=
  if flags =? 0 then TURBO_TOOL_EFFECT_UNKNOWN else flags.

(** Every capability is a non-empty text that does not occur before it. *)
(* src/runtime_tools/src/turbo_tool_registry.c 315-328 turbo_tool_registry_add_with_policy *)
Fixpoint capabilities_valid (seen : list string) (caps : list (option string)) : bool :=
  match caps with
  | [] => true
  | c :: caps =>
      match c with
      | Some (String a s) =>
          if bool_decide (String a s ∈ seen) then false
          else capabilities_valid (seen ++ [String a s]) caps
      | _ => false
      end
  end.

Section registry.
Context {J W : Type} `{JsonApi J, Cmeta}.

(* src/runtime_tools/src/turbo_tool_registry.c 46-69 turbo_tool_entry_t *)
Record turbo_tool_entry := mk_entry {
  e_name : string;
  e_description : string;
  e_parameters_json : string;
  e_parameters_json_serialized : bool;
  e_parameters_schema : option J;
  e_strict : Z;
  e_handler : option (turbo_tool_handler_fn W);
  e_json_value_handler : option (turbo_tool_json_value_handler_fn J W);
  e_context_handler : option (turbo_tool_context_handler_fn W);
  e_json_value_context_handler : option (turbo_tool_json_value_context_handler_fn J W);
  e_user_data_free : option (turbo_tool_user_data_free_fn W);
  e_execution_policy : turbo_tool_execution_policy;
  e_required_capabilities : list string;
  e_result_schema_json : option string;
  e_result_schema : option J;
  e_strict_result : Z;
  e_effect_flags : Z;
  e_native_projection : option turbo_tool_native_projection;
  e_execution_metadata : option J
}.

(* src/runtime_tools/src/turbo_tool_registry.c 71-75 turbo_tool_registry_s *)
Record turbo_tool_registry := mk_registry {
  entries : list turbo_tool_entry;
  capacity : Z
}.

Definition set_entries (l : list turbo_tool_entry) (r : turbo_tool_registry) : turbo_tool_registry :=
  mk_registry l (capacity r).

(** ** Lookup *)

(** The first loop: the index of the entry with this very name. *)
(* src/runtime_tools/src/turbo_tool_registry.c 123-127 turbo_tool_registry_find *)
Fixpoint find_exact (i : nat) (l : list turbo_tool_entry) (name : string) : option nat :=
  match l with
  | [] => None
  | e :: l => if bool_decide (e_name e = name) then Some i else find_exact (S i) l name
  end.

(** The second loop: the last compatible entry and how many there are. *)
(* src/runtime_tools/src/turbo_tool_registry.c 129-134 turbo_tool_registry_find *)
Fixpoint scan_compatible (i : nat) (l : list turbo_tool_entry) (name : string)
    (compatible_match : option nat) (compatible_matches : Z) : option nat * Z :=
  match l with
  | [] => (compatible_match, compatible_matches)
  | e :: l =>
      if turbo_tool_openai_compatible_name_equals (e_name e) name
      then scan_compatible (S i) l name (Some i) (compatible_matches + 1)
      else scan_compatible (S i) l name compatible_match compatible_matches
  end.

(** The position of the entry found. *)
(* src/runtime_tools/src/turbo_tool_registry.c 113-137 turbo_tool_registry_find *)
Definition turbo_tool_registry_find (registry : option turbo_tool_registry)
    (name : option string) : option nat :=
  match registry, name with
  | Some r, Some name =>
      match find_exact 0 (entries r) name with
      | Some i => Some i
      | None =>
          let (m, n) := scan_compatible 0 (entries r) name None 0 in
          if n =? 1 then m else None
      end
  | _, _ => None
  end.

Definition found (registry : option turbo_tool_registry) (name : option string)
  : option turbo_tool_entry :=
  match registry with
  | Some r => i ← turbo_tool_registry_find registry name; entries r !! i
  | None => None
  end.

(** ** Adding *)

(* src/runtime_tools/src/turbo_tool_registry.c 192-194 turbo_tool_registry_create *)
Definition turbo_tool_registry_create (o : oracle) : option turbo_tool_registry * oracle :=
  let (ok, o) := alloc o in (if ok then Some (mk_registry [] 0) else None, o).

(** The allocator refuses blocks of more than [PTRDIFF_MAX] bytes, and an entry
    has at least one. *)
(* src/runtime_tools/src/turbo_tool_registry.c 144-161 turbo_tool_registry_reserve *)
Definition turbo_tool_registry_reserve (r : turbo_tool_registry) (o : oracle)
  : turbo_tool_status * turbo_tool_registry * oracle :=
  if Z.of_nat (length (entries r)) <? capacity r then (TURBO_TOOL_OK, r, o)
  else
    let new_capacity := if capacity r =? 0 then 4 else u64 (capacity r * 2) in
    let (ok, o) := alloc o in
    if ok && (new_capacity <=? INT64_MAX)
    then (TURBO_TOOL_OK, mk_registry (entries r) new_capacity, o)
    else (TURBO_TOOL_OUT_OF_MEMORY, r, o).

(** Copies made one after the other, all of them attempted; which answers a
    failed sequence consumes does not matter to its caller. *)
Fixpoint alloc_all (n : nat) (o : oracle) : bool * oracle :=
  match n with
  | O => (true, o)
  | S n => let (a, o) := alloc o in let (b, o) := alloc_all n o in (a && b, o)
  end.

(** The copies of the capabilities stop at the first failure. *)
(* src/runtime_tools/src/turbo_tool_registry.c 361-372 turbo_tool_registry_add_with_policy *)
Fixpoint alloc_until (n : nat) (o : oracle) : bool * oracle :=
  match n with
  | O => (true, o)
  | S n => let (a, o) := alloc o in if a then alloc_until n o else (false, o)
  end.

Definition copy_capabilities (caps : list (option string)) (o : oracle) : bool * oracle :=
  match caps with
  | [] => (true, o)
  | _ => let (a, o) := alloc o in if a then alloc_until (length caps) o else (false, o)
  end.

(** How many library and C allocations the other copies take: name, description,
    the serialized parameters (a clone, then the text) or a copy of the given
    text, the schema (cloned twice), the result schema's text. *)
(* src/runtime_tools/src/turbo_tool_registry.c 344-357 turbo_tool_registry_add_with_policy *)
Definition copies_needed (d : turbo_tool_definition J W) (result_schema_json : option string)
  : nat :=
  (2 + (if d_parameters_json d is Some _ then 1 else 2)
     + (if d_parameters_schema d is Some _ then 2 else 0)
     + (if result_schema_json is Some _ then 1 else 0))%nat.

(* src/runtime_tools/src/turbo_tool_registry.c 296-306 turbo_tool_registry_add_with_policy *)
Definition add_arguments_valid (d : turbo_tool_definition J W)
    (policy : turbo_tool_execution_policy) (caps : capabilities_arg)
    (context_handler : option (turbo_tool_context_handler_fn W))
    (json_value_context_handler : option (turbo_tool_json_value_context_handler_fn J W))
    (result_schema_json : option string) (strict_result effect_flags : Z) : bool :=
  bool_decide (is_Some (d_name d)) && bool_decide (is_Some (d_description d))
  && (bool_decide (is_Some (d_parameters_json d)) || bool_decide (is_Some (d_parameters_schema d)))
  && (bool_decide (is_Some (d_handler d)) || bool_decide (is_Some (d_json_value_handler d))
      || bool_decide (is_Some context_handler) || bool_decide (is_Some json_value_context_handler))
  && turbo_tool_execution_policy_valid policy
  && bool_decide (is_Some caps)
  && ((strict_result =? 0) || (strict_result =? 1))
  && ((strict_result =? 0) || bool_decide (is_Some result_schema_json))
  && turbo_tool_effect_flags_valid effect_flags.

(** The result schema: absent, or a text that parses, with memory, to an object. *)
(* src/runtime_tools/src/turbo_tool_registry.c 307-313 turbo_tool_registry_add_with_policy *)
Definition read_result_schema (text : option string) (o : oracle) : option (option J) * oracle :=
  match text with
  | None => (Some None, o)
  | Some t =>
      let (parsed, o) := parse_text t o in
      (match parsed with
       | Some v => if bool_decide (json_type v = JSON_OBJECT) then Some (Some v) else None
       | None => None
       end, o)
  end.

(* src/runtime_tools/src/turbo_tool_registry.c 341-389 turbo_tool_registry_add_with_policy *)
Definition new_entry (name description : string) (d : turbo_tool_definition J W)
    (policy : turbo_tool_execution_policy) (caps : list (option string))
    (context_handler : option (turbo_tool_context_handler_fn W))
    (json_value_context_handler : option (turbo_tool_json_value_context_handler_fn J W))
    (result_schema_json : option string) (result_schema : option J)
    (strict_result effect_flags : Z) : turbo_tool_entry :=
  mk_entry name description
    (match d_parameters_json d, d_parameters_schema d with
     | Some t, _ => t
     | None, Some s => json_serialize (json_clone s)
     | None, None => ""
     end)
    (match d_parameters_json d with Some _ => false | None => true end)
    ((fun s => json_clone (json_clone s)) <$> d_parameters_schema d)
    (d_strict d) (d_handler d) (d_json_value_handler d)
    context_handler json_value_context_handler (d_user_data_free d) policy
    (omap id caps) result_schema_json result_schema
    (match result_schema_json with Some _ => strict_result | None => 0 end)
    (turbo_tool_effect_flags_normalize effect_flags) None None.

(* src/runtime_tools/src/turbo_tool_registry.c 284-392 turbo_tool_registry_add_with_policy *)
Definition turbo_tool_registry_add_with_policy (registry : option turbo_tool_registry)
    (definition : option (turbo_tool_definition J W)) (policy : turbo_tool_execution_policy)
    (required_capabilities : capabilities_arg)
    (context_handler : option (turbo_tool_context_handler_fn W))
    (json_value_context_handler : option (turbo_tool_json_value_context_handler_fn J W))
    (result_schema_json : option string) (strict_result effect_flags : Z) (o : oracle)
  : turbo_tool_status * option turbo_tool_registry * oracle :=
  match registry, definition with
  | Some r, Some d =>
      if negb (add_arguments_valid d policy required_capabilities context_handler
                 json_value_context_handler result_schema_json strict_result effect_flags)
      then (TURBO_TOOL_INVALID_ARGUMENT, registry, o)
      else
        match read_result_schema result_schema_json o with
        | (None, o) => (TURBO_TOOL_INVALID_ARGUMENT, registry, o)
        | (Some result_schema, o) =>
            let caps := default [] required_capabilities in
            if negb (capabilities_valid [] caps) then (TURBO_TOOL_INVALID_ARGUMENT, registry, o)
            else if turbo_tool_registry_find registry (d_name d) is Some _
            then (TURBO_TOOL_DUPLICATE, registry, o)
            else
              match turbo_tool_registry_reserve r o with
              | (TURBO_TOOL_OK, r, o) =>
                  let (copied, o) := alloc_all (copies_needed d result_schema_json) o in
                  let (caps_copied, o) := copy_capabilities caps o in
                  if negb (copied && caps_copied) then (TURBO_TOOL_OUT_OF_MEMORY, Some r, o)
                  else
                    let entry := new_entry (default "" (d_name d)) (default "" (d_description d))
                                   d policy caps context_handler json_value_context_handler
                                   result_schema_json result_schema strict_result effect_flags in
                    (TURBO_TOOL_OK, Some (set_entries (entries r ++ [entry]) r), o)
              | (status, r, o) => (status, Some r, o)
              end
        end
  | _, _ => (TURBO_TOOL_INVALID_ARGUMENT, registry, o)
  end.

Definition legacy_policy : turbo_tool_execution_policy :=
  mk_policy TURBO_TOOL_EXECUTION_SEQUENTIAL TURBO_TOOL_IDEMPOTENCY_NONE.

(** The result of a change: status, registry, oracle. *)
Definition change : Type := turbo_tool_status * option turbo_tool_registry * oracle.

(* src/runtime_tools/src/turbo_tool_registry.c 394-401 turbo_tool_registry_add *)
Definition turbo_tool_registry_add (registry : option turbo_tool_registry)
    (definition : option (turbo_tool_definition J W)) (o : oracle) : change :=
  turbo_tool_registry_add_with_policy registry definition legacy_policy (Some [])
    None None None 0 TURBO_TOOL_EFFECT_UNKNOWN o.

(* src/runtime_tools/src/turbo_tool_registry.c 403-412 turbo_tool_registry_add_v2 *)
Definition turbo_tool_registry_add_v2 (registry : option turbo_tool_registry)
    (definition : option (turbo_tool_definition_v2 J W)) (o : oracle) : change :=
  match definition with
  | Some d =>
      if (d2_struct_size d <? sizeof_definition_v2) || negb (d2_abi_version d =? 2)
      then (TURBO_TOOL_INVALID_ARGUMENT, registry, o)
      else turbo_tool_registry_add_with_policy registry (Some (d2_definition d))
             (d2_execution_policy d) (Some []) None None None 0 TURBO_TOOL_EFFECT_UNKNOWN o
  | None => (TURBO_TOOL_INVALID_ARGUMENT, registry, o)
  end.

(* src/runtime_tools/src/turbo_tool_registry.c 414-424 turbo_tool_registry_add_v3 *)
Definition turbo_tool_registry_add_v3 (registry : option turbo_tool_registry)
    (definition : option (turbo_tool_definition_v3 J W)) (o : oracle) : change :=
  match definition with
  | Some d =>
      if (d3_struct_size d <? sizeof_definition_v3) || negb (d3_abi_version d =? 3)
      then (TURBO_TOOL_INVALID_ARGUMENT, registry, o)
      else turbo_tool_registry_add_with_policy registry (Some (d3_definition d))
             (d3_execution_policy d) (d3_required_capabilities d) None None None 0
             TURBO_TOOL_EFFECT_UNKNOWN o
  | None => (TURBO_TOOL_INVALID_ARGUMENT, registry, o)
  end.

(* src/runtime_tools/src/turbo_tool_registry.c 426-437 turbo_tool_registry_add_v4 *)
Definition turbo_tool_registry_add_v4 (registry : option turbo_tool_registry)
    (definition : option (turbo_tool_definition_v4 J W)) (o : oracle) : change :=
  match definition with
  | Some d =>
      if (d4_struct_size d <? sizeof_definition_v4) || negb (d4_abi_version d =? 4)
      then (TURBO_TOOL_INVALID_ARGUMENT, registry, o)
      else turbo_tool_registry_add_with_policy registry (Some (d4_definition d))
             (d4_execution_policy d) (d4_required_capabilities d) (d4_context_handler d)
             (d4_json_value_context_handler d) None 0 TURBO_TOOL_EFFECT_UNKNOWN o
  | None => (TURBO_TOOL_INVALID_ARGUMENT, registry, o)
  end.

(* src/runtime_tools/src/turbo_tool_registry.c 439-451 turbo_tool_registry_add_v5 *)
Definition turbo_tool_registry_add_v5 (registry : option turbo_tool_registry)
    (definition : option (turbo_tool_definition_v5 J W)) (o : oracle) : change :=
  match definition with
  | Some d =>
      if (d5_struct_size d <? sizeof_definition_v5) || negb (d5_abi_version d =? 5)
      then (TURBO_TOOL_INVALID_ARGUMENT, registry, o)
      else turbo_tool_registry_add_with_policy registry (Some (d5_definition d))
             (d5_execution_policy d) (d5_required_capabilities d) (d5_context_handler d)
             (d5_json_value_context_handler d) (d5_result_schema_json d) (d5_strict_result d)
             TURBO_TOOL_EFFECT_UNKNOWN o
  | None => (TURBO_TOOL_INVALID_ARGUMENT, registry, o)
  end.

(* src/runtime_tools/src/turbo_tool_registry.c 453-465 turbo_tool_registry_add_v6 *)
Definition turbo_tool_registry_add_v6 (registry : option turbo_tool_registry)
    (definition : option (turbo_tool_definition_v6 J W)) (o : oracle) : change :=
  match definition with
  | Some d =>
      if (d6_struct_size d <? sizeof_definition_v6) || negb (d6_abi_version d =? 6)
      then (TURBO_TOOL_INVALID_ARGUMENT, registry, o)
      else turbo_tool_registry_add_with_policy registry (Some (d6_definition d))
             (d6_execution_policy d) (d6_required_capabilities d) (d6_context_handler d)
             (d6_json_value_context_handler d) (d6_result_schema_json d) (d6_strict_result d)
             (d6_effect_flags d) o
  | None => (TURBO_TOOL_INVALID_ARGUMENT, registry, o)
  end.

(** ** Removing and reading *)

(** The world sees the entry's user data released. *)
(* src/runtime_tools/src/turbo_tool_registry.c 163-190 turbo_tool_registry_free_entry *)
Definition turbo_tool_registry_free_entry (e : turbo_tool_entry) (w : W) : W :=
  match e_user_data_free e with Some f => f w | None => w end.

(* src/runtime_tools/src/turbo_tool_registry.c 196-209 turbo_tool_registry_destroy *)
Definition turbo_tool_registry_destroy (registry : option turbo_tool_registry) (w : W) : W :=
  match registry with
  | None => w
  | Some r => foldl (fun w e => turbo_tool_registry_free_entry e w) w (entries r)
  end.

(** Only the exact name removes. *)
(* src/runtime_tools/src/turbo_tool_registry.c 467-482 turbo_tool_registry_remove *)
Definition turbo_tool_registry_remove (registry : option turbo_tool_registry)
    (name : option string) (w : W) : turbo_tool_status * option turbo_tool_registry * W :=
  match registry, name with
  | Some r, Some name =>
      match find_exact 0 (entries r) name with
      | Some i =>
          let w := match entries r !! i with
                   | Some e => turbo_tool_registry_free_entry e w
                   | None => w
                   end in
          (TURBO_TOOL_OK, Some (set_entries (take i (entries r) ++ drop (S i) (entries r)) r), w)
      | None => (TURBO_TOOL_NOT_FOUND, registry, w)
      end
  | _, _ => (TURBO_TOOL_INVALID_ARGUMENT, registry, w)
  end.

(* src/runtime_tools/src/turbo_tool_registry.c 484-486 turbo_tool_registry_count *)
Definition turbo_tool_registry_count (registry : option turbo_tool_registry) : Z :=
  match registry with Some r => Z.of_nat (length (entries r)) | None => 0 end.

(* src/runtime_tools/src/turbo_tool_registry.c 488-500 turbo_tool_registry_resolve_name *)
Definition turbo_tool_registry_resolve_name (registry : option turbo_tool_registry)
    (name : option string) : turbo_tool_status * option string :=
  if negb (bool_decide (is_Some registry) && nonempty_text name)
  then (TURBO_TOOL_INVALID_ARGUMENT, None)
  else
    match found registry name with
    | None => (TURBO_TOOL_NOT_FOUND, None)
    | Some e => (TURBO_TOOL_OK, Some (e_name e))
    end.

(** The view of an entry a caller gets. *)
(* src/runtime_tools/src/turbo_tool_registry.c 502-527 turbo_tool_registry_get_definition *)
Definition turbo_tool_registry_get_definition (registry : option turbo_tool_registry) (index : Z)
  : turbo_tool_status * option (turbo_tool_definition J W) :=
  match registry with
  | None => (TURBO_TOOL_INVALID_ARGUMENT, None)
  | Some r =>
      if Z.of_nat (length (entries r)) <=? index then (TURBO_TOOL_NOT_FOUND, None)
      else
        (TURBO_TOOL_OK,
         (fun e => mk_definition (Some (e_name e)) (Some (e_description e))
                     (Some (e_parameters_json e)) (e_parameters_schema e) (e_strict e)
                     (e_handler e) (e_json_value_handler e) (e_user_data_free e))
         <$> entries r !! Z.to_nat index)
  end.

(** The shared shape of the readers by name: the default when nothing is found. *)
Definition read_entry {A} (registry : option turbo_tool_registry) (name : option string)
    (f : turbo_tool_entry -> A) (initial : A) : turbo_tool_status * A :=
  match registry, name with
  | Some _, Some _ =>
      match found registry name with
      | None => (TURBO_TOOL_NOT_FOUND, initial)
      | Some e => (TURBO_TOOL_OK, f e)
      end
  | _, _ => (TURBO_TOOL_INVALID_ARGUMENT, initial)
  end.

(* src/runtime_tools/src/turbo_tool_registry.c 529-538 turbo_tool_registry_get_execution_policy *)
Definition turbo_tool_registry_get_execution_policy (registry : option turbo_tool_registry)
    (name : option string) : turbo_tool_status * option turbo_tool_execution_policy :=
  read_entry registry name (fun e => Some (e_execution_policy e)) None.

(* src/runtime_tools/src/turbo_tool_registry.c 540-554 turbo_tool_registry_get_required_capabilities *)
Definition turbo_tool_registry_get_required_capabilities (registry : option turbo_tool_registry)
    (name : option string) : turbo_tool_status * list string :=
  read_entry registry name e_required_capabilities [].

(* src/runtime_tools/src/turbo_tool_registry.c 556-574 turbo_tool_registry_get_result_contract *)
Definition turbo_tool_registry_get_result_contract (registry : option turbo_tool_registry)
    (name : option string) : turbo_tool_status * (option string * option J * Z) :=
  read_entry registry name
    (fun e => (e_result_schema_json e, e_result_schema e, e_strict_result e)) (None, None, 0).

(* src/runtime_tools/src/turbo_tool_registry.c 576-588 turbo_tool_registry_get_effects *)
Definition turbo_tool_registry_get_effects (registry : option turbo_tool_registry)
    (name : option string) : turbo_tool_status * Z :=
  read_entry registry name e_effect_flags TURBO_TOOL_EFFECT_UNKNOWN.

(* src/runtime_tools/src/turbo_tool_registry.c 616-630 turbo_tool_registry_get_native_projection *)
Definition turbo_tool_registry_get_native_projection (registry : option turbo_tool_registry)
    (name : option string) : turbo_tool_status * option turbo_tool_native_projection :=
  match registry, name with
  | Some _, Some _ =>
      match found registry name with
      | Some e =>
          match e_native_projection e with
          | Some p => (TURBO_TOOL_OK, Some p)
          | None => (TURBO_TOOL_NOT_FOUND, None)
          end
      | None => (TURBO_TOOL_NOT_FOUND, None)
      end
  | _, _ => (TURBO_TOOL_INVALID_ARGUMENT, None)
  end.

(* src/runtime_tools/src/turbo_tool_registry.c 679-690 turbo_tool_registry_get_execution_metadata *)
Definition turbo_tool_registry_get_execution_metadata (registry : option turbo_tool_registry)
    (name : option string) : turbo_tool_status * option J :=
  if negb (bool_decide (is_Some registry) && nonempty_text name)
  then (TURBO_TOOL_INVALID_ARGUMENT, None)
  else
    match found registry name with
    | None => (TURBO_TOOL_NOT_FOUND, None)
    | Some e => (TURBO_TOOL_OK, e_execution_metadata e)
    end.

(** ** Changing an entry *)

Definition update_entry (i : nat) (f : turbo_tool_entry -> turbo_tool_entry)
    (r : turbo_tool_registry) : turbo_tool_registry :=
  set_entries (alter f i (entries r)) r.

Definition set_native (p : turbo_tool_native_projection) (e : turbo_tool_entry) : turbo_tool_entry :=
  mk_entry (e_name e) (e_description e) (e_parameters_json e) (e_parameters_json_serialized e)
    (e_parameters_schema e) (e_strict e) (e_handler e) (e_json_value_handler e)
    (e_context_handler e) (e_json_value_context_handler e) (e_user_data_free e)
    (e_execution_policy e) (e_required_capabilities e) (e_result_schema_json e)
    (e_result_schema e) (e_strict_result e) (e_effect_flags e) (Some p)
    (e_execution_metadata e).

Definition set_metadata (m : option J) (e : turbo_tool_entry) : turbo_tool_entry :=
  mk_entry (e_name e) (e_description e) (e_parameters_json e) (e_parameters_json_serialized e)
    (e_parameters_schema e) (e_strict e) (e_handler e) (e_json_value_handler e)
    (e_context_handler e) (e_json_value_context_handler e) (e_user_data_free e)
    (e_execution_policy e) (e_required_capabilities e) (e_result_schema_json e)
    (e_result_schema e) (e_strict_result e) (e_effect_flags e) (e_native_projection e) m.

Definition add_capability (c : string) (e : turbo_tool_entry) : turbo_tool_entry :=
  mk_entry (e_name e) (e_description e) (e_parameters_json e) (e_parameters_json_serialized e)
    (e_parameters_schema e) (e_strict e) (e_handler e) (e_json_value_handler e)
    (e_context_handler e) (e_json_value_context_handler e) (e_user_data_free e)
    (e_execution_policy e) (e_required_capabilities e ++ [c]) (e_result_schema_json e)
    (e_result_schema e) (e_strict_result e) (e_effect_flags e) (e_native_projection e)
    (e_execution_metadata e).

(** [sizeof]: a [size_t], a [uint32_t], two pointers, then the callable. *)
Context (sizeof_native_projection : Z).

(** The parameters of the descriptor, as many as it counts, match the signature. *)
(* src/runtime_tools/src/turbo_tool_registry.c 267-275 turbo_tool_native_projection_bind *)
Fixpoint parameters_match (fd : cmeta_function_desc) (i : Z) (params : list cmeta_type) : bool :=
  match params with
  | [] => true
  | p :: params =>
      match cmeta_function_param fd i with
      | Some (t, _) => cmeta_type_equal p t && parameters_match fd (i + 1) params
      | None => false
      end
  end.

(* src/runtime_tools/src/turbo_tool_registry.c 239-282 turbo_tool_native_projection_bind *)
Definition turbo_tool_native_projection_bind (p : turbo_tool_native_projection)
  : option turbo_tool_native_projection :=
  if (np_struct_size p <? sizeof_native_projection)
     || negb (np_abi_version p =? TURBO_TOOL_NATIVE_PROJECTION_ABI_VERSION)
     || negb (cmeta_function_desc_valid (np_function p))
     || negb (cmeta_function_abi_desc_valid (np_abi p))
     || negb (cmeta_function_desc_equal (np_function p) (abi_function (np_abi p)))
  then None
  else
    match cmeta_callable_bind (np_callable p) with
    | None => None
    | Some bound =>
        match cmeta_fn_signature bound with
        | Some (by_value, return_type, params) =>
            if by_value && (Z.of_nat (length params) =? fd_param_count (np_function p))
               && cmeta_type_equal return_type (fd_return_type (np_function p))
               && (callable_effects bound =? fd_effects (np_function p))
               && (callable_properties bound =? fd_properties (np_function p))
               && parameters_match (np_function p) 0 params
            then Some (mk_projection sizeof_native_projection
                         TURBO_TOOL_NATIVE_PROJECTION_ABI_VERSION (np_function p) (np_abi p) bound)
            else None
        | None => None
        end
    end.

(* src/runtime_tools/src/turbo_tool_registry.c 590-614 turbo_tool_registry_publish_native_projection *)
Definition turbo_tool_registry_publish_native_projection (registry : option turbo_tool_registry)
    (name : option string) (projection : option turbo_tool_native_projection)
  : turbo_tool_status * option turbo_tool_registry :=
  match registry, projection with
  | Some r, Some p =>
      if negb (nonempty_text name) then (TURBO_TOOL_INVALID_ARGUMENT, registry)
      else
        match turbo_tool_registry_find registry name with
        | None => (TURBO_TOOL_NOT_FOUND, registry)
        | Some i =>
            match entries r !! i with
            | None => (TURBO_TOOL_NOT_FOUND, registry)
            | Some e =>
                if e_native_projection e is Some _ then (TURBO_TOOL_DUPLICATE, registry)
                else
                  match turbo_tool_native_projection_bind p with
                  | None => (TURBO_TOOL_INVALID_ARGUMENT, registry)
                  | Some bound =>
                      if (e_effect_flags e =? TURBO_TOOL_EFFECT_PURE)
                         && negb (cmeta_effects_are_pure (fd_effects (np_function bound)))
                      then (TURBO_TOOL_INVALID_ARGUMENT, registry)
                      else (TURBO_TOOL_OK, Some (update_entry i (set_native bound) r))
                  end
            end
        end
  | _, _ => (TURBO_TOOL_INVALID_ARGUMENT, registry)
  end.

(* src/runtime_tools/src/turbo_tool_registry.c 632-658 turbo_tool_registry_require_capability *)
Definition turbo_tool_registry_require_capability (registry : option turbo_tool_registry)
    (name : option string) (capability : option string) (o : oracle) : change :=
  match registry, name, capability with
  | Some r, Some _, Some (String a s) =>
      match turbo_tool_registry_find registry name with
      | None => (TURBO_TOOL_NOT_FOUND, registry, o)
      | Some i =>
          match entries r !! i with
          | None => (TURBO_TOOL_NOT_FOUND, registry, o)
          | Some e =>
              if bool_decide (String a s ∈ e_required_capabilities e)
              then (TURBO_TOOL_OK, registry, o)
              else
                let (copied, o) := alloc o in
                if negb copied then (TURBO_TOOL_OUT_OF_MEMORY, registry, o)
                else
                  let (resized, o) := alloc o in
                  if negb resized then (TURBO_TOOL_OUT_OF_MEMORY, registry, o)
                  else (TURBO_TOOL_OK, Some (update_entry i (add_capability (String a s)) r), o)
          end
      end
  | _, _, _ => (TURBO_TOOL_INVALID_ARGUMENT, registry, o)
  end.

(** The clone of a clone; NULL clears the metadata. *)
(* src/runtime_tools/src/turbo_tool_registry.c 660-677 turbo_tool_registry_set_execution_metadata *)
Definition turbo_tool_registry_set_execution_metadata (registry : option turbo_tool_registry)
    (name : option string) (metadata : option J) (o : oracle) : change :=
  match registry with
  | Some r =>
      if negb (nonempty_text name)
         || match metadata with
            | Some m => negb (bool_decide (json_type m = JSON_OBJECT))
            | None => false
            end
      then (TURBO_TOOL_INVALID_ARGUMENT, registry, o)
      else
        match turbo_tool_registry_find registry name with
        | None => (TURBO_TOOL_NOT_FOUND, registry, o)
        | Some i =>
            match metadata with
            | None => (TURBO_TOOL_OK, Some (update_entry i (set_metadata None) r), o)
            | Some m =>
                let (copied, o) := alloc_all 2 o in
                if copied
                then (TURBO_TOOL_OK,
                      Some (update_entry i (set_metadata (Some (json_clone (json_clone m)))) r), o)
                else (TURBO_TOOL_OUT_OF_MEMORY, registry, o)
            end
        end
  | None => (TURBO_TOOL_INVALID_ARGUMENT, registry, o)
  end.

(** ** Projection and composition *)

(** The definition under which an entry is registered again: everything but the
    release of its user data, which stays borrowed. *)
(* src/runtime_tools/src/turbo_tool_registry.c 737-756 turbo_tool_registry_project *)
Definition borrowed_definition (e : turbo_tool_entry) : turbo_tool_definition_v6 J W :=
  mk_definition_v6 sizeof_definition_v6 6
    (mk_definition (Some (e_name e)) (Some (e_description e)) (Some (e_parameters_json e))
       (e_parameters_schema e) (e_strict e) (e_handler e) (e_json_value_handler e) None)
    (e_execution_policy e) (Some (Some <$> e_required_capabilities e))
    (e_context_handler e) (e_json_value_context_handler e) (e_result_schema_json e)
    (e_strict_result e) (e_effect_flags e).

(* src/runtime_tools/src/turbo_tool_registry.c 758-766 turbo_tool_registry_project *)
Definition register_borrowed (target : option turbo_tool_registry) (e : turbo_tool_entry)
    (o : oracle) : change :=
  match turbo_tool_registry_add_v6 target (Some (borrowed_definition e)) o with
  | (TURBO_TOOL_OK, target, o) =>
      let '(status, target, o) :=
        match e_execution_metadata e with
        | Some m =>
            turbo_tool_registry_set_execution_metadata target (Some (e_name e)) (Some m) o
        | None => (TURBO_TOOL_OK, target, o)
        end in
      if bool_decide (status = TURBO_TOOL_OK) then
        match e_native_projection e with
        | Some p =>
            let (status, target) :=
              turbo_tool_registry_publish_native_projection target (Some (e_name e)) (Some p) in
            (status, target, o)
        | None => (TURBO_TOOL_OK, target, o)
        end
      else (status, target, o)
  | r => r
  end.

(** What a builder leaves in its out parameter: [None] when it did not write. *)
Definition built : Type := turbo_tool_status * option (option turbo_tool_registry) * oracle.

(* src/runtime_tools/src/turbo_tool_registry.c 708-774 turbo_tool_registry_project *)
Fixpoint project_loop (source : turbo_tool_registry) (seen : list string)
    (names : list (option string)) (projection : option turbo_tool_registry) (o : oracle) : built :=
  match names with
  | [] => (TURBO_TOOL_OK, Some projection, o)
  | None :: _ | Some EmptyString :: _ => (TURBO_TOOL_INVALID_ARGUMENT, Some None, o)
  | Some name :: names =>
      if bool_decide (name ∈ seen) then (TURBO_TOOL_DUPLICATE, Some None, o)
      else
        match i ← find_exact 0 (entries source) name; entries source !! i with
        | None => (TURBO_TOOL_NOT_FOUND, Some None, o)
        | Some e =>
            match register_borrowed projection e o with
            | (TURBO_TOOL_OK, projection, o) =>
                project_loop source (seen ++ [name]) names projection o
            | (status, _, o) => (status, Some None, o)
            end
        end
  end.

(** [names]: [None] is NULL with a count that is not zero. *)
(* src/runtime_tools/src/turbo_tool_registry.c 692-775 turbo_tool_registry_project *)
Definition turbo_tool_registry_project (source : option turbo_tool_registry)
    (names : option (list (option string))) (out_projection : bool) (o : oracle) : built :=
  match source, names with
  | Some source, Some names =>
      if negb out_projection then (TURBO_TOOL_INVALID_ARGUMENT, None, o)
      else
        match turbo_tool_registry_create o with
        | (None, o) => (TURBO_TOOL_OUT_OF_MEMORY, Some None, o)
        | (projection, o) => project_loop source [] names projection o
        end
  | _, _ => (TURBO_TOOL_INVALID_ARGUMENT, None, o)
  end.

(* src/runtime_tools/src/turbo_tool_registry.c 794-831 turbo_tool_registry_compose *)
Fixpoint compose_entries (l : list turbo_tool_entry) (composite : option turbo_tool_registry)
    (o : oracle) : change :=
  match l with
  | [] => (TURBO_TOOL_OK, composite, o)
  | e :: l =>
      match register_borrowed composite e o with
      | (TURBO_TOOL_OK, composite, o) => compose_entries l composite o
      | r => r
      end
  end.

(* src/runtime_tools/src/turbo_tool_registry.c 788-834 turbo_tool_registry_compose *)
Fixpoint compose_loop (sources : list (option turbo_tool_registry))
    (composite : option turbo_tool_registry) (o : oracle) : built :=
  match sources with
  | [] => (TURBO_TOOL_OK, Some composite, o)
  | None :: _ => (TURBO_TOOL_INVALID_ARGUMENT, Some None, o)
  | Some source :: sources =>
      match compose_entries (entries source) composite o with
      | (TURBO_TOOL_OK, composite, o) => compose_loop sources composite o
      | (status, _, o) => (status, Some None, o)
      end
  end.

(* src/runtime_tools/src/turbo_tool_registry.c 777-835 turbo_tool_registry_compose *)
Definition turbo_tool_registry_compose (sources : option (list (option turbo_tool_registry)))
    (out_composite : bool) (o : oracle) : built :=
  match sources with
  | Some sources =>
      if negb out_composite then (TURBO_TOOL_INVALID_ARGUMENT, None, o)
      else
        match turbo_tool_registry_create o with
        | (None, o) => (TURBO_TOOL_OUT_OF_MEMORY, Some None, o)
        | (composite, o) => compose_loop sources composite o
        end
  | None => (TURBO_TOOL_INVALID_ARGUMENT, None, o)
  end.

(** ** Execution *)

(* src/runtime_tools/src/turbo_tool_registry.c 837-845 turbo_tool_execution_context_valid *)
Definition turbo_tool_execution_context_valid (context : option turbo_tool_execution_context)
  : bool :=
  match context with
  | None => true
  | Some c =>
      if ctx_abi_version c =? TURBO_TOOL_EXECUTION_CONTEXT_ABI_VERSION_V1
      then TURBO_TOOL_EXECUTION_CONTEXT_V1_SIZE <=? ctx_struct_size c
      else (ctx_abi_version c =? TURBO_TOOL_EXECUTION_CONTEXT_ABI_VERSION)
           && (sizeof_execution_context <=? ctx_struct_size c)
  end.

(** Status, output and world of an execution; an output that comes with a failure
    is discarded. *)
Definition executed (A : Type) : Type := turbo_tool_status * option A * W.

(* src/runtime_tools/src/turbo_tool_registry.c 872-877 turbo_tool_registry_execute *)
Definition from_legacy {A} (r : Z * option A * W) : executed A :=
  let '(rc, out, w) := r in
  if rc =? 0 then (TURBO_TOOL_OK, out, w) else (TURBO_TOOL_ERROR, None, w).

(* src/runtime_tools/src/turbo_tool_registry.c 878-884 turbo_tool_registry_execute *)
Definition from_context {A} (r : turbo_tool_status * option A * W) : executed A :=
  let '(status, out, w) := r in
  if bool_decide (status = TURBO_TOOL_OK) then (TURBO_TOOL_OK, out, w) else (status, None, w).

(* src/runtime_tools/src/turbo_tool_registry.c 861-886 turbo_tool_registry_execute *)
Definition turbo_tool_registry_execute (registry : option turbo_tool_registry)
    (name arguments_json : option string) (out_output : bool) (w : W) : executed string :=
  if negb (bool_decide (is_Some registry) && bool_decide (is_Some name) && out_output)
  then (TURBO_TOOL_INVALID_ARGUMENT, None, w)
  else
    match found registry name with
    | None => (TURBO_TOOL_NOT_FOUND, None, w)
    | Some e =>
        let arguments := default "{}" arguments_json in
        match e_handler e, e_context_handler e with
        | Some handler, _ => from_legacy (handler arguments w)
        | None, Some handler => from_context (handler arguments None w)
        | None, None => (TURBO_TOOL_ERROR, None, w)
        end
    end.

(* src/runtime_tools/src/turbo_tool_registry.c 888-915 turbo_tool_registry_execute_with_context *)
Definition turbo_tool_registry_execute_with_context (registry : option turbo_tool_registry)
    (name arguments_json : option string) (context : option turbo_tool_execution_context)
    (out_output : bool) (w : W) : executed string :=
  if negb (bool_decide (is_Some registry) && bool_decide (is_Some name) && out_output
           && turbo_tool_execution_context_valid context)
  then (TURBO_TOOL_INVALID_ARGUMENT, None, w)
  else
    match found registry name with
    | None => (TURBO_TOOL_NOT_FOUND, None, w)
    | Some e =>
        let arguments := default "{}" arguments_json in
        match e_context_handler e, e_handler e with
        | Some handler, _ => from_context (handler arguments context w)
        | None, Some handler => from_legacy (handler arguments w)
        | None, None => (TURBO_TOOL_ERROR, None, w)
        end
    end.

(* src/runtime_tools/src/turbo_tool_registry.c 917-942 turbo_tool_registry_execute_json_value *)
Definition turbo_tool_registry_execute_json_value (registry : option turbo_tool_registry)
    (name : option string) (arguments : option J) (out_result : bool) (w : W) : executed J :=
  if negb (bool_decide (is_Some registry) && bool_decide (is_Some name) && out_result)
  then (TURBO_TOOL_INVALID_ARGUMENT, None, w)
  else
    match found registry name with
    | None => (TURBO_TOOL_NOT_FOUND, None, w)
    | Some e =>
        match e_json_value_handler e, e_json_value_context_handler e with
        | Some handler, _ => from_legacy (handler arguments w)
        | None, Some handler => from_context (handler arguments None w)
        | None, None => (TURBO_TOOL_ERROR, None, w)
        end
    end.

(* src/runtime_tools/src/turbo_tool_registry.c 944-970 turbo_tool_registry_execute_json_value_with_context *)
Definition turbo_tool_registry_execute_json_value_with_context
    (registry : option turbo_tool_registry) (name : option string) (arguments : option J)
    (context : option turbo_tool_execution_context) (out_result : bool) (w : W) : executed J :=
  if negb (bool_decide (is_Some registry) && bool_decide (is_Some name) && out_result
           && turbo_tool_execution_context_valid context)
  then (TURBO_TOOL_INVALID_ARGUMENT, None, w)
  else
    match found registry name with
    | None => (TURBO_TOOL_NOT_FOUND, None, w)
    | Some e =>
        match e_json_value_context_handler e, e_json_value_handler e with
        | Some handler, _ => from_context (handler arguments context w)
        | None, Some handler => from_legacy (handler arguments w)
        | None, None => (TURBO_TOOL_ERROR, None, w)
        end
    end.

End registry.
