(* ===== verification/ToolRegistryFacts.v ===== *)
(** * Properties of the tool registry

    Lookup, the well-formedness invariant of registries and entries, faithful
    projection, and the discipline of execution. *)

From S2P Require Import Prelude RuntimeJson JsonMem Tool ToolRegistry.

(** ** Names *)

Lemma compatible_name_equals_iff original compatible :
  turbo_tool_openai_compatible_name_equals original compatible = true <->
  compatible_form original = compatible.
Proof.
  revert compatible. induction original as [|a original IH]; intros [|b compatible]; cbn; try done.
  rewrite andb_true_iff, bool_decide_eq_true, IH. split; [by intros [-> ->]|by intros [= -> ->]].
Qed.

Section lookup.
Context {J W : Type} `{JsonApi J, Cmeta}.
Abbreviation entry := (turbo_tool_entry (J := J) (W := W)).
Abbreviation registry := (turbo_tool_registry (J := J) (W := W)).

Lemma find_exact_some (l : list entry) name : forall i k, find_exact i l name = Some k ->
  exists j e, k = (i + j)%nat /\ l !! j = Some e /\ e_name e = name.
Proof.
  induction l as [|e l IH]; intros i k; cbn; [done|]. case_bool_decide as E.
  - intros [= <-]. exists 0%nat, e. split; [lia|done].
  - intros (j & e' & -> & ? & ?)%IH. exists (S j), e'. split; [lia|done].
Qed.

Lemma find_exact_none (l : list entry) name i :
  find_exact i l name = None <-> name ∉ (e_name <$> l).
Proof.
  revert i. induction l as [|e l IH]; intros i; cbn.
  { split; [|done]. intros _. apply not_elem_of_nil. }
  rewrite not_elem_of_cons. case_bool_decide as E; [split; [done|]|].
  - intros [Hne _]. by destruct Hne.
  - rewrite IH. split; [by intros ?|by intros [_ ?]].
Qed.

(** With distinct names the first match is the only one. *)
Lemma find_exact_unique (l : list entry) name j e :
  NoDup (e_name <$> l) -> l !! j = Some e -> e_name e = name -> find_exact 0 l name = Some j.
Proof.
  intros Hnd Hj Hn. destruct (find_exact 0 l name) as [k|] eqn:E.
  - apply find_exact_some in E as (j' & e' & -> & Hj' & Hn'). cbn. f_equal.
    eapply (NoDup_lookup (e_name <$> l) j' j name); [done|..]; rewrite list_lookup_fmap.
    + by rewrite Hj', <- Hn'.
    + by rewrite Hj, <- Hn.
  - apply find_exact_none in E. destruct E. rewrite <- Hn. apply list_elem_of_fmap_2.
    by eapply list_elem_of_lookup_2.
Qed.

(** The compatible scan counts, and remembers the last match. *)
Lemma scan_compatible_spec (l : list entry) name : forall i m n,
  let (m', n') := scan_compatible i l name m n in
  n <= n' /\
  (n' = n -> m' = m /\ forall j e, l !! j = Some e -> compatible_form (e_name e) <> name) /\
  (n' = n + 1 -> exists j e, m' = Some (i + j)%nat /\ l !! j = Some e /\
     compatible_form (e_name e) = name /\
     forall j' e', l !! j' = Some e' -> compatible_form (e_name e') = name -> j' = j) /\
  (n + 2 <= n' -> exists j e j' e', j <> j' /\ l !! j = Some e /\ l !! j' = Some e' /\
     compatible_form (e_name e) = name /\ compatible_form (e_name e') = name).
Proof.
  induction l as [|e l IH]; intros i m n; cbn [scan_compatible].
  { repeat split; try done; lia. }
  destruct (turbo_tool_openai_compatible_name_equals (e_name e) name) eqn:E.
  - apply compatible_name_equals_iff in E. specialize (IH (S i) (Some i) (n + 1)).
    destruct (scan_compatible (S i) l name (Some i) (n + 1)) as [m' n'].
    destruct IH as (Hle & Hzero & Hone & Htwo). split; [lia|]. split; [lia|]. split.
    + intros Hn. destruct (Hzero Hn) as [-> Hnone]. exists 0%nat, e.
      split; [f_equal; lia|]. split; [done|]. split; [done|].
      intros [|j'] e' Hj' Hc; [done|]. by destruct (Hnone _ _ Hj').
    + intros Hn. destruct (decide (n' = n + 1 + 1)) as [Hn1|].
      * destruct (Hone Hn1) as (j & e1 & _ & Hj & Hc & _). by exists 0%nat, e, (S j), e1.
      * destruct Htwo as (j & e1 & j' & e2 & Hne & Hrest); [lia|].
        exists (S j), e1, (S j'), e2. split; [congruence|done].
  - assert (Hno : compatible_form (e_name e) <> name)
      by (intros Hc; apply compatible_name_equals_iff in Hc; congruence).
    specialize (IH (S i) m n). destruct (scan_compatible (S i) l name m n) as [m' n'].
    destruct IH as (Hle & Hzero & Hone & Htwo). split; [done|]. split; [|split].
    + intros Hn. destruct (Hzero Hn) as [-> Hnone]. split; [done|].
      intros [|j] e1 Hj; [by injection Hj as <-|by eapply Hnone].
    + intros Hn. destruct (Hone Hn) as (j & e1 & -> & Hj & Hc & Huniq). exists (S j), e1.
      split; [f_equal; lia|]. split; [done|]. split; [done|].
      intros [|j'] e2 Hj' Hc'; [by injection Hj' as <-|]. f_equal. by eapply Huniq.
    + intros Hn. destruct (Htwo Hn) as (j & e1 & j' & e2 & Hne & Hrest).
      exists (S j), e1, (S j'), e2. split; [congruence|done].
Qed.

Lemma find_inside (r : registry) name i :
  turbo_tool_registry_find (Some r) (Some name) = Some i -> is_Some (entries r !! i).
Proof.
  unfold turbo_tool_registry_find. destruct (find_exact 0 (entries r) name) as [k|] eqn:E.
  - intros [= <-]. apply find_exact_some in E as (j & e & -> & Hj & _). by exists e.
  - pose proof (scan_compatible_spec (entries r) name 0 None 0) as Hscan.
    destruct (scan_compatible 0 (entries r) name None 0) as [m n].
    destruct (Z.eqb_spec n 1) as [Hn1|]; [|done]. destruct Hscan as (_ & _ & Hone & _).
    destruct Hone as (j & e & -> & Hj & _); [done|]. intros [= <-]. by exists e.
Qed.

(** What [turbo_tool_registry_get_definition] shows of an entry. *)
Definition view (e : entry) : turbo_tool_definition J W :=
  mk_definition (Some (e_name e)) (Some (e_description e)) (Some (e_parameters_json e))
    (e_parameters_schema e) (e_strict e) (e_handler e) (e_json_value_handler e)
    (e_user_data_free e).

Lemma get_definition_view (r : registry) i e : entries r !! i = Some e ->
  turbo_tool_registry_get_definition (Some r) (Z.of_nat i) = (TURBO_TOOL_OK, Some (view e)).
Proof.
  intros Hi. unfold turbo_tool_registry_get_definition.
  pose proof (lookup_lt_Some _ _ _ Hi) as Hlt. rewrite (proj2 (Z.leb_gt _ _)) by lia.
  by rewrite Nat2Z.id, Hi.
Qed.

Lemma found_canonical (r : registry) name e : NoDup (e_name <$> entries r) ->
  found (Some r) name = Some e -> found (Some r) (Some (e_name e)) = Some e.
Proof.
  intros Hnd Hf. unfold found in *.
  destruct (turbo_tool_registry_find (Some r) name) as [i|]; [|done]. cbn in Hf.
  unfold turbo_tool_registry_find. by rewrite (find_exact_unique _ _ i e Hnd Hf).
Qed.

Lemma found_member (r : registry) name e : found (Some r) name = Some e -> e ∈ entries r.
Proof.
  unfold found. destruct (turbo_tool_registry_find (Some r) name) as [i|]; [|done].
  apply list_elem_of_lookup_2.
Qed.

Lemma resolve_name_found (r : registry) name canonical :
  turbo_tool_registry_resolve_name (Some r) name = (TURBO_TOOL_OK, Some canonical) ->
  exists e, found (Some r) name = Some e /\ canonical = e_name e.
Proof.
  unfold turbo_tool_registry_resolve_name. destruct (negb _); [done|].
  destruct (found (Some r) name) as [e|]; [|done]. intros [= <-]. by exists e.
Qed.

(** Lookup: with distinct registered names, a text finds the entry of exactly
    that name; failing that, the entry whose OpenAI-compatible form it is, if
    there is exactly one; otherwise nothing. *)
Theorem registry_find_spec (r : registry) (name : string) (i : nat) :
  NoDup (e_name <$> entries r) ->
  turbo_tool_registry_find (Some r) (Some name) = Some i <->
  exists e, entries r !! i = Some e /\
    (e_name e = name \/
     (name ∉ (e_name <$> entries r)) /\ compatible_form (e_name e) = name /\
     forall j e', entries r !! j = Some e' -> compatible_form (e_name e') = name -> j = i).
Proof.
  intros Hnd. unfold turbo_tool_registry_find. split.
  - destruct (find_exact 0 (entries r) name) as [k|] eqn:E.
    + intros [= <-]. apply find_exact_some in E as (j & e & -> & Hj & Hn). exists e. by split; [|left].
    + apply find_exact_none in E.
      pose proof (scan_compatible_spec (entries r) name 0 None 0) as Hscan.
      destruct (scan_compatible 0 (entries r) name None 0) as [m n].
      destruct (Z.eqb_spec n 1) as [Hn1|]; [|done]. destruct Hscan as (_ & _ & Hone & _).
      destruct Hone as (j & e & -> & Hj & Hc & Huniq); [done|]. intros [= <-].
      exists e. split; [done|]. by right.
  - intros (e & Hi & [Hn|(Hnone & Hc & Huniq)]); [by rewrite (find_exact_unique _ _ _ _ Hnd Hi Hn)|].
    rewrite (proj2 (find_exact_none _ _ 0) Hnone).
    pose proof (scan_compatible_spec (entries r) name 0 None 0) as Hscan.
    destruct (scan_compatible 0 (entries r) name None 0) as [m n].
    destruct Hscan as (Hle & Hzero & Hone & Htwo).
    destruct (Z.eqb_spec n 1) as [->|Hne].
    + destruct Hone as (j & e' & -> & Hj & Hc' & _); [done|]. cbn. f_equal. by eapply Huniq.
    + exfalso. destruct (decide (n = 0)) as [->|Hn0].
      { destruct Hzero as [_ Hz]; [done|]. by eapply Hz. }
      destruct Htwo as (j & e1 & j' & e2 & Hne' & Hj & Hj' & Hc1 & Hc2); [lia|].
      apply Hne'. by rewrite (Huniq _ _ Hj Hc1), (Huniq _ _ Hj' Hc2).
Qed.

End lookup.

(** ** The invariant *)

Section invariant.
Context {J W : Type} `{JsonLaws J, Cmeta} (sizeof_native_projection : Z).
Abbreviation entry := (turbo_tool_entry (J := J) (W := W)).
Abbreviation registry := (turbo_tool_registry (J := J) (W := W)).
Abbreviation bind_projection := (turbo_tool_native_projection_bind sizeof_native_projection).
Abbreviation publish := (turbo_tool_registry_publish_native_projection sizeof_native_projection).

(** The schema of a result: absent, or a text that parses to an object. *)
Definition parse_result_schema (text : option string) : option (option J) :=
  match text with
  | None => Some None
  | Some t =>
      match json_parse t with
      | Some v => if bool_decide (json_type v = JSON_OBJECT) then Some (Some v) else None
      | None => None
      end
  end.
Lemma read_result_schema_spec text o rv o' :
  read_result_schema text o = (Some rv, o') -> parse_result_schema text = Some rv.
Proof.
  destruct text as [t|]; [|by intros [= <- _]]. unfold read_result_schema, parse_result_schema.
  unfold parse_text, need, create, mbind, mem_bind, mret, mem_ret, mem_fail.
  destruct (json_parse t) as [v|]; [|done]. destruct (alloc o) as [[] o1]; [|done]. by intros [= -> _].
Qed.

(** What an entry's native projection must be: the result of a binding, and pure
    when the tool is declared pure. *)
Definition native_wf (flags : Z) (p : option turbo_tool_native_projection) : Prop :=
  match p with
  | None => True
  | Some p => (exists q, bind_projection q = Some p) /\
      (flags = TURBO_TOOL_EFFECT_PURE -> cmeta_effects_are_pure (fd_effects (np_function p)) = true)
  end.

Record entry_wf (e : entry) : Prop := {
  wf_policy : turbo_tool_execution_policy_valid (e_execution_policy e) = true;
  wf_handler : is_Some (e_handler e) \/ is_Some (e_json_value_handler e) \/
               is_Some (e_context_handler e) \/ is_Some (e_json_value_context_handler e);
  wf_capabilities : NoDup (e_required_capabilities e) /\
                    Forall (fun c => c <> EmptyString) (e_required_capabilities e);
  wf_effects : turbo_tool_effect_flags_valid (e_effect_flags e) = true /\ e_effect_flags e <> 0;
  wf_result : parse_result_schema (e_result_schema_json e) = Some (e_result_schema e);
  wf_strict : e_strict_result e = 0 \/
              e_strict_result e = 1 /\ is_Some (e_result_schema_json e);
  wf_native : native_wf (e_effect_flags e) (e_native_projection e);
  wf_metadata : match e_execution_metadata e with
                | Some m => json_type m = JSON_OBJECT | None => True end
}.

Record registry_wf (r : registry) : Prop := {
  wf_entries : Forall entry_wf (entries r);
  wf_names : NoDup (e_name <$> entries r);
  wf_capacity : Z.of_nat (length (entries r)) <= capacity r <= INT64_MAX
}.

Lemma reserve_spec (r : registry) o :
  let '(status, r', o') := turbo_tool_registry_reserve r o in
  entries r' = entries r /\
  (status = TURBO_TOOL_OK \/ status = TURBO_TOOL_OUT_OF_MEMORY /\ r' = r) /\
  (registry_wf r -> registry_wf r' /\
     (status = TURBO_TOOL_OK -> Z.of_nat (S (length (entries r))) <= capacity r')).
Proof.
  unfold turbo_tool_registry_reserve.
  destruct (Z.ltb_spec (Z.of_nat (length (entries r))) (capacity r)) as [Hlt|Hfull].
  { split; [done|]. split; [by left|]. intros Hwf. split; [done|lia]. }
  destruct (alloc o) as [ok o']. set (new_capacity := if capacity r =? 0 then 4 else _).
  destruct (ok && (new_capacity <=? INT64_MAX)) eqn:Eok; cycle 1.
  { split; [done|]. split; [by right|done]. }
  bool_to_prop. split; [done|]. split; [by left|]. intros [Hent Hnames Hcap]. cbn.
  assert (Hroom : Z.of_nat (S (length (entries r))) <= new_capacity).
  { subst new_capacity. destruct (Z.eqb_spec (capacity r) 0); [lia|].
    rewrite u64_small in * by (unfold UINT64_MAX, INT64_MAX in *; lia). lia. }
  split; [|done]. split; [done|done|]. cbn. lia.
Qed.

(** ** The arguments of an addition *)

Lemma capabilities_valid_spec caps : forall seen,
  capabilities_valid seen caps = true -> NoDup seen -> Forall (fun c => c <> EmptyString) seen ->
  caps = Some <$> omap id caps /\ NoDup (seen ++ omap id caps) /\
  Forall (fun c => c <> EmptyString) (seen ++ omap id caps).
Proof.
  induction caps as [|[[|a s]|] caps IH]; intros seen; cbn; try done.
  { rewrite app_nil_r. done. }
  case_bool_decide as Hin; [done|]. intros Hv Hnd Hne.
  destruct (IH (seen ++ [String a s]) Hv) as (Ec & Hnd' & Hne').
  - apply NoDup_app. split; [done|]. split; [|by apply NoDup_singleton].
    intros x Hx ->%list_elem_of_singleton. done.
  - apply Forall_app. by split; [|constructor].
  - rewrite <- app_assoc in Hnd', Hne'. cbn in Hnd', Hne'. split; [by f_equal|done].
Qed.

Lemma capabilities_valid_intro caps : forall seen,
  NoDup (seen ++ caps) -> Forall (fun c => c <> EmptyString) caps ->
  capabilities_valid seen (Some <$> caps) = true.
Proof.
  induction caps as [|c caps IH]; intros seen Hnd Hne; [done|].
  apply Forall_cons in Hne as [Hc Hne]. destruct c as [|a s]; [done|]. cbn.
  rewrite bool_decide_eq_false_2.
  - apply IH; [|done]. by rewrite <- app_assoc.
  - apply NoDup_app in Hnd as (_ & Hd & _). intros Hin. apply (Hd _ Hin). apply elem_of_cons. by left.
Qed.

Lemma add_arguments_valid_spec (d : turbo_tool_definition J W) policy caps ch jch rs strict flags :
  add_arguments_valid d policy caps ch jch rs strict flags = true <->
  is_Some (d_name d) /\ is_Some (d_description d) /\
  (is_Some (d_parameters_json d) \/ is_Some (d_parameters_schema d)) /\
  (is_Some (d_handler d) \/ is_Some (d_json_value_handler d) \/ is_Some ch \/ is_Some jch) /\
  turbo_tool_execution_policy_valid policy = true /\ is_Some caps /\
  (strict = 0 \/ strict = 1) /\ (strict = 0 \/ is_Some rs) /\
  turbo_tool_effect_flags_valid flags = true.
Proof.
  unfold add_arguments_valid.
  rewrite !andb_true_iff, !orb_true_iff, !bool_decide_eq_true, !Z.eqb_eq. tauto.
Qed.

Lemma new_entry_wf name description (d : turbo_tool_definition J W) policy caps ch jch rs rv
    strict flags :
  add_arguments_valid d policy (Some caps) ch jch rs strict flags = true ->
  parse_result_schema rs = Some rv -> capabilities_valid [] caps = true ->
  entry_wf (new_entry name description d policy caps ch jch rs rv strict flags).
Proof.
  intros Hv Hparse Hcaps.
  apply add_arguments_valid_spec in Hv as (_ & _ & _ & Hh & Hp & _ & Hs & Hrs & Hf).
  destruct (capabilities_valid_spec caps [] Hcaps) as (_ & Hnd & Hne); [constructor..|].
  split; cbn; try done.
  - unfold turbo_tool_effect_flags_normalize. destruct (Z.eqb_spec flags 0); done.
  - destruct rs; [|by left]. destruct Hs as [->| ->]; [by left|right]. by split.
Qed.

(** An addition either reports a failure and leaves the entries alone, or
    appends the entry the definition describes. *)
Lemma add_with_policy_spec (r : registry) d policy caps ch jch rs strict flags o :
  let '(status, out, o') :=
    turbo_tool_registry_add_with_policy (Some r) (Some d) policy caps ch jch rs strict flags o in
  exists r', out = Some r' /\
  (status <> TURBO_TOOL_OK /\ entries r' = entries r \/
   status = TURBO_TOOL_OK /\ exists name description cs rv,
     d_name d = Some name /\ d_description d = Some description /\ caps = Some cs /\
     (name ∉ (e_name <$> entries r)) /\
     add_arguments_valid d policy (Some cs) ch jch rs strict flags = true /\
     parse_result_schema rs = Some rv /\ capabilities_valid [] cs = true /\
     entries r' = entries r ++ [new_entry name description d policy cs ch jch rs rv strict flags]) /\
  (registry_wf r -> registry_wf r').
Proof.
  unfold turbo_tool_registry_add_with_policy.
  destruct (add_arguments_valid d policy caps ch jch rs strict flags) eqn:Hv; cbn [negb].
  2: { exists r. split; [done|]. split; [by left|done]. }
  pose proof Hv as Hv'. apply add_arguments_valid_spec in Hv' as ([name En] & [desc Ed] & _ & _ & _ & [cs ->] & _).
  destruct (read_result_schema rs o) as [[rv|] o0] eqn:Hread.
  2: { exists r. split; [done|]. split; [by left|done]. }
  apply read_result_schema_spec in Hread as Hparse.
  cbn [default from_option]. change (id cs) with cs.
  destruct (capabilities_valid [] cs) eqn:Hcaps; cbn [negb].
  2: { exists r. split; [done|]. split; [by left|done]. }
  destruct (turbo_tool_registry_find (Some r) (d_name d)) as [k|] eqn:Efind.
  { exists r. split; [done|]. split; [by left|done]. }
  pose proof (reserve_spec r o0) as Hres.
  destruct (turbo_tool_registry_reserve r o0) as [[status r1] o1].
  destruct Hres as (Ee & Hstatus & Hwf).
  assert (Hnone : name ∉ (e_name <$> entries r)).
  { rewrite En in Efind. unfold turbo_tool_registry_find in Efind.
    destruct (find_exact 0 (entries r) name) eqn:Ex; [done|]. by apply find_exact_none in Ex. }
  destruct Hstatus as [->|[-> ->]].
  2: { exists r. split; [done|]. split; [by left|done]. }
  destruct (alloc_all _ o1) as [copied o2]. destruct (copy_capabilities cs o2) as [caps_copied o3].
  destruct (negb (copied && caps_copied)).
  { exists r1. split; [done|]. split; [by left|]. intros Hr. by apply Hwf. }
  eexists. split; [done|]. rewrite En, Ed. cbn [default from_option]. unfold id.
  split.
  { right. split; [done|]. exists name, desc, cs, rv. cbn. by rewrite Ee. }
  intros Hr. destruct (Hwf Hr) as [[Hent Hnames Hcap] Hroom]. split; cbn; rewrite Ee in *.
  - apply Forall_app. split; [done|]. constructor; [|constructor]. by apply new_entry_wf.
  - rewrite fmap_app. apply NoDup_app. split; [done|]. split; [|by apply NoDup_singleton].
    intros x Hx ->%list_elem_of_singleton. done.
  - rewrite length_app, Nat.add_1_r. specialize (Hroom eq_refl). lia.
Qed.

(** ** Changes of one entry *)

Lemma alter_names (l : list entry) i f :
  (forall e, l !! i = Some e -> e_name (f e) = e_name e) -> e_name <$> alter f i l = e_name <$> l.
Proof.
  revert i. induction l as [|e l IH]; intros [|i] Hf; cbn; try done.
  - f_equal. by apply Hf.
  - f_equal. by apply IH.
Qed.

Lemma update_entry_wf (r : registry) i f e :
  registry_wf r -> entries r !! i = Some e -> e_name (f e) = e_name e ->
  (entry_wf e -> entry_wf (f e)) -> registry_wf (update_entry i f r).
Proof.
  intros [Hent Hnames Hcap] Hi Hn Hf. split; cbn.
  - apply Forall_forall. intros x (j & Hj)%list_elem_of_lookup.
    destruct (decide (i = j)) as [<-|Hne].
    + rewrite list_lookup_alter_eq, Hi in Hj. simplify_eq/=.
      apply Hf. by eapply Forall_lookup_1.
    + rewrite list_lookup_alter_ne in Hj by done. by eapply Forall_lookup_1.
  - rewrite alter_names; [done|]. intros e' Hi'. rewrite Hi in Hi'. by injection Hi' as <-.
  - by rewrite length_alter.
Qed.

Lemma bind_fields q p : bind_projection q = Some p ->
  np_function p = np_function q /\ np_abi p = np_abi q /\
  cmeta_callable_bind (np_callable q) = Some (np_callable p).
Proof.
  unfold turbo_tool_native_projection_bind. destruct (_ || _); [done|].
  destruct (cmeta_callable_bind (np_callable q)) as [b|]; [|done].
  destruct (cmeta_fn_signature b) as [[[bv rt] ps]|]; [|done].
  destruct (_ && _); [|done]. by intros [= <-].
Qed.

Lemma publish_spec (r : registry) name p :
  let (status, out) := publish (Some r) name p in
  exists r', out = Some r' /\ (registry_wf r -> registry_wf r') /\
  (status <> TURBO_TOOL_OK /\ r' = r \/
   status = TURBO_TOOL_OK /\ exists q i e bound, p = Some q /\
     turbo_tool_registry_find (Some r) name = Some i /\ entries r !! i = Some e /\
     bind_projection q = Some bound /\ r' = update_entry i (set_native bound) r).
Proof.
  unfold turbo_tool_registry_publish_native_projection.
  assert (Hsame : forall status, status <> TURBO_TOOL_OK -> exists r', Some r = Some r' /\
    (registry_wf r -> registry_wf r') /\
    (status <> TURBO_TOOL_OK /\ r' = r \/ status = TURBO_TOOL_OK /\ exists q i e bound, p = Some q /\
      turbo_tool_registry_find (Some r) name = Some i /\ entries r !! i = Some e /\
      bind_projection q = Some bound /\ r' = update_entry i (set_native bound) r))
    by (intros status Hne; exists r; split; [done|]; split; [done|by left]).
  destruct p as [p|]; [|by apply Hsame].
  destruct (negb _); [by apply Hsame|].
  destruct (turbo_tool_registry_find (Some r) name) as [i|] eqn:Ef; [|by apply Hsame].
  destruct (entries r !! i) as [e|] eqn:Ei; [|by apply Hsame].
  destruct (e_native_projection e) eqn:En; [by apply Hsame|].
  destruct (bind_projection p) as [bound|] eqn:Eb; [|by apply Hsame].
  destruct ((e_effect_flags e =? _) && _) eqn:Epure; [by apply Hsame|].
  eexists. split; [done|]. split.
  - intros Hwf. eapply update_entry_wf; [done|exact Ei|done|]. intros []. split; try done. cbn.
    split; [by exists p|]. intros Hp. rewrite Hp in Epure. cbn in Epure.
    by apply negb_false_iff in Epure.
  - right. split; [done|]. by exists p, i, e, bound.
Qed.

Lemma require_capability_spec (r : registry) name c o :
  let '(status, out, o') := turbo_tool_registry_require_capability (Some r) name c o in
  exists r', out = Some r' /\ (registry_wf r -> registry_wf r') /\
  (status <> TURBO_TOOL_OK -> r' = r).
Proof.
  unfold turbo_tool_registry_require_capability.
  destruct name as [name|]; [|by exists r]. destruct c as [[|a s]|]; try by exists r.
  destruct (turbo_tool_registry_find (Some r) (Some name)) as [i|]; [|by exists r].
  destruct (entries r !! i) as [e|] eqn:Ei; [|by exists r].
  case_bool_decide as Hin; [by exists r|].
  destruct (alloc o) as [[] o1]; cbn [negb]; [|by exists r].
  destruct (alloc o1) as [[] o2]; cbn [negb]; [|by exists r].
  eexists. split; [done|]. split; [|done]. intros Hwf.
  eapply update_entry_wf; [done|exact Ei|done|]. intros []. split; try done. cbn.
  destruct wf_capabilities0 as [Hnd Hne]. split.
  - apply NoDup_app. split; [done|]. split; [|by apply NoDup_singleton].
    intros x Hx ->%list_elem_of_singleton. done.
  - apply Forall_app. by split; [|constructor].
Qed.

Lemma json_clone_type (j : J) : json_type (json_clone j) = json_type j.
Proof. apply json_type_proper, json_clone_equiv. Qed.

Lemma set_metadata_spec (r : registry) name m o :
  let '(status, out, o') := turbo_tool_registry_set_execution_metadata (Some r) name m o in
  exists r', out = Some r' /\ (registry_wf r -> registry_wf r') /\
  (status <> TURBO_TOOL_OK /\ r' = r \/
   status = TURBO_TOOL_OK /\ exists i, turbo_tool_registry_find (Some r) name = Some i /\
     r' = update_entry i (set_metadata ((fun m => json_clone (json_clone m)) <$> m)) r).
Proof.
  unfold turbo_tool_registry_set_execution_metadata.
  destruct (negb (nonempty_text name) || _) eqn:Ev;
    [exists r; split; [done|]; split; [done|by left]|].
  destruct (turbo_tool_registry_find (Some r) name) as [i|] eqn:Ef;
    [|exists r; split; [done|]; split; [done|by left]].
  assert (Hwf : forall f, (forall e, e_name (f e) = e_name e) -> (forall e, entry_wf e -> entry_wf (f e)) ->
    registry_wf r -> registry_wf (update_entry i f r)).
  { intros f Hn Hf Hr. destruct name as [name|]; [|done].
    destruct (find_inside r name i Ef) as [e Ei]. apply (update_entry_wf r i f e); auto. }
  destruct m as [m|].
  - destruct (alloc_all 2 o) as [[] o'];
      [|exists r; split; [done|]; split; [done|by left]].
    eexists. split; [done|]. split; [|right; split; [done|by exists i]].
    apply Hwf; [done|]. intros e []. split; try done. cbn. rewrite !json_clone_type.
    apply orb_false_iff in Ev as [_ Ev]. apply negb_false_iff in Ev. by apply bool_decide_eq_true in Ev.
  - eexists. split; [done|]. split; [|right; split; [done|by exists i]].
    apply Hwf; [done|]. intros e []. by split.
Qed.

Lemma remove_spec (r : registry) name (w : W) :
  let '(status, out, w') := turbo_tool_registry_remove (Some r) name w in
  exists r', out = Some r' /\ (registry_wf r -> registry_wf r') /\
  (status <> TURBO_TOOL_OK /\ r' = r /\ w' = w \/
   status = TURBO_TOOL_OK /\ exists i e, entries r !! i = Some e /\ name = Some (e_name e) /\
     w' = turbo_tool_registry_free_entry e w /\
     entries r' = take i (entries r) ++ drop (S i) (entries r)).
Proof.
  unfold turbo_tool_registry_remove.
  destruct name as [name|]; [|exists r; split; [done|]; split; [done|by left]].
  destruct (find_exact 0 (entries r) name) as [i|] eqn:E;
    [|exists r; split; [done|]; split; [done|by left]].
  apply find_exact_some in E as (j & e & -> & Hj & <-). cbn [Nat.add]. rewrite Hj.
  eexists. split; [done|]. split; [|right; split; [done|by exists j, e]].
  intros [Hent Hnames Hcap]. rewrite <- (take_drop_middle _ _ _ Hj) in Hent, Hnames, Hcap.
  split; cbn.
  - apply Forall_app in Hent as [? Ht]. apply Forall_cons in Ht as [_ ?]. by apply Forall_app.
  - rewrite fmap_app in Hnames |- *. cbn in Hnames.
    apply NoDup_app in Hnames as (Ha & Hd & Hb). apply NoDup_cons in Hb as [_ Hb].
    apply NoDup_app. split; [done|]. split; [|done]. intros x Hx Hx'. apply (Hd x Hx).
    apply elem_of_cons. by right.
  - rewrite length_app in Hcap |- *. cbn [length] in Hcap. lia.
Qed.

(** ** Operations of a registry *)

Inductive registry_op : Type :=
| OpAdd (d : option (turbo_tool_definition J W))
| OpAdd2 (d : option (turbo_tool_definition_v2 J W))
| OpAdd3 (d : option (turbo_tool_definition_v3 J W))
| OpAdd4 (d : option (turbo_tool_definition_v4 J W))
| OpAdd5 (d : option (turbo_tool_definition_v5 J W))
| OpAdd6 (d : option (turbo_tool_definition_v6 J W))
| OpRemove (name : option string)
| OpPublish (name : option string) (p : option turbo_tool_native_projection)
| OpRequire (name capability : option string)
| OpMetadata (name : option string) (m : option J).

Definition registry_exec (op : registry_op) (r : option registry) (o : oracle) (w : W)
  : turbo_tool_status * option registry * W :=
  let add (c : change) : turbo_tool_status * option registry * W := (c.1.1, c.1.2, w) in
  match op with
  | OpAdd d => add (turbo_tool_registry_add r d o)
  | OpAdd2 d => add (turbo_tool_registry_add_v2 r d o)
  | OpAdd3 d => add (turbo_tool_registry_add_v3 r d o)
  | OpAdd4 d => add (turbo_tool_registry_add_v4 r d o)
  | OpAdd5 d => add (turbo_tool_registry_add_v5 r d o)
  | OpAdd6 d => add (turbo_tool_registry_add_v6 r d o)
  | OpRemove name => turbo_tool_registry_remove r name w
  | OpPublish name p => let (s, r) := publish r name p in (s, r, w)
  | OpRequire name c => add (turbo_tool_registry_require_capability r name c o)
  | OpMetadata name m => add (turbo_tool_registry_set_execution_metadata r name m o)
  end.

(** One operation: well-formedness is kept, and a failure changes no entry. *)
Definition sound_step (r : registry) (w : W) (res : turbo_tool_status * option registry * W) : Prop :=
  exists r', res.1.2 = Some r' /\ (registry_wf r -> registry_wf r') /\
    (res.1.1 <> TURBO_TOOL_OK -> entries r' = entries r /\ res.2 = w).

Lemma sound_step_same (r : registry) w status :
  sound_step r w (status, Some r, w).
Proof. exists r. by split. Qed.

Lemma add_sound (r : registry) w d policy caps ch jch rs strict flags o :
  let c := turbo_tool_registry_add_with_policy (Some r) d policy caps ch jch rs strict flags o in
  sound_step r w (c.1.1, c.1.2, w).
Proof.
  destruct d as [d|]; [|apply sound_step_same].
  pose proof (add_with_policy_spec r d policy caps ch jch rs strict flags o) as Hspec.
  destruct (turbo_tool_registry_add_with_policy (Some r) _ _ _ _ _ _ _ _ _) as [[status out] o'].
  destruct Hspec as (r' & -> & Hout & Hwf). exists r'. split; [done|]. split; [done|].
  cbn. intros Hne. destruct Hout as [[_ Hsame]|[-> _]]; [by split|done].
Qed.

Lemma registry_exec_sound op (r : registry) o w : sound_step r w (registry_exec op (Some r) o w).
Proof.
  destruct op as [d|d|d|d|d|d|name|name p|name c|name m]; cbn [registry_exec].
  - apply add_sound.
  - destruct d as [d|]; [|apply sound_step_same]. unfold turbo_tool_registry_add_v2.
    destruct (_ || _); [apply sound_step_same|apply add_sound].
  - destruct d as [d|]; [|apply sound_step_same]. unfold turbo_tool_registry_add_v3.
    destruct (_ || _); [apply sound_step_same|apply add_sound].
  - destruct d as [d|]; [|apply sound_step_same]. unfold turbo_tool_registry_add_v4.
    destruct (_ || _); [apply sound_step_same|apply add_sound].
  - destruct d as [d|]; [|apply sound_step_same]. unfold turbo_tool_registry_add_v5.
    destruct (_ || _); [apply sound_step_same|apply add_sound].
  - destruct d as [d|]; [|apply sound_step_same]. unfold turbo_tool_registry_add_v6.
    destruct (_ || _); [apply sound_step_same|apply add_sound].
  - pose proof (remove_spec r name w) as Hspec.
    destruct (turbo_tool_registry_remove (Some r) name w) as [[status out] w'].
    destruct Hspec as (r' & -> & Hwf & Hout). exists r'. split; [done|]. split; [done|].
    cbn. intros Hne. destruct Hout as [(_ & -> & ->)|[-> _]]; done.
  - pose proof (publish_spec r name p) as Hspec. destruct (publish (Some r) name p) as [status out].
    destruct Hspec as (r' & -> & Hwf & Hout). exists r'. split; [done|]. split; [done|].
    cbn. intros Hne. destruct Hout as [[_ ->]|[-> _]]; done.
  - pose proof (require_capability_spec r name c o) as Hspec.
    destruct (turbo_tool_registry_require_capability (Some r) name c o) as [[status out] o'].
    destruct Hspec as (r' & -> & Hwf & Hout). exists r'. split; [done|]. split; [done|].
    cbn. intros Hne. by rewrite (Hout Hne).
  - pose proof (set_metadata_spec r name m o) as Hspec.
    destruct (turbo_tool_registry_set_execution_metadata (Some r) name m o) as [[status out] o'].
    destruct Hspec as (r' & -> & Hwf & Hout). exists r'. split; [done|]. split; [done|].
    cbn. intros Hne. destruct Hout as [[_ ->]|[-> _]]; done.
Qed.

(** Registries a client can build, by any operations with any arguments, any of
    which may run out of memory. *)
Inductive built_registry : registry -> Prop :=
| built_created : built_registry (mk_registry [] 0)
| built_step op r o w status r' w' :
    built_registry r -> registry_exec op (Some r) o w = (status, Some r', w') -> built_registry r'.

Lemma built_registry_wf r : built_registry r -> registry_wf r.
Proof.
  induction 1 as [|op r o w status r' w' _ IH E].
  - split; cbn; [constructor|constructor|]. unfold INT64_MAX. lia.
  - destruct (registry_exec_sound op r o w) as (r2 & E2 & Hwf & _). rewrite E in E2.
    injection E2 as <-. by apply Hwf.
Qed.

(** C33. Whatever operations built a registry, its names are distinct, the count fits
    the capacity, and each entry is well formed: a valid policy, a handler,
    distinct non-empty capabilities, normalized effect flags with PURE and
    UNKNOWN alone, a result contract that parses, a native projection that was
    bound and is pure when the tool is; and a further operation that fails
    changes no entry and calls no release. *)
Theorem registry_invariant (r : registry) (op : registry_op) (o : oracle) (w : W) :
  built_registry r ->
  registry_wf r /\
  exists status r' w', registry_exec op (Some r) o w = (status, Some r', w') /\
    built_registry r' /\ (status <> TURBO_TOOL_OK -> entries r' = entries r /\ w' = w).
Proof.
  intros Hb. split; [by apply built_registry_wf|].
  destruct (registry_exec_sound op r o w) as (r' & E & _ & Hfail).
  destruct (registry_exec op (Some r) o w) as [[status out] w'] eqn:Eexec. cbn in E. subst out.
  exists status, r', w'. split; [done|]. split; [by eapply built_step|exact Hfail].
Qed.

(** ** Projections and composites *)

(** A borrowed entry offers the contract of its source: everything a caller can
    read, up to equality of JSON documents; its native projection is bound again
    from the source's; only the release of the user data stays behind. *)
Record same_contract (e e' : entry) : Prop := {
  sc_name : e_name e' = e_name e;
  sc_description : e_description e' = e_description e;
  sc_parameters : e_parameters_json e' = e_parameters_json e;
  sc_schema : option_Forall2 json_equiv (e_parameters_schema e') (e_parameters_schema e);
  sc_strict : e_strict e' = e_strict e;
  sc_handlers : e_handler e' = e_handler e /\ e_json_value_handler e' = e_json_value_handler e /\
    e_context_handler e' = e_context_handler e /\
    e_json_value_context_handler e' = e_json_value_context_handler e;
  sc_policy : e_execution_policy e' = e_execution_policy e;
  sc_capabilities : e_required_capabilities e' = e_required_capabilities e;
  sc_result : e_result_schema_json e' = e_result_schema_json e /\
    e_result_schema e' = e_result_schema e /\ e_strict_result e' = e_strict_result e;
  sc_effects : e_effect_flags e' = e_effect_flags e;
  sc_native : option_Forall2 (fun p' p => bind_projection p = Some p')
                (e_native_projection e') (e_native_projection e);
  sc_metadata : option_Forall2 json_equiv (e_execution_metadata e') (e_execution_metadata e);
  sc_borrowed : e_user_data_free e' = None
}.

Lemma find_last (r : registry) l x : registry_wf r -> entries r = l ++ [x] ->
  turbo_tool_registry_find (Some r) (Some (e_name x)) = Some (length l).
Proof.
  intros Hwf El. unfold turbo_tool_registry_find.
  by rewrite (find_exact_unique (entries r) (e_name x) (length l) x);
    [|apply Hwf|rewrite El, list_lookup_middle|].
Qed.

Lemma alter_last {A} (f : A -> A) l x : alter f (length l) (l ++ [x]) = l ++ [f x].
Proof. induction l as [|y l IH]; cbn; [done|]. by f_equal. Qed.

Lemma update_last (r : registry) l x f i : registry_wf r -> entries r = l ++ [x] ->
  turbo_tool_registry_find (Some r) (Some (e_name x)) = Some i ->
  entries (update_entry i f r) = l ++ [f x].
Proof.
  intros Hwf El Hi. rewrite (find_last r l x Hwf El) in Hi. injection Hi as <-. cbn.
  rewrite El. apply alter_last.
Qed.

Lemma clone_twice (j : J) : json_equiv (json_clone (json_clone j)) j.
Proof. etransitivity; apply json_clone_equiv. Qed.

Lemma clone_option (j : option J) :
  option_Forall2 json_equiv ((fun s => json_clone (json_clone s)) <$> j) j.
Proof. destruct j; constructor. apply clone_twice. Qed.

Lemma omap_some (l : list string) : omap id (Some <$> l) = l.
Proof. induction l as [|x l IH]; [done|]. cbn. f_equal. exact IH. Qed.

(** What registering a borrowed entry may do to its target. *)
Definition borrows (r : registry) (e : entry) (c : change (J := J) (W := W)) : Prop :=
  exists r', c.1.2 = Some r' /\ registry_wf r' /\
    (c.1.1 = TURBO_TOOL_OK -> exists e', entries r' = entries r ++ [e'] /\ same_contract e e').

(** A source without its metadata and native projection, which are attached after
    the entry is added. *)
Definition bare (e : entry) : entry :=
  mk_entry (e_name e) (e_description e) (e_parameters_json e) (e_parameters_json_serialized e)
    (e_parameters_schema e) (e_strict e) (e_handler e) (e_json_value_handler e)
    (e_context_handler e) (e_json_value_context_handler e) (e_user_data_free e)
    (e_execution_policy e) (e_required_capabilities e) (e_result_schema_json e)
    (e_result_schema e) (e_strict_result e) (e_effect_flags e) None None.

Lemma add_borrowed (r : registry) (e : entry) o : registry_wf r -> entry_wf e ->
  let '(status, out, o') := turbo_tool_registry_add_v6 (Some r) (Some (borrowed_definition e)) o in
  exists r', out = Some r' /\ registry_wf r' /\
    (status = TURBO_TOOL_OK -> exists e1, entries r' = entries r ++ [e1] /\ same_contract (bare e) e1).
Proof.
  intros Hr He. unfold turbo_tool_registry_add_v6. set (d := borrowed_definition e).
  change ((d6_struct_size d <? sizeof_definition_v6) || negb (d6_abi_version d =? 6)) with false.
  cbv iota.
  pose proof (add_with_policy_spec r (d6_definition d) (d6_execution_policy d)
    (d6_required_capabilities d) (d6_context_handler d) (d6_json_value_context_handler d)
    (d6_result_schema_json d) (d6_strict_result d) (d6_effect_flags d) o) as Hspec.
  destruct (turbo_tool_registry_add_with_policy (Some r) _ _ _ _ _ _ _ _ _) as [[status out] o'].
  destruct Hspec as (r' & -> & Hout & Hwf). exists r'. split; [done|]. split; [by apply Hwf|].
  intros ->. destruct Hout as [[? _]|(_ & name & desc & cs & rv & En & Ed & Ec & _ & _ & Hp & _ & Ee)]; [done|].
  cbn in En, Ed, Ec, Hp, Ee. injection En as <-. injection Ed as <-. injection Ec as <-.
  rewrite (wf_result _ He) in Hp. injection Hp as <-.
  eexists. split; [exact Ee|]. split; cbn; try done.
  - apply clone_option.
  - by rewrite omap_some.
  - split; [done|]. split; [done|].
    destruct (e_result_schema_json e) eqn:Ers; [done|]. destruct (wf_strict _ He) as [->|[_ [? Hs]]]; [done|].
    by rewrite Ers in Hs.
  - unfold turbo_tool_effect_flags_normalize. destruct (wf_effects _ He) as [_ Hne].
    by apply Z.eqb_neq in Hne as ->.
  - constructor.
Qed.

Lemma register_borrowed_spec (r : registry) (e : entry) o : registry_wf r -> entry_wf e ->
  borrows r e (register_borrowed sizeof_native_projection (Some r) e o).
Proof.
  intros Hr He. unfold register_borrowed, borrows.
  pose proof (add_borrowed r e o Hr He) as Hadd.
  destruct (turbo_tool_registry_add_v6 (Some r) _ o) as [[status out] o1].
  destruct Hadd as (r1 & -> & Hr1 & Hok).
  destruct status; try (exists r1; split; [done|]; split; [done|]; intros [=]).
  destruct (Hok eq_refl) as (e1 & El & Hc). clear Hok.
  assert (Hname : e_name e1 = e_name e) by apply Hc.
  assert (Hmeta : exists status2 r2 o2,
    match e_execution_metadata e with
    | Some m => turbo_tool_registry_set_execution_metadata (Some r1) (Some (e_name e)) (Some m) o1
    | None => (TURBO_TOOL_OK, Some r1, o1)
    end = (status2, Some r2, o2) /\ registry_wf r2 /\
    (status2 = TURBO_TOOL_OK -> entries r2 = entries r ++
       [set_metadata ((fun m => json_clone (json_clone m)) <$> e_execution_metadata e) e1])).
  { destruct (e_execution_metadata e) as [m|] eqn:Em.
    - pose proof (set_metadata_spec r1 (Some (e_name e)) (Some m) o1) as Hspec.
      destruct (turbo_tool_registry_set_execution_metadata _ _ _ o1) as [[status2 out2] o2].
      destruct Hspec as (r2 & -> & Hwf & Hout). exists status2, r2, o2.
      split; [done|]. split; [by apply Hwf|]. intros ->.
      destruct Hout as [[? _]|(_ & i & Hi & ->)]; [done|].
      rewrite <- Hname in Hi. by rewrite (update_last r1 _ e1 _ i Hr1 El Hi).
    - exists TURBO_TOOL_OK, r1, o1. split; [done|]. split; [done|]. intros _. rewrite El.
      cbn. do 2 f_equal. pose proof (sc_metadata _ _ Hc) as Hm. cbn in Hm.
      destruct e1 as [? ? ? ? ? ? ? ? ? ? ? ? ? ? ? ? ? ? [m|]]; [by inversion Hm|done]. }
  destruct Hmeta as (status2 & r2 & o2 & -> & Hr2 & El2).
  destruct (bool_decide_reflect (status2 = TURBO_TOOL_OK)) as [->|Hne];
    [|exists r2; split; [done|]; split; [done|]; intros E; by destruct Hne].
  specialize (El2 eq_refl). set (e2 := set_metadata _ e1) in El2.
  assert (Hfinal : forall n, option_Forall2 (fun p' p => bind_projection p = Some p') n (e_native_projection e) ->
    same_contract e (match n with Some p => set_native p e2 | None => e2 end)).
  { intros n Hn. destruct Hc. destruct n as [p|]; inversion Hn as [? p0 Hp|]; subst;
      split; cbn in *; try done; try apply clone_option; rewrite <- ?H2, <- ?H3; try done; by constructor. }
  destruct (e_native_projection e) as [p|] eqn:Ep.
  - pose proof (publish_spec r2 (Some (e_name e)) (Some p)) as Hspec.
    destruct (publish (Some r2) _ _) as [status3 out3]. destruct Hspec as (r3 & -> & Hwf & Hout).
    exists r3. split; [done|]. split; [by apply Hwf|]. cbn. intros ->.
    destruct Hout as [[? _]|(_ & q & i & e0 & bound & [= <-] & Hi & _ & Hb & ->)]; [done|].
    exists (set_native bound e2). split; [|apply (Hfinal (Some bound)); by constructor].
    apply (update_last r2 _ e2); [done|done|]. by change (e_name e2) with (e_name e1); rewrite Hname.
  - exists r2. split; [done|]. split; [done|]. intros _. exists e2. split; [done|].
    apply (Hfinal None). constructor.
Qed.

(** A builder either reports a failure and no registry, or a registry that adds
    these borrowed entries to its target. *)
Definition builds (r : registry) (chosen : list entry -> Prop)
    (b : built (J := J) (W := W)) : Prop :=
  match b.1.1 with
  | TURBO_TOOL_OK => exists r' sources new, b.1.2 = Some (Some r') /\ registry_wf r' /\
      chosen sources /\ entries r' = entries r ++ new /\ Forall2 same_contract sources new
  | _ => b.1.2 = Some None
  end.

(** The entries of the source that have exactly these names. *)
Definition named (source : registry) (names : list (option string)) (l : list entry) : Prop :=
  Forall2 (fun name e => name = Some (e_name e) /\ e ∈ entries source) names l.

Lemma project_loop_spec (source : registry) names : forall seen r o,
  registry_wf source -> registry_wf r ->
  builds r (named source names)
    (project_loop sizeof_native_projection source seen names (Some r) o).
Proof.
  induction names as [|name names IH]; intros seen r o Hsrc Hr; cbn [project_loop].
  { exists r, [], []. rewrite app_nil_r. repeat (split; [done || constructor|]). done. }
  destruct name as [[|a s]|]; try done. case_bool_decide; [done|].
  destruct (find_exact 0 (entries source) (String a s)) as [i|] eqn:Ef; [|done].
  cbn [mbind option_bind]. apply find_exact_some in Ef as (j & e & -> & Hj & Hn).
  cbn [Nat.add]. rewrite Hj.
  assert (He : entry_wf e) by exact (Forall_lookup_1 _ _ _ _ (wf_entries _ Hsrc) Hj).
  pose proof (register_borrowed_spec r e o Hr He) as Hreg.
  destruct (register_borrowed _ (Some r) e o) as [[status out] o1].
  destruct Hreg as (r1 & E1 & Hr1 & Hok). cbn in E1, Hok. subst out.
  destruct status; try done. destruct (Hok eq_refl) as (e' & El & Hc).
  specialize (IH (seen ++ [String a s]) r1 o1 Hsrc Hr1). unfold builds in *.
  destruct (project_loop _ source _ names (Some r1) o1) as [[status out] o2]. cbn in *.
  destruct status; try done. destruct IH as (r' & sources & new & -> & Hr' & Hnames & El' & Hall).
  exists r', (e :: sources), (e' :: new). split; [done|]. split; [done|]. split.
  - constructor; [|done]. rewrite Hn. split; [done|]. by eapply list_elem_of_lookup_2.
  - rewrite El', El, <- app_assoc. split; [done|by constructor].
Qed.

Lemma compose_entries_spec l : forall (r : registry) o,
  Forall entry_wf l -> registry_wf r ->
  let '(status, out, o') := compose_entries sizeof_native_projection l (Some r) o in
  exists r', out = Some r' /\ registry_wf r' /\
    (status = TURBO_TOOL_OK -> exists new, entries r' = entries r ++ new /\ Forall2 same_contract l new).
Proof.
  induction l as [|e l IH]; intros r o Hl Hr; cbn [compose_entries].
  { exists r. split; [done|]. split; [done|]. intros _. exists []. by rewrite app_nil_r. }
  apply Forall_cons in Hl as [He Hl].
  pose proof (register_borrowed_spec r e o Hr He) as Hreg.
  destruct (register_borrowed _ (Some r) e o) as [[status out] o1].
  destruct Hreg as (r1 & E1 & Hr1 & Hok). cbn in E1, Hok. subst out.
  destruct status; try (exists r1; split; [done|]; split; [done|]; intros [=]).
  destruct (Hok eq_refl) as (e' & El & Hc). specialize (IH r1 o1 Hl Hr1).
  destruct (compose_entries _ l (Some r1) o1) as [[status out] o2].
  destruct IH as (r' & -> & Hr' & Hall). exists r'. split; [done|]. split; [done|].
  intros Hs. destruct (Hall Hs) as (new & El' & Hnew). exists (e' :: new).
  rewrite El', El, <- app_assoc. split; [done|by constructor].
Qed.

Lemma compose_loop_spec sources : forall (r : registry) o,
  Forall (fun s => match s with Some s => registry_wf s | None => True end) sources ->
  registry_wf r ->
  builds r (fun l => exists ss, sources = Some <$> ss /\ l = mjoin (entries <$> ss))
    (compose_loop sizeof_native_projection sources (Some r) o).
Proof.
  induction sources as [|[s|] sources IH]; intros r o Hall Hr; cbn [compose_loop]; [|..|done].
  { exists r, [], []. rewrite app_nil_r. split; [done|]. split; [done|]. split; [by exists []|done]. }
  apply Forall_cons in Hall as [Hs Hall].
  pose proof (compose_entries_spec (entries s) r o (wf_entries _ Hs) Hr) as Hentries.
  destruct (compose_entries _ (entries s) (Some r) o) as [[status out] o1].
  destruct Hentries as (r1 & -> & Hr1 & Hok). destruct status; try done.
  destruct (Hok eq_refl) as (new1 & El1 & Hnew1). specialize (IH r1 o1 Hall Hr1). unfold builds in *.
  destruct (compose_loop _ sources (Some r1) o1) as [[status out] o2]. cbn in *.
  destruct status; try done.
  destruct IH as (r' & l & new & -> & Hr' & (ss & -> & ->) & El & Hnew).
  exists r', (entries s ++ mjoin (entries <$> ss)), (new1 ++ new). split; [done|]. split; [done|].
  split; [by exists (s :: ss)|]. rewrite El, El1, <- app_assoc. split; [done|by apply Forall2_app].
Qed.

Lemma borrowed_destroy l new (w : W) : Forall2 same_contract l new ->
  foldl (fun w e => turbo_tool_registry_free_entry e w) w new = w.
Proof.
  intros Hall. revert w. induction Hall as [|e e' l new Hc _ IH]; intros w; [done|]. cbn.
  unfold turbo_tool_registry_free_entry at 2. by rewrite (sc_borrowed _ _ Hc).
Qed.

(** Projection and composition are faithful and all-or-nothing.  When they
    answer OK, the new registry is well formed and holds, in order, the contract
    of each named entry (of every entry of every source); destroying it releases
    none of the sources' user data.  When they fail there is no registry. *)
Theorem projection_faithful (source : registry) (names : list (option string))
    (sources : list registry) (o : oracle) (w : W) :
  registry_wf source -> Forall registry_wf sources ->
  let outcome (chosen : list entry -> Prop) (b : built (J := J) (W := W)) :=
    (b.1.1 = TURBO_TOOL_OK -> exists r' l, b.1.2 = Some (Some r') /\ registry_wf r' /\
       chosen l /\ Forall2 same_contract l (entries r') /\
       turbo_tool_registry_destroy (Some r') w = w) /\
    (b.1.1 <> TURBO_TOOL_OK -> b.1.2 = Some None) in
  outcome (named source names)
    (turbo_tool_registry_project sizeof_native_projection (Some source) (Some names) true o) /\
  outcome (fun l => l = mjoin (entries <$> sources))
    (turbo_tool_registry_compose sizeof_native_projection (Some (Some <$> sources)) true o).
Proof.
  intros Hsrc Hsources outcome.
  assert (Hempty : registry_wf (mk_registry [] 0 : registry))
    by (split; cbn; [constructor|constructor|unfold INT64_MAX; lia]).
  assert (Hout : forall chosen chosen' b, (forall l, chosen l -> chosen' l) ->
    builds (mk_registry [] 0) chosen b -> outcome chosen' b).
  { intros chosen chosen' b Himp Hb. unfold builds in Hb. split; intros Hs.
    - rewrite Hs in Hb. destruct Hb as (r' & l & new & E & Hr' & Hl & El & Hall).
      cbn in El. subst new. exists r', l. repeat (split; [by auto|]).
      by eapply borrowed_destroy.
    - destruct (b.1.1); done. }
  unfold turbo_tool_registry_project, turbo_tool_registry_compose, turbo_tool_registry_create.
  cbn [negb]. destruct (alloc o) as [[] o1]; (split; [|]); try by (split; cbn; intros E; [done|]).
  - eapply Hout; [|by apply project_loop_spec]. done.
  - eapply Hout; [|apply compose_loop_spec; [|done]].
    + intros l (ss & Ess & ->). by apply (inj (fmap Some)) in Ess as ->.
    + apply Forall_fmap. eapply Forall_impl; [exact Hsources|]. done.
Qed.

(** ** Execution *)

(** Executing a tool: an output comes only with OK; when the name or an argument
    is refused no handler has run; and for a tool that has not both kinds of
    handler the entry points with and without a context agree (given no
    context), so the choice between them decides only which of two handlers is
    preferred. *)
Theorem execution_discipline (r : option registry) (name text : option string) (arg : option J)
    (context : option turbo_tool_execution_context) (present : bool) (w : W) :
  let te := turbo_tool_registry_execute r name text present w in
  let tc := turbo_tool_registry_execute_with_context r name text context present w in
  let je := turbo_tool_registry_execute_json_value r name arg present w in
  let jc := turbo_tool_registry_execute_json_value_with_context r name arg context present w in
  (te.1.1 <> TURBO_TOOL_OK -> te.1.2 = None) /\ (tc.1.1 <> TURBO_TOOL_OK -> tc.1.2 = None) /\
  (je.1.1 <> TURBO_TOOL_OK -> je.1.2 = None) /\ (jc.1.1 <> TURBO_TOOL_OK -> jc.1.2 = None) /\
  (found r name = None -> te.2 = w /\ tc.2 = w /\ je.2 = w /\ jc.2 = w) /\
  (context = None ->
     (forall e, found r name = Some e -> e_handler e = None \/ e_context_handler e = None) ->
     te = tc) /\
  (context = None ->
     (forall e, found r name = Some e ->
        e_json_value_handler e = None \/ e_json_value_context_handler e = None) ->
     je = jc).
Proof.
  assert (Hleg : forall A (x : Z * option A * W),
    (from_legacy x).1.1 <> TURBO_TOOL_OK -> (from_legacy x).1.2 = None).
  { intros A [[rc out] w']. unfold from_legacy. destruct (rc =? 0); [by intros Hn|done]. }
  assert (Hctx : forall A (x : turbo_tool_status * option A * W),
    (from_context x).1.1 <> TURBO_TOOL_OK -> (from_context x).1.2 = None).
  { intros A [[status out] w']. unfold from_context. case_bool_decide; [by intros Hn|done]. }
  cbv zeta. unfold turbo_tool_registry_execute, turbo_tool_registry_execute_with_context,
    turbo_tool_registry_execute_json_value, turbo_tool_registry_execute_json_value_with_context.
  destruct (bool_decide (is_Some r) && bool_decide (is_Some name) && present); cbn [negb andb];
    [|by repeat split].
  destruct (found r name) as [e|];
    [|destruct (turbo_tool_execution_context_valid context) eqn:Ev; split_and!; try done; by intros ->].
  split_and!; try (by intros [=]).
  - destruct (e_handler e); [apply Hleg|]. by destruct (e_context_handler e); [apply Hctx|].
  - destruct (turbo_tool_execution_context_valid context); cbn [negb]; [|done].
    destruct (e_context_handler e); [apply Hctx|]. by destruct (e_handler e); [apply Hleg|].
  - destruct (e_json_value_handler e); [apply Hleg|].
    by destruct (e_json_value_context_handler e); [apply Hctx|].
  - destruct (turbo_tool_execution_context_valid context); cbn [negb]; [|done].
    destruct (e_json_value_context_handler e); [apply Hctx|].
    by destruct (e_json_value_handler e); [apply Hleg|].
  - intros -> Hone. cbn [turbo_tool_execution_context_valid negb].
    destruct (Hone e eq_refl) as [E|E]; rewrite E; by repeat case_match.
  - intros -> Hone. cbn [turbo_tool_execution_context_valid negb].
    destruct (Hone e eq_refl) as [E|E]; rewrite E; by repeat case_match.
Qed.

End invariant.

(** ** Concrete runs

    Handlers append what they were called with to a log, the world. *)

Module ToolRegistryRuns.
Import JsonTree CmetaToy.

Definition world : Type := list string.
Abbreviation toy_registry := (turbo_tool_registry (J := jtree) (W := world)).

Definition echo : turbo_tool_handler_fn world :=
  fun arguments w => (0, Some arguments, w ++ [arguments]).

Definition tool (name : string) : turbo_tool_definition jtree world :=
  mk_definition (Some name) (Some "a tool") (Some "{}") None 0 (Some echo) None
    (Some (fun w => w ++ ["release"])).

Definition added (r : option toy_registry) (name : string) : option toy_registry :=
  (turbo_tool_registry_add r (Some (tool name)) []).1.2.

(** Two tools whose names have the same OpenAI-compatible form. *)
Definition none : toy_registry := mk_registry [] 0.
Definition one : toy_registry := default none (added (Some none) "a_b").
Definition two : toy_registry := default none (added (Some one) "a.b").

Lemma one_step :
  registry_exec 40 (OpAdd (Some (tool "a_b"))) (Some none) [] [] = (TURBO_TOOL_OK, Some one, []).
Proof. vm_compute. reflexivity. Qed.

Lemma two_step :
  registry_exec 40 (OpAdd (Some (tool "a.b"))) (Some one) [] [] = (TURBO_TOOL_OK, Some two, []).
Proof. vm_compute. reflexivity. Qed.

Lemma two_built : built_registry 40 two.
Proof.
  exact (built_step 40 _ _ _ _ _ _ _ (built_step 40 _ _ _ _ _ _ _ (built_created 40) one_step) two_step).
Qed.

(** Lookup of a compatible form prefers the exact name. *)
Example two_lookup :
  map (turbo_tool_registry_find (Some two)) [Some "a_b"; Some "a.b"; Some "a-b"] =
  [Some 0%nat; Some 1%nat; None].
Proof. vm_compute. reflexivity. Qed.

(** The same two names project in one order and not in the other: once [a.b] is
    there, [a_b] is taken for it. *)
Example projection_depends_on_order :
  let project names := (turbo_tool_registry_project 40 (Some two) (Some names) true []).1.1 in
  project [Some "a_b"; Some "a.b"] = TURBO_TOOL_OK /\
  project [Some "a.b"; Some "a_b"] = TURBO_TOOL_DUPLICATE.
Proof. vm_compute. split; reflexivity. Qed.

(** With a missing source the out parameter is not written. *)
Example projection_without_source :
  turbo_tool_registry_project (J := jtree) (W := world) 40 None (Some []) true [] =
  (TURBO_TOOL_INVALID_ARGUMENT, None, []).
Proof. reflexivity. Qed.

Lemma registry_find_spec_witness :
  NoDup (e_name <$> entries two) /\
  exists e, entries two !! 1%nat = Some e /\ e_name e = "a.b".
Proof.
  assert (Hnd : NoDup (e_name <$> entries two)) by exact (wf_names _ _ (built_registry_wf _ _ two_built)).
  split; [exact Hnd|].
  destruct (proj1 (registry_find_spec two "a.b" 1 Hnd)) as (e & He & [Hn|(Hno & _)]).
  - vm_compute. reflexivity.
  - exists e. exact (conj He Hn).
  - exfalso. apply Hno. apply list_elem_of_fmap. vm_compute. eexists. split; [|right; left]. reflexivity.
Defined.

Lemma registry_invariant_witness :
  built_registry 40 two /\ registry_wf 40 two /\
  exists r' w', registry_exec 40 (OpRemove (Some "a_b")) (Some two) [] [] = (TURBO_TOOL_OK, Some r', w') /\
    built_registry 40 r'.
Proof.
  split; [exact two_built|].
  destruct (registry_invariant 40 two (OpRemove (Some "a_b")) [] [] two_built)
    as (Hwf & status & r' & w' & Hexec & Hb & _).
  split; [exact Hwf|]. exists r', w'.
  assert (Hs : status = TURBO_TOOL_OK)
    by (replace status with (registry_exec 40 (OpRemove (Some "a_b")) (Some two) [] []).1.1
          by (rewrite Hexec; reflexivity); vm_compute; reflexivity).
  rewrite Hs in Hexec. exact (conj Hexec Hb).
Defined.

Lemma projection_faithful_witness :
  registry_wf 40 two /\
  exists r' l, named two [Some "a.b"] l /\ Forall2 (same_contract 40) l (entries r') /\
    turbo_tool_registry_destroy (Some r') ["kept"] = ["kept"].
Proof.
  pose proof (built_registry_wf 40 two two_built) as Hwf. split; [exact Hwf|].
  destruct (projection_faithful 40 two [Some "a.b"] [] [] ["kept"] Hwf (Forall_nil_2 _))
    as [[Hok _] _].
  destruct Hok as (r' & l & _ & _ & Hl & Hall & Hd); [vm_compute; reflexivity|].
  exists r', l. exact (conj Hl (conj Hall Hd)).
Defined.

End ToolRegistryRuns.
