(* ===== verification/ToolRuntime.v ===== *)
(** * Tool runtimes (src/runtime_tools/src/turbo_tool_runtime.c)

    A runtime is a catalog of tools behind a table of callbacks, in four versions,
    with a reference count; the native runtime keeps its tools in a registry.  A
    registry is bridged to a runtime by entries that hold a reference each and
    forward their calls.

    The world of a bridged registry is [runtime_world]: the one runtime its
    entries share, [None] once it was freed, and the environment [E] its callbacks
    act on.  Callbacks read the implementation, or change it and the environment;
    a catalog callback answers a status and what it wrote, if anything. *)

From S2P Require Import Prelude RuntimeJson Tool ToolRegistry.

#[local] Open Scope string_scope.
#[local] Open Scope Z_scope.

(* src/runtime_tools/include/turbo_tool_runtime.h 25-25 TURBO_TOOL_RUNTIME_TOOL_V2_ABI_VERSION *)
Definition TURBO_TOOL_RUNTIME_TOOL_V2_ABI_VERSION : Z := 2.
(* src/runtime_tools/include/turbo_tool_runtime.h 39-39 TURBO_TOOL_RUNTIME_TOOL_V3_ABI_VERSION *)
Definition TURBO_TOOL_RUNTIME_TOOL_V3_ABI_VERSION : Z := 3.
(* src/runtime_tools/include/turbo_tool_runtime.h 61-61 TURBO_TOOL_RUNTIME_VTABLE_V2_ABI_VERSION *)
Definition TURBO_TOOL_RUNTIME_VTABLE_V2_ABI_VERSION : Z := 2.
(* src/runtime_tools/include/turbo_tool_runtime.h 81-81 TURBO_TOOL_RUNTIME_VTABLE_V3_ABI_VERSION *)
Definition TURBO_TOOL_RUNTIME_VTABLE_V3_ABI_VERSION : Z := 3.
(* src/runtime_tools/include/turbo_tool_runtime.h 94-94 TURBO_TOOL_RUNTIME_VTABLE_V4_ABI_VERSION *)
Definition TURBO_TOOL_RUNTIME_VTABLE_V4_ABI_VERSION : Z := 4.

(** Sizes on a 64-bit platform. *)
Definition sizeof_runtime_tool_v2 : Z := 72.
Definition sizeof_runtime_tool_v3 : Z := 96.
Definition sizeof_vtable_v2 : Z := 72.
Definition sizeof_vtable_v3 : Z := 96.
Definition sizeof_vtable_v4 : Z := 120.

(* src/runtime_tools/src/turbo_tool_runtime.c 9-22 turbo_tool_runtime_effect_flags_valid *)
Definition turbo_tool_runtime_effect_flags_valid (flags : Z) : bool :=
  if negb (Z.land flags (Z.lxor UINT64_MAX TURBO_TOOL_EFFECT_KNOWN_MASK) =? 0) then false
  else if flags =? 0 then true
  else if negb (Z.land flags TURBO_TOOL_EFFECT_UNKNOWN =? 0)
          && negb (flags =? TURBO_TOOL_EFFECT_UNKNOWN) then false
  else if negb (Z.land flags TURBO_TOOL_EFFECT_PURE =? 0)
          && negb (flags =? TURBO_TOOL_EFFECT_PURE) then false
  else true.

(** NULL is refused. *)
(* src/runtime_tools/src/turbo_tool_runtime.c 532-539 turbo_tool_runtime_execution_policy_valid *)
Definition turbo_tool_runtime_execution_policy_valid (policy : option turbo_tool_execution_policy)
  : bool :=
  match policy with
  | Some p =>
      if (ep_mode p <? TURBO_TOOL_EXECUTION_SEQUENTIAL) || (TURBO_TOOL_EXECUTION_EXCLUSIVE <? ep_mode p)
      then false
      else (TURBO_TOOL_IDEMPOTENCY_NONE <=? ep_idempotency p)
           && (ep_idempotency p <=? TURBO_TOOL_IDEMPOTENCY_READ_ONLY)
  | None => false
  end.

Section runtime.
Context {J E I : Type} `{JsonApi J, Cmeta} (sizeof_native_projection : Z).
Abbreviation status := turbo_tool_status.

(** ** Catalog views *)

(* src/runtime_tools/include/turbo_tool_runtime.h 17-23 turbo_tool_runtime_tool_t *)
Record turbo_tool_runtime_tool := mk_tool {
  t_name : option string;
  t_description : option string;
  t_parameters_json : option string;
  t_parameters_schema : option J;
  t_strict : Z
}.

(* src/runtime_tools/include/turbo_tool_runtime.h 31-37 turbo_tool_runtime_tool_v2_t *)
Record turbo_tool_runtime_tool_v2 := mk_tool_v2 {
  t2_struct_size : Z;
  t2_abi_version : Z;
  t2_base : turbo_tool_runtime_tool;
  t2_result_schema_json : option string;
  t2_strict_result : Z
}.

(* src/runtime_tools/include/turbo_tool_runtime.h 42-47 turbo_tool_runtime_tool_v3_t *)
Record turbo_tool_runtime_tool_v3 := mk_tool_v3 {
  t3_struct_size : Z;
  t3_abi_version : Z;
  t3_base : turbo_tool_runtime_tool_v2;
  t3_effect_flags : Z
}.

Definition zero_tool : turbo_tool_runtime_tool := mk_tool None None None None 0.
Definition zero_tool_v2 : turbo_tool_runtime_tool_v2 := mk_tool_v2 0 0 zero_tool None 0.
Definition zero_tool_v3 : turbo_tool_runtime_tool_v3 := mk_tool_v3 0 0 zero_tool_v2 0.

(** ** Implementations and tables

    A callback of a table may be missing; the create functions refuse such tables,
    so that the answer given below for a missing callback is never used. *)

(** NULL, a caller's implementation, or the native one: its registry. *)
(* src/runtime_tools/src/turbo_tool_runtime.c 55-57 turbo_tool_runtime_native_impl_t *)
Inductive implementation :=
| NullImpl
| CallerImpl (i : I)
| NativeImpl (r : turbo_tool_registry (J := J) (W := E)).

Definition invoked (A : Type) : Type := status * option A * (implementation * E).

(* src/runtime_tools/include/turbo_tool_runtime.h 49-59 turbo_tool_runtime_vtable_t *)
Record turbo_tool_runtime_vtable := mk_vtable {
  vt_destroy : option (implementation -> E -> E);
  vt_tool_count : option (implementation -> Z);
  vt_get_tool : option (implementation -> Z -> status * option turbo_tool_runtime_tool);
  vt_invoke : option (string -> string -> implementation * E -> invoked string);
  vt_invoke_json_value : option (string -> option J -> implementation * E -> invoked J)
}.

(* src/runtime_tools/include/turbo_tool_runtime.h 69-79 turbo_tool_runtime_vtable_v2_t *)
Record turbo_tool_runtime_vtable_v2 := mk_vtable_v2 {
  vt2_struct_size : Z;
  vt2_abi_version : Z;
  vt2_base : turbo_tool_runtime_vtable;
  vt2_invoke_with_context : option
    (string -> string -> option turbo_tool_execution_context -> implementation * E -> invoked string);
  vt2_invoke_json_value_with_context : option
    (string -> option J -> option turbo_tool_execution_context -> implementation * E -> invoked J)
}.

(* src/runtime_tools/include/turbo_tool_runtime.h 86-92 turbo_tool_runtime_vtable_v3_t *)
Record turbo_tool_runtime_vtable_v3 := mk_vtable_v3 {
  vt3_struct_size : Z;
  vt3_abi_version : Z;
  vt3_base : turbo_tool_runtime_vtable_v2;
  vt3_get_tool_v2 : option (implementation -> Z -> status * option turbo_tool_runtime_tool_v2)
}.

(* src/runtime_tools/include/turbo_tool_runtime.h 97-103 turbo_tool_runtime_vtable_v4_t *)
Record turbo_tool_runtime_vtable_v4 := mk_vtable_v4 {
  vt4_struct_size : Z;
  vt4_abi_version : Z;
  vt4_base : turbo_tool_runtime_vtable_v3;
  vt4_get_tool_v3 : option (implementation -> Z -> status * option turbo_tool_runtime_tool_v3)
}.

(** A pointer to a table of version 4: the static native one, or a caller's. *)
Inductive vtable_v4_pointer :=
| NativeVtable
| CallerVtable (v : turbo_tool_runtime_vtable_v4).

(* src/runtime_tools/src/turbo_tool_runtime.c 41-48 turbo_tool_runtime_s *)
Record turbo_tool_runtime := mk_runtime {
  ref_count : Z;
  rt_vtable : turbo_tool_runtime_vtable;
  rt_vtable_v2 : option turbo_tool_runtime_vtable_v2;
  rt_vtable_v3 : option turbo_tool_runtime_vtable_v3;
  rt_vtable_v4 : option vtable_v4_pointer;
  rt_impl : implementation
}.

Record runtime_world := mk_world { rw_runtime : option turbo_tool_runtime; rw_env : E }.

(** ** The native callbacks *)

(* src/runtime_tools/src/turbo_tool_runtime.c 120-129 turbo_tool_runtime_native_destroy_impl *)
Definition turbo_tool_runtime_native_destroy_impl (impl : implementation) (e : E) : E :=
  match impl with NativeImpl r => turbo_tool_registry_destroy (Some r) e | _ => e end.

(* src/runtime_tools/src/turbo_tool_runtime.c 131-140 turbo_tool_runtime_native_tool_count *)
Definition turbo_tool_runtime_native_tool_count (impl : implementation) : Z :=
  match impl with NativeImpl r => turbo_tool_registry_count (Some r) | _ => 0 end.

Definition tool_of_definition (d : turbo_tool_definition J E) : turbo_tool_runtime_tool :=
  mk_tool (d_name d) (d_description d) (d_parameters_json d) (d_parameters_schema d) (d_strict d).

(* src/runtime_tools/src/turbo_tool_runtime.c 142-165 turbo_tool_runtime_native_get_tool *)
Definition turbo_tool_runtime_native_get_tool (impl : implementation) (index : Z)
  : status * option turbo_tool_runtime_tool :=
  match impl with
  | NativeImpl r =>
      match turbo_tool_registry_get_definition (Some r) index with
      | (TURBO_TOOL_OK, Some d) => (TURBO_TOOL_OK, Some (tool_of_definition d))
      | (s, _) => (s, None)
      end
  | _ => (TURBO_TOOL_INVALID_ARGUMENT, None)
  end.

(* src/runtime_tools/src/turbo_tool_runtime.c 167-198 turbo_tool_runtime_native_get_tool_v2 *)
Definition turbo_tool_runtime_native_get_tool_v2 (impl : implementation) (index : Z)
  : status * option turbo_tool_runtime_tool_v2 :=
  match impl with
  | NativeImpl r =>
      match turbo_tool_registry_get_definition (Some r) index with
      | (TURBO_TOOL_OK, Some d) =>
          match turbo_tool_registry_get_result_contract (Some r) (d_name d) with
          | (TURBO_TOOL_OK, (result_schema_json, _, strict_result)) =>
              (TURBO_TOOL_OK,
               Some (mk_tool_v2 sizeof_runtime_tool_v2 TURBO_TOOL_RUNTIME_TOOL_V2_ABI_VERSION
                       (tool_of_definition d) result_schema_json strict_result))
          | (s, _) => (s, None)
          end
      | (s, _) => (s, None)
      end
  | _ => (TURBO_TOOL_INVALID_ARGUMENT, None)
  end.

(** The header is written before the catalog is read. *)
(* src/runtime_tools/src/turbo_tool_runtime.c 200-219 turbo_tool_runtime_native_get_tool_v3 *)
Definition turbo_tool_runtime_native_get_tool_v3 (impl : implementation) (index : Z)
  : status * option turbo_tool_runtime_tool_v3 :=
  let tool base effects :=
    mk_tool_v3 sizeof_runtime_tool_v3 TURBO_TOOL_RUNTIME_TOOL_V3_ABI_VERSION base effects in
  match impl with
  | NativeImpl r =>
      match turbo_tool_runtime_native_get_tool_v2 impl index with
      | (TURBO_TOOL_OK, Some base) =>
          match turbo_tool_registry_get_effects (Some r) (t_name (t2_base base)) with
          | (TURBO_TOOL_OK, effects) => (TURBO_TOOL_OK, Some (tool base effects))
          | (s, _) => (s, Some (tool base 0))
          end
      | (s, base) => (s, Some (tool (default zero_tool_v2 base) 0))
      end
  | _ => (TURBO_TOOL_INVALID_ARGUMENT, None)
  end.

(** The native callbacks that run a tool: the registry stays, the environment may
    change. *)
Definition on_native {A} (run : turbo_tool_registry (J := J) (W := E) -> E -> executed (W := E) A)
    (state : implementation * E) : invoked A :=
  match state with
  | (NativeImpl r, e) => let '(s, out, e) := run r e in (s, out, (NativeImpl r, e))
  | _ => (TURBO_TOOL_INVALID_ARGUMENT, None, state)
  end.

(* src/runtime_tools/src/turbo_tool_runtime.c 221-232 turbo_tool_runtime_native_invoke *)
Definition turbo_tool_runtime_native_invoke (name arguments_json : string)
  : implementation * E -> invoked string :=
  on_native (fun r => turbo_tool_registry_execute (Some r) (Some name) (Some arguments_json) true).

(* src/runtime_tools/src/turbo_tool_runtime.c 234-244 turbo_tool_runtime_native_invoke_json_value *)
Definition turbo_tool_runtime_native_invoke_json_value (name : string) (arguments : option J)
  : implementation * E -> invoked J :=
  on_native (fun r => turbo_tool_registry_execute_json_value (Some r) (Some name) arguments true).

(* src/runtime_tools/src/turbo_tool_runtime.c 246-254 turbo_tool_runtime_native_invoke_with_context *)
Definition turbo_tool_runtime_native_invoke_with_context (name arguments_json : string)
    (context : option turbo_tool_execution_context) : implementation * E -> invoked string :=
  on_native (fun r => turbo_tool_registry_execute_with_context (Some r) (Some name)
                        (Some arguments_json) context true).

(* src/runtime_tools/src/turbo_tool_runtime.c 256-264 turbo_tool_runtime_native_invoke_json_value_with_context *)
Definition turbo_tool_runtime_native_invoke_json_value_with_context (name : string)
    (arguments : option J) (context : option turbo_tool_execution_context)
  : implementation * E -> invoked J :=
  on_native (fun r => turbo_tool_registry_execute_json_value_with_context (Some r) (Some name)
                        arguments context true).

(* src/runtime_tools/src/turbo_tool_runtime.c 266-279 turbo_tool_runtime_native_vtable *)
Definition turbo_tool_runtime_native_vtable : turbo_tool_runtime_vtable_v4 :=
  mk_vtable_v4 sizeof_vtable_v4 TURBO_TOOL_RUNTIME_VTABLE_V4_ABI_VERSION
    (mk_vtable_v3 sizeof_vtable_v3 TURBO_TOOL_RUNTIME_VTABLE_V3_ABI_VERSION
       (mk_vtable_v2 sizeof_vtable_v2 TURBO_TOOL_RUNTIME_VTABLE_V2_ABI_VERSION
          (mk_vtable (Some turbo_tool_runtime_native_destroy_impl)
             (Some turbo_tool_runtime_native_tool_count) (Some turbo_tool_runtime_native_get_tool)
             (Some turbo_tool_runtime_native_invoke)
             (Some turbo_tool_runtime_native_invoke_json_value))
          (Some turbo_tool_runtime_native_invoke_with_context)
          (Some turbo_tool_runtime_native_invoke_json_value_with_context))
       (Some turbo_tool_runtime_native_get_tool_v2))
    (Some turbo_tool_runtime_native_get_tool_v3).

Definition vtable_v4 (p : vtable_v4_pointer) : turbo_tool_runtime_vtable_v4 :=
  match p with NativeVtable => turbo_tool_runtime_native_vtable | CallerVtable v => v end.

(** ** Creation *)

(* src/runtime_tools/src/turbo_tool_runtime.c 285-288 turbo_tool_runtime_create *)
Definition vtable_complete (v : turbo_tool_runtime_vtable) : bool :=
  bool_decide (is_Some (vt_destroy v)) && bool_decide (is_Some (vt_tool_count v))
  && bool_decide (is_Some (vt_get_tool v)) && bool_decide (is_Some (vt_invoke v))
  && bool_decide (is_Some (vt_invoke_json_value v)).

(* src/runtime_tools/src/turbo_tool_runtime.c 310-316 turbo_tool_runtime_create_v2 *)
Definition vtable_v2_complete (v : turbo_tool_runtime_vtable_v2) : bool :=
  (sizeof_vtable_v2 <=? vt2_struct_size v)
  && (vt2_abi_version v =? TURBO_TOOL_RUNTIME_VTABLE_V2_ABI_VERSION)
  && vtable_complete (vt2_base v) && bool_decide (is_Some (vt2_invoke_with_context v))
  && bool_decide (is_Some (vt2_invoke_json_value_with_context v)).

(* src/runtime_tools/src/turbo_tool_runtime.c 334-345 turbo_tool_runtime_create_v3 *)
Definition vtable_v3_complete (v : turbo_tool_runtime_vtable_v3) : bool :=
  (sizeof_vtable_v3 <=? vt3_struct_size v)
  && (vt3_abi_version v =? TURBO_TOOL_RUNTIME_VTABLE_V3_ABI_VERSION)
  && vtable_v2_complete (vt3_base v) && bool_decide (is_Some (vt3_get_tool_v2 v)).

(* src/runtime_tools/src/turbo_tool_runtime.c 363-376 turbo_tool_runtime_create_v4 *)
Definition vtable_v4_complete (v : turbo_tool_runtime_vtable_v4) : bool :=
  (sizeof_vtable_v4 <=? vt4_struct_size v)
  && (vt4_abi_version v =? TURBO_TOOL_RUNTIME_VTABLE_V4_ABI_VERSION)
  && vtable_v3_complete (vt4_base v) && bool_decide (is_Some (vt4_get_tool_v3 v)).

Definition run_destroy (v : turbo_tool_runtime_vtable) (impl : implementation) (e : E) : E :=
  default (fun _ e => e) (vt_destroy v) impl e.

(** The new runtime, and the environment: an implementation that is not NULL is
    destroyed when there is no memory. *)
(* src/runtime_tools/src/turbo_tool_runtime.c 290-304 turbo_tool_runtime_create *)
Definition new_runtime (v : turbo_tool_runtime_vtable) (v2 : option turbo_tool_runtime_vtable_v2)
    (v3 : option turbo_tool_runtime_vtable_v3) (v4 : option vtable_v4_pointer)
    (impl : implementation) (e : E) (o : oracle) : option turbo_tool_runtime * E * oracle :=
  let (allocated, o) := alloc o in
  if allocated then (Some (mk_runtime 1 v v2 v3 v4 impl), e, o)
  else (None, match impl with NullImpl => e | _ => run_destroy v impl e end, o).

(* src/runtime_tools/src/turbo_tool_runtime.c 281-305 turbo_tool_runtime_create *)
Definition turbo_tool_runtime_create (vtable : option turbo_tool_runtime_vtable)
    (impl : implementation) (e : E) (o : oracle) : option turbo_tool_runtime * E * oracle :=
  match vtable with
  | Some v => if vtable_complete v then new_runtime v None None None impl e o else (None, e, o)
  | None => (None, e, o)
  end.

(* src/runtime_tools/src/turbo_tool_runtime.c 307-329 turbo_tool_runtime_create_v2 *)
Definition turbo_tool_runtime_create_v2 (vtable : option turbo_tool_runtime_vtable_v2)
    (impl : implementation) (e : E) (o : oracle) : option turbo_tool_runtime * E * oracle :=
  match vtable with
  | Some v =>
      if vtable_v2_complete v then new_runtime (vt2_base v) (Some v) None None impl e o
      else (None, e, o)
  | None => (None, e, o)
  end.

(* src/runtime_tools/src/turbo_tool_runtime.c 331-358 turbo_tool_runtime_create_v3 *)
Definition turbo_tool_runtime_create_v3 (vtable : option turbo_tool_runtime_vtable_v3)
    (impl : implementation) (e : E) (o : oracle) : option turbo_tool_runtime * E * oracle :=
  match vtable with
  | Some v =>
      if vtable_v3_complete v
      then new_runtime (vt2_base (vt3_base v)) (Some (vt3_base v)) (Some v) None impl e o
      else (None, e, o)
  | None => (None, e, o)
  end.

(* src/runtime_tools/src/turbo_tool_runtime.c 360-389 turbo_tool_runtime_create_v4 *)
Definition turbo_tool_runtime_create_v4 (vtable : option vtable_v4_pointer)
    (impl : implementation) (e : E) (o : oracle) : option turbo_tool_runtime * E * oracle :=
  match vtable with
  | Some p =>
      let v := vtable_v4 p in
      if vtable_v4_complete v
      then new_runtime (vt2_base (vt3_base (vt4_base v))) (Some (vt3_base (vt4_base v)))
             (Some (vt4_base v)) (Some p) impl e o
      else (None, e, o)
  | None => (None, e, o)
  end.

(** ** References *)

Definition set_ref_count (n : Z) (rt : turbo_tool_runtime) : turbo_tool_runtime :=
  mk_runtime n (rt_vtable rt) (rt_vtable_v2 rt) (rt_vtable_v3 rt) (rt_vtable_v4 rt) (rt_impl rt).

Definition set_impl (impl : implementation) (rt : turbo_tool_runtime) : turbo_tool_runtime :=
  mk_runtime (ref_count rt) (rt_vtable rt) (rt_vtable_v2 rt) (rt_vtable_v3 rt) (rt_vtable_v4 rt) impl.

(* src/runtime_tools/src/turbo_tool_runtime.c 391-398 turbo_tool_runtime_retain *)
Definition turbo_tool_runtime_retain (w : runtime_world) : runtime_world :=
  match rw_runtime w with
  | Some rt => mk_world (Some (set_ref_count (u64 (ref_count rt + 1)) rt)) (rw_env w)
  | None => w
  end.

(* src/runtime_tools/src/turbo_tool_runtime.c 400-412 turbo_tool_runtime_destroy *)
Definition turbo_tool_runtime_destroy (w : runtime_world) : runtime_world :=
  match rw_runtime w with
  | Some rt =>
      if 1 <? ref_count rt then mk_world (Some (set_ref_count (ref_count rt - 1) rt)) (rw_env w)
      else mk_world None (run_destroy (rt_vtable rt) (rt_impl rt) (rw_env w))
  | None => w
  end.

(** ** The catalog *)

(* src/runtime_tools/src/turbo_tool_runtime.c 414-420 turbo_tool_runtime_count *)
Definition turbo_tool_runtime_count (runtime : option turbo_tool_runtime) : Z :=
  match runtime with
  | Some rt => default (fun _ => 0) (vt_tool_count (rt_vtable rt)) (rt_impl rt)
  | None => 0
  end.

(* src/runtime_tools/src/turbo_tool_runtime.c 422-429 turbo_tool_runtime_get_tool *)
Definition turbo_tool_runtime_get_tool (runtime : option turbo_tool_runtime) (index : Z)
    (out_tool : bool) : status * option turbo_tool_runtime_tool :=
  match runtime with
  | Some rt =>
      if negb out_tool then (TURBO_TOOL_INVALID_ARGUMENT, None)
      else default (fun _ _ => (TURBO_TOOL_ERROR, None)) (vt_get_tool (rt_vtable rt)) (rt_impl rt) index
  | None => (TURBO_TOOL_INVALID_ARGUMENT, None)
  end.

(** The struct left to the caller goes with the status, also when it is not OK. *)
(* src/runtime_tools/src/turbo_tool_runtime.c 431-454 turbo_tool_runtime_get_tool_v2 *)
Definition turbo_tool_runtime_get_tool_v2 (runtime : option turbo_tool_runtime) (index : Z)
  : status * turbo_tool_runtime_tool_v2 :=
  let header := mk_tool_v2 sizeof_runtime_tool_v2 TURBO_TOOL_RUNTIME_TOOL_V2_ABI_VERSION in
  match runtime with
  | None => (TURBO_TOOL_INVALID_ARGUMENT, zero_tool_v2)
  | Some rt =>
      match rt_vtable_v3 rt with
      | Some v =>
          let (s, tool) := default (fun _ _ => (TURBO_TOOL_ERROR, None)) (vt3_get_tool_v2 v)
                             (rt_impl rt) index in
          let tool := default (header zero_tool None 0) tool in
          if negb (bool_decide (s = TURBO_TOOL_OK)) then (s, tool)
          else if (t2_struct_size tool <? sizeof_runtime_tool_v2)
                  || negb (t2_abi_version tool =? TURBO_TOOL_RUNTIME_TOOL_V2_ABI_VERSION)
          then (TURBO_TOOL_ERROR, zero_tool_v2)
          else (TURBO_TOOL_OK, tool)
      | None =>
          let (s, tool) := default (fun _ _ => (TURBO_TOOL_ERROR, None)) (vt_get_tool (rt_vtable rt))
                             (rt_impl rt) index in
          (s, header (default zero_tool tool) None 0)
      end
  end.

(* src/runtime_tools/src/turbo_tool_runtime.c 456-482 turbo_tool_runtime_get_tool_v3 *)
Definition turbo_tool_runtime_get_tool_v3 (runtime : option turbo_tool_runtime) (index : Z)
  : status * turbo_tool_runtime_tool_v3 :=
  let header := mk_tool_v3 sizeof_runtime_tool_v3 TURBO_TOOL_RUNTIME_TOOL_V3_ABI_VERSION in
  match runtime with
  | None => (TURBO_TOOL_INVALID_ARGUMENT, zero_tool_v3)
  | Some rt =>
      match rt_vtable_v4 rt with
      | Some p =>
          let (s, tool) := default (fun _ _ => (TURBO_TOOL_ERROR, None)) (vt4_get_tool_v3 (vtable_v4 p))
                             (rt_impl rt) index in
          let tool := default (header zero_tool_v2 0) tool in
          if negb (bool_decide (s = TURBO_TOOL_OK)) then (s, tool)
          else if (t3_struct_size tool <? sizeof_runtime_tool_v3)
                  || negb (t3_abi_version tool =? TURBO_TOOL_RUNTIME_TOOL_V3_ABI_VERSION)
                  || negb (turbo_tool_runtime_effect_flags_valid (t3_effect_flags tool))
          then (TURBO_TOOL_ERROR, zero_tool_v3)
          else if t3_effect_flags tool =? 0
          then (TURBO_TOOL_OK, mk_tool_v3 (t3_struct_size tool) (t3_abi_version tool) (t3_base tool)
                                 TURBO_TOOL_EFFECT_UNKNOWN)
          else (TURBO_TOOL_OK, tool)
      | None =>
          let (s, base) := turbo_tool_runtime_get_tool_v2 runtime index in
          if bool_decide (s = TURBO_TOOL_OK)
          then (TURBO_TOOL_OK, header base TURBO_TOOL_EFFECT_UNKNOWN)
          else (s, header base 0)
      end
  end.

(** ** Invocation

    A callback that calls back into the runtime's own reference count is not
    modelled. *)

Definition call_runtime {A} (f : turbo_tool_runtime -> implementation * E -> invoked A)
    (w : runtime_world) : status * option A * runtime_world :=
  match rw_runtime w with
  | Some rt =>
      let '(s, out, (impl, e)) := f rt (rt_impl rt, rw_env w) in
      (s, out, mk_world (Some (set_impl impl rt)) e)
  | None => (TURBO_TOOL_INVALID_ARGUMENT, None, w)
  end.

Definition run_invoke (rt : turbo_tool_runtime) (name arguments : string)
    (state : implementation * E) : invoked string :=
  match vt_invoke (rt_vtable rt) with
  | Some f => f name arguments state
  | None => (TURBO_TOOL_ERROR, None, state)
  end.

Definition run_invoke_json_value (rt : turbo_tool_runtime) (name : string) (arguments : option J)
    (state : implementation * E) : invoked J :=
  match vt_invoke_json_value (rt_vtable rt) with
  | Some f => f name arguments state
  | None => (TURBO_TOOL_ERROR, None, state)
  end.

(* src/runtime_tools/src/turbo_tool_runtime.c 484-493 turbo_tool_runtime_invoke *)
Definition turbo_tool_runtime_invoke (name arguments_json : option string) (out_output : bool)
    (w : runtime_world) : status * option string * runtime_world :=
  match name with
  | Some name =>
      if negb out_output then (TURBO_TOOL_INVALID_ARGUMENT, None, w)
      else call_runtime (fun rt => run_invoke rt name (default "{}" arguments_json)) w
  | None => (TURBO_TOOL_INVALID_ARGUMENT, None, w)
  end.

(* src/runtime_tools/src/turbo_tool_runtime.c 495-506 turbo_tool_runtime_invoke_with_context *)
Definition turbo_tool_runtime_invoke_with_context (name arguments_json : option string)
    (context : option turbo_tool_execution_context) (out_output : bool) (w : runtime_world)
  : status * option string * runtime_world :=
  match name with
  | Some name =>
      if negb out_output then (TURBO_TOOL_INVALID_ARGUMENT, None, w)
      else
        call_runtime (fun rt =>
          let arguments := default "{}" arguments_json in
          match rt_vtable_v2 rt with
          | Some v => default (fun _ _ _ state => (TURBO_TOOL_ERROR, None, state))
                        (vt2_invoke_with_context v) name arguments context
          | None => run_invoke rt name arguments
          end) w
  | None => (TURBO_TOOL_INVALID_ARGUMENT, None, w)
  end.

(* src/runtime_tools/src/turbo_tool_runtime.c 508-518 turbo_tool_runtime_invoke_json_value *)
Definition turbo_tool_runtime_invoke_json_value (name : option string) (arguments : option J)
    (out_result : bool) (w : runtime_world) : status * option J * runtime_world :=
  match name with
  | Some name =>
      if negb out_result then (TURBO_TOOL_INVALID_ARGUMENT, None, w)
      else call_runtime (fun rt => run_invoke_json_value rt name arguments) w
  | None => (TURBO_TOOL_INVALID_ARGUMENT, None, w)
  end.

(* src/runtime_tools/src/turbo_tool_runtime.c 520-530 turbo_tool_runtime_invoke_json_value_with_context *)
Definition turbo_tool_runtime_invoke_json_value_with_context (name : option string)
    (arguments : option J) (context : option turbo_tool_execution_context) (out_result : bool)
    (w : runtime_world) : status * option J * runtime_world :=
  match name with
  | Some name =>
      if negb out_result then (TURBO_TOOL_INVALID_ARGUMENT, None, w)
      else
        call_runtime (fun rt =>
          match rt_vtable_v2 rt with
          | Some v => default (fun _ _ _ state => (TURBO_TOOL_ERROR, None, state))
                        (vt2_invoke_json_value_with_context v) name arguments context
          | None => run_invoke_json_value rt name arguments
          end) w
  | None => (TURBO_TOOL_INVALID_ARGUMENT, None, w)
  end.

(** ** The bridge

    An entry of the bridge is its copy of the name: the runtime is the world's. *)

Abbreviation bridged_registry := (turbo_tool_registry (J := J) (W := runtime_world)).

Definition legacy_code {A} (r : status * option A * runtime_world) : Z * option A * runtime_world :=
  let '(s, out, w) := r in (if bool_decide (s = TURBO_TOOL_OK) then 0 else -1, out, w).

(* src/runtime_tools/src/turbo_tool_runtime.c 59-70 turbo_tool_runtime_bridge_handler *)
Definition turbo_tool_runtime_bridge_handler (name : string)
  : turbo_tool_handler_fn runtime_world :=
  fun arguments_json w => legacy_code (turbo_tool_runtime_invoke (Some name) (Some arguments_json) true w).

(* src/runtime_tools/src/turbo_tool_runtime.c 72-84 turbo_tool_runtime_bridge_json_value_handler *)
Definition turbo_tool_runtime_bridge_json_value_handler (name : string)
  : turbo_tool_json_value_handler_fn J runtime_world :=
  fun arguments w => legacy_code (turbo_tool_runtime_invoke_json_value (Some name) arguments true w).

(* src/runtime_tools/src/turbo_tool_runtime.c 86-95 turbo_tool_runtime_bridge_context_handler *)
Definition turbo_tool_runtime_bridge_context_handler (name : string)
  : turbo_tool_context_handler_fn runtime_world :=
  fun arguments_json context w =>
    turbo_tool_runtime_invoke_with_context (Some name) (Some arguments_json) context true w.

(* src/runtime_tools/src/turbo_tool_runtime.c 97-106 turbo_tool_runtime_bridge_json_value_context_handler *)
Definition turbo_tool_runtime_bridge_json_value_context_handler (name : string)
  : turbo_tool_json_value_context_handler_fn J runtime_world :=
  fun arguments context w =>
    turbo_tool_runtime_invoke_json_value_with_context (Some name) arguments context true w.

(* src/runtime_tools/src/turbo_tool_runtime.c 108-118 turbo_tool_runtime_bridge_entry_destroy *)
Definition turbo_tool_runtime_bridge_entry_destroy : turbo_tool_user_data_free_fn runtime_world :=
  turbo_tool_runtime_destroy.

Definition tool_name (tool : turbo_tool_runtime_tool_v3) : option string :=
  t_name (t2_base (t3_base tool)).

Definition runtime_indices (n : nat) : list Z := Z.of_nat <$> seq 0 n.

(** The bindings of this call, removed one after the other. *)
Fixpoint remove_tools (runtime : option turbo_tool_runtime) (l : list Z)
    (registry : option bridged_registry) (w : runtime_world)
  : option bridged_registry * runtime_world :=
  match l with
  | [] => (registry, w)
  | i :: l =>
      match turbo_tool_runtime_get_tool_v3 runtime i with
      | (TURBO_TOOL_OK, tool) =>
          match tool_name tool with
          | Some name =>
              let '(_, registry, w) := turbo_tool_registry_remove registry (Some name) w in
              remove_tools runtime l registry w
          | None => remove_tools runtime l registry w
          end
      | _ => remove_tools runtime l registry w
      end
  end.

(** The catalog is read in the runtime as it was at the call: releases change only
    its count. *)
(* src/runtime_tools/src/turbo_tool_runtime.c 541-552 turbo_tool_runtime_rollback_registry *)
Definition turbo_tool_runtime_rollback_registry (runtime : option turbo_tool_runtime)
    (registry : option bridged_registry) (added_count : nat) (w : runtime_world)
  : option bridged_registry * runtime_world :=
  remove_tools runtime (runtime_indices added_count) registry w.

(** Every tool is complete and its name is free. *)
(* src/runtime_tools/src/turbo_tool_runtime.c 565-580 turbo_tool_runtime_add_to_registry *)
Fixpoint check_catalog (runtime : option turbo_tool_runtime) (l : list Z)
    (registry : option bridged_registry) : status :=
  match l with
  | [] => TURBO_TOOL_OK
  | i :: l =>
      match turbo_tool_runtime_get_tool_v3 runtime i with
      | (TURBO_TOOL_OK, tool) =>
          let base := t2_base (t3_base tool) in
          if negb (bool_decide (is_Some (t_name base)) && bool_decide (is_Some (t_description base))
                   && (bool_decide (is_Some (t_parameters_json base))
                       || bool_decide (is_Some (t_parameters_schema base))))
          then TURBO_TOOL_ERROR
          else
            match fst (turbo_tool_registry_get_execution_policy registry (t_name base)) with
            | TURBO_TOOL_OK => TURBO_TOOL_DUPLICATE
            | TURBO_TOOL_NOT_FOUND => check_catalog runtime l registry
            | s => s
            end
      | (s, _) => s
      end
  end.

(* src/runtime_tools/src/turbo_tool_runtime.c 605-624 turbo_tool_runtime_add_to_registry *)
Definition bridge_definition (name : string) (tool : turbo_tool_runtime_tool_v3)
    (policy : turbo_tool_execution_policy) : turbo_tool_definition_v6 J runtime_world :=
  let base := t2_base (t3_base tool) in
  mk_definition_v6 sizeof_definition_v6 6
    (mk_definition (t_name base) (t_description base) (t_parameters_json base)
       (t_parameters_schema base) (t_strict base)
       (Some (turbo_tool_runtime_bridge_handler name))
       (Some (turbo_tool_runtime_bridge_json_value_handler name))
       (Some turbo_tool_runtime_bridge_entry_destroy))
    policy (Some [Some "runtime_tools"])
    (Some (turbo_tool_runtime_bridge_context_handler name))
    (Some (turbo_tool_runtime_bridge_json_value_context_handler name))
    (t2_result_schema_json (t3_base tool)) (t2_strict_result (t3_base tool)) (t3_effect_flags tool).

(* src/runtime_tools/src/turbo_tool_runtime.c 744-755 turbo_tool_runtime_native_get_native_projection *)
Definition turbo_tool_runtime_native_get_native_projection (runtime : option turbo_tool_runtime)
    (name : option string) : status * option turbo_tool_native_projection :=
  match runtime with
  | Some rt =>
      match rt_vtable_v4 rt, rt_impl rt with
      | Some NativeVtable, NativeImpl r => turbo_tool_registry_get_native_projection (Some r) name
      | _, _ => (TURBO_TOOL_INVALID_ARGUMENT, None)
      end
  | None => (TURBO_TOOL_INVALID_ARGUMENT, None)
  end.

Abbreviation publish :=
  (turbo_tool_registry_publish_native_projection (W := runtime_world) sizeof_native_projection).

(** What the native runtime publishes for a tool is published for its bridge; the
    status NOT_FOUND is no failure. *)
(* src/runtime_tools/src/turbo_tool_runtime.c 633-641 turbo_tool_runtime_add_to_registry *)
Definition bridge_projection (runtime : option turbo_tool_runtime) (name : option string)
    (registry : option bridged_registry) : status * option bridged_registry :=
  match rt_vtable_v4 <$> runtime with
  | Some (Some NativeVtable) =>
      match turbo_tool_runtime_native_get_native_projection runtime name with
      | (TURBO_TOOL_OK, projection) => publish registry name projection
      | (s, _) => (s, registry)
      end
  | _ => (TURBO_TOOL_OK, registry)
  end.

(** Status, registry, world: one tool is bound, or everything this call bound is
    taken back. *)
Definition bound : Type := status * option bridged_registry * runtime_world * oracle.

(* src/runtime_tools/src/turbo_tool_runtime.c 583-648 turbo_tool_runtime_add_to_registry *)
Definition bind_tool (runtime : option turbo_tool_runtime) (index : nat)
    (policy : turbo_tool_execution_policy) (registry : option bridged_registry) (w : runtime_world)
    (o : oracle) : bound :=
  let rollback (s : status) (registry : option bridged_registry) (w : runtime_world) (o : oracle) :=
    let (registry, w) := turbo_tool_runtime_rollback_registry runtime registry index w in
    (s, registry, w, o) in
  match turbo_tool_runtime_get_tool_v3 runtime (Z.of_nat index) with
  | (TURBO_TOOL_OK, tool) =>
      let (allocated, o) := alloc o in
      if negb allocated then rollback TURBO_TOOL_OUT_OF_MEMORY registry w o
      else
        let w := turbo_tool_runtime_retain w in
        match tool_name tool with
        | None => rollback TURBO_TOOL_OUT_OF_MEMORY registry (turbo_tool_runtime_bridge_entry_destroy w) o
        | Some name =>
            let (copied, o) := alloc o in
            if negb copied
            then rollback TURBO_TOOL_OUT_OF_MEMORY registry (turbo_tool_runtime_bridge_entry_destroy w) o
            else
              match turbo_tool_registry_add_v6 registry (Some (bridge_definition name tool policy)) o with
              | (TURBO_TOOL_OK, registry, o) =>
                  match bridge_projection runtime (Some name) registry with
                  | (TURBO_TOOL_OK, registry) => (TURBO_TOOL_OK, registry, w, o)
                  | (TURBO_TOOL_NOT_FOUND, registry) => (TURBO_TOOL_OK, registry, w, o)
                  | (s, registry) =>
                      let '(_, registry, w) := turbo_tool_registry_remove registry (Some name) w in
                      rollback s registry w o
                  end
              | (s, registry, o) => rollback s registry (turbo_tool_runtime_bridge_entry_destroy w) o
              end
        end
  | (s, _) => rollback s registry w o
  end.

(* src/runtime_tools/src/turbo_tool_runtime.c 582-649 turbo_tool_runtime_add_to_registry *)
Fixpoint bind_tools (runtime : option turbo_tool_runtime) (index remaining : nat)
    (policy : turbo_tool_execution_policy) (registry : option bridged_registry) (w : runtime_world)
    (o : oracle) : bound :=
  match remaining with
  | O => (TURBO_TOOL_OK, registry, w, o)
  | S remaining =>
      match bind_tool runtime index policy registry w o with
      | (TURBO_TOOL_OK, registry, w, o) => bind_tools runtime (S index) remaining policy registry w o
      | failure => failure
      end
  end.

(* src/runtime_tools/src/turbo_tool_runtime.c 554-652 turbo_tool_runtime_add_to_registry *)
Definition turbo_tool_runtime_add_to_registry (registry : option bridged_registry)
    (execution_policy : option turbo_tool_execution_policy) (w : runtime_world) (o : oracle) : bound :=
  let runtime := rw_runtime w in
  match runtime, registry, execution_policy with
  | Some _, Some _, Some policy =>
      if negb (turbo_tool_runtime_execution_policy_valid execution_policy)
      then (TURBO_TOOL_INVALID_ARGUMENT, registry, w, o)
      else
        let tool_count := Z.to_nat (turbo_tool_runtime_count runtime) in
        match check_catalog runtime (runtime_indices tool_count) registry with
        | TURBO_TOOL_OK => bind_tools runtime 0 tool_count policy registry w o
        | s => (s, registry, w, o)
        end
  | _, _, _ => (TURBO_TOOL_INVALID_ARGUMENT, registry, w, o)
  end.

(* src/runtime_tools/src/turbo_tool_runtime.c 654-672 turbo_tool_runtime_build_registry_bridge *)
Definition turbo_tool_runtime_build_registry_bridge (w : runtime_world) (o : oracle)
  : option bridged_registry * runtime_world * oracle :=
  match rw_runtime w with
  | None => (None, w, o)
  | Some _ =>
      match turbo_tool_registry_create o with
      | (None, o) => (None, w, o)
      | (registry, o) =>
          match turbo_tool_runtime_add_to_registry registry
                  (Some (mk_policy TURBO_TOOL_EXECUTION_SEQUENTIAL TURBO_TOOL_IDEMPOTENCY_NONE)) w o with
          | (TURBO_TOOL_OK, registry, w, o) => (registry, w, o)
          | (_, registry, w, o) => (None, turbo_tool_registry_destroy registry w, o)
          end
      end
  end.

(** ** The native runtime *)

(* src/runtime_tools/src/turbo_tool_runtime.c 674-689 turbo_tool_runtime_native_create *)
Definition turbo_tool_runtime_native_create (e : E) (o : oracle)
  : option turbo_tool_runtime * E * oracle :=
  let (allocated, o) := alloc o in
  if negb allocated then (None, e, o)
  else
    match turbo_tool_registry_create o with
    | (None, o) => (None, e, o)
    | (Some r, o) => turbo_tool_runtime_create_v4 (Some NativeVtable) (NativeImpl r) e o
    end.

(** An operation on the registry of a native runtime. *)
Definition on_native_registry (w : runtime_world)
    (f : turbo_tool_registry (J := J) (W := E) -> status * option (turbo_tool_registry (J := J) (W := E)) * oracle)
    (o : oracle) : status * runtime_world * oracle :=
  match rw_runtime w with
  | Some rt =>
      match rt_vtable_v4 rt, rt_impl rt with
      | Some NativeVtable, NativeImpl r =>
          let '(s, r', o) := f r in
          (s, mk_world (Some (set_impl (NativeImpl (default r r')) rt)) (rw_env w), o)
      | _, _ => (TURBO_TOOL_INVALID_ARGUMENT, w, o)
      end
  | None => (TURBO_TOOL_INVALID_ARGUMENT, w, o)
  end.

(* src/runtime_tools/src/turbo_tool_runtime.c 691-705 turbo_tool_runtime_native_add_tool *)
Definition turbo_tool_runtime_native_add_tool (w : runtime_world)
    (definition : option (turbo_tool_definition J E)) (o : oracle) : status * runtime_world * oracle :=
  match definition with
  | Some _ => on_native_registry w (fun r => turbo_tool_registry_add (Some r) definition o) o
  | None => (TURBO_TOOL_INVALID_ARGUMENT, w, o)
  end.

(* src/runtime_tools/src/turbo_tool_runtime.c 707-717 turbo_tool_runtime_native_add_tool_v5 *)
Definition turbo_tool_runtime_native_add_tool_v5 (w : runtime_world)
    (definition : option (turbo_tool_definition_v5 J E)) (o : oracle)
  : status * runtime_world * oracle :=
  match definition with
  | Some _ => on_native_registry w (fun r => turbo_tool_registry_add_v5 (Some r) definition o) o
  | None => (TURBO_TOOL_INVALID_ARGUMENT, w, o)
  end.

(* src/runtime_tools/src/turbo_tool_runtime.c 719-729 turbo_tool_runtime_native_add_tool_v6 *)
Definition turbo_tool_runtime_native_add_tool_v6 (w : runtime_world)
    (definition : option (turbo_tool_definition_v6 J E)) (o : oracle)
  : status * runtime_world * oracle :=
  match definition with
  | Some _ => on_native_registry w (fun r => turbo_tool_registry_add_v6 (Some r) definition o) o
  | None => (TURBO_TOOL_INVALID_ARGUMENT, w, o)
  end.

(* src/runtime_tools/src/turbo_tool_runtime.c 731-742 turbo_tool_runtime_native_publish_native_projection *)
Definition turbo_tool_runtime_native_publish_native_projection (w : runtime_world)
    (name : option string) (projection : option turbo_tool_native_projection) (o : oracle)
  : status * runtime_world * oracle :=
  on_native_registry w
    (fun r => (turbo_tool_registry_publish_native_projection sizeof_native_projection (Some r) name
                 projection, o)) o.

End runtime.
