(* ===== verification/ToolRuntimeFacts.v ===== *)
(** * Properties of tool runtimes

    Binding a runtime's catalog to a registry is atomic and holds one reference per
    entry; the registry bridged to a native runtime behaves as the native
    registry. *)

From S2P Require Import Prelude RuntimeJson Tool ToolRegistry ToolRegistryFacts ToolRuntime.

#[local] Open Scope string_scope.
#[local] Open Scope list_scope.
#[local] Open Scope Z_scope.

Section facts.
Context {J E I : Type} `{JsonLaws J, Cmeta} (sizeof_native_projection : Z).
Abbreviation world := (runtime_world (J := J) (E := E) (I := I)).
Abbreviation runtime := (turbo_tool_runtime (J := J) (E := E) (I := I)).
Abbreviation entry := (turbo_tool_entry (J := J) (W := world)).
Abbreviation registry := (turbo_tool_registry (J := J) (W := world)).
Abbreviation get_tool := (turbo_tool_runtime_get_tool_v3 (J := J) (E := E) (I := I)).
Abbreviation registry_wf := (registry_wf sizeof_native_projection).
Abbreviation bind_projection := (turbo_tool_native_projection_bind sizeof_native_projection).

(** ** References *)

(** The world in which a runtime has [n] more references. *)
Definition held (rt : runtime) (e : E) (n : nat) : world :=
  mk_world (Some (set_ref_count (ref_count rt + Z.of_nat n) rt)) e.

Lemma held_0 rt e : held rt e 0 = mk_world (Some rt) e.
Proof. unfold held, set_ref_count. rewrite Z.add_0_r. by destruct rt. Qed.

Lemma retain_held rt e n : 1 <= ref_count rt -> ref_count rt + Z.of_nat n < UINT64_MAX ->
  turbo_tool_runtime_retain (held rt e n) = held rt e (S n).
Proof.
  intros. unfold held, turbo_tool_runtime_retain, set_ref_count. cbn.
  rewrite u64_small by (unfold UINT64_MAX in *; lia). do 3 f_equal. lia.
Qed.

Lemma destroy_held rt e n : 1 <= ref_count rt ->
  turbo_tool_runtime_bridge_entry_destroy (held rt e (S n)) = held rt e n.
Proof.
  intros. unfold held, turbo_tool_runtime_bridge_entry_destroy, turbo_tool_runtime_destroy,
    set_ref_count. cbn. rewrite (proj2 (Z.ltb_lt _ _)) by lia. do 3 f_equal. lia.
Qed.

(** ** Bridge entries *)

(** What the native runtime publishes for a name. *)
Definition native_projection_of (rt : runtime) (name : string)
  : option turbo_tool_native_projection :=
  match rt_vtable_v4 rt, rt_impl rt with
  | Some NativeVtable, NativeImpl rn => found (Some rn) (Some name) ≫= e_native_projection
  | _, _ => None
  end.

(** The entry made for a tool of the catalog. *)
Record bridge_of (rt : runtime) (p : turbo_tool_execution_policy)
    (tool : turbo_tool_runtime_tool_v3 (J := J)) (x : entry) : Prop := {
  bo_name : t_name (t2_base (t3_base tool)) = Some (e_name x);
  bo_description : t_description (t2_base (t3_base tool)) = Some (e_description x);
  bo_parameters : forall text, t_parameters_json (t2_base (t3_base tool)) = Some text ->
    e_parameters_json x = text;
  bo_schema : option_Forall2 json_equiv (e_parameters_schema x)
                (t_parameters_schema (t2_base (t3_base tool)));
  bo_strict : e_strict x = t_strict (t2_base (t3_base tool));
  bo_result : e_result_schema_json x = t2_result_schema_json (t3_base tool) /\
              e_strict_result x = t2_strict_result (t3_base tool);
  bo_effects : e_effect_flags x = t3_effect_flags tool;
  bo_policy : e_execution_policy x = p;
  bo_capabilities : e_required_capabilities x = ["runtime_tools"];
  bo_handler : e_handler x = Some (turbo_tool_runtime_bridge_handler (e_name x));
  bo_json_value_handler :
    e_json_value_handler x = Some (turbo_tool_runtime_bridge_json_value_handler (e_name x));
  bo_context_handler :
    e_context_handler x = Some (turbo_tool_runtime_bridge_context_handler (e_name x));
  bo_json_value_context_handler : e_json_value_context_handler x =
    Some (turbo_tool_runtime_bridge_json_value_context_handler (e_name x));
  bo_free : e_user_data_free x = Some turbo_tool_runtime_bridge_entry_destroy;
  bo_metadata : e_execution_metadata x = None;
  bo_native : option_Forall2 (fun p' q => bind_projection q = Some p')
                (e_native_projection x) (native_projection_of rt (e_name x))
}.

(** The entry bound at a position of the catalog. *)
Definition bridges (rt : runtime) (p : turbo_tool_execution_policy) (i : nat) (x : entry) : Prop :=
  exists tool, get_tool (Some rt) (Z.of_nat i) = (TURBO_TOOL_OK, tool) /\ bridge_of rt p tool x.

(** The entries bound for the positions from [i] on. *)
Definition bridged (rt : runtime) (p : turbo_tool_execution_policy) (i : nat) (l : list entry) : Prop :=
  Forall2 (bridges rt p) (seq i (length l)) l.

Lemma bridged_snoc rt p i l x : bridged rt p i l -> bridges rt p (i + length l) x ->
  bridged rt p i (l ++ [x]).
Proof.
  intros Hl Hx. unfold bridged. rewrite length_app, seq_app. apply Forall2_app; [done|].
  by constructor.
Qed.

(** Releasing bridge entries gives their references back. *)
Lemma release_bridged rt p e l : 1 <= ref_count rt -> forall i, bridged rt p i l ->
  foldl (fun w x => turbo_tool_registry_free_entry x w) (held rt e (length l)) l = held rt e 0.
Proof.
  intros Hrc. induction l as [|x l IH]; intros i Hl; [done|]. inversion_clear Hl as [|? ? ? ? Hx Hr].
  destruct Hx as (tool & _ & Hx). cbn [foldl length].
  unfold turbo_tool_registry_free_entry at 2. rewrite (bo_free _ _ _ _ Hx), destroy_held by done.
  by eapply IH.
Qed.

(** ** Rollback *)

Lemma remove_middle (r : registry) l0 x l (w : world) : registry_wf r ->
  entries r = l0 ++ x :: l ->
  exists r', turbo_tool_registry_remove (Some r) (Some (e_name x)) w =
    (TURBO_TOOL_OK, Some r', turbo_tool_registry_free_entry x w) /\
  entries r' = l0 ++ l /\ registry_wf r'.
Proof.
  intros Hwf El. pose proof (remove_spec sizeof_native_projection r (Some (e_name x)) w) as Hspec.
  assert (Hi : entries r !! length l0 = Some x) by (by rewrite El, list_lookup_middle).
  pose proof (find_exact_unique (entries r) (e_name x) (length l0) x (wf_names _ _ Hwf) Hi eq_refl)
    as Hfind.
  unfold turbo_tool_registry_remove in *. rewrite Hfind, Hi in *.
  eexists. split; [done|]. destruct Hspec as (r' & [= <-] & Hr & _). split; [|by apply Hr].
  cbn. rewrite El, take_app_length, drop_app_ge by lia.
  by replace (S (length l0) - length l0)%nat with 1%nat by lia.
Qed.

Lemma remove_tools_spec rt p e l : 1 <= ref_count rt -> forall i (r : registry) l0,
  bridged rt p i l -> registry_wf r -> entries r = l0 ++ l ->
  exists r', remove_tools (Some rt) (Z.of_nat <$> seq i (length l)) (Some r) (held rt e (length l)) =
    (Some r', held rt e 0) /\ entries r' = l0 /\ registry_wf r'.
Proof.
  intros Hrc. induction l as [|x l IH]; intros i r l0 Hl Hwf El.
  { exists r. by rewrite app_nil_r in El. }
  inversion_clear Hl as [|? ? ? ? Hx Hr]. destruct Hx as (tool & Ht & Hx).
  cbn [length seq fmap list_fmap remove_tools]. rewrite Ht. unfold tool_name.
  rewrite (bo_name _ _ _ _ Hx).
  destruct (remove_middle r l0 x l (held rt e (S (length l))) Hwf El) as (r1 & -> & E1 & Hwf1).
  unfold turbo_tool_registry_free_entry. rewrite (bo_free _ _ _ _ Hx), destroy_held by done.
  by apply (IH (S i)).
Qed.

(** ** Binding one tool *)

Lemma get_tool_effects rt i tool : get_tool (Some rt) i = (TURBO_TOOL_OK, tool) ->
  t3_effect_flags tool <> 0.
Proof.
  unfold turbo_tool_runtime_get_tool_v3. destruct (rt_vtable_v4 rt) as [v|].
  - destruct (default _ _ (rt_impl rt) i) as [s t]. case_bool_decide as Es; cbn [negb]; [|congruence].
    destruct (_ || _ || _); [done|]. case_match eqn:Ez; intros [= <-]; [done|].
    by apply Z.eqb_neq in Ez.
  - destruct (turbo_tool_runtime_get_tool_v2 (Some rt) i) as [s b]. case_bool_decide; [|congruence].
    by intros [= <-].
Qed.

Abbreviation project := (bridge_projection (J := J) (E := E) (I := I) sizeof_native_projection).
Abbreviation bind_tool := (bind_tool (J := J) (E := E) (I := I) sizeof_native_projection).

(** The entry before its native projection is published. *)
Definition bare_bridge (rt : runtime) p tool (x : entry) : Prop :=
  e_native_projection x = None /\
  e_user_data_free x = Some turbo_tool_runtime_bridge_entry_destroy /\
  forall n, option_Forall2 (fun p' q => bind_projection q = Some p') n (native_projection_of rt (e_name x)) ->
    bridge_of rt p tool (match n with Some q => set_native q x | None => x end).

Lemma add_bridge rt p tool name (r : registry) o : registry_wf r ->
  t_name (t2_base (t3_base tool)) = Some name -> t3_effect_flags tool <> 0 ->
  let '(status, out, o') :=
    turbo_tool_registry_add_v6 (Some r) (Some (bridge_definition name tool p)) o in
  exists r', out = Some r' /\ registry_wf r' /\
  (status <> TURBO_TOOL_OK /\ entries r' = entries r \/
   status = TURBO_TOOL_OK /\ exists x, entries r' = entries r ++ [x] /\ e_name x = name /\
     bare_bridge rt p tool x).
Proof.
  intros Hwf Hn Hf. unfold turbo_tool_registry_add_v6. set (d := bridge_definition name tool p).
  change ((d6_struct_size d <? sizeof_definition_v6) || negb (d6_abi_version d =? 6)) with false.
  cbv iota.
  pose proof (add_with_policy_spec sizeof_native_projection r (d6_definition d)
    (d6_execution_policy d) (d6_required_capabilities d) (d6_context_handler d)
    (d6_json_value_context_handler d) (d6_result_schema_json d) (d6_strict_result d)
    (d6_effect_flags d) o) as Hspec.
  destruct (turbo_tool_registry_add_with_policy (Some r) _ _ _ _ _ _ _ _ _) as [[status out] o'].
  destruct Hspec as (r' & -> & Hout & Hr'). exists r'. split; [done|]. split; [by apply Hr'|].
  destruct Hout as [[Hne ->]|(-> & name' & desc & cs & rv & En & Ed & Ec & _ & Hv & Hp & _ & Ee)];
    [by left|]. right. split; [done|].
  cbn in En, Ed. rewrite Hn in En. injection En as <-. cbn in Ec. injection Ec as <-.
  apply add_arguments_valid_spec in Hv as (_ & _ & _ & _ & _ & _ & _ & Hs & _).
  cbn in Hs. eexists. split; [exact Ee|]. do 3 (split; [done|]). intros n Hnat.
  destruct n as [q|]; (split; cbn; try done; [by intros text ->|apply clone_option|
    split; [done|]; destruct (t2_result_schema_json (t3_base tool)); [done|];
    destruct Hs as [->|[? [=]]]; done|
    unfold turbo_tool_effect_flags_normalize; by apply Z.eqb_neq in Hf as ->]).
Qed.

(** What publishing may leave of the entry just added. *)
Definition published (native : option turbo_tool_native_projection) (r : registry) (l : list entry) (x : entry)
    (c : turbo_tool_status * option registry) : Prop :=
  exists r', c.2 = Some r' /\ registry_wf r' /\
  (c.1 <> TURBO_TOOL_OK /\ c.1 <> TURBO_TOOL_NOT_FOUND /\ r' = r \/
   (c.1 = TURBO_TOOL_OK \/ c.1 = TURBO_TOOL_NOT_FOUND) /\ exists n,
     option_Forall2 (fun p' q => bind_projection q = Some p') n native /\
     entries r' = l ++ [match n with Some q => set_native q x | None => x end]).

Lemma project_spec rt (r : registry) l x : registry_wf r -> entries r = l ++ [x] ->
  published (native_projection_of rt (e_name x)) r l x (project (Some rt) (Some (e_name x)) (Some r)).
Proof.
  intros Hwf El. remember (native_projection_of rt (e_name x)) as native eqn:En.
  unfold native_projection_of in En. unfold bridge_projection, turbo_tool_runtime_native_get_native_projection.
  cbn [fmap option_fmap option_map].
  assert (Hsame : forall s, native = None ->
    (s = TURBO_TOOL_OK \/ s = TURBO_TOOL_NOT_FOUND) ->
    published native r l x (s, Some r)).
  { intros s Hn Hs. exists r. split; [done|]. split; [done|]. right. split; [done|]. exists None.
    rewrite Hn. by split; [constructor|]. }
  assert (Hfail : forall s, s <> TURBO_TOOL_OK -> s <> TURBO_TOOL_NOT_FOUND ->
    published native r l x (s, Some r)).
  { intros s Hs Hs'. exists r. split; [done|]. split; [done|]. by left. }
  unfold turbo_tool_registry_get_native_projection. 
  destruct (rt_vtable_v4 rt) as [[|v]|]; [|by apply Hsame; [|left]..].
  destruct (rt_impl rt) as [|i|rn]; [by apply Hfail..|].
  destruct (found (Some rn) (Some (e_name x))) as [e|]; [|by apply Hsame; [|right]].
  cbn [mbind option_bind] in En. destruct (e_native_projection e) as [q|]; [|by apply Hsame; [|right]].
  pose proof (publish_spec sizeof_native_projection r (Some (e_name x)) (Some q)) as Hspec.
  destruct (turbo_tool_registry_publish_native_projection _ (Some r) _ _) as [s out] eqn:Ep.
  destruct Hspec as (r' & -> & Hr' & [[Hs ->]|(-> & q' & i & e0 & bound & [= <-] & Hi & _ & Hb & ->)]).
  - apply Hfail; [done|]. intros ->. unfold turbo_tool_registry_publish_native_projection in Ep.
    rewrite (find_last sizeof_native_projection r l x Hwf El), El, list_lookup_middle in Ep by done.
    repeat case_match; congruence.
  - eexists. split; [done|]. split; [by apply Hr'|]. right. split; [by left|]. exists (Some bound).
    split; [rewrite En; by constructor|]. by apply (update_last sizeof_native_projection r l x).
Qed.

(** What binding may do, given the entries [l0] before the call and the number of
    entries bound so far. *)
Definition binds (rt : runtime) (e : E) (p : turbo_tool_execution_policy) (l0 : list entry) (n : nat)
    (b : bound (J := J) (E := E) (I := I)) : Prop :=
  let '(status, out, w', o') := b in
  exists r', out = Some r' /\ registry_wf r' /\
  (status <> TURBO_TOOL_OK /\ entries r' = l0 /\ w' = mk_world (Some rt) e \/
   status = TURBO_TOOL_OK /\ exists l, length l = n /\ bridged rt p 0 l /\ entries r' = l0 ++ l /\
     w' = held rt e n).

Lemma rollback_binds rt e p l0 l (r : registry) n status o : 1 <= ref_count rt ->
  bridged rt p 0 l -> registry_wf r -> entries r = l0 ++ l -> status <> TURBO_TOOL_OK ->
  binds rt e p l0 n
    (let (out, w) := turbo_tool_runtime_rollback_registry (Some rt) (Some r) (length l)
                       (held rt e (length l)) in
     (status, out, w, o)).
Proof.
  intros Hrc Hl Hwf El Hs. unfold turbo_tool_runtime_rollback_registry, runtime_indices.
  destruct (remove_tools_spec rt p e l Hrc 0 r l0 Hl Hwf El) as (r' & -> & E' & Hwf').
  exists r'. split; [done|]. split; [done|]. left. by rewrite held_0.
Qed.

Lemma bind_tool_spec rt e p l0 l (r : registry) o : 1 <= ref_count rt ->
  ref_count rt + Z.of_nat (length l) < UINT64_MAX -> bridged rt p 0 l -> registry_wf r ->
  entries r = l0 ++ l ->
  binds rt e p l0 (S (length l))
    (bind_tool (Some rt) (length l) p (Some r) (held rt e (length l)) o).
Proof.
  intros Hrc Hmax Hl Hwf El. unfold ToolRuntime.bind_tool.
  destruct (get_tool (Some rt) (Z.of_nat (length l))) as [s tool] eqn:Et.
  destruct (decide (s = TURBO_TOOL_OK)) as [->|Hs]; [|by destruct s; try done; apply rollback_binds].
  destruct (alloc o) as [[] o1]; [|by apply rollback_binds].
  cbn [negb]. cbv zeta. rewrite retain_held by done. unfold tool_name.
  destruct (t_name (t2_base (t3_base tool))) as [name|] eqn:En;
    [|by rewrite destroy_held; [apply rollback_binds|]].
  destruct (alloc o1) as [[] o2]; [|by rewrite destroy_held; [apply rollback_binds|]].
  cbn [negb].
  pose proof (add_bridge rt p tool name r o2 Hwf En (get_tool_effects _ _ _ Et)) as Hadd.
  destruct (turbo_tool_registry_add_v6 (Some r) _ o2) as [[s out] o3].
  destruct Hadd as (r1 & -> & Hwf1 & [[Hs E1]|(-> & x & E1 & <- & _ & Hfree & Hx)]).
  { rewrite El in E1. destruct s; try done; rewrite destroy_held by done; by apply rollback_binds. }
  pose proof (project_spec rt r1 (entries r) x Hwf1 E1) as (r2 & Hout & Hwf2 & Hp).
  destruct (project (Some rt) (Some (e_name x)) (Some r1)) as [s out]. cbn in Hout, Hp. subst out.
  destruct Hp as [(Hs & Hs' & ->)|(Hs & n & Hn' & E2)].
  - pose proof (remove_middle r1 (entries r) x [] (held rt e (S (length l))) Hwf1 E1)
      as (r3 & Hr & E3 & Hwf3). rewrite app_nil_r, El in E3.
    assert (Hf : turbo_tool_registry_free_entry x (held rt e (S (length l))) = held rt e (length l)).
    { unfold turbo_tool_registry_free_entry. by rewrite Hfree, destroy_held. }
    destruct s; try done; rewrite Hr, Hf; by apply rollback_binds.
  - assert (Hfin : binds rt e p l0 (S (length l)) (TURBO_TOOL_OK, Some r2, held rt e (S (length l)), o3)).
    { exists r2. split; [done|]. split; [done|]. right. split; [done|]. eexists (l ++ [_]).
      rewrite length_app, Nat.add_1_r. split; [done|].
      split; [|split; [by rewrite E2, El, <- app_assoc|done]].
      apply bridged_snoc; [done|]. exists tool. split; [done|]. by apply Hx. }
    by destruct Hs as [->| ->].
Qed.

Abbreviation bind_tools := (bind_tools (J := J) (E := E) (I := I) sizeof_native_projection).

Lemma bind_tools_spec rt e p l0 remaining : 1 <= ref_count rt -> forall l (r : registry) o,
  ref_count rt + Z.of_nat (length l + remaining) <= UINT64_MAX -> bridged rt p 0 l ->
  registry_wf r -> entries r = l0 ++ l ->
  binds rt e p l0 (length l + remaining)
    (bind_tools (Some rt) (length l) remaining p (Some r) (held rt e (length l)) o).
Proof.
  intros Hrc. induction remaining as [|remaining IH]; intros l r o Hmax Hl Hwf El.
  { exists r. split; [done|]. split; [done|]. right. rewrite Nat.add_0_r. split; [done|]. by exists l. }
  cbn [ToolRuntime.bind_tools].
  pose proof (bind_tool_spec rt e p l0 l r o Hrc ltac:(lia) Hl Hwf El) as Hone.
  destruct (bind_tool (Some rt) (length l) p (Some r) _ o) as [[[s out] w'] o'].
  destruct Hone as (r' & -> & Hwf' & [(Hs & E' & Ew)|(-> & l' & Hlen & Hl' & E' & ->)]).
  - destruct s; try done; exists r'; split; try done; split; try done; by left.
  - rewrite <- Hlen. replace (length l + S remaining)%nat with (length l' + remaining)%nat by lia.
    apply IH; try done. lia.
Qed.

Abbreviation add_to_registry :=
  (turbo_tool_runtime_add_to_registry (J := J) (E := E) (I := I) sizeof_native_projection).
Abbreviation tool_count rt := (Z.to_nat (turbo_tool_runtime_count (Some rt))).

Lemma add_to_registry_spec rt e p (r : registry) o : registry_wf r -> 1 <= ref_count rt ->
  ref_count rt + Z.of_nat (tool_count rt) <= UINT64_MAX ->
  binds rt e p (entries r) (tool_count rt)
    (add_to_registry (Some r) (Some p) (mk_world (Some rt) e) o).
Proof.
  intros Hwf Hrc Hmax. unfold turbo_tool_runtime_add_to_registry. cbn [rw_runtime].
  assert (Hfail : forall s, s <> TURBO_TOOL_OK ->
    binds rt e p (entries r) (tool_count rt) (s, Some r, mk_world (Some rt) e, o)).
  { intros s Hs. exists r. split; [done|]. split; [done|]. by left. }
  destruct (negb _); [by apply Hfail|].
  destruct (check_catalog _ _ _); try (by apply Hfail).
  rewrite <- (held_0 rt e). apply (bind_tools_spec rt e p (entries r) _ Hrc []); try done; [|].
  - constructor.
  - by rewrite app_nil_r.
Qed.

(** Binding a runtime's tools to a registry is atomic: when it fails, the registry
    has the entries it had and the runtime the references it had; when it
    succeeds, the registry has one more entry per tool of the catalog, in order,
    each with the tool's contract, the given policy, the capability the bridge
    requires and the forwarding handlers, and the runtime one more reference per
    tool, all given back when these entries are released. *)
Theorem bridge_atomic (rt : runtime) (e : E) (p : turbo_tool_execution_policy) (r : registry) (o : oracle) :
  registry_wf r -> 1 <= ref_count rt -> ref_count rt + Z.of_nat (tool_count rt) <= UINT64_MAX ->
  let '(status, out, w', _) := add_to_registry (Some r) (Some p) (mk_world (Some rt) e) o in
  exists r', out = Some r' /\ registry_wf r' /\
  (status <> TURBO_TOOL_OK -> entries r' = entries r /\ w' = mk_world (Some rt) e) /\
  (status = TURBO_TOOL_OK -> exists new,
     entries r' = entries r ++ new /\ length new = tool_count rt /\
     (forall i x, new !! i = Some x -> exists tool,
        get_tool (Some rt) (Z.of_nat i) = (TURBO_TOOL_OK, tool) /\ bridge_of rt p tool x) /\
     (exists rt', w' = mk_world (Some rt') e /\
        ref_count rt' = ref_count rt + Z.of_nat (tool_count rt) /\ rt_impl rt' = rt_impl rt) /\
     foldl (fun w x => turbo_tool_registry_free_entry x w) w' new = mk_world (Some rt) e).
Proof.
  intros Hwf Hrc Hmax. pose proof (add_to_registry_spec rt e p r o Hwf Hrc Hmax) as Hspec.
  destruct (add_to_registry (Some r) (Some p) _ o) as [[[status out] w'] o'].
  destruct Hspec as (r' & -> & Hwf' & Hcase). exists r'. split; [done|]. split; [done|].
  destruct Hcase as [(Hs & Ee & ->)|(-> & l & Hlen & Hl & Ee & ->)]; [by split|].
  split; [done|]. intros _. exists l. split; [done|]. split; [done|]. split; [|split].
  - intros i x Hx. unfold bridged in Hl. rewrite Forall2_lookup in Hl. specialize (Hl i).
    rewrite Hx in Hl. inversion Hl as [k ? Hk Hi|]; subst. symmetry in Hi.
    apply lookup_seq in Hi as [-> _]. exact Hk.
  - by eexists.
  - rewrite <- Hlen, (release_bridged rt p e l Hrc 0 Hl). apply held_0.
Qed.

(** ** The native runtime behind its bridge *)

(** The runtime [turbo_tool_runtime_native_create] makes, its registry and count
    aside. *)
Definition native_runtime (n : Z) (rn : turbo_tool_registry (J := J) (W := E)) : runtime :=
  let v := turbo_tool_runtime_native_vtable in
  mk_runtime n (vt2_base (vt3_base (vt4_base v))) (Some (vt3_base (vt4_base v))) (Some (vt4_base v))
    (Some NativeVtable) (NativeImpl rn).

(** A bridged execution has the native one's output and effect, and its status; a
    handler without a context only tells that it failed. *)
Definition agrees {A} (legacy : bool) (n : Z) (rn : turbo_tool_registry (J := J) (W := E))
    (b : executed (W := world) A) (x : executed (W := E) A) : Prop :=
  b.1.2 = x.1.2 /\ b.2 = mk_world (Some (native_runtime n rn)) x.2 /\
  (b.1.1 = x.1.1 \/ legacy = true /\ b.1.1 = TURBO_TOOL_ERROR /\ x.1.1 <> TURBO_TOOL_OK).

(** An output comes only with OK. *)
Definition discreet {A W} (x : executed (W := W) A) : Prop :=
  x.1.1 <> TURBO_TOOL_OK -> x.1.2 = None.

Lemma from_legacy_discreet {A W} (x : Z * option A * W) : discreet (from_legacy x).
Proof. destruct x as [[rc out] w]. unfold discreet, from_legacy. by destruct (rc =? 0). Qed.

Lemma from_context_discreet {A W} (x : turbo_tool_status * option A * W) : discreet (from_context x).
Proof. destruct x as [[s out] w]. unfold discreet, from_context. by case_bool_decide. Qed.

#[local] Hint Resolve from_legacy_discreet from_context_discreet : core.

Lemma agrees_context {A} n rn (x : executed (W := E) A) : discreet x ->
  agrees false n rn
    (from_context (let '(s, out, e) := x in (s, out, mk_world (Some (native_runtime n rn)) e))) x.
Proof.
  destruct x as [[s out] e]. unfold discreet, agrees. cbn. intros Hd. case_bool_decide as Hs; cbn.
  - by split_and!; try left.
  - rewrite (Hd Hs). by split_and!; try left.
Qed.

Lemma agrees_legacy {A} n rn (x : executed (W := E) A) : discreet x ->
  agrees true n rn
    (from_legacy (legacy_code
       (let '(s, out, e) := x in (s, out, mk_world (Some (native_runtime n rn)) e)))) x.
Proof.
  destruct x as [[s out] e]. unfold discreet, agrees. cbn. intros Hd. case_bool_decide as Hs; cbn.
  - by split_and!; try left.
  - rewrite (Hd Hs). by split_and!; try right.
Qed.

(** ** Lookup by names alone *)

Definition same_names {W W'} (l : list (turbo_tool_entry (J := J) (W := W)))
    (l' : list (turbo_tool_entry (J := J) (W := W'))) : Prop :=
  Forall2 (fun x y => e_name x = e_name y) l l'.

Lemma same_names_fmap {W W'} (l : list (turbo_tool_entry (J := J) (W := W)))
    (l' : list (turbo_tool_entry (J := J) (W := W'))) :
  same_names l l' -> e_name <$> l = e_name <$> l'.
Proof. induction 1 as [|x y l l' E1 Hs IH]; [done|]. rewrite !fmap_cons. by f_equal. Qed.

Lemma find_same_names {W W'} (r : turbo_tool_registry (J := J) (W := W))
    (r' : turbo_tool_registry (J := J) (W := W')) name :
  same_names (entries r) (entries r') ->
  turbo_tool_registry_find (Some r) name = turbo_tool_registry_find (Some r') name.
Proof.
  intros Hall. destruct name as [name|]; [|done]. unfold turbo_tool_registry_find.
  revert Hall. generalize (entries r) as l, (entries r') as l'. intros l l' Hall.
  assert (Hex : forall i, find_exact i l name = find_exact i l' name).
  { induction Hall as [|x y l l' Hn Hall IH]; intros i; cbn; [done|].
    rewrite Hn, IH. done. }
  assert (Hsc : forall i m k,
    scan_compatible i l name m k = scan_compatible i l' name m k).
  { clear Hex. induction Hall as [|x y l l' Hn Hall IH]; intros i m k; cbn; [done|].
    by rewrite Hn, !IH. }
  by rewrite Hex, Hsc.
Qed.

Lemma found_same_names {W W'} (r : turbo_tool_registry (J := J) (W := W))
    (r' : turbo_tool_registry (J := J) (W := W')) name :
  same_names (entries r) (entries r') ->
  option_Forall2 (fun x y => e_name x = e_name y) (found (Some r) name) (found (Some r') name).
Proof.
  intros Hall. unfold found. rewrite (find_same_names r r' name Hall).
  destruct (turbo_tool_registry_find (Some r') name) as [i|]; [|constructor]. cbn.
  by apply Forall2_lookup.
Qed.

(** ** Transparency *)

Lemma found_at {W} (r : turbo_tool_registry (J := J) (W := W)) i x :
  NoDup (e_name <$> entries r) -> entries r !! i = Some x ->
  found (Some r) (Some (e_name x)) = Some x.
Proof.
  intros Hnd Hi. unfold found, turbo_tool_registry_find.
  by rewrite (find_exact_unique _ _ i x Hnd Hi eq_refl).
Qed.

(** What the native catalog shows of an entry. *)
Definition native_tool (x : turbo_tool_entry (J := J) (W := E)) : turbo_tool_runtime_tool_v3 (J := J) :=
  mk_tool_v3 sizeof_runtime_tool_v3 TURBO_TOOL_RUNTIME_TOOL_V3_ABI_VERSION
    (mk_tool_v2 sizeof_runtime_tool_v2 TURBO_TOOL_RUNTIME_TOOL_V2_ABI_VERSION
       (tool_of_definition (view x)) (e_result_schema_json x) (e_strict_result x))
    (e_effect_flags x).

Abbreviation native_wf := (ToolRegistryFacts.registry_wf (W := E) sizeof_native_projection).

Lemma native_get_tool n (rn : turbo_tool_registry (J := J) (W := E)) i : native_wf rn ->
  get_tool (Some (native_runtime n rn)) (Z.of_nat i) =
  match entries rn !! i with
  | Some x => (TURBO_TOOL_OK, native_tool x)
  | None => (TURBO_TOOL_NOT_FOUND,
             mk_tool_v3 sizeof_runtime_tool_v3 TURBO_TOOL_RUNTIME_TOOL_V3_ABI_VERSION zero_tool_v2 0)
  end.
Proof.
  intros Hwf. unfold turbo_tool_runtime_get_tool_v3.
  cbn [rt_vtable_v4 native_runtime vtable_v4 vt4_get_tool_v3 turbo_tool_runtime_native_vtable default
    from_option rt_impl].
  unfold id, turbo_tool_runtime_native_get_tool_v3, turbo_tool_runtime_native_get_tool_v2.
  destruct (entries rn !! i) as [x|] eqn:Ei.
  - rewrite (get_definition_view rn i x Ei). unfold turbo_tool_registry_get_result_contract,
      turbo_tool_registry_get_effects, read_entry. cbn [view d_name t2_base t_name tool_of_definition].
    pose proof (found_at rn i x (wf_names _ _ Hwf) Ei) as Hat. rewrite Hat.
    cbn -[found turbo_tool_runtime_effect_flags_valid]. rewrite Hat.
    cbn -[turbo_tool_runtime_effect_flags_valid].
    pose proof (wf_entries _ _ Hwf) as Hall. rewrite Forall_lookup in Hall.
    destruct (wf_effects _ _ (Hall _ _ Ei)) as [Hv Hne].
    change (turbo_tool_runtime_effect_flags_valid (e_effect_flags x)) with
      (turbo_tool_effect_flags_valid (e_effect_flags x)).
    apply Z.eqb_neq in Hne. by rewrite Hv, Hne.
  - apply lookup_ge_None in Ei. unfold turbo_tool_registry_get_definition.
    by rewrite (proj2 (Z.leb_le _ _)) by lia.
Qed.

(** The native runtime's own operations are its registry's. *)
Lemma native_create_spec (e : E) (o : oracle) :
  turbo_tool_runtime_native_create (J := J) (I := I) e o =
  let (impl, o) := alloc o in
  let (created, o) := if impl then alloc o else (false, o) in
  let (runtime, o) := if created then alloc o else (false, o) in
  (if runtime then Some (native_runtime 1 (mk_registry [] 0)) else None, e, o).
Proof.
  unfold turbo_tool_runtime_native_create, turbo_tool_registry_create.
  destruct (alloc o) as [[] o1]; [|done]. cbn [negb]. destruct (alloc o1) as [[] o2]; [|done].
  unfold turbo_tool_runtime_create_v4, new_runtime. cbn -[alloc]. by destruct (alloc o2) as [[] o3].
Qed.

Lemma native_add_tool_spec n rn (e : E) d (o : oracle) :
  turbo_tool_runtime_native_add_tool (I := I) (mk_world (Some (native_runtime n rn)) e) (Some d) o =
  let '(s, r', o') := turbo_tool_registry_add (Some rn) (Some d) o in
  (s, mk_world (Some (native_runtime n (default rn r'))) e, o').
Proof. done. Qed.

(** The registry has one forwarding entry per tool of the native registry. *)
Definition forwards (n : Z) (rn : turbo_tool_registry (J := J) (W := E)) (r : registry) : Prop :=
  length (entries r) = length (entries rn) /\
  exists p, bridged (native_runtime n rn) p 0 (entries r).

Lemma forwards_names n rn r : native_wf rn -> forwards n rn r -> same_names (entries r) (entries rn).
Proof.
  intros Hwf [Hlen [p Hl]]. apply Forall2_same_length_lookup. split; [done|].
  intros i x y Hx Hy. unfold bridged in Hl. rewrite Forall2_lookup in Hl. specialize (Hl i).
  rewrite Hx in Hl. inversion Hl as [k ? Hk Hi|]; subst. symmetry in Hi.
  apply lookup_seq in Hi as [-> _]. destruct Hk as (tool & Ht & Hb). cbn [Nat.add] in Ht.
  rewrite native_get_tool, Hy in Ht by done. injection Ht as <-.
  pose proof (bo_name _ _ _ _ Hb) as Hn. by injection Hn as <-.
Qed.

(** The entry a name finds forwards to the one the native registry finds. *)
Lemma forwards_found n rn (r : registry) name : native_wf rn -> forwards n rn r ->
  match found (Some rn) name with
  | Some y => found (Some rn) (Some (e_name y)) = Some y /\ exists x p tool,
      found (Some r) name = Some x /\ e_name x = e_name y /\ bridge_of (native_runtime n rn) p tool x
  | None => found (Some r) name = None
  end.
Proof.
  intros Hwf Hf. pose proof (found_same_names r rn name (forwards_names _ _ _ Hwf Hf)) as Hs.
  destruct (found (Some rn) name) as [y|] eqn:Ey;
    [|destruct (found (Some r) name); [by inversion Hs|done]].
  destruct (found (Some r) name) as [x|] eqn:Ex; [|by inversion Hs].
  inversion Hs as [? ? Hn|]; subst.
  split; [by apply (found_canonical rn name y (wf_names _ _ Hwf))|].
  destruct Hf as [_ [p Hl]]. apply found_member in Ex. apply list_elem_of_lookup in Ex as [i Hi].
  unfold bridged in Hl. eapply Forall2_lookup_r in Hl as (k & _ & tool & _ & Hb); [|exact Hi].
  by exists x, p, tool.
Qed.

(** Every entry point of the bridge agrees with the native registry's. *)
Definition transparent (m : Z) (rn : turbo_tool_registry (J := J) (W := E)) (r : registry) (e : E)
  : Prop :=
  let w : world := mk_world (Some (native_runtime m rn)) e in
  forall (name text : option string) (arg : option J) (context : option turbo_tool_execution_context)
    (present : bool),
  agrees true m rn (turbo_tool_registry_execute (Some r) name text present w)
    (turbo_tool_registry_execute (Some rn) name text present e) /\
  agrees false m rn (turbo_tool_registry_execute_with_context (Some r) name text context present w)
    (turbo_tool_registry_execute_with_context (Some rn) name text context present e) /\
  agrees true m rn (turbo_tool_registry_execute_json_value (Some r) name arg present w)
    (turbo_tool_registry_execute_json_value (Some rn) name arg present e) /\
  agrees false m rn
    (turbo_tool_registry_execute_json_value_with_context (Some r) name arg context present w)
    (turbo_tool_registry_execute_json_value_with_context (Some rn) name arg context present e).

Lemma agrees_refused {A} legacy m rn s e :
  agrees (A := A) legacy m rn (s, None, mk_world (Some (native_runtime m rn)) e) (s, None, e).
Proof. by split_and!; try left. Qed.

Ltac discreet_tac :=
  unfold turbo_tool_registry_execute, turbo_tool_registry_execute_with_context,
    turbo_tool_registry_execute_json_value, turbo_tool_registry_execute_json_value_with_context;
  repeat case_match; auto; by intros ?.

(** Calls of the native runtime are calls of its registry. *)
Ltac invoke_tac :=
  unfold turbo_tool_runtime_invoke, turbo_tool_runtime_invoke_with_context,
    turbo_tool_runtime_invoke_json_value, turbo_tool_runtime_invoke_json_value_with_context,
    call_runtime; cbn -[turbo_tool_registry_execute turbo_tool_registry_execute_with_context
      turbo_tool_registry_execute_json_value turbo_tool_registry_execute_json_value_with_context];
  lazymatch goal with
  | |- context [turbo_tool_registry_execute ?a ?b ?c ?d ?f] =>
      by destruct (turbo_tool_registry_execute a b c d f) as [[? ?] ?]
  | |- context [turbo_tool_registry_execute_with_context ?a ?b ?c ?d ?f ?g] =>
      by destruct (turbo_tool_registry_execute_with_context a b c d f g) as [[? ?] ?]
  | |- context [turbo_tool_registry_execute_json_value ?a ?b ?c ?d ?f] =>
      by destruct (turbo_tool_registry_execute_json_value a b c d f) as [[? ?] ?]
  | |- context [turbo_tool_registry_execute_json_value_with_context ?a ?b ?c ?d ?f ?g] =>
      by destruct (turbo_tool_registry_execute_json_value_with_context a b c d f g) as [[? ?] ?]
  end.

(** A registry call by any name that finds [y] is the call by the name of [y]. *)
Ltac rename_tac Hy Hf :=
  unfold turbo_tool_registry_execute, turbo_tool_registry_execute_with_context,
    turbo_tool_registry_execute_json_value, turbo_tool_registry_execute_json_value_with_context;
  rewrite Hy, Hf; cbn; reflexivity.

Section calls.
Context (m : Z) (rn : turbo_tool_registry (J := J) (W := E)) (e : E).
Abbreviation w := (mk_world (Some (native_runtime m rn)) e).
Abbreviation lifted x := (let '(s, out, e) := x in (s, out, mk_world (Some (native_runtime m rn)) e)).

Lemma native_invoke name args :
  turbo_tool_runtime_invoke (Some name) (Some args) true w =
  lifted (turbo_tool_registry_execute (Some rn) (Some name) (Some args) true e).
Proof. invoke_tac. Qed.

Lemma native_invoke_with_context name args context :
  turbo_tool_runtime_invoke_with_context (Some name) (Some args) context true w =
  lifted (turbo_tool_registry_execute_with_context (Some rn) (Some name) (Some args) context true e).
Proof. invoke_tac. Qed.

Lemma native_invoke_json_value name args :
  turbo_tool_runtime_invoke_json_value (Some name) args true w =
  lifted (turbo_tool_registry_execute_json_value (Some rn) (Some name) args true e).
Proof. invoke_tac. Qed.

Lemma native_invoke_json_value_with_context name args context :
  turbo_tool_runtime_invoke_json_value_with_context (Some name) args context true w =
  lifted (turbo_tool_registry_execute_json_value_with_context (Some rn) (Some name) args context true e).
Proof. invoke_tac. Qed.

(** The four entry points, for a tool both registries find. *)
Lemma found_transparent rt p tool name text arg context (r : registry) x y :
  found (Some r) (Some name) = Some x -> found (Some rn) (Some name) = Some y ->
  found (Some rn) (Some (e_name y)) = Some y -> e_name x = e_name y ->
  bridge_of rt p tool x ->
  agrees true m rn (turbo_tool_registry_execute (Some r) (Some name) text true w)
    (turbo_tool_registry_execute (Some rn) (Some name) text true e) /\
  agrees false m rn (turbo_tool_registry_execute_with_context (Some r) (Some name) text context true w)
    (turbo_tool_registry_execute_with_context (Some rn) (Some name) text context true e) /\
  agrees true m rn (turbo_tool_registry_execute_json_value (Some r) (Some name) arg true w)
    (turbo_tool_registry_execute_json_value (Some rn) (Some name) arg true e) /\
  agrees false m rn
    (turbo_tool_registry_execute_json_value_with_context (Some r) (Some name) arg context true w)
    (turbo_tool_registry_execute_json_value_with_context (Some rn) (Some name) arg context true e).
Proof.
  intros Hx Hy Hc Hn [? ? ? ? ? ? ? ? ? Eh Ejh Ech Ejch]. rewrite Hn in *.
  split; [|split; [|split]].
  - replace (turbo_tool_registry_execute (Some rn) (Some name) text true e) with
      (turbo_tool_registry_execute (Some rn) (Some (e_name y)) (Some (default "{}" text)) true e)
      by (rename_tac Hc Hy).
    unfold turbo_tool_registry_execute at 1. rewrite Hx, Eh. cbn [bool_decide andb negb].
    unfold turbo_tool_runtime_bridge_handler. rewrite native_invoke. apply agrees_legacy. discreet_tac.
  - replace (turbo_tool_registry_execute_with_context (Some rn) (Some name) text context true e) with
      (turbo_tool_registry_execute_with_context (Some rn) (Some (e_name y)) (Some (default "{}" text))
         context true e) by (rename_tac Hc Hy).
    unfold turbo_tool_registry_execute_with_context at 1. rewrite Hx, Ech. cbn [bool_decide andb].
    destruct (turbo_tool_execution_context_valid context) eqn:Ev; cbn [negb].
    + unfold turbo_tool_runtime_bridge_context_handler. rewrite native_invoke_with_context.
      apply agrees_context. discreet_tac.
    + unfold turbo_tool_registry_execute_with_context. rewrite Ev. apply agrees_refused.
  - replace (turbo_tool_registry_execute_json_value (Some rn) (Some name) arg true e) with
      (turbo_tool_registry_execute_json_value (Some rn) (Some (e_name y)) arg true e)
      by (rename_tac Hc Hy).
    unfold turbo_tool_registry_execute_json_value at 1. rewrite Hx, Ejh. cbn [bool_decide andb negb].
    unfold turbo_tool_runtime_bridge_json_value_handler. rewrite native_invoke_json_value.
    apply agrees_legacy. discreet_tac.
  - replace (turbo_tool_registry_execute_json_value_with_context (Some rn) (Some name) arg context true e)
      with (turbo_tool_registry_execute_json_value_with_context (Some rn) (Some (e_name y)) arg
         context true e) by (rename_tac Hc Hy).
    unfold turbo_tool_registry_execute_json_value_with_context at 1. rewrite Hx, Ejch.
    cbn [bool_decide andb]. destruct (turbo_tool_execution_context_valid context) eqn:Ev; cbn [negb].
    + unfold turbo_tool_runtime_bridge_json_value_context_handler.
      rewrite native_invoke_json_value_with_context. apply agrees_context. discreet_tac.
    + unfold turbo_tool_registry_execute_json_value_with_context. rewrite Ev. apply agrees_refused.
Qed.

End calls.

Lemma forwards_transparent n m rn (r : registry) e : native_wf rn -> forwards n rn r ->
  transparent m rn r e.
Proof.
  intros Hwf Hf name text arg context present.
  destruct name as [name|]; [destruct present|];
    [|split_and!; apply agrees_refused..].
  pose proof (forwards_found n rn r (Some name) Hwf Hf) as Hfound.
  destruct (found (Some rn) (Some name)) as [y|] eqn:Ey.
  - destruct Hfound as (Hy & x & p & tool & Hx & Hn & Hb).
    by apply (found_transparent m rn e _ p tool _ _ _ _ r x y Hx Ey Hy Hn Hb).
  - unfold turbo_tool_registry_execute, turbo_tool_registry_execute_with_context,
      turbo_tool_registry_execute_json_value, turbo_tool_registry_execute_json_value_with_context.
    rewrite Ey, Hfound.
    destruct (turbo_tool_execution_context_valid context); split_and!; apply agrees_refused.
Qed.

Abbreviation build_registry_bridge :=
  (turbo_tool_runtime_build_registry_bridge (J := J) (E := E) (I := I) sizeof_native_projection).

Lemma build_forwards n rn e o r w' o' : native_wf rn -> 1 <= n ->
  n + Z.of_nat (length (entries rn)) <= UINT64_MAX ->
  build_registry_bridge (mk_world (Some (native_runtime n rn)) e) o = (Some r, w', o') ->
  registry_wf r /\ forwards n rn r /\
  w' = mk_world (Some (native_runtime (n + Z.of_nat (length (entries rn))) rn)) e.
Proof.
  intros Hwf Hn Hmax. unfold turbo_tool_runtime_build_registry_bridge. cbn [rw_runtime].
  unfold turbo_tool_registry_create. destruct (alloc o) as [[] o1]; [|done].
  set (p := mk_policy _ _). set (r0 := mk_registry [] 0 : registry).
  assert (Hwf0 : registry_wf r0) by (split; cbn; [done|constructor|unfold INT64_MAX; lia]).
  assert (Hcount : tool_count (native_runtime n rn) = length (entries rn)) by (cbn; lia).
  pose proof (add_to_registry_spec (native_runtime n rn) e p r0 o1 Hwf0 Hn) as Hspec.
  rewrite Hcount in Hspec. specialize (Hspec Hmax).
  destruct (add_to_registry (Some r0) (Some p) _ o1) as [[[s out] w1] o2].
  destruct Hspec as (r1 & -> & Hwf1 & [(Hs & _)|(-> & l & Hlen & Hl & Ee & ->)]); [by destruct s|].
  intros [= <- <- <-]. cbn in Ee. subst l. split; [done|]. split; [|done].
  split; [done|]. by exists p.
Qed.

(** C39. The registry bridged to a native runtime is transparent: it has the native
    registry's names in order and, at any later environment and reference count,
    executing through any entry point gives the native registry's output and
    effect, and its status, except that handlers without a context report every
    failure as ERROR. *)
Theorem bridge_transparent (n : Z) (rn : turbo_tool_registry (J := J) (W := E)) (e : E) (o : oracle)
    (r : registry) (w' : world) (o' : oracle) :
  native_wf rn -> 1 <= n -> n + Z.of_nat (length (entries rn)) <= UINT64_MAX ->
  build_registry_bridge (mk_world (Some (native_runtime n rn)) e) o = (Some r, w', o') ->
  e_name <$> entries r = e_name <$> entries rn /\
  (forall m e', transparent m rn r e') /\
  turbo_tool_registry_destroy (Some r) w' = mk_world (Some (native_runtime n rn)) e.
Proof.
  intros Hwf Hn Hmax Hb. destruct (build_forwards n rn e o r w' o' Hwf Hn Hmax Hb) as (Hr & Hf & ->).
  split; [|split].
  - apply same_names_fmap. by eapply forwards_names.
  - intros m e'. by eapply forwards_transparent.
  - destruct Hf as [Hlen [p Hl]].
    pose proof (release_bridged (native_runtime n rn) p e (entries r) Hn 0 Hl) as Hrel.
    rewrite held_0 in Hrel. rewrite <- Hrel. unfold held. rewrite Hlen. done.
Qed.

End facts.

(** ** Concrete runs

    The native runtime with the two tools of [ToolRegistryRuns] is bridged. *)

Module ToolRuntimeRuns.
Import JsonTree CmetaToy.
Import ToolRegistryRuns.

Abbreviation toy_world := (runtime_world (J := jtree) (E := world) (I := unit)).
Abbreviation toy_runtime := (turbo_tool_runtime (J := jtree) (E := world) (I := unit)).
Abbreviation toy_bridge := (turbo_tool_registry (J := jtree) (W := toy_world)).

Definition rt : toy_runtime := native_runtime 1 two.
Definition start : toy_world := mk_world (Some rt) [].
Definition empty : toy_bridge := mk_registry [] 0.

Example native_created :
  turbo_tool_runtime_native_create (I := unit) [] [] = (Some (native_runtime 1 none), [], []).
Proof. exact (native_create_spec (I := unit) [] []). Qed.

(** Binding to an empty registry when the [n]-th allocation fails: the status, the
    entries left, and the references held. *)
Definition starved (n : nat) : turbo_tool_status * list string * option Z :=
  let '(s, r, w, _) := turbo_tool_runtime_add_to_registry 40 (Some empty)
    (Some legacy_policy) start (repeat true n ++ [false]) in
  (s, default [] (fmap e_name ∘ entries <$> r), ref_count <$> rw_runtime w).

Example bind_rolled_back :
  map starved [0; 8; 12; 40]%nat =
  [(TURBO_TOOL_OUT_OF_MEMORY, [], Some 1); (TURBO_TOOL_OUT_OF_MEMORY, [], Some 1);
   (TURBO_TOOL_OUT_OF_MEMORY, [], Some 1); (TURBO_TOOL_OK, ["a_b"; "a.b"], Some 3)].
Proof. vm_compute. reflexivity. Qed.

Definition bridge : option toy_bridge * toy_world * oracle :=
  turbo_tool_runtime_build_registry_bridge 40 start [].
Definition bridge_registry : toy_bridge := default empty bridge.1.1.

Lemma bridge_built : bridge = (Some bridge_registry, bridge.1.2, bridge.2).
Proof.
  assert (Hok : (if bridge.1.1 is Some _ then true else false) = true) by (vm_compute; reflexivity).
  unfold bridge_registry. destruct bridge as [[[r|] w] o]; [reflexivity|discriminate].
Qed.

Lemma two_wf : registry_wf 40 two.
Proof. exact (built_registry_wf 40 two two_built). Qed.

Lemma empty_wf : registry_wf 40 empty.
Proof. split; cbn; [done|constructor|unfold INT64_MAX; lia]. Qed.

Lemma bridge_atomic_witness :
  registry_wf 40 empty /\ 1 <= ref_count rt /\
  let '(s, out, w', _) :=
    turbo_tool_runtime_add_to_registry 40 (Some empty) (Some legacy_policy) start [] in
  exists r' rt', out = Some r' /\ length (entries r') = 2%nat /\ w' = mk_world (Some rt') [] /\
    ref_count rt' = 3.
Proof.
  split; [exact empty_wf|]. split; [cbn; lia|].
  pose proof (bridge_atomic 40 rt [] legacy_policy empty [] empty_wf ltac:(cbn; lia)
    ltac:(vm_compute; discriminate)) as Hatomic.
  assert (Hs : (turbo_tool_runtime_add_to_registry 40 (Some empty) (Some legacy_policy) start []).1.1.1 =
    TURBO_TOOL_OK) by (vm_compute; reflexivity).
  change (mk_world (Some rt) []) with start in Hatomic.
  destruct (turbo_tool_runtime_add_to_registry 40 (Some empty) (Some legacy_policy) start [])
    as [[[s out] w'] o'].
  cbn [fst] in Hs. destruct Hatomic as (r' & Hout & _ & _ & Hok).
  destruct (Hok Hs) as (new & Ee & Hlen & _ & (rt' & Hw & Hrc & _) & _).
  exists r', rt'. split; [exact Hout|]. split; [|split; [exact Hw|]].
  - rewrite Ee. exact Hlen.
  - exact Hrc.
Defined.

Lemma bridge_transparent_witness :
  e_name <$> entries bridge_registry = ["a_b"; "a.b"] /\
  let '(s, out, w) := turbo_tool_registry_execute (Some bridge_registry) (Some "a.b") None true
    (mk_world (Some (native_runtime 3 two)) ["earlier"]) in
  (s, out, w) = (TURBO_TOOL_OK, Some "{}", mk_world (Some (native_runtime 3 two)) ["earlier"; "{}"]).
Proof.
  destruct (bridge_transparent 40 1 two [] [] bridge_registry bridge.1.2 bridge.2 two_wf ltac:(lia)
    ltac:(vm_compute; discriminate) bridge_built) as (Hn & Ht & _).
  split; [rewrite Hn; reflexivity|].
  destruct (Ht 3 ["earlier"] (Some "a.b") None None None true) as [(Hout & Hw & Hs) _].
  assert (Hx : turbo_tool_registry_execute (Some two) (Some "a.b") None true ["earlier"] =
    (TURBO_TOOL_OK, Some "{}", ["earlier"; "{}"])) by (vm_compute; reflexivity).
  rewrite Hx in *. destruct (turbo_tool_registry_execute _ _ _ _ _) as [[s out] w'].
  cbn [fst snd] in Hout, Hw, Hs. subst out w'.
  destruct Hs as [->|(_ & _ & Hne)]; [reflexivity|]. destruct (Hne eq_refl).
Defined.

End ToolRuntimeRuns.
