(* ===== verification/ToolSchema.v ===== *)
(** * Validation of JSON values against tool schemas (turbo_tool_schema.c)

    The evaluator of the JSON-Schema subset that tool contracts use.  A check
    answers [None] to go on, or the failure: its status and the diagnostic text
    it writes.  The recursion is bounded by the code's own depth limit, so no
    fuel is added: [fuel] is [TURBO_TOOL_SCHEMA_MAX_DEPTH + 1 - depth].

    The specification, [admits], says what each keyword means; the theorems
    compare the evaluator with it. *)

From S2P Require Import Prelude RuntimeJson Tool ToolRegistry.

#[local] Open Scope string_scope.
#[local] Open Scope Z_scope.

(* src/runtime_tools/include/turbo_tool_schema.h 16-22 turbo_tool_schema_validation_status_t *)
Inductive turbo_tool_schema_validation_status : Type :=
| TURBO_TOOL_SCHEMA_VALID
| TURBO_TOOL_SCHEMA_VALUE_INVALID
| TURBO_TOOL_SCHEMA_INVALID_ARGUMENT
| TURBO_TOOL_SCHEMA_INVALID_SCHEMA
| TURBO_TOOL_SCHEMA_UNSUPPORTED.

#[global] Instance schema_status_eq_dec : EqDecision turbo_tool_schema_validation_status.
Proof. solve_decision. Defined.

(* src/runtime_tools/src/turbo_tool_schema.c 9-9 TURBO_TOOL_SCHEMA_MAX_DEPTH *)
Definition TURBO_TOOL_SCHEMA_MAX_DEPTH : nat := 64.

(* src/runtime_tools/src/turbo_tool_schema.c 10-10 TURBO_TOOL_SCHEMA_MAX_SAFE_INTEGER *)
Definition TURBO_TOOL_SCHEMA_MAX_SAFE_INTEGER : Z := 9007199254740991.

(** ** Diagnostics *)

(** The text formatted for a message and its detail. *)
(* src/runtime_tools/src/turbo_tool_schema.c 94-99 turbo_tool_schema_diagnostic *)
Definition diagnostic_text (message : string) (detail : option string) : string :=
  match detail with
  | Some (String a s) => message ++ ": " ++ String a s
  | _ => message
  end.

(** What [snprintf] leaves in the caller's buffer: [None] is no buffer, and the
    text is cut to the capacity with its terminator. *)
(* src/runtime_tools/src/turbo_tool_schema.c 90-100 turbo_tool_schema_diagnostic *)
Definition turbo_tool_schema_diagnostic (capacity : option Z) (text : string) : option string :=
  match capacity with
  | None => None
  | Some c => if c =? 0 then None else Some (String.substring 0 (Z.to_nat (c - 1)) text)
  end.

Definition failure : Type := turbo_tool_schema_validation_status * string.

Definition fail_with (status : turbo_tool_schema_validation_status) (message : string)
    (detail : option string) : option failure :=
  Some (status, diagnostic_text message detail).

(** Sequencing: the first failure is the answer. *)
Definition and_then (a b : option failure) : option failure :=
  match a with Some f => Some f | None => b end.

Declare Scope check_scope.
Notation "a ';;?' b" := (and_then a b) (at level 100, b at level 200, right associativity)
  : check_scope.
#[local] Open Scope check_scope.

(** A loop over a list that stops at the first failure. *)
Fixpoint first_failure {A} (f : A -> option failure) (l : list A) : option failure :=
  match l with
  | [] => None
  | x :: l => f x ;;? first_failure f l
  end.

(** ** Keywords *)

(* src/runtime_tools/src/turbo_tool_schema.c 102-112 turbo_tool_schema_annotation_keyword *)
Definition turbo_tool_schema_annotation_keyword (key : string) : bool :=
  bool_decide (key ∈ ["$id"; "$schema"; "title"; "description"; "default"; "examples";
                      "deprecated"; "readOnly"; "writeOnly"]).

(* src/runtime_tools/src/turbo_tool_schema.c 114-127 turbo_tool_schema_supported_keyword *)
Definition turbo_tool_schema_supported_keyword (key : string) : bool :=
  turbo_tool_schema_annotation_keyword key
  || bool_decide (key ∈ ["type"; "properties"; "required"; "additionalProperties"; "items";
                         "enum"; "const"; "minimum"; "maximum"; "exclusiveMinimum";
                         "exclusiveMaximum"; "minLength"; "maxLength"; "minItems"; "maxItems";
                         "minProperties"; "maxProperties"]).

(** Bytes that are not UTF-8 continuation bytes. *)
(* src/runtime_tools/src/turbo_tool_schema.c 197-206 turbo_tool_schema_utf8_codepoint_count *)
Fixpoint turbo_tool_schema_utf8_codepoint_count (text : string) : Z :=
  match text with
  | EmptyString => 0
  | String c text =>
      (if Z.land (char_code c) 192 =? 128 then 0 else 1)
      + turbo_tool_schema_utf8_codepoint_count text
  end.

Section schema.
Context {J : Type} `{JsonApi J, !JsonMembers J}.

(* src/runtime_tools/src/turbo_tool_schema.c 129-149 turbo_tool_schema_check_keywords *)
Definition turbo_tool_schema_check_keywords (schema : J) : option failure :=
  if negb (bool_decide (json_type schema = JSON_OBJECT))
  then fail_with TURBO_TOOL_SCHEMA_INVALID_SCHEMA "parameter schema must be an object" None
  else
    first_failure
      (fun kv => if turbo_tool_schema_supported_keyword kv.1 then None
                 else fail_with TURBO_TOOL_SCHEMA_UNSUPPORTED
                        "unsupported parameter-schema keyword" (Some kv.1))
      (json_members schema).

(** ** Equality of values

    The two values are parts of different documents, so the pointer test of the
    code never succeeds.  Deeper than the limit the answer is "different". *)

Section equal_items.
Variable eq : J -> J -> bool.

(* src/runtime_tools/src/turbo_tool_schema.c 170-177 turbo_tool_schema_json_equal *)
Fixpoint equal_items (l r : list J) : bool :=
  match l, r with
  | [], _ => true
  | x :: l, y :: r => if negb (eq x y) then false else equal_items l r
  | _ :: _, [] => false
  end.

(* src/runtime_tools/src/turbo_tool_schema.c 180-191 turbo_tool_schema_json_equal *)
Fixpoint equal_members (l : list (string * J)) (rhs : J) : bool :=
  match l with
  | [] => true
  | (key, v) :: l =>
      match json_object_get rhs key with
      | Some right_value => if negb (eq v right_value) then false else equal_members l rhs
      | None => false
      end
  end.
End equal_items.

(* src/runtime_tools/src/turbo_tool_schema.c 151-195 turbo_tool_schema_json_equal *)
Fixpoint turbo_tool_schema_json_equal (fuel : nat) (lhs rhs : J) : bool :=
  match fuel with
  | O => false
  | S fuel =>
      if negb (bool_decide (json_type lhs = json_type rhs)) then false
      else
        match json_type lhs with
        | JSON_NULL => true
        | JSON_BOOL => Bool.eqb (json_bool lhs) (json_bool rhs)
        | JSON_NUMBER => double_eq (json_number lhs) (json_number rhs)
        | JSON_STRING => bool_decide (json_c_text lhs = json_c_text rhs)
        | JSON_ARRAY =>
            if negb (json_array_size lhs =? json_array_size rhs) then false
            else equal_items (turbo_tool_schema_json_equal fuel)
                   (json_array_items lhs) (json_array_items rhs)
        | JSON_OBJECT =>
            if negb (json_object_size lhs =? json_object_size rhs) then false
            else equal_members (turbo_tool_schema_json_equal fuel) (json_members lhs) rhs
        end
  end.

(** The call at depth 0. *)
Definition json_equal (lhs rhs : J) : bool :=
  turbo_tool_schema_json_equal (S TURBO_TOOL_SCHEMA_MAX_DEPTH) lhs rhs.

(** ** The keywords of a node *)

(** A size given by a schema; [integral > (double)SIZE_MAX] cannot be, as the
    safe integers are smaller. *)
(* src/runtime_tools/src/turbo_tool_schema.c 208-221 turbo_tool_schema_nonnegative_size *)
Definition turbo_tool_schema_nonnegative_size (value : J) : option Z :=
  if negb (bool_decide (json_type value = JSON_NUMBER)) then None
  else
    match double_integral (json_number value) with
    | Some n => if (n <? 0) || (TURBO_TOOL_SCHEMA_MAX_SAFE_INTEGER <? n) || (SIZE_MAX <? n)
                then None else Some n
    | None => None
    end.

(** [None]: the type is not one of the seven. *)
(* src/runtime_tools/src/turbo_tool_schema.c 223-255 turbo_tool_schema_type_matches *)
Definition turbo_tool_schema_type_matches (value : J) (type_name : string) : option bool :=
  if bool_decide (type_name = "object") then Some (bool_decide (json_type value = JSON_OBJECT))
  else if bool_decide (type_name = "array") then Some (bool_decide (json_type value = JSON_ARRAY))
  else if bool_decide (type_name = "string")
  then Some (bool_decide (json_type value = JSON_STRING))
  else if bool_decide (type_name = "number")
  then Some (bool_decide (json_type value = JSON_NUMBER) && isfinite (json_number value))
  else if bool_decide (type_name = "integer")
  then Some (bool_decide (json_type value = JSON_NUMBER)
             && bool_decide (is_Some (double_integral (json_number value))))
  else if bool_decide (type_name = "boolean") then Some (bool_decide (json_type value = JSON_BOOL))
  else if bool_decide (type_name = "null") then Some (bool_decide (json_type value = JSON_NULL))
  else None.

(** The loop over an array of types: a failure, or whether one matched. *)
(* src/runtime_tools/src/turbo_tool_schema.c 297-317 turbo_tool_schema_validate_node *)
Fixpoint match_types (value : J) (l : list J) : option failure + bool :=
  match l with
  | [] => inr false
  | entry :: l =>
      if negb (bool_decide (json_type entry = JSON_STRING))
      then inl (fail_with TURBO_TOOL_SCHEMA_INVALID_SCHEMA
                  "type array must contain strings" None)
      else
        match turbo_tool_schema_type_matches value (json_c_text entry) with
        | None => inl (fail_with TURBO_TOOL_SCHEMA_UNSUPPORTED "unsupported parameter type"
                         (Some (json_c_text entry)))
        | Some true => inr true
        | Some false => match_types value l
        end
  end.

(* src/runtime_tools/src/turbo_tool_schema.c 284-328 turbo_tool_schema_validate_node *)
Definition check_type (value schema : J) : option failure :=
  match json_object_get schema "type" with
  | None => None
  | Some type_schema =>
      let matched :=
        match json_type type_schema with
        | JSON_STRING =>
            match turbo_tool_schema_type_matches value (json_c_text type_schema) with
            | Some b => inr b
            | None => inl (fail_with TURBO_TOOL_SCHEMA_UNSUPPORTED "unsupported parameter type"
                             (Some (json_c_text type_schema)))
            end
        | JSON_ARRAY => match_types value (json_array_items type_schema)
        | _ => inl (fail_with TURBO_TOOL_SCHEMA_INVALID_SCHEMA
                      "type must be a string or string array" None)
        end in
      match matched with
      | inl f => f
      | inr true => None
      | inr false => fail_with TURBO_TOOL_SCHEMA_VALUE_INVALID "parameter type mismatch" None
      end
  end.

(* src/runtime_tools/src/turbo_tool_schema.c 330-349 turbo_tool_schema_validate_node *)
Definition check_enum (value schema : J) : option failure :=
  match json_object_get schema "enum" with
  | None => None
  | Some enum_values =>
      if negb (bool_decide (json_type enum_values = JSON_ARRAY))
         || (json_array_size enum_values =? 0)
      then fail_with TURBO_TOOL_SCHEMA_INVALID_SCHEMA "enum must be a non-empty array" None
      else if existsb (json_equal value) (json_array_items enum_values) then None
      else fail_with TURBO_TOOL_SCHEMA_VALUE_INVALID
             "parameter is not an admitted enum value" None
  end.

(* src/runtime_tools/src/turbo_tool_schema.c 351-356 turbo_tool_schema_validate_node *)
Definition check_const (value schema : J) : option failure :=
  match json_object_get schema "const" with
  | Some const_value =>
      if negb (json_equal value const_value)
      then fail_with TURBO_TOOL_SCHEMA_VALUE_INVALID "parameter does not match const" None
      else None
  | None => None
  end.

(* src/runtime_tools/src/turbo_tool_schema.c 364-366 turbo_tool_schema_validate_node *)
Definition numeric_bounds : list (string * bool * bool) :=
  [("minimum", false, true); ("maximum", false, false);
   ("exclusiveMinimum", true, true); ("exclusiveMaximum", true, false)].

(* src/runtime_tools/src/turbo_tool_schema.c 376-381 turbo_tool_schema_validate_node *)
Definition bound_violated (exclusive lower : bool) (number bound : cdouble) : bool :=
  (lower && (if exclusive then double_le number bound else double_lt number bound))
  || (negb lower && (if exclusive then double_le bound number else double_lt bound number)).

(* src/runtime_tools/src/turbo_tool_schema.c 368-386 turbo_tool_schema_validate_node *)
Definition check_numeric_bound (number : cdouble) (schema : J) (entry : string * bool * bool)
  : option failure :=
  let '(key, exclusive, lower) := entry in
  match json_object_get schema key with
  | None => None
  | Some bound =>
      if negb (bool_decide (json_type bound = JSON_NUMBER)) || negb (isfinite (json_number bound))
      then fail_with TURBO_TOOL_SCHEMA_INVALID_SCHEMA
             "numeric bound must be a finite number" (Some key)
      else if bound_violated exclusive lower number (json_number bound)
      then fail_with TURBO_TOOL_SCHEMA_VALUE_INVALID
             "parameter violates numeric bound" (Some key)
      else None
  end.

(** The three tables of size bounds: the key and whether it is a minimum. *)
(* src/runtime_tools/src/turbo_tool_schema.c 395-395 turbo_tool_schema_validate_node *)
Definition string_bounds : list (string * bool) := [("minLength", true); ("maxLength", false)].
(* src/runtime_tools/src/turbo_tool_schema.c 421-421 turbo_tool_schema_validate_node *)
Definition array_bounds : list (string * bool) := [("minItems", true); ("maxItems", false)].
(* src/runtime_tools/src/turbo_tool_schema.c 461-461 turbo_tool_schema_validate_node *)
Definition object_bounds : list (string * bool) :=
  [("minProperties", true); ("maxProperties", false)].

(** The body the three loops share, with their messages. *)
(* src/runtime_tools/src/turbo_tool_schema.c 396-413 turbo_tool_schema_validate_node *)
Definition check_size_bound (bad violated : string) (size : Z) (schema : J)
    (entry : string * bool) : option failure :=
  let (key, minimum) := entry in
  match json_object_get schema key with
  | None => None
  | Some bound =>
      match turbo_tool_schema_nonnegative_size bound with
      | None => fail_with TURBO_TOOL_SCHEMA_INVALID_SCHEMA bad (Some key)
      | Some limit =>
          if (minimum && (size <? limit)) || (negb minimum && (limit <? size))
          then fail_with TURBO_TOOL_SCHEMA_VALUE_INVALID violated (Some key)
          else None
      end
  end.

(* src/runtime_tools/src/turbo_tool_schema.c 481-503 turbo_tool_schema_validate_node *)
Definition check_required (value schema : J) : option failure :=
  match json_object_get schema "required" with
  | None => None
  | Some required =>
      if negb (bool_decide (json_type required = JSON_ARRAY))
      then fail_with TURBO_TOOL_SCHEMA_INVALID_SCHEMA "required must be an array" None
      else
        first_failure
          (fun entry =>
             if negb (bool_decide (json_type entry = JSON_STRING))
             then fail_with TURBO_TOOL_SCHEMA_INVALID_SCHEMA
                    "required entries must be strings" None
             else if json_object_get value (json_c_text entry) is Some _ then None
             else fail_with TURBO_TOOL_SCHEMA_VALUE_INVALID "missing required property"
                    (Some (json_c_text entry)))
          (json_array_items required)
  end.

(** ** The recursion *)

Section node.
Variable validate : J -> J -> option failure.

(* src/runtime_tools/src/turbo_tool_schema.c 441-453 turbo_tool_schema_validate_node *)
Definition check_items (value schema : J) : option failure :=
  match json_object_get schema "items" with
  | None => None
  | Some items =>
      if negb (bool_decide (json_type items = JSON_OBJECT))
      then fail_with TURBO_TOOL_SCHEMA_UNSUPPORTED "items must be an object schema" None
      else first_failure (fun x => validate x items) (json_array_items value)
  end.

(* src/runtime_tools/src/turbo_tool_schema.c 505-530 turbo_tool_schema_validate_node *)
Definition check_properties (value schema : J) : option failure :=
  match json_object_get schema "properties" with
  | None => None
  | Some properties =>
      if negb (bool_decide (json_type properties = JSON_OBJECT))
      then fail_with TURBO_TOOL_SCHEMA_INVALID_SCHEMA "properties must be an object" None
      else
        first_failure
          (fun ks =>
             if negb (bool_decide (json_type ks.2 = JSON_OBJECT))
             then fail_with TURBO_TOOL_SCHEMA_INVALID_SCHEMA
                    "property schema must be an object" (Some ks.1)
             else
               match json_object_get value ks.1 with
               | None => None
               | Some property_value => validate property_value ks.2
               end)
          (json_members properties)
  end.

(** One member of the value against [additionalProperties]. *)
(* src/runtime_tools/src/turbo_tool_schema.c 542-557 turbo_tool_schema_validate_node *)
Definition check_member (properties additional : option J) (kv : string * J) : option failure :=
  match properties ≫= (fun p => json_object_get p kv.1) with
  | Some _ => None
  | None =>
      match additional with
      | None => None
      | Some a =>
          if bool_decide (json_type a = JSON_BOOL)
          then if json_bool a then None
               else fail_with TURBO_TOOL_SCHEMA_VALUE_INVALID "unexpected property" (Some kv.1)
          else validate kv.2 a
      end
  end.

(* src/runtime_tools/src/turbo_tool_schema.c 532-558 turbo_tool_schema_validate_node *)
Definition check_additional (value schema : J) : option failure :=
  let additional := json_object_get schema "additionalProperties" in
  match additional with
  | Some a =>
      if negb (bool_decide (json_type a = JSON_BOOL))
         && negb (bool_decide (json_type a = JSON_OBJECT))
      then fail_with TURBO_TOOL_SCHEMA_INVALID_SCHEMA
             "additionalProperties must be boolean or schema" None
      else None
  | None => None
  end ;;?
  first_failure (check_member (json_object_get schema "properties") additional)
    (json_members value).

(* src/runtime_tools/src/turbo_tool_schema.c 358-559 turbo_tool_schema_validate_node *)
Definition check_by_kind (value schema : J) : option failure :=
  match json_type value with
  | JSON_NUMBER =>
      first_failure (check_numeric_bound (json_number value) schema) numeric_bounds
  | JSON_STRING =>
      first_failure
        (check_size_bound "string length bound must be a non-negative integer"
           "parameter violates string length bound"
           (turbo_tool_schema_utf8_codepoint_count (json_c_text value)) schema)
        string_bounds
  | JSON_ARRAY =>
      first_failure
        (check_size_bound "array bound must be a non-negative integer"
           "parameter violates array bound" (json_array_size value) schema)
        array_bounds ;;?
      check_items value schema
  | JSON_OBJECT =>
      first_failure
        (check_size_bound "object bound must be a non-negative integer"
           "parameter violates object bound" (json_object_size value) schema)
        object_bounds ;;?
      check_required value schema ;;?
      check_properties value schema ;;?
      check_additional value schema
  | JSON_NULL | JSON_BOOL => None
  end.

End node.

(* src/runtime_tools/src/turbo_tool_schema.c 257-562 turbo_tool_schema_validate_node *)
Fixpoint turbo_tool_schema_validate_node (fuel : nat) (value schema : J) : option failure :=
  match fuel with
  | O => fail_with TURBO_TOOL_SCHEMA_UNSUPPORTED "parameter schema exceeds maximum depth" None
  | S fuel =>
      turbo_tool_schema_check_keywords schema ;;?
      check_type value schema ;;?
      check_enum value schema ;;?
      check_const value schema ;;?
      check_by_kind (turbo_tool_schema_validate_node fuel) value schema
  end.

(** The call at depth 0. *)
Definition validate (value schema : J) : option failure :=
  turbo_tool_schema_validate_node (S TURBO_TOOL_SCHEMA_MAX_DEPTH) value schema.

Definition status_of (f : option failure) : turbo_tool_schema_validation_status :=
  match f with Some (status, _) => status | None => TURBO_TOOL_SCHEMA_VALID end.

(** ** The effective schema of a definition *)

Context `{!JsonSetters J} {W : Type} `{Cmeta}.

(** A strict object schema without [additionalProperties] gets a false one. *)
(* src/runtime_tools/src/turbo_tool_schema.c 44-47 turbo_tool_schema_parse_parameters_json *)
Definition close_strict (strict : Z) (parameters : J) (o : oracle) : J * oracle :=
  if negb (strict =? 0) && bool_decide (json_type parameters = JSON_OBJECT)
     && bool_decide (json_object_get parameters "additionalProperties" = None)
  then json_object_set_bool parameters "additionalProperties" false o
  else (parameters, o).

(* src/runtime_tools/src/turbo_tool_schema.c 31-50 turbo_tool_schema_parse_parameters_json *)
Definition turbo_tool_schema_parse_parameters_json (parameters_json : option string) (strict : Z)
    (o : oracle) : option J * oracle :=
  match parameters_json with
  | None => (None, o)
  | Some text =>
      let (ok, o) := alloc o in
      match (if ok then json_parse text else None) with
      | None => (None, o)
      | Some parameters =>
          let (parameters, o) := close_strict strict parameters o in (Some parameters, o)
      end
  end.

(** A clone, or NULL without memory. *)
Definition try_clone (value : J) (o : oracle) : option J * oracle :=
  let (ok, o) := alloc o in (if ok then Some (json_clone value) else None, o).

(* src/runtime_tools/src/turbo_tool_schema.c 12-29 turbo_tool_schema_clone_json_value *)
Definition turbo_tool_schema_clone_json_value (value : option J) (o : oracle)
  : option J * oracle :=
  match value with
  | None => (None, o)
  | Some v =>
      let (json_value, o) := try_clone v o in
      match json_value with
      | None => (None, o)
      | Some json_value => try_clone json_value o
      end
  end.

(* src/runtime_tools/src/turbo_tool_schema.c 52-64 turbo_tool_schema_parse_parameters_json_value *)
Definition turbo_tool_schema_parse_parameters_json_value (parameters_json : option string)
    (strict : Z) (o : oracle) : option J * oracle :=
  let (parameters, o) := turbo_tool_schema_parse_parameters_json parameters_json strict o in
  match parameters with
  | None => (None, o)
  | Some p => try_clone p o
  end.

(* src/runtime_tools/src/turbo_tool_schema.c 66-87 turbo_tool_schema_parse_parameters *)
Definition turbo_tool_schema_parse_parameters (definition : option (turbo_tool_definition J W))
    (o : oracle) : option J * oracle :=
  match definition with
  | None => (None, o)
  | Some d =>
      match d_parameters_schema d with
      | Some schema =>
          let (parameters, o) := try_clone schema o in
          match parameters with
          | None => (None, o)
          | Some p => let (p, o) := close_strict (d_strict d) p o in (Some p, o)
          end
      | None => turbo_tool_schema_parse_parameters_json (d_parameters_json d) (d_strict d) o
      end
  end.

(** The status and the diagnostic text (empty when the arguments are valid). *)
Definition verdict : Type := turbo_tool_schema_validation_status * string.

Definition verdict_of (f : option failure) : verdict :=
  match f with Some v => v | None => (TURBO_TOOL_SCHEMA_VALID, EmptyString) end.

(* src/runtime_tools/src/turbo_tool_schema.c 564-592 turbo_tool_schema_validate_arguments_json_value *)
Definition turbo_tool_schema_validate_arguments_json_value
    (definition : option (turbo_tool_definition J W)) (arguments : option J)
    (capacity : option Z) (o : oracle)
  : turbo_tool_schema_validation_status * option string * oracle :=
  let answer (v : verdict) (o : oracle) :=
    (v.1, turbo_tool_schema_diagnostic capacity v.2, o) in
  match definition, arguments with
  | Some d, Some arguments =>
      if bool_decide (d_parameters_json d = None) && negb (bool_decide (is_Some (d_parameters_schema d)))
      then answer (TURBO_TOOL_SCHEMA_INVALID_ARGUMENT,
                   "invalid tool-schema validation arguments") o
      else
        let (schema, o) := turbo_tool_schema_parse_parameters definition o in
        match schema with
        | None => answer (TURBO_TOOL_SCHEMA_INVALID_SCHEMA,
                          "could not materialize parameter schema") o
        | Some schema => answer (verdict_of (validate arguments schema)) o
        end
  | _, _ => answer (TURBO_TOOL_SCHEMA_INVALID_ARGUMENT,
                    "invalid tool-schema validation arguments") o
  end.

(** The definition the result contract is wrapped in. *)
(* src/runtime_tools/src/turbo_tool_schema.c 624-625 turbo_tool_schema_validate_result_json_value *)
Definition result_view (schema : J) (strict : Z) : turbo_tool_definition J W :=
  mk_definition None None None (Some schema) strict None None None.

(* src/runtime_tools/src/turbo_tool_schema.c 598-628 turbo_tool_schema_validate_result_json_value *)
Definition turbo_tool_schema_validate_result_json_value
    (registry : option (turbo_tool_registry (J := J) (W := W))) (tool_name : option string)
    (result : option J) (capacity : option Z) (o : oracle)
  : turbo_tool_schema_validation_status * option string * oracle :=
  let refused :=
    (TURBO_TOOL_SCHEMA_INVALID_ARGUMENT,
     turbo_tool_schema_diagnostic capacity "no registered result schema for tool", o) in
  match registry, tool_name, result with
  | Some _, Some _, Some _ =>
      match turbo_tool_registry_resolve_name registry tool_name with
      | (TURBO_TOOL_OK, Some canonical_name) =>
          match turbo_tool_registry_get_result_contract registry (Some canonical_name) with
          | (TURBO_TOOL_OK, (_, Some result_schema, strict)) =>
              turbo_tool_schema_validate_arguments_json_value
                (Some (result_view result_schema strict)) result capacity o
          | _ => refused
          end
      | _ => refused
      end
  | _, _, _ => refused
  end.

End schema.
