(* ===== verification/ToolSchemaFacts.v ===== *)
(** * What schema validation means

    [admits] gives the meaning of each keyword; the evaluator decides it on
    supported schemas, and never gives a wrong verdict on any. *)

From S2P Require Import Prelude RuntimeJson Tool ToolRegistry ToolSchema.
Set Warnings "-register-all".

#[local] Open Scope string_scope.
#[local] Open Scope Z_scope.
#[local] Open Scope check_scope.

#[local] Opaque TURBO_TOOL_SCHEMA_MAX_DEPTH.

(** ** Checks that decide a proposition *)

(** [checks D f P S]: going on means that [P] holds; rejecting the value means,
    under the side condition [D], that [P] does not hold; anything else is a
    problem with the schema, which a schema of the right shape [S] has not. *)
Record checks (D : Prop) (f : option failure) (P S : Prop) : Prop := {
  checks_on : f = None -> P;
  checks_out : D -> status_of f = TURBO_TOOL_SCHEMA_VALUE_INVALID -> ~ P;
  checks_honest : status_of f = TURBO_TOOL_SCHEMA_VALID -> f = None;
  checks_shape : S -> status_of f = TURBO_TOOL_SCHEMA_VALID \/
                      status_of f = TURBO_TOOL_SCHEMA_VALUE_INVALID
}.

Lemma checks_iff (D D' : Prop) f (P Q S T : Prop) :
  checks D f P S -> (D' -> D) -> (P <-> Q) -> (T -> S) -> checks D' f Q T.
Proof.
  intros [H1 H2 H3 H4] HD HPQ HS. split; [by intros ?%H1%HPQ| |done|auto].
  intros Hd Hs Hq. by apply (H2 (HD Hd) Hs), HPQ.
Qed.

Lemma checks_none D (P S : Prop) : P -> checks D None P S.
Proof. split; [done..|]. by left. Qed.

Lemma checks_reject D message detail (P S : Prop) : (D -> ~ P) ->
  checks D (fail_with TURBO_TOOL_SCHEMA_VALUE_INVALID message detail) P S.
Proof. split; [done|auto|done|by right]. Qed.

Definition schema_problem (status : turbo_tool_schema_validation_status) : Prop :=
  status = TURBO_TOOL_SCHEMA_INVALID_SCHEMA \/ status = TURBO_TOOL_SCHEMA_UNSUPPORTED.

Lemma checks_bad D status message detail (P S : Prop) : schema_problem status -> ~ S ->
  checks D (fail_with status message detail) P S.
Proof. intros [-> | ->] Hs; by split. Qed.

Lemma checks_then D a b (P Q S T : Prop) :
  checks D a P S -> (P -> checks D b Q T) -> checks D (a ;;? b) (P /\ Q) (S /\ T).
Proof.
  intros [H1 H2 H3 H4] Hb. destruct a as [f|]; cbn.
  - split; [done| |done|by intros [? _]; auto]. intros Hd Hs [HP _]. by apply H2.
  - destruct (Hb (H1 eq_refl)) as [B1 B2 B3 B4].
    split; [by auto| |done|by intros [_ ?]; auto]. intros Hd Hs [_ HQ]. by apply B2.
Qed.

Lemma checks_forall {A} D (f : A -> option failure) (P S : A -> Prop) l :
  (forall x, x ∈ l -> checks D (f x) (P x) (S x)) ->
  checks D (first_failure f l) (forall x, x ∈ l -> P x) (forall x, x ∈ l -> S x).
Proof.
  induction l as [|a l IH]; intros Hl; cbn.
  { apply checks_none. intros x Hx. by apply elem_of_nil in Hx. }
  eapply (checks_iff D D);
    [eapply (checks_then D _ _ (P a) (forall x, x ∈ l -> P x) (S a) (forall x, x ∈ l -> S x))|..].
  - apply Hl. by left.
  - intros _. apply IH. intros x Hx. apply Hl. by right.
  - done.
  - split; [intros [Ha Hr] x [->|Hx]%elem_of_cons; auto|].
    intros Hall. split; [apply Hall; by left|]. intros x Hx. apply Hall. by right.
  - intros Hall. split; [apply Hall; by left|]. intros x Hx. apply Hall. by right.
Qed.

Create HintDb checks.
#[export] Hint Resolve checks_none checks_reject : checks.
#[export] Hint Extern 1 (schema_problem _) => first [by left|by right] : checks.

(** ** The specification *)

Section spec.
Context {J : Type} `{JsonMembersLaws J}.

Inductive has_type (v : J) : string -> Prop :=
| type_object : json_type v = JSON_OBJECT -> has_type v "object"
| type_array : json_type v = JSON_ARRAY -> has_type v "array"
| type_string : json_type v = JSON_STRING -> has_type v "string"
| type_number m e : json_type v = JSON_NUMBER -> json_number v = DFinite m e ->
    has_type v "number"
| type_integer n : json_type v = JSON_NUMBER -> double_integral (json_number v) = Some n ->
    has_type v "integer"
| type_boolean : json_type v = JSON_BOOL -> has_type v "boolean"
| type_null : json_type v = JSON_NULL -> has_type v "null".

(** Equality of JSON values as the code has it: numbers by value, objects without
    order, strings as C strings, so only up to their first NUL. *)
Inductive same_value (a b : J) : Prop :=
| same_null : json_type a = JSON_NULL -> json_type b = JSON_NULL -> same_value a b
| same_bool : json_type a = JSON_BOOL -> json_type b = JSON_BOOL ->
    json_bool a = json_bool b -> same_value a b
| same_number : json_type a = JSON_NUMBER -> json_type b = JSON_NUMBER ->
    double_eq (json_number a) (json_number b) = true -> same_value a b
| same_string : json_type a = JSON_STRING -> json_type b = JSON_STRING ->
    json_c_text a = json_c_text b -> same_value a b
| same_array : json_type a = JSON_ARRAY -> json_type b = JSON_ARRAY ->
    length (json_array_items a) = length (json_array_items b) ->
    (forall i x y, json_array_items a !! i = Some x -> json_array_items b !! i = Some y ->
       same_value x y) -> same_value a b
| same_object : json_type a = JSON_OBJECT -> json_type b = JSON_OBJECT ->
    length (json_members a) = length (json_members b) ->
    (forall k x, (k, x) ∈ json_members a ->
       exists y, json_object_get b k = Some y /\ same_value x y) -> same_value a b.

(** The value is nested less than [n] deep. *)
Fixpoint nested_below (n : nat) (v : J) : Prop :=
  match n with
  | O => False
  | S n =>
      (json_type v = JSON_ARRAY -> forall x, x ∈ json_array_items v -> nested_below n x) /\
      (json_type v = JSON_OBJECT -> forall k x, (k, x) ∈ json_members v -> nested_below n x)
  end.

(** A keyword's condition, when the schema has it. *)
Definition keyword (schema : J) (key : string) (P : J -> Prop) : Prop :=
  forall k, json_object_get schema key = Some k -> P k.

#[export] Instance keyword_proper schema key :
  Proper (pointwise_relation J iff ==> iff) (keyword schema key).
Proof. intros P Q HPQ. unfold keyword. by setoid_rewrite (HPQ _). Qed.

Definition admits_type (t value : J) : Prop :=
  json_type t = JSON_STRING /\ has_type value (json_c_text t) \/
  json_type t = JSON_ARRAY /\ exists e, e ∈ json_array_items t /\
    json_type e = JSON_STRING /\ has_type value (json_c_text e).

Definition size_limit (b : J) (P : Z -> Prop) : Prop :=
  forall n, turbo_tool_schema_nonnegative_size b = Some n -> P n.

Definition size_within (schema : J) (low high : string) (size : Z) : Prop :=
  keyword schema low (fun b => size_limit b (fun n => n <= size)) /\
  keyword schema high (fun b => size_limit b (fun n => size <= n)).

Inductive admits (schema value : J) : Prop :=
| admits_intro
    (Htype : keyword schema "type" (fun t => admits_type t value))
    (Henum : keyword schema "enum" (fun e => exists x, x ∈ json_array_items e /\ same_value value x))
    (Hconst : keyword schema "const" (same_value value))
    (Hnumber : json_type value = JSON_NUMBER ->
       keyword schema "minimum"
         (fun b => double_lt (json_number value) (json_number b) = false) /\
       keyword schema "maximum"
         (fun b => double_lt (json_number b) (json_number value) = false) /\
       keyword schema "exclusiveMinimum"
         (fun b => double_le (json_number value) (json_number b) = false) /\
       keyword schema "exclusiveMaximum"
         (fun b => double_le (json_number b) (json_number value) = false))
    (Hstring : json_type value = JSON_STRING ->
       size_within schema "minLength" "maxLength"
         (turbo_tool_schema_utf8_codepoint_count (json_c_text value)))
    (Harray : json_type value = JSON_ARRAY ->
       size_within schema "minItems" "maxItems" (Z.of_nat (length (json_array_items value))) /\
       keyword schema "items" (fun s => forall x, x ∈ json_array_items value -> admits s x))
    (Hobject : json_type value = JSON_OBJECT ->
       size_within schema "minProperties" "maxProperties"
         (Z.of_nat (length (json_members value))) /\
       keyword schema "required" (fun r => forall e, e ∈ json_array_items r ->
         is_Some (json_object_get value (json_c_text e))) /\
       keyword schema "properties" (fun ps => forall p s v, (p, s) ∈ json_members ps ->
         json_object_get value p = Some v -> admits s v) /\
       keyword schema "additionalProperties" (fun a => forall p v, (p, v) ∈ json_members value ->
         (forall ps, json_object_get schema "properties" = Some ps ->
            json_object_get ps p = None) ->
         json_type a = JSON_BOOL /\ json_bool a = true \/
         json_type a <> JSON_BOOL /\ admits a v)).

(** ** Types and equality *)

Definition type_names : list string :=
  ["object"; "array"; "string"; "number"; "integer"; "boolean"; "null"].

Lemma type_matches_spec (v : J) t :
  match turbo_tool_schema_type_matches v t with
  | Some b => (t ∈ type_names) /\ (b = true <-> has_type v t)
  | None => (t ∉ type_names) /\ ~ has_type v t
  end.
Proof.
  unfold turbo_tool_schema_type_matches.
  repeat match goal with
    | |- context [bool_decide (t = ?s)] =>
        destruct (decide (t = s)) as [->|?];
        [rewrite bool_decide_true by done; split; [by repeat constructor|]
        |rewrite bool_decide_false by done]
    end.
  8: { split; [|intros Ht; by inversion Ht].
       unfold type_names. rewrite !not_elem_of_cons. split_and!; try done. apply not_elem_of_nil. }
  all: rewrite ?andb_true_iff, ?bool_decide_eq_true; split.
  all: try (by intros E; inversion E); try (by constructor).
  - intros [Ht Hf]. unfold isfinite in Hf. destruct (json_number v) eqn:E; [|done..].
    by eapply type_number.
  - intros E. inversion E as [| | |m' e' Ht Hn| | |]. by rewrite Hn.
  - intros [Ht [k Hk]]. by eapply type_integer.
Qed.

Lemma equal_items_iff (eq : J -> J -> bool) l : forall r, length l = length r ->
  equal_items eq l r = true <->
  (forall i x y, l !! i = Some x -> r !! i = Some y -> eq x y = true).
Proof.
  induction l as [|a l IH]; intros [|b r] Hlen; cbn; try done.
  injection Hlen as Hlen. destruct (eq a b) eqn:E; cbn.
  - rewrite IH by done. split; [|intros Hall i; apply (Hall (S i))].
    intros Hall [|i] x y; cbn; [by intros [= <-] [= <-]|apply Hall].
  - split; [done|]. intros Hall. by rewrite (Hall 0%nat a b) in E.
Qed.

Lemma equal_members_iff (eq : J -> J -> bool) l rhs :
  equal_members eq l rhs = true <->
  (forall k x, (k, x) ∈ l -> exists y, json_object_get rhs k = Some y /\ eq x y = true).
Proof.
  induction l as [|[k x] l IH]; cbn.
  { split; [|done]. intros _ k x Hx. by apply elem_of_nil in Hx. }
  destruct (json_object_get rhs k) as [y|] eqn:Ey; cbn.
  - destruct (eq x y) eqn:E; cbn.
    + rewrite IH. split; [|intros Hall k' x' Hx; apply Hall; by right].
      intros Hall k' x' [[= -> ->]|Hx]%elem_of_cons; [by exists y|by apply Hall].
    + split; [done|]. intros Hall. destruct (Hall k x) as (y' & Ey' & E'); [by left|]. congruence.
  - split; [done|]. intros Hall. destruct (Hall k x) as (y' & Ey' & E'); [by left|]. congruence.
Qed.

Lemma json_equal_sound n : forall a b : J,
  turbo_tool_schema_json_equal n a b = true -> same_value a b.
Proof.
  induction n as [|n IH]; intros a b; cbn; [done|]. case_bool_decide as Et; cbn; [|done].
  destruct (json_type a) eqn:E; intros Heq.
  - by apply same_null.
  - apply same_bool; [done..|]. by apply Bool.eqb_prop.
  - by apply same_number.
  - apply same_string; [done..|]. by bool_to_prop.
  - destruct (json_array_size a =? json_array_size b) eqn:El; cbn in Heq; [|done].
    apply Z.eqb_eq in El. rewrite !json_items_size in El. apply Nat2Z.inj in El.
    rewrite equal_items_iff in Heq by done. apply same_array; [done..|]. eauto.
  - destruct (json_object_size a =? json_object_size b) eqn:El; cbn in Heq; [|done].
    apply Z.eqb_eq in El. rewrite !json_members_size in El. apply Nat2Z.inj in El.
    rewrite equal_members_iff in Heq. apply same_object; [done..|].
    intros k x Hx. destruct (Heq k x Hx) as (y & Hy & Hxy). eauto.
Qed.

Lemma json_equal_complete n : forall a b : J,
  nested_below n a -> same_value a b -> turbo_tool_schema_json_equal n a b = true.
Proof.
  induction n as [|n IH]; intros a b Hn Hs; [done|]. destruct Hn as [Ha Ho]. cbn.
  destruct Hs as [Ea Eb|Ea Eb E|Ea Eb E|Ea Eb E|Ea Eb El E|Ea Eb El E];
    rewrite bool_decide_true by congruence; cbn; rewrite Ea.
  - done.
  - rewrite E. apply Bool.eqb_reflx.
  - done.
  - by apply bool_decide_true.
  - rewrite !json_items_size, El, Z.eqb_refl. cbn. apply equal_items_iff; [done|].
    intros i x y Hx Hy. apply IH; [|by eapply E]. apply Ha; [done|].
    by eapply list_elem_of_lookup_2.
  - rewrite !json_members_size, El, Z.eqb_refl. cbn. apply equal_members_iff.
    intros k x Hx. destruct (E k x Hx) as (y & Hy & Hxy). exists y. split; [done|].
    apply IH; [by eapply Ho|done].
Qed.

(** ** The keywords of a node *)

Definition type_known (e : J) : Prop := json_type e = JSON_STRING /\ (json_c_text e ∈ type_names).

Definition type_shape (t : J) : Prop :=
  type_known t \/ json_type t = JSON_ARRAY /\ forall e, e ∈ json_array_items t -> type_known e.

Lemma match_types_spec (v : J) l :
  match match_types v l with
  | inl f => (exists status message detail, f = fail_with status message detail /\
                schema_problem status) /\
             ~ (forall e, e ∈ l -> type_known e)
  | inr b => b = true <-> exists e, e ∈ l /\ json_type e = JSON_STRING /\ has_type v (json_c_text e)
  end.
Proof.
  induction l as [|e l IH]; cbn.
  { split; [done|]. intros (e & He & _). by apply elem_of_nil in He. }
  case_bool_decide as Et; cbn.
  2: { split; [by eexists _, _, _; split; [|left]|]. intros Hall. apply Et, (Hall e). by left. }
  pose proof (type_matches_spec v (json_c_text e)) as Hm.
  destruct (turbo_tool_schema_type_matches v (json_c_text e)) as [[]|].
  - split; [|done]. intros _. exists e. split; [by left|]. split; [done|]. by apply Hm.
  - destruct (match_types v l) as [f|b].
    + destruct IH as [Hf Hn]. split; [done|]. intros Hall. apply Hn. intros x Hx. apply Hall. by right.
    + rewrite IH. split.
      * intros (x & Hx & Hs). exists x. split; [by right|done].
      * intros (x & [->|Hx]%elem_of_cons & Hs & Ht); [by apply Hm in Ht|by exists x].
  - split; [by eexists _, _, _; split; [|right]|]. intros Hall. destruct Hm as [Hm _]. apply Hm, (Hall e). by left.
Qed.

(** A check that looks at one keyword. *)
Lemma checks_keyword D (s : J) key (f : J -> option failure) (P S : J -> Prop) :
  (forall k, json_object_get s key = Some k -> checks D (f k) (P k) (S k)) ->
  checks D (match json_object_get s key with None => None | Some k => f k end)
    (keyword s key P) (keyword s key S).
Proof.
  unfold keyword. intros Hf. destruct (json_object_get s key) as [k|].
  - eapply checks_iff; [by apply Hf|done| |by auto].
    split; [by intros ? ? [= <-]|by auto].
  - by apply checks_none.
Qed.

Lemma check_type_spec D (v s : J) :
  checks D (check_type v s) (keyword s "type" (fun t => admits_type t v))
    (keyword s "type" type_shape).
Proof.
  apply checks_keyword. intros t _. unfold admits_type, type_shape, type_known.
  destruct (json_type t) eqn:Et;
    try by (apply checks_bad; auto with checks; intros [[? _]|[? _]]).
  - pose proof (type_matches_spec v (json_c_text t)) as Hm.
    destruct (turbo_tool_schema_type_matches v (json_c_text t)) as [[]|].
    + apply checks_none. left. split; [done|]. by apply Hm.
    + apply checks_reject. intros _ [[_ Ht]|[? _]]; [|done]. by apply Hm in Ht.
    + apply checks_bad; [by right|]. intros [[_ Hin]|[? _]]; [by destruct Hm|done].
  - pose proof (match_types_spec v (json_array_items t)) as Hm.
    destruct (match_types v (json_array_items t)) as [f|[]].
    + destruct Hm as [(status & message & detail & -> & Hbad) Hn].
      apply checks_bad; [done|]. intros [[? _]|[_ Hall]]; [done|]. by destruct Hn.
    + apply checks_none. right. split; [done|]. by apply Hm.
    + apply checks_reject. intros _ [[? _]|[_ Hex]]; [done|]. by apply Hm in Hex.
Qed.

Lemma json_equal_spec (a b : J) :
  (json_equal a b = true -> same_value a b) /\
  (nested_below (S TURBO_TOOL_SCHEMA_MAX_DEPTH) a -> same_value a b -> json_equal a b = true).
Proof. split; [apply json_equal_sound|apply json_equal_complete]. Qed.

(** Nested no deeper than the evaluator looks. *)
Definition shallow (v : J) : Prop := nested_below (S TURBO_TOOL_SCHEMA_MAX_DEPTH) v.

Definition enum_shape (e : J) : Prop :=
  json_type e = JSON_ARRAY /\ json_array_items e <> [].

Lemma check_enum_spec (v s : J) :
  checks (shallow v) (check_enum v s)
    (keyword s "enum" (fun e => exists x, x ∈ json_array_items e /\ same_value v x))
    (keyword s "enum" enum_shape).
Proof.
  apply checks_keyword. intros e _. unfold enum_shape.
  destruct (negb (bool_decide (json_type e = JSON_ARRAY)) || (json_array_size e =? 0)) eqn:Eb.
  - apply checks_bad; [by left|]. intros [Et Hne]. rewrite bool_decide_true in Eb by done.
    cbn in Eb. rewrite json_items_size in Eb. destruct (json_array_items e); [done|]. by bool_to_prop.
  - destruct (existsb (json_equal v) (json_array_items e)) eqn:Ex.
    + apply checks_none. apply existsb_exists in Ex as (x & Hx & Heq).
      exists x. split; [by apply list_elem_of_In|]. by apply json_equal_spec.
    + apply checks_reject. intros Hd (x & Hx & Hs).
      apply not_true_iff_false in Ex. apply Ex, existsb_exists. exists x.
      split; [by apply list_elem_of_In|]. by apply json_equal_spec.
Qed.

Lemma check_const_spec (v s : J) :
  checks (shallow v) (check_const v s) (keyword s "const" (same_value v)) True.
Proof.
  eapply checks_iff; [|done|done|].
  { unfold check_const. apply (checks_keyword _ _ _ _ _ (fun _ => True)). intros c _.
    destruct (json_equal v c) eqn:E; cbn.
    - apply checks_none. by apply json_equal_spec.
    - apply checks_reject. intros Hd Hs. apply json_equal_spec in Hs; [|done]. congruence. }
  by intros _ k _.
Qed.

Lemma forall_two {A} (P : A -> Prop) a b : (forall x, x ∈ [a; b] -> P x) <-> P a /\ P b.
Proof. rewrite <- Forall_forall, !Forall_cons, Forall_nil. tauto. Qed.

Lemma forall_four {A} (P : A -> Prop) a b c d :
  (forall x, x ∈ [a; b; c; d] -> P x) <-> P a /\ P b /\ P c /\ P d.
Proof. rewrite <- Forall_forall, !Forall_cons, Forall_nil. tauto. Qed.

Definition number_shape (b : J) : Prop :=
  json_type b = JSON_NUMBER /\ isfinite (json_number b) = true.

Lemma numeric_bound_spec D number (s : J) entry :
  checks D (check_numeric_bound number s entry)
    (keyword s entry.1.1 (fun b => bound_violated entry.1.2 entry.2 number (json_number b) = false))
    (keyword s entry.1.1 number_shape).
Proof.
  destruct entry as [[key exclusive] lower]. apply checks_keyword. intros b _.
  unfold number_shape. cbn [fst snd].
  case_bool_decide as Et; cbn [negb orb]; [|by apply checks_bad; [left|intros [? _]]].
  destruct (isfinite (json_number b)); cbn [negb]; [|by apply checks_bad; [left|intros [_ ?]]].
  destruct (bound_violated exclusive lower number (json_number b)); [|by apply checks_none].
  by apply checks_reject.
Qed.

Definition numeric_within (s value : J) : Prop :=
  keyword s "minimum" (fun b => double_lt (json_number value) (json_number b) = false) /\
  keyword s "maximum" (fun b => double_lt (json_number b) (json_number value) = false) /\
  keyword s "exclusiveMinimum" (fun b => double_le (json_number value) (json_number b) = false) /\
  keyword s "exclusiveMaximum" (fun b => double_le (json_number b) (json_number value) = false).

Definition numeric_keys : list string :=
  ["minimum"; "maximum"; "exclusiveMinimum"; "exclusiveMaximum"].

Lemma numeric_bounds_spec D (v s : J) :
  checks D (first_failure (check_numeric_bound (json_number v) s) numeric_bounds)
    (numeric_within s v) (forall key, key ∈ numeric_keys -> keyword s key number_shape).
Proof.
  eapply checks_iff; [apply checks_forall; intros x _; apply numeric_bound_spec|done|..].
  - unfold numeric_bounds. rewrite forall_four. unfold numeric_within, bound_violated. cbn.
    by setoid_rewrite orb_false_r.
  - intros Hall entry Hin. apply Hall.
    apply (list_elem_of_fmap_2 (fun e : string * bool * bool => e.1.1)) in Hin. exact Hin.
Qed.

Definition size_shape (b : J) : Prop := is_Some (turbo_tool_schema_nonnegative_size b).

Lemma size_bound_spec D bad violated size (s : J) entry :
  checks D (check_size_bound bad violated size s entry)
    (keyword s entry.1 (fun b =>
       size_limit b (fun n => if entry.2 : bool then n <= size else size <= n)))
    (keyword s entry.1 size_shape).
Proof.
  destruct entry as [key minimum]. apply checks_keyword. intros b _.
  unfold size_shape, size_limit. cbn [fst snd].
  destruct (turbo_tool_schema_nonnegative_size b) as [limit|];
    [|by apply checks_bad; [left|intros [? ?]]].
  destruct ((minimum && (size <? limit)) || (negb minimum && (limit <? size))) eqn:Eb.
  - apply checks_reject. intros _ Hall. specialize (Hall limit eq_refl).
    destruct minimum; cbn in *; rewrite ?orb_false_r in Eb; bool_to_prop; lia.
  - apply checks_none. intros n [= <-].
    destruct minimum; cbn in *; rewrite ?orb_false_r in Eb; bool_to_prop; lia.
Qed.

Lemma size_bounds_spec D bad violated size (s : J) low high :
  checks D (first_failure (check_size_bound bad violated size s) [(low, true); (high, false)])
    (size_within s low high size) (keyword s low size_shape /\ keyword s high size_shape).
Proof.
  eapply checks_iff; [apply checks_forall; intros x _; apply size_bound_spec|done|..].
  - by rewrite forall_two.
  - by rewrite forall_two.
Qed.

Definition required_shape (r : J) : Prop :=
  json_type r = JSON_ARRAY /\ forall e, e ∈ json_array_items r -> json_type e = JSON_STRING.

Lemma check_required_spec D (v s : J) :
  checks D (check_required v s)
    (keyword s "required" (fun r => forall e, e ∈ json_array_items r ->
       is_Some (json_object_get v (json_c_text e))))
    (keyword s "required" required_shape).
Proof.
  apply checks_keyword. intros r _. unfold required_shape.
  case_bool_decide as Et; cbn [negb]; [|by apply checks_bad; [left|intros [? _]]].
  eapply checks_iff;
    [apply (checks_forall D _ (fun e => is_Some (json_object_get v (json_c_text e)))
              (fun e => json_type e = JSON_STRING)); intros e _|done|done|].
  - case_bool_decide as Ee; cbn [negb]; [|by apply checks_bad; [left|]].
    destruct (json_object_get v (json_c_text e)); [by apply checks_none|].
    apply checks_reject. by intros _ [? ?].
  - by intros [_ Hall].
Qed.

(** ** The recursion *)

Lemma nested_below_S n : forall v, nested_below n v -> nested_below (S n) v.
Proof.
  induction n as [|n IH]; intros v; [done|]. intros [Ha Ho].
  split; [intros Et x Hx; apply IH, Ha; done|intros Et k x Hx; eapply IH, Ho; done].
Qed.

Lemma shallow_item v x :
  json_type v = JSON_ARRAY -> x ∈ json_array_items v -> shallow v -> shallow x.
Proof. intros Et Hx [Ha _]. by apply nested_below_S, Ha. Qed.

Lemma shallow_member v k x :
  json_type v = JSON_OBJECT -> (k, x) ∈ json_members v -> shallow v -> shallow x.
Proof. intros Et Hx [_ Ho]. by eapply nested_below_S, Ho. Qed.

Section node_spec.
Context (validate : J -> J -> option failure) (sup : J -> Prop).
Hypothesis validate_spec : forall v s, checks (shallow v) (validate v s) (admits s v) (sup s).

Definition items_shape (i : J) : Prop := json_type i = JSON_OBJECT /\ sup i.

Definition properties_shape (ps : J) : Prop :=
  json_type ps = JSON_OBJECT /\ forall p s, (p, s) ∈ json_members ps -> items_shape s.

Definition additional_shape (a : J) : Prop := json_type a = JSON_BOOL \/ items_shape a.

Lemma check_items_spec (v s : J) : json_type v = JSON_ARRAY ->
  checks (shallow v) (check_items validate v s)
    (keyword s "items" (fun i => forall x, x ∈ json_array_items v -> admits i x))
    (keyword s "items" items_shape).
Proof.
  intros Ev. apply checks_keyword. intros i _. unfold items_shape.
  case_bool_decide as Et; cbn [negb]; [|by apply checks_bad; [right|intros [? _]]].
  eapply checks_iff; [apply (checks_forall (shallow v) _ (admits i) (fun _ => sup i))|done..|].
  - intros x Hx. eapply checks_iff; [apply validate_spec| |done..]. by apply shallow_item.
  - by intros [_ ?] x _.
Qed.

Definition admits_properties (v ps : J) : Prop :=
  forall p s x, (p, s) ∈ json_members ps -> json_object_get v p = Some x -> admits s x.

Lemma check_properties_spec (v s : J) : json_type v = JSON_OBJECT ->
  checks (shallow v) (check_properties validate v s)
    (keyword s "properties" (admits_properties v)) (keyword s "properties" properties_shape).
Proof.
  intros Ev. apply checks_keyword. intros ps _. unfold properties_shape.
  case_bool_decide as Et; cbn [negb]; [|by apply checks_bad; [left|intros [? _]]].
  eapply checks_iff;
    [apply (checks_forall (shallow v) _
              (fun ks => forall x, json_object_get v ks.1 = Some x -> admits ks.2 x)
              (fun ks => items_shape ks.2))|done|..].
  - intros [p ss] Hin. cbn [fst snd].
    case_bool_decide as Es; cbn [negb]; [|by apply checks_bad; [left|intros [? _]]].
    destruct (json_object_get v p) as [x|] eqn:Ex; [|by apply checks_none].
    eapply checks_iff; [apply validate_spec| |split; [by intros ? ? [= <-]|auto]|by intros [_ ?]].
    eapply shallow_member; [done|]. by apply json_get_member.
  - unfold admits_properties. split; [intros Hall p ss x Hin; by apply (Hall (p, ss))|].
    intros Hall [p ss] Hin x. by apply Hall.
  - intros [_ Hall] [p ss] Hin. by eapply Hall.
Qed.

(** The members [additionalProperties] is about. *)
Definition undeclared (s : J) (p : string) : Prop :=
  forall ps, json_object_get s "properties" = Some ps -> json_object_get ps p = None.

Definition admits_additional (v s a : J) : Prop :=
  forall p x, (p, x) ∈ json_members v -> undeclared s p ->
  json_type a = JSON_BOOL /\ json_bool a = true \/ json_type a <> JSON_BOOL /\ admits a x.

Lemma check_member_spec (v s a : J) kv : json_type v = JSON_OBJECT -> kv ∈ json_members v ->
  checks (shallow v) (check_member validate (json_object_get s "properties") (Some a) kv)
    (undeclared s kv.1 -> json_type a = JSON_BOOL /\ json_bool a = true \/
                          json_type a <> JSON_BOOL /\ admits a kv.2)
    (json_type a = JSON_BOOL \/ sup a).
Proof.
  intros Ev Hin. unfold check_member, undeclared. destruct kv as [p x]. cbn [fst snd].
  set (Q := json_type a = JSON_BOOL /\ json_bool a = true \/ json_type a <> JSON_BOOL /\ admits a x).
  assert (Hcore : checks (shallow v)
    (if bool_decide (json_type a = JSON_BOOL)
     then if json_bool a then None
          else fail_with TURBO_TOOL_SCHEMA_VALUE_INVALID "unexpected property" (Some p)
     else validate x a) Q (json_type a = JSON_BOOL \/ sup a)).
  { case_bool_decide as Et.
    - destruct (json_bool a) eqn:Eb; [by apply checks_none; left|].
      apply checks_reject. intros _ [[_ E]|[? _]]; congruence.
    - eapply checks_iff; [apply validate_spec|by eapply shallow_member|..].
      + split; [by right|by intros [[? _]|[_ ?]]].
      + by intros [?|?]. }
  destruct (json_object_get s "properties") as [ps|]; cbn [mbind option_bind];
    [destruct (json_object_get ps p) as [ss|] eqn:Ess|].
  - apply checks_none. intros Hn. by rewrite (Hn ps) in Ess.
  - eapply checks_iff; [exact Hcore|done| |done].
    split; [intros HQ _; exact HQ|intros Hn; apply Hn; by intros ? [= <-]].
  - eapply checks_iff; [exact Hcore|done| |done].
    split; [intros HQ _; exact HQ|intros Hn; by apply Hn].
Qed.

Lemma check_additional_spec (v s : J) : json_type v = JSON_OBJECT ->
  checks (shallow v) (check_additional validate v s)
    (keyword s "additionalProperties" (admits_additional v s))
    (keyword s "additionalProperties" additional_shape).
Proof.
  intros Ev. unfold check_additional, keyword.
  destruct (json_object_get s "additionalProperties") as [a|].
  2: { eapply checks_iff; [apply (checks_forall True _ (fun _ => True) (fun _ => True))|..]; try done.
       intros kv _. unfold check_member. destruct (_ ≫= _); by apply checks_none. }
  eapply checks_iff; [apply (checks_then (shallow v) _ _ True
    (forall kv, kv ∈ json_members v -> undeclared s kv.1 ->
       json_type a = JSON_BOOL /\ json_bool a = true \/ json_type a <> JSON_BOOL /\ admits a kv.2)
    (json_type a = JSON_BOOL \/ json_type a = JSON_OBJECT)
    (forall kv, kv ∈ json_members v -> json_type a = JSON_BOOL \/ sup a))|done|..].
  - case_bool_decide as Eb; [by apply checks_none|]. case_bool_decide as Eo; [by apply checks_none|].
    by apply checks_bad; [left|intros [?|?]].
  - intros _. apply checks_forall. intros kv Hin. by apply check_member_spec.
  - unfold admits_additional. split.
    + intros [_ Hall] k [= <-] p x Hin. by apply (Hall (p, x)).
    + intros Hall. split; [done|]. intros [p x] Hin. by apply (Hall a eq_refl).
  - intros Hs. destruct (Hs a eq_refl) as [Hb|[Ho Hsup]]; split; auto.
Qed.

Definition size_keys : list string :=
  ["minLength"; "maxLength"; "minItems"; "maxItems"; "minProperties"; "maxProperties"].

Record kind_shape (s : J) : Prop := {
  ks_numbers : forall key, key ∈ numeric_keys -> keyword s key number_shape;
  ks_sizes : forall key, key ∈ size_keys -> keyword s key size_shape;
  ks_items : keyword s "items" items_shape;
  ks_required : keyword s "required" required_shape;
  ks_properties : keyword s "properties" properties_shape;
  ks_additional : keyword s "additionalProperties" additional_shape
}.

Record admits_kind (v s : J) : Prop := {
  ak_number : json_type v = JSON_NUMBER -> numeric_within s v;
  ak_string : json_type v = JSON_STRING ->
    size_within s "minLength" "maxLength" (turbo_tool_schema_utf8_codepoint_count (json_c_text v));
  ak_array : json_type v = JSON_ARRAY ->
    size_within s "minItems" "maxItems" (Z.of_nat (length (json_array_items v))) /\
    keyword s "items" (fun i => forall x, x ∈ json_array_items v -> admits i x);
  ak_object : json_type v = JSON_OBJECT ->
    size_within s "minProperties" "maxProperties" (Z.of_nat (length (json_members v))) /\
    keyword s "required" (fun r => forall e, e ∈ json_array_items r ->
      is_Some (json_object_get v (json_c_text e))) /\
    keyword s "properties" (admits_properties v) /\
    keyword s "additionalProperties" (admits_additional v s)
}.

Lemma kind_sizes s low high : low ∈ size_keys -> high ∈ size_keys ->
  kind_shape s -> keyword s low size_shape /\ keyword s high size_shape.
Proof. intros Hl Hh Hs. split; by apply ks_sizes. Qed.

Lemma check_by_kind_spec (v s : J) :
  checks (shallow v) (check_by_kind validate v s) (admits_kind v s) (kind_shape s).
Proof.
  unfold check_by_kind. destruct (json_type v) eqn:Ev.
  1,2: by apply checks_none; split; rewrite Ev.
  - eapply checks_iff; [apply numeric_bounds_spec|done| |by apply ks_numbers].
    split; [by intros Hn; split; rewrite ?Ev|]. intros [Hn _ _ _]. by apply Hn.
  - eapply checks_iff; [apply size_bounds_spec|done| |].
    + split; [by intros Hn; split; rewrite ?Ev|]. intros [_ Hn _ _]. by apply Hn.
    + apply kind_sizes; by repeat constructor.
  - eapply checks_iff; [apply checks_then; [apply size_bounds_spec|]|done|..].
    + intros _. by apply check_items_spec.
    + rewrite json_items_size.
      split; [by intros Hn; split; rewrite ?Ev|]. intros [_ _ Hn _]. by apply Hn.
    + intros Hs. split; [|by apply ks_items].
      apply kind_sizes; [by repeat constructor|by repeat constructor|done].
  - eapply checks_iff; [apply checks_then; [apply size_bounds_spec|intros _]|done|..].
    + apply checks_then; [apply check_required_spec|intros _].
      apply checks_then; [by apply check_properties_spec|intros _].
      by apply check_additional_spec.
    + rewrite json_members_size.
      split; [by intros Hn; split; rewrite ?Ev|]. intros [_ _ _ Hn]. by apply Hn.
    + intros Hs. split; [apply kind_sizes; [by repeat constructor|by repeat constructor|done]|].
      split; [by apply ks_required|]. split; [by apply ks_properties|by apply ks_additional].
Qed.

End node_spec.

Lemma check_keywords_spec D (s : J) :
  checks D (turbo_tool_schema_check_keywords s) True
    (json_type s = JSON_OBJECT /\
     forall kv, kv ∈ json_members s -> turbo_tool_schema_supported_keyword kv.1 = true).
Proof.
  unfold turbo_tool_schema_check_keywords.
  case_bool_decide as Et; cbn [negb]; [|by apply checks_bad; [left|intros [? _]]].
  eapply checks_iff; [apply (checks_forall D _ (fun _ => True)
    (fun kv => turbo_tool_schema_supported_keyword kv.1 = true))|done|done|by intros [_ ?]].
  intros kv _. destruct (turbo_tool_schema_supported_keyword kv.1); [by apply checks_none|].
  by apply checks_bad; [right|].
Qed.

(** Schemas within the supported subset and less than [n] deep. *)
Fixpoint supported (n : nat) (s : J) : Prop :=
  match n with
  | O => False
  | S n =>
      (json_type s = JSON_OBJECT /\
       forall kv, kv ∈ json_members s -> turbo_tool_schema_supported_keyword kv.1 = true) /\
      keyword s "type" type_shape /\ keyword s "enum" enum_shape /\ True /\
      kind_shape (supported n) s
  end.

Lemma admits_iff (s v : J) :
  admits s v <->
  True /\ keyword s "type" (fun t => admits_type t v) /\
  keyword s "enum" (fun e => exists x, x ∈ json_array_items e /\ same_value v x) /\
  keyword s "const" (same_value v) /\ admits_kind v s.
Proof.
  split.
  - intros [Ht He Hc Hn Hs Ha Ho]. split_and!; [done..|]. by split.
  - intros (_ & Ht & He & Hc & [Hn Hs Ha Ho]). by apply admits_intro.
Qed.

Lemma validate_node_spec n : forall v s,
  checks (shallow v) (turbo_tool_schema_validate_node n v s) (admits s v) (supported n s).
Proof.
  induction n as [|n IH]; intros v s; [apply checks_bad; [by right|by intros []]|].
  eapply checks_iff; [|done|symmetry; apply admits_iff|].
  { cbn [turbo_tool_schema_validate_node].
    apply checks_then; [apply check_keywords_spec|intros _].
    apply checks_then; [apply check_type_spec|intros _].
    apply checks_then; [apply check_enum_spec|intros _].
    apply checks_then; [apply check_const_spec|intros _].
    apply check_by_kind_spec. exact IH. }
  done.
Qed.

End spec.

(** No failure has the status VALID. *)
Lemma validate_honest {J} `{JsonMembersLaws J} (v s : J) message :
  validate v s <> Some (TURBO_TOOL_SCHEMA_VALID, message).
Proof.
  intros E. destruct (validate_node_spec (S TURBO_TOOL_SCHEMA_MAX_DEPTH) v s) as [_ _ Hh _].
  change (turbo_tool_schema_validate_node (S TURBO_TOOL_SCHEMA_MAX_DEPTH) v s)
    with (validate v s) in Hh. rewrite E in Hh. by specialize (Hh eq_refl).
Qed.

(** ** The entry points *)

Section entry.
Context {J : Type} `{JsonLaws J, !JsonSetters J, !JsonSettersLaws J,
                     !JsonMembers J, !JsonMembersLaws J} {W : Type} `{Cmeta}.

(** The schema a definition carries, before strictness is applied. *)
Definition definition_schema (d : turbo_tool_definition J W) : option J :=
  match d_parameters_schema d with
  | Some s => Some s
  | None => d_parameters_json d ≫= json_parse
  end.

Lemma close_strict_plenty strict (p : J) o : plenty o -> exists o', plenty o' /\
  close_strict strict p o =
    (if negb (strict =? 0) && bool_decide (json_type p = JSON_OBJECT)
        && bool_decide (json_object_get p "additionalProperties" = None)
     then json_object_add p "additionalProperties" (json_create_bool false) else p, o').
Proof.
  intros Hp. unfold close_strict. destruct (_ && _ && _); [by apply json_set_bool_plenty|eauto].
Qed.

Lemma parse_parameters_strict (d : turbo_tool_definition J W) o schema o' source :
  turbo_tool_schema_parse_parameters (Some d) o = (Some schema, o') -> plenty o ->
  d_strict d <> 0 -> definition_schema d = Some source -> json_type source = JSON_OBJECT ->
  json_object_get source "additionalProperties" = None ->
  json_object_get schema "additionalProperties" = Some (json_create_bool false).
Proof.
  intros Hparse Hp Hs Hd Ht Ha. apply Z.eqb_neq in Hs.
  assert (Hclose : forall p o1, plenty o1 -> json_equiv p source ->
    json_object_get (close_strict (d_strict d) p o1).1 "additionalProperties" =
      Some (json_create_bool false)).
  { intros p o1 Hp1 He. destruct (close_strict_plenty (d_strict d) p o1 Hp1) as (o2 & _ & ->).
    pose proof (json_type_proper _ _ He) as Htp. rewrite Ht in Htp.
    pose proof (json_get_proper _ _ "additionalProperties" He) as Hg. rewrite Ha in Hg.
    inversion Hg as [|Hn]. rewrite Hs, !bool_decide_true by done. cbn. by apply json_get_add. }
  unfold turbo_tool_schema_parse_parameters, definition_schema in *. cbn in Hparse.
  destruct (d_parameters_schema d) as [s|].
  - injection Hd as ->. unfold try_clone in Hparse.
    destruct (alloc_plenty o Hp) as (o1 & Hp1 & E1). rewrite E1 in Hparse.
    pose proof (Hclose (json_clone source) o1 Hp1 (json_clone_equiv _)) as Hc.
    destruct (close_strict _ _ _). by injection Hparse as -> _.
  - unfold turbo_tool_schema_parse_parameters_json in Hparse.
    destruct (d_parameters_json d) as [text|]; [|done]. cbn in Hd.
    destruct (alloc_plenty o Hp) as (o1 & Hp1 & E1). rewrite E1, Hd in Hparse.
    pose proof (Hclose source o1 Hp1 ltac:(reflexivity)) as Hc.
    destruct (close_strict _ _ _). by injection Hparse as -> _.
Qed.

Lemma validate_arguments_unfold (d : turbo_tool_definition J W) v capacity o schema o' :
  turbo_tool_schema_parse_parameters (Some d) o = (Some schema, o') ->
  turbo_tool_schema_validate_arguments_json_value (Some d) (Some v) capacity o =
    ((verdict_of (validate v schema)).1,
     turbo_tool_schema_diagnostic capacity (verdict_of (validate v schema)).2, o').
Proof.
  intros Hparse. unfold turbo_tool_schema_validate_arguments_json_value. rewrite Hparse.
  unfold turbo_tool_schema_parse_parameters in Hparse.
  destruct (d_parameters_schema d) as [s|].
  - rewrite (bool_decide_true (is_Some (Some s))) by done. cbn [negb]. by rewrite andb_false_r.
  - destruct (d_parameters_json d) as [text|]; [|done]. by rewrite bool_decide_false.
Qed.

(** VALID: the schema could be materialized and admits the value. *)
Lemma valid_admits (d : turbo_tool_definition J W) (v : J) capacity o :
  (turbo_tool_schema_validate_arguments_json_value (Some d) (Some v) capacity o).1.1 =
    TURBO_TOOL_SCHEMA_VALID ->
  exists schema o', turbo_tool_schema_parse_parameters (Some d) o = (Some schema, o') /\
    admits schema v.
Proof.
  intros Hv. destruct (turbo_tool_schema_parse_parameters (Some d) o) as [[schema|] o'] eqn:E.
  - exists schema, o'. split; [done|]. rewrite (validate_arguments_unfold d v capacity o schema o' E) in Hv.
    destruct (validate_node_spec (S TURBO_TOOL_SCHEMA_MAX_DEPTH) v schema) as [Hon _ _ _]. apply Hon.
    change (validate v schema = None). destruct (validate v schema) as [[status message]|] eqn:Ev; [|done].
    cbn in Hv. subst status. by destruct (validate_honest _ _ _ Ev).
  - exfalso. revert Hv. unfold turbo_tool_schema_validate_arguments_json_value. rewrite E.
    by destruct (bool_decide _ && _).
Qed.

Definition declared (schema : J) (p : string) : Prop :=
  exists ps, json_object_get schema "properties" = Some ps /\ is_Some (json_object_get ps p).


End entry.

(** ** On concrete schemas *)

Module ToolSchemaRuns.
Import JsonTree CmetaToy.

Definition num (n : Z) : jtree := JNum None (DFinite n 0).

Definition count_schema : jtree :=
  JObj [("type", JStr "object");
        ("properties", JObj [("n", JObj [("type", JStr "integer"); ("minimum", num 1)])]);
        ("required", JArr [JStr "n"])].

Definition closed_schema : jtree :=
  JObj [("type", JStr "object");
        ("properties", JObj [("n", JObj [("type", JStr "integer"); ("minimum", num 1)])]);
        ("required", JArr [JStr "n"]); ("additionalProperties", JBool false)].

Definition count_definition (strict : Z) : turbo_tool_definition jtree unit :=
  mk_definition (Some "count") (Some "counts") None (Some count_schema) strict None None None.

Definition run (strict : Z) (v : jtree) :=
  (turbo_tool_schema_validate_arguments_json_value (Some (count_definition strict)) (Some v)
     (Some 24) []).1.

Example accepts : run 1 (JObj [("n", num 3)]) = (TURBO_TOOL_SCHEMA_VALID, Some "").
Proof. vm_compute. reflexivity. Qed.

(** The text is cut to the buffer. *)
Example below_minimum :
  run 1 (JObj [("n", num 0)]) = (TURBO_TOOL_SCHEMA_VALUE_INVALID, Some "parameter violates nume").
Proof. vm_compute. reflexivity. Qed.

Example missing_required :
  run 1 (JObj []) = (TURBO_TOOL_SCHEMA_VALUE_INVALID, Some "missing required proper").
Proof. vm_compute. reflexivity. Qed.

(** Strictness closes the object. *)
Example extra_member :
  (run 1 (JObj [("n", num 3); ("m", JNull)])).1 = TURBO_TOOL_SCHEMA_VALUE_INVALID /\
  (run 0 (JObj [("n", num 3); ("m", JNull)])).1 = TURBO_TOOL_SCHEMA_VALID.
Proof. split; vm_compute; reflexivity. Qed.

Example unknown_keyword :
  status_of (validate JNull (JObj [("pattern", JStr "a*")])) = TURBO_TOOL_SCHEMA_UNSUPPORTED.
Proof. vm_compute. reflexivity. Qed.

(** A text counts only up to its first NUL, for its length and for an enumeration. *)
Example hidden_tail :
  let text := JStr ("a" ++ String ch_nul "bc")%string in
  status_of (validate text (JObj [("maxLength", num 1)])) = TURBO_TOOL_SCHEMA_VALID /\
  status_of (validate text (JObj [("enum", JArr [JStr "a"])])) = TURBO_TOOL_SCHEMA_VALID.
Proof. split; vm_compute; reflexivity. Qed.

Lemma count_parse :
  turbo_tool_schema_parse_parameters (Some (count_definition 1)) [] = (Some closed_schema, []).
Proof. vm_compute. reflexivity. Defined.


End ToolSchemaRuns.
