(* ===== verification/ToolExport.v ===== *)
(** * Exporting a registry to model providers (turbo_tool_schema.c, 630-1042)

    The five builders walk the registry by index and append one document per
    tool.  The library's convenience setters ignore a lack of memory; the
    registry dump uses the checked ones.  A builder answers [None] for NULL. *)

From S2P Require Import Prelude RuntimeJson JsonBuild Tool ToolRegistry ToolSchema.

#[local] Open Scope string_scope.
#[local] Open Scope Z_scope.

(** ** Wire names *)

(* src/runtime_tools/src/turbo_tool_schema.c 630-633 turbo_tool_schema_openai_name_char_valid *)
Definition turbo_tool_schema_openai_name_char_valid (ch : Ascii.ascii) : bool :=
  let c := char_code ch in
  ((97 <=? c) && (c <=? 122)) || ((65 <=? c) && (c <=? 90)) || ((48 <=? c) && (c <=? 57))
  || (c =? 95) || (c =? 45).

(* src/runtime_tools/src/turbo_tool_schema.c 650-653 turbo_tool_schema_openai_compatible_name *)
Fixpoint compatible_copy (name : string) : string :=
  match name with
  | EmptyString => EmptyString
  | String c name =>
      String (if turbo_tool_schema_openai_name_char_valid c then c else underscore)
        (compatible_copy name)
  end.

(* src/runtime_tools/src/turbo_tool_schema.c 635-655 turbo_tool_schema_openai_compatible_name *)
Definition turbo_tool_schema_openai_compatible_name (name : option string) (o : oracle)
  : option string * oracle :=
  if negb (nonempty_text name) then (None, o)
  else let (ok, o) := alloc o in (if ok then compatible_copy <$> name else None, o).

(** The indices [0 .. n - 1]. *)
Definition indices (n : nat) : list Z := Z.of_nat <$> seq 0 n.

Section export.
Context {J W : Type} `{JsonSetters J, Cmeta}.
Abbreviation registry := (option (turbo_tool_registry (J := J) (W := W))).

(* src/runtime_tools/src/turbo_tool_schema.c 665-686 turbo_tool_schema_openai_compatible_name_seen *)
Fixpoint name_seen (r : registry) (l : list Z) (name : string) (o : oracle) : bool * oracle :=
  match l with
  | [] => (false, o)
  | i :: l =>
      match turbo_tool_registry_get_definition r i with
      | (TURBO_TOOL_OK, Some previous) =>
          let (previous_name, o) := turbo_tool_schema_openai_compatible_name (d_name previous) o in
          match previous_name with
          | None => (true, o)
          | Some p => if bool_decide (p = name) then (true, o) else name_seen r l name o
          end
      | _ => (true, o)
      end
  end.

(* src/runtime_tools/src/turbo_tool_schema.c 657-687 turbo_tool_schema_openai_compatible_name_seen *)
Definition turbo_tool_schema_openai_compatible_name_seen (r : registry) (end_index : Z)
    (name : option string) (o : oracle) : bool * oracle :=
  match r, name with
  | Some _, Some name => name_seen r (indices (Z.to_nat end_index)) name o
  | _, _ => (false, o)
  end.

(** ** Tool documents *)

(* src/runtime_tools/src/turbo_tool_schema.c 746-751 turbo_tool_schema_build_openai_chat_tool_with_parameters *)
Definition function_fields (name description : string) (parameters : J)
    (strict compatible_mode : Z) : list (raw_setter J) :=
  [raw_string "name" name; raw_string "description" description]
  ++ (if compatible_mode =? 0 then [raw_bool "strict" (negb (strict =? 0))] else [])
  ++ [raw_member "parameters" parameters].

(* src/runtime_tools/src/turbo_tool_schema.c 725-754 turbo_tool_schema_build_openai_chat_tool_with_parameters *)
Definition turbo_tool_schema_build_openai_chat_tool_with_parameters
    (name description : option string) (parameters : option J) (strict compatible_mode : Z)
    (o : oracle) : option J * oracle :=
  match name, description, parameters with
  | Some name, Some description, Some parameters =>
      let (tool, o) := alloc o in
      let (function_object, o) := alloc o in
      if negb tool || negb function_object then (None, o)
      else
        let (tool, o) := json_object_set_string json_create_object "type" "function" o in
        let (function_object, o) :=
          raw_all (function_fields name description parameters strict compatible_mode)
            json_create_object o in
        let (tool, o) := json_object_add_owned tool "function" function_object o in
        (Some tool, o)
  | _, _, _ => (None, o)
  end.

(* src/runtime_tools/src/turbo_tool_schema.c 689-723 turbo_tool_schema_build_openai_chat_tool_definition *)
Definition turbo_tool_schema_build_openai_chat_tool_definition
    (name description parameters_json : option string) (strict compatible_mode : Z) (o : oracle)
  : option J * oracle :=
  match name, description, parameters_json with
  | Some _, Some _, Some _ =>
      let (parameters, o) := turbo_tool_schema_parse_parameters_json parameters_json strict o in
      match parameters with
      | None => (None, o)
      | Some _ =>
          turbo_tool_schema_build_openai_chat_tool_with_parameters name description parameters
            strict compatible_mode o
      end
  | _, _, _ => (None, o)
  end.

(** The loop over the tools: [build] makes the document of one definition,
    [append] adds it to the array. *)
Fixpoint export_loop (build : Z -> turbo_tool_definition J W -> oracle -> option J * oracle)
    (append : J -> J -> oracle -> option J * oracle) (r : registry) (l : list Z) (tools : J)
    (o : oracle) : option J * oracle :=
  match l with
  | [] => (Some tools, o)
  | i :: l =>
      match turbo_tool_registry_get_definition r i with
      | (TURBO_TOOL_OK, Some definition) =>
          let (tool, o) := build i definition o in
          match tool with
          | None => (None, o)
          | Some tool =>
              let (tools, o) := append tools tool o in
              match tools with
              | None => (None, o)
              | Some tools => export_loop build append r l tools o
              end
          end
      | _ => (None, o)
      end
  end.

(** Every builder: the array first, then the loop. *)
Definition export_all (build : Z -> turbo_tool_definition J W -> oracle -> option J * oracle)
    (append : J -> J -> oracle -> option J * oracle) (r : registry) (o : oracle)
  : option J * oracle :=
  let count := turbo_tool_registry_count r in
  let (tools, o) := alloc o in
  if negb tools then (None, o)
  else export_loop build append r (indices (Z.to_nat count)) json_create_array o.

(** [json_array_add], whose answer the builders ignore. *)
Definition append_unchecked (tools tool : J) (o : oracle) : option J * oracle :=
  let (tools, o) := json_array_add_owned tools tool o in (Some tools, o).

(** The wire name of a definition, unless an earlier tool has it already. *)
(* src/runtime_tools/src/turbo_tool_schema.c 778-784 turbo_tool_schema_build_openai_tools *)
Definition fresh_name (r : registry) (i : Z) (definition : turbo_tool_definition J W) (o : oracle)
  : option string * oracle :=
  let (compatible_name, o) := turbo_tool_schema_openai_compatible_name (d_name definition) o in
  match compatible_name with
  | None => (None, o)
  | Some _ =>
      let (seen, o) := turbo_tool_schema_openai_compatible_name_seen r i compatible_name o in
      (if seen then None else compatible_name, o)
  end.

(** Registered definitions have a name and a description. *)
Definition text_of (s : option string) : string := default EmptyString s.

(* src/runtime_tools/src/turbo_tool_schema.c 801-806 turbo_tool_schema_build_openai_tools *)
Definition response_fields (name : string) (definition : turbo_tool_definition J W)
    (parameters : J) : list (raw_setter J) :=
  [raw_string "type" "function"; raw_string "name" name;
   raw_string "description" (text_of (d_description definition));
   raw_bool "strict" (negb (d_strict definition =? 0)); raw_member "parameters" parameters].

(* src/runtime_tools/src/turbo_tool_schema.c 767-808 turbo_tool_schema_build_openai_tools *)
Definition build_response_tool (r : registry) (i : Z) (definition : turbo_tool_definition J W)
    (o : oracle) : option J * oracle :=
  let (compatible_name, o) := fresh_name r i definition o in
  match compatible_name with
  | None => (None, o)
  | Some name =>
      let (parameters, o) := turbo_tool_schema_parse_parameters (Some definition) o in
      match parameters with
      | None => (None, o)
      | Some parameters =>
          let (tool, o) := alloc o in
          if negb tool then (None, o)
          else
            let (tool, o) :=
              raw_all (response_fields name definition parameters) json_create_object o in
            (Some tool, o)
      end
  end.

(* src/runtime_tools/src/turbo_tool_schema.c 756-811 turbo_tool_schema_build_openai_tools *)
Definition turbo_tool_schema_build_openai_tools (r : registry) (o : oracle) : option J * oracle :=
  export_all (build_response_tool r) append_unchecked r o.

(* src/runtime_tools/src/turbo_tool_schema.c 921-957 turbo_tool_schema_build_openai_compatible_chat_tools *)
Definition build_compatible_chat_tool (r : registry) (i : Z)
    (definition : turbo_tool_definition J W) (o : oracle) : option J * oracle :=
  let (compatible_name, o) := fresh_name r i definition o in
  match compatible_name with
  | None => (None, o)
  | Some _ =>
      let (parameters, o) := turbo_tool_schema_parse_parameters (Some definition) o in
      match parameters with
      | None => (None, o)
      | Some _ =>
          turbo_tool_schema_build_openai_chat_tool_with_parameters compatible_name
            (d_description definition) parameters (d_strict definition) 1 o
      end
  end.

(* src/runtime_tools/src/turbo_tool_schema.c 909-961 turbo_tool_schema_build_openai_compatible_chat_tools *)
Definition turbo_tool_schema_build_openai_compatible_chat_tools (r : registry) (o : oracle)
  : option J * oracle :=
  export_all (build_compatible_chat_tool r) append_unchecked r o.

(* src/runtime_tools/src/turbo_tool_schema.c 973-995 turbo_tool_schema_build_openai_chat_tools *)
Definition build_chat_tool (i : Z) (definition : turbo_tool_definition J W) (o : oracle)
  : option J * oracle :=
  let (parameters, o) := turbo_tool_schema_parse_parameters (Some definition) o in
  match parameters with
  | None => (None, o)
  | Some _ =>
      turbo_tool_schema_build_openai_chat_tool_with_parameters (d_name definition)
        (d_description definition) parameters (d_strict definition) 0 o
  end.

(* src/runtime_tools/src/turbo_tool_schema.c 963-999 turbo_tool_schema_build_openai_chat_tools *)
Definition turbo_tool_schema_build_openai_chat_tools (r : registry) (o : oracle)
  : option J * oracle :=
  export_all build_chat_tool append_unchecked r o.

(* src/runtime_tools/src/turbo_tool_schema.c 1012-1038 turbo_tool_schema_build_anthropic_tools *)
Definition build_anthropic_tool (i : Z) (definition : turbo_tool_definition J W) (o : oracle)
  : option J * oracle :=
  let (input_schema, o) := turbo_tool_schema_parse_parameters (Some definition) o in
  match input_schema with
  | None => (None, o)
  | Some input_schema =>
      let (tool, o) := alloc o in
      if negb tool then (None, o)
      else
        let (tool, o) :=
          raw_all [raw_string "name" (text_of (d_name definition));
                   raw_string "description" (text_of (d_description definition));
                   raw_member "input_schema" input_schema] json_create_object o in
        (Some tool, o)
  end.

(* src/runtime_tools/src/turbo_tool_schema.c 1001-1042 turbo_tool_schema_build_anthropic_tools *)
Definition turbo_tool_schema_build_anthropic_tools (r : registry) (o : oracle)
  : option J * oracle :=
  export_all build_anthropic_tool append_unchecked r o.

(** ** The registry dump *)

(* src/runtime_tools/src/turbo_tool_schema.c 841-846 turbo_tool_schema_build_registry_json_value *)
Definition dump_parameters (definition : turbo_tool_definition J W) (o : oracle)
  : option J * oracle :=
  match d_parameters_schema definition with
  | Some schema => turbo_tool_schema_clone_json_value (Some schema) o
  | None => turbo_tool_schema_parse_parameters_json_value (d_parameters_json definition)
              (d_strict definition) o
  end.

(** The members, each inserted by the checked setter. *)
(* src/runtime_tools/src/turbo_tool_schema.c 857-896 turbo_tool_schema_build_registry_json_value *)
Definition dump_fields (definition : turbo_tool_definition J W) (parameters : J)
  : list (setter J) :=
  [(fun obj o => turbo_runtime_json_object_set obj (Some "name")
                   (Some (json_create_string (text_of (d_name definition)))) o);
   (fun obj o => turbo_runtime_json_object_set obj (Some "description")
                   (Some (json_create_string (text_of (d_description definition)))) o);
   (fun obj o => turbo_runtime_json_object_set obj (Some "strict")
                   (Some (json_create_bool (negb (d_strict definition =? 0)))) o);
   (fun obj o => turbo_runtime_json_object_set obj (Some "parameters") (Some parameters) o)].

(* src/runtime_tools/src/turbo_tool_schema.c 824-896 turbo_tool_schema_build_registry_json_value *)
Definition build_dump_tool (i : Z) (definition : turbo_tool_definition J W) (o : oracle)
  : option J * oracle :=
  let (tool, o) := alloc o in
  let (name, o) := alloc o in
  let (description, o) := alloc o in
  let (strict, o) := alloc o in
  let (parameters, o) := dump_parameters definition o in
  match parameters with
  | Some parameters =>
      if negb tool || negb name || negb description || negb strict then (None, o)
      else
        let '(ok, tool, o) :=
          set_all (dump_fields definition parameters) (Some json_create_object) o in
        (if ok then tool else None, o)
  | None => (None, o)
  end.

(* src/runtime_tools/src/turbo_tool_schema.c 898-903 turbo_tool_schema_build_registry_json_value *)
Definition append_checked (tools tool : J) (o : oracle) : option J * oracle :=
  match turbo_runtime_json_array_append (Some tools) (Some tool) o with
  | (TURBO_RUNTIME_JSON_OK, tools, o) => (tools, o)
  | (_, _, o) => (None, o)
  end.

(* src/runtime_tools/src/turbo_tool_schema.c 813-907 turbo_tool_schema_build_registry_json_value *)
Definition turbo_tool_schema_build_registry_json_value (r : registry) (o : oracle)
  : option J * oracle :=
  export_all build_dump_tool append_checked r o.

End export.
