(* ===== verification/ToolExportFacts.v ===== *)
(** * What the exports contain, and that wire names lead back

    Documents of the five builders, member by member, and the agreement between
    the names they publish and the lookup of the registry. *)

From S2P Require Import Prelude RuntimeJson JsonBuild Tool ToolRegistry ToolRegistryFacts.
From S2P Require Import ToolSchema ToolSchemaFacts ToolExport.


(** ** Names *)

Lemma compatible_copy_form s : compatible_copy s = compatible_form s.
Proof. induction s as [|c s IH]; cbn; [done|]. by rewrite IH. Qed.

Lemma compatible_form_idem s : compatible_form (compatible_form s) = compatible_form s.
Proof.
  induction s as [|c s IH]; cbn; [done|]. rewrite IH. f_equal.
  destruct (turbo_tool_openai_name_char_valid c) eqn:E; [by rewrite E|done].
Qed.

Lemma compatible_form_empty s : compatible_form s = EmptyString <-> s = EmptyString.
Proof. by destruct s. Qed.

(** An empty name has no compatible one. *)
Lemma compatible_name_plenty name o : plenty o ->
  exists o', plenty o' /\
    turbo_tool_schema_openai_compatible_name (Some name) o =
      (if bool_decide (name = EmptyString) then None else Some (compatible_form name), o').
Proof.
  intros Hp. unfold turbo_tool_schema_openai_compatible_name. destruct name as [|c name]; [by exists o|].
  destruct (alloc_plenty o Hp) as (o' & Hp' & E). exists o'. split; [done|].
  cbn [negb nonempty_text]. rewrite E. cbn [fmap option_fmap option_map].
  by rewrite compatible_copy_form.
Qed.

Lemma indices_S n : indices (S n) = indices n ++ [Z.of_nat n].
Proof. unfold indices. by rewrite seq_S, fmap_app. Qed.

Section facts.
Context {J W : Type} `{JsonLaws J, !JsonSetters J, !JsonSettersLaws J, Cmeta}.
Abbreviation entry := (turbo_tool_entry (J := J) (W := W)).
Abbreviation registry := (turbo_tool_registry (J := J) (W := W)).

Definition form (e : entry) : string := compatible_form (e_name e).

(** A name that was taken: by one of these wire names, or one of them is missing. *)
Definition taken (name : string) (names : list string) : Prop := name ∈ names \/ EmptyString ∈ names.

#[local] Instance taken_dec name names : Decision (taken name names).
Proof. unfold taken. apply _. Defined.

Lemma taken_cons name n names : taken name (n :: names) <-> n = EmptyString \/ n = name \/ taken name names.
Proof.
  unfold taken. rewrite !elem_of_cons.
  split; [intros [[->|?]|[<-|?]]; auto|intros [->|[->|[?|?]]]; auto].
Qed.

(** The scan for an earlier tool with the same wire name. *)
Lemma name_seen_plenty (r : registry) name l : forall k o,
  plenty o ->
  (k + l <= length (entries r))%nat ->
  exists o', plenty o' /\
    name_seen (Some r) (Z.of_nat <$> seq k l) name o =
      (bool_decide (taken name (form <$> take l (drop k (entries r)))), o').
Proof.
  induction l as [|l IH]; intros k o Hp Hk; cbn [seq fmap list_fmap name_seen].
  { exists o. split; [done|]. rewrite bool_decide_false; [done|]. by intros [?%not_elem_of_nil|?%not_elem_of_nil]. }
  destruct (lookup_lt_is_Some_2 (entries r) k) as [e He]; [lia|].
  rewrite (get_definition_view r k e He). cbn [d_name view].
  destruct (compatible_name_plenty (e_name e) o) as (o1 & Hp1 & E1); [done|].
  rewrite E1. rewrite (drop_S _ _ _ He). cbn [take fmap list_fmap].
  change (compatible_form (e_name e)) with (form e).
  case_bool_decide as Ee.
  { exists o1. split; [done|]. rewrite bool_decide_true; [done|]. rewrite taken_cons. left. by apply compatible_form_empty. }
  case_bool_decide as Ef.
  - exists o1. split; [done|]. rewrite bool_decide_true; [done|]. rewrite taken_cons. tauto.
  - destruct (IH (S k) o1 Hp1) as (o2 & Hp2 & E2); [lia|]. exists o2. split; [done|].
    etransitivity; [exact E2|]. f_equal. apply bool_decide_ext. rewrite taken_cons.
    split; [tauto|]. intros [Hf|[?|?]]; [|done..]. by apply (proj1 (compatible_form_empty _)) in Hf.
Qed.

Lemma fresh_name_plenty (r : registry) i e o :
  entries r !! i = Some e -> plenty o ->
  exists o', plenty o' /\
    fresh_name (Some r) (Z.of_nat i) (view e) o =
      (if bool_decide (e_name e <> EmptyString /\ ~ taken (form e) (form <$> take i (entries r)))
       then Some (form e) else None, o').
Proof.
  intros Hi Hp. unfold fresh_name.
  destruct (compatible_name_plenty (e_name e) o) as (o1 & Hp1 & E1); [done|].
  cbn [d_name view]. rewrite E1. case_bool_decide as Ee.
  { exists o1. split; [done|]. rewrite bool_decide_false; [done|]. by intros [? _]. }
  unfold turbo_tool_schema_openai_compatible_name_seen, indices.
  rewrite Nat2Z.id. pose proof (lookup_lt_Some _ _ _ Hi).
  destruct (name_seen_plenty r (form e) i 0 o1 Hp1) as (o2 & Hp2 & E2); [lia|].
  cbn [drop] in E2. unfold form in *. rewrite E2. exists o2. split; [done|]. f_equal.
  repeat case_bool_decide; tauto.
Qed.

(** With pairwise distinct wire names, a wire name leads back to its tool. *)
Lemma find_form (r : registry) i e : NoDup (form <$> entries r) -> entries r !! i = Some e ->
  turbo_tool_registry_find (Some r) (Some (form e)) = Some i.
Proof.
  intros Hnd Hi.
  assert (Huniq : forall j e', entries r !! j = Some e' -> form e' = form e -> j = i).
  { intros j e' Hj Hf. eapply (NoDup_lookup (form <$> entries r)); [done|..];
      rewrite list_lookup_fmap; [by rewrite Hj|rewrite Hi; cbn; by f_equal]. }
  unfold turbo_tool_registry_find.
  destruct (find_exact 0 (entries r) (form e)) as [k|] eqn:E.
  - apply find_exact_some in E as (j & e' & -> & Hj & Hn). cbn. f_equal. apply (Huniq j e' Hj).
    change (compatible_form (e_name e') = form e). rewrite Hn. apply compatible_form_idem.
  - pose proof (scan_compatible_spec (entries r) (form e) 0 None 0) as Hscan.
    destruct (scan_compatible 0 (entries r) (form e) None 0) as [m n].
    destruct Hscan as (Hle & Hzero & Hone & Htwo).
    destruct (Z.eqb_spec n 1) as [->|Hne].
    + destruct Hone as (j & e' & -> & Hj & Hc & _); [done|]. cbn. f_equal. by eapply Huniq.
    + exfalso. destruct (decide (n = 0)) as [->|Hn0].
      { destruct Hzero as [_ Hz]; [done|]. by eapply Hz. }
      destruct Htwo as (j & e1 & j' & e2 & Hne' & Hj & Hj' & Hc1 & Hc2); [lia|].
      apply Hne'. by rewrite (Huniq _ _ Hj Hc1), (Huniq _ _ Hj' Hc2).
Qed.

(** ** Schemas and documents *)

Definition closed (strict : Z) (p : J) : J :=
  if negb (strict =? 0) && bool_decide (json_type p = JSON_OBJECT)
     && bool_decide (json_object_get p "additionalProperties" = None)
  then json_object_add p "additionalProperties" (json_create_bool false) else p.

(** The parameters a provider is told of an entry. *)
Definition effective_schema (e : entry) : option J :=
  match e_parameters_schema e with
  | Some s => Some (closed (e_strict e) (json_clone s))
  | None => closed (e_strict e) <$> json_parse (e_parameters_json e)
  end.

(** The parameters the dump shows: a given schema as it is. *)
Definition dumped_schema (e : entry) : option J :=
  match e_parameters_schema e with
  | Some s => Some (json_clone (json_clone s))
  | None => (fun p => json_clone (closed (e_strict e) p)) <$> json_parse (e_parameters_json e)
  end.

Lemma try_clone_plenty (v : J) o : plenty o ->
  exists o', plenty o' /\ try_clone v o = (Some (json_clone v), o').
Proof.
  intros Hp. destruct (alloc_plenty o Hp) as (o' & Hp' & E). exists o'. split; [done|].
  unfold try_clone. by rewrite E.
Qed.

Lemma parse_json_plenty text strict o : plenty o ->
  exists o', plenty o' /\
    turbo_tool_schema_parse_parameters_json (Some text) strict o = (closed strict <$> json_parse text, o').
Proof.
  intros Hp. unfold turbo_tool_schema_parse_parameters_json.
  destruct (alloc_plenty o Hp) as (o1 & Hp1 & ->). destruct (json_parse text) as [p|]; [|by exists o1].
  destruct (close_strict_plenty strict p o1 Hp1) as (o2 & Hp2 & ->). by exists o2.
Qed.

Lemma parse_parameters_plenty e o : plenty o ->
  exists o', plenty o' /\
    turbo_tool_schema_parse_parameters (Some (view e)) o = (effective_schema e, o').
Proof.
  intros Hp. unfold effective_schema, turbo_tool_schema_parse_parameters.
  cbn [view d_parameters_schema d_parameters_json d_strict].
  destruct (e_parameters_schema e) as [s|]; [|by apply parse_json_plenty].
  destruct (try_clone_plenty s o Hp) as (o1 & Hp1 & ->).
  destruct (close_strict_plenty (e_strict e) (json_clone s) o1 Hp1) as (o2 & Hp2 & ->).
  by exists o2.
Qed.

Lemma dump_parameters_plenty e o : plenty o ->
  exists o', plenty o' /\ dump_parameters (view e) o = (dumped_schema e, o').
Proof.
  intros Hp. unfold dumped_schema, dump_parameters.
  cbn [view d_parameters_schema d_parameters_json d_strict turbo_tool_schema_clone_json_value].
  destruct (e_parameters_schema e) as [s|].
  - destruct (try_clone_plenty s o Hp) as (o1 & Hp1 & ->). by apply try_clone_plenty.
  - unfold turbo_tool_schema_parse_parameters_json_value.
    destruct (parse_json_plenty (e_parameters_json e) (e_strict e) o Hp) as (o1 & Hp1 & ->).
    destruct (json_parse (e_parameters_json e)); [by apply try_clone_plenty|by exists o1].
Qed.

Lemma dumped_schema_effective e : is_Some (dumped_schema e) <-> is_Some (effective_schema e).
Proof.
  unfold dumped_schema, effective_schema. destruct (e_parameters_schema e); [by split|].
  by destruct (json_parse (e_parameters_json e)).
Qed.

Definition document (members : list (string * J)) : J := foldl add_member json_create_object members.

(** OpenAI Responses: the wire name at the top. *)
Definition response_document (e : entry) (p : J) : J :=
  document [("type", json_create_string "function"); ("name", json_create_string (form e));
            ("description", json_create_string (e_description e));
            ("strict", json_create_bool (negb (e_strict e =? 0))); ("parameters", p)].

(** OpenAI Chat: the name within the function object. *)
Definition function_members (name : string) (compatible_mode : Z) (e : entry) (p : J)
  : list (string * J) :=
  [("name", json_create_string name); ("description", json_create_string (e_description e))]
  ++ (if compatible_mode =? 0
      then [("strict", json_create_bool (negb (e_strict e =? 0)))] else [])
  ++ [("parameters", p)].

Definition chat_document (name : string) (compatible_mode : Z) (e : entry) (p : J) : J :=
  document [("type", json_create_string "function");
            ("function", document (function_members name compatible_mode e p))].

Definition anthropic_document (e : entry) (p : J) : J :=
  document [("name", json_create_string (e_name e));
            ("description", json_create_string (e_description e)); ("input_schema", p)].

Definition dump_document (e : entry) (p : J) : J :=
  document [("name", json_create_string (e_name e));
            ("description", json_create_string (e_description e));
            ("strict", json_create_bool (negb (e_strict e =? 0))); ("parameters", p)].

Ltac raw_members :=
  repeat constructor; intros ? ? ?;
  eauto using json_set_string_plenty, json_set_bool_plenty, json_object_add_plenty.

Lemma chat_tool_plenty name e p mode o : plenty o ->
  exists o', plenty o' /\
    turbo_tool_schema_build_openai_chat_tool_with_parameters (Some name)
      (Some (e_description e)) (Some p) (e_strict e) mode o =
    (Some (chat_document name mode e p), o').
Proof.
  intros Hp. unfold turbo_tool_schema_build_openai_chat_tool_with_parameters, chat_document.
  destruct (alloc_plenty o Hp) as (o1 & Hp1 & ->).
  destruct (alloc_plenty o1 Hp1) as (o2 & Hp2 & ->). cbn [negb orb].
  destruct (json_set_string_plenty json_create_object "type" "function" o2 Hp2)
    as (o3 & Hp3 & ->).
  assert (Hf : Forall2 raw_sets (function_fields name (e_description e) p (e_strict e) mode)
                 (function_members name mode e p))
    by (unfold function_fields, function_members; destruct (mode =? 0); raw_members).
  destruct (raw_all_plenty _ _ Hf json_create_object o3 Hp3) as (o4 & Hp4 & ->).
  destruct (json_object_add_plenty (json_object_add json_create_object "type"
    (json_create_string "function")) "function" (document (function_members name mode e p)) o4 Hp4)
    as (o5 & Hp5 & E5).
  exists o5. split; [done|]. unfold document in E5. by rewrite E5.
Qed.

(** ** The loop *)

Section loop.
Context (r : registry) (doc : nat -> entry -> option J).
Context (build : Z -> turbo_tool_definition J W -> oracle -> option J * oracle).
Context (append : J -> J -> oracle -> option J * oracle).
Context (build_plenty : forall i e o, entries r !! i = Some e -> plenty o ->
  exists o', plenty o' /\ build (Z.of_nat i) (view e) o = (doc i e, o')).
Context (append_plenty : forall a v o, json_type a = JSON_ARRAY -> plenty o ->
  exists o', plenty o' /\ append a v o = (Some (json_array_add a v), o')).

(** The documents of the tools from [k] on, unless one has none. *)
Fixpoint documents (k : nat) (l : list entry) : option (list J) :=
  match l with
  | [] => Some []
  | e :: l => d ← doc k e; ds ← documents (S k) l; Some (d :: ds)
  end.

Lemma export_loop_plenty l : forall k tools o,
  drop k (entries r) = l -> json_type tools = JSON_ARRAY -> plenty o ->
  exists o', plenty o' /\
    match documents k l with
    | Some ds => exists arr, json_type arr = JSON_ARRAY /\
        json_array_items arr = json_array_items tools ++ ds /\
        export_loop build append (Some r) (Z.of_nat <$> seq k (length l)) tools o = (Some arr, o')
    | None => export_loop build append (Some r) (Z.of_nat <$> seq k (length l)) tools o = (None, o')
    end.
Proof.
  induction l as [|e l IH]; intros k tools o Hd Ht Hp; cbn [length seq fmap list_fmap export_loop documents].
  { exists o. split; [done|]. exists tools. by rewrite app_nil_r. }
  assert (Hk : entries r !! k = Some e).
  { rewrite <- (Nat.add_0_r k), <- lookup_drop, Hd. done. }
  rewrite (get_definition_view r k e Hk).
  destruct (build_plenty k e o Hk Hp) as (o1 & Hp1 & ->).
  destruct (doc k e) as [d|]; cbn [mbind option_bind]; [|by exists o1].
  destruct (append_plenty tools d o1 Ht Hp1) as (o2 & Hp2 & ->).
  destruct (IH (S k) (json_array_add tools d) o2) as (o3 & Hp3 & Hres); [|by apply json_type_array_add|done|].
  { rewrite <- Nat.add_1_r, <- drop_drop, Hd. done. }
  exists o3. split; [done|].
  destruct (documents (S k) l) as [ds|]; cbn [mbind option_bind]; [|exact Hres].
  destruct Hres as (arr & Harr & Hitems & Hres). exists arr. split; [done|]. split; [|exact Hres].
  by rewrite Hitems, json_items_add, <- app_assoc by done.
Qed.

Lemma export_all_plenty o : plenty o -> exists o', plenty o' /\
  match documents 0 (entries r) with
  | Some ds => exists arr, json_type arr = JSON_ARRAY /\ json_array_items arr = ds /\
      export_all build append (Some r) o = (Some arr, o')
  | None => export_all build append (Some r) o = (None, o')
  end.
Proof.
  intros Hp. unfold export_all. destruct (alloc_plenty o Hp) as (o1 & Hp1 & ->). cbn [negb].
  unfold turbo_tool_registry_count, indices. rewrite Nat2Z.id.
  destruct (export_loop_plenty (entries r) 0 json_create_array o1) as (o2 & Hp2 & Hres);
    [done|by apply json_type_array|done|].
  exists o2. split; [done|]. destruct (documents 0 (entries r)); [|done].
  by rewrite json_items_create in Hres.
Qed.

Lemma documents_total (P : entry -> J -> Prop) l : forall k,
  (forall i e, l !! i = Some e -> exists d, doc (k + i) e = Some d /\ P e d) ->
  exists ds, documents k l = Some ds /\ Forall2 P l ds.
Proof.
  induction l as [|e l IH]; intros k Hall; cbn; [by eexists|].
  destruct (Hall 0%nat e eq_refl) as (d & Ed & HP). rewrite Nat.add_0_r in Ed. rewrite Ed. cbn.
  destruct (IH (S k)) as (ds & Eds & Hds).
  { intros i e' Hi. destruct (Hall (S i) e' Hi) as (d' & Ed' & HP').
    exists d'. by replace (S k + i)%nat with (k + S i)%nat by lia. }
  rewrite Eds. cbn. exists (d :: ds). split; [done|]. by constructor.
Qed.

Lemma documents_some l : forall k ds i e,
  documents k l = Some ds -> l !! i = Some e -> is_Some (doc (k + i) e).
Proof.
  induction l as [|e0 l IH]; intros k ds i e Hd Hi; [done|]. cbn in Hd.
  destruct (doc k e0) as [d|] eqn:Ed; [|done]. cbn in Hd.
  destruct (documents (S k) l) as [ds'|] eqn:Eds; [|done].
  destruct i as [|i]; cbn in Hi; [injection Hi as <-; by rewrite Nat.add_0_r, Ed|].
  replace (k + S i)%nat with (S k + i)%nat by lia. by eapply IH.
Qed.

End loop.

(** ** The five builders *)

Lemma append_unchecked_plenty (a v : J) o : json_type a = JSON_ARRAY -> plenty o ->
  exists o', plenty o' /\ append_unchecked a v o = (Some (json_array_add a v), o').
Proof.
  intros _ Hp. unfold append_unchecked.
  destruct (json_array_add_plenty a v o Hp) as (o' & Hp' & ->). by exists o'.
Qed.

Lemma append_checked_plenty (a v : J) o : json_type a = JSON_ARRAY -> plenty o ->
  exists o', plenty o' /\ append_checked a v o = (Some (json_array_add a v), o').
Proof.
  intros Ht Hp. unfold append_checked, turbo_runtime_json_array_append.
  rewrite bool_decide_true by done. cbn [negb].
  destruct (alloc_plenty o Hp) as (o' & Hp' & ->). by exists o'.
Qed.

Section builders.
Context (r : registry).

(** The tool has a name, and its wire name is none of an earlier tool's. *)
Definition fresh (i : nat) (e : entry) : bool :=
  bool_decide (e_name e <> EmptyString /\ ~ taken (form e) (form <$> take i (entries r))).

Definition aliased (doc : entry -> J -> J) (i : nat) (e : entry) : option J :=
  if fresh i e then doc e <$> effective_schema e else None.

Lemma build_response_plenty i e o : entries r !! i = Some e -> plenty o ->
  exists o', plenty o' /\
    build_response_tool (Some r) (Z.of_nat i) (view e) o = (aliased response_document i e, o').
Proof.
  intros Hi Hp. unfold build_response_tool, aliased, fresh.
  destruct (fresh_name_plenty r i e o Hi Hp) as (o1 & Hp1 & ->).
  case_bool_decide; [|by exists o1].
  destruct (parse_parameters_plenty e o1 Hp1) as (o2 & Hp2 & ->).
  destruct (effective_schema e) as [p|]; [|by exists o2].
  destruct (alloc_plenty o2 Hp2) as (o3 & Hp3 & ->). cbn [negb].
  assert (Hf : Forall2 raw_sets (response_fields (form e) (view e) p)
    [("type", json_create_string "function"); ("name", json_create_string (form e));
     ("description", json_create_string (e_description e));
     ("strict", json_create_bool (negb (e_strict e =? 0))); ("parameters", p)]) by raw_members.
  destruct (raw_all_plenty _ _ Hf json_create_object o3 Hp3) as (o4 & Hp4 & ->). by exists o4.
Qed.

Lemma build_compatible_plenty i e o : entries r !! i = Some e -> plenty o ->
  exists o', plenty o' /\
    build_compatible_chat_tool (Some r) (Z.of_nat i) (view e) o =
      (aliased (fun e => chat_document (form e) 1 e) i e, o').
Proof.
  intros Hi Hp. unfold build_compatible_chat_tool, aliased, fresh.
  destruct (fresh_name_plenty r i e o Hi Hp) as (o1 & Hp1 & ->).
  case_bool_decide; [|by exists o1].
  destruct (parse_parameters_plenty e o1 Hp1) as (o2 & Hp2 & ->).
  destruct (effective_schema e) as [p|]; [|by exists o2]. by apply chat_tool_plenty.
Qed.

Lemma build_chat_plenty i e o : entries r !! i = Some e -> plenty o ->
  exists o', plenty o' /\
    build_chat_tool (Z.of_nat i) (view e) o =
      (chat_document (e_name e) 0 e <$> effective_schema e, o').
Proof.
  intros Hi Hp. unfold build_chat_tool.
  destruct (parse_parameters_plenty e o Hp) as (o2 & Hp2 & ->).
  destruct (effective_schema e) as [p|]; [|by exists o2]. by apply chat_tool_plenty.
Qed.

Lemma build_anthropic_plenty i e o : entries r !! i = Some e -> plenty o ->
  exists o', plenty o' /\
    build_anthropic_tool (Z.of_nat i) (view e) o =
      (anthropic_document e <$> effective_schema e, o').
Proof.
  intros Hi Hp. unfold build_anthropic_tool.
  destruct (parse_parameters_plenty e o Hp) as (o1 & Hp1 & ->).
  destruct (effective_schema e) as [p|]; [|by exists o1].
  destruct (alloc_plenty o1 Hp1) as (o2 & Hp2 & ->). cbn [negb].
  assert (Hf : Forall2 raw_sets
    [raw_string "name" (text_of (d_name (view e)));
     raw_string "description" (text_of (d_description (view e))); raw_member "input_schema" p]
    [("name", json_create_string (e_name e));
     ("description", json_create_string (e_description e)); ("input_schema", p)]) by raw_members.
  destruct (raw_all_plenty _ _ Hf json_create_object o2 Hp2) as (o3 & Hp3 & ->). by exists o3.
Qed.

Lemma build_dump_plenty i e o : entries r !! i = Some e -> plenty o ->
  exists o', plenty o' /\
    build_dump_tool (Z.of_nat i) (view e) o = (dump_document e <$> dumped_schema e, o').
Proof.
  intros Hi Hp. unfold build_dump_tool.
  destruct (alloc_plenty o Hp) as (o1 & Hp1 & ->).
  destruct (alloc_plenty o1 Hp1) as (o2 & Hp2 & ->).
  destruct (alloc_plenty o2 Hp2) as (o3 & Hp3 & ->).
  destruct (alloc_plenty o3 Hp3) as (o4 & Hp4 & ->).
  destruct (dump_parameters_plenty e o4 Hp4) as (o5 & Hp5 & ->). cbn [negb orb].
  destruct (dumped_schema e) as [p|]; [|by exists o5].
  assert (Hf : Forall2 sets (dump_fields (view e) p)
    [("name", json_create_string (e_name e));
     ("description", json_create_string (e_description e));
     ("strict", json_create_bool (negb (e_strict e =? 0))); ("parameters", p)])
    by (repeat constructor; intros ? ? ? ?; by apply object_set_plenty).
  destruct (set_all_plenty _ _ Hf json_create_object o5 json_type_object Hp5) as (o6 & Hp6 & ->).
  by exists o6.
Qed.

Definition wire_names_distinct : Prop :=
  NoDup (form <$> entries r) /\ Forall (fun e => e_name e <> EmptyString) (entries r).

Lemma fresh_spec i e : fresh i e = true <->
  e_name e <> EmptyString /\
  forall j e', (j < i)%nat -> entries r !! j = Some e' -> form e' <> form e /\ e_name e' <> EmptyString.
Proof.
  assert (Hin : forall x, x ∈ (form <$> take i (entries r)) <->
    exists j e', (j < i)%nat /\ entries r !! j = Some e' /\ form e' = x).
  { intros x. rewrite list_elem_of_fmap. setoid_rewrite list_elem_of_lookup. split.
    - intros (e' & -> & j & [Hj Hlt]%lookup_take_Some). by exists j, e'.
    - intros (j & e' & Hlt & Hj & <-). exists e'. split; [done|]. exists j. by rewrite lookup_take_lt. }
  unfold fresh, taken. rewrite bool_decide_eq_true, !Hin. split; intros [Hne Hall]; (split; [exact Hne|]).
  - intros j e' Hj He'. split; [intros Ef; apply Hall; left|intros Ee; apply Hall; right]; exists j, e'; [done|].
    split_and!; [done..|]. by apply compatible_form_empty.
  - intros [(j & e' & Hj & He' & Ef)|(j & e' & Hj & He' & Ef)]; destruct (Hall j e' Hj He') as [H1f H2f]; [done|].
    apply H2f. by apply compatible_form_empty.
Qed.

Lemma all_fresh_iff : (forall i e, entries r !! i = Some e -> fresh i e = true) <-> wire_names_distinct.
Proof.
  unfold wire_names_distinct. rewrite NoDup_alt, Forall_lookup. split.
  - intros Hall. split; [|intros i e Hi; apply (proj1 (fresh_spec i e) (Hall i e Hi))].
    intros i j x Hi Hj. rewrite list_lookup_fmap in Hi, Hj.
    destruct (entries r !! i) as [ei|] eqn:Ei, (entries r !! j) as [ej|] eqn:Ej; try done.
    injection Hi as Hi. injection Hj as Hj.
    destruct (Nat.lt_trichotomy i j) as [Hlt|[Heq|Hlt]]; [exfalso|exact Heq|exfalso].
    + by apply (proj1 (proj2 (proj1 (fresh_spec j ej) (Hall j ej Ej)) i ei Hlt Ei)); rewrite Hi, Hj.
    + by apply (proj1 (proj2 (proj1 (fresh_spec i ei) (Hall i ei Ei)) j ej Hlt Ej)); rewrite Hi, Hj.
  - intros [Hinj Hne] i e Hi. apply fresh_spec. split; [by eapply Hne|]. intros j e' Hj He'.
    split; [|by eapply Hne]. intros Ef.
    enough (j = i) by lia. apply (Hinj j i (form e)); rewrite list_lookup_fmap.
    + by rewrite He', <- Ef.
    + by rewrite Hi.
Qed.

(** A successful answer: an array with one document per tool, in order. *)
Definition published (answer : option J * oracle) (P : entry -> J -> Prop) : Prop :=
  exists arr o', answer = (Some arr, o') /\ json_type arr = JSON_ARRAY /\
    Forall2 P (entries r) (json_array_items arr).

Lemma publish build append doc P o : plenty o ->
  (forall i e o, entries r !! i = Some e -> plenty o ->
     exists o', plenty o' /\ build (Z.of_nat i) (view e) o = (doc i e, o')) ->
  (forall a v o, json_type a = JSON_ARRAY -> plenty o ->
     exists o', plenty o' /\ append a v o = (Some (json_array_add a v), o')) ->
  (forall i e, entries r !! i = Some e -> exists d, doc i e = Some d /\ P e d) ->
  published (export_all build append (Some r) o) P.
Proof.
  intros Hp Hbuild Happend Hdoc.
  destruct (export_all_plenty r doc build append Hbuild Happend o Hp) as (o' & _ & Hres).
  destruct (documents_total doc P (entries r) 0) as (ds & Eds & Hds); [exact Hdoc|].
  rewrite Eds in Hres. destruct Hres as (arr & Ht & <- & E). by exists arr, o'.
Qed.

(** A tool without its document fails the whole export. *)
Lemma refuse build append doc o : plenty o ->
  (forall i e o, entries r !! i = Some e -> plenty o ->
     exists o', plenty o' /\ build (Z.of_nat i) (view e) o = (doc i e, o')) ->
  (forall a v o, json_type a = JSON_ARRAY -> plenty o ->
     exists o', plenty o' /\ append a v o = (Some (json_array_add a v), o')) ->
  ~ (forall i e, entries r !! i = Some e -> is_Some (doc i e)) ->
  (export_all build append (Some r) o).1 = None.
Proof.
  intros Hp Hbuild Happend Hmissing.
  destruct (export_all_plenty r doc build append Hbuild Happend o Hp) as (o' & _ & Hres).
  destruct (documents doc 0 (entries r)) as [ds|] eqn:Eds; [|by rewrite Hres].
  exfalso. apply Hmissing. intros i e Hi. exact (documents_some doc (entries r) 0 ds i e Eds Hi).
Qed.

Lemma all_aliased doc : (forall i e, entries r !! i = Some e -> is_Some (aliased doc i e)) ->
  wire_names_distinct /\ Forall (fun e => is_Some (effective_schema e)) (entries r).
Proof.
  intros Hall. rewrite <- all_fresh_iff, Forall_lookup. unfold aliased in Hall.
  split; intros i e Hi; specialize (Hall i e Hi); destruct (fresh i e); try done.
  by apply fmap_is_Some in Hall.
Qed.

End builders.

(** Each tool has its document, made with its effective schema. *)
Definition with_schema (doc : entry -> J -> J) (e : entry) (j : J) : Prop :=
  exists p, effective_schema e = Some p /\ j = doc e p.


End facts.

(** ** Concrete exports *)

Module ToolExportRuns.
Import JsonTree CmetaToy.

Abbreviation toy_registry := (turbo_tool_registry (J := jtree) (W := unit)).

Definition tool (name : string) : turbo_tool_definition jtree unit :=
  mk_definition (Some name) (Some "a tool") None (Some (JObj [("type", JStr "object")])) 1
    (Some (fun arguments w => (0, Some arguments, w))) None None.

Definition add (name : string) (r : toy_registry) : toy_registry :=
  default r (turbo_tool_registry_add (Some r) (Some (tool name)) []).1.2.

Definition files : toy_registry := add "fs.write" (add "fs.read" (mk_registry [] 0)).

Definition strict_object : jtree := JObj [("type", JStr "object"); ("additionalProperties", JBool false)].

Example files_exported :
  option_map json_array_items (turbo_tool_schema_build_openai_tools (Some files) []).1 =
  Some (map (fun name => JObj [("type", JStr "function"); ("name", JStr name);
                               ("description", JStr "a tool"); ("strict", JBool true);
                               ("parameters", strict_object)]) ["fs_read"; "fs_write"]).
Proof. vm_compute. reflexivity. Qed.

(** [a_b] and then [a.b] can be registered, but not exported together. *)
Example collision_not_exported :
  let r := add "a.b" (add "a_b" (mk_registry [] 0)) in
  length (entries r) = 2%nat /\ (turbo_tool_schema_build_openai_tools (Some r) []).1 = None /\
  (turbo_tool_schema_build_openai_chat_tools (Some r) []).1 <> None.
Proof. vm_compute. split; [done|split; [done|discriminate]]. Qed.

Lemma files_ready :
  NoDup (e_name <$> entries files) /\
  Forall (fun e => e_name e <> EmptyString) (entries files) /\
  Forall (fun e => is_Some (effective_schema e)) (entries files) /\
  NoDup (form <$> entries files).
Proof.
  split_and!; by apply (bool_decide_unpack _); vm_compute.
Qed.


End ToolExportRuns.
