(* ===== verification/ToolContracts.v ===== *)
(** * Result contracts between tools (turbo_agent_contracts.c)

    Whether the result of one tool may be passed to an input property of
    another, decided from the registered schemas alone.  The theorem relates the
    three answers to what the schema validator would say of the values. *)

From S2P Require Import Prelude RuntimeJson JsonBuild Tool ToolRegistry ToolRegistryFacts.
From S2P Require Import ToolSchema ToolSchemaFacts.

(* src/agent_compiler/include/turbo_agent_contracts.h 12-19 turbo_agent_contract_compatibility_t *)
Inductive turbo_agent_contract_compatibility : Type :=
| TURBO_AGENT_CONTRACT_UNKNOWN
| TURBO_AGENT_CONTRACT_COMPATIBLE
| TURBO_AGENT_CONTRACT_INCOMPATIBLE.

#[global] Instance compatibility_eq_dec : EqDecision turbo_agent_contract_compatibility.
Proof. solve_decision. Defined.

(* src/agent_compiler/src/turbo_agent_contracts.c 7-16 turbo_agent_contract_type_t *)
Inductive turbo_agent_contract_type : Type :=
| TURBO_AGENT_CONTRACT_TYPE_UNKNOWN
| TURBO_AGENT_CONTRACT_TYPE_OBJECT
| TURBO_AGENT_CONTRACT_TYPE_ARRAY
| TURBO_AGENT_CONTRACT_TYPE_STRING
| TURBO_AGENT_CONTRACT_TYPE_INTEGER
| TURBO_AGENT_CONTRACT_TYPE_NUMBER
| TURBO_AGENT_CONTRACT_TYPE_BOOLEAN
| TURBO_AGENT_CONTRACT_TYPE_NULL.

#[global] Instance contract_type_eq_dec : EqDecision turbo_agent_contract_type.
Proof. solve_decision. Defined.

(** The comparisons with the seven names. *)
(* src/agent_compiler/src/turbo_agent_contracts.c 31-38 contract_type *)
Definition contract_type_of_name (name : string) : turbo_agent_contract_type :=
  if bool_decide (name = "object"%string) then TURBO_AGENT_CONTRACT_TYPE_OBJECT
  else if bool_decide (name = "array"%string) then TURBO_AGENT_CONTRACT_TYPE_ARRAY
  else if bool_decide (name = "string"%string) then TURBO_AGENT_CONTRACT_TYPE_STRING
  else if bool_decide (name = "integer"%string) then TURBO_AGENT_CONTRACT_TYPE_INTEGER
  else if bool_decide (name = "number"%string) then TURBO_AGENT_CONTRACT_TYPE_NUMBER
  else if bool_decide (name = "boolean"%string) then TURBO_AGENT_CONTRACT_TYPE_BOOLEAN
  else if bool_decide (name = "null"%string) then TURBO_AGENT_CONTRACT_TYPE_NULL
  else TURBO_AGENT_CONTRACT_TYPE_UNKNOWN.

(* src/agent_compiler/src/turbo_agent_contracts.c 41-47 contract_scalar *)
Definition contract_scalar (type : turbo_agent_contract_type) : bool :=
  bool_decide (type = TURBO_AGENT_CONTRACT_TYPE_STRING)
  || bool_decide (type = TURBO_AGENT_CONTRACT_TYPE_INTEGER)
  || bool_decide (type = TURBO_AGENT_CONTRACT_TYPE_NUMBER)
  || bool_decide (type = TURBO_AGENT_CONTRACT_TYPE_BOOLEAN)
  || bool_decide (type = TURBO_AGENT_CONTRACT_TYPE_NULL).

(* src/agent_compiler/src/turbo_agent_contracts.c 148-160 turbo_agent_tool_result_slot_compatibility *)
Definition compare_types (producer_type consumer_type : turbo_agent_contract_type)
  : turbo_agent_contract_compatibility :=
  if negb (contract_scalar producer_type) then TURBO_AGENT_CONTRACT_UNKNOWN
  else if bool_decide (producer_type = consumer_type)
          || (bool_decide (producer_type = TURBO_AGENT_CONTRACT_TYPE_INTEGER)
              && bool_decide (consumer_type = TURBO_AGENT_CONTRACT_TYPE_NUMBER))
  then TURBO_AGENT_CONTRACT_COMPATIBLE
  else if bool_decide (producer_type = TURBO_AGENT_CONTRACT_TYPE_NUMBER)
          && bool_decide (consumer_type = TURBO_AGENT_CONTRACT_TYPE_INTEGER)
  then TURBO_AGENT_CONTRACT_UNKNOWN
  else TURBO_AGENT_CONTRACT_INCOMPATIBLE.

Section contracts.
Context {J W : Type} `{JsonSetters J, Cmeta}.
Abbreviation registry := (option (turbo_tool_registry (J := J) (W := W))).

(* src/agent_compiler/src/turbo_agent_contracts.c 18-39 contract_type *)
Definition contract_type (schema : option J) : turbo_agent_contract_type :=
  match schema with
  | Some schema =>
      if negb (bool_decide (json_type schema = JSON_OBJECT))
      then TURBO_AGENT_CONTRACT_TYPE_UNKNOWN
      else
        match json_object_get schema "type" with
        | Some type =>
            if negb (bool_decide (json_type type = JSON_STRING))
            then TURBO_AGENT_CONTRACT_TYPE_UNKNOWN
            else contract_type_of_name (json_c_text type)
        | None => TURBO_AGENT_CONTRACT_TYPE_UNKNOWN
        end
  | None => TURBO_AGENT_CONTRACT_TYPE_UNKNOWN
  end.

(** [None] is the answer 0. *)
(* src/agent_compiler/src/turbo_agent_contracts.c 49-63 contract_type_only_scalar *)
Definition contract_type_only_scalar (schema : option J) : option turbo_agent_contract_type :=
  match schema with
  | Some s =>
      if negb (bool_decide (json_type s = JSON_OBJECT)) || negb (json_object_size s =? 1)
         || bool_decide (json_object_get s "type" = None)
      then None
      else
        let type := contract_type schema in
        if negb (contract_scalar type) then None else Some type
  | None => None
  end.

(* src/agent_compiler/src/turbo_agent_contracts.c 78-87 contract_definition_by_name *)
Fixpoint definition_scan (r : registry) (l : list Z) (canonical : string)
  : option (turbo_tool_definition J W) :=
  match l with
  | [] => None
  | index :: l =>
      match turbo_tool_registry_get_definition r index with
      | (TURBO_TOOL_OK, Some definition) =>
          if bool_decide (d_name definition = Some canonical) then Some definition
          else definition_scan r l canonical
      | _ => None
      end
  end.

(* src/agent_compiler/src/turbo_agent_contracts.c 65-89 contract_definition_by_name *)
Definition contract_definition_by_name (r : registry) (name : option string)
  : option (turbo_tool_definition J W) :=
  match r, name with
  | Some _, Some _ =>
      match turbo_tool_registry_resolve_name r name with
      | (TURBO_TOOL_OK, Some canonical) =>
          definition_scan r (Z.of_nat <$> seq 0 (Z.to_nat (turbo_tool_registry_count r))) canonical
      | _ => None
      end
  | _, _ => None
  end.

(** The schema of the property, when the consumer's parameters have one. *)
(* src/agent_compiler/src/turbo_agent_contracts.c 122-138 turbo_agent_tool_result_slot_compatibility *)
Definition consumer_slot (consumer : turbo_tool_definition J W) (consumer_property : string)
    (o : oracle) : option J * oracle :=
  let (parameters, o) :=
    match d_parameters_schema consumer with
    | Some schema => (Some schema, o)
    | None => turbo_tool_schema_parse_parameters_json_value (d_parameters_json consumer)
                (d_strict consumer) o
    end in
  let member (j : option J) (key : string) :=
    p ← j; if bool_decide (json_type p = JSON_OBJECT) then json_object_get p key else None in
  (member (member parameters "properties") consumer_property, o).

(* src/agent_compiler/src/turbo_agent_contracts.c 91-161 turbo_agent_tool_result_slot_compatibility *)
Definition turbo_agent_tool_result_slot_compatibility (r : registry)
    (producer_tool consumer_tool consumer_property : option string) (o : oracle)
  : turbo_agent_contract_compatibility * oracle :=
  match r, producer_tool, consumer_tool, consumer_property with
  | Some _, Some _, Some _, Some (String _ _ as property) =>
      match turbo_tool_registry_get_result_contract r producer_tool with
      | (TURBO_TOOL_OK, (Some _, Some result_schema, _)) =>
          match contract_definition_by_name r consumer_tool with
          | None => (TURBO_AGENT_CONTRACT_UNKNOWN, o)
          | Some consumer =>
              let (slot, o) := consumer_slot consumer property o in
              let producer_type := contract_type (Some result_schema) in
              match contract_type_only_scalar slot with
              | None => (TURBO_AGENT_CONTRACT_UNKNOWN, o)
              | Some consumer_type => (compare_types producer_type consumer_type, o)
              end
          end
      | _ => (TURBO_AGENT_CONTRACT_UNKNOWN, o)
      end
  | _, _, _, _ => (TURBO_AGENT_CONTRACT_UNKNOWN, o)
  end.

End contracts.

(** ** Types and values *)

Definition scalar_name (t : turbo_agent_contract_type) : option string :=
  match t with
  | TURBO_AGENT_CONTRACT_TYPE_STRING => Some "string"%string
  | TURBO_AGENT_CONTRACT_TYPE_INTEGER => Some "integer"%string
  | TURBO_AGENT_CONTRACT_TYPE_NUMBER => Some "number"%string
  | TURBO_AGENT_CONTRACT_TYPE_BOOLEAN => Some "boolean"%string
  | TURBO_AGENT_CONTRACT_TYPE_NULL => Some "null"%string
  | _ => None
  end.

Lemma scalar_name_of_name name t :
  contract_type_of_name name = t -> contract_scalar t = true -> scalar_name t = Some name.
Proof.
  intros <-. unfold contract_type_of_name. by repeat case_bool_decide; subst.
Qed.

Section facts.
Context {J W : Type} `{JsonLaws J, !JsonSetters J, !JsonSettersLaws J,
                       !JsonMembers J, !JsonMembersLaws J, Cmeta}.
Abbreviation registry := (turbo_tool_registry (J := J) (W := W)).

Lemma integer_is_number (v : J) : has_type v "integer" -> has_type v "number".
Proof.
  intros Hi. inversion Hi as [| | | |n Et En| |]. destruct (json_number v) as [m e| |] eqn:E; try done.
  by eapply type_number.
Qed.

Lemma compare_types_unknown p c :
  contract_scalar p = false -> compare_types p c = TURBO_AGENT_CONTRACT_UNKNOWN.
Proof. intros E. unfold compare_types. by rewrite E. Qed.

(** The table of comparisons is right about values. *)
Lemma compare_types_sound p c pname cname (v : J) :
  scalar_name p = Some pname -> scalar_name c = Some cname -> has_type v pname ->
  (compare_types p c = TURBO_AGENT_CONTRACT_COMPATIBLE -> has_type v cname) /\
  (compare_types p c = TURBO_AGENT_CONTRACT_INCOMPATIBLE -> ~ has_type v cname).
Proof.
  intros Hp Hc Hv.
  destruct p; try discriminate Hp; destruct c; try discriminate Hc;
    injection Hp as <-; injection Hc as <-; cbn; (split; intros Hcmp; try discriminate Hcmp); auto.
  all: try by apply integer_is_number.
  all: intros Hv'; inversion Hv; inversion Hv'; congruence.
Qed.

(** A schema with nothing but a type accepts exactly the values of that type. *)
Lemma only_type_validate (v s t : J) b : json_type s = JSON_OBJECT -> json_object_size s = 1 ->
  json_object_get s "type" = Some t -> json_type t = JSON_STRING ->
  turbo_tool_schema_type_matches v (json_c_text t) = Some b ->
  status_of (validate v s) = if b then TURBO_TOOL_SCHEMA_VALID else TURBO_TOOL_SCHEMA_VALUE_INVALID.
Proof.
  intros Es Hsize Ht Ett Hm.
  assert (Hmem : json_members s = [("type"%string, t)]).
  { pose proof (json_get_member _ _ _ Ht) as Hin. rewrite json_members_size in Hsize.
    destruct (json_members s) as [|kv [|]]; cbn in Hsize; try lia.
    by apply list_elem_of_singleton in Hin as ->. }
  assert (Hnone : forall key, key <> "type"%string -> json_object_get s key = None).
  { intros key Hne. destruct (json_object_get s key) as [x|] eqn:E; [|done].
    apply json_get_member in E. rewrite Hmem in E. by apply list_elem_of_singleton in E as [= ? _]. }
  unfold validate. cbn [turbo_tool_schema_validate_node].
  unfold turbo_tool_schema_check_keywords. rewrite Es, bool_decide_true, Hmem by done. cbn [negb].
  unfold check_type. rewrite Ht, Ett, Hm.
  destruct b; [|done]. unfold check_enum, check_const. rewrite !Hnone by done.
  unfold check_by_kind, check_numeric_bound, check_size_bound, numeric_bounds, string_bounds,
    array_bounds, object_bounds, check_items, check_required, check_properties, check_additional,
    check_member.
  cbn [first_failure and_then fst snd]. rewrite !Hnone by done.
  destruct (json_type v); try done. cbn. by induction (json_members v).
Qed.

Lemma slot_verdict (v s ts : J) name c : json_type s = JSON_OBJECT -> json_object_size s = 1 ->
  json_object_get s "type" = Some ts -> json_type ts = JSON_STRING -> json_c_text ts = name ->
  name ∈ type_names ->
  (c = TURBO_AGENT_CONTRACT_COMPATIBLE -> has_type v name) ->
  (c = TURBO_AGENT_CONTRACT_INCOMPATIBLE -> ~ has_type v name) ->
  (c = TURBO_AGENT_CONTRACT_COMPATIBLE -> status_of (validate v s) = TURBO_TOOL_SCHEMA_VALID) /\
  (c = TURBO_AGENT_CONTRACT_INCOMPATIBLE ->
     status_of (validate v s) = TURBO_TOOL_SCHEMA_VALUE_INVALID).
Proof.
  intros Es Hsize Hts Ets <- Hin Hyes Hno.
  pose proof (type_matches_spec v (json_c_text ts)) as Hm.
  destruct (turbo_tool_schema_type_matches v (json_c_text ts)) as [b|] eqn:Eb; [|by destruct Hm].
  destruct Hm as [_ Hm]. rewrite (only_type_validate v s ts b) by done.
  split; intros Hc; destruct b; try done.
  - exfalso. by apply not_true_iff_false with (b := false); [|apply Hm, Hyes].
  - exfalso. by apply (Hno Hc), Hm.
Qed.

Lemma scalar_name_known t name : scalar_name t = Some name -> name ∈ type_names.
Proof. by destruct t; intros [= <-]; repeat constructor. Qed.

(** What VALID says of a producer whose contract has a scalar type. *)
Lemma contract_type_scalar (s : J) t : contract_type (Some s) = t -> contract_scalar t = true ->
  exists ts name, json_type s = JSON_OBJECT /\ json_object_get s "type" = Some ts /\
    json_type ts = JSON_STRING /\ json_c_text ts = name /\ scalar_name t = Some name.
Proof.
  unfold contract_type. intros <- Hs. case_bool_decide as Es; cbn [negb] in *; [|done].
  destruct (json_object_get s "type") as [ts|]; [|done].
  case_bool_decide as Ets; cbn [negb] in *; [|done].
  exists ts, (json_c_text ts). split_and!; try done. by apply scalar_name_of_name.
Qed.

(** The result schema as it is validated against still has its type. *)
Lemma strict_type (s ts : J) strict o : plenty o -> json_type s = JSON_OBJECT ->
  json_object_get s "type" = Some ts ->
  exists p o' ts', turbo_tool_schema_parse_parameters
      (Some (result_view (W := W) s strict)) o = (Some p, o') /\
    json_object_get p "type" = Some ts' /\ json_equiv ts' ts.
Proof.
  intros Hp Es Hts. unfold turbo_tool_schema_parse_parameters. cbn [result_view d_parameters_schema d_strict].
  unfold try_clone. destruct (alloc_plenty o Hp) as (o1 & Hp1 & ->).
  destruct (close_strict_plenty strict (json_clone s) o1 Hp1) as (o2 & _ & ->).
  pose proof (json_clone_equiv s) as He.
  pose proof (json_get_proper _ _ "type" He) as Hg. rewrite Hts in Hg.
  inversion Hg as [ts' ? Het Hts' |]. subst.
  eexists _, o2, ts'. split; [done|]. split; [|done].
  destruct (_ && _ && _); [|done]. rewrite json_get_add_ne; [done| |done].
  by rewrite (json_type_proper _ _ He).
Qed.

Lemma result_valid_type (r : registry) producer text schema strict v capacity o t name :
  NoDup (e_name <$> entries r) -> plenty o ->
  turbo_tool_registry_get_result_contract (Some r) (Some producer) =
    (TURBO_TOOL_OK, (text, Some schema, strict)) ->
  contract_type (Some schema) = t -> contract_scalar t = true -> scalar_name t = Some name ->
  (turbo_tool_schema_validate_result_json_value (Some r) (Some producer) (Some v) capacity o).1.1 =
    TURBO_TOOL_SCHEMA_VALID ->
  has_type v name.
Proof.
  intros Hnd Hp Hc Ht Hs Hn.
  destruct (contract_type_scalar schema t Ht Hs) as (ts & name' & Es & Hts & Ets & <- & Hn').
  rewrite Hn' in Hn. injection Hn as <-.
  unfold turbo_tool_registry_get_result_contract, read_entry in Hc.
  destruct (found (Some r) (Some producer)) as [e|] eqn:Ef; [|done].
  unfold turbo_tool_schema_validate_result_json_value, turbo_tool_registry_resolve_name.
  rewrite Ef, bool_decide_true by done. cbn [andb].
  destruct (nonempty_text (Some producer)); cbn [negb]; [|done].
  unfold turbo_tool_registry_get_result_contract, read_entry.
  rewrite (found_canonical r _ e Hnd Ef). injection Hc as Et Esch Estr. rewrite Esch, Estr.
  destruct (strict_type schema ts strict o Hp Es Hts) as (p & o' & ts' & Hparse & Hts' & Heq).
  rewrite (validate_arguments_unfold _ v capacity o p o' Hparse). cbn [fst snd].
  pose proof (validate_node_spec (S TURBO_TOOL_SCHEMA_MAX_DEPTH) v p) as [Hon _ _ _].
  change (turbo_tool_schema_validate_node (S TURBO_TOOL_SCHEMA_MAX_DEPTH) v p)
    with (validate v p) in Hon.
  destruct (validate v p) as [[status message]|] eqn:Ev.
  { cbn [verdict_of fst]. intros ->. exfalso. by apply (validate_honest v p message). }
  intros _. destruct (Hon eq_refl) as [Htype _ _ _ _ _ _].
  pose proof (json_type_proper _ _ Heq) as Ett. rewrite Ets in Ett.
  destruct (Htype ts' Hts') as [[_ Hty]|[? _]]; [|congruence].
  by rewrite (json_c_text_proper _ _ Heq) in Hty.
Qed.

Lemma definition_scan_name r l canonical d : definition_scan r l canonical = Some d ->
  d_name (J := J) (W := W) d = Some canonical.
Proof.
  induction l as [|i l IH]; cbn; [done|].
  destruct (turbo_tool_registry_get_definition r i) as [[] [d'|]]; try done.
  case_bool_decide; [by intros [= <-]|done].
Qed.

(** C36. A compatibility answer is right about every value the producer may return:
    if its result passes validation against the registered result contract, then
    COMPATIBLE means that the schema of the consumer's property accepts the value,
    INCOMPATIBLE that it rejects it. *)
Theorem contract_compatibility_sound (r : registry) (producer consumer property : string)
    (c : turbo_agent_contract_compatibility) (o o' : oracle) (v : J) (capacity : option Z)
    (o2 : oracle) :
  NoDup (e_name <$> entries r) ->
  turbo_agent_tool_result_slot_compatibility (Some r) (Some producer) (Some consumer)
    (Some property) o = (c, o') -> c <> TURBO_AGENT_CONTRACT_UNKNOWN ->
  plenty o2 ->
  (turbo_tool_schema_validate_result_json_value (Some r) (Some producer) (Some v) capacity o2).1.1 =
    TURBO_TOOL_SCHEMA_VALID ->
  exists d slot,
    turbo_tool_registry_resolve_name (Some r) (Some consumer) = (TURBO_TOOL_OK, d_name d) /\
    contract_definition_by_name (Some r) (Some consumer) = Some d /\
    consumer_slot d property o = (Some slot, o') /\
    (c = TURBO_AGENT_CONTRACT_COMPATIBLE -> status_of (validate v slot) = TURBO_TOOL_SCHEMA_VALID) /\
    (c = TURBO_AGENT_CONTRACT_INCOMPATIBLE ->
       status_of (validate v slot) = TURBO_TOOL_SCHEMA_VALUE_INVALID).
Proof.
  intros Hnd Hc Hne Hp Hvalid. unfold turbo_agent_tool_result_slot_compatibility in Hc.
  destruct property as [|a property]; [by injection Hc as <- _|].
  destruct (turbo_tool_registry_get_result_contract (Some r) (Some producer))
    as [[] [[[text|] [schema|]] strict]] eqn:Econtract; try by injection Hc as <- _.
  destruct (contract_definition_by_name (Some r) (Some consumer)) as [d|] eqn:Ed;
    [|by injection Hc as <- _].
  destruct (consumer_slot d (String a property) o) as [slot o1] eqn:Eslot.
  destruct (contract_type_only_scalar slot) as [ct|] eqn:Ect; [|by injection Hc as <- _].
  injection Hc as Ec ->. unfold contract_type_only_scalar in Ect.
  destruct slot as [slot|]; [|done].
  destruct (negb (bool_decide (json_type slot = JSON_OBJECT)) || negb (json_object_size slot =? 1)
            || bool_decide (json_object_get slot "type" = None)) eqn:Eshape; [done|].
  bool_to_prop. destruct (contract_scalar (contract_type (Some slot))) eqn:Esc; [|done].
  assert (Ect' : contract_type (Some slot) = ct) by (injection Ect as E; exact E).
  destruct (contract_scalar (contract_type (Some schema))) eqn:Esp;
    [|exfalso; apply Hne; rewrite <- Ec; by apply compare_types_unknown].
  destruct (contract_type_scalar slot _ eq_refl Esc) as (ts & cname & Es & Hts & Ets & Ecn & Hcn).
  destruct (contract_type_scalar schema _ eq_refl Esp) as (_ & pname & _ & _ & _ & _ & Hpn).
  pose proof (result_valid_type r producer _ _ _ v capacity o2 _ pname Hnd Hp Econtract eq_refl Esp
                Hpn Hvalid) as Hty.
  rewrite Ect' in Hcn.
  destruct (compare_types_sound _ ct pname cname v Hpn Hcn Hty) as [Hyes Hno].
  exists d, slot. split; [|split; [done|split; [done|]]].
  - unfold contract_definition_by_name in Ed.
    destruct (turbo_tool_registry_resolve_name (Some r) (Some consumer)) as [[] [canonical|]];
      try done. by rewrite (definition_scan_name _ _ _ _ Ed).
  - eapply (slot_verdict v slot ts cname); eauto using scalar_name_known; by rewrite <- Ec.
Qed.

End facts.

(** ** Concrete tools *)

Module ToolContractRuns.
Import JsonTree CmetaToy.

Abbreviation toy_registry := (turbo_tool_registry (J := jtree) (W := unit)).

Definition typed (t : string) : jtree := JObj [("type"%string, JStr t)].

(** A tool that takes [n : input] and returns [output]. *)
Definition tool (name input output : string) : turbo_tool_definition_v6 jtree unit :=
  mk_definition_v6 sizeof_definition_v6 6
    (mk_definition (Some name) (Some "a tool"%string) None
       (Some (JObj [("properties"%string, JObj [("n"%string, typed input)])])) 0
       (Some (fun arguments w => (0, Some arguments, w))) None None)
    (mk_policy TURBO_TOOL_EXECUTION_PARALLEL_SAFE TURBO_TOOL_IDEMPOTENCY_READ_ONLY) (Some [])
    None None (Some (json_serialize (typed output))) 0 TURBO_TOOL_EFFECT_PURE.

Definition add (d : turbo_tool_definition_v6 jtree unit) (r : toy_registry) : toy_registry :=
  default r (turbo_tool_registry_add_v6 (Some r) (Some d) []).1.2.

Definition plotting : toy_registry :=
  add (tool "label" "string" "string")
    (add (tool "draw" "number" "string") (add (tool "count" "integer" "integer") (mk_registry [] 0))).

Definition compatibility (producer consumer : string) : turbo_agent_contract_compatibility :=
  (turbo_agent_tool_result_slot_compatibility (Some plotting) (Some producer) (Some consumer)
     (Some "n"%string) []).1.

Example plotting_table :
  compatibility "count" "draw" = TURBO_AGENT_CONTRACT_COMPATIBLE /\
  compatibility "count" "label" = TURBO_AGENT_CONTRACT_INCOMPATIBLE /\
  compatibility "draw" "label" = TURBO_AGENT_CONTRACT_COMPATIBLE.
Proof. vm_compute. split_and!; reflexivity. Qed.

(** Different scalar types that may still share values are not called incompatible. *)
Example number_to_integer :
  compare_types TURBO_AGENT_CONTRACT_TYPE_NUMBER TURBO_AGENT_CONTRACT_TYPE_INTEGER =
  TURBO_AGENT_CONTRACT_UNKNOWN.
Proof. reflexivity. Qed.

Lemma plotting_names : NoDup (e_name <$> entries plotting).
Proof. by apply (bool_decide_unpack _); vm_compute. Qed.

Lemma count_to_draw :
  turbo_agent_tool_result_slot_compatibility (Some plotting) (Some "count"%string)
    (Some "draw"%string) (Some "n"%string) [] = (TURBO_AGENT_CONTRACT_COMPATIBLE, []).
Proof. vm_compute. reflexivity. Qed.

Lemma count_result_valid :
  (turbo_tool_schema_validate_result_json_value (Some plotting) (Some "count"%string)
     (Some (JNum None (DFinite 3 0))) None []).1.1 = TURBO_TOOL_SCHEMA_VALID.
Proof. vm_compute. reflexivity. Qed.

Lemma contract_compatibility_sound_witness :
  plenty [] /\
  exists d slot, contract_definition_by_name (Some plotting) (Some "draw"%string) = Some d /\
    consumer_slot d "n" [] = (Some slot, []) /\
    status_of (validate (JNum None (DFinite 3 0)) slot) = TURBO_TOOL_SCHEMA_VALID.
Proof.
  split; [exact plenty_nil|].
  destruct (contract_compatibility_sound plotting "count" "draw" "n"
    TURBO_AGENT_CONTRACT_COMPATIBLE [] [] (JNum None (DFinite 3 0)) None [] plotting_names
    count_to_draw ltac:(discriminate) plenty_nil count_result_valid)
    as (d & slot & _ & Hd & Hslot & Hyes & _).
  exists d, slot. exact (conj Hd (conj Hslot (Hyes eq_refl))).
Defined.

End ToolContractRuns.
