(* ===== verification/DagCompiler.v ===== *)
(** * The DAG compiler (turbo_agent_dag_compiler.c)

    A source graph of tool calls is admitted against the registry, its
    dependencies are resolved to indices, cycles are refused, and the result is
    frozen: steps, capability union, projected registry, effect summary, hash.

    [compile] is the monad of the compiler: it threads the memory oracle, fails
    with a status and the message left in the diagnostic, and answers [None]
    when the fuel of the hash is exhausted.  What is freed on the way out is not
    modelled: values. *)

From stdpp Require Import sorting.
From S2P Require Import Prelude RuntimeJson JsonBuild Tool ToolRegistry ToolSchema.

#[local] Open Scope string_scope.
#[local] Open Scope Z_scope.

(* src/agent_compiler/include/turbo_agent_compiler.h 49-65 turbo_agent_compile_status_t *)
Inductive turbo_agent_compile_status : Type :=
| TURBO_AGENT_COMPILE_OK
| TURBO_AGENT_COMPILE_INVALID_ARGUMENT
| TURBO_AGENT_COMPILE_UNSUPPORTED_TEMPLATE
| TURBO_AGENT_COMPILE_UNRESOLVED_TOOL
| TURBO_AGENT_COMPILE_CAPABILITY_DENIED
| TURBO_AGENT_COMPILE_TEMPLATE_VIOLATION
| TURBO_AGENT_COMPILE_OUT_OF_MEMORY
| TURBO_AGENT_COMPILE_SOURCE_INVALID
| TURBO_AGENT_COMPILE_TOOL_ARGUMENTS_INVALID
| TURBO_AGENT_COMPILE_TOOL_SCHEMA_INVALID
| TURBO_AGENT_COMPILE_PLAN_LIMIT
| TURBO_AGENT_COMPILE_DUPLICATE_STEP
| TURBO_AGENT_COMPILE_MISSING_DEPENDENCY
| TURBO_AGENT_COMPILE_CYCLE
| TURBO_AGENT_COMPILE_RETRY_UNSAFE.

#[global] Instance compile_status_eq_dec : EqDecision turbo_agent_compile_status.
Proof. solve_decision. Defined.

(* src/agent_compiler/src/turbo_agent_dag_compiler.c 15-18 TURBO_AGENT_DAG_MAX_STEPS *)
Definition TURBO_AGENT_DAG_MAX_STEPS : Z := 1024.
Definition TURBO_AGENT_DAG_MAX_EDGES : Z := 16384.

(* src/agent_compiler/include/turbo_agent_dag_compiler.h 10-13 TURBO_AGENT_DAG_STEP_ABI_VERSION *)
Definition TURBO_AGENT_DAG_STEP_ABI_VERSION : Z := 1.
Definition TURBO_AGENT_DAG_SOURCE_ABI_VERSION_V1 : Z := 1.
Definition TURBO_AGENT_DAG_SOURCE_ABI_VERSION : Z := 2.
Definition TURBO_AGENT_DAG_CERTIFICATE_VERSION : Z := 3.

(* src/agent_compiler/include/turbo_agent_dag_compiler.h 15-19 turbo_agent_dag_template_kind_t *)
Definition TURBO_AGENT_DAG_TEMPLATE_GENERIC : Z := 0.
Definition TURBO_AGENT_DAG_TEMPLATE_REPAIR : Z := 2.

Definition TURBO_AGENT_COMPILER_CONFIG_ABI_VERSION : Z := 1.

(** Sizes of the structures on a 64-bit platform; the V1 size ends before
    [template_kind]. *)
Definition sizeof_compiler_config : Z := 64.
Definition sizeof_dag_step_source : Z := 56.
Definition sizeof_dag_source : Z := 40.
Definition TURBO_AGENT_DAG_SOURCE_V1_SIZE : Z := 28.

(* src/agent_compiler/include/turbo_agent_compiler.h 88-111 turbo_agent_compiler_config_t *)
Record turbo_agent_compiler_config := mk_config {
  cfg_struct_size : Z;
  cfg_abi_version : Z;
  allowed_capabilities : capabilities_arg;
  deny_unlisted_capabilities : Z;
  max_source_bytes : Z;
  max_argument_bytes : Z;
  max_argument_nodes : Z;
  max_argument_depth : Z
}.

(* src/agent_compiler/src/turbo_agent_dag_compiler.c 84-93 dag_config_valid *)
Definition dag_config_valid (config : option turbo_agent_compiler_config) : bool :=
  match config with
  | Some c =>
      (cfg_struct_size c =? sizeof_compiler_config)
      && (cfg_abi_version c =? TURBO_AGENT_COMPILER_CONFIG_ABI_VERSION)
      && bool_decide (is_Some (allowed_capabilities c))
      && negb (max_argument_bytes c =? 0) && negb (max_argument_nodes c =? 0)
      && negb (max_argument_depth c =? 0)
  | None => false
  end.

(* src/agent_compiler/src/turbo_agent_dag_compiler.c 124-127 dag_template_kind_valid *)
Definition dag_template_kind_valid (kind : Z) : bool :=
  (TURBO_AGENT_DAG_TEMPLATE_GENERIC <=? kind) && (kind <=? TURBO_AGENT_DAG_TEMPLATE_REPAIR).

(* src/agent_compiler/src/turbo_agent_dag_compiler.c 141-152 dag_capability_allowed *)
Definition dag_capability_allowed (config : turbo_agent_compiler_config)
    (capability : option string) : bool :=
  if negb (nonempty_text capability) then false
  else if deny_unlisted_capabilities config =? 0 then true
  else bool_decide (capability ∈ default [] (allowed_capabilities config)).

(* src/agent_compiler/src/turbo_agent_dag_compiler.c 154-158 dag_budget_add *)
Definition dag_budget_add (amount limit total : Z) : option Z :=
  if (limit <? total) || (limit - total <? amount) then None else Some (total + amount).

(** ** Hashing: FNV-1a over bytes, 64 bits *)

(* src/agent_compiler/src/turbo_agent_dag_compiler.c 12-13 DAG_FNV_OFFSET *)
Definition DAG_FNV_OFFSET : Z := 14695981039346656037.
Definition DAG_FNV_PRIME : Z := 1099511628211.

(* src/agent_compiler/src/turbo_agent_dag_compiler.c 211-219 dag_hash_bytes *)
Fixpoint dag_hash_bytes (hash : Z) (bytes : list Z) : Z :=
  match bytes with
  | [] => hash
  | b :: bytes => dag_hash_bytes (u64 (Z.lxor hash b * DAG_FNV_PRIME)) bytes
  end.

Definition little_endian (n : nat) (value : Z) : list Z :=
  (fun i => Z.land (Z.shiftr value (8 * Z.of_nat i)) 255) <$> seq 0 n.

(* src/agent_compiler/src/turbo_agent_dag_compiler.c 221-228 dag_hash_u32 *)
Definition dag_hash_u32 (hash value : Z) : Z := dag_hash_bytes hash (little_endian 4 value).

(* src/agent_compiler/src/turbo_agent_dag_compiler.c 230-237 dag_hash_u64 *)
Definition dag_hash_u64 (hash value : Z) : Z := dag_hash_bytes hash (little_endian 8 value).

Definition text_bytes (s : string) : list Z := char_code <$> String.list_ascii_of_string s.

(* src/agent_compiler/src/turbo_agent_dag_compiler.c 239-243 dag_hash_cstring *)
Definition dag_hash_cstring (hash : Z) (value : string) : Z :=
  dag_hash_bytes (dag_hash_bytes hash (text_bytes value)) [255].

(** ** The compiler's monad *)

Definition compile (A : Type) : Type :=
  oracle -> option ((turbo_agent_compile_status * string + A) * oracle).

#[global] Instance compile_ret : MRet compile := fun A a o => Some (inr a, o).
#[global] Instance compile_bind : MBind compile := fun A B k m o =>
  match m o with
  | Some (inr a, o) => k a o
  | Some (inl f, o) => Some (inl f, o)
  | None => None
  end.

(** The diagnostic holds 256 bytes with the terminator. *)
(* src/agent_compiler/src/turbo_agent_dag_compiler.c 59-65 dag_fail *)
Definition dag_fail {A} (status : turbo_agent_compile_status) (message : string) : compile A :=
  fun o => Some (inl (status, String.substring 0 255 message), o).

Definition guard_or (b : bool) (status : turbo_agent_compile_status) (message : string)
  : compile unit := if b then mret () else dag_fail status message.

Definition try_alloc : compile bool := fun o => let (b, o) := alloc o in Some (inr b, o).

(** A computation outside the compiler that uses memory. *)
Definition with_memory {A} (f : oracle -> A * oracle) : compile A :=
  fun o => let (a, o) := f o in Some (inr a, o).

(** An allocation whose failure ends the compilation. *)
Definition alloc_or (message : string) : compile unit :=
  ok ← try_alloc; guard_or ok TURBO_AGENT_COMPILE_OUT_OF_MEMORY message.

Section dag.
Context {J W : Type} `{JsonSetters J, !JsonMembers J, Cmeta}.
Abbreviation registry := (turbo_tool_registry (J := J) (W := W)).

(* src/agent_compiler/include/turbo_agent_dag_compiler.h 34-44 turbo_agent_dag_step_source_t *)
Record turbo_agent_dag_step_source := mk_step_source {
  ss_struct_size : Z;
  ss_abi_version : Z;
  ss_step_id : option string;
  ss_tool_name : option string;
  ss_arguments : option J;
  ss_depends_on : capabilities_arg;  (** [None]: NULL with a count that is not zero *)
  ss_retry_limit : Z;
  ss_flags : Z
}.

(** [ds_steps]: [None] is NULL. *)
(* src/agent_compiler/include/turbo_agent_dag_compiler.h 52-74 turbo_agent_dag_source_t *)
Record turbo_agent_dag_source := mk_dag_source {
  ds_struct_size : Z;
  ds_abi_version : Z;
  ds_steps : option (list turbo_agent_dag_step_source);
  ds_replan_budget : Z;
  ds_template_kind : Z;
  ds_plan_generation : Z
}.

(* src/agent_compiler/src/turbo_agent_dag_compiler.c 20-33 turbo_agent_executable_dag_step_t *)
Record turbo_agent_executable_dag_step := mk_step {
  st_step_id : string;
  st_tool_name : string;
  st_arguments : J;
  st_dependency_indices : list nat;
  st_retry_limit : Z;
  st_flags : Z;
  st_execution_policy : turbo_tool_execution_policy;
  st_effect_flags : Z;
  st_capabilities : list string;
  st_execution_metadata : option J
}.

(* src/agent_compiler/src/turbo_agent_dag_compiler.c 35-46 turbo_agent_executable_dag_s *)
Record turbo_agent_executable_dag := mk_dag {
  dag_steps : list turbo_agent_executable_dag_step;
  dag_replan_budget : Z;
  dag_template_kind : Z;
  dag_plan_generation : Z;
  dag_approved_tools : option registry;
  dag_capabilities : list string;
  dag_effect_flags : Z;
  dag_plan_hash : Z
}.

(** The initializers: all zero but for sizes and versions. *)
(* src/agent_compiler/src/turbo_agent_dag_compiler.c 777-782 turbo_agent_dag_step_source_init *)
Definition turbo_agent_dag_step_source_init : turbo_agent_dag_step_source :=
  mk_step_source sizeof_dag_step_source TURBO_AGENT_DAG_STEP_ABI_VERSION None None None (Some []) 0 0.

(* src/agent_compiler/src/turbo_agent_dag_compiler.c 784-791 turbo_agent_dag_source_init *)
Definition turbo_agent_dag_source_init : turbo_agent_dag_source :=
  mk_dag_source sizeof_dag_source TURBO_AGENT_DAG_SOURCE_ABI_VERSION None 0
    TURBO_AGENT_DAG_TEMPLATE_GENERIC 0.

(* src/agent_compiler/src/turbo_agent_dag_compiler.c 95-102 dag_source_valid *)
Definition dag_source_valid (s : turbo_agent_dag_source) : bool :=
  if ds_abi_version s =? TURBO_AGENT_DAG_SOURCE_ABI_VERSION_V1
  then TURBO_AGENT_DAG_SOURCE_V1_SIZE <=? ds_struct_size s
  else (ds_abi_version s =? TURBO_AGENT_DAG_SOURCE_ABI_VERSION)
       && (sizeof_dag_source <=? ds_struct_size s).

Definition has_template (s : turbo_agent_dag_source) : bool :=
  negb ((ds_abi_version s <? TURBO_AGENT_DAG_SOURCE_ABI_VERSION)
        || (ds_struct_size s <? sizeof_dag_source)).

(* src/agent_compiler/src/turbo_agent_dag_compiler.c 104-112 dag_source_template_kind *)
Definition dag_source_template_kind (s : turbo_agent_dag_source) : Z :=
  if has_template s then ds_template_kind s else TURBO_AGENT_DAG_TEMPLATE_GENERIC.

(* src/agent_compiler/src/turbo_agent_dag_compiler.c 114-122 dag_source_plan_generation *)
Definition dag_source_plan_generation (s : turbo_agent_dag_source) : Z :=
  if has_template s then ds_plan_generation s else 0.

(** ** Argument limits

    [fuel] is [max_argument_depth + 1 - depth]: the code's own depth test. *)

Section limits.
Variable config : turbo_agent_compiler_config.

(** A loop that threads the counters and stops when one is refused. *)
Fixpoint within_all {A} (f : A -> Z * Z -> option (Z * Z)) (l : list A) (used : Z * Z)
  : option (Z * Z) :=
  match l with
  | [] => Some used
  | x :: l => used ← f x used; within_all f l used
  end.

Definition add_bytes (n : Z) (used : Z * Z) : option (Z * Z) :=
  bytes ← dag_budget_add n (max_argument_bytes config) used.2; Some (used.1, bytes).

(** The counters are the nodes and the bytes used. *)
(* src/agent_compiler/src/turbo_agent_dag_compiler.c 160-209 dag_arguments_within_limits *)
Fixpoint dag_arguments_within_limits (fuel : nat) (value : J) (used : Z * Z) : option (Z * Z) :=
  match fuel with
  | O => None
  | S fuel =>
      if max_argument_nodes config <=? used.1 then None
      else
        let used := (used.1 + 1, used.2) in
        match json_type value with
        | JSON_NULL | JSON_BOOL => Some used
        | JSON_NUMBER =>
            match json_number_text value with
            | Some text => add_bytes (Z.of_nat (String.length text)) used
            | None => None
            end
        | JSON_STRING => add_bytes (Z.of_nat (String.length (json_c_text value))) used
        | JSON_ARRAY =>
            within_all (dag_arguments_within_limits fuel) (json_array_items value) used
        | JSON_OBJECT =>
            within_all
              (fun kv used => used ← add_bytes (Z.of_nat (String.length kv.1)) used;
                              dag_arguments_within_limits fuel kv.2 used)
              (json_members value) used
        end
  end.

End limits.

(** ** Hash of a JSON value

    The answer 0 is the code's failure; [None] is fuel exhausted. *)

Definition hashed : Type := oracle -> option (Z * oracle).

(** A loop that stops at the hash 0. *)
Fixpoint hash_all {A} (f : Z -> A -> hashed) (hash : Z) (l : list A) : hashed := fun o =>
  match l with
  | [] => Some (hash, o)
  | x :: l =>
      match f hash x o with
      | Some (hash, o) => if hash =? 0 then Some (0, o) else hash_all f hash l o
      | None => None
      end
  end.

(* src/agent_compiler/src/turbo_agent_dag_compiler.c 247-303 dag_hash_json *)
Fixpoint dag_hash_json (fuel : nat) (hash : Z) (value : option J) : hashed := fun o =>
  match fuel with
  | O => None
  | S fuel =>
      match value with
      | None => Some (dag_hash_cstring hash "null-pointer", o)
      | Some v =>
          match json_type v with
          | JSON_NULL => Some (dag_hash_cstring hash "null", o)
          | JSON_BOOL =>
              let hash := dag_hash_cstring hash "bool" in
              Some (dag_hash_cstring hash (if json_bool v then "true" else "false"), o)
          | JSON_NUMBER =>
              let hash := dag_hash_cstring hash "number" in
              Some (match json_number_text v with
                    | Some text => dag_hash_bytes hash (text_bytes text)
                    | None => 0
                    end, o)
          | JSON_STRING =>
              let hash := dag_hash_cstring hash "string" in
              Some (dag_hash_cstring hash (json_c_text v), o)
          | JSON_ARRAY =>
              let hash := dag_hash_cstring hash "array" in
              hash_all (fun hash x => dag_hash_json fuel hash (Some x)) hash (json_array_items v) o
          | JSON_OBJECT =>
              let hash := dag_hash_cstring hash "object" in
              if json_object_size v =? 0 then Some (hash, o)
              else
                let (keys, o) := alloc o in
                if negb keys then Some (0, o)
                else
                  hash_all
                    (fun hash key =>
                       dag_hash_json fuel (dag_hash_cstring hash key) (json_object_get v key))
                    hash (merge_sort String.le (json_members v).*1) o
          end
      end
  end.

(** ** Admission of a step *)

(* src/agent_compiler/src/turbo_agent_dag_compiler.c 305-319 dag_find_source_step *)
Definition dag_find_source_step (steps : list turbo_agent_dag_step_source) (step_id : string)
  : option nat := fst <$> list_find (fun s => ss_step_id s = Some step_id) steps.

(* src/agent_compiler/src/turbo_agent_dag_compiler.c 327-338 dag_find_definition *)
Fixpoint find_definition (r : option registry) (l : list Z) (canonical_name : string)
  : option (turbo_tool_definition J W) :=
  match l with
  | [] => None
  | i :: l =>
      match turbo_tool_registry_get_definition r i with
      | (TURBO_TOOL_OK, Some definition) =>
          if bool_decide (d_name definition = Some canonical_name) then Some definition
          else find_definition r l canonical_name
      | _ => None
      end
  end.

(* src/agent_compiler/src/turbo_agent_dag_compiler.c 321-340 dag_find_definition *)
Definition dag_find_definition (r : registry) (canonical_name : string)
  : option (turbo_tool_definition J W) :=
  find_definition (Some r)
    (Z.of_nat <$> seq 0 (Z.to_nat (turbo_tool_registry_count (Some r)))) canonical_name.

(** The copies of the capabilities, in sequence. *)
Fixpoint copy_texts (l : list string) (message : string) : compile unit :=
  match l with
  | [] => mret ()
  | _ :: l => alloc_or message;; copy_texts l message
  end.

(* src/agent_compiler/src/turbo_agent_dag_compiler.c 372-409 dag_copy_capabilities *)
Definition dag_copy_capabilities (config : turbo_agent_compiler_config) (required : list string)
  : compile (list string) :=
  let effective := match required with [] => ["custom_tools"] | _ => required end in
  guard_or (forallb (fun c => dag_capability_allowed config (Some c)) effective)
    TURBO_AGENT_COMPILE_CAPABILITY_DENIED
    "DAG step requires a capability not admitted by the compiler";;
  alloc_or "could not allocate DAG capability set";;
  copy_texts effective "could not copy DAG capability";;
  mret (merge_sort String.le effective).

(* src/agent_compiler/src/turbo_agent_dag_compiler.c 429-440 dag_admit_step *)
Definition step_source_valid (s : turbo_agent_dag_step_source) : bool :=
  nonempty_text (ss_step_id s) && nonempty_text (ss_tool_name s)
  && match ss_arguments s with
     | Some a => bool_decide (json_type a = JSON_OBJECT) | None => false end
  && (ss_struct_size s =? sizeof_dag_step_source)
  && (ss_abi_version s =? TURBO_AGENT_DAG_STEP_ABI_VERSION)
  && bool_decide (is_Some (ss_depends_on s))
  && (Z.land (ss_flags s) (Z.lnot 3) =? 0).

(** The tool under its canonical name. *)
(* src/agent_compiler/src/turbo_agent_dag_compiler.c 448-455 dag_admit_step *)
Definition resolve_tool (r : registry) (tool_name : option string)
  : compile (string * turbo_tool_definition J W) :=
  let unresolved := dag_fail TURBO_AGENT_COMPILE_UNRESOLVED_TOOL
                      "DAG tool cannot be resolved during compilation" in
  match turbo_tool_registry_resolve_name (Some r) tool_name with
  | (TURBO_TOOL_OK, Some canonical) =>
      match dag_find_definition r canonical with
      | Some definition => mret (canonical, definition)
      | None => unresolved
      end
  | _ => unresolved
  end.

(* src/agent_compiler/src/turbo_agent_dag_compiler.c 457-471 dag_admit_step *)
Definition check_arguments (definition : turbo_tool_definition J W) (arguments : J)
  : compile unit :=
  '(status, diagnostic) ← with_memory (fun o =>
     let '(status, diagnostic, o) :=
       turbo_tool_schema_validate_arguments_json_value (Some definition) (Some arguments)
         (Some 256) o in ((status, diagnostic), o));
  let or_default (message : string) :=
    match diagnostic with Some (String a s) => String a s | _ => message end in
  match status with
  | TURBO_TOOL_SCHEMA_VALID => mret ()
  | TURBO_TOOL_SCHEMA_VALUE_INVALID =>
      dag_fail TURBO_AGENT_COMPILE_TOOL_ARGUMENTS_INVALID
        (or_default "DAG tool arguments violate parameter schema")
  | _ =>
      dag_fail TURBO_AGENT_COMPILE_TOOL_SCHEMA_INVALID
        (or_default "DAG tool parameter schema is unsupported")
  end.

(** Policy, capabilities, effects and metadata of the tool. *)
(* src/agent_compiler/src/turbo_agent_dag_compiler.c 473-486 dag_admit_step *)
Definition read_metadata (r : registry) (canonical : string)
  : compile (turbo_tool_execution_policy * list string * Z * option J) :=
  match turbo_tool_registry_get_execution_policy (Some r) (Some canonical),
        turbo_tool_registry_get_required_capabilities (Some r) (Some canonical),
        turbo_tool_registry_get_effects (Some r) (Some canonical),
        turbo_tool_registry_get_execution_metadata (Some r) (Some canonical) with
  | (TURBO_TOOL_OK, Some policy), (TURBO_TOOL_OK, required), (TURBO_TOOL_OK, effects),
    (TURBO_TOOL_OK, metadata) => mret (policy, required, effects, metadata)
  | _, _, _, _ => dag_fail TURBO_AGENT_COMPILE_UNRESOLVED_TOOL "DAG tool metadata is unavailable"
  end.

(** The frozen step: every copy is attempted, then all are checked. *)
(* src/agent_compiler/src/turbo_agent_dag_compiler.c 499-513 dag_admit_step *)
Definition freeze_step (step_id canonical : string) (arguments : J) (retry_limit flags : Z)
    (policy : turbo_tool_execution_policy) (effects : Z) (capabilities : list string)
    (metadata : option J) : compile turbo_agent_executable_dag_step :=
  id_copied ← try_alloc;
  name_copied ← try_alloc;
  cloned ← try_alloc;
  metadata_cloned ← (match metadata with Some _ => try_alloc | None => mret true end);
  guard_or (id_copied && name_copied && cloned && metadata_cloned)
    TURBO_AGENT_COMPILE_OUT_OF_MEMORY "could not freeze DAG step semantics";;
  mret (mk_step step_id canonical (json_clone arguments) [] retry_limit flags policy effects
          capabilities (json_clone <$> metadata)).

(* src/agent_compiler/src/turbo_agent_dag_compiler.c 411-514 dag_admit_step *)
Definition dag_admit_step (config : turbo_agent_compiler_config) (r : registry)
    (source : turbo_agent_dag_step_source) : compile turbo_agent_executable_dag_step :=
  match ss_step_id source, ss_arguments source with
  | Some step_id, Some arguments =>
      guard_or (step_source_valid source) TURBO_AGENT_COMPILE_INVALID_ARGUMENT
        "invalid DAG step source";;
      guard_or
        (bool_decide (is_Some (dag_arguments_within_limits config
           (S (Z.to_nat (max_argument_depth config))) arguments (0, 0))))
        TURBO_AGENT_COMPILE_PLAN_LIMIT "DAG step arguments exceed compiler limits";;
      '(canonical, definition) ← resolve_tool r (ss_tool_name source);
      check_arguments definition arguments;;
      '(policy, required, effects, metadata) ← read_metadata r canonical;
      guard_or ((ss_retry_limit source =? 0)
                || negb (ep_idempotency policy =? TURBO_TOOL_IDEMPOTENCY_NONE))
        TURBO_AGENT_COMPILE_RETRY_UNSAFE
        "DAG retry requires READ_ONLY or KEYED tool idempotency";;
      capabilities ← dag_copy_capabilities config required;
      freeze_step step_id canonical arguments (ss_retry_limit source) (ss_flags source) policy
        effects capabilities metadata
  | _, _ => dag_fail TURBO_AGENT_COMPILE_INVALID_ARGUMENT "invalid DAG step source"
  end.

(* src/agent_compiler/src/turbo_agent_dag_compiler.c 848-853 turbo_agent_compile_dag *)
Fixpoint admit_steps (config : turbo_agent_compiler_config) (r : registry)
    (sources : list turbo_agent_dag_step_source)
  : compile (list turbo_agent_executable_dag_step) :=
  match sources with
  | [] => mret []
  | source :: sources =>
      step ← dag_admit_step config r source;
      steps ← admit_steps config r sources;
      mret (step :: steps)
  end.

(** ** Dependencies *)

(** The dependencies of one step, each resolved to an index it has not had. *)
(* src/agent_compiler/src/turbo_agent_dag_compiler.c 543-559 dag_resolve_dependencies *)
Fixpoint resolve_step (all : list turbo_agent_dag_step_source) (resolved : list nat)
    (deps : list (option string)) : compile (list nat) :=
  match deps with
  | [] => mret resolved
  | dep :: deps =>
      let missing := dag_fail TURBO_AGENT_COMPILE_MISSING_DEPENDENCY
                       "DAG dependency does not reference a known step" in
      match dep with
      | Some (String a s) =>
          match dag_find_source_step all (String a s) with
          | None => missing
          | Some index =>
              guard_or (negb (bool_decide (index ∈ resolved)))
                TURBO_AGENT_COMPILE_INVALID_ARGUMENT
                "DAG step contains a duplicate dependency edge";;
              resolve_step all (resolved ++ [index]) deps
          end
      | _ => missing
      end
  end.

Definition set_dependencies (deps : list nat) (s : turbo_agent_executable_dag_step)
  : turbo_agent_executable_dag_step :=
  mk_step (st_step_id s) (st_tool_name s) (st_arguments s) deps (st_retry_limit s) (st_flags s)
    (st_execution_policy s) (st_effect_flags s) (st_capabilities s) (st_execution_metadata s).

(** Sources and steps go together; [all] are all the sources. *)
(* src/agent_compiler/src/turbo_agent_dag_compiler.c 516-562 dag_resolve_dependencies *)
Fixpoint dag_resolve_dependencies (all sources : list turbo_agent_dag_step_source)
    (steps : list turbo_agent_executable_dag_step) (total_edges : Z)
  : compile (list turbo_agent_executable_dag_step) :=
  match sources, steps with
  | src :: sources, dst :: steps =>
      let deps := default [] (ss_depends_on src) in
      let count := Z.of_nat (length deps) in
      guard_or (count <=? TURBO_AGENT_DAG_MAX_EDGES - total_edges)
        TURBO_AGENT_COMPILE_PLAN_LIMIT "DAG edge count exceeds compiler limit";;
      indices ← (match deps with
                 | [] => mret []
                 | _ => alloc_or "could not allocate DAG dependencies";; resolve_step all [] deps
                 end);
      rest ← dag_resolve_dependencies all sources steps (total_edges + count);
      mret (set_dependencies indices dst :: rest)
  | _, _ => mret []
  end.

(** ** Cycle detection

    Kahn's algorithm over the arrays of the code: [queue] is the written part of
    the queue, [head] how much of it was taken. *)

Record kahn := mk_kahn { indegree : list nat; queue : list nat }.

(** The dependencies of step [i] that are [current]; [None] when the indegree
    would go below zero. *)
(* src/agent_compiler/src/turbo_agent_dag_compiler.c 593-604 dag_validate_acyclic *)
Fixpoint release_step (current i : nat) (deps : list nat) (k : kahn) : option kahn :=
  match deps with
  | [] => Some k
  | d :: deps =>
      if bool_decide (d = current) then
        match default O (indegree k !! i) with
        | O => None
        | S n =>
            release_step current i deps
              (mk_kahn (<[i := n]> (indegree k)) (if (n =? 0)%nat then queue k ++ [i] else queue k))
        end
      else release_step current i deps k
  end.

(* src/agent_compiler/src/turbo_agent_dag_compiler.c 591-605 dag_validate_acyclic *)
Fixpoint release_all (current i : nat) (deps : list (list nat)) (k : kahn) : option kahn :=
  match deps with
  | [] => Some k
  | ds :: deps => k ← release_step current i ds k; release_all current (S i) deps k
  end.

(** How the loop ends: an inconsistency, or the number of steps visited. *)
(* src/agent_compiler/src/turbo_agent_dag_compiler.c 588-606 dag_validate_acyclic *)
Fixpoint kahn_loop (fuel : nat) (deps : list (list nat)) (head : nat) (k : kahn)
  : option (option nat) :=
  match queue k !! head with
  | None => Some (Some head)
  | Some current =>
      match fuel with
      | O => None
      | S fuel =>
          match release_all current 0 deps k with
          | None => Some None
          | Some k => kahn_loop fuel deps (S head) k
          end
      end
  end.

(* src/agent_compiler/src/turbo_agent_dag_compiler.c 583-586 dag_validate_acyclic *)
Definition kahn_init (deps : list (list nat)) : kahn :=
  mk_kahn (length <$> deps) (fst <$> filter (fun p => p.2 = O) (imap pair (length <$> deps))).

(** The loop visits each step at most once: as many rounds as there are steps. *)
(* src/agent_compiler/src/turbo_agent_dag_compiler.c 583-614 dag_validate_acyclic *)
Definition detect_cycle (deps : list (list nat)) : compile unit := fun o =>
  match kahn_loop (length deps) deps 0 (kahn_init deps) with
  | None => None
  | Some None => dag_fail TURBO_AGENT_COMPILE_CYCLE "DAG topology is inconsistent" o
  | Some (Some visited) =>
      guard_or (visited =? length deps)%nat TURBO_AGENT_COMPILE_CYCLE
        "DAG contains a dependency cycle" o
  end.

(* src/agent_compiler/src/turbo_agent_dag_compiler.c 564-615 dag_validate_acyclic *)
Definition dag_validate_acyclic (steps : list turbo_agent_executable_dag_step) : compile unit :=
  indegree_array ← try_alloc;
  queue_array ← try_alloc;
  guard_or (indegree_array && queue_array) TURBO_AGENT_COMPILE_OUT_OF_MEMORY
    "could not allocate DAG cycle detector";;
  detect_cycle (st_dependency_indices <$> steps).

(** ** Capability union, effects, projection *)

(* src/agent_compiler/src/turbo_agent_dag_compiler.c 643-656 dag_build_capability_union *)
Fixpoint union_capabilities (caps : list string) (acc : list string) : compile (list string) :=
  match caps with
  | [] => mret acc
  | cap :: caps =>
      if bool_decide (cap ∈ acc) then union_capabilities caps acc
      else alloc_or "could not copy DAG capability union";; union_capabilities caps (acc ++ [cap])
  end.

(** The capability lists of the steps, one after the other. *)
(* src/agent_compiler/src/turbo_agent_dag_compiler.c 627-660 dag_build_capability_union *)
Definition dag_build_capability_union (steps : list turbo_agent_executable_dag_step)
  : compile (list string) :=
  match mjoin (st_capabilities <$> steps) with
  | [] => mret []
  | caps =>
      alloc_or "could not allocate DAG capability union";;
      acc ← union_capabilities caps [];
      mret (merge_sort String.le acc)
  end.

(** The loop: UNKNOWN ends it, PURE is skipped, other flags are collected. *)
(* src/agent_compiler/src/turbo_agent_dag_compiler.c 668-679 dag_effect_summary *)
Fixpoint effect_scan (flags : list Z) (known : Z) (all_pure : bool) : Z :=
  match flags with
  | [] =>
      if all_pure then TURBO_TOOL_EFFECT_PURE
      else if known =? 0 then TURBO_TOOL_EFFECT_UNKNOWN else known
  | f :: flags =>
      if (f =? TURBO_TOOL_EFFECT_UNKNOWN) || negb (Z.land f TURBO_TOOL_EFFECT_UNKNOWN =? 0)
      then TURBO_TOOL_EFFECT_UNKNOWN
      else if f =? TURBO_TOOL_EFFECT_PURE then effect_scan flags known all_pure
      else effect_scan flags (Z.lor known (Z.land f (Z.lnot TURBO_TOOL_EFFECT_PURE))) false
  end.

(* src/agent_compiler/src/turbo_agent_dag_compiler.c 662-680 dag_effect_summary *)
Definition dag_effect_summary (steps : list turbo_agent_executable_dag_step) : Z :=
  match steps with
  | [] => TURBO_TOOL_EFFECT_UNKNOWN
  | _ => effect_scan (st_effect_flags <$> steps) 0 true
  end.

Definition step_is_pure (s : turbo_agent_executable_dag_step) : bool :=
  (st_effect_flags s =? TURBO_TOOL_EFFECT_PURE)
  && (ep_idempotency (st_execution_policy s) =? TURBO_TOOL_IDEMPOTENCY_READ_ONLY)
  && (ep_mode (st_execution_policy s) =? TURBO_TOOL_EXECUTION_PARALLEL_SAFE).

(* src/agent_compiler/src/turbo_agent_dag_compiler.c 682-695 dag_pure_region_eligible_internal *)
Definition dag_pure_region_eligible_internal (plan : option turbo_agent_executable_dag) : bool :=
  match plan with
  | Some p => match dag_steps p with [] => false | steps => forallb step_is_pure steps end
  | None => false
  end.

(** Each tool name once, at its first occurrence. *)
(* src/agent_compiler/src/turbo_agent_dag_compiler.c 710-720 dag_build_projection *)
Fixpoint distinct_names (names acc : list string) : list string :=
  match names with
  | [] => acc
  | n :: names => distinct_names names (if bool_decide (n ∈ acc) then acc else acc ++ [n])
  end.

Context (sizeof_native_projection : Z).

(* src/agent_compiler/src/turbo_agent_dag_compiler.c 697-732 dag_build_projection *)
Definition dag_build_projection (r : registry) (steps : list turbo_agent_executable_dag_step)
  : compile registry :=
  alloc_or "could not allocate DAG tool projection";;
  '(status, projection) ← with_memory (fun o =>
     let '(status, projection, o) :=
       turbo_tool_registry_project sizeof_native_projection (Some r)
         (Some (Some <$> distinct_names (st_tool_name <$> steps) [])) true o in
     ((status, projection), o));
  match status, projection with
  | TURBO_TOOL_OK, Some (Some approved) => mret approved
  | _, _ => dag_fail TURBO_AGENT_COMPILE_UNRESOLVED_TOOL
              "could not freeze DAG RuntimeTools projection"
  end.

(** ** The plan's identity *)

(** The part of a step before its arguments, and the part between them and its
    metadata. *)
(* src/agent_compiler/src/turbo_agent_dag_compiler.c 753-766 dag_compute_hash *)
Definition hash_step_facts (steps : list turbo_agent_executable_dag_step)
    (s : turbo_agent_executable_dag_step) (hash : Z) : Z :=
  let hash := dag_hash_u32 hash (ep_mode (st_execution_policy s)) in
  let hash := dag_hash_u32 hash (ep_idempotency (st_execution_policy s)) in
  let hash := dag_hash_u64 hash (st_effect_flags s) in
  let hash := dag_hash_u32 hash (st_retry_limit s) in
  let hash := dag_hash_u32 hash (st_flags s) in
  let hash := dag_hash_u64 hash (Z.of_nat (length (st_dependency_indices s))) in
  let hash := foldl (fun hash d => dag_hash_cstring hash
                       (default EmptyString (st_step_id <$> steps !! d)))
                hash (st_dependency_indices s) in
  let hash := dag_hash_u64 hash (Z.of_nat (length (st_capabilities s))) in
  foldl dag_hash_cstring hash (st_capabilities s).

(** A failed hash of the arguments ends the loop; one of the metadata does not. *)
(* src/agent_compiler/src/turbo_agent_dag_compiler.c 745-774 dag_compute_hash *)
Fixpoint hash_steps (fuel : nat) (all steps : list turbo_agent_executable_dag_step) (hash : Z)
  : hashed := fun o =>
  match steps with
  | [] => Some (hash, o)
  | s :: steps =>
      let hash := dag_hash_cstring hash (st_step_id s) in
      let hash := dag_hash_cstring hash (st_tool_name s) in
      match dag_hash_json fuel hash (Some (st_arguments s)) o with
      | None => None
      | Some (hash, o) =>
          if hash =? 0 then Some (0, o)
          else
            let hash := hash_step_facts all s hash in
            let hash := dag_hash_cstring hash "execution_metadata" in
            match (match st_execution_metadata s with
                   | Some m => dag_hash_json fuel hash (Some m) o
                   | None => Some (dag_hash_cstring hash "none", o)
                   end) with
            | None => None
            | Some (hash, o) => hash_steps fuel all steps hash o
            end
      end
  end.

(* src/agent_compiler/src/turbo_agent_dag_compiler.c 734-775 dag_compute_hash *)
Definition dag_compute_hash (fuel : nat) (steps : list turbo_agent_executable_dag_step)
    (template_kind plan_generation replan_budget : Z) : hashed := fun o =>
  let hash := dag_hash_cstring DAG_FNV_OFFSET "TurboAgent.ExecutableDAG.v3" in
  let hash := dag_hash_u32 hash TURBO_AGENT_DAG_CERTIFICATE_VERSION in
  let hash := dag_hash_u32 hash template_kind in
  let hash := dag_hash_u32 hash plan_generation in
  let hash := dag_hash_u32 hash replan_budget in
  let hash := dag_hash_u64 hash (Z.of_nat (length steps)) in
  hash_steps fuel steps steps hash o.

(** ** Compilation *)

(** Step identifiers are not empty and pairwise distinct. *)
(* src/agent_compiler/src/turbo_agent_dag_compiler.c 815-829 turbo_agent_compile_dag *)
Fixpoint check_ids (prior : list (option string)) (sources : list turbo_agent_dag_step_source)
  : compile unit :=
  match sources with
  | [] => mret ()
  | s :: sources =>
      guard_or (nonempty_text (ss_step_id s)) TURBO_AGENT_COMPILE_INVALID_ARGUMENT
        "DAG step ID is empty";;
      guard_or (negb (bool_decide (ss_step_id s ∈ prior))) TURBO_AGENT_COMPILE_DUPLICATE_STEP
        "DAG contains duplicate step IDs";;
      check_ids (prior ++ [ss_step_id s]) sources
  end.

(* src/agent_compiler/src/turbo_agent_dag_compiler.c 806-813 turbo_agent_compile_dag *)
Definition compile_arguments_valid (config : option turbo_agent_compiler_config)
    (r : option registry) (source : option turbo_agent_dag_source) (out_plan : bool) : bool :=
  dag_config_valid config && bool_decide (is_Some r) && out_plan
  && match source with
     | Some s =>
         dag_source_valid s
         && match ds_steps s with
            | Some steps =>
                negb (length steps =? 0)%nat
                && (Z.of_nat (length steps) <=? TURBO_AGENT_DAG_MAX_STEPS)
            | None => false
            end
         && dag_template_kind_valid (dag_source_template_kind s)
     | None => false
     end.

(** The hash closes the plan. *)
(* src/agent_compiler/src/turbo_agent_dag_compiler.c 864-874 turbo_agent_compile_dag *)
Definition seal_plan (fuel : nat) (source : turbo_agent_dag_source)
    (steps : list turbo_agent_executable_dag_step) (capabilities : list string)
    (approved : registry) : compile turbo_agent_executable_dag := fun o =>
  let template_kind := dag_source_template_kind source in
  let plan_generation := dag_source_plan_generation source in
  let replan_budget := ds_replan_budget source in
  match dag_compute_hash fuel steps template_kind plan_generation replan_budget o with
  | None => None
  | Some (hash, o) =>
      if hash =? 0
      then dag_fail TURBO_AGENT_COMPILE_OUT_OF_MEMORY "could not hash executable DAG" o
      else
        Some (inr (mk_dag steps replan_budget template_kind plan_generation (Some approved)
                     capabilities (dag_effect_summary steps) hash), o)
  end.

(* src/agent_compiler/src/turbo_agent_dag_compiler.c 831-874 turbo_agent_compile_dag *)
Definition compile_steps (fuel : nat) (config : turbo_agent_compiler_config) (r : registry)
    (source : turbo_agent_dag_source) (sources : list turbo_agent_dag_step_source)
  : compile turbo_agent_executable_dag :=
  check_ids [] sources;;
  alloc_or "could not allocate executable DAG";;
  alloc_or "could not allocate executable DAG steps";;
  admitted ← admit_steps config r sources;
  steps ← dag_resolve_dependencies sources sources admitted 0;
  dag_validate_acyclic steps;;
  capabilities ← dag_build_capability_union steps;
  approved ← dag_build_projection r steps;
  seal_plan fuel source steps capabilities approved.

(** The result: the plan, or the status and message of the diagnostic. *)
(* src/agent_compiler/src/turbo_agent_dag_compiler.c 793-880 turbo_agent_compile_dag *)
Definition turbo_agent_compile_dag (fuel : nat) (config : option turbo_agent_compiler_config)
    (r : option registry) (source : option turbo_agent_dag_source) (out_plan : bool)
  : compile turbo_agent_executable_dag :=
  guard_or (compile_arguments_valid config r source out_plan) TURBO_AGENT_COMPILE_INVALID_ARGUMENT
    "invalid DAG compiler arguments";;
  match config, r, source with
  | Some config, Some r, Some source =>
      compile_steps fuel config r source (default [] (ds_steps source))
  | _, _, _ => dag_fail TURBO_AGENT_COMPILE_INVALID_ARGUMENT "invalid DAG compiler arguments"
  end.

(** ** Reading a plan *)

(* src/agent_compiler/src/turbo_agent_dag_compiler.c 888-891 turbo_agent_executable_dag_hash *)
Definition turbo_agent_executable_dag_hash (plan : option turbo_agent_executable_dag) : Z :=
  default 0 (dag_plan_hash <$> plan).

(* src/agent_compiler/src/turbo_agent_dag_compiler.c 893-896 turbo_agent_executable_dag_step_count *)
Definition turbo_agent_executable_dag_step_count (plan : option turbo_agent_executable_dag) : Z :=
  match plan with Some p => Z.of_nat (length (dag_steps p)) | None => 0 end.

(* src/agent_compiler/src/turbo_agent_dag_compiler.c 898-902 turbo_agent_executable_dag_step_tool_name *)
Definition turbo_agent_executable_dag_step_tool_name (plan : option turbo_agent_executable_dag)
    (step_index : Z) : option string :=
  match plan with
  | Some p =>
      if Z.of_nat (length (dag_steps p)) <=? step_index then None
      else st_tool_name <$> dag_steps p !! Z.to_nat step_index
  | None => None
  end.

(* src/agent_compiler/src/turbo_agent_dag_compiler.c 904-907 turbo_agent_executable_dag_template_kind *)
Definition turbo_agent_executable_dag_template_kind (plan : option turbo_agent_executable_dag) : Z :=
  default TURBO_AGENT_DAG_TEMPLATE_GENERIC (dag_template_kind <$> plan).

(* src/agent_compiler/src/turbo_agent_dag_compiler.c 909-912 turbo_agent_executable_dag_plan_generation *)
Definition turbo_agent_executable_dag_plan_generation (plan : option turbo_agent_executable_dag)
  : Z := default 0 (dag_plan_generation <$> plan).

(* src/agent_compiler/src/turbo_agent_dag_compiler.c 914-917 turbo_agent_executable_dag_effects *)
Definition turbo_agent_executable_dag_effects (plan : option turbo_agent_executable_dag) : Z :=
  default TURBO_TOOL_EFFECT_UNKNOWN (dag_effect_flags <$> plan).

(* src/agent_compiler/src/turbo_agent_dag_compiler.c 919-922 turbo_agent_executable_dag_pure_region_eligible *)
Definition turbo_agent_executable_dag_pure_region_eligible
    (plan : option turbo_agent_executable_dag) : bool := dag_pure_region_eligible_internal plan.

(* src/agent_compiler/src/turbo_agent_dag_compiler.c 924-927 turbo_agent_executable_dag_approved_tools *)
Definition turbo_agent_executable_dag_approved_tools (plan : option turbo_agent_executable_dag)
  : option registry := plan ≫= dag_approved_tools.

End dag.
