(* ===== verification/DagFacts.v ===== *)
(** * Properties of the DAG compiler

    The cycle detector is right and consistent; a compiled plan is what its
    source says, admitted against the registry. *)

From stdpp Require Import sorting relations finite.
From S2P Require Import Prelude RuntimeJson JsonBuild Tool ToolRegistry ToolRegistryFacts.
From S2P Require Import ToolSchema ToolSchemaFacts DagCompiler.

(** ** The cycle detector *)

Definition depends (deps : list (list nat)) (i d : nat) : Prop :=
  exists ds, deps !! i = Some ds /\ d ∈ ds.

(** No step depends on itself, directly or through others. *)
Definition acyclic (deps : list (list nat)) : Prop := forall i, ~ tc (depends deps) i i.

(** A rank that every dependency lowers shows it. *)
Lemma ranked_acyclic deps (rank : nat -> nat) :
  (forall i d, depends deps i d -> (rank d < rank i)%nat) -> acyclic deps.
Proof.
  intros Hrank i Hi.
  assert (Hlt : forall x y, tc (depends deps) x y -> (rank y < rank x)%nat).
  { induction 1 as [x y H|x y z H _ IH]; [by apply Hrank|]. specialize (Hrank _ _ H). lia. }
  specialize (Hlt i i Hi). lia.
Qed.

Lemma release_step_skip c i ds k : c ∉ ds -> release_step c i ds k = Some k.
Proof.
  induction ds as [|d ds IH]; cbn; [done|]. rewrite not_elem_of_cons. intros [Hne Hin].
  rewrite bool_decide_false by congruence. by apply IH.
Qed.

Lemma release_step_hit c i ds k m : NoDup ds -> c ∈ ds -> indegree k !! i = Some (S m) ->
  release_step c i ds k =
    Some (mk_kahn (<[i := m]> (indegree k)) (if (m =? 0)%nat then queue k ++ [i] else queue k)).
Proof.
  induction ds as [|d ds IH]; cbn; intros Hnd Hin Hi; [by apply elem_of_nil in Hin|].
  apply NoDup_cons in Hnd as [Hd Hnd]. case_bool_decide as E.
  - subst d. rewrite Hi. cbn. by apply release_step_skip.
  - apply elem_of_cons in Hin as [->|Hin]; [done|]. by apply IH.
Qed.

Section kahn.
Context (deps : list (list nat)).
Abbreviation n := (length deps).
Hypothesis in_range : forall i ds d, deps !! i = Some ds -> d ∈ ds -> (d < n)%nat.
Hypothesis no_dup : forall i ds, deps !! i = Some ds -> NoDup ds.

(** The dependencies of [i] that are not processed yet. *)
Definition waiting (processed : list nat) (i : nat) : nat :=
  length (filter (fun d => d ∉ processed) (default [] (deps !! i))).

Lemma waiting_zero P i ds : deps !! i = Some ds -> waiting P i = 0%nat <-> forall d, d ∈ ds -> d ∈ P.
Proof.
  intros Hi. unfold waiting. rewrite Hi. cbn. rewrite length_zero_iff_nil. split.
  - intros Hf d Hd. destruct (decide (d ∈ P)) as [|Hn]; [done|].
    assert (Hin : d ∈ filter (fun d => d ∉ P) ds) by (by apply list_elem_of_filter).
    rewrite Hf in Hin. by apply elem_of_nil in Hin.
  - intros Hall. destruct (filter _ ds) as [|d l] eqn:E; [done|].
    assert (Hin : d ∈ filter (fun d => d ∉ P) ds) by (rewrite E; by left).
    apply list_elem_of_filter in Hin as [Hn Hin]. by destruct (Hn (Hall d Hin)).
Qed.

Lemma waiting_step P c i ds : deps !! i = Some ds -> c ∉ P ->
  waiting P i = (if bool_decide (c ∈ ds) then S (waiting (P ++ [c]) i) else waiting (P ++ [c]) i).
Proof.
  intros Hi Hc. pose proof (no_dup i ds Hi) as Hnd. unfold waiting. rewrite Hi. cbn. clear Hi.
  induction ds as [|d ds IH]; [done|]. apply NoDup_cons in Hnd as [Hd Hnd]. specialize (IH Hnd).
  rewrite !filter_cons. destruct (decide (d = c)) as [->|Hne].
  - rewrite (decide_True _ _ Hc), decide_False by (rewrite elem_of_app, list_elem_of_singleton; tauto).
    rewrite bool_decide_true by (by left). cbn. rewrite IH, bool_decide_false by done. done.
  - rewrite (bool_decide_ext (c ∈ d :: ds) (c ∈ ds)) 
      by (rewrite elem_of_cons; split; [by intros [?|?]; [congruence|]|by right]).
    destruct (decide (d ∈ P)) as [Hp|Hp].
    + rewrite !decide_False; [done| |]; intros Hn; apply Hn; [apply elem_of_app; by left|done].
    + rewrite !decide_True; [|rewrite elem_of_app, list_elem_of_singleton; tauto|done].
      cbn. rewrite IH. by case_bool_decide.
Qed.

(** One round: the steps from [i] on are brought from [P] to [P ++ [c]]. *)
Lemma release_all_spec P c : c ∉ P -> forall rest i k,
  drop i deps = rest ->
  (forall j, (j < n)%nat ->
     indegree k !! j = Some (if (j <? i)%nat then waiting (P ++ [c]) j else waiting P j)) ->
  exists k' new, release_all c i rest k = Some k' /\
    (forall j, (j < n)%nat -> indegree k' !! j = Some (waiting (P ++ [c]) j)) /\
    queue k' = queue k ++ new /\ NoDup new /\
    forall j, j ∈ new <->
      (i <= j < n)%nat /\ waiting P j <> 0%nat /\ waiting (P ++ [c]) j = 0%nat.
Proof.
  intros Hc. induction rest as [|ds rest IH]; intros i k Hd Hk; cbn [release_all].
  { exists k, []. split; [done|]. apply (f_equal length) in Hd. rewrite length_drop in Hd. cbn in Hd.
    split; [intros j Hj; rewrite Hk by done; by rewrite (proj2 (Nat.ltb_lt j i)) by lia|].
    split; [by rewrite app_nil_r|]. split; [constructor|]. intros j.
    split; [intros Hj; by apply elem_of_nil in Hj|lia]. }
  assert (Hi : deps !! i = Some ds) by (rewrite <- (Nat.add_0_r i), <- lookup_drop, Hd; done).
  assert (Hin : (i < n)%nat) by (by eapply lookup_lt_Some).
  pose proof (Hk i Hin) as Hki. rewrite Nat.ltb_irrefl in Hki.
  pose proof (waiting_step P c i ds Hi Hc) as Hw.
  assert (Hrest : drop (S i) deps = rest) by (rewrite <- Nat.add_1_r, <- drop_drop, Hd; done).
  case_bool_decide as Ec.
  - rewrite Hw in Hki. rewrite (release_step_hit c i ds k _ (no_dup i ds Hi) Ec Hki). cbn [mbind option_bind].
    set (m := waiting (P ++ [c]) i) in *.
    destruct (IH (S i) (mk_kahn (<[i:=m]> (indegree k))
                          (if (m =? 0)%nat then queue k ++ [i] else queue k)) Hrest)
      as (k' & new & Hrel & Hdeg & Hq & Hnd & Hnew).
    { intros j Hj. cbn [indegree]. destruct (decide (j = i)) as [->|Hne].
      - rewrite list_lookup_insert_eq by (by eapply lookup_lt_Some).
        by rewrite (proj2 (Nat.ltb_lt i (S i))) by lia.
      - rewrite list_lookup_insert_ne by done. rewrite Hk by done. f_equal.
        destruct (Nat.ltb_spec j i), (Nat.ltb_spec j (S i)); try done; lia. }
    exists k', ((if (m =? 0)%nat then [i] else []) ++ new). split; [done|]. split; [done|].
    assert (Hnot : i ∉ new) by (rewrite Hnew; lia).
    split; [rewrite Hq; cbn; by destruct (m =? 0)%nat; rewrite <- ?app_assoc|].
    split; [destruct (m =? 0)%nat; [by apply NoDup_cons|done]|].
    intros j. rewrite elem_of_app, Hnew. split.
    + intros [Hj|(? & ? & ?)]; [|split; [lia|done]].
      destruct (Nat.eqb_spec m 0); [|by apply elem_of_nil in Hj].
      apply list_elem_of_singleton in Hj as ->. split; [lia|]. by rewrite Hw.
    + intros (Hj & Hp & Hz). destruct (decide (j = i)) as [->|]; [left|right; split; [lia|done]].
      fold m in Hz. rewrite Hz. by left.
  - rewrite release_step_skip by done. cbn [mbind option_bind].
    destruct (IH (S i) k Hrest) as (k' & new & Hrel & Hdeg & Hq & Hnd & Hnew).
    { intros j Hj. rewrite Hk by done. f_equal.
      destruct (Nat.ltb_spec j i), (Nat.ltb_spec j (S i)); try done; try lia.
      by replace j with i by lia. }
    exists k', new. split; [done|]. split; [done|]. split; [done|]. split; [done|].
    intros j. rewrite Hnew. split; intros (Hj & Hp & Hz); (split; [|done]); [lia|].
    assert (j <> i) by (intros ->; congruence). lia.
Qed.

Record kahn_inv (head : nat) (k : kahn) : Prop := {
  inv_head : (head <= length (queue k))%nat;
  inv_degrees : forall j, (j < n)%nat ->
    indegree k !! j = Some (waiting (take head (queue k)) j);
  inv_nodup : NoDup (queue k);
  inv_range : forall j, j ∈ queue k -> (j < n)%nat;
  inv_ready : forall j, (j < n)%nat -> j ∈ queue k <-> waiting (take head (queue k)) j = 0%nat;
  inv_order : forall p i ds d, queue k !! p = Some i -> deps !! i = Some ds -> d ∈ ds ->
    exists q, (q < p)%nat /\ queue k !! q = Some d
}.

Lemma waiting_nil j : waiting [] j = length (default [] (deps !! j)).
Proof.
  unfold waiting. induction (default [] (deps !! j)) as [|d l IH]; [done|].
  rewrite filter_cons, decide_True by apply not_elem_of_nil. cbn. by rewrite IH.
Qed.

Lemma kahn_init_queue j : j ∈ queue (kahn_init deps) <-> deps !! j = Some [].
Proof.
  cbn. rewrite list_elem_of_fmap. split.
  - intros ([j' m] & -> & [Hm Hin]%list_elem_of_filter). cbn in *. subst m.
    apply list_elem_of_lookup in Hin as [i Hi]. rewrite list_lookup_imap, list_lookup_fmap in Hi.
    destruct (deps !! i) as [ds|] eqn:E; [|done]. cbn in Hi.
    injection Hi as -> Hl. by apply nil_length_inv in Hl as ->.
  - intros Hj. exists (j, 0%nat). split; [done|]. apply list_elem_of_filter. split; [done|].
    apply (list_elem_of_lookup_2 _ j). by rewrite list_lookup_imap, list_lookup_fmap, Hj.
Qed.

Lemma kahn_init_nodup : NoDup (queue (kahn_init deps)).
Proof.
  cbn. apply NoDup_fmap_2_strong.
  - intros [a x] [b y] [_ Ha]%list_elem_of_filter [_ Hb]%list_elem_of_filter Hab. cbn in Hab. subst b.
    apply list_elem_of_lookup in Ha as [i Hi], Hb as [j Hj].
    rewrite list_lookup_imap in Hi, Hj.
    destruct ((length <$> deps) !! i) eqn:Ei; [|done]. destruct ((length <$> deps) !! j) eqn:Ej; [|done].
    cbn in Hi, Hj. injection Hi as -> ->. injection Hj as -> ->. congruence.
  - apply NoDup_filter, NoDup_alt. intros i j x Hi Hj. rewrite list_lookup_imap in Hi, Hj.
    destruct ((length <$> deps) !! i) eqn:Ei; [|done]. destruct ((length <$> deps) !! j) eqn:Ej; [|done].
    cbn in Hi, Hj. congruence.
Qed.

Lemma kahn_init_inv : kahn_inv 0 (kahn_init deps).
Proof.
  split; [lia| |apply kahn_init_nodup| | |].
  - intros j Hj. cbn [kahn_init indegree]. rewrite take_0, waiting_nil, list_lookup_fmap.
    by destruct (lookup_lt_is_Some_2 deps j Hj) as [ds ->].
  - intros j Hj%kahn_init_queue. by eapply lookup_lt_Some.
  - intros j Hj. rewrite kahn_init_queue, take_0, waiting_nil.
    destruct (lookup_lt_is_Some_2 deps j Hj) as [ds ->]. cbn. split; [by intros [= ->]|].
    by intros ->%nil_length_inv.
  - intros p i ds d Hp Hi Hd. apply list_elem_of_lookup_2, kahn_init_queue in Hp.
    rewrite Hp in Hi. injection Hi as <-. by apply elem_of_nil in Hd.
Qed.

Lemma kahn_round head k c : kahn_inv head k -> queue k !! head = Some c ->
  exists k', release_all c 0 deps k = Some k' /\ kahn_inv (S head) k'.
Proof.
  intros [Hh Hdeg Hnd Hr Hready Hord] Hc. set (P := take head (queue k)) in *.
  pose proof (lookup_lt_Some _ _ _ Hc) as Hlt.
  assert (HP : take (S head) (queue k) = P ++ [c]) by (by apply take_S_r).
  assert (HcP : c ∉ P).
  { intros Hin. apply list_elem_of_lookup in Hin as [q Hq].
    apply lookup_take_Some in Hq as [Hq Hqh].
    pose proof (NoDup_lookup _ _ _ _ Hnd Hq Hc). lia. }
  assert (Hmono : forall j, (j < n)%nat -> waiting P j = 0%nat -> waiting (P ++ [c]) j = 0%nat).
  { intros j Hj Hz. destruct (lookup_lt_is_Some_2 deps j Hj) as [ds Hds].
    rewrite (waiting_zero P j ds Hds) in Hz. rewrite (waiting_zero _ j ds Hds).
    intros d Hd. apply elem_of_app. left. by apply Hz. }
  destruct (release_all_spec P c HcP deps 0 k) as (k' & new & Hrel & Hdeg' & Hq & Hndn & Hnew);
    [done|by intros j Hj; apply Hdeg|].
  assert (HP' : take (S head) (queue k') = P ++ [c]) by (rewrite Hq, take_app_le by lia; exact HP).
  exists k'. split; [done|]. split; rewrite ?HP'.
  - rewrite Hq, length_app. lia.
  - exact Hdeg'.
  - rewrite Hq. apply NoDup_app. split; [done|]. split; [|done].
    intros j Hj (Hjn & Hnz & _)%Hnew. apply Hnz. apply Hready; [lia|done].
  - intros j. rewrite Hq, elem_of_app. intros [Hj|(Hj & _)%Hnew]; [by apply Hr|lia].
  - intros j Hj. rewrite Hq, elem_of_app, Hnew, Hready by done. split.
    + intros [Hz|(_ & _ & Hz)]; [by apply Hmono|done].
    + intros Hz. destruct (decide (waiting P j = 0%nat)); [by left|right; split; [lia|done]].
  - intros p i ds d Hp Hi Hd. rewrite Hq in Hp |- *.
    destruct (Nat.lt_ge_cases p (length (queue k))) as [Hpl|Hpl].
    + rewrite lookup_app_l in Hp by done. destruct (Hord p i ds d Hp Hi Hd) as (q & Hqp & Hqd).
      exists q. split; [done|]. by apply lookup_app_l_Some.
    + rewrite lookup_app_r in Hp by done. apply list_elem_of_lookup_2, Hnew in Hp as (_ & _ & Hz).
      rewrite (waiting_zero _ i ds Hi) in Hz. specialize (Hz d Hd).
      rewrite <- HP in Hz. apply list_elem_of_lookup in Hz as [q Hqd].
      apply lookup_take_Some in Hqd as [Hqd Hqh]. exists q.
      split; [lia|]. by apply lookup_app_l_Some.
Qed.

Lemma queue_bound head k : kahn_inv head k -> (length (queue k) <= n)%nat.
Proof.
  intros [_ _ Hnd Hr _ _]. rewrite <- (length_seq n 0). apply submseteq_length, NoDup_submseteq; [done|].
  intros j Hj. apply elem_of_seq. specialize (Hr j Hj). lia.
Qed.

Lemma kahn_loop_spec fuel : forall head k, kahn_inv head k -> (n <= head + fuel)%nat ->
  exists k', kahn_loop fuel deps head k = Some (Some (length (queue k'))) /\
    kahn_inv (length (queue k')) k'.
Proof.
  induction fuel as [|fuel IH]; intros head k Hinv Hf; cbn [kahn_loop];
    destruct (queue k !! head) as [c|] eqn:Ec.
  - apply lookup_lt_Some in Ec. pose proof (queue_bound head k Hinv). lia.
  - exists k. pose proof (inv_head _ _ Hinv). apply lookup_ge_None in Ec.
    assert (head = length (queue k)) as -> by lia. done.
  - destruct (kahn_round head k c Hinv Ec) as (k' & -> & Hinv'). apply IH; [done|lia].
  - exists k. pose proof (inv_head _ _ Hinv). apply lookup_ge_None in Ec.
    assert (head = length (queue k)) as -> by lia. done.
Qed.

Lemma find_position (l : list nat) q j : NoDup l -> l !! q = Some j ->
  default 0%nat (fst <$> list_find (fun x => x = j) l) = q.
Proof.
  intros Hnd Hq. destruct (list_find (fun x => x = j) l) as [[q' x]|] eqn:E; cbn.
  - apply list_find_Some in E as (Hq' & -> & _). by eapply NoDup_lookup.
  - apply list_find_None in E. rewrite Forall_forall in E.
    by destruct (E j (list_elem_of_lookup_2 _ _ _ Hq)).
Qed.

Lemma acyclic_sn : acyclic deps -> forall i, sn (depends deps) i.
Proof.
  intros Ha i. apply tc_finite_sn; [exact Ha|]. exists (seq 0 n). intros d Hd.
  apply elem_of_seq. split; [lia|]. clear Ha.
  induction Hd as [x y (ds & Hx & Hy)|]; [by eapply in_range|done].
Qed.

(** The loop ends, without an inconsistency, and visits everything exactly when
    there is no cycle. *)
Lemma kahn_decides : exists v,
  kahn_loop n deps 0 (kahn_init deps) = Some (Some v) /\ (v = n <-> acyclic deps).
Proof.
  destruct (kahn_loop_spec n 0 (kahn_init deps) kahn_init_inv) as (k & Hloop & Hinv); [lia|].
  exists (length (queue k)). split; [done|]. pose proof (queue_bound _ _ Hinv) as Hb.
  destruct Hinv as [_ _ Hnd Hr Hready Hord]. rewrite take_ge in Hready by lia. split.
  - intros Hfull.
    apply (ranked_acyclic deps (fun i => default 0%nat (fst <$> list_find (fun j => j = i) (queue k)))).
    intros i d (ds & Hi & Hd).
    assert (Hin : i ∈ queue k).
    { assert (Hsub : queue k ≡ₚ seq 0 n).
      { apply submseteq_length_Permutation; [|rewrite length_seq; lia].
        apply NoDup_submseteq; [done|]. intros j Hj. apply elem_of_seq. specialize (Hr j Hj). lia. }
      rewrite Hsub. apply elem_of_seq. apply lookup_lt_Some in Hi. lia. }
    apply list_elem_of_lookup in Hin as [p Hp].
    destruct (Hord p i ds d Hp Hi Hd) as (q & Hqp & Hq).
    by rewrite (find_position _ p i Hnd Hp), (find_position _ q d Hnd Hq).
  - intros Hacyclic.
    assert (Hall : forall i, (i < n)%nat -> i ∈ queue k).
    { intros i Hi. pose proof (acyclic_sn Hacyclic i) as Hsn. induction Hsn as [i _ IH].
      destruct (lookup_lt_is_Some_2 deps i Hi) as [ds Hds].
      apply Hready; [done|]. apply (waiting_zero _ i ds Hds). intros d Hd.
      apply IH; [by exists ds|by eapply in_range]. }
    apply Nat.le_antisymm; [done|]. rewrite <- (length_seq n 0) at 1.
    apply submseteq_length, NoDup_submseteq; [apply NoDup_seq|].
    intros j Hj%elem_of_seq. apply Hall. lia.
Qed.

End kahn.

(** ** Successful computations *)

Lemma bind_ok {A B} (m : compile A) (k : A -> compile B) o b o' :
  (m ≫= k) o = Some (inr b, o') <-> exists a o1, m o = Some (inr a, o1) /\ k a o1 = Some (inr b, o').
Proof.
  unfold mbind, compile_bind. destruct (m o) as [[[f|a] o1]|]; split; try done.
  - by intros (a & o1' & [=] & _).
  - intros Hk. by exists a, o1.
  - by intros (a' & o1' & [= <- <-] & Hk).
  - by intros (a & o1' & [=] & _).
Qed.

Lemma ret_ok {A} (a b : A) o o' : (mret a : compile A) o = Some (inr b, o') <-> a = b /\ o = o'.
Proof. split; [by intros [= -> ->]|by intros [-> ->]]. Qed.

Lemma fail_ok {A} status message o (b : A) o' : dag_fail status message o <> Some (inr b, o').
Proof. done. Qed.

Lemma guard_ok b status message o u o' :
  guard_or b status message o = Some (inr u, o') <-> b = true /\ o = o'.
Proof. destruct b, u; cbn; split; [by intros [= ->]|by intros [_ ->]|done|by intros [? _]]. Qed.

Lemma try_alloc_ok o b o' : try_alloc o = Some (inr b, o') <-> alloc o = (b, o').
Proof. unfold try_alloc. destruct (alloc o) as [b1 o1]. split; [by intros [= -> ->]|by intros [= -> ->]]. Qed.

Lemma alloc_or_ok message o u o' :
  alloc_or message o = Some (inr u, o') <-> alloc o = (true, o').
Proof.
  unfold alloc_or. rewrite bind_ok. setoid_rewrite try_alloc_ok. setoid_rewrite guard_ok. split.
  - by intros (b & o1 & Ha & -> & ->).
  - intros Ha. by exists true, o'.
Qed.

Lemma memory_ok {A} (f : oracle -> A * oracle) o a o' :
  with_memory f o = Some (inr a, o') <-> f o = (a, o').
Proof. unfold with_memory. destruct (f o) as [a1 o1]. split; [by intros [= -> ->]|by intros [= -> ->]]. Qed.

(** Takes a successful computation apart. *)
Ltac inv_ok :=
  repeat match goal with
  | H : (_ ≫= _) _ = Some (inr _, _) |- _ => apply bind_ok in H as (? & ? & ? & H)
  | H : mret _ _ = Some (inr _, _) |- _ => apply ret_ok in H as [? ?]; subst
  | H : dag_fail _ _ _ = Some (inr _, _) |- _ => by destruct (fail_ok _ _ _ _ _ H)
  | H : guard_or _ _ _ _ = Some (inr _, _) |- _ => apply guard_ok in H as [? ?]; subst
  | H : alloc_or _ _ = Some (inr _, _) |- _ => apply alloc_or_ok in H
  | H : try_alloc _ = Some (inr _, _) |- _ => apply try_alloc_ok in H
  | H : with_memory _ _ = Some (inr _, _) |- _ => apply memory_ok in H
  | H : (let '(_, _) := ?p in _) = Some (inr _, _) |- _ => destruct p
  | H : (let '(_, _) := ?p in _) _ = Some (inr _, _) |- _ => destruct p
  end.

(** ** Cycle detection *)

Section acyclic.
Context {J : Type}.

Lemma kahn_steps (steps : list (turbo_agent_executable_dag_step (J := J))) :
  let deps := st_dependency_indices <$> steps in
  (forall t d, t ∈ steps -> d ∈ st_dependency_indices t -> (d < length steps)%nat) ->
  (forall t, t ∈ steps -> NoDup (st_dependency_indices t)) ->
  exists v, kahn_loop (length deps) deps 0 (kahn_init deps) = Some (Some v) /\
    (v = length deps <-> acyclic deps).
Proof.
  intros deps Hrange Hnd.
  assert (Hlookup : forall i ds, deps !! i = Some ds ->
    exists t, t ∈ steps /\ ds = st_dependency_indices t).
  { intros i ds Hi. unfold deps in Hi. rewrite list_lookup_fmap in Hi.
    destruct (steps !! i) as [t|] eqn:E; [|done]. injection Hi as <-. exists t.
    split; [by eapply list_elem_of_lookup_2|done]. }
  apply kahn_decides.
  - intros i ds d (t & Ht & ->)%Hlookup Hd. unfold deps. rewrite length_fmap. by eapply Hrange.
  - intros i ds (t & Ht & ->)%Hlookup. by apply Hnd.
Qed.

(** The cycle detector is exact and always answers: on steps whose dependencies
    are indices of steps without repetition it succeeds when no step depends on
    itself, directly or through others, and reports a cycle otherwise; it never
    finds the graph inconsistent and never visits a step twice. *)
Theorem cycle_detection_exact (steps : list (turbo_agent_executable_dag_step (J := J)))
    (o : oracle) :
  (forall t d, t ∈ steps -> d ∈ st_dependency_indices t -> (d < length steps)%nat) ->
  (forall t, t ∈ steps -> NoDup (st_dependency_indices t)) -> plenty o ->
  exists verdict o', plenty o' /\ dag_validate_acyclic steps o = Some (verdict, o') /\
    (verdict = inr () <-> acyclic (st_dependency_indices <$> steps)) /\
    (verdict = inl (TURBO_AGENT_COMPILE_CYCLE, "DAG contains a dependency cycle"%string) <->
       ~ acyclic (st_dependency_indices <$> steps)).
Proof.
  intros Hrange Hnd Hp. destruct (kahn_steps steps Hrange Hnd) as (v & Hloop & Hv).
  set (deps := st_dependency_indices <$> steps) in *.
  destruct (alloc_plenty o Hp) as (o1 & Hp1 & E1), (alloc_plenty o1 Hp1) as (o2 & Hp2 & E2).
  exists (if (v =? length deps)%nat then inr () else
            inl (TURBO_AGENT_COMPILE_CYCLE, "DAG contains a dependency cycle"%string)), o2.
  split; [done|]. split; [|destruct (Nat.eqb_spec v (length deps)); split; split; tauto || done].
  unfold dag_validate_acyclic, mbind, compile_bind, try_alloc. rewrite E1. cbn [fst snd].
  rewrite E2. cbn [andb guard_or]. unfold mret, compile_ret. fold deps. unfold detect_cycle.
  rewrite Hloop. by destruct (v =? length deps)%nat.
Qed.

End acyclic.
