(* ===== verification/DagPlanFacts.v ===== *)
(** * What a compiled plan guarantees

    Each stage of [turbo_agent_compile_dag], when it succeeds, and their
    composition: the plan is its source, admitted against the registry. *)

From stdpp Require Import sorting.
From S2P Require Import Prelude RuntimeJson JsonBuild Tool ToolRegistry ToolRegistryFacts.
From S2P Require Import ToolSchema ToolSchemaFacts DagCompiler DagFacts.

Section plan.
Context {J : Type} `{JsonLaws J, !JsonSetters J, !JsonSettersLaws J,
                     !JsonMembers J, !JsonMembersLaws J} {W : Type} `{Cmeta}.
Abbreviation registry := (turbo_tool_registry (J := J) (W := W)).
Abbreviation entry := (turbo_tool_entry (J := J) (W := W)).
Abbreviation step := (turbo_agent_executable_dag_step (J := J)).
Abbreviation step_source := (turbo_agent_dag_step_source (J := J)).

Variable sizeof_native_projection : Z.

(** ** Tools *)

Lemma get_definition_entry (r : registry) i d :
  turbo_tool_registry_get_definition (Some r) i = (TURBO_TOOL_OK, Some d) ->
  exists e, e ∈ entries r /\ d = view e.
Proof.
  unfold turbo_tool_registry_get_definition. destruct (_ <=? _); [done|].
  destruct (entries r !! Z.to_nat i) as [e|] eqn:E; [|done]. intros [= <-]. exists e.
  split; [by eapply list_elem_of_lookup_2|done].
Qed.

Lemma find_definition_entry (r : registry) l name d : find_definition (Some r) l name = Some d ->
  exists e, e ∈ entries r /\ d = view e /\ e_name e = name.
Proof.
  induction l as [|i l IH]; cbn [find_definition]; [done|].
  destruct (turbo_tool_registry_get_definition (Some r) i) as [[] [d'|]] eqn:E; try done.
  case_bool_decide as Hn; [|exact IH]. intros [= <-].
  apply get_definition_entry in E as (e & He & ->). exists e. by injection Hn as ->.
Qed.

Lemma name_unique (r : registry) e e' : NoDup (e_name <$> entries r) ->
  e ∈ entries r -> e' ∈ entries r -> e_name e = e_name e' -> e = e'.
Proof.
  intros Hnd [i Hi]%list_elem_of_lookup [j Hj]%list_elem_of_lookup Hn.
  assert (i = j) as ->; [|congruence].
  eapply (NoDup_lookup (e_name <$> entries r)); [done|..]; rewrite list_lookup_fmap.
  - by rewrite Hi.
  - by rewrite Hj, Hn.
Qed.

Lemma resolve_tool_ok (r : registry) name o canonical d o' : NoDup (e_name <$> entries r) ->
  resolve_tool r name o = Some (inr (canonical, d), o') ->
  exists e, found (Some r) name = Some e /\ canonical = e_name e /\ d = view e /\ o' = o.
Proof.
  intros Hnd. unfold resolve_tool.
  destruct (turbo_tool_registry_resolve_name (Some r) name) as [[] [c|]] eqn:E; try done.
  apply resolve_name_found in E as (e & Hf & ->).
  destruct (dag_find_definition r (e_name e)) as [d'|] eqn:Ed; [|done]. intros [[= <- <-] <-]%ret_ok.
  apply find_definition_entry in Ed as (e' & He' & -> & Hn). exists e.
  split; [done|]. split; [done|]. split; [|done]. f_equal.
  eapply name_unique; [done|exact He'|by eapply found_member|done].
Qed.

Lemma check_arguments_ok (d : turbo_tool_definition J W) a o u o' :
  check_arguments d a o = Some (inr u, o') ->
  exists schema o1, turbo_tool_schema_parse_parameters (Some d) o = (Some schema, o1) /\
    admits schema a.
Proof.
  unfold check_arguments. intros Hc. apply bind_ok in Hc as ([status diagnostic] & o1 & Hm & Hc).
  apply memory_ok in Hm.
  apply (valid_admits d a (Some 256)).
  destruct (turbo_tool_schema_validate_arguments_json_value (Some d) (Some a) (Some 256) o)
    as [[s g] o2]. injection Hm as <- <- <-. by destruct s.
Qed.

Lemma read_metadata_ok (r : registry) e o m o' : NoDup (e_name <$> entries r) ->
  e ∈ entries r -> read_metadata r (e_name e) o = Some (inr m, o') ->
  m = (e_execution_policy e, e_required_capabilities e, e_effect_flags e, e_execution_metadata e).
Proof.
  intros Hnd [i Hi]%list_elem_of_lookup.
  assert (Hf : found (Some r) (Some (e_name e)) = Some e).
  { unfold found, turbo_tool_registry_find. by rewrite (find_exact_unique _ _ i e Hnd Hi). }
  unfold read_metadata, turbo_tool_registry_get_execution_policy,
    turbo_tool_registry_get_required_capabilities, turbo_tool_registry_get_effects,
    turbo_tool_registry_get_execution_metadata, read_entry. rewrite Hf.
  destruct (negb _); [done|]. by intros [-> _]%ret_ok.
Qed.

(** ** The size of arguments *)

Fixpoint weight_all {A} (f : A -> option (Z * Z)) (l : list A) : option (Z * Z) :=
  match l with
  | [] => Some (0, 0)
  | x :: l => '(n, b) ← f x; '(m, c) ← weight_all f l; Some (n + m, b + c)
  end.

(** Nodes and bytes of keys, texts and numbers of a value less than [depth] deep;
    of a text the bytes before its first NUL, as the code counts them. *)
Fixpoint json_weight (depth : nat) (v : J) : option (Z * Z) :=
  match depth with
  | O => None
  | S depth =>
      match json_type v with
      | JSON_NULL | JSON_BOOL => Some (1, 0)
      | JSON_NUMBER => text ← json_number_text v; Some (1, Z.of_nat (String.length text))
      | JSON_STRING => Some (1, Z.of_nat (String.length (json_c_text v)))
      | JSON_ARRAY => '(n, b) ← weight_all (json_weight depth) (json_array_items v); Some (1 + n, b)
      | JSON_OBJECT =>
          '(n, b) ← weight_all (fun kv => '(n, b) ← json_weight depth kv.2;
                                          Some (n, Z.of_nat (String.length kv.1) + b))
                      (json_members v);
          Some (1 + n, b)
      end
  end.

(** [used'] is [used] and a weight, within the limits. *)
Definition adds (config : turbo_agent_compiler_config) (weight : option (Z * Z))
    (used used' : Z * Z) : Prop :=
  exists n b, weight = Some (n, b) /\ used' = (used.1 + n, used.2 + b) /\
    (used.1 <= max_argument_nodes config -> used'.1 <= max_argument_nodes config) /\
    (used.2 <= max_argument_bytes config -> used'.2 <= max_argument_bytes config).

Lemma add_bytes_adds config n used used' : add_bytes config n used = Some used' ->
  used' = (used.1, used.2 + n) /\ used'.2 <= max_argument_bytes config.
Proof.
  unfold add_bytes, dag_budget_add. destruct (_ || _) eqn:E; [done|]. bool_to_prop.
  intros [= <-]. split; [done|cbn; lia].
Qed.

Lemma within_all_adds {A} config (f : A -> Z * Z -> option (Z * Z)) g l : 
  (forall x used used', f x used = Some used' -> adds config (g x) used used') ->
  forall used used', within_all f l used = Some used' -> adds config (weight_all g l) used used'.
Proof.
  intros Hf. induction l as [|x l IH]; intros used used'; cbn [within_all weight_all].
  { intros [= <-]. exists 0, 0. split; [done|]. split; [|done]. rewrite !Z.add_0_r. by destruct used. }
  destruct (f x used) as [used1|] eqn:E; [|done]. cbn [mbind option_bind]. intros Hl.
  destruct (Hf _ _ _ E) as (n & b & -> & -> & Hn & Hb).
  destruct (IH _ _ Hl) as (m & c & -> & -> & Hm & Hc). exists (n + m), (b + c).
  split; [done|]. cbn in *. rewrite !Z.add_assoc. split; [done|]. by split; intros; [apply Hm, Hn|apply Hc, Hb].
Qed.

Lemma limits_adds config depth : forall v used used',
  dag_arguments_within_limits config depth v used = Some used' ->
  adds config (json_weight depth v) used used'.
Proof.
  induction depth as [|depth IH]; intros v used used'; cbn [dag_arguments_within_limits json_weight]; [done|].
  destruct (Z.leb_spec (max_argument_nodes config) used.1) as [|Hlt]; [done|].
  destruct (json_type v).
  - intros [= <-]. exists 1, 0. split; [done|]. cbn. rewrite Z.add_0_r. split; [done|]. lia.
  - intros [= <-]. exists 1, 0. split; [done|]. cbn. rewrite Z.add_0_r. split; [done|]. lia.
  - destruct (json_number_text v) as [text|]; [|done]. intros [-> Hb]%add_bytes_adds.
    eexists _, _. split; [done|]. cbn in *. split; [done|]. lia.
  - intros [-> Hb]%add_bytes_adds. eexists _, _. split; [done|]. cbn in *. split; [done|]. lia.
  - intros Hl. apply (within_all_adds config _ _ _ (fun x => IH x)) in Hl as (n & b & -> & -> & Hn & Hb).
    exists (1 + n), b. split; [done|]. cbn in *. rewrite Z.add_assoc. split; [done|].
    split; [|done]. intros _. apply Hn. lia.
  - intros Hl.
    apply (within_all_adds config _ (fun kv => '(n, b) ← json_weight depth kv.2;
      Some (n, Z.of_nat (String.length kv.1) + b))) in Hl as (n & b & -> & -> & Hn & Hb).
    + exists (1 + n), b. split; [done|]. cbn in *. rewrite Z.add_assoc. split; [done|].
      split; [|done]. intros _. apply Hn. lia.
    + clear Hl Hlt used used'. intros [k x] used used'. cbn [fst snd].
      destruct (add_bytes _ _ used) as [used1|] eqn:E; [|done]. cbn [mbind option_bind].
      apply add_bytes_adds in E as [-> Hk].
      intros (n & b & -> & -> & Hn & Hb)%IH. eexists _, _. split; [done|]. cbn in *.
      rewrite Z.add_assoc. split; [done|]. split; [done|]. intros _. by apply Hb.
Qed.

Definition arguments_within (config : turbo_agent_compiler_config) (v : J) : Prop :=
  exists n b, json_weight (S (Z.to_nat (max_argument_depth config))) v = Some (n, b) /\
    n <= max_argument_nodes config /\ b <= max_argument_bytes config.

Lemma limits_ok config v u : 0 <= max_argument_nodes config -> 0 <= max_argument_bytes config ->
  dag_arguments_within_limits config (S (Z.to_nat (max_argument_depth config))) v (0, 0) = Some u ->
  arguments_within config v.
Proof.
  intros Hn0 Hb0 (n & b & Hw & -> & Hn & Hb)%limits_adds. exists n, b. cbn in *.
  split; [done|]. split; [by apply Hn|by apply Hb].
Qed.

(** ** A step *)

(** What the configuration lets a plan need. *)
Definition capability_admitted (config : turbo_agent_compiler_config) (c : string) : Prop :=
  c <> EmptyString /\
  (deny_unlisted_capabilities config <> 0 -> exists l, allowed_capabilities config = Some l /\ Some c ∈ l).

Lemma capability_allowed_iff config c :
  dag_capability_allowed config (Some c) = true <-> capability_admitted config c.
Proof.
  unfold dag_capability_allowed, capability_admitted. destruct c as [|a c]; cbn [nonempty_text negb].
  { split; [done|]. by intros [? _]. }
  destruct (Z.eqb_spec (deny_unlisted_capabilities config) 0) as [->|Hn].
  { split; [|done]. intros _. by split. }
  rewrite bool_decide_eq_true. destruct (allowed_capabilities config) as [l|]; cbn.
  - split; [intros Hl; split; [done|]; intros _; by exists l|]. intros [_ Hl].
    by destruct (Hl Hn) as (l' & [= <-] & Hin).
  - split; [by intros Hl%elem_of_nil|]. intros [_ Hl]. by destruct (Hl Hn) as (l' & ? & _).
Qed.

Definition effective_capabilities (required : list string) : list string :=
  match required with [] => ["custom_tools"%string] | _ => required end.

Lemma copy_capabilities_ok config required o caps o' :
  dag_copy_capabilities config required o = Some (inr caps, o') ->
  caps = merge_sort String.le (effective_capabilities required) /\
  forall c, c ∈ effective_capabilities required -> capability_admitted config c.
Proof.
  unfold dag_copy_capabilities. fold (effective_capabilities required). intros Hc.
  apply bind_ok in Hc as (u & o1 & Hg & Hc). apply guard_ok in Hg as [Hg <-].
  inv_ok. split; [done|]. intros c Hin. apply capability_allowed_iff. rewrite forallb_forall in Hg. apply Hg.
  by apply list_elem_of_In.
Qed.

(** A step of the plan against its source, dependencies aside. *)
Record step_admitted (config : turbo_agent_compiler_config) (r : registry)
    (s : step_source) (t : step) : Prop := {
  sa_id : ss_step_id s = Some (st_step_id t) /\ st_step_id t <> EmptyString;
  sa_limits : ss_retry_limit s = st_retry_limit t /\ ss_flags s = st_flags t /\
    (exists l, ss_depends_on s = Some l);
  sa_tool : exists e, found (Some r) (ss_tool_name s) = Some e /\
    st_tool_name t = e_name e /\ st_execution_policy t = e_execution_policy e /\
    st_effect_flags t = e_effect_flags e /\
    option_Forall2 json_equiv (st_execution_metadata t) (e_execution_metadata e) /\
    st_capabilities t ≡ₚ effective_capabilities (e_required_capabilities e) /\
    exists a schema o o', ss_arguments s = Some a /\ json_type a = JSON_OBJECT /\
      json_equiv (st_arguments t) a /\
      (0 <= max_argument_nodes config -> 0 <= max_argument_bytes config ->
         arguments_within config a) /\
      turbo_tool_schema_parse_parameters (Some (view e)) o = (Some schema, o') /\
      admits schema a;
  sa_retry : st_retry_limit t = 0 \/
    ep_idempotency (st_execution_policy t) <> TURBO_TOOL_IDEMPOTENCY_NONE;
  sa_allowed : forall c, c ∈ st_capabilities t -> capability_admitted config c
}.

Lemma freeze_step_ok id canonical a retry flags policy effects caps m o t o' :
  freeze_step id canonical a retry flags policy effects caps m o = Some (inr t, o') ->
  t = mk_step id canonical (json_clone a) [] retry flags policy effects caps (json_clone <$> m).
Proof. unfold freeze_step. intros Hf. inv_ok. done. Qed.

Lemma admit_step_ok config (r : registry) s o t o' : registry_wf sizeof_native_projection r ->
  dag_admit_step config r s o = Some (inr t, o') -> step_admitted config r s t.
Proof.
  intros Hr. pose proof (wf_names _ _ Hr) as Hnd. unfold dag_admit_step.
  destruct (ss_step_id s) as [id|] eqn:Eid; [|done]. destruct (ss_arguments s) as [a|] eqn:Ea; [|done].
  intros Hc. apply bind_ok in Hc as (? & ? & [Hv <-]%guard_ok & Hc).
  apply bind_ok in Hc as (? & ? & [Hl <-]%guard_ok & Hc).
  apply bind_ok in Hc as ([canonical d] & o1 & Hres & Hc).
  apply resolve_tool_ok in Hres as (e & Hf & -> & -> & ->); [|done].
  apply bind_ok in Hc as (? & o2 & Hargs & Hc).
  apply check_arguments_ok in Hargs as (schema & o3 & Hparse & Hadm).
  apply bind_ok in Hc as ([[[policy required] effects] metadata] & o4 & Hm & Hc).
  apply read_metadata_ok in Hm as [= -> -> -> ->]; [|done|by eapply found_member].
  apply bind_ok in Hc as (? & ? & [Hretry <-]%guard_ok & Hc).
  apply bind_ok in Hc as (caps & o5 & Hcaps & Hc).
  apply copy_capabilities_ok in Hcaps as [-> Hallowed]. apply freeze_step_ok in Hc as ->.
  unfold step_source_valid in Hv. rewrite Eid, Ea in Hv. bool_to_prop.
  assert (Hperm : forall l, merge_sort String.le l ≡ₚ l) by (intros; apply merge_sort_Permutation).
  split; cbn.
  - split; [done|]. by destruct id.
  - split; [done|]. split; [done|]. by destruct (ss_depends_on s) as [l|]; [exists l|done].
  - exists e. split; [done|]. repeat (split; [done|]). split.
    { destruct (e_execution_metadata e); constructor. apply json_clone_equiv. }
    split; [apply Hperm|]. exists a, schema, o, o3. repeat (split; [done|]).
    split; [apply json_clone_equiv|]. split; [|done]. intros Hn Hb.
    match goal with Hw : is_Some (dag_arguments_within_limits _ _ a _) |- _ => destruct Hw as [u Hw] end.
    by apply limits_ok with u.
  - apply orb_true_iff in Hretry as [Hz|Hz]; bool_to_prop; [by left|by right].
  - intros c. rewrite Hperm. apply Hallowed.
Qed.

Lemma admit_steps_ok config (r : registry) sources : registry_wf sizeof_native_projection r ->
  forall o steps o', admit_steps config r sources o = Some (inr steps, o') ->
  Forall2 (step_admitted config r) sources steps.
Proof.
  intros Hr. induction sources as [|s sources IH]; intros o steps o' Hc; cbn [admit_steps] in Hc.
  { inv_ok. constructor. }
  apply bind_ok in Hc as (t & o1 & Ht & Hc). apply bind_ok in Hc as (ts & o2 & Hts & Hc).
  inv_ok. constructor; [by eapply admit_step_ok|by eapply IH].
Qed.

(** ** Dependencies *)

(** The indices are those of the steps the source names, each once. *)
Record step_resolved (all : list step_source) (s : step_source) (t : step) : Prop := {
  sr_names : exists l, ss_depends_on s = Some l /\
    Forall2 (fun dep i => exists s', all !! i = Some s' /\ ss_step_id s' = dep /\ is_Some dep)
      l (st_dependency_indices t);
  sr_once : NoDup (st_dependency_indices t)
}.

Lemma resolve_step_ok (all : list step_source) deps : forall resolved o indices o',
  resolve_step all resolved deps o = Some (inr indices, o') -> NoDup resolved ->
  exists new, indices = resolved ++ new /\ NoDup indices /\
    Forall2 (fun dep i => exists s', all !! i = Some s' /\ ss_step_id s' = dep /\ is_Some dep)
      deps new.
Proof.
  induction deps as [|dep deps IH]; intros resolved o indices o' Hc Hnd; cbn [resolve_step] in Hc.
  { inv_ok. exists []. by rewrite app_nil_r. }
  destruct dep as [[|a id]|]; try done. unfold dag_find_source_step in Hc.
  destruct (list_find _ all) as [[i s']|] eqn:E; [|done]. cbn [fmap option_fmap option_map fst] in Hc.
  apply list_find_Some in E as (Hi & Hid & _).
  apply bind_ok in Hc as (? & ? & [Hg <-]%guard_ok & Hc). bool_to_prop.
  destruct (IH (resolved ++ [i]) o indices o' Hc) as (new & -> & Hnd' & Hall).
  { apply NoDup_app. split; [done|]. split; [|by apply NoDup_singleton].
    intros i' Hi' ->%list_elem_of_singleton. done. }
  exists (i :: new). rewrite <- app_assoc in Hnd' |- *. split; [done|]. split; [done|].
  constructor; [by exists s'|done].
Qed.

Lemma set_dependencies_admitted config (r : registry) s t l :
  step_admitted config r s t -> step_admitted config r s (set_dependencies l t).
Proof. by intros [? ? ? ? ?]. Qed.

Definition edges (steps : list step) : Z :=
  Z.of_nat (length (mjoin (st_dependency_indices <$> steps))).

Lemma resolve_dependencies_ok config (r : registry) (all : list step_source) sources steps :
  Forall2 (step_admitted config r) sources steps -> forall total o steps' o',
  dag_resolve_dependencies all sources steps total o = Some (inr steps', o') ->
  Forall2 (step_admitted config r) sources steps' /\
  Forall2 (step_resolved all) sources steps' /\
  (total <= TURBO_AGENT_DAG_MAX_EDGES -> total + edges steps' <= TURBO_AGENT_DAG_MAX_EDGES).
Proof.
  induction 1 as [|s t sources steps Hst _ IH]; intros total o steps' o' Hc;
    cbn [dag_resolve_dependencies] in Hc.
  { inv_ok. split; [constructor|]. split; [constructor|]. unfold edges. cbn. lia. }
  destruct (sa_limits _ _ _ _ Hst) as (_ & _ & [l Hl]). rewrite Hl in Hc.
  cbn [default from_option] in Hc. change (id l) with l in Hc.
  apply bind_ok in Hc as (? & ? & [Hg <-]%guard_ok & Hc). bool_to_prop.
  apply bind_ok in Hc as (indices & o1 & Hi & Hc). apply bind_ok in Hc as (rest & o2 & Hr & Hc).
  inv_ok. destruct (IH _ _ _ _ Hr) as (Hadm & Hres & Hsum).
  assert (Hnew : NoDup indices /\
    Forall2 (fun dep i => exists s', all !! i = Some s' /\ ss_step_id s' = dep /\ is_Some dep)
      l indices).
  { destruct l as [|dep l]; [inv_ok; by split; constructor|].
    apply bind_ok in Hi as (? & ? & _ & Hi).
    destruct (resolve_step_ok all _ [] _ _ _ Hi (NoDup_nil_2)) as (new & -> & Hnd & Hall).
    by split. }
  destruct Hnew as [Hnd Hall]. split; [|split].
  - constructor; [by apply set_dependencies_admitted|done].
  - constructor; [|done]. split; [by exists l|done].
  - intros _. assert (Hle : total + Z.of_nat (length l) <= TURBO_AGENT_DAG_MAX_EDGES) by (clear - Hg; lia).
    specialize (Hsum Hle). unfold edges in *. rewrite fmap_cons.
    change (mjoin (?x :: ?l)) with (x ++ mjoin l). rewrite length_app. cbn [set_dependencies st_dependency_indices].
    rewrite <- (Forall2_length _ _ _ Hall). lia.
Qed.

(** The detector's success on resolved steps. *)
Lemma validate_acyclic_ok (steps : list step) o u o' :
  (forall t d, t ∈ steps -> d ∈ st_dependency_indices t -> (d < length steps)%nat) ->
  (forall t, t ∈ steps -> NoDup (st_dependency_indices t)) ->
  dag_validate_acyclic steps o = Some (inr u, o') -> acyclic (st_dependency_indices <$> steps).
Proof.
  intros Hrange Hnd Hc. unfold dag_validate_acyclic in Hc.
  apply bind_ok in Hc as (? & o1 & _ & Hc). apply bind_ok in Hc as (? & o2 & _ & Hc).
  apply bind_ok in Hc as (? & ? & _ & Hc). unfold detect_cycle in Hc.
  destruct (kahn_steps steps Hrange Hnd) as (v & Hloop & Hv). rewrite Hloop in Hc.
  apply guard_ok in Hc as [Hc%Nat.eqb_eq _]. by apply Hv.
Qed.

Lemma in_range_resolved (all : list step_source) sources steps t d :
  Forall2 (step_resolved all) sources steps -> t ∈ steps -> d ∈ st_dependency_indices t ->
  (d < length all)%nat.
Proof.
  intros Hall [i Hi]%list_elem_of_lookup Hd.
  destruct (Forall2_lookup_r _ _ _ _ _ Hall Hi) as (s & _ & [(l & _ & Hres) _]).
  apply list_elem_of_lookup in Hd as [j Hj].
  destruct (Forall2_lookup_r _ _ _ _ _ Hres Hj) as (dep & _ & s' & Hs' & _).
  by eapply lookup_lt_Some.
Qed.

(** ** Identifiers, capabilities and effects *)

Lemma check_ids_ok (sources : list step_source) : forall prior o u o',
  check_ids prior sources o = Some (inr u, o') -> NoDup prior ->
  NoDup (prior ++ (ss_step_id <$> sources)).
Proof.
  induction sources as [|s sources IH]; intros prior o u o' Hc Hnd; cbn [check_ids] in Hc.
  { by rewrite app_nil_r. }
  apply bind_ok in Hc as (? & ? & [_ <-]%guard_ok & Hc).
  apply bind_ok in Hc as (? & ? & [Hg <-]%guard_ok & Hc). bool_to_prop.
  change (ss_step_id <$> s :: sources) with ([ss_step_id s] ++ (ss_step_id <$> sources)).
  rewrite app_assoc. apply (IH _ _ _ _ Hc), NoDup_app. split; [done|].
  split; [|by apply NoDup_singleton]. by intros i Hi ->%list_elem_of_singleton.
Qed.

Lemma union_capabilities_ok caps : forall acc o r o',
  union_capabilities caps acc o = Some (inr r, o') -> NoDup acc ->
  NoDup r /\ forall c, c ∈ r <-> c ∈ acc \/ c ∈ caps.
Proof.
  induction caps as [|cap caps IH]; intros acc o r o' Hc Hnd; cbn [union_capabilities] in Hc.
  { inv_ok. split; [done|]. intros c. split; [by left|]. by intros [?|Hn%elem_of_nil]. }
  case_bool_decide as Hin.
  - destruct (IH _ _ _ _ Hc Hnd) as [Hr Hall]. split; [done|]. intros c.
    rewrite Hall, elem_of_cons. split; [tauto|]. intros [?|[->|?]]; tauto.
  - apply bind_ok in Hc as (? & ? & _ & Hc). destruct (IH _ _ _ _ Hc) as [Hr Hall].
    { apply NoDup_app. split; [done|]. split; [|by apply NoDup_singleton].
      by intros i Hi ->%list_elem_of_singleton. }
    split; [done|]. intros c. rewrite Hall, elem_of_app, list_elem_of_singleton, elem_of_cons. tauto.
Qed.

(** Sorted, without repetition, and exactly the capabilities of the steps. *)
Definition union_of (steps : list step) (caps : list string) : Prop :=
  StronglySorted String.le caps /\ NoDup caps /\
  forall c, c ∈ caps <-> exists t, t ∈ steps /\ c ∈ st_capabilities t.

Lemma capability_union_ok (steps : list step) o caps o' :
  dag_build_capability_union steps o = Some (inr caps, o') -> union_of steps caps.
Proof.
  unfold dag_build_capability_union, union_of. intros Hc.
  assert (Hin : forall c, c ∈ mjoin (st_capabilities <$> steps) <->
                  exists t, t ∈ steps /\ c ∈ st_capabilities t).
  { intros c. rewrite list_elem_of_join. split.
    - intros (l & Hcl & (t & -> & Ht)%list_elem_of_fmap). by exists t.
    - intros (t & Ht & Hct). exists (st_capabilities t). split; [done|]. by apply list_elem_of_fmap_2. }
  setoid_rewrite <- Hin. destruct (mjoin (st_capabilities <$> steps)) as [|cap l].
  { inv_ok. split; [constructor|]. split; [constructor|done]. }
  apply bind_ok in Hc as (? & o1 & _ & Hc). apply bind_ok in Hc as (acc & o2 & Hacc & Hc). inv_ok.
  destruct (union_capabilities_ok _ _ _ _ _ Hacc (NoDup_nil_2)) as [Hnd Hall].
  split; [apply StronglySorted_merge_sort; apply _|].
  split; [by rewrite merge_sort_Permutation|]. intros c. rewrite merge_sort_Permutation, Hall.
  split; [intros [Hn|?]; [by apply elem_of_nil in Hn|done]|by right].
Qed.

(** UNKNOWN as soon as one step is, PURE when all are, else the union of the
    effects that are not PURE. *)
Definition effects_of (flags : list Z) (summary : Z) : Prop :=
  (TURBO_TOOL_EFFECT_UNKNOWN ∈ flags -> summary = TURBO_TOOL_EFFECT_UNKNOWN) /\
  (Forall (fun f => f = TURBO_TOOL_EFFECT_PURE) flags -> summary = TURBO_TOOL_EFFECT_PURE) /\
  ((TURBO_TOOL_EFFECT_UNKNOWN ∉ flags) -> ~ Forall (fun f => f = TURBO_TOOL_EFFECT_PURE) flags ->
   summary <> TURBO_TOOL_EFFECT_UNKNOWN /\ summary <> TURBO_TOOL_EFFECT_PURE /\
   forall i, 0 <= i -> Z.testbit summary i = true <->
     exists f, f ∈ flags /\ f <> TURBO_TOOL_EFFECT_PURE /\ Z.testbit f i = true).

Definition effect_ok (f : Z) : Prop := turbo_tool_effect_flags_valid f = true /\ f <> 0.

(** A combination of the other flags. *)
Definition combined (f : Z) : Prop := f <> 0 /\ Z.testbit f 0 = false /\ Z.testbit f 1 = false.

Lemma land_pow2_zero f i : 0 <= i -> Z.land f (2 ^ i) = 0 <-> Z.testbit f i = false.
Proof.
  intros Hi. split; intros Hz.
  - apply (f_equal (fun z => Z.testbit z i)) in Hz.
    rewrite Z.land_spec, Z.pow2_bits_true, Z.bits_0, andb_true_r in Hz by done. done.
  - apply Z.bits_inj'. intros j Hj. rewrite Z.land_spec, Z.bits_0, Z.pow2_bits_eqb by done.
    destruct (Z.eqb_spec i j) as [<-|]; [by rewrite Hz|apply andb_false_r].
Qed.

Lemma effect_cases f : effect_ok f ->
  f = TURBO_TOOL_EFFECT_UNKNOWN \/ f = TURBO_TOOL_EFFECT_PURE \/ combined f.
Proof.
  unfold effect_ok, turbo_tool_effect_flags_valid, combined. intros [Hv Hz].
  destruct (Z.land f _ =? 0); [|done]. cbn [negb] in Hv.
  apply Z.eqb_neq in Hz as Hz'. rewrite Hz' in Hv.
  destruct (Z.eqb_spec f TURBO_TOOL_EFFECT_UNKNOWN); [by left|right].
  destruct (Z.eqb_spec f TURBO_TOOL_EFFECT_PURE); [by left|right]. cbn [negb] in Hv.
  rewrite !andb_true_r in Hv. split; [done|].
  rewrite <- !land_pow2_zero by done. change (2 ^ 0) with TURBO_TOOL_EFFECT_UNKNOWN.
  change (2 ^ 1) with TURBO_TOOL_EFFECT_PURE.
  destruct (Z.eqb_spec (Z.land f TURBO_TOOL_EFFECT_UNKNOWN) 0); [|done].
  by destruct (Z.eqb_spec (Z.land f TURBO_TOOL_EFFECT_PURE) 0).
Qed.

Lemma combined_neq f : combined f -> f <> TURBO_TOOL_EFFECT_UNKNOWN /\ f <> TURBO_TOOL_EFFECT_PURE.
Proof. intros (_ & Hb0 & Hb1). by split; intros ->. Qed.

Lemma combined_union known f : (known = 0 \/ combined known) -> combined f ->
  combined (Z.lor known (Z.land f (Z.lnot TURBO_TOOL_EFFECT_PURE))) /\
  forall i, 0 <= i -> Z.testbit (Z.lor known (Z.land f (Z.lnot TURBO_TOOL_EFFECT_PURE))) i = true <->
    Z.testbit known i = true \/ Z.testbit f i = true.
Proof.
  intros Hk (Hf & Hf0 & Hf1).
  assert (El : Z.land f (Z.lnot TURBO_TOOL_EFFECT_PURE) = f).
  { apply Z.bits_inj'. intros j Hj. rewrite Z.land_spec, Z.lnot_spec by done.
    change TURBO_TOOL_EFFECT_PURE with (2 ^ 1). rewrite Z.pow2_bits_eqb by done.
    destruct (Z.eqb_spec 1 j) as [<-|]; [by rewrite Hf1|apply andb_true_r]. }
  rewrite El. split; [|by intros i _; rewrite Z.lor_spec, orb_true_iff].
  split; [intros Hz; by apply Z.lor_eq_0_iff in Hz as [_ ?]|].
  rewrite !Z.lor_spec, Hf0, Hf1, !orb_false_r. by destruct Hk as [->|(_ & ? & ?)].
Qed.

Lemma effect_scan_spec flags : forall (known : Z) (pure : bool), Forall effect_ok flags ->
  (if pure then known = 0 else combined known) ->
  let s := effect_scan flags known pure in
  (TURBO_TOOL_EFFECT_UNKNOWN ∈ flags -> s = TURBO_TOOL_EFFECT_UNKNOWN) /\
  (pure = true -> Forall (fun f => f = TURBO_TOOL_EFFECT_PURE) flags -> s = TURBO_TOOL_EFFECT_PURE) /\
  ((TURBO_TOOL_EFFECT_UNKNOWN ∉ flags) ->
   ~ (pure = true /\ Forall (fun f => f = TURBO_TOOL_EFFECT_PURE) flags) ->
   combined s /\ forall i, 0 <= i -> Z.testbit s i = true <-> Z.testbit known i = true \/
     exists f, f ∈ flags /\ f <> TURBO_TOOL_EFFECT_PURE /\ Z.testbit f i = true).
Proof.
  induction flags as [|f flags IH]; intros known pure Hok Hk; cbn [effect_scan]; cbv zeta.
  - split; [by intros ?%elem_of_nil|]. split; [by intros ->|]. intros _ Hn.
    destruct pure; [by destruct Hn|]. destruct (Z.eqb_spec known 0) as [->|]; [by destruct Hk|].
    split; [done|]. intros i Hi. split; [by left|]. by intros [?|(f & Hf%elem_of_nil & _)].
  - apply Forall_cons in Hok as [Hf Hok]. destruct (effect_cases f Hf) as [->|[->|Hcomb]].
    + split; [done|]. split; [by intros _ [? _]%Forall_cons|].
      intros Hn. rewrite not_elem_of_cons in Hn. by destruct Hn.
    + change ((TURBO_TOOL_EFFECT_PURE =? TURBO_TOOL_EFFECT_UNKNOWN)
        || negb (Z.land TURBO_TOOL_EFFECT_PURE TURBO_TOOL_EFFECT_UNKNOWN =? 0)) with false.
      cbv iota. rewrite Z.eqb_refl.
      destruct (IH known pure Hok Hk) as (IHu & IHp & IHc). split; [|split].
      * intros [?|?]%elem_of_cons; [done|by apply IHu].
      * intros Hp [_ Hall]%Forall_cons. by apply IHp.
      * rewrite not_elem_of_cons, Forall_cons. intros [_ Hn] Hnp.
        destruct (IHc Hn) as [Hs Hbits]; [tauto|]. split; [done|]. intros i Hi. rewrite Hbits by done.
        setoid_rewrite elem_of_cons. split; [intros [?|(f & ? & ? & ?)]; eauto 10|].
        intros [?|(f & [->|?] & ? & ?)]; by eauto 10.
    + destruct (combined_neq f Hcomb) as [Hnu Hnp]. apply Z.eqb_neq in Hnu as ->, Hnp as Enp.
      pose proof Hcomb as (_ & Hb0 & _). apply (land_pow2_zero f 0 ltac:(done)) in Hb0.
      change (2 ^ 0) with TURBO_TOOL_EFFECT_UNKNOWN in Hb0. rewrite Hb0, Enp. cbn [orb negb Z.eqb].
      destruct (combined_union known f) as [Hc' Hbit]; [by destruct pure; [left|right]|done|].
      destruct (IH _ false Hok Hc') as (IHu & _ & IHc). split; [|split].
      * intros [<-|?]%elem_of_cons; [by destruct Hcomb as (_ & ? & _)|by apply IHu].
      * intros _ [-> _]%Forall_cons. done.
      * rewrite not_elem_of_cons. intros [_ Hn] _. destruct (IHc Hn) as [Hs Hbits]; [by intros [? _]|].
        split; [done|]. intros i Hi. rewrite Hbits, Hbit by done. setoid_rewrite elem_of_cons. split.
        -- intros [[?|?]|(g & ? & ? & ?)]; [by left|right; exists f|right; exists g]; eauto.
        -- intros [?|(g & [->|?] & ? & ?)]; [tauto..|]. right. by exists g.
Qed.

Lemma effect_summary_ok (steps : list step) : steps <> [] ->
  Forall effect_ok (st_effect_flags <$> steps) ->
  effects_of (st_effect_flags <$> steps) (dag_effect_summary steps).
Proof.
  intros Hne Hok.
  destruct (effect_scan_spec (st_effect_flags <$> steps) 0 true Hok eq_refl) as (Hu & Hp & Hc).
  replace (dag_effect_summary steps) with (effect_scan (st_effect_flags <$> steps) 0 true)
    by (by destruct steps).
  split; [done|]. split; [by apply Hp|]. intros Hn Hnp. destruct Hc as [Hs Hbits]; [done|tauto|].
  destruct (combined_neq _ Hs). split; [done|]. split; [done|].
  intros i Hi. rewrite Hbits, Z.bits_0 by done. split; [by intros [?|?]|by right].
Qed.

(** ** The approved tools *)

Lemma distinct_names_spec names : forall acc, NoDup acc ->
  NoDup (distinct_names names acc) /\
  forall x, x ∈ distinct_names names acc <-> x ∈ acc \/ x ∈ names.
Proof.
  induction names as [|a names IH]; intros acc Hnd; cbn [distinct_names].
  { split; [done|]. intros x. split; [by left|]. by intros [?|Hn%elem_of_nil]. }
  case_bool_decide as Hin.
  - destruct (IH acc Hnd) as [Hr Hall]. split; [done|]. intros x.
    rewrite Hall, elem_of_cons. split; [tauto|]. intros [?|[->|?]]; tauto.
  - destruct (IH (acc ++ [a])) as [Hr Hall].
    { apply NoDup_app. split; [done|]. split; [|by apply NoDup_singleton].
      by intros i Hi ->%list_elem_of_singleton. }
    split; [done|]. intros x. rewrite Hall, elem_of_app, list_elem_of_singleton, elem_of_cons. tauto.
Qed.

(** A registry of the steps' tools and nothing else, each with its contract. *)
Record sealed_tools (r : registry) (steps : list step) (approved : registry) : Prop := {
  st_approved_wf : registry_wf sizeof_native_projection approved;
  st_every_tool : forall t, t ∈ steps -> exists e e',
    found (Some r) (Some (st_tool_name t)) = Some e /\
    found (Some approved) (Some (st_tool_name t)) = Some e' /\
    same_contract sizeof_native_projection e e';
  st_nothing_else : forall e', e' ∈ entries approved ->
    exists t, t ∈ steps /\ e_name e' = st_tool_name t;
  st_borrowed : forall w, turbo_tool_registry_destroy (Some approved) w = w
}.

Lemma found_exact (r : registry) e : NoDup (e_name <$> entries r) -> e ∈ entries r ->
  found (Some r) (Some (e_name e)) = Some e.
Proof.
  intros Hnd [i Hi]%list_elem_of_lookup. unfold found, turbo_tool_registry_find.
  by rewrite (find_exact_unique _ _ i e Hnd Hi).
Qed.

Lemma build_projection_ok (r : registry) (steps : list step) o approved o' :
  registry_wf sizeof_native_projection r ->
  dag_build_projection sizeof_native_projection r steps o = Some (inr approved, o') ->
  sealed_tools r steps approved.
Proof.
  intros Hr Hc. pose proof (wf_names _ _ Hr) as Hnd. unfold dag_build_projection in Hc.
  apply bind_ok in Hc as (? & o1 & _ & Hc). apply bind_ok in Hc as ([status out] & o2 & Hm & Hc).
  apply memory_ok in Hm. unfold turbo_tool_registry_project in Hm. cbn [negb] in Hm.
  destruct status, out as [[approved'|]|]; try done. apply ret_ok in Hc as [<- <-].
  destruct (turbo_tool_registry_create o1) as [[empty|] o3] eqn:Ec; [|done].
  assert (Hempty : registry_wf sizeof_native_projection empty /\ entries empty = []).
  { unfold turbo_tool_registry_create in Ec. destruct (alloc o1) as [[] ?]; [|done].
    injection Ec as <- _. split; [|done]. split; cbn; [constructor|constructor|done]. }
  destruct Hempty as [Hwf Hnil].
  set (names := distinct_names (st_tool_name <$> steps) []) in *.
  pose proof (project_loop_spec sizeof_native_projection r (Some <$> names) [] empty o3 Hr Hwf) as Hb.
  unfold builds in Hb. destruct (project_loop _ r [] _ _ _) as [[status b] o4].
  injection Hm as -> -> ->. cbn [fst snd] in Hb.
  destruct Hb as (r' & l & new & [= <-] & Hwf' & Hnamed & He & Hsame).
  rewrite Hnil in He. cbn in He. subst new.
  destruct (distinct_names_spec (st_tool_name <$> steps) [] (NoDup_nil_2)) as [_ Hin].
  split; [done|..].
  - intros t Ht. assert (Htn : st_tool_name t ∈ names)
      by (apply Hin; right; by apply list_elem_of_fmap_2).
    apply list_elem_of_lookup in Htn as [i Hi].
    assert (Hi' : (Some <$> names) !! i = Some (Some (st_tool_name t)))
      by (by rewrite list_lookup_fmap, Hi).
    destruct (Forall2_lookup_l _ _ _ _ _ Hnamed Hi') as (e & Hl & [= En] & He).
    destruct (Forall2_lookup_l _ _ _ _ _ Hsame Hl) as (e' & Hl' & Hs).
    exists e, e'. split; [rewrite En; by apply found_exact|]. split; [|done].
    rewrite En, <- (sc_name _ _ _ Hs).
    apply found_exact; [exact (wf_names _ _ Hwf')|by eapply list_elem_of_lookup_2].
  - intros e' [i Hi]%list_elem_of_lookup.
    destruct (Forall2_lookup_r _ _ _ _ _ Hsame Hi) as (e & Hl & Hs).
    destruct (Forall2_lookup_r _ _ _ _ _ Hnamed Hl) as (name & Hn & -> & _).
    rewrite list_lookup_fmap in Hn. destruct (names !! i) as [tool|] eqn:Ex; [|done].
    injection Hn as ->. apply list_elem_of_lookup_2 in Ex. apply Hin in Ex as [Ex%elem_of_nil|Ex]; [done|].
    apply list_elem_of_fmap in Ex as (t & Ht & Hts). exists t. split; [done|].
    by rewrite (sc_name _ _ _ Hs).
  - intros w. by eapply borrowed_destroy.
Qed.

(** ** The whole compilation *)

Record compiled (config : turbo_agent_compiler_config) (r : registry)
    (source : turbo_agent_dag_source (J := J)) (sources : list step_source)
    (p : turbo_agent_executable_dag (J := J) (W := W)) : Prop := {
  cp_admitted : Forall2 (step_admitted config r) sources (dag_steps p);
  cp_resolved : Forall2 (step_resolved sources) sources (dag_steps p);
  cp_ids : NoDup (ss_step_id <$> sources);
  cp_edges : edges (dag_steps p) <= TURBO_AGENT_DAG_MAX_EDGES;
  cp_acyclic : acyclic (st_dependency_indices <$> dag_steps p);
  cp_union : union_of (dag_steps p) (dag_capabilities p);
  cp_approved : exists approved, dag_approved_tools p = Some approved /\
    sealed_tools r (dag_steps p) approved;
  cp_effects : dag_effect_flags p = dag_effect_summary (dag_steps p);
  cp_hash : dag_plan_hash p <> 0;
  cp_identity : dag_replan_budget p = ds_replan_budget source /\
    dag_template_kind p = dag_source_template_kind source /\
    dag_plan_generation p = dag_source_plan_generation source
}.

Lemma compile_steps_ok fuel config (r : registry) source sources o p o' :
  registry_wf sizeof_native_projection r ->
  compile_steps sizeof_native_projection fuel config r source sources o = Some (inr p, o') ->
  compiled config r source sources p.
Proof.
  intros Hr Hc. unfold compile_steps in Hc.
  apply bind_ok in Hc as (? & o1 & Hids & Hc). apply check_ids_ok in Hids; [|constructor].
  apply bind_ok in Hc as (? & o2 & _ & Hc). apply bind_ok in Hc as (? & o3 & _ & Hc).
  apply bind_ok in Hc as (admitted & o4 & Ha & Hc). apply (admit_steps_ok _ r _ Hr) in Ha.
  apply bind_ok in Hc as (steps & o5 & Hd & Hc).
  destruct (resolve_dependencies_ok _ r sources _ _ Ha _ _ _ _ Hd) as (Hadm & Hres & Hedges).
  apply bind_ok in Hc as (? & o6 & Hv & Hc). apply bind_ok in Hc as (caps & o7 & Hu & Hc).
  apply bind_ok in Hc as (approved & o8 & Hp & Hc).
  unfold seal_plan in Hc. destruct (dag_compute_hash _ _ _ _ _ _) as [[hash o9]|]; [|done].
  destruct (Z.eqb_spec hash 0); [done|]. injection Hc as <- _.
  split; cbn [dag_steps dag_capabilities dag_approved_tools dag_effect_flags dag_plan_hash
    dag_replan_budget dag_template_kind dag_plan_generation]; try done.
  - by apply Hedges.
  - eapply validate_acyclic_ok; [|..|exact Hv].
    + intros t d Ht Hdep. rewrite <- (Forall2_length _ _ _ Hres). by eapply in_range_resolved.
    + intros t [i Hi]%list_elem_of_lookup.
      destruct (Forall2_lookup_r _ _ _ _ _ Hres Hi) as (s & _ & [_ Hnd]). exact Hnd.
  - by eapply capability_union_ok.
  - exists approved. split; [done|]. by eapply build_projection_ok.
Qed.

Lemma compile_dag_ok fuel config (r : registry) source out o p o' :
  registry_wf sizeof_native_projection r ->
  turbo_agent_compile_dag sizeof_native_projection fuel config (Some r) source out o =
    Some (inr p, o') ->
  exists config' source' sources, config = Some config' /\ source = Some source' /\
    ds_steps source' = Some sources /\ dag_config_valid config = true /\
    (1 <= length sources)%nat /\ Z.of_nat (length sources) <= TURBO_AGENT_DAG_MAX_STEPS /\
    compiled config' r source' sources p.
Proof.
  intros Hr Hc. unfold turbo_agent_compile_dag in Hc.
  apply bind_ok in Hc as (? & o1 & [Hv <-]%guard_ok & Hc).
  destruct config as [config|]; [|done]. destruct source as [source|]; [|done].
  unfold compile_arguments_valid in Hv. destruct (ds_steps source) as [sources|] eqn:Es;
    [|by rewrite andb_false_r in Hv; rewrite andb_false_r in Hv].
  bool_to_prop. exists config, source, sources. split; [done|]. split; [done|]. split; [done|].
  split; [done|]. split; [destruct sources; [done|cbn; lia]|]. split; [done|].
  by eapply compile_steps_ok.
Qed.


(** What a returned plan may touch is sealed: its registry is well formed and holds
    exactly the tools of its steps, each with the contract it has in the source
    registry, and owns none of their user data; its capabilities are the sorted
    union of the steps' and all allowed; its effects are UNKNOWN as soon as one
    step's are, PURE only if all are, and otherwise the exact union. *)
Theorem compiled_plan_sealed (fuel : nat) (config : turbo_agent_compiler_config) (r : registry)
    (source : turbo_agent_dag_source) (p : turbo_agent_executable_dag) (o o' : oracle) :
  registry_wf sizeof_native_projection r ->
  turbo_agent_compile_dag sizeof_native_projection fuel (Some config) (Some r) (Some source) true o =
    Some (inr p, o') ->
  (exists approved, turbo_agent_executable_dag_approved_tools (Some p) = Some approved /\
     sealed_tools r (dag_steps p) approved) /\
  union_of (dag_steps p) (dag_capabilities p) /\
  (forall c, c ∈ dag_capabilities p -> capability_admitted config c) /\
  effects_of (st_effect_flags <$> dag_steps p) (turbo_agent_executable_dag_effects (Some p)).
Proof.
  intros Hr Hc. destruct (compile_dag_ok _ _ _ _ _ _ _ _ Hr Hc)
    as (config' & source' & sources & [= <-] & [= <-] & _ & _ & Hlo & _ & Hcp).
  destruct Hcp as [Hadm _ _ _ _ Hu Hap He _ _].
  assert (Hstep : forall t, t ∈ dag_steps p -> exists s, step_admitted config r s t).
  { intros t [i Hi]%list_elem_of_lookup.
    destruct (Forall2_lookup_r _ _ _ _ _ Hadm Hi) as (s & _ & Hst). by exists s. }
  split; [done|]. split; [done|]. split.
  - intros c (t & Ht & Hct)%(proj2 (proj2 Hu)). destruct (Hstep t Ht) as [s Hst].
    by apply (sa_allowed _ _ _ _ Hst).
  - unfold turbo_agent_executable_dag_effects. cbn. rewrite He. apply effect_summary_ok.
    + intros E. rewrite E in Hadm. inversion Hadm; subst. cbn in Hlo. lia.
    + apply Forall_fmap, Forall_forall. intros t Ht. destruct (Hstep t Ht) as [s Hst].
      destruct (sa_tool _ _ _ _ Hst) as (e & Hf & _ & _ & Hfl & _). cbn. unfold effect_ok.
      rewrite Hfl. apply found_member in Hf. pose proof (wf_entries _ _ Hr) as Hent.
      rewrite Forall_forall in Hent. exact (wf_effects _ _ (Hent e Hf)).
Qed.

End plan.

(** ** Concrete plans *)

Module DagRuns.
Import JsonTree CmetaToy.

Abbreviation toy_registry := (turbo_tool_registry (J := jtree) (W := unit)).

#[local] Open Scope string_scope.

(** A tool of these effects that takes an object and needs [caps]. *)
Definition tool (name : string) (effects : Z) (caps : list string)
  : turbo_tool_definition_v6 jtree unit :=
  mk_definition_v6 sizeof_definition_v6 6
    (mk_definition (Some name) (Some "a tool") None
       (Some (JObj [("type", JStr "object")])) 0
       (Some (fun arguments w => (0, Some arguments, w))) None None)
    (mk_policy TURBO_TOOL_EXECUTION_PARALLEL_SAFE TURBO_TOOL_IDEMPOTENCY_READ_ONLY)
    (Some (Some <$> caps)) None None None 0 effects.

Definition add (d : turbo_tool_definition_v6 jtree unit) (r : toy_registry) : toy_registry :=
  default r (turbo_tool_registry_add_v6 (Some r) (Some d) []).1.2.

Definition no_tools : toy_registry := mk_registry [] 0.
Definition load_only : toy_registry := add (tool "load" 4 ["files"; "data"]) no_tools.
Definition tools : toy_registry := add (tool "plot" TURBO_TOOL_EFFECT_PURE []) load_only.

Definition config : turbo_agent_compiler_config :=
  mk_config sizeof_compiler_config TURBO_AGENT_COMPILER_CONFIG_ABI_VERSION
    (Some [Some "files"; Some "data"; Some "custom_tools"]) 1 1000 1000 100 8.

Definition source_step (id tool : string) (deps : list string)
  : turbo_agent_dag_step_source (J := jtree) :=
  mk_step_source sizeof_dag_step_source TURBO_AGENT_DAG_STEP_ABI_VERSION (Some id) (Some tool)
    (Some (JObj [("n", JStr id)])) (Some (Some <$> deps)) 1 0.

Definition sources : list turbo_agent_dag_step_source :=
  [source_step "b" "plot" ["a"]; source_step "a" "load" []; source_step "c" "plot" ["a"; "b"]].

Definition source_of (l : list (turbo_agent_dag_step_source (J := jtree))) : turbo_agent_dag_source :=
  mk_dag_source sizeof_dag_source TURBO_AGENT_DAG_SOURCE_ABI_VERSION (Some l) 1 0 7.

Definition run (l : list turbo_agent_dag_step_source) :=
  turbo_agent_compile_dag 40 8 (Some config) (Some tools) (Some (source_of l)) true [].

Definition plan : turbo_agent_executable_dag (J := jtree) (W := unit) :=
  match run sources with
  | Some (inr p, _) => p
  | _ => mk_dag [] 0 0 0 None [] 0 0
  end.

Example plan_facts :
  st_dependency_indices <$> dag_steps plan = [[1%nat]; []; [1%nat; 0%nat]] /\
  dag_capabilities plan = ["custom_tools"; "data"; "files"] /\
  dag_effect_flags plan = 4 /\
  e_name <$> default [] (entries <$> dag_approved_tools plan) = ["plot"; "load"].
Proof. vm_compute. split_and!; reflexivity. Qed.

Definition message (l : list turbo_agent_dag_step_source) : option string :=
  match run l with Some (inl (_, m), _) => Some m | _ => None end.

Example refusals :
  message (source_step "a" "load" ["c"] :: sources) = Some "DAG contains duplicate step IDs" /\
  message [source_step "a" "load" ["b"]; source_step "b" "plot" ["a"]] =
    Some "DAG contains a dependency cycle" /\
  message [source_step "a" "load" ["z"]] =
    Some "DAG dependency does not reference a known step" /\
  message [source_step "a" "draw" []] = Some "DAG tool cannot be resolved during compilation".
Proof. vm_compute. split_and!; reflexivity. Qed.

Definition with_metadata (id : string) : turbo_agent_executable_dag_step (J := jtree) :=
  mk_step id "load" (JObj []) [] 0 0 (mk_policy 0 0) 1 [] (Some (JObj [("k", JNull)])).

(** When the hash of the first step's metadata runs out of memory the plans of two
    different steps get the same identity, which is not zero. *)
Example metadata_failure_forgets :
  let hash id := fst <$> dag_compute_hash 8 [with_metadata id; with_metadata "last"] 0 0 0 [false] in
  hash "one" = hash "two" /\ hash "one" <> Some 0 /\ hash "one" <> None.
Proof. vm_compute. split_and!; [reflexivity|discriminate..]. Qed.

Lemma load_step :
  registry_exec 40 (OpAdd6 (Some (tool "load" 4 ["files"; "data"]))) (Some no_tools) [] tt =
    (TURBO_TOOL_OK, Some load_only, tt).
Proof. vm_compute. reflexivity. Qed.

Lemma plot_step :
  registry_exec 40 (OpAdd6 (Some (tool "plot" TURBO_TOOL_EFFECT_PURE []))) (Some load_only) [] tt =
    (TURBO_TOOL_OK, Some tools, tt).
Proof. vm_compute. reflexivity. Qed.

Lemma tools_wf : registry_wf 40 tools.
Proof.
  apply built_registry_wf.
  exact (built_step 40 _ _ _ _ _ _ _ (built_step 40 _ _ _ _ _ _ _ (built_created 40) load_step) plot_step).
Qed.

Lemma plan_compiled : run sources = Some (inr plan, []).
Proof. vm_compute. reflexivity. Qed.


Lemma compiled_plan_sealed_witness :
  exists approved, dag_approved_tools plan = Some approved /\
    sealed_tools 40 tools (dag_steps plan) approved /\
    union_of (dag_steps plan) (dag_capabilities plan).
Proof.
  destruct (compiled_plan_sealed 40 8 config tools (source_of sources) plan [] []
    tools_wf plan_compiled) as ((approved & Ha & Hs) & Hu & _).
  exists approved. exact (conj Ha (conj Hs Hu)).
Defined.

(** The same steps before and after a cycle is closed. *)
Definition with_deps (deps : list nat) : turbo_agent_executable_dag_step (J := jtree) :=
  mk_step "s" "load" (JObj []) deps 0 0 (mk_policy 0 0) 1 [] None.

Definition line : list (turbo_agent_executable_dag_step (J := jtree)) :=
  with_deps <$> [[]; [0%nat]; [0%nat; 1%nat]].

Lemma line_range : Forall (fun t => Forall (fun d => (d < 3)%nat) (st_dependency_indices t)) line.
Proof. by apply (bool_decide_unpack _); vm_compute. Qed.

Lemma line_once : Forall (fun t => NoDup (st_dependency_indices t)) line.
Proof. by apply (bool_decide_unpack _); vm_compute. Qed.

Lemma line_verdict : dag_validate_acyclic line [] = Some (inr tt, []).
Proof. vm_compute. reflexivity. Qed.

Lemma cycle_detection_exact_witness :
  plenty [] /\ acyclic (st_dependency_indices <$> line).
Proof.
  split; [exact plenty_nil|].
  destruct (cycle_detection_exact line []) as (verdict & o' & _ & E & Hyes & _).
  - intros t d Ht Hd.
    exact (proj1 (Forall_forall _ _) (proj1 (Forall_forall _ _) line_range t Ht) d Hd).
  - intros t Ht. exact (proj1 (Forall_forall _ _) line_once t Ht).
  - exact plenty_nil.
  - apply Hyes. rewrite line_verdict in E. injection E as <- _. reflexivity.
Defined.

End DagRuns.
