(* ===== verification/CflowRegion.v ===== *)
(** * CFlow regions (turbo_agent_cflow_region.c)

    A linear chain of pure native steps of a compiled plan, admitted step by
    step and edge by edge, then bound to a CFlow plan.  CFlow is not under src/:
    it is the class [Cflow], with no law.  Descriptors and types are not NULL
    once a projection was published. *)

From S2P Require Import Prelude RuntimeJson JsonBuild Tool ToolRegistry ToolSchema ToolContracts.
From S2P Require Import DagCompiler.

(* src/agent_compiler/include/turbo_agent_cflow_region.h 23-35 turbo_agent_cflow_region_status_t *)
Inductive turbo_agent_cflow_region_status : Type :=
| TURBO_AGENT_CFLOW_REGION_OK
| TURBO_AGENT_CFLOW_REGION_INVALID_ARGUMENT
| TURBO_AGENT_CFLOW_REGION_NOT_APPROVED
| TURBO_AGENT_CFLOW_REGION_POLICY_BARRIER
| TURBO_AGENT_CFLOW_REGION_LOGICAL_CONTRACT_BARRIER
| TURBO_AGENT_CFLOW_REGION_NATIVE_PROJECTION_BARRIER
| TURBO_AGENT_CFLOW_REGION_OWNERSHIP_BARRIER
| TURBO_AGENT_CFLOW_REGION_TYPE_BARRIER
| TURBO_AGENT_CFLOW_REGION_CFLOW_REJECTED
| TURBO_AGENT_CFLOW_REGION_OUT_OF_MEMORY
| TURBO_AGENT_CFLOW_REGION_EXECUTION_FAILED.

#[global] Instance region_status_eq_dec : EqDecision turbo_agent_cflow_region_status.
Proof. solve_decision. Defined.

(** The queries of types and the operations of CFlow the region compiler makes:
    what may run out of memory takes the oracle. *)
Class Cflow `{Cmeta} := {
  cmeta_type_desc_valid : cmeta_type -> bool;
  type_size : cmeta_type -> Z;
  type_kind : cmeta_type -> Z;
  CMETA_T_BOOL : Z;
  CMETA_T_INTEGER : Z;
  CMETA_T_FLOAT : Z;
  CMETA_RESULT_VALUE : Z;
  CMETA_PARAM_IN : Z;
  cflow_function_projection : Type;
  (** [cflow_function_projection_admit] for the operator MAP *)
  cflow_function_projection_admit :
    cmeta_function_desc -> cmeta_function_abi_desc -> cmeta_callable ->
    option cflow_function_projection;
  input_type : cflow_function_projection -> cmeta_type;
  output_type : cflow_function_projection -> cmeta_type;
  cflow_graph : Type;
  cflow_graph_init : cmeta_type -> oracle -> cflow_graph * oracle;
  graph_error : cflow_graph -> bool;
  cflow_graph_add_function_projection :
    cflow_graph -> cflow_function_projection -> oracle -> option cflow_graph * oracle;
  cflow_plan : Type;
  cflow_plan_compile_surface : cflow_graph -> oracle -> option cflow_plan * oracle;
  cflow_value : Type;
  cflow_plan_eval_array : cflow_plan -> list cflow_value -> oracle ->
    option (list cflow_value) * oracle
}.

(* src/agent_compiler/include/turbo_agent_cflow_region.h 16-21 TURBO_AGENT_CFLOW_REGION_OPERATOR_MAP *)
Definition TURBO_AGENT_CFLOW_REGION_OPERATOR_MAP : Z := 1.
Definition TURBO_AGENT_CFLOW_REGION_STEP_ABI_VERSION : Z := 1.
Definition TURBO_AGENT_CFLOW_REGION_SOURCE_ABI_VERSION : Z := 1.

(** Sizes on a 64-bit platform. *)
Definition sizeof_region_step : Z := 32.
Definition sizeof_region_source : Z := 24.

(* src/agent_compiler/include/turbo_agent_cflow_region.h 47-53 turbo_agent_cflow_region_step_t *)
Record turbo_agent_cflow_region_step := mk_region_step {
  rs_struct_size : Z;
  rs_abi_version : Z;
  dag_step_index : Z;
  operator_kind : Z;
  consumer_property : option string
}.

(** [rs_steps]: [None] is NULL. *)
(* src/agent_compiler/include/turbo_agent_cflow_region.h 55-60 turbo_agent_cflow_region_source_t *)
Record turbo_agent_cflow_region_source := mk_region_source {
  rsrc_struct_size : Z;
  rsrc_abi_version : Z;
  rsrc_steps : option (list turbo_agent_cflow_region_step)
}.

(** Initialized steps and sources: the fields the callers then set are arguments. *)
(* src/agent_compiler/src/turbo_agent_cflow_region.c 191-198 turbo_agent_cflow_region_step_init *)
Definition turbo_agent_cflow_region_step_init : turbo_agent_cflow_region_step :=
  mk_region_step sizeof_region_step TURBO_AGENT_CFLOW_REGION_STEP_ABI_VERSION 0
    TURBO_AGENT_CFLOW_REGION_OPERATOR_MAP None.

(* src/agent_compiler/src/turbo_agent_cflow_region.c 200-206 turbo_agent_cflow_region_source_init *)
Definition turbo_agent_cflow_region_source_init : turbo_agent_cflow_region_source :=
  mk_region_source sizeof_region_source TURBO_AGENT_CFLOW_REGION_SOURCE_ABI_VERSION None.

(* src/agent_compiler/src/turbo_agent_cflow_region.c 35-45 region_source_valid *)
Definition region_step_valid (i : nat) (step : turbo_agent_cflow_region_step) : bool :=
  (sizeof_region_step <=? rs_struct_size step)
  && (rs_abi_version step =? TURBO_AGENT_CFLOW_REGION_STEP_ABI_VERSION)
  && (operator_kind step =? TURBO_AGENT_CFLOW_REGION_OPERATOR_MAP)
  && (if (i =? 0)%nat then negb (nonempty_text (consumer_property step))
      else nonempty_text (consumer_property step)).

(* src/agent_compiler/src/turbo_agent_cflow_region.c 26-48 region_source_valid *)
Definition region_source_valid (source : option turbo_agent_cflow_region_source) : bool :=
  match source with
  | Some s =>
      (sizeof_region_source <=? rsrc_struct_size s)
      && (rsrc_abi_version s =? TURBO_AGENT_CFLOW_REGION_SOURCE_ABI_VERSION)
      && match rsrc_steps s with
         | Some steps => (2 <=? length steps)%nat && forallb id (imap region_step_valid steps)
         | None => false
         end
  | None => false
  end.

Section region.
Context {J W : Type} `{JsonSetters J, !JsonMembers J, Cflow}.
Abbreviation registry := (turbo_tool_registry (J := J) (W := W)).
Abbreviation dag := (turbo_agent_executable_dag (J := J) (W := W)).

(* src/agent_compiler/src/turbo_agent_cflow_region.c 12-17 turbo_agent_cflow_region_plan_s *)
Record turbo_agent_cflow_region_plan := mk_region_plan {
  rp_plan : cflow_plan;
  rp_input_type : cmeta_type;
  rp_output_type : cmeta_type;
  rp_step_count : Z
}.

(* src/agent_compiler/src/turbo_agent_cflow_region.c 50-55 region_scalar_type_supported *)
Definition region_scalar_type_supported (type : cmeta_type) : bool :=
  cmeta_type_desc_valid type && negb (type_size type =? 0)
  && ((type_kind type =? CMETA_T_BOOL) || (type_kind type =? CMETA_T_INTEGER)
      || (type_kind type =? CMETA_T_FLOAT)).

(** The function of a native projection: one value of a scalar type to another. *)
(* src/agent_compiler/src/turbo_agent_cflow_region.c 87-107 region_admit_native_map *)
Definition admit_native (native : turbo_tool_native_projection)
  : turbo_agent_cflow_region_status + cflow_function_projection :=
  let function := np_function native in
  if negb (fd_param_count function =? 1) || negb (fd_result_flags function =? CMETA_RESULT_VALUE)
     || negb (cmeta_effects_are_pure (fd_effects function))
  then inl TURBO_AGENT_CFLOW_REGION_OWNERSHIP_BARRIER
  else
    match cmeta_function_param function 0 with
    | Some (type, flags) =>
        if negb (flags =? CMETA_PARAM_IN) || negb (region_scalar_type_supported type)
           || negb (region_scalar_type_supported (fd_return_type function))
        then inl TURBO_AGENT_CFLOW_REGION_TYPE_BARRIER
        else
          match cflow_function_projection_admit function (np_abi native) (np_callable native) with
          | Some projection => inr projection
          | None => inl TURBO_AGENT_CFLOW_REGION_CFLOW_REJECTED
          end
    | None => inl TURBO_AGENT_CFLOW_REGION_TYPE_BARRIER
    end.

(* src/agent_compiler/src/turbo_agent_cflow_region.c 57-108 region_admit_native_map *)
Definition region_admit_native_map (r : registry) (tool_name : string)
  : turbo_agent_cflow_region_status + cflow_function_projection :=
  match turbo_tool_registry_get_execution_policy (Some r) (Some tool_name),
        turbo_tool_registry_get_effects (Some r) (Some tool_name) with
  | (TURBO_TOOL_OK, Some policy), (TURBO_TOOL_OK, effects) =>
      if negb (effects =? TURBO_TOOL_EFFECT_PURE)
         || negb (ep_idempotency policy =? TURBO_TOOL_IDEMPOTENCY_READ_ONLY)
         || negb (ep_mode policy =? TURBO_TOOL_EXECUTION_PARALLEL_SAFE)
      then inl TURBO_AGENT_CFLOW_REGION_POLICY_BARRIER
      else
        match turbo_tool_registry_get_native_projection (Some r) (Some tool_name) with
        | (TURBO_TOOL_OK, Some native) => admit_native native
        | _ => inl TURBO_AGENT_CFLOW_REGION_NATIVE_PROJECTION_BARRIER
        end
  | _, _ => inl TURBO_AGENT_CFLOW_REGION_NOT_APPROVED
  end.

(** The edge from the step before: its result fits the property, its output type
    is this input type. *)
(* src/agent_compiler/src/turbo_agent_cflow_region.c 168-181 region_prepare *)
Definition region_admit_edge (r : registry) (previous : option (string * cflow_function_projection))
    (tool_name : string) (property : option string) (projection : cflow_function_projection)
    (o : oracle) : option turbo_agent_cflow_region_status * oracle :=
  match previous with
  | None => (None, o)
  | Some (producer, before) =>
      let (c, o) := turbo_agent_tool_result_slot_compatibility (Some r) (Some producer)
                      (Some tool_name) property o in
      match c with
      | TURBO_AGENT_CONTRACT_COMPATIBLE =>
          (if cmeta_type_equal (output_type before) (input_type projection) then None
           else Some TURBO_AGENT_CFLOW_REGION_TYPE_BARRIER, o)
      | _ => (Some TURBO_AGENT_CFLOW_REGION_LOGICAL_CONTRACT_BARRIER, o)
      end
  end.

(** The loop; [prior] are the plan's indices of the steps before, [previous] the
    tool and projection of the one before. *)
(* src/agent_compiler/src/turbo_agent_cflow_region.c 146-182 region_prepare *)
Fixpoint region_prepare_steps (d : dag) (r : registry) (prior : list Z)
    (previous : option (string * cflow_function_projection))
    (steps : list turbo_agent_cflow_region_step) (o : oracle)
  : (turbo_agent_cflow_region_status + list cflow_function_projection) * oracle :=
  match steps with
  | [] => (inr [], o)
  | step :: steps =>
      match turbo_agent_executable_dag_step_tool_name (Some d) (dag_step_index step) with
      | None | Some EmptyString => (inl TURBO_AGENT_CFLOW_REGION_NOT_APPROVED, o)
      | Some tool_name =>
          if bool_decide (dag_step_index step ∈ prior)
          then (inl TURBO_AGENT_CFLOW_REGION_INVALID_ARGUMENT, o)
          else
            match region_admit_native_map r tool_name with
            | inl status => (inl status, o)
            | inr projection =>
                match region_admit_edge r previous tool_name (consumer_property step) projection o with
                | (Some status, o) => (inl status, o)
                | (None, o) =>
                    match region_prepare_steps d r (prior ++ [dag_step_index step])
                            (Some (tool_name, projection)) steps o with
                    | (inr projections, o) => (inr (projection :: projections), o)
                    | failure => failure
                    end
                end
            end
      end
  end.

(* src/agent_compiler/src/turbo_agent_cflow_region.c 118-189 region_prepare *)
Definition region_prepare (d : option dag) (source : option turbo_agent_cflow_region_source)
    (o : oracle) : (turbo_agent_cflow_region_status + list cflow_function_projection) * oracle :=
  match d, source ≫= rsrc_steps with
  | Some d, Some steps =>
      if negb (region_source_valid source) then (inl TURBO_AGENT_CFLOW_REGION_INVALID_ARGUMENT, o)
      else
        match turbo_agent_executable_dag_approved_tools (Some d) with
        | None => (inl TURBO_AGENT_CFLOW_REGION_NOT_APPROVED, o)
        | Some r =>
            let (projections_allocated, o) := alloc o in
            let (names_allocated, o) := alloc o in
            if projections_allocated && names_allocated
            then region_prepare_steps d r [] None steps o
            else (inl TURBO_AGENT_CFLOW_REGION_OUT_OF_MEMORY, o)
        end
  | _, _ => (inl TURBO_AGENT_CFLOW_REGION_INVALID_ARGUMENT, o)
  end.

(* src/agent_compiler/src/turbo_agent_cflow_region.c 208-216 turbo_agent_cflow_region_admit *)
Definition turbo_agent_cflow_region_admit (d : option dag)
    (source : option turbo_agent_cflow_region_source) (o : oracle)
  : turbo_agent_cflow_region_status * oracle :=
  match region_prepare d source o with
  | (inl status, o) => (status, o)
  | (inr _, o) => (TURBO_AGENT_CFLOW_REGION_OK, o)
  end.

(* src/agent_compiler/src/turbo_agent_cflow_region.c 242-248 turbo_agent_compile_cflow_region *)
Fixpoint add_projections (graph : cflow_graph) (l : list cflow_function_projection) (o : oracle)
  : option cflow_graph * oracle :=
  match l with
  | [] => (Some graph, o)
  | p :: l =>
      match cflow_graph_add_function_projection graph p o with
      | (Some graph, o) => add_projections graph l o
      | (None, o) => (None, o)
      end
  end.

(** The graph and the plan of projections that were prepared: [first] is the one
    at index 0. *)
(* src/agent_compiler/src/turbo_agent_cflow_region.c 235-266 turbo_agent_compile_cflow_region *)
Definition bind_region (first : cflow_function_projection) (rest : list cflow_function_projection)
    (o : oracle) : (turbo_agent_cflow_region_status + turbo_agent_cflow_region_plan) * oracle :=
  let (graph, o) := cflow_graph_init (input_type first) o in
  if graph_error graph then (inl TURBO_AGENT_CFLOW_REGION_CFLOW_REJECTED, o)
  else
    match add_projections graph (first :: rest) o with
    | (None, o) => (inl TURBO_AGENT_CFLOW_REGION_CFLOW_REJECTED, o)
    | (Some graph, o) =>
        let (allocated, o) := alloc o in
        if negb allocated then (inl TURBO_AGENT_CFLOW_REGION_OUT_OF_MEMORY, o)
        else
          match cflow_plan_compile_surface graph o with
          | (None, o) => (inl TURBO_AGENT_CFLOW_REGION_CFLOW_REJECTED, o)
          | (Some plan, o) =>
              (inr (mk_region_plan plan (input_type first)
                      (output_type (List.last (first :: rest) first))
                      (Z.of_nat (length (first :: rest)))), o)
          end
    end.

(** A prepared region is never empty: the source has two steps or more. *)
(* src/agent_compiler/src/turbo_agent_cflow_region.c 218-276 turbo_agent_compile_cflow_region *)
Definition turbo_agent_compile_cflow_region (d : option dag)
    (source : option turbo_agent_cflow_region_source) (out_plan : bool) (o : oracle)
  : (turbo_agent_cflow_region_status + turbo_agent_cflow_region_plan) * oracle :=
  if negb out_plan then (inl TURBO_AGENT_CFLOW_REGION_INVALID_ARGUMENT, o)
  else
    match region_prepare d source o with
    | (inl status, o) => (inl status, o)
    | (inr [], o) => (inl TURBO_AGENT_CFLOW_REGION_INVALID_ARGUMENT, o)
    | (inr (first :: rest), o) => bind_region first rest o
    end.

(** ** Reading and running a region *)

(* src/agent_compiler/src/turbo_agent_cflow_region.c 285-288 turbo_agent_cflow_region_input_type *)
Definition turbo_agent_cflow_region_input_type (plan : option turbo_agent_cflow_region_plan)
  : option cmeta_type := rp_input_type <$> plan.

(* src/agent_compiler/src/turbo_agent_cflow_region.c 290-293 turbo_agent_cflow_region_output_type *)
Definition turbo_agent_cflow_region_output_type (plan : option turbo_agent_cflow_region_plan)
  : option cmeta_type := rp_output_type <$> plan.

(* src/agent_compiler/src/turbo_agent_cflow_region.c 295-298 turbo_agent_cflow_region_step_count *)
Definition turbo_agent_cflow_region_step_count (plan : option turbo_agent_cflow_region_plan) : Z :=
  default 0 (rp_step_count <$> plan).

(** [inputs]: [None] is NULL with a count that is not zero. *)
(* src/agent_compiler/src/turbo_agent_cflow_region.c 300-313 turbo_agent_cflow_region_eval_array *)
Definition turbo_agent_cflow_region_eval_array (plan : option turbo_agent_cflow_region_plan)
    (inputs : option (list cflow_value)) (out_result : bool) (o : oracle)
  : (turbo_agent_cflow_region_status + list cflow_value) * oracle :=
  match plan, inputs with
  | Some plan, Some inputs =>
      if negb out_result then (inl TURBO_AGENT_CFLOW_REGION_INVALID_ARGUMENT, o)
      else
        match cflow_plan_eval_array (rp_plan plan) inputs o with
        | (Some result, o) => (inr result, o)
        | (None, o) => (inl TURBO_AGENT_CFLOW_REGION_EXECUTION_FAILED, o)
        end
  | _, _ => (inl TURBO_AGENT_CFLOW_REGION_INVALID_ARGUMENT, o)
  end.

End region.

(* src/agent_compiler/src/turbo_agent_cflow_region.c 315-334 turbo_agent_cflow_region_status_string *)
Definition turbo_agent_cflow_region_status_string (status : turbo_agent_cflow_region_status)
  : string :=
  match status with
  | TURBO_AGENT_CFLOW_REGION_OK => "ok"
  | TURBO_AGENT_CFLOW_REGION_INVALID_ARGUMENT => "invalid_argument"
  | TURBO_AGENT_CFLOW_REGION_NOT_APPROVED => "not_approved"
  | TURBO_AGENT_CFLOW_REGION_POLICY_BARRIER => "policy_barrier"
  | TURBO_AGENT_CFLOW_REGION_LOGICAL_CONTRACT_BARRIER => "logical_contract_barrier"
  | TURBO_AGENT_CFLOW_REGION_NATIVE_PROJECTION_BARRIER => "native_projection_barrier"
  | TURBO_AGENT_CFLOW_REGION_OWNERSHIP_BARRIER => "ownership_barrier"
  | TURBO_AGENT_CFLOW_REGION_TYPE_BARRIER => "type_barrier"
  | TURBO_AGENT_CFLOW_REGION_CFLOW_REJECTED => "cflow_rejected"
  | TURBO_AGENT_CFLOW_REGION_OUT_OF_MEMORY => "out_of_memory"
  | TURBO_AGENT_CFLOW_REGION_EXECUTION_FAILED => "execution_failed"
  end.
