(* ===== verification/CflowOptimizer.v ===== *)
(** * CFlow region discovery (turbo_agent_cflow_optimizer.c)

    A linear chain of value edges between steps of a plan is cut into the maximal
    runs of edges that are admitted alone, and each run is compiled into a
    region. *)

From S2P Require Import Prelude RuntimeJson JsonBuild Tool ToolRegistry ToolSchema ToolContracts.
From S2P Require Import DagCompiler CflowRegion.

(* src/agent_compiler/include/turbo_agent_cflow_optimizer.h 19-24 turbo_agent_cflow_optimizer_status_t *)
Inductive turbo_agent_cflow_optimizer_status : Type :=
| TURBO_AGENT_CFLOW_OPTIMIZER_OK
| TURBO_AGENT_CFLOW_OPTIMIZER_INVALID_ARGUMENT
| TURBO_AGENT_CFLOW_OPTIMIZER_OUT_OF_MEMORY
| TURBO_AGENT_CFLOW_OPTIMIZER_REGION_COMPILE_FAILED.

#[global] Instance optimizer_status_eq_dec : EqDecision turbo_agent_cflow_optimizer_status.
Proof. solve_decision. Defined.

(* src/agent_compiler/include/turbo_agent_cflow_optimizer.h 15-17 TURBO_AGENT_CFLOW_VALUE_EDGE_ABI_VERSION *)
Definition TURBO_AGENT_CFLOW_VALUE_EDGE_ABI_VERSION : Z := 1.
Definition TURBO_AGENT_CFLOW_COMPOSITION_ABI_VERSION : Z := 1.
Definition TURBO_AGENT_CFLOW_OPTIMIZER_OPTIONS_ABI_VERSION : Z := 1.

(** Sizes on a 64-bit platform. *)
Definition sizeof_value_edge : Z := 40.
Definition sizeof_composition_source : Z := 24.
Definition sizeof_optimizer_options : Z := 12.
Definition sizeof_optimizer_region : Z := 24.

(* src/agent_compiler/include/turbo_agent_cflow_optimizer.h 33-40 turbo_agent_cflow_value_edge_t *)
Record turbo_agent_cflow_value_edge := mk_value_edge {
  ve_struct_size : Z;
  ve_abi_version : Z;
  producer_step_index : Z;
  consumer_step_index : Z;
  ve_operator_kind : Z;
  ve_consumer_property : option string
}.

(** [cs_edges]: [None] is NULL with a count that is not zero. *)
(* src/agent_compiler/include/turbo_agent_cflow_optimizer.h 51-56 turbo_agent_cflow_composition_source_t *)
Record turbo_agent_cflow_composition_source := mk_composition_source {
  cs_struct_size : Z;
  cs_abi_version : Z;
  cs_edges : option (list turbo_agent_cflow_value_edge)
}.

(* src/agent_compiler/include/turbo_agent_cflow_optimizer.h 58-62 turbo_agent_cflow_optimizer_options_t *)
Record turbo_agent_cflow_optimizer_options := mk_optimizer_options {
  oo_struct_size : Z;
  oo_abi_version : Z;
  oo_enabled : Z
}.

(* src/agent_compiler/src/turbo_agent_cflow_optimizer.c 218-225 turbo_agent_cflow_value_edge_init *)
Definition turbo_agent_cflow_value_edge_init : turbo_agent_cflow_value_edge :=
  mk_value_edge sizeof_value_edge TURBO_AGENT_CFLOW_VALUE_EDGE_ABI_VERSION 0 0
    TURBO_AGENT_CFLOW_REGION_OPERATOR_MAP None.

(* src/agent_compiler/src/turbo_agent_cflow_optimizer.c 227-233 turbo_agent_cflow_composition_source_init *)
Definition turbo_agent_cflow_composition_source_init : turbo_agent_cflow_composition_source :=
  mk_composition_source sizeof_composition_source TURBO_AGENT_CFLOW_COMPOSITION_ABI_VERSION (Some []).

(* src/agent_compiler/src/turbo_agent_cflow_optimizer.c 235-242 turbo_agent_cflow_optimizer_options_init *)
Definition turbo_agent_cflow_optimizer_options_init : turbo_agent_cflow_optimizer_options :=
  mk_optimizer_options sizeof_optimizer_options TURBO_AGENT_CFLOW_OPTIMIZER_OPTIONS_ABI_VERSION 1.

(* src/agent_compiler/src/turbo_agent_cflow_optimizer.c 22-28 optimizer_options_valid *)
Definition optimizer_options_valid (options : option turbo_agent_cflow_optimizer_options) : bool :=
  match options with
  | Some o =>
      (sizeof_optimizer_options <=? oo_struct_size o)
      && (oo_abi_version o =? TURBO_AGENT_CFLOW_OPTIMIZER_OPTIONS_ABI_VERSION)
      && ((oo_enabled o =? 0) || (oo_enabled o =? 1))
  | None => false
  end.

(** [prior]: the edges before, in order. *)
(* src/agent_compiler/src/turbo_agent_cflow_optimizer.c 45-77 optimizer_source_valid *)
Fixpoint edges_valid (dag_steps : Z) (prior edges : list turbo_agent_cflow_value_edge) : bool :=
  match edges with
  | [] => true
  | edge :: edges =>
      (sizeof_value_edge <=? ve_struct_size edge)
      && (ve_abi_version edge =? TURBO_AGENT_CFLOW_VALUE_EDGE_ABI_VERSION)
      && (ve_operator_kind edge =? TURBO_AGENT_CFLOW_REGION_OPERATOR_MAP)
      && nonempty_text (ve_consumer_property edge)
      && (producer_step_index edge <? dag_steps) && (consumer_step_index edge <? dag_steps)
      && negb (producer_step_index edge =? consumer_step_index edge)
      && match last prior with
         | Some before => consumer_step_index before =? producer_step_index edge
         | None => true
         end
      && forallb (fun p => negb ((producer_step_index p =? consumer_step_index edge)
                                 || (consumer_step_index p =? consumer_step_index edge))) prior
      && edges_valid dag_steps (prior ++ [edge]) edges
  end.

Section optimizer.
Context {J W : Type} `{JsonSetters J, !JsonMembers J, Cflow}.
Abbreviation dag := (turbo_agent_executable_dag (J := J) (W := W)).
Abbreviation status := turbo_agent_cflow_optimizer_status.

(* src/agent_compiler/src/turbo_agent_cflow_optimizer.c 30-79 optimizer_source_valid *)
Definition optimizer_source_valid (d : option dag)
    (source : option turbo_agent_cflow_composition_source) : bool :=
  match d, source with
  | Some _, Some s =>
      (sizeof_composition_source <=? cs_struct_size s)
      && (cs_abi_version s =? TURBO_AGENT_CFLOW_COMPOSITION_ABI_VERSION)
      && match cs_edges s with
         | Some edges =>
             let dag_steps := turbo_agent_executable_dag_step_count d in
             (Z.of_nat (length edges) <=? (if dag_steps =? 0 then 0 else dag_steps - 1))
             && edges_valid dag_steps [] edges
         | None => false
         end
  | _, _ => false
  end.

(* src/agent_compiler/src/turbo_agent_cflow_optimizer.c 6-10 turbo_agent_cflow_optimizer_region_t *)
Record turbo_agent_cflow_optimizer_region := mk_optimizer_region {
  or_plan : turbo_agent_cflow_region_plan;
  or_dag_step_indices : list Z
}.

(** [regions] is the written part of the array, [region_capacity] its size. *)
(* src/agent_compiler/src/turbo_agent_cflow_optimizer.c 12-20 turbo_agent_cflow_optimizer_result_s *)
Record turbo_agent_cflow_optimizer_result := mk_optimizer_result {
  res_dag : dag;
  res_enabled : Z;
  edge_statuses : list turbo_agent_cflow_region_status;
  regions : list turbo_agent_cflow_optimizer_region;
  region_capacity : Z
}.

(** The steps of a chain of edges: the producer of the first, then every consumer. *)
(* src/agent_compiler/src/turbo_agent_cflow_optimizer.c 185-202 optimizer_compile_region *)
Definition chain_steps (first : turbo_agent_cflow_value_edge)
    (edges : list turbo_agent_cflow_value_edge) : list turbo_agent_cflow_region_step :=
  let step index kind property :=
    mk_region_step sizeof_region_step TURBO_AGENT_CFLOW_REGION_STEP_ABI_VERSION index kind property in
  step (producer_step_index first) (ve_operator_kind first) None
    :: ((fun e => step (consumer_step_index e) (ve_operator_kind e) (ve_consumer_property e))
        <$> edges).

Definition chain_source (first : turbo_agent_cflow_value_edge)
    (edges : list turbo_agent_cflow_value_edge) : turbo_agent_cflow_region_source :=
  mk_region_source sizeof_region_source TURBO_AGENT_CFLOW_REGION_SOURCE_ABI_VERSION
    (Some (chain_steps first edges)).

(* src/agent_compiler/src/turbo_agent_cflow_optimizer.c 101-121 optimizer_admit_edge *)
Definition optimizer_admit_edge (d : dag) (edge : turbo_agent_cflow_value_edge) (o : oracle)
  : turbo_agent_cflow_region_status * oracle :=
  turbo_agent_cflow_region_admit (Some d) (Some (chain_source edge [edge])) o.

(* src/agent_compiler/src/turbo_agent_cflow_optimizer.c 284-286 turbo_agent_cflow_optimizer_discover *)
Fixpoint admit_edges (d : dag) (edges : list turbo_agent_cflow_value_edge) (o : oracle)
  : list turbo_agent_cflow_region_status * oracle :=
  match edges with
  | [] => ([], o)
  | edge :: edges =>
      let (s, o) := optimizer_admit_edge d edge o in
      let (rest, o) := admit_edges d edges o in
      (s :: rest, o)
  end.

Definition set_capacity (n : Z) (r : turbo_agent_cflow_optimizer_result)
  : turbo_agent_cflow_optimizer_result :=
  mk_optimizer_result (res_dag r) (res_enabled r) (edge_statuses r) (regions r) n.

Definition add_region (x : turbo_agent_cflow_optimizer_region)
    (r : turbo_agent_cflow_optimizer_result) : turbo_agent_cflow_optimizer_result :=
  mk_optimizer_result (res_dag r) (res_enabled r) (edge_statuses r) (regions r ++ [x])
    (region_capacity r).

(* src/agent_compiler/src/turbo_agent_cflow_optimizer.c 123-148 optimizer_reserve_region *)
Definition optimizer_reserve_region (r : turbo_agent_cflow_optimizer_result) (o : oracle)
  : status * turbo_agent_cflow_optimizer_result * oracle :=
  if Z.of_nat (length (regions r)) <? region_capacity r
  then (TURBO_AGENT_CFLOW_OPTIMIZER_OK, r, o)
  else
    let next_capacity := if region_capacity r =? 0 then 2 else u64 (region_capacity r * 2) in
    if (next_capacity <? region_capacity r) || (SIZE_MAX / sizeof_optimizer_region <? next_capacity)
    then (TURBO_AGENT_CFLOW_OPTIMIZER_OUT_OF_MEMORY, r, o)
    else
      let (grown, o) := alloc o in
      if grown then (TURBO_AGENT_CFLOW_OPTIMIZER_OK, set_capacity next_capacity r, o)
      else (TURBO_AGENT_CFLOW_OPTIMIZER_OUT_OF_MEMORY, r, o).

(** The edges [first_edge] to [last_edge] of the source. *)
(* src/agent_compiler/src/turbo_agent_cflow_optimizer.c 150-216 optimizer_compile_region *)
Definition optimizer_compile_region (edges : list turbo_agent_cflow_value_edge)
    (first_edge last_edge : nat) (r : turbo_agent_cflow_optimizer_result) (o : oracle)
  : status * turbo_agent_cflow_optimizer_result * oracle :=
  let chain := drop first_edge (take (S last_edge) edges) in
  match chain with
  | [] => (TURBO_AGENT_CFLOW_OPTIMIZER_INVALID_ARGUMENT, r, o)
  | first :: _ =>
      match optimizer_reserve_region r o with
      | (TURBO_AGENT_CFLOW_OPTIMIZER_OK, r, o) =>
          let (indices_allocated, o) := alloc o in
          let (steps_allocated, o) := alloc o in
          if negb (indices_allocated && steps_allocated)
          then (TURBO_AGENT_CFLOW_OPTIMIZER_OUT_OF_MEMORY, r, o)
          else
            match turbo_agent_compile_cflow_region (Some (res_dag r))
                    (Some (chain_source first chain)) true o with
            | (inr plan, o) =>
                (TURBO_AGENT_CFLOW_OPTIMIZER_OK,
                 add_region (mk_optimizer_region plan (dag_step_index <$> chain_steps first chain)) r, o)
            | (inl _, o) => (TURBO_AGENT_CFLOW_OPTIMIZER_REGION_COMPILE_FAILED, r, o)
            end
      | failure => failure
      end
  end.

(** From [i] on, the first position that is not admitted ([true]) or is ([false]). *)
(* src/agent_compiler/src/turbo_agent_cflow_optimizer.c 293-303 turbo_agent_cflow_optimizer_discover *)
Fixpoint advance (admitted : bool) (l : list turbo_agent_cflow_region_status) (i : nat) : nat :=
  match l with
  | [] => i
  | s :: l =>
      if Bool.eqb (bool_decide (s = TURBO_AGENT_CFLOW_REGION_OK)) admitted
      then advance admitted l (S i) else i
  end.

(** Each round passes at least one edge: [fuel] is the number of edges. *)
(* src/agent_compiler/src/turbo_agent_cflow_optimizer.c 288-308 turbo_agent_cflow_optimizer_discover *)
Fixpoint discover_loop (fuel : nat) (edges : list turbo_agent_cflow_value_edge) (i : nat)
    (r : turbo_agent_cflow_optimizer_result) (o : oracle)
  : option (status * turbo_agent_cflow_optimizer_result * oracle) :=
  let statuses := edge_statuses r in
  let first := advance false (drop i statuses) i in
  if (length edges <=? first)%nat then Some (TURBO_AGENT_CFLOW_OPTIMIZER_OK, r, o)
  else
    match fuel with
    | O => None
    | S fuel =>
        let i := advance true (drop first statuses) first in
        match optimizer_compile_region edges first (i - 1) r o with
        | (TURBO_AGENT_CFLOW_OPTIMIZER_OK, r, o) => discover_loop fuel edges i r o
        | failure => Some failure
        end
    end.

(** The edges' statuses before any admission. *)
(* src/agent_compiler/src/turbo_agent_cflow_optimizer.c 267-277 turbo_agent_cflow_optimizer_discover *)
Definition initial_statuses (edges : list turbo_agent_cflow_value_edge) (o : oracle)
  : option (list turbo_agent_cflow_region_status) * oracle :=
  match edges with
  | [] => (Some [], o)
  | _ =>
      let (allocated, o) := alloc o in
      (if allocated then Some (replicate (length edges) TURBO_AGENT_CFLOW_REGION_INVALID_ARGUMENT)
       else None, o)
  end.

(** The answer: the status, and the result left in the out parameter. *)
(* src/agent_compiler/src/turbo_agent_cflow_optimizer.c 244-317 turbo_agent_cflow_optimizer_discover *)
Definition turbo_agent_cflow_optimizer_discover (d : option dag)
    (source : option turbo_agent_cflow_composition_source)
    (options : option turbo_agent_cflow_optimizer_options) (out_result : bool) (o : oracle)
  : option (status * option turbo_agent_cflow_optimizer_result * oracle) :=
  match d, source ≫= cs_edges, options with
  | Some dg, Some edges, Some options' =>
      if negb (out_result && optimizer_options_valid options && optimizer_source_valid d source)
      then Some (TURBO_AGENT_CFLOW_OPTIMIZER_INVALID_ARGUMENT, None, o)
      else
        let (allocated, o) := alloc o in
        if negb allocated then Some (TURBO_AGENT_CFLOW_OPTIMIZER_OUT_OF_MEMORY, None, o)
        else
          match initial_statuses edges o with
          | (None, o) => Some (TURBO_AGENT_CFLOW_OPTIMIZER_OUT_OF_MEMORY, None, o)
          | (Some statuses, o) =>
              let enabled := oo_enabled options' in
              if enabled =? 0
              then Some (TURBO_AGENT_CFLOW_OPTIMIZER_OK,
                         Some (mk_optimizer_result dg enabled statuses [] 0), o)
              else
                let (statuses, o) := admit_edges dg edges o in
                match discover_loop (length edges) edges 0
                        (mk_optimizer_result dg enabled statuses [] 0) o with
                | Some (TURBO_AGENT_CFLOW_OPTIMIZER_OK, r, o) =>
                    Some (TURBO_AGENT_CFLOW_OPTIMIZER_OK, Some r, o)
                | Some (status, _, o) => Some (status, None, o)
                | None => None
                end
          end
  | _, _, _ => Some (TURBO_AGENT_CFLOW_OPTIMIZER_INVALID_ARGUMENT, None, o)
  end.

(** ** Readers *)

(* src/agent_compiler/src/turbo_agent_cflow_optimizer.c 326-329 turbo_agent_cflow_optimizer_enabled *)
Definition turbo_agent_cflow_optimizer_enabled (r : option turbo_agent_cflow_optimizer_result) : Z :=
  default 0 (res_enabled <$> r).

(* src/agent_compiler/src/turbo_agent_cflow_optimizer.c 331-334 turbo_agent_cflow_optimizer_region_count *)
Definition turbo_agent_cflow_optimizer_region_count (r : option turbo_agent_cflow_optimizer_result)
  : Z := match r with Some r => Z.of_nat (length (regions r)) | None => 0 end.

Definition region_at (r : option turbo_agent_cflow_optimizer_result) (region_index : Z)
  : option turbo_agent_cflow_optimizer_region :=
  r ← r;
  if Z.of_nat (length (regions r)) <=? region_index then None
  else regions r !! Z.to_nat region_index.

(* src/agent_compiler/src/turbo_agent_cflow_optimizer.c 336-341 turbo_agent_cflow_optimizer_region_step_count *)
Definition turbo_agent_cflow_optimizer_region_step_count
    (r : option turbo_agent_cflow_optimizer_result) (region_index : Z) : Z :=
  match region_at r region_index with
  | Some x => Z.of_nat (length (or_dag_step_indices x))
  | None => 0
  end.

(* src/agent_compiler/src/turbo_agent_cflow_optimizer.c 343-352 turbo_agent_cflow_optimizer_region_dag_step_index *)
Definition turbo_agent_cflow_optimizer_region_dag_step_index
    (r : option turbo_agent_cflow_optimizer_result) (region_index position : Z) : Z :=
  match region_at r region_index with
  | Some x =>
      if Z.of_nat (length (or_dag_step_indices x)) <=? position then SIZE_MAX
      else default SIZE_MAX (or_dag_step_indices x !! Z.to_nat position)
  | None => SIZE_MAX
  end.

(* src/agent_compiler/src/turbo_agent_cflow_optimizer.c 354-363 turbo_agent_cflow_optimizer_region_tool_name *)
Definition turbo_agent_cflow_optimizer_region_tool_name
    (r : option turbo_agent_cflow_optimizer_result) (region_index position : Z) : option string :=
  let step_index := turbo_agent_cflow_optimizer_region_dag_step_index r region_index position in
  match r with
  | Some r =>
      if step_index =? SIZE_MAX then None
      else turbo_agent_executable_dag_step_tool_name (Some (res_dag r)) step_index
  | None => None
  end.

(* src/agent_compiler/src/turbo_agent_cflow_optimizer.c 365-371 turbo_agent_cflow_optimizer_region_plan *)
Definition turbo_agent_cflow_optimizer_region_plan (r : option turbo_agent_cflow_optimizer_result)
    (region_index : Z) : option turbo_agent_cflow_region_plan := or_plan <$> region_at r region_index.

(* src/agent_compiler/src/turbo_agent_cflow_optimizer.c 373-382 turbo_agent_cflow_optimizer_edge_status *)
Definition turbo_agent_cflow_optimizer_edge_status (r : option turbo_agent_cflow_optimizer_result)
    (edge_index : Z) : turbo_agent_cflow_region_status :=
  match r with
  | Some r =>
      if (res_enabled r =? 0) || (Z.of_nat (length (edge_statuses r)) <=? edge_index)
      then TURBO_AGENT_CFLOW_REGION_INVALID_ARGUMENT
      else default TURBO_AGENT_CFLOW_REGION_INVALID_ARGUMENT
             (edge_statuses r !! Z.to_nat edge_index)
  | None => TURBO_AGENT_CFLOW_REGION_INVALID_ARGUMENT
  end.

End optimizer.

(* src/agent_compiler/src/turbo_agent_cflow_optimizer.c 384-396 turbo_agent_cflow_optimizer_status_string *)
Definition turbo_agent_cflow_optimizer_status_string (s : turbo_agent_cflow_optimizer_status)
  : string :=
  match s with
  | TURBO_AGENT_CFLOW_OPTIMIZER_OK => "ok"
  | TURBO_AGENT_CFLOW_OPTIMIZER_INVALID_ARGUMENT => "invalid_argument"
  | TURBO_AGENT_CFLOW_OPTIMIZER_OUT_OF_MEMORY => "out_of_memory"
  | TURBO_AGENT_CFLOW_OPTIMIZER_REGION_COMPILE_FAILED => "region_compile_failed"
  end.
