(* ===== verification/CflowFacts.v ===== *)
(** * Properties of CFlow regions and their discovery

    An admitted region is a chain of pure native functions of the plan's tools;
    discovery finds exactly the maximal runs of admitted edges, and admission
    edge by edge is admission of the whole run. *)

From stdpp Require Import sorting.
From S2P Require Import Prelude RuntimeJson JsonBuild Tool ToolRegistry ToolRegistryFacts ToolSchema.
From S2P Require Import ToolSchemaFacts ToolContracts DagCompiler DagFacts DagPlanFacts CflowRegion CflowOptimizer.

Section region.
Context {J : Type} `{JsonLaws J, !JsonSetters J, !JsonSettersLaws J,
                     !JsonMembers J, !JsonMembersLaws J} {W : Type} `{Cflow}.
Abbreviation registry := (turbo_tool_registry (J := J) (W := W)).
Abbreviation entry := (turbo_tool_entry (J := J) (W := W)).
Abbreviation dag := (turbo_agent_executable_dag (J := J) (W := W)).

(** ** Memory does not decide *)

Lemma steady_close_strict strict (p : J) : steady (close_strict strict p).
Proof. eexists. intros o Hp. by apply close_strict_plenty. Qed.

Lemma steady_try_clone (v : J) : steady (try_clone v).
Proof.
  exists (Some (json_clone v)). intros o Hp. destruct (alloc_plenty o Hp) as (o' & Hp' & E).
  exists o'. split; [done|]. unfold try_clone. by rewrite E.
Qed.

Lemma steady_parse_value text strict :
  steady (turbo_tool_schema_parse_parameters_json_value (J := J) text strict).
Proof.
  unfold turbo_tool_schema_parse_parameters_json_value. apply steady_bind.
  - unfold turbo_tool_schema_parse_parameters_json. destruct text as [text|]; [|apply steady_ret].
    apply (steady_bind alloc). { apply steady_alloc. }
    intros []; [|apply steady_ret]. destruct (json_parse text) as [p|]; [|apply steady_ret].
    apply (steady_bind (close_strict strict p)); [apply steady_close_strict|]. intros q. apply steady_ret.
  - intros [p|]; [apply steady_try_clone|apply steady_ret].
Qed.

Lemma steady_consumer_slot (d : turbo_tool_definition J W) property :
  steady (consumer_slot d property).
Proof.
  unfold consumer_slot. destruct (d_parameters_schema d) as [s|].
  - apply steady_ret.
  - apply (steady_bind (turbo_tool_schema_parse_parameters_json_value (d_parameters_json d) (d_strict d)));
      [apply steady_parse_value|]. intros p. apply steady_ret.
Qed.

Lemma steady_compatibility (r : registry) producer consumer property :
  steady (turbo_agent_tool_result_slot_compatibility (Some r) producer consumer property).
Proof.
  unfold turbo_agent_tool_result_slot_compatibility.
  destruct producer as [producer|]; [|apply steady_ret].
  destruct consumer as [consumer|]; [|apply steady_ret].
  destruct property as [[|a property]|]; [apply steady_ret| |apply steady_ret].
  destruct (turbo_tool_registry_get_result_contract (Some r) (Some producer))
    as [[] [[[text|] [schema|]] strict]]; try apply steady_ret.
  destruct (contract_definition_by_name (Some r) (Some consumer)) as [d|]; [|apply steady_ret].
  apply (steady_bind (consumer_slot d (String a property))); [apply steady_consumer_slot|].
  intros slot. destruct (contract_type_only_scalar slot); apply steady_ret.
Qed.

(** ** One step *)

(** A tool that a region may run, with its function. *)
Record native_step (r : registry) (name : string) (e : entry)
    (native : turbo_tool_native_projection) (p : cflow_function_projection) : Prop := {
  ns_found : found (Some r) (Some name) = Some e;
  ns_pure : e_effect_flags e = TURBO_TOOL_EFFECT_PURE;
  ns_read_only : ep_idempotency (e_execution_policy e) = TURBO_TOOL_IDEMPOTENCY_READ_ONLY;
  ns_parallel : ep_mode (e_execution_policy e) = TURBO_TOOL_EXECUTION_PARALLEL_SAFE;
  ns_native : e_native_projection e = Some native;
  ns_signature : fd_param_count (np_function native) = 1 /\
    fd_result_flags (np_function native) = CMETA_RESULT_VALUE /\
    cmeta_effects_are_pure (fd_effects (np_function native)) = true;
  ns_types : exists type, cmeta_function_param (np_function native) 0 = Some (type, CMETA_PARAM_IN) /\
    region_scalar_type_supported type = true /\
    region_scalar_type_supported (fd_return_type (np_function native)) = true;
  ns_admitted : cflow_function_projection_admit (np_function native) (np_abi native)
                  (np_callable native) = Some p
}.

Lemma admit_native_map_ok (r : registry) name p : region_admit_native_map r name = inr p ->
  exists e native, native_step r name e native p.
Proof.
  unfold region_admit_native_map, turbo_tool_registry_get_execution_policy,
    turbo_tool_registry_get_effects, turbo_tool_registry_get_native_projection, read_entry.
  destruct (found (Some r) (Some name)) as [e|] eqn:Ef; [|done].
  destruct (_ || _ || _) eqn:Epolicy; [done|].
  destruct (e_native_projection e) as [native|] eqn:En; [|done]. unfold admit_native.
  destruct (negb (fd_param_count _ =? 1) || _ || _) eqn:Eown; [done|].
  destruct (cmeta_function_param (np_function native) 0) as [[type flags]|] eqn:Ep; [|done].
  destruct (negb (flags =? _) || _ || _) eqn:Etype; [done|].
  destruct (cflow_function_projection_admit _ _ _) as [p'|] eqn:Ea; [|done]. intros [= ->].
  bool_to_prop. exists e, native. split; try done. exists type. by subst flags.
Qed.

Lemma admit_native_map_honest (r : registry) name :
  region_admit_native_map r name <> inl TURBO_AGENT_CFLOW_REGION_OK.
Proof.
  unfold region_admit_native_map, admit_native.
  destruct (turbo_tool_registry_get_execution_policy _ _) as [[] [policy|]]; try done.
  destruct (turbo_tool_registry_get_effects _ _) as [[] effects]; try done.
  destruct (_ || _ || _); [done|].
  destruct (turbo_tool_registry_get_native_projection _ _) as [[] [native|]]; try done.
  destruct (negb (fd_param_count _ =? 1) || _ || _); [done|].
  destruct (cmeta_function_param _ _) as [[type flags]|]; [|done].
  destruct (negb (flags =? _) || _ || _); [done|]. by destruct (cflow_function_projection_admit _ _ _).
Qed.

(** ** A chain of steps *)

Section chain.
Variables (d : dag) (r : registry) (Q : oracle -> Prop).

(** [Q] is what is known of memory, kept by the comparisons. *)
Hypothesis Q_kept : forall (r : registry) producer consumer property o,
  Q o -> Q (turbo_agent_tool_result_slot_compatibility (Some r) producer consumer property o).2.

Definition linked (previous : option (string * cflow_function_projection)) (name : string)
    (property : option string) (p : cflow_function_projection) : Prop :=
  match previous with
  | None => True
  | Some (producer, before) =>
      (exists o o', Q o /\ turbo_agent_tool_result_slot_compatibility (Some r) (Some producer)
         (Some name) property o = (TURBO_AGENT_CONTRACT_COMPATIBLE, o')) /\
      cmeta_type_equal (output_type before) (input_type p) = true
  end.

(** The steps [steps] give the projections [ps], each fed by the one before. *)
Inductive chained : option (string * cflow_function_projection) ->
    list turbo_agent_cflow_region_step -> list cflow_function_projection -> Prop :=
| chained_nil previous : chained previous [] []
| chained_cons previous step steps name p ps :
    turbo_agent_executable_dag_step_tool_name (Some d) (dag_step_index step) = Some name ->
    name <> EmptyString -> region_admit_native_map r name = inr p ->
    linked previous name (consumer_property step) p ->
    chained (Some (name, p)) steps ps ->
    chained previous (step :: steps) (p :: ps).

Lemma prepare_steps_ok steps : forall prior previous o ps o',
  region_prepare_steps d r prior previous steps o = (inr ps, o') -> NoDup prior -> Q o ->
  chained previous steps ps /\ NoDup (prior ++ (dag_step_index <$> steps)).
Proof.
  induction steps as [|step steps IH]; intros prior previous o ps o' Hc Hnd HQ;
    cbn [region_prepare_steps] in Hc.
  { injection Hc as <- _. rewrite app_nil_r. split; [constructor|done]. }
  destruct (turbo_agent_executable_dag_step_tool_name (Some d) (dag_step_index step))
    as [[|a name]|] eqn:En; try done.
  case_bool_decide as Hin; [done|].
  destruct (region_admit_native_map r (String a name)) as [|p] eqn:Ea; [done|].
  destruct (region_admit_edge r previous (String a name) (consumer_property step) p o)
    as [[status|] o1] eqn:Ee; [done|].
  destruct (region_prepare_steps d r _ _ steps o1) as [[status|ps'] o2] eqn:Er; [done|].
  injection Hc as <- _.
  assert (Hlink : linked previous (String a name) (consumer_property step) p /\ Q o1).
  { unfold region_admit_edge in Ee. destruct previous as [[producer before]|];
      [|by injection Ee as <-].
    pose proof (Q_kept r (Some producer) (Some (String a name)) (consumer_property step) o HQ) as HQ'.
    destruct (turbo_agent_tool_result_slot_compatibility _ _ _ _ o) as [[] o3] eqn:Ec; try done.
    destruct (cmeta_type_equal _ _) eqn:Et; [|done]. injection Ee as <-.
    split; [|done]. split; [by exists o, o3|done]. }
  destruct Hlink as [Hlink HQ1]. destruct (IH _ _ _ _ _ Er) as [Hch Hnd']; [|done|].
  { apply NoDup_app. split; [done|]. split; [|by apply NoDup_singleton].
    by intros i Hi ->%list_elem_of_singleton. }
  split; [|by rewrite <- app_assoc in Hnd'].
  eapply chained_cons; [exact En|done|exact Ea|exact Hlink|exact Hch].
Qed.

End chain.

Lemma prepare_ok (Q : oracle -> Prop) (d : dag) source o ps o' :
  (forall (r : registry) producer consumer property o, Q o ->
     Q (turbo_agent_tool_result_slot_compatibility (Some r) producer consumer property o).2) ->
  (forall o, Q o -> Q (alloc o).2) -> Q o ->
  region_prepare (Some d) source o = (inr ps, o') ->
  exists approved steps, source ≫= rsrc_steps = Some steps /\ region_source_valid source = true /\
    dag_approved_tools d = Some approved /\ chained d approved Q None steps ps /\
    NoDup (dag_step_index <$> steps).
Proof.
  intros Hkept Halloc HQ. unfold region_prepare. destruct (source ≫= rsrc_steps) as [steps|]; [|done].
  destruct (region_source_valid source) eqn:Ev; [|done]. cbn [negb].
  unfold turbo_agent_executable_dag_approved_tools. cbn [mbind option_bind].
  destruct (dag_approved_tools d) as [approved|]; [|done].
  pose proof (Halloc o HQ) as H1q. destruct (alloc o) as [a o1].
  pose proof (Halloc o1 H1q) as H2q. destruct (alloc o1) as [b o2]. destruct (a && b); [|done].
  intros Hc. destruct (prepare_steps_ok d approved Q Hkept _ _ _ _ _ _ Hc (NoDup_nil_2) H2q).
  by exists approved, steps.
Qed.

Lemma source_two_steps s steps : region_source_valid (Some s) = true ->
  rsrc_steps s = Some steps -> (2 <= length steps)%nat.
Proof.
  unfold region_source_valid. intros Hv Es. rewrite Es in Hv. bool_to_prop. by apply Nat.leb_le.
Qed.

Lemma chained_length d r Q previous steps ps : chained d r Q previous steps ps ->
  length ps = length steps.
Proof. induction 1; cbn; congruence. Qed.

(** What two adjacent steps of a chain are to each other. *)
Lemma chained_lookup d r Q previous steps ps : chained d r Q previous steps ps ->
  forall i step p, steps !! i = Some step -> ps !! i = Some p -> exists name e native,
    turbo_agent_executable_dag_step_tool_name (Some d) (dag_step_index step) = Some name /\
    native_step r name e native p /\
    forall step' p' name', steps !! S i = Some step' -> ps !! S i = Some p' ->
      turbo_agent_executable_dag_step_tool_name (Some d) (dag_step_index step') = Some name' ->
      linked r Q (Some (name, p)) name' (consumer_property step') p'.
Proof.
  induction 1 as [|previous step steps name p ps Hn Hne Ha Hl Hch IH]; intros i s0 p0 Hs Hp; [done|].
  destruct i as [|i]; [|by apply IH]. injection Hs as ->. injection Hp as ->.
  destruct (admit_native_map_ok r name p0 Ha) as (e & native & Hns).
  exists name, e, native. split; [done|]. split; [done|]. intros step' p' name' Hs' Hp' Hn'.
  inversion Hch as [|? ? ? name2 p2 ? Hn2 ? ? Hl2 ? E1 E2 E3]; subst; [done|].
  cbn in Hs', Hp'. simplify_eq. done.
Qed.

(** The graph [g'] is [g] with the functions [ps] added, each in its turn. *)
Inductive extended : cflow_graph -> list cflow_function_projection -> cflow_graph -> Prop :=
| extended_nil g : extended g [] g
| extended_cons g p ps g' g'' o o' : cflow_graph_add_function_projection g p o = (Some g', o') ->
    extended g' ps g'' -> extended g (p :: ps) g''.

(** A plan CFlow made of the graph that starts at a type and runs just these functions. *)
Definition runs_functions (plan : cflow_plan) (start : cmeta_type) (ps : list cflow_function_projection) : Prop :=
  exists g0 g o o1 o2 o3, cflow_graph_init start o = (g0, o1) /\ graph_error g0 = false /\
    extended g0 ps g /\ cflow_plan_compile_surface g o2 = (Some plan, o3).

Lemma add_projections_extended ps : forall g o g' o',
  add_projections g ps o = (Some g', o') -> extended g ps g'.
Proof.
  induction ps as [|p ps IH]; intros g o g' o' Hc; cbn in Hc; [injection Hc as <- _; constructor|].
  destruct (cflow_graph_add_function_projection g p o) as [[g1|] o1] eqn:E; [|done].
  eapply extended_cons; [exact E|]. by eapply IH.
Qed.

Lemma bind_region_ok first rest o x o' : bind_region first rest o = (inr x, o') ->
  rp_input_type x = input_type first /\
  rp_output_type x = output_type (List.last (first :: rest) first) /\
  rp_step_count x = Z.of_nat (length (first :: rest)) /\
  runs_functions (rp_plan x) (input_type first) (first :: rest).
Proof.
  unfold bind_region. destruct (cflow_graph_init _ o) as [g o1] eqn:Eg. destruct (graph_error g) eqn:Ee; [done|].
  destruct (add_projections g _ o1) as [[g'|] o2] eqn:Ea; [|done]. destruct (alloc o2) as [[] o3]; [|done].
  cbn [negb]. destruct (cflow_plan_compile_surface g' o3) as [[plan|] o4] eqn:Ep; [|done].
  intros [= <- _]. do 3 (split; [done|]). exists g, g', o, o1, o3, o4. split_and!; [done..| |done].
  by eapply add_projections_extended.
Qed.

Lemma compile_region_ok (d : dag) source out o x o' :
  turbo_agent_compile_cflow_region (Some d) source out o = (inr x, o') ->
  exists approved steps ps first rest, source ≫= rsrc_steps = Some steps /\
    region_source_valid source = true /\ dag_approved_tools d = Some approved /\
    chained d approved (fun _ => True) None steps ps /\ NoDup (dag_step_index <$> steps) /\
    ps = first :: rest /\ rp_input_type x = input_type first /\
    rp_output_type x = output_type (List.last ps first) /\
    rp_step_count x = Z.of_nat (length steps) /\
    runs_functions (rp_plan x) (input_type first) ps.
Proof.
  unfold turbo_agent_compile_cflow_region. destruct out; [|done]. cbn [negb].
  destruct (region_prepare (Some d) source o) as [[status|ps] o1] eqn:Ep; [done|].
  destruct ps as [|first rest]; [done|]. intros (Hi & Ho & Hn & Hr)%bind_region_ok.
  destruct (prepare_ok (fun _ => True) d source o (first :: rest) o1) as (approved & steps & Es & Ev & Ea & Hch & Hnd);
    [done..|].
  exists approved, steps, (first :: rest), first, rest.
  rewrite Hn, (chained_length _ _ _ _ _ _ Hch). by repeat (split; [done|]).
Qed.

(** ** Edge by edge, and as a whole *)

Lemma steady_admit_edge (r : registry) previous name property p :
  steady (region_admit_edge r previous name property p).
Proof.
  unfold region_admit_edge. destruct previous as [[producer before]|]; [|apply steady_ret].
  apply (steady_bind (turbo_agent_tool_result_slot_compatibility (Some r) (Some producer) (Some name)
                        property)); [apply steady_compatibility|].
  intros []; apply steady_ret.
Qed.

Lemma steady_prepare_steps (d : dag) r steps : forall prior previous,
  steady (region_prepare_steps d r prior previous steps).
Proof.
  induction steps as [|step steps IH]; intros prior previous; cbn [region_prepare_steps].
  { apply steady_ret. }
  destruct (turbo_agent_executable_dag_step_tool_name _ _) as [[|a name]|]; try apply steady_ret.
  case_bool_decide; [apply steady_ret|].
  destruct (region_admit_native_map r (String a name)) as [status|p]; [apply steady_ret|].
  destruct (steady_admit_edge r previous (String a name) (consumer_property step) p) as [[status|] He].
  - exists (inl status). intros o Hp. destruct (He o Hp) as (o1 & Hp1 & ->). by exists o1.
  - destruct (IH (prior ++ [dag_step_index step]) (Some (String a name, p))) as [res Hres].
    exists (match res with inr ps => inr (p :: ps) | inl status => inl status end). intros o Hp.
    destruct (He o Hp) as (o1 & Hp1 & ->), (Hres o1 Hp1) as (o2 & Hp2 & ->).
    exists o2. split; [done|]. by destruct res.
Qed.

Lemma steady_prepare (d : option dag) source : steady (region_prepare d source).
Proof.
  unfold region_prepare. destruct d as [d|]; [|apply steady_ret].
  destruct (source ≫= rsrc_steps) as [steps|]; [|apply steady_ret].
  destruct (negb _); [apply steady_ret|].
  destruct (turbo_agent_executable_dag_approved_tools (Some d)) as [r|]; [|apply steady_ret].
  apply (steady_bind alloc); [apply steady_alloc|]. intros a.
  apply (steady_bind alloc); [apply steady_alloc|]. intros b.
  destruct (a && b); [apply steady_prepare_steps|apply steady_ret].
Qed.

Lemma steady_admit (d : option dag) source : steady (turbo_agent_cflow_region_admit d source).
Proof.
  destruct (steady_prepare d source) as [res Hres].
  exists (match res with inl status => status | inr _ => TURBO_AGENT_CFLOW_REGION_OK end).
  intros o Hp. destruct (Hres o Hp) as (o1 & Hp1 & E). exists o1. split; [done|].
  unfold turbo_agent_cflow_region_admit. rewrite E. by destruct res.
Qed.

Lemma prepare_steps_honest (d : dag) r steps : forall prior previous o o',
  region_prepare_steps d r prior previous steps o <> (inl TURBO_AGENT_CFLOW_REGION_OK, o').
Proof.
  induction steps as [|step steps IH]; intros prior previous o o'; cbn [region_prepare_steps]; [done|].
  destruct (turbo_agent_executable_dag_step_tool_name _ _) as [[|a name]|]; try done.
  case_bool_decide; [done|].
  destruct (region_admit_native_map r (String a name)) as [status|p] eqn:Ea.
  - intros [= -> _]. by apply admit_native_map_honest in Ea.
  - destruct (region_admit_edge r previous _ _ p o) as [[status|] o1] eqn:Ee.
    + intros [= -> _]. unfold region_admit_edge in Ee. destruct previous as [[producer before]|]; [|done].
      destruct (turbo_agent_tool_result_slot_compatibility _ _ _ _ o) as [[] o3]; try done.
      by destruct (cmeta_type_equal _ _).
    + destruct (region_prepare_steps d r _ _ steps o1) as [[status|ps] o2] eqn:E; [|done].
      intros [= -> ->]. by apply IH in E.
Qed.

(** Memory is the only obstacle to preparing a chain. *)
Lemma prepare_steps_complete (d : dag) r previous steps ps :
  chained d r plenty previous steps ps -> forall prior o, plenty o ->
  NoDup (prior ++ (dag_step_index <$> steps)) ->
  exists o', region_prepare_steps d r prior previous steps o = (inr ps, o').
Proof.
  induction 1 as [|previous step steps name p ps Hn Hne Ha Hl Hch IH]; intros prior o Hp Hnd;
    cbn [region_prepare_steps]; [by exists o|].
  rewrite Hn. destruct name as [|a name]; [done|].
  assert (Hnd' : NoDup ((prior ++ [dag_step_index step]) ++ (dag_step_index <$> steps)))
    by (by rewrite <- app_assoc).
  rewrite bool_decide_false; cycle 1.
  { apply NoDup_app in Hnd as (_ & Hd & _). intros Hin. apply (Hd _ Hin). rewrite fmap_cons. by left. }
  rewrite Ha.
  destruct (steady_admit_edge r previous (String a name) (consumer_property step) p) as [v Hv].
  destruct (Hv o Hp) as (o1 & Hp1 & E1). rewrite E1.
  assert (v = None) as ->.
  { destruct previous as [[producer before]|]; [|by injection E1].
    destruct Hl as [(o2 & o3 & Hq & Ec) Et]. destruct (Hv o2 Hq) as (o4 & _ & E2).
    unfold region_admit_edge in E2. rewrite Ec, Et in E2. by injection E2. }
  destruct (IH (prior ++ [dag_step_index step]) o1 Hp1 Hnd') as (o2 & ->). by exists o2.
Qed.

Lemma compatibility_keeps_plenty (r : registry) producer consumer property o : plenty o ->
  plenty (turbo_agent_tool_result_slot_compatibility (Some r) producer consumer property o).2.
Proof.
  destruct (steady_compatibility r producer consumer property) as [c Hc]. intros Hp.
  by destruct (Hc o Hp) as (o' & Hp' & ->).
Qed.

Lemma alloc_keeps_plenty o : plenty o -> plenty (alloc o).2.
Proof. intros Hp. by destruct (alloc_plenty o Hp) as (o' & Hp' & ->). Qed.

Lemma admit_chain (d : dag) s steps : rsrc_steps s = Some steps ->
  (turbo_agent_cflow_region_admit (Some d) (Some s) []).1 = TURBO_AGENT_CFLOW_REGION_OK <->
  region_source_valid (Some s) = true /\ NoDup (dag_step_index <$> steps) /\
  exists approved ps, dag_approved_tools d = Some approved /\
    chained d approved plenty None steps ps.
Proof.
  intros Es. unfold turbo_agent_cflow_region_admit. split.
  - destruct (region_prepare (Some d) (Some s) []) as [[status|ps] o'] eqn:E; cbn [fst].
    + intros ->. exfalso. revert E. unfold region_prepare. cbn [mbind option_bind]. rewrite Es.
      destruct (negb _); [done|]. destruct (turbo_agent_executable_dag_approved_tools _); [|done].
      cbn [alloc andb]. intros E. by apply prepare_steps_honest in E.
    + intros _. destruct (prepare_ok plenty d (Some s) [] ps o') as (approved & steps' & Es' & Ev & Ea & Hch & Hnd).
      * intros. by apply compatibility_keeps_plenty.
      * apply alloc_keeps_plenty.
      * apply plenty_nil.
      * exact E.
      * cbn in Es'. rewrite Es in Es'. injection Es' as <-. split; [done|]. split; [done|].
        by exists approved, ps.
  - intros (Hv & Hnd & approved & ps & Ea & Hch). unfold region_prepare. cbn [mbind option_bind].
    rewrite Es, Hv. unfold turbo_agent_executable_dag_approved_tools. cbn [negb mbind option_bind].
    rewrite Ea. cbn [alloc andb].
    by destruct (prepare_steps_complete d approved None steps ps Hch [] [] plenty_nil Hnd) as (o' & ->).
Qed.

Variable sizeof_native_projection : Z.

(** C31. A region compiled from a plan is a typed chain of pure native functions of the
    plan's tools: at least two distinct steps; each names a tool of the source
    registry that is PURE, READ_ONLY and PARALLEL_SAFE there, and runs the native
    function published for it, one scalar value to another; each result is
    accepted by the property it feeds and has the type of the next input; the
    region's ends are the ends of the chain, and what CFlow runs is the plan of the
    graph to which exactly these functions were added, in their order. *)
Theorem compiled_region_sound (fuel : nat) (config : turbo_agent_compiler_config) (r : registry)
    (source : turbo_agent_dag_source) (plan : dag) (o1 o2 : oracle)
    (chain : turbo_agent_cflow_region_source) (out : bool) (o o' : oracle)
    (x : turbo_agent_cflow_region_plan) :
  registry_wf sizeof_native_projection r ->
  turbo_agent_compile_dag sizeof_native_projection fuel (Some config) (Some r) (Some source) true o1 =
    Some (inr plan, o2) ->
  turbo_agent_compile_cflow_region (Some plan) (Some chain) out o = (inr x, o') ->
  exists approved steps ps, rsrc_steps chain = Some steps /\ length ps = length steps /\
    (2 <= length steps)%nat /\ NoDup (dag_step_index <$> steps) /\
    turbo_agent_cflow_region_step_count (Some x) = Z.of_nat (length steps) /\
    (exists first, ps !! 0%nat = Some first /\
       turbo_agent_cflow_region_input_type (Some x) = Some (input_type first) /\
       turbo_agent_cflow_region_output_type (Some x) = Some (output_type (List.last ps first)) /\
       runs_functions (rp_plan x) (input_type first) ps) /\
    forall i step p, steps !! i = Some step -> ps !! i = Some p ->
      exists name e e' native,
        turbo_agent_executable_dag_step_tool_name (Some plan) (dag_step_index step) = Some name /\
        found (Some r) (Some name) = Some e /\ same_contract sizeof_native_projection e e' /\
        native_step approved name e' native p /\
        forall step' p' name', steps !! S i = Some step' -> ps !! S i = Some p' ->
          turbo_agent_executable_dag_step_tool_name (Some plan) (dag_step_index step') = Some name' ->
          linked approved (fun _ => True) (Some (name, p)) name' (consumer_property step') p'.
Proof.
  intros Hr Hplan Hregion.
  destruct (compile_dag_ok _ _ _ _ _ _ _ _ _ Hr Hplan)
    as (config' & source' & sources & [= <-] & [= <-] & _ & _ & _ & _ & Hcp).
  destruct (cp_approved _ _ _ _ _ _ Hcp) as (approved & Ea & Hsealed).
  destruct (compile_region_ok _ _ _ _ _ _ Hregion)
    as (approved' & steps & ps & first & rest & Es & Ev & Ea' & Hch & Hnd & -> & Hi & Ho & Hn & Hruns).
  rewrite Ea in Ea'. injection Ea' as <-. cbn in Es.
  exists approved, steps, (first :: rest). split; [done|].
  split; [by eapply chained_length|]. split; [by eapply source_two_steps|]. split; [done|].
  split; [done|]. split; [exists first; cbn; rewrite Hi, Ho; by split_and!|].
  intros i step p Hs Hp.
  destruct (chained_lookup _ _ _ _ _ _ Hch i step p Hs Hp) as (name & e' & native & Hname & Hns & Hnext).
  assert (Ht : exists t, t ∈ dag_steps plan /\ st_tool_name t = name).
  { unfold turbo_agent_executable_dag_step_tool_name in Hname. destruct (_ <=? _); [done|].
    destruct (dag_steps plan !! Z.to_nat (dag_step_index step)) as [t|] eqn:Et; [|done].
    injection Hname as <-. exists t. split; [by eapply list_elem_of_lookup_2|done]. }
  destruct Ht as (t & Ht & Etn).
  destruct (st_every_tool _ _ _ _ Hsealed t Ht) as (e & e2 & Hf & Hf' & Hsame). rewrite Etn in Hf, Hf'.
  rewrite (ns_found _ _ _ _ _ Hns) in Hf'. injection Hf' as <-.
  by exists name, e, e', native.
Qed.

(** ** Chains of edges *)

Abbreviation edge := turbo_agent_cflow_value_edge.

Record chain_edges (es : list edge) : Prop := {
  ce_edge : forall e, e ∈ es -> ve_operator_kind e = TURBO_AGENT_CFLOW_REGION_OPERATOR_MAP /\
    nonempty_text (ve_consumer_property e) = true /\
    producer_step_index e <> consumer_step_index e;
  ce_linked : forall i e e', es !! i = Some e -> es !! S i = Some e' ->
    consumer_step_index e = producer_step_index e';
  ce_fresh : forall j i e e', (j < i)%nat -> es !! j = Some e -> es !! i = Some e' ->
    producer_step_index e <> consumer_step_index e' /\
    consumer_step_index e <> consumer_step_index e'
}.

Lemma edges_valid_chain n edges : forall prior, chain_edges prior ->
  edges_valid n prior edges = true -> chain_edges (prior ++ edges).
Proof.
  induction edges as [|e edges IH]; intros prior Hprior Hv; cbn [edges_valid] in Hv.
  { by rewrite app_nil_r. }
  bool_to_prop. replace (prior ++ e :: edges) with ((prior ++ [e]) ++ edges) by (by rewrite <- app_assoc).
  apply IH; [|done]. destruct Hprior as [Hedge Hlinked Hfresh].
  assert (Hlast : forall i x, (prior ++ [e]) !! i = Some x ->
    prior !! i = Some x \/ (i = length prior /\ x = e)).
  { intros i x. destruct (decide (i < length prior)%nat).
    - rewrite lookup_app_l by done. by left.
    - rewrite lookup_app_r by lia. destruct (i - length prior)%nat as [|k] eqn:Ei; [|by destruct k].
      intros [= <-]. right. split; [lia|done]. }
  split.
  - intros x [Hx| ->%list_elem_of_singleton]%elem_of_app; [by apply Hedge|]. by split_and!.
  - intros i x y Hx Hy. destruct (Hlast _ _ Hy) as [Hy'|[Hi ->]].
    + destruct (Hlast _ _ Hx) as [Hx'|[Hi' ->]]; [by eapply Hlinked|].
      apply lookup_lt_Some in Hy'. lia.
    + destruct (Hlast _ _ Hx) as [Hx'|[Hi' ->]]; [|lia].
      rewrite last_lookup, <- Hi in *. cbn [Nat.pred] in *.
      match goal with Hm : (match _ with Some _ => _ | None => _ end) = true |- _ =>
        rewrite Hx' in Hm; by apply Z.eqb_eq in Hm end.
  - intros j i x y Hji Hx Hy. destruct (Hlast _ _ Hy) as [Hy'|[-> ->]].
    + destruct (Hlast _ _ Hx) as [Hx'|[-> ->]]; [by eapply Hfresh|].
      apply lookup_lt_Some in Hy'. lia.
    + destruct (Hlast _ _ Hx) as [Hx'|[-> ->]]; [|lia].
      match goal with Hm : forallb _ prior = true |- _ => rewrite forallb_forall in Hm;
        specialize (Hm x (proj1 (list_elem_of_In _ _) (list_elem_of_lookup_2 _ _ _ Hx'))) end.
      bool_to_prop. done.
Qed.

Lemma slice_lookup {A} f k (es : list A) i x : drop f (take k es) !! i = Some x ->
  es !! (f + i)%nat = Some x /\ (f + i < k)%nat.
Proof. rewrite lookup_drop. intros Hl. by apply lookup_take_Some in Hl. Qed.

Lemma chain_edges_slice es f k : chain_edges es -> chain_edges (drop f (take k es)).
Proof.
  intros [Hedge Hlinked Hfresh]. split.
  - intros e [i Hi]%list_elem_of_lookup. apply slice_lookup in Hi as [Hi _].
    by eapply Hedge, list_elem_of_lookup_2.
  - intros i e e' [Hi _]%slice_lookup [Hi' _]%slice_lookup. rewrite Nat.add_succ_r in Hi'.
    by eapply Hlinked.
  - intros j i e e' Hji [Hj _]%slice_lookup [Hi _]%slice_lookup. eapply Hfresh; [|done|done]. lia.
Qed.

Lemma chain_source_valid first es : chain_edges es -> es <> [] ->
  region_source_valid (Some (chain_source first es)) = true <->
  ve_operator_kind first = TURBO_AGENT_CFLOW_REGION_OPERATOR_MAP.
Proof.
  intros [Hedge _ _] Hne. unfold region_source_valid. cbn [chain_source rsrc_struct_size rsrc_abi_version
    rsrc_steps chain_steps imap length forallb id].
  rewrite !andb_true_iff, Nat.leb_le, length_fmap.
  assert (Hlen : (2 <= S (length es))%nat) by (destruct es; [done|cbn; lia]).
  assert (Hrest : forallb id (imap (region_step_valid ∘ S)
    ((fun e => mk_region_step sizeof_region_step TURBO_AGENT_CFLOW_REGION_STEP_ABI_VERSION
        (consumer_step_index e) (ve_operator_kind e) (ve_consumer_property e)) <$> es)) = true).
  { apply forallb_forall. intros b Hb%list_elem_of_In. apply list_elem_of_lookup in Hb as [i Hi].
    rewrite list_lookup_imap, list_lookup_fmap in Hi. destruct (es !! i) as [e|] eqn:Ee; [|done].
    injection Hi as <-. apply list_elem_of_lookup_2 in Ee.
    destruct (Hedge e Ee) as (Hk & Hp & _). unfold compose, region_step_valid. cbn. by rewrite Hk, Hp. }
  unfold region_step_valid at 1. cbn [rs_struct_size rs_abi_version operator_kind consumer_property].
  cbn. rewrite andb_true_r, Z.eqb_eq. split.
  - by intros (_ & _ & Hk & _).
  - intros Hk. split; [done|]. split; [done|]. split; [done|]. exact Hrest.
Qed.

Lemma chain_steps_nodup first rest : chain_edges (first :: rest) ->
  NoDup (dag_step_index <$> chain_steps first (first :: rest)).
Proof.
  intros [Hedge Hlinked Hfresh].
  replace (dag_step_index <$> chain_steps first (first :: rest))
    with (producer_step_index first :: (consumer_step_index <$> first :: rest))
    by (unfold chain_steps; cbn; by rewrite <- list_fmap_compose).
  apply NoDup_cons. split.
  - intros (e & E & He)%list_elem_of_fmap. apply list_elem_of_lookup in He as [i Hi].
    destruct i as [|i].
    + injection Hi as <-. destruct (Hedge first) as (_ & _ & Hne); [by left|]. done.
    + by destruct (Hfresh 0%nat (S i) first e) as [Hne _]; [lia|done|done|].
  - apply NoDup_alt. intros i j z Hi Hj. rewrite list_lookup_fmap in Hi, Hj.
    destruct ((first :: rest) !! i) as [e|] eqn:Ei; [|done].
    destruct ((first :: rest) !! j) as [e'|] eqn:Ej; [|done]. injection Hi as <-. injection Hj as Hj.
    destruct (Nat.lt_total i j) as [Hlt|[->|Hlt]]; [|done|].
    + by destruct (Hfresh i j e e' Hlt Ei Ej) as [_ Hne].
    + by destruct (Hfresh j i e' e Hlt Ej Ei) as [_ Hne].
Qed.

(** An admitted edge: its two tools and the link between them. *)
Definition edge_admitted (d : dag) (r : registry) (e : edge) (n0 : string)
    (p0 : cflow_function_projection) (n1 : string) (p1 : cflow_function_projection) : Prop :=
  turbo_agent_executable_dag_step_tool_name (Some d) (producer_step_index e) = Some n0 /\
  n0 <> EmptyString /\ region_admit_native_map r n0 = inr p0 /\
  turbo_agent_executable_dag_step_tool_name (Some d) (consumer_step_index e) = Some n1 /\
  n1 <> EmptyString /\ region_admit_native_map r n1 = inr p1 /\
  linked r plenty (Some (n0, p0)) n1 (ve_consumer_property e) p1.

Lemma admit_edge_spec (d : dag) e :
  (optimizer_admit_edge d e []).1 = TURBO_AGENT_CFLOW_REGION_OK ->
  exists r n0 p0 n1 p1, dag_approved_tools d = Some r /\ edge_admitted d r e n0 p0 n1 p1.
Proof.
  intros Hok. apply (admit_chain d (chain_source e [e]) (chain_steps e [e]) eq_refl) in Hok as (_ & _ & r & ps & Ea & Hch).
  inversion Hch as [|? s0 rest0 n0 p0 ps0 Hn0 Hne0 Ha0 _ Hch1]; subst.
  inversion Hch1 as [|? s1 rest1 n1 p1 ps1 Hn1 Hne1 Ha1 Hl1 _]; subst.
  by exists r, n0, p0, n1, p1.
Qed.

Lemma edges_chained (d : dag) r es : forall idx name p,
  turbo_agent_executable_dag_step_tool_name (Some d) idx = Some name ->
  region_admit_native_map r name = inr p ->
  (forall e, e ∈ es -> exists n0 p0 n1 p1, edge_admitted d r e n0 p0 n1 p1) ->
  (forall e, head es = Some e -> producer_step_index e = idx) ->
  (forall i e e', es !! i = Some e -> es !! S i = Some e' ->
     consumer_step_index e = producer_step_index e') ->
  forall first, exists ps, chained d r plenty (Some (name, p)) (tail (chain_steps first es)) ps.
Proof.
  induction es as [|e es IH]; intros idx name p Hn Ha Hall Hhead Hlinked first.
  { exists []. constructor. }
  destruct (Hall e) as (n0 & p0 & n1 & p1 & Hn0 & _ & Ha0 & Hn1 & Hne1 & Ha1 & Hl); [by left|].
  rewrite (Hhead e eq_refl), Hn in Hn0. injection Hn0 as <-. rewrite Ha in Ha0. injection Ha0 as <-.
  destruct (IH _ n1 p1 Hn1 Ha1) with (first := first) as [ps Hps].
  - intros x Hx. apply Hall. by right.
  - intros x Hx. symmetry. apply (Hlinked 0%nat e x); [done|]. by destruct es.
  - intros i x y Hx Hy. by apply (Hlinked (S i) x y).
  - exists (p1 :: ps). cbn. by eapply chained_cons.
Qed.

(** A run of admitted edges is admitted as a whole, and conversely. *)
Lemma run_admitted (d : dag) first rest : chain_edges (first :: rest) ->
  (forall e, e ∈ first :: rest -> (optimizer_admit_edge d e []).1 = TURBO_AGENT_CFLOW_REGION_OK) ->
  (turbo_agent_cflow_region_admit (Some d) (Some (chain_source first (first :: rest))) []).1 =
    TURBO_AGENT_CFLOW_REGION_OK.
Proof.
  intros Hchain Hall. apply (admit_chain d (chain_source first (first :: rest)) (chain_steps first (first :: rest)) eq_refl).
  split; [apply chain_source_valid; [done|done|]; apply (ce_edge _ Hchain); by left|].
  split; [by apply chain_steps_nodup|].
  destruct (admit_edge_spec d first) as (r & n0 & p0 & n1 & p1 & Ea & Hadm); [apply Hall; by left|].
  exists r. destruct Hadm as (Hn0 & Hne0 & Ha0 & _).
  destruct (edges_chained d r (first :: rest) _ n0 p0 Hn0 Ha0) with (first := first) as [ps Hps].
  - intros e He. destruct (admit_edge_spec d e (Hall e He)) as (r' & m0 & q0 & m1 & q1 & Ea' & Hadm).
    rewrite Ea in Ea'. injection Ea' as <-. by exists m0, q0, m1, q1.
  - by intros e [= <-].
  - apply (ce_linked _ Hchain).
  - exists (p0 :: ps). split; [done|]. by eapply chained_cons.
Qed.

(** ** Discovery *)

Definition admitted_at (l : list turbo_agent_cflow_region_status) (i : nat) : Prop :=
  l !! i = Some TURBO_AGENT_CFLOW_REGION_OK.

#[local] Instance admitted_at_dec l i : Decision (admitted_at l i).
Proof. unfold admitted_at. apply _. Defined.

(** A longest stretch of admitted edges. *)
Definition maximal_run (l : list turbo_agent_cflow_region_status) (run : nat * nat) : Prop :=
  (run.1 <= run.2)%nat /\ (forall k, (run.1 <= k <= run.2)%nat -> admitted_at l k) /\
  (forall k, S k = run.1 -> ~ admitted_at l k) /\ ~ admitted_at l (S run.2).

Lemma advance_spec b (l : list turbo_agent_cflow_region_status) rest : forall i,
  drop i l = rest -> (i <= length l)%nat ->
  (i <= advance b rest i <= length l)%nat /\
  (forall k, (i <= k < advance b rest i)%nat -> bool_decide (admitted_at l k) = b) /\
  ((advance b rest i < length l)%nat -> bool_decide (admitted_at l (advance b rest i)) = negb b).
Proof.
  induction rest as [|s rest IH]; intros i Hd Hi; cbn [advance].
  { apply (f_equal length) in Hd. rewrite length_drop in Hd. cbn in Hd.
    split; [lia|]. split; [intros; lia|lia]. }
  assert (Hs : l !! i = Some s) by (rewrite <- (Nat.add_0_r i), <- lookup_drop, Hd; done).
  assert (Hok : bool_decide (admitted_at l i) = bool_decide (s = TURBO_AGENT_CFLOW_REGION_OK)).
  { apply bool_decide_ext. unfold admitted_at. rewrite Hs. split; [by intros [= ->]|by intros ->]. }
  pose proof (lookup_lt_Some _ _ _ Hs) as Hlt.
  destruct (Bool.eqb _ b) eqn:E.
  - apply Bool.eqb_prop in E. assert (Hrest : drop (S i) l = rest)
      by (by rewrite <- Nat.add_1_r, <- drop_drop, Hd).
    destruct (IH (S i) Hrest) as (Hr & Hall & Hend); [lia|]. split; [lia|]. split; [|done].
    intros k Hk. destruct (decide (k = i)) as [->|]; [by rewrite Hok|]. apply Hall. lia.
  - split; [lia|]. split; [intros; lia|]. intros _. rewrite Hok.
    destruct (bool_decide (s = TURBO_AGENT_CFLOW_REGION_OK)), b; done.
Qed.

(** The region of a run: its steps, and a plan compiled from them. *)
Definition region_of (d : dag) (es : list edge) (run : nat * nat)
    (x : turbo_agent_cflow_optimizer_region) : Prop :=
  exists first rest, drop run.1 (take (S run.2) es) = first :: rest /\
    or_dag_step_indices x = dag_step_index <$> chain_steps first (first :: rest) /\
    exists o o', turbo_agent_compile_cflow_region (Some d)
      (Some (chain_source first (first :: rest))) true o = (inr (or_plan x), o').

Lemma reserve_kept (r : turbo_agent_cflow_optimizer_result (J := J) (W := W)) o :
  let r' := (optimizer_reserve_region r o).1.2 in
  regions r' = regions r /\ edge_statuses r' = edge_statuses r /\ res_dag r' = res_dag r /\
  res_enabled r' = res_enabled r.
Proof.
  unfold optimizer_reserve_region. destruct (_ <? _); [done|]. destruct (_ || _); [done|].
  by destruct (alloc o) as [[] o1].
Qed.

Lemma compile_run_ok es first last r o r' o' :
  optimizer_compile_region es first last r o = (TURBO_AGENT_CFLOW_OPTIMIZER_OK, r', o') ->
  edge_statuses r' = edge_statuses r /\ res_dag r' = res_dag r /\ res_enabled r' = res_enabled r /\
  exists x, regions r' = regions r ++ [x] /\ region_of (res_dag r) es (first, last) x.
Proof.
  unfold optimizer_compile_region. pose proof (reserve_kept r o) as Hkept.
  destruct (drop first (take (S last) es)) as [|e0 rest] eqn:Ed; [done|].
  destruct (optimizer_reserve_region r o) as [[[] r1] o1]; try done.
  cbn [fst snd] in Hkept. destruct Hkept as (Er & Es & Edag & Een).
  destruct (alloc o1) as [a o2]. destruct (alloc o2) as [b o3]. destruct (a && b); [|done]. cbn [negb].
  destruct (turbo_agent_compile_cflow_region _ _ _ o3) as [[status|plan] o4] eqn:Ec; [done|].
  intros [= <- <-]. cbn [add_region edge_statuses res_dag res_enabled regions].
  split; [done|]. split; [done|]. split; [done|].
  eexists. split; [by rewrite Er|]. exists e0, rest. rewrite Edag in Ec. cbn [fst snd].
  split; [done|]. split; [done|]. by exists o3, o4.
Qed.

Definition boundary (l : list turbo_agent_cflow_region_status) (i : nat) : Prop :=
  forall k, S k = i -> admitted_at l k -> ~ admitted_at l i.

Lemma boundary_after l i : ~ admitted_at l i -> boundary l i.
Proof. by intros Hn k _ _. Qed.

(** The stretch the two loops of a round find is the next maximal run. *)
Lemma next_run l i : (i <= length l)%nat -> boundary l i ->
  let first := advance false (drop i l) i in
  let next := advance true (drop first l) first in
  (i <= first <= length l)%nat /\
  (forall run, (length l <= first)%nat -> maximal_run l run -> (run.1 < i)%nat) /\
  ((first < length l)%nat -> (first < next <= length l)%nat /\ ~ admitted_at l next /\
     forall run, maximal_run l run /\ (i <= run.1)%nat <->
       run = (first, (next - 1)%nat) \/ maximal_run l run /\ (next <= run.1)%nat).
Proof.
  intros Hi Hb first next.
  destruct (advance_spec false l (drop i l) i eq_refl Hi) as (Hrange & Hskip & Hstop).
  destruct (advance_spec true l (drop first l) first eq_refl) as (Hrange2 & Hrun & Hend); [lia|].
  fold first in Hrange, Hskip, Hstop. fold next in Hrange2, Hrun, Hend.
  setoid_rewrite bool_decide_eq_false in Hskip. setoid_rewrite bool_decide_eq_true in Hrun.
  setoid_rewrite bool_decide_eq_true in Hstop. setoid_rewrite bool_decide_eq_false in Hend.
  split; [lia|]. split.
  { intros run Hge (Hle & Hall & _). destruct (decide (run.1 < i)%nat) as [|Hge']; [done|].
    exfalso. specialize (Hall run.1 ltac:(lia)). pose proof (lookup_lt_Some _ _ _ Hall).
    by apply (Hskip run.1); [lia|]. }
  intros Hlt. specialize (Hstop Hlt).
  assert (Hnext : (first < next)%nat).
  { destruct (decide (next = first)) as [E|]; [|lia]. rewrite E in Hend. by destruct (Hend Hlt). }
  assert (Hstopped : ~ admitted_at l next).
  { destruct (decide (next < length l)%nat) as [Hl|Hl]; [by apply Hend|]. intros Hn%lookup_lt_Some. lia. }
  split; [lia|]. split; [done|]. intros run. split.
  - intros [(Hle & Hall & Hbefore & Hafter) Hir].
    destruct (decide (next <= run.1)%nat) as [|Hlow]; [by right|left].
    assert (Hr1 : run.1 = first).
    { destruct (Nat.lt_total run.1 first) as [Hc|[Hc|Hc]]; [|done|]; exfalso.
      - apply (Hskip run.1); [lia|]. apply Hall. lia.
      - destruct run as [[|k] l2]; cbn in *; [lia|]. apply (Hbefore k); [done|]. apply Hrun. lia. }
    assert (Hr2 : run.2 = (next - 1)%nat).
    { destruct (Nat.lt_total run.2 (next - 1)) as [Hc|[Hc|Hc]]; [|done|]; exfalso.
      - apply Hafter, Hrun. lia.
      - apply Hstopped, Hall. lia. }
    destruct run; cbn in *; congruence.
  - intros [->|[Hm Hr]]; [|split; [done|lia]]. split; [|cbn; lia].
    split; [cbn; lia|]. split; [|split]; cbn.
    + intros k Hk. apply Hrun. lia.
    + intros k Hk Hadm. destruct (decide (k < i)%nat) as [Hki|Hki].
      * assert (first = i) as Hfi by lia. rewrite Hfi in Hstop, Hk. by apply (Hb k).
      * apply (Hskip k); [lia|done].
    + by replace (S (next - 1)) with next by lia.
Qed.

(** The edges from [i] on are exactly in the runs found. *)
Lemma discover_loop_spec es d l fuel : forall i r o,
  edge_statuses r = l -> res_dag r = d -> length l = length es -> (i <= length es)%nat ->
  (length es <= i + fuel)%nat -> boundary l i ->
  exists status r' o', discover_loop fuel es i r o = Some (status, r', o') /\
    (status = TURBO_AGENT_CFLOW_OPTIMIZER_OK ->
     edge_statuses r' = l /\ res_dag r' = d /\ res_enabled r' = res_enabled r /\
     exists runs found, regions r' = regions r ++ found /\ Forall2 (region_of d es) runs found /\
       StronglySorted (fun a b => (a.2 < b.1)%nat) runs /\
       forall run, run ∈ runs <-> maximal_run l run /\ (i <= run.1)%nat).
Proof.
  induction fuel as [|fuel IH]; intros i r o El Ed Hlen Hi Hfuel Hb; cbn [discover_loop]; rewrite El;
    destruct (next_run l i) as (Hrange & Hnone & Hmore); try done; try lia;
    set (first := advance false (drop i l) i) in *;
    destruct (Nat.leb_spec (length es) first) as [Hge|Hlt]; try lia.
  1,2: exists TURBO_AGENT_CFLOW_OPTIMIZER_OK, r, o; split; [done|]; intros _; repeat (split; [done|]);
       exists [], []; rewrite app_nil_r; split; [done|]; split; [constructor|]; split; [constructor|];
       intros run; split; [by intros ?%elem_of_nil|]; intros [Hm Hir];
       specialize (Hnone run ltac:(lia) Hm); lia.
  destruct Hmore as (Hnext & Hstopped & Hruns); [lia|].
  set (next := advance true (drop first l) first) in *.
  destruct (optimizer_compile_region es first (next - 1) r o) as [[status r1] o1] eqn:Ec.
  destruct status; try (do 3 eexists; split; [done|by intros [=]]).
  apply compile_run_ok in Ec as (Es1 & Ed1 & Een1 & x & Ereg & Hx). rewrite Ed in Hx, Ed1.
  destruct (IH next r1 o1) as (status & r' & o' & Hloop & Hok);
    [by rewrite Es1|done|done|lia|lia|by apply boundary_after|].
  exists status, r', o'. split; [done|]. intros Hs.
  destruct (Hok Hs) as (El' & Ed' & Een' & runs & found & Hf & Hall & Hsorted & Hin).
  split; [done|]. split; [done|]. split; [congruence|].
  exists ((first, (next - 1)%nat) :: runs), (x :: found).
  split; [by rewrite Hf, Ereg, <- app_assoc|]. split; [by constructor|].
  split; [constructor; [done|]; apply Forall_forall; intros run [_ Hr]%Hin; cbn; lia|].
  intros run. by rewrite Hruns, elem_of_cons, Hin.
Qed.

Lemma admit_edges_spec (d : dag) es : forall o l o', admit_edges d es o = (l, o') ->
  length l = length es /\
  (plenty o -> forall i e, es !! i = Some e -> l !! i = Some (optimizer_admit_edge d e []).1).
Proof.
  induction es as [|e es IH]; intros o l o'; cbn [admit_edges].
  { by intros [= <- _]. }
  destruct (steady_admit (Some d) (Some (chain_source e [e]))) as [s Hs].
  destruct (optimizer_admit_edge d e o) as [s' o1] eqn:E.
  destruct (admit_edges d es o1) as [l' o2] eqn:El. intros [= <- _].
  destruct (IH _ _ _ El) as [Hlen Hall]. split; [cbn; congruence|]. intros Hp.
  unfold optimizer_admit_edge in *. destruct (Hs o Hp) as (o3 & Hp3 & E3).
  rewrite E3 in E. injection E as <- <-.
  intros [|i] x Hx; [|by apply Hall]. injection Hx as <-. cbn.
  by destruct (Hs [] plenty_nil) as (o4 & _ & ->).
Qed.

(** C32. Discovery always answers, with a result exactly when the status is OK.  When it
    is enabled and memory suffices, the status of each edge is its own admission,
    and the regions are, in order, exactly the maximal runs of admitted edges:
    each with its steps and a plan compiled from them, and each run is admitted as
    a whole.  Disabled, it admits and compiles nothing. *)
Theorem discovery_partitions (d : dag) (source : turbo_agent_cflow_composition_source)
    (options : turbo_agent_cflow_optimizer_options) (es : list edge) (o : oracle) :
  optimizer_source_valid (Some d) (Some source) = true -> cs_edges source = Some es ->
  optimizer_options_valid (Some options) = true -> plenty o ->
  exists status out o',
    turbo_agent_cflow_optimizer_discover (Some d) (Some source) (Some options) true o =
      Some (status, out, o') /\
    (status = TURBO_AGENT_CFLOW_OPTIMIZER_OK <-> is_Some out) /\
    forall r, out = Some r ->
      turbo_agent_cflow_optimizer_enabled (Some r) = oo_enabled options /\
      (oo_enabled options = 0 -> regions r = [] /\
         forall i, turbo_agent_cflow_optimizer_edge_status (Some r) i =
                     TURBO_AGENT_CFLOW_REGION_INVALID_ARGUMENT) /\
      (oo_enabled options <> 0 ->
         length (edge_statuses r) = length es /\
         (forall i e, es !! i = Some e ->
            edge_statuses r !! i = Some (optimizer_admit_edge d e []).1) /\
         exists runs, Forall2 (region_of d es) runs (regions r) /\
           StronglySorted (fun a b => (a.2 < b.1)%nat) runs /\
           (forall run, run ∈ runs <-> maximal_run (edge_statuses r) run) /\
           forall run first rest, run ∈ runs -> drop run.1 (take (S run.2) es) = first :: rest ->
             (turbo_agent_cflow_region_admit (Some d) (Some (chain_source first (first :: rest))) []).1 =
               TURBO_AGENT_CFLOW_REGION_OK).
Proof.
  intros Hsv Es Hov Hp. unfold turbo_agent_cflow_optimizer_discover. cbn [mbind option_bind].
  rewrite Es, Hov, Hsv. cbn [andb negb].
  destruct (alloc_plenty o Hp) as (o1 & Hp1 & ->). cbn [negb].
  assert (Hinit : exists l o2, initial_statuses es o1 = (Some l, o2) /\ plenty o2).
  { unfold initial_statuses. destruct es as [|e es']; [by exists [], o1|].
    destruct (alloc_plenty o1 Hp1) as (o2 & Hp2 & ->). by do 2 eexists. }
  destruct Hinit as (l0 & o2 & -> & Hp2). destruct (Z.eqb_spec (oo_enabled options) 0) as [E0|Hn].
  { do 3 eexists. split; [done|]. split; [done|]. intros r [= <-]. split; [done|].
    split; [|done]. intros _. split; [done|]. intros i. cbn. by rewrite E0. }
  destruct (admit_edges d es o2) as [l o3] eqn:Eadm. destruct (admit_edges_spec _ _ _ _ _ Eadm) as [Hlen Hall].
  specialize (Hall Hp2).
  destruct (discover_loop_spec es d l (length es) 0 (mk_optimizer_result d (oo_enabled options) l [] 0) o3)
    as (status & r' & o' & -> & Hok); [done..|lia|lia| |].
  { by intros k Hk. }
  destruct (decide (status = TURBO_AGENT_CFLOW_OPTIMIZER_OK)) as [->|Hne]; cycle 1.
  { exists status, None, o'. split; [by destruct status|].
    split; [split; [done|by intros [? ?]]|done]. }
  exists TURBO_AGENT_CFLOW_OPTIMIZER_OK, (Some r'), o'. split; [done|]. split; [done|].
  intros r [= <-]. destruct (Hok eq_refl) as (El & _ & Een & runs & found & Hf & Hreg & Hsorted & Hin).
  cbn in Hf, Een. split; [cbn; by rewrite Een|]. split; [done|]. intros _. rewrite El.
  split; [done|]. split; [done|]. exists runs. rewrite Hf. split; [done|]. split; [done|].
  split; [intros run; rewrite Hin; intuition lia|].
  intros run first rest Hrun Hslice. apply Hin in Hrun as [(_ & Hadm & _) _].
  assert (Hchain : chain_edges es).
  { unfold optimizer_source_valid in Hsv. rewrite Es in Hsv. bool_to_prop.
    eapply (edges_valid_chain _ es []); [|done].
    split; [by intros e He%elem_of_nil|done|done]. }
  apply run_admitted; rewrite <- Hslice; [by apply chain_edges_slice|].
  intros e [i Hi]%list_elem_of_lookup. apply slice_lookup in Hi as [Hi Hik].
  specialize (Hadm (run.1 + i)%nat ltac:(lia)). unfold admitted_at in Hadm.
  rewrite (Hall _ _ Hi) in Hadm. by injection Hadm.
Qed.

End region.

(** ** Concrete regions *)

Module CflowRuns.
Import JsonTree CmetaToy.

#[local] Open Scope string_scope.

(** A CFlow whose plans are their functions; types are their kinds. *)
#[export] Instance toy_cflow : Cflow := {
  cmeta_type_desc_valid _ := true;
  type_size _ := 8;
  type_kind := Z.of_nat;
  CMETA_T_BOOL := 1;
  CMETA_T_INTEGER := 2;
  CMETA_T_FLOAT := 3;
  CMETA_RESULT_VALUE := 0;
  CMETA_PARAM_IN := 0;
  cflow_function_projection := toy_function;
  cflow_function_projection_admit f _ _ := Some f;
  input_type f := default 0%nat (fst <$> head (toy_params f));
  output_type := toy_return;
  cflow_graph := list toy_function;
  cflow_graph_init _ o := ([], o);
  graph_error _ := false;
  cflow_graph_add_function_projection g f o := (Some (g ++ [f])%list, o);
  cflow_plan := list toy_function;
  cflow_plan_compile_surface g o := (Some g, o);
  cflow_value := Z;
  cflow_plan_eval_array _ inputs o := (Some inputs, o)
}.

Abbreviation toy_registry := (turbo_tool_registry (J := jtree) (W := unit)).

Definition integer : jtree := JObj [("type", JStr "integer")].

(** A pure tool from the integer [n] to an integer. *)
Definition tool (name : string) : turbo_tool_definition_v6 jtree unit :=
  mk_definition_v6 sizeof_definition_v6 6
    (mk_definition (Some name) (Some "a tool") None
       (Some (JObj [("properties", JObj [("n", integer)])])) 0
       (Some (fun arguments w => (0, Some arguments, w))) None None)
    (mk_policy TURBO_TOOL_EXECUTION_PARALLEL_SAFE TURBO_TOOL_IDEMPOTENCY_READ_ONLY)
    (Some []) None None (Some (json_serialize integer)) 0 TURBO_TOOL_EFFECT_PURE.

Definition step_function : toy_function := mk_toy [(2%nat, 0)] 2 0 0.

Definition native : turbo_tool_native_projection :=
  mk_projection 40 TURBO_TOOL_NATIVE_PROJECTION_ABI_VERSION step_function step_function step_function.

(** Three tools, of which [log] has no native function. *)
Definition ops : list (registry_op (J := jtree) (W := unit)) :=
  [OpAdd6 (Some (tool "inc")); OpPublish (Some "inc") (Some native);
   OpAdd6 (Some (tool "double")); OpPublish (Some "double") (Some native);
   OpAdd6 (Some (tool "log"))].

Definition apply_op (r : toy_registry) (op : registry_op) : toy_registry :=
  default r (registry_exec 40 op (Some r) [] tt).1.2.

Definition tools : toy_registry := foldl apply_op (mk_registry [] 0) ops.

Lemma built_ops l : forall r, built_registry 40 r -> built_registry 40 (foldl apply_op r l).
Proof.
  induction l as [|op l IH]; intros r Hr; [done|]. apply IH.
  unfold apply_op. destruct (registry_exec_sound 40 op r [] tt) as (r' & E & _).
  destruct (registry_exec 40 op (Some r) [] tt) as [[status out] w'] eqn:Eexec. cbn in E. subst out.
  by eapply built_step.
Qed.

Lemma region_tools_wf : registry_wf 40 tools.
Proof. apply built_registry_wf, built_ops. constructor. Qed.

Definition config : turbo_agent_compiler_config :=
  mk_config sizeof_compiler_config TURBO_AGENT_COMPILER_CONFIG_ABI_VERSION
    (Some []) 0 1000 1000 100 8.

Definition source_step (id tool : string) : turbo_agent_dag_step_source (J := jtree) :=
  mk_step_source sizeof_dag_step_source TURBO_AGENT_DAG_STEP_ABI_VERSION (Some id) (Some tool)
    (Some (JObj [])) (Some []) 0 0.

Definition source : turbo_agent_dag_source :=
  mk_dag_source sizeof_dag_source TURBO_AGENT_DAG_SOURCE_ABI_VERSION
    (Some [source_step "a" "inc"; source_step "b" "double"; source_step "c" "log";
           source_step "d" "inc"; source_step "e" "double"]) 0 0 0.

Definition plan : turbo_agent_executable_dag (J := jtree) (W := unit) :=
  match turbo_agent_compile_dag 40 8 (Some config) (Some tools) (Some source) true [] with
  | Some (inr p, _) => p
  | _ => mk_dag [] 0 0 0 None [] 0 0
  end.

Lemma region_plan_compiled :
  turbo_agent_compile_dag 40 8 (Some config) (Some tools) (Some source) true [] = Some (inr plan, []).
Proof. vm_compute. reflexivity. Qed.

Definition value_edge (producer consumer : Z) : turbo_agent_cflow_value_edge :=
  mk_value_edge sizeof_value_edge TURBO_AGENT_CFLOW_VALUE_EDGE_ABI_VERSION producer consumer
    TURBO_AGENT_CFLOW_REGION_OPERATOR_MAP (Some "n").

Definition chain_of_steps : list turbo_agent_cflow_value_edge :=
  [value_edge 0 1; value_edge 1 2; value_edge 2 3; value_edge 3 4].

Definition composition : turbo_agent_cflow_composition_source :=
  mk_composition_source sizeof_composition_source TURBO_AGENT_CFLOW_COMPOSITION_ABI_VERSION
    (Some chain_of_steps).

Definition options : turbo_agent_cflow_optimizer_options := turbo_agent_cflow_optimizer_options_init.

(** The tool without a native function cuts the chain into two regions. *)
Example two_regions :
  match turbo_agent_cflow_optimizer_discover (Some plan) (Some composition) (Some options) true [] with
  | Some (TURBO_AGENT_CFLOW_OPTIMIZER_OK, Some r, _) =>
      edge_statuses r = [TURBO_AGENT_CFLOW_REGION_OK;
        TURBO_AGENT_CFLOW_REGION_NATIVE_PROJECTION_BARRIER;
        TURBO_AGENT_CFLOW_REGION_NATIVE_PROJECTION_BARRIER; TURBO_AGENT_CFLOW_REGION_OK] /\
      or_dag_step_indices <$> regions r = [[0; 1]; [3; 4]]
  | _ => False
  end.
Proof. vm_compute. split; reflexivity. Qed.

Definition pair : turbo_agent_cflow_region_source := chain_source (value_edge 0 1) [value_edge 0 1].

Definition region : turbo_agent_cflow_region_plan :=
  mk_region_plan [step_function; step_function] 2%nat 2%nat 2.

Lemma region_compiled :
  turbo_agent_compile_cflow_region (Some plan) (Some pair) true [] = (inr region, []).
Proof. vm_compute. reflexivity. Qed.

Lemma compiled_region_sound_witness :
  registry_wf 40 tools /\
  exists (approved : toy_registry) name e e' n p,
    turbo_agent_executable_dag_step_tool_name (Some plan) 0 = Some name /\
    found (Some tools) (Some name) = Some e /\ native_step approved name e' n p.
Proof.
  split; [exact region_tools_wf|].
  destruct (compiled_region_sound 40 8 config tools source plan [] [] pair true [] [] region
    region_tools_wf region_plan_compiled region_compiled)
    as (approved & steps & ps & Es & Hlen & _ & _ & _ & _ & Hall).
  injection Es as <-. destruct ps as [|p ps]; [discriminate Hlen|].
  destruct (Hall 0%nat _ p eq_refl eq_refl) as (name & e & e' & n & Hn & Hf & _ & Hns & _).
  exists approved, name, e, e', n, p. exact (conj Hn (conj Hf Hns)).
Defined.

Lemma discovery_partitions_witness :
  exists status r o',
    turbo_agent_cflow_optimizer_discover (Some plan) (Some composition) (Some options) true [] =
      Some (status, Some r, o') /\
    exists runs, Forall2 (region_of plan chain_of_steps) runs (regions r) /\
      forall run, run ∈ runs <-> maximal_run (edge_statuses r) run.
Proof.
  destruct (discovery_partitions plan composition options chain_of_steps [])
    as (status & out & o' & E & Hout & Hr);
    [vm_compute; reflexivity|reflexivity|vm_compute; reflexivity|exact plenty_nil|].
  assert (Hs : status = TURBO_AGENT_CFLOW_OPTIMIZER_OK).
  { assert (Hc : (fun x => x.1.1) <$>
      turbo_agent_cflow_optimizer_discover (Some plan) (Some composition) (Some options) true [] =
        Some TURBO_AGENT_CFLOW_OPTIMIZER_OK) by (vm_compute; reflexivity).
    rewrite E in Hc. injection Hc as Hc. exact Hc. }
  destruct (proj1 Hout Hs) as [r ->]. exists status, r, o'. split; [exact E|].
  destruct (Hr r eq_refl) as (_ & _ & Hen).
  destruct (Hen ltac:(discriminate)) as (_ & _ & runs & Hregs & _ & Hruns & _).
  exists runs. exact (conj Hregs Hruns).
Defined.

End CflowRuns.
