(* ===== verification/Resilience.v ===== *)
(** * Model calls with retry (src/agent/src/turbo_agent_resilience.c)

    The retry policy, the backoff delay, the attempt records, the transport
    loop of one model call, and the usage records.

    The transports, the platform clock and sleep are parameters over a world
    [W]; the cancellation token is the interface of CancelToken.v.  A run also
    returns two ghost lists: the world in front of each transport call with the
    answer it got, and each scheduled wait with the time elapsed before it. *)

From S2P Require Import Prelude RuntimeJson JsonBuild RuntimeControl CancelToken.
Import Control.

(* src/agent/include/turbo_agent_resilience.h 15-15 TURBO_AGENT_RETRY_POLICY_ABI_VERSION *)
Definition TURBO_AGENT_RETRY_POLICY_ABI_VERSION : Z := 1.
(* src/agent/include/turbo_agent_resilience.h 16-16 TURBO_AGENT_TRANSPORT_V2_ABI_VERSION *)
Definition TURBO_AGENT_TRANSPORT_V2_ABI_VERSION : Z := 1.
(* src/agent/src/turbo_agent_resilience.c 23-23 TURBO_AGENT_USAGE_MAX_EXACT_INTEGER *)
Definition TURBO_AGENT_USAGE_MAX_EXACT_INTEGER : Z := 9007199254740991.

(** [sizeof] of the two structures: one [size_t] and nine 32-bit fields; one
    [size_t], five 32-bit fields and two pointers. *)
Definition sizeof_retry_policy : Z := 48.
Definition sizeof_transport_response : Z := 48.

(* src/agent/include/turbo_agent_resilience.h 18-29 turbo_agent_retry_policy_t *)
Record turbo_agent_retry_policy := mk_policy {
  rp_struct_size : Z;
  rp_abi_version : Z;
  max_attempts : Z;
  base_delay_ms : Z;
  max_delay_ms : Z;
  max_elapsed_ms : Z;
  request_timeout_ms : Z;
  connect_timeout_ms : Z;
  jitter_percent : Z;
  honor_retry_after : bool
}.

(* src/agent/include/turbo_agent_resilience.h 31-41 turbo_agent_transport_response_t *)
Record turbo_agent_transport_response := mk_response {
  tr_struct_size : Z;
  tr_abi_version : Z;
  transport_status : Z;
  http_status : Z;
  retry_after_ms : Z;
  retryable : bool;
  provider_request_id : option string;
  body : option string
}.

(* src/agent/src/turbo_agent_resilience.c 170-171 turbo_agent_resilient_transport *)
Definition initial_response : turbo_agent_transport_response :=
  mk_response sizeof_transport_response TURBO_AGENT_TRANSPORT_V2_ABI_VERSION 0 0 0 false None None.

(** ** The policy *)

(* src/agent/src/turbo_agent_resilience.c 25-36 turbo_agent_retry_policy_init *)
Definition turbo_agent_retry_policy_init : turbo_agent_retry_policy :=
  mk_policy sizeof_retry_policy TURBO_AGENT_RETRY_POLICY_ABI_VERSION
    1 250 8000 30000 30000 10000 0 false.

(* src/agent/src/turbo_agent_resilience.c 38-44 turbo_agent_retry_policy_valid *)
Definition turbo_agent_retry_policy_valid (policy : option turbo_agent_retry_policy) : bool :=
  match policy with
  | None => false
  | Some p =>
      (sizeof_retry_policy <=? rp_struct_size p)
      && (rp_abi_version p =? TURBO_AGENT_RETRY_POLICY_ABI_VERSION)
      && (0 <? max_attempts p) && (0 <? base_delay_ms p)
      && (base_delay_ms p <=? max_delay_ms p) && (0 <? max_elapsed_ms p)
      && (0 <? request_timeout_ms p) && (0 <? connect_timeout_ms p)
      && (jitter_percent p <=? 100)
  end.

(** The [unsigned int] fields are in their range. *)
Definition policy_in_range (p : turbo_agent_retry_policy) : Prop :=
  0 <= max_attempts p <= UINT_MAX /\ 0 <= base_delay_ms p <= UINT_MAX /\
  0 <= max_delay_ms p <= UINT_MAX /\ 0 <= max_elapsed_ms p <= UINT_MAX /\
  0 <= jitter_percent p <= UINT_MAX.

(** ** The delay *)

(** [while (shift-- > 0 && delay < max_delay_ms)] *)
(* src/agent/src/turbo_agent_resilience.c 69-71 turbo_agent_retry_delay *)
Fixpoint backoff_loop (shift : nat) (delay max_delay : Z) : Z :=
  match shift with
  | O => delay
  | S shift =>
      if delay <? max_delay
      then backoff_loop shift
             (if UINT64_MAX / 2 <? delay then UINT64_MAX else u64 (delay * 2)) max_delay
      else delay
  end.

(** The jitter: a fixed pseudo-random offset per attempt. *)
(* src/agent/src/turbo_agent_resilience.c 75-81 turbo_agent_retry_delay *)
Definition jittered (delay percent completed_attempts : Z) : Z :=
  if 0 <? percent then
    let span := u64 (delay * percent) / 100 in
    let seed := u64 (u64 (completed_attempts * 1103515245) + 12345) in
    let width := if (UINT64_MAX - 1) / 2 <? span then UINT64_MAX else u64 (span * 2 + 1) in
    let offset := if width =? 0 then 0 else seed mod width - span in
    if (offset <? 0) && (delay <? - offset) then 0 else u64 (delay + offset)
  else delay.

(* src/agent/src/turbo_agent_resilience.c 64-83 turbo_agent_retry_delay *)
Definition turbo_agent_retry_delay (policy : turbo_agent_retry_policy)
    (completed_attempts retry_after : Z) : Z :=
  let shift := if 1 <? completed_attempts then completed_attempts - 1 else 0 in
  let delay := backoff_loop (Z.to_nat shift) (base_delay_ms policy) (max_delay_ms policy) in
  let delay := if max_delay_ms policy <? delay then max_delay_ms policy else delay in
  let delay := if honor_retry_after policy && (delay <? retry_after)
                  && (retry_after <=? max_delay_ms policy)
               then retry_after else delay in
  let delay := jittered delay (jitter_percent policy) completed_attempts in
  if UINT_MAX <? delay then UINT_MAX else delay.

(** ** Attempt records *)

Section records.
Context {J : Type} `{JsonSetters J}.

(* src/agent/src/turbo_agent_resilience.c 114-127 turbo_agent_attempt_append *)
Definition attempt_setters (attempt : Z) (response : turbo_agent_transport_response)
    (outcome : string) (delay_ms started_ms finished_ms : Z) : list (setter J) :=
  [ (fun obj o => turbo_runtime_json_object_set obj (Some "retryable")
                    (Some (json_create_bool (retryable response))) o);
    set_int64 "schema_version" 1;
    set_int64 "attempt" attempt;
    set_int64 "transport_status" (transport_status response);
    set_int64 "http_status" (http_status response);
    set_int64 "delay_ms" delay_ms;
    set_int64 "started_mono_ms" started_ms;
    set_int64 "finished_mono_ms" finished_ms;
    set_string "outcome" (Some outcome) ]
  ++ match provider_request_id response with
     | Some id => [set_string "provider_request_id" (Some id)]
     | None => []
     end.

(** The array is new or the one the state holds; an append to the latter
    changes the state's member in place.  The result: status, state, oracle. *)
(* src/agent/src/turbo_agent_resilience.c 95-139 turbo_agent_attempt_append *)
Definition turbo_agent_attempt_append (state : option J) (attempt : Z)
    (response : turbo_agent_transport_response) (outcome : string)
    (delay_ms started_ms finished_ms : Z) (o : oracle) : salts_status * option J * oracle :=
  match state with
  | None => (SALTS_OK, state, o)
  | Some st =>
      if negb (bool_decide (json_type st = JSON_OBJECT)) then (SALTS_EPROTO, state, o)
      else if (INT64_MAX <? started_ms) || (INT64_MAX <? finished_ms)
      then (SALTS_ERANGE, state, o)
      else
        let held := json_object_get st "provider_attempts" in
        let '(attempts, o) :=
          match held with
          | Some a => (Some a, o)
          | None => let (ok, o) := alloc o in (if ok then Some json_create_array else None, o)
          end in
        match attempts with
        | None => (SALTS_ENOMEM, state, o)
        | Some attempts =>
            if negb (bool_decide (json_type attempts = JSON_ARRAY))
            then (SALTS_EPROTO, state, o)
            else
              let (have_record, o) := alloc o in
              let (have_retryable, o) := alloc o in
              if negb have_record || negb have_retryable then (SALTS_ENOMEM, state, o)
              else
                match set_all (attempt_setters attempt response outcome delay_ms
                                 started_ms finished_ms) (Some json_create_object) o with
                | (false, _, o) => (SALTS_ENOMEM, state, o)
                | (true, record, o) =>
                    match turbo_runtime_json_array_append (Some attempts) record o with
                    | (TURBO_RUNTIME_JSON_OK, Some attempts, o) =>
                        match held with
                        | Some _ =>
                            (SALTS_OK, Some (update_member st "provider_attempts" attempts), o)
                        | None =>
                            match turbo_runtime_json_object_set (Some st)
                                    (Some "provider_attempts") (Some attempts) o with
                            | (TURBO_RUNTIME_JSON_OK, st, o) => (SALTS_OK, st, o)
                            | (_, st, o) => (SALTS_ENOMEM, st, o)
                            end
                        end
                    | (_, _, o) => (SALTS_ENOMEM, state, o)
                    end
                end
        end
  end.

End records.

(** ** The call *)

(** A transport status as the function's own status. *)
Definition status_of_int (n : Z) : salts_status := if n =? 0 then SALTS_OK else SALTS_OTHER n.

Section transport.
Context {J : Type} `{JsonSetters J}.
Context {W : Type} `{CancelToken W}.
Context (cmeta_monotonic_ms : W -> Z * W) (cmeta_sleep_ms : Z -> W -> W).

(** A v2 transport sees the request, whether it has a token, the two timeouts
    and the response to fill. *)
Definition transport_v2_fn : Type :=
  string -> bool -> Z -> Z -> turbo_agent_transport_response -> W ->
  Z * turbo_agent_transport_response * W.

(** The v1 transport, and whether it is the library's own HTTP transport. *)
Inductive transport_v1 : Type :=
| TransportHttp (metadata : string -> W -> Z * turbo_agent_transport_response * W)
| TransportFn (fn : string -> W -> Z * option string * W).

(** The fields of the agent a model call reads. *)
(* src/agent/src/turbo_agent_core_internal.h 65-70 turbo_agent_s *)
Record turbo_agent := mk_agent {
  transport_fn : transport_v1;
  transport_v2 : option transport_v2_fn;
  retry_policy : turbo_agent_retry_policy;
  last_provider_request_id : option string;
  agent_model : string;
  provider_name : string  (** of the provider every created agent has *)
}.

(* src/agent/src/turbo_agent_runtime.c 43-45 turbo_agent_provider_name *)
Definition turbo_agent_provider_name (a : turbo_agent) : string := provider_name a.

Definition set_last_id (id : option string) (a : turbo_agent) : turbo_agent :=
  mk_agent (transport_fn a) (transport_v2 a) (retry_policy a) id (agent_model a)
    (provider_name a).

(* src/agent/src/turbo_agent_resilience.c 46-50 turbo_agent_retry_configure *)
Definition turbo_agent_retry_configure (agent : option turbo_agent)
    (policy : option turbo_agent_retry_policy) : salts_status * option turbo_agent :=
  match agent, policy with
  | Some a, Some p =>
      if turbo_agent_retry_policy_valid policy
      then (SALTS_OK, Some (mk_agent (transport_fn a) (transport_v2 a) p
                              (last_provider_request_id a) (agent_model a)
                              (provider_name a)))
      else (SALTS_EINVAL, agent)
  | _, _ => (SALTS_EINVAL, agent)
  end.

(** The replaced transport's user data is released by its own callback. *)
(* src/agent/src/turbo_agent_resilience.c 52-62 turbo_agent_transport_v2_set *)
Definition turbo_agent_transport_v2_set (agent : option turbo_agent)
    (transport : option transport_v2_fn) : salts_status * option turbo_agent :=
  match agent, transport with
  | Some a, Some t =>
      (SALTS_OK, Some (mk_agent (transport_fn a) (Some t) (retry_policy a)
                         (last_provider_request_id a) (agent_model a)
                         (provider_name a)))
  | _, _ => (SALTS_EINVAL, agent)
  end.

(** What a call threads: the state document, the allocation oracle, the world,
    and the ghost lists. *)
Record call_env := mk_env {
  ce_state : option J;
  ce_oracle : oracle;
  ce_world : W;
  ce_calls : list (W * (Z * turbo_agent_transport_response));
  ce_waits : list (Z * Z)
}.

Definition set_world (w : W) (e : call_env) : call_env :=
  mk_env (ce_state e) (ce_oracle e) w (ce_calls e) (ce_waits e).
Definition add_call (w : W) (answer : Z * turbo_agent_transport_response) (e : call_env)
  : call_env := mk_env (ce_state e) (ce_oracle e) (ce_world e) (ce_calls e ++ [(w, answer)]) (ce_waits e).
Definition add_wait (elapsed delay : Z) (e : call_env) : call_env :=
  mk_env (ce_state e) (ce_oracle e) (ce_world e) (ce_calls e) (ce_waits e ++ [(elapsed, delay)]).

Definition record_attempt (attempt : Z) (response : turbo_agent_transport_response)
    (outcome : string) (delay_ms started_ms finished_ms : Z) (e : call_env)
  : salts_status * call_env :=
  let '(rc, st, o) := turbo_agent_attempt_append (ce_state e) attempt response outcome
                        delay_ms started_ms finished_ms (ce_oracle e) in
  (rc, mk_env st o (ce_world e) (ce_calls e) (ce_waits e)).

(* src/agent/src/turbo_agent_resilience.c 85-93 turbo_agent_retry_wait *)
Definition turbo_agent_retry_wait (has_token : bool) (delay_ms : Z) (w : W) : salts_status * W :=
  if negb has_token then (SALTS_OK, cmeta_sleep_ms delay_ms w)
  else
    let (status, w) := token_wait delay_ms w in
    match status with
    | TURBO_CANCEL_WAIT_SIGNALED => token_check w
    | _ => (SALTS_OK, w)
    end.

(** One iteration returns from the call ([inl]: status, output, identifier of
    the accepted answer) or asks for the next one. *)
Definition call_result : Type := salts_status * option string * option string.

(* src/agent/src/turbo_agent_resilience.c 187-203 turbo_agent_resilient_transport *)
Definition accept_response (attempt : Z) (response : turbo_agent_transport_response)
    (started_ms finished_ms : Z) (e : call_env) : call_result * call_env :=
  let (rc, e) := record_attempt attempt response "succeeded" 0 started_ms finished_ms e in
  if bool_decide (rc = SALTS_OK) then
    match provider_request_id response with
    | None => ((SALTS_OK, body response, None), e)
    | Some id =>
        let (ok, o) := alloc (ce_oracle e) in
        let e := mk_env (ce_state e) o (ce_world e) (ce_calls e) (ce_waits e) in
        if ok then ((SALTS_OK, body response, Some id), e)
        else ((SALTS_ENOMEM, None, None), e)
    end
  else ((SALTS_EIO, None, None), e).

(* src/agent/src/turbo_agent_resilience.c 204-210 turbo_agent_resilient_transport *)
Definition failure_status (invoke_rc : Z) (response : turbo_agent_transport_response)
  : salts_status :=
  if negb (transport_status response =? 0) then status_of_int (transport_status response)
  else if negb (invoke_rc =? 0) then status_of_int invoke_rc else SALTS_EIO.

(** A retry is scheduled only when the wait fits into the elapsed limit. *)
(* src/agent/src/turbo_agent_resilience.c 211-227 turbo_agent_resilient_transport *)
Definition schedule_retry (policy : turbo_agent_retry_policy) (has_token : bool)
    (execution_start attempt : Z) (response : turbo_agent_transport_response)
    (started_ms finished_ms : Z) (e : call_env) : option call_result * call_env :=
  let delay_ms := turbo_agent_retry_delay policy attempt (retry_after_ms response) in
  let elapsed := u64 (finished_ms - execution_start) in
  if (max_elapsed_ms policy <? elapsed) || (u64 (max_elapsed_ms policy - elapsed) <? delay_ms)
  then
    let (_, e) := record_attempt attempt response "elapsed_limit" 0 started_ms finished_ms e in
    (Some (SALTS_ETIMEDOUT, body response, None), e)
  else
    let (rc, e) := record_attempt attempt response "retry_scheduled" delay_ms
                     started_ms finished_ms e in
    if negb (bool_decide (rc = SALTS_OK)) then (Some (SALTS_EIO, None, None), e)
    else
      let (rc, w) := turbo_agent_retry_wait has_token delay_ms (ce_world e) in
      let e := add_wait elapsed delay_ms (set_world w e) in
      if bool_decide (rc = SALTS_OK) then (None, e)
      else if has_token
      then let (rc, w) := token_check (ce_world e) in (Some (rc, None, None), set_world w e)
      else (Some (SALTS_ECANCELED, None, None), e).

(** Cancellation is checked before the transport is called; the status comes
    from a second check. *)
(* src/agent/src/turbo_agent_resilience.c 176-177 turbo_agent_resilient_transport *)
Definition check_before (has_token : bool) (w : W) : option salts_status * W :=
  if negb has_token then (None, w)
  else
    let (rc, w) := token_check w in
    if bool_decide (rc = SALTS_OK) then (None, w)
    else let (rc, w) := token_check w in (Some rc, w).

(* src/agent/src/turbo_agent_resilience.c 169-228 turbo_agent_resilient_transport *)
Definition run_attempt (policy : turbo_agent_retry_policy) (transport : transport_v2_fn)
    (request_json : string) (has_token : bool) (execution_start attempt : Z) (e : call_env)
  : option call_result * call_env :=
  let (started_ms, w) := cmeta_monotonic_ms (ce_world e) in
  let (cancelled, w) := check_before has_token w in
  match cancelled with
  | Some rc => (Some (rc, None, None), set_world w e)
  | None =>
      let '(invoke_rc, response, w') :=
        transport request_json has_token (request_timeout_ms policy) (connect_timeout_ms policy)
          initial_response w in
      let (finished_ms, w') := cmeta_monotonic_ms w' in
      let e := add_call w (invoke_rc, response) (set_world w' e) in
      if (tr_struct_size response <? sizeof_transport_response)
         || negb (tr_abi_version response =? TURBO_AGENT_TRANSPORT_V2_ABI_VERSION)
      then (Some (SALTS_EPROTO, None, None), e)
      else if (invoke_rc =? 0) && (transport_status response =? 0)
              && bool_decide (is_Some (body response))
      then let (r, e) := accept_response attempt response started_ms finished_ms e in (Some r, e)
      else if negb (retryable response) || (attempt =? max_attempts policy)
      then
        let (_, e) := record_attempt attempt response "failed" 0 started_ms finished_ms e in
        (Some (failure_status invoke_rc response, body response, None), e)
      else schedule_retry policy has_token execution_start attempt response
             started_ms finished_ms e
  end.

(** [None]: out of fuel. *)
(* src/agent/src/turbo_agent_resilience.c 169-229 turbo_agent_resilient_transport *)
Fixpoint attempt_loop (fuel : nat) (policy : turbo_agent_retry_policy)
    (transport : transport_v2_fn) (request_json : string) (has_token : bool)
    (execution_start attempt : Z) (e : call_env) : option (call_result * call_env) :=
  if max_attempts policy <? attempt then Some ((SALTS_EIO, None, None), e)
  else
    match fuel with
    | O => None
    | S fuel =>
        match run_attempt policy transport request_json has_token execution_start attempt e with
        | (Some r, e) => Some (r, e)
        | (None, e) =>
            attempt_loop fuel policy transport request_json has_token execution_start
              (u32 (attempt + 1)) e
        end
    end.

(* src/agent/src/turbo_agent_resilience.c 150-166 turbo_agent_resilient_transport *)
Definition transport_v1_call (fn : transport_v1) (request_json : string) (e : call_env)
  : salts_status * option string * call_env :=
  match fn with
  | TransportHttp metadata =>
      let (started_ms, w) := cmeta_monotonic_ms (ce_world e) in
      let '(rc, response, w) := metadata request_json w in
      let (finished_ms, w) := cmeta_monotonic_ms w in
      let (record_rc, e) := record_attempt 1 response (if rc =? 0 then "succeeded" else "failed")
                              0 started_ms finished_ms (set_world w e) in
      if bool_decide (record_rc = SALTS_OK) then (status_of_int rc, body response, e)
      else (record_rc, None, e)
  | TransportFn fn =>
      let '(rc, out, w) := fn request_json (ce_world e) in
      (status_of_int rc, out, set_world w e)
  end.

(** The result: status, output, agent, environment. *)
(* src/agent/src/turbo_agent_resilience.c 141-230 turbo_agent_resilient_transport *)
Definition turbo_agent_resilient_transport (fuel : nat) (agent : option turbo_agent)
    (request_json : option string) (out_response_json : bool) (has_token : bool) (e : call_env)
  : option (salts_status * option string * option turbo_agent * call_env) :=
  match agent, request_json with
  | Some a, Some request =>
      if negb out_response_json then Some (SALTS_EINVAL, None, agent, e)
      else
        let a := set_last_id None a in
        match transport_v2 a with
        | None =>
            let '(rc, out, e) := transport_v1_call (transport_fn a) request e in
            Some (rc, out, Some a, e)
        | Some transport =>
            let (execution_start, w) := cmeta_monotonic_ms (ce_world e) in
            match attempt_loop fuel (retry_policy a) transport request has_token
                    execution_start 1 (set_world w e) with
            | None => None
            | Some ((rc, out, id), e) => Some (rc, out, Some (set_last_id id a), e)
            end
        end
  | _, _ => Some (SALTS_EINVAL, None, agent, e)
  end.

End transport.

(** ** Usage records *)

Section usage.
Context {J : Type} `{JsonSetters J}.

(** Answers ENOENT (with the value 0), ERANGE or OK with the value.  A double
    passes the three comparisons exactly when it is an integer in range; the
    JSON library has no NaN. *)
(* src/agent/src/turbo_agent_resilience.c 232-247 turbo_agent_usage_exact_u64 *)
Definition turbo_agent_usage_exact_u64 (usage : J) (primary : string)
    (alternate : option string) : salts_status * Z :=
  let field :=
    match json_object_get usage primary, alternate with
    | Some f, _ => Some f
    | None, Some alt => json_object_get usage alt
    | None, None => None
    end in
  match field with
  | None => (SALTS_ENOENT, 0)
  | Some f =>
      match double_integral (turbo_runtime_json_value_as_double (Some f) (DFinite (-1) 0)) with
      | Some n => if (0 <=? n) && (n <=? TURBO_AGENT_USAGE_MAX_EXACT_INTEGER)
                  then (SALTS_OK, n) else (SALTS_ERANGE, 0)
      | None => (SALTS_ERANGE, 0)
      end
  end.

(** The three counts, or the status that ends the recording. *)
(* src/agent/src/turbo_agent_resilience.c 266-276 turbo_agent_usage_record *)
Definition usage_counts (usage : J) : salts_status + Z * Z * Z :=
  let (input_rc, input_tokens) :=
    turbo_agent_usage_exact_u64 usage "input_tokens" (Some "prompt_tokens") in
  let (output_rc, output_tokens) :=
    turbo_agent_usage_exact_u64 usage "output_tokens" (Some "completion_tokens") in
  let (total_rc, total_tokens) := turbo_agent_usage_exact_u64 usage "total_tokens" None in
  if bool_decide (input_rc = SALTS_ERANGE) || bool_decide (output_rc = SALTS_ERANGE)
     || bool_decide (total_rc = SALTS_ERANGE)
  then inl SALTS_ERANGE
  else
    let summed := bool_decide (total_rc = SALTS_ENOENT) in
    if summed && (UINT64_MAX - input_tokens <? output_tokens) then inl SALTS_ERANGE
    else
      let total := if summed then u64 (input_tokens + output_tokens) else total_tokens in
      if TURBO_AGENT_USAGE_MAX_EXACT_INTEGER <? total then inl SALTS_ERANGE
      else inr (input_tokens, output_tokens, total).

(* src/agent/src/turbo_agent_resilience.c 291-307 turbo_agent_usage_record *)
Definition usage_fields (run_id thread_id : option string) (provider model : string)
    (last_id : option string) (counts : Z * Z * Z) : list (raw_setter J) :=
  let '(input_tokens, output_tokens, total_tokens) := counts in
  [ raw_number "schema_version" 1; raw_optional "run_id" run_id;
    raw_optional "thread_id" thread_id; raw_null "turn_seq";
    raw_string "operation" "model"; raw_string "provider" provider; raw_string "model" model ]
  ++ match last_id with Some id => [raw_string "provider_request_id" id] | None => [] end
  ++ [ raw_number "input_tokens" input_tokens; raw_null "cached_input_tokens";
       raw_number "output_tokens" output_tokens; raw_null "reasoning_tokens";
       raw_number "total_tokens" total_tokens;
       (fun obj o => json_object_set_bool obj "estimated" false o) ].

(* src/agent/src/turbo_agent_resilience.c 308-311 turbo_agent_usage_record *)
Definition cost_fields : list (raw_setter J) :=
  [ raw_string "status" "unknown"; raw_string "currency" "USD";
    raw_null "amount_micros"; raw_null "price_catalog_version" ].

(** The array of records lives in the state: appending to it changes that member
    in place.  [last_id] is the identifier of the last accepted answer. *)
(* src/agent/src/turbo_agent_resilience.c 249-315 turbo_agent_usage_record *)
Definition turbo_agent_usage_record (run_id thread_id : option string)
    (provider model : string) (last_id : option string)
    (state : option J) (response : option J) (o : oracle)
  : salts_status * option J * oracle :=
  match state, response with
  | Some st, Some resp =>
      match json_object_get resp "usage" with
      | None => (SALTS_OK, state, o)
      | Some usage =>
          if negb (bool_decide (json_type usage = JSON_OBJECT)) then (SALTS_OK, state, o)
          else
            match usage_counts usage with
            | inl rc => (rc, state, o)
            | inr counts =>
                let '(records, st, o) :=
                  match json_object_get st "usage_records" with
                  | Some r => (Some r, st, o)
                  | None =>
                      let (ok, o) := alloc o in
                      if ok then
                        let (st, o) := json_object_add_owned st "usage_records" json_create_array o in
                        (Some json_create_array, st, o)
                      else (None, st, o)
                  end in
                match records with
                | None => (SALTS_ENOMEM, Some st, o)
                | Some records =>
                    if negb (bool_decide (json_type records = JSON_ARRAY))
                    then (SALTS_EPROTO, Some st, o)
                    else
                      let (have_record, o) := alloc o in
                      let (have_cost, o) := alloc o in
                      if negb have_record || negb have_cost then (SALTS_ENOMEM, Some st, o)
                      else
                        let (record, o) := raw_all (usage_fields run_id thread_id provider model
                                                      last_id counts) json_create_object o in
                        let (cost, o) := raw_all cost_fields json_create_object o in
                        let (record, o) := json_object_add_owned record "cost" cost o in
                        let (records, o) := json_array_add_owned records record o in
                        (SALTS_OK, Some (update_member st "usage_records" records), o)
                end
            end
      end
  | _, _ => (SALTS_EINVAL, state, o)
  end.

End usage.

(** ** The delay, in closed form *)

Lemma uint64_half : UINT64_MAX / 2 = INT64_MAX.
Proof. reflexivity. Qed.

Lemma uint64_half_pred : (UINT64_MAX - 1) / 2 = INT64_MAX.
Proof. reflexivity. Qed.

Lemma backoff_loop_min n max_delay : forall d,
  0 < d <= 2 * UINT_MAX -> 0 <= max_delay <= UINT_MAX ->
  Z.min max_delay (backoff_loop n d max_delay) = Z.min max_delay (d * 2 ^ Z.of_nat n) /\
  d <= backoff_loop n d max_delay.
Proof.
  induction n as [|n IH]; intros d Hd Hmax; cbn [backoff_loop].
  { change (2 ^ Z.of_nat 0) with 1. rewrite Z.mul_1_r. lia. }
  rewrite Nat2Z.inj_succ, Z.pow_succ_r by lia.
  pose proof (Z.pow_pos_nonneg 2 (Z.of_nat n)).
  destruct (Z.ltb_spec d max_delay); [|nia].
  replace (UINT64_MAX / 2 <? d) with false
    by (symmetry; apply Z.ltb_ge; rewrite uint64_half; unfold UINT_MAX, INT64_MAX in *; lia).
  rewrite u64_small by (unfold UINT64_MAX, UINT_MAX in *; lia).
  destruct (IH (d * 2)) as [IHmin IHle]; [lia..|]. split; [|lia].
  rewrite IHmin. f_equal. lia.
Qed.

Lemma jittered_near d percent attempts :
  0 <= d <= UINT_MAX -> 0 <= percent <= 100 ->
  d - d * percent / 100 <= jittered d percent attempts <= d + d * percent / 100 /\
  0 <= d * percent / 100 <= d.
Proof.
  intros Hd Hp. unfold jittered.
  assert (Hspan : 0 <= d * percent / 100 <= d).
  { split; [apply Z.div_pos; nia|]. apply Z.div_le_upper_bound; nia. }
  split; [|done]. destruct (Z.ltb_spec 0 percent); [|lia].
  rewrite (u64_small (d * percent)) by (unfold UINT64_MAX, UINT_MAX in *; nia).
  set (span := d * percent / 100) in *. cbv zeta.
  replace ((UINT64_MAX - 1) / 2 <? span) with false
    by (symmetry; apply Z.ltb_ge; rewrite uint64_half_pred; unfold UINT_MAX, INT64_MAX in *; lia).
  rewrite (u64_small (span * 2 + 1)) by (unfold UINT64_MAX, UINT_MAX in *; lia).
  replace (span * 2 + 1 =? 0) with false by lia.
  pose proof (Z.mod_pos_bound (u64 (u64 (attempts * 1103515245) + 12345)) (span * 2 + 1)
                ltac:(lia)) as Hmod.
  set (offset := _ mod _ - span) in *.
  replace ((offset <? 0) && (d <? - offset)) with false
    by (symmetry; apply andb_false_intro2; lia).
  rewrite u64_small by (unfold UINT64_MAX, UINT_MAX in *; lia). lia.
Qed.

(** The delay of a valid policy is the capped exponential backoff, replaced by a
    longer Retry-After that respects the cap, give or take the jitter: without
    jitter it is exactly that, with it it stays within the percentage. *)
Theorem retry_delay_spec (p : turbo_agent_retry_policy) (attempts retry_after : Z) :
  turbo_agent_retry_policy_valid (Some p) = true -> policy_in_range p -> 1 <= attempts ->
  let backoff := Z.min (max_delay_ms p) (base_delay_ms p * 2 ^ (attempts - 1)) in
  let target := if honor_retry_after p && (backoff <? retry_after)
                   && (retry_after <=? max_delay_ms p) then retry_after else backoff in
  let spread := target * jitter_percent p / 100 in
  let delay := turbo_agent_retry_delay p attempts retry_after in
  base_delay_ms p <= target <= max_delay_ms p /\
  0 <= spread <= target /\
  (jitter_percent p = 0 -> delay = target) /\
  target - spread <= delay <= Z.min UINT_MAX (target + spread).
Proof.
  intros Hvalid (_ & Hbase & Hmax & _ & Hjit) Hatt. cbn in Hvalid. bool_to_prop. cbv zeta.
  unfold turbo_agent_retry_delay.
  replace (if 1 <? attempts then attempts - 1 else 0) with (attempts - 1)
    by (destruct (Z.ltb_spec 1 attempts); lia).
  destruct (backoff_loop_min (Z.to_nat (attempts - 1)) (max_delay_ms p) (base_delay_ms p))
    as [Hmin Hle]; [unfold UINT_MAX in *; lia..|].
  rewrite Z2Nat.id in Hmin by lia. rewrite <- Hmin.
  set (raw := backoff_loop _ _ _) in *.
  replace (if max_delay_ms p <? raw then max_delay_ms p else raw) with (Z.min (max_delay_ms p) raw)
    by (destruct (Z.ltb_spec (max_delay_ms p) raw); lia).
  set (target := if honor_retry_after p && _ && _ then retry_after else _).
  assert (Ht : base_delay_ms p <= target <= max_delay_ms p).
  { subst target. destruct (honor_retry_after p && _ && _) eqn:E; bool_to_prop; lia. }
  destruct (jittered_near target (jitter_percent p) attempts) as [Hj Hs]; [lia..|].
  split; [done|]. split; [done|]. split.
  - intros E. rewrite E in *. unfold jittered. cbn [Z.ltb Z.compare].
    destruct (Z.ltb_spec UINT_MAX target); lia.
  - destruct (Z.ltb_spec UINT_MAX (jittered target (jitter_percent p) attempts)); lia.
Qed.

(** ** The call *)

Section contract.
Context {J : Type} `{JsonSetters J}.
Context {W : Type} `{CancelTokenLaws W}.
Context (cmeta_monotonic_ms : W -> Z * W) (cmeta_sleep_ms : Z -> W -> W).
Context (policy : turbo_agent_retry_policy) (transport : transport_v2_fn (W := W)).
Context (request : string) (has_token : bool).

(** The token outlives the run: neither the clock nor the transport releases it. *)
Definition alive (w : W) : Prop := has_token = true -> token_live w.

Context (clock_alive : forall w, alive w -> alive (cmeta_monotonic_ms w).2).
Context (transport_alive : forall w resp,
  alive w -> alive (transport request has_token (request_timeout_ms policy)
                      (connect_timeout_ms policy) resp w).2).

(** A call is made with no published cancellation. *)
Definition uncancelled (c : W * (Z * turbo_agent_transport_response)) : Prop :=
  has_token = true -> cancel_reason c.1 = TURBO_CANCEL_NONE.

(** A wait never reaches past the elapsed limit. *)
Definition wait_fits (w : Z * Z) : Prop := w.1 + w.2 <= max_elapsed_ms policy.

Definition accepted (c : W * (Z * turbo_agent_transport_response)) (out : option string) : Prop :=
  c.2.1 = 0 /\ transport_status c.2.2 = 0 /\ is_Some (body c.2.2) /\ out = body c.2.2.

Lemma record_attempt_frame (e : call_env (J := J) (W := W)) attempt r outcome d s f :
  let (_, e') := record_attempt attempt r outcome d s f e in
  ce_world e' = ce_world e /\ ce_calls e' = ce_calls e /\ ce_waits e' = ce_waits e.
Proof.
  unfold record_attempt. by destruct (turbo_agent_attempt_append _ _ _ _ _ _ _ _) as [[rc st] o].
Qed.

Lemma status_of_int_not_ok n : n <> 0 -> status_of_int n <> SALTS_OK.
Proof. unfold status_of_int. by destruct (Z.eqb_spec n 0). Qed.

Lemma failure_status_not_ok rc r : failure_status rc r <> SALTS_OK.
Proof.
  unfold failure_status. destruct (Z.eqb_spec (transport_status r) 0); cbn [negb];
    [destruct (Z.eqb_spec rc 0); cbn [negb]|]; try done; by apply status_of_int_not_ok.
Qed.

(** A check that failed keeps failing. *)
Lemma check_again w s w' : token_live w -> token_check w = (s, w') -> s <> SALTS_OK ->
  let (s2, w2) := token_check w' in token_live w2 /\ s2 <> SALTS_OK.
Proof.
  intros Hl E Hs. pose proof (token_check_law w Hl) as Hlaw. rewrite E in Hlaw.
  destruct Hlaw as (Hl' & -> & _). rewrite reason_status_ok in Hs.
  pose proof (token_check_law w' Hl') as Hlaw. destruct (token_check w') as [s2 w2].
  destruct Hlaw as (Hl2 & -> & Hsticky). split; [done|]. rewrite reason_status_ok.
  by rewrite (Hsticky Hs).
Qed.

Lemma check_before_spec w : alive w ->
  let (out, w') := check_before has_token w in
  alive w' /\
  match out with
  | Some rc => rc <> SALTS_OK
  | None => has_token = true -> cancel_reason w' = TURBO_CANCEL_NONE
  end.
Proof.
  unfold check_before, alive. intros Hw. destruct has_token; cbn [negb]; [|done].
  specialize (Hw eq_refl). destruct (token_check w) as [s w1] eqn:E.
  pose proof (token_check_law w Hw) as Hlaw. rewrite E in Hlaw. destruct Hlaw as (Hl & Hs & _).
  destruct (bool_decide_reflect (s = SALTS_OK)) as [->|Hne].
  - split; [done|]. intros _. by apply reason_status_ok.
  - pose proof (check_again w s w1 Hw E Hne) as Hagain.
    destruct (token_check w1) as [s2 w2]. by destruct Hagain.
Qed.

Lemma retry_wait_spec ms w : alive w -> 0 <= ms <= UINT_MAX ->
  let (rc, w') := turbo_agent_retry_wait cmeta_sleep_ms has_token ms w in
  alive w' /\
  (rc <> SALTS_OK -> has_token = true /\ let (s, w2) := token_check w' in alive w2 /\ s <> SALTS_OK).
Proof.
  unfold turbo_agent_retry_wait, alive. intros Hw Hms. destruct has_token eqn:Eh; cbn [negb].
  2: { split; [done|]. intros Hn. by destruct Hn. }
  specialize (Hw eq_refl). pose proof (token_wait_law ms w Hw Hms) as Hwait.
  destruct (token_wait ms w) as [s w1]. destruct Hwait as (Hl & _ & _ & _).
  destruct s; try (split; [done|]; intros Hn; by destruct Hn).
  destruct (token_check w1) as [rc w2] eqn:E.
  pose proof (token_check_law w1 Hl) as Hlaw. rewrite E in Hlaw. destruct Hlaw as (Hl2 & _).
  split; [done|]. intros Hne. split; [done|].
  pose proof (check_again w1 rc w2 Hl E Hne) as Hagain. destruct (token_check w2) as [s3 w3].
  by destruct Hagain.
Qed.

Context (policy_ok : turbo_agent_retry_policy_valid (Some policy) = true)
        (policy_range : policy_in_range policy).

Lemma retry_delay_range attempt after :
  0 <= turbo_agent_retry_delay policy attempt after <= UINT_MAX.
Proof.
  destruct policy_range as (_ & Hbase & Hmax & _ & Hjit). cbn in policy_ok. bool_to_prop.
  unfold turbo_agent_retry_delay.
  set (raw := backoff_loop _ _ _).
  assert (Hraw : base_delay_ms policy <= raw).
  { subst raw. eapply proj2, backoff_loop_min; unfold UINT_MAX in *; lia. }
  set (target := if honor_retry_after policy && _ && _ then after else _).
  assert (Ht : 0 <= target <= UINT_MAX).
  { subst target. destruct (honor_retry_after policy && _ && _) eqn:E; bool_to_prop;
      destruct (Z.ltb_spec (max_delay_ms policy) raw); lia. }
  destruct (jittered_near target (jitter_percent policy) attempt); [lia..|].
  destruct (Z.ltb_spec UINT_MAX (jittered target (jitter_percent policy) attempt)); lia.
Qed.

Abbreviation envt := (call_env (J := J) (W := W)).

(** What an iteration may do to the environment; [more] says whether a wait was
    started after the call. *)
Definition grows (e e' : envt) (new : list (W * (Z * turbo_agent_transport_response)))
    (waits : list (Z * Z)) : Prop :=
  ce_calls e' = ce_calls e ++ new /\ ce_waits e' = ce_waits e ++ waits /\
  alive (ce_world e') /\ Forall uncancelled new /\ Forall wait_fits waits /\
  (length waits <= length new <= 1)%nat.

Lemma grows_record e e' new waits attempt r outcome d s f rc e2 :
  record_attempt attempt r outcome d s f e' = (rc, e2) ->
  grows e e' new waits -> grows e e2 new waits.
Proof.
  intros E Hg. pose proof (record_attempt_frame e' attempt r outcome d s f) as Hf.
  rewrite E in Hf. destruct Hf as (Ew & Ec & Ewt). unfold grows. by rewrite Ew, Ec, Ewt.
Qed.

Lemma accept_response_spec e e' w ans waits attempt s f :
  grows e e' [(w, ans)] waits -> ans.1 = 0 -> transport_status ans.2 = 0 -> is_Some (body ans.2) ->
  let '((rc, out, id), e2) := accept_response attempt ans.2 s f e' in
  grows e e2 [(w, ans)] waits /\ (rc = SALTS_OK -> accepted (w, ans) out) /\
  (rc <> SALTS_OK -> out = None).
Proof.
  intros Hg Hrc Hts Hbody. unfold accept_response.
  destruct (record_attempt attempt _ _ _ _ _ e') as [rc e2] eqn:Er.
  pose proof (grows_record _ _ _ _ _ _ _ _ _ _ _ _ Er Hg) as Hg2.
  destruct (bool_decide (rc = SALTS_OK)); [|done].
  assert (Hacc : accepted (w, ans) (body ans.2)) by by unfold accepted.
  destruct (provider_request_id ans.2) as [id|]; [|done].
  by destruct (alloc (ce_oracle e2)) as [[] o].
Qed.

Lemma schedule_retry_spec e e' c attempt start s f :
  grows e e' [c] [] ->
  let (out, e2) := schedule_retry cmeta_sleep_ms policy has_token start attempt c.2.2 s f e' in
  match out with
  | Some (rc, out, _) => rc <> SALTS_OK /\ exists waits, grows e e2 [c] waits
  | None => exists wait, grows e e2 [c] [wait]
  end.
Proof.
  intros Hg. unfold schedule_retry. cbv zeta.
  pose proof (retry_delay_range attempt (retry_after_ms c.2.2)) as Hdelay.
  set (delay := turbo_agent_retry_delay _ _ _) in *. set (elapsed := u64 (f - start)).
  destruct policy_range as (_ & _ & _ & Hel & _).
  pose proof (u64_range (f - start)) as Helapsed. fold elapsed in Helapsed.
  destruct (Z.ltb_spec (max_elapsed_ms policy) elapsed); cbn [orb].
  { destruct (record_attempt _ _ _ _ _ _ e') as [rc e2] eqn:Er. split; [done|].
    exists []. by eapply grows_record. }
  rewrite u64_small by (unfold UINT64_MAX, UINT_MAX in *; lia).
  destruct (Z.ltb_spec (max_elapsed_ms policy - elapsed) delay).
  { destruct (record_attempt _ _ _ _ _ _ e') as [rc e2] eqn:Er. split; [done|].
    exists []. by eapply grows_record. }
  destruct (record_attempt _ _ _ _ _ _ e') as [rc e2] eqn:Er.
  pose proof (grows_record _ _ _ _ _ _ _ _ _ _ _ _ Er Hg) as Hg2.
  destruct (bool_decide (rc = SALTS_OK)); cbn [negb]; [|split; [done|by exists []]].
  destruct Hg2 as (Ec & Ew & Hal & Hunc & _ & _).
  pose proof (retry_wait_spec delay (ce_world e2) Hal ltac:(lia)) as Hwait.
  destruct (turbo_agent_retry_wait _ _ _ _) as [rc2 w2]. destruct Hwait as [Hal2 Hsig].
  assert (Hgw : forall w, alive w -> grows e (add_wait elapsed delay (set_world w e2)) [c] [(elapsed, delay)]).
  { intros w Hw. split; [done|]. cbn. rewrite Ew, app_nil_r. split; [done|].
    split; [done|]. split; [done|]. split; [|lia]. constructor; [|done]. unfold wait_fits. cbn. lia. }
  destruct (bool_decide_reflect (rc2 = SALTS_OK)) as [->|Hne]; [by eexists; apply Hgw|].
  destruct (Hsig Hne) as [Htok Hagain]. rewrite Htok. cbn [ce_world add_wait set_world].
  destruct (token_check w2) as [s3 w3]. destruct Hagain as [Hal3 Hs3]. split; [done|].
  exists [(elapsed, delay)]. exact (Hgw w3 Hal3).
Qed.


Lemma run_attempt_spec e attempt start :
  alive (ce_world e) -> attempt <= max_attempts policy ->
  let (out, e2) := run_attempt cmeta_monotonic_ms cmeta_sleep_ms policy transport request
                     has_token start attempt e in
  match out with
  | Some (rc, out, _) => exists new waits, grows e e2 new waits /\
      (rc = SALTS_OK -> exists c, new = [c] /\ accepted c out)
  | None => attempt < max_attempts policy /\ exists c wait, grows e e2 [c] [wait]
  end.
Proof.
  intros Hal Hatt. unfold run_attempt.
  pose proof (clock_alive (ce_world e) Hal) as Hal1.
  destruct (cmeta_monotonic_ms (ce_world e)) as [started w1]. cbn in Hal1.
  pose proof (check_before_spec w1 Hal1) as Hcheck.
  destruct (check_before has_token w1) as [[rc|] w2]; destruct Hcheck as [Hal2 Hc].
  { exists [], []. unfold grows. cbn. rewrite !app_nil_r. split; [|done]. repeat (split; [done|]). lia. }
  pose proof (transport_alive w2 initial_response Hal2) as Hal3.
  destruct (transport request has_token _ _ initial_response w2) as [[rc resp] w3]. cbn in Hal3.
  pose proof (clock_alive w3 Hal3) as Hal4.
  destruct (cmeta_monotonic_ms w3) as [finished w4]. cbn in Hal4.
  set (e1 := add_call _ _ _).
  assert (Hg : grows e e1 [(w2, (rc, resp))] []).
  { unfold grows. cbn. rewrite app_nil_r. repeat split; try done; try lia. by constructor. }
  destruct (_ || _).
  { eexists _, _. split; [exact Hg|]. done. }
  destruct ((rc =? 0) && _ && _) eqn:Eacc.
  { bool_to_prop.
    pose proof (accept_response_spec e e1 w2 (rc, resp) [] attempt started finished Hg) as Ha.
    cbn [fst snd] in Ha. destruct (accept_response _ _ _ _ e1) as [[[rc' out] id] e2].
    destruct Ha as (Hg2 & Hacc & _); [done..|]. eexists _, _. split; [exact Hg2|].
    intros Hok. eexists. split; [done|]. by apply Hacc. }
  destruct (negb (retryable resp) || _) eqn:Elast.
  { destruct (record_attempt _ _ _ _ _ _ e1) as [rc' e2] eqn:Er.
    eexists _, _. split; [by eapply grows_record|]. intros Hok. by destruct (failure_status_not_ok _ _ Hok). }
  pose proof (schedule_retry_spec e e1 (w2, (rc, resp)) attempt start started finished Hg) as Hs.
  cbn [fst snd] in Hs. destruct (schedule_retry _ _ _ _ _ _ _ _ e1) as [[[[rc' out] id]|] e2].
  - destruct Hs as [Hne [waits Hg2]]. eexists _, _. by split.
  - bool_to_prop. split; [lia|]. destruct Hs as [wait Hg2]. by eexists _, _.
Qed.

(** Along the loop: one wait per finished iteration. *)
Lemma attempt_loop_spec fuel start : forall attempt e,
  alive (ce_world e) -> 1 <= attempt <= max_attempts policy ->
  max_attempts policy - attempt < Z.of_nat fuel ->
  exists rc out id e2 new waits,
    attempt_loop cmeta_monotonic_ms cmeta_sleep_ms fuel policy transport request has_token
      start attempt e = Some ((rc, out, id), e2) /\
    ce_calls e2 = ce_calls e ++ new /\ ce_waits e2 = ce_waits e ++ waits /\
    Z.of_nat (length new) <= max_attempts policy - attempt + 1 /\
    (length waits <= length new <= S (length waits))%nat /\
    Forall uncancelled new /\ Forall wait_fits waits /\
    (rc = SALTS_OK -> exists before c, new = before ++ [c] /\ accepted c out).
Proof.
  induction fuel as [|fuel IH]; intros attempt e Hal Hatt Hfuel; [lia|]. cbn [attempt_loop].
  replace (max_attempts policy <? attempt) with false by lia.
  pose proof (run_attempt_spec e attempt start Hal ltac:(lia)) as Hrun.
  destruct (run_attempt _ _ _ _ _ _ _ _ e) as [[[[rc out] id]|] e1].
  - destruct Hrun as (new & waits & (Ec & Ew & _ & Hunc & Hfits & Hlen) & Hok).
    exists rc, out, id, e1, new, waits. repeat (split; [done || lia|]).
    intros E. destruct (Hok E) as (c & -> & Hacc). by exists [], c.
  - destruct Hrun as (Hlt & c & wait & Ec & Ew & Hal1 & Hunc & Hfits & _).
    destruct policy_range as (Hmax & _). rewrite u32_small by (unfold UINT_MAX in *; lia).
    destruct (IH (attempt + 1) e1) as (rc & out & id & e2 & new & waits & -> & Ec2 & Ew2 & Hn & Hl &
      Hunc2 & Hfits2 & Hok); [done|lia|lia|].
    exists rc, out, id, e2, (c :: new), (wait :: waits). split; [done|].
    rewrite Ec2, Ec, Ew2, Ew, <- !app_assoc. split; [done|]. split; [done|].
    cbn [length]. split; [lia|]. split; [lia|].
    split; [constructor; [by inversion Hunc|done]|].
    split; [constructor; [by inversion Hfits|done]|].
    intros E. destruct (Hok E) as (before & c' & -> & Hacc). by exists (c :: before), c'.
Qed.

(** C34. A model call through a v2 transport always returns.  It calls the
    transport at most [max_attempts] times and never under a published
    cancellation; between two calls it waits once, and no wait reaches past the
    elapsed limit; it reports success only with the body of the last call, which
    succeeded. *)
Theorem resilient_transport_contract (agent : turbo_agent) (e : envt) (fuel : nat) :
  transport_v2 agent = Some transport -> retry_policy agent = policy ->
  alive (ce_world e) -> ce_calls e = [] -> ce_waits e = [] ->
  max_attempts policy <= Z.of_nat fuel ->
  exists rc out agent' e',
    turbo_agent_resilient_transport cmeta_monotonic_ms cmeta_sleep_ms fuel (Some agent)
      (Some request) true has_token e = Some (rc, out, agent', e') /\
    Z.of_nat (length (ce_calls e')) <= max_attempts policy /\
    (length (ce_waits e') <= length (ce_calls e') <= S (length (ce_waits e')))%nat /\
    Forall uncancelled (ce_calls e') /\ Forall wait_fits (ce_waits e') /\
    (rc = SALTS_OK -> exists before c, ce_calls e' = before ++ [c] /\ accepted c out).
Proof.
  intros Et Ep Hal Ec Ew Hfuel. unfold turbo_agent_resilient_transport. cbn [negb].
  change (transport_v2 (set_last_id None agent)) with (transport_v2 agent).
  change (retry_policy (set_last_id None agent)) with (retry_policy agent). rewrite Et, Ep.
  pose proof (clock_alive (ce_world e) Hal) as Hal1.
  destruct (cmeta_monotonic_ms (ce_world e)) as [start w1]. cbn in Hal1.
  assert (Hmax : 1 <= max_attempts policy) by (cbn in policy_ok; bool_to_prop; lia).
  destruct (attempt_loop_spec fuel start 1 (set_world w1 e)) as
    (rc & out & id & e2 & new & waits & -> & Ec2 & Ew2 & Hn & Hl & Hunc & Hfits & Hok);
    [done|lia|lia|].
  cbn in Ec2, Ew2. rewrite Ec in Ec2. rewrite Ew in Ew2. cbn in Ec2, Ew2.
  do 4 eexists. split; [done|]. rewrite Ec2, Ew2. repeat (split; [done || lia|]). done.
Qed.

End contract.

(** ** Records *)

Section record_facts.
Context {J : Type} `{JsonSettersLaws J, !JsonLaws J}.

(** The document of an attempt, as the setters build it. *)
Definition attempt_members (attempt : Z) (response : turbo_agent_transport_response)
    (outcome : string) (delay_ms started_ms finished_ms : Z) : list (string * J) :=
  [ ("retryable", json_create_bool (retryable response));
    ("schema_version", json_create_int64 1);
    ("attempt", json_create_int64 attempt);
    ("transport_status", json_create_int64 (transport_status response));
    ("http_status", json_create_int64 (http_status response));
    ("delay_ms", json_create_int64 delay_ms);
    ("started_mono_ms", json_create_int64 started_ms);
    ("finished_mono_ms", json_create_int64 finished_ms);
    ("outcome", json_create_string outcome) ]
  ++ match provider_request_id response with
     | Some id => [("provider_request_id", json_create_string id)]
     | None => []
     end.

Lemma attempt_setters_set attempt r outcome d s f :
  Forall2 sets (attempt_setters attempt r outcome d s f) (attempt_members attempt r outcome d s f).
Proof.
  unfold attempt_setters, attempt_members. apply Forall2_app.
  - repeat constructor; intros obj o Hty Ho;
      first [by apply object_set_plenty | by apply set_constructed_plenty].
  - destruct (provider_request_id r); repeat constructor.
    intros obj o Hty Ho. by apply set_constructed_plenty.
Qed.

(** The attempts a state holds; a state without the member holds none. *)
Definition attempts_held (st : J) : option (list J) :=
  match json_object_get st "provider_attempts" with
  | None => Some []
  | Some a => if bool_decide (json_type a = JSON_ARRAY) then Some (json_array_items a) else None
  end.

Lemma attempt_append_plenty st items attempt r outcome d s f o :
  json_type st = JSON_OBJECT -> attempts_held st = Some items ->
  s <= INT64_MAX -> f <= INT64_MAX -> plenty o ->
  exists st' o', plenty o' /\ json_type st' = JSON_OBJECT /\
    turbo_agent_attempt_append (Some st) attempt r outcome d s f o = (SALTS_OK, Some st', o') /\
    attempts_held st' =
      Some (items ++ [foldl add_member json_create_object (attempt_members attempt r outcome d s f)]).
Proof.
  intros Hty Hheld Hs Hf Ho. unfold turbo_agent_attempt_append.
  rewrite bool_decide_eq_true_2 by done. cbn [negb].
  replace ((INT64_MAX <? s) || (INT64_MAX <? f)) with false
    by (symmetry; apply orb_false_intro; apply Z.ltb_ge; lia).
  set (doc := foldl add_member json_create_object _). cbv zeta.
  assert (Hpre : exists a o1, plenty o1 /\ json_type a = JSON_ARRAY /\ json_array_items a = items /\
    match json_object_get st "provider_attempts" with
    | Some a => (Some a, o)
    | None => let (ok, o) := alloc o in (if ok then Some json_create_array else None, o)
    end = (Some a, o1)).
  { unfold attempts_held in Hheld. destruct (json_object_get st "provider_attempts") as [a|].
    - case_bool_decide as Ha; [|done]. injection Hheld as <-. by exists a, o.
    - destruct (alloc_plenty o Ho) as (o1 & Ho1 & ->). injection Hheld as <-.
      exists json_create_array, o1. split; [done|]. split; [apply json_type_array|].
      split; [apply json_items_create|done]. }
  destruct Hpre as (a & o1 & Ho1 & Ha & <- & Hpre).
  unfold oracle in *. rewrite Hpre. rewrite bool_decide_eq_true_2 by done. cbn [negb].
  destruct (alloc_plenty o1 Ho1) as (o2 & Ho2 & ->).
  destruct (alloc_plenty o2 Ho2) as (o3 & Ho3 & ->). cbn [negb orb].
  destruct (set_all_plenty _ _ (attempt_setters_set attempt r outcome d s f) json_create_object o3
    json_type_object Ho3) as (o4 & Ho4 & ->). fold doc.
  unfold turbo_runtime_json_array_append. rewrite bool_decide_eq_true_2 by done. cbn [negb].
  destruct (alloc_plenty o4 Ho4) as (o5 & Ho5 & ->).
  assert (Hnew : attempts_held (json_object_add st "provider_attempts" (json_array_add a doc)) =
                 Some (json_array_items a ++ [doc])).
  { unfold attempts_held. rewrite json_get_add by done.
    rewrite bool_decide_eq_true_2 by (by apply json_type_array_add). by rewrite json_items_add. }
  destruct (json_object_get st "provider_attempts") as [held|] eqn:Eh.
  - unfold update_member. rewrite Eh. do 2 eexists. split; [exact Ho5|].
    split; [by apply json_type_add|]. by split.
  - destruct (object_set_plenty st "provider_attempts" (json_array_add a doc) o5 Hty Ho5)
      as (o6 & Ho6 & ->).
    do 2 eexists. split; [exact Ho6|]. split; [by apply json_type_add|]. by split.
Qed.

End record_facts.

Section recorded.
Context {J : Type} `{JsonSettersLaws J, !JsonLaws J}.
Context {W : Type} `{CancelToken W}.
Context (cmeta_monotonic_ms : W -> Z * W) (cmeta_sleep_ms : Z -> W -> W).
Context (policy : turbo_agent_retry_policy) (transport : transport_v2_fn (W := W)).
Context (request : string) (has_token : bool).
Context (clock_range : forall w, (cmeta_monotonic_ms w).1 <= INT64_MAX).

Abbreviation envt := (call_env (J := J) (W := W)).

(** Memory is left, and the state holds these attempts. *)
Definition holds (e : envt) (items : list J) : Prop :=
  plenty (ce_oracle e) /\ exists st, ce_state e = Some st /\
    json_type st = JSON_OBJECT /\ attempts_held st = Some items.

(** One record per call, numbered from [n]. *)
Fixpoint records_match (n : Z) (recs : list J)
    (calls : list (W * (Z * turbo_agent_transport_response))) : Prop :=
  match recs, calls with
  | [], [] => True
  | r :: recs, c :: calls =>
      (exists outcome delay started finished,
         r = foldl add_member json_create_object
               (attempt_members n c.2.2 outcome delay started finished)) /\
      records_match (n + 1) recs calls
  | _, _ => False
  end.

Lemma record_attempt_plenty e items attempt r outcome d s f :
  holds e items -> s <= INT64_MAX -> f <= INT64_MAX ->
  exists e', record_attempt attempt r outcome d s f e = (SALTS_OK, e') /\
    ce_world e' = ce_world e /\ ce_calls e' = ce_calls e /\ ce_waits e' = ce_waits e /\
    holds e' (items ++ [foldl add_member json_create_object (attempt_members attempt r outcome d s f)]).
Proof.
  intros (Ho & st & Est & Hty & Hheld) Hs Hf. unfold record_attempt. rewrite Est.
  destruct (attempt_append_plenty st items attempt r outcome d s f (ce_oracle e))
    as (st' & o' & Ho' & Hty' & -> & Hheld'); try done.
  eexists. split; [done|]. repeat (split; [done|]). cbn. by eauto.
Qed.

(** The outcome of the part of an iteration after the call: the call has been
    recorded under its number. *)
Definition recorded (e e2 : envt) (items : list J) (attempt : Z)
    (r : turbo_agent_transport_response) : Prop :=
  ce_calls e2 = ce_calls e /\ exists outcome d s f,
    holds e2 (items ++ [foldl add_member json_create_object (attempt_members attempt r outcome d s f)]).

Lemma accept_response_records e items attempt r s f :
  holds e items -> s <= INT64_MAX -> f <= INT64_MAX ->
  let (_, e2) := accept_response attempt r s f e in recorded e e2 items attempt r.
Proof.
  intros Hh Hs Hf. unfold accept_response.
  destruct (record_attempt_plenty e items attempt r "succeeded" 0 s f Hh Hs Hf)
    as (e' & -> & _ & Ec & _ & Hh'). cbn [bool_decide]. rewrite bool_decide_eq_true_2 by done.
  destruct (provider_request_id r) as [id|] eqn:Eid.
  - destruct (alloc_plenty (ce_oracle e')) as (o & Ho & ->); [apply Hh'|].
    split; [done|]. do 4 eexists. split; [exact Ho|apply Hh'].
  - split; [done|]. do 4 eexists. exact Hh'.
Qed.

Lemma schedule_retry_records e items start attempt r s f :
  holds e items -> s <= INT64_MAX -> f <= INT64_MAX ->
  let (_, e2) := schedule_retry cmeta_sleep_ms policy has_token start attempt r s f e in
  recorded e e2 items attempt r.
Proof.
  intros Hh Hs Hf. unfold schedule_retry. cbv zeta. set (delay := turbo_agent_retry_delay _ _ _).
  destruct (_ || _).
  { destruct (record_attempt_plenty e items attempt r "elapsed_limit" 0 s f Hh Hs Hf)
      as (e' & -> & _ & Ec & _ & Hh'). split; [done|]. do 4 eexists. exact Hh'. }
  destruct (record_attempt_plenty e items attempt r "retry_scheduled" delay s f Hh Hs Hf)
    as (e' & -> & _ & Ec & _ & Hh'). rewrite bool_decide_eq_true_2 by done. cbn [negb].
  destruct (turbo_agent_retry_wait _ _ _ _) as [rc w].
  assert (Hr : forall w' e2, e2 = add_wait (u64 (f - start)) delay (set_world w' e') ->
    recorded e e2 items attempt r).
  { intros w' e2 ->. split; [done|]. do 4 eexists. exact Hh'. }
  destruct (bool_decide _); [by eapply Hr|]. destruct has_token; [|by eapply Hr].
  destruct (token_check _) as [rc2 w2]. by eapply (Hr w2).
Qed.

Lemma run_attempt_records e items attempt start : holds e items ->
  let (out, e2) := run_attempt cmeta_monotonic_ms cmeta_sleep_ms policy transport request
                     has_token start attempt e in
  exists new recs, ce_calls e2 = ce_calls e ++ new /\ holds e2 (items ++ recs) /\
    (records_match attempt recs new \/ exists b i, out = Some (SALTS_EPROTO, b, i)).
Proof.
  intros Hh. unfold run_attempt.
  pose proof (clock_range (ce_world e)) as Hs.
  destruct (cmeta_monotonic_ms (ce_world e)) as [started w1]. cbn in Hs.
  destruct (check_before has_token w1) as [[rc|] w2].
  { exists [], []. rewrite !app_nil_r. split; [done|]. split; [exact Hh|by left]. }
  destruct (transport _ _ _ _ _ w2) as [[rc resp] w3].
  pose proof (clock_range w3) as Hf. destruct (cmeta_monotonic_ms w3) as [finished w4]. cbn in Hf.
  set (e1 := add_call _ _ _). assert (Hh1 : holds e1 items) by exact Hh.
  destruct (_ || _).
  { exists [(w2, (rc, resp))], []. rewrite app_nil_r. split; [done|]. split; [done|right]. eauto. }
  assert (Hdone : forall e2, recorded e1 e2 items attempt resp -> exists new recs,
    ce_calls e2 = ce_calls e ++ new /\ holds e2 (items ++ recs) /\ records_match attempt recs new).
  { intros e2 (Ec & outcome & d & s & f & Hh2). do 2 eexists. split; [exact Ec|].
    split; [exact Hh2|]. cbn. eauto 6. }
  assert (Hleft : forall (out : option call_result) e2, recorded e1 e2 items attempt resp -> exists new recs,
    ce_calls e2 = ce_calls e ++ new /\ holds e2 (items ++ recs) /\
    (records_match attempt recs new \/ exists b i, out = Some (SALTS_EPROTO, b, i))).
  { intros out e2 Hr. destruct (Hdone e2 Hr) as (new & recs & ? & ? & ?). exists new, recs. eauto. }
  destruct (_ && _ && _).
  { pose proof (accept_response_records e1 items attempt resp started finished Hh1 Hs Hf) as Hr.
    destruct (accept_response _ _ _ _ e1) as [r e2]. by apply Hleft. }
  destruct (_ || _).
  { destruct (record_attempt_plenty e1 items attempt resp "failed" 0 started finished Hh1 Hs Hf)
      as (e' & -> & _ & Ec & _ & Hh'). apply Hleft. split; [done|]. by do 4 eexists. }
  pose proof (schedule_retry_records e1 items start attempt resp started finished Hh1 Hs Hf) as Hr.
  destruct (schedule_retry _ _ _ _ _ _ _ _ e1) as [out e2]. by apply Hleft.
Qed.

Lemma records_match_app n recs calls recs' calls' :
  records_match n recs calls -> records_match (n + Z.of_nat (length calls)) recs' calls' ->
  records_match n (recs ++ recs') (calls ++ calls').
Proof.
  revert n recs. induction calls as [|c calls IH]; intros n [|r recs]; cbn; try done.
  { by rewrite Z.add_0_r. }
  intros [Hr Hrecs] Hrest. split; [done|]. apply IH; [done|].
  by replace (n + 1 + Z.of_nat (length calls)) with (n + Z.of_nat (S (length calls))) by lia.
Qed.

Lemma run_attempt_one_call e attempt start :
  let (out, e2) := run_attempt cmeta_monotonic_ms cmeta_sleep_ms policy transport request
                     has_token start attempt e in
  out = None -> attempt <> max_attempts policy /\ exists c, ce_calls e2 = ce_calls e ++ [c].
Proof.
  unfold run_attempt. destruct (cmeta_monotonic_ms (ce_world e)) as [started w1].
  destruct (check_before has_token w1) as [[rc|] w2]; [done|].
  destruct (transport _ _ _ _ _ w2) as [[rc resp] w3].
  destruct (cmeta_monotonic_ms w3) as [finished w4]. set (e1 := add_call _ _ _).
  destruct (_ || _); [done|]. destruct (_ && _ && _); [by destruct (accept_response _ _ _ _ e1)|].
  destruct (_ || _) eqn:Elast; [by destruct (record_attempt _ _ _ _ _ _ e1)|]. bool_to_prop.
  unfold schedule_retry. cbv zeta. destruct (_ || _);
    [by destruct (record_attempt _ _ _ _ _ _ e1)|].
  pose proof (record_attempt_frame e1 attempt resp "retry_scheduled"
    (turbo_agent_retry_delay policy attempt (retry_after_ms resp)) started finished) as Hframe.
  destruct (record_attempt _ _ _ _ _ _ e1) as [rc2 e3]. destruct Hframe as (_ & Ec & _).
  destruct (negb _); [done|]. destruct (turbo_agent_retry_wait _ _ _ _) as [rc3 w5].
  destruct (bool_decide _).
  - intros _. split; [done|]. eexists. exact Ec.
  - destruct has_token; [|done]. by destruct (token_check _).
Qed.

Lemma attempt_loop_records fuel start : forall attempt e items rc out id e2,
  max_attempts policy <= UINT_MAX -> 1 <= attempt -> holds e items ->
  attempt_loop cmeta_monotonic_ms cmeta_sleep_ms fuel policy transport request has_token
    start attempt e = Some ((rc, out, id), e2) ->
  exists new recs, ce_calls e2 = ce_calls e ++ new /\ holds e2 (items ++ recs) /\
    (rc <> SALTS_EPROTO -> records_match attempt recs new).
Proof.
  induction fuel as [|fuel IH]; intros attempt e items rc out id e2 Hmax Hatt Hh;
    cbn [attempt_loop]; destruct (Z.ltb_spec (max_attempts policy) attempt); try done.
  1,2: intros [= <- <- <- <-]; exists [], []; rewrite !app_nil_r; by repeat (split; [done|]).
  pose proof (run_attempt_records e items attempt start Hh) as Hrun.
  pose proof (run_attempt_one_call e attempt start) as Hone.
  destruct (run_attempt _ _ _ _ _ _ _ _ e) as [[r|] e1];
    destruct Hrun as (new & recs & Ec & Hh1 & Hmatch).
  - intros [= -> <-]. exists new, recs. split; [done|]. split; [done|].
    intros Hne. destruct Hmatch as [?|(b & i & [= -> _ _])]; [done|by destruct Hne].
  - destruct Hmatch as [Hmatch|(? & ? & ?)]; [|done].
    destruct (Hone eq_refl) as [Hlast [c Ec1]].
    rewrite u32_small by (unfold UINT_MAX in *; lia). intros Hloop.
    rewrite Ec in Ec1. apply app_inv_head in Ec1 as ->.
    destruct (IH (attempt + 1) e1 (items ++ recs) rc out id e2) as (new & recs' & Ec2 & Hh2 & Hm2);
      try done; [lia|].
    exists ([c] ++ new), (recs ++ recs'). rewrite Ec2, Ec, !app_assoc. split; [done|].
    split; [exact Hh2|]. intros Hne. apply records_match_app; [done|].
    by apply Hm2.
Qed.

(** Unless the transport breaks the response protocol, and while memory lasts, a
    model call appends to the state exactly one record per transport call, in
    order, numbered from one, with that call's answer; records of earlier calls
    stay. *)
Theorem attempts_recorded (agent : turbo_agent) (e : envt) (fuel : nat) (items : list J)
    (rc : salts_status) out agent' (e' : envt) :
  transport_v2 agent = Some transport -> retry_policy agent = policy ->
  max_attempts policy <= UINT_MAX -> holds e items -> ce_calls e = [] ->
  turbo_agent_resilient_transport cmeta_monotonic_ms cmeta_sleep_ms fuel (Some agent)
    (Some request) true has_token e = Some (rc, out, agent', e') ->
  rc <> SALTS_EPROTO ->
  exists recs, holds e' (items ++ recs) /\ length recs = length (ce_calls e') /\
    records_match 1 recs (ce_calls e').
Proof.
  intros Et Ep Hmax Hh Ec. unfold turbo_agent_resilient_transport. cbn [negb].
  change (transport_v2 (set_last_id None agent)) with (transport_v2 agent).
  change (retry_policy (set_last_id None agent)) with (retry_policy agent). rewrite Et, Ep.
  destruct (cmeta_monotonic_ms (ce_world e)) as [start w1].
  destruct (attempt_loop _ _ _ _ _ _ _ _ _ _) as [[[[rc' out'] id] e2]|] eqn:Eloop; [|done].
  intros [= <- <- <- <-] Hne.
  destruct (attempt_loop_records fuel start 1 (set_world w1 e) items rc' out' id e2) as
    (new & recs & Ec2 & Hh2 & Hm); try done.
  cbn in Ec2. rewrite Ec in Ec2. cbn in Ec2. rewrite Ec2. exists recs. split; [done|].
  specialize (Hm Hne). split; [|done]. clear -Hm. revert Hm. generalize 1.
  revert recs. induction new as [|c new IH]; intros [|r recs] n; cbn; try done.
  intros [_ Hm]. by rewrite (IH _ _ Hm).
Qed.

End recorded.

(** ** Usage *)

Section usage_facts.
Context {J : Type} `{JsonSettersLaws J, !JsonLaws J}.

(** [usage] gives [n] under a name or its alternative: an exact integer a double
    holds; a count that is not there is zero. *)
Definition count_is (usage : J) (primary : string) (alternate : option string) (n : Z) : Prop :=
  match json_object_get usage primary,
        alt ← alternate; json_object_get usage alt with
  | Some f, _ | None, Some f =>
      double_integral (turbo_runtime_json_value_as_double (Some f) (DFinite (-1) 0)) = Some n /\
      0 <= n <= TURBO_AGENT_USAGE_MAX_EXACT_INTEGER
  | None, None => n = 0
  end.

Lemma usage_exact_u64_spec usage primary alternate :
  let (rc, n) := turbo_agent_usage_exact_u64 usage primary alternate in
  (rc = SALTS_ERANGE /\ forall m, ~ count_is usage primary alternate m) \/
  (rc = SALTS_ENOENT /\ n = 0 /\ count_is usage primary alternate 0 /\
   json_object_get usage primary = None) \/
  (rc = SALTS_OK /\ count_is usage primary alternate n /\
   0 <= n <= TURBO_AGENT_USAGE_MAX_EXACT_INTEGER /\
   (alternate = None -> is_Some (json_object_get usage primary))).
Proof.
  unfold turbo_agent_usage_exact_u64, count_is.
  assert (Hfield : forall (f : J) r, r =
    match double_integral (turbo_runtime_json_value_as_double (Some f) (DFinite (-1) 0)) with
    | Some n => if (0 <=? n) && (n <=? TURBO_AGENT_USAGE_MAX_EXACT_INTEGER)
                then (SALTS_OK, n) else (SALTS_ERANGE, 0)
    | None => (SALTS_ERANGE, 0)
    end -> let (rc, n) := r in
    (rc = SALTS_ERANGE /\ forall m,
      ~ (double_integral (turbo_runtime_json_value_as_double (Some f) (DFinite (-1) 0)) = Some m /\
         0 <= m <= TURBO_AGENT_USAGE_MAX_EXACT_INTEGER)) \/
    (rc = SALTS_OK /\
     double_integral (turbo_runtime_json_value_as_double (Some f) (DFinite (-1) 0)) = Some n /\
     0 <= n <= TURBO_AGENT_USAGE_MAX_EXACT_INTEGER)).
  { intros f r ->. destruct (double_integral _) as [n|]; [|left; split; [done|]; intros m [? _]; done].
    destruct (_ && _) eqn:E; bool_to_prop; [right; by repeat split|left]. split; [done|].
    intros m [[= <-] ?]. apply andb_false_iff in E as [E|E]; bool_to_prop; lia. }
  destruct (json_object_get usage primary) as [f|].
  - match goal with |- let (_, _) := ?r in _ => specialize (Hfield f r eq_refl); destruct r as [rc n] end.
    destruct Hfield as [[-> Hno]|(-> & Hd & Hr)]; [by left|right; right]. by eauto 6.
  - destruct alternate as [alt|]; cbn [mbind option_bind]; [|right; left; by repeat split].
    destruct (json_object_get usage alt) as [f|]; [|right; left; by repeat split].
    match goal with |- let (_, _) := ?r in _ => specialize (Hfield f r eq_refl); destruct r as [rc n] end.
    destruct Hfield as [[-> Hno]|(-> & Hd & Hr)]; [by left|right; right].
    split; [done|]. split; [done|]. by split.
Qed.

(** The counts of a usage object: the total is the given one or the sum. *)
Definition counts_are (usage : J) (input output total : Z) : Prop :=
  count_is usage "input_tokens" (Some "prompt_tokens") input /\
  count_is usage "output_tokens" (Some "completion_tokens") output /\
  match json_object_get usage "total_tokens" with
  | Some _ => count_is usage "total_tokens" None total
  | None => total = input + output
  end /\
  0 <= total <= TURBO_AGENT_USAGE_MAX_EXACT_INTEGER.

Lemma count_is_unique usage p a n m : count_is usage p a n -> count_is usage p a m -> n = m.
Proof.
  unfold count_is. destruct (json_object_get usage p), (alt ← a; json_object_get usage alt);
    try (intros [Hn _] [Hm _]; congruence). congruence.
Qed.

Lemma usage_counts_spec usage :
  match usage_counts usage with
  | inl rc => rc = SALTS_ERANGE /\ forall i o t, ~ counts_are usage i o t
  | inr (i, o, t) => counts_are usage i o t
  end.
Proof.
  unfold usage_counts, counts_are.
  pose proof (usage_exact_u64_spec usage "input_tokens" (Some "prompt_tokens")) as Hi.
  pose proof (usage_exact_u64_spec usage "output_tokens" (Some "completion_tokens")) as Ho.
  pose proof (usage_exact_u64_spec usage "total_tokens" None) as Ht.
  destruct (turbo_agent_usage_exact_u64 usage "input_tokens" _) as [ri i].
  destruct (turbo_agent_usage_exact_u64 usage "output_tokens" _) as [ro o].
  destruct (turbo_agent_usage_exact_u64 usage "total_tokens" _) as [rt t].
  destruct Hi as [[-> Hi]|Hi];
    [rewrite (bool_decide_eq_true_2 (SALTS_ERANGE = SALTS_ERANGE)) by done; cbn [orb];
     split; [done|]; intros ??? (? & _); by eapply Hi|].
  destruct Ho as [[-> Ho]|Ho];
    [rewrite (bool_decide_eq_true_2 (SALTS_ERANGE = SALTS_ERANGE)), orb_true_r by done; cbn [orb];
     split; [done|]; intros ??? (_ & ? & _); by eapply Ho|].
  assert (Hin : ri <> SALTS_ERANGE /\ count_is usage "input_tokens" (Some "prompt_tokens") i /\
    0 <= i <= TURBO_AGENT_USAGE_MAX_EXACT_INTEGER)
    by (destruct Hi as [(-> & -> & ? & _)|(-> & ? & ? & _)]; done).
  assert (Hon : ro <> SALTS_ERANGE /\ count_is usage "output_tokens" (Some "completion_tokens") o /\
    0 <= o <= TURBO_AGENT_USAGE_MAX_EXACT_INTEGER)
    by (destruct Ho as [(-> & -> & ? & _)|(-> & ? & ? & _)]; done).
  clear Hi Ho. destruct Hin as (Hri & Hi & Hibound), Hon as (Hro & Ho & Hobound).
  rewrite !(bool_decide_eq_false_2 (ri = _)), !(bool_decide_eq_false_2 (ro = _)) by done.
  cbn [orb].
  destruct Ht as [[-> Ht]|[(-> & -> & _ & Ht)|(-> & Ht & Htbound & Hsome)]]; cbn [bool_decide].
  - rewrite bool_decide_eq_true_2 by done. split; [done|]. intros ? ? t' (_ & _ & Hc & _).
    destruct (json_object_get usage "total_tokens") eqn:E; [by eapply Ht|].
    eapply (Ht 0). unfold count_is. by rewrite E.
  - rewrite bool_decide_eq_false_2 by done. rewrite bool_decide_eq_true_2 by done. cbn [andb].
    replace (UINT64_MAX - i <? o) with false
      by (symmetry; apply Z.ltb_ge; unfold UINT64_MAX, TURBO_AGENT_USAGE_MAX_EXACT_INTEGER in *; lia).
    rewrite u64_small by (unfold UINT64_MAX, TURBO_AGENT_USAGE_MAX_EXACT_INTEGER in *; lia).
    rewrite Ht. destruct (Z.ltb_spec TURBO_AGENT_USAGE_MAX_EXACT_INTEGER (i + o)).
    + split; [done|]. intros i' o' t' (Hi' & Ho' & -> & Hb).
      rewrite (count_is_unique _ _ _ _ _ Hi' Hi), (count_is_unique _ _ _ _ _ Ho' Ho) in Hb. lia.
    + repeat (split; [done|]). lia.
  - rewrite !bool_decide_eq_false_2 by done. cbn [andb].
    replace (TURBO_AGENT_USAGE_MAX_EXACT_INTEGER <? t) with false by (symmetry; apply Z.ltb_ge; lia).
    destruct (Hsome eq_refl) as [f ->]. done.
Qed.

(** The records a state holds under [usage_records]. *)
Definition usage_held (st : J) : option (list J) :=
  match json_object_get st "usage_records" with
  | None => Some []
  | Some a => if bool_decide (json_type a = JSON_ARRAY) then Some (json_array_items a) else None
  end.

Definition usage_members (run_id thread_id : option string) (provider model : string)
    (last_id : option string) (counts : Z * Z * Z) : list (string * J) :=
  let '(input, output, total) := counts in
  let text v := match v with Some v => json_create_string v | None => json_create_null end in
  let count n := json_create_number (double_of_uint n) in
  [ ("schema_version", count 1); ("run_id", text run_id); ("thread_id", text thread_id);
    ("turn_seq", json_create_null); ("operation", json_create_string "model");
    ("provider", json_create_string provider); ("model", json_create_string model) ]
  ++ match last_id with Some id => [("provider_request_id", json_create_string id)] | None => [] end
  ++ [ ("input_tokens", count input); ("cached_input_tokens", json_create_null);
       ("output_tokens", count output); ("reasoning_tokens", json_create_null);
       ("total_tokens", count total); ("estimated", json_create_bool false) ].

Lemma usage_members_keys run_id thread_id provider model last_id counts :
  NoDup (usage_members run_id thread_id provider model last_id counts).*1.
Proof. destruct counts as [[i o] t], last_id; by apply (bool_decide_unpack _). Qed.

Definition cost_members : list (string * J) :=
  [ ("status", json_create_string "unknown"); ("currency", json_create_string "USD");
    ("amount_micros", json_create_null); ("price_catalog_version", json_create_null) ].

Lemma usage_fields_set run_id thread_id provider model last_id counts :
  Forall2 raw_sets (usage_fields run_id thread_id provider model last_id counts)
    (usage_members run_id thread_id provider model last_id counts).
Proof.
  destruct counts as [[i o] t]. unfold usage_fields, usage_members.
  destruct run_id, thread_id, last_id; repeat constructor; intros obj orc Ho;
    eauto using json_set_string_plenty, json_set_number_plenty, json_set_null_plenty,
      json_set_bool_plenty.
Qed.

Lemma cost_fields_set : Forall2 raw_sets cost_fields cost_members.
Proof.
  repeat constructor; intros obj orc Ho; eauto using json_set_string_plenty, json_set_null_plenty.
Qed.

Definition usage_document run_id thread_id provider model last_id counts : J :=
  json_object_add
    (foldl add_member json_create_object (usage_members run_id thread_id provider model last_id counts))
    "cost" (foldl add_member json_create_object cost_members).

(** The part of the function after the counts. *)
Lemma usage_record_appends st items resp usage counts run_id thread_id provider model last_id o :
  json_type st = JSON_OBJECT -> usage_held st = Some items -> plenty o ->
  json_object_get resp "usage" = Some usage -> json_type usage = JSON_OBJECT ->
  usage_counts usage = inr counts ->
  exists st' o',
    turbo_agent_usage_record run_id thread_id provider model last_id (Some st) (Some resp) o =
      (SALTS_OK, Some st', o') /\
    usage_held st' =
      Some (items ++ [usage_document run_id thread_id provider model last_id counts]) /\
    (forall k, k <> "usage_records" -> json_object_get st' k = json_object_get st k).
Proof.
  intros Hty Hheld Ho Hu Htu Hc. unfold turbo_agent_usage_record. rewrite Hu.
  rewrite bool_decide_eq_true_2 by done. cbn [negb]. rewrite Hc.
  assert (Hpre : exists a st1 o1, plenty o1 /\ json_type a = JSON_ARRAY /\ json_array_items a = items /\
    json_type st1 = JSON_OBJECT /\ json_object_get st1 "usage_records" = Some a /\
    (forall k, k <> "usage_records" -> json_object_get st1 k = json_object_get st k) /\
    match json_object_get st "usage_records" with
    | Some r => (Some r, st, o)
    | None => let (ok, o) := alloc o in
        if ok then let (st, o) := json_object_add_owned st "usage_records" json_create_array o in
                   (Some json_create_array, st, o)
        else (None, st, o)
    end = (Some a, st1, o1)).
  { unfold usage_held in Hheld. destruct (json_object_get st "usage_records") as [a|] eqn:Ea.
    - case_bool_decide; [|done]. injection Hheld as <-. exists a, st, o. repeat (split; [done|]). done.
    - destruct (alloc_plenty o Ho) as (o1 & Ho1 & ->). injection Hheld as <-.
      destruct (json_object_add_plenty st "usage_records" json_create_array o1 Ho1) as (o2 & Ho2 & ->).
      exists json_create_array, (json_object_add st "usage_records" json_create_array), o2.
      split; [done|]. split; [apply json_type_array|]. split; [apply json_items_create|].
      split; [by apply json_type_add|]. split; [by apply json_get_add|]. split; [|done].
      intros k Hk. by apply json_get_add_ne. }
  destruct Hpre as (a & st1 & o1 & Ho1 & Ha & <- & Hty1 & Hget & Hother & Hpre).
  unfold oracle in *. rewrite Hpre. rewrite bool_decide_eq_true_2 by done. cbn [negb].
  destruct (alloc_plenty o1 Ho1) as (o2 & Ho2 & ->).
  destruct (alloc_plenty o2 Ho2) as (o3 & Ho3 & ->). cbn [negb orb].
  destruct (raw_all_plenty _ _ (usage_fields_set run_id thread_id provider model last_id counts)
    json_create_object o3 Ho3) as (o4 & Ho4 & ->).
  destruct (raw_all_plenty _ _ cost_fields_set json_create_object o4 Ho4) as (o5 & Ho5 & ->).
  edestruct (json_object_add_plenty (J := J)) as (o6 & Ho6 & ->); [exact Ho5|].
  edestruct (json_array_add_plenty (J := J)) as (o7 & Ho7 & ->); [exact Ho6|].
  unfold update_member. rewrite Hget. do 2 eexists. split; [done|]. split.
  - unfold usage_held. rewrite json_get_add by done.
    rewrite bool_decide_eq_true_2 by (by apply json_type_array_add). by rewrite json_items_add.
  - intros k Hk. rewrite json_get_add_ne by done. by apply Hother.
Qed.

(** Recording usage: an answer without a usage object changes nothing; counts
    that are not exact integers of a double, or whose sum is not, are refused
    with the state unchanged; otherwise exactly one record is appended, with
    the given counts, the given total or the sum, and nothing else changes. *)
Theorem usage_record_exact (st : J) (items : list J) (resp : J)
    (run_id thread_id : option string) (provider model : string) (last_id : option string)
    (o : oracle) :
  json_type st = JSON_OBJECT -> usage_held st = Some items -> plenty o ->
  exists rc st' o',
    turbo_agent_usage_record run_id thread_id provider model last_id (Some st) (Some resp) o =
      (rc, Some st', o') /\
    match json_object_get resp "usage" with
    | Some usage =>
        if decide (json_type usage = JSON_OBJECT) then
          (rc = SALTS_ERANGE /\ st' = st /\ forall i o t, ~ counts_are usage i o t) \/
          (rc = SALTS_OK /\
           (forall k, k <> "usage_records" -> json_object_get st' k = json_object_get st k) /\
           exists record i o t, counts_are usage i o t /\ usage_held st' = Some (items ++ [record]) /\
             json_object_get record "input_tokens" = Some (json_create_number (double_of_uint i)) /\
             json_object_get record "output_tokens" = Some (json_create_number (double_of_uint o)) /\
             json_object_get record "total_tokens" = Some (json_create_number (double_of_uint t)))
        else rc = SALTS_OK /\ st' = st
    | None => rc = SALTS_OK /\ st' = st
    end.
Proof.
  intros Hty Hheld Ho. destruct (json_object_get resp "usage") as [usage|] eqn:Eu.
  2: { unfold turbo_agent_usage_record. rewrite Eu. by do 3 eexists. }
  destruct (decide (json_type usage = JSON_OBJECT)) as [Htu|Htu].
  2: { unfold turbo_agent_usage_record. rewrite Eu, bool_decide_eq_false_2 by done.
       by do 3 eexists. }
  pose proof (usage_counts_spec usage) as Hspec.
  destruct (usage_counts usage) as [rc|[[i out] t]] eqn:Ec.
  - destruct Hspec as [-> Hno]. unfold turbo_agent_usage_record.
    rewrite Eu, bool_decide_eq_true_2, Ec by done. do 3 eexists. split; [done|]. by left.
  - destruct (usage_record_appends st items resp usage _ run_id thread_id provider model last_id o
      Hty Hheld Ho Eu Htu Ec) as (st' & o' & -> & Hheld' & Hother).
    do 3 eexists. split; [done|]. right. split; [done|]. split; [done|].
    do 4 eexists. split; [done|]. split; [done|]. unfold usage_document.
    rewrite !json_get_add_ne by (try done; apply foldl_add_type, json_type_object).
    split_and!; (apply foldl_add_get; [apply json_type_object|apply usage_members_keys|]);
      destruct last_id; cbn;
      repeat (apply elem_of_cons; first [by left | right]).
Qed.

End usage_facts.

(** ** Concrete runs

    The world is that of [ControlledToken]; a transport that is overloaded until
    the clock reads 4. *)

Module ResilienceRuns.
Import ControlledToken JsonTree.

Definition policy3 : turbo_agent_retry_policy :=
  mk_policy sizeof_retry_policy TURBO_AGENT_RETRY_POLICY_ABI_VERSION 3 10 1000 30000 30000 10000 50 true.

Example default_backoff :
  turbo_agent_retry_policy_valid (Some turbo_agent_retry_policy_init) = true /\
  map (fun n => turbo_agent_retry_delay turbo_agent_retry_policy_init n 0) [1; 2; 3; 4; 5; 6; 7] =
  [250; 500; 1000; 2000; 4000; 8000; 8000].
Proof. split; reflexivity. Qed.

(** The jitter is added after the cap. *)
Example jitter_passes_the_cap :
  turbo_agent_retry_delay (mk_policy sizeof_retry_policy 1 9 100 1000 30000 30000 10000 50 false) 8 0 = 1491.
Proof. reflexivity. Qed.

Lemma retry_delay_spec_witness :
  (turbo_agent_retry_policy_valid (Some policy3) = true /\ policy_in_range policy3 /\ 1 <= 2) /\
  20 - 20 * 50 / 100 <= turbo_agent_retry_delay policy3 2 0 <= Z.min UINT_MAX (20 + 20 * 50 / 100).
Proof.
  assert (Hpre : turbo_agent_retry_policy_valid (Some policy3) = true /\ policy_in_range policy3 /\ 1 <= 2)
    by (split; [reflexivity|]; split; [|lia]; unfold policy_in_range, UINT_MAX; cbn; lia).
  split; [exact Hpre|].
  exact (proj2 (proj2 (proj2 (retry_delay_spec policy3 2 0 (proj1 Hpre) (proj1 (proj2 Hpre))
                                (proj2 (proj2 Hpre)))))).
Defined.

(** Reading the clock lets it advance. *)
Definition demo_clock (e : token_env) : Z * token_env :=
  (Z.min 1000 (env_now e), mk_token_env (Z.min 1000 (env_now e + 1)) (env_token e) (env_heap e) (env_wakes e)).
Definition demo_sleep (ms : Z) (e : token_env) : token_env := e.

Definition overloaded : turbo_agent_transport_response :=
  mk_response sizeof_transport_response 1 (-77) 429 1 true None (Some "transient").
Definition answered : turbo_agent_transport_response :=
  mk_response sizeof_transport_response 1 0 200 0 false (Some "request-1") (Some "ok").

Definition demo_transport : transport_v2_fn (W := token_env) :=
  fun _ _ _ _ _ e => if env_now e <? 4 then (-77, overloaded, e) else (0, answered, e).

Definition demo_agent : turbo_agent (W := token_env) :=
  mk_agent (TransportFn (fun _ e => (-1, None, e))) (Some demo_transport) policy3 None
    "model" "provider".

Definition demo_token_env : token_env :=
  mk_token_env 0 7 ControlRuns.h_token [].
Definition demo_state : jtree := JObj [].
Definition demo_env : call_env (J := jtree) (W := token_env) :=
  mk_env (Some demo_state) [] demo_token_env [] [].

Lemma demo_live : env_live demo_token_env.
Proof.
  split; [cbn; unfold UINT64_MAX; lia|]. split; [by eexists|].
  by exists (ControlRuns.st100 2 0 0).
Qed.

Lemma demo_clock_alive w : alive true w -> alive true (demo_clock w).2.
Proof.
  unfold alive. intros Hw Ht. destruct (Hw Ht) as (Hnow & Htok & Hst).
  split; [cbn; unfold UINT64_MAX in *; lia|]. by split.
Qed.

Lemma demo_transport_alive w resp : alive true w ->
  alive true (demo_transport "{}" true (request_timeout_ms policy3) (connect_timeout_ms policy3) resp w).2.
Proof. unfold demo_transport. by case_match. Qed.

Lemma policy3_ok : turbo_agent_retry_policy_valid (Some policy3) = true /\ policy_in_range policy3.
Proof. split; [done|]. unfold policy_in_range, UINT_MAX. cbn. lia. Qed.

Definition demo_call :=
  turbo_agent_resilient_transport demo_clock demo_sleep 3 (Some demo_agent) (Some "{}") true true demo_env.

Example demo_call_retries :
  option_map (fun r => (r.1.1.1, r.1.1.2, map snd (ce_waits r.2), length (ce_calls r.2))) demo_call =
  Some (SALTS_OK, Some "ok", [5], 2%nat).
Proof. vm_compute. reflexivity. Qed.

Lemma resilient_transport_contract_witness :
  alive true demo_token_env /\
  exists rc out agent' e', demo_call = Some (rc, out, agent', e') /\
    Z.of_nat (length (ce_calls e')) <= 3 /\ Forall (wait_fits policy3) (ce_waits e').
Proof.
  assert (Hal : alive true demo_token_env) by (intros _; exact demo_live).
  split; [exact Hal|].
  destruct (resilient_transport_contract (J := jtree) demo_clock demo_sleep policy3 demo_transport
    "{}" true demo_clock_alive demo_transport_alive (proj1 policy3_ok)
    (proj2 policy3_ok) demo_agent demo_env 3 eq_refl eq_refl Hal eq_refl eq_refl ltac:(cbn; lia))
    as (rc & out & agent' & e' & Hrun & Hcalls & _ & _ & Hwaits & _).
  exists rc, out, agent', e'. exact (conj Hrun (conj Hcalls Hwaits)).
Defined.

Lemma demo_holds : holds demo_env [].
Proof. split; [apply plenty_nil|]. by exists demo_state. Qed.

Lemma demo_call_result : exists out agent' e', demo_call = Some (SALTS_OK, out, agent', e').
Proof. do 3 eexists. vm_compute. reflexivity. Qed.

Lemma attempts_recorded_witness :
  holds demo_env [] /\ exists out agent' e' recs, demo_call = Some (SALTS_OK, out, agent', e') /\
    holds e' recs /\ length recs = length (ce_calls e').
Proof.
  split; [exact demo_holds|]. destruct demo_call_result as (out & agent' & e' & Hrun).
  destruct (attempts_recorded (J := jtree) demo_clock demo_sleep policy3 demo_transport "{}" true
    ltac:(intros w; unfold INT64_MAX; cbn; lia) demo_agent demo_env 3 [] SALTS_OK out agent' e'
    eq_refl eq_refl ltac:(unfold UINT_MAX; cbn; lia) demo_holds eq_refl Hrun ltac:(done))
    as (recs & Hholds & Hlen & _).
  exists out, agent', e', recs. exact (conj Hrun (conj Hholds Hlen)).
Defined.

Definition usage_answer : jtree :=
  JObj [("usage", JObj [("prompt_tokens", JNum None (DFinite 10 0));
                        ("output_tokens", JNum None (DFinite 2 0))])].

Lemma usage_record_exact_witness :
  (json_type demo_state = JSON_OBJECT /\ usage_held demo_state = Some [] /\ plenty []) /\
  exists rc st' o', turbo_agent_usage_record None (Some "thread") "provider" "model" None
    (Some demo_state) (Some usage_answer) [] = (rc, Some st', o').
Proof.
  assert (Hpre : json_type demo_state = JSON_OBJECT /\ usage_held demo_state = Some [] /\ plenty [])
    by exact (conj eq_refl (conj eq_refl plenty_nil)).
  split; [exact Hpre|].
  destruct (usage_record_exact (J := jtree) demo_state [] usage_answer None (Some "thread")
    "provider" "model" None [] (proj1 Hpre) (proj1 (proj2 Hpre)) (proj2 (proj2 Hpre)))
    as (rc & st' & o' & Hrun & _).
  exists rc, st', o'. exact Hrun.
Defined.

End ResilienceRuns.
