(* ===== verification/Prompt.v ===== *)
(** * Prompt messages (src/provider/src/turbo_prompt.c)

    Canonical messages and their parts: constructors, schemas, the validator and
    the conversions to the wire formats of OpenAI chat completions, OpenAI
    responses and Anthropic messages.  Templates are rendered by the Mustache
    library, a parameter.  A NULL result is a computation that fails; values a
    failing function frees are not followed.

    [json_string] of a value that is no string is NULL, as in the wrapper
    [turbo_runtime_json_value_as_string]. *)

From S2P Require Import Prelude RuntimeJson JsonBuild JsonMem.

#[local] Open Scope string_scope.

(* src/provider/include/turbo_prompt.h 13-17 turbo_prompt_status_t *)
Inductive turbo_prompt_status : Type :=
| TURBO_PROMPT_OK | TURBO_PROMPT_INVALID_ARGUMENT | TURBO_PROMPT_OUT_OF_MEMORY.

#[global] Instance turbo_prompt_status_eq_dec : EqDecision turbo_prompt_status.
Proof. solve_decision. Defined.

Definition newline : string := String (Ascii.ascii_of_nat 10) EmptyString.
Definition blank_line : string := newline ++ newline.

Definition is_some_nonempty (s : option string) : bool :=
  match s with Some (String _ _) => true | _ => false end.

Section prompt.
Context {J : Type} `{JsonSetters J}.
Abbreviation as_string := turbo_runtime_json_value_as_string.

(** ** Constructors of messages *)

(* src/provider/src/turbo_prompt.c 1071-1081 turbo_prompt_message_create *)
Definition turbo_prompt_message_create (role content : option string) : mem J :=
  message ← create_object;
  message ← quiet (raw_string "role" (default "user" role)) message;
  quiet (raw_string "content" (default "" content)) message.

(* src/provider/src/turbo_prompt.c 1083-1107 turbo_prompt_message_create_json_value *)
Definition turbo_prompt_message_create_json_value (role content : option string) : mem J :=
  message ← create_object;
  role_value ← attempt (create_string (default "user" role));
  content_value ← attempt (create_string (default "" content));
  role_value ← need role_value;
  content_value ← need content_value;
  message ← put message "role" role_value;
  put message "content" content_value.

(* src/provider/src/turbo_prompt.c 1109-1135 turbo_prompt_chat_assistant_message_create_json_value *)
Definition turbo_prompt_chat_assistant_message_create_json_value (content : option string)
    (tool_calls : option J) : mem J :=
  message ← turbo_prompt_message_create_json_value (Some "assistant") (Some (default "" content));
  message ← (if is_some_nonempty content then mret message
             else (null ← create json_create_null; put message "content" null) : mem J);
  match tool_calls with
  | Some calls => put message "tool_calls" calls
  | None => mret message
  end.

(* src/provider/src/turbo_prompt.c 1137-1155 turbo_prompt_chat_tool_message_create_json_value *)
Definition turbo_prompt_chat_tool_message_create_json_value (tool_call_id content : option string)
  : mem J :=
  match tool_call_id with
  | None => mem_fail
  | Some id =>
      message ← turbo_prompt_message_create_json_value (Some "tool") (Some (default "" content));
      put_string message "tool_call_id" id
  end.

(* src/provider/src/turbo_prompt.c 1157-1188 turbo_prompt_chat_tool_call_create_json_value *)
Definition turbo_prompt_chat_tool_call_create_json_value (id type name arguments : option string)
  : mem J :=
  tool_call ← attempt create_object;
  function_object ← attempt create_object;
  id ← need id; name ← need name; arguments ← need arguments;
  tool_call ← need tool_call;
  function_object ← need function_object;
  tool_call ← put_string tool_call "id" id;
  tool_call ← put_string tool_call "type" (default "function" type);
  function_object ← put_string function_object "name" name;
  function_object ← put_string function_object "arguments" arguments;
  put tool_call "function" function_object.

(* src/provider/src/turbo_prompt.c 1190-1213 turbo_prompt_message_with_content_create_json_value *)
Definition turbo_prompt_message_with_content_create_json_value (role : option string)
    (content : option J) : mem J :=
  content ← need content;
  message ← create_object;
  message ← put_string message "role" (default "user" role);
  put message "content" content.

(* src/provider/src/turbo_prompt.c 1215-1232 turbo_prompt_content_text_part_create_json_value *)
Definition turbo_prompt_content_text_part_create_json_value (text : option string) : mem J :=
  part ← attempt create_object;
  text ← need text; part ← need part;
  part ← put_string part "type" "text";
  put_string part "text" text.

(* src/provider/src/turbo_prompt.c 1234-1259 turbo_prompt_tool_use_part_create_json_value *)
Definition turbo_prompt_tool_use_part_create_json_value (id name : option string)
    (input : option J) : mem J :=
  part ← attempt create_object;
  id ← need id; name ← need name; input ← need input; part ← need part;
  part ← put_string part "type" "tool_use";
  part ← put_string part "id" id;
  part ← put_string part "name" name;
  put part "input" input.

(* src/provider/src/turbo_prompt.c 1261-1284 turbo_prompt_tool_result_part_create_json_value *)
Definition turbo_prompt_tool_result_part_create_json_value (tool_use_id content : option string)
  : mem J :=
  part ← attempt create_object;
  tool_use_id ← need tool_use_id; content ← need content; part ← need part;
  part ← put_string part "type" "tool_result";
  part ← put_string part "tool_use_id" tool_use_id;
  put_string part "content" content.

(* src/provider/src/turbo_prompt.c 1286-1304 turbo_prompt_chat_assistant_message_create *)
Definition turbo_prompt_chat_assistant_message_create (content : option string)
    (tool_calls : option J) : mem J :=
  message ← turbo_prompt_message_create (Some "assistant") (Some (default "" content));
  message ← (if is_some_nonempty content then mret message
             else quiet (raw_null "content") message : mem J);
  match tool_calls with
  | Some calls => quiet (raw_member "tool_calls" calls) message
  | None => mret message
  end.

(* src/provider/src/turbo_prompt.c 1306-1321 turbo_prompt_chat_tool_message_create *)
Definition turbo_prompt_chat_tool_message_create (tool_call_id content : option string) : mem J :=
  match tool_call_id with
  | None => mem_fail
  | Some id =>
      message ← turbo_prompt_message_create (Some "tool") (Some (default "" content));
      quiet (raw_string "tool_call_id" id) message
  end.

(* src/provider/src/turbo_prompt.c 1323-1347 turbo_prompt_chat_tool_call_create *)
Definition turbo_prompt_chat_tool_call_create (id type name arguments : option string) : mem J :=
  id ← need id; name ← need name; arguments ← need arguments;
  tool_call ← attempt create_object;
  function_object ← attempt create_object;
  tool_call ← need tool_call;
  function_object ← need function_object;
  tool_call ← quiet (raw_string "id" id) tool_call;
  tool_call ← quiet (raw_string "type" (default "function" type)) tool_call;
  function_object ← quiet (raw_string "name" name) function_object;
  function_object ← quiet (raw_string "arguments" arguments) function_object;
  quiet (raw_member "function" function_object) tool_call.

(* src/provider/src/turbo_prompt.c 1349-1366 turbo_prompt_message_with_content_create *)
Definition turbo_prompt_message_with_content_create (role : option string) (content : option J)
  : mem J :=
  content ← need content;
  message ← create_object;
  message ← quiet (raw_string "role" (default "user" role)) message;
  quiet (raw_member "content" content) message.

(* src/provider/src/turbo_prompt.c 1368-1383 turbo_prompt_content_text_part_create *)
Definition turbo_prompt_content_text_part_create (text : option string) : mem J :=
  text ← need text;
  part ← create_object;
  part ← quiet (raw_string "type" "text") part;
  quiet (raw_string "text" text) part.

(* src/provider/src/turbo_prompt.c 1385-1405 turbo_prompt_tool_use_part_create *)
Definition turbo_prompt_tool_use_part_create (id name : option string) (input : option J) : mem J :=
  id ← need id; name ← need name; input ← need input;
  part ← create_object;
  part ← quiet (raw_string "type" "tool_use") part;
  part ← quiet (raw_string "id" id) part;
  part ← quiet (raw_string "name" name) part;
  quiet (raw_member "input" input) part.

(* src/provider/src/turbo_prompt.c 1407-1424 turbo_prompt_tool_result_part_create *)
Definition turbo_prompt_tool_result_part_create (tool_use_id content : option string) : mem J :=
  tool_use_id ← need tool_use_id; content ← need content;
  part ← create_object;
  part ← quiet (raw_string "type" "tool_result") part;
  part ← quiet (raw_string "tool_use_id" tool_use_id) part;
  quiet (raw_string "content" content) part.

(* src/provider/src/turbo_prompt.c 1065-1065 turbo_prompt_messages_create *)
Definition turbo_prompt_messages_create : mem J := create_array.
(* src/provider/src/turbo_prompt.c 1067-1069 turbo_prompt_messages_create_json_value *)
Definition turbo_prompt_messages_create_json_value : mem J := create_array.

(** ** Validation *)

(* src/provider/src/turbo_prompt.c 624-679 turbo_prompt_message_validate_json_value *)
Definition content_part_valid (part : J) : bool :=
  if negb (bool_decide (json_type part = JSON_OBJECT)) then false
  else
    match member_string (Some part) "type" with
    | None => false
    | Some type =>
        let text_at key := has_type (member (Some part) key) JSON_STRING in
        if bool_decide (type = "text") then text_at "text"
        else if bool_decide (type = "tool_use")
        then text_at "id" && text_at "name" && has_type (member (Some part) "input") JSON_OBJECT
        else if bool_decide (type = "tool_result") then text_at "tool_use_id" && text_at "content"
        else false
    end.

(* src/provider/src/turbo_prompt.c 693-728 turbo_prompt_message_validate_json_value *)
Definition tool_call_valid (tool_call : J) : bool :=
  if negb (bool_decide (json_type tool_call = JSON_OBJECT)) then false
  else
    let function_value := member (Some tool_call) "function" in
    if negb (has_type (member (Some tool_call) "id") JSON_STRING
             && has_type (member (Some tool_call) "type") JSON_STRING
             && has_type function_value JSON_OBJECT) then false
    else
      let arguments_value := member function_value "arguments" in
      has_type (member function_value "name") JSON_STRING
      && (has_type arguments_value JSON_STRING || has_type arguments_value JSON_OBJECT).

(* src/provider/src/turbo_prompt.c 597-733 turbo_prompt_message_validate_json_value *)
Definition turbo_prompt_message_validate_json_value (message : option J) : turbo_prompt_status :=
  if negb (has_type message JSON_OBJECT) then TURBO_PROMPT_INVALID_ARGUMENT
  else
    let content := member message "content" in
    let tool_calls := member message "tool_calls" in
    if negb (has_type (member message "role") JSON_STRING) then TURBO_PROMPT_INVALID_ARGUMENT
    else if negb (has_type content JSON_STRING || has_type content JSON_NULL
                  || has_type content JSON_ARRAY) then TURBO_PROMPT_INVALID_ARGUMENT
    else if has_type content JSON_ARRAY
            && negb (forallb content_part_valid (default [] (json_array_items <$> content)))
    then TURBO_PROMPT_INVALID_ARGUMENT
    else if bool_decide (is_Some (member message "tool_call_id"))
            && negb (has_type (member message "tool_call_id") JSON_STRING)
    then TURBO_PROMPT_INVALID_ARGUMENT
    else
      match tool_calls with
      | None => TURBO_PROMPT_OK
      | Some calls =>
          if negb (bool_decide (json_type calls = JSON_ARRAY)) then TURBO_PROMPT_INVALID_ARGUMENT
          else if forallb tool_call_valid (json_array_items calls) then TURBO_PROMPT_OK
          else TURBO_PROMPT_INVALID_ARGUMENT
      end.

(** ** Appending *)

(** Status, messages and oracle. *)
(* src/provider/src/turbo_prompt.c 1426-1444 turbo_prompt_messages_append *)
Definition turbo_prompt_messages_append (messages : option J) (role content : option string)
    (o : oracle) : turbo_prompt_status * option J * oracle :=
  match messages with
  | Some l =>
      if negb (bool_decide (json_type l = JSON_ARRAY)) then (TURBO_PROMPT_INVALID_ARGUMENT, messages, o)
      else
        match turbo_prompt_message_create role content o with
        | (None, o) => (TURBO_PROMPT_OUT_OF_MEMORY, messages, o)
        | (Some message, o) =>
            match append l message o with
            | (Some l, o) => (TURBO_PROMPT_OK, Some l, o)
            | (None, o) => (TURBO_PROMPT_OUT_OF_MEMORY, messages, o)
            end
        end
  | None => (TURBO_PROMPT_INVALID_ARGUMENT, messages, o)
  end.

(* src/provider/src/turbo_prompt.c 1446-1471 turbo_prompt_messages_append_json_value *)
Definition turbo_prompt_messages_append_json_value (messages : option J) (role content : option string)
    (o : oracle) : turbo_prompt_status * option J * oracle :=
  match messages with
  | Some l =>
      if negb (bool_decide (json_type l = JSON_ARRAY)) then (TURBO_PROMPT_INVALID_ARGUMENT, messages, o)
      else
        match turbo_prompt_message_create_json_value role content o with
        | (None, o) => (TURBO_PROMPT_OUT_OF_MEMORY, messages, o)
        | (Some message, o) =>
            match turbo_prompt_message_validate_json_value (Some message) with
            | TURBO_PROMPT_OK =>
                match append l message o with
                | (Some l, o) => (TURBO_PROMPT_OK, Some l, o)
                | (None, o) => (TURBO_PROMPT_OUT_OF_MEMORY, messages, o)
                end
            | _ => (TURBO_PROMPT_INVALID_ARGUMENT, messages, o)
            end
        end
  | None => (TURBO_PROMPT_INVALID_ARGUMENT, messages, o)
  end.

(** ** OpenAI chat completions *)

(* src/provider/src/turbo_prompt.c 89-127 turbo_prompt_content_part_to_json *)
Definition turbo_prompt_content_part_to_json (part : J) : mem J :=
  if negb (bool_decide (json_type part = JSON_OBJECT)) then mem_fail
  else
    match member_string (Some part) "type" with
    | None => mem_fail
    | Some type_name =>
        json_part ← create (json_clone part);
        if bool_decide (type_name = "tool_use") then
          input ← need (json_object_get part "input");
          input_json ← create (json_clone input);
          quiet (raw_member "input" input_json) json_part
        else mret json_part
    end.

(** One converted element after the other. *)
Definition add_converted (f : J -> mem J) : J -> J -> mem J :=
  fun array x => y ← f x; quiet_append array y.

(* src/provider/src/turbo_prompt.c 129-163 turbo_prompt_content_json_value_to_json *)
Definition turbo_prompt_content_json_value_to_json (content : option J) : mem J :=
  match content with
  | None => mem_fail
  | Some c =>
      match json_type c with
      | JSON_NULL => create json_create_null
      | JSON_STRING => create_string (json_c_text c)
      | JSON_ARRAY =>
          json_content ← create_array;
          mem_fold (add_converted turbo_prompt_content_part_to_json) (json_array_items c) json_content
      | _ => mem_fail
      end
  end.

(* src/provider/src/turbo_prompt.c 165-168 turbo_prompt_tool_call_to_json *)
Definition turbo_prompt_tool_call_to_json (tool_call : J) : mem J := create (json_clone tool_call).

(* src/provider/src/turbo_prompt.c 170-230 turbo_prompt_message_to_openai_chat_json *)
Definition turbo_prompt_message_to_openai_chat_json (message : J) : mem J :=
  match turbo_prompt_message_validate_json_value (Some message) with
  | TURBO_PROMPT_OK =>
      role ← need (member_string (Some message) "role");
      let content := json_object_get message "content" in
      json_message ← create_object;
      json_message ← quiet (raw_string "role" role) json_message;
      json_content ← turbo_prompt_content_json_value_to_json content;
      json_message ← quiet (raw_member "content" json_content) json_message;
      json_message ←
        match json_object_get message "tool_call_id" with
        | Some id => quiet (raw_string "tool_call_id" (default "" (as_string (Some id)))) json_message
        | None => mret json_message
        end;
      match json_object_get message "tool_calls" with
      | Some tool_calls =>
          json_tool_calls ← create_array;
          json_tool_calls ← mem_fold (add_converted turbo_prompt_tool_call_to_json)
                              (json_array_items tool_calls) json_tool_calls;
          quiet (raw_member "tool_calls" json_tool_calls) json_message
      | None => mret json_message
      end
  | _ => mem_fail
  end.

(* src/provider/src/turbo_prompt.c 735-761 turbo_prompt_messages_to_openai_chat_json *)
Definition turbo_prompt_messages_to_openai_chat_json (messages : option J) : mem J :=
  messages ← need messages;
  if negb (bool_decide (json_type messages = JSON_ARRAY)) then mem_fail
  else
    json_messages ← create_array;
    mem_fold (add_converted turbo_prompt_message_to_openai_chat_json)
      (json_array_items messages) json_messages.

(** ** OpenAI responses *)

(* src/provider/src/turbo_prompt.c 763-773 turbo_prompt_responses_text *)
Definition turbo_prompt_responses_text (items : J) (role : string) (text : option string) : mem J :=
  item ← create_object;
  text ← need text;
  item ← put_string item "role" role;
  item ← put_string item "content" text;
  append items item.

(* src/provider/src/turbo_prompt.c 775-797 turbo_prompt_responses_call *)
Definition turbo_prompt_responses_call (items : J) (id name : option string) (arguments : option J)
  : mem J :=
  if negb (is_some_nonempty id && is_some_nonempty name
           && (has_type arguments JSON_STRING || has_type arguments JSON_OBJECT)) then mem_fail
  else
    id ← need id; name ← need name; arguments ← need arguments;
    text ← (if bool_decide (json_type arguments = JSON_OBJECT)
            then attempt (create (json_serialize arguments))
            else mret (Some (json_c_text arguments)) : mem (option string));
    item ← create_object;
    text ← need text;
    item ← put_string item "type" "function_call";
    item ← put_string item "call_id" id;
    item ← put_string item "name" name;
    item ← put_string item "arguments" text;
    append items item.

(* src/provider/src/turbo_prompt.c 799-810 turbo_prompt_responses_result *)
Definition turbo_prompt_responses_result (items : J) (id output : option string) : mem J :=
  item ← create_object;
  if negb (is_some_nonempty id) then mem_fail
  else
    id ← need id; output ← need output;
    item ← put_string item "type" "function_call_output";
    item ← put_string item "call_id" id;
    item ← put_string item "output" output;
    append items item.

(* src/provider/src/turbo_prompt.c 837-849 turbo_prompt_messages_to_openai_responses_json *)
Definition responses_part (role : string) (items part : J) : mem J :=
  let text key := member_string (Some part) key in
  let type := default "" (text "type") in
  if bool_decide (type = "text") then turbo_prompt_responses_text items role (text "text")
  else if bool_decide (type = "tool_use") then
    if negb (bool_decide (role = "assistant")) then mem_fail
    else turbo_prompt_responses_call items (text "id") (text "name") (json_object_get part "input")
  else turbo_prompt_responses_result items (text "tool_use_id") (text "content").

(* src/provider/src/turbo_prompt.c 850-857 turbo_prompt_messages_to_openai_responses_json *)
Definition responses_tool_call (items call : J) : mem J :=
  let function := json_object_get call "function" in
  if negb (bool_decide (member_string (Some call) "type" = Some "function")) then mem_fail
  else turbo_prompt_responses_call items (member_string (Some call) "id")
         (member_string function "name") (member function "arguments").

(* src/provider/src/turbo_prompt.c 818-858 turbo_prompt_messages_to_openai_responses_json *)
Definition responses_message (items message : J) : mem J :=
  match turbo_prompt_message_validate_json_value (Some message) with
  | TURBO_PROMPT_OK =>
      let role := default "" (member_string (Some message) "role") in
      let content := json_object_get message "content" in
      let calls := json_object_get message "tool_calls" in
      if bool_decide (role = "tool") then
        if bool_decide (is_Some calls) then mem_fail
        else turbo_prompt_responses_result items (member_string (Some message) "tool_call_id")
               (as_string content)
      else if negb (bool_decide (role ∈ ["user"; "assistant"; "system"; "developer"])) then mem_fail
      else if bool_decide (is_Some calls) && negb (bool_decide (role = "assistant")) then mem_fail
      else
        items ←
          (if has_type content JSON_STRING then
             if bool_decide (is_Some calls) && negb (is_some_nonempty (as_string content))
             then mret items
             else turbo_prompt_responses_text items role (as_string content)
           else if has_type content JSON_ARRAY
           then mem_fold (responses_part role) (default [] (json_array_items <$> content)) items
           else mret items : mem J);
        mem_fold responses_tool_call (default [] (json_array_items <$> calls)) items
  | _ => mem_fail
  end.

(* src/provider/src/turbo_prompt.c 812-863 turbo_prompt_messages_to_openai_responses_json *)
Definition turbo_prompt_messages_to_openai_responses_json (messages : option J) : mem J :=
  messages ← need messages;
  if negb (bool_decide (json_type messages = JSON_ARRAY)) then mem_fail
  else
    items ← create_array;
    mem_fold responses_message (json_array_items messages) items.

(** ** Anthropic messages *)

(* src/provider/src/turbo_prompt.c 232-279 turbo_prompt_tool_call_to_anthropic_part *)
Definition turbo_prompt_tool_call_to_anthropic_part (tool_call : J) : mem J :=
  function_value ← need (json_object_get tool_call "function");
  arguments_value ← need (json_object_get function_value "arguments");
  part ← create_object;
  part ← quiet (raw_string "type" "tool_use") part;
  part ← quiet (raw_string "id" (default "" (member_string (Some tool_call) "id"))) part;
  part ← quiet (raw_string "name" (default "" (member_string (Some function_value) "name"))) part;
  input_json ←
    (if bool_decide (json_type arguments_value = JSON_STRING) then
       parsed ← attempt (value ← need (json_parse (json_c_text arguments_value)); create value);
       match parsed with
       | Some value => mret value
       | None => create_object
       end
     else create (json_clone arguments_value) : mem J);
  quiet (raw_member "input" input_json) part.

(* src/provider/src/turbo_prompt.c 308-350 turbo_prompt_message_to_anthropic_json *)
Definition anthropic_assistant_content (content tool_calls : option J) : mem J :=
  match tool_calls with
  | Some calls =>
      json_content ← create_array;
      json_content ←
        (if has_type content JSON_STRING && is_some_nonempty (as_string content) then
           text_part ← turbo_prompt_content_text_part_create (as_string content);
           quiet_append json_content text_part
         else if has_type content JSON_ARRAY then
           mem_fold (add_converted turbo_prompt_content_part_to_json)
             (default [] (json_array_items <$> content)) json_content
         else mret json_content : mem J);
      mem_fold (add_converted turbo_prompt_tool_call_to_anthropic_part) (json_array_items calls)
        json_content
  | None => turbo_prompt_content_json_value_to_json content
  end.

(** A part that cannot be created is not added. *)
(* src/provider/src/turbo_prompt.c 358-372 turbo_prompt_message_to_anthropic_json *)
Definition anthropic_tool_content (tool_call_id content : option string) : mem J :=
  json_content ← create_array;
  part ← attempt (turbo_prompt_tool_result_part_create tool_call_id content);
  match part with
  | Some part => quiet_append json_content part
  | None => mret json_content
  end.

(* src/provider/src/turbo_prompt.c 281-385 turbo_prompt_message_to_anthropic_json *)
Definition turbo_prompt_message_to_anthropic_json (message : J) : mem J :=
  match turbo_prompt_message_validate_json_value (Some message) with
  | TURBO_PROMPT_OK =>
      role ← need (member_string (Some message) "role");
      let content := json_object_get message "content" in
      let tool_calls := json_object_get message "tool_calls" in
      let tool_call_id := member_string (Some message) "tool_call_id" in
      if bool_decide (role = "system") then mem_fail
      else
        json_message ← create_object;
        if bool_decide (role = "assistant") then
          json_message ← quiet (raw_string "role" "assistant") json_message;
          json_content ← anthropic_assistant_content content tool_calls;
          quiet (raw_member "content" json_content) json_message
        else if bool_decide (role = "tool") then
          if negb (bool_decide (is_Some tool_call_id) && bool_decide (is_Some (as_string content)))
          then mem_fail
          else
            json_message ← quiet (raw_string "role" "user") json_message;
            json_content ← anthropic_tool_content tool_call_id (as_string content);
            quiet (raw_member "content" json_content) json_message
        else
          json_message ← quiet (raw_string "role" "user") json_message;
          json_content ← turbo_prompt_content_json_value_to_json content;
          quiet (raw_member "content" json_content) json_message
  | _ => mem_fail
  end.

(** Status, and the messages with the joined text of the system messages. *)
Definition anthropic_result : Type := turbo_prompt_status * option (J * option string) * oracle.

(* src/provider/src/turbo_prompt.c 886-929 turbo_prompt_messages_to_anthropic_json *)
Fixpoint anthropic_loop (messages : list J) (json_messages : J) (system_text : option string)
    (o : oracle) : anthropic_result :=
  match messages with
  | [] => (TURBO_PROMPT_OK, Some (json_messages, system_text), o)
  | message :: rest =>
      match turbo_prompt_message_validate_json_value (Some message) with
      | TURBO_PROMPT_OK =>
          if bool_decide (member_string (Some message) "role" = Some "system") then
            match member_string (Some message) "content" with
            | None => (TURBO_PROMPT_INVALID_ARGUMENT, None, o)
            | Some content_text =>
                let (joined, o) := alloc o in
                if negb joined then (TURBO_PROMPT_OUT_OF_MEMORY, None, o)
                else
                  let system_text :=
                    match system_text with
                    | Some text => text ++ blank_line ++ content_text
                    | None => content_text
                    end in
                  anthropic_loop rest json_messages (Some system_text) o
            end
          else
            match turbo_prompt_message_to_anthropic_json message o with
            | (None, o) => (TURBO_PROMPT_OUT_OF_MEMORY, None, o)
            | (Some json_message, o) =>
                let (json_messages, o) := json_array_add_owned json_messages json_message o in
                anthropic_loop rest json_messages system_text o
            end
      | _ => (TURBO_PROMPT_INVALID_ARGUMENT, None, o)
      end
  end.

(** [out_messages] and [out_system] say which pointers are there. *)
(* src/provider/src/turbo_prompt.c 865-949 turbo_prompt_messages_to_anthropic_json *)
Definition turbo_prompt_messages_to_anthropic_json (messages : option J) (out_messages out_system : bool)
    (o : oracle) : anthropic_result :=
  match messages with
  | Some l =>
      if negb (out_messages && bool_decide (json_type l = JSON_ARRAY))
      then (TURBO_PROMPT_INVALID_ARGUMENT, None, o)
      else
        match create_array o with
        | (None, o) => (TURBO_PROMPT_OUT_OF_MEMORY, None, o)
        | (Some json_messages, o) =>
            match anthropic_loop (json_array_items l) json_messages None o with
            | (TURBO_PROMPT_OK, Some (json_messages, Some text), o) =>
                if negb out_system then (TURBO_PROMPT_OK, Some (json_messages, None), o)
                else
                  let (copied, o) := alloc o in
                  if copied then (TURBO_PROMPT_OK, Some (json_messages, Some text), o)
                  else (TURBO_PROMPT_OUT_OF_MEMORY, None, o)
            | result => result
            end
        end
  | None => (TURBO_PROMPT_INVALID_ARGUMENT, None, o)
  end.

(** ** Templates

    The Mustache library compiles a text and renders it with a JSON value. *)

Section mustache.
Context {T : Type} (mustache_compile : string -> option T) (mustache_render_json : T -> J -> option string).

(* src/provider/src/turbo_prompt.c 995-1047 turbo_prompt_render_template *)
Definition turbo_prompt_render_template (template_text : option string) (input : option J)
  : mem string :=
  match template_text with
  | None => create ""
  | Some text =>
      templ ← need (mustache_compile text);
      render_input ← match input with Some v => mret v | None => create_object end;
      normalized_text ← create (json_serialize render_input);
      normalized_input ← need (json_parse normalized_text);
      normalized_input ← create normalized_input;
      need (mustache_render_json templ normalized_input)
  end.

(** A copy that fails is rendered as no input. *)
(* src/provider/src/turbo_prompt.c 1049-1063 turbo_prompt_render_template_json_value *)
Definition turbo_prompt_render_template_json_value (template_text : option string) (input : option J)
  : mem string :=
  match template_text with
  | None => create ""
  | Some _ =>
      json_input ← attempt (v ← need input; create (json_clone v));
      turbo_prompt_render_template template_text json_input
  end.

End mustache.
End prompt.
