(* ===== verification/PromptFacts.v ===== *)
(** * Properties of prompt messages

    A message that passes validation has a [message_view]; the constructors build
    messages with the intended view, and each conversion to a wire format is
    what a reference function of the views says. *)

From S2P Require Import Prelude RuntimeJson JsonBuild JsonMem Prompt.

#[local] Open Scope string_scope.
#[local] Open Scope list_scope.
#[local] Open Scope Z_scope.

Section views.
Context {J : Type} `{JsonApi J}.
Abbreviation as_string := turbo_runtime_json_value_as_string.

(** ** Views *)

Inductive part_view :=
| PText (text : string)
| PToolUse (id name : string) (input : J)
| PToolResult (tool_use_id content : string).

Inductive arguments_view :=
| AText (text : string)
| AObject (value : J).

Record call_view := mk_call {
  c_id : string;
  c_type : string;
  c_name : string;
  c_arguments : arguments_view
}.

Inductive content_view :=
| CText (text : string)
| CNull
| CParts (parts : list part_view).

Record message_view := mk_message {
  m_role : string;
  m_content : content_view;
  m_tool_call_id : option string;
  m_tool_calls : option (list call_view)
}.

Definition typed (t : json_kind) (v : option J) : option J :=
  j ← v; if decide (json_type j = t) then Some j else None.

Definition view_part (p : J) : option part_view :=
  p ← typed JSON_OBJECT (Some p);
  let text key := as_string (json_object_get p key) in
  type ← text "type";
  if decide (type = "text") then s ← text "text"; Some (PText s)
  else if decide (type = "tool_use") then
    id ← text "id"; name ← text "name";
    input ← typed JSON_OBJECT (json_object_get p "input");
    Some (PToolUse id name input)
  else if decide (type = "tool_result") then
    id ← text "tool_use_id"; content ← text "content"; Some (PToolResult id content)
  else None.

Definition view_arguments (v : option J) : option arguments_view :=
  j ← v;
  match json_type j with
  | JSON_STRING => Some (AText (json_c_text j))
  | JSON_OBJECT => Some (AObject j)
  | _ => None
  end.

Definition view_call (c : J) : option call_view :=
  c ← typed JSON_OBJECT (Some c);
  let text j key := as_string (json_object_get j key) in
  id ← text c "id"; type ← text c "type";
  f ← typed JSON_OBJECT (json_object_get c "function");
  name ← text f "name"; arguments ← view_arguments (json_object_get f "arguments");
  Some (mk_call id type name arguments).

Definition view_content (v : option J) : option content_view :=
  j ← v;
  match json_type j with
  | JSON_STRING => Some (CText (json_c_text j))
  | JSON_NULL => Some CNull
  | JSON_ARRAY => CParts <$> mapM view_part (json_array_items j)
  | _ => None
  end.

(** An absent member is no error. *)
Definition optional {A} (f : J -> option A) (v : option J) : option (option A) :=
  match v with
  | None => Some None
  | Some j => Some <$> f j
  end.

Definition view_calls (j : J) : option (list call_view) :=
  j ← typed JSON_ARRAY (Some j); mapM view_call (json_array_items j).

Definition view_message (m : J) : option message_view :=
  m ← typed JSON_OBJECT (Some m);
  role ← as_string (json_object_get m "role");
  content ← view_content (json_object_get m "content");
  tool_call_id ← optional (fun j => as_string (Some j)) (json_object_get m "tool_call_id");
  tool_calls ← optional view_calls (json_object_get m "tool_calls");
  Some (mk_message role content tool_call_id tool_calls).

(** ** Validation decides whether there is a view *)

Definition found_some {A} (x : option A) : bool := match x with Some _ => true | None => false end.

Lemma has_typed v t : has_type v t = found_some (typed t v).
Proof.
  unfold typed, has_type. destruct v as [j|]; [|done]. cbn. rewrite bool_decide_decide.
  by destruct (decide (json_type j = t)).
Qed.

Lemma has_string v : has_type v JSON_STRING = found_some (as_string v).
Proof.
  unfold turbo_runtime_json_value_as_string, has_type. destruct v as [j|]; [|done].
  by destruct (bool_decide (json_type j = JSON_STRING)).
Qed.

Lemma typed_some t (j : J) : typed t (Some j) = if decide (json_type j = t) then Some j else None.
Proof. done. Qed.

Lemma member_some (j : J) key : member (Some j) key = json_object_get j key.
Proof. done. Qed.

(** Both sides branch on the same members. *)
Ltac view_step :=
  match goal with
  | H : ?P, K : ~ ?P |- _ => destruct (K H)
  | |- context [as_string ?v] => destruct (as_string v)
  | |- context [typed ?t ?v] => destruct (typed t v)
  | |- context [bool_decide ?P] => rewrite (bool_decide_decide P)
  | |- context [decide ?P] => destruct (decide P)
  | |- is_Some (Some _) <-> true = true => split; [done|intros _; by eexists]
  | |- is_Some None <-> false = true => split; [by intros []|done]
  end; cbn [mbind option_bind fmap option_fmap option_map andb orb negb found_some].

Lemma view_part_iff p : is_Some (view_part p) <-> content_part_valid p = true.
Proof.
  unfold view_part, content_part_valid, member_string. cbv beta zeta. rewrite typed_some, !member_some, bool_decide_decide.
  destruct (decide (json_type p = JSON_OBJECT)); cbn [mbind option_bind negb]; [|view_step].
  destruct (as_string (json_object_get p "type")) as [type|]; cbn [mbind option_bind]; [|view_step].
  rewrite !has_string, !has_typed.
  repeat view_step.  
Qed.

Lemma view_call_iff c : is_Some (view_call c) <-> tool_call_valid c = true.
Proof.
  unfold view_call, tool_call_valid, member_string. cbv beta zeta. rewrite typed_some, !member_some, bool_decide_decide.
  destruct (decide (json_type c = JSON_OBJECT)); cbn [mbind option_bind negb]; [|view_step].
  rewrite (has_string (json_object_get c "id")), (has_string (json_object_get c "type")).
  destruct (as_string (json_object_get c "id")) as [id|]; cbn; [|view_step].
  destruct (as_string (json_object_get c "type")) as [type|]; cbn; [|view_step].
  destruct (json_object_get c "function") as [f|]; cbn; [|view_step].
  rewrite bool_decide_decide. destruct (decide (json_type f = JSON_OBJECT)); cbn; [|view_step].
  rewrite has_string. destruct (as_string (json_object_get f "name")) as [name|]; cbn; [|view_step].
  destruct (json_object_get f "arguments") as [j|]; cbn; [|view_step].
  destruct (json_type j); cbn; first [by split; [|intros _; by eexists] | by split; [intros []|]].
Qed.

Lemma view_list_iff {A} (f : J -> option A) (b : J -> bool) (l : list J) :
  (forall x, is_Some (f x) <-> b x = true) -> is_Some (mapM f l) <-> forallb b l = true.
Proof.
  intros Hf. rewrite mapM_is_Some, Forall_forall, forallb_forall. setoid_rewrite list_elem_of_In.
  split; intros Hl x Hx; by apply Hf, Hl.
Qed.

Lemma view_content_iff v : is_Some (view_content v) <->
  (has_type v JSON_STRING || has_type v JSON_NULL || has_type v JSON_ARRAY) &&
  negb (has_type v JSON_ARRAY && negb (forallb content_part_valid (default [] (json_array_items <$> v))))
  = true.
Proof.
  destruct v as [j|]; cbn; [|by split; [intros []|]]. unfold from_option, id.
  pose proof (view_list_iff view_part content_part_valid (json_array_items j) view_part_iff) as Hl.
  destruct (json_type j); cbn; try (by split; [intros []|]); try (by split; [|intros _; by eexists]).
  rewrite fmap_is_Some, Hl. by destruct (forallb _ _).
Qed.

Lemma view_calls_iff v :
  match v with
  | Some calls =>
      if negb (bool_decide (json_type calls = JSON_ARRAY)) then TURBO_PROMPT_INVALID_ARGUMENT
      else if forallb tool_call_valid (json_array_items calls) then TURBO_PROMPT_OK
      else TURBO_PROMPT_INVALID_ARGUMENT
  | None => TURBO_PROMPT_OK
  end = TURBO_PROMPT_OK <-> is_Some (optional view_calls v).
Proof.
  destruct v as [j|]; cbn [optional]; [|by split; [intros _; by eexists|]].
  rewrite fmap_is_Some. unfold view_calls. rewrite typed_some, bool_decide_decide.
  destruct (decide (json_type j = JSON_ARRAY)); cbn; [|by split; [|intros []]].
  rewrite (view_list_iff view_call tool_call_valid _ view_call_iff).
  by destruct (forallb tool_call_valid _).
Qed.

Lemma is_some_bind {A B} (x : option A) (g : A -> B) :
  is_Some (x ≫= fun a => Some (g a)) <-> is_Some x.
Proof. destruct x; cbn; split; try (by intros []); intros _; by eexists. Qed.

Lemma validate_view m :
  turbo_prompt_message_validate_json_value (Some m) = TURBO_PROMPT_OK <-> is_Some (view_message m).
Proof.
  unfold turbo_prompt_message_validate_json_value, view_message.
  rewrite typed_some, !member_some. cbn [has_type]. rewrite bool_decide_decide.
  destruct (decide (json_type m = JSON_OBJECT)); cbn [negb mbind option_bind]; [|by split; [|intros []]].
  rewrite (has_string (json_object_get m "role")).
  destruct (as_string (json_object_get m "role")) as [role|]; cbn [found_some negb mbind option_bind];
    [|by split; [|intros []]].
  pose proof (view_content_iff (json_object_get m "content")) as Hc.
  destruct (view_content (json_object_get m "content")) as [content|]; cbn [mbind option_bind].
  - destruct Hc as [Hc _]. specialize (Hc (ex_intro _ _ eq_refl)). apply andb_prop in Hc as [-> Hc].
    apply negb_true_iff in Hc. rewrite Hc. cbn [negb]. rewrite has_string.
    destruct (json_object_get m "tool_call_id") as [i|];
      cbn [optional fmap option_fmap option_map mbind option_bind].
    2: by rewrite is_some_bind, <- view_calls_iff.
    rewrite bool_decide_eq_true_2 by (by eexists).
    destruct (as_string (Some i)); cbn [found_some negb andb fmap option_fmap option_map mbind option_bind];
      [|by split; [|intros []]].
    by rewrite is_some_bind, <- view_calls_iff.
  - split; [|by intros []]. intros Hok. exfalso. destruct Hc as [_ Hc].
    destruct (_ || _ || _); cbn [negb andb] in *; [|done].
    destruct (has_type (json_object_get m "content") JSON_ARRAY && _); [done|].
    by destruct (Hc eq_refl).
Qed.

(** ** What a view says of the value *)

Lemma typed_inv t v (j : J) : typed t v = Some j -> v = Some j /\ json_type j = t.
Proof. destruct v as [i|]; [|done]. rewrite typed_some. case_decide; [|done]. by intros [= ->]. Qed.

Lemma string_inv v s : as_string v = Some s -> exists j, v = Some j /\ json_type j = JSON_STRING /\ json_c_text j = s.
Proof.
  destruct v as [j|]; cbn; [|done]. case_bool_decide; [|done]. intros [= <-]. by exists j.
Qed.

Lemma view_part_inv p v : view_part p = Some v ->
  json_type p = JSON_OBJECT /\
  let text key := as_string (json_object_get p key) in
  match v with
  | PText s => text "type" = Some "text" /\ text "text" = Some s
  | PToolUse id name input => text "type" = Some "tool_use" /\ text "id" = Some id /\
      text "name" = Some name /\ json_object_get p "input" = Some input /\ json_type input = JSON_OBJECT
  | PToolResult id content => text "type" = Some "tool_result" /\ text "tool_use_id" = Some id /\
      text "content" = Some content
  end.
Proof.
  unfold view_part. rewrite typed_some. case_decide; [|done]. cbn [mbind option_bind].
  destruct (as_string (json_object_get p "type")) as [type|] eqn:Ety; [|done]. cbn [mbind option_bind].
  repeat case_decide; subst; intros Hv; repeat (apply bind_Some in Hv as (? & ? & Hv));
    simplify_eq/=; try done. split; [done|]. by match goal with Hi : typed _ _ = Some _ |- _ =>
      apply typed_inv in Hi as [-> ->] end.
Qed.

Lemma view_arguments_inv v args : view_arguments v = Some args ->
  exists j, v = Some j /\ match args with
    | AText s => json_type j = JSON_STRING /\ json_c_text j = s
    | AObject i => json_type j = JSON_OBJECT /\ j = i
    end.
Proof.
  destruct v as [j|]; cbn; [|done]. destruct (json_type j) eqn:Et; try done; intros [= <-]; by exists j.
Qed.

Lemma view_call_inv c v : view_call c = Some v ->
  json_type c = JSON_OBJECT /\ as_string (json_object_get c "id") = Some (c_id v) /\
  as_string (json_object_get c "type") = Some (c_type v) /\
  exists f, json_object_get c "function" = Some f /\ json_type f = JSON_OBJECT /\
    as_string (json_object_get f "name") = Some (c_name v) /\
    view_arguments (json_object_get f "arguments") = Some (c_arguments v).
Proof.
  unfold view_call. rewrite typed_some. case_decide; [|done]. cbn [mbind option_bind].
  intros Hv. repeat (apply bind_Some in Hv as (? & ? & Hv)). injection Hv as <-. cbn.
  match goal with Hi : typed _ _ = Some ?f |- _ => apply typed_inv in Hi as [-> ?] end.
  split; [done|]. split; [done|]. split; [done|]. by eexists.
Qed.

Lemma view_message_inv m v : view_message m = Some v ->
  json_type m = JSON_OBJECT /\ as_string (json_object_get m "role") = Some (m_role v) /\
  view_content (json_object_get m "content") = Some (m_content v) /\
  m_tool_call_id v = as_string (json_object_get m "tool_call_id") /\
  (json_object_get m "tool_call_id" = None <-> m_tool_call_id v = None) /\
  optional view_calls (json_object_get m "tool_calls") = Some (m_tool_calls v).
Proof.
  unfold view_message. rewrite typed_some. case_decide; [|done]. cbn [mbind option_bind].
  intros Hv. repeat (apply bind_Some in Hv as (? & ? & Hv)). injection Hv as <-. cbn.
  do 3 (split; [done|]). destruct (json_object_get m "tool_call_id") as [i|]; cbn [optional] in *.
  - destruct (as_string (Some i)); [|done]. simplify_eq/=. by repeat split.
  - simplify_eq/=. by repeat split.
Qed.

(** The calls of a message: none, or an array of calls. *)
Lemma view_calls_inv v calls : optional view_calls v = Some calls ->
  match v, calls with
  | None, None => True
  | Some j, Some l => json_type j = JSON_ARRAY /\ Forall2 (fun x c => view_call x = Some c) (json_array_items j) l
  | _, _ => False
  end.
Proof.
  destruct v as [j|]; cbn [optional]; [|by intros [= <-]]. unfold view_calls. rewrite typed_some.
  case_decide; [|done]. cbn [mbind option_bind]. destruct (mapM view_call (json_array_items j)) as [l|] eqn:E;
    [|done]. intros [= <-]. split; [done|]. by apply mapM_Some.
Qed.

Lemma view_content_inv v content : view_content v = Some content ->
  exists j, v = Some j /\ match content with
    | CText s => json_type j = JSON_STRING /\ json_c_text j = s
    | CNull => json_type j = JSON_NULL
    | CParts l => json_type j = JSON_ARRAY /\ Forall2 (fun x p => view_part x = Some p) (json_array_items j) l
    end.
Proof.
  destruct v as [j|]; cbn; [|done]. destruct (json_type j) eqn:Et; try done.
  - intros [= <-]. by exists j.
  - intros [= <-]. by exists j.
  - destruct (mapM view_part (json_array_items j)) as [l|] eqn:E; [|done]. intros [= <-]. exists j.
    split; [done|]. split; [done|]. by apply mapM_Some.
Qed.

End views.

(** ** OpenAI responses: a reference *)

Section responses.
Context {J : Type} `{JsonSettersLaws J, !JsonLaws J}.
Abbreviation as_string := turbo_runtime_json_value_as_string.

Inductive response_item :=
| IText (role content : string)
| ICall (call_id name arguments : string)
| IResult (call_id output : string).

Definition text_object (l : list (string * string)) : J :=
  foldl add_member json_create_object (prod_map id json_create_string <$> l).

Definition item_document (i : response_item) : J :=
  match i with
  | IText role content => text_object [("role", role); ("content", content)]
  | ICall id name arguments =>
      text_object [("type", "function_call"); ("call_id", id); ("name", name); ("arguments", arguments)]
  | IResult id output =>
      text_object [("type", "function_call_output"); ("call_id", id); ("output", output)]
  end.

(** A call needs an identifier and a name, a result an identifier. *)
Definition call_item (id name arguments : string) : option (list response_item) :=
  if decide (id = "" \/ name = "") then None else Some [ICall id name arguments].

Definition result_item (id output : string) : option (list response_item) :=
  if decide (id = "") then None else Some [IResult id output].

Definition arguments_text (a : arguments_view (J := J)) : string :=
  match a with AText s => s | AObject j => json_serialize j end.

Definition part_items (role : string) (p : part_view (J := J)) : option (list response_item) :=
  match p with
  | PText s => Some [IText role s]
  | PToolUse id name input =>
      if decide (role = "assistant") then call_item id name (json_serialize input) else None
  | PToolResult id content => result_item id content
  end.

Definition tool_call_items (c : call_view (J := J)) : option (list response_item) :=
  if decide (c_type c = "function") then call_item (c_id c) (c_name c) (arguments_text (c_arguments c))
  else None.

Definition concat_items {A} (f : A -> option (list response_item)) (l : list A)
  : option (list response_item) := mjoin <$> mapM f l.

(** A tool message is one result; only the assistant calls tools, and a message
    with calls and no text has no text item. *)
Definition message_items (m : message_view (J := J)) : option (list response_item) :=
  if decide (m_role m = "tool") then
    match m_tool_calls m, m_tool_call_id m, m_content m with
    | None, Some id, CText output => result_item id output
    | _, _, _ => None
    end
  else if decide (m_role m ∈ ["user"; "assistant"; "system"; "developer"]) then
    if decide (is_Some (m_tool_calls m) /\ m_role m <> "assistant") then None
    else
      content ← match m_content m with
                | CText s => if decide (is_Some (m_tool_calls m) /\ s = "") then Some []
                             else Some [IText (m_role m) s]
                | CNull => Some []
                | CParts l => concat_items (part_items (m_role m)) l
                end;
      calls ← concat_items tool_call_items (default [] (m_tool_calls m));
      Some (content ++ calls)
  else None.

Definition response_items (l : list J) : option (list response_item) :=
  concat_items (fun m => view_message m ≫= message_items) l.

(** *** The pieces *)

(** Appending what an optional list of items stands for. *)
Definition appends (m : J -> mem J) (items : option (list response_item)) : Prop :=
  forall a, json_type a = JSON_ARRAY ->
  gives (m a) ((foldl json_array_add a ∘ fmap item_document) <$> items).

Lemma text_object_type l : json_type (text_object l) = JSON_OBJECT.
Proof. apply foldl_add_type, json_type_object. Qed.

Lemma put_texts (l : list (string * string)) (k : J -> mem J) y : gives (k (text_object l)) y ->
  gives (foldr (fun kv (k : J -> mem J) obj => put_string obj kv.1 kv.2 ≫= k) k l json_create_object) y.
Proof.
  unfold text_object. generalize (json_type_object (J := J)). generalize (json_create_object (J := J)).
  induction l as [|[key s] l IH]; intros obj Hty Hk; [exact Hk|]. cbn [foldr].
  eapply gives_bind; [by apply gives_put_string|]. by apply IH; [apply json_type_add|].
Qed.

Lemma responses_text_spec role s :
  appends (fun a => turbo_prompt_responses_text a role (Some s)) (Some [IText role s]).
Proof.
  intros a Ha. unfold turbo_prompt_responses_text.
  eapply gives_bind; [apply gives_create|]. eapply gives_bind; [apply gives_need|].
  apply (put_texts [("role", role); ("content", s)]). by apply gives_append.
Qed.

Lemma responses_result_spec id output :
  appends (fun a => turbo_prompt_responses_result a (Some id) (Some output)) (result_item id output).
Proof.
  intros a Ha. unfold turbo_prompt_responses_result, result_item.
  eapply gives_bind; [apply gives_create|]. destruct id as [|c id]; [apply gives_fail|].
  cbn [is_some_nonempty negb]. rewrite decide_False by done. do 2 (eapply gives_bind; [apply gives_need|]).
  apply (put_texts [("type", "function_call_output"); ("call_id", String c id); ("output", output)]).
  by apply gives_append.
Qed.

Lemma responses_call_spec id name j args : view_arguments (Some j) = Some args ->
  appends (fun a => turbo_prompt_responses_call a (Some id) (Some name) (Some j))
    (call_item id name (arguments_text args)).
Proof.
  intros Hj a Ha. unfold turbo_prompt_responses_call, call_item.
  destruct id as [|c id]; [rewrite decide_True by (by left); apply gives_fail|].
  destruct name as [|c' name]; [rewrite decide_True by (by right); apply gives_fail|].
  rewrite decide_False by (by intros []). cbn [is_some_nonempty andb has_type].
  set (doc := [("type", "function_call"); ("call_id", String c id); ("name", String c' name);
               ("arguments", arguments_text args)]).
  cbn in Hj. destruct (json_type j) eqn:Et; try done; injection Hj as <-; cbn [arguments_text] in doc;
    repeat (case_bool_decide; try done); cbn [orb negb];
    do 3 (eapply gives_bind; [apply gives_need|]); rewrite Et;
    repeat (case_bool_decide; try done);
    (eapply gives_bind; [first [apply gives_ret|apply gives_attempt, gives_create]|]);
    (eapply gives_bind; [apply gives_create|]); (eapply gives_bind; [apply gives_need|]);
    apply (put_texts doc); by apply gives_append.
Qed.

Lemma responses_part_spec role p v : view_part p = Some v ->
  appends (fun a => responses_part role a p) (part_items role v).
Proof.
  intros Hv. apply view_part_inv in Hv as [_ Hv]. unfold responses_part, member_string.
  rewrite !member_some. destruct v as [s|i name j|i content]; cbv zeta in Hv.
  - destruct Hv as [-> ->]. apply responses_text_spec.
  - destruct Hv as (-> & -> & -> & -> & Hj). cbn [default from_option id part_items].
    rewrite bool_decide_eq_false_2, bool_decide_eq_true_2 by done.
    case_decide as Hr; [rewrite bool_decide_eq_true_2 by done|rewrite bool_decide_eq_false_2 by done];
      [|intros a Ha; apply gives_fail].
    cbn [negb]. apply (responses_call_spec i name j (AObject j)). cbn. by rewrite Hj.
  - destruct Hv as (-> & -> & ->). apply responses_result_spec.
Qed.

Lemma responses_tool_call_spec c v : view_call c = Some v ->
  appends (fun a => responses_tool_call a c) (tool_call_items v).
Proof.
  intros Hv. apply view_call_inv in Hv as (_ & Hid & Hty & f & Hf & _ & Hname & Hargs).
  unfold responses_tool_call, member_string, tool_call_items. rewrite !member_some, Hf, Hid, Hty, !member_some, Hname.
  case_decide as Ht; [rewrite bool_decide_eq_true_2 by congruence|rewrite bool_decide_eq_false_2 by congruence];
    cbn [negb]; [|intros a Ha; apply gives_fail].
  destruct (json_object_get f "arguments") as [j|]; [|done]. by apply responses_call_spec.
Qed.

(** A loop over a list appends the items of its elements. *)
Lemma responses_loop {A} (f : J -> J -> mem J) (items : A -> option (list response_item)) l vs :
  Forall2 (fun x v => appends (fun a => f a x) (items v)) l vs ->
  appends (mem_fold f l) (concat_items items vs).
Proof.
  intros Hall a Ha. unfold concat_items.
  pose (docs := fun v : A => (fun ys : list response_item => item_document <$> ys) <$> items v).
  assert (H2 : Forall2 (fun x (y : option (list J)) => forall a, json_type a = JSON_ARRAY ->
    gives (f a x) (foldl json_array_add a <$> y)) l (docs <$> vs)).
  { apply Forall2_fmap_r. eapply Forall2_impl; [exact Hall|]. intros x v Hx b Hb.
    specialize (Hx b Hb). unfold docs. by destruct (items v). }
  pose proof (gives_append_each f l _ H2 a Ha) as Hg.
  replace (mapM id (docs <$> vs)) with
    ((fun ys : list (list response_item) =>
        (fun y : list response_item => item_document <$> y) <$> ys) <$> mapM items vs) in Hg.
  - destruct (mapM items vs) as [ys|]; cbn in Hg |- *; [|done].
    replace (item_document <$> mjoin ys) with (mjoin ((fun y : list response_item => item_document <$> y) <$> ys));
      [exact Hg|].
    clear. induction ys as [|y ys IH]; [done|]. cbn. rewrite fmap_app. f_equal. exact IH.
  - clear. induction vs as [|v vs IH]; [done|]. cbn. unfold docs at 2. destruct (items v); cbn; [|done].
    rewrite <- IH. by destruct (mapM items vs).
Qed.

(** One computation after the other. *)
Lemma appends_seq f g i1 i2 : appends f i1 -> (forall xs, i1 = Some xs -> appends g i2) ->
  appends (fun a => f a ≫= g) (xs ← i1; ys ← i2; Some (xs ++ ys)).
Proof.
  intros Hf Hg a Ha. specialize (Hf a Ha). destruct i1 as [xs|]; cbn in Hf |- *; [|by apply gives_bind_none].
  eapply gives_bind; [exact Hf|]. cbn.
  destruct (array_add_all (item_document <$> xs) a Ha) as [Ht _].
  specialize (Hg xs eq_refl _ Ht). destruct i2 as [ys|]; cbn in Hg |- *; [|done].
  by rewrite fmap_app, foldl_app.
Qed.

Lemma appends_none : appends mret (Some []).
Proof. intros a Ha. apply gives_ret. Qed.

(** The text or the parts of a message that is no tool result. *)
Lemma responses_content_spec role c content (calls : option J) (vcalls : option (list (call_view (J := J)))) :
  view_content c = Some content -> (is_Some calls <-> is_Some vcalls) ->
  appends (fun items =>
      if has_type c JSON_STRING then
        if bool_decide (is_Some calls) && negb (is_some_nonempty (as_string c)) then mret items
        else turbo_prompt_responses_text items role (as_string c)
      else if has_type c JSON_ARRAY
      then mem_fold (responses_part role) (default [] (json_array_items <$> c)) items
      else mret items)
    (match content with
     | CText s => if decide (is_Some vcalls /\ s = "") then Some [] else Some [IText role s]
     | CNull => Some []
     | CParts l => concat_items (part_items role) l
     end).
Proof.
  intros Hc Hcalls. apply view_content_inv in Hc as (j & -> & Hc). cbn [has_type].
  destruct content as [s| |l].
  - destruct Hc as [Ht <-]. cbn [turbo_runtime_json_value_as_string].
    rewrite !(bool_decide_eq_true_2 (json_type j = JSON_STRING)) by done.
    replace (bool_decide (is_Some calls) && negb (is_some_nonempty (Some (json_c_text j)))) with
      (bool_decide (is_Some vcalls /\ json_c_text j = "")).
    + case_decide as Hd; [rewrite bool_decide_eq_true_2 by done; apply appends_none|].
      rewrite bool_decide_eq_false_2 by done. apply responses_text_spec.
    + apply eq_true_iff_eq. rewrite andb_true_iff, !bool_decide_eq_true, Hcalls.
      by destruct (json_c_text j); cbn; split; intros [].
  - repeat case_bool_decide; try congruence. apply appends_none.
  - destruct Hc as [Ht Hl]. rewrite bool_decide_eq_false_2, bool_decide_eq_true_2 by congruence.
    apply responses_loop. eapply Forall2_impl; [exact Hl|]. intros x p. apply responses_part_spec.
Qed.

Lemma responses_result_missing a id output : id = None \/ output = None ->
  gives (turbo_prompt_responses_result a id output) None.
Proof.
  intros Hnone. unfold turbo_prompt_responses_result. eapply gives_bind; [apply gives_create|].
  destruct (is_some_nonempty id) eqn:E; cbn [negb]; [|apply gives_fail].
  destruct id as [i|]; [|done]. eapply gives_bind; [apply gives_need|].
  destruct Hnone as [|Ho]; [done|]. rewrite Ho. apply gives_bind_none, gives_need.
Qed.

Lemma content_text c content : view_content c = Some content ->
  as_string c = match content with CText s => Some s | _ => None end.
Proof.
  intros Hc. apply view_content_inv in Hc as (j & -> & Hc). cbn [turbo_runtime_json_value_as_string].
  destruct content as [s| |l].
  - destruct Hc as [Ht <-]. by rewrite bool_decide_eq_true_2.
  - by rewrite bool_decide_eq_false_2 by congruence.
  - destruct Hc as [Ht _]. by rewrite bool_decide_eq_false_2 by congruence.
Qed.

Lemma responses_message_spec m v : view_message m = Some v ->
  appends (fun a => responses_message a m) (message_items v).
Proof.
  intros Hm a Ha. unfold responses_message. rewrite (proj2 (validate_view m)) by (by eexists).
  apply view_message_inv in Hm as (_ & Hrole & Hcontent & Hid & _ & Hcalls).
  unfold member_string. rewrite !member_some, Hrole, <- Hid. cbn [default from_option].
  unfold id. apply view_calls_inv in Hcalls. unfold message_items.
  assert (Hsome : is_Some (json_object_get m "tool_calls") <-> is_Some (m_tool_calls v)).
  { destruct (json_object_get m "tool_calls"), (m_tool_calls v); try done; split; intros _; by eexists. }
  case_decide as Htool; [rewrite bool_decide_eq_true_2 by done|rewrite bool_decide_eq_false_2 by done].
  - destruct (json_object_get m "tool_calls"), (m_tool_calls v); try done;
      [rewrite bool_decide_eq_true_2 by (by eexists); apply gives_fail|].
    rewrite bool_decide_eq_false_2 by (by intros []). rewrite (content_text _ _ Hcontent).
    destruct (m_tool_call_id v) as [i|], (m_content v) as [s| |l];
      try (apply responses_result_missing; tauto). by apply responses_result_spec.
  - case_decide as Hin; [rewrite bool_decide_eq_true_2 by done|rewrite bool_decide_eq_false_2 by done];
      cbn [negb]; [|apply gives_fail].
    replace (bool_decide (is_Some (json_object_get m "tool_calls")) && negb (bool_decide (m_role v = "assistant")))
      with (bool_decide (is_Some (m_tool_calls v) /\ m_role v <> "assistant")).
    2: { apply eq_true_iff_eq. rewrite andb_true_iff, negb_true_iff, !bool_decide_eq_true, bool_decide_eq_false.
         by rewrite Hsome. }
    case_decide as Hno; [rewrite bool_decide_eq_true_2 by done; apply gives_fail|].
    rewrite bool_decide_eq_false_2 by done. revert a Ha.
    apply (appends_seq _ (mem_fold responses_tool_call _)).
    + by apply responses_content_spec.
    + intros _ _. apply responses_loop.
      destruct (json_object_get m "tool_calls") as [j|], (m_tool_calls v) as [l|]; try done.
      destruct Hcalls as [_ Hl]. eapply Forall2_impl; [exact Hl|]. intros x c. apply responses_tool_call_spec.
Qed.

Lemma responses_message_invalid a m : view_message m = None -> gives (responses_message a m) None.
Proof.
  intros Hm. unfold responses_message.
  destruct (turbo_prompt_message_validate_json_value (Some m)) eqn:E; try apply gives_fail.
  apply validate_view in E. rewrite Hm in E. by destruct E.
Qed.

(** The conversion to the OpenAI responses format is its reference: while memory
    lasts it answers NULL exactly when some message is not valid or cannot be
    expressed (a tool message that is no single result, calls of another role
    than the assistant, calls without identifier or name, other roles), and
    otherwise the array of exactly the documents of the messages' texts, calls
    and results, in order. *)
Theorem responses_reference (messages : J) : json_type messages = JSON_ARRAY ->
  gives (turbo_prompt_messages_to_openai_responses_json (Some messages))
    ((array_of ∘ fmap item_document) <$> response_items (json_array_items messages)).
Proof.
  intros Ht. unfold turbo_prompt_messages_to_openai_responses_json.
  eapply gives_bind; [apply gives_need|]. rewrite bool_decide_eq_true_2 by done. cbn [negb].
  eapply gives_bind; [apply gives_create|].
  apply (responses_loop responses_message (fun m => view_message m ≫= message_items));
    [|apply json_type_array].
  apply Forall_Forall2_diag. apply Forall_forall. intros m _ a Ha.
  destruct (view_message m) as [v|] eqn:Ev; cbn; [by apply responses_message_spec|].
  by apply responses_message_invalid.
Qed.

End responses.
