(* ===== verification/PromptWire.v ===== *)
(** * Prompt messages in the chat and Anthropic formats

    Views up to equivalence of the JSON values in them, and what the two
    conversions that clone parts and calls make of a message's view. *)

From S2P Require Import Prelude RuntimeJson JsonBuild JsonMem Prompt PromptFacts.

#[local] Open Scope string_scope.
#[local] Open Scope list_scope.
#[local] Open Scope Z_scope.

(** ** Views up to equivalence of the JSON values in them *)

Section equivalence.
Context {J : Type} `{JsonLaws J}.
Abbreviation as_string := turbo_runtime_json_value_as_string.

Inductive part_equiv : part_view (J := J) -> part_view (J := J) -> Prop :=
| pe_text s : part_equiv (PText s) (PText s)
| pe_tool_use id name j j' : json_equiv j j' -> part_equiv (PToolUse id name j) (PToolUse id name j')
| pe_tool_result id content : part_equiv (PToolResult id content) (PToolResult id content).

Inductive arguments_equiv : arguments_view (J := J) -> arguments_view (J := J) -> Prop :=
| ae_text s : arguments_equiv (AText s) (AText s)
| ae_object j j' : json_equiv j j' -> arguments_equiv (AObject j) (AObject j').

Definition call_equiv (c c' : call_view (J := J)) : Prop :=
  c_id c = c_id c' /\ c_type c = c_type c' /\ c_name c = c_name c' /\
  arguments_equiv (c_arguments c) (c_arguments c').

Inductive content_equiv : content_view (J := J) -> content_view (J := J) -> Prop :=
| ce_text s : content_equiv (CText s) (CText s)
| ce_null : content_equiv CNull CNull
| ce_parts l l' : Forall2 part_equiv l l' -> content_equiv (CParts l) (CParts l').

Definition message_equiv (m m' : message_view (J := J)) : Prop :=
  m_role m = m_role m' /\ content_equiv (m_content m) (m_content m') /\
  m_tool_call_id m = m_tool_call_id m' /\
  option_Forall2 (Forall2 call_equiv) (m_tool_calls m) (m_tool_calls m').

Lemma as_string_equiv a b : option_Forall2 json_equiv a b -> as_string a = as_string b.
Proof.
  destruct 1 as [a b E|]; [|done]. cbn. rewrite (json_type_proper a b E), (json_c_text_proper a b E). done.
Qed.

Lemma typed_equiv t a b : option_Forall2 json_equiv a b ->
  option_Forall2 json_equiv (typed t a) (typed t b).
Proof.
  destruct 1 as [a b E|]; [|constructor]. rewrite !typed_some, (json_type_proper a b E).
  by case_decide; constructor.
Qed.

(** Two objects with equivalent members. *)
Definition same_members (p p' : J) : Prop :=
  json_type p = json_type p' /\
  forall k, option_Forall2 json_equiv (json_object_get p k) (json_object_get p' k).

Lemma equiv_same_members p p' : json_equiv p p' -> same_members p p'.
Proof. intros E. split; [by apply json_type_proper|]. intros k. by apply json_get_proper. Qed.

Lemma view_part_same p p' : same_members p p' ->
  option_Forall2 part_equiv (view_part p) (view_part p').
Proof.
  intros [Ht Hm]. unfold view_part. rewrite !typed_some, <- Ht. case_decide; [|constructor].
  cbn [mbind option_bind].
  rewrite !(as_string_equiv _ _ (Hm _)). pose proof (typed_equiv JSON_OBJECT _ _ (Hm "input")) as Hi.
  destruct (as_string (json_object_get p' "type")) as [type|]; [|constructor]. cbn [mbind option_bind].
  repeat case_decide.
  - destruct (as_string (json_object_get p' "text")); repeat constructor.
  - destruct (as_string (json_object_get p' "id")); [|constructor].
    destruct (as_string (json_object_get p' "name")); [|constructor]. cbn.
    destruct Hi; repeat constructor. done.
  - destruct (as_string (json_object_get p' "tool_use_id")); [|constructor].
    destruct (as_string (json_object_get p' "content")); repeat constructor.
  - constructor.
Qed.

Lemma view_arguments_equiv a b : option_Forall2 json_equiv a b ->
  option_Forall2 arguments_equiv (view_arguments a) (view_arguments b).
Proof.
  destruct 1 as [a b E|]; [|constructor]. cbn. rewrite (json_type_proper a b E), (json_c_text_proper a b E).
  destruct (json_type b); repeat constructor. done.
Qed.

Lemma view_call_equiv c c' : json_equiv c c' ->
  option_Forall2 call_equiv (view_call c) (view_call c').
Proof.
  intros E. destruct (equiv_same_members c c' E) as [Ht Hm]. unfold view_call.
  rewrite !typed_some, <- Ht. case_decide; [|constructor]. cbn [mbind option_bind].
  rewrite !(as_string_equiv _ _ (Hm _)). pose proof (typed_equiv JSON_OBJECT _ _ (Hm "function")) as Hf.
  destruct (as_string (json_object_get c' "id")); [|constructor].
  destruct (as_string (json_object_get c' "type")); [|constructor]. cbn [mbind option_bind].
  destruct Hf as [f f' Ef|]; [|constructor]. cbn [mbind option_bind].
  destruct (equiv_same_members f f' Ef) as [_ Hfm].
  rewrite (as_string_equiv _ _ (Hfm "name")).
  pose proof (view_arguments_equiv _ _ (Hfm "arguments")) as Ha.
  destruct (as_string (json_object_get f' "name")); [|constructor]. cbn [mbind option_bind].
  by destruct Ha; repeat constructor.
Qed.

(** The view of a member, whatever else the value holds. *)
Lemma created_text s : c_text s -> as_string (Some (json_create_string (J := J) s)) = Some s.
Proof.
  intros Hs. cbn. rewrite bool_decide_eq_true_2 by apply json_type_string.
  by rewrite json_c_text_create, Hs.
Qed.

Lemma view_content_text s : c_text s -> view_content (J := J) (Some (json_create_string s)) = Some (CText s).
Proof. intros Hs. cbn. by rewrite json_type_string, json_c_text_create, Hs. Qed.

End equivalence.

(** ** OpenAI chat completions *)

Section chat.
Context {J : Type} `{JsonSettersLaws J, !JsonLaws J, !JsonNewLaws J}.
Abbreviation as_string := turbo_runtime_json_value_as_string.

(** A conversion that answers a value with a view related to the source's. *)
Definition converts {A B} (m : mem J) (view : J -> option B) (R : B -> A -> Prop) (v : A) : Prop :=
  exists y v', gives m (Some y) /\ view y = Some v' /\ R v' v.

Lemma content_part_converts p v : view_part p = Some v ->
  converts (turbo_prompt_content_part_to_json p) view_part part_equiv v.
Proof.
  intros Hv. pose proof Hv as Hinv. apply view_part_inv in Hinv as [Ht Hinv].
  assert (Hp : exists p', gives (turbo_prompt_content_part_to_json p) (Some p') /\ same_members p' p).
  { unfold turbo_prompt_content_part_to_json, member_string. rewrite bool_decide_eq_true_2, member_some by done.
    cbn [negb].
    assert (Hc : same_members (json_clone p) p) by apply equiv_same_members, json_clone_equiv.
    destruct v as [s|i name j|i content]; cbv zeta in Hinv.
    - destruct Hinv as [-> _]. eexists. split; [|exact Hc].
      eapply gives_bind; [apply gives_create|]. apply gives_ret.
    - destruct Hinv as (-> & _ & _ & Hj & _). rewrite Hj. eexists (add_member (json_clone p) ("input", json_clone j)).
      split.
      + eapply gives_bind; [apply gives_create|]. rewrite bool_decide_eq_true_2 by done.
        eapply gives_bind; [apply gives_need|]. eapply gives_bind; [apply gives_create|].
        apply gives_quiet, raw_member_sets.
      + destruct Hc as [Hct Hcm]. rewrite Ht in Hct. unfold add_member. cbn [fst snd].
        split; [by rewrite json_type_add, Ht|]. intros k. destruct (decide ("input" = k)) as [<-|Hne].
        * rewrite json_get_add, Hj by done. constructor. apply json_clone_equiv.
        * rewrite json_get_add_ne by done. apply Hcm.
    - destruct Hinv as [-> _]. eexists. split; [|exact Hc].
      eapply gives_bind; [apply gives_create|]. apply gives_ret. }
  destruct Hp as (p' & Hg & Hs). pose proof (view_part_same _ _ Hs) as He. rewrite Hv in He.
  destruct (view_part p') as [v'|] eqn:E; inversion He; subst. by exists p', v'.
Qed.

(** A list of conversions. *)
Lemma each_converts {A B} (f : J -> mem J) (P : J -> A -> Prop) (view : J -> option B) R l vs a :
  Forall2 P l vs ->
  (forall x v, P x v -> converts (f x) view R v) -> json_type a = JSON_ARRAY ->
  exists ys vs', gives (mem_fold (add_converted f) l a) (Some (foldl json_array_add a ys)) /\
    Forall2 (fun y v => view y = Some v) ys vs' /\ Forall2 R vs' vs.
Proof.
  intros Hl Hf Ha.
  assert (Hy : exists ys vs', Forall2 (fun x y => gives (f x) y) l (Some <$> ys) /\
    Forall2 (fun y v => view y = Some v) ys vs' /\ Forall2 R vs' vs).
  { induction Hl as [|x v l vs Hx _ IH]; [by exists [], []|].
    destruct IH as (ys & vs' & ? & ? & ?). destruct (Hf x v Hx) as (y & v' & Hg & Hv & Hr).
    exists (y :: ys), (v' :: vs'). by repeat constructor. }
  destruct Hy as (ys & vs' & Hg & Hv & Hr). exists ys, vs'. split; [|done].
  pose proof (gives_each f l _ Hg a Ha) as Hloop.
  replace (mapM id (Some <$> ys)) with (Some ys) in Hloop; [exact Hloop|].
  clear. induction ys as [|y ys IH]; [done|]. cbn. by rewrite <- IH.
Qed.

(** A list with an element that cannot be converted. *)
Lemma each_fails (f : J -> mem J) l : forall a, Exists (fun x => gives (f x) None) l ->
  (forall x, x ∈ l -> exists y, gives (f x) y) -> json_type a = JSON_ARRAY ->
  gives (mem_fold (add_converted f) l a) None.
Proof.
  induction l as [|x l IH]; intros a Hex Hall Ha; [by inversion Hex|]. cbn [mem_fold].
  destruct (Hall x) as [[y|] Hy]; [by left| |].
  - inversion Hex as [? ? Hx|? ? Hl]; subst; [by pose proof (gives_unique _ _ _ Hx Hy)|].
    eapply gives_bind; [eapply gives_bind; [exact Hy|apply gives_quiet_append]|].
    apply IH; [done| |by apply json_type_array_add]. intros z Hz. apply Hall. by right.
  - by apply gives_bind_none, gives_bind_none.
Qed.

Lemma content_converts c w : view_content c = Some w ->
  converts (turbo_prompt_content_json_value_to_json c) (fun j => view_content (Some j)) content_equiv w.
Proof.
  intros Hw. apply view_content_inv in Hw as (j & -> & Hw). unfold turbo_prompt_content_json_value_to_json.
  destruct w as [s| |l].
  - destruct Hw as [-> <-]. eexists _, _. split; [apply gives_create|].
    split; [apply view_content_text, json_c_text_is|constructor].
  - rewrite Hw. eexists _, CNull. split; [apply gives_create|]. cbn. rewrite json_type_null. by split; [|constructor].
  - destruct Hw as [-> Hl].
    destruct (each_converts turbo_prompt_content_part_to_json _ view_part part_equiv _ _ json_create_array Hl
      content_part_converts json_type_array) as (ys & vs' & Hg & Hy & Hr).
    destruct (array_of_spec ys) as [Hat Hai]. exists (array_of ys), (CParts vs').
    split; [|split; [|by constructor]].
    + eapply gives_bind; [apply gives_create|exact Hg].
    + cbn. rewrite Hat, Hai. apply mapM_Some in Hy. by rewrite Hy.
Qed.

(** The members of a converted message, and what its view makes of them. *)
Definition id_member (id : option string) : list (string * J) :=
  match id with Some i => [("tool_call_id", json_create_string i)] | None => [] end.

Definition calls_member (calls : option J) : list (string * J) :=
  match calls with Some j => [("tool_calls", j)] | None => [] end.

Lemma built_message_view role y id calls w vs : c_text role -> c_text_if id ->
  view_content (Some y) = Some w -> optional view_calls calls = Some vs ->
  view_message (object_of (("role", json_create_string role) :: ("content", y)
    :: id_member id ++ calls_member calls)) = Some (mk_message role w id vs).
Proof.
  intros Hr Hi Hw Hvs. unfold view_message. rewrite typed_some, decide_True by apply object_of_type.
  cbn [mbind option_bind]. rewrite !object_of_get.
  destruct id as [i|], calls as [j|]; cbn [id_member calls_member app assoc String.eqb Ascii.eqb Bool.eqb];
    rewrite (created_text role Hr), Hw; cbn [mbind option_bind optional fmap option_fmap option_map] in Hvs |- *;
    rewrite ?(created_text _ Hi); cbn [mbind option_bind fmap option_fmap option_map]; by rewrite ?Hvs; simplify_eq/=.
Qed.

Lemma calls_convert j l : view_calls j = Some l ->
  exists a ws, gives (json_tool_calls ← create_array;
      mem_fold (add_converted turbo_prompt_tool_call_to_json) (json_array_items j) json_tool_calls) (Some a) /\
    view_calls a = Some ws /\ Forall2 call_equiv ws l.
Proof.
  intros Hl. pose proof (view_calls_inv (Some j) (Some l)) as Hinv. cbn [optional] in Hinv.
  rewrite Hl in Hinv. destruct (Hinv eq_refl) as [Ht Hall].
  destruct (each_converts turbo_prompt_tool_call_to_json _ view_call call_equiv _ _ json_create_array Hall) as
    (ys & ws & Hg & Hy & Hr); [|apply json_type_array|].
  - intros x c Hx. pose proof (view_call_equiv _ _ (json_clone_equiv x)) as He. rewrite Hx in He.
    destruct (view_call (json_clone x)) as [c'|] eqn:E; inversion He; subst.
    exists (json_clone x), c'. split; [apply gives_create|done].
  - destruct (array_of_spec ys) as [Hat Hai]. exists (array_of ys), ws. split; [|split; [|done]].
    + eapply gives_bind; [apply gives_create|exact Hg].
    + unfold view_calls. rewrite typed_some, decide_True by done. cbn [mbind option_bind].
      rewrite Hai. by apply mapM_Some.
Qed.

Lemma chat_message_converts m v : view_message m = Some v ->
  converts (turbo_prompt_message_to_openai_chat_json m) view_message message_equiv v.
Proof.
  intros Hm. unfold turbo_prompt_message_to_openai_chat_json.
  rewrite (proj2 (validate_view m)) by (by eexists).
  apply view_message_inv in Hm as (_ & Hrole & Hcontent & Hid & Hnone & Hcalls).
  destruct (content_converts _ _ Hcontent) as (y & w & Hy & Hw & Hr).
  assert (Hc : exists calls ws, optional view_calls calls = Some ws /\
    option_Forall2 (Forall2 call_equiv) ws (m_tool_calls v) /\
    forall obj, gives (match json_object_get m "tool_calls" with
      | Some j => (json_tool_calls ← create_array;
          json_tool_calls ← mem_fold (add_converted turbo_prompt_tool_call_to_json) (json_array_items j) json_tool_calls;
          quiet (raw_member "tool_calls" json_tool_calls) obj)
      | None => mret obj
      end) (Some (foldl add_member obj (calls_member calls)))).
  { destruct (json_object_get m "tool_calls") as [j|]; cbn [optional] in Hcalls.
    - destruct (view_calls j) as [l|] eqn:El; [|done]. cbn in Hcalls. injection Hcalls as <-.
      destruct (calls_convert _ _ El) as (a & ws & Hg & Ha & Hws). exists (Some a), (Some ws).
      cbn [optional]. rewrite Ha. split; [done|]. split; [by constructor|]. intros obj o Ho.
      destruct (Hg o Ho) as (o1 & Ho1 & E). unfold mbind, mem_bind in E |- *.
      destruct (create_array o) as [[b|] o2]; [|done]. rewrite E.
      by apply gives_quiet; [apply raw_member_sets|].
    - injection Hcalls as <-. exists None, None. split; [done|]. split; [constructor|].
      intros obj. apply gives_ret. }
  destruct Hc as (calls & ws & Hcv & Hce & Hcg).
  exists (object_of (("role", json_create_string (m_role v)) :: ("content", y)
    :: id_member (m_tool_call_id v) ++ calls_member calls)), (mk_message (m_role v) w (m_tool_call_id v) ws).
  split; [|split; [apply built_message_view; try done; [by eapply as_string_c_text|]|done]].
  2: { destruct (m_tool_call_id v) as [i|] in Hid |- *; [|done]. exact (as_string_c_text _ _ (eq_sym Hid)). }
  unfold member_string. rewrite member_some, Hrole.
  eapply gives_bind; [apply gives_need|]. eapply gives_bind; [apply gives_create|].
  eapply gives_bind; [apply gives_quiet, raw_string_sets|].
  eapply gives_bind; [exact Hy|]. eapply gives_bind; [apply gives_quiet, raw_member_sets|].
  eapply (gives_bind _ _ (foldl add_member _ (id_member (m_tool_call_id v)))).
  - destruct (json_object_get m "tool_call_id") as [i|].
    + rewrite <- Hid. destruct (m_tool_call_id v) as [s|] in Hnone |- *; [|by discriminate (proj2 Hnone eq_refl)].
      apply gives_quiet, raw_string_sets.
    + rewrite (proj1 Hnone eq_refl). apply gives_ret.
  - unfold object_of. cbn [foldl]. rewrite foldl_app. apply Hcg.
Qed.

Lemma chat_message_invalid m : view_message m = None ->
  gives (turbo_prompt_message_to_openai_chat_json m) None.
Proof.
  intros Hm. unfold turbo_prompt_message_to_openai_chat_json.
  destruct (turbo_prompt_message_validate_json_value (Some m)) eqn:E; try apply gives_fail.
  apply validate_view in E. rewrite Hm in E. by destruct E.
Qed.

(** While memory lasts the conversion to chat completions answers NULL exactly when
    some message is not valid; otherwise its messages have, one for one, the
    roles, texts, parts, identifiers and calls of the given ones, so converting
    keeps what every message says. *)
Theorem chat_conversion (messages : J) : json_type messages = JSON_ARRAY ->
  match mapM view_message (json_array_items messages) with
  | Some vs => exists out vs',
      gives (turbo_prompt_messages_to_openai_chat_json (Some messages)) (Some out) /\
      json_type out = JSON_ARRAY /\ mapM view_message (json_array_items out) = Some vs' /\
      Forall2 message_equiv vs' vs
  | None => gives (turbo_prompt_messages_to_openai_chat_json (Some messages)) None
  end.
Proof.
  intros Ht. unfold turbo_prompt_messages_to_openai_chat_json.
  destruct (mapM view_message (json_array_items messages)) as [vs|] eqn:E.
  - apply mapM_Some in E.
    destruct (each_converts _ _ view_message message_equiv _ _ json_create_array E chat_message_converts
      json_type_array) as (ys & vs' & Hg & Hy & Hr).
    destruct (array_of_spec ys) as [Hat Hai]. exists (array_of ys), vs'.
    split; [|split; [done|]; split; [|done]; rewrite Hai; by apply mapM_Some].
    eapply gives_bind; [apply gives_need|]. rewrite bool_decide_eq_true_2 by done. cbn [negb].
    eapply gives_bind; [apply gives_create|exact Hg].
  - eapply gives_bind; [apply gives_need|]. rewrite bool_decide_eq_true_2 by done. cbn [negb].
    eapply gives_bind; [apply gives_create|]. apply each_fails; [| |apply json_type_array].
    + apply mapM_None in E. eapply Exists_impl; [exact E|]. apply chat_message_invalid.
    + intros x _. destruct (view_message x) as [v|] eqn:Ev; [|by exists None; apply chat_message_invalid].
      destruct (chat_message_converts _ _ Ev) as (y & _ & Hy & _). by exists (Some y).
Qed.

End chat.

(** ** Anthropic messages *)

Section anthropic.
Context {J : Type} `{JsonSettersLaws J, !JsonLaws J, !JsonNewLaws J}.
Abbreviation as_string := turbo_runtime_json_value_as_string.

(** *** The reference

    A call becomes a part whose input is the value its arguments are or parse to,
    and the empty object when they do not parse. *)
Definition call_part (c : call_view (J := J)) : part_view (J := J) :=
  PToolUse (c_id c) (c_name c)
    match c_arguments c with
    | AText s => default json_create_object (json_parse s)
    | AObject j => j
    end.

(** The texts of arguments that parse are objects. *)
Definition object_arguments (c : call_view (J := J)) : Prop :=
  match c_arguments c with
  | AText s => forall j, json_parse s = Some j -> json_type j = JSON_OBJECT
  | AObject _ => True
  end.

Definition content_parts (c : content_view (J := J)) : list part_view :=
  match c with
  | CText s => if decide (s = "") then [] else [PText s]
  | CNull => []
  | CParts l => l
  end.

(** A message that is no system message; None where the format has no message for it. *)
Definition anthropic_view (m : message_view (J := J)) : option message_view :=
  if decide (m_role m = "assistant") then
    Some (mk_message "assistant"
      match m_tool_calls m with
      | Some calls => CParts (content_parts (m_content m) ++ (call_part <$> calls))
      | None => m_content m
      end None None)
  else if decide (m_role m = "tool") then
    match m_tool_call_id m, m_content m with
    | Some id, CText s => Some (mk_message "user" (CParts [PToolResult id s]) None None)
    | _, _ => None
    end
  else Some (mk_message "user" (m_content m) None None).

(** The status of the first failure, or the messages and the system texts. *)
Fixpoint anthropic_reference (l : list (option (message_view (J := J))))
  : turbo_prompt_status + (list (message_view (J := J)) * list string) :=
  match l with
  | [] => inr ([], [])
  | None :: _ => inl TURBO_PROMPT_INVALID_ARGUMENT
  | Some m :: r =>
      if decide (m_role m = "system") then
        match m_content m with
        | CText s =>
            match anthropic_reference r with
            | inr (ws, texts) => inr (ws, s :: texts)
            | failed => failed
            end
        | _ => inl TURBO_PROMPT_INVALID_ARGUMENT
        end
      else
        match anthropic_view m with
        | Some w =>
            match anthropic_reference r with
            | inr (ws, texts) => inr (w :: ws, texts)
            | failed => failed
            end
        | None => inl TURBO_PROMPT_OUT_OF_MEMORY
        end
  end.

(** *** The pieces *)

Lemma tool_use_view id name input : c_text id -> c_text name -> json_type input = JSON_OBJECT ->
  view_part (object_of [("type", json_create_string "tool_use"); ("id", json_create_string id);
    ("name", json_create_string name); ("input", input)]) = Some (PToolUse id name input).
Proof.
  intros Hid Hname Hi. unfold view_part. rewrite typed_some, decide_True by apply object_of_type.
  cbn [mbind option_bind]. rewrite !object_of_get. cbn [assoc String.eqb Ascii.eqb Bool.eqb].
  rewrite !created_text by (done || by auto with c_texts). cbn. by rewrite decide_False, !decide_True.
Qed.

Lemma text_part_converts s : c_text s ->
  gives (turbo_prompt_content_text_part_create (Some s))
    (Some (object_of [("type", json_create_string "text"); ("text", json_create_string s)])) /\
  view_part (object_of [("type", json_create_string "text"); ("text", json_create_string s)])
    = Some (PText s).
Proof.
  intros Hs. split.
  - unfold turbo_prompt_content_text_part_create. repeat gives_step. apply gives_quiet, raw_string_sets.
  - unfold view_part. rewrite typed_some, decide_True by apply object_of_type.
    cbn [mbind option_bind]. rewrite !object_of_get. cbn [assoc String.eqb Ascii.eqb Bool.eqb].
    by rewrite !created_text by (done || by auto with c_texts).
Qed.

Lemma tool_result_converts i s : c_text i -> c_text s ->
  let part := object_of [("type", json_create_string "tool_result");
    ("tool_use_id", json_create_string i); ("content", json_create_string s)] in
  gives (turbo_prompt_tool_result_part_create (Some i) (Some s)) (Some part) /\
  view_part (J := J) part = Some (PToolResult i s).
Proof.
  intros Hi Hs. split.
  - unfold turbo_prompt_tool_result_part_create. repeat gives_step. apply gives_quiet, raw_string_sets.
  - unfold view_part. rewrite typed_some, decide_True by apply object_of_type.
    cbn [mbind option_bind]. rewrite !object_of_get. cbn [assoc String.eqb Ascii.eqb Bool.eqb].
    by rewrite !created_text by (done || by auto with c_texts).
Qed.

Lemma call_part_converts c v : view_call c = Some v /\ object_arguments v ->
  converts (turbo_prompt_tool_call_to_anthropic_part c) view_part (fun p v => part_equiv p (call_part v)) v.
Proof.
  intros [Hv Hargs]. apply view_call_inv in Hv as (_ & Hid & _ & f & Hf & _ & Hname & Ha).
  apply view_arguments_inv in Ha as (a & Ha & Ht).
  unfold turbo_prompt_tool_call_to_anthropic_part, member_string.
  assert (Hin : exists input, gives (if bool_decide (json_type a = JSON_STRING) then
       parsed ← attempt (value ← need (json_parse (json_c_text a)); create value);
       match parsed with Some value => mret value | None => create_object end
     else create (json_clone a)) (Some input) /\ json_type input = JSON_OBJECT /\
     part_equiv (PToolUse (c_id v) (c_name v) input) (call_part v)).
  { unfold call_part, object_arguments in *. destruct (c_arguments v) as [s|j].
    - destruct Ht as [-> <-]. rewrite bool_decide_eq_true_2 by done.
      destruct (json_parse (json_c_text a)) as [j|]; cbn [default from_option].
      + exists j. split; [|split; [by apply Hargs|constructor; reflexivity]].
        eapply gives_bind; [apply gives_attempt; eapply gives_bind; [apply gives_need|apply gives_create]|].
        apply gives_ret.
      + exists json_create_object. split; [|split; [apply json_type_object|constructor; reflexivity]].
        eapply gives_bind; [apply gives_attempt, gives_bind_none, gives_need|apply gives_create].
    - destruct Ht as [Ht ->]. rewrite Ht, bool_decide_eq_false_2 by done. exists (json_clone j).
      pose proof (json_clone_equiv j) as He. split; [apply gives_create|].
      split; [by rewrite (json_type_proper _ _ He)|by constructor]. }
  destruct Hin as (input & Hg & Hit & He).
  exists (object_of [("type", json_create_string "tool_use"); ("id", json_create_string (c_id v));
    ("name", json_create_string (c_name v)); ("input", input)]), (PToolUse (c_id v) (c_name v) input).
  split; [|split; [|done]].
  - eapply gives_bind; [rewrite Hf; apply gives_need|]. eapply gives_bind; [rewrite Ha; apply gives_need|].
    rewrite !member_some, Hid, Hname. repeat gives_step.
    apply gives_quiet, raw_member_sets.
  - apply tool_use_view; [by eapply as_string_c_text..|done].
Qed.

Lemma built_anthropic_view role y w : c_text role -> view_content (Some y) = Some w ->
  view_message (J := J) (object_of [("role", json_create_string role); ("content", y)])
    = Some (mk_message role w None None).
Proof. intros Hr Hw. exact (built_message_view role y None None w None Hr I Hw eq_refl). Qed.

(** The content of an assistant message with calls: its text or parts, then the calls. *)
Lemma assistant_content_converts m c j l : view_content c = Some m -> view_calls j = Some l ->
  Forall object_arguments l ->
  exists ys vs', gives (anthropic_assistant_content c (Some j)) (Some (array_of ys)) /\
    Forall2 (fun y v => view_part y = Some v) ys vs' /\
    Forall2 part_equiv vs' (content_parts m ++ (call_part <$> l)).
Proof.
  intros Hc Hl Hobj. unfold anthropic_assistant_content.
  pose proof (view_calls_inv (Some j) (Some l)) as Hinv. cbn [optional] in Hinv.
  rewrite Hl in Hinv. destruct (Hinv eq_refl) as [_ Hall].
  assert (Htext : exists xs us, gives (if has_type c JSON_STRING && is_some_nonempty (as_string c) then
           text_part ← turbo_prompt_content_text_part_create (as_string c);
           quiet_append json_create_array text_part
         else if has_type c JSON_ARRAY then
           mem_fold (add_converted turbo_prompt_content_part_to_json)
             (default [] (json_array_items <$> c)) json_create_array
         else mret json_create_array) (Some (array_of xs)) /\
     Forall2 (fun y v => view_part y = Some v) xs us /\ Forall2 part_equiv us (content_parts m)).
  { apply view_content_inv in Hc as (i & -> & Hc). cbn [has_type turbo_runtime_json_value_as_string].
    destruct m as [s| |ps]; cbn [content_parts].
    - destruct Hc as [-> <-]. rewrite bool_decide_eq_true_2 by done. cbn [andb].
      pose proof (json_c_text_is i) as Hi. destruct (json_c_text i) as [|a s]; cbn [is_some_nonempty].
      + exists [], []. rewrite decide_True by done. split; [|by repeat constructor].
        rewrite bool_decide_eq_false_2 by done. apply gives_ret.
      + destruct (text_part_converts (String a s) Hi) as [Hg Hv]. rewrite decide_False by done.
        eexists [_], [_]. split; [eapply gives_bind; [exact Hg|apply gives_quiet_append]|].
        by repeat constructor.
    - rewrite Hc. repeat (case_bool_decide; try done). exists [], []. by repeat constructor; apply gives_ret.
    - destruct Hc as [-> Hp]. rewrite bool_decide_eq_false_2, bool_decide_eq_true_2 by done.
      exact (each_converts _ _ view_part part_equiv _ _ json_create_array Hp content_part_converts
        json_type_array). }
  destruct Htext as (xs & us & Hg & Hv & Hr). destruct (array_of_spec xs) as [Hat _].
  assert (Hcalls : Forall2 (fun x v => view_call x = Some v /\ object_arguments v) (json_array_items j) l).
  { clear -Hall Hobj. induction Hall; inversion Hobj; subst; repeat constructor; auto. }
  destruct (each_converts _ _ view_part _ _ _ (array_of xs) Hcalls call_part_converts Hat)
    as (ys & vs & Hgc & Hy & Hry).
  exists (xs ++ ys), (us ++ vs). split; [|split; [by apply Forall2_app|]].
  - eapply gives_bind; [apply gives_create|]. eapply gives_bind; [exact Hg|].
    unfold array_of in *. by rewrite foldl_app.
  - apply Forall2_app; [done|]. by apply Forall2_fmap_r.
Qed.

(** A message from its role and its converted content. *)
Lemma built_converts role (content : mem J) w v (m : mem J) : c_text role ->
  (forall y, gives content (Some y) ->
    gives m (Some (object_of [("role", json_create_string role); ("content", y)]))) ->
  converts content (fun j => view_content (Some j)) content_equiv w ->
  v = mk_message role w None None -> converts m view_message message_equiv v.
Proof.
  intros Hrole Hm (y & w' & Hy & Hv & Hr) ->. exists (object_of [("role", json_create_string role); ("content", y)]).
  exists (mk_message role w' None None). split; [by apply Hm|]. split; [by apply built_anthropic_view|].
  by repeat split; [|constructor].
Qed.

Lemma parts_converts (content : mem J) ys vs' l : gives content (Some (array_of ys)) ->
  Forall2 (fun y v => view_part y = Some v) ys vs' -> Forall2 part_equiv vs' l ->
  converts content (fun j => view_content (Some j)) content_equiv (CParts l).
Proof.
  intros Hg Hy Hr. destruct (array_of_spec ys) as [Hat Hai].
  exists (array_of ys), (CParts vs'). split; [done|]. split; [|by constructor].
  cbn. rewrite Hat, Hai. apply mapM_Some in Hy. by rewrite Hy.
Qed.

Lemma tool_content_converts i s : c_text i -> c_text s ->
  converts (anthropic_tool_content (Some i) (Some s)) (fun j => view_content (Some j)) content_equiv
    (CParts [PToolResult i s]).
Proof.
  intros Hi Hs. destruct (tool_result_converts i s Hi Hs) as [Hg Hv].
  eapply (parts_converts _ [_] [_]); [|by repeat constructor|by repeat constructor].
  unfold anthropic_tool_content. eapply gives_bind; [apply gives_create|].
  eapply gives_bind; [apply gives_attempt, Hg|apply gives_quiet_append].
Qed.

(** The content of an assistant message. *)
Lemma assistant_content_spec (c calls : option J) m l : view_content c = Some m ->
  optional view_calls calls = Some l -> Forall object_arguments (default [] l) ->
  converts (anthropic_assistant_content c calls) (fun j => view_content (Some j)) content_equiv
    match l with
    | Some calls => CParts (content_parts m ++ (call_part <$> calls))
    | None => m
    end.
Proof.
  intros Hc Hl Hobj. pose proof (view_calls_inv _ _ Hl) as Hinv.
  destruct calls as [j|], l as [l|]; try done.
  - cbn [optional] in Hl. destruct (view_calls j) as [l'|] eqn:Ej; [|done]. injection Hl as ->.
    destruct (assistant_content_converts _ _ _ _ Hc Ej Hobj) as (ys & vs' & Hg & Hy & Hr).
    by eapply parts_converts.
  - by apply content_converts.
Qed.

Lemma anthropic_message_spec m v : view_message m = Some v -> m_role v <> "system" ->
  Forall object_arguments (default [] (m_tool_calls v)) ->
  match anthropic_view v with
  | Some w => converts (turbo_prompt_message_to_anthropic_json m) view_message message_equiv w
  | None => gives (turbo_prompt_message_to_anthropic_json m) None
  end.
Proof.
  intros Hm Hsys Hobj. unfold turbo_prompt_message_to_anthropic_json.
  rewrite (proj2 (validate_view m)) by (by eexists).
  apply view_message_inv in Hm as (_ & Hrole & Hcontent & Hid & _ & Hcalls).
  unfold member_string. rewrite !member_some, Hrole, <- Hid. unfold anthropic_view.
  assert (Hbuilt : forall role (content : mem J) y, gives content (Some y) ->
    gives (json_message ← quiet (raw_string "role" role) json_create_object;
           json_content ← content; quiet (raw_member "content" json_content) json_message)
      (Some (object_of [("role", json_create_string role); ("content", y)]))).
  { intros role content y Hy. repeat gives_step. apply gives_quiet, raw_member_sets. }
  assert (Hpre : forall (k : string -> J -> mem J) (z : option J), gives (k (m_role v) json_create_object) z ->
    gives (role ← need (Some (m_role v));
           if bool_decide (role = "system") then mem_fail else json_message ← create_object; k role json_message) z).
  { intros k z Hk. eapply gives_bind; [apply gives_need|]. rewrite bool_decide_eq_false_2 by done.
    eapply gives_bind; [apply gives_create|done]. }
  case_decide as Ha; [|case_decide as Ht].
  - eapply (built_converts "assistant"); [done| |exact (assistant_content_spec _ _ _ _ Hcontent Hcalls Hobj)|reflexivity].
    intros y Hy. eapply Hpre. rewrite bool_decide_eq_true_2 by done. by apply Hbuilt.
  - assert (Hgo : m_role v <> "assistant") by done. rewrite (content_text _ _ Hcontent).
    destruct (m_tool_call_id v) as [i|], (m_content v) as [s| |l];
      try (apply Hpre; rewrite bool_decide_eq_false_2, bool_decide_eq_true_2 by done; cbn; apply gives_fail).
    eapply (built_converts "user"); [done| |apply (tool_content_converts i s)|reflexivity].
    2: { exact (as_string_c_text _ _ (eq_sym Hid)). }
    2: { apply view_content_inv in Hcontent as (? & _ & _ & <-). apply json_c_text_is. }
    intros y Hy. apply Hpre. rewrite bool_decide_eq_false_2, bool_decide_eq_true_2 by done. by apply Hbuilt.
  - eapply (built_converts "user"); [done| |exact (content_converts _ _ Hcontent)|reflexivity].
    intros y Hy. apply Hpre. rewrite !bool_decide_eq_false_2 by done. by apply Hbuilt.
Qed.

(** Texts joined one after the other. *)
Definition join_texts (text : option string) (texts : list string) : option string :=
  foldl (fun t s => Some match t with Some t => (t ++ blank_line ++ s)%string | None => s end) text texts.

Lemma anthropic_loop_spec l : forall a text o, json_type a = JSON_ARRAY -> plenty o ->
  Forall (fun m => forall v, view_message m = Some v -> Forall object_arguments (default [] (m_tool_calls v))) l ->
  exists o', plenty o' /\
  match anthropic_reference (view_message <$> l) with
  | inl st => anthropic_loop l a text o = (st, None, o')
  | inr (ws, texts) => exists ys ws',
      anthropic_loop l a text o =
        (TURBO_PROMPT_OK, Some (foldl json_array_add a ys, join_texts text texts), o') /\
      Forall2 (fun y w => view_message y = Some w) ys ws' /\ Forall2 message_equiv ws' ws
  end.
Proof.
  induction l as [|m l IH]; intros a text o Ha Ho Hobj.
  { exists o. split; [done|]. by exists [], []. }
  inversion Hobj as [|? ? Hv Hl]; subst. cbn [fmap list_fmap anthropic_reference anthropic_loop].
  destruct (turbo_prompt_message_validate_json_value (Some m)) eqn:Evalid.
  2,3: destruct (view_message m) as [v|] eqn:Ev;
    [by rewrite (proj2 (validate_view m)) in Evalid by (by eexists)|by exists o].
  apply validate_view in Evalid as [v Ev]. rewrite Ev. specialize (Hv v Ev).
  pose proof (view_message_inv _ _ Ev) as (_ & Hrole & Hcontent & _ & _ & _).
  unfold member_string. rewrite !member_some, Hrole, (content_text _ _ Hcontent).
  case_decide as Hs; [rewrite bool_decide_eq_true_2 by congruence|rewrite bool_decide_eq_false_2 by congruence].
  - destruct (m_content v) as [s| |ps]; [|by exists o|by exists o].
    destruct (alloc_plenty o Ho) as (o1 & Ho1 & ->). cbn [negb].
    destruct (IH a (Some match text with Some t => (t ++ blank_line ++ s)%string | None => s end) o1 Ha Ho1 Hl)
      as (o' & Ho' & Hr).
    exists o'. split; [done|]. by destruct (anthropic_reference _) as [st|[ws texts]], text.
  - pose proof (anthropic_message_spec m v Ev Hs Hv) as Hm. destruct (anthropic_view v) as [w|].
    + destruct Hm as (y & w' & Hg & Hy & He). destruct (Hg o Ho) as (o1 & Ho1 & ->).
      destruct (json_array_add_plenty a y o1 Ho1) as (o2 & Ho2 & ->).
      destruct (IH (json_array_add a y) text o2 (json_type_array_add _ _ Ha) Ho2 Hl) as (o' & Ho' & Hr).
      exists o'. split; [done|]. destruct (anthropic_reference _) as [st|[ws texts]]; [done|].
      destruct Hr as (ys & ws' & -> & Hys & Hws). exists (y :: ys), (w' :: ws').
      split; [done|]. by split; constructor.
    + destruct (Hm o Ho) as (o1 & Ho1 & ->). by exists o1.
Qed.

Lemma join_concat texts : join_texts None texts =
  match texts with [] => None | _ => Some (String.concat blank_line texts) end.
Proof.
  destruct texts as [|t r]; [done|]. unfold join_texts. cbn [foldl].
  revert t. induction r as [|s r IH]; intros t; [done|]. cbn [foldl]. rewrite IH. f_equal.
  destruct r as [|u r]; cbn; [done|]. by rewrite !string_app_assoc.
Qed.

(** While memory lasts the conversion to Anthropic messages is its reference, given that the
    argument texts of calls parse to objects or not at all: the first message
    that cannot be expressed decides the status; otherwise the messages have the
    contents of the others than the system messages in order (calls as parts of
    the assistant, results as parts of the user), and the system text is the
    system messages' texts with a blank line between two of them. *)
Theorem anthropic_conversion (messages : J) (out_system : bool) (o : oracle) :
  json_type messages = JSON_ARRAY -> plenty o ->
  Forall (fun m => forall v, view_message m = Some v -> Forall object_arguments (default [] (m_tool_calls v)))
    (json_array_items messages) ->
  exists o', plenty o' /\
  match anthropic_reference (view_message <$> json_array_items messages) with
  | inl st => turbo_prompt_messages_to_anthropic_json (Some messages) true out_system o = (st, None, o')
  | inr (ws, texts) => exists out ws',
      turbo_prompt_messages_to_anthropic_json (Some messages) true out_system o =
        (TURBO_PROMPT_OK, Some (out, if out_system && bool_decide (texts <> [])
                                     then Some (String.concat blank_line texts) else None), o') /\
      json_type out = JSON_ARRAY /\ mapM view_message (json_array_items out) = Some ws' /\
      Forall2 message_equiv ws' ws
  end.
Proof.
  intros Ht Ho Hobj. unfold turbo_prompt_messages_to_anthropic_json. rewrite bool_decide_eq_true_2 by done.
  cbn [negb andb]. unfold create_array, create. destruct (alloc_plenty o Ho) as (o1 & Ho1 & ->).
  destruct (anthropic_loop_spec _ json_create_array None o1 json_type_array Ho1 Hobj) as (o' & Ho' & Hr).
  destruct (anthropic_reference _) as [st|[ws texts]].
  - exists o'. split; [done|]. rewrite Hr. by destruct st.
  - destruct Hr as (ys & ws' & -> & Hys & Hws). destruct (array_of_spec ys) as [Hat Hai].
    apply mapM_Some in Hys. rewrite <- Hai in Hys. rewrite join_concat.
    destruct texts as [|t texts]; [|destruct out_system].
    + exists o'. split; [done|]. exists (array_of ys), ws'. by destruct out_system.
    + cbn [negb]. destruct (alloc_plenty o' Ho') as (o2 & Ho2 & ->). exists o2. split; [done|].
      exists (array_of ys), ws'. by rewrite bool_decide_eq_true_2.
    + exists o'. split; [done|]. by exists (array_of ys), ws'.
Qed.

End anthropic.

(** ** A conversation *)

Module PromptRuns.
Import JsonTree JsonNew.

Definition said (role content : string) : jtree :=
  JObj [("role", JStr role); ("content", JStr content)].

(** The assistant calls a tool and gets its result. *)
Definition call : jtree :=
  JObj [("id", JStr "c1"); ("type", JStr "function");
        ("function", JObj [("name", JStr "add"); ("arguments", JObj [("a", JStr "1")])])].

Definition asked : jtree :=
  JObj [("role", JStr "assistant"); ("content", JNull); ("tool_calls", JArr [call])].

Definition answered : jtree :=
  JObj [("role", JStr "tool"); ("content", JStr "2"); ("tool_call_id", JStr "c1")].

Definition conversation : jtree :=
  JArr [said "system" "Be brief."; said "user" "1+1?"; asked; answered; said "system" "In words."].

Lemma responses_reference_witness :
  gives (turbo_prompt_messages_to_openai_responses_json (Some conversation))
    (Some (array_of (item_document <$> [IText "system" "Be brief."; IText "user" "1+1?";
       ICall "c1" "add" (json_serialize (JObj [("a", JStr "1")])); IResult "c1" "2";
       IText "system" "In words."]))).
Proof.
  pose proof (responses_reference conversation) as Hg. specialize (Hg eq_refl).
  assert (E : response_items (json_array_items conversation) =
    Some [IText "system" "Be brief."; IText "user" "1+1?";
          ICall "c1" "add" (json_serialize (JObj [("a", JStr "1")])); IResult "c1" "2";
          IText "system" "In words."]) by (vm_compute; reflexivity).
  rewrite E in Hg. exact Hg.
Defined.

Lemma chat_conversion_witness : exists out vs',
  gives (turbo_prompt_messages_to_openai_chat_json (Some conversation)) (Some out) /\
  mapM view_message (json_array_items out) = Some vs' /\ length vs' = 5%nat.
Proof.
  pose proof (chat_conversion conversation) as Hc.
  destruct (Hc eq_refl) as (out & vs' & Hg & _ & Hv & Hr).
  exists out, vs'. split; [exact Hg|]. split; [exact Hv|]. apply Forall2_length in Hr. exact Hr.
Defined.

Lemma anthropic_conversion_witness : exists out ws' o',
  turbo_prompt_messages_to_anthropic_json (Some conversation) true true [] =
    (TURBO_PROMPT_OK, Some (out, Some ("Be brief." ++ blank_line ++ "In words.")%string), o') /\
  mapM view_message (json_array_items out) = Some ws' /\
  Forall2 message_equiv ws'
    [mk_message "user" (CText "1+1?") None None;
     mk_message "assistant" (CParts [PToolUse "c1" "add" (JObj [("a", JStr "1")])]) None None;
     mk_message "user" (CParts [PToolResult "c1" "2"]) None None].
Proof.
  pose proof (anthropic_conversion conversation true []) as Hc.
  destruct (Hc eq_refl plenty_nil) as (o' & _ & out & ws' & Hr & _ & Hv & He).
  - repeat constructor; intros v [= <-]; repeat constructor.
  - exists out, ws', o'. split; [exact Hr|]. split; [exact Hv|exact He].
Defined.

End PromptRuns.
