(* ===== verification/Sse.v ===== *)
(** * Streamed model responses (src/provider/src/turbo_agent_sse*.c)

    A response that arrives as server-sent events is put together again: the
    bytes are cut into events at blank lines, the data lines of an event are
    joined and parsed, and each event changes the state of its provider's stream;
    at the end the state is built into one response document.  A text is a C
    string: what is read from a JSON string is its bytes up to the first NUL.
    [json_get_int] is the library's, a parameter. *)

From S2P Require Import Prelude RuntimeJson JsonBuild JsonMem Prompt.

#[local] Open Scope string_scope.
#[local] Open Scope list_scope.
#[local] Open Scope Z_scope.

Definition ch_nl : Ascii.ascii := Ascii.ascii_of_nat 10.
Definition ch_cr : Ascii.ascii := Ascii.ascii_of_nat 13.
Definition ch_space : Ascii.ascii := Ascii.ascii_of_nat 32.

(** ** Cutting the stream *)

(* src/provider/src/turbo_agent_sse.c 138-142 turbo_agent_sse_normalize_newlines *)
Fixpoint drop_cr (s : string) : string :=
  match s with
  | EmptyString => EmptyString
  | String c s => if decide (c = ch_cr) then drop_cr s else String c (drop_cr s)
  end.

(* src/provider/src/turbo_agent_sse.c 124-146 turbo_agent_sse_normalize_newlines *)
Definition turbo_agent_sse_normalize_newlines (data : option string) (len : Z) : mem string :=
  match data with
  | None => if 0 <? len then mem_fail else create EmptyString
  | Some data => create (drop_cr data)
  end.

(** [strstr(cursor, "\n\n")]: the text before it and the cursor after it. *)
(* src/provider/src/turbo_agent_sse_chat.c 161-173 turbo_agent_chat_sse_to_json *)
Fixpoint next_event (cursor : string) : string * string :=
  match cursor with
  | EmptyString => (EmptyString, EmptyString)
  | String c rest =>
      match rest with
      | String d after =>
          if decide (c = ch_nl /\ d = ch_nl) then (EmptyString, after)
          else let (event, next) := next_event rest in (String c event, next)
      | EmptyString => (String c EmptyString, EmptyString)
      end
  end.

(** The lines of an event; the last one may be empty. *)
(* src/provider/src/turbo_agent_sse.c 159-166 turbo_agent_sse_collect_event_data *)
Fixpoint event_lines (event : string) : list string :=
  match event with
  | EmptyString => [EmptyString]
  | String c rest =>
      if decide (c = ch_nl) then EmptyString :: event_lines rest
      else
        match event_lines rest with
        | line :: lines => String c line :: lines
        | [] => [String c EmptyString]
        end
  end.

(** [*buffer] is NULL until something is appended. *)
(* src/provider/src/turbo_provider_text_internal.h 8-17 turbo_provider_text_append_bytes *)
Definition turbo_provider_text_append_bytes (buffer : option string) (data : string)
  : mem (option string) :=
  next ← create (default EmptyString buffer ++ data)%string;
  mret (Some next).

(** What a line says: the text after "data:" and one space. *)
(* src/provider/src/turbo_agent_sse.c 167-171 turbo_agent_sse_collect_event_data *)
Definition data_line (line : string) : option string :=
  match line with
  | String a (String b (String c (String d (String e value)))) =>
      if decide (String a (String b (String c (String d (String e EmptyString)))) = "data:") then
        match value with
        | String s rest => if decide (s = ch_space) then Some rest else Some value
        | EmptyString => Some value
        end
      else None
  | _ => None
  end.

(* src/provider/src/turbo_agent_sse.c 160-184 turbo_agent_sse_collect_event_data *)
Definition collect_line (data : option string) (line : string) : mem (option string) :=
  match data_line line with
  | None => mret data
  | Some value =>
      data ← (if is_some_nonempty data then turbo_provider_text_append_bytes data newline
              else mret data : mem (option string));
      turbo_provider_text_append_bytes data value
  end.

(* src/provider/src/turbo_agent_sse.c 148-196 turbo_agent_sse_collect_event_data *)
Definition turbo_agent_sse_collect_event_data (event : string) : mem string :=
  data ← mem_fold collect_line (event_lines event) None;
  match data with
  | Some data => mret data
  | None => create EmptyString
  end.

(** One event after the other until a step says stop; every event and every blank
    line is at least one byte, so the length of the text is fuel enough. *)
(* src/provider/src/turbo_agent_sse_chat.c 160-204 turbo_agent_chat_sse_to_json *)
Fixpoint sse_loop {S : Type} (step : S -> string -> mem (S * bool)) (fuel : nat)
    (cursor : string) (state : S) : mem S :=
  match cursor with
  | EmptyString => mret state
  | _ =>
      match fuel with
      | O => mem_fail
      | Datatypes.S fuel =>
          let (event, rest) := next_event cursor in
          match event with
          | EmptyString => sse_loop step fuel rest state
          | _ =>
              data ← turbo_agent_sse_collect_event_data event;
              result ← step state data;
              if result.2 : bool then mret result.1 else sse_loop step fuel rest result.1
          end
      end
  end.

(* src/provider/src/turbo_agent_sse_chat.c 159-160 turbo_agent_chat_sse_to_json *)
Definition sse_events {S : Type} (step : S -> string -> mem (S * bool)) (data : string) (state : S)
  : mem S :=
  let text := c_string data in sse_loop step (String.length text) text state.

(** ** Stream states *)

(* src/provider/src/turbo_agent_sse_types_internal.h 12-17 turbo_agent_sse_tool_call_t *)
Record sse_tool_call : Type := mk_tool_call {
  tc_id : option string;
  tc_type : option string;
  tc_name : option string;
  tc_arguments : option string
}.

(* src/provider/src/turbo_agent_sse.c 79-81 turbo_agent_sse_ensure_tool_call_capacity *)
Definition empty_call : sse_tool_call := mk_tool_call None None None None.

Definition with_id id c := mk_tool_call id (tc_type c) (tc_name c) (tc_arguments c).
Definition with_type ty c := mk_tool_call (tc_id c) ty (tc_name c) (tc_arguments c).
Definition with_name name c := mk_tool_call (tc_id c) (tc_type c) name (tc_arguments c).
Definition with_arguments args c := mk_tool_call (tc_id c) (tc_type c) (tc_name c) args.

(** The chat and the Anthropic stream keep the same things; the last text is the
    finish reason of the one and the stop reason of the other. *)
(* src/provider/src/turbo_agent_sse_types_internal.h 19-35 turbo_agent_sse_chat_stream_state_t *)
Record sse_state : Type := mk_state {
  st_id : option string;
  st_role : option string;
  st_content : option string;
  st_reason : option string;
  st_tool_calls : list sse_tool_call
}.

(* src/provider/src/turbo_agent_sse_chat.c 146-146 turbo_agent_chat_sse_to_json *)
Definition empty_state : sse_state := mk_state None None None None [].

Definition set_id id s := mk_state id (st_role s) (st_content s) (st_reason s) (st_tool_calls s).
Definition set_role role s := mk_state (st_id s) role (st_content s) (st_reason s) (st_tool_calls s).
Definition set_content c s := mk_state (st_id s) (st_role s) c (st_reason s) (st_tool_calls s).
Definition set_reason r s := mk_state (st_id s) (st_role s) (st_content s) r (st_tool_calls s).
Definition set_calls l s := mk_state (st_id s) (st_role s) (st_content s) (st_reason s) l.

(* src/provider/src/turbo_agent_sse.c 7-22 turbo_agent_sse_replace_text *)
Definition turbo_agent_sse_replace_text (target text : option string) : mem (option string) :=
  text ← need text;
  copy ← create text;
  mret (Some copy).

(* src/provider/src/turbo_agent_sse.c 24-30 turbo_agent_sse_set_if_nonempty *)
Definition turbo_agent_sse_set_if_nonempty (target text : option string) : mem (option string) :=
  if is_some_nonempty text then turbo_agent_sse_replace_text target text else mret target.

(* src/provider/src/turbo_agent_sse.c 32-44 turbo_agent_sse_append_dynamic_text *)
Definition turbo_agent_sse_append_dynamic_text (buffer text : option string) : mem (option string) :=
  text ← need text;
  turbo_provider_text_append_bytes buffer text.

(** The calls up to the index, the new ones empty. *)
(* src/provider/src/turbo_agent_sse.c 59-96 turbo_agent_sse_tool_call_slot *)
Definition turbo_agent_sse_tool_call_slot (tool_calls : list sse_tool_call) (index : nat)
  : mem (list sse_tool_call) :=
  if bool_decide (index < length tool_calls)%nat then mret tool_calls
  else create (tool_calls ++ replicate (index + 1 - length tool_calls) empty_call).

(** [(int)i] of a [size_t]. *)
(* src/provider/src/turbo_agent_sse_chat.c 65-65 turbo_agent_sse_chat_apply_chunk *)
Definition int_of_size (i : nat) : Z := (Z.of_nat i + 2 ^ 31) mod 2 ^ 32 - 2 ^ 31.

Section sse.
Context {J : Type} `{JsonSetters J}.
Variable json_get_int : J -> string -> Z -> Z.
(** [free] of a text that [tstr_dup] made.  Such a text is released by [tstr_free];
    what [free] does to it is undefined, so here it is any computation. *)
Variable free_tstr : string -> mem ().
Abbreviation as_string := turbo_runtime_json_value_as_string.

(** [json_get_string]. *)
Definition text_of (j : J) (key : string) : option string := member_string (Some j) key.

(* src/provider/src/turbo_agent_sse_json.c 8-18 turbo_agent_sse_serialize_json_and_free *)
Definition turbo_agent_sse_serialize_json_and_free (value : option J) : mem string :=
  value ← need value; create (json_serialize value).

(** ** Chat completions *)

(** One call of a chunk, at its place in the chunk. *)
(* src/provider/src/turbo_agent_sse_chat.c 56-97 turbo_agent_sse_chat_apply_chunk *)
Definition chat_tool_call (tool_calls : list sse_tool_call) (at_i : nat * J) : mem (list sse_tool_call) :=
  let (i, tool_call_json) := at_i in
  if negb (bool_decide (json_type tool_call_json = JSON_OBJECT)) then mem_fail
  else
    let index := json_get_int tool_call_json "index" (int_of_size i) in
    if index <? 0 then mem_fail
    else
      let slot := Z.to_nat index in
      tool_calls ← turbo_agent_sse_tool_call_slot tool_calls slot;
      let tool_call := default empty_call (tool_calls !! slot) in
      id ← turbo_agent_sse_set_if_nonempty (tc_id tool_call) (text_of tool_call_json "id");
      type ← turbo_agent_sse_set_if_nonempty (tc_type tool_call) (text_of tool_call_json "type");
      let tool_call := with_type type (with_id id tool_call) in
      let function_json := json_object_get tool_call_json "function" in
      tool_call ←
        match function_json with
        | Some f =>
            if bool_decide (json_type f = JSON_OBJECT) then
              name ← turbo_agent_sse_set_if_nonempty (tc_name tool_call) (text_of f "name");
              arguments ← turbo_agent_sse_append_dynamic_text (tc_arguments tool_call)
                            (Some (default "" (text_of f "arguments")));
              mret (with_arguments arguments (with_name name tool_call))
            else mret tool_call
        | None => mret tool_call
        end;
      mret (<[slot := tool_call]> tool_calls).

(** The array items with their indices. *)
Definition indexed {A} (l : list A) : list (nat * A) := imap pair l.

(* src/provider/src/turbo_agent_sse_chat.c 41-99 turbo_agent_sse_chat_apply_chunk *)
Definition chat_delta (state : sse_state) (delta : J) : mem sse_state :=
  role ← turbo_agent_sse_set_if_nonempty (st_role state) (text_of delta "role");
  let state := set_role role state in
  content ← match text_of delta "content" with
            | Some text => turbo_agent_sse_append_dynamic_text (st_content state) (Some text)
            | None => mret (st_content state)
            end;
  let state := set_content content state in
  match json_object_get delta "tool_calls" with
  | Some tool_calls =>
      if bool_decide (json_type tool_calls = JSON_ARRAY) then
        calls ← mem_fold chat_tool_call (indexed (json_array_items tool_calls)) (st_tool_calls state);
        mret (set_calls calls state)
      else mret state
  | None => mret state
  end.

(* src/provider/src/turbo_agent_sse_chat.c 11-108 turbo_agent_sse_chat_apply_chunk *)
Definition turbo_agent_sse_chat_apply_chunk (state : sse_state) (chunk : J) : mem sse_state :=
  if negb (bool_decide (json_type chunk = JSON_OBJECT)) then mem_fail
  else
    id ← turbo_agent_sse_set_if_nonempty (st_id state) (text_of chunk "id");
    let state := set_id id state in
    let choices := json_object_get chunk "choices" in
    let choice := if has_type choices JSON_ARRAY
                  then head (default [] (json_array_items <$> choices)) else None in
    choice ← need choice;
    if negb (bool_decide (json_type choice = JSON_OBJECT)) then mem_fail
    else
      state ← match json_object_get choice "delta" with
              | Some delta =>
                  if bool_decide (json_type delta = JSON_OBJECT) then chat_delta state delta
                  else mret state
              | None => mret state
              end;
      reason ← turbo_agent_sse_set_if_nonempty (st_reason state) (text_of choice "finish_reason");
      mret (set_reason reason state).

(* src/provider/src/turbo_agent_sse_json.c 20-55 turbo_agent_sse_build_chat_tool_calls_array *)
Definition turbo_agent_sse_build_chat_tool_calls_array (state : sse_state) : mem J :=
  match st_tool_calls state with
  | [] => mem_fail
  | calls =>
      tool_calls ← create_array;
      mem_fold (fun tool_calls call =>
        id ← need (tc_id call); name ← need (tc_name call); arguments ← need (tc_arguments call);
        tool_call_object ← turbo_prompt_chat_tool_call_create (Some id)
          (Some (default "function" (tc_type call))) (Some name) (Some arguments);
        quiet_append tool_calls tool_call_object) calls tool_calls
  end.

(** The response, and the choice and the message in it: both are changed later,
    through the pointers to them. *)
(* src/provider/src/turbo_agent_sse_json.c 77-113 turbo_agent_sse_chat_response_shell_create *)
Definition turbo_agent_sse_chat_response_shell_create (state : sse_state) : mem (J * J * J * J) :=
  id ← need (st_id state);
  response ← attempt create_object;
  choices ← attempt create_array;
  choice ← attempt create_object;
  message ← attempt (turbo_prompt_message_create
    (Some (if is_some_nonempty (st_role state) then default "assistant" (st_role state) else "assistant"))
    (Some (default "" (st_content state))));
  response ← need response; choices ← need choices; choice ← need choice; message ← need message;
  response ← quiet (raw_string "id" id) response;
  response ← quiet (raw_string "object" "chat.completion") response;
  choice ← quiet (raw_number "index" 0) choice;
  choice ← quiet (raw_member "message" message) choice;
  choices ← quiet_append choices choice;
  response ← quiet (raw_member "choices" choices) response;
  mret (response, choices, choice, message).

(** What the response holds after the message and the choice have changed. *)
(* src/provider/src/turbo_agent_sse_chat.c 130-138 turbo_agent_sse_build_chat_response_json *)
Definition chat_response_seen (response choices choice message : J) : J :=
  let choice := update_member choice "message" message in
  let choices := match json_array_items choices with
                 | [] => choices
                 | _ => json_array_add json_create_array choice
                 end in
  update_member response "choices" choices.

(* src/provider/src/turbo_agent_sse_chat.c 110-140 turbo_agent_sse_build_chat_response_json *)
Definition turbo_agent_sse_build_chat_response_json (state : sse_state) : mem string :=
  shell ← turbo_agent_sse_chat_response_shell_create state;
  let '(response, choices, choice, message) := shell in
  let calling := bool_decide (st_tool_calls state <> []) in
  message ← (if calling then
               tool_calls ← turbo_agent_sse_build_chat_tool_calls_array state;
               quiet (raw_member "tool_calls" tool_calls) message
             else mret message : mem J);
  choice ← quiet (raw_string "finish_reason"
             (default (if calling then "tool_calls" else "stop") (st_reason state))) choice;
  turbo_agent_sse_serialize_json_and_free (Some (chat_response_seen response choices choice message)).

(** State, and whether there was a chunk. *)
(* src/provider/src/turbo_agent_sse_chat.c 180-193 turbo_agent_chat_sse_to_json *)
Definition chat_step (seen : sse_state * bool) (data : string) : mem (sse_state * bool * bool) :=
  if bool_decide (data = "[DONE]") then mret (seen, true)
  else if bool_decide (data = "") then mret (seen, false)
  else
    chunk ← need (json_parse data);
    chunk ← create chunk;
    state ← turbo_agent_sse_chat_apply_chunk seen.1 chunk;
    mret (state, true, false).

(* src/provider/src/turbo_agent_sse_chat.c 142-214 turbo_agent_chat_sse_to_json *)
Definition turbo_agent_chat_sse_to_json (sse_data : option string) : mem string :=
  data ← need sse_data;
  normalized ← turbo_agent_sse_normalize_newlines (Some data) (Z.of_nat (String.length data));
  seen ← sse_events chat_step normalized (empty_state, false);
  if negb seen.2 then mem_fail else turbo_agent_sse_build_chat_response_json seen.1.

(** ** Anthropic messages *)

(** The arguments that an input at the start of a call leaves: those of an input
    with members; an input that is no object stands for no arguments, and the copy
    of "{}" made for it is given to [free]. *)
(* src/provider/src/turbo_agent_sse_anthropic.c 73-85 turbo_agent_sse_anthropic_apply_event *)
Definition anthropic_start_input (arguments : option string) (input : option J) : mem (option string) :=
  match input with
  | Some v =>
      if bool_decide (json_type v = JSON_OBJECT) then
        if 0 <? json_object_size v then
          serialized_input ← attempt (create (json_serialize v));
          match serialized_input with
          | Some text => turbo_agent_sse_replace_text arguments (Some text)
          | None => mret arguments
          end
        else mret arguments
      else
        serialized_input ← attempt (create "{}");
        match serialized_input with
        | Some text =>
            replaced ← attempt (turbo_agent_sse_replace_text arguments (Some text));
            _ ← free_tstr text;
            need replaced
        | None => mret arguments
        end
  | None => mret arguments
  end.

(** The block of the content that starts; a tool call takes the slot of the block's index. *)
(* src/provider/src/turbo_agent_sse_anthropic.c 34-84 turbo_agent_sse_anthropic_apply_event *)
Definition anthropic_block_start (state : sse_state) (event : J) : mem sse_state :=
  content_block ← need (json_object_get event "content_block");
  if negb (bool_decide (json_type content_block = JSON_OBJECT)) then mem_fail
  else
    let block_type := text_of content_block "type" in
    let index := json_get_int event "index" 0 in
    if index <? 0 then mem_fail
    else if bool_decide (block_type = Some "text") then
      match text_of content_block "text" with
      | Some text =>
          content ← turbo_agent_sse_append_dynamic_text (st_content state) (Some text);
          mret (set_content content state)
      | None => mret state
      end
    else if bool_decide (block_type = Some "tool_use") then
      let slot := Z.to_nat index in
      let input := json_object_get content_block "input" in
      tool_calls ← turbo_agent_sse_tool_call_slot (st_tool_calls state) slot;
      let tool_call := default empty_call (tool_calls !! slot) in
      id ← turbo_agent_sse_set_if_nonempty (tc_id tool_call) (text_of content_block "id");
      type ← turbo_agent_sse_set_if_nonempty (tc_type tool_call) (Some "tool_use");
      name ← turbo_agent_sse_set_if_nonempty (tc_name tool_call) (text_of content_block "name");
      let tool_call := with_name name (with_type type (with_id id tool_call)) in
      arguments ← anthropic_start_input (tc_arguments tool_call) input;
      mret (set_calls (<[slot := with_arguments arguments tool_call]> tool_calls) state)
    else mret state.

(* src/provider/src/turbo_agent_sse_anthropic.c 85-125 turbo_agent_sse_anthropic_apply_event *)
Definition anthropic_block_delta (state : sse_state) (event : J) : mem sse_state :=
  delta ← need (json_object_get event "delta");
  if negb (bool_decide (json_type delta = JSON_OBJECT)) then mem_fail
  else
    let delta_type := text_of delta "type" in
    let index := json_get_int event "index" 0 in
    if index <? 0 then mem_fail
    else if bool_decide (delta_type = Some "text_delta") then
      match text_of delta "text" with
      | Some text =>
          content ← turbo_agent_sse_append_dynamic_text (st_content state) (Some text);
          mret (set_content content state)
      | None => mret state
      end
    else if bool_decide (delta_type = Some "input_json_delta") then
      let slot := Z.to_nat index in
      tool_calls ← turbo_agent_sse_tool_call_slot (st_tool_calls state) slot;
      let tool_call := default empty_call (tool_calls !! slot) in
      type ← turbo_agent_sse_set_if_nonempty (tc_type tool_call) (Some "tool_use");
      let tool_call := with_type type tool_call in
      arguments ← match text_of delta "partial_json" with
                  | Some text => turbo_agent_sse_append_dynamic_text (tc_arguments tool_call) (Some text)
                  | None => mret (tc_arguments tool_call)
                  end;
      mret (set_calls (<[slot := with_arguments arguments tool_call]> tool_calls) state)
    else mret state.

(* src/provider/src/turbo_agent_sse_anthropic.c 11-138 turbo_agent_sse_anthropic_apply_event *)
Definition turbo_agent_sse_anthropic_apply_event (state : sse_state) (event : J) : mem sse_state :=
  if negb (bool_decide (json_type event = JSON_OBJECT)) then mem_fail
  else
    type ← need (text_of event "type");
    if bool_decide (type = "message_start") then
      message ← need (json_object_get event "message");
      if negb (bool_decide (json_type message = JSON_OBJECT)) then mem_fail
      else
        id ← turbo_agent_sse_set_if_nonempty (st_id state) (text_of message "id");
        let state := set_id id state in
        role ← turbo_agent_sse_set_if_nonempty (st_role state) (text_of message "role");
        mret (set_role role state)
    else if bool_decide (type = "content_block_start") then anthropic_block_start state event
    else if bool_decide (type = "content_block_delta") then anthropic_block_delta state event
    else if bool_decide (type = "message_delta") then
      delta ← need (json_object_get event "delta");
      if negb (bool_decide (json_type delta = JSON_OBJECT)) then mem_fail
      else
        reason ← turbo_agent_sse_set_if_nonempty (st_reason state) (text_of delta "stop_reason");
        mret (set_reason reason state)
    else mret state.

(** A text that does not parse fails, no text is the empty object. *)
(* src/provider/src/turbo_agent_sse_json.c 57-75 turbo_agent_sse_tool_call_input_object *)
Definition turbo_agent_sse_tool_call_input_object (tool_call : sse_tool_call) : mem J :=
  if is_some_nonempty (tc_arguments tool_call) then
    arguments ← need (tc_arguments tool_call);
    input ← need (json_parse arguments);
    create input
  else create_object.

(* src/provider/src/turbo_agent_sse_json.c 115-137 turbo_agent_sse_anthropic_response_shell_create *)
Definition turbo_agent_sse_anthropic_response_shell_create (state : sse_state) : mem (J * J) :=
  id ← need (st_id state);
  role ← need (st_role state);
  if bool_decide (role = "") then mem_fail
  else
    response ← attempt create_object;
    content ← attempt create_array;
    response ← need response; content ← need content;
    response ← quiet (raw_string "id" id) response;
    response ← quiet (raw_string "role" role) response;
    response ← quiet (raw_member "content" content) response;
    mret (response, content).

(* src/provider/src/turbo_agent_sse_anthropic.c 164-189 turbo_agent_sse_build_anthropic_response_json *)
Definition anthropic_tool_use (content : J) (tool_call : sse_tool_call) : mem J :=
  id ← need (tc_id tool_call);
  name ← need (tc_name tool_call);
  input ← turbo_agent_sse_tool_call_input_object tool_call;
  tool_use ← turbo_prompt_tool_use_part_create (Some id) (Some name) (Some input);
  quiet_append content tool_use.

(** The content is changed through the pointer to it in the response. *)
(* src/provider/src/turbo_agent_sse_anthropic.c 140-194 turbo_agent_sse_build_anthropic_response_json *)
Definition turbo_agent_sse_build_anthropic_response_json (state : sse_state) : mem string :=
  shell ← turbo_agent_sse_anthropic_response_shell_create state;
  let '(response, content) := shell in
  content ← (if is_some_nonempty (st_content state) then
               text_block ← turbo_prompt_content_text_part_create (st_content state);
               quiet_append content text_block
             else mret content : mem J);
  content ← mem_fold anthropic_tool_use (st_tool_calls state) content;
  response ← quiet (raw_string "stop_reason" (default "end_turn" (st_reason state)))
               (update_member response "content" content);
  turbo_agent_sse_serialize_json_and_free (Some response).

(** State, and whether there was an event. *)
(* src/provider/src/turbo_agent_sse_anthropic.c 234-266 turbo_agent_anthropic_messages_sse_to_json *)
Definition anthropic_step (seen : sse_state * bool) (data : string) : mem (sse_state * bool * bool) :=
  if bool_decide (data = "[DONE]") then mret (seen, true)
  else if bool_decide (data = "") then mret (seen, false)
  else
    event ← need (json_parse data);
    event ← create event;
    match text_of event "type" with
    | None => mret (seen, false)
    | Some type =>
        if bool_decide (type = "ping") then mret (seen, false)
        else
          state ← turbo_agent_sse_anthropic_apply_event seen.1 event;
          mret (state, true, bool_decide (type = "message_stop"))
    end.

(* src/provider/src/turbo_agent_sse_anthropic.c 196-282 turbo_agent_anthropic_messages_sse_to_json *)
Definition turbo_agent_anthropic_messages_sse_to_json (sse_data : option string) : mem string :=
  data ← need sse_data;
  normalized ← turbo_agent_sse_normalize_newlines (Some data) (Z.of_nat (String.length data));
  seen ← sse_events anthropic_step normalized (empty_state, false);
  if negb seen.2 then mem_fail else turbo_agent_sse_build_anthropic_response_json seen.1.

(** ** Responses *)

(** The output items that are done, and the last completed response. *)
(* src/provider/src/turbo_agent_sse_responses.c 59-111 turbo_agent_responses_sse_to_json *)
Definition responses_step (kept : J * option J) (data : string) : mem (J * option J * bool) :=
  let (output_items, completed_response) := kept in
  if bool_decide (data = "[DONE]") then mret (kept, true)
  else if bool_decide (data = "") then mret (kept, false)
  else
    event ← need (json_parse data);
    event ← create event;
    let type := text_of event "type" in
    if bool_decide (type = Some "response.output_item.done") then
      item ← need (json_object_get event "item");
      if negb (bool_decide (json_type item = JSON_OBJECT)) then mem_fail
      else
        item_clone ← create (json_clone item);
        output_items ← quiet_append output_items item_clone;
        mret (output_items, completed_response, false)
    else if bool_decide (type = Some "response.completed") then
      response ← need (json_object_get event "response");
      if negb (bool_decide (json_type response = JSON_OBJECT)) then mem_fail
      else
        response_clone ← create (json_clone response);
        mret (output_items, Some response_clone, false)
    else mret (kept, false).

(** Items that were streamed replace an output that is missing or empty. *)
(* src/provider/src/turbo_agent_sse_responses.c 120-170 turbo_agent_responses_sse_to_json *)
Definition responses_finish (output_items : J) (completed_response : option J) : mem string :=
  completed ← need completed_response;
  if negb (bool_decide (json_type completed = JSON_OBJECT)) then mem_fail
  else
    let completed_id := text_of completed "id" in
    let completed_output := json_object_get completed "output" in
    if negb (is_some_nonempty completed_id) then mem_fail
    else if bool_decide (json_array_items output_items <> [])
            && (negb (has_type completed_output JSON_ARRAY)
                || bool_decide (default [] (json_array_items <$> completed_output) = [])) then
      response ← attempt create_object;
      rebuilt_output ← attempt create_array;
      response ← need response; rebuilt_output ← need rebuilt_output;
      response ← quiet (raw_string "id" (default "" completed_id)) response;
      rebuilt_output ← mem_fold (fun output item => clone ← create (json_clone item); quiet_append output clone)
                         (json_array_items output_items) rebuilt_output;
      response ← quiet (raw_member "output" rebuilt_output) response;
      create (json_serialize response)
    else create (json_serialize completed).

(* src/provider/src/turbo_agent_sse_responses.c 9-174 turbo_agent_responses_sse_to_json *)
Definition turbo_agent_responses_sse_to_json (sse_data : option string) : mem string :=
  data ← need sse_data;
  normalized ← turbo_agent_sse_normalize_newlines (Some data) (Z.of_nat (String.length data));
  output_items ← create_array;
  kept ← sse_events responses_step normalized (output_items, None);
  responses_finish kept.1 kept.2.

End sse.
