(* ===== verification/SseFacts.v ===== *)
(** * Properties of streamed responses

    Cutting a rendered stream gives its events' data back, and the texts and calls
    of a stream's state are the joined texts of its changes. *)

From S2P Require Import Prelude RuntimeJson JsonBuild JsonMem Prompt Sse.

#[local] Open Scope string_scope.
#[local] Open Scope list_scope.
#[local] Open Scope Z_scope.

(** ** Rendered streams *)

Fixpoint chars (P : Ascii.ascii -> Prop) (s : string) : Prop :=
  match s with
  | EmptyString => True
  | String c s => P c /\ chars P s
  end.

Lemma chars_app P s t : chars P s -> chars P t -> chars P (s ++ t)%string.
Proof. induction s as [|c s IH]; [done|]. intros [Hc Hs] Ht. split; [done|by apply IH]. Qed.

(** No line end and no NUL. *)
Definition plain : string -> Prop := chars (fun c => c <> ch_nl /\ c <> ch_cr /\ c <> ch_nul).

Inductive sse_line :=
| SData (space : bool) (value : string)
| SOther (text : string).

#[global] Instance sse_line_eq_dec : EqDecision sse_line.
Proof. solve_decision. Defined.

Definition line_text (l : sse_line) : string :=
  match l with
  | SData space value => ("data:" ++ (if space then " " else "") ++ value)%string
  | SOther text => text
  end.

(** A value after "data:" with no space has none of its own; other lines are not
    empty and do not start with "data:". *)
Definition line_ok (l : sse_line) : Prop :=
  match l with
  | SData space value => plain value /\ (space = false -> forall v, value <> (" " ++ v)%string)
  | SOther text => plain text /\ text <> "" /\ forall v, text <> ("data:" ++ v)%string
  end.

Definition event_ok (e : list sse_line) : Prop := e <> [] /\ Forall line_ok e.

Definition render_event (eol : string) (e : list sse_line) : string :=
  (foldr (fun l s => line_text l ++ eol ++ s) eol e)%string.

Definition stream (eol : string) (events : list (list sse_line)) : string :=
  foldr (fun e s => render_event eol e ++ s)%string "" events.

Definition data_value (l : sse_line) : option string :=
  match l with SData _ value => Some value | SOther _ => None end.

(** The values on lines of their own, less the empty ones at the front. *)
Fixpoint drop_empty (l : list string) : list string :=
  match l with
  | "" :: l => drop_empty l
  | l => l
  end.

Definition payload (e : list sse_line) : string :=
  String.concat newline (drop_empty (omap data_value e)).

(** *** Lines and events *)

Lemma plain_line l : line_ok l -> plain (line_text l).
Proof.
  destruct l as [[] value|text]; intros Hok.
  - destruct Hok as [Hv _]. apply (chars_app _ "data: "); [|done]. cbn. repeat split; discriminate.
  - destruct Hok as [Hv _]. apply (chars_app _ "data:"); [|done]. cbn. repeat split; discriminate.
  - by destruct Hok.
Qed.

Lemma line_nonempty l : line_ok l -> line_text l <> "".
Proof. destruct l as [[] value|text]; [done..|]. by intros (_ & ? & _). Qed.

Lemma data_line_text l : line_ok l -> data_line (line_text l) = data_value l.
Proof.
  destruct l as [[] value|text]; intros Hok; cbn [line_text data_value].
  - done.
  - destruct Hok as [_ Hs]. specialize (Hs eq_refl). destruct value as [|c value]; [done|].
    change (("data:" ++ "" ++ String c value)%string) with ("data:" ++ String c value)%string.
    destruct (decide (c = ch_space)) as [->|Hc]; [by destruct (Hs value)|]. 
    unfold String.append. cbn [data_line]. by rewrite decide_True, decide_False.
  - destruct Hok as (_ & _ & Hp). do 5 (destruct text as [|? text]; [done|]). cbn [data_line].
    case_decide as Hd; [|done]. injection Hd as -> -> -> -> ->. by destruct (Hp text).
Qed.

Lemma next_other c s : c <> ch_nl ->
  next_event (String c s) = let (e, n) := next_event s in (String c e, n).
Proof. intros Hc. destruct s as [|d s]; [done|]. cbn [next_event]. case_decide as Hd; [by destruct Hd|done]. Qed.

Lemma next_break d s : d <> ch_nl ->
  next_event (String ch_nl (String d s)) = let (e, n) := next_event (String d s) in (String ch_nl e, n).
Proof. intros Hd. cbn [next_event]. case_decide as H; [by destruct H|done]. Qed.

Lemma next_line l s : plain l -> next_event (l ++ s)%string = let (e, n) := next_event s in ((l ++ e)%string, n).
Proof.
  induction l as [|c l IH]; [change ("" ++ s)%string with s; by destruct (next_event s)|]. intros [Hc Hl].
  change (String c l ++ s)%string with (String c (l ++ s)). rewrite next_other by tauto.
  rewrite IH by done. by destruct (next_event s).
Qed.

Lemma next_rendered e rest : event_ok e ->
  next_event (render_event newline e ++ rest)%string = (String.concat newline (line_text <$> e), rest).
Proof.
  intros [Hne Hok]. induction Hok as [|l e Hl Hok IH]; [done|]. clear Hne.
  change (render_event newline (l :: e)) with (line_text l ++ newline ++ render_event newline e)%string.
  rewrite !string_app_assoc, next_line by by apply plain_line.
  destruct e as [|l' e].
  - change (newline ++ render_event newline [] ++ rest)%string with (String ch_nl (String ch_nl rest)).
    cbn [next_event]. rewrite decide_True by done. by rewrite string_app_nil_r.
  - specialize (IH ltac:(done)). inversion Hok as [|? ? Hl' _]; subst.
    pose proof (line_nonempty _ Hl') as Hn. pose proof (plain_line _ Hl') as Hp.
    change (newline ++ render_event newline (l' :: e) ++ rest)%string with
      (String ch_nl (render_event newline (l' :: e) ++ rest)).
    change (render_event newline (l' :: e)) with (line_text l' ++ newline ++ render_event newline e)%string in *.
    change (String.concat newline (line_text <$> l :: l' :: e)) with
      (line_text l ++ newline ++ String.concat newline (line_text <$> l' :: e))%string.
    destruct (line_text l') as [|d text] eqn:E; [done|]. destruct Hp as [Hd _].
    change ((String d text ++ newline ++ render_event newline e) ++ rest)%string with
      (String d ((text ++ newline ++ render_event newline e) ++ rest)) in *.
    rewrite next_break by tauto. rewrite IH. done.
Qed.

Lemma lines_line l s : plain l -> event_lines (l ++ String ch_nl s)%string = l :: event_lines s.
Proof.
  induction l as [|c l IH]; [done|]. intros [Hc Hl].
  change (String c l ++ String ch_nl s)%string with (String c (l ++ String ch_nl s)). cbn [event_lines].
  rewrite decide_False by tauto. by rewrite IH.
Qed.

Lemma lines_last l : plain l -> event_lines l = [l].
Proof.
  induction l as [|c l IH]; [done|]. intros [Hc Hl]. cbn [event_lines].
  rewrite decide_False by tauto. by rewrite IH.
Qed.

Lemma lines_concat ls : ls <> [] -> Forall plain ls -> event_lines (String.concat newline ls) = ls.
Proof.
  intros Hne Hp. induction Hp as [|l ls Hl Hp IH]; [done|]. destruct ls as [|l' ls].
  - by apply lines_last.
  - change (String.concat newline (l :: l' :: ls)) with (l ++ String ch_nl (String.concat newline (l' :: ls)))%string.
    rewrite lines_line by done. by rewrite IH.
Qed.

(** *** Deciding that events can be rendered *)

Definition plain_check (s : string) : bool :=
  forallb (fun c => negb (bool_decide (c = ch_nl) || bool_decide (c = ch_cr) || bool_decide (c = ch_nul)))
    (String.list_ascii_of_string s).

Definition line_check (l : sse_line) : bool :=
  match l with
  | SData space value => plain_check value && (space || negb (bool_decide (String.substring 0 1 value = " ")))
  | SOther text => plain_check text && negb (bool_decide (text = ""))
                   && negb (bool_decide (String.substring 0 5 text = "data:"))
  end.

Lemma plain_check_ok s : plain_check s = true -> plain s.
Proof.
  induction s as [|c s IH]; [done|]. cbn. intros [Hc Hs]%andb_prop. split; [|by apply IH].
  by do 3 case_bool_decide.
Qed.

Lemma events_check events :
  forallb (fun e => negb (bool_decide (e = [])) && forallb line_check e) events = true ->
  Forall event_ok events.
Proof.
  intros Hc. apply Forall_forall. intros e He.
  apply forallb_forall with (x := e) in Hc; [|by apply list_elem_of_In]. apply andb_prop in Hc as [Hne Hl].
  split; [by intros ->|]. apply Forall_forall. intros l Hin.
  apply forallb_forall with (x := l) in Hl; [|by apply list_elem_of_In].
  destruct l as [space value|text]; cbn [line_check] in Hl.
  - apply andb_prop in Hl as [Hp Hs]. split; [by apply plain_check_ok|]. intros -> v ->.
    apply negb_true_iff, bool_decide_eq_false in Hs. apply Hs. by destruct v.
  - apply andb_prop in Hl as [[Hp Hn]%andb_prop Hs]. split; [by apply plain_check_ok|].
    split; [by intros ->|]. intros v ->. apply negb_true_iff, bool_decide_eq_false in Hs. apply Hs. by destruct v.
Qed.

(** *** The data of an event *)

(** What collecting values after [data] makes of them. *)
Definition join_values (data : option string) (l : list string) : option string :=
  foldl (fun data v => Some match data with
                            | Some (String c s) => (String c s ++ newline ++ v)%string
                            | _ => v
                            end) data l.

Lemma join_nonempty l : forall c s, join_values (Some (String c s)) l
  = Some (foldl (fun s v => s ++ newline ++ v)%string (String c s) l).
Proof. induction l as [|v l IH]; intros c s; [done|]. apply (IH c (s ++ newline ++ v)%string). Qed.

Lemma concat_foldl l : forall s,
  foldl (fun s v => s ++ newline ++ v)%string s l = String.concat newline (s :: l).
Proof.
  induction l as [|v l IH]; intros s; [done|]. cbn [foldl]. rewrite IH.
  destruct l as [|w l]; [done|].
  change (String.concat newline (s :: v :: w :: l)) with (s ++ newline ++ v ++ newline ++ String.concat newline (w :: l))%string.
  change (String.concat newline ((s ++ newline ++ v)%string :: w :: l)) with
    ((s ++ newline ++ v) ++ newline ++ String.concat newline (w :: l))%string.
  by rewrite !string_app_assoc.
Qed.

Lemma join_spec l : forall data, default "" data = "" ->
  default "" (join_values data l) = String.concat newline (drop_empty l).
Proof.
  induction l as [|v l IH]; intros data Hd; [done|].
  assert (E : join_values data (v :: l) = join_values (Some v) l) by (destruct data as [[]|]; done).
  rewrite E. destruct v as [|c v]; [by apply IH|]. rewrite join_nonempty, concat_foldl. done.
Qed.

Lemma collect_gives ls data : Forall line_ok ls ->
  gives (mem_fold collect_line (line_text <$> ls) data) (Some (join_values data (omap data_value ls))).
Proof.
  intros Hok. revert data. induction Hok as [|l ls Hl _ IH]; intros data; [apply gives_ret|].
  cbn [fmap list_fmap mem_fold omap list_omap].
  assert (Hv : gives (collect_line data (line_text l)) (Some match data_value l with
    | Some v => join_values data [v] | None => data end)).
  { unfold collect_line. rewrite data_line_text by done. destruct (data_value l) as [v|]; [|apply gives_ret].
    unfold turbo_provider_text_append_bytes. destruct data as [[|c s]|]; cbn [is_some_nonempty].
    - eapply gives_bind; [apply gives_ret|]. eapply gives_bind; [apply gives_create|]. apply gives_ret.
    - eapply gives_bind; [eapply gives_bind; [apply gives_create|apply gives_ret]|].
      eapply gives_bind; [apply gives_create|]. cbn [default from_option]. unfold id.
      rewrite string_app_assoc. apply gives_ret.
    - eapply gives_bind; [apply gives_ret|]. eapply gives_bind; [apply gives_create|]. apply gives_ret. }
  eapply gives_bind; [exact Hv|]. destruct (data_value l) as [v|]; apply IH.
Qed.

Lemma collected_payload e : event_ok e ->
  gives (turbo_agent_sse_collect_event_data (String.concat newline (line_text <$> e))) (Some (payload e)).
Proof.
  intros [Hne Hok]. unfold turbo_agent_sse_collect_event_data.
  rewrite lines_concat; [|by destruct e|].
  - eapply gives_bind; [by apply collect_gives|].
    pose proof (join_spec (omap data_value e) None eq_refl) as Hj. unfold payload. rewrite <- Hj.
    destruct (join_values None (omap data_value e)); [apply gives_ret|apply gives_create].
  - apply Forall_fmap. eapply Forall_impl; [exact Hok|]. apply plain_line.
Qed.

(** *** The bytes of a stream *)

Lemma c_string_clean s : chars (fun c => c <> ch_nul) s -> c_string s = s.
Proof. induction s as [|c s IH]; [done|]. intros [Hc Hs]. cbn. rewrite decide_False, IH by done. done. Qed.

Lemma drop_cr_app s t : drop_cr (s ++ t) = (drop_cr s ++ drop_cr t)%string.
Proof.
  induction s as [|c s IH]; [done|]. change (String c s ++ t)%string with (String c (s ++ t)). cbn [drop_cr].
  rewrite IH. by case_decide.
Qed.

Lemma drop_cr_plain s : plain s -> drop_cr s = s.
Proof. induction s as [|c s IH]; [done|]. intros [Hc Hs]. cbn. rewrite decide_False by tauto. by rewrite IH. Qed.

Lemma chars_impl (P Q : Ascii.ascii -> Prop) s : (forall c, P c -> Q c) -> chars P s -> chars Q s.
Proof. intros Hpq. induction s as [|c s IH]; [done|]. intros [Hc Hs]. split; auto. Qed.

(** The two line ends in use. *)
Definition crlf : string := String ch_cr newline.

Lemma drop_cr_stream eol events : eol = newline \/ eol = crlf -> Forall event_ok events ->
  drop_cr (stream eol events) = stream newline events.
Proof.
  intros Heol Hok. assert (Ee : drop_cr eol = newline) by by destruct Heol as [->| ->].
  induction Hok as [|e events [_ He] _ IH]; [done|]. cbn [stream foldr]. rewrite drop_cr_app.
  fold (stream eol events). rewrite IH. f_equal. clear -He Ee. induction He as [|l e Hl _ IH]; [done|].
  change (render_event eol (l :: e)) with (line_text l ++ eol ++ render_event eol e)%string.
  rewrite !drop_cr_app, IH, Ee, drop_cr_plain by by apply plain_line. done.
Qed.

Lemma stream_clean events : Forall event_ok events -> c_string (stream newline events) = stream newline events.
Proof.
  intros Hok. apply c_string_clean.
  assert (Hn : chars (fun c => c <> ch_nul) newline) by by repeat split.
  induction Hok as [|e events [_ He] _ IH]; [done|]. cbn [stream foldr]. apply chars_app; [|done].
  clear -He Hn. induction He as [|l e Hl _ IH]; [done|]. apply chars_app; [|by apply chars_app].
  eapply chars_impl; [|by apply plain_line]. cbn. tauto.
Qed.

Lemma next_event_shorter s : s <> "" -> (String.length (next_event s).2 < String.length s)%nat.
Proof.
  induction s as [|c s IH]; [done|]. intros _. cbn [next_event].
  destruct s as [|d s]; [cbn; lia|]. specialize (IH ltac:(done)).
  case_decide; [cbn; lia|]. destruct (next_event (String d s)) as [e n]. cbn in IH |- *. lia.
Qed.

(** *** The loop over the events *)

Section loop.
Context {S : Type} (step : S -> string -> mem (S * bool)).

(** Fuel beyond the length of the text changes nothing. *)
Lemma sse_loop_fuel n : forall m cursor state o,
  (String.length cursor <= n)%nat -> (String.length cursor <= m)%nat ->
  sse_loop step n cursor state o = sse_loop step m cursor state o.
Proof.
  induction n as [|n IH]; intros m cursor state o Hn Hm.
  - destruct cursor; [by destruct m|cbn in Hn; lia].
  - destruct cursor as [|c s]; [by destruct m|]. destruct m as [|m]; [cbn in Hm; lia|].
    cbn [sse_loop]. pose proof (next_event_shorter (String c s) ltac:(done)) as Hs.
    destruct (next_event (String c s)) as [e r]. cbn [snd] in Hs.
    destruct e as [|d e]; [apply IH; lia|].
    unfold mbind, mem_bind. destruct (turbo_agent_sse_collect_event_data (String d e) o) as [[data|] o1]; [|done].
    destruct (step state data o1) as [[[state' []]|] o2]; [done| |done]. apply IH; cbn in *; lia.
Qed.

Variable answer : S -> string -> option (S * bool).
(** What is known of the data of the stream. *)
Variable valid : string -> Prop.
Hypothesis step_gives : forall state d, valid d -> gives (step state d) (answer state d).

(** The answers on the events' data, until one says stop. *)
Fixpoint run_steps (data : list string) (state : S) : option S :=
  match data with
  | [] => Some state
  | d :: data =>
      result ← answer state d;
      if result.2 : bool then Some result.1 else run_steps data result.1
  end.

Lemma render_nonempty e s : event_ok e -> (render_event newline e ++ s)%string <> "" /\
  String.concat newline (line_text <$> e) <> "".
Proof.
  intros [Hne Hl]. destruct Hl as [|l e Hl _]; [done|]. pose proof (line_nonempty _ Hl).
  change (render_event newline (l :: e)) with (line_text l ++ newline ++ render_event newline e)%string.
  cbn [fmap list_fmap]. destruct (line_text l); [done|]. by destruct (line_text <$> e).
Qed.

Lemma loop_runs events : Forall event_ok events -> Forall valid (payload <$> events) -> forall fuel state,
  (String.length (stream newline events) <= fuel)%nat ->
  gives (sse_loop step fuel (stream newline events) state) (run_steps (payload <$> events) state).
Proof.
  induction 1 as [|e events He _ IH]; intros Hv fuel state Hf; [destruct fuel; apply gives_ret|].
  apply Forall_cons in Hv as [Hve Hv]. specialize (IH Hv).
  cbn [stream foldr] in Hf |- *. fold (stream newline events) in *.
  pose proof (next_rendered e (stream newline events) He) as Hn.
  destruct (render_nonempty e (stream newline events) He) as [H1 H2].
  pose proof (next_event_shorter _ H1) as Hs. rewrite Hn in Hs. cbn [snd] in Hs.
  destruct (render_event newline e ++ stream newline events)%string as [|c s]; [done|].
  destruct fuel as [|fuel]; [cbn in Hf; lia|]. cbn [sse_loop]. rewrite Hn.
  pose proof (collected_payload e He) as Hc.
  destruct (String.concat newline (line_text <$> e)) as [|d text]; [done|].
  eapply gives_bind; [exact Hc|]. cbn [fmap list_fmap run_steps].
  pose proof (step_gives state (payload e) Hve) as Hx.
  destruct (answer state (payload e)) as [[state' stop]|]; cbn [mbind option_bind];
    [|by apply gives_bind_none].
  eapply gives_bind; [exact Hx|]. cbn [fst snd]. destruct stop; [apply gives_ret|]. apply IH. lia.
Qed.

Lemma events_run events state : Forall event_ok events -> Forall valid (payload <$> events) ->
  gives (sse_events step (stream newline events) state) (run_steps (payload <$> events) state).
Proof. intros Hok Hv. unfold sse_events. rewrite stream_clean by done. by apply loop_runs. Qed.

(** Cutting a stream of events gives their data back, with either line end: the steps
    run on the payloads of the events in order, each the values of its data lines
    joined by newlines; comments and other fields are skipped. *)
Lemma stream_cut eol events state : eol = newline \/ eol = crlf -> Forall event_ok events ->
  Forall valid (payload <$> events) ->
  gives (normalized ← turbo_agent_sse_normalize_newlines (Some (stream eol events))
           (Z.of_nat (String.length (stream eol events)));
         sse_events step normalized state) (run_steps (payload <$> events) state).
Proof.
  intros Heol Hok Hv. eapply gives_bind; [apply gives_create|]. rewrite drop_cr_stream by done.
  by apply events_run.
Qed.

End loop.

Lemma all_valid (l : list string) : Forall (fun _ => True) l.
Proof. by apply Forall_true. Qed.

Lemma gives_assoc {A B C} (m : mem A) (f : A -> mem B) (k : B -> mem C) y :
  gives ((m ≫= f) ≫= k) y -> gives (m ≫= fun x => f x ≫= k) y.
Proof.
  intros Hg o Ho. destruct (Hg o Ho) as (o' & Ho' & E). exists o'. split; [done|]. rewrite <- E.
  unfold mbind, mem_bind. by destruct (m o) as [[x|] o1].
Qed.

(** ** Texts and slots *)

Definition newest (target text : option string) : option string :=
  match text with Some (String c s) => text | _ => target end.

(** The last text that is not empty. *)
Definition last_text (l : list (option string)) : option string := foldl newest None l.

(** All texts, one after the other; none when there was none. *)
Definition joined (l : list (option string)) : option string :=
  match omap id l with
  | [] => None
  | texts => Some (String.concat "" texts)
  end.

Definition appended (buffer text : option string) : option string :=
  match text with
  | Some t => Some (default "" buffer ++ t)%string
  | None => buffer
  end.

Lemma set_if_gives t x : gives (turbo_agent_sse_set_if_nonempty t x) (Some (newest t x)).
Proof.
  unfold turbo_agent_sse_set_if_nonempty, turbo_agent_sse_replace_text.
  destruct x as [[|c s]|]; cbn; [apply gives_ret| |apply gives_ret].
  eapply gives_bind; [apply gives_need|]. eapply gives_bind; [apply gives_create|apply gives_ret].
Qed.

Lemma replace_gives t x : gives (turbo_agent_sse_replace_text t (Some x)) (Some (Some x)).
Proof.
  eapply gives_bind; [apply gives_need|]. eapply gives_bind; [apply gives_create|apply gives_ret].
Qed.

Lemma append_gives b x : gives (turbo_agent_sse_append_dynamic_text b (Some x)) (Some (appended b (Some x))).
Proof.
  eapply gives_bind; [apply gives_need|]. eapply gives_bind; [apply gives_create|apply gives_ret].
Qed.

Lemma last_text_snoc l x : last_text (l ++ [x]) = newest (last_text l) x.
Proof. unfold last_text. by rewrite foldl_app. Qed.

Lemma concat_snoc l x : String.concat "" (l ++ [x]) = (String.concat "" l ++ x)%string.
Proof.
  induction l as [|y l IH]; [done|]. destruct l as [|z l]; [done|].
  change (String.concat "" ((y :: z :: l) ++ [x])) with (y ++ "" ++ String.concat "" ((z :: l) ++ [x]))%string.
  rewrite IH. change (String.concat "" (y :: z :: l)) with (y ++ "" ++ String.concat "" (z :: l))%string.
  by rewrite !string_app_assoc.
Qed.

Lemma joined_snoc l x : joined (l ++ [x]) = appended (joined l) x.
Proof.
  unfold joined. rewrite omap_app. destruct x as [t|]; cbn [omap list_omap id]; [|by rewrite app_nil_r].
  destruct (omap id l) as [|y r] eqn:E; [done|].
  cbn [app]. rewrite (app_comm_cons r [t] y), concat_snoc. done.
Qed.

(** Changes to calls, each of one slot: a slot is what its own changes make of the
    empty call, and the slots go up to the last index changed. *)
Definition change : Type := nat * (sse_tool_call -> sse_tool_call).

Definition slot_count (ds : list change) : nat := foldr (fun d n => (d.1 + 1) `max` n)%nat 0%nat ds.

Definition slot_of (ds : list change) (i : nat) : sse_tool_call :=
  foldl (fun c d => d.2 c) empty_call (filter (fun d => d.1 = i) ds).

Definition slots (ds : list change) : list sse_tool_call := slot_of ds <$> seq 0 (slot_count ds).

(** One change, the way the code makes it. *)
Definition extended (l : list sse_tool_call) (i : nat) : list sse_tool_call :=
  l ++ replicate (i + 1 - length l) empty_call.

Definition apply_change (l : list sse_tool_call) (d : change) : list sse_tool_call :=
  let l := extended l d.1 in <[d.1 := d.2 (default empty_call (l !! d.1))]> l.

Lemma slot_gives l i : gives (turbo_agent_sse_tool_call_slot l i) (Some (extended l i)).
Proof.
  unfold turbo_agent_sse_tool_call_slot, extended. case_bool_decide; [|apply gives_create].
  replace (i + 1 - length l)%nat with 0%nat by lia. rewrite app_nil_r. apply gives_ret.
Qed.

Lemma slot_count_snoc ds d : slot_count (ds ++ [d]) = (slot_count ds `max` (d.1 + 1))%nat.
Proof. unfold slot_count. induction ds as [|e ds IH]; cbn [app foldr]; [lia|]. rewrite IH. lia. Qed.

Lemma slot_of_fresh ds i : (slot_count ds <= i)%nat -> slot_of ds i = empty_call.
Proof.
  intros Hi. unfold slot_of. replace (filter (fun d : change => d.1 = i) ds) with ([] : list change); [done|].
  symmetry. induction ds as [|d ds IH]; [done|].
  change (slot_count (d :: ds)) with ((d.1 + 1) `max` slot_count ds)%nat in Hi.
  rewrite filter_cons_False by (cbn; lia). apply IH. lia.
Qed.

Lemma slots_lookup ds i : slots ds !! i = if decide (i < slot_count ds)%nat then Some (slot_of ds i) else None.
Proof.
  unfold slots. rewrite list_lookup_fmap. case_decide.
  - by rewrite lookup_seq_lt by done.
  - by rewrite lookup_seq_ge by lia.
Qed.

Lemma extended_lookup ds n i : extended (slots ds) n !! i =
  if decide (i < slot_count ds `max` (n + 1))%nat then Some (slot_of ds i) else None.
Proof.
  assert (Hl : length (slots ds) = slot_count ds) by (unfold slots; by rewrite length_fmap, length_seq).
  unfold extended. destruct (decide (i < slot_count ds)%nat) as [Hi|Hi].
  - rewrite lookup_app_l by lia. rewrite slots_lookup, !decide_True by lia. done.
  - rewrite lookup_app_r by lia. rewrite Hl. case_decide.
    + rewrite lookup_replicate_2 by lia. by rewrite slot_of_fresh by lia.
    + apply lookup_replicate_None. lia.
Qed.

Lemma slot_of_snoc ds d i :
  slot_of (ds ++ [d]) i = if decide (d.1 = i) then d.2 (slot_of ds i) else slot_of ds i.
Proof. unfold slot_of. rewrite filter_app, foldl_app. cbn [filter list_filter]. by case_decide. Qed.

Lemma slots_snoc ds d : slots (ds ++ [d]) = apply_change (slots ds) d.
Proof.
  apply list_eq. intros i. unfold apply_change. rewrite slots_lookup, slot_count_snoc.
  rewrite (extended_lookup ds d.1 d.1), (decide_True (P := (d.1 < _)%nat)) by lia. cbn [default from_option].
  rewrite slot_of_snoc. destruct (decide (d.1 = i)) as [<-|Hne].
  - rewrite list_lookup_insert_eq; [|apply lookup_lt_is_Some; rewrite extended_lookup, decide_True by lia; by eexists].
    by rewrite decide_True by lia.
  - rewrite list_lookup_insert_ne by done. by rewrite extended_lookup.
Qed.

(** *** Texts without NUL

    What the readers of JSON strings give is cut at the first NUL, so everything a
    stream's state keeps is a C string. *)

Lemma newest_c_text a b : c_text_if a -> c_text_if b -> c_text_if (newest a b).
Proof. by destruct b as [[|c s]|]. Qed.

Lemma appended_c_text a b : c_text_if a -> c_text_if b -> c_text_if (appended a b).
Proof. intros Ha Hb. destruct b as [t|]; [|done]. destruct a as [s|]; [by apply c_text_app|exact Hb]. Qed.

Lemma text_of_c_text {J} `{JsonApi J} (j : J) key : c_text_if (text_of j key).
Proof.
  unfold text_of, member_string. destruct (turbo_runtime_json_value_as_string _) as [s|] eqn:E; [|done].
  by eapply as_string_c_text.
Qed.

(** A call's texts but for its arguments. *)
Definition call_names (c : sse_tool_call) : Prop :=
  c_text_if (tc_id c) /\ c_text_if (tc_type c) /\ c_text_if (tc_name c).

Definition state_texts (P : sse_tool_call -> Prop) (s : sse_state) : Prop :=
  c_text_if (st_id s) /\ c_text_if (st_role s) /\ c_text_if (st_content s) /\ c_text_if (st_reason s) /\
  Forall P (st_tool_calls s).

Lemma apply_change_Forall (P : sse_tool_call -> Prop) l (d : change) :
  P empty_call -> Forall P l -> (forall c, P c -> P (d.2 c)) -> Forall P (apply_change l d).
Proof.
  intros He Hl Hd. unfold apply_change.
  assert (Hx : Forall P (extended l d.1)) by (apply Forall_app; split; [done|by apply Forall_replicate]).
  apply Forall_insert; [done|]. apply Hd. destruct (extended l d.1 !! d.1) as [c|] eqn:E; [|done].
  by eapply Forall_lookup_1.
Qed.

(** ** [json_get_int] of the sample trees *)

Module SseSample.
Import JsonTree.

Definition get_int (j : jtree) (key : string) (d : Z) : Z :=
  match json_object_get j key with
  | Some (JNum (Some t) _) => default d (decimal_value t)
  | _ => d
  end.

End SseSample.
