(* ===== verification/SseChat.v ===== *)
(** * Streamed chat completions

    The state after any chunks is given by joining what the chunks say, and the
    response is the document of that state; its message is a valid prompt message. *)

From S2P Require Import Prelude RuntimeJson JsonBuild JsonMem Prompt PromptFacts PromptWire Sse SseFacts.

#[local] Open Scope string_scope.
#[local] Open Scope list_scope.
#[local] Open Scope Z_scope.

(** ** Chat completions *)

Section chat.
Context {J : Type} `{JsonSettersLaws J, !JsonLaws J, !JsonNewLaws J}.
Variable json_get_int : J -> string -> Z -> Z.
Abbreviation as_string := turbo_runtime_json_value_as_string.
Abbreviation chat_call := (chat_tool_call json_get_int).
Abbreviation apply_chunk := (turbo_agent_sse_chat_apply_chunk json_get_int).

(** *** What a chunk says *)

Record call_delta := mk_call_delta {
  cd_index : nat;
  cd_id : option string;
  cd_type : option string;
  cd_name : option string;
  cd_arguments : option string
}.

Record chunk_view := mk_chunk {
  ck_id : option string;
  ck_role : option string;
  ck_content : option string;
  ck_reason : option string;
  ck_calls : list call_delta
}.

Definition object_member (j : J) (key : string) : option J := typed JSON_OBJECT (json_object_get j key).

Definition view_call_delta (at_i : nat * J) : option call_delta :=
  j ← typed JSON_OBJECT (Some at_i.2);
  let index := json_get_int j "index" (int_of_size at_i.1) in
  if decide (0 <= index) then
    let f := object_member j "function" in
    Some (mk_call_delta (Z.to_nat index) (text_of j "id") (text_of j "type")
            (f ≫= fun f => text_of f "name")
            ((fun f => default "" (text_of f "arguments")) <$> f))
  else None.

Definition view_delta (delta : option J) : option (list call_delta) :=
  match delta ≫= fun d => typed JSON_ARRAY (json_object_get d "tool_calls") with
  | Some calls => mapM view_call_delta (indexed (json_array_items calls))
  | None => Some []
  end.

Definition view_chunk (chunk : J) : option chunk_view :=
  chunk ← typed JSON_OBJECT (Some chunk);
  choices ← typed JSON_ARRAY (json_object_get chunk "choices");
  choice ← typed JSON_OBJECT (head (json_array_items choices));
  let delta := object_member choice "delta" in
  calls ← view_delta delta;
  Some (mk_chunk (text_of chunk "id") (delta ≫= fun d => text_of d "role")
    (delta ≫= fun d => text_of d "content") (text_of choice "finish_reason") calls).

(** *** The state after some chunks *)

Definition change_of (d : call_delta) : change :=
  (cd_index d, fun c => mk_tool_call (newest (tc_id c) (cd_id d)) (newest (tc_type c) (cd_type d))
                          (newest (tc_name c) (cd_name d)) (appended (tc_arguments c) (cd_arguments d))).

(** Identifier, role and reason are the last ones that are not empty, the content
    is every text in order, and so for each call. *)
Definition chat_state (cs : list chunk_view) : sse_state :=
  mk_state (last_text (ck_id <$> cs)) (last_text (ck_role <$> cs)) (joined (ck_content <$> cs))
    (last_text (ck_reason <$> cs)) (slots (change_of <$> (cs ≫= ck_calls))).

Definition apply_view (s : sse_state) (v : chunk_view) : sse_state :=
  mk_state (newest (st_id s) (ck_id v)) (newest (st_role s) (ck_role v))
    (appended (st_content s) (ck_content v)) (newest (st_reason s) (ck_reason v))
    (foldl apply_change (st_tool_calls s) (change_of <$> ck_calls v)).

Lemma slots_app ds es : slots (ds ++ es) = foldl apply_change (slots ds) es.
Proof.
  revert ds. induction es as [|e es IH]; intros ds; [by rewrite app_nil_r|].
  rewrite (cons_middle e ds es), app_assoc, IH. by rewrite slots_snoc.
Qed.

Lemma chat_state_snoc cs v : chat_state (cs ++ [v]) = apply_view (chat_state cs) v.
Proof.
  unfold chat_state, apply_view. cbn [st_id st_role st_content st_reason st_tool_calls].
  rewrite bind_app, !fmap_app. cbn [fmap list_fmap mbind list_bind].
  by rewrite app_nil_r, !last_text_snoc, joined_snoc, slots_app.
Qed.

Lemma chat_state_all cs : foldl apply_view empty_state cs = chat_state cs.
Proof. induction cs as [|v cs IH] using rev_ind; [done|]. by rewrite foldl_app, chat_state_snoc, <- IH. Qed.

(** What the calls of the state are, without the fold. *)
Lemma slot_texts ds i : let mine := filter (fun d => cd_index d = i) ds in
  slot_of (change_of <$> ds) i =
  mk_tool_call (last_text (cd_id <$> mine)) (last_text (cd_type <$> mine)) (last_text (cd_name <$> mine))
    (joined (cd_arguments <$> mine)).
Proof.
  cbv zeta. induction ds as [|d ds IH] using rev_ind; [done|].
  rewrite fmap_app, filter_app. cbn [fmap list_fmap]. rewrite slot_of_snoc, IH. cbn [change_of fst snd].
  destruct (decide (cd_index d = i)) as [Hi|Hi].
  - rewrite filter_cons_True by done. rewrite filter_nil, !fmap_app. cbn [fmap list_fmap].
    by rewrite !last_text_snoc, joined_snoc.
  - rewrite filter_cons_False by done. by rewrite filter_nil, !app_nil_r.
Qed.

(** *** The code applies chunks like this *)

Lemma chat_call_gives l x :
  gives (chat_call l x) ((fun d => apply_change l (change_of d)) <$> view_call_delta x).
Proof.
  destruct x as [i j]. unfold chat_tool_call, view_call_delta. cbn [fst snd]. rewrite typed_some, bool_decide_decide.
  destruct (decide (json_type j = JSON_OBJECT)); cbn [negb mbind option_bind]; [|apply gives_fail].
  destruct (Z.ltb_spec (json_get_int j "index" (int_of_size i)) 0) as [Hn|Hn];
    [rewrite decide_False by lia; apply gives_fail|rewrite decide_True by lia].
  eapply gives_bind; [apply slot_gives|]. eapply gives_bind; [apply set_if_gives|].
  eapply gives_bind; [apply set_if_gives|]. unfold object_member.
  set (n := Z.to_nat (json_get_int j "index" (int_of_size i))).
  assert (Hno : gives (mret (<[n := with_type
      (newest (tc_type (default empty_call (extended l n !! n))) (text_of j "type"))
      (with_id (newest (tc_id (default empty_call (extended l n !! n))) (text_of j "id"))
        (default empty_call (extended l n !! n)))]> (extended l n)))
    ((fun d => apply_change l (change_of d)) <$>
      Some (mk_call_delta n (text_of j "id") (text_of j "type") None None))) by apply gives_ret.
  destruct (json_object_get j "function") as [f|]; cbn [typed mbind option_bind fmap option_fmap option_map];
    [|eapply gives_bind; [apply gives_ret|exact Hno]].
  rewrite bool_decide_decide. destruct (decide (json_type f = JSON_OBJECT)); cbn [mbind option_bind fmap option_fmap option_map];
    [|eapply gives_bind; [apply gives_ret|exact Hno]].
  eapply gives_bind; [|apply gives_ret].
  eapply gives_bind; [apply set_if_gives|]. eapply gives_bind; [apply append_gives|apply gives_ret].
Qed.

Lemma chat_calls_give xs : forall l, gives (mem_fold chat_call xs l)
  ((fun ds => foldl apply_change l (change_of <$> ds)) <$> mapM view_call_delta xs).
Proof.
  induction xs as [|x xs IH]; intros l; [apply gives_ret|]. cbn [mem_fold mapM].
  pose proof (chat_call_gives l x) as Hx.
  destruct (view_call_delta x) as [d|]; cbn in Hx |- *; [|by apply gives_bind_none].
  eapply gives_bind; [exact Hx|]. specialize (IH (apply_change l (change_of d))).
  by destruct (mapM view_call_delta xs).
Qed.

Lemma chat_delta_gives s d : gives (chat_delta json_get_int s d)
  ((fun calls => mk_state (st_id s) (newest (st_role s) (text_of d "role"))
      (appended (st_content s) (text_of d "content")) (st_reason s)
      (foldl apply_change (st_tool_calls s) (change_of <$> calls))) <$> view_delta (Some d)).
Proof.
  unfold chat_delta, view_delta. cbn [mbind option_bind]. eapply gives_bind; [apply set_if_gives|].
  assert (Hc : gives (match text_of d "content" with
      | Some text => turbo_agent_sse_append_dynamic_text (st_content s) (Some text)
      | None => mret (st_content s)
      end) (Some (appended (st_content s) (text_of d "content")))).
  { destruct (text_of d "content"); [apply append_gives|apply gives_ret]. }
  eapply gives_bind; [exact Hc|].
  destruct (json_object_get d "tool_calls") as [j|]; cbn [typed mbind option_bind]; [|apply gives_ret].
  rewrite bool_decide_decide. destruct (decide (json_type j = JSON_ARRAY)); [|apply gives_ret].
  pose proof (chat_calls_give (indexed (json_array_items j)) (st_tool_calls s)) as Hcalls.
  destruct (mapM view_call_delta _); cbn in Hcalls |- *; [|by apply gives_bind_none].
  eapply gives_bind; [exact Hcalls|apply gives_ret].
Qed.

Lemma apply_chunk_gives s chunk : gives (apply_chunk s chunk) (apply_view s <$> view_chunk chunk).
Proof.
  unfold turbo_agent_sse_chat_apply_chunk, view_chunk. rewrite typed_some, bool_decide_decide.
  destruct (decide (json_type chunk = JSON_OBJECT)); cbn [negb mbind option_bind]; [|apply gives_fail].
  eapply gives_bind; [apply set_if_gives|].
  destruct (json_object_get chunk "choices") as [j|]; cbn [has_type typed mbind option_bind];
    [|apply gives_bind_none, gives_need].
  rewrite bool_decide_decide. destruct (decide (json_type j = JSON_ARRAY)); [|apply gives_bind_none, gives_need].
  cbn [fmap option_fmap option_map default from_option]. unfold id. cbn [mbind option_bind].
  destruct (json_array_items j) as [|c r]; cbn [head mbind option_bind typed]; [apply gives_bind_none, gives_need|].
  eapply gives_bind; [apply gives_need|]. rewrite bool_decide_decide.
  destruct (decide (json_type c = JSON_OBJECT)); cbn [negb mbind option_bind]; [|apply gives_fail].
  set (s1 := set_id (newest (st_id s) (text_of chunk "id")) s).
  assert (Hd : gives (match json_object_get c "delta" with
      | Some delta => if bool_decide (json_type delta = JSON_OBJECT) then chat_delta json_get_int s1 delta else mret s1
      | None => mret s1
      end)
    ((fun calls => mk_state (st_id s1) (newest (st_role s) (object_member c "delta" ≫= fun d => text_of d "role"))
      (appended (st_content s) (object_member c "delta" ≫= fun d => text_of d "content")) (st_reason s)
      (foldl apply_change (st_tool_calls s) (change_of <$> calls))) <$> view_delta (object_member c "delta"))).
  { unfold object_member. destruct (json_object_get c "delta") as [d|]; cbn [typed mbind option_bind]; [|apply gives_ret].
    rewrite bool_decide_decide. destruct (decide (json_type d = JSON_OBJECT)); [apply (chat_delta_gives s1)|apply gives_ret]. }
  destruct (view_delta (object_member c "delta")) as [calls|]; cbn in Hd |- *; [|by apply gives_bind_none].
  eapply gives_bind; [exact Hd|]. eapply gives_bind; [apply set_if_gives|apply gives_ret].
Qed.

(** *** Texts of chunks and of the state *)

Definition call_texts (c : sse_tool_call) : Prop := call_names c /\ c_text_if (tc_arguments c).

Definition delta_texts (d : call_delta) : Prop :=
  c_text_if (cd_id d) /\ c_text_if (cd_type d) /\ c_text_if (cd_name d) /\ c_text_if (cd_arguments d).

Definition chunk_texts (v : chunk_view) : Prop :=
  c_text_if (ck_id v) /\ c_text_if (ck_role v) /\ c_text_if (ck_content v) /\ c_text_if (ck_reason v) /\
  Forall delta_texts (ck_calls v).

Lemma object_text_c_text (v : option J) key : c_text_if (v ≫= fun d => text_of d key).
Proof. destruct v; [apply text_of_c_text|done]. Qed.

Lemma view_call_delta_texts x d : view_call_delta x = Some d -> delta_texts d.
Proof.
  unfold view_call_delta. rewrite typed_some. case_decide; [|done]. cbn [mbind option_bind].
  case_decide; [|done]. intros [= <-]. unfold delta_texts. cbn [cd_id cd_type cd_name cd_arguments].
  do 2 (split; [apply text_of_c_text|]). split; [apply object_text_c_text|]. destruct (object_member x.2 "function") as [f|]; [|done]. cbn.
  pose proof (text_of_c_text f "arguments") as Ht. by destruct (text_of f "arguments").
Qed.

Lemma view_chunk_texts c v : view_chunk c = Some v -> chunk_texts v.
Proof.
  unfold view_chunk. intros Hv. repeat (apply bind_Some in Hv as (? & ? & Hv)). injection Hv as <-.
  unfold chunk_texts. cbn [ck_id ck_role ck_content ck_reason ck_calls].
  split; [apply text_of_c_text|]. do 2 (split; [apply object_text_c_text|]). split; [apply text_of_c_text|].
  match goal with Hd : view_delta ?d = Some ?l |- Forall _ ?l => revert Hd; unfold view_delta end.
  destruct (_ ≫= _); [|by intros [= <-]]. intros Hm%mapM_Some.
  induction Hm as [|y d ys ds Hy _ IH]; constructor; [by eapply view_call_delta_texts|done].
Qed.

Lemma apply_view_texts s v : state_texts call_texts s -> chunk_texts v -> state_texts call_texts (apply_view s v).
Proof.
  intros (Hi & Hr & Hc & Hf & Hl) (Vi & Vr & Vc & Vf & Vl).
  split_and!; cbn; [by apply newest_c_text|by apply newest_c_text|by apply appended_c_text|by apply newest_c_text|].
  clear -Hl Vl. revert Vl Hl. generalize (st_tool_calls s) as l.
  induction (ck_calls v) as [|d ds IH]; intros l Hds Hl; [done|].
  apply Forall_cons in Hds as [(Di & Dt & Dn & Da) Hds]. cbn [fmap list_fmap foldl]. apply IH; [done|].
  apply apply_change_Forall; [by split_and!|done|].
  intros c [(Ci & Ct & Cn) Ca]. unfold call_texts, call_names.
  cbn [change_of snd tc_id tc_type tc_name tc_arguments].
  split_and!; [by apply newest_c_text..|by apply appended_c_text].
Qed.

Lemma chat_state_texts cs vs : mapM view_chunk cs = Some vs -> state_texts call_texts (chat_state vs).
Proof.
  intros Hm%mapM_Some. rewrite <- chat_state_all.
  assert (He : state_texts call_texts empty_state) by (by split_and!; cbn; try constructor).
  revert He. generalize empty_state as s.
  induction Hm as [|c v cs vs Hc _ IH]; intros s Hs; [done|]. cbn [foldl]. apply IH, apply_view_texts; [done|].
  by eapply view_chunk_texts.
Qed.

(** *** The response *)

Record response_view := mk_response {
  r_id : string;
  r_reason : string;
  r_message : message_view (J := J)
}.

Definition response_call (c : sse_tool_call) : option (call_view (J := J)) :=
  id ← tc_id c; name ← tc_name c; arguments ← tc_arguments c;
  Some (mk_call id (default "function" (tc_type c)) name (AText arguments)).

(** None without an identifier, or when a call lacks its identifier, name or arguments. *)
Definition chat_response (s : sse_state) : option response_view :=
  id ← st_id s;
  calls ← mapM response_call (st_tool_calls s);
  Some (mk_response id (default (if decide (calls = []) then "stop" else "tool_calls") (st_reason s))
    (mk_message (if is_some_nonempty (st_role s) then default "assistant" (st_role s) else "assistant")
       (CText (default "" (st_content s))) None (if decide (calls = []) then None else Some calls))).

Definition chat_document (doc : J) (r : response_view) : Prop :=
  json_type doc = JSON_OBJECT /\ text_of doc "id" = Some (r_id r) /\
  text_of doc "object" = Some "chat.completion" /\
  exists choices choice message,
    json_object_get doc "choices" = Some choices /\ json_type choices = JSON_ARRAY /\
    json_array_items choices = [choice] /\
    text_of choice "finish_reason" = Some (r_reason r) /\
    json_object_get choice "message" = Some message /\ view_message message = Some (r_message r).

Definition call_document (id type name arguments : string) : J :=
  object_of [("id", json_create_string id); ("type", json_create_string type);
    ("function", object_of [("name", json_create_string name); ("arguments", json_create_string arguments)])].

Lemma tool_call_gives id type name arguments :
  gives (turbo_prompt_chat_tool_call_create (Some id) (Some type) (Some name) (Some arguments))
    (Some (call_document id type name arguments)).
Proof.
  unfold turbo_prompt_chat_tool_call_create.
  do 3 (eapply gives_bind; [apply gives_need|]).
  do 2 (eapply gives_bind; [apply gives_attempt, gives_create|]).
  do 2 (eapply gives_bind; [apply gives_need|]).
  repeat (eapply gives_bind; [apply gives_quiet, raw_string_sets|]).
  apply gives_quiet, raw_member_sets.
Qed.

Lemma call_document_view id type name arguments :
  c_text id -> c_text type -> c_text name -> c_text arguments ->
  view_call (call_document id type name arguments) = Some (mk_call id type name (AText arguments)).
Proof.
  intros Hid Hty Hn Ha. unfold call_document, view_call. rewrite typed_some, decide_True by apply object_of_type. cbn [mbind option_bind].
  rewrite !object_of_get. cbn [assoc String.eqb Ascii.eqb Bool.eqb]. rewrite !created_text by done.
  cbn [mbind option_bind]. rewrite typed_some, decide_True by apply object_of_type.
  cbn [mbind option_bind]. rewrite !object_of_get. cbn [assoc String.eqb Ascii.eqb Bool.eqb].
  rewrite !created_text by done. cbn. by rewrite json_type_string, json_c_text_create, Ha.
Qed.

Lemma chat_calls_array s calls : state_texts call_texts s -> mapM response_call (st_tool_calls s) = Some calls -> calls <> [] ->
  exists a, gives (turbo_agent_sse_build_chat_tool_calls_array s) (Some a) /\ view_calls (J := J) a = Some calls.
Proof.
  intros (_ & _ & _ & _ & Htexts) Hm Hne. apply mapM_Some in Hm.
  unfold turbo_agent_sse_build_chat_tool_calls_array.
  assert (Hl : exists js, Forall2 (fun j c => view_call j = Some c) js calls /\
    forall a, json_type a = JSON_ARRAY -> gives (mem_fold (fun tool_calls call =>
      id ← need (tc_id call); name ← need (tc_name call); arguments ← need (tc_arguments call);
      tool_call_object ← turbo_prompt_chat_tool_call_create (Some id)
        (Some (default "function" (tc_type call))) (Some name) (Some arguments);
      quiet_append tool_calls tool_call_object) (st_tool_calls s) a) (Some (foldl json_array_add a js))).
  { clear Hne. induction Hm as [|c v cs vs Hc _ IH]; [exists []; split; [constructor|intros; apply gives_ret]|].
    apply Forall_cons in Htexts as [((Hti & Htt & Htn) & Hta) Htexts].
    destruct (IH Htexts) as (js & Hv & Hg). unfold response_call in Hc.
    destruct (tc_id c) as [i|] eqn:Ei; [|done]. destruct (tc_name c) as [n|] eqn:En; [|done].
    destruct (tc_arguments c) as [a|] eqn:Ea; [|done]. injection Hc as <-.
    rewrite ?Ei in Hti. rewrite ?En in Htn. rewrite ?Ea in Hta.
    pose proof (tool_call_gives i (default "function" (tc_type c)) n a) as Hj.
    exists (call_document i (default "function" (tc_type c)) n a :: js). split.
    { constructor; [|done]. apply call_document_view; try done. by apply c_text_default. } intros b Hb. cbn [mem_fold]. rewrite Ei, En, Ea.
    eapply gives_bind; [|apply Hg, json_type_array_add, Hb].
    do 3 (eapply gives_bind; [apply gives_need|]). eapply gives_bind; [exact Hj|apply gives_quiet_append]. }
  destruct Hl as (js & Hv & Hg). exists (array_of js). destruct (array_of_spec js) as [Hat Hai]. split.
  - destruct (st_tool_calls s) eqn:E; [by inversion Hm; subst|]. eapply gives_bind; [apply gives_create|].
    apply Hg, json_type_array.
  - unfold view_calls. rewrite typed_some, decide_True by done. cbn [mbind option_bind]. rewrite Hai.
    by apply mapM_Some.
Qed.

Lemma chat_calls_missing s : mapM response_call (st_tool_calls s) = None ->
  gives (turbo_agent_sse_build_chat_tool_calls_array (J := J) s) None.
Proof.
  intros Hm. unfold turbo_agent_sse_build_chat_tool_calls_array.
  destruct (st_tool_calls s) as [|c cs]; [done|]. eapply gives_bind; [apply gives_create|].
  apply mapM_None in Hm. revert Hm. generalize (c :: cs) as l. generalize (json_create_array (J := J)) as a.
  intros a l. revert a. induction l as [|d l IH]; intros a Hm; [by inversion Hm|]. cbn [mem_fold].
  unfold response_call in Hm.
  destruct (tc_id d) as [i|] eqn:Ei; [|by apply gives_bind_none, gives_bind_none, gives_need].
  destruct (tc_name d) as [n|] eqn:En.
  2: { apply gives_bind_none. eapply gives_bind; [apply gives_need|]. apply gives_bind_none, gives_need. }
  destruct (tc_arguments d) as [t|] eqn:Ea.
  2: { apply gives_bind_none. do 2 (eapply gives_bind; [apply gives_need|]). apply gives_bind_none, gives_need. }
  inversion Hm as [? ? Hd|? ? Hl]; subst; [by rewrite Ei, En, Ea in Hd|].
  pose proof (tool_call_gives i (default "function" (tc_type d)) n t) as Hj.
  eapply gives_bind; [|by apply IH]. do 3 (eapply gives_bind; [apply gives_need|]).
  eapply gives_bind; [exact Hj|apply gives_quiet_append].
Qed.

Lemma text_of_new kvs k : text_of (J := J) (object_of kvs) k = as_string (assoc k kvs).
Proof. unfold text_of, member_string. by rewrite member_some, object_of_get. Qed.

Lemma get_object_add kvs k v k' : json_object_get (json_object_add (object_of kvs) k v) k' =
  if decide (k = k') then Some v else assoc (J := J) k' kvs.
Proof.
  case_decide as Hk; [subst; by rewrite json_get_add by apply object_of_type|].
  by rewrite json_get_add_ne, object_of_get by first [done|apply object_of_type].
Qed.

(** The members of the shell before the message and the choice change. *)
Definition shell_choice (message : J) : list (string * J) :=
  [("index", json_create_number (double_of_uint 0)); ("message", message)].

Definition shell_response (id : string) (choices : J) : list (string * J) :=
  [("id", json_create_string id); ("object", json_create_string "chat.completion"); ("choices", choices)].

Definition shell_message (s : sse_state) : J :=
  object_of [("role", json_create_string
      (if is_some_nonempty (st_role s) then default "assistant" (st_role s) else "assistant"));
    ("content", json_create_string (default "" (st_content s)))].

Lemma chat_shell_gives s id : st_id s = Some id ->
  let message := shell_message s in
  let choice := object_of (shell_choice message) in
  gives (turbo_agent_sse_chat_response_shell_create s)
    (Some (object_of (shell_response id (array_of [choice])), array_of [choice], choice, message)).
Proof.
  intros Hid message choice. unfold turbo_agent_sse_chat_response_shell_create. rewrite Hid.
  eapply gives_bind; [apply gives_need|].
  do 3 (eapply gives_bind; [apply gives_attempt, gives_create|]).
  eapply gives_bind; [apply gives_attempt|].
  { unfold turbo_prompt_message_create. eapply gives_bind; [apply gives_create|].
    eapply gives_bind; [apply gives_quiet, raw_string_sets|apply gives_quiet, raw_string_sets]. }
  do 4 (eapply gives_bind; [apply gives_need|]).
  do 2 (eapply gives_bind; [apply gives_quiet, raw_string_sets|]).
  eapply gives_bind; [apply gives_quiet, raw_number_sets|].
  eapply gives_bind; [apply gives_quiet, raw_member_sets|].
  eapply gives_bind; [apply gives_quiet_append|].
  eapply gives_bind; [apply gives_quiet, raw_member_sets|apply gives_ret].
Qed.

(** The response as it is seen in the end. *)
Lemma chat_seen id s message m choice_extra reason : c_text id -> c_text reason ->
  view_message message = Some m -> choice_extra = ("finish_reason", json_create_string reason) ->
  chat_document
    (chat_response_seen (object_of (shell_response id (array_of [object_of (shell_choice (shell_message s))])))
       (array_of [object_of (shell_choice (shell_message s))])
       (object_of (shell_choice (shell_message s) ++ [choice_extra])) message)
    (mk_response id reason m).
Proof.
  intros Hid Hreason Hm ->. unfold chat_response_seen.
  set (choice := update_member _ "message" message).
  assert (Hc : choice = json_object_add
    (object_of (shell_choice (shell_message s) ++ [("finish_reason", json_create_string reason)])) "message" message).
  { subst choice. unfold update_member. by rewrite object_of_get. }
  destruct (array_of_spec [object_of (shell_choice (shell_message s))]) as [_ Hi].
  destruct (array_of_spec [choice]) as [Hct Hci]. rewrite Hi.
  change (json_array_add json_create_array choice) with (array_of [choice]).
  unfold update_member at 1. rewrite object_of_get.
  cbn [shell_response assoc String.eqb Ascii.eqb Bool.eqb].
  split; [apply json_type_add, object_of_type|]. unfold text_of, member_string.
  rewrite !member_some, !get_object_add. cbn [shell_response assoc String.eqb Ascii.eqb Bool.eqb].
  rewrite !decide_False by done. rewrite !created_text by done. split; [done|]. split; [done|].
  exists (array_of [choice]), choice, message. rewrite decide_True by done. do 3 (split; [done|]).
  rewrite Hc, member_some, !get_object_add. cbn. rewrite decide_False by done.
  rewrite created_text by done. by rewrite decide_True.
Qed.

Lemma build_chat_gives s : state_texts call_texts s -> match chat_response s with
  | Some r => exists doc, gives (turbo_agent_sse_build_chat_response_json s) (Some (json_serialize doc)) /\
      chat_document doc r
  | None => gives (turbo_agent_sse_build_chat_response_json (J := J) s) None
  end.
Proof.
  intros Htexts. pose proof Htexts as (Hti & Htr & Htc & Htf & _).
  unfold chat_response, turbo_agent_sse_build_chat_response_json.
  destruct (st_id s) as [i|] eqn:Ei; cbn [mbind option_bind].
  2: { apply gives_bind_none. unfold turbo_agent_sse_chat_response_shell_create. rewrite Ei.
       apply gives_bind_none, gives_need. }
  pose proof (chat_shell_gives s i Ei) as Hshell. cbv zeta in Hshell.
  set (role := if is_some_nonempty (st_role s) then default "assistant" (st_role s) else "assistant").
  assert (Hrole : c_text role) by (subst role; case_match; [by apply c_text_default|done]).
  assert (Hcontent : c_text (default "" (st_content s))) by (by apply c_text_default).
  destruct (mapM response_call (st_tool_calls s)) as [calls|] eqn:Ec.
  2: { eapply gives_bind; [exact Hshell|]. cbn beta iota zeta.
       rewrite bool_decide_eq_true_2 by (by intros E; rewrite E in Ec).
       apply gives_bind_none, gives_bind_none, chat_calls_missing, Ec. }
  assert (Hnil : st_tool_calls s = [] <-> calls = []).
  { apply mapM_Some in Ec. apply Forall2_length in Ec. destruct (st_tool_calls s), calls; done. }
  destruct (decide (calls = [])) as [->|Hne]; cbn [mbind option_bind];
    [|destruct (chat_calls_array s calls Htexts Ec Hne) as (a & Ha & Hva); rewrite !(decide_False (P := calls = [])) by done];
    eexists.
  - split; [|refine (chat_seen i s _ _ _ _ Hti (c_text_default "stop" _ eq_refl Htf) _ eq_refl)].
    + eapply gives_bind; [exact Hshell|]. cbn beta iota zeta.
      rewrite bool_decide_eq_false_2 by (rewrite Hnil; by intros []).
      eapply gives_bind; [apply gives_ret|].
      eapply gives_bind; [apply gives_quiet, raw_string_sets|]. rewrite object_of_snoc.
      eapply gives_bind; [apply gives_need|apply gives_create].
    + exact (built_message_view role _ None None _ None Hrole I (view_content_text _ Hcontent) eq_refl).
  - split; [|refine (chat_seen i s _ _ _ _ Hti (c_text_default "tool_calls" _ eq_refl Htf) _ eq_refl)].
    + eapply gives_bind; [exact Hshell|]. cbn beta iota zeta.
      rewrite bool_decide_eq_true_2 by (by rewrite Hnil).
      eapply gives_bind; [eapply gives_bind; [exact Ha|apply gives_quiet, raw_member_sets]|].
      eapply gives_bind; [apply gives_quiet, raw_string_sets|]. rewrite (object_of_snoc (shell_choice _)).
      eapply gives_bind; [apply gives_need|apply gives_create].
    + refine (built_message_view role _ None (Some a) _ (Some calls) Hrole I (view_content_text _ Hcontent) _).
      cbn [optional]. by rewrite Hva.
Qed.

(** *** The whole stream *)

(** The chunks of the events' data, up to the end mark. *)
Fixpoint stream_chunks (data : list string) : option (list J) :=
  match data with
  | [] => Some []
  | d :: data =>
      if decide (d = "[DONE]") then Some []
      else if decide (d = "") then stream_chunks data
      else c ← json_parse d; cs ← stream_chunks data; Some (c :: cs)
  end.

Definition chat_answer (seen : sse_state * bool) (data : string) : option (sse_state * bool * bool) :=
  if decide (data = "[DONE]") then Some (seen, true)
  else if decide (data = "") then Some (seen, false)
  else c ← json_parse data; v ← view_chunk c; Some (apply_view seen.1 v, true, false).

Lemma chat_step_gives seen data : True -> gives (chat_step json_get_int seen data) (chat_answer seen data).
Proof.
  intros _. unfold chat_step, chat_answer. rewrite !bool_decide_decide.
  destruct (decide (data = "[DONE]")); [apply gives_ret|]. destruct (decide (data = "")); [apply gives_ret|].
  destruct (json_parse data) as [c|]; [|apply gives_bind_none, gives_need]. cbn [mbind option_bind].
  eapply gives_bind; [apply gives_need|]. eapply gives_bind; [apply gives_create|].
  pose proof (apply_chunk_gives seen.1 c) as Hc.
  destruct (view_chunk c); cbn in Hc |- *; [|by apply gives_bind_none].
  eapply gives_bind; [exact Hc|apply gives_ret].
Qed.

Lemma run_chat data : forall s b, run_steps chat_answer data (s, b) =
  vs ← stream_chunks data ≫= mapM view_chunk;
  Some (foldl apply_view s vs, match vs with [] => b | _ => true end).
Proof.
  induction data as [|d data IH]; intros s b; [done|].
  cbn [run_steps stream_chunks].
  assert (Ea : chat_answer (s, b) d = if decide (d = "[DONE]") then Some (s, b, true)
    else if decide (d = "") then Some (s, b, false)
    else c ← json_parse d; v ← view_chunk c; Some (apply_view s v, true, false)) by done.
  rewrite Ea. destruct (decide (d = "[DONE]")); [done|]. destruct (decide (d = "")); [apply IH|].
  destruct (json_parse d) as [c|]; [|done]. cbn [mbind option_bind].
  destruct (view_chunk c) as [v|] eqn:Ev; cbn [mbind option_bind fst snd].
  - rewrite IH. destruct (stream_chunks data) as [cs|]; [|done]. cbn [mbind option_bind mapM].
    rewrite Ev. cbn [mbind option_bind]. destruct (mapM view_chunk cs) as [vs|]; [|done]. cbn. by destruct vs.
  - destruct (stream_chunks data) as [cs|]; [|done]. cbn [mbind option_bind mapM]. by rewrite Ev.
Qed.

(** C37. A streamed chat completion: while memory lasts, the answer for any rendered stream is
    NULL exactly when some chunk before the end mark does not parse or is no chunk,
    there is none, or the response lacks its identifier or that of a call; and
    otherwise the text of a document whose identifier, role and finish reason are
    the last ones streamed, whose content is all content deltas in order, and whose
    calls have for each index the last name and all argument deltas in order; its
    message is a valid prompt message with these.  Every streamed text is read as a C
    string: what follows its first NUL is lost. *)
Theorem chat_stream eol events : eol = newline \/ eol = crlf -> Forall event_ok events ->
  match (vs ← stream_chunks (payload <$> events) ≫= mapM view_chunk;
         if decide (vs = []) then None else chat_response (chat_state vs)) with
  | Some r => exists doc,
      gives (turbo_agent_chat_sse_to_json json_get_int (Some (stream eol events))) (Some (json_serialize doc)) /\
      chat_document doc r
  | None => gives (turbo_agent_chat_sse_to_json json_get_int (Some (stream eol events))) None
  end.
Proof.
  intros Heol Hok.
  pose proof (stream_cut _ _ _ chat_step_gives eol events (empty_state, false) Heol Hok (all_valid _)) as Hcut.
  rewrite run_chat in Hcut.
  unfold turbo_agent_chat_sse_to_json.
  destruct (stream_chunks (payload <$> events) ≫= mapM view_chunk) as [vs|] eqn:Evs; cbn [mbind option_bind] in *.
  2: { eapply gives_bind; [apply gives_need|]. by apply gives_assoc, gives_bind_none. }
  rewrite chat_state_all in Hcut. apply bind_Some in Evs as (cs & _ & Htexts%chat_state_texts).
  pose proof (build_chat_gives (chat_state vs) Htexts) as Hb.
  assert (Hall : forall y, (if decide (vs = []) then y = None
      else gives (turbo_agent_sse_build_chat_response_json (J := J) (chat_state vs)) y) ->
    gives (data ← need (Some (stream eol events));
           normalized ← turbo_agent_sse_normalize_newlines (Some data) (Z.of_nat (String.length data));
           seen ← sse_events (chat_step json_get_int) normalized (empty_state, false);
           if negb seen.2 then mem_fail else turbo_agent_sse_build_chat_response_json seen.1) y).
  { intros y Hy. eapply gives_bind; [apply gives_need|]. apply gives_assoc.
    eapply gives_bind; [exact Hcut|]. cbn [fst snd].
    destruct vs; [rewrite decide_True in Hy by done; subst; apply gives_fail|].
    rewrite decide_False in Hy by done. exact Hy. }
  destruct (decide (vs = [])); [by apply Hall|].
  destruct (chat_response (chat_state vs)) as [r|]; [|by apply Hall].
  destruct Hb as (doc & Hg & Hd). exists doc. split; [by apply Hall|done].
Qed.

End chat.

(** ** A stream *)

Module SseChatRuns.
Import JsonTree JsonNew SseSample.

Definition chunk (delta : list (string * jtree)) (rest : list (string * jtree)) : jtree :=
  JObj [("id", JStr "c1"); ("choices", JArr [JObj (("delta", JObj delta) :: rest)])].

Definition calling (index id name arguments : string) : jtree :=
  JObj [("index", JNum (Some index) DNan); ("id", JStr id);
        ("function", JObj [("name", JStr name); ("arguments", JStr arguments)])].

Definition chunks : list jtree :=
  [chunk [("role", JStr "assistant"); ("content", JStr "he")] [];
   chunk [("content", JStr "llo"); ("tool_calls", JArr [calling "1" "b" "g" "x"])] [];
   chunk [("tool_calls", JArr [calling "0" "a" "f" "1"; calling "1" "" "" "y"])] [("finish_reason", JStr "tool_calls")]].

(** A piece is what is before its first NUL. *)
Example piece_cut :
  ck_content <$> view_chunk get_int (chunk [("content", JStr ("a" ++ String ch_nul "b"))] []) = Some (Some "a").
Proof. vm_compute. reflexivity. Qed.

(** A comment, the chunks, the end mark and an event after it. *)
Definition events : list (list sse_line) :=
  [SOther ": hello"] :: ((fun c => [SOther "event: chunk"; SData true (json_serialize c)]) <$> chunks)
    ++ [[SData true "[DONE]"]; [SData false "rest"]].

Lemma events_ok : Forall event_ok events.
Proof. apply events_check. vm_compute. reflexivity. Qed.

Lemma chat_stream_witness : exists doc,
  gives (turbo_agent_chat_sse_to_json get_int (Some (stream crlf events))) (Some (json_serialize doc)) /\
  chat_document doc (mk_response "c1" "tool_calls" (mk_message "assistant" (CText "hello") None
    (Some [mk_call "a" "function" "f" (AText "1"); mk_call "b" "function" "g" (AText "xy")]))).
Proof.
  pose proof (chat_stream get_int crlf events (or_intror eq_refl) events_ok) as Hs.
  assert (E : (vs ← stream_chunks (payload <$> events) ≫= mapM (view_chunk get_int);
      if decide (vs = []) then None else chat_response (J := jtree) (chat_state vs)) =
    Some (mk_response "c1" "tool_calls" (mk_message "assistant" (CText "hello") None
      (Some [mk_call "a" "function" "f" (AText "1"); mk_call "b" "function" "g" (AText "xy")]))))
    by (vm_compute; reflexivity).
  rewrite E in Hs. exact Hs.
Defined.

End SseChatRuns.
