(* ===== verification/SseAnthropic.v ===== *)
(** * Streamed Anthropic messages

    The state after any events is given by joining what the events say, and the
    response is the document of that state.  A call's slot is the index of its
    content block, and a slot that no call takes makes the response fail. *)

From S2P Require Import Prelude RuntimeJson JsonBuild JsonMem Prompt PromptFacts PromptWire Sse SseFacts.

#[local] Open Scope string_scope.
#[local] Open Scope list_scope.
#[local] Open Scope Z_scope.

Section anthropic.
Context {J : Type} `{JsonSettersLaws J, !JsonLaws J, !JsonNewLaws J}.
Variable json_get_int : J -> string -> Z -> Z.
Variable free_tstr : string -> mem ().
Abbreviation as_string := turbo_runtime_json_value_as_string.
Abbreviation apply_event := (turbo_agent_sse_anthropic_apply_event json_get_int free_tstr).

(** Whether the data starts no call with an input that is no object, the case in
    which the code releases a text it may not release so. *)
Definition object_input (event : J) : bool :=
  match json_object_get event "content_block" with
  | Some block =>
      negb (bool_decide (text_of event "type" = Some "content_block_start")) ||
      negb (bool_decide (text_of block "type" = Some "tool_use")) ||
      match json_object_get block "input" with
      | Some input => bool_decide (json_type input = JSON_OBJECT)
      | None => true
      end
  | None => true
  end.

Definition object_inputs (data : string) : bool := from_option object_input true (json_parse data).

(** ** What an event says *)

Record event_view := mk_event {
  e_id : option string;
  e_role : option string;
  e_text : option string;
  e_reason : option string;
  e_change : option change
}.

Definition says_text (t : option string) : event_view := mk_event None None t None None.
Definition says_change (c : change) : event_view := mk_event None None None None (Some c).
Definition says_nothing : event_view := mk_event None None None None None.

(** The text a call's arguments start with: those of an input with members. *)
Definition input_text (v : option J) : option string :=
  j ← v;
  if decide (json_type j = JSON_OBJECT /\ 0 < json_object_size j) then Some (json_serialize j) else None.

Definition starts_call (block : J) (c : sse_tool_call) : sse_tool_call :=
  mk_tool_call (newest (tc_id c) (text_of block "id")) (Some "tool_use")
    (newest (tc_name c) (text_of block "name"))
    match input_text (json_object_get block "input") with
    | Some t => Some t
    | None => tc_arguments c
    end.

Definition adds_arguments (text : option string) (c : sse_tool_call) : sse_tool_call :=
  mk_tool_call (tc_id c) (Some "tool_use") (tc_name c) (appended (tc_arguments c) text).

Definition event_index (event : J) : option nat :=
  let i := json_get_int event "index" 0 in if decide (0 <= i) then Some (Z.to_nat i) else None.

(** A block or a delta of the content, at its index. *)
Definition view_block (event : J) : option event_view :=
  block ← typed JSON_OBJECT (json_object_get event "content_block");
  index ← event_index event;
  if decide (text_of block "type" = Some "text") then Some (says_text (text_of block "text"))
  else if decide (text_of block "type" = Some "tool_use")
  then Some (says_change (index, starts_call block))
  else Some says_nothing.

Definition view_block_delta (event : J) : option event_view :=
  delta ← typed JSON_OBJECT (json_object_get event "delta");
  index ← event_index event;
  if decide (text_of delta "type" = Some "text_delta") then Some (says_text (text_of delta "text"))
  else if decide (text_of delta "type" = Some "input_json_delta")
  then Some (says_change (index, adds_arguments (text_of delta "partial_json")))
  else Some says_nothing.

Definition view_event (event : J) : option event_view :=
  event ← typed JSON_OBJECT (Some event);
  type ← text_of event "type";
  if decide (type = "message_start") then
    message ← typed JSON_OBJECT (json_object_get event "message");
    Some (mk_event (text_of message "id") (text_of message "role") None None None)
  else if decide (type = "content_block_start") then view_block event
  else if decide (type = "content_block_delta") then view_block_delta event
  else if decide (type = "message_delta") then
    delta ← typed JSON_OBJECT (json_object_get event "delta");
    Some (mk_event None None None (text_of delta "stop_reason") None)
  else Some says_nothing.

(** ** The state after some events *)

Definition anthropic_state (es : list event_view) : sse_state :=
  mk_state (last_text (e_id <$> es)) (last_text (e_role <$> es)) (joined (e_text <$> es))
    (last_text (e_reason <$> es)) (slots (omap e_change es)).

Definition apply_view (s : sse_state) (v : event_view) : sse_state :=
  mk_state (newest (st_id s) (e_id v)) (newest (st_role s) (e_role v))
    (appended (st_content s) (e_text v)) (newest (st_reason s) (e_reason v))
    match e_change v with
    | Some d => apply_change (st_tool_calls s) d
    | None => st_tool_calls s
    end.

Lemma anthropic_state_snoc es v : anthropic_state (es ++ [v]) = apply_view (anthropic_state es) v.
Proof.
  unfold anthropic_state, apply_view. cbn [st_id st_role st_content st_reason st_tool_calls].
  rewrite omap_app, !fmap_app. cbn [fmap list_fmap omap list_omap].
  rewrite !last_text_snoc, joined_snoc. destruct (e_change v); [by rewrite slots_snoc|by rewrite app_nil_r].
Qed.

Lemma anthropic_state_all es : foldl apply_view empty_state es = anthropic_state es.
Proof. induction es as [|v es IH] using rev_ind; [done|]. by rewrite foldl_app, anthropic_state_snoc, <- IH. Qed.

(** ** The code applies events like this *)

Lemma set_content_view s t :
  gives (match t with
         | Some text => content ← turbo_agent_sse_append_dynamic_text (st_content s) (Some text);
                        mret (set_content content s)
         | None => mret s
         end) (Some (apply_view s (says_text t))).
Proof.
  destruct t as [t|]; [eapply gives_bind; [apply append_gives|]|]; destruct s; apply gives_ret.
Qed.

Lemma nothing_view s : gives (mret s) (Some (apply_view s says_nothing)).
Proof. destruct s; apply gives_ret. Qed.

(** An object member, or the computation fails. *)
Lemma need_object {A B} (v : option J) (k : J -> mem B) (g : J -> option A) (h : A -> B) :
  (forall j, v = Some j -> json_type j = JSON_OBJECT -> gives (k j) (h <$> g j)) ->
  gives (j ← need v; if negb (bool_decide (json_type j = JSON_OBJECT)) then mem_fail else k j)
    (h <$> (j ← typed JSON_OBJECT v; g j)).
Proof.
  intros Hk. destruct v as [j|]; [|apply gives_bind_none, gives_need].
  eapply gives_bind; [apply gives_need|]. rewrite typed_some, bool_decide_decide.
  destruct (decide (json_type j = JSON_OBJECT)); [by apply Hk|apply gives_fail].
Qed.

Lemma event_index_cases event :
  ((json_get_int event "index" 0 <? 0) = true /\ event_index event = None) \/
  ((json_get_int event "index" 0 <? 0) = false /\
   event_index event = Some (Z.to_nat (json_get_int event "index" 0))).
Proof.
  unfold event_index. destruct (Z.ltb_spec (json_get_int event "index" 0) 0).
  - left. by rewrite decide_False by lia.
  - right. by rewrite decide_True by lia.
Qed.

Lemma start_input_gives c input :
  match input with Some v => json_type v = JSON_OBJECT | None => True end ->
  gives (anthropic_start_input free_tstr c input) (Some (match input_text input with Some t => Some t | None => c end)).
Proof.
  destruct input as [v|]; [|intros _; apply gives_ret]. intros Hv. unfold anthropic_start_input, input_text.
  cbn [mbind option_bind]. rewrite bool_decide_eq_true_2 by done.
  destruct (Z.ltb_spec 0 (json_object_size v)).
  - rewrite decide_True by done. eapply gives_bind; [apply gives_attempt, gives_create|apply replace_gives].
  - rewrite decide_False by (intros [_ ?]; lia). apply gives_ret.
Qed.

(** An object member, or the computation fails; what is known of it may be used. *)
Lemma block_start_gives s event : text_of event "type" = Some "content_block_start" -> object_input event = true ->
  gives (anthropic_block_start json_get_int free_tstr s event) (apply_view s <$> view_block event).
Proof.
  intros Hty Hin. unfold anthropic_block_start, view_block. cbv zeta.
  apply need_object. intros block Hblock _.
  destruct (event_index_cases event) as [[-> ->]|[-> ->]]; [apply gives_fail|].
  set (n := Z.to_nat (json_get_int event "index" 0)). cbn [mbind option_bind]. rewrite !bool_decide_decide.
  destruct (decide (text_of block "type" = Some "text")); [apply set_content_view|].
  destruct (decide (text_of block "type" = Some "tool_use")); [|apply nothing_view].
  eapply gives_bind; [apply slot_gives|]. do 3 (eapply gives_bind; [apply set_if_gives|]).
  eapply gives_bind; [apply start_input_gives|apply gives_ret].
  unfold object_input in Hin. rewrite Hblock, !bool_decide_eq_true_2 in Hin by done. cbn [negb orb] in Hin.
  destruct (json_object_get block "input") as [v|]; [by bool_to_prop|done].
Qed.

Lemma block_delta_gives s event :
  gives (anthropic_block_delta json_get_int s event) (apply_view s <$> view_block_delta event).
Proof.
  unfold anthropic_block_delta, view_block_delta. cbv zeta.
  apply need_object. intros delta _ _.
  destruct (event_index_cases event) as [[-> ->]|[-> ->]]; [apply gives_fail|].
  set (n := Z.to_nat (json_get_int event "index" 0)). cbn [mbind option_bind]. rewrite !bool_decide_decide.
  destruct (decide (text_of delta "type" = Some "text_delta")); [apply set_content_view|].
  destruct (decide (text_of delta "type" = Some "input_json_delta")); [|apply nothing_view].
  eapply gives_bind; [apply slot_gives|]. eapply gives_bind; [apply set_if_gives|].
  eapply gives_bind; [|apply gives_ret].
  destruct (text_of delta "partial_json"); [apply append_gives|apply gives_ret].
Qed.

Lemma apply_event_gives s event : object_input event = true -> gives (apply_event s event) (apply_view s <$> view_event event).
Proof.
  intros Hin. unfold turbo_agent_sse_anthropic_apply_event, view_event. rewrite typed_some, bool_decide_decide.
  destruct (decide (json_type event = JSON_OBJECT)); cbn [negb mbind option_bind]; [|apply gives_fail].
  destruct (text_of event "type") as [type|] eqn:Ety; [|apply gives_bind_none, gives_need]. cbn [mbind option_bind].
  eapply gives_bind; [apply gives_need|]. rewrite !bool_decide_decide.
  destruct (decide (type = "message_start")).
  { apply need_object. intros m _ _.
    eapply gives_bind; [apply set_if_gives|]. eapply gives_bind; [apply set_if_gives|]. destruct s; apply gives_ret. }
  destruct (decide (type = "content_block_start")) as [->|]; [by apply block_start_gives|].
  destruct (decide (type = "content_block_delta")); [apply block_delta_gives|].
  destruct (decide (type = "message_delta")); [|apply nothing_view].
  apply need_object. intros d _ _.
  eapply gives_bind; [apply set_if_gives|]. destruct s; apply gives_ret.
Qed.

(** *** Texts of events and of the state *)

Definition event_texts (v : event_view) : Prop :=
  c_text_if (e_id v) /\ c_text_if (e_role v) /\ c_text_if (e_text v) /\ c_text_if (e_reason v) /\
  forall d, e_change v = Some d -> forall c, call_names c -> call_names (d.2 c).

Lemma view_block_texts event v : view_block event = Some v -> event_texts v.
Proof.
  unfold view_block. intros Hv. repeat (apply bind_Some in Hv as (? & _ & Hv)).
  repeat case_decide; injection Hv as <-; (split_and!; try done; try apply text_of_c_text).
  intros d [= <-] c (Hi & _ & Hn). unfold call_names. cbn.
  split_and!; [apply newest_c_text, text_of_c_text; done|done|apply newest_c_text, text_of_c_text; done].
Qed.

Lemma view_block_delta_texts event v : view_block_delta event = Some v -> event_texts v.
Proof.
  unfold view_block_delta. intros Hv. repeat (apply bind_Some in Hv as (? & _ & Hv)).
  repeat case_decide; injection Hv as <-; (split_and!; try done; try apply text_of_c_text).
  by intros d [= <-] c (Hi & _ & Hn).
Qed.

Lemma view_event_texts event v : view_event event = Some v -> event_texts v.
Proof.
  unfold view_event. intros Hv. do 2 (apply bind_Some in Hv as (? & _ & Hv)).
  case_decide; [|case_decide; [by eapply view_block_texts|]; case_decide; [by eapply view_block_delta_texts|];
    case_decide; [|by injection Hv as <-; split_and!]];
    apply bind_Some in Hv as (? & _ & Hv); injection Hv as <-; (split_and!; try done; apply text_of_c_text).
Qed.

Lemma apply_event_texts s v : state_texts call_names s -> event_texts v -> state_texts call_names (apply_view s v).
Proof.
  intros (Hi & Hr & Hc & Hf & Hl) (Vi & Vr & Vc & Vf & Vd).
  split_and!; cbn; [by apply newest_c_text|by apply newest_c_text|by apply appended_c_text|by apply newest_c_text|].
  destruct (e_change v) as [d|]; [|done]. apply apply_change_Forall; [by split_and!|done|by apply Vd].
Qed.

Lemma anthropic_state_texts vs : Forall event_texts vs -> state_texts call_names (anthropic_state vs).
Proof.
  rewrite <- anthropic_state_all.
  assert (He : state_texts call_names empty_state) by (by split_and!; cbn; try constructor).
  revert He. generalize empty_state as s. induction vs as [|v vs IH]; intros s Hs Hvs; [done|].
  apply Forall_cons in Hvs as [Hv Hvs]. cbn [foldl]. apply IH; [by apply apply_event_texts|done].
Qed.

(** ** The response *)

Record anthropic_view := mk_anthropic {
  a_id : string;
  a_role : string;
  a_reason : string;
  a_parts : list (part_view (J := J))
}.

(** The input that the arguments of a call parse to. *)
Definition call_input (c : sse_tool_call) : option J :=
  match tc_arguments c with
  | Some (String a s) => json_parse (String a s)
  | _ => Some json_create_object
  end.

Definition response_part (c : sse_tool_call) : option (part_view (J := J)) :=
  id ← tc_id c; name ← tc_name c; input ← call_input c; Some (PToolUse id name input).

(** None without identifier or role, or when a call lacks its identifier or name
    or its arguments do not parse. *)
Definition anthropic_response (s : sse_state) : option anthropic_view :=
  id ← st_id s; role ← st_role s;
  if decide (role = "") then None
  else
    calls ← mapM response_part (st_tool_calls s);
    Some (mk_anthropic id role (default "end_turn" (st_reason s))
      (match st_content s with Some (String a t) => [PText (String a t)] | _ => [] end ++ calls)).

(** What a part of the content holds; the input is any value. *)
Definition holds_part (j : J) (p : part_view (J := J)) : Prop :=
  json_type j = JSON_OBJECT /\
  match p with
  | PText s => text_of j "type" = Some "text" /\ text_of j "text" = Some s
  | PToolUse id name input => text_of j "type" = Some "tool_use" /\ text_of j "id" = Some id /\
      text_of j "name" = Some name /\ json_object_get j "input" = Some input
  | PToolResult id content => text_of j "type" = Some "tool_result"
  end.

Definition anthropic_document (doc : J) (r : anthropic_view) : Prop :=
  json_type doc = JSON_OBJECT /\ text_of doc "id" = Some (a_id r) /\
  text_of doc "role" = Some (a_role r) /\ text_of doc "stop_reason" = Some (a_reason r) /\
  exists content, json_object_get doc "content" = Some content /\
    json_type content = JSON_ARRAY /\ Forall2 holds_part (json_array_items content) (a_parts r).

Lemma input_gives c :
  gives (turbo_agent_sse_tool_call_input_object c) (call_input c).
Proof.
  unfold turbo_agent_sse_tool_call_input_object, call_input.
  destruct (tc_arguments c) as [[|a s]|]; cbn [is_some_nonempty]; [apply gives_create| |apply gives_create].
  eapply gives_bind; [apply gives_need|]. destruct (json_parse (String a s)); [|apply gives_bind_none, gives_need].
  eapply gives_bind; [apply gives_need|apply gives_create].
Qed.

Lemma tool_use_gives id name input : c_text id -> c_text name -> exists j,
  gives (turbo_prompt_tool_use_part_create (Some id) (Some name) (Some input)) (Some j) /\
  holds_part j (PToolUse id name input).
Proof.
  intros Hid Hname.
  exists (object_of [("type", json_create_string "tool_use"); ("id", json_create_string id);
    ("name", json_create_string name); ("input", input)]). split.
  - unfold turbo_prompt_tool_use_part_create. do 3 (eapply gives_bind; [apply gives_need|]).
    eapply gives_bind; [apply gives_create|]. do 3 (eapply gives_bind; [apply gives_quiet, raw_string_sets|]).
    apply gives_quiet, raw_member_sets.
  - split; [apply object_of_type|]. unfold text_of, member_string. rewrite !member_some, !object_of_get.
    cbn [assoc String.eqb Ascii.eqb Bool.eqb]. by rewrite !created_text.
Qed.

Lemma tool_use_step c a : call_names c -> json_type a = JSON_ARRAY ->
  match response_part c with
  | Some p => exists j, gives (anthropic_tool_use a c) (Some (json_array_add a j)) /\ holds_part j p
  | None => gives (anthropic_tool_use a c) None
  end.
Proof.
  intros (Hti & _ & Htn) Ha. unfold response_part, anthropic_tool_use.
  destruct (tc_id c) as [i|]; [|apply gives_bind_none, gives_need]. cbn [mbind option_bind].
  destruct (tc_name c) as [n|]; cbn [mbind option_bind].
  2: { eapply gives_bind; [apply gives_need|]. apply gives_bind_none, gives_need. }
  pose proof (input_gives c) as Hin. destruct (call_input c) as [input|]; cbn [mbind option_bind].
  - destruct (tool_use_gives i n input Hti Htn) as (j & Hj & Hp). exists j. split; [|done].
    do 2 (eapply gives_bind; [apply gives_need|]). eapply gives_bind; [exact Hin|].
    eapply gives_bind; [exact Hj|apply gives_quiet_append].
  - do 2 (eapply gives_bind; [apply gives_need|]). by apply gives_bind_none.
Qed.

Lemma tool_uses_give cs : Forall call_names cs -> forall a, json_type a = JSON_ARRAY ->
  match mapM response_part cs with
  | Some ps => exists js, gives (mem_fold anthropic_tool_use cs a) (Some (foldl json_array_add a js)) /\
      Forall2 holds_part js ps
  | None => gives (mem_fold anthropic_tool_use cs a) None
  end.
Proof.
  induction 1 as [|c cs Hn _ IH]; intros a Ha; [by exists []; split; [apply gives_ret|]|]. cbn [mapM mem_fold].
  pose proof (tool_use_step c a Hn Ha) as Hc. destruct (response_part c) as [p|]; cbn [mbind option_bind];
    [|by apply gives_bind_none].
  destruct Hc as (j & Hj & Hp). specialize (IH _ (json_type_array_add a j Ha)).
  destruct (mapM response_part cs) as [ps|]; cbn [mbind option_bind].
  - destruct IH as (js & Hg & Hps). exists (j :: js). split; [|by constructor]. by eapply gives_bind.
  - by eapply gives_bind.
Qed.

(** The response as it is seen in the end. *)
Lemma anthropic_seen id role reason js ps : c_text id -> c_text role -> c_text reason -> Forall2 holds_part js ps ->
  anthropic_document
    (add_member (update_member (object_of [("id", json_create_string id); ("role", json_create_string role);
       ("content", json_create_array)]) "content" (array_of js)) ("stop_reason", json_create_string reason))
    (mk_anthropic id role reason ps).
Proof.
  intros Hid Hrole Hreason Hps. destruct (array_of_spec js) as [Hat Hai]. unfold update_member. rewrite object_of_get.
  cbn [assoc String.eqb Ascii.eqb Bool.eqb].
  change (json_object_add (object_of ?l) "content" (array_of js)) with
    (add_member (object_of l) ("content", array_of js)).
  rewrite !object_of_snoc. cbn [app].
  split; [apply object_of_type|]. unfold text_of, member_string. rewrite !member_some, !object_of_get.
  cbn [assoc String.eqb Ascii.eqb Bool.eqb]. rewrite !created_text by done. do 3 (split; [done|]).
  exists (array_of js). split; [done|]. by rewrite Hai.
Qed.

Lemma shell_gives s id role : st_id s = Some id -> st_role s = Some role -> role <> "" ->
  gives (turbo_agent_sse_anthropic_response_shell_create s)
    (Some (object_of [("id", json_create_string id); ("role", json_create_string role);
       ("content", json_create_array)], json_create_array)).
Proof.
  intros Hi Hr Hne. unfold turbo_agent_sse_anthropic_response_shell_create. rewrite Hi, Hr.
  do 2 (eapply gives_bind; [apply gives_need|]). rewrite bool_decide_eq_false_2 by done.
  do 2 (eapply gives_bind; [apply gives_attempt, gives_create|]).
  do 2 (eapply gives_bind; [apply gives_need|]).
  do 2 (eapply gives_bind; [apply gives_quiet, raw_string_sets|]).
  eapply gives_bind; [apply gives_quiet, raw_member_sets|apply gives_ret].
Qed.

(** The text part, when there is text. *)
Lemma content_gives s : c_text_if (st_content s) -> exists js, gives (if is_some_nonempty (st_content s) then
      text_block ← turbo_prompt_content_text_part_create (st_content s);
      quiet_append json_create_array text_block
    else mret json_create_array) (Some (array_of js)) /\
  Forall2 holds_part js match st_content s with Some (String a t) => [PText (String a t)] | _ => [] end.
Proof.
  intros Htext. destruct (st_content s) as [[|a t]|]; cbn [is_some_nonempty].
  2: { destruct (text_part_converts (String a t) Htext) as [Hg Hv]. eexists [_]. split.
       - eapply gives_bind; [exact Hg|apply gives_quiet_append].
       - constructor; [|done]. apply view_part_inv in Hv as [Ht [Hty Htx]]. done. }
  all: exists []; split; [apply gives_ret|done].
Qed.

Lemma build_anthropic_gives s : state_texts call_names s -> match anthropic_response s with
  | Some r => exists doc, gives (turbo_agent_sse_build_anthropic_response_json s) (Some (json_serialize doc)) /\
      anthropic_document doc r
  | None => gives (turbo_agent_sse_build_anthropic_response_json (J := J) s) None
  end.
Proof.
  intros (Hti & Htr & Htc & Htf & Htl).
  unfold anthropic_response, turbo_agent_sse_build_anthropic_response_json.
  destruct (st_id s) as [i|] eqn:Ei; cbn [mbind option_bind].
  2: { apply gives_bind_none. unfold turbo_agent_sse_anthropic_response_shell_create. rewrite Ei.
       apply gives_bind_none, gives_need. }
  destruct (st_role s) as [role|] eqn:Er; cbn [mbind option_bind].
  2: { apply gives_bind_none. unfold turbo_agent_sse_anthropic_response_shell_create. rewrite Ei, Er.
       eapply gives_bind; [apply gives_need|]. apply gives_bind_none, gives_need. }
  destruct (decide (role = "")) as [Hempty|Hne].
  { apply gives_bind_none. unfold turbo_agent_sse_anthropic_response_shell_create. rewrite Ei, Er.
    do 2 (eapply gives_bind; [apply gives_need|]). rewrite bool_decide_eq_true_2 by done. apply gives_fail. }
  pose proof (shell_gives s i role Ei Er Hne) as Hshell.
  rewrite ?Ei in Hti. rewrite ?Er in Htr. destruct (content_gives s Htc) as (ts & Hts & Htp). destruct (array_of_spec ts) as [Hat _].
  pose proof (tool_uses_give (st_tool_calls s) Htl (array_of ts) Hat) as Hcalls.
  destruct (mapM response_part (st_tool_calls s)) as [ps|]; cbn [mbind option_bind].
  - destruct Hcalls as (js & Hjs & Hps).
    pose proof (anthropic_seen i role (default "end_turn" (st_reason s)) (ts ++ js) _ Hti Htr
      (c_text_default "end_turn" _ eq_refl Htf) (Forall2_app Htp Hps)) as Hd.
    eexists. split; [|exact Hd]. eapply gives_bind; [exact Hshell|]. cbn beta iota zeta.
    eapply gives_bind; [exact Hts|]. eapply gives_bind; [exact Hjs|].
    unfold array_of in *. rewrite foldl_app. eapply gives_bind; [apply gives_quiet, raw_string_sets|].
    eapply gives_bind; [apply gives_need|apply gives_create].
  - eapply gives_bind; [exact Hshell|]. cbn beta iota zeta. eapply gives_bind; [exact Hts|].
    by apply gives_bind_none.
Qed.

(** ** The whole stream *)

(** The views of the events' data, up to an end: the end mark or the end of the
    message; pings and events with no type say nothing. *)
Fixpoint stream_views (data : list string) : option (list event_view) :=
  match data with
  | [] => Some []
  | d :: data =>
      if decide (d = "[DONE]") then Some []
      else if decide (d = "") then stream_views data
      else
        j ← json_parse d;
        match text_of j "type" with
        | None => stream_views data
        | Some type =>
            if decide (type = "ping") then stream_views data
            else
              v ← view_event j;
              if decide (type = "message_stop") then Some [v]
              else vs ← stream_views data; Some (v :: vs)
        end
  end.

Lemma stream_views_texts data : forall vs, stream_views data = Some vs -> Forall event_texts vs.
Proof.
  induction data as [|d data IH]; intros vs; cbn [stream_views]; [by intros [= <-]|].
  case_decide; [by intros [= <-]|]. case_decide; [by apply IH|].
  destruct (json_parse d) as [j|]; [|done]. cbn [mbind option_bind].
  destruct (text_of j "type") as [type|]; [|by apply IH]. case_decide; [by apply IH|].
  destruct (view_event j) as [v|] eqn:Ev; [|done]. apply view_event_texts in Ev. cbn [mbind option_bind].
  case_decide; [intros [= <-]; by constructor|].
  destruct (stream_views data) as [ws|]; [|done]. intros [= <-]. constructor; [done|by apply IH].
Qed.

Definition anthropic_answer (seen : sse_state * bool) (data : string) : option (sse_state * bool * bool) :=
  if decide (data = "[DONE]") then Some (seen, true)
  else if decide (data = "") then Some (seen, false)
  else
    j ← json_parse data;
    match text_of j "type" with
    | None => Some (seen, false)
    | Some type =>
        if decide (type = "ping") then Some (seen, false)
        else v ← view_event j; Some (apply_view seen.1 v, true, bool_decide (type = "message_stop"))
    end.

Lemma anthropic_step_gives seen data : object_inputs data = true ->
  gives (anthropic_step json_get_int free_tstr seen data) (anthropic_answer seen data).
Proof.
  unfold object_inputs. intros Hin. unfold anthropic_step, anthropic_answer. rewrite !bool_decide_decide.
  destruct (decide (data = "[DONE]")); [apply gives_ret|]. destruct (decide (data = "")); [apply gives_ret|].
  destruct (json_parse data) as [j|]; [|apply gives_bind_none, gives_need]. cbn [mbind option_bind].
  eapply gives_bind; [apply gives_need|]. eapply gives_bind; [apply gives_create|].
  destruct (text_of j "type") as [type|]; [|apply gives_ret]. rewrite bool_decide_decide.
  destruct (decide (type = "ping")); [apply gives_ret|].
  pose proof (apply_event_gives seen.1 j Hin) as Hj.
  destruct (view_event j); cbn in Hj |- *; [|by apply gives_bind_none].
  eapply gives_bind; [exact Hj|apply gives_ret].
Qed.

Lemma run_anthropic data : forall s b, run_steps anthropic_answer data (s, b) =
  vs ← stream_views data;
  Some (foldl apply_view s vs, match vs with [] => b | _ => true end).
Proof.
  induction data as [|d data IH]; intros s b; [done|]. cbn [run_steps stream_views].
  assert (Ea : forall x, anthropic_answer x d = if decide (d = "[DONE]") then Some (x, true)
    else if decide (d = "") then Some (x, false)
    else j ← json_parse d;
      match text_of j "type" with
      | None => Some (x, false)
      | Some type => if decide (type = "ping") then Some (x, false)
          else v ← view_event j; Some (apply_view x.1 v, true, bool_decide (type = "message_stop"))
      end) by done.
  rewrite Ea. destruct (decide (d = "[DONE]")); [done|]. destruct (decide (d = "")); [apply IH|].
  destruct (json_parse d) as [j|]; [|done]. cbn [mbind option_bind].
  destruct (text_of j "type") as [type|]; [|apply IH]. destruct (decide (type = "ping")); [apply IH|].
  destruct (view_event j) as [v|]; [|done]. cbn [mbind option_bind fst snd]. rewrite bool_decide_decide.
  destruct (decide (type = "message_stop")); [done|]. rewrite IH.
  destruct (stream_views data) as [vs|]; [|done]. cbn. by destruct vs.
Qed.

Lemma anthropic_run eol events y : eol = newline \/ eol = crlf -> Forall event_ok events ->
  forallb object_inputs (payload <$> events) = true ->
  match stream_views (payload <$> events) with
  | None | Some [] => y = None
  | Some vs => gives (turbo_agent_sse_build_anthropic_response_json (J := J) (anthropic_state vs)) y
  end ->
  gives (turbo_agent_anthropic_messages_sse_to_json json_get_int free_tstr (Some (stream eol events))) y.
Proof.
  intros Heol Hok Hin Hy.
  assert (Hvalid : Forall (fun d => object_inputs d = true) (payload <$> events)).
  { apply Forall_forall. intros d Hd%list_elem_of_In. by apply (proj1 (forallb_forall _ _) Hin). }
  pose proof (stream_cut _ _ _ anthropic_step_gives eol events (empty_state, false) Heol Hok Hvalid) as Hcut.
  rewrite run_anthropic in Hcut. unfold turbo_agent_anthropic_messages_sse_to_json.
  eapply gives_bind; [apply gives_need|]. apply gives_assoc.
  destruct (stream_views (payload <$> events)) as [vs|]; cbn [mbind option_bind] in *.
  - rewrite anthropic_state_all in Hcut. eapply gives_bind; [exact Hcut|]. cbn [fst snd].
    destruct vs; [subst; apply gives_fail|exact Hy].
  - subst. by apply gives_bind_none.
Qed.


(** A stream that calls a tool in a block after a block that is no call has no response:
    the slots are the blocks' indices, so a slot below the last one that no call
    takes stays empty and the answer is NULL, although every event was accepted. *)
Theorem anthropic_gap eol events vs i : eol = newline \/ eol = crlf -> Forall event_ok events ->
  forallb object_inputs (payload <$> events) = true ->
  stream_views (payload <$> events) = Some vs ->
  (i < slot_count (omap e_change vs))%nat -> Forall (fun d => d.1 <> i) (omap e_change vs) ->
  gives (turbo_agent_anthropic_messages_sse_to_json json_get_int free_tstr (Some (stream eol events))) None.
Proof.
  intros Heol Hok Hin Hvs Hi Hfree. apply anthropic_run; [done..|]. rewrite Hvs.
  pose proof (stream_views_texts _ _ Hvs) as Htexts. destruct vs as [|v vs]; [cbn in Hi; lia|].
  pose proof (build_anthropic_gives _ (anthropic_state_texts _ Htexts)) as Hb.
  assert (Hnone : anthropic_response (anthropic_state (v :: vs)) = None).
  { unfold anthropic_response. destruct (st_id _); [|done]. destruct (st_role _); [|done]. cbn [mbind option_bind].
    case_decide; [done|]. replace (mapM response_part _) with (None : option (list (part_view (J := J)))); [done|].
    symmetry. apply mapM_None, Exists_exists. exists empty_call. split; [|done].
    apply (list_elem_of_lookup_2 _ i). cbn [anthropic_state st_tool_calls].
    rewrite slots_lookup, decide_True by done. f_equal. unfold slot_of.
    replace (filter (fun d : change => d.1 = i) (omap e_change (v :: vs))) with ([] : list change); [done|].
    symmetry. clear -Hfree. induction Hfree as [|d ds Hd _ IH]; [done|]. by rewrite filter_cons_False. }
  by rewrite Hnone in Hb.
Qed.

End anthropic.

(** ** Two streams *)

Module SseAnthropicRuns.
Import JsonTree JsonNew SseSample.

Definition typed_event (type : string) (members : list (string * jtree)) : list sse_line :=
  [SOther ("event: " ++ type)%string; SData true (json_serialize (JObj (("type", JStr type) :: members)))].

Definition at_index (i : string) : string * jtree := ("index", JNum (Some i) DNan).

Definition started : list sse_line :=
  typed_event "message_start" [("message", JObj [("id", JStr "m1"); ("role", JStr "assistant")])].

Definition text_block (i : string) (text : string) : list sse_line :=
  typed_event "content_block_start"
    [at_index i; ("content_block", JObj [("type", JStr "text"); ("text", JStr text)])].

Definition tool_block (i id name : string) : list sse_line :=
  typed_event "content_block_start"
    [at_index i; ("content_block", JObj [("type", JStr "tool_use"); ("id", JStr id); ("name", JStr name);
                                         ("input", JObj [])])].

Definition tool_delta (i text : string) : list sse_line :=
  typed_event "content_block_delta"
    [at_index i; ("delta", JObj [("type", JStr "input_json_delta"); ("partial_json", JStr text)])].

Definition stopped : list (list sse_line) :=
  [typed_event "message_delta" [("delta", JObj [("stop_reason", JStr "tool_use")])]; typed_event "message_stop" []].

(** The arguments arrive in two pieces. *)
Definition input : jtree := JObj [("a", JStr "1")].
Definition pieces : string * string :=
  let s := json_serialize input in (String.substring 0 3 s, String.substring 3 (String.length s) s).

Definition calls_first : list (list sse_line) :=
  started :: typed_event "ping" [] :: tool_block "0" "t1" "add" :: tool_delta "0" pieces.1
    :: tool_delta "0" pieces.2 :: text_block "1" "done" :: stopped.

(** The order a model answers in: some text, then the call. *)
Definition text_first : list (list sse_line) :=
  started :: text_block "0" "Let me add." :: tool_block "1" "t1" "add" :: tool_delta "1" pieces.1
    :: tool_delta "1" pieces.2 :: stopped.

Lemma calls_first_ok : Forall event_ok calls_first.
Proof. apply events_check. vm_compute. reflexivity. Qed.

Lemma calls_first_inputs : forallb object_inputs (payload <$> calls_first) = true.
Proof. vm_compute. reflexivity. Qed.

Lemma text_first_inputs : forallb object_inputs (payload <$> text_first) = true.
Proof. vm_compute. reflexivity. Qed.

(** Any [free] will do. *)
Definition no_free (text : string) : mem () := mem_fail.

Lemma text_first_ok : Forall event_ok text_first.
Proof. apply events_check. vm_compute. reflexivity. Qed.


Lemma anthropic_gap_witness :
  gives (turbo_agent_anthropic_messages_sse_to_json get_int no_free (Some (stream newline text_first))) None.
Proof.
  destruct (stream_views get_int (payload <$> text_first)) as [vs|] eqn:E; [|vm_compute in E; discriminate E].
  apply (anthropic_gap get_int no_free newline text_first vs 0 (or_introl eq_refl) text_first_ok
    text_first_inputs E).
  - vm_compute in E. injection E as <-. vm_compute. lia.
  - vm_compute in E. injection E as <-. repeat (constructor; [intros Hd; discriminate Hd|]). constructor.
Defined.

End SseAnthropicRuns.
