(* ===== verification/SseResponses.v ===== *)
(** * Streamed responses

    The completed response of the stream is the answer; the items that were
    streamed stand in for an output that it lacks. *)

From S2P Require Import Prelude RuntimeJson JsonBuild JsonMem Prompt PromptFacts PromptWire Sse SseFacts.

#[local] Open Scope string_scope.
#[local] Open Scope list_scope.
#[local] Open Scope Z_scope.

Section responses.
Context {J : Type} `{JsonSettersLaws J, !JsonLaws J, !JsonNewLaws J}.
Abbreviation as_string := turbo_runtime_json_value_as_string.

(** ** What an event says *)

Inductive response_event :=
| RItem (item : J)
| RCompleted (response : J)
| ROther.

Definition view_response (event : J) : option response_event :=
  if decide (text_of event "type" = Some "response.output_item.done") then
    RItem <$> typed JSON_OBJECT (json_object_get event "item")
  else if decide (text_of event "type" = Some "response.completed") then
    RCompleted <$> typed JSON_OBJECT (json_object_get event "response")
  else Some ROther.

(** The events' views up to the end mark. *)
Fixpoint stream_responses (data : list string) : option (list response_event) :=
  match data with
  | [] => Some []
  | d :: data =>
      if decide (d = "[DONE]") then Some []
      else if decide (d = "") then stream_responses data
      else j ← json_parse d; v ← view_response j; vs ← stream_responses data; Some (v :: vs)
  end.

Definition items_of (vs : list response_event) : list J :=
  omap (fun v => match v with RItem i => Some i | _ => None end) vs.

Definition completed_of (vs : list response_event) : option J :=
  last (omap (fun v => match v with RCompleted r => Some r | _ => None end) vs).

(** An output with no items. *)
Definition lacks_output (response : J) : bool :=
  match typed JSON_ARRAY (json_object_get response "output") with
  | Some output => bool_decide (json_array_items output = [])
  | None => true
  end.

Definition apply_response (kept : J * option J) (v : response_event) : J * option J :=
  match v with
  | RItem i => (json_array_add kept.1 (json_clone i), kept.2)
  | RCompleted r => (kept.1, Some (json_clone r))
  | ROther => kept
  end.

Lemma applied_all vs : forall a c, foldl apply_response (a, c) vs =
  (foldl json_array_add a (json_clone <$> items_of vs),
   match completed_of vs with Some r => Some (json_clone r) | None => c end).
Proof.
  unfold completed_of. induction vs as [|[i|r|] vs IH] using rev_ind; intros a c; [done|..];
    rewrite foldl_app, IH; unfold items_of; rewrite !omap_app; cbn [omap list_omap foldl apply_response fst snd].
  - by rewrite fmap_app, foldl_app, app_nil_r.
  - by rewrite app_nil_r, last_snoc.
  - by rewrite !app_nil_r.
Qed.

(** ** The code *)

Definition responses_answer (kept : J * option J) (data : string) : option (J * option J * bool) :=
  if decide (data = "[DONE]") then Some (kept, true)
  else if decide (data = "") then Some (kept, false)
  else j ← json_parse data; v ← view_response j; Some (apply_response kept v, false).

Lemma responses_step_gives kept data : True -> gives (responses_step kept data) (responses_answer kept data).
Proof.
  intros _. destruct kept as [a c]. unfold responses_step, responses_answer. rewrite !bool_decide_decide.
  destruct (decide (data = "[DONE]")); [apply gives_ret|]. destruct (decide (data = "")); [apply gives_ret|].
  destruct (json_parse data) as [j|]; [|apply gives_bind_none, gives_need]. cbn [mbind option_bind].
  eapply gives_bind; [apply gives_need|]. eapply gives_bind; [apply gives_create|].
  unfold view_response. rewrite !bool_decide_decide.
  destruct (decide (text_of j "type" = Some "response.output_item.done")).
  { destruct (json_object_get j "item") as [i|]; [|apply gives_bind_none, gives_need].
    eapply gives_bind; [apply gives_need|]. rewrite typed_some, bool_decide_decide.
    destruct (decide (json_type i = JSON_OBJECT)); [|apply gives_fail].
    eapply gives_bind; [apply gives_create|]. eapply gives_bind; [apply gives_quiet_append|apply gives_ret]. }
  destruct (decide (text_of j "type" = Some "response.completed")); [|apply gives_ret].
  destruct (json_object_get j "response") as [r|]; [|apply gives_bind_none, gives_need].
  eapply gives_bind; [apply gives_need|]. rewrite typed_some, bool_decide_decide.
  destruct (decide (json_type r = JSON_OBJECT)); [|apply gives_fail].
  eapply gives_bind; [apply gives_create|apply gives_ret].
Qed.

Lemma run_responses data : forall kept, run_steps responses_answer data kept =
  vs ← stream_responses data; Some (foldl apply_response kept vs).
Proof.
  induction data as [|d data IH]; intros kept; [done|]. cbn [run_steps stream_responses].
  assert (Ea : responses_answer kept d = if decide (d = "[DONE]") then Some (kept, true)
    else if decide (d = "") then Some (kept, false)
    else j ← json_parse d; v ← view_response j; Some (apply_response kept v, false)) by done.
  rewrite Ea. destruct (decide (d = "[DONE]")); [done|]. destruct (decide (d = "")); [apply IH|].
  destruct (json_parse d) as [j|]; [|done]. cbn [mbind option_bind].
  destruct (view_response j) as [v|]; [|done]. cbn [mbind option_bind fst snd]. rewrite IH.
  by destruct (stream_responses data).
Qed.

Lemma completed_object data : forall vs r, stream_responses data = Some vs -> completed_of vs = Some r ->
  json_type r = JSON_OBJECT.
Proof.
  assert (Hv : forall vs, stream_responses data = Some vs ->
    Forall (fun v => match v with RCompleted r => json_type r = JSON_OBJECT | _ => True end) vs).
  { induction data as [|d data IH]; [by intros vs [= <-]|]. cbn [stream_responses].
    case_decide; [by intros vs [= <-]|]. case_decide; [done|]. destruct (json_parse d) as [j|]; [|done].
    cbn [mbind option_bind]. destruct (view_response j) as [v|] eqn:Ev; [|done]. cbn [mbind option_bind].
    destruct (stream_responses data) as [ws|]; [|done]. intros vs [= <-]. constructor; [|by apply IH].
    unfold view_response in Ev. destruct v as [i|r|]; [done| |done].
    case_decide; [by destruct (typed _ _)|]. case_decide; [|done].
    apply fmap_Some in Ev as (r' & Hr & [= ->]). by apply typed_inv in Hr as [_ ?]. }
  intros vs r Hvs Hr. apply Hv in Hvs. unfold completed_of in Hr. apply last_Some_elem_of in Hr.
  apply list_elem_of_omap in Hr as (v & Hin & Ev). rewrite Forall_forall in Hvs. specialize (Hvs v Hin).
  by destruct v; simplify_eq.
Qed.

(** The answer's document. *)
Definition response_document (items : list J) (response : J) : J :=
  if decide (items = [] \/ lacks_output response = false) then response
  else object_of [("id", json_create_string (default "" (text_of response "id")));
                  ("output", array_of (json_clone <$> items))].

Lemma finish_gives items r : json_type r = JSON_OBJECT ->
  gives (responses_finish (array_of items) (Some r))
    (if is_some_nonempty (text_of r "id") then Some (json_serialize (response_document items r)) else None).
Proof.
  intros Hr. destruct (array_of_spec items) as [_ Hi]. unfold responses_finish.
  eapply gives_bind; [apply gives_need|]. rewrite bool_decide_eq_true_2 by done. cbn [negb].
  destruct (is_some_nonempty (text_of r "id")); cbn [negb]; [|apply gives_fail].
  rewrite Hi. unfold response_document.
  replace (negb (has_type (json_object_get r "output") JSON_ARRAY) ||
    bool_decide (default [] (json_array_items <$> json_object_get r "output") = [])) with (lacks_output r).
  2: { unfold lacks_output. destruct (json_object_get r "output") as [v|]; [|done]. rewrite typed_some. cbn.
       rewrite (bool_decide_decide (json_type v = JSON_ARRAY)). by destruct (decide (json_type v = JSON_ARRAY)). }
  case_decide as Hc.
  - replace (bool_decide (items <> []) && lacks_output r) with false; [apply gives_create|].
    symmetry. apply andb_false_iff. destruct Hc as [->|Hc]; [left|by right]. apply bool_decide_eq_false_2. intros Hn; by apply Hn.
  - rewrite bool_decide_eq_true_2 by tauto. destruct (lacks_output r); [|by destruct Hc; right]. cbn [andb].
    do 2 (eapply gives_bind; [apply gives_attempt, gives_create|]).
    do 2 (eapply gives_bind; [apply gives_need|]).
    eapply gives_bind; [apply gives_quiet, raw_string_sets|].
    assert (Hall : Forall2 (fun x y => gives (create (json_clone x)) y) items (Some <$> (json_clone <$> items))).
    { apply Forall2_fmap_r, Forall2_fmap_r, Forall_Forall2_diag, Forall_forall. intros; apply gives_create. }
    pose proof (gives_each (fun x => create (json_clone x)) items _ Hall json_create_array json_type_array) as Hg.
    replace (mapM id (Some <$> (json_clone <$> items))) with (Some (json_clone <$> items)) in Hg.
    2: { clear. generalize (json_clone <$> items) as l. induction l as [|x l IH]; [done|]. cbn. by rewrite <- IH. }
    eapply gives_bind; [exact Hg|]. eapply gives_bind; [apply gives_quiet, raw_member_sets|apply gives_create].
Qed.

(** A streamed response: while memory lasts, the answer for any rendered stream is NULL exactly when some
    event before the end mark does not parse or lacks the object its type names,
    no response was completed or the last one has no identifier; and otherwise it is
    the text of the last completed response, or, when that has no output items but
    items were streamed, of its identifier with these items in order. *)
Theorem responses_stream eol events : eol = newline \/ eol = crlf -> Forall event_ok events ->
  gives (turbo_agent_responses_sse_to_json (Some (stream eol events)))
    (vs ← stream_responses (payload <$> events);
     r ← completed_of vs;
     if is_some_nonempty (text_of (json_clone r) "id")
     then Some (json_serialize (response_document (json_clone <$> items_of vs) (json_clone r))) else None).
Proof.
  intros Heol Hok. unfold turbo_agent_responses_sse_to_json.
  eapply gives_bind; [apply gives_need|]. eapply gives_bind; [apply gives_create|].
  rewrite drop_cr_stream by done. eapply gives_bind; [apply gives_create|].
  pose proof (events_run _ _ _ responses_step_gives events (json_create_array, None) Hok (all_valid _)) as Hrun.
  rewrite run_responses in Hrun. destruct (stream_responses (payload <$> events)) as [vs|] eqn:Evs; cbn [mbind option_bind] in *;
    [|by apply gives_bind_none].
  eapply gives_bind; [exact Hrun|]. rewrite applied_all. cbn [fst snd].
  fold (array_of (json_clone <$> items_of vs)).
  destruct (completed_of vs) as [r|] eqn:Er; cbn [mbind option_bind]; [|apply gives_bind_none, gives_need].
  apply finish_gives. rewrite (json_type_proper _ _ (json_clone_equiv r)). by eapply completed_object.
Qed.

End responses.

(** ** A stream *)

Module SseResponsesRuns.
Import JsonTree JsonNew.

Definition event (type : string) (members : list (string * jtree)) : list sse_line :=
  [SData false (json_serialize (JObj (("type", JStr type) :: members)))].

Definition item (text : string) : jtree := JObj [("type", JStr "message"); ("text", JStr text)].

(** Two items, then a completed response with no output of its own. *)
Definition items_streamed : list (list sse_line) :=
  [event "response.created" []; event "response.output_item.done" [("item", item "a")];
   event "response.output_item.done" [("item", item "b")];
   event "response.completed"
     [("response", JObj [("id", JStr "r1"); ("output", JArr []); ("usage", JObj [("total", JStr "7")])])]].

Lemma items_streamed_ok : Forall event_ok items_streamed.
Proof. apply events_check. vm_compute. reflexivity. Qed.

(** The answer has the items and the identifier, not the usage. *)
Lemma responses_stream_witness :
  gives (turbo_agent_responses_sse_to_json (Some (stream newline items_streamed)))
    (Some (json_serialize (JObj [("id", JStr "r1"); ("output", JArr [item "a"; item "b"])]))).
Proof.
  pose proof (responses_stream (J := jtree) newline items_streamed (or_introl eq_refl) items_streamed_ok) as Hs.
  assert (E : (vs ← stream_responses (payload <$> items_streamed);
     r ← completed_of vs;
     if is_some_nonempty (text_of (json_clone r) "id")
     then Some (json_serialize (response_document (json_clone <$> items_of vs) (json_clone r))) else None) =
    Some (json_serialize (JObj [("id", JStr "r1"); ("output", JArr [item "a"; item "b"])])))
    by (vm_compute; reflexivity).
  rewrite E in Hs. exact Hs.
Defined.

End SseResponsesRuns.
