(* ===== verification/JsonRecord.v ===== *)
(** * JSON records

    Objects with given members, in order: what a reader finds in a copy of one
    that went through the store, and the chains of checked setters that build
    one or fail for lack of memory. *)

From stdpp Require Import pretty.
From S2P Require Import Prelude RuntimeJson JsonBuild JsonMem.

#[local] Open Scope string_scope.
#[local] Open Scope list_scope.
#[local] Open Scope Z_scope.

(** A chain of setters on an object; the lack of memory ends it. *)
Definition build_record {J} `{JsonSetters J} (setters : list (setter J)) (obj : J) : mem J := fun o =>
  match set_all setters (Some obj) o with
  | (true, obj, o) => (obj, o)
  | (false, _, o) => (None, o)
  end.

(** An object that only has new members has as many as were added; an integer
    keeps its decimal token. *)
Class JsonRecordLaws (J : Type) `{JsonLaws J} := {
  json_int64_token : forall (j : J) z, json_equiv j (json_create_int64 z) ->
    json_type j = JSON_NUMBER /\ json_number_text j = Some (pretty z);
  json_size_proper : forall a b : J, json_equiv a b -> json_object_size a = json_object_size b;
  json_size_new : json_object_size (json_create_object : J) = 0;
  json_size_add : forall (o : J) k v, json_type o = JSON_OBJECT -> json_object_get o k = None ->
    json_object_size (json_object_add o k v) = json_object_size o + 1
}.

Module JsonRecordTree.
Import JsonTree.

Lemma assoc_set_new l k v : assoc_get l k = None -> length (assoc_set l k v) = S (length l).
Proof.
  induction l as [|[k' v'] l IH]; cbn; [done|]. case_decide; [done|]. intros Hn. cbn. by rewrite IH.
Qed.

#[export] Instance jtree_record_laws : JsonRecordLaws jtree.
Proof.
  split; cbn.
  - by intros j z ->.
  - by intros a b ->.
  - done.
  - intros [] k v; try done. cbn. intros _ Hn. rewrite assoc_set_new by done. lia.
Qed.

End JsonRecordTree.

(** ** Reading *)

Section records.
Context {J : Type} `{JsonLaws J, !JsonNewLaws J, !JsonRecordLaws J}.

(** A document with the members [kvs]. *)
Definition record_is (v : J) (kvs : list (string * J)) : Prop := json_equiv v (object_of kvs).

Lemma assoc_snoc k (kvs : list (string * J)) k' v :
  assoc k (kvs ++ [(k', v)]) = if String.eqb k' k then Some v else assoc k kvs.
Proof.
  induction kvs as [|[k2 v2] kvs IH]; cbn; [done|]. rewrite IH. by destruct (String.eqb k' k).
Qed.

Lemma assoc_none k (kvs : list (string * J)) : k ∉ kvs.*1 -> assoc k kvs = None.
Proof.
  induction kvs as [|[k2 v2] kvs IH]; [done|]. rewrite fmap_cons, not_elem_of_cons. intros [Hne Hk].
  cbn in *. rewrite IH by done. by destruct (String.eqb_spec k2 k) as [->|].
Qed.

Lemma object_of_size (kvs : list (string * J)) : NoDup kvs.*1 ->
  json_object_size (object_of kvs) = Z.of_nat (length kvs).
Proof.
  induction kvs as [|[k v] kvs IH] using rev_ind; intros Hnd; [apply json_size_new|].
  rewrite fmap_app in Hnd. apply NoDup_app in Hnd as (Hnd & Hd & _).
  rewrite <- object_of_snoc. unfold add_member. cbn [fst snd]. rewrite json_size_add.
  - rewrite IH by done. rewrite length_app. cbn. lia.
  - apply object_of_type.
  - rewrite object_of_get. apply assoc_none. intros Hk. apply (Hd k Hk). by left.
Qed.

Lemma record_type v kvs : record_is v kvs -> json_type v = JSON_OBJECT.
Proof. intros Hv. rewrite (json_type_proper _ _ Hv). apply object_of_type. Qed.

Lemma record_size v kvs : record_is v kvs -> NoDup kvs.*1 -> json_object_size v = Z.of_nat (length kvs).
Proof. intros Hv Hnd. rewrite (json_size_proper _ _ Hv). by apply object_of_size. Qed.

Lemma record_member v kvs k x : record_is v kvs -> assoc k kvs = Some x ->
  exists y, json_object_get v k = Some y /\ json_equiv y x.
Proof.
  intros Hv Hk. pose proof (json_get_proper _ _ k Hv) as Hg. rewrite object_of_get, Hk in Hg.
  inversion Hg as [y x' Hy|]; subst. by exists y.
Qed.

Lemma record_text v kvs k s : record_is v kvs -> assoc k kvs = Some (json_create_string s) ->
  exists y, json_object_get v k = Some y /\ json_type y = JSON_STRING /\ json_string y = s.
Proof.
  intros Hv Hk. destruct (record_member v kvs k _ Hv Hk) as (y & Hg & Hy). exists y. split; [done|].
  by rewrite (json_type_proper _ _ Hy), (json_string_proper _ _ Hy), json_type_string, json_string_create.
Qed.

Lemma record_number v kvs k z d : record_is v kvs -> assoc k kvs = Some (json_create_int64 z) ->
  INT64_MIN <= z <= INT64_MAX -> turbo_runtime_json_value_as_int64 (json_object_get v k) d = z.
Proof.
  intros Hv Hk Hz. destruct (record_member v kvs k _ Hv Hk) as (y & -> & Hy).
  apply json_int64_token in Hy as [Hty Htok]. by apply json_as_int64_token.
Qed.

Lemma record_is_object kvs : record_is (object_of kvs) kvs.
Proof. unfold record_is. reflexivity. Qed.

End records.

(** ** Building in memory that may run out *)

(** A computation that answers [x] or fails for lack of memory. *)
Definition builds {A} (m : mem A) (x : A) : Prop := forall o,
  ((m o).1 = Some x \/ (m o).1 = None) /\ (plenty o -> (m o).1 = Some x /\ plenty (m o).2).

Lemma alloc_ample o : plenty o -> (alloc o).1 = true /\ plenty (alloc o).2.
Proof. intros Ho. by destruct (alloc_plenty o Ho) as (o' & ? & ->). Qed.

Lemma builds_ret {A} (x : A) : builds (mret x) x.
Proof. intros o. by split; [left|]. Qed.

Lemma builds_need {A} (x : A) : builds (need (Some x)) x.
Proof. intros o. by split; [left|]. Qed.

Lemma builds_create {A} (x : A) : builds (create x) x.
Proof.
  intros o. unfold create. pose proof (alloc_ample o) as Ho. destruct (alloc o) as [[] o']; cbn in *.
  - split; [by left|]. intros Hp. by destruct (Ho Hp).
  - split; [by right|]. intros Hp. by destruct (Ho Hp).
Qed.

Lemma builds_bind {A B} (m : mem A) (k : A -> mem B) x y :
  builds m x -> builds (k x) y -> builds (m ≫= k) y.
Proof.
  intros Hm Hk o. destruct (Hm o) as [Hr Hp]. unfold mbind, mem_bind.
  destruct (m o) as [r o1]. cbn in Hr, Hp. destruct Hr as [-> | ->].
  - destruct (Hk o1) as [Hr2 Hp2]. split; [done|]. intros Ho. apply Hp2, Hp, Ho.
  - split; [by right|]. intros Ho. by destruct (Hp Ho).
Qed.

(** A setter that adds a member, or reports that it did not. *)
Definition adds {J} `{JsonSetters J} (f : setter J) (kv : string * J) : Prop := forall obj o,
  json_type obj = JSON_OBJECT ->
  let '(st, obj', o') := f (Some obj) o in
  (st = TURBO_RUNTIME_JSON_OK -> obj' = Some (add_member obj kv)) /\
  (plenty o -> st = TURBO_RUNTIME_JSON_OK /\ plenty o').

Section builds_json.
Context {J : Type} `{JsonSetters J, !JsonLaws J}.

Lemma build_record_builds fs (kvs : list (string * J)) : Forall2 adds fs kvs ->
  forall obj : J, json_type obj = JSON_OBJECT ->
  builds (build_record fs obj) (foldl add_member obj kvs).
Proof.
  induction 1 as [|f kv fs kvs Hf _ IH]; intros obj Hty o; unfold build_record; cbn [set_all foldl].
  - by split; [left|].
  - specialize (Hf obj o Hty). destruct (f (Some obj) o) as [[st obj'] o1].
    destruct Hf as [Hok Hp]. destruct st; try (split; [by right|]; intros Ho; by destruct (Hp Ho)).
    rewrite (Hok eq_refl). destruct (IH (add_member obj kv) ltac:(by apply json_type_add) o1) as [Hr Hp2].
    split; [exact Hr|]. intros Ho. apply Hp2, Hp, Ho.
Qed.

Lemma set_constructed_adds k (v : J) :
  adds (fun obj o => set_constructed obj (Some k) (Some v) o) (k, v).
Proof.
  intros obj o Hty. unfold set_constructed. rewrite bool_decide_eq_true_2 by done. cbn [negb].
  pose proof (alloc_ample o) as Ho. destruct (alloc o) as [[] o1]; cbn in Ho |- *.
  - rewrite bool_decide_eq_true_2 by done. cbn [negb].
    pose proof (alloc_ample o1) as Ho1. destruct (alloc o1) as [[] o2]; cbn in Ho1 |- *.
    + split; [done|]. intros Hp. split; [done|]. by apply Ho1, Ho.
    + split; [done|]. intros Hp. by destruct (Ho1 (proj2 (Ho Hp))).
  - split; [done|]. intros Hp. by destruct (Ho Hp).
Qed.

Lemma set_string_adds k s : adds (J := J) (set_string k (Some s)) (k, json_create_string s).
Proof. apply set_constructed_adds. Qed.

Lemma set_int64_adds k z : adds (J := J) (set_int64 k z) (k, json_create_int64 z).
Proof. apply set_constructed_adds. Qed.

End builds_json.

Create HintDb builds.
#[export] Hint Resolve builds_ret builds_need builds_create set_string_adds set_int64_adds : builds.

(** A new object with the members of a chain of setters. *)
Lemma new_record_builds {J} `{JsonSetters J, !JsonLaws J} fs (kvs : list (string * J)) :
  Forall2 adds fs kvs -> builds (create_object ≫= build_record fs) (object_of kvs).
Proof.
  intros Hfs. eapply builds_bind; [apply builds_create|].
  by apply build_record_builds, json_type_object.
Qed.

(** The members that a chain of setters adds, one by one. *)
Ltac builds_fields := repeat (constructor; [solve [auto with builds]|]); constructor.
