(* ===== verification/RuntimeStore.v ===== *)
(** * Record stores (src/runtime/src/turbo_runtime_store.c)

    A runtime owns a store: a table of callbacks over some backend, a world [W],
    that keeps texts by collection and identifier.  The runtime's operations
    serialize and parse JSON around the callbacks; each runs under the store's
    mutex and is one atomic step.  The memory backend is modelled; the file and
    SQLite backends are operating system and library calls.

    [RuntimeStoreLaws] is what the clients of a runtime rely on; the memory
    backend discharges it. *)

From S2P Require Import Prelude RuntimeJson JsonBuild JsonMem.

#[local] Open Scope string_scope.
#[local] Open Scope list_scope.
#[local] Open Scope Z_scope.

(** An operation on a backend: an answer or the status it failed with. *)
Definition io (W A : Type) : Type := W -> oracle -> (A + salts_status) * W * oracle.

#[global] Instance io_ret W : MRet (io W) := fun A x w o => (inl x, w, o).
#[global] Instance io_bind W : MBind (io W) := fun A B k m w o =>
  match m w o with
  | (inl x, w, o) => k x w o
  | (inr st, w, o) => (inr st, w, o)
  end.

Definition io_fail {W A} (st : salts_status) : io W A := fun w o => (inr st, w, o).

(** A value built in memory, or the status for the lack of it. *)
Definition io_mem {W A} (st : salts_status) (m : mem A) : io W A := fun w o =>
  match m o with
  | (Some x, o) => (inl x, w, o)
  | (None, o) => (inr st, w, o)
  end.

(** The status of an operation, which then decides what to do. *)
Definition io_try {W A} (m : io W A) : io W (A + salts_status) := fun w o =>
  match m w o with (r, w, o) => (inl r, w, o) end.

(** [-1], the status of the older operations. *)
Definition MINUS_ONE : salts_status := SALTS_OTHER (-1).

(** ** The table of callbacks *)

(** A read answers a status with the text it wrote, if any. *)
(* src/runtime/include/turbo_runtime_store.h 14-35 turbo_agent_runtime_store_t *)
Record turbo_agent_runtime_store (W : Type) : Type := mk_store {
  store_put : option (string -> string -> string -> W -> oracle -> salts_status * W * oracle);
  store_get : option (string -> string -> W -> oracle -> salts_status * option string * W * oracle);
  store_list : option (string -> option string -> option string -> W -> oracle ->
                       salts_status * option string * W * oracle);
  store_create_if_absent : option (string -> string -> string -> W -> oracle -> salts_status * W * oracle)
}.
Arguments mk_store {W}.
Arguments store_put {W}.
Arguments store_get {W}.
Arguments store_list {W}.
Arguments store_create_if_absent {W}.

Section runtime.
Context {J : Type} `{JsonApi J} {W : Type}.

(** A runtime is the store it was created with. *)
Definition turbo_agent_runtime : Type := turbo_agent_runtime_store W.

(* src/runtime/src/turbo_runtime_store.c 720-738 turbo_agent_runtime_create *)
Definition turbo_agent_runtime_create (store : option (turbo_agent_runtime_store W))
  : mem turbo_agent_runtime :=
  store ← need store;
  match store_put store, store_get store, store_list store with
  | Some _, Some _, Some _ =>
      runtime ← create store;
      create runtime
  | _, _, _ => mem_fail
  end.

(* src/runtime/src/turbo_runtime_store.c 192-207 turbo_runtime_store_parse_json_string *)
Definition turbo_runtime_store_parse_json_string (json_text : string) : mem J :=
  value ← need (json_parse json_text);
  create value.

(** A callback that answers a status. *)
Definition called (f : W -> oracle -> salts_status * W * oracle) : io W unit := fun w o =>
  match f w o with
  | (SALTS_OK, w, o) => (inl tt, w, o)
  | (st, w, o) => (inr st, w, o)
  end.

(** A callback that answers a status and a text. *)
Definition called_text (f : W -> oracle -> salts_status * option string * W * oracle)
  : io W (option string) := fun w o =>
  match f w o with
  | (SALTS_OK, text, w, o) => (inl text, w, o)
  | (st, _, w, o) => (inr st, w, o)
  end.

(* src/runtime/src/turbo_runtime_store.c 209-227 turbo_agent_runtime_store_put_json *)
Definition turbo_agent_runtime_store_put_json (runtime : option turbo_agent_runtime)
    (collection id : option string) (record_json : option J) : io W unit :=
  match runtime, collection, id, record_json with
  | Some r, Some c, Some i, Some record =>
      match store_put r with
      | Some put =>
          serialized ← io_mem MINUS_ONE (create (json_serialize record));
          called (put c i serialized)
      | None => io_fail MINUS_ONE
      end
  | _, _, _, _ => io_fail MINUS_ONE
  end.

(* src/runtime/src/turbo_runtime_store.c 229-243 turbo_agent_runtime_store_create_json_if_absent *)
Definition turbo_agent_runtime_store_create_json_if_absent (runtime : option turbo_agent_runtime)
    (collection id : option string) (record_json : option J) : io W unit :=
  match runtime, collection, id, record_json with
  | Some r, Some c, Some i, Some record =>
      match store_create_if_absent r with
      | Some create_if_absent =>
          serialized ← io_mem SALTS_ENOMEM (create (json_serialize record));
          called (create_if_absent c i serialized)
      | None => io_fail SALTS_ENOTSUP
      end
  | _, _, _, _ => io_fail SALTS_EINVAL
  end.

(* src/runtime/src/turbo_runtime_store.c 245-267 turbo_agent_runtime_store_get_json_status *)
Definition turbo_agent_runtime_store_get_json_status (runtime : option turbo_agent_runtime)
    (collection id : option string) : io W J :=
  match runtime, collection, id with
  | Some r, Some c, Some i =>
      match store_get r with
      | Some get =>
          text ← called_text (get c i);
          match text with
          | Some serialized => io_mem SALTS_EPROTO (turbo_runtime_store_parse_json_string serialized)
          | None => io_fail SALTS_EPROTO
          end
      | None => io_fail SALTS_EINVAL
      end
  | _, _, _ => io_fail SALTS_EINVAL
  end.

(* src/runtime/src/turbo_runtime_store.c 269-273 turbo_agent_runtime_store_get_json *)
Definition turbo_agent_runtime_store_get_json (runtime : option turbo_agent_runtime)
    (collection id : option string) : io W J :=
  result ← io_try (turbo_agent_runtime_store_get_json_status runtime collection id);
  match result with
  | inl record => mret record
  | inr _ => io_fail MINUS_ONE
  end.

(* src/runtime/src/turbo_runtime_store.c 275-303 turbo_agent_runtime_store_list_json *)
Definition turbo_agent_runtime_store_list_json (runtime : option turbo_agent_runtime)
    (collection filter_key filter_value : option string) : io W J :=
  match runtime, collection with
  | Some r, Some c =>
      match store_list r with
      | Some list =>
          result ← io_try (called_text (list c filter_key filter_value));
          match result with
          | inl (Some serialized) =>
              records ← io_mem MINUS_ONE (turbo_runtime_store_parse_json_string serialized);
              if bool_decide (json_type records = JSON_ARRAY) then mret records else io_fail MINUS_ONE
          | _ => io_fail MINUS_ONE
          end
      | None => io_fail MINUS_ONE
      end
  | _, _ => io_fail MINUS_ONE
  end.

End runtime.

(** ** The memory backend *)

(* src/runtime/src/turbo_runtime_store.c 19-24 turbo_agent_runtime_memory_record_t *)
Record memory_record : Type := mk_record {
  mr_collection : string;
  mr_id : string;
  mr_json : string
}.

(** The list from its head. *)
(* src/runtime/src/turbo_runtime_store.c 26-28 turbo_agent_runtime_memory_store_t *)
Definition memory_store : Type := list memory_record.

(* src/runtime/src/turbo_runtime_store.c 336-336 turbo_agent_runtime_memory_store_put *)
Definition has_key (collection id : string) (r : memory_record) : bool :=
  bool_decide (mr_collection r = collection) && bool_decide (mr_id r = id).

(** Four allocations, all attempted once the record itself is there. *)
(* src/runtime/src/turbo_runtime_store.c 347-363 turbo_agent_runtime_memory_store_put *)
Definition new_record (collection id json : string) : mem memory_record :=
  record ← create (mk_record collection id json);
  c ← attempt (create collection);
  i ← attempt (create id);
  t ← attempt (create json);
  c ← need c; i ← need i; t ← need t;
  mret (mk_record c i t).

(** The text of the first record with the key is replaced; None when there is none. *)
(* src/runtime/src/turbo_runtime_store.c 335-345 turbo_agent_runtime_memory_store_put *)
Fixpoint replace_record (collection id json : string) (store : memory_store)
  : option memory_store :=
  match store with
  | [] => None
  | r :: rest =>
      if has_key collection id r then Some (mk_record (mr_collection r) (mr_id r) json :: rest)
      else (cons r) <$> replace_record collection id json rest
  end.

(* src/runtime/src/turbo_runtime_store.c 325-364 turbo_agent_runtime_memory_store_put *)
Definition turbo_agent_runtime_memory_store_put (collection id record_json : string)
    (store : memory_store) (o : oracle) : salts_status * memory_store * oracle :=
  match replace_record collection id record_json store with
  | Some replaced =>
      let (copied, o) := alloc o in
      if copied then (SALTS_OK, replaced, o) else (MINUS_ONE, store, o)
  | None =>
      match new_record collection id record_json o with
      | (Some record, o) => (SALTS_OK, record :: store, o)
      | (None, o) => (MINUS_ONE, store, o)
      end
  end.

(* src/runtime/src/turbo_runtime_store.c 366-387 turbo_agent_runtime_memory_store_create_if_absent *)
Definition turbo_agent_runtime_memory_store_create_if_absent (collection id record_json : string)
    (store : memory_store) (o : oracle) : salts_status * memory_store * oracle :=
  if existsb (has_key collection id) store then (SALTS_EALREADY, store, o)
  else
    match new_record collection id record_json o with
    | (Some record, o) => (SALTS_OK, record :: store, o)
    | (None, o) => (SALTS_ENOMEM, store, o)
    end.

(* src/runtime/src/turbo_runtime_store.c 389-405 turbo_agent_runtime_memory_store_get *)
Definition turbo_agent_runtime_memory_store_get (collection id : string)
    (store : memory_store) (o : oracle) : salts_status * option string * memory_store * oracle :=
  match List.find (has_key collection id) store with
  | Some record =>
      match create (mr_json record) o with
      | (Some text, o) => (SALTS_OK, Some text, store, o)
      | (None, o) => (SALTS_ENOMEM, None, store, o)
      end
  | None => (SALTS_ENOENT, None, store, o)
  end.

Section memory_list.
Context {J : Type} `{JsonApi J}.

(* src/runtime/src/turbo_runtime_store.c 407-416 turbo_runtime_store_json_matches_filter *)
Definition turbo_runtime_store_json_matches_filter (record : J) (filter_key filter_value : option string)
  : bool :=
  match filter_key, filter_value with
  | Some key, Some value => bool_decide (member_string (Some record) key = Some value)
  | _, _ => true
  end.

(* src/runtime/src/turbo_runtime_store.c 433-449 turbo_agent_runtime_memory_store_list *)
Definition list_record (collection : string) (filter_key filter_value : option string)
    (records_json : J) (record : memory_record) : mem J :=
  if negb (bool_decide (mr_collection record = collection)) then mret records_json
  else
    record_json ← turbo_runtime_store_parse_json_string (mr_json record);
    if turbo_runtime_store_json_matches_filter record_json filter_key filter_value
    then append records_json record_json
    else mret records_json.

(* src/runtime/src/turbo_runtime_store.c 418-459 turbo_agent_runtime_memory_store_list *)
Definition turbo_agent_runtime_memory_store_list (collection : string)
    (filter_key filter_value : option string) (store : memory_store) (o : oracle)
  : salts_status * option string * memory_store * oracle :=
  match (records_json ← create_array;
         records_json ← mem_fold (list_record collection filter_key filter_value) store records_json;
         serialized ← create (json_serialize records_json);
         create serialized) o with
  | (Some text, o) => (SALTS_OK, Some text, store, o)
  | (None, o) => (MINUS_ONE, None, store, o)
  end.

(** An empty table when memory fails. *)
(* src/runtime/src/turbo_runtime_store.c 659-674 turbo_agent_runtime_store_memory_create *)
Definition turbo_agent_runtime_store_memory_create (o : oracle)
  : turbo_agent_runtime_store memory_store * oracle :=
  let (created, o) := alloc o in
  if created then
    (mk_store (Some turbo_agent_runtime_memory_store_put) (Some turbo_agent_runtime_memory_store_get)
       (Some turbo_agent_runtime_memory_store_list)
       (Some turbo_agent_runtime_memory_store_create_if_absent), o)
  else (mk_store None None None None, o).

End memory_list.
