(* ===== verification/RuntimeStoreFacts.v ===== *)
(** * Properties of record stores

    The memory backend refines a finite map; what the operations of a runtime
    tell a client, for any backend with the promises of [RuntimeStoreLaws]. *)

From S2P Require Import Prelude RuntimeJson JsonBuild JsonMem JsonRecord RuntimeStore.

#[local] Open Scope string_scope.
#[local] Open Scope list_scope.
#[local] Open Scope Z_scope.

(** ** What a backend promises

    A read tells what is there and changes nothing; a conditional insert that is
    acknowledged found nothing and put its text, and one that fails otherwise than
    by EALREADY may or may not have. *)
Class RuntimeStoreLaws {W : Type} (store : turbo_agent_runtime_store W) := {
  contents : W -> gmap (string * string) string;
  backend_get : string -> string -> W -> oracle -> salts_status * option string * W * oracle;
  backend_create : string -> string -> string -> W -> oracle -> salts_status * W * oracle;
  backend_has_get : store_get store = Some backend_get;
  backend_has_create : store_create_if_absent store = Some backend_create;
  get_tells : forall c i w o st text w' o', backend_get c i w o = (st, text, w', o') ->
    contents w' = contents w /\
    (st = SALTS_OK -> text = contents w !! (c, i) /\ is_Some text) /\
    (st = SALTS_ENOENT -> contents w !! (c, i) = None);
  create_claims : forall c i t w o st w' o', backend_create c i t w o = (st, w', o') ->
    (st = SALTS_OK -> contents w !! (c, i) = None /\ contents w' = <[(c, i) := t]> (contents w)) /\
    (st = SALTS_EALREADY -> is_Some (contents w !! (c, i)) /\ contents w' = contents w) /\
    (contents w' = contents w \/
     (contents w !! (c, i) = None /\ contents w' = <[(c, i) := t]> (contents w)))
}.

(** A backend that does not fail while memory lasts. *)
Definition store_reliable {W} (store : turbo_agent_runtime_store W) `{!RuntimeStoreLaws store} : Prop :=
  (forall c i w o, plenty o ->
     let '(st, _, _, o') := backend_get c i w o in (st = SALTS_OK \/ st = SALTS_ENOENT) /\ plenty o') /\
  (forall c i t w o, plenty o ->
     let '(st, _, o') := backend_create c i t w o in (st = SALTS_OK \/ st = SALTS_EALREADY) /\ plenty o').

(** ** The memory backend is a finite map *)

Definition record_key (r : memory_record) : string * string := (mr_collection r, mr_id r).

Definition records (m : memory_store) : gmap (string * string) string :=
  list_to_map ((fun r => (record_key r, mr_json r)) <$> m).

(** No key twice. *)
Definition store_wf (m : memory_store) : Prop := NoDup (record_key <$> m).

#[export] Instance store_wf_dec m : Decision (store_wf m) := NoDup_dec _.

Lemma has_key_spec c i r : has_key c i r = bool_decide (record_key r = (c, i)).
Proof.
  unfold has_key, record_key. destruct r as [c' i' t]. cbn.
  apply eq_true_iff_eq. rewrite andb_true_iff, !bool_decide_eq_true. split; [by intros [-> ->]|by intros [= -> ->]].
Qed.

Lemma records_cons r m : records (r :: m) = <[record_key r := mr_json r]> (records m).
Proof. done. Qed.

Lemma find_lookup c i m : mr_json <$> List.find (has_key c i) m = records m !! (c, i).
Proof.
  induction m as [|r m IH]; [done|]. cbn [List.find]. rewrite has_key_spec, records_cons.
  case_bool_decide as Hk; [by rewrite Hk, lookup_insert_eq|]. by rewrite lookup_insert_ne.
Qed.

Lemma exists_lookup c i m : existsb (has_key c i) m = bool_decide (is_Some (records m !! (c, i))).
Proof.
  apply eq_true_iff_eq. rewrite bool_decide_eq_true, <- find_lookup, fmap_is_Some, existsb_exists. split.
  - intros (r & Hin & Hr). destruct (List.find (has_key c i) m) as [r'|] eqn:E; [by eexists|].
    by rewrite (List.find_none _ _ E r Hin) in Hr.
  - intros [r Hr]. apply List.find_some in Hr. by exists r.
Qed.

Lemma lookup_none_key c i m : records m !! (c, i) = None -> (c, i) ∉ record_key <$> m.
Proof.
  induction m as [|r m IH]; [intros _; apply not_elem_of_nil|]. rewrite records_cons, fmap_cons, not_elem_of_cons.
  intros [Hm Hr]%lookup_insert_None. auto.
Qed.

Lemma replace_spec c i t m : store_wf m ->
  match replace_record c i t m with
  | Some m' => is_Some (records m !! (c, i)) /\ records m' = <[(c, i) := t]> (records m) /\
               record_key <$> m' = record_key <$> m
  | None => records m !! (c, i) = None
  end.
Proof.
  unfold store_wf. induction m as [|r m IH]; intros Hwf; [done|]. cbn [replace_record].
  rewrite has_key_spec. cbn [fmap list_fmap] in Hwf. apply NoDup_cons in Hwf as [Hr Hwf].
  case_bool_decide as Hk.
  - rewrite !records_cons. unfold record_key at 2 3. cbn [mr_collection mr_id mr_json].
    fold (record_key r). rewrite Hk, lookup_insert_eq. split; [by eexists|].
    by rewrite insert_insert_eq.
  - specialize (IH Hwf). destruct (replace_record c i t m) as [m'|]; cbn [fmap option_fmap option_map].
    + destruct IH as (Hs & Hm & Hkeys). rewrite !records_cons, lookup_insert_ne, Hm by done.
      split; [done|]. split; [by rewrite insert_insert_ne|]. by rewrite !fmap_cons, Hkeys.
    + by rewrite records_cons, lookup_insert_ne.
Qed.

Lemma new_record_spec c i t o : exists o',
  (new_record c i t o = (Some (mk_record c i t), o') \/ new_record c i t o = (None, o')) /\
  (plenty o -> plenty o' /\ new_record c i t o = (Some (mk_record c i t), o')).
Proof.
  assert (Hg : gives (new_record c i t) (Some (mk_record c i t))).
  { unfold new_record. eapply gives_bind; [apply gives_create|].
    do 3 (eapply gives_bind; [apply gives_attempt, gives_create|]).
    do 3 (eapply gives_bind; [apply gives_need|]). apply gives_ret. }
  assert (Hr : (new_record c i t o).1 = Some (mk_record c i t) \/ (new_record c i t o).1 = None).
  { unfold new_record, mbind, mem_bind, create, attempt, need, mret, mem_ret.
    repeat (destruct (alloc _) as [[] ?]; cbn; auto). }
  destruct (new_record c i t o) as [x o'] eqn:E. exists o'. cbn in Hr. split; [by destruct Hr as [-> | ->]; auto|].
  intros Ho. destruct (Hg o Ho) as (o2 & Ho2 & E2). rewrite E in E2. by injection E2 as -> ->.
Qed.

Lemma wf_new c i t m : store_wf m -> records m !! (c, i) = None -> store_wf (mk_record c i t :: m).
Proof. intros Hwf Hn. apply NoDup_cons. split; [by apply lookup_none_key|done]. Qed.

(** C29. The memory backend refines a finite map from keys to texts: every operation keeps
    keys distinct and answers exactly the map's answer or that memory failed,
    which changes nothing; a put inserts or replaces, a conditional insert inserts
    only where nothing was. *)
Theorem memory_store_refines (c i t : string) (m : memory_store) (o : oracle) : store_wf m ->
  let '(put_st, put_m, _) := turbo_agent_runtime_memory_store_put c i t m o in
  let '(create_st, create_m, _) := turbo_agent_runtime_memory_store_create_if_absent c i t m o in
  let '(get_st, get_text, get_m, _) := turbo_agent_runtime_memory_store_get c i m o in
  (store_wf put_m /\ store_wf create_m /\ get_m = m) /\
  (put_st = SALTS_OK /\ records put_m = <[(c, i) := t]> (records m) \/ put_st = MINUS_ONE /\ put_m = m) /\
  match records m !! (c, i) with
  | Some text =>
      create_st = SALTS_EALREADY /\ create_m = m /\
      (get_st = SALTS_OK /\ get_text = Some text \/ get_st = SALTS_ENOMEM /\ get_text = None)
  | None =>
      (create_st = SALTS_OK /\ records create_m = <[(c, i) := t]> (records m) \/
       create_st = SALTS_ENOMEM /\ create_m = m) /\
      get_st = SALTS_ENOENT /\ get_text = None
  end /\
  (plenty o -> put_st = SALTS_OK /\ create_st <> SALTS_ENOMEM /\ get_st <> SALTS_ENOMEM).
Proof.
  intros Hwf. pose proof (replace_spec c i t m Hwf) as Hr. pose proof (wf_new c i t m Hwf) as Hnew.
  pose proof (exists_lookup c i m) as Hex. pose proof (find_lookup c i m) as Hfind.
  destruct (new_record_spec c i t o) as (o' & Hn & Hp).
  unfold turbo_agent_runtime_memory_store_put, turbo_agent_runtime_memory_store_create_if_absent,
    turbo_agent_runtime_memory_store_get.
  rewrite Hex. destruct (records m !! (c, i)) as [text|] eqn:El.
  - destruct (replace_record c i t m) as [m'|]; [|done].
    rewrite bool_decide_eq_true_2 by (by eexists).
    destruct (List.find (has_key c i) m) as [r|]; [|done]. cbn in Hfind. injection Hfind as ->.
    destruct Hr as (_ & Hm & Hkeys). unfold create.
    assert (Hal : plenty o -> (alloc o).1 = true) by (intros Ho; by destruct (alloc_plenty o Ho) as (? & _ & ->)).
    assert (Hwf' : store_wf m') by (unfold store_wf; by rewrite Hkeys).
    destruct (alloc o) as [[] o1]; cbn in Hal |- *; split_and!; auto; intros Ho;
      first [by split_and!|by specialize (Hal Ho)].
  - destruct (replace_record c i t m) as [m'|]; [by destruct Hr as [[? ?] _]|].
    rewrite bool_decide_eq_false_2 by (by intros []).
    destruct (List.find (has_key c i) m) as [r|]; [done|].
    destruct Hn as [Hn|Hn]; rewrite Hn; cbn.
    + split_and!; auto.
    + split_and!; auto. intros Ho. destruct (Hp Ho) as [_ Hp']. congruence.
Qed.

(** A second put to a key replaces the text and nothing else. *)
Lemma memory_store_refines_witness :
  let m := [mk_record "c" "b" "2"; mk_record "c" "a" "1"] in
  let '(st, m', _) := turbo_agent_runtime_memory_store_put "c" "a" "3" m [] in
  st = SALTS_OK /\ store_wf m' /\ records m' = <[("c", "a") := "3"]> (records m).
Proof.
  pose proof (memory_store_refines "c" "a" "3" [mk_record "c" "b" "2"; mk_record "c" "a" "1"] []) as Hr.
  specialize (Hr (bool_decide_unpack (store_wf [mk_record "c" "b" "2"; mk_record "c" "a" "1"]) I)). cbv zeta.
  destruct (turbo_agent_runtime_memory_store_put _ _ _ _ _) as [[st m'] o] eqn:E.
  destruct (turbo_agent_runtime_memory_store_create_if_absent _ _ _ _ _) as [[st2 m2] o2].
  destruct (turbo_agent_runtime_memory_store_get _ _ _ _) as [[[st3 t3] m3] o3].
  destruct Hr as ((Hwf & _) & [[Hst Hput]|[Hbad _]] & _); [by split_and!|].
  rewrite Hbad in E. discriminate E.
Defined.

(** The memory backend keeps the promises, and does not fail while memory lasts. *)
Section memory_laws.
Context {J : Type} `{JsonApi J}.

Definition memory_callbacks : turbo_agent_runtime_store memory_store :=
  (turbo_agent_runtime_store_memory_create []).1.

#[export] Instance memory_store_laws : RuntimeStoreLaws memory_callbacks.
Proof.
  refine {| contents := records; backend_get := turbo_agent_runtime_memory_store_get;
            backend_create := turbo_agent_runtime_memory_store_create_if_absent |}; [done..| |].
  - intros c i m o st text m' o'. unfold turbo_agent_runtime_memory_store_get, create.
    rewrite <- find_lookup. destruct (List.find _ m) as [r|]; cbn.
    + destruct (alloc o) as [[] o1]; intros [= <- <- <- <-]; by split_and!.
    + intros [= <- <- <- <-]. by split_and!.
  - intros c i t m o st m' o'. unfold turbo_agent_runtime_memory_store_create_if_absent.
    rewrite exists_lookup. case_bool_decide as Hc; [intros [= <- <- <-]; by split_and!; auto|].
    rewrite <- eq_None_not_Some in Hc. destruct (new_record_spec c i t o) as (o1 & [-> | ->] & _);
      intros [= <- <- <-]; rewrite ?records_cons; split_and!; auto; done.
Defined.

Lemma memory_reliable : store_reliable memory_callbacks.
Proof.
  split.
  - intros c i m o Ho. cbn. unfold turbo_agent_runtime_memory_store_get, create.
    destruct (List.find _ m); [|by auto]. destruct (alloc_ample o Ho). destruct (alloc o) as [[] ?]; auto. done.
  - intros c i t m o Ho. cbn. unfold turbo_agent_runtime_memory_store_create_if_absent.
    destruct (existsb _ m); [by auto|]. destruct (new_record_spec c i t o) as (o1 & _ & Hp).
    destruct (Hp Ho) as [? ->]. by auto.
Qed.

End memory_laws.

(** ** What an operation of a client does

    [tells m c x]: over contents [c], [m] reads only, and answers [x] or a fault
    (never a false ENOENT); [commits m c x c'] : it answers [x] and leaves [c'], or
    fails and leaves [c] or [c'].  Without faults while the backend is reliable
    and memory lasts. *)
Section clients.
Context {W : Type} (store : turbo_agent_runtime_store W) `{!RuntimeStoreLaws store}.

#[local] Abbreviation store_contents := (gmap (string * string) string).

Definition fault (st : salts_status) : Prop := st <> SALTS_OK /\ st <> SALTS_ENOENT.

Definition tells {A} (m : io W A) (c : store_contents) (x : A + salts_status) : Prop :=
  forall w o, contents w = c ->
  let '(r, w', o') := m w o in
  contents w' = c /\ (r = x \/ exists st, r = inr st /\ fault st) /\
  (store_reliable store -> plenty o -> r = x /\ plenty o').

Definition commits {A} (m : io W A) (c : store_contents) (x : A + salts_status) (c' : store_contents)
  : Prop := forall w o, contents w = c ->
  let '(r, w', o') := m w o in
  ((r = x /\ contents w' = c') \/
   exists st, r = inr st /\ st <> SALTS_OK /\ (contents w' = c \/ contents w' = c')) /\
  (store_reliable store -> plenty o -> r = x /\ contents w' = c' /\ plenty o').

Section rules.
Context {A B : Type}.

Lemma tells_ret (x : A) c : tells (mret x) c (inl x).
Proof. intros w o Hc. cbn. auto. Qed.

Lemma tells_fail st c : tells (io_fail (A := A) st) c (inr st).
Proof. intros w o Hc. cbn. auto. Qed.

Lemma tells_mem st (m : mem A) x c : builds m x -> fault st -> tells (io_mem st m) c (inl x).
Proof.
  intros Hm Hst w o Hc. unfold io_mem. destruct (Hm o) as [Hr Hp].
  destruct (m o) as [r o']. cbn in Hr, Hp. destruct Hr as [-> | ->].
  - split_and!; [done|by left|]. intros _ Ho. by destruct (Hp Ho).
  - split_and!; [done|right; by eexists|]. intros _ Ho. by destruct (Hp Ho).
Qed.

Lemma tells_bind (m : io W A) (k : A -> io W B) c x y :
  tells m c (inl x) -> tells (k x) c y -> tells (m ≫= k) c y.
Proof.
  intros Hm Hk w o Hc. unfold mbind, io_bind. specialize (Hm w o Hc).
  destruct (m w o) as [[r w1] o1]. destruct Hm as (Hc1 & [->|(st & -> & Hst)] & Hp).
  - specialize (Hk w1 o1 Hc1). destruct (k x w1 o1) as [[r2 w2] o2]. destruct Hk as (Hc2 & Hr & Hp2).
    split_and!; [done|done|]. intros Hs Ho. by apply Hp2, Hp.
  - split_and!; [done|right; by eexists|]. intros Hs Ho. by destruct (Hp Hs Ho).
Qed.

Lemma tells_bind_fail (m : io W A) (k : A -> io W B) c st :
  tells m c (inr st) -> tells (m ≫= k) c (inr st).
Proof.
  intros Hm w o Hc. unfold mbind, io_bind. specialize (Hm w o Hc).
  destruct (m w o) as [[r w1] o1]. destruct Hm as (Hc1 & [->|(st' & -> & Hst)] & Hp).
  - split_and!; [done|by left|]. intros Hs Ho. by destruct (Hp Hs Ho).
  - split_and!; [done|right; by eexists|]. intros Hs Ho. by destruct (Hp Hs Ho) as [[= ->] ?].
Qed.

(** The status decides what comes next; a fault is passed on. *)
Lemma tells_try (m : io W A) (k : A + salts_status -> io W B) c x y :
  tells m c x -> tells (k x) c y -> (forall st, fault st -> k (inr st) = io_fail st) ->
  tells (io_try m ≫= k) c y.
Proof.
  intros Hm Hk Hf w o Hc. unfold mbind, io_bind, io_try. specialize (Hm w o Hc).
  destruct (m w o) as [[r w1] o1]. destruct Hm as (Hc1 & Hr & Hp).
  assert (Hx : r = x -> let '(r2, w2, o2) := k r w1 o1 in contents w2 = c /\
    (r2 = y \/ exists st, r2 = inr st /\ fault st) /\
    (store_reliable store -> plenty o1 -> r2 = y /\ plenty o2)) by (intros ->; by apply Hk).
  destruct Hr as [->|(st & -> & Hst)].
  - specialize (Hx eq_refl). destruct (k x w1 o1) as [[r2 w2] o2]. destruct Hx as (Hc2 & Hr2 & Hp2).
    split_and!; [done|done|]. intros Hs Ho. by apply Hp2, Hp.
  - destruct (k (inr st) w1 o1) as [[r2 w2] o2] eqn:E. rewrite (Hf st Hst) in E. injection E as <- <- <-.
    split_and!; [done|right; by eexists|]. intros Hs Ho. destruct (Hp Hs Ho) as [Heq Ho1].
    by destruct (Hx Heq) as (_ & _ & Hy); apply Hy.
Qed.

Lemma commits_tells (m : io W A) c x : tells m c x -> x <> inr SALTS_OK -> commits m c x c.
Proof.
  intros Hm Hx w o Hc. specialize (Hm w o Hc). destruct (m w o) as [[r w1] o1].
  destruct Hm as (Hc1 & Hr & Hp). split.
  - destruct Hr as [->|(st & -> & Hst & _)]; [by left|right]. exists st. auto.
  - intros Hs Ho. by destruct (Hp Hs Ho).
Qed.

Lemma commits_bind (m : io W A) (k : A -> io W B) c x y c' :
  tells m c (inl x) -> commits (k x) c y c' -> commits (m ≫= k) c y c'.
Proof.
  intros Hm Hk w o Hc. unfold mbind, io_bind. specialize (Hm w o Hc).
  destruct (m w o) as [[r w1] o1]. destruct Hm as (Hc1 & [->|(st & -> & Hst & _)] & Hp).
  - specialize (Hk w1 o1 Hc1). destruct (k x w1 o1) as [[r2 w2] o2]. destruct Hk as [Hr Hp2].
    split; [done|]. intros Hs Ho. by apply Hp2, Hp.
  - split; [right; exists st; auto|]. intros Hs Ho. by destruct (Hp Hs Ho).
Qed.

Lemma commits_bind_fail (m : io W A) (k : A -> io W B) c st c' :
  commits m c (inr st) c' -> commits (m ≫= k) c (inr st) c'.
Proof.
  intros Hm w o Hc. unfold mbind, io_bind. specialize (Hm w o Hc).
  destruct (m w o) as [[r w1] o1]. destruct Hm as [[[-> Hc1]|(st' & -> & Hst & Hc1)] Hp]; cbn.
  - split; [by left|]. intros Hs Ho. by destruct (Hp Hs Ho) as (_ & ? & ?).
  - split; [right; by exists st'|]. intros Hs Ho. by destruct (Hp Hs Ho) as ([= ->] & ? & ?).
Qed.

Lemma commits_ret (m : io W A) (f : A -> B) c x c' :
  commits m c (inl x) c' -> commits (a ← m; mret (f a)) c (inl (f x)) c'.
Proof.
  intros Hm w o Hc. unfold mbind, io_bind. specialize (Hm w o Hc).
  destruct (m w o) as [[r w1] o1]. destruct Hm as [[[-> Hc1]|(st & -> & Hst & Hc1)] Hp]; cbn.
  - split; [by left|]. intros Hs Ho. by destruct (Hp Hs Ho) as (_ & ? & ?).
  - split; [right; by exists st|]. intros Hs Ho. by destruct (Hp Hs Ho).
Qed.

End rules.

(** ** The operations of a runtime *)
Context {J : Type} `{JsonLaws J}.

(** The document that a key holds. *)
Definition holds (c : store_contents) (key : string * string) (v : J) : Prop :=
  exists t, c !! key = Some t /\ json_parse t = Some v.

Lemma tells_absent c collection id : c !! (collection, id) = None ->
  tells (turbo_agent_runtime_store_get_json_status (J := J) (Some store) (Some collection) (Some id))
    c (inr SALTS_ENOENT).
Proof.
  intros Hn w o <-. unfold turbo_agent_runtime_store_get_json_status. rewrite backend_has_get.
  unfold mbind, io_bind, called_text. destruct (backend_get collection id w o) as [[[st text] w1] o1] eqn:E.
  destruct (get_tells _ _ _ _ _ _ _ _ E) as (Hc1 & Hok & _). rewrite Hn in Hok.
  assert (Hst : st <> SALTS_OK) by (intros Hst; by destruct (Hok Hst) as [-> [? ?]]).
  assert (Hr : st = SALTS_ENOENT \/ fault st) by (unfold fault; destruct (decide (st = SALTS_ENOENT)); auto).
  assert (Hrel : store_reliable store -> plenty o -> st = SALTS_ENOENT /\ plenty o1).
  { intros [Hg _] Ho. specialize (Hg collection id w o Ho). rewrite E in Hg. by destruct Hg as [[?|?] ?]. }
  destruct st; try done; split_and!; try done; try (by left); destruct Hr as [?|?]; try done;
    try (right; by eexists); intros Hs Ho; by destruct (Hrel Hs Ho).
Qed.

Lemma tells_text c collection id t : c !! (collection, id) = Some t ->
  tells (turbo_agent_runtime_store_get_json_status (J := J) (Some store) (Some collection) (Some id))
    c (match json_parse t with Some v => inl v | None => inr SALTS_EPROTO end).
Proof.
  intros Ht w o <-. unfold turbo_agent_runtime_store_get_json_status. rewrite backend_has_get.
  unfold mbind, io_bind, called_text. destruct (backend_get collection id w o) as [[[st text] w1] o1] eqn:E.
  destruct (get_tells _ _ _ _ _ _ _ _ E) as (Hc1 & Hok & Hno). rewrite Ht in Hok, Hno.
  assert (Hrel : store_reliable store -> plenty o -> st = SALTS_OK /\ plenty o1).
  { intros [Hg _] Ho. specialize (Hg collection id w o Ho). rewrite E in Hg.
    destruct Hg as [[?|Hst] ?]; [done|by specialize (Hno Hst)]. }
  assert (Hne : st <> SALTS_ENOENT) by (intros Hst; by specialize (Hno Hst)).
  destruct (decide (st = SALTS_OK)) as [->|Hst].
  - destruct (Hok eq_refl) as [-> _].
    assert (Hb : tells (io_mem SALTS_EPROTO (turbo_runtime_store_parse_json_string t)) (contents w)
                   (match json_parse t with Some v => inl v | None => inr SALTS_EPROTO end)).
    { unfold turbo_runtime_store_parse_json_string, need. destruct (json_parse t) as [v|]; [|apply tells_fail].
      apply tells_mem; [|by split]. eapply builds_bind; [apply builds_need|apply builds_create]. }
    specialize (Hb w1 o1 Hc1). destruct (io_mem SALTS_EPROTO _ w1 o1) as [[r w2] o2].
    destruct Hb as (? & ? & Hp). split_and!; [done|done|]. intros Hs Ho. destruct (Hrel Hs Ho). by apply Hp.
  - destruct st; try done; split_and!; try done; try (right; by eexists);
      intros Hs Ho; by destruct (Hrel Hs Ho).
Qed.

Lemma tells_held c collection id v : holds c (collection, id) v ->
  tells (turbo_agent_runtime_store_get_json_status (J := J) (Some store) (Some collection) (Some id))
    c (inl v).
Proof. intros (t & Ht & Hv). pose proof (tells_text c collection id t Ht) as Hr. by rewrite Hv in Hr. Qed.

(** A conditional insert where nothing is. *)
Lemma commits_insert c collection id (record : J) : c !! (collection, id) = None ->
  commits (turbo_agent_runtime_store_create_json_if_absent (Some store) (Some collection) (Some id)
             (Some record))
    c (inl tt) (<[(collection, id) := json_serialize record]> c).
Proof.
  intros Hn. unfold turbo_agent_runtime_store_create_json_if_absent. rewrite backend_has_create.
  eapply commits_bind; [apply tells_mem; [apply builds_create|by split]|]. intros w o <-. unfold called.
  destruct (backend_create collection id (json_serialize record) w o) as [[st w1] o1] eqn:E.
  destruct (create_claims _ _ _ _ _ _ _ _ E) as (Hok & Hal & Hor). rewrite Hn in Hok, Hal, Hor.
  assert (Hrel : store_reliable store -> plenty o -> st = SALTS_OK /\ plenty o1).
  { intros [_ Hg] Ho. specialize (Hg collection id (json_serialize record) w o Ho). rewrite E in Hg.
    destruct Hg as [[?|Hst] ?]; [done|]. by destruct (Hal Hst) as [[? ?] _]. }
  destruct (decide (st = SALTS_OK)) as [->|Hst].
  - destruct (Hok eq_refl) as [_ ->]. split; [by left|]. intros Hs Ho. by destruct (Hrel Hs Ho).
  - assert (Ho2 : contents w1 = contents w \/
      contents w1 = <[(collection, id) := json_serialize record]> (contents w))
      by (destruct Hor as [?|[_ ?]]; auto).
    destruct st; try done; (split; [right; by eexists|]); intros Hs Ho; by destruct (Hrel Hs Ho).
Qed.

(** A conditional insert where something is. *)
Lemma commits_claimed c collection id (record : J) : is_Some (c !! (collection, id)) ->
  commits (turbo_agent_runtime_store_create_json_if_absent (Some store) (Some collection) (Some id)
             (Some record))
    c (inr SALTS_EALREADY) c.
Proof.
  intros Hn. unfold turbo_agent_runtime_store_create_json_if_absent. rewrite backend_has_create.
  eapply commits_bind; [apply tells_mem; [apply builds_create|by split]|]. intros w o <-. unfold called.
  destruct (backend_create collection id (json_serialize record) w o) as [[st w1] o1] eqn:E.
  destruct (create_claims _ _ _ _ _ _ _ _ E) as (Hok & _ & Hor).
  assert (Hst : st <> SALTS_OK) by (intros Hst; destruct (Hok Hst) as [Hno _]; rewrite Hno in Hn; by destruct Hn).
  assert (Hw : contents w1 = contents w) by (destruct Hor as [?|[Hno _]]; [done|rewrite Hno in Hn; by destruct Hn]).
  assert (Hrel : store_reliable store -> plenty o -> st = SALTS_EALREADY /\ plenty o1).
  { intros [_ Hg] Ho. specialize (Hg collection id (json_serialize record) w o Ho). rewrite E in Hg.
    by destruct Hg as [[?|?] ?]. }
  destruct st; try done; (split; [right; by eexists; auto|]); intros Hs Ho; by destruct (Hrel Hs Ho).
Qed.

Lemma holds_insert c key (record : J) : exists v,
  holds (<[key := json_serialize record]> c) key v /\ json_equiv v record.
Proof.
  destruct (json_parse_serialize record) as (v & Hp & Hv). exists v. split; [|done].
  exists (json_serialize record). by rewrite lookup_insert_eq.
Qed.

Lemma holds_insert_ne c key key' t v : key <> key' -> holds (<[key := t]> c) key' v <-> holds c key' v.
Proof. intros Hne. unfold holds. by rewrite lookup_insert_ne. Qed.

End clients.
