(* ===== verification/AgentJob.v ===== *)
(** * Agent jobs (src/harness/src/turbo_agent_job.c)

    A job lives in a record store: a descriptor, a numbered history of immutable
    events (proposals, then the binding of an attempt) and at most one
    cancellation request.  Every operation reads the whole history anew,
    validates it, and writes at most one record, by a conditional insert. *)

From stdpp Require Import pretty.
From S2P Require Import Prelude RuntimeJson JsonBuild JsonMem JsonRecord RuntimeStore.

#[local] Open Scope string_scope.
#[local] Open Scope list_scope.
#[local] Open Scope Z_scope.

(* src/harness/include/turbo_agent_job.h 12-12 TURBO_AGENT_JOB_SCHEMA_VERSION *)
Definition TURBO_AGENT_JOB_SCHEMA_VERSION : Z := 1.
(* src/harness/include/turbo_agent_job.h 13-13 TURBO_AGENT_JOB_MAX_REVISIONS *)
Definition TURBO_AGENT_JOB_MAX_REVISIONS : Z := 64.
(* src/harness/include/turbo_agent_job.h 14-14 TURBO_AGENT_JOB_MAX_SOURCE_BYTES *)
Definition TURBO_AGENT_JOB_MAX_SOURCE_BYTES : Z := 16384.

(* src/harness/src/turbo_agent_job.c 9-9 JOBS *)
Definition JOBS : string := "agent_jobs".
(* src/harness/src/turbo_agent_job.c 10-10 REVISIONS *)
Definition REVISIONS : string := "agent_job_revisions".
(* src/harness/src/turbo_agent_job.c 11-11 CANCELLATIONS *)
Definition CANCELLATIONS : string := "agent_job_cancellations".

(** ** Computations over a store *)

(** A status other than OK ends an operation. *)
Definition io_check {W} (st : salts_status) : io W unit :=
  match st with SALTS_OK => mret tt | st => io_fail st end.

Definition io_require {W} (ok : bool) (st : salts_status) : io W unit :=
  if ok then mret tt else io_fail st.

Fixpoint io_fold {W A S : Type} (f : S -> A -> io W S) (l : list A) (s : S) : io W S :=
  match l with
  | [] => mret s
  | x :: l => s ← f s x; io_fold f l s
  end.

(** ** Arguments *)

Definition strlen (s : string) : Z := Z.of_nat (String.length s).

(** A pointer to a C string: NULL, or its bytes. *)
(* src/harness/src/turbo_agent_job.c 25-30 text_valid *)
Definition text_valid (text : option string) (max : Z) : bool :=
  match text with
  | Some t => (0 <? strlen t) && (strlen t <=? max)
  | None => false
  end.

(* src/harness/src/turbo_agent_job.c 36-38 id_valid *)
Definition id_char (c : Ascii.ascii) : bool :=
  let ch := char_code c in
  ((97 <=? ch) && (ch <=? 122)) || ((65 <=? ch) && (ch <=? 90)) ||
  ((48 <=? ch) && (ch <=? 57)) || (ch =? 95) || (ch =? 45).

(* src/harness/src/turbo_agent_job.c 32-41 id_valid *)
Definition id_valid (text : option string) (max : Z) : bool :=
  text_valid text max &&
  match text with Some t => forallb id_char (String.list_ascii_of_string t) | None => false end.

(** Decimal digits, at least three. *)
Definition pad3 (n : Z) : string :=
  let s := pretty n in
  (match String.length s with
   | 0%nat => "000" | 1%nat => "00" | 2%nat => "0" | _ => ""
   end ++ s)%string.

Section job.
Context {J : Type} `{JsonSetters J} {W : Type}.

(* src/harness/src/turbo_agent_job.c 13-16 turbo_agent_job_s *)
Record turbo_agent_job : Type := mk_job {
  job_runtime : turbo_agent_runtime (W := W);
  job_id : string
}.

(* src/harness/src/turbo_agent_job.c 18-23 job_head_t *)
Record job_head : Type := mk_head {
  descriptor : option J;
  proposal : option J;
  binding : option J;
  revision : Z
}.

(** ** Reading fields *)

(* src/harness/src/turbo_agent_job.c 43-49 field_text *)
Definition field_text (record : option J) (key : string) (max : Z) : option string :=
  match member record key with
  | Some value =>
      let text := json_string value in
      if negb (bool_decide (json_type value = JSON_STRING)) || (max <? strlen text) then None
      else if (strlen text =? strlen (c_string text)) && (0 <? strlen (c_string text))
      then Some (c_string text) else None
  | None => None
  end.

(* src/harness/src/turbo_agent_job.c 51-54 field_is *)
Definition field_is (record : option J) (key text : string) : bool :=
  bool_decide (field_text record key (strlen text) = Some text).

(* src/harness/src/turbo_agent_job.c 56-58 number *)
Definition number (record : option J) (key : string) : Z :=
  turbo_runtime_json_value_as_int64 (member record key) (-1).

(* src/harness/src/turbo_agent_job.c 60-66 schema_valid *)
Definition schema_valid (record : option J) : salts_status :=
  if negb (has_type record JSON_OBJECT) then SALTS_EPROTO
  else
    let schema := number record "schema_version" in
    if schema =? TURBO_AGENT_JOB_SCHEMA_VERSION then SALTS_OK
    else if 0 <? schema then SALTS_ENOTSUP else SALTS_EPROTO.

(* src/harness/src/turbo_agent_job.c 75-78 revision_key *)
Definition revision_key (id : string) (revision : Z) : string := (id ++ "_" ++ pad3 revision)%string.

Definition read_record (job : turbo_agent_job) (collection id : string) : io W J :=
  turbo_agent_runtime_store_get_json_status (Some (job_runtime job)) (Some collection) (Some id).

(** ** Reading the head *)

(* src/harness/src/turbo_agent_job.c 92-99 head_read *)
Definition descriptor_valid (id : string) (record : J) : bool :=
  (json_object_size record =? 5) && field_is (Some record) "id" id &&
  bool_decide (is_Some (field_text (Some record) "goal" 4096)) &&
  bool_decide (is_Some (field_text (Some record) "acceptance_criteria" 4096)) &&
  (number (Some record) "max_revisions" =? TURBO_AGENT_JOB_MAX_REVISIONS).

(** The head with the event [record] of revision [i]; None is a protocol error. *)
(* src/harness/src/turbo_agent_job.c 107-136 head_read *)
Definition head_event (id : string) (gap : bool) (head : job_head) (i : Z) (record : J)
  : option job_head :=
  let r := Some record in
  if gap || bool_decide (is_Some (binding head)) || negb (field_is r "job_id" id) ||
     negb (number r "revision" =? i) || negb (number r "previous_revision" =? i - 1)
  then None
  else if field_is r "kind" "proposal" then
    if negb (json_object_size record =? 7) ||
       bool_decide (field_text r "source_json" TURBO_AGENT_JOB_MAX_SOURCE_BYTES = None) ||
       bool_decide (field_text r "source_revision" 128 = None)
    then None
    else Some (mk_head (descriptor head) r (binding head) i)
  else if field_is r "kind" "attempt_bound" then
    let thread := field_text r "thread_id" 80 in
    let attempt := field_text r "attempt_id" 64 in
    if negb (json_object_size record =? 8) || bool_decide (proposal head = None) ||
       negb (number r "proposal_version" =? number (proposal head) "revision") ||
       negb (id_valid thread 80) || negb (id_valid attempt 64)
    then None
    else Some (mk_head (descriptor head) (proposal head) r i)
  else None.

(** One slot of the history; the state is the gap flag and the head so far. *)
(* src/harness/src/turbo_agent_job.c 100-137 head_read *)
Definition head_slot (job : turbo_agent_job) (s : bool * job_head) (i : Z) : io W (bool * job_head) :=
  let (gap, head) := s in
  result ← io_try (read_record job REVISIONS (revision_key (job_id job) i));
  match result with
  | inr SALTS_ENOENT => mret (true, head)
  | inr rc => io_fail rc
  | inl record =>
      _ ← io_check (schema_valid (Some record));
      match head_event (job_id job) gap head i record with
      | Some head => mret (gap, head)
      | None => io_fail SALTS_EPROTO
      end
  end.

(* src/harness/src/turbo_agent_job.c 80-143 head_read *)
Definition head_read (job : turbo_agent_job) : io W job_head :=
  record ← read_record job JOBS (job_id job);
  _ ← io_check (schema_valid (Some record));
  _ ← io_require (descriptor_valid (job_id job) record) SALTS_EPROTO;
  s ← io_fold (head_slot job) (seqZ 1 TURBO_AGENT_JOB_MAX_REVISIONS)
        (false, mk_head (Some record) None None 0);
  mret (snd s).

(** A read that must find nothing. *)
(* src/harness/src/turbo_agent_job.c 151-156 history_absent *)
Definition record_absent (job : turbo_agent_job) (collection id : string) : io W unit :=
  result ← io_try (read_record job collection id);
  match result with
  | inr SALTS_ENOENT => mret tt
  | inr rc => io_fail rc
  | inl _ => io_fail SALTS_EALREADY
  end.

(* src/harness/src/turbo_agent_job.c 147-165 history_absent *)
Definition history_absent (job : turbo_agent_job) : io W unit :=
  _ ← io_fold (fun _ i => record_absent job REVISIONS (revision_key (job_id job) i))
        (seqZ 1 TURBO_AGENT_JOB_MAX_REVISIONS) tt;
  record_absent job CANCELLATIONS (job_id job).

(** ** Cancellation *)

(* src/harness/src/turbo_agent_job.c 174-184 cancellation_read *)
Definition cancellation_valid (id : string) (revision : Z) (record : J) : salts_status :=
  let r := Some record in
  let rc :=
    if negb (bool_decide (json_type record = JSON_OBJECT)) then SALTS_EPROTO
    else
      let version := number r "schema_version" in
      if version =? 1 then SALTS_OK else if 0 <? version then SALTS_ENOTSUP else SALTS_EPROTO in
  let request := field_text r "request_id" 64 in
  if bool_decide (rc = SALTS_OK) &&
     (negb (json_object_size record =? 6) || negb (field_is r "kind" "job_cancellation") ||
      negb (field_is r "job_id" id) || negb (number r "job_revision" =? revision) ||
      negb (id_valid request 64) || bool_decide (field_text r "reason_ref" 1024 = None))
  then SALTS_EPROTO else rc.

(* src/harness/src/turbo_agent_job.c 167-188 cancellation_read *)
Definition cancellation_read (runtime : turbo_agent_runtime (W := W)) (id : string) (revision : Z)
  : io W J :=
  record ← turbo_agent_runtime_store_get_json_status (Some runtime) (Some CANCELLATIONS) (Some id);
  _ ← io_check (cancellation_valid id revision record);
  mret record.

(* src/harness/src/turbo_agent_job.c 190-196 turbo_agent_job_check_active *)
Definition turbo_agent_job_check_active (runtime : turbo_agent_runtime (W := W)) (id : string)
    (revision : Z) : io W unit :=
  result ← io_try (cancellation_read runtime id revision);
  match result with
  | inr SALTS_ENOENT => mret tt
  | inr rc => io_fail rc
  | inl _ => io_fail SALTS_ECANCELED
  end.

(** [out]: the caller gave a place for the answer. *)
(* src/harness/src/turbo_agent_job.c 198-209 turbo_agent_job_get_cancellation *)
Definition turbo_agent_job_get_cancellation (job : option turbo_agent_job) (out : bool) : io W J :=
  match out, job with
  | true, Some job =>
      head ← head_read job;
      cancellation_read (job_runtime job) (job_id job) (revision head)
  | _, _ => io_fail SALTS_EINVAL
  end.

Definition insert_record (job : turbo_agent_job) (collection id : string) (record : J) : io W unit :=
  turbo_agent_runtime_store_create_json_if_absent (Some (job_runtime job)) (Some collection)
    (Some id) (Some record).

(* src/harness/src/turbo_agent_job.c 222-229 turbo_agent_job_request_cancel *)
Definition cancellation_record (id : string) (expected : Z) (request reason : string) : mem J :=
  record ← create_object;
  build_record
    [set_int64 "schema_version" 1; set_string "kind" (Some "job_cancellation");
     set_string "job_id" (Some id); set_int64 "job_revision" expected;
     set_string "request_id" (Some request); set_string "reason_ref" (Some reason)] record.

(* src/harness/src/turbo_agent_job.c 211-233 turbo_agent_job_request_cancel *)
Definition turbo_agent_job_request_cancel (job : option turbo_agent_job) (expected : Z)
    (request reason : option string) : io W unit :=
  match job, request, reason with
  | Some job, Some req, Some why =>
      _ ← io_require (id_valid request 64 && text_valid reason 1024) SALTS_EINVAL;
      head ← head_read job;
      _ ← io_require (revision head =? expected) SALTS_EBUSY;
      record ← io_mem SALTS_ENOMEM (cancellation_record (job_id job) expected req why);
      insert_record job CANCELLATIONS (job_id job) record
  | _, _, _ => io_fail SALTS_EINVAL
  end.

(** ** Creating and opening *)

(* src/harness/src/turbo_agent_job.c 235-242 job_allocate *)
Definition job_allocate (runtime : turbo_agent_runtime (W := W)) (id : string) : mem turbo_agent_job :=
  create (mk_job runtime id).

(* src/harness/src/turbo_agent_job.c 258-263 turbo_agent_job_create *)
Definition descriptor_record (id goal criteria : string) : mem J :=
  record ← create_object;
  build_record
    [set_int64 "schema_version" TURBO_AGENT_JOB_SCHEMA_VERSION; set_string "id" (Some id);
     set_string "goal" (Some goal); set_string "acceptance_criteria" (Some criteria);
     set_int64 "max_revisions" TURBO_AGENT_JOB_MAX_REVISIONS] record.

(* src/harness/src/turbo_agent_job.c 244-269 turbo_agent_job_create *)
Definition turbo_agent_job_create (runtime : option (turbo_agent_runtime (W := W)))
    (id goal criteria : option string) (out_job : bool) : io W turbo_agent_job :=
  match out_job, runtime, id, goal, criteria with
  | true, Some runtime, Some i, Some g, Some c =>
      _ ← io_require (id_valid id 64 && text_valid goal 4096 && text_valid criteria 4096) SALTS_EINVAL;
      job ← io_mem SALTS_ENOMEM (job_allocate runtime i);
      _ ← history_absent job;
      record ← io_mem SALTS_ENOMEM (descriptor_record i g c);
      _ ← insert_record job JOBS i record;
      mret job
  | _, _, _, _, _ => io_fail SALTS_EINVAL
  end.

(* src/harness/src/turbo_agent_job.c 271-286 turbo_agent_job_open *)
Definition turbo_agent_job_open (runtime : option (turbo_agent_runtime (W := W)))
    (id : option string) (out_job : bool) : io W turbo_agent_job :=
  match out_job, runtime, id with
  | true, Some runtime, Some i =>
      _ ← io_require (id_valid id 64) SALTS_EINVAL;
      job ← io_mem SALTS_ENOMEM (job_allocate runtime i);
      _ ← head_read job;
      mret job
  | _, _, _ => io_fail SALTS_EINVAL
  end.

(** A member that is set when there is a value for it. *)
(* src/harness/src/turbo_agent_job.c 304-305 turbo_agent_job_get_snapshot *)
Definition set_clone_of (key : string) (value : option J) : list (setter J) :=
  match value with
  | Some v => [fun obj o => turbo_runtime_json_object_set_clone obj (Some key) (Some v) o]
  | None => []
  end.

(* src/harness/src/turbo_agent_job.c 302-303 turbo_agent_job_get_snapshot *)
Definition head_state (head : job_head) : string :=
  match binding head, proposal head with
  | Some _, _ => "attempt_bound"
  | None, Some _ => "proposed"
  | None, None => "created"
  end.

(* src/harness/src/turbo_agent_job.c 290-313 turbo_agent_job_get_snapshot *)
Definition turbo_agent_job_get_snapshot (job : option turbo_agent_job) (out : bool) : io W J :=
  match out, job with
  | true, Some job =>
      head ← head_read job;
      io_mem SALTS_ENOMEM
        (snapshot ← need (descriptor head);
         build_record
           ([set_int64 "revision" (revision head); set_string "state" (Some (head_state head))] ++
            set_clone_of "proposal" (proposal head) ++ set_clone_of "attempt" (binding head))
           snapshot)
  | _, _ => io_fail SALTS_EINVAL
  end.

(** ** Appending events *)

(* src/harness/src/turbo_agent_job.c 315-328 event_create *)
Definition event_create (id : string) (revision : Z) (kind : string) : mem J :=
  event ← create_object;
  build_record
    [set_int64 "schema_version" TURBO_AGENT_JOB_SCHEMA_VERSION; set_string "job_id" (Some id);
     set_int64 "revision" revision; set_int64 "previous_revision" (u32 (revision - 1));
     set_string "kind" (Some kind)] event.

(* src/harness/src/turbo_agent_job.c 330-340 append_admit *)
Definition append_admit (job : turbo_agent_job) (expected : Z) (for_binding : bool) : io W job_head :=
  head ← head_read job;
  _ ← io_require (revision head =? expected) SALTS_EBUSY;
  _ ← turbo_agent_job_check_active (job_runtime job) (job_id job) (revision head);
  _ ← io_require (negb (bool_decide (is_Some (binding head)) ||
                        (for_binding && bool_decide (proposal head = None)))) SALTS_EBUSY;
  _ ← io_require (negb (revision head =? TURBO_AGENT_JOB_MAX_REVISIONS)) SALTS_ENOSPC;
  mret head.

(** [source]: the bytes the caller passed with their number. *)
(* src/harness/src/turbo_agent_job.c 342-367 turbo_agent_job_propose *)
Definition turbo_agent_job_propose (job : option turbo_agent_job) (expected : Z)
    (source source_revision : option string) : io W unit :=
  match job, source, source_revision with
  | Some job, Some src, Some rev =>
      _ ← io_require (negb (strlen src =? 0) && (strlen src <=? TURBO_AGENT_JOB_MAX_SOURCE_BYTES) &&
                      bool_decide (ch_nul ∉ String.list_ascii_of_string src) &&
                      text_valid source_revision 128) SALTS_EINVAL;
      head ← append_admit job expected false;
      copy ← io_mem SALTS_ENOMEM (create src);
      event ← io_mem SALTS_ENOMEM
        (event ← event_create (job_id job) (u32 (expected + 1)) "proposal";
         build_record [set_string "source_json" (Some copy); set_string "source_revision" (Some rev)]
           event);
      insert_record job REVISIONS (revision_key (job_id job) (u32 (expected + 1))) event
  | _, _, _ => io_fail SALTS_EINVAL
  end.

(* src/harness/src/turbo_agent_job.c 369-389 turbo_agent_job_bind_compiled_inspect *)
Definition turbo_agent_job_bind_compiled_inspect (job : option turbo_agent_job) (expected : Z)
    (thread attempt : option string) : io W unit :=
  match job, thread, attempt with
  | Some job, Some th, Some att =>
      _ ← io_require (id_valid thread 80 && id_valid attempt 64) SALTS_EINVAL;
      head ← append_admit job expected true;
      event ← io_mem SALTS_ENOMEM
        (event ← event_create (job_id job) (u32 (expected + 1)) "attempt_bound";
         build_record
           [set_int64 "proposal_version" (number (proposal head) "revision");
            set_string "thread_id" (Some th); set_string "attempt_id" (Some att)] event);
      insert_record job REVISIONS (revision_key (job_id job) (u32 (expected + 1))) event
  | _, _, _ => io_fail SALTS_EINVAL
  end.

End job.
