(* ===== verification/AgentJobFacts.v ===== *)
(** * Properties of agent jobs

    A job as the abstract value it stands for, the records that store it, and
    the operations over any backend that keeps the promises of
    [RuntimeStoreLaws]: those that fail after they committed included. *)

From stdpp Require Import pretty.
From S2P Require Import Prelude RuntimeJson JsonBuild JsonMem JsonRecord RuntimeStore RuntimeStoreFacts AgentJob.

#[local] Open Scope string_scope.
#[local] Open Scope list_scope.
#[local] Open Scope Z_scope.

(** ** Abstract jobs *)

Definition bytes (s : string) : list Ascii.ascii := String.list_ascii_of_string s.

(** The letters of an identifier. *)
Definition alphabet : list Ascii.ascii :=
  bytes "abcdefghijklmnopqrstuvwxyzABCDEFGHIJKLMNOPQRSTUVWXYZ0123456789_-".

Definition text_ok (n : Z) (s : string) : Prop := 1 <= strlen s <= n /\ ch_nul ∉ bytes s.
Definition identifier (n : Z) (s : string) : Prop := 1 <= strlen s <= n /\ Forall (.∈ alphabet) (bytes s).

(** A goal, acceptance criteria, the proposals (source, source revision), then the
    attempt (thread, attempt) they led to, and a request (identifier, reason) to
    stop. *)
Record job_state : Type := mk_state {
  js_goal : string;
  js_criteria : string;
  js_proposals : list (string * string);
  js_binding : option (string * string);
  js_cancel : option (string * string)
}.

Definition js_revision (s : job_state) : Z :=
  Z.of_nat (length (js_proposals s)) + match js_binding s with Some _ => 1 | None => 0 end.

Definition proposal_ok (p : string * string) : Prop := text_ok 16384 p.1 /\ text_ok 128 p.2.
Definition binding_ok (b : string * string) : Prop := identifier 80 b.1 /\ identifier 64 b.2.
Definition cancel_ok (r : string * string) : Prop := identifier 64 r.1 /\ text_ok 1024 r.2.

Definition job_wf (s : job_state) : Prop :=
  text_ok 4096 (js_goal s) /\ text_ok 4096 (js_criteria s) /\ Forall proposal_ok (js_proposals s) /\
  (forall b, js_binding s = Some b -> binding_ok b /\ js_proposals s <> []) /\
  (forall r, js_cancel s = Some r -> cancel_ok r) /\ js_revision s <= 64.

(** ** Texts *)

Lemma bytes_app s t : bytes (s ++ t)%string = bytes s ++ bytes t.
Proof. induction s as [|c s IH]; [done|]. change (c :: bytes (s ++ t)%string = c :: bytes s ++ bytes t). by rewrite IH. Qed.

Lemma bytes_length s : strlen s = Z.of_nat (length (bytes s)).
Proof. unfold strlen. f_equal. induction s; cbn; [done|by f_equal]. Qed.

Lemma bytes_inj s t : bytes s = bytes t -> s = t.
Proof.
  intros Hst. rewrite <- (String.string_of_list_ascii_of_string s), <- (String.string_of_list_ascii_of_string t).
  unfold bytes in Hst. by rewrite Hst.
Qed.

Lemma c_string_plain s : ch_nul ∉ bytes s -> c_string s = s.
Proof.
  induction s as [|c s IH]; [done|]. cbn. rewrite not_elem_of_cons. intros [Hc Hs].
  rewrite decide_False by done. by rewrite IH.
Qed.

Lemma id_char_spec c : id_char c = bool_decide (c ∈ alphabet).
Proof. destruct c as [[] [] [] [] [] [] [] []]; vm_compute; reflexivity. Qed.

Lemma identifier_text n s : identifier n s -> text_ok n s.
Proof.
  intros [Hl Hs]. split; [done|]. intros Hin. rewrite Forall_forall in Hs. specialize (Hs _ Hin).
  apply (bool_decide_eq_true _) in Hs. rewrite <- id_char_spec in Hs. discriminate Hs.
Qed.

Lemma text_valid_spec n s : text_valid (Some s) n = bool_decide (1 <= strlen s <= n).
Proof. cbn. apply eq_true_iff_eq. rewrite andb_true_iff, bool_decide_eq_true. lia. Qed.

Lemma id_valid_spec n s : id_valid (Some s) n = bool_decide (identifier n s).
Proof.
  unfold id_valid, identifier. rewrite text_valid_spec. apply eq_true_iff_eq.
  rewrite andb_true_iff, !bool_decide_eq_true. apply and_iff_compat_l. fold (bytes s).
  rewrite forallb_forall, Forall_forall.
  split; intros Hall c Hc; specialize (Hall c); rewrite id_char_spec, bool_decide_eq_true in *;
    by apply Hall, list_elem_of_In.
Qed.

(** ** Keys *)

Lemma pad3_numeral : Forall (fun i => String.length (pad3 i) = 3%nat /\ decimal_value (pad3 i) = Some i)
  (seqZ 1 64).
Proof. apply (bool_decide_unpack _). vm_compute. exact I. Qed.

Lemma revision_key_inj id id' i i' : 1 <= i <= 64 -> 1 <= i' <= 64 ->
  revision_key id i = revision_key id' i' -> id = id' /\ i = i'.
Proof.
  intros Hi Hi' Heq. pose proof pad3_numeral as Hp. rewrite Forall_forall in Hp.
  destruct (Hp i) as [Hl Hd]; [apply elem_of_seqZ; lia|].
  destruct (Hp i') as [Hl' Hd']; [apply elem_of_seqZ; lia|].
  apply (f_equal bytes) in Heq. unfold revision_key in Heq. rewrite !bytes_app in Heq.
  assert (Hlen : length (bytes (pad3 i)) = length (bytes (pad3 i'))).
  { pose proof (bytes_length (pad3 i)). pose proof (bytes_length (pad3 i')). unfold strlen in *. lia. }
  apply app_inj_2 in Heq as [Hid Htail]; [|rewrite !length_app; lia].
  apply app_inj_1 in Htail as [_ Hpad]; [|done]. apply bytes_inj in Hid, Hpad. split; [done|].
  rewrite Hpad in Hd. congruence.
Qed.

(** ** Stored documents *)

Section documents.
Context {J : Type} `{JsonSetters J, !JsonLaws J, !JsonNewLaws J, !JsonRecordLaws J}.

Abbreviation fields := (list (string * J)).

Definition descriptor_doc (id : string) (s : job_state) : fields :=
  [("schema_version", json_create_int64 1); ("id", json_create_string id);
   ("goal", json_create_string (js_goal s));
   ("acceptance_criteria", json_create_string (js_criteria s));
   ("max_revisions", json_create_int64 64)].

Definition event_doc (id : string) (i : Z) (kind : string) : fields :=
  [("schema_version", json_create_int64 1); ("job_id", json_create_string id);
   ("revision", json_create_int64 i); ("previous_revision", json_create_int64 (i - 1));
   ("kind", json_create_string kind)].

Definition proposal_doc (id : string) (i : Z) (p : string * string) : fields :=
  event_doc id i "proposal" ++
  [("source_json", json_create_string p.1); ("source_revision", json_create_string p.2)].

Definition binding_doc (id : string) (i : Z) (b : string * string) : fields :=
  event_doc id i "attempt_bound" ++
  [("proposal_version", json_create_int64 (i - 1)); ("thread_id", json_create_string b.1);
   ("attempt_id", json_create_string b.2)].

Definition cancel_doc (id : string) (i : Z) (r : string * string) : fields :=
  [("schema_version", json_create_int64 1); ("kind", json_create_string "job_cancellation");
   ("job_id", json_create_string id); ("job_revision", json_create_int64 i);
   ("request_id", json_create_string r.1); ("reason_ref", json_create_string r.2)].

(** What the history holds at a revision. *)
Definition history_doc (id : string) (s : job_state) (i : Z) : option fields :=
  match js_proposals s !! Z.to_nat (i - 1) with
  | Some p => Some (proposal_doc id i p)
  | None => if decide (i = Z.of_nat (length (js_proposals s)) + 1)
            then binding_doc id i <$> js_binding s else None
  end.

(** ** Reading a document *)

Lemma field_text_of (v : J) kvs k s n : record_is v kvs -> assoc k kvs = Some (json_create_string s) ->
  text_ok n s -> field_text (Some v) k n = Some s.
Proof.
  intros Hv Hk [Hl Hs]. destruct (record_text v kvs k s Hv Hk) as (y & Hg & Hty & Hy).
  unfold field_text. cbn. rewrite Hg, Hty, Hy, c_string_plain by done.
  rewrite bool_decide_eq_true_2 by done. cbn [negb orb].
  by rewrite (proj2 (Z.ltb_ge _ _)), Z.eqb_refl, (proj2 (Z.ltb_lt _ _)) by lia.
Qed.

Lemma field_is_of (v : J) kvs k s t : record_is v kvs -> assoc k kvs = Some (json_create_string s) ->
  text_ok (strlen s) s -> field_is (Some v) k t = bool_decide (s = t).
Proof.
  intros Hv Hk Hs. unfold field_is. destruct (decide (s = t)) as [->|Hne].
  - rewrite (field_text_of v kvs k t) by done. by rewrite !bool_decide_eq_true_2.
  - rewrite !bool_decide_eq_false_2; [done..|]. intros Ht. apply Hne.
    destruct (record_text v kvs k s Hv Hk) as (y & Hg & Hty & Hy). revert Ht. unfold field_text. cbn.
    rewrite Hg, Hy, c_string_plain by apply Hs. by repeat case_match; intros [= ->].
Qed.

Lemma number_of (v : J) kvs k z : record_is v kvs -> assoc k kvs = Some (json_create_int64 z) ->
  -1 <= z <= 64 -> number (Some v) k = z.
Proof. intros Hv Hk Hz. unfold number. cbn. eapply record_number; [done..|]. unfold INT64_MIN, INT64_MAX. lia. Qed.

Lemma schema_of (v : J) kvs : record_is v kvs -> assoc "schema_version" kvs = Some (json_create_int64 1) ->
  schema_valid (Some v) = SALTS_OK.
Proof.
  intros Hv Hk. unfold schema_valid. cbn [has_type]. rewrite (record_type v kvs Hv), bool_decide_eq_true_2 by done.
  cbn [negb]. by rewrite (number_of v kvs _ 1) by (done || lia).
Qed.

Lemma size_of (v : J) kvs n : record_is v kvs -> NoDup kvs.*1 -> Z.of_nat (length kvs) = n ->
  json_object_size v = n.
Proof. intros Hv Hnd <-. by apply record_size. Qed.

End documents.

(** Every check of a record in the goal, by the members it has. *)
Ltac read_fields Hv :=
  repeat match goal with
    | |- context [field_text (Some ?v) ?k ?n] =>
        erewrite (field_text_of v _ k _ n Hv) by (reflexivity || assumption)
    | |- context [field_is (Some ?v) ?k ?t] =>
        erewrite (field_is_of v _ k _ t Hv) by (reflexivity || assumption)
    | |- context [number (Some ?v) ?k] =>
        erewrite (number_of v _ k _ Hv) by (reflexivity || lia)
    | |- context [json_object_size ?v] =>
        erewrite (size_of v _ _ Hv) by (reflexivity || (apply (bool_decide_unpack _); reflexivity))
    end.

Section jobs.
Context {J : Type} `{JsonSetters J, !JsonLaws J, !JsonNewLaws J, !JsonRecordLaws J}.
Context {W : Type} (store : turbo_agent_runtime_store W) `{!RuntimeStoreLaws store}.

Abbreviation fields := (list (string * J)).
Abbreviation contents_of := (gmap (string * string) string).

Lemma literal_ok (t : string) : bool_decide (text_ok (strlen t) t) = true -> text_ok (strlen t) t.
Proof. apply bool_decide_eq_true_1. Qed.

Lemma own_id n id : identifier n id -> text_ok (strlen id) id.
Proof. intros [Hl Hs]%identifier_text. split; [lia|done]. Qed.

(** ** The scan of the history *)

Lemma head_event_proposal id (head : job_head (J := J)) i (v : J) p :
  identifier 64 id -> proposal_ok p -> 1 <= i <= 64 -> binding head = None ->
  record_is v (proposal_doc id i p) ->
  head_event id false head i v = Some (mk_head (descriptor head) (Some v) None i).
Proof.
  intros Hid%own_id [Hsrc Hrev] Hi Hb Hv. pose proof (literal_ok "proposal" eq_refl) as Hk.
  unfold head_event, TURBO_AGENT_JOB_MAX_SOURCE_BYTES. rewrite Hb.
  read_fields Hv. by rewrite (bool_decide_eq_true_2 (id = id)), !Z.eqb_refl by done.
Qed.

Lemma head_event_binding id (head : job_head (J := J)) i (v q : J) b :
  identifier 64 id -> binding_ok b -> 1 <= i <= 64 -> binding head = None ->
  proposal head = Some q -> number (Some q) "revision" = i - 1 ->
  record_is v (binding_doc id i b) ->
  head_event id false head i v = Some (mk_head (descriptor head) (Some q) (Some v) i).
Proof.
  intros Hid%own_id [Hth Hat] Hi Hb Hq Hn Hv. pose proof (literal_ok "attempt_bound" eq_refl) as Hk.
  pose proof (identifier_text _ _ Hth) as Hth'. pose proof (identifier_text _ _ Hat) as Hat'.
  unfold head_event, TURBO_AGENT_JOB_MAX_SOURCE_BYTES. rewrite Hb, Hq, Hn.
  read_fields Hv. rewrite !id_valid_spec, (bool_decide_eq_true_2 (id = id)), !Z.eqb_refl by done.
  by rewrite (bool_decide_eq_true_2 (identifier 80 _)), (bool_decide_eq_true_2 (identifier 64 _)) by done.
Qed.

(** A key with its document, or with nothing. *)
Definition has (c : contents_of) (key : string * string) (d : option fields) : Prop :=
  match d with
  | Some d => exists v : J, holds c key v /\ record_is v d
  | None => c !! key = None
  end.

(** The records of a job. *)
Definition stored (id : string) (s : job_state) (c : contents_of) : Prop :=
  has c (JOBS, id) (Some (descriptor_doc id s)) /\
  (forall i, 1 <= i <= 64 -> has c (REVISIONS, revision_key id i) (history_doc id s i)) /\
  has c (CANCELLATIONS, id) (cancel_doc id (js_revision s) <$> js_cancel s).

Abbreviation job id := (mk_job store id).

Lemma slot_event c id gap (head head' : job_head (J := J)) i (v : J) d :
  holds c (REVISIONS, revision_key id i) v -> record_is v d ->
  assoc "schema_version" d = Some (json_create_int64 1) ->
  head_event id gap head i v = Some head' ->
  tells store (head_slot (job id) (gap, head) i) c (inl (gap, head')).
Proof.
  intros Hh Hv Hs He. unfold head_slot, read_record. cbn [job_runtime job_id].
  eapply tells_try; [by apply tells_held| |by intros [] []].
  cbv beta iota. eapply tells_bind; [rewrite (schema_of v d Hv Hs); apply tells_ret|].
  rewrite He. apply tells_ret.
Qed.

Lemma slot_empty c id gap (head : job_head (J := J)) i :
  c !! (REVISIONS, revision_key id i) = None ->
  tells store (head_slot (job id) (gap, head) i) c (inl (true, head)).
Proof.
  intros Hn. unfold head_slot, read_record. cbn [job_runtime job_id].
  eapply tells_try; [by apply tells_absent| |by intros [] []]. apply tells_ret.
Qed.

Lemma tells_fold_app {A S} (f : S -> A -> io W S) l1 l2 s s1 c y :
  tells store (io_fold f l1 s) c (inl s1) -> tells store (io_fold f l2 s1) c y ->
  tells store (io_fold f (l1 ++ l2) s) c y.
Proof.
  intros H1 H2. assert (Heq : forall w o, io_fold f (l1 ++ l2) s w o = (io_fold f l1 s ≫= io_fold f l2) w o).
  { clear. revert s. induction l1 as [|x l1 IH]; intros s w o; [done|]. cbn [io_fold app].
    unfold mbind, io_bind in *. destruct (f s x w o) as [[[s2|st] w1] o1]; [by rewrite IH|done]. }
  intros w o Hc. rewrite Heq. by apply (tells_bind _ _ _ _ _ _ H1 H2).
Qed.

Lemma tells_fold_one {A S} (f : S -> A -> io W S) x s c y :
  tells store (f s x) c (inl y) -> tells store (io_fold f [x] s) c (inl y).
Proof. intros Hx. cbn [io_fold]. eapply tells_bind; [exact Hx|]. apply tells_ret. Qed.

(** The proposals, one slot each. *)
Lemma scan_proposals c id d ps : identifier 64 id -> Forall proposal_ok ps -> Z.of_nat (length ps) <= 64 ->
  (forall i p, ps !! i = Some p ->
     has c (REVISIONS, revision_key id (Z.of_nat i + 1)) (Some (proposal_doc id (Z.of_nat i + 1) p))) ->
  exists q : option J,
    tells store (io_fold (head_slot (job id)) (seqZ 1 (Z.of_nat (length ps))) (false, mk_head d None None 0)) c
      (inl (false, mk_head d q None (Z.of_nat (length ps)))) /\
    match last ps with
    | Some p => exists v, q = Some v /\ record_is v (proposal_doc id (Z.of_nat (length ps)) p)
    | None => q = None
    end.
Proof.
  intros Hid. induction ps as [|p ps IH] using rev_ind; intros Hok Hlen Hps.
  - exists None. split; [apply tells_ret|done].
  - apply Forall_app in Hok as [Hok Hp]. apply Forall_inv in Hp. rewrite length_app in Hlen |- *.
    cbn [length] in *. destruct IH as (q & Hq & _); [done|lia|intros i p' Hi; apply Hps; by apply lookup_app_l_Some|].
    destruct (Hps (length ps) p) as (v & Hh & Hv); [by rewrite list_lookup_middle|].
    exists (Some v). rewrite last_snoc. replace (length ps + 1)%nat with (S (length ps)) by lia.
    rewrite seqZ_S. replace (1 + Z.of_nat (length ps)) with (Z.of_nat (length ps) + 1) by lia.
    replace (Z.of_nat (S (length ps))) with (Z.of_nat (length ps) + 1) by lia.
    split; [|by exists v]. eapply tells_fold_app; [exact Hq|]. apply tells_fold_one.
    eapply slot_event; [done|exact Hv|reflexivity|]. by rewrite (head_event_proposal id _ _ v p) by (done || lia).
Qed.

(** The slots behind the history. *)
Lemma scan_gap c id (head : job_head (J := J)) l : forall gap,
  Forall (fun i => c !! (REVISIONS, revision_key id i) = None) l ->
  exists gap', tells store (io_fold (head_slot (job id)) l (gap, head)) c (inl (gap', head)).
Proof.
  induction l as [|i l IH]; intros gap Hl; [exists gap; apply tells_ret|].
  apply Forall_cons in Hl as [Hi Hl]. destruct (IH true Hl) as [gap' Hg]. exists gap'.
  cbn [io_fold]. eapply tells_bind; [by apply slot_empty|exact Hg].
Qed.

(** ** The head *)

Definition doc_is (v : option J) (d : option fields) : Prop :=
  match d with
  | Some d => exists j, v = Some j /\ record_is j d
  | None => v = None
  end.

Definition head_of (id : string) (s : job_state) (head : job_head (J := J)) : Prop :=
  let n := Z.of_nat (length (js_proposals s)) in
  revision head = js_revision s /\
  doc_is (descriptor head) (Some (descriptor_doc id s)) /\
  doc_is (proposal head) (proposal_doc id n <$> last (js_proposals s)) /\
  doc_is (binding head) (binding_doc id (n + 1) <$> js_binding s).

Lemma history_proposal id s i p : js_proposals s !! i = Some p ->
  history_doc (J := J) id s (Z.of_nat i + 1) = Some (proposal_doc id (Z.of_nat i + 1) p).
Proof. intros Hp. unfold history_doc. by replace (Z.to_nat (Z.of_nat i + 1 - 1)) with i by lia; rewrite Hp. Qed.

Lemma history_binding id s :
  history_doc (J := J) id s (Z.of_nat (length (js_proposals s)) + 1) =
  binding_doc id (Z.of_nat (length (js_proposals s)) + 1) <$> js_binding s.
Proof.
  unfold history_doc. rewrite lookup_ge_None_2 by lia. by rewrite decide_True by lia.
Qed.

Lemma history_beyond id s i : js_revision s < i -> history_doc (J := J) id s i = None.
Proof.
  unfold js_revision, history_doc. intros Hi. rewrite lookup_ge_None_2 by (destruct (js_binding s); lia).
  case_decide as Hd; [|done]. destruct (js_binding s); [lia|done].
Qed.

Lemma empty_slots id s c k : stored id s c -> js_revision s < k -> 1 <= k ->
  Forall (fun i => c !! (REVISIONS, revision_key id i) = None) (seqZ k (65 - k)).
Proof.
  intros (_ & Hh & _) Hk Hk1. apply Forall_forall. intros i Hi%elem_of_seqZ.
  specialize (Hh i ltac:(lia)). by rewrite history_beyond in Hh by lia.
Qed.

(** What follows the proposals. *)
Lemma scan_rest id s c d q : identifier 64 id -> job_wf s -> stored id s c ->
  let n := Z.of_nat (length (js_proposals s)) in
  doc_is q (proposal_doc id n <$> last (js_proposals s)) ->
  exists gap head, tells store (io_fold (head_slot (job id)) (seqZ (1 + n) (64 - n))
    (false, mk_head d q None n)) c (inl (gap, head)) /\
    revision head = js_revision s /\ descriptor head = d /\ proposal head = q /\
    doc_is (binding head) (binding_doc id (n + 1) <$> js_binding s).
Proof.
  intros Hid (_ & _ & _ & Hb & _ & Hr) Hs n Hq. pose proof (empty_slots id s c) as Hempty.
  unfold js_revision in *. fold n in Hr, Hempty |- *. destruct (js_binding s) as [b|] eqn:Eb.
  - destruct (Hb b eq_refl) as [Hbok Hne]. destruct (last (js_proposals s)) as [p|] eqn:Elast; cbn in Hq;
      [|by apply last_None in Elast]. destruct Hq as (v & -> & Hv).
    pose proof (history_binding id s) as Hhb. fold n in Hhb. rewrite Eb in Hhb. cbn in Hhb.
    destruct Hs as (Hd & Hh & Hc). pose proof (Hh (n + 1) ltac:(lia)) as Hw. rewrite Hhb in Hw.
    destruct Hw as (w & Hw & Hwd).
    destruct (scan_gap c id (mk_head d (Some v) (Some w) (n + 1)) (seqZ (n + 2) (63 - n)) false) as [gap Hg].
    { replace (63 - n) with (65 - (n + 2)) by lia. apply Hempty; [done|lia..]. }
    exists gap, (mk_head d (Some v) (Some w) (n + 1)). split; [|by split_and!; [..|exists w]].
    rewrite seqZ_cons by lia. cbn [io_fold]. replace (Z.succ (1 + n)) with (n + 2) by lia.
    replace (Z.pred (64 - n)) with (63 - n) by lia. replace (1 + n) with (n + 1) by lia.
    eapply tells_bind; [|exact Hg]. eapply slot_event; [done|exact Hwd|reflexivity|].
    rewrite (head_event_binding id _ _ w v b); [done..|lia|done|done| |done].
    rewrite (number_of v _ _ n Hv); [lia|reflexivity|lia].
  - destruct (scan_gap c id (mk_head d q None n) (seqZ (1 + n) (64 - n)) false) as [gap Hg].
    { replace (64 - n) with (65 - (1 + n)) by lia. apply Hempty; [done|lia..]. }
    exists gap, (mk_head d q None n). split; [exact Hg|]. by split_and!; [cbn; lia|..].
Qed.

Lemma descriptor_check id s (v : J) : identifier 64 id -> job_wf s -> record_is v (descriptor_doc id s) ->
  descriptor_valid id v = true.
Proof.
  intros Hid%own_id (Hg & Hc & _) Hv. unfold descriptor_valid, TURBO_AGENT_JOB_MAX_REVISIONS.
  read_fields Hv. by rewrite (bool_decide_eq_true_2 (id = id)) by done.
Qed.

(** The head is read from any well-formed history, or a fault is reported. *)
Lemma head_read_tells id s c : identifier 64 id -> job_wf s -> stored id s c ->
  exists head, head_of id s head /\ tells store (head_read (job id)) c (inl head).
Proof.
  intros Hid Hwf Hs. pose proof Hwf as (_ & _ & Hps & _ & _ & Hr). pose proof Hs as ((v & Hh & Hv) & Hev & _).
  set (n := Z.of_nat (length (js_proposals s))).
  assert (Hn : 0 <= n <= 64) by (unfold js_revision in Hr; fold n in Hr; destruct (js_binding s); lia).
  destruct (scan_proposals c id (Some v) (js_proposals s)) as (q & Hq & Hlast); [done|done|lia| |].
  { intros i p Hp. rewrite <- (history_proposal id s i p Hp). apply Hev. apply lookup_lt_Some in Hp. lia. }
  assert (Hq' : doc_is q (proposal_doc id n <$> last (js_proposals s))) by by destruct (last (js_proposals s)).
  destruct (scan_rest id s c (Some v) q Hid Hwf Hs Hq') as (gap & head & Hscan & Hrev & Hd & Hp & Hb).
  exists head. split.
  - split_and!; [done| |by rewrite Hp|done]. rewrite Hd. by exists v.
  - unfold head_read, read_record. cbn [job_runtime job_id]. eapply tells_bind; [by apply tells_held|].
    eapply tells_bind; [rewrite (schema_of v _ Hv eq_refl); apply tells_ret|].
    eapply tells_bind; [rewrite (descriptor_check id s v Hid Hwf Hv); apply tells_ret|].
    eapply (tells_bind _ _ _ _ (gap, head)); [|apply tells_ret].
    replace (seqZ 1 TURBO_AGENT_JOB_MAX_REVISIONS) with (seqZ 1 n ++ seqZ (1 + n) (64 - n)).
    + eapply tells_fold_app; [exact Hq|exact Hscan].
    + rewrite <- seqZ_app by lia. f_equal. unfold TURBO_AGENT_JOB_MAX_REVISIONS. lia.
Qed.

(** ** Cancellation *)

Lemma cancellation_check id i r (v : J) : identifier 64 id -> cancel_ok r -> 0 <= i <= 64 ->
  record_is v (cancel_doc id i r) -> cancellation_valid id i v = SALTS_OK.
Proof.
  intros Hid%own_id [Hreq Hwhy] Hi Hv. pose proof (literal_ok "job_cancellation" eq_refl) as Hk.
  pose proof (identifier_text _ _ Hreq) as Hreq'. unfold cancellation_valid.
  rewrite (record_type v _ Hv). read_fields Hv.
  rewrite id_valid_spec, (bool_decide_eq_true_2 (id = id)), !Z.eqb_refl by done.
  by rewrite (bool_decide_eq_true_2 (identifier 64 _)) by done.
Qed.

Lemma cancellation_tells id s c : identifier 64 id -> job_wf s -> stored id s c ->
  match js_cancel s with
  | None => tells store (cancellation_read (J := J) store id (js_revision s)) c (inr SALTS_ENOENT)
  | Some r => exists v, record_is v (cancel_doc id (js_revision s) r) /\
      tells store (cancellation_read store id (js_revision s)) c (inl v)
  end.
Proof.
  intros Hid (_ & _ & _ & _ & Hcan & Hr) (_ & _ & Hs). destruct (js_cancel s) as [r|].
  - destruct Hs as (v & Hh & Hv). exists v. split; [done|]. unfold cancellation_read.
    eapply tells_bind; [by apply tells_held|]. eapply tells_bind; [|apply tells_ret].
    rewrite (cancellation_check id _ r v Hid) by (auto || unfold js_revision in *; destruct (js_binding s); lia).
    apply tells_ret.
  - apply tells_bind_fail. by apply tells_absent.
Qed.

Lemma check_active_tells id s c : identifier 64 id -> job_wf s -> stored id s c ->
  tells store (turbo_agent_job_check_active store id (js_revision s)) c
    (match js_cancel s with None => inl tt | Some _ => inr SALTS_ECANCELED end).
Proof.
  intros Hid Hwf Hs. pose proof (cancellation_tells id s c Hid Hwf Hs) as Hc.
  unfold turbo_agent_job_check_active. destruct (js_cancel s) as [r|].
  - destruct Hc as (v & _ & Hc). eapply tells_try; [exact Hc|apply tells_fail|by intros [] []].
  - eapply tells_try; [exact Hc|apply tells_ret|by intros [] []].
Qed.

(** ** Admission of an event *)

Definition admits (s : job_state) (expected : Z) (for_binding : bool) : salts_status :=
  if decide (js_revision s = expected) then
    match js_cancel s, js_binding s, js_proposals s, for_binding with
    | Some _, _, _, _ => SALTS_ECANCELED
    | None, Some _, _, _ => SALTS_EBUSY
    | None, None, [], true => SALTS_EBUSY
    | None, None, _, _ => if decide (js_revision s = 64) then SALTS_ENOSPC else SALTS_OK
    end
  else SALTS_EBUSY.

Lemma tells_require (ok : bool) st c : fault st ->
  tells store (io_require ok st) c (if ok then inl tt else inr st).
Proof. intros Hst. destruct ok; [apply tells_ret|apply tells_fail]. Qed.

Lemma admit_tells id s c expected fb : identifier 64 id -> job_wf s -> stored id s c ->
  exists head, head_of id s head /\ tells store (append_admit (job id) expected fb) c
    (match admits s expected fb with SALTS_OK => inl head | st => inr st end).
Proof.
  intros Hid Hwf Hs. destruct (head_read_tells id s c Hid Hwf Hs) as (head & Hhead & Hread).
  exists head. split; [done|]. destruct Hhead as (Hr & _ & Hp & Hb).
  unfold append_admit, admits, TURBO_AGENT_JOB_MAX_REVISIONS.
  eapply tells_bind; [exact Hread|]. rewrite Hr. pose proof (check_active_tells id s c Hid Hwf Hs) as Hact.
  case_decide as He; [rewrite (proj2 (Z.eqb_eq _ _) He)|rewrite (proj2 (Z.eqb_neq _ _) He);
    apply tells_bind_fail, tells_fail].
  eapply tells_bind; [apply tells_ret|]. cbn [job_runtime job_id].
  destruct (js_cancel s) as [r|]; [by apply tells_bind_fail|]. eapply tells_bind; [exact Hact|].
  destruct (js_binding s) as [b|]; cbn in Hb; [destruct Hb as (w & -> & _); apply tells_bind_fail, tells_fail|].
  rewrite Hb. rewrite last_lookup in Hp.
  destruct (js_proposals s) as [|p ps] eqn:Ep.
  - cbn in Hp. rewrite Hp. destruct fb; [apply tells_bind_fail, tells_fail|].
    eapply tells_bind; [apply tells_ret|]. case_decide as H64.
    + rewrite (proj2 (Z.eqb_eq _ _) H64). apply tells_bind_fail, tells_fail.
    + rewrite (proj2 (Z.eqb_neq _ _) H64). eapply tells_bind; apply tells_ret.
  - destruct ((p :: ps) !! pred (length (p :: ps))) as [p'|] eqn:El; cbn in Hp;
      [|apply lookup_ge_None in El; cbn in El; lia]. destruct Hp as (v & -> & _).
    assert (Hgo : negb (bool_decide (is_Some (None : option J)) || fb && bool_decide (Some v = None)) = true)
      by by destruct fb.
    rewrite Hgo.
    eapply tells_bind; [apply tells_ret|]. case_decide as H64.
    + rewrite (proj2 (Z.eqb_eq _ _) H64). apply tells_bind_fail, tells_fail.
    + rewrite (proj2 (Z.eqb_neq _ _) H64). eapply tells_bind; apply tells_ret.
Qed.

(** ** Writing records *)

Lemma has_insert c key (d : fields) : has (<[key := json_serialize (object_of d)]> c) key (Some d).
Proof. apply holds_insert. Qed.

Lemma has_insert_ne c key key' t d : key <> key' -> has c key' d -> has (<[key := t]> c) key' d.
Proof. intros Hne. destruct d as [d|]; cbn; unfold holds; by rewrite lookup_insert_ne. Qed.

Lemma event_builds id i kind fs (kvs : fields) : Forall2 adds fs kvs -> 1 <= i <= 64 ->
  builds (event ← event_create id i kind; build_record fs event) (object_of (event_doc id i kind ++ kvs)).
Proof.
  intros Hfs Hi. eapply builds_bind.
  - apply (new_record_builds _ (event_doc id i kind)). rewrite u32_small by (unfold UINT_MAX; lia).
    builds_fields.
  - unfold object_of at 2. rewrite foldl_app. apply build_record_builds; [done|apply object_of_type].
Qed.

(** The keys of a job's records. *)
Definition job_key (id : string) (key : string * string) : Prop :=
  key = (JOBS, id) \/ key = (CANCELLATIONS, id) \/ exists i, 1 <= i <= 64 /\ key = (REVISIONS, revision_key id i).

(** The job after a new event. *)
Definition add_proposal (s : job_state) (p : string * string) : job_state :=
  mk_state (js_goal s) (js_criteria s) (js_proposals s ++ [p]) (js_binding s) (js_cancel s).
Definition add_binding (s : job_state) (b : string * string) : job_state :=
  mk_state (js_goal s) (js_criteria s) (js_proposals s) (Some b) (js_cancel s).
Definition add_cancel (s : job_state) (r : string * string) : job_state :=
  mk_state (js_goal s) (js_criteria s) (js_proposals s) (js_binding s) (Some r).

Lemma stored_event id s s' c (d : fields) : stored id s c -> js_revision s < 64 ->
  js_goal s' = js_goal s -> js_criteria s' = js_criteria s -> js_cancel s = None -> js_cancel s' = None ->
  (forall i, 1 <= i -> history_doc id s' i = if decide (i = js_revision s + 1) then Some d else history_doc id s i) ->
  stored id s' (<[(REVISIONS, revision_key id (js_revision s + 1)) := json_serialize (object_of d)]> c).
Proof.
  intros (Hd & Hh & Hc) Hr Hg Hcr Hcan Hcan' Hdoc. assert (Hr0 : 0 <= js_revision s) by (unfold js_revision; destruct (js_binding s); lia).
  split_and!.
  - apply has_insert_ne; [done|]. unfold descriptor_doc in *. by rewrite Hg, Hcr.
  - intros i Hi. rewrite Hdoc by lia. case_decide as Heq; [subst i; apply has_insert|].
    apply has_insert_ne; [|by apply Hh]. intros [= Hk%revision_key_inj]; [|lia..]. by destruct Hk.
  - apply has_insert_ne; [done|]. rewrite Hcan'. by rewrite Hcan in Hc.
Qed.

Lemma history_add_proposal id s p i : js_binding s = None -> 1 <= i ->
  history_doc (J := J) id (add_proposal s p) i =
  if decide (i = js_revision s + 1) then Some (proposal_doc id (js_revision s + 1) p) else history_doc id s i.
Proof.
  intros Hb Hi. unfold history_doc, js_revision. cbn [add_proposal js_proposals js_binding]. rewrite Hb, length_app.
  cbn [length]. destruct (decide (i = Z.of_nat (length (js_proposals s)) + 0 + 1)) as [Heq|Heq].
  - subst i. replace (Z.to_nat _) with (length (js_proposals s)) by lia. rewrite list_lookup_middle by done.
    by rewrite Z.add_0_r.
  - destruct (decide (i <= Z.of_nat (length (js_proposals s)))).
    + rewrite lookup_app_l by lia. destruct (js_proposals s !! Z.to_nat (i - 1)) eqn:El; [done|].
      apply lookup_ge_None in El. lia.
    + rewrite (lookup_ge_None_2 (js_proposals s ++ [p])) by (rewrite length_app; cbn; lia).
      rewrite (lookup_ge_None_2 (js_proposals s)) by lia. cbn. by repeat case_decide.
Qed.

Lemma history_add_binding id s b i : js_binding s = None -> 1 <= i ->
  history_doc (J := J) id (add_binding s b) i =
  if decide (i = js_revision s + 1) then Some (binding_doc id (js_revision s + 1) b) else history_doc id s i.
Proof.
  intros Hb Hi. unfold history_doc, js_revision. cbn [add_binding js_proposals js_binding]. rewrite Hb, Z.add_0_r.
  destruct (decide (i = Z.of_nat (length (js_proposals s)) + 1)) as [Heq|Heq].
  - subst i. by rewrite lookup_ge_None_2 by lia.
  - destruct (js_proposals s !! _); done.
Qed.

Lemma stored_cancel id s c r : stored id s c ->
  stored id (add_cancel s r)
    (<[(CANCELLATIONS, id) := json_serialize (object_of (cancel_doc id (js_revision s) r))]> c).
Proof.
  intros (Hd & Hh & Hc). split_and!.
  - by apply has_insert_ne.
  - intros i Hi. apply has_insert_ne; [done|]. by apply Hh.
  - apply has_insert.
Qed.

End jobs.
