(* ===== verification/AgentJobSpec.v ===== *)
(** * What agent jobs promise

    The requests of a job as steps of its abstract state, and the refinement: the
    operations, over any backend and any memory, follow the abstract job, even
    when an operation that failed had committed. *)

From S2P Require Import Prelude RuntimeJson JsonBuild JsonMem JsonRecord RuntimeStore RuntimeStoreFacts AgentJob AgentJobFacts.

#[local] Open Scope string_scope.
#[local] Open Scope list_scope.
#[local] Open Scope Z_scope.

#[local] Abbreviation contents_of := (gmap (string * string) string).

#[global] Instance text_ok_dec n s : Decision (text_ok n s) := and_dec _ _.
#[global] Instance identifier_dec n s : Decision (identifier n s) := and_dec _ _.
#[global] Instance proposal_ok_dec p : Decision (proposal_ok p) := and_dec _ _.
#[global] Instance binding_ok_dec b : Decision (binding_ok b) := and_dec _ _.
#[global] Instance cancel_ok_dec r : Decision (cancel_ok r) := and_dec _ _.

(** ** Requests *)

Inductive job_request : Type :=
| RequestPropose (expected : Z) (source source_revision : option string)
| RequestBind (expected : Z) (thread attempt : option string)
| RequestCancel (expected : Z) (request reason : option string).

(** Arguments that are C strings end at their NUL. *)
Definition c_argument (s : option string) : Prop :=
  match s with Some s => ch_nul ∉ bytes s | None => True end.

#[global] Instance c_argument_dec s : Decision (c_argument s).
Proof. destruct s; apply _. Defined.

Definition c_arguments (r : job_request) : Prop :=
  match r with
  | RequestPropose _ _ rev => c_argument rev
  | RequestBind _ th att => c_argument th /\ c_argument att
  | RequestCancel _ req why => c_argument req /\ c_argument why
  end.

(** The status a request deserves and the job it leaves. *)
Definition job_spec (s : job_state) (r : job_request) : salts_status * job_state :=
  match r with
  | RequestPropose e (Some src) (Some rev) =>
      if decide (proposal_ok (src, rev)) then
        match admits s e false with SALTS_OK => (SALTS_OK, add_proposal s (src, rev)) | st => (st, s) end
      else (SALTS_EINVAL, s)
  | RequestBind e (Some th) (Some att) =>
      if decide (binding_ok (th, att)) then
        match admits s e true with SALTS_OK => (SALTS_OK, add_binding s (th, att)) | st => (st, s) end
      else (SALTS_EINVAL, s)
  | RequestCancel e (Some req) (Some why) =>
      if decide (cancel_ok (req, why)) then
        if decide (js_revision s = e) then
          match js_cancel s with
          | None => (SALTS_OK, add_cancel s (req, why))
          | Some _ => (SALTS_EALREADY, s)
          end
        else (SALTS_EBUSY, s)
      else (SALTS_EINVAL, s)
  | _ => (SALTS_EINVAL, s)
  end.

(** A new job. *)
Definition new_job (goal criteria : string) : job_state := mk_state goal criteria [] None None.

(** ** Well-formedness *)

Lemma admits_ok s e fb : admits s e fb = SALTS_OK ->
  js_revision s = e /\ js_cancel s = None /\ js_binding s = None /\ js_revision s <> 64 /\
  (fb = true -> js_proposals s <> []).
Proof.
  unfold admits. case_decide as He; [|done]. destruct (js_cancel s), (js_binding s); try done.
  destruct (js_proposals s) as [|p ps], fb; try done; case_decide; try done; by split_and!.
Qed.

Lemma wf_proposal s p : job_wf s -> proposal_ok p -> js_binding s = None -> js_revision s <> 64 ->
  job_wf (add_proposal s p).
Proof.
  intros (Hg & Hc & Hp & Hb & Hcan & Hr) Hok Hnb Hne. split_and!; try done.
  - cbn. apply Forall_app. auto.
  - cbn. rewrite Hnb. done.
  - unfold js_revision in *. cbn. rewrite Hnb in *. rewrite length_app. cbn. lia.
Qed.

Lemma wf_binding s b : job_wf s -> binding_ok b -> js_proposals s <> [] -> js_binding s = None ->
  js_revision s <> 64 -> job_wf (add_binding s b).
Proof.
  intros (Hg & Hc & Hp & Hb & Hcan & Hr) Hok Hps Hnb Hne. split_and!; try done.
  - intros b' [= <-]. done.
  - unfold js_revision in *. cbn. rewrite Hnb in *. lia.
Qed.

Lemma wf_cancel s r : job_wf s -> cancel_ok r -> job_wf (add_cancel s r).
Proof. intros (Hg & Hc & Hp & Hb & Hcan & Hr) Hok. split_and!; try done. by intros r' [= <-]. Qed.

Lemma revision_range s : job_wf s -> 0 <= js_revision s <= 64.
Proof. intros (_ & _ & _ & _ & _ & Hr). unfold js_revision in *. destruct (js_binding s); lia. Qed.

Lemma job_spec_wf s r : job_wf s -> job_wf (job_spec s r).2.
Proof.
  intros Hwf. destruct r as [e [src|] [rev|]|e [th|] [att|]|e [req|] [why|]]; cbn; try done; case_decide; try done.
  - destruct (admits s e false) eqn:E; try done. apply admits_ok in E as (_ & _ & Hb & Hr & _). by apply wf_proposal.
  - destruct (admits s e true) eqn:E; try done. apply admits_ok in E as (_ & _ & Hb & Hr & Hp).
    apply wf_binding; auto.
  - case_decide; [|done]. destruct (js_cancel s); [done|]. by apply wf_cancel.
Qed.

(** ** One request *)

Section requests.
Context {J : Type} `{JsonSetters J, !JsonLaws J, !JsonNewLaws J, !JsonRecordLaws J}.
Context {W : Type} (store : turbo_agent_runtime_store W) `{!RuntimeStoreLaws store}.

Definition handle (job : turbo_agent_job (W := W)) (r : job_request) : io W unit :=
  match r with
  | RequestPropose e src rev => turbo_agent_job_propose (Some job) e src rev
  | RequestBind e th att => turbo_agent_job_bind_compiled_inspect (Some job) e th att
  | RequestCancel e req why => turbo_agent_job_request_cancel (Some job) e req why
  end.

(** The result of a call that answers a status. *)
Definition answer (st : salts_status) : unit + salts_status :=
  match st with SALTS_OK => inl tt | st => inr st end.

(** What the call leaves: a job record where the specification adds one. *)
Definition follows (id : string) (s' : job_state) (c c' : contents_of) : Prop :=
  stored (J := J) id s' c' /\ forall key, ~ job_key id key -> c' !! key = c !! key.

Lemma follows_same id s c : stored (J := J) id s c -> follows id s c c.
Proof. by split. Qed.

Lemma follows_insert id s' c key t : job_key id key -> stored (J := J) id s' (<[key := t]> c) ->
  follows id s' c (<[key := t]> c).
Proof. intros Hkey Hs. split; [done|]. intros key' Hn. apply lookup_insert_ne. by intros ->. Qed.

Abbreviation job id := (mk_job store id).

Lemma refused (m : io W unit) id s c st : tells store m c (inr st) -> st <> SALTS_OK ->
  stored (J := J) id s c -> exists c', commits store m c (answer st) c' /\ follows id s c c'.
Proof.
  intros Hm Hst Hs. exists c. split; [|by apply follows_same]. replace (answer st) with (inr st : unit + salts_status) by by destruct st.
  apply commits_tells; [done|]. by intros [= ?].
Qed.

Lemma einval (m : io W unit) id s c : m = io_fail SALTS_EINVAL -> stored (J := J) id s c ->
  exists c', commits store m c (answer SALTS_EINVAL) c' /\ follows id s c c'.
Proof. intros -> Hs. apply refused; [apply tells_fail|done|done]. Qed.

(** An event: admitted, built, inserted. *)
Lemma commits_event id s s' c expected fb (k : job_head (J := J) -> io W unit) (d : job_head (J := J) -> list (string * J)) :
  identifier 64 id -> job_wf s -> stored id s c ->
  (forall head, head_of id s head -> admits s expected fb = SALTS_OK ->
     forall c', commits store
       (insert_record (job id) REVISIONS (revision_key id (js_revision s + 1)) (object_of (d head))) c (inl tt) c' ->
     commits store (k head) c (inl tt) c') ->
  (forall head, head_of id s head -> admits s expected fb = SALTS_OK ->
     stored id s' (<[(REVISIONS, revision_key id (js_revision s + 1)) := json_serialize (object_of (d head))]> c)) ->
  let (st, s2) := match admits s expected fb with SALTS_OK => (SALTS_OK, s') | st => (st, s) end in
  exists c', commits store (append_admit (job id) expected fb ≫= k) c (answer st) c' /\ follows id s2 c c'.
Proof.
  intros Hid Hwf Hs Hk Hst. destruct (admit_tells store id s c expected fb Hid Hwf Hs) as (head & Hh & Ht).
  destruct (admits s expected fb) eqn:Ea; try (apply refused; [by apply tells_bind_fail|done|done]).
  specialize (Hk head Hh eq_refl). pose proof (Hst head Hh eq_refl) as Hs'.
  pose proof (revision_range s Hwf) as Hr. apply admits_ok in Ea as (_ & _ & Hb & Hne & _).
  eexists. split; [|apply follows_insert; [right; right; exists (js_revision s + 1); split; [lia|done]|exact Hs']].
  eapply commits_bind; [exact Ht|]. apply Hk, commits_insert. pose proof (proj1 (proj2 Hs) (js_revision s + 1) ltac:(lia)) as Hn.
  by rewrite history_beyond in Hn by lia.
Qed.

Lemma checked (ok : bool) (P : Prop) `{Decision P} (k : io W unit) id s c st s2 :
  ok = bool_decide P -> stored (J := J) id s c ->
  (P -> exists c', commits store k c (answer st) c' /\ follows id s2 c c') ->
  let (st', s') := if decide P then (st, s2) else (SALTS_EINVAL, s) in
  exists c', commits store (_ ← io_require ok SALTS_EINVAL; k) c (answer st') c' /\ follows id s' c c'.
Proof.
  intros -> Hs Hk. destruct (decide P) as [HP|HP].
  - destruct (Hk HP) as (c' & Hc & Hf). exists c'. split; [|done].
    eapply commits_bind; [rewrite bool_decide_eq_true_2 by done; apply tells_ret|done].
  - apply refused; [|done|done]. apply tells_bind_fail. rewrite bool_decide_eq_false_2 by done. apply tells_fail.
Qed.

Lemma c_text n s : ch_nul ∉ bytes s -> text_valid (Some s) n = bool_decide (text_ok n s).
Proof. intros Hs. rewrite text_valid_spec. apply bool_decide_ext. split; [by split|by intros [? _]]. Qed.

Lemma proposal_args src rev : ch_nul ∉ bytes rev ->
  negb (strlen src =? 0) && (strlen src <=? TURBO_AGENT_JOB_MAX_SOURCE_BYTES) &&
  bool_decide (ch_nul ∉ String.list_ascii_of_string src) && text_valid (Some rev) 128 =
  bool_decide (proposal_ok (src, rev)).
Proof.
  intros Hrev. rewrite c_text by done. apply eq_true_iff_eq. unfold proposal_ok, text_ok, TURBO_AGENT_JOB_MAX_SOURCE_BYTES.
  cbn [fst snd]. rewrite !andb_true_iff, negb_true_iff, !bool_decide_eq_true, Z.eqb_neq, Z.leb_le.
  assert (0 <= strlen src) by (unfold strlen; lia). fold (bytes src). intuition lia.
Qed.

Lemma propose_commits id s c e src rev : identifier 64 id -> job_wf s -> stored (J := J) id s c ->
  c_argument rev ->
  let (st, s') := job_spec s (RequestPropose e src rev) in
  exists c', commits store (turbo_agent_job_propose (Some (job id)) e src rev) c (answer st) c' /\
    follows id s' c c'.
Proof.
  intros Hid Hwf Hs Hc. unfold turbo_agent_job_propose. cbn [job_spec].
  destruct src as [src|]; [|by apply einval]. destruct rev as [rev|]; [|by apply einval].
  pose proof (commits_event id s (add_proposal s (src, rev)) c e false) as Hev.
  destruct (match admits s e false with SALTS_OK => _ | _ => _ end) as [st s'] eqn:Espec.
  apply checked; [by apply proposal_args|done|]. intros Hok.
  apply (Hev _ (fun _ => proposal_doc id (js_revision s + 1) (src, rev)) Hid Hwf Hs).
  - intros head Hh Ha c' Hins. apply admits_ok in Ha as (<- & _ & _ & Hne & _). pose proof (revision_range s Hwf).
    eapply commits_bind; [apply tells_mem; [apply builds_create|by split]|].
    rewrite u32_small by (unfold UINT_MAX; lia).
    eapply commits_bind; [apply tells_mem; [|by split]; apply event_builds; [builds_fields|lia]|exact Hins].
  - intros head Hh Ha. apply admits_ok in Ha as (<- & Hcan & Hb & Hne & _). pose proof (revision_range s Hwf).
    apply (stored_event id s); [done|lia|done..|]. intros i Hi. by apply history_add_proposal.
Qed.

Lemma binding_args th att :
  id_valid (Some th) 80 && id_valid (Some att) 64 = bool_decide (binding_ok (th, att)).
Proof.
  rewrite !id_valid_spec. apply eq_true_iff_eq. by rewrite andb_true_iff, !bool_decide_eq_true.
Qed.

Lemma bind_commits id s c e th att : identifier 64 id -> job_wf s -> stored (J := J) id s c ->
  let (st, s') := job_spec s (RequestBind e th att) in
  exists c', commits store (turbo_agent_job_bind_compiled_inspect (Some (job id)) e th att) c (answer st) c' /\
    follows id s' c c'.
Proof.
  intros Hid Hwf Hs. unfold turbo_agent_job_bind_compiled_inspect. cbn [job_spec].
  destruct th as [th|]; [|by apply einval]. destruct att as [att|]; [|by apply einval].
  pose proof (commits_event id s (add_binding s (th, att)) c e true) as Hev.
  destruct (match admits s e true with SALTS_OK => _ | _ => _ end) as [st s'] eqn:Espec.
  apply checked; [by apply binding_args|done|]. intros Hok.
  apply (Hev _ (fun _ => binding_doc id (js_revision s + 1) (th, att)) Hid Hwf Hs).
  - intros head Hh Ha c' Hins. apply admits_ok in Ha as (<- & _ & Hb & Hne & Hps). pose proof (revision_range s Hwf).
    rewrite u32_small by (unfold UINT_MAX; lia).
    eapply commits_bind; [apply tells_mem; [|by split]; apply event_builds; [|lia]|exact Hins].
    assert (Hn : number (proposal head) "revision" = js_revision s + 1 - 1).
    { destruct Hh as (_ & _ & Hp & _). destruct (last (js_proposals s)) as [p|] eqn:El;
        [|by apply last_None in El; destruct (Hps eq_refl)].
      destruct Hp as (v & -> & Hv). unfold js_revision in *. rewrite Hb in *.
      rewrite (number_of v _ _ (Z.of_nat (length (js_proposals s))) Hv); [lia|reflexivity|lia]. }
    rewrite Hn. cbn [fst snd]. builds_fields.
  - intros head Hh Ha. apply admits_ok in Ha as (<- & Hcan & Hb & Hne & _). pose proof (revision_range s Hwf).
    apply (stored_event id s); [done|lia|done..|]. intros i Hi. by apply history_add_binding.
Qed.

Lemma cancel_args req why : ch_nul ∉ bytes why ->
  id_valid (Some req) 64 && text_valid (Some why) 1024 = bool_decide (cancel_ok (req, why)).
Proof.
  intros Hw. rewrite id_valid_spec, c_text by done. apply eq_true_iff_eq.
  by rewrite andb_true_iff, !bool_decide_eq_true.
Qed.

Lemma cancel_commits id s c e req why : identifier 64 id -> job_wf s -> stored (J := J) id s c ->
  c_argument why ->
  let (st, s') := job_spec s (RequestCancel e req why) in
  exists c', commits store (turbo_agent_job_request_cancel (Some (job id)) e req why) c (answer st) c' /\
    follows id s' c c'.
Proof.
  intros Hid Hwf Hs Hc. unfold turbo_agent_job_request_cancel. cbn [job_spec].
  destruct req as [req|]; [|by apply einval]. destruct why as [why|]; [|by apply einval].
  destruct (if decide (js_revision s = e) then _ else _) as [st s'] eqn:Espec.
  apply checked; [by apply cancel_args|done|]. intros Hok.
  destruct (head_read_tells store id s c Hid Hwf Hs) as (head & (Hr & _) & Hread).
  case_decide as He; simplify_eq.
  - assert (Hcb : forall x c', commits store (insert_record (job id) CANCELLATIONS id
        (object_of (J := J) (cancel_doc id (js_revision s) (req, why)))) c x c' ->
      commits store (head ← head_read (J := J) (job id); _ ← io_require (revision head =? js_revision s) SALTS_EBUSY;
        record ← io_mem SALTS_ENOMEM (cancellation_record (J := J) id (js_revision s) req why);
        insert_record (job id) CANCELLATIONS id record) c x c').
    { intros x c' Hins. eapply commits_bind; [exact Hread|]. rewrite Hr, Z.eqb_refl.
      eapply commits_bind; [apply tells_ret|]. eapply commits_bind; [|exact Hins].
      apply tells_mem; [|by split]. apply new_record_builds. builds_fields. }
    pose proof Hs as (_ & _ & Hcan). destruct (js_cancel s) as [r|]; simplify_eq.
    + exists c. split; [|by apply follows_same]. apply Hcb, commits_claimed.
      destruct Hcan as (v & (t & Ht & _) & _). by eexists.
    + eexists. split; [apply Hcb, commits_insert, Hcan|].
      apply follows_insert; [by right; left|]. by apply stored_cancel.
  - apply refused; [|done|done]. eapply tells_bind; [exact Hread|].
    rewrite Hr, (proj2 (Z.eqb_neq _ _) He). apply tells_bind_fail, tells_fail.
Qed.

(** Every request follows its specification. *)
Lemma handle_commits id s c r : identifier 64 id -> job_wf s -> stored (J := J) id s c -> c_arguments r ->
  let (st, s') := job_spec s r in
  exists c', commits store (handle (job id) r) c (answer st) c' /\ follows id s' c c'.
Proof.
  intros Hid Hwf Hs Hc. destruct r; cbn [handle].
  - by apply propose_commits.
  - by apply bind_commits.
  - by apply cancel_commits; try apply Hc.
Qed.

End requests.

(** ** Many requests *)

(** The results and the state of an abstract job. *)
Fixpoint job_run (s : job_state) (rs : list job_request) : list (unit + salts_status) * job_state :=
  match rs with
  | [] => ([], s)
  | r :: rs =>
      let (st, s) := job_spec s r in
      let (xs, s) := job_run s rs in
      (answer st :: xs, s)
  end.

(** Answers that the abstract job accounts for: the specified one, or a failure
    after which the request may have taken effect. *)
Definition accounts (s : job_state) (r : job_request) (x : unit + salts_status) (s' : job_state) : Prop :=
  (x = answer (job_spec s r).1 /\ s' = (job_spec s r).2) \/
  exists st, x = inr st /\ st <> SALTS_OK /\ (s' = s \/ s' = (job_spec s r).2).

Inductive explains : job_state -> list job_request -> list (unit + salts_status) -> job_state -> Prop :=
| explains_nil s : explains s [] [] s
| explains_cons s r x s1 rs xs s' : accounts s r x s1 -> explains s1 rs xs s' ->
    explains s (r :: rs) (x :: xs) s'.

Section runs.
Context {J : Type} `{JsonSetters J, !JsonLaws J, !JsonNewLaws J, !JsonRecordLaws J}.
Context {W : Type} (store : turbo_agent_runtime_store W) `{!RuntimeStoreLaws store}.

(** The requests one after the other, as the caller of a job must make them. *)
Fixpoint serve (job : turbo_agent_job (W := W)) (rs : list job_request) (w : W) (o : oracle)
  : list (unit + salts_status) * W * oracle :=
  match rs with
  | [] => ([], w, o)
  | r :: rs =>
      let '(x, w, o) := handle (J := J) job r w o in
      let '(xs, w, o) := serve job rs w o in
      (x :: xs, w, o)
  end.

Lemma handle_follows id s w o r : identifier 64 id -> job_wf s -> stored (J := J) id s (contents w) ->
  c_arguments r ->
  let '(x, w1, o1) := handle (J := J) (mk_job store id) r w o in
  exists s1, accounts s r x s1 /\ job_wf s1 /\ follows (J := J) id s1 (contents w) (contents w1) /\
    (store_reliable store -> plenty o -> x = answer (job_spec s r).1 /\ s1 = (job_spec s r).2 /\ plenty o1).
Proof.
  intros Hid Hwf Hs Hr. pose proof (handle_commits store id s (contents w) r Hid Hwf Hs Hr) as Hh.
  pose proof (job_spec_wf s r Hwf) as Hwf1. unfold accounts. destruct (job_spec s r) as [st s1]. cbn [fst snd] in *.
  destruct Hh as (c' & Hcom & Hf). specialize (Hcom w o eq_refl).
  destruct (handle (mk_job store id) r w o) as [[x w1] o1]. destruct Hcom as [Hx Hrel].
  assert (Hre : store_reliable store -> plenty o -> x = answer st /\ s1 = s1 /\ plenty o1)
    by (intros HR Ho; by destruct (Hrel HR Ho) as (? & _ & ?)).
  destruct (decide (contents w1 = c')) as [Hc1|Hc1].
  - exists s1. rewrite Hc1. split_and!; [|done..]. destruct Hx as [[? _]|(st' & ? & ? & _)]; [by left|right; eauto].
  - destruct Hx as [[_ ?]|(st' & -> & Hst & [Hc2|?])]; [done| |done]. exists s. rewrite Hc2.
    split_and!; [right; eauto|done|by apply follows_same|]. intros HR Ho. by destruct (Hrel HR Ho) as (_ & ? & _).
Qed.

Lemma follows_trans id s1 s2 c c1 c2 : follows (J := J) id s1 c c1 -> follows (J := J) id s2 c1 c2 ->
  follows (J := J) id s2 c c2.
Proof. intros [_ H1] [Hs H2]. split; [done|]. intros key Hn. by rewrite H2, H1. Qed.

Lemma serve_follows id rs : identifier 64 id -> forall s w o,
  job_wf s -> stored (J := J) id s (contents w) -> Forall c_arguments rs ->
  let '(xs, w', o') := serve (mk_job store id) rs w o in
  exists s', explains s rs xs s' /\ job_wf s' /\ follows (J := J) id s' (contents w) (contents w') /\
    (store_reliable store -> plenty o -> (xs, s') = job_run s rs).
Proof.
  intros Hid. induction rs as [|r rs IH]; intros s w o Hwf Hs Hc; cbn [serve job_run].
  { exists s. split_and!; [constructor|done|by apply follows_same|done]. }
  apply Forall_cons in Hc as [Hr Hc]. pose proof (handle_follows id s w o r Hid Hwf Hs Hr) as Hh.
  destruct (handle (mk_job store id) r w o) as [[x w1] o1].
  destruct Hh as (s1 & Hacc & Hwf1 & Hf1 & Hre). specialize (IH s1 w1 o1 Hwf1 (proj1 Hf1) Hc).
  destruct (serve _ rs w1 o1) as [[xs w'] o']. destruct IH as (s' & He & Hwf' & Hf' & Hrun).
  exists s'. split_and!; [by eapply explains_cons|done|by eapply follows_trans|].
  intros HR Ho. destruct (Hre HR Ho) as (-> & -> & Ho1). destruct (job_spec s r) as [st s2]. cbn [fst snd] in *.
  by rewrite <- (Hrun HR Ho1).
Qed.

End runs.

(** ** Histories *)

(** Nothing of a job is ever lost or changed: events are only added, and a bound or
    a cancelled job has its last event. *)
Definition extends (s s' : job_state) : Prop :=
  js_goal s' = js_goal s /\ js_criteria s' = js_criteria s /\
  js_proposals s `prefix_of` js_proposals s' /\
  (is_Some (js_binding s) -> js_binding s' = js_binding s /\ js_proposals s' = js_proposals s) /\
  (is_Some (js_cancel s) -> s' = s).

Lemma extends_refl s : extends s s.
Proof. by split_and!. Qed.

Lemma extends_trans s1 s2 s3 : extends s1 s2 -> extends s2 s3 -> extends s1 s3.
Proof.
  intros (Hg & Hc & Hp & Hb & Hk) (Hg' & Hc' & Hp' & Hb' & Hk'). split_and!; try congruence.
  - by etrans.
  - intros Hs. destruct (Hb Hs) as [E Ep]. rewrite <- E in Hs. destruct (Hb' Hs). split; congruence.
  - intros Hs. specialize (Hk Hs) as ->. auto.
Qed.

Lemma spec_extends s r : extends s (job_spec s r).2.
Proof.
  destruct r as [e [src|] [rev|]|e [th|] [att|]|e [req|] [why|]]; cbn; try apply extends_refl;
    case_decide; try apply extends_refl.
  - destruct (admits s e false) eqn:E; try apply extends_refl. apply admits_ok in E as (_ & Hc & Hb & _ & _).
    split_and!; try done; [by apply prefix_app_r|by rewrite Hb; intros []|by rewrite Hc; intros []].
  - destruct (admits s e true) eqn:E; try apply extends_refl. apply admits_ok in E as (_ & Hc & Hb & _ & _).
    split_and!; try done; [by rewrite Hb; intros []|by rewrite Hc; intros []].
  - case_decide; [|apply extends_refl]. destruct (js_cancel s) eqn:Hc; [apply extends_refl|].
    split_and!; try done. by rewrite Hc; intros [].
Qed.

Lemma accounts_extends s r x s' : accounts s r x s' -> extends s s'.
Proof.
  intros [[_ ->]|(st & _ & _ & [-> | ->])]; [apply spec_extends|apply extends_refl|apply spec_extends].
Qed.

Lemma explains_extends s rs xs s' : explains s rs xs s' -> extends s s'.
Proof.
  induction 1 as [|s r x s1 rs xs s' Ha _ IH]; [apply extends_refl|].
  eapply extends_trans; [by eapply accounts_extends|done].
Qed.

(** What an acknowledgement stands for. *)
Definition recorded (s : job_state) (r : job_request) : Prop :=
  match r with
  | RequestPropose e (Some src) (Some rev) => js_proposals s !! Z.to_nat e = Some (src, rev)
  | RequestBind e (Some th) (Some att) =>
      js_binding s = Some (th, att) /\ Z.of_nat (length (js_proposals s)) = e
  | RequestCancel e (Some req) (Some why) => js_cancel s = Some (req, why) /\ js_revision s = e
  | _ => False
  end.

Lemma accounts_recorded s r s' : accounts s r (inl tt) s' -> recorded s' r.
Proof.
  intros [[Hx ->]|(st & [=] & _)]. revert Hx.
  destruct r as [e [src|] [rev|]|e [th|] [att|]|e [req|] [why|]]; cbn; try done; case_decide; try done.
  - destruct (admits s e false) eqn:E; try done. apply admits_ok in E as (<- & _ & Hb & _ & _). intros _. cbn.
    unfold js_revision. rewrite Hb, Z.add_0_r, Nat2Z.id. by apply list_lookup_middle.
  - destruct (admits s e true) eqn:E; try done. apply admits_ok in E as (<- & _ & Hb & _ & _). intros _. cbn.
    unfold js_revision. by rewrite Hb, Z.add_0_r.
  - case_decide; [|done]. by destruct (js_cancel s).
Qed.

Lemma recorded_extends s s' r : extends s s' -> recorded s r -> recorded s' r.
Proof.
  intros (_ & _ & Hp & Hb & Hc). destruct r as [e [src|] [rev|]|e [th|] [att|]|e [req|] [why|]]; cbn; try done.
  - intros Hl. by eapply prefix_lookup_Some.
  - intros [Hbind <-]. destruct (Hb ltac:(by rewrite Hbind)) as [-> ->]. done.
  - intros [Hcan <-]. rewrite (Hc ltac:(by rewrite Hcan)). done.
Qed.

Lemma explains_recorded s rs xs s' : explains s rs xs s' ->
  Forall2 (fun r x => x = inl tt -> recorded s' r) rs xs.
Proof.
  induction 1 as [|s r x s1 rs xs s' Ha He IH]; constructor; [|exact IH].
  intros ->. eapply recorded_extends; [by eapply explains_extends|]. by eapply accounts_recorded.
Qed.

(** ** Several jobs in a store *)

Lemma job_key_own id id' key : job_key id key -> job_key id' key -> id = id'.
Proof.
  intros [->|[->|(i & Hi & ->)]] [Hk|[Hk|(i' & Hi' & Hk)]]; try (by injection Hk); try discriminate.
  injection Hk as Hk. by apply revision_key_inj in Hk as [? _].
Qed.

Section theorems.
Context {J : Type} `{JsonSetters J, !JsonLaws J, !JsonNewLaws J, !JsonRecordLaws J}.
Context {W : Type} (store : turbo_agent_runtime_store W) `{!RuntimeStoreLaws store}.

Lemma stored_frame id s c c' : (forall key, job_key id key -> c' !! key = c !! key) ->
  stored (J := J) id s c -> stored (J := J) id s c'.
Proof.
  intros Hk (Hd & Hh & Hc).
  assert (Hhas : forall key d, job_key id key -> has (J := J) c key d -> has c' key d).
  { intros key [d|] Hkey; cbn; unfold holds; by rewrite Hk. }
  split_and!; [apply Hhas; [by left|done]| |apply Hhas; [by right; left|done]].
  intros i Hi. apply Hhas; [|by apply Hh]. right. right. by exists i.
Qed.

(** C25. The operations of a job refine the abstract job.  On any backend that keeps
    its promises, whatever memory and the backend do, a sequence of requests gets
    answers that the abstract job accounts for, and the store then holds the
    abstract job they lead to, well formed; a request that failed may have taken
    effect as a whole, and no other record of the store changes.  When the backend
    is reliable and memory lasts, answers and job are exactly those specified. *)
Theorem agent_job_refines (id : string) (s : job_state) (rs : list job_request) (w : W) (o : oracle) :
  identifier 64 id -> job_wf s -> stored (J := J) id s (contents w) -> Forall c_arguments rs ->
  let '(xs, w', o') := serve (J := J) (mk_job store id) rs w o in
  exists s', explains s rs xs s' /\ job_wf s' /\ stored (J := J) id s' (contents w') /\
    (forall key, ~ job_key id key -> contents w' !! key = contents w !! key) /\
    (store_reliable store -> plenty o -> (xs, s') = job_run s rs).
Proof.
  intros Hid Hwf Hs Hc. pose proof (serve_follows (J := J) store id rs Hid s w o Hwf Hs Hc) as Hserve.
  destruct (serve _ rs w o) as [[xs w'] o']. destruct Hserve as (s' & He & Hwf' & [Hs' Hk] & Hrun).
  by exists s'.
Qed.

(** C26. What a job acknowledged stays.  On any backend and any memory, every request
    that was answered OK is in the stored job at the revision it named, whatever
    followed it; goal, criteria and earlier proposals never change, a bound job
    gets no other event and a cancelled job does not change at all; and the other
    jobs of the store stay as they were. *)
Theorem agent_job_durable (id : string) (s : job_state) (rs : list job_request) (w : W) (o : oracle) :
  identifier 64 id -> job_wf s -> stored (J := J) id s (contents w) -> Forall c_arguments rs ->
  let '(xs, w', o') := serve (J := J) (mk_job store id) rs w o in
  exists s', stored (J := J) id s' (contents w') /\
    Forall2 (fun r x => x = inl tt -> recorded s' r) rs xs /\ extends s s' /\
    (forall id' other, id' <> id -> stored (J := J) id' other (contents w) ->
       stored (J := J) id' other (contents w')).
Proof.
  intros Hid Hwf Hs Hc. pose proof (serve_follows (J := J) store id rs Hid s w o Hwf Hs Hc) as Hserve.
  destruct (serve _ rs w o) as [[xs w'] o']. destruct Hserve as (s' & He & _ & [Hs' Hk] & _).
  exists s'. split_and!; [done|by eapply explains_recorded|by eapply explains_extends|].
  intros id' other Hne. apply stored_frame. intros key Hkey. apply Hk. intros Hown. apply Hne.
  by eapply job_key_own.
Qed.

End theorems.
