(* ===== verification/AgentJobLife.v ===== *)
(** * Creating and reading jobs

    Creation claims an identity that nothing is left of; what a job's readers
    answer is the stored job. *)

From stdpp Require Import pretty.
From S2P Require Import Prelude RuntimeJson JsonBuild JsonMem JsonRecord RuntimeStore RuntimeStoreFacts AgentJob AgentJobFacts AgentJobSpec.

#[local] Open Scope string_scope.
#[local] Open Scope list_scope.
#[local] Open Scope Z_scope.

(** What a creation asks for. *)
Definition creation_ok (id goal criteria : string) : Prop :=
  identifier 64 id /\ text_ok 4096 goal /\ text_ok 4096 criteria.

#[export] Instance creation_ok_dec id g cr : Decision (creation_ok id g cr) := and_dec _ _.

Section life.
Context {J : Type} `{JsonSetters J, !JsonLaws J, !JsonNewLaws J, !JsonRecordLaws J}.
Context {W : Type} (store : turbo_agent_runtime_store W) `{!RuntimeStoreLaws store}.

#[local] Abbreviation contents_of := (gmap (string * string) string).
Abbreviation job id := (mk_job store id).

(** ** Creation *)

Definition vacant (id : string) (c : contents_of) : Prop := forall key, job_key id key -> c !! key = None.

Lemma absent_tells c (collection key id : string) : exists x,
  tells store (record_absent (J := J) (job id) collection key) c x /\
  (x = inl tt <-> c !! (collection, key) = None) /\ x <> inr SALTS_OK.
Proof.
  unfold record_absent, read_record. cbn [job_runtime]. destruct (c !! (collection, key)) as [t|] eqn:Et.
  - pose proof (tells_text (J := J) store c collection key t Et) as Hr. destruct (json_parse t) as [v|].
    + exists (inr SALTS_EALREADY). split; [|done]. eapply tells_try; [exact Hr|apply tells_fail|by intros [] []].
    + exists (inr SALTS_EPROTO). split; [|done]. eapply tells_try; [exact Hr|apply tells_fail|by intros [] []].
  - exists (inl tt). split; [|done]. eapply tells_try; [by apply tells_absent|apply tells_ret|by intros [] []].
Qed.

Lemma absent_fold c id (l : list Z) : exists x,
  tells store (io_fold (fun _ i => record_absent (J := J) (job id) REVISIONS (revision_key id i)) l tt) c x /\
  (x = inl tt <-> Forall (fun i => c !! (REVISIONS, revision_key id i) = None) l) /\ x <> inr SALTS_OK.
Proof.
  induction l as [|i l IH]; cbn [io_fold].
  - exists (inl tt). split; [apply tells_ret|done].
  - destruct (absent_tells c REVISIONS (revision_key id i) id) as ([[]|st] & Ht & Hx & Hok).
    + destruct IH as (x & Hf & Hxf & Hokf). exists x. split; [by eapply tells_bind|]. split; [|done].
      rewrite Hxf, Forall_cons. split; [|tauto]. intros ?. split; [by apply Hx|done].
    + exists (inr st). split; [by apply tells_bind_fail|]. split; [|done]. split; [done|].
      intros [Hk _]%Forall_cons. by apply Hx in Hk.
Qed.

Lemma history_tells c id : exists x, tells store (history_absent (J := J) (job id)) c x /\
  (x = inl tt <-> (forall i, 1 <= i <= 64 -> c !! (REVISIONS, revision_key id i) = None) /\
                  c !! (CANCELLATIONS, id) = None) /\ x <> inr SALTS_OK.
Proof.
  destruct (absent_fold c id (seqZ 1 TURBO_AGENT_JOB_MAX_REVISIONS)) as ([[]|st] & Hf & Hx & Hok);
    rewrite Forall_forall in Hx; unfold history_absent.
  - destruct (absent_tells c CANCELLATIONS id id) as (x & Ht & Hxc & Hokc). exists x.
    split; [by eapply tells_bind|]. split; [|done]. rewrite Hxc. split; [|tauto]. intros Hc. split; [|done].
    intros i Hi. apply (proj1 Hx eq_refl). apply elem_of_seqZ. unfold TURBO_AGENT_JOB_MAX_REVISIONS. lia.
  - exists (inr st). split; [by apply tells_bind_fail|]. split; [|done]. split; [done|]. intros [Hh _].
    apply Hx. intros i Hi. apply Hh. apply elem_of_seqZ in Hi. unfold TURBO_AGENT_JOB_MAX_REVISIONS in Hi. lia.
Qed.

Lemma stored_new id g cr c : vacant id c ->
  stored (J := J) id (new_job g cr)
    (<[(JOBS, id) := json_serialize (object_of (J := J) (descriptor_doc id (new_job g cr)))]> c).
Proof.
  intros Hv. split_and!.
  - apply has_insert.
  - intros i Hi. apply has_insert_ne; [done|]. rewrite history_beyond by (unfold js_revision; cbn; lia).
    apply Hv. right. right. by exists i.
  - apply has_insert_ne; [done|]. apply Hv. by right; left.
Qed.

Lemma creation_args id g cr : c_argument (Some g) -> c_argument (Some cr) ->
  id_valid (Some id) 64 && text_valid (Some g) 4096 && text_valid (Some cr) 4096 =
  bool_decide (creation_ok id g cr).
Proof.
  intros Hg Hcr. rewrite id_valid_spec, !c_text by done. apply eq_true_iff_eq. unfold creation_ok.
  rewrite !andb_true_iff, !bool_decide_eq_true. tauto.
Qed.

Lemma create_commits c id g cr : creation_ok id g cr ->
  let m := turbo_agent_job_create (J := J) (Some store) (Some id) (Some g) (Some cr) true in
  (vacant id c /\ exists c', commits store m c (inl (job id)) c' /\ follows (J := J) id (new_job g cr) c c') \/
  (~ vacant id c /\ exists st, st <> SALTS_OK /\ commits store m c (inr st) c).
Proof.
  intros Hok m. assert (Hargs : tells store
    (io_require (id_valid (Some id) 64 && text_valid (Some g) 4096 && text_valid (Some cr) 4096) SALTS_EINVAL)
    c (inl tt)).
  { rewrite creation_args by apply Hok. rewrite bool_decide_eq_true_2 by done. apply tells_ret. }
  destruct (history_tells c id) as (x & Hh & Hx & Hst).
  assert (Hrec : builds (descriptor_record (J := J) id g cr) (object_of (descriptor_doc id (new_job g cr)))).
  { apply new_record_builds. builds_fields. }
  assert (Hal : tells store (io_mem SALTS_ENOMEM (job_allocate store id)) c (inl (job id)))
    by (apply tells_mem; [apply builds_create|by split]).
  assert (Hpath : forall (k : turbo_agent_job (W := W) -> io W (turbo_agent_job (W := W))) y c', x = inl tt ->
    commits store (insert_record (job id) JOBS id (object_of (descriptor_doc id (new_job g cr))) ≫= fun _ => k (job id)) c y c' ->
    commits store (_ ← io_require (id_valid (Some id) 64 && text_valid (Some g) 4096 && text_valid (Some cr) 4096) SALTS_EINVAL;
      job ← io_mem SALTS_ENOMEM (job_allocate store id); _ ← history_absent (J := J) job;
      record ← io_mem SALTS_ENOMEM (descriptor_record (J := J) id g cr);
      _ ← insert_record job JOBS id record; k job) c y c').
  { intros k y c' -> Hins. eapply commits_bind; [exact Hargs|]. eapply commits_bind; [exact Hal|].
    eapply commits_bind; [exact Hh|]. eapply commits_bind; [apply tells_mem; [exact Hrec|by split]|exact Hins]. }
  destruct x as [[]|st].
  - apply proj1 in Hx. destruct (Hx eq_refl) as [Hev Hc]. destruct (c !! (JOBS, id)) as [t|] eqn:E.
    + right. split; [intros Hv; rewrite Hv in E; [done|by left]|]. exists SALTS_EALREADY. split; [done|].
      apply Hpath; [done|]. apply commits_bind_fail, commits_claimed. by eexists.
    + left. assert (Hv : vacant id c) by (intros key [->|[->|(i & Hi & ->)]]; auto). split; [done|].
      eexists. split; [|apply follows_insert; [by left|by apply stored_new]]. apply Hpath; [done|].
      apply (commits_ret store _ (fun _ => job id) c tt). apply commits_insert, E.
  - right. split.
    + intros Hv. apply proj2 in Hx. enough (inr st = inl tt :> unit + salts_status) by done. apply Hx.
      split; [intros i Hi; apply Hv; right; right; by exists i|apply Hv; by right; left].
    + exists st. split; [congruence|]. apply commits_tells; [|intros [= ->]; by apply Hst].
      eapply tells_bind; [exact Hargs|]. eapply tells_bind; [exact Hal|]. by apply tells_bind_fail.
Qed.

(** ** Reading back *)

(** The member is a string, and [t] is the whole of it. *)
Definition text_at (v : J) (k t : string) : Prop :=
  exists y, json_object_get v k = Some y /\ json_type y = JSON_STRING /\ json_string y = t.

Lemma record_string (v : J) kvs k t : record_is v kvs -> assoc k kvs = Some (json_create_string t) ->
  text_at v k t.
Proof. apply record_text. Qed.

Definition number_at (v : J) (k : string) (n : Z) : Prop :=
  turbo_runtime_json_value_as_int64 (json_object_get v k) (-1) = n.

(** What a snapshot says of a job. *)
Definition shows (v : J) (s : job_state) : Prop :=
  let n := Z.of_nat (length (js_proposals s)) in
  text_at v "goal" (js_goal s) /\ text_at v "acceptance_criteria" (js_criteria s) /\
  number_at v "revision" (js_revision s) /\
  text_at v "state" (match js_binding s, js_proposals s with
                     | Some _, _ => "attempt_bound" | None, [] => "created" | None, _ => "proposed" end) /\
  match last (js_proposals s) with
  | None => json_object_get v "proposal" = None
  | Some (source, source_revision) => exists p, json_object_get v "proposal" = Some p /\
      text_at p "source_json" source /\ text_at p "source_revision" source_revision /\
      number_at p "revision" n
  end /\
  match js_binding s with
  | None => json_object_get v "attempt" = None
  | Some (thread, attempt) => exists b, json_object_get v "attempt" = Some b /\
      text_at b "thread_id" thread /\ text_at b "attempt_id" attempt /\
      number_at b "proposal_version" n
  end.

(** The members a snapshot adds to the descriptor. *)
Definition snapshot_fields (head : job_head (J := J)) : list (string * J) :=
  [("revision", json_create_int64 (revision head)); ("state", json_create_string (head_state head))] ++
  match proposal head with Some p => [("proposal", json_clone p)] | None => [] end ++
  match binding head with Some b => [("attempt", json_clone b)] | None => [] end.

Lemma set_clone_adds k (v : J) :
  adds (fun obj o => turbo_runtime_json_object_set_clone obj (Some k) (Some v) o) (k, json_clone v).
Proof. apply set_constructed_adds. Qed.

Lemma snapshot_builds (head : job_head (J := J)) (d : J) : json_type d = JSON_OBJECT ->
  descriptor head = Some d ->
  builds (snapshot ← need (descriptor head);
          build_record
            ([set_int64 "revision" (revision head); set_string "state" (Some (head_state head))] ++
             set_clone_of "proposal" (proposal head) ++ set_clone_of "attempt" (binding head)) snapshot)
    (foldl add_member d (snapshot_fields head)).
Proof.
  intros Hty ->. eapply builds_bind; [apply builds_need|]. apply build_record_builds; [|done].
  unfold snapshot_fields, set_clone_of. destruct (proposal head), (binding head);
    repeat (constructor; [solve [auto using set_int64_adds, set_string_adds, set_clone_adds]|]); constructor.
Qed.

Lemma clone_is (v : J) kvs : record_is v kvs -> record_is (json_clone v) kvs.
Proof. unfold record_is. intros Hv. by rewrite json_clone_equiv. Qed.

Lemma record_no (v : J) kvs k : record_is v kvs -> assoc k kvs = None -> json_object_get v k = None.
Proof.
  intros Hv Hk. pose proof (json_get_proper _ _ k Hv) as Hg. rewrite object_of_get, Hk in Hg. by inversion Hg.
Qed.

Lemma new_number z d : 0 <= z <= 64 ->
  turbo_runtime_json_value_as_int64 (Some (json_create_int64 z : J)) d = z.
Proof.
  intros Hz. destruct (json_int64_token (json_create_int64 z : J) z) as [Hty Htok]; [reflexivity|].
  apply json_as_int64_token; [done..|]. unfold INT64_MIN, INT64_MAX. lia.
Qed.

Lemma new_text t : exists y, Some (json_create_string t : J) = Some y /\ json_type y = JSON_STRING /\ json_string y = t.
Proof. exists (json_create_string t). by rewrite json_type_string, json_string_create. Qed.

(** A clone of an event shows the event's fields. *)
Lemma proposal_shown (p : J) id n q : record_is p (proposal_doc id n q) -> 0 <= n <= 64 ->
  text_at (json_clone p) "source_json" q.1 /\ text_at (json_clone p) "source_revision" q.2 /\
  number_at (json_clone p) "revision" n.
Proof.
  intros Hp%clone_is Hn. split_and!; [by eapply record_string|by eapply record_string|].
  eapply record_number; [exact Hp|done|]. unfold INT64_MIN, INT64_MAX. lia.
Qed.

Lemma binding_shown (b : J) id n q : record_is b (binding_doc id (n + 1) q) -> 0 <= n <= 64 ->
  text_at (json_clone b) "thread_id" q.1 /\ text_at (json_clone b) "attempt_id" q.2 /\
  number_at (json_clone b) "proposal_version" n.
Proof.
  intros Hb%clone_is Hn. split_and!; [by eapply record_string|by eapply record_string|].
  eapply record_number; [exact Hb|cbn; by replace (n + 1 - 1) with n by lia|]. unfold INT64_MIN, INT64_MAX. lia.
Qed.

Lemma snapshot_shows id s head d : job_wf s -> head_of id s head -> record_is d (descriptor_doc id s) ->
  shows (foldl add_member d (snapshot_fields head)) s.
Proof.
  intros Hwf (Hr & _ & Hp & Hb) Hd. pose proof (revision_range s Hwf) as Hrange.
  pose proof (record_type _ _ Hd) as Hty. pose proof Hwf as (_ & _ & _ & Hbp & _ & _).
  assert (Hn : 0 <= Z.of_nat (length (js_proposals s)) <= 64)
    by (unfold js_revision in Hrange; destruct (js_binding s); lia).
  pose proof (fun k t => record_string d _ k t Hd) as Htext. pose proof (fun k => record_no d _ k Hd) as Hno.
  unfold shows, text_at at 1 2 3, number_at at 1. rewrite !foldl_add_assoc by done.
  unfold snapshot_fields, head_state. rewrite Hr.
  destruct (js_binding s) as [b|] eqn:Eb.
  - destruct (Hbp b eq_refl) as [_ Hne]. cbn in Hb. destruct Hb as (vb & -> & Hvb).
    destruct (last (js_proposals s)) as [q|] eqn:El; [|by apply last_None in El].
    destruct Hp as (vp & -> & Hvp). destruct q as [src rev], b as [th att]. cbn [assoc app String.eqb Ascii.eqb Bool.eqb].
    split_and!; [by apply Htext|by apply Htext|by apply new_number|apply new_text| |].
    + exists (json_clone vp). split; [done|]. by apply (proposal_shown vp id _ (src, rev)).
    + exists (json_clone vb). split; [done|]. by apply (binding_shown vb id _ (th, att)).
  - cbn in Hb. rewrite Hb. rewrite last_lookup in Hp |- *.
    destruct (js_proposals s) as [|q0 qs] eqn:Eps.
    + cbn in Hp. rewrite Hp. cbn [assoc app String.eqb Ascii.eqb Bool.eqb].
      split_and!; [by apply Htext|by apply Htext|by apply new_number|apply new_text|by apply Hno..].
    + destruct ((q0 :: qs) !! pred (length (q0 :: qs))) as [[src rev]|] eqn:El;
        [|apply lookup_ge_None in El; cbn in El; lia].
      destruct Hp as (vp & -> & Hvp). cbn [assoc app String.eqb Ascii.eqb Bool.eqb].
      split_and!; [by apply Htext|by apply Htext|by apply new_number|apply new_text| |by apply Hno].
      exists (json_clone vp). split; [done|]. by apply (proposal_shown vp id _ (src, rev)).
Qed.

Lemma snapshot_tells id s c : identifier 64 id -> job_wf s -> stored (J := J) id s c ->
  exists v, shows v s /\
    tells store (turbo_agent_job_get_snapshot (J := J) (Some (job id)) true) c (inl v).
Proof.
  intros Hid Hwf Hs. destruct (head_read_tells store id s c Hid Hwf Hs) as (head & Hhead & Hread).
  pose proof Hhead as (_ & (d & Hdesc & Hd) & _). eexists. split; [by eapply snapshot_shows|].
  eapply tells_bind; [exact Hread|]. apply tells_mem; [|by split].
  apply snapshot_builds; [by eapply record_type|done].
Qed.

Lemma get_cancellation_tells id s c : identifier 64 id -> job_wf s -> stored (J := J) id s c ->
  match js_cancel s with
  | None => tells store (turbo_agent_job_get_cancellation (J := J) (Some (job id)) true) c (inr SALTS_ENOENT)
  | Some r => exists v, record_is v (cancel_doc id (js_revision s) r) /\
      tells store (turbo_agent_job_get_cancellation (J := J) (Some (job id)) true) c (inl v)
  end.
Proof.
  intros Hid Hwf Hs. destruct (head_read_tells store id s c Hid Hwf Hs) as (head & (Hr & _) & Hread).
  pose proof (cancellation_tells store id s c Hid Hwf Hs) as Hcan. rewrite <- Hr in *.
  destruct (js_cancel s) as [r|]; [destruct Hcan as (v & Hv & Hcan); exists v; split; [done|]|];
    by eapply tells_bind.
Qed.

Lemma open_tells id s c : identifier 64 id -> job_wf s -> stored (J := J) id s c ->
  tells store (turbo_agent_job_open (J := J) (Some store) (Some id) true) c (inl (job id)).
Proof.
  intros Hid Hwf Hs. destruct (head_read_tells store id s c Hid Hwf Hs) as (head & _ & Hread).
  eapply tells_bind; [rewrite id_valid_spec, bool_decide_eq_true_2 by done; apply tells_ret|].
  eapply tells_bind; [apply tells_mem; [apply builds_create|by split]|].
  eapply tells_bind; [exact Hread|apply tells_ret].
Qed.

(** ** The properties *)

(** C28. Creating a job claims an identity once.  On any backend and any memory, with
    any arguments: a job is answered only for admissible arguments whose identity
    had no record left, of a descriptor, an event or a cancellation, and then the
    store holds exactly that new job; a creation that fails left the store as it
    was, or, where the identity was vacant, the whole new job; no record of another
    job changes; and on a reliable backend, while memory lasts, a vacant identity is
    claimed. *)
Theorem agent_job_claims (id goal criteria : option string) (out : bool) (w : W) (o : oracle) :
  c_argument goal -> c_argument criteria ->
  let '(r, w', o') := turbo_agent_job_create (J := J) (Some store) id goal criteria out w o in
  match id, goal, criteria with
  | Some i, Some g, Some cr =>
      let claimed := out = true /\ creation_ok i g cr /\ vacant i (contents w) /\
        stored (J := J) i (new_job g cr) (contents w') /\
        forall key, ~ job_key i key -> contents w' !! key = contents w !! key in
      (forall j, r = inl j -> j = mk_job store i /\ claimed) /\
      (contents w' = contents w \/ claimed) /\
      (store_reliable store -> plenty o -> out = true -> creation_ok i g cr -> vacant i (contents w) ->
       r = inl (mk_job store i))
  | _, _, _ => r = inr SALTS_EINVAL /\ contents w' = contents w
  end.
Proof.
  intros Hg Hc. destruct id as [i|], goal as [g|], criteria as [cr|], out; try by (cbn; split_and!; auto; done).
  destruct (decide (creation_ok i g cr)) as [Hok|Hno].
  - destruct (create_commits (contents w) i g cr Hok) as [(Hvac & c' & Hcom & Hs & Hk)|(Hocc & st & Hst & Hcom)].
    + specialize (Hcom w o eq_refl).
      destruct (turbo_agent_job_create _ _ _ _ _ w o) as [[r w'] o']. destruct Hcom as [Hr Hrel]. split_and!.
      * intros j ->. destruct Hr as [[[= ->] <-]|(? & [=] & _)]. by split_and!.
      * destruct Hr as [[-> <-]|(st & -> & _ & [?| <-])]; [right; by split_and!|by left|right; by split_and!].
      * intros HR Ho _ _ _. by destruct (Hrel HR Ho).
    + specialize (Hcom w o eq_refl).
      destruct (turbo_agent_job_create _ _ _ _ _ w o) as [[r w'] o']. destruct Hcom as [Hr Hrel]. split_and!.
      * intros j ->. by destruct Hr as [[[=] _]|(? & [=] & _)].
      * left. by destruct Hr as [[_ ?]|(? & _ & _ & [?|?])].
      * done.
  - unfold turbo_agent_job_create. rewrite creation_args by done. rewrite bool_decide_eq_false_2 by done.
    cbn. split_and!; auto; done.
Qed.

(** C27. A stored job reads back.  Whatever the backend and memory do, a snapshot that
    is answered shows exactly the stored job: goal, criteria, revision, state, the
    last proposal byte for byte with its revision, and the bound attempt with the
    proposal it belongs to; a cancellation that is answered is the stored request,
    and an answer that there is none is true; opening answers the job itself; none
    of them writes.  They all succeed on a reliable backend while memory lasts. *)
Theorem agent_job_reads_back (id : string) (s : job_state) (w : W) (o : oracle) :
  identifier 64 id -> job_wf s -> stored (J := J) id s (contents w) ->
  (let '(r, w', _) := turbo_agent_job_get_snapshot (J := J) (Some (job id)) true w o in
   contents w' = contents w /\ (forall v, r = inl v -> shows v s) /\
   (store_reliable store -> plenty o -> exists v, r = inl v)) /\
  (let '(r, w', _) := turbo_agent_job_get_cancellation (J := J) (Some (job id)) true w o in
   contents w' = contents w /\
   (forall v, r = inl v -> exists request reason, js_cancel s = Some (request, reason) /\
      text_at v "request_id" request /\ text_at v "reason_ref" reason /\
      number_at v "job_revision" (js_revision s)) /\
   (r = inr SALTS_ENOENT -> js_cancel s = None) /\
   (store_reliable store -> plenty o -> js_cancel s <> None -> exists v, r = inl v)) /\
  (let '(r, w', _) := turbo_agent_job_open (J := J) (Some store) (Some id) true w o in
   contents w' = contents w /\ (forall j, r = inl j -> j = job id) /\
   (store_reliable store -> plenty o -> r = inl (job id))).
Proof.
  intros Hid Hwf Hs. pose proof (revision_range s Hwf) as Hrange. split_and!.
  - destruct (snapshot_tells id s (contents w) Hid Hwf Hs) as (v & Hv & Ht).
    specialize (Ht w o eq_refl). destruct (turbo_agent_job_get_snapshot _ _ w o) as [[r w'] o'].
    destruct Ht as (Hc & Hx & Hrel). split_and!; [done| |].
    + intros v' ->. by destruct Hx as [[= ->]|(? & [=] & _)].
    + intros HR Ho. destruct (Hrel HR Ho) as [-> _]. by eexists.
  - pose proof (get_cancellation_tells id s (contents w) Hid Hwf Hs) as Ht.
    destruct (js_cancel s) as [[req why]|]; [destruct Ht as (v & Hv & Ht)|]; specialize (Ht w o eq_refl);
      destruct (turbo_agent_job_get_cancellation _ _ w o) as [[r w'] o'];
      destruct Ht as (Hc & Hx & Hrel); split_and!; try done.
    + intros v' ->. destruct Hx as [[= ->]|(? & [=] & _)]. exists req, why.
      split_and!; [done|by eapply record_string|by eapply record_string|].
      eapply record_number; [exact Hv|done|]. unfold INT64_MIN, INT64_MAX. lia.
    + intros ->. by destruct Hx as [[=]|(? & [= <-] & _ & ?)].
    + intros HR Ho _. destruct (Hrel HR Ho) as [-> _]. by eexists.
    + intros v ->. by destruct Hx as [[=]|(? & [=] & _)].
  - pose proof (open_tells id s (contents w) Hid Hwf Hs) as Ht.
    specialize (Ht w o eq_refl). destruct (turbo_agent_job_open _ _ _ w o) as [[r w'] o'].
    destruct Ht as (Hc & Hx & Hrel). split_and!; [done| |].
    + intros j ->. by destruct Hx as [[= ->]|(? & [=] & _)].
    + intros HR Ho. by destruct (Hrel HR Ho).
Qed.

End life.

(** ** Concrete runs, over the memory backend *)

Module AgentJobRuns.
Import JsonTree JsonNew JsonRecordTree.

Abbreviation callbacks := (memory_callbacks (J := jtree)).

Definition demo_job : job_state := new_job "ship it" "tests pass".

Definition demo_store : memory_store :=
  [mk_record JOBS "job-1" (json_serialize (object_of (J := jtree) (descriptor_doc "job-1" demo_job)))].

Lemma demo_stored : stored (J := jtree) "job-1" demo_job (records demo_store).
Proof. apply (stored_new "job-1" "ship it" "tests pass" ∅). intros key _. apply lookup_empty. Qed.

Lemma demo_wf : job_wf demo_job.
Proof.
  by split_and!; try (by apply (bool_decide_unpack _)); try constructor.
Qed.

Definition demo_requests : list job_request :=
  [RequestPropose 0 (Some "{}") (Some "rev-a"); RequestPropose 0 (Some "{}") (Some "rev-b");
   RequestBind 1 (Some "thread") (Some "attempt"); RequestCancel 2 (Some "stop") (Some "why");
   RequestPropose 2 (Some "{}") (Some "rev-c")].

Lemma demo_arguments : Forall c_arguments demo_requests.
Proof. repeat constructor; apply (bool_decide_unpack _); by vm_compute. Qed.

(** A proposal, a stale one, the binding, a cancellation and a proposal too late. *)
Lemma agent_job_refines_witness :
  let '(xs, w', _) := serve (J := jtree) (mk_job callbacks "job-1") demo_requests demo_store [] in
  xs = [inl tt; inr SALTS_EBUSY; inl tt; inl tt; inr SALTS_ECANCELED] /\
  stored (J := jtree) "job-1"
    (mk_state "ship it" "tests pass" [("{}", "rev-a")] (Some ("thread", "attempt")) (Some ("stop", "why")))
    (records w').
Proof.
  pose proof (agent_job_refines (J := jtree) callbacks "job-1" demo_job demo_requests demo_store []) as Hr.
  specialize (Hr (bool_decide_unpack (identifier 64 "job-1") I) demo_wf demo_stored demo_arguments).
  destruct (serve _ demo_requests demo_store []) as [[xs w'] o'].
  destruct Hr as (s' & _ & _ & Hs & _ & Hrun). specialize (Hrun memory_reliable plenty_nil).
  vm_compute in Hrun. injection Hrun as -> ->. by split.
Defined.

(** The acknowledged proposal is there after the refused ones. *)
Lemma agent_job_durable_witness :
  let '(_, w', _) := serve (J := jtree) (mk_job callbacks "job-1") demo_requests demo_store [false; false; true] in
  exists s', stored (J := jtree) "job-1" s' (records w') /\ js_goal s' = "ship it".
Proof.
  pose proof (agent_job_durable (J := jtree) callbacks "job-1" demo_job demo_requests demo_store
    [false; false; true]) as Hr.
  specialize (Hr (bool_decide_unpack (identifier 64 "job-1") I) demo_wf demo_stored demo_arguments).
  destruct (serve _ demo_requests demo_store _) as [[xs w'] o'].
  destruct Hr as (s' & Hs & _ & (Hg & _) & _). by exists s'.
Defined.

Lemma agent_job_claims_witness :
  let '(r, w', _) := turbo_agent_job_create (J := jtree) (Some callbacks) (Some "job-1")
    (Some "ship it") (Some "tests pass") true [] [] in
  r = inl (mk_job callbacks "job-1") /\ stored (J := jtree) "job-1" demo_job (records w').
Proof.
  pose proof (agent_job_claims (J := jtree) callbacks (Some "job-1") (Some "ship it") (Some "tests pass")
    true [] []) as Hr.
  specialize (Hr (bool_decide_unpack (c_argument (Some "ship it")) I)
    (bool_decide_unpack (c_argument (Some "tests pass")) I)).
  destruct (turbo_agent_job_create (J := jtree) (Some callbacks) _ _ _ true [] []) as [[r w'] o'].
  destruct Hr as (Hj & _ & Hrel).
  specialize (Hrel memory_reliable plenty_nil eq_refl
    (bool_decide_unpack (creation_ok "job-1" "ship it" "tests pass") I)).
  assert (Hv : vacant "job-1" (records [])) by (intros key _; apply lookup_empty).
  specialize (Hrel Hv). split; [exact Hrel|]. by destruct (Hj _ Hrel) as (_ & _ & _ & _ & Hs & _).
Defined.

Lemma agent_job_reads_back_witness :
  let '(r, _, _) := turbo_agent_job_get_snapshot (J := jtree) (Some (mk_job callbacks "job-1")) true demo_store [] in
  exists v, r = inl v /\ text_at v "state" "created" /\ json_object_get v "proposal" = None.
Proof.
  pose proof (agent_job_reads_back (J := jtree) callbacks "job-1" demo_job demo_store []) as Hr.
  specialize (Hr (bool_decide_unpack (identifier 64 "job-1") I) demo_wf demo_stored).
  destruct Hr as [Hr _]. destruct (turbo_agent_job_get_snapshot (J := jtree) _ _ _ _) as [[r w'] o'].
  destruct Hr as (_ & Hshow & Hrel). destruct (Hrel memory_reliable plenty_nil) as [v ->].
  exists v. split; [done|]. destruct (Hshow v eq_refl) as (_ & _ & _ & Hst & Hp & _). by split.
Defined.

End AgentJobRuns.
