(* ===== verification/StateGraph.v ===== *)
(** * State graphs (src/runtime/src/turbo_state_graph.c)

    A graph of nodes over a document of channels.  Every node proposes an update;
    the reducer of each channel merges it into the state of the run; every step
    is recorded in a history that runs can be resumed and forked from.

    Nodes and predicates are functions over a world; a node does not call
    operations of the graph it runs in.  [fuel] bounds the steps of one call;
    a call answers [None] only when it is exhausted. *)

From stdpp Require Import pretty.
From S2P Require Import Prelude RuntimeJson JsonBuild JsonMem JsonRecord.

#[local] Open Scope string_scope.
#[local] Open Scope list_scope.
#[local] Open Scope Z_scope.

(* src/runtime/include/turbo_state_graph.h 16-36 turbo_state_graph_status_t *)
Inductive turbo_state_graph_status : Type :=
| TURBO_STATE_GRAPH_OK
| TURBO_STATE_GRAPH_STOP
| TURBO_STATE_GRAPH_INTERRUPTED
| TURBO_STATE_GRAPH_ERROR
| TURBO_STATE_GRAPH_INVALID_ARGUMENT
| TURBO_STATE_GRAPH_OUT_OF_MEMORY
| TURBO_STATE_GRAPH_DUPLICATE_CHANNEL
| TURBO_STATE_GRAPH_DUPLICATE_NODE
| TURBO_STATE_GRAPH_CHANNEL_NOT_FOUND
| TURBO_STATE_GRAPH_NODE_NOT_FOUND
| TURBO_STATE_GRAPH_ROUTE_NOT_FOUND
| TURBO_STATE_GRAPH_STEP_LIMIT
| TURBO_STATE_GRAPH_TYPE_MISMATCH
| TURBO_STATE_GRAPH_RUN_NOT_FOUND
| TURBO_STATE_GRAPH_THREAD_NOT_FOUND
| TURBO_STATE_GRAPH_HISTORY_NOT_FOUND
| TURBO_STATE_GRAPH_RUN_COMPLETED
| TURBO_STATE_GRAPH_RUN_NOT_INTERRUPTED
| TURBO_STATE_GRAPH_INVALID_UPDATE.

#[global] Instance state_graph_status_eq_dec : EqDecision turbo_state_graph_status.
Proof. solve_decision. Defined.

(* src/runtime/include/turbo_state_graph.h 38-44 turbo_state_graph_reducer_kind_t *)
Inductive turbo_state_graph_reducer_kind : Type :=
| TURBO_STATE_GRAPH_REDUCER_REPLACE
| TURBO_STATE_GRAPH_REDUCER_APPEND
| TURBO_STATE_GRAPH_REDUCER_MERGE_OBJECT
| TURBO_STATE_GRAPH_REDUCER_ADD
| TURBO_STATE_GRAPH_REDUCER_LAST_NON_NULL.

#[global] Instance reducer_kind_eq_dec : EqDecision turbo_state_graph_reducer_kind.
Proof. solve_decision. Defined.

(* src/runtime/include/turbo_state_graph.h 46-51 turbo_state_graph_source_kind_t *)
Inductive turbo_state_graph_source_kind : Type :=
| TURBO_STATE_GRAPH_SOURCE_START
| TURBO_STATE_GRAPH_SOURCE_NODE
| TURBO_STATE_GRAPH_SOURCE_HOST
| TURBO_STATE_GRAPH_SOURCE_FORK.

#[global] Instance source_kind_eq_dec : EqDecision turbo_state_graph_source_kind.
Proof. solve_decision. Defined.

(** ** Sums of doubles

    [m * 2 ^ e] rounded to a double: 53 significant bits, no exponent below
    -1074, ties to even, overflow to infinity. *)
Definition double_round (m e : Z) : cdouble :=
  let a := Z.abs m in
  let shift := Z.max (Z.log2 a - 52) (-1074 - e) in
  let '(q, e) :=
    if shift <=? 0 then (a, e)
    else
      let q := a / 2 ^ shift in
      let r := a mod 2 ^ shift in
      let up := (2 ^ (shift - 1) <? r) || ((r =? 2 ^ (shift - 1)) && Z.odd q) in
      (if up then q + 1 else q, e + shift) in
  if (0 <? q) && (1024 <=? Z.log2 q + e) then DInf (m <? 0) else DFinite (Z.sgn m * q) e.

Definition double_add (a b : cdouble) : cdouble :=
  match a, b with
  | DNan, _ | _, DNan => DNan
  | DInf x, DInf y => if Bool.eqb x y then DInf x else DNan
  | DInf x, DFinite _ _ => DInf x
  | DFinite _ _, DInf y => DInf y
  | DFinite m e, DFinite m' e' =>
      let low := Z.min e e' in double_round (m * 2 ^ (e - low) + m' * 2 ^ (e' - low)) low
  end.

(** ** Documents have a height *)

Class JsonHeight (J : Type) `{JsonApi J} := {
  json_height : J -> nat;
  json_height_member : forall j k v, json_object_get j k = Some v -> (json_height v < json_height j)%nat
}.

(** ** Computations that end with a status *)

Definition em (A : Type) : Type := oracle -> (A + turbo_state_graph_status) * oracle.

#[global] Instance em_ret : MRet em := fun A x o => (inl x, o).
#[global] Instance em_bind : MBind em := fun A B k m o =>
  match m o with
  | (inl x, o) => k x o
  | (inr st, o) => (inr st, o)
  end.

Definition em_fail {A} (st : turbo_state_graph_status) : em A := fun o => (inr st, o).

Definition em_mem {A} (m : mem A) : em A := fun o =>
  match m o with
  | (Some x, o) => (inl x, o)
  | (None, o) => (inr TURBO_STATE_GRAPH_OUT_OF_MEMORY, o)
  end.

Fixpoint em_fold {A S : Type} (f : S -> A -> em S) (l : list A) (s : S) : em S :=
  match l with
  | [] => mret s
  | x :: l => s ← f s x; em_fold f l s
  end.

(** [n] allocations that are all attempted. *)
Fixpoint alloc_all (n : nat) (o : oracle) : bool * oracle :=
  match n with
  | O => (true, o)
  | S n => let (a, o) := alloc o in let (b, o) := alloc_all n o in (a && b, o)
  end.

(** The copies of texts that are there. *)
Definition copies (l : list (option string)) : nat := length (omap id l).

Section channels.
Context {J : Type} `{JsonSetters J, !JsonMembers J, !JsonHeight J}.

(* src/runtime/src/turbo_state_graph.c 12-18 turbo_state_graph_channel_entry_t *)
Record channel_entry : Type := mk_channel {
  ch_name : string;
  ch_description : option string;
  ch_reducer : turbo_state_graph_reducer_kind;
  ch_value_kind : json_kind;
  ch_default_value : J
}.

(** A child that is neither null nor of the kind. *)
(* src/runtime/src/turbo_state_graph.c 644-648 turbo_state_graph_validate_channel_value *)
Definition misfit (kind : json_kind) (child : J) : bool :=
  negb (bool_decide (json_type child = kind)) && negb (bool_decide (json_type child = JSON_NULL)).

(* src/runtime/src/turbo_state_graph.c 626-658 turbo_state_graph_validate_channel_value *)
Definition turbo_state_graph_validate_channel_value (channel : channel_entry) (value : J)
  : turbo_state_graph_status :=
  if bool_decide (json_type value = JSON_NULL) || bool_decide (ch_value_kind channel = JSON_NULL)
  then TURBO_STATE_GRAPH_OK
  else if bool_decide (ch_reducer channel = TURBO_STATE_GRAPH_REDUCER_APPEND) &&
          bool_decide (json_type value = JSON_ARRAY)
  then if existsb (misfit (ch_value_kind channel)) (json_array_items value)
       then TURBO_STATE_GRAPH_TYPE_MISMATCH else TURBO_STATE_GRAPH_OK
  else if negb (bool_decide (json_type value = ch_value_kind channel))
  then TURBO_STATE_GRAPH_TYPE_MISMATCH else TURBO_STATE_GRAPH_OK.

(* src/runtime/src/turbo_state_graph.c 668-678 turbo_state_graph_channel_base_value *)
Definition turbo_state_graph_channel_base_value (channel : channel_entry) (current : option J) : mem J :=
  match current with
  | Some value => create (json_clone value)
  | None => create (json_clone (ch_default_value channel))
  end.

Definition keys (v : J) : list string := (json_members v).*1.

(** [fuel]: more than the height of the update. *)
(* src/runtime/src/turbo_state_graph.c 680-752 turbo_state_graph_merge_object_values *)
Fixpoint merge_object_values (fuel : nat) (current : option J) (update : J) : em J :=
  match fuel with
  | O => em_fail TURBO_STATE_GRAPH_ERROR
  | S fuel =>
      if negb (bool_decide (json_type update = JSON_OBJECT)) then em_fail TURBO_STATE_GRAPH_TYPE_MISMATCH
      else if match current with
              | Some c => negb (bool_decide (json_type c = JSON_OBJECT)) &&
                          negb (bool_decide (json_type c = JSON_NULL))
              | None => false
              end then em_fail TURBO_STATE_GRAPH_TYPE_MISMATCH
      else
        result ← em_mem (create (match current with
                                 | Some c => if bool_decide (json_type c = JSON_OBJECT)
                                             then json_clone c else json_create_object
                                 | None => json_create_object
                                 end));
        em_fold (fun result key =>
          match json_object_get update key with
          | None => em_fail TURBO_STATE_GRAPH_INVALID_UPDATE
          | Some update_child =>
              let merged :=
                match json_object_get result key with
                | Some current_child =>
                    if bool_decide (json_type current_child = JSON_OBJECT) &&
                       bool_decide (json_type update_child = JSON_OBJECT)
                    then merge_object_values fuel (Some current_child) update_child
                    else em_mem (create (json_clone update_child))
                | None => em_mem (create (json_clone update_child))
                end in
              merged_child ← merged;
              em_mem (put result key merged_child)
          end) (keys update) result
  end.

Definition turbo_state_graph_merge_object_values (current : option J) (update : J) : em J :=
  merge_object_values (S (json_height update)) current update.

Definition em_check (st : turbo_state_graph_status) : em unit :=
  match st with TURBO_STATE_GRAPH_OK => mret tt | st => em_fail st end.

(** A clone of a child that fits, appended. *)
(* src/runtime/src/turbo_state_graph.c 811-828 turbo_state_graph_reduce_channel *)
Definition append_child (channel : channel_entry) (result child : J) : em J :=
  _ ← em_check (turbo_state_graph_validate_channel_value channel child);
  child_copy ← em_mem (create (json_clone child));
  em_mem (append result child_copy).

(* src/runtime/src/turbo_state_graph.c 790-851 turbo_state_graph_reduce_channel *)
Definition reduce_append (channel : channel_entry) (current : option J) (update : J) : em J :=
  if match current with
     | Some c => negb (bool_decide (json_type c = JSON_ARRAY)) && negb (bool_decide (json_type c = JSON_NULL))
     | None => false
     end then em_fail TURBO_STATE_GRAPH_TYPE_MISMATCH
  else
    result ← em_mem (create (match current with
                             | Some c => if bool_decide (json_type c = JSON_ARRAY)
                                         then json_clone c else json_create_array
                             | None => json_create_array
                             end));
    if bool_decide (json_type update = JSON_ARRAY)
    then em_fold (append_child channel) (json_array_items update) result
    else append_child channel result update.

Definition is_number (v : option J) : bool := has_type v JSON_NUMBER.

(** The value of an addend: 0 when it is not a number. *)
Definition addend (v : option J) : cdouble :=
  if is_number v then turbo_runtime_json_value_as_double v (DFinite 0 0)
  else double_of_uint (turbo_runtime_json_value_as_int64 v 0).

(* src/runtime/src/turbo_state_graph.c 854-895 turbo_state_graph_reduce_channel *)
Definition reduce_add (channel : channel_entry) (current : option J) (update : J) : em J :=
  if negb (is_number (Some update)) then em_fail TURBO_STATE_GRAPH_TYPE_MISMATCH
  else if match current with
          | Some c => negb (is_number (Some c)) && negb (bool_decide (json_type c = JSON_NULL))
          | None => false
          end then em_fail TURBO_STATE_GRAPH_TYPE_MISMATCH
  else if is_number current || is_number (Some update) ||
          bool_decide (ch_value_kind channel = JSON_NUMBER)
  then em_mem (create (json_create_number (double_add (addend current) (addend (Some update)))))
  else em_mem (create (json_create_int64 (turbo_runtime_json_value_as_int64 current 0 +
                                          turbo_runtime_json_value_as_int64 (Some update) 0))).

(** Append, merge and add check their operands themselves. *)
(* src/runtime/src/turbo_state_graph.c 754-899 turbo_state_graph_reduce_channel *)
Definition turbo_state_graph_reduce_channel (channel : channel_entry) (current : option J) (update : J)
  : em J :=
  let status := turbo_state_graph_validate_channel_value channel update in
  match ch_reducer channel with
  | TURBO_STATE_GRAPH_REDUCER_REPLACE =>
      _ ← em_check status; em_mem (create (json_clone update))
  | TURBO_STATE_GRAPH_REDUCER_LAST_NON_NULL =>
      _ ← em_check status;
      if bool_decide (json_type update = JSON_NULL)
      then em_mem (turbo_state_graph_channel_base_value channel current)
      else em_mem (create (json_clone update))
  | TURBO_STATE_GRAPH_REDUCER_APPEND => reduce_append channel current update
  | TURBO_STATE_GRAPH_REDUCER_MERGE_OBJECT => turbo_state_graph_merge_object_values current update
  | TURBO_STATE_GRAPH_REDUCER_ADD => reduce_add channel current update
  end.

(* src/runtime/src/turbo_state_graph.c 321-336 turbo_state_graph_find_channel_index *)
Definition turbo_state_graph_find_channel (channels : list channel_entry) (name : string)
  : option channel_entry :=
  List.find (fun ch => bool_decide (ch_name ch = name)) channels.

(** The members that were merged before a failing one stay merged. *)
(* src/runtime/src/turbo_state_graph.c 913-944 turbo_state_graph_apply_update *)
Fixpoint apply_keys (channels : list channel_entry) (update : J) (names : list string) (state : J)
    (o : oracle) : turbo_state_graph_status * J * oracle :=
  match names with
  | [] => (TURBO_STATE_GRAPH_OK, state, o)
  | key :: names =>
      match json_object_get update key with
      | None => (TURBO_STATE_GRAPH_INVALID_UPDATE, state, o)
      | Some update_value =>
          match turbo_state_graph_find_channel channels key with
          | None => (TURBO_STATE_GRAPH_CHANNEL_NOT_FOUND, state, o)
          | Some channel =>
              match turbo_state_graph_reduce_channel channel (json_object_get state key) update_value o with
              | (inl merged, o) =>
                  match put state key merged o with
                  | (Some state, o) => apply_keys channels update names state o
                  | (None, o) => (TURBO_STATE_GRAPH_OUT_OF_MEMORY, state, o)
                  end
              | (inr status, o) => (status, state, o)
              end
          end
      end
  end.

(* src/runtime/src/turbo_state_graph.c 901-947 turbo_state_graph_apply_update *)
Definition turbo_state_graph_apply_update (channels : list channel_entry) (state update : J) (o : oracle)
  : turbo_state_graph_status * J * oracle :=
  if negb (bool_decide (json_type state = JSON_OBJECT)) || negb (bool_decide (json_type update = JSON_OBJECT))
  then (TURBO_STATE_GRAPH_TYPE_MISMATCH, state, o)
  else apply_keys channels update (keys update) state o.

(* src/runtime/src/turbo_state_graph.c 1035-1057 turbo_state_graph_seed_defaults *)
Definition turbo_state_graph_seed_defaults (channels : list channel_entry) (state : J) : em J :=
  em_fold (fun state channel =>
    value ← em_mem (turbo_state_graph_channel_base_value channel None);
    em_mem (put state (ch_name channel) value)) channels state.

End channels.

(** ** Graphs *)

Section graph.
Context {W J : Type} `{JsonSetters J, !JsonMembers J, !JsonHeight J}.

(* src/runtime/src/turbo_state_graph.c 67-70 turbo_state_graph_pending_send_s *)
Record pending_send : Type := mk_send { send_target : string; send_update : J }.

(** The context has no back pointer to its graph: [ctx_set_next] takes the graph. *)
(* src/runtime/include/turbo_state_graph.h 55-66 turbo_state_graph_exec_ctx_t *)
Record exec_ctx : Type := mk_ctx {
  ctx_state : J;
  ctx_update : J;
  ctx_current_node : string;
  ctx_next_node : option string;
  ctx_sends : list pending_send;
  ctx_send_capacity : Z;
  ctx_step : Z;
  ctx_stop : bool
}.

(** A node answers a status and what it did to its context; the state is read only. *)
(* src/runtime/include/turbo_state_graph.h 68-69 turbo_state_graph_json_value_node_fn *)
Definition node_fn : Type := exec_ctx -> W -> oracle -> Z * exec_ctx * W * oracle.

(* src/runtime/include/turbo_state_graph.h 70-71 turbo_state_graph_json_value_edge_predicate_fn *)
Definition predicate_fn : Type := J -> W -> Z * W.

(* src/runtime/src/turbo_state_graph.c 20-25 turbo_state_graph_node_entry_t *)
Record node_entry : Type := mk_node { node_name : string; node_json_value_fn : node_fn }.

(* src/runtime/src/turbo_state_graph.c 27-32 turbo_state_graph_edge_entry_t *)
Record edge_entry : Type := mk_edge {
  from_index : nat;
  to_index : nat;
  edge_predicate : option predicate_fn
}.

(* src/runtime/src/turbo_state_graph.c 34-37 turbo_state_graph_thread_entry_t *)
Record thread_entry : Type := mk_thread { th_id : string; th_current_run_id : option string }.

(* src/runtime/src/turbo_state_graph.c 39-52 turbo_state_graph_history_entry_t *)
Record history_entry : Type := mk_history {
  he_id : string;
  he_checkpoint_id : string;
  he_thread_id : string;
  he_run_id : string;
  he_source_name : option string;
  he_reason : option string;
  he_last_node : option string;
  he_next_node : option string;
  he_source_kind : turbo_state_graph_source_kind;
  he_step : Z;
  he_update : J;
  he_state : J
}.

(* src/runtime/src/turbo_state_graph.c 54-65 turbo_state_graph_run_entry_t *)
Record run_entry : Type := mk_run {
  run_id : string;
  run_thread_id : string;
  run_parent_run_id : option string;
  run_forked_from : option string;
  run_latest : option string;
  run_current_node : option string;
  run_steps : Z;
  run_interrupted : bool;
  run_completed : bool;
  run_state : J
}.

(* src/runtime/src/turbo_state_graph.c 81-106 turbo_state_graph_s *)
Record state_graph : Type := mk_graph {
  graph_name : option string;
  entry_node : option string;
  channels : list (channel_entry (J := J));
  channel_capacity : Z;
  nodes : list node_entry;
  node_capacity : Z;
  edges : list edge_entry;
  edge_capacity : Z;
  threads : list thread_entry;
  thread_capacity : Z;
  runs : list run_entry;
  run_capacity : Z;
  history : list history_entry;
  history_capacity : Z;
  next_thread_id : Z;
  next_run_id : Z;
  next_history_id : Z;
  next_checkpoint_id : Z
}.

(* src/runtime/include/turbo_state_graph.h 80-86 turbo_state_graph_run_options_t *)
Record run_options : Type := mk_options {
  max_steps : Z;
  start_node : option string;
  interrupt_before_nodes : list (option string);
  skip_initial_interrupt : bool
}.

(* src/runtime/include/turbo_state_graph.h 88-91 turbo_state_graph_history_options_t *)
Record history_options : Type := mk_history_options { as_node : option string; reason : option string }.

(* src/runtime/include/turbo_state_graph.h 102-111 turbo_state_graph_run_result_t *)
Record run_result : Type := mk_result {
  res_status : turbo_state_graph_status;
  res_thread_id : option string;
  res_run_id : option string;
  res_history_entry_id : option string;
  res_checkpoint_id : option string;
  res_last_node : option string;
  res_next_node : option string;
  res_steps : Z
}.

(** ** Changing one part of a graph *)

Definition set_entry_node (n : option string) (g : state_graph) : state_graph :=
  mk_graph (graph_name g) n (channels g) (channel_capacity g) (nodes g) (node_capacity g) (edges g)
    (edge_capacity g) (threads g) (thread_capacity g) (runs g) (run_capacity g) (history g)
    (history_capacity g) (next_thread_id g) (next_run_id g) (next_history_id g) (next_checkpoint_id g).
Definition set_channels (l : list channel_entry) (n : Z) (g : state_graph) : state_graph :=
  mk_graph (graph_name g) (entry_node g) l n (nodes g) (node_capacity g) (edges g)
    (edge_capacity g) (threads g) (thread_capacity g) (runs g) (run_capacity g) (history g)
    (history_capacity g) (next_thread_id g) (next_run_id g) (next_history_id g) (next_checkpoint_id g).
Definition set_nodes (l : list node_entry) (n : Z) (g : state_graph) : state_graph :=
  mk_graph (graph_name g) (entry_node g) (channels g) (channel_capacity g) l n (edges g)
    (edge_capacity g) (threads g) (thread_capacity g) (runs g) (run_capacity g) (history g)
    (history_capacity g) (next_thread_id g) (next_run_id g) (next_history_id g) (next_checkpoint_id g).
Definition set_edges (l : list edge_entry) (n : Z) (g : state_graph) : state_graph :=
  mk_graph (graph_name g) (entry_node g) (channels g) (channel_capacity g) (nodes g) (node_capacity g)
    l n (threads g) (thread_capacity g) (runs g) (run_capacity g) (history g)
    (history_capacity g) (next_thread_id g) (next_run_id g) (next_history_id g) (next_checkpoint_id g).
Definition set_threads (l : list thread_entry) (n : Z) (g : state_graph) : state_graph :=
  mk_graph (graph_name g) (entry_node g) (channels g) (channel_capacity g) (nodes g) (node_capacity g)
    (edges g) (edge_capacity g) l n (runs g) (run_capacity g) (history g)
    (history_capacity g) (next_thread_id g) (next_run_id g) (next_history_id g) (next_checkpoint_id g).
Definition set_runs (l : list run_entry) (n : Z) (g : state_graph) : state_graph :=
  mk_graph (graph_name g) (entry_node g) (channels g) (channel_capacity g) (nodes g) (node_capacity g)
    (edges g) (edge_capacity g) (threads g) (thread_capacity g) l n (history g)
    (history_capacity g) (next_thread_id g) (next_run_id g) (next_history_id g) (next_checkpoint_id g).
Definition set_history (l : list history_entry) (n : Z) (g : state_graph) : state_graph :=
  mk_graph (graph_name g) (entry_node g) (channels g) (channel_capacity g) (nodes g) (node_capacity g)
    (edges g) (edge_capacity g) (threads g) (thread_capacity g) (runs g) (run_capacity g) l n
    (next_thread_id g) (next_run_id g) (next_history_id g) (next_checkpoint_id g).
Definition set_counters (t r h c : Z) (g : state_graph) : state_graph :=
  mk_graph (graph_name g) (entry_node g) (channels g) (channel_capacity g) (nodes g) (node_capacity g)
    (edges g) (edge_capacity g) (threads g) (thread_capacity g) (runs g) (run_capacity g) (history g)
    (history_capacity g) t r h c.

(** The run at an index, changed by [f]. *)
Definition update_run (r : nat) (f : run_entry -> run_entry) (g : state_graph) : state_graph :=
  set_runs (alter f r (runs g)) (run_capacity g) g.

Definition run_at_node (node : option string) (steps : Z) (interrupted completed : bool) (x : run_entry)
  : run_entry :=
  mk_run (run_id x) (run_thread_id x) (run_parent_run_id x) (run_forked_from x) (run_latest x) node steps
    interrupted completed (run_state x).
Definition run_with_state (s : J) (x : run_entry) : run_entry :=
  mk_run (run_id x) (run_thread_id x) (run_parent_run_id x) (run_forked_from x) (run_latest x)
    (run_current_node x) (run_steps x) (run_interrupted x) (run_completed x) s.
Definition run_with_latest (l : option string) (x : run_entry) : run_entry :=
  mk_run (run_id x) (run_thread_id x) (run_parent_run_id x) (run_forked_from x) l
    (run_current_node x) (run_steps x) (run_interrupted x) (run_completed x) (run_state x).

(** ** Operations on a graph

    An operation goes on with a value or returns: a status, the result it wrote
    and the state it handed out. *)
Record sg_return : Type := mk_return {
  ret_status : turbo_state_graph_status;
  ret_result : option run_result;
  ret_state : option J
}.

Definition sg (A : Type) : Type := state_graph -> W -> oracle -> (A + sg_return) * state_graph * W * oracle.

#[global] Instance sg_ret : MRet sg := fun A x g w o => (inl x, g, w, o).
#[global] Instance sg_bind : MBind sg := fun A B k m g w o =>
  match m g w o with
  | (inl x, g, w, o) => k x g w o
  | (inr r, g, w, o) => (inr r, g, w, o)
  end.

Definition leave {A} (st : turbo_state_graph_status) : sg A := fun g w o =>
  (inr (mk_return st None None), g, w, o).

Definition get_graph : sg state_graph := fun g w o => (inl g, g, w, o).
Definition modify (f : state_graph -> state_graph) : sg unit := fun g w o => (inl tt, f g, w, o).

Definition lift {A} (m : em A) : sg A := fun g w o =>
  match m o with
  | (inl x, o) => (inl x, g, w, o)
  | (inr st, o) => (inr (mk_return st None None), g, w, o)
  end.

Definition lift_mem {A} (m : mem A) : sg A := lift (em_mem m).

(** Something that is there, or a status. *)
Definition found {A} (x : option A) (st : turbo_state_graph_status) : sg A :=
  match x with Some x => mret x | None => leave st end.

(** [n] copies; the lack of memory ends the operation. *)
Definition copied (n : nat) : sg unit := fun g w o =>
  let (ok, o) := alloc_all n o in
  if ok then (inl tt, g, w, o) else (inr (mk_return TURBO_STATE_GRAPH_OUT_OF_MEMORY None None), g, w, o).

(** [n] copies whose lack is seen to later. *)
Definition tried (n : nat) : sg bool := fun g w o =>
  let (ok, o) := alloc_all n o in (inl ok, g, w, o).

(** The capacity afterwards, or none when memory fails. *)
(* src/runtime/src/turbo_state_graph.c 292-319 turbo_state_graph_reserve *)
Definition turbo_state_graph_reserve (capacity count : Z) (o : oracle) : option Z * oracle :=
  if count <=? capacity then (Some capacity, o)
  else
    let next := if capacity =? 0 then 4 else u64 (capacity * 2) in
    let next := if next <? count then count else next in
    let (ok, o) := alloc o in (if ok then Some next else None, o).

Definition reserved (capacity : Z) (count : nat) : sg Z := fun g w o =>
  match turbo_state_graph_reserve capacity (Z.of_nat count) o with
  | (Some n, o) => (inl n, g, w, o)
  | (None, o) => (inr (mk_return TURBO_STATE_GRAPH_OUT_OF_MEMORY None None), g, w, o)
  end.

(* src/runtime/src/turbo_state_graph.c 151-160 turbo_state_graph_make_id *)
Definition turbo_state_graph_make_id (prefix : string) (value : Z) : string :=
  (prefix ++ "-" ++ pretty value)%string.

(** ** Lookups *)

Fixpoint index_of {A} (p : A -> bool) (l : list A) : option nat :=
  match l with
  | [] => None
  | x :: l => if p x then Some 0%nat else S <$> index_of p l
  end.

(* src/runtime/src/turbo_state_graph.c 338-353 turbo_state_graph_find_node_index *)
Definition turbo_state_graph_find_node_index (g : state_graph) (name : string) : option nat :=
  index_of (fun n => bool_decide (node_name n = name)) (nodes g).

(* src/runtime/src/turbo_state_graph.c 355-370 turbo_state_graph_find_thread *)
Definition turbo_state_graph_find_thread (g : state_graph) (thread_id : string) : option nat :=
  index_of (fun t => bool_decide (th_id t = thread_id)) (threads g).

(* src/runtime/src/turbo_state_graph.c 413-428 turbo_state_graph_find_run *)
Definition turbo_state_graph_find_run (g : state_graph) (id : string) : option nat :=
  index_of (fun r => bool_decide (run_id r = id)) (runs g).

(* src/runtime/src/turbo_state_graph.c 430-445 turbo_state_graph_find_history *)
Definition turbo_state_graph_find_history (g : state_graph) (id : option string) : option history_entry :=
  id ← id; List.find (fun h => bool_decide (he_id h = id)) (history g).

(* src/runtime/src/turbo_state_graph.c 447-462 turbo_state_graph_find_checkpoint *)
Definition turbo_state_graph_find_checkpoint (g : state_graph) (id : string) : option history_entry :=
  List.find (fun h => bool_decide (he_checkpoint_id h = id)) (history g).

(* src/runtime/src/turbo_state_graph.c 372-390 turbo_state_graph_latest_run_for_thread *)
Definition turbo_state_graph_latest_run_for_thread (g : state_graph) (thread_id : string)
  : option run_entry :=
  last (filter (fun r => run_thread_id r = thread_id) (runs g)).

(* src/runtime/src/turbo_state_graph.c 392-411 turbo_state_graph_pending_run_for_thread *)
Definition turbo_state_graph_pending_run_for_thread (g : state_graph) (thread_id : string)
  : option run_entry :=
  List.find (fun r => bool_decide (run_thread_id r = thread_id) && run_interrupted r) (rev (runs g)).

(** The run at an index that an operation holds. *)
Definition current_run (r : nat) : sg run_entry := fun g w o =>
  match runs g !! r with
  | Some x => (inl x, g, w, o)
  | None => (inr (mk_return TURBO_STATE_GRAPH_INVALID_ARGUMENT None None), g, w, o)
  end.

(** The update is applied to the state of the run in place. *)
Definition apply_state (r : nat) (state update : J) : sg unit := fun g w o =>
  let '(st, state, o) := turbo_state_graph_apply_update (channels g) state update o in
  let g := update_run r (run_with_state state) g in
  match st with
  | TURBO_STATE_GRAPH_OK => (inl tt, g, w, o)
  | st => (inr (mk_return st None None), g, w, o)
  end.

Definition apply_to_run (r : nat) (update : J) : sg unit :=
  x ← current_run r; apply_state r (run_state x) update.

(** ** History *)

(* src/runtime/src/turbo_state_graph.c 1159-1227 turbo_state_graph_add_history_record *)
Definition turbo_state_graph_add_history_record (r : nat) (source_kind : turbo_state_graph_source_kind)
    (source_name reason last_node next_node : option string) (step : Z) (update : option J) (state : J)
  : sg history_entry :=
  g ← get_graph;
  capacity ← reserved (history_capacity g) (length (history g) + 1);
  _ ← modify (set_history (history g) capacity);
  _ ← copied 2;
  g ← get_graph;
  let h := u64 (next_history_id g + 1) in
  let c := u64 (next_checkpoint_id g + 1) in
  _ ← modify (set_counters (next_thread_id g) (next_run_id g) h c);
  _ ← copied (4 + copies [source_name; reason; last_node; next_node]);
  run ← current_run r;
  let entry := mk_history (turbo_state_graph_make_id "history" h)
    (turbo_state_graph_make_id "checkpoint" c) (run_thread_id run) (run_id run) source_name reason
    last_node next_node source_kind step
    (match update with Some u => json_clone u | None => json_create_object end) (json_clone state) in
  _ ← modify (update_run r (run_with_latest None));
  _ ← copied 1;
  _ ← modify (update_run r (run_with_latest (Some (he_id entry))));
  _ ← modify (fun g => set_history (history g ++ [entry]) (history_capacity g) g);
  mret entry.

(** ** Threads and runs *)

(** An identifier that was asked for finds its thread; otherwise one is made. *)
(* src/runtime/src/turbo_state_graph.c 1078-1115 turbo_state_graph_add_thread_record *)
Definition turbo_state_graph_add_thread_record (requested : option string) : sg nat :=
  g ← get_graph;
  let asked := match requested with Some EmptyString => None | r => r end in
  match id ← asked; turbo_state_graph_find_thread g id with
  | Some t => mret t
  | None =>
      id ← match asked with
           | Some id => mret id
           | None =>
               let n := u64 (next_thread_id g + 1) in
               _ ← modify (set_counters n (next_run_id g) (next_history_id g) (next_checkpoint_id g));
               mret (turbo_state_graph_make_id "thread" n)
           end;
      _ ← copied 1;
      capacity ← reserved (thread_capacity g) (length (threads g) + 1);
      _ ← modify (set_threads (threads g ++ [mk_thread id None]) capacity);
      mret (length (threads g))
  end.

(* src/runtime/src/turbo_state_graph.c 1117-1157 turbo_state_graph_add_run_record *)
Definition turbo_state_graph_add_run_record (thread_id : string) (parent forked_from : option string)
    (state : J) (current_node : option string) (steps : Z) : sg nat :=
  g ← get_graph;
  capacity ← reserved (run_capacity g) (length (runs g) + 1);
  let n := u64 (next_run_id g + 1) in
  _ ← modify (set_counters (next_thread_id g) n (next_history_id g) (next_checkpoint_id g));
  _ ← modify (set_runs (runs g) capacity);
  _ ← copied (3 + copies [parent; forked_from; current_node]);
  let run := mk_run (turbo_state_graph_make_id "run" n) thread_id parent forked_from None current_node
    steps false (bool_decide (current_node = None)) (json_clone state) in
  _ ← modify (set_runs (runs g ++ [run]) capacity);
  mret (length (runs g)).

(* src/runtime/src/turbo_state_graph.c 1626-1670 turbo_state_graph_seed_run *)
Definition turbo_state_graph_seed_run (r : nat) (source_kind : turbo_state_graph_source_kind)
    (source_name reason : option string) (update : option J) (next_node : option string) (step : Z)
  : sg history_entry :=
  update_object ← lift_mem (create (match update with Some u => json_clone u | None => json_create_object end));
  _ ← (if bool_decide (json_type update_object = JSON_OBJECT) then mret tt
       else leave TURBO_STATE_GRAPH_TYPE_MISMATCH);
  _ ← apply_to_run r update_object;
  _ ← modify (update_run r (fun x =>
        run_at_node None (run_steps x) (run_interrupted x) (run_completed x) x));
  _ ← copied (copies [next_node]);
  _ ← modify (update_run r (run_at_node next_node step false (bool_decide (next_node = None))));
  run ← current_run r;
  turbo_state_graph_add_history_record r source_kind source_name reason None next_node step
    (Some update_object) (run_state run).

(** The run a thread is at. *)
Definition make_current (t : nat) (r : nat) : sg unit :=
  let point run_id t := mk_thread (th_id t) run_id in
  _ ← modify (fun g => set_threads (alter (point None) t (threads g)) (thread_capacity g) g);
  run ← current_run r;
  _ ← copied 1;
  modify (fun g => set_threads (alter (point (Some (run_id run))) t (threads g)) (thread_capacity g) g).

(** ** Execution *)

(** A node is called; a status other than 0 is an error. *)
Definition call_node (node : node_entry) (ctx : exec_ctx) : sg exec_ctx := fun g w o =>
  let '(callback_status, ctx, w, o) := node_json_value_fn node ctx w o in
  if callback_status =? 0 then (inl ctx, g, w, o)
  else (inr (mk_return TURBO_STATE_GRAPH_ERROR None None), g, w, o).

(** The update of a send, then the node it is for; such a node routes nothing. *)
(* src/runtime/src/turbo_state_graph.c 965-1033 turbo_state_graph_execute_send_node *)
Definition turbo_state_graph_execute_send_node (r : nat) (send : pending_send) (step : Z)
  : sg history_entry :=
  _ ← (if bool_decide (json_type (send_update send) = JSON_OBJECT) then mret tt
       else leave TURBO_STATE_GRAPH_TYPE_MISMATCH);
  g ← get_graph;
  target ← found (turbo_state_graph_find_node_index g (send_target send)) TURBO_STATE_GRAPH_NODE_NOT_FOUND;
  node ← found (nodes g !! target) TURBO_STATE_GRAPH_NODE_NOT_FOUND;
  branch_update ← lift_mem (create (json_clone (send_update send)));
  _ ← apply_to_run r branch_update;
  run ← current_run r;
  _ ← turbo_state_graph_add_history_record r TURBO_STATE_GRAPH_SOURCE_NODE (Some (send_target send))
        (Some "send") None (Some (send_target send)) step (Some branch_update) (run_state run);
  node_update ← lift_mem create_object;
  run ← current_run r;
  ctx ← call_node node (mk_ctx (run_state run) node_update (node_name node) None [] 0 step false);
  _ ← (if bool_decide (ctx_sends ctx <> []) || bool_decide (is_Some (ctx_next_node ctx)) || ctx_stop ctx
       then leave TURBO_STATE_GRAPH_ERROR else mret tt);
  _ ← apply_to_run r (ctx_update ctx);
  run ← current_run r;
  turbo_state_graph_add_history_record r TURBO_STATE_GRAPH_SOURCE_NODE (Some (node_name node))
    (Some "send_target") (Some (node_name node)) None step (Some (ctx_update ctx)) (run_state run).

(* src/runtime/src/turbo_state_graph.c 1059-1076 turbo_state_graph_should_interrupt_before *)
Definition turbo_state_graph_should_interrupt_before (options : option run_options) (node_name : string)
  : bool :=
  match options with
  | Some opt => existsb (fun c => bool_decide (c = Some node_name)) (interrupt_before_nodes opt)
  | None => false
  end.

(** The first edge from the node that matches; [saw]: an edge from the node was seen. *)
(* src/runtime/src/turbo_state_graph.c 1541-1558 turbo_state_graph_execute_run *)
Fixpoint first_route (current_index : nat) (state : J) (l : list edge_entry) (saw : bool) (w : W)
  : bool * option nat * W :=
  match l with
  | [] => (saw, None, w)
  | edge :: l =>
      if negb (from_index edge =? current_index)%nat then first_route current_index state l saw w
      else
        let (matches, w) := match edge_predicate edge with
                            | Some predicate => predicate state w
                            | None => (1, w)
                            end in
        if negb (matches =? 0) then (true, Some (to_index edge), w)
        else first_route current_index state l true w
  end.

Definition take_route (current_index : nat) (state : J) : sg (bool * option nat) := fun g w o =>
  let '(saw, to, w) := first_route current_index state (edges g) false w in (inl (saw, to), g, w, o).

(** The next node: the one the node asked for, else along the edges. *)
(* src/runtime/src/turbo_state_graph.c 1538-1564 turbo_state_graph_execute_run *)
Definition resolve_next (r current_index : nat) (ctx : exec_ctx) : sg (option string) :=
  match ctx_next_node ctx with
  | Some next => mret (Some next)
  | None =>
      g ← get_graph;
      run ← current_run r;
      routed ← take_route current_index (run_state run);
      match routed with
      | (true, None) => leave TURBO_STATE_GRAPH_ROUTE_NOT_FOUND
      | (_, None) => mret None
      | (_, Some to) =>
          node ← found (nodes g !! to) TURBO_STATE_GRAPH_NODE_NOT_FOUND;
          mret (Some (node_name node))
      end
  end.

(** The result of a run whose last recorded entry is [latest]. *)
Definition result_of (status : turbo_state_graph_status) (run : run_entry) (latest : option history_entry)
    (next_node : option string) (steps : Z) : run_result :=
  mk_result status (Some (run_thread_id run)) (Some (run_id run)) (he_id <$> latest)
    (he_checkpoint_id <$> latest) (latest ≫= he_last_node) next_node steps.

(** A return with a copy of the state. *)
Definition hand_out (status : turbo_state_graph_status) (result : run_result) (state : J)
  : sg (option sg_return) := fun g w o =>
  let (ok, o) := alloc o in
  (inl (Some (if ok then mk_return status (Some result) (Some (json_clone state))
              else mk_return TURBO_STATE_GRAPH_OUT_OF_MEMORY (Some result) None)), g, w, o).

Fixpoint sg_sends (r : nat) (sends : list pending_send) (step : Z) (latest : option history_entry)
  : sg (option history_entry) :=
  match sends with
  | [] => mret latest
  | send :: sends =>
      entry ← turbo_state_graph_execute_send_node r send step;
      sg_sends r sends step (Some entry)
  end.

(** The run stands before [node]: a copy of its name, then the flags. *)
Definition stand_before (r : nat) (node : option string) (steps : Z) : sg unit :=
  ok ← tried (copies [node]);
  _ ← modify (update_run r (run_at_node (if (ok : bool) then node else None) steps false
                              (bool_decide (node = None))));
  if (ok : bool) then mret tt else leave TURBO_STATE_GRAPH_OUT_OF_MEMORY.

(** One node: its update, its sends, the route and the record. *)
(* src/runtime/src/turbo_state_graph.c 1496-1594 turbo_state_graph_execute_run *)
Definition run_node (r : nat) (current_node : string) (steps : Z) (latest : option history_entry)
  : sg (exec_ctx * option string * history_entry) :=
  g ← get_graph;
  current_index ← found (turbo_state_graph_find_node_index g current_node) TURBO_STATE_GRAPH_NODE_NOT_FOUND;
  node ← found (nodes g !! current_index) TURBO_STATE_GRAPH_NODE_NOT_FOUND;
  update ← lift_mem create_object;
  run ← current_run r;
  ctx ← call_node node (mk_ctx (run_state run) update (node_name node) None [] 0 steps false);
  _ ← apply_to_run r (ctx_update ctx);
  _ ← sg_sends r (ctx_sends ctx) (u64 (steps + 1)) latest;
  next ← resolve_next r current_index ctx;
  _ ← stand_before r next (u64 (steps + 1));
  run ← current_run r;
  entry ← turbo_state_graph_add_history_record r TURBO_STATE_GRAPH_SOURCE_NODE (Some (node_name node)) None
    (Some (node_name node)) next (u64 (steps + 1)) (Some (ctx_update ctx)) (run_state run);
  mret (ctx, next, entry).

(** The step limit; the copy of the node's name is not checked. *)
(* src/runtime/src/turbo_state_graph.c 1469-1478 turbo_state_graph_execute_run *)
Definition stop_at_limit (r : nat) (current_node : string) (steps : Z) (latest : option history_entry)
  : sg (option sg_return) :=
  ok ← tried 1;
  _ ← modify (update_run r (fun x =>
        run_at_node (if (ok : bool) then Some current_node else None) (run_steps x) false false x));
  run ← current_run r;
  mret (Some (mk_return TURBO_STATE_GRAPH_STEP_LIMIT
    (Some (result_of TURBO_STATE_GRAPH_STEP_LIMIT run latest (Some current_node) steps)) None)).

(* src/runtime/src/turbo_state_graph.c 1480-1500 turbo_state_graph_execute_run *)
Definition interrupt_before (r : nat) (current_node : string) (steps : Z) (latest : option history_entry)
  : sg (option sg_return) :=
  _ ← copied 1;
  _ ← modify (update_run r (fun x => run_at_node (Some current_node) (run_steps x) true false x));
  run ← current_run r;
  hand_out TURBO_STATE_GRAPH_INTERRUPTED
    (result_of TURBO_STATE_GRAPH_INTERRUPTED run latest (Some current_node) steps) (run_state run).

(** A run that has no node left, or was stopped by its node. *)
(* src/runtime/src/turbo_state_graph.c 1596-1624 turbo_state_graph_execute_run *)
Definition finish_run (r : nat) (status : turbo_state_graph_status) (latest : option history_entry) (steps : Z)
  : sg (option sg_return) :=
  run ← current_run r;
  hand_out status (result_of status run latest None steps) (run_state run).

(* src/runtime/src/turbo_state_graph.c 1456-1618 turbo_state_graph_execute_run *)
Fixpoint run_loop (fuel : nat) (r : nat) (options : option run_options) (current_node : string) (steps : Z)
    (skip : bool) (latest : option history_entry) : sg (option sg_return) :=
  match fuel with
  | O => mret None
  | S fuel =>
      if match options with Some opt => (0 <? max_steps opt) && (max_steps opt <=? steps) | None => false end
      then stop_at_limit r current_node steps latest
      else if negb skip && turbo_state_graph_should_interrupt_before options current_node
      then interrupt_before r current_node steps latest
      else
        ran ← run_node r current_node steps latest;
        let '(ctx, next, entry) := ran in
        if ctx_stop ctx then
          _ ← modify (update_run r (fun x => run_at_node None (run_steps x) false true x));
          finish_run r TURBO_STATE_GRAPH_STOP (Some entry) (u64 (steps + 1))
        else
          match next with
          | Some next => run_loop fuel r options next (u64 (steps + 1)) false (Some entry)
          | None => finish_run r TURBO_STATE_GRAPH_OK (Some entry) (u64 (steps + 1))
          end
  end.

(* src/runtime/src/turbo_state_graph.c 1432-1624 turbo_state_graph_execute_run *)
Definition turbo_state_graph_execute_run (fuel : nat) (r : nat) (options : option run_options)
  : sg (option sg_return) :=
  g ← get_graph;
  run ← current_run r;
  let current_node := match options ≫= start_node with Some n => Some n | None => run_current_node run end in
  let latest := turbo_state_graph_find_history g (run_latest run) in
  match current_node with
  | None =>
      _ ← modify (update_run r (fun x => run_at_node (run_current_node x) (run_steps x) false true x));
      mret (Some (mk_return TURBO_STATE_GRAPH_RUN_COMPLETED
        (Some (result_of TURBO_STATE_GRAPH_RUN_COMPLETED run latest None (run_steps run))) None))
  | Some n =>
      run_loop fuel r options n (run_steps run)
        (match options with Some opt => skip_initial_interrupt opt | None => false end) latest
  end.

(** A call from outside: what it returns, with the graph, the world and the oracle
    after it; None when the fuel was not enough. *)
Definition call (m : sg (option sg_return)) (g : state_graph) (w : W) (o : oracle)
  : option sg_return * state_graph * W * oracle :=
  match m g w o with
  | (inl x, g, w, o) => (x, g, w, o)
  | (inr r, g, w, o) => (Some r, g, w, o)
  end.

(** ** The operations of a graph *)

(* src/runtime/src/turbo_state_graph.c 2085-2146 turbo_state_graph_start *)
Definition turbo_state_graph_start (fuel : nat) (thread_id : option string) (input_state : option J)
    (options : option run_options) : sg (option sg_return) :=
  g ← get_graph;
  start ← found (match options ≫= start_node with Some n => Some n | None => entry_node g end)
            TURBO_STATE_GRAPH_INVALID_ARGUMENT;
  seed_state ← lift_mem create_object;
  seed_state ← lift (turbo_state_graph_seed_defaults (channels g) seed_state);
  t ← turbo_state_graph_add_thread_record thread_id;
  g ← get_graph;
  thread ← found (threads g !! t) TURBO_STATE_GRAPH_INVALID_ARGUMENT;
  r ← turbo_state_graph_add_run_record (th_id thread) None None seed_state (Some start) 0;
  _ ← turbo_state_graph_seed_run r TURBO_STATE_GRAPH_SOURCE_START (Some "start") None input_state
        (Some start) 0;
  _ ← make_current t r;
  turbo_state_graph_execute_run fuel r options.

(* src/runtime/src/turbo_state_graph.c 2148-2180 turbo_state_graph_resume *)
Definition turbo_state_graph_resume (fuel : nat) (id : option string) (options : option run_options)
  : sg (option sg_return) :=
  id ← found id TURBO_STATE_GRAPH_INVALID_ARGUMENT;
  g ← get_graph;
  r ← found (turbo_state_graph_find_run g id) TURBO_STATE_GRAPH_RUN_NOT_FOUND;
  run ← current_run r;
  _ ← found (run_current_node run) TURBO_STATE_GRAPH_RUN_COMPLETED;
  t ← found (turbo_state_graph_find_thread g (run_thread_id run)) TURBO_STATE_GRAPH_THREAD_NOT_FOUND;
  _ ← make_current t r;
  turbo_state_graph_execute_run fuel r options.

(* src/runtime/src/turbo_state_graph.c 2182-2238 turbo_state_graph_update_state *)
Definition turbo_state_graph_update_state (id : option string) (update : option J)
    (options : option history_options) : sg (option sg_return) :=
  id ← found id TURBO_STATE_GRAPH_INVALID_ARGUMENT;
  update ← found update TURBO_STATE_GRAPH_INVALID_ARGUMENT;
  _ ← (if bool_decide (json_type update = JSON_OBJECT) then mret tt
       else leave TURBO_STATE_GRAPH_TYPE_MISMATCH);
  g ← get_graph;
  r ← found (turbo_state_graph_find_run g id) TURBO_STATE_GRAPH_RUN_NOT_FOUND;
  update_object ← lift_mem (create (json_clone update));
  _ ← apply_to_run r update_object;
  run ← current_run r;
  let source_name := default "host_update" (options ≫= as_node) in
  entry ← turbo_state_graph_add_history_record r TURBO_STATE_GRAPH_SOURCE_HOST (Some source_name)
    (options ≫= reason) (Some source_name) (run_current_node run) (run_steps run) (Some update_object)
    (run_state run);
  ok ← tried 1;
  if (ok : bool) then
    mret (Some (mk_return TURBO_STATE_GRAPH_OK
      (Some (result_of TURBO_STATE_GRAPH_OK run (Some entry) (he_next_node entry) (run_steps run)))
      (Some (json_clone (run_state run)))))
  else leave TURBO_STATE_GRAPH_OUT_OF_MEMORY.

(* src/runtime/src/turbo_state_graph.c 2240-2313 turbo_state_graph_branch_from_history *)
Definition turbo_state_graph_branch_from_history (fuel : nat) (history_entry_id : option string)
    (update : option J) (options : option history_options) (run_opts : option run_options)
    (is_current : bool) (source_kind : turbo_state_graph_source_kind) : sg (option sg_return) :=
  id ← found history_entry_id TURBO_STATE_GRAPH_INVALID_ARGUMENT;
  g ← get_graph;
  entry ← found (turbo_state_graph_find_history g (Some id)) TURBO_STATE_GRAPH_HISTORY_NOT_FOUND;
  _ ← found (turbo_state_graph_find_run g (he_run_id entry)) TURBO_STATE_GRAPH_RUN_NOT_FOUND;
  t ← found (turbo_state_graph_find_thread g (he_thread_id entry)) TURBO_STATE_GRAPH_THREAD_NOT_FOUND;
  let forked := bool_decide (source_kind = TURBO_STATE_GRAPH_SOURCE_FORK) in
  r ← turbo_state_graph_add_run_record (he_thread_id entry) (Some (he_run_id entry))
        (if forked then Some (he_id entry) else None) (he_state entry) (he_next_node entry) (he_step entry);
  let source_name :=
    default (if forked then "fork_from_history" else "resume_from_history") (options ≫= as_node) in
  seed ← turbo_state_graph_seed_run r source_kind (Some source_name) (options ≫= reason) update
           (he_next_node entry) (he_step entry);
  _ ← (if is_current then make_current t r else mret tt);
  run ← current_run r;
  match run_current_node run with
  | Some _ => turbo_state_graph_execute_run fuel r run_opts
  | None =>
      ok ← tried 1;
      if (ok : bool) then
        mret (Some (mk_return TURBO_STATE_GRAPH_OK
          (Some (mk_result TURBO_STATE_GRAPH_OK (Some (run_thread_id run)) (Some (run_id run))
                   (Some (he_id seed)) (Some (he_checkpoint_id seed)) None None (run_steps run)))
          (Some (json_clone (run_state run)))))
      else leave TURBO_STATE_GRAPH_OUT_OF_MEMORY
  end.

(* src/runtime/src/turbo_state_graph.c 2315-2325 turbo_state_graph_resume_from_history *)
Definition turbo_state_graph_resume_from_history (fuel : nat) (history_entry_id : option string)
    (update : option J) (options : option history_options) (run_opts : option run_options) :=
  turbo_state_graph_branch_from_history fuel history_entry_id update options run_opts true
    TURBO_STATE_GRAPH_SOURCE_HOST.

(* src/runtime/src/turbo_state_graph.c 2327-2337 turbo_state_graph_fork_from_history *)
Definition turbo_state_graph_fork_from_history (fuel : nat) (history_entry_id : option string)
    (update : option J) (options : option history_options) (run_opts : option run_options) :=
  turbo_state_graph_branch_from_history fuel history_entry_id update options run_opts false
    TURBO_STATE_GRAPH_SOURCE_FORK.

End graph.
