(* ===== verification/StateGraphApi.v ===== *)
(** * Building, reading and saving state graphs (src/runtime/src/turbo_state_graph.c)

    The builder, what a node may do to its context, nodes that run another graph,
    the documents that show threads, runs and history, and snapshots: the whole
    runtime state as a text, and back. *)

From stdpp Require Import pretty.
From S2P Require Import Prelude RuntimeJson JsonBuild JsonMem JsonRecord StateGraph.

#[local] Open Scope string_scope.
#[local] Open Scope list_scope.
#[local] Open Scope Z_scope.

(** ** Building *)

Section builder.
Context {W J : Type} `{JsonSetters J, !JsonMembers J, !JsonHeight J}.

Abbreviation graph := (state_graph (W := W) (J := J)).
Definition built : Type := turbo_state_graph_status * graph * oracle.

(* src/runtime/src/turbo_state_graph.c 1672-1687 turbo_state_graph_create *)
Definition turbo_state_graph_create (name : option string) : mem graph := fun o =>
  let (created, o) := alloc o in
  if created then
    let (named, o) := alloc_all (copies [name]) o in
    (if named then Some (mk_graph name None [] 0 [] 0 [] 0 [] 0 [] 0 [] 0 0 0 0 0) else None, o)
  else (None, o).

(* src/runtime/include/turbo_state_graph.h 73-78 turbo_state_graph_channel_config_t *)
Record channel_config : Type := mk_channel_config {
  cc_reducer : turbo_state_graph_reducer_kind;
  cc_value_kind : json_kind;
  cc_default_value : option J;
  cc_description : option string
}.

(* src/runtime/src/turbo_state_graph.c 1724-1766 turbo_state_graph_add_channel *)
Definition turbo_state_graph_add_channel (g : graph) (name : option string) (config : option channel_config)
    (o : oracle) : built :=
  match name, config with
  | Some name, Some config =>
      if bool_decide (is_Some (turbo_state_graph_find_channel (channels g) name))
      then (TURBO_STATE_GRAPH_DUPLICATE_CHANNEL, g, o)
      else
        match turbo_state_graph_reserve (channel_capacity g) (Z.of_nat (length (channels g)) + 1) o with
        | (None, o) => (TURBO_STATE_GRAPH_OUT_OF_MEMORY, g, o)
        | (Some capacity, o) =>
            let grown := set_channels (channels g) capacity g in
            let (ok, o) := alloc_all (2 + copies [cc_description config]) o in
            if negb ok then (TURBO_STATE_GRAPH_OUT_OF_MEMORY, grown, o)
            else
              let channel := mk_channel name (cc_description config) (cc_reducer config) (cc_value_kind config)
                (match cc_default_value config with Some v => json_clone v | None => json_create_null end) in
              match turbo_state_graph_validate_channel_value channel (ch_default_value channel) with
              | TURBO_STATE_GRAPH_OK =>
                  (TURBO_STATE_GRAPH_OK, set_channels (channels g ++ [channel]) capacity g, o)
              | st => (st, grown, o)
              end
        end
  | _, _ => (TURBO_STATE_GRAPH_INVALID_ARGUMENT, g, o)
  end.

(* src/runtime/src/turbo_state_graph.c 1774-1803 turbo_state_graph_add_json_value_node_owned *)
Definition turbo_state_graph_add_json_value_node_owned (g : graph) (name : option string)
    (fn : option (node_fn (W := W) (J := J))) (o : oracle) : built :=
  match name, fn with
  | Some name, Some fn =>
      if bool_decide (is_Some (turbo_state_graph_find_node_index g name))
      then (TURBO_STATE_GRAPH_DUPLICATE_NODE, g, o)
      else
        match turbo_state_graph_reserve (node_capacity g) (Z.of_nat (length (nodes g)) + 1) o with
        | (None, o) => (TURBO_STATE_GRAPH_OUT_OF_MEMORY, g, o)
        | (Some capacity, o) =>
            let (ok, o) := alloc o in
            if ok then (TURBO_STATE_GRAPH_OK, set_nodes (nodes g ++ [mk_node name fn]) capacity g, o)
            else (TURBO_STATE_GRAPH_OUT_OF_MEMORY, set_nodes (nodes g) capacity g, o)
        end
  | _, _ => (TURBO_STATE_GRAPH_INVALID_ARGUMENT, g, o)
  end.

(* src/runtime/src/turbo_state_graph.c 1768-1772 turbo_state_graph_add_json_value_node *)
Definition turbo_state_graph_add_json_value_node := turbo_state_graph_add_json_value_node_owned.

(* src/runtime/src/turbo_state_graph.c 1969-1998 turbo_state_graph_add_json_value_edge *)
Definition turbo_state_graph_add_json_value_edge (g : graph) (from to : option string)
    (predicate : option (predicate_fn (W := W) (J := J))) (o : oracle) : built :=
  match from, to with
  | Some from, Some to =>
      match turbo_state_graph_find_node_index g from, turbo_state_graph_find_node_index g to with
      | Some f, Some t =>
          match turbo_state_graph_reserve (edge_capacity g) (Z.of_nat (length (edges g)) + 1) o with
          | (None, o) => (TURBO_STATE_GRAPH_OUT_OF_MEMORY, g, o)
          | (Some capacity, o) =>
              (TURBO_STATE_GRAPH_OK, set_edges (edges g ++ [mk_edge f t predicate]) capacity g, o)
          end
      | _, _ => (TURBO_STATE_GRAPH_NODE_NOT_FOUND, g, o)
      end
  | _, _ => (TURBO_STATE_GRAPH_INVALID_ARGUMENT, g, o)
  end.

(* src/runtime/src/turbo_state_graph.c 2000-2018 turbo_state_graph_set_entry *)
Definition turbo_state_graph_set_entry (g : graph) (name : option string) (o : oracle) : built :=
  match name with
  | None => (TURBO_STATE_GRAPH_INVALID_ARGUMENT, g, o)
  | Some name =>
      match turbo_state_graph_find_node_index g name with
      | None => (TURBO_STATE_GRAPH_NODE_NOT_FOUND, g, o)
      | Some _ =>
          let (ok, o) := alloc o in
          if ok then (TURBO_STATE_GRAPH_OK, set_entry_node (Some name) g, o)
          else (TURBO_STATE_GRAPH_OUT_OF_MEMORY, g, o)
      end
  end.

(* src/runtime/src/turbo_state_graph.c 2020-2022 turbo_state_graph_get_entry *)
Definition turbo_state_graph_get_entry (g : option graph) : option string := g ≫= entry_node.

(* src/runtime/src/turbo_state_graph.c 2024-2026 turbo_state_graph_channel_count *)
Definition turbo_state_graph_channel_count (g : option graph) : nat :=
  match g with Some g => length (channels g) | None => 0%nat end.

(* src/runtime/src/turbo_state_graph.c 2028-2030 turbo_state_graph_node_count *)
Definition turbo_state_graph_node_count (g : option graph) : nat :=
  match g with Some g => length (nodes g) | None => 0%nat end.

(* src/runtime/src/turbo_state_graph.c 2032-2034 turbo_state_graph_edge_count *)
Definition turbo_state_graph_edge_count (g : option graph) : nat :=
  match g with Some g => length (edges g) | None => 0%nat end.

(** ** What a node does to its context *)

Abbreviation ctx := (exec_ctx (J := J)).

(* src/runtime/src/turbo_state_graph.c 2036-2046 turbo_state_graph_ctx_set_next *)
Definition turbo_state_graph_ctx_set_next (g : graph) (x : ctx) (next_node : option string)
  : turbo_state_graph_status * ctx :=
  match next_node with
  | None => (TURBO_STATE_GRAPH_INVALID_ARGUMENT, x)
  | Some next =>
      match turbo_state_graph_find_node_index g next with
      | None => (TURBO_STATE_GRAPH_NODE_NOT_FOUND, x)
      | Some _ =>
          (TURBO_STATE_GRAPH_OK, mk_ctx (ctx_state x) (ctx_update x) (ctx_current_node x) (Some next)
             (ctx_sends x) (ctx_send_capacity x) (ctx_step x) (ctx_stop x))
      end
  end.

(* src/runtime/src/turbo_state_graph.c 2048-2051 turbo_state_graph_ctx_goto *)
Definition turbo_state_graph_ctx_goto := turbo_state_graph_ctx_set_next.

(* src/runtime/src/turbo_state_graph.c 2053-2077 turbo_state_graph_ctx_send *)
Definition turbo_state_graph_ctx_send (x : ctx) (target_node : option string) (update : option J)
    (o : oracle) : turbo_state_graph_status * ctx * oracle :=
  let with_sends l capacity := mk_ctx (ctx_state x) (ctx_update x) (ctx_current_node x) (ctx_next_node x)
    l capacity (ctx_step x) (ctx_stop x) in
  match target_node, update with
  | Some target, Some update =>
      if negb (bool_decide (json_type update = JSON_OBJECT)) then (TURBO_STATE_GRAPH_INVALID_ARGUMENT, x, o)
      else
        match turbo_state_graph_reserve (ctx_send_capacity x) (Z.of_nat (length (ctx_sends x)) + 1) o with
        | (None, o) => (TURBO_STATE_GRAPH_OUT_OF_MEMORY, x, o)
        | (Some capacity, o) =>
            let (ok, o) := alloc_all 2 o in
            if ok then
              (TURBO_STATE_GRAPH_OK, with_sends (ctx_sends x ++ [mk_send target (json_clone update)]) capacity, o)
            else (TURBO_STATE_GRAPH_OUT_OF_MEMORY, with_sends (ctx_sends x) capacity, o)
        end
  | _, _ => (TURBO_STATE_GRAPH_INVALID_ARGUMENT, x, o)
  end.

(* src/runtime/src/turbo_state_graph.c 2079-2083 turbo_state_graph_ctx_stop *)
Definition turbo_state_graph_ctx_stop (x : ctx) : ctx :=
  mk_ctx (ctx_state x) (ctx_update x) (ctx_current_node x) (ctx_next_node x) (ctx_sends x)
    (ctx_send_capacity x) (ctx_step x) true.

End builder.

(** ** Documents of the runtime state *)

(** [size_t] as [int64_t] and back. *)
Definition int64_of_size (n : Z) : Z := if n <? 2 ^ 63 then n else n - 2 ^ 64.

(* src/runtime/src/turbo_state_graph.c 245-259 turbo_state_graph_source_kind_text *)
Definition turbo_state_graph_source_kind_text (k : turbo_state_graph_source_kind) : string :=
  match k with
  | TURBO_STATE_GRAPH_SOURCE_START => "start"
  | TURBO_STATE_GRAPH_SOURCE_NODE => "node"
  | TURBO_STATE_GRAPH_SOURCE_HOST => "host"
  | TURBO_STATE_GRAPH_SOURCE_FORK => "fork"
  end.

(** The numbers of the enumeration. *)
(* src/runtime/include/turbo_state_graph.h 38-44 turbo_state_graph_reducer_kind_t *)
Definition reducer_code (r : turbo_state_graph_reducer_kind) : Z :=
  match r with
  | TURBO_STATE_GRAPH_REDUCER_REPLACE => 0
  | TURBO_STATE_GRAPH_REDUCER_APPEND => 1
  | TURBO_STATE_GRAPH_REDUCER_MERGE_OBJECT => 2
  | TURBO_STATE_GRAPH_REDUCER_ADD => 3
  | TURBO_STATE_GRAPH_REDUCER_LAST_NON_NULL => 4
  end.

Section documents.
Context {W J : Type} `{JsonSetters J, !JsonMembers J, !JsonHeight J}.
(** The library's numbers of the kinds of values. *)
Context (kind_code : json_kind -> Z).

Abbreviation graph := (state_graph (W := W) (J := J)).
Abbreviation run := (run_entry (J := J)).
Abbreviation entry := (history_entry (J := J)).

(* src/runtime/src/turbo_state_graph.c 162-181 turbo_state_graph_json_value_object_set_nullable_string *)
Definition set_nullable_string (key : string) (value : option string) : setter J := fun obj o =>
  let (created, o) := alloc o in
  if created then
    turbo_runtime_json_object_set obj (Some key)
      (Some (match value with Some v => json_create_string v | None => json_create_null end)) o
  else (TURBO_RUNTIME_JSON_ERROR, obj, o).

Definition set_clone (key : string) (value : J) : setter J := fun obj o =>
  turbo_runtime_json_object_set_clone obj (Some key) (Some value) o.

Definition set_member (key : string) (value : J) : setter J := fun obj o =>
  turbo_runtime_json_object_set obj (Some key) (Some value) o.

(** [n] new values, all attempted. *)
Definition all_created (n : nat) : mem unit := fun o =>
  let (ok, o) := alloc_all n o in (if ok then Some tt else None, o).

(* src/runtime/src/turbo_state_graph.c 504-531 turbo_state_graph_channel_object *)
Definition turbo_state_graph_channel_object (c : channel_entry (J := J)) : mem J :=
  object ← create_object;
  build_record
    [set_string "name" (Some (ch_name c)); set_int64 "reducer" (reducer_code (ch_reducer c));
     set_int64 "value_kind" (kind_code (ch_value_kind c));
     set_nullable_string "description" (ch_description c);
     set_clone "default_value" (ch_default_value c)] object.

Definition append_object (m : mem J) (array : J) : mem J := object ← m; append array object.

Definition node_name_at (g : graph) (i : nat) : string := default "" (node_name <$> nodes g !! i).

(* src/runtime/src/turbo_state_graph.c 590-602 turbo_state_graph_topology_snapshot *)
Definition edge_object (g : graph) (e : edge_entry (W := W) (J := J)) : mem J :=
  edge ← create_object;
  build_record
    [set_string "from" (Some (node_name_at g (from_index e)));
     set_string "to" (Some (node_name_at g (to_index e)))] edge.

(* src/runtime/src/turbo_state_graph.c 533-624 turbo_state_graph_topology_snapshot *)
Definition turbo_state_graph_topology_snapshot (g : graph) : mem J :=
  _ ← all_created 4;
  root ← build_record
    [set_nullable_string "graph_name" (graph_name g); set_nullable_string "entry_node" (entry_node g)]
    json_create_object;
  chs ← mem_fold (fun a c => append_object (turbo_state_graph_channel_object c) a) (channels g)
          json_create_array;
  ns ← mem_fold (fun a n => append_object (create_string (node_name n)) a) (nodes g) json_create_array;
  es ← mem_fold (fun a e => append_object (edge_object g e) a) (edges g) json_create_array;
  build_record [set_member "channels" chs; set_member "nodes" ns; set_member "edges" es] root.

(* src/runtime/src/turbo_state_graph.c 261-273 turbo_state_graph_run_status_text *)
Definition turbo_state_graph_run_status_text (r : run) : string :=
  if run_completed r then "completed" else if run_interrupted r then "interrupted" else "running".

(* src/runtime/src/turbo_state_graph.c 1229-1282 turbo_state_graph_history_object *)
Definition turbo_state_graph_history_object (h : entry) : mem J :=
  object ← create_object;
  object ← build_record
    [set_string "history_entry_id" (Some (he_id h)); set_string "checkpoint_id" (Some (he_checkpoint_id h));
     set_string "thread_id" (Some (he_thread_id h)); set_string "run_id" (Some (he_run_id h));
     set_string "source_kind" (Some (turbo_state_graph_source_kind_text (he_source_kind h)));
     set_nullable_string "source_name" (he_source_name h); set_nullable_string "reason" (he_reason h);
     set_nullable_string "last_node" (he_last_node h); set_nullable_string "next_node" (he_next_node h);
     set_int64 "step" (int64_of_size (he_step h)); set_clone "update" (he_update h);
     set_clone "state" (he_state h)] object;
  value ← create (json_create_bool true);
  build_record [set_member "checkpointable" value] object.

(** The fields of a run, as they stand in run documents and in branches. *)
(* src/runtime/src/turbo_state_graph.c 1297-1312 turbo_state_graph_run_object *)
Definition run_fields (r : run) : list (setter J) :=
  [set_string "run_id" (Some (run_id r)); set_string "thread_id" (Some (run_thread_id r));
   set_nullable_string "parent_run_id" (run_parent_run_id r);
   set_nullable_string "forked_from_history_id" (run_forked_from r);
   set_nullable_string "latest_history_entry_id" (run_latest r);
   set_nullable_string "next_node" (run_current_node r);
   set_string "status" (Some (turbo_state_graph_run_status_text r));
   set_int64 "steps" (int64_of_size (run_steps r)); set_clone "state" (run_state r)].

(* src/runtime/src/turbo_state_graph.c 1284-1318 turbo_state_graph_run_object *)
Definition turbo_state_graph_run_object (r : run) : mem J :=
  object ← create_object; build_record (run_fields r) object.

(* src/runtime/src/turbo_state_graph.c 1320-1346 turbo_state_graph_thread_object *)
Definition turbo_state_graph_thread_object (t : thread_entry) (current_state : option J) : mem J :=
  object ← create_object;
  build_record
    ([set_string "thread_id" (Some (th_id t)); set_nullable_string "current_run_id" (th_current_run_id t)] ++
     match current_state with Some s => [set_clone "current_state" s] | None => [] end) object.

(** A branch has the fields of a run but for its thread. *)
(* src/runtime/src/turbo_state_graph.c 1376-1420 turbo_state_graph_branch_tree_object *)
Definition branch_object (r : run) : mem J :=
  branch ← create_object;
  build_record
    ([set_string "run_id" (Some (run_id r)); set_nullable_string "parent_run_id" (run_parent_run_id r);
      set_nullable_string "forked_from_history_id" (run_forked_from r);
      set_nullable_string "latest_history_entry_id" (run_latest r);
      set_nullable_string "next_node" (run_current_node r);
      set_string "status" (Some (turbo_state_graph_run_status_text r));
      set_int64 "steps" (int64_of_size (run_steps r)); set_clone "state" (run_state r)]) branch.

(** The runs of a thread in order, each as [f] shows it. *)
Definition thread_runs (f : run -> mem J) (g : graph) (thread_id : string) (array : J) : mem J :=
  mem_fold (fun a r => append_object (f r) a)
    (filter (fun r : run => run_thread_id r = thread_id) (runs g)) array.

(* src/runtime/src/turbo_state_graph.c 1348-1430 turbo_state_graph_branch_tree_object *)
Definition turbo_state_graph_branch_tree_object (g : graph) (t : thread_entry) : mem J :=
  _ ← all_created 2;
  root ← build_record
    [set_string "thread_id" (Some (th_id t)); set_nullable_string "current_run_id" (th_current_run_id t)]
    json_create_object;
  branches ← thread_runs branch_object g (th_id t) json_create_array;
  build_record [set_member "branches" branches] root.

(** ** Readers *)

Definition em_found {A} (x : option A) (st : turbo_state_graph_status) : em A :=
  match x with Some x => mret x | None => em_fail st end.

Definition find_run_entry (g : graph) (id : string) : option run := i ← turbo_state_graph_find_run g id; runs g !! i.
Definition find_thread_entry (g : graph) (id : string) : option thread_entry :=
  i ← turbo_state_graph_find_thread g id; threads g !! i.

(* src/runtime/src/turbo_state_graph.c 2339-2355 turbo_state_graph_get_state *)
Definition turbo_state_graph_get_state (g : graph) (id : option string) : em J :=
  id ← em_found id TURBO_STATE_GRAPH_INVALID_ARGUMENT;
  r ← em_found (find_run_entry g id) TURBO_STATE_GRAPH_RUN_NOT_FOUND;
  em_mem (create (json_clone (run_state r))).

(* src/runtime/src/turbo_state_graph.c 2357-2373 turbo_state_graph_get_run *)
Definition turbo_state_graph_get_run (g : graph) (id : option string) : em J :=
  id ← em_found id TURBO_STATE_GRAPH_INVALID_ARGUMENT;
  r ← em_found (find_run_entry g id) TURBO_STATE_GRAPH_RUN_NOT_FOUND;
  em_mem (turbo_state_graph_run_object r).

(** The state of the run a thread is at. *)
Definition current_state_of (g : graph) (t : thread_entry) : option J :=
  id ← th_current_run_id t; run_state <$> find_run_entry g id.

(* src/runtime/src/turbo_state_graph.c 2375-2392 turbo_state_graph_get_thread *)
Definition turbo_state_graph_get_thread (g : graph) (id : option string) : em J :=
  id ← em_found id TURBO_STATE_GRAPH_INVALID_ARGUMENT;
  t ← em_found (find_thread_entry g id) TURBO_STATE_GRAPH_THREAD_NOT_FOUND;
  em_mem (turbo_state_graph_thread_object t (current_state_of g t)).

(* src/runtime/src/turbo_state_graph.c 2394-2413 turbo_state_graph_get_latest_run *)
Definition turbo_state_graph_get_latest_run (g : graph) (id : option string) : em J :=
  id ← em_found id TURBO_STATE_GRAPH_INVALID_ARGUMENT;
  _ ← em_found (turbo_state_graph_find_thread g id) TURBO_STATE_GRAPH_THREAD_NOT_FOUND;
  r ← em_found (turbo_state_graph_latest_run_for_thread g id) TURBO_STATE_GRAPH_RUN_NOT_FOUND;
  em_mem (turbo_state_graph_run_object r).

(* src/runtime/src/turbo_state_graph.c 2415-2434 turbo_state_graph_get_pending_run *)
Definition turbo_state_graph_get_pending_run (g : graph) (id : option string) : em J :=
  id ← em_found id TURBO_STATE_GRAPH_INVALID_ARGUMENT;
  _ ← em_found (turbo_state_graph_find_thread g id) TURBO_STATE_GRAPH_THREAD_NOT_FOUND;
  r ← em_found (turbo_state_graph_pending_run_for_thread g id) TURBO_STATE_GRAPH_RUN_NOT_FOUND;
  em_mem (turbo_state_graph_run_object r).

(* src/runtime/src/turbo_state_graph.c 2436-2453 turbo_state_graph_get_thread_state *)
Definition turbo_state_graph_get_thread_state (g : graph) (id : option string) : em J :=
  id ← em_found id TURBO_STATE_GRAPH_INVALID_ARGUMENT;
  t ← em_found (find_thread_entry g id) TURBO_STATE_GRAPH_THREAD_NOT_FOUND;
  current ← em_found (th_current_run_id t) TURBO_STATE_GRAPH_RUN_NOT_FOUND;
  turbo_state_graph_get_state g (Some current).

(* src/runtime/src/turbo_state_graph.c 2455-2472 turbo_state_graph_get_history_entry *)
Definition turbo_state_graph_get_history_entry (g : graph) (id : option string) : em J :=
  id ← em_found id TURBO_STATE_GRAPH_INVALID_ARGUMENT;
  h ← em_found (turbo_state_graph_find_history g (Some id)) TURBO_STATE_GRAPH_HISTORY_NOT_FOUND;
  em_mem (turbo_state_graph_history_object h).

(* src/runtime/src/turbo_state_graph.c 2474-2492 turbo_state_graph_get_history_entry_state *)
Definition turbo_state_graph_get_history_entry_state (g : graph) (id : option string) : em J :=
  id ← em_found id TURBO_STATE_GRAPH_INVALID_ARGUMENT;
  h ← em_found (turbo_state_graph_find_history g (Some id)) TURBO_STATE_GRAPH_HISTORY_NOT_FOUND;
  em_mem (create (json_clone (he_state h))).

(* src/runtime/src/turbo_state_graph.c 2494-2510 turbo_state_graph_get_checkpoint *)
Definition turbo_state_graph_get_checkpoint (g : graph) (id : option string) : em J :=
  id ← em_found id TURBO_STATE_GRAPH_INVALID_ARGUMENT;
  h ← em_found (turbo_state_graph_find_checkpoint g id) TURBO_STATE_GRAPH_HISTORY_NOT_FOUND;
  em_mem (turbo_state_graph_history_object h).

(* src/runtime/src/turbo_state_graph.c 2512-2556 turbo_state_graph_list_state_history *)
Definition turbo_state_graph_list_state_history (g : graph) (id : option string) : em J :=
  id ← em_found id TURBO_STATE_GRAPH_INVALID_ARGUMENT;
  _ ← em_found (turbo_state_graph_find_run g id) TURBO_STATE_GRAPH_RUN_NOT_FOUND;
  em_mem (entries ← create_array;
          mem_fold (fun a h => append_object (turbo_state_graph_history_object h) a)
            (filter (fun h : entry => he_run_id h = id) (history g)) entries).

(* src/runtime/src/turbo_state_graph.c 2558-2562 turbo_state_graph_list_checkpoints *)
Definition turbo_state_graph_list_checkpoints := turbo_state_graph_list_state_history.

(* src/runtime/src/turbo_state_graph.c 2564-2608 turbo_state_graph_list_runs *)
Definition turbo_state_graph_list_runs (g : graph) (id : option string) : em J :=
  id ← em_found id TURBO_STATE_GRAPH_INVALID_ARGUMENT;
  _ ← em_found (turbo_state_graph_find_thread g id) TURBO_STATE_GRAPH_THREAD_NOT_FOUND;
  em_mem (array ← create_array; thread_runs turbo_state_graph_run_object g id array).

(* src/runtime/src/turbo_state_graph.c 2610-2692 turbo_state_graph_get_checkpoint_context *)
Definition turbo_state_graph_get_checkpoint_context (g : graph) (id : option string) : em J :=
  id ← em_found id TURBO_STATE_GRAPH_INVALID_ARGUMENT;
  h ← em_found (turbo_state_graph_find_checkpoint g id) TURBO_STATE_GRAPH_HISTORY_NOT_FOUND;
  r ← em_found (find_run_entry g (he_run_id h)) TURBO_STATE_GRAPH_RUN_NOT_FOUND;
  t ← em_found (find_thread_entry g (he_thread_id h)) TURBO_STATE_GRAPH_THREAD_NOT_FOUND;
  em_mem
    (checkpoint ← turbo_state_graph_history_object h;
     run_object ← turbo_state_graph_run_object r;
     thread_object ← turbo_state_graph_thread_object t (Some (run_state r));
     branch_tree ← turbo_state_graph_branch_tree_object g t;
     context ← create_object;
     build_record
       [set_member "checkpoint" checkpoint; set_member "run" run_object; set_member "thread" thread_object;
        set_member "branch_tree" branch_tree] context).

(* src/runtime/src/turbo_state_graph.c 2694-2710 turbo_state_graph_get_branch_tree *)
Definition turbo_state_graph_get_branch_tree (g : graph) (id : option string) : em J :=
  id ← em_found id TURBO_STATE_GRAPH_INVALID_ARGUMENT;
  t ← em_found (find_thread_entry g id) TURBO_STATE_GRAPH_THREAD_NOT_FOUND;
  em_mem (turbo_state_graph_branch_tree_object g t).

End documents.

(** ** Snapshots *)

Definition TURBO_STATE_GRAPH_SNAPSHOT_SCHEMA_VERSION : Z := 1.

(* src/runtime/src/turbo_state_graph.c 2712-2714 turbo_state_graph_snapshot_schema_version *)
Definition turbo_state_graph_snapshot_schema_version : Z := TURBO_STATE_GRAPH_SNAPSHOT_SCHEMA_VERSION.

Section snapshots.
Context {W J : Type} `{JsonSetters J, !JsonMembers J, !JsonHeight J}.
Context (kind_code : json_kind -> Z).

Abbreviation graph := (state_graph (W := W) (J := J)).

(** The threads, runs and history of a graph, in order. *)
(* src/runtime/src/turbo_state_graph.c 2754-2804 turbo_state_graph_serialize_snapshot *)
Definition runtime_arrays (g : graph) : mem (J * J * J) :=
  ts ← mem_fold (fun a t =>
         append_object (turbo_state_graph_thread_object t (current_state_of g t)) a) (threads g)
         json_create_array;
  rs ← mem_fold (fun a r => append_object (turbo_state_graph_run_object r) a) (runs g) json_create_array;
  hs ← mem_fold (fun a h => append_object (turbo_state_graph_history_object h) a) (history g)
         json_create_array;
  mret (ts, rs, hs).

(* src/runtime/src/turbo_state_graph.c 2716-2839 turbo_state_graph_serialize_snapshot *)
Definition turbo_state_graph_serialize_snapshot (g : option graph) : mem string :=
  g ← need g;
  _ ← all_created 5;
  topology ← turbo_state_graph_topology_snapshot kind_code g;
  root ← build_record
    [set_int64 "snapshot_version" TURBO_STATE_GRAPH_SNAPSHOT_SCHEMA_VERSION; set_member "topology" topology]
    json_create_object;
  arrays ← runtime_arrays g;
  let '(ts, rs, hs) := arrays in
  runtime ← build_record
    [set_int64 "next_thread_id" (int64_of_size (next_thread_id g));
     set_int64 "next_run_id" (int64_of_size (next_run_id g));
     set_int64 "next_history_id" (int64_of_size (next_history_id g));
     set_int64 "next_checkpoint_id" (int64_of_size (next_checkpoint_id g));
     set_member "threads" ts; set_member "runs" rs; set_member "history" hs] json_create_object;
  root ← build_record [set_member "runtime" runtime] root;
  json ← create (json_clone root);
  create (json_serialize json).

Definition text_field (v : J) (key : string) : option string :=
  turbo_runtime_json_value_as_string (json_object_get v key).
Definition number_field (v : J) (key : string) (fallback : Z) : Z :=
  turbo_runtime_json_value_as_int64 (json_object_get v key) fallback.

Fixpoint all2 {A B} (p : A -> B -> bool) (l : list A) (k : list B) : bool :=
  match l, k with
  | [], [] => true
  | x :: l, y :: k => p x y && all2 p l k
  | _, _ => false
  end.

Definition array_member (v : J) (key : string) : option (list J) :=
  a ← json_object_get v key;
  if bool_decide (json_type a = JSON_ARRAY) then Some (json_array_items a) else None.

(** The names of the graph and of its entry node are not compared. *)
(* src/runtime/src/turbo_state_graph.c 2841-2907 turbo_state_graph_validate_topology_snapshot *)
Definition turbo_state_graph_validate_topology_snapshot (g : graph) (topology : J) : bool :=
  match array_member topology "channels", array_member topology "nodes", array_member topology "edges" with
  | Some chs, Some ns, Some es =>
      all2 (fun c channel =>
        bool_decide (text_field c "name" = Some (ch_name channel)) &&
        (number_field c "reducer" (-1) =? reducer_code (ch_reducer channel)) &&
        (number_field c "value_kind" (-1) =? kind_code (ch_value_kind channel))) chs (channels g) &&
      all2 (fun n node => bool_decide (turbo_runtime_json_value_as_string (Some n) = Some (node_name node)))
        ns (nodes g) &&
      all2 (fun e edge =>
        bool_decide (text_field e "from" = Some (node_name_at g (from_index edge))) &&
        bool_decide (text_field e "to" = Some (node_name_at g (to_index edge)))) es (edges g)
  | _, _, _ => false
  end.

(** One entry of an array: what it says with the number of copies it takes. *)
Definition import_entry {E : Type} (parse : J -> option (E * nat)) (s : list E * Z) (v : J)
  : em (list E * Z) :=
  let '(l, capacity) := s in
  parsed ← em_found (parse v) TURBO_STATE_GRAPH_ERROR;
  capacity ← em_mem (turbo_state_graph_reserve capacity (Z.of_nat (length l) + 1));
  _ ← em_mem (all_created (snd parsed));
  mret (l ++ [fst parsed], capacity).

Definition import_entries {E : Type} (parse : J -> option (E * nat)) (entries : J) : em (list E * Z) :=
  if bool_decide (json_type entries = JSON_ARRAY)
  then em_fold (import_entry parse) (json_array_items entries) ([], 0)
  else em_fail TURBO_STATE_GRAPH_INVALID_ARGUMENT.

Definition size_field (v : J) (key : string) : Z := u64 (number_field v key 0).

(* src/runtime/src/turbo_state_graph.c 2909-2942 turbo_state_graph_import_threads *)
Definition parse_thread (v : J) : option (thread_entry * nat) :=
  id ← text_field v "thread_id";
  let current := text_field v "current_run_id" in
  Some (mk_thread id current, (1 + copies [current])%nat).

(* src/runtime/src/turbo_state_graph.c 2944-3002 turbo_state_graph_import_runs *)
Definition parse_run (v : J) : option (run_entry (J := J) * nat) :=
  id ← text_field v "run_id";
  thread_id ← text_field v "thread_id";
  let parent := text_field v "parent_run_id" in
  let forked := text_field v "forked_from_history_id" in
  let latest := text_field v "latest_history_entry_id" in
  let next_node := text_field v "next_node" in
  state ← json_object_get v "state";
  status ← text_field v "status";
  Some (mk_run id thread_id parent forked latest next_node (size_field v "steps")
          (String.eqb status "interrupted") (String.eqb status "completed") (json_clone state),
        (3 + copies [parent; forked; latest; next_node])%nat).

(** Any other text is HOST. *)
(* src/runtime/src/turbo_state_graph.c 3054-3060 turbo_state_graph_import_history *)
Definition source_kind_of (text : string) : turbo_state_graph_source_kind :=
  if String.eqb text "start" then TURBO_STATE_GRAPH_SOURCE_START
  else if String.eqb text "node" then TURBO_STATE_GRAPH_SOURCE_NODE
  else if String.eqb text "fork" then TURBO_STATE_GRAPH_SOURCE_FORK
  else TURBO_STATE_GRAPH_SOURCE_HOST.

(* src/runtime/src/turbo_state_graph.c 3004-3079 turbo_state_graph_import_history *)
Definition parse_history (v : J) : option (history_entry (J := J) * nat) :=
  id ← text_field v "history_entry_id";
  checkpoint_id ← text_field v "checkpoint_id";
  thread_id ← text_field v "thread_id";
  run_id ← text_field v "run_id";
  source_kind ← text_field v "source_kind";
  let source_name := text_field v "source_name" in
  let why := text_field v "reason" in
  let last_node := text_field v "last_node" in
  let next_node := text_field v "next_node" in
  update ← json_object_get v "update";
  state ← json_object_get v "state";
  Some (mk_history id checkpoint_id thread_id run_id source_name why last_node next_node
          (source_kind_of source_kind) (size_field v "step") (json_clone update) (json_clone state),
        (6 + copies [source_name; why; last_node; next_node])%nat).

(* src/runtime/src/turbo_state_graph.c 464-497 turbo_state_graph_clear_runtime_state *)
Definition turbo_state_graph_clear_runtime_state (g : graph) : graph :=
  set_counters 0 0 0 0 (set_threads [] 0 (set_runs [] 0 (set_history [] 0 g))).

(** The imports, in order. *)
(* src/runtime/src/turbo_state_graph.c 3138-3146 turbo_state_graph_load_snapshot *)
Definition import_runtime (ts rs hs : J) (g : graph) : em graph :=
  threads ← import_entries parse_thread ts;
  runs ← import_entries parse_run rs;
  history ← import_entries parse_history hs;
  mret (set_threads threads.1 threads.2 (set_runs runs.1 runs.2 (set_history history.1 history.2 g))).

(** Once the runtime state is cleared, a failure leaves it cleared. *)
(* src/runtime/src/turbo_state_graph.c 3081-3154 turbo_state_graph_load_snapshot *)
Definition turbo_state_graph_load_snapshot (g : graph) (json : option string) (o : oracle)
  : turbo_state_graph_status * graph * oracle :=
  match json with
  | None => (TURBO_STATE_GRAPH_INVALID_ARGUMENT, g, o)
  | Some text =>
      match parse_text text o with
      | (None, o) => (TURBO_STATE_GRAPH_ERROR, g, o)
      | (Some value, o) =>
          let (ok, o) := alloc o in
          if negb ok then (TURBO_STATE_GRAPH_OUT_OF_MEMORY, g, o)
          else
            let root := json_clone value in
            match json_object_get root "topology", json_object_get root "runtime" with
            | Some topology, Some runtime =>
                if negb (number_field root "snapshot_version" 0 =? TURBO_STATE_GRAPH_SNAPSHOT_SCHEMA_VERSION)
                then (TURBO_STATE_GRAPH_ERROR, g, o)
                else if negb (turbo_state_graph_validate_topology_snapshot g topology)
                then (TURBO_STATE_GRAPH_ERROR, g, o)
                else
                  match json_object_get runtime "threads", json_object_get runtime "runs",
                        json_object_get runtime "history" with
                  | Some ts, Some rs, Some hs =>
                      let cleared := turbo_state_graph_clear_runtime_state g in
                      let g := set_counters (size_field runtime "next_thread_id")
                                 (size_field runtime "next_run_id") (size_field runtime "next_history_id")
                                 (size_field runtime "next_checkpoint_id") cleared in
                      match import_runtime ts rs hs g o with
                      | (inl g, o) => (TURBO_STATE_GRAPH_OK, g, o)
                      | (inr st, o) => (st, cleared, o)
                      end
                  | _, _, _ => (TURBO_STATE_GRAPH_ERROR, g, o)
                  end
            | _, _ => (TURBO_STATE_GRAPH_ERROR, g, o)
            end
      end
  end.

End snapshots.

(** ** Nodes that run another graph

    The child graph and the world of its nodes are part of the world of the
    parent's nodes. *)
Section subgraphs.
Context {W V J : Type} `{JsonSetters J, !JsonMembers J, !JsonHeight J}.

Abbreviation child_graph := (state_graph (W := V) (J := J)).

(* src/runtime/src/turbo_state_graph.c 72-79 turbo_state_graph_subgraph_node_data_t *)
Record subgraph_node_data : Type := mk_subgraph {
  sub_get : W -> child_graph * V;
  sub_set : child_graph -> V -> W -> W;
  sub_thread_id : option string;
  sub_thread_id_channel : option string;
  sub_output_channel : string;
  sub_input_channels : list string
}.

(* src/runtime/src/turbo_state_graph.c 275-290 turbo_state_graph_status_text *)
Definition turbo_state_graph_status_text (st : turbo_state_graph_status) : string :=
  match st with
  | TURBO_STATE_GRAPH_OK => "completed"
  | TURBO_STATE_GRAPH_STOP => "stopped"
  | TURBO_STATE_GRAPH_INTERRUPTED => "interrupted"
  | TURBO_STATE_GRAPH_STEP_LIMIT => "step_limit"
  | TURBO_STATE_GRAPH_RUN_COMPLETED => "completed"
  | _ => "error"
  end.

(** The input of the child: clones of channels of the parent. *)
(* src/runtime/src/turbo_state_graph.c 1847-1869 turbo_state_graph_subgraph_node_fn *)
Definition child_input (channels : list string) (state : J) : mem J :=
  input ← create_object;
  mem_fold (fun input name =>
    value ← need (json_object_get state name);
    value_copy ← create (json_clone value);
    put input name value_copy) channels input.

(* src/runtime/src/turbo_state_graph.c 1879-1905 turbo_state_graph_subgraph_node_fn *)
Definition child_output (st : turbo_state_graph_status) (res : run_result) (state : J) : mem J :=
  output ← create_object;
  build_record
    [set_string "status" (Some (turbo_state_graph_status_text st));
     set_nullable_string "thread_id" (res_thread_id res); set_nullable_string "run_id" (res_run_id res);
     set_nullable_string "history_entry_id" (res_history_entry_id res);
     set_nullable_string "checkpoint_id" (res_checkpoint_id res);
     set_nullable_string "last_node" (res_last_node res); set_nullable_string "next_node" (res_next_node res);
     set_int64 "steps" (int64_of_size (res_steps res)); set_clone "state" state] output.

(** [fuel] bounds the steps of the child; its exhaustion is reported as -1. *)
(* src/runtime/src/turbo_state_graph.c 1823-1912 turbo_state_graph_subgraph_node_fn *)
Definition turbo_state_graph_subgraph_node_fn (fuel : nat) (data : subgraph_node_data)
  : node_fn (W := W) (J := J) := fun ctx w o =>
  let child_thread_id :=
    match sub_thread_id_channel data with
    | Some channel => turbo_runtime_json_value_as_string (json_object_get (ctx_state ctx) channel)
    | None => sub_thread_id data
    end in
  match child_thread_id with
  | None | Some EmptyString => (-1, ctx, w, o)
  | Some thread =>
      match child_input (sub_input_channels data) (ctx_state ctx) o with
      | (None, o) => (-1, ctx, w, o)
      | (Some input, o) =>
          let (child, v) := sub_get data w in
          let '(returned, child, v, o) :=
            call (turbo_state_graph_start fuel (Some thread) (Some input) None) child v o in
          let w := sub_set data child v w in
          match returned with
          | Some (mk_return TURBO_STATE_GRAPH_OK (Some res) (Some state)) =>
              match (output ← child_output TURBO_STATE_GRAPH_OK res state;
                     put (ctx_update ctx) (sub_output_channel data) output) o with
              | (Some update, o) =>
                  (0, mk_ctx (ctx_state ctx) update (ctx_current_node ctx) (ctx_next_node ctx)
                        (ctx_sends ctx) (ctx_send_capacity ctx) (ctx_step ctx) (ctx_stop ctx), w, o)
              | (None, o) => (-1, ctx, w, o)
              end
          | _ => (-1, ctx, w, o)
          end
      end
  end.

(* src/runtime/include/turbo_state_graph.h 93-100 turbo_state_graph_subgraph_node_config_t *)
Record subgraph_node_config : Type := mk_subgraph_config {
  sc_child_get : option (W -> child_graph * V);
  sc_child_set : child_graph -> V -> W -> W;
  sc_child_thread_id : option string;
  sc_child_thread_id_channel : option string;
  sc_output_channel : option string;
  sc_input_channels : option (list (option string));
  sc_input_channel_count : nat
}.

(** The names of the input channels, copied one by one; a missing one is an
    invalid argument. *)
(* src/runtime/src/turbo_state_graph.c 1950-1960 turbo_state_graph_add_subgraph_node *)
Fixpoint copy_names (names : list (option string)) : em (list string) :=
  match names with
  | [] => mret []
  | name :: names =>
      name ← em_found name TURBO_STATE_GRAPH_INVALID_ARGUMENT;
      name ← em_mem (create name);
      names ← copy_names names;
      mret (name :: names)
  end.

(* src/runtime/src/turbo_state_graph.c 1928-1960 turbo_state_graph_add_subgraph_node *)
Definition subgraph_data (get : W -> child_graph * V) (output : string) (config : subgraph_node_config)
  : em subgraph_node_data :=
  _ ← em_mem (create tt);
  _ ← em_mem (all_created (1 + copies [sc_child_thread_id config; sc_child_thread_id_channel config]));
  names ← (if (sc_input_channel_count config =? 0)%nat then mret []
           else _ ← em_mem (create tt);
                copy_names (take (sc_input_channel_count config) (default [] (sc_input_channels config))));
  mret (mk_subgraph get (sc_child_set config) (sc_child_thread_id config)
          (sc_child_thread_id_channel config) output names).

(* src/runtime/src/turbo_state_graph.c 1914-1967 turbo_state_graph_add_subgraph_node *)
Definition turbo_state_graph_add_subgraph_node (fuel : nat) (g : state_graph (W := W) (J := J))
    (name : option string) (config : option subgraph_node_config) (o : oracle)
  : turbo_state_graph_status * state_graph (W := W) (J := J) * oracle :=
  match name, config with
  | Some _, Some config =>
      match sc_child_get config, sc_output_channel config with
      | Some get, Some output =>
          if Bool.eqb (bool_decide (sc_child_thread_id config = None))
                      (bool_decide (sc_child_thread_id_channel config = None)) ||
             ((0 <? Z.of_nat (sc_input_channel_count config)) && bool_decide (sc_input_channels config = None))
          then (TURBO_STATE_GRAPH_INVALID_ARGUMENT, g, o)
          else
            match subgraph_data get output config o with
            | (inr st, o) => (st, g, o)
            | (inl data, o) =>
                turbo_state_graph_add_json_value_node_owned g name
                  (Some (turbo_state_graph_subgraph_node_fn fuel data)) o
            end
      | _, _ => (TURBO_STATE_GRAPH_INVALID_ARGUMENT, g, o)
      end
  | _, _ => (TURBO_STATE_GRAPH_INVALID_ARGUMENT, g, o)
  end.

End subgraphs.
