(* ===== verification/StateGraphTypes.v ===== *)
(** * The types of the channels of a state graph (src/runtime/src/turbo_state_graph.c)

    What a channel may hold, by its reducer and its kind; every reducer answers
    such a value, and an update, whether it succeeds or stops in the middle,
    leaves a state whose members are channels with such values. *)

From S2P Require Import Prelude RuntimeJson JsonBuild JsonMem JsonRecord StateGraph.

#[local] Open Scope string_scope.
#[local] Open Scope list_scope.
#[local] Open Scope Z_scope.

(** ** Results of computations with a status *)

Section em.
Context {A B : Type}.

(** Whatever memory does, a value that comes out has the property. *)
Definition em_yields (m : em A) (Q : A -> Prop) : Prop := forall o x, (m o).1 = inl x -> Q x.

Lemma em_yields_ret (x : A) (Q : A -> Prop) : Q x -> em_yields (mret x) Q.
Proof. intros HQ o y [= <-]. done. Qed.

Lemma em_yields_fail st (Q : A -> Prop) : em_yields (em_fail st) Q.
Proof. done. Qed.

Lemma em_yields_mono (m : em A) (P Q : A -> Prop) :
  em_yields m P -> (forall x, P x -> Q x) -> em_yields m Q.
Proof. intros Hm HPQ o x Hx. apply HPQ. by eapply Hm. Qed.

End em.

Lemma em_yields_bind {A B} (m : em A) (k : A -> em B) P Q :
  em_yields m P -> (forall x, P x -> em_yields (k x) Q) -> em_yields (m ≫= k) Q.
Proof.
  intros Hm Hk o y. unfold mbind, em_bind. pose proof (Hm o) as Hm'.
  destruct (m o) as [[x|st] o1]; [|done]. apply (Hk x (Hm' x eq_refl)).
Qed.

Lemma em_yields_create {A} (x : A) (Q : A -> Prop) : Q x -> em_yields (em_mem (create x)) Q.
Proof.
  intros HQ o y. unfold em_mem, create. by destruct (alloc o) as [[] o1]; intros [= <-].
Qed.

Lemma em_yields_fold {A S} (f : S -> A -> em S) (P : S -> Prop) (l : list A) :
  (forall s x, x ∈ l -> P s -> em_yields (f s x) P) -> forall s, P s -> em_yields (em_fold f l s) P.
Proof.
  induction l as [|x l IH]; intros Hf s HP; cbn [em_fold]; [by apply em_yields_ret|].
  eapply em_yields_bind; [apply Hf; [by left|done]|]. intros s' Hs'.
  apply IH; [|done]. intros s2 y Hy. apply Hf. by right.
Qed.

Lemma em_yields_check {A} st (k : em A) Q :
  (st = TURBO_STATE_GRAPH_OK -> em_yields k Q) -> em_yields (em_check st ≫= fun _ => k) Q.
Proof. intros Hk. destruct st; try done. by apply Hk. Qed.

Section types.
Context {J : Type} `{JsonSetters J, !JsonMembers J, !JsonHeight J, !JsonLaws J, !JsonNewLaws J}.

Lemma put_add (obj obj' : J) k v o :
  (put obj k v o).1 = Some obj' -> json_type obj = JSON_OBJECT /\ obj' = json_object_add obj k v.
Proof.
  unfold put, turbo_runtime_json_object_set. case_bool_decide as Hty; cbn [negb]; [|done].
  by destruct (alloc o) as [[] o1]; intros [= <-].
Qed.

Lemma append_add (a a' v : J) o :
  (append a v o).1 = Some a' -> json_type a = JSON_ARRAY /\ a' = json_array_add a v.
Proof.
  unfold append, turbo_runtime_json_array_append. case_bool_decide as Hty; cbn [negb]; [|done].
  by destruct (alloc o) as [[] o1]; intros [= <-].
Qed.

Lemma em_yields_put (obj : J) k v (Q : J -> Prop) :
  (json_type obj = JSON_OBJECT -> Q (json_object_add obj k v)) -> em_yields (em_mem (put obj k v)) Q.
Proof.
  intros HQ o x. unfold em_mem. pose proof (put_add obj x k v o) as Hp.
  destruct (put obj k v o) as [[y|] o1]; [|done]. intros [= ->].
  destruct (Hp eq_refl) as [Hty ->]. by apply HQ.
Qed.

Lemma em_yields_append (a v : J) (Q : J -> Prop) :
  (json_type a = JSON_ARRAY -> Q (json_array_add a v)) -> em_yields (em_mem (append a v)) Q.
Proof.
  intros HQ o x. unfold em_mem. pose proof (append_add a x v o) as Hp.
  destruct (append a v o) as [[y|] o1]; [|done]. intros [= ->].
  destruct (Hp eq_refl) as [Hty ->]. by apply HQ.
Qed.

Lemma clone_type (v : J) : json_type (json_clone v) = json_type v.
Proof. apply json_type_proper, json_clone_equiv. Qed.

(** ** What a channel may hold *)

(** Null or of the kind; a channel of kind null takes anything. *)
Definition of_kind (kind : json_kind) (v : J) : Prop :=
  kind = JSON_NULL \/ json_type v = JSON_NULL \/ json_type v = kind.

(** An element of a channel that appends: of the kind, or an array of such values. *)
Definition element_of (kind : json_kind) (v : J) : Prop :=
  of_kind kind v \/ (json_type v = JSON_ARRAY /\ Forall (of_kind kind) (json_array_items v)).

Definition holds (channel : channel_entry (J := J)) (v : J) : Prop :=
  match ch_reducer channel with
  | TURBO_STATE_GRAPH_REDUCER_APPEND =>
      of_kind (ch_value_kind channel) v /\ json_type v <> JSON_ARRAY \/
      json_type v = JSON_ARRAY /\ Forall (element_of (ch_value_kind channel)) (json_array_items v)
  | TURBO_STATE_GRAPH_REDUCER_MERGE_OBJECT =>
      of_kind (ch_value_kind channel) v \/ json_type v = JSON_OBJECT
  | TURBO_STATE_GRAPH_REDUCER_ADD => of_kind (ch_value_kind channel) v \/ json_type v = JSON_NUMBER
  | _ => of_kind (ch_value_kind channel) v
  end.

Lemma of_kind_proper kind (a b : J) : json_equiv a b -> of_kind kind a -> of_kind kind b.
Proof. unfold of_kind. intros Hab. by rewrite (json_type_proper _ _ Hab). Qed.

Lemma items_proper (P : J -> Prop) (a b : J) : (forall x y, json_equiv x y -> P x -> P y) ->
  json_equiv a b -> Forall P (json_array_items a) -> Forall P (json_array_items b).
Proof.
  intros HP Hab. pose proof (json_items_proper _ _ Hab) as Hi.
  induction Hi as [|x y l k Hxy Hlk IH]; [done|]. intros [Hx Hl]%Forall_cons.
  constructor; [by eapply HP|by apply IH].
Qed.

Lemma element_of_proper kind (a b : J) : json_equiv a b -> element_of kind a -> element_of kind b.
Proof.
  intros Hab [Ha|[Ha Hi]]; [left; by eapply of_kind_proper|]. right.
  split; [by rewrite <- (json_type_proper _ _ Hab)|].
  eapply items_proper; [|exact Hab|exact Hi]. apply of_kind_proper.
Qed.

Lemma holds_proper channel (a b : J) : json_equiv a b -> holds channel a -> holds channel b.
Proof.
  intros Hab. unfold holds, of_kind. pose proof (json_type_proper _ _ Hab) as Hty.
  destruct (ch_reducer channel); rewrite <- Hty; try (by auto).
  intros [?|[Ha Hi]]; [by left|]. right. split; [done|].
  eapply items_proper; [|exact Hab|exact Hi]. apply element_of_proper.
Qed.

Lemma holds_clone channel (v : J) : holds channel v -> holds channel (json_clone v).
Proof. apply holds_proper. symmetry. apply json_clone_equiv. Qed.

Lemma misfit_none kind (l : list J) : kind <> JSON_NULL ->
  existsb (misfit kind) l = false <-> Forall (of_kind kind) l.
Proof.
  intros Hk. induction l as [|x l IH]; cbn [existsb]; [by split|].
  rewrite orb_false_iff, IH, Forall_cons. unfold misfit, of_kind.
  repeat case_bool_decide; cbn [negb andb]; intuition congruence.
Qed.

(** What validation lets pass. *)
Lemma validate_element channel (v : J) :
  turbo_state_graph_validate_channel_value channel v = TURBO_STATE_GRAPH_OK ->
  if bool_decide (ch_reducer channel = TURBO_STATE_GRAPH_REDUCER_APPEND /\ json_type v = JSON_ARRAY)
  then Forall (of_kind (ch_value_kind channel)) (json_array_items v)
  else of_kind (ch_value_kind channel) v.
Proof.
  unfold turbo_state_graph_validate_channel_value.
  destruct (decide (json_type v = JSON_NULL)) as [Hn|Hn].
  { intros _. rewrite bool_decide_eq_false_2 by (intros [_ ?]; congruence). by right; left. }
  destruct (decide (ch_value_kind channel = JSON_NULL)) as [Hk|Hk].
  { intros _. case_bool_decide; [|by left]. apply Forall_forall. by left. }
  rewrite !(bool_decide_eq_false_2 (_ = JSON_NULL)) by done. cbn [orb].
  rewrite bool_decide_and. destruct (_ && _).
  - rewrite <- misfit_none by done. by destruct (existsb _ _).
  - unfold of_kind. case_bool_decide; [auto|done].
Qed.

Lemma validate_holds channel (v : J) :
  turbo_state_graph_validate_channel_value channel v = TURBO_STATE_GRAPH_OK -> holds channel v.
Proof.
  intros Hv%validate_element. unfold holds. case_bool_decide as Hr.
  - destruct Hr as [-> Ha]. right. split; [done|]. eapply Forall_impl; [exact Hv|]. by left.
  - destruct (ch_reducer channel); try by auto. left. naive_solver.
Qed.

(** ** The reducers answer what the channel may hold *)

Lemma base_holds channel (current : option J) (Q : J -> Prop) :
  (forall v, holds channel v -> Q v) -> holds channel (ch_default_value channel) ->
  (forall c, current = Some c -> holds channel c) ->
  em_yields (em_mem (turbo_state_graph_channel_base_value channel current)) Q.
Proof.
  intros HQ Hd Hc. destruct current as [c|]; apply em_yields_create, HQ, holds_clone; [by apply Hc|done].
Qed.

Lemma merge_object fuel (current : option J) (update : J) :
  em_yields (merge_object_values fuel current update) (fun v => json_type v = JSON_OBJECT).
Proof.
  destruct fuel as [|fuel]; [done|]. cbn [merge_object_values].
  case_bool_decide; cbn [negb]; [|done]. destruct (match current with Some _ => _ | None => _ end); [done|].
  eapply em_yields_bind; [apply em_yields_create with (Q := fun v => json_type v = JSON_OBJECT)|].
  { destruct current as [c|]; [|apply json_type_object]. case_bool_decide; [|apply json_type_object].
    by rewrite clone_type. }
  apply em_yields_fold. intros v key _ Hv. destruct (json_object_get update key); [|done].
  eapply em_yields_bind; [by intros ? ? _; exact I|]. intros x _. apply em_yields_put. intros _. by apply json_type_add.
Qed.

Lemma append_child_holds channel (result child : J) :
  json_type result = JSON_ARRAY /\ Forall (element_of (ch_value_kind channel)) (json_array_items result) ->
  em_yields (append_child channel result child) (fun v =>
    json_type v = JSON_ARRAY /\ Forall (element_of (ch_value_kind channel)) (json_array_items v)).
Proof.
  intros [Hty Hi]. unfold append_child. apply em_yields_check. intros Hv.
  assert (element_of (ch_value_kind channel) child) as He.
  { apply validate_element in Hv. case_bool_decide as Ha; [right|by left]. by split; [apply Ha|]. }
  eapply em_yields_bind; [apply em_yields_create with (Q := element_of (ch_value_kind channel))|].
  { eapply element_of_proper; [symmetry; apply json_clone_equiv|done]. }
  intros x Hx. apply em_yields_append. intros _. split; [by apply json_type_array_add|].
  rewrite json_items_add by done. apply Forall_app. by split; [|constructor].
Qed.

Lemma reduce_append_holds channel (current : option J) (update : J) :
  ch_reducer channel = TURBO_STATE_GRAPH_REDUCER_APPEND ->
  (forall c, current = Some c -> holds channel c) ->
  em_yields (reduce_append channel current update) (fun v =>
    json_type v = JSON_ARRAY /\ Forall (element_of (ch_value_kind channel)) (json_array_items v)).
Proof.
  intros Hr Hc. unfold reduce_append. destruct (match current with Some _ => _ | None => _ end); [done|].
  eapply em_yields_bind; [apply em_yields_create with (Q := fun v =>
    json_type v = JSON_ARRAY /\ Forall (element_of (ch_value_kind channel)) (json_array_items v))|].
  - assert (Hnew : json_type (json_create_array : J) = JSON_ARRAY /\
      Forall (element_of (ch_value_kind channel)) (json_array_items (json_create_array : J)))
      by (split; [apply json_type_array|]; by rewrite json_items_create).
    destruct current as [c|]; [|done]. case_bool_decide as Hty; [|done]. rewrite clone_type. split; [done|].
    eapply items_proper; [apply element_of_proper|symmetry; apply json_clone_equiv|].
    pose proof (Hc c eq_refl) as Hk. unfold holds in Hk. rewrite Hr in Hk. by destruct Hk as [[_ ?]|[_ Hk]].
  - intros v Hv. case_bool_decide; [|by apply append_child_holds].
    apply em_yields_fold; [|done]. intros s x _. apply append_child_holds.
Qed.

Lemma reduce_add_number channel (current : option J) (update : J) :
  (forall z, json_type (json_create_int64 z : J) = JSON_NUMBER) ->
  em_yields (reduce_add channel current update) (fun v => json_type v = JSON_NUMBER).
Proof.
  intros Hint. unfold reduce_add. destruct (is_number (Some update)); cbn [negb]; [|done].
  destruct (match current with Some _ => _ | None => _ end); [done|].
  destruct (_ || _); apply em_yields_create; [apply json_type_number|apply Hint].
Qed.

Context `{!JsonRecordLaws J}.

Lemma int64_type z : json_type (json_create_int64 z : J) = JSON_NUMBER.
Proof. by destruct (json_int64_token (json_create_int64 z : J) z ltac:(reflexivity)). Qed.

Lemma reduce_holds channel (current : option J) (update : J) :
  holds channel (ch_default_value channel) -> (forall c, current = Some c -> holds channel c) ->
  em_yields (turbo_state_graph_reduce_channel channel current update) (holds channel).
Proof.
  intros Hd Hc. unfold turbo_state_graph_reduce_channel. destruct (ch_reducer channel) eqn:Hr.
  - apply em_yields_check. intros Hv. by apply em_yields_create, holds_clone, validate_holds.
  - eapply em_yields_mono; [by apply reduce_append_holds|]. intros v Hv. unfold holds. rewrite Hr. by right.
  - eapply em_yields_mono; [apply merge_object|]. intros v Hv. unfold holds. rewrite Hr. by right.
  - eapply em_yields_mono; [apply reduce_add_number, int64_type|]. intros v Hv. unfold holds. rewrite Hr. by right.
  - apply em_yields_check. intros Hv. case_bool_decide.
    + by apply base_holds.
    + by apply em_yields_create, holds_clone, validate_holds.
Qed.

(** ** States *)

(** Every member is a channel with a value it may hold. *)
Definition state_holds (channels : list (channel_entry (J := J))) (state : J) : Prop :=
  json_type state = JSON_OBJECT /\
  forall k v, json_object_get state k = Some v ->
    exists channel, turbo_state_graph_find_channel channels k = Some channel /\ holds channel v.

Definition channels_hold (channels : list (channel_entry (J := J))) : Prop :=
  Forall (fun channel => holds channel (ch_default_value channel)) channels.

Lemma find_channel_in (channels : list (channel_entry (J := J))) k channel : turbo_state_graph_find_channel channels k = Some channel ->
  channel ∈ channels /\ ch_name channel = k.
Proof.
  intros [Hin Hk]%find_some. by rewrite bool_decide_eq_true in Hk; rewrite list_elem_of_In.
Qed.

Lemma state_holds_clone channels (state : J) : state_holds channels state -> state_holds channels (json_clone state).
Proof.
  intros [Hty Hm]. split; [by rewrite clone_type|]. intros k v Hv.
  pose proof (json_get_proper _ _ k (json_clone_equiv state)) as Hg. rewrite Hv in Hg.
  inversion Hg as [? y Hy Heq|]; subst. destruct (Hm k y) as (channel & Hf & Hh); [done|].
  exists channel. split; [done|]. eapply holds_proper; [symmetry; exact Hy|done].
Qed.

Lemma state_holds_add channels (state : J) channel k v : state_holds channels state ->
  turbo_state_graph_find_channel channels k = Some channel -> holds channel v ->
  state_holds channels (json_object_add state k v).
Proof.
  intros [Hty Hm] Hf Hv. split; [by apply json_type_add|]. intros k' v'.
  destruct (decide (k = k')) as [<-|Hne].
  - rewrite json_get_add by done. intros [= <-]. by exists channel.
  - rewrite json_get_add_ne by done. apply Hm.
Qed.

Lemma apply_keys_holds channels (update : J) names : channels_hold channels ->
  forall state o, state_holds channels state ->
  state_holds channels (apply_keys channels update names state o).1.2.
Proof.
  intros Hd. induction names as [|key names IH]; intros state o Hs; cbn [apply_keys]; [done|].
  destruct (json_object_get update key) as [v|]; [|done].
  destruct (turbo_state_graph_find_channel channels key) as [channel|] eqn:Hf; [|done].
  pose proof (find_channel_in _ _ _ Hf) as [Hin _].
  assert (Hr : em_yields (turbo_state_graph_reduce_channel channel (json_object_get state key) v) (holds channel)).
  { apply reduce_holds; [by eapply Forall_forall in Hd|]. intros c Hc. destruct (proj2 Hs _ _ Hc) as (ch & Hf' & Hh).
    congruence. }
  specialize (Hr o). destruct (turbo_state_graph_reduce_channel _ _ _ o) as [[merged|st] o1]; [|done].
  pose proof (put_add state) as Hp. specialize (Hp) with (k := key) (v := merged) (o := o1).
  destruct (put state key merged o1) as [[state'|] o2]; [|done].
  destruct (Hp state' eq_refl) as [_ ->]. apply IH. by eapply state_holds_add; [| |apply Hr].
Qed.

Lemma apply_update_holds channels (state update : J) o : channels_hold channels -> state_holds channels state ->
  state_holds channels (turbo_state_graph_apply_update channels state update o).1.2.
Proof.
  intros Hd Hs. unfold turbo_state_graph_apply_update. destruct (_ || _); [done|]. by apply apply_keys_holds.
Qed.

Lemma apply_update_object channels (state update : J) o :
  (turbo_state_graph_apply_update channels state update o).1.1 = TURBO_STATE_GRAPH_OK ->
  json_type update = JSON_OBJECT.
Proof.
  unfold turbo_state_graph_apply_update. by do 2 case_bool_decide.
Qed.

Lemma find_channel_self (channels : list (channel_entry (J := J))) channel : NoDup (ch_name <$> channels) -> channel ∈ channels ->
  turbo_state_graph_find_channel channels (ch_name channel) = Some channel.
Proof.
  unfold turbo_state_graph_find_channel. induction channels as [|c l IH]; [by intros _ ?%elem_of_nil|].
  cbn. intros [Hn Hnd]%NoDup_cons [->|Hin]%elem_of_cons; [by rewrite bool_decide_eq_true_2|].
  rewrite bool_decide_eq_false_2; [by apply IH|]. intros Heq. apply Hn. rewrite Heq. by apply list_elem_of_fmap_2.
Qed.

Lemma seed_defaults_holds (channels : list (channel_entry (J := J))) (state : J) : channels_hold channels -> NoDup (ch_name <$> channels) ->
  state_holds channels state ->
  em_yields (turbo_state_graph_seed_defaults channels state) (state_holds channels).
Proof.
  intros Hd Hnd. unfold turbo_state_graph_seed_defaults. apply em_yields_fold. intros s channel Hin Hs.
  assert (holds channel (ch_default_value channel)) by (by eapply Forall_forall in Hd).
  eapply em_yields_bind; [by apply (base_holds channel None (holds channel))|]. intros v Hv. apply em_yields_put.
  intros _. eapply state_holds_add; [done|by apply find_channel_self|done].
Qed.

Lemma new_state_holds channels : state_holds channels json_create_object.
Proof. split; [apply json_type_object|]. intros k v. by rewrite json_get_new. Qed.

(** Adding a channel leaves the states as they are. *)
Lemma find_channel_grow (channels : list (channel_entry (J := J))) channel k c :
  turbo_state_graph_find_channel channels k = Some c ->
  turbo_state_graph_find_channel (channels ++ [channel]) k = Some c.
Proof.
  unfold turbo_state_graph_find_channel. induction channels as [|x l IH]; cbn; [done|].
  by destruct (bool_decide _).
Qed.

Lemma state_holds_grow channels (state : J) channel : state_holds channels state ->
  state_holds (channels ++ [channel]) state.
Proof.
  intros [Hty Hm]. split; [done|]. intros k v Hv. destruct (Hm k v Hv) as (c & Hf & Hc). exists c.
  split; [by apply find_channel_grow|done].
Qed.

End types.
