(* ===== verification/StateGraphFacts.v ===== *)
(** * State graphs: what every operation keeps (src/runtime/src/turbo_state_graph.c)

    The invariant of a graph that was built and run through its operations, the
    relation between a graph before and after an operation, and the rules that
    carry both through the steps of an operation. *)

From Stdlib Require Import Sorted.
From stdpp Require Import pretty.
From S2P Require Import Prelude RuntimeJson JsonBuild JsonMem JsonRecord StateGraph StateGraphTypes.

#[local] Open Scope string_scope.
#[local] Open Scope list_scope.
#[local] Open Scope Z_scope.

(** ** Identifiers *)

Lemma make_id_inj prefix a b :
  turbo_state_graph_make_id prefix a = turbo_state_graph_make_id prefix b -> a = b.
Proof.
  unfold turbo_state_graph_make_id. intros Heq%(inj (String.append prefix)).
  by apply (inj (String.append "-")), (inj pretty) in Heq.
Qed.

(** The identifiers of increasing numbers up to [n]. *)
Definition issued (prefix : string) (n : Z) (ids : list string) : Prop :=
  exists ks, StronglySorted Z.lt ks /\ Forall (fun k => 0 < k <= n) ks /\
    ids = turbo_state_graph_make_id prefix <$> ks.

Lemma issued_nil prefix : issued prefix 0 [].
Proof. exists []. by repeat constructor. Qed.

Lemma issued_mono prefix n m ids : n <= m -> issued prefix n ids -> issued prefix m ids.
Proof.
  intros Hnm (ks & Hs & Hk & ->). exists ks. split_and!; [done| |done].
  eapply Forall_impl; [exact Hk|]. cbn. lia.
Qed.

Lemma issued_next prefix n ids : 0 <= n -> issued prefix n ids ->
  issued prefix (n + 1) (ids ++ [turbo_state_graph_make_id prefix (n + 1)]).
Proof.
  intros Hn (ks & Hs & Hk & ->). exists (ks ++ [n + 1]). rewrite fmap_app. split_and!; [|apply Forall_app; split|done].
  - clear -Hs Hk. induction Hs as [|k ks Hs IH Hlt]; cbn; [by repeat constructor|].
    apply Forall_cons in Hk as [Hk Hks]. constructor; [by apply IH|].
    apply Forall_app. split; [done|]. constructor; [lia|done].
  - eapply Forall_impl; [exact Hk|]. cbn. lia.
  - constructor; [lia|done].
Qed.

Lemma issued_nodup prefix n ids : issued prefix n ids -> NoDup ids.
Proof.
  intros (ks & Hs & _ & ->). apply NoDup_fmap_2; [intros a b; apply make_id_inj|].
  induction Hs as [|k ks Hs IH Hlt]; constructor; [|done]. intros Hin.
  rewrite Forall_forall in Hlt. specialize (Hlt k Hin). lia.
Qed.

(** Two entries of a list with the same identifier are the same. *)
Lemma nodup_lookup {A B} (f : A -> B) (l : list A) i j x y : NoDup (f <$> l) ->
  l !! i = Some x -> l !! j = Some y -> f x = f y -> i = j.
Proof.
  intros Hnd Hi Hj Hf. eapply NoDup_lookup; [exact Hnd| |]; rewrite list_lookup_fmap.
  - by rewrite Hi.
  - by rewrite Hj, Hf.
Qed.

Lemma elem_alter {A} (f : A -> A) i (l : list A) x : x ∈ alter f i l ->
  x ∈ l \/ exists y, l !! i = Some y /\ x = f y.
Proof.
  intros [j Hj]%list_elem_of_lookup. destruct (decide (i = j)) as [<-|Hne].
  - rewrite list_lookup_alter_eq in Hj. destruct (l !! i) as [y|] eqn:Hy; [|done].
    right. injection Hj as <-. by exists y.
  - rewrite list_lookup_alter_ne in Hj by done. left. by eapply list_elem_of_lookup_2.
Qed.

Lemma fmap_alter_same {A B} (g : A -> B) (f : A -> A) i (l : list A) :
  (forall x, g (f x) = g x) -> g <$> alter f i l = g <$> l.
Proof.
  intros Hg. apply list_eq. intros j. rewrite !list_lookup_fmap.
  destruct (decide (i = j)) as [<-|Hne]; [|by rewrite list_lookup_alter_ne].
  rewrite list_lookup_alter_eq. destruct (l !! i); cbn; by rewrite ?Hg.
Qed.

Section invariant.
Context {W J : Type} `{JsonSetters J, !JsonMembers J, !JsonHeight J, !JsonLaws J, !JsonNewLaws J,
  !JsonRecordLaws J}.

Abbreviation graph := (state_graph (W := W) (J := J)).
Abbreviation run := (run_entry (J := J)).
Abbreviation entry := (history_entry (J := J)).

(** ** The invariant *)

(** A node leaves at most [bound] sends in a new context. *)
Definition sends_at_most (bound : nat) (node : node_entry (W := W) (J := J)) : Prop :=
  forall ctx w o, ctx_sends ctx = [] -> (length (ctx_sends (node_json_value_fn node ctx w o).1.1.2) <= bound)%nat.

Definition history_of (g : graph) (id : string) : list entry := filter (fun h => he_run_id h = id) (history g).

(** A run is interrupted before a node, and completed when it has none. *)
Definition flags_agree (r : run) : Prop :=
  (run_interrupted r = true -> is_Some (run_current_node r) /\ run_completed r = false) /\
  (run_completed r = true -> run_current_node r = None).

Record graph_wf (bound : nat) (g : graph) : Prop := {
  wf_channel_names : NoDup (ch_name <$> channels g);
  wf_channels : channels_hold (channels g);
  wf_node_names : NoDup (node_name <$> nodes g);
  wf_entry : forall n, entry_node g = Some n -> n ∈ node_name <$> nodes g;
  wf_edges : Forall (fun e => (from_index e < length (nodes g))%nat /\ (to_index e < length (nodes g))%nat) (edges g);
  wf_sends : Forall (sends_at_most bound) (nodes g);
  wf_counters : 0 <= next_run_id g /\ 0 <= next_history_id g /\ next_checkpoint_id g = next_history_id g;
  wf_run_ids : issued "run" (next_run_id g) (run_id <$> runs g);
  wf_history_ids : issued "history" (next_history_id g) (he_id <$> history g);
  wf_checkpoint_ids : issued "checkpoint" (next_history_id g) (he_checkpoint_id <$> history g);
  wf_history_runs : Forall (fun h => exists r, r ∈ runs g /\ run_id r = he_run_id h /\
    run_thread_id r = he_thread_id h) (history g);
  wf_latest : Forall (fun r => run_latest r = None \/
    run_latest r = he_id <$> last (history_of g (run_id r))) (runs g);
  wf_run_threads : Forall (fun r => run_thread_id r ∈ th_id <$> threads g) (runs g);
  wf_current : Forall (fun t => forall c, th_current_run_id t = Some c ->
    exists r, r ∈ runs g /\ run_id r = c /\ run_thread_id r = th_id t) (threads g);
  wf_run_states : Forall (fun r => state_holds (channels g) (run_state r) /\ flags_agree r) (runs g);
  wf_history_states : Forall (fun h => state_holds (channels g) (he_state h) /\
    json_type (he_update h) = JSON_OBJECT) (history g)
}.

(** ** Before and after *)

Definition same_run (x y : run) : Prop :=
  run_id y = run_id x /\ run_thread_id y = run_thread_id x /\
  run_parent_run_id y = run_parent_run_id x /\ run_forked_from y = run_forked_from x.

(** [g'] comes from [g]: the structure is the same, history only got new entries,
    those of runs that may change, and the runs in [R] and the threads in [T] only
    changed their progress; all others are as they were. *)
Record extends (R T : nat -> Prop) (g g' : graph) : Prop := {
  ext_structure : graph_name g' = graph_name g /\ entry_node g' = entry_node g /\ channels g' = channels g /\
    nodes g' = nodes g /\ edges g' = edges g;
  ext_history : exists new, history g' = history g ++ new /\
    Forall (fun h => exists i x, runs g' !! i = Some x /\ run_id x = he_run_id h /\
      ((i < length (runs g))%nat -> R i)) new;
  ext_runs : forall i x, runs g !! i = Some x -> exists y, runs g' !! i = Some y /\ same_run x y /\ (~ R i -> y = x);
  ext_threads : forall i t, threads g !! i = Some t ->
    exists u, threads g' !! i = Some u /\ th_id u = th_id t /\ (~ T i -> u = t)
}.

Lemma same_run_refl x : same_run x x.
Proof. done. Qed.

Lemma same_run_trans x y z : same_run x y -> same_run y z -> same_run x z.
Proof. unfold same_run. intros (?&?&?&?) (?&?&?&?). split_and!; congruence. Qed.

Lemma sg_extends_refl R T g : extends R T g g.
Proof.
  split; [done| | |].
  - exists []. by rewrite app_nil_r.
  - intros i x Hx. by exists x.
  - intros i t Ht. by exists t.
Qed.

(** A later step may also change the runs and threads that are new. *)
Lemma sg_extends_trans (R T R' T' : nat -> Prop) g1 g2 g3 :
  (forall i, (i < length (runs g1))%nat -> R' i -> R i) ->
  (forall i, (i < length (threads g1))%nat -> T' i -> T i) ->
  extends R T g1 g2 -> extends R' T' g2 g3 -> extends R T g1 g3.
Proof.
  intros HR HT [S1 (n1 & Hh1 & Hn1) Hr1 Ht1] [S2 (n2 & Hh2 & Hn2) Hr2 Ht2]. split.
  - destruct S1 as (?&?&?&?&?), S2 as (?&?&?&?&?). split_and!; congruence.
  - exists (n1 ++ n2). split; [by rewrite Hh2, Hh1, app_assoc|]. apply Forall_app. split.
    + eapply Forall_impl; [exact Hn1|]. intros h (i & x & Hx & Hid & HRi).
      destruct (Hr2 i x Hx) as (y & Hy & (Hyid & _) & _). exists i, y. by rewrite Hyid.
    + eapply Forall_impl; [exact Hn2|]. intros h (i & x & Hx & Hid & HRi). exists i, x. split_and!; [done..|].
      intros Hi. apply HR; [done|]. apply HRi.
      assert (is_Some (runs g1 !! i)) as [y Hy] by (by apply lookup_lt_is_Some).
      destruct (Hr1 i y Hy) as (z & Hz & _). by apply lookup_lt_Some in Hz.
  - intros i x Hx. destruct (Hr1 i x Hx) as (y & Hy & Hxy & HRy). destruct (Hr2 i y Hy) as (z & Hz & Hyz & HRz).
    exists z. split_and!; [done|by eapply same_run_trans|]. intros Hn. rewrite HRz, HRy; [done..|].
    intros HR'. apply Hn, HR; [by apply lookup_lt_Some in Hx|done].
  - intros i x Hx. destruct (Ht1 i x Hx) as (y & Hy & Hxy & HTy). destruct (Ht2 i y Hy) as (z & Hz & Hyz & HTz).
    exists z. split_and!; [done|congruence|]. intros Hn. rewrite HTz, HTy; [done..|].
    intros HT'. apply Hn, HT; [by apply lookup_lt_Some in Hx|done].
Qed.

(** ** Changes of one part *)

Lemma update_run_extends (R T : nat -> Prop) (g : graph) r f : R r -> (forall x, same_run x (f x)) ->
  extends R T g (update_run r f g).
Proof.
  intros HR Hf. split; [done| | |].
  - exists []. by rewrite app_nil_r.
  - intros i x Hx. unfold update_run. cbn. destruct (decide (r = i)) as [<-|Hne].
    + rewrite list_lookup_alter_eq, Hx. cbn. exists (f x). by split_and!.
    + rewrite list_lookup_alter_ne by done. by exists x.
  - intros i t Ht. by exists t.
Qed.

Lemma update_run_ids (g : graph) r f : (forall x, same_run x (f x)) ->
  run_id <$> runs (update_run r f g) = run_id <$> runs g.
Proof. intros Hf. cbn. apply fmap_alter_same. intros x. apply Hf. Qed.

(** Whatever holds of the runs that an entry or thread refers to holds after a change of progress. *)
Lemma update_run_refers (g : graph) r f id thread : (forall x, same_run x (f x)) ->
  (exists x, x ∈ runs g /\ run_id x = id /\ run_thread_id x = thread) ->
  exists x, x ∈ runs (update_run r f g) /\ run_id x = id /\ run_thread_id x = thread.
Proof.
  intros Hf (x & [i Hi]%list_elem_of_lookup & Hid & Hth).
  destruct (ext_runs _ _ _ _ (update_run_extends (fun _ => True) (fun _ => True) g r f I Hf) i x Hi)
    as (y & Hy & (Hyid & Hyth & _) & _).
  exists y. split; [by eapply list_elem_of_lookup_2|]. by rewrite Hyid, Hyth.
Qed.

(** A change of the progress of a run keeps the invariant. *)
Lemma update_run_wf bound (g : graph) r f : graph_wf bound g -> (forall x, same_run x (f x)) ->
  (forall x, runs g !! r = Some x -> state_holds (channels g) (run_state (f x)) /\ flags_agree (f x) /\
     (run_latest (f x) = None \/ run_latest (f x) = run_latest x)) ->
  graph_wf bound (update_run r f g).
Proof.
  intros Hwf Hf Hx. destruct Hwf. split; try done.
  - by rewrite update_run_ids.
  - eapply Forall_impl; [exact wf_history_runs0|]. intros h. by apply update_run_refers.
  - apply Forall_forall. intros x [Hin|(y & Hy & ->)]%elem_alter; [by eapply Forall_forall in wf_latest0|].
    destruct (Hx y Hy) as (_ & _ & [Hl|Hl]); [by left|]. rewrite Hl. destruct (Hf y) as [-> _].
    eapply Forall_forall in wf_latest0; [done|]. by eapply list_elem_of_lookup_2.
  - apply Forall_forall. intros x [Hin|(y & Hy & ->)]%elem_alter; [by eapply Forall_forall in wf_run_threads0|].
    destruct (Hf y) as (_ & -> & _). eapply Forall_forall in wf_run_threads0; [done|].
    by eapply list_elem_of_lookup_2.
  - eapply Forall_impl; [exact wf_current0|]. intros t Ht c Hc. by apply update_run_refers, Ht.
  - apply Forall_forall. intros x [Hin|(y & Hy & ->)]%elem_alter; [by eapply Forall_forall in wf_run_states0|].
    by destruct (Hx y Hy) as (? & ? & _).
Qed.

(** An entry of a run is recorded and becomes its latest. *)
Definition record_entry (r : nat) (e : entry) (g : graph) : graph :=
  let g := update_run r (run_with_latest (Some (he_id e))) g in
  set_history (history g ++ [e]) (history_capacity g) g.

Lemma latest_same_run x l : same_run x (run_with_latest l x).
Proof. done. Qed.

Lemma history_of_snoc (l : list entry) e id :
  filter (fun h => he_run_id h = id) (l ++ [e]) =
  filter (fun h => he_run_id h = id) l ++ (if decide (he_run_id e = id) then [e] else []).
Proof.
  rewrite filter_app. by f_equal.
Qed.

Lemma record_entry_wf bound (g : graph) r x e : graph_wf bound g -> runs g !! r = Some x ->
  he_run_id e = run_id x -> he_thread_id e = run_thread_id x ->
  issued "history" (next_history_id g) ((he_id <$> history g) ++ [he_id e]) ->
  issued "checkpoint" (next_history_id g) ((he_checkpoint_id <$> history g) ++ [he_checkpoint_id e]) ->
  state_holds (channels g) (he_state e) -> json_type (he_update e) = JSON_OBJECT ->
  graph_wf bound (record_entry r e g).
Proof.
  intros Hwf Hx Hrun Hth Hids Hcids Hst Hup.
  assert (Hupd : graph_wf bound (update_run r (run_with_latest None) g)).
  { apply update_run_wf; [done|done|]. intros y Hy. destruct Hwf.
    eapply Forall_forall in wf_run_states0 as [Hs Hf]; [|by eapply list_elem_of_lookup_2].
    split_and!; [exact Hs|exact Hf|by left]. }
  pose proof (issued_nodup _ _ _ (wf_run_ids _ _ Hwf)) as Hnd.
  destruct Hupd, Hwf. split; try done; cbn.
  - by rewrite fmap_alter_same.
  - by rewrite fmap_app.
  - by rewrite fmap_app.
  - apply Forall_app. split.
    + eapply Forall_impl; [exact wf_history_runs1|]. intros h.
      by apply (update_run_refers g r (run_with_latest (Some (he_id e)))).
    + constructor; [|done]. rewrite Hrun, Hth.
      apply (update_run_refers g r (run_with_latest (Some (he_id e)))); [done|].
      exists x. split; [by eapply list_elem_of_lookup_2|done].
  - apply Forall_forall. intros y [j Hy]%list_elem_of_lookup.
    rewrite history_of_snoc. destruct (decide (r = j)) as [<-|Hne].
    + rewrite list_lookup_alter_eq, Hx in Hy. injection Hy as <-. right. cbn.
      by rewrite decide_True, last_snoc.
    + rewrite list_lookup_alter_ne in Hy by done. rewrite decide_False, app_nil_r.
      * eapply Forall_forall in wf_latest1; [exact wf_latest1|]. by eapply list_elem_of_lookup_2.
      * rewrite Hrun. intros Heq. destruct Hne. by eapply (nodup_lookup run_id).
  - apply Forall_forall. intros y [Hin|(z & Hz & ->)]%elem_alter; [by eapply Forall_forall in wf_run_threads1|].
    cbn. eapply Forall_forall in wf_run_threads1; [done|]. by eapply list_elem_of_lookup_2.
  - eapply Forall_impl; [exact wf_current1|]. intros t Ht c Hc.
    by apply (update_run_refers g r (run_with_latest (Some (he_id e)))), Ht.
  - apply Forall_forall. intros y [Hin|(z & Hz & ->)]%elem_alter; [by eapply Forall_forall in wf_run_states1|].
    cbn. eapply Forall_forall in wf_run_states1; [exact wf_run_states1|]. by eapply list_elem_of_lookup_2.
  - by apply Forall_app; split; [|constructor].
Qed.

Lemma record_entry_extends (g : graph) r x e : runs g !! r = Some x -> he_run_id e = run_id x ->
  extends (eq r) (fun _ => False) g (record_entry r e g).
Proof.
  intros Hx Hrun.
  pose proof (update_run_extends (eq r) (fun _ => False) g r (run_with_latest (Some (he_id e))) eq_refl
    (fun x => latest_same_run x _)) as Hupd.
  destruct Hupd. split; [done| |done|done].
  exists [e]. split; [done|]. constructor; [|done]. exists r, (run_with_latest (Some (he_id e)) x).
  split_and!; [|done|done]. cbn. by rewrite list_lookup_alter_eq, Hx.
Qed.

(** The parts of a graph that matter: all but the capacities. *)
Definition same_parts (g g' : graph) : Prop :=
  (graph_name g' = graph_name g /\ entry_node g' = entry_node g /\ channels g' = channels g /\
   nodes g' = nodes g /\ edges g' = edges g) /\
  (threads g' = threads g /\ runs g' = runs g /\ history g' = history g) /\
  (next_run_id g' = next_run_id g /\ next_history_id g' = next_history_id g /\
   next_checkpoint_id g' = next_checkpoint_id g).

Lemma same_parts_wf bound g g' : same_parts g g' -> graph_wf bound g -> graph_wf bound g'.
Proof.
  intros ((Hn & He & Hc & Hns & Hes) & (Ht & Hr & Hh) & (Hri & Hhi & Hci)) [].
  split; unfold history_of in *; rewrite ?He, ?Hc, ?Hns, ?Hes, ?Ht, ?Hr, ?Hh, ?Hri, ?Hhi, ?Hci; done.
Qed.

Lemma same_parts_extends R T g0 g g' : same_parts g g' -> extends R T g0 g -> extends R T g0 g'.
Proof.
  intros ((Hn & He & Hc & Hns & Hes) & (Ht & Hr & Hh) & _) [].
  split; rewrite ?Hn, ?He, ?Hc, ?Hns, ?Hes, ?Ht, ?Hr, ?Hh; done.
Qed.

(** ** Stepping through an operation *)

(** From [g], with any world and memory, [m] either goes on with [Q] or returns with [E]. *)
Definition wp {A} (m : sg (W := W) (J := J) A) (Q : A -> graph -> Prop) (E : graph -> Prop) (g : graph) : Prop :=
  forall w o, match m g w o with
              | (inl x, g', _, _) => Q x g'
              | (inr _, g', _, _) => E g'
              end.

Section rules.
Context {A : Type} (E : graph -> Prop) (g : graph).

Lemma sg_wp_mono (m : sg A) (Q Q' : A -> graph -> Prop) :
  wp m Q E g -> (forall x g', Q x g' -> Q' x g') -> wp m Q' E g.
Proof.
  intros Hm HQ w o. specialize (Hm w o). destruct (m g w o) as [[[[x|r] g'] w'] o']; [by apply HQ|done].
Qed.

Lemma wp_consequence (m : sg A) (Q Q' : A -> graph -> Prop) (E' : graph -> Prop) :
  wp m Q' E' g -> (forall x g', Q' x g' -> Q x g') -> (forall g', E' g' -> E g') -> wp m Q E g.
Proof.
  intros Hm HQ HE w o. specialize (Hm w o). destruct (m g w o) as [[[[x|r] g'] w'] o']; [by apply HQ|by apply HE].
Qed.

Lemma sg_wp_ret (x : A) (Q : A -> graph -> Prop) : Q x g -> wp (mret x) Q E g.
Proof. by intros HQ w o. Qed.

Lemma sg_wp_bind {B} (m : sg B) (k : B -> sg A) (Q : A -> graph -> Prop) :
  wp m (fun x g' => wp (k x) Q E g') E g -> wp (m ≫= k) Q E g.
Proof.
  intros Hm w o. specialize (Hm w o). unfold mbind, sg_bind. cbn beta.
  destruct (m g w o) as [[[[x|r] g'] w'] o']; [apply Hm|done].
Qed.

Lemma wp_leave st (Q : A -> graph -> Prop) : E g -> wp (leave st) Q E g.
Proof. by intros HE w o. Qed.

Lemma wp_found (x : option A) st (Q : A -> graph -> Prop) :
  (forall y, x = Some y -> Q y g) -> E g -> wp (found x st) Q E g.
Proof. intros HQ HE w o. destruct x as [y|]; cbn; [by apply HQ|done]. Qed.

Lemma wp_lift (m : em A) (P : A -> Prop) (Q : A -> graph -> Prop) : em_yields m P ->
  (forall x, P x -> Q x g) -> E g -> wp (lift m) Q E g.
Proof.
  intros Hm HQ HE w o. unfold lift. specialize (Hm o). destruct (m o) as [[x|st] o1]; [|done].
  by apply HQ, Hm.
Qed.

End rules.

Section primitives.
Context (E : graph -> Prop) (g : graph).

Lemma wp_get (Q : graph -> graph -> Prop) : Q g g -> wp get_graph Q E g.
Proof. by intros HQ w o. Qed.

Lemma wp_modify f (Q : unit -> graph -> Prop) : Q tt (f g) -> wp (modify f) Q E g.
Proof. by intros HQ w o. Qed.

Lemma wp_copied n (Q : unit -> graph -> Prop) : Q tt g -> E g -> wp (copied n) Q E g.
Proof. intros HQ HE w o. unfold copied. by destruct (alloc_all n o) as [[] o']. Qed.

Lemma wp_tried n (Q : bool -> graph -> Prop) : (forall b, Q b g) -> wp (tried n) Q E g.
Proof. intros HQ w o. unfold tried. destruct (alloc_all n o) as [b o']. apply HQ. Qed.

Lemma wp_reserved capacity count (Q : Z -> graph -> Prop) : (forall n, Q n g) -> E g ->
  wp (reserved capacity count) Q E g.
Proof.
  intros HQ HE w o. unfold reserved.
  by destruct (turbo_state_graph_reserve capacity (Z.of_nat count) o) as [[n|] o'].
Qed.

Lemma wp_current r (Q : run -> graph -> Prop) : (forall x, runs g !! r = Some x -> Q x g) -> E g ->
  wp (current_run r) Q E g.
Proof. intros HQ HE w o. unfold current_run. destruct (runs g !! r) as [x|] eqn:Hx; [by apply HQ|done]. Qed.

End primitives.

End invariant.

(** One step of an operation. *)
Ltac wp_step :=
  cbn beta iota;
  lazymatch goal with
  | |- wp (_ ≫= _) _ _ _ => apply sg_wp_bind
  | |- wp (mret _) _ _ _ => apply sg_wp_ret
  | |- wp get_graph _ _ _ => apply wp_get
  | |- wp (modify _) _ _ _ => apply wp_modify
  | |- wp (leave _) _ _ _ => apply wp_leave
  | |- wp (copied _) _ _ _ => apply wp_copied
  | |- wp (tried _) _ _ _ => apply wp_tried; intros ?
  | |- wp (reserved _ _) _ _ _ => apply wp_reserved; [intros ?|]
  end.
