(* ===== verification/StateGraphOps.v ===== *)
(** * State graphs: the steps of the operations (src/runtime/src/turbo_state_graph.c)

    Every step of an operation keeps the invariant and only changes the runs and
    threads the operation is about, whatever the nodes, the predicates and the
    memory do. *)

From stdpp Require Import pretty.
From S2P Require Import Prelude RuntimeJson JsonBuild JsonMem JsonRecord StateGraph StateGraphTypes StateGraphFacts.

#[local] Open Scope string_scope.
#[local] Open Scope list_scope.
#[local] Open Scope Z_scope.

Section operations.
Context {W J : Type} `{JsonSetters J, !JsonMembers J, !JsonHeight J, !JsonLaws J, !JsonNewLaws J,
  !JsonRecordLaws J}.

Abbreviation graph := (state_graph (W := W) (J := J)).
Abbreviation run := (run_entry (J := J)).
Abbreviation entry := (history_entry (J := J)).

(** An operation that started at [g0] may change the runs in [R], the threads in
    [T] and what is new; [n]: the identifiers it may still issue, [rest]: those
    that later operations may issue. *)
Context (bound rest : nat) (R T : nat -> Prop) (g0 : graph).

Definition inv (n : nat) (g : graph) : Prop :=
  graph_wf bound g /\ extends R T g0 g /\
  next_run_id g + Z.of_nat (n + rest) < 2 ^ 64 /\ next_history_id g + Z.of_nat (n + rest) < 2 ^ 64.

Definition may_run (r : nat) : Prop := (r < length (runs g0))%nat -> R r.
Definition may_thread (t : nat) : Prop := (t < length (threads g0))%nat -> T t.

Lemma inv_weaken n m g : (m <= n)%nat -> inv n g -> inv m g.
Proof. intros Hnm (? & ? & ? & ?). split_and!; [done..|lia|lia]. Qed.

Lemma inv_same n g g' : same_parts g g' -> inv n g -> inv n g'.
Proof.
  intros Hs (Hwf & Hext & Hr & Hh). split_and!; [by eapply same_parts_wf|by eapply same_parts_extends|..];
    destruct Hs as (_ & _ & Hr' & Hh' & _); by rewrite ?Hr', ?Hh'.
Qed.

Lemma inv_update n g r f : inv n g -> may_run r -> (forall x, same_run x (f x)) ->
  (forall x, runs g !! r = Some x -> state_holds (channels g) (run_state x) -> flags_agree x ->
     state_holds (channels g) (run_state (f x)) /\ flags_agree (f x) /\
     (run_latest (f x) = None \/ run_latest (f x) = run_latest x)) ->
  inv n (update_run r f g).
Proof.
  intros (Hwf & Hext & Hr & Hh) Hmay Hf Hx. split_and!; [|..|done|done].
  - apply update_run_wf; [done|done|]. intros x Hin. pose proof (wf_run_states _ _ Hwf) as Hs.
    eapply Forall_forall in Hs as [??]; [by eapply Hx|]. by eapply list_elem_of_lookup_2.
  - eapply sg_extends_trans with (R' := eq r) (T' := fun _ => False); [|done|exact Hext|by apply update_run_extends].
    intros i Hi <-. by apply Hmay.
Qed.

(** The two numbers of a history record. *)
Lemma inv_history_ids n g : inv (S n) g ->
  let h := next_history_id g + 1 in
  u64 (next_history_id g + 1) = h /\ u64 (next_checkpoint_id g + 1) = h /\
  inv n (set_counters (next_thread_id g) (next_run_id g) h h g).
Proof.
  intros (Hwf & Hext & Hr & Hh). destruct (wf_counters _ _ Hwf) as (Hr0 & Hh0 & Hc). cbn zeta.
  rewrite Hc. unfold u64. rewrite Z.mod_small by lia. split_and!; [done..|]. split_and!; cbn; [|..|lia|lia].
  - destruct Hwf. split; try done; cbn; [lia|..]; (eapply issued_mono; [|done]; lia).
  - destruct Hext. by split.
Qed.

(** The number of a run. *)
Lemma inv_run_id n g : inv (S n) g ->
  u64 (next_run_id g + 1) = next_run_id g + 1 /\
  inv n (set_counters (next_thread_id g) (next_run_id g + 1) (next_history_id g) (next_checkpoint_id g) g).
Proof.
  intros (Hwf & Hext & Hr & Hh). destruct (wf_counters _ _ Hwf) as (Hr0 & Hh0 & Hc).
  unfold u64. rewrite Z.mod_small by lia. split; [done|]. split_and!; cbn; [|..|lia|lia].
  - destruct Hwf. split; try done; cbn; [lia|]. eapply issued_mono; [|done]; lia.
  - destruct Hext. by split.
Qed.

Lemma inv_thread_id n g k : inv n g ->
  inv n (set_counters k (next_run_id g) (next_history_id g) (next_checkpoint_id g) g).
Proof. intros (Hwf & Hext & Hr & Hh). split_and!; [by destruct Hwf; split|by destruct Hext; split|done|done]. Qed.

Lemma inv_bound n g : inv n g -> inv 0 g.
Proof. apply inv_weaken. lia. Qed.

Lemma inv_run_state n g r x : inv n g -> runs g !! r = Some x ->
  state_holds (channels g) (run_state x) /\ flags_agree x.
Proof.
  intros (Hwf & _) Hx. pose proof (wf_run_states _ _ Hwf) as Hs. eapply Forall_forall in Hs; [done|].
  by eapply list_elem_of_lookup_2.
Qed.

(** ** History *)

Lemma wp_apply_exactly n g r update (Q : unit -> graph -> Prop) : inv n g -> may_run r ->
  (forall s, inv n (update_run r (run_with_state s) g) -> json_type update = JSON_OBJECT ->
     Q tt (update_run r (run_with_state s) g)) ->
  wp (apply_to_run r update) Q (inv 0) g.
Proof.
  intros Hinv Hmay HQ. unfold apply_to_run. wp_step. apply wp_current; [|by eapply inv_bound].
  intros x Hx w o. unfold apply_state. destruct (inv_run_state _ _ _ _ Hinv Hx) as [Hst Hfl].
  assert (Hd : channels_hold (channels g)) by apply Hinv.
  pose proof (apply_update_holds (channels g) (run_state x) update o Hd Hst) as Hs.
  pose proof (apply_update_object (channels g) (run_state x) update o) as Ho.
  destruct (turbo_state_graph_apply_update _ _ _ o) as [[st state] o']. cbn in Hs, Ho.
  assert (Hinv' : inv n (update_run r (run_with_state state) g)).
  { apply inv_update; [done..|]. intros y _ _ Hfy. split_and!; [done|exact Hfy|by right]. }
  destruct st; try (by eapply inv_bound). apply HQ; [done|by apply Ho].
Qed.

Lemma wp_apply_to_run n g r update (Q : unit -> graph -> Prop) : inv n g -> may_run r ->
  (forall g', inv n g' -> json_type update = JSON_OBJECT -> Q tt g') ->
  wp (apply_to_run r update) Q (inv 0) g.
Proof. intros Hinv Hmay HQ. eapply wp_apply_exactly; [done..|]. intros s. apply HQ. Qed.

Lemma inv_record n g r x e : inv n g -> may_run r -> runs g !! r = Some x ->
  he_run_id e = run_id x -> he_thread_id e = run_thread_id x ->
  issued "history" (next_history_id g) ((he_id <$> history g) ++ [he_id e]) ->
  issued "checkpoint" (next_history_id g) ((he_checkpoint_id <$> history g) ++ [he_checkpoint_id e]) ->
  state_holds (channels g) (he_state e) -> json_type (he_update e) = JSON_OBJECT ->
  inv n (record_entry r e g).
Proof.
  intros (Hwf & Hext & Hr & Hh) Hmay Hx Hrun Hth Hids Hcids Hst Hup. split_and!; [|..|done|done].
  - by eapply record_entry_wf.
  - eapply sg_extends_trans with (R' := eq r) (T' := fun _ => False); [|done|exact Hext|by eapply record_entry_extends].
    intros i Hi <-. by apply Hmay.
Qed.

Lemma wp_add_history_record n g r kind source_name why last_node next_node step update x
    (Q : entry -> graph -> Prop) :
  inv (S n) g -> may_run r -> runs g !! r = Some x ->
  (match update with Some u => json_type u = JSON_OBJECT | None => True end) ->
  (forall e g', inv n g' -> Q e g') ->
  wp (turbo_state_graph_add_history_record r kind source_name why last_node next_node step update (run_state x))
    Q (inv 0) g.
Proof.
  intros Hinv Hmay Hx Hup HQ. unfold turbo_state_graph_add_history_record.
  do 2 wp_step. wp_step. wp_step; [|by eapply inv_bound]. do 2 wp_step.
  assert (Hinv1 : inv (S n) (set_history (history g) n0 g)) by (by apply (inv_same _ g); [repeat split|]).
  assert (Hx1 : runs (set_history (history g) n0 g) !! r = Some x) by exact Hx. clear Hinv Hx.
  generalize dependent (set_history (history g) n0 g). clear g n0. intros g Hinv Hx.
  wp_step. wp_step; [|by eapply inv_bound]. do 3 wp_step.
  pose proof (proj1 (wf_counters _ _ (proj1 Hinv))) as Hr0.
  pose proof (proj1 (proj2 (wf_counters _ _ (proj1 Hinv)))) as Hh0.
  pose proof (issued_next _ _ _ Hh0 (wf_history_ids _ _ (proj1 Hinv))) as Hids.
  pose proof (issued_next _ _ _ Hh0 (wf_checkpoint_ids _ _ (proj1 Hinv))) as Hcids.
  destruct (inv_history_ids n g Hinv) as (-> & -> & Hinv2). wp_step. clear Hinv.
  wp_step. wp_step; [|by eapply inv_bound]. wp_step. apply wp_current; [|by eapply inv_bound].
  intros y Hy. assert (y = x) as -> by (cbn in Hy; congruence). do 2 wp_step.
  match goal with |- wp _ _ _ (update_run r _ ?g) => assert (Hinv3 : inv n (update_run r (run_with_latest None) g)) end.
  { apply inv_update; [done..|]. intros z _ Hz Hfz. split_and!; [exact Hz|exact Hfz|by left]. }
  wp_step. wp_step; [|by eapply inv_bound]. do 2 wp_step. wp_step. wp_step. wp_step.
  destruct (inv_run_state _ _ _ _ Hinv2 Hy) as [Hst _]. apply HQ.
  match goal with |- inv _ (set_history (_ ++ [?e]) _ _) =>
    refine (inv_record _ _ r (run_with_latest None x) e Hinv3 Hmay _ eq_refl eq_refl Hids Hcids _ _) end.
  - cbn. by rewrite list_lookup_alter_eq, Hx.
  - by apply state_holds_clone.
  - cbn. destruct update as [u|]; [by rewrite clone_type|apply json_type_object].
Qed.

(** ** Nodes and sends *)

Lemma inv_nodes n g : inv n g -> nodes g = nodes g0.
Proof. intros (_ & [(_ & _ & _ & Hn & _) _ _ _] & _). exact Hn. Qed.

Lemma wp_node_at n g i st (Q : node_entry (W := W) (J := J) -> graph -> Prop) : inv n g ->
  (forall node, sends_at_most bound node -> Q node g) ->
  wp (found (nodes g !! i) st) Q (inv 0) g.
Proof.
  intros Hinv HQ. apply wp_found; [|by eapply inv_bound]. intros node Hn. apply HQ.
  pose proof (wf_sends _ _ (proj1 Hinv)) as Hs. eapply Forall_forall in Hs; [done|]. by eapply list_elem_of_lookup_2.
Qed.

Lemma sg_wp_call_node n g node ctx (Q : exec_ctx (J := J) -> graph -> Prop) : inv n g -> sends_at_most bound node -> ctx_sends ctx = [] ->
  (forall ctx', (length (ctx_sends ctx') <= bound)%nat -> Q ctx' g) ->
  wp (call_node node ctx) Q (inv 0) g.
Proof.
  intros Hinv Hs Hnew HQ w o. unfold call_node. specialize (Hs ctx w o Hnew).
  destruct (node_json_value_fn node ctx w o) as [[[st ctx'] w'] o']. destruct (st =? 0); [by apply HQ|].
  by eapply inv_bound.
Qed.

Lemma wp_new_object n g (Q : J -> graph -> Prop) x : inv n g -> Q x g ->
  wp (lift_mem (create x)) Q (inv 0) g.
Proof.
  intros Hinv HQ. unfold lift_mem. apply (wp_lift _ _ _ (eq x)); [by apply em_yields_create|by intros ? <-|].
  by eapply inv_bound.
Qed.

Lemma wp_send n g r send step (Q : entry -> graph -> Prop) : inv (S (S n)) g -> may_run r ->
  (forall e g', inv n g' -> Q e g') ->
  wp (turbo_state_graph_execute_send_node r send step) Q (inv 0) g.
Proof.
  intros Hinv Hmay HQ. unfold turbo_state_graph_execute_send_node.
  wp_step. case_bool_decide as Hty; wp_step; [|by eapply inv_bound]. do 2 wp_step. wp_step.
  apply wp_found; [|by eapply inv_bound]. intros target _. wp_step.
  eapply wp_node_at; [done|]. intros node Hnode. wp_step. eapply wp_new_object; [done|]. wp_step.
  eapply wp_apply_to_run; [done..|]. clear g Hinv. intros g Hinv Hob. wp_step.
  apply wp_current; [|by eapply inv_bound]. intros x Hx. wp_step.
  eapply wp_add_history_record; [done..|]. clear g Hinv Hx. intros e g Hinv. wp_step.
  eapply wp_new_object; [done|]. wp_step. apply wp_current; [|by eapply inv_bound]. intros y Hy. wp_step.
  eapply sg_wp_call_node; [done..|]. intros ctx Hctx. wp_step.
  destruct (_ || _); wp_step; [by eapply inv_bound|]. wp_step.
  eapply wp_apply_to_run; [done..|]. clear g Hinv Hy. intros g Hinv Hob'. wp_step.
  apply wp_current; [|by eapply inv_bound]. intros z Hz. by eapply wp_add_history_record.
Qed.

Lemma wp_sends n r step sends : may_run r -> forall latest g (Q : option entry -> graph -> Prop),
  inv (2 * length sends + n) g -> (forall l g', inv n g' -> Q l g') ->
  wp (sg_sends r sends step latest) Q (inv 0) g.
Proof.
  intros Hmay. induction sends as [|send sends IH]; intros latest g Q Hinv HQ; cbn [sg_sends].
  - wp_step. by apply HQ.
  - wp_step. eapply (wp_send (2 * length sends + n)); [|done|].
    + eapply inv_weaken; [|exact Hinv]. cbn. lia.
    + intros e g' Hinv'. by apply IH.
Qed.

(** ** One node *)

Lemma wp_take_route n g i state (Q : bool * option nat -> graph -> Prop) : inv n g ->
  (forall x, Q x g) -> wp (take_route i state) Q (inv 0) g.
Proof.
  intros Hinv HQ w o. unfold take_route. by destruct (first_route i state (edges g) false w) as [[saw to] w'].
Qed.

Lemma wp_resolve_next n g r i ctx (Q : option string -> graph -> Prop) : inv n g ->
  (forall x, Q x g) -> wp (resolve_next r i ctx) Q (inv 0) g.
Proof.
  intros Hinv HQ. unfold resolve_next. destruct (ctx_next_node ctx) as [next|]; [by wp_step|].
  do 3 wp_step. apply wp_current; [|by eapply inv_bound]. intros x Hx. wp_step.
  eapply wp_take_route; [done|]. intros [[] [to|]]; wp_step; try done; try by eapply inv_bound.
  all: apply wp_found; [|by eapply inv_bound]; intros node _; by wp_step.
Qed.

Lemma wp_stand_before n g r node steps (Q : unit -> graph -> Prop) : inv n g -> may_run r ->
  (forall g', inv n g' -> Q tt g') -> wp (stand_before r node steps) Q (inv 0) g.
Proof.
  intros Hinv Hmay HQ. unfold stand_before. do 4 wp_step.
  assert (Hinv' : inv n (update_run r (run_at_node (if b then node else None) steps false
                                         (bool_decide (node = None))) g)).
  { apply inv_update; [done..|]. intros x _ Hst Hfl. split_and!; [done| |by right]. split; cbn; [done|].
    rewrite bool_decide_eq_true. intros ->. by destruct b. }
  destruct b; wp_step; [by apply HQ|by eapply inv_bound].
Qed.

(** The records one node may add: its own and two for every send. *)
Definition node_records : nat := 1 + 2 * bound.

Lemma wp_run_node n g r node steps latest (Q : exec_ctx (J := J) * option string * entry -> graph -> Prop) :
  inv (node_records + n) g -> may_run r -> (forall x g', inv n g' -> Q x g') ->
  wp (run_node r node steps latest) Q (inv 0) g.
Proof.
  intros Hinv Hmay HQ. unfold run_node. do 3 wp_step. apply wp_found; [|by eapply inv_bound]. intros i _. wp_step.
  eapply wp_node_at; [done|]. intros nd Hnd. wp_step. eapply wp_new_object; [done|]. wp_step.
  apply wp_current; [|by eapply inv_bound]. intros x Hx. wp_step.
  eapply sg_wp_call_node; [done..|]. intros ctx Hctx. wp_step.
  eapply wp_apply_to_run; [done..|]. clear g Hinv Hx. intros g Hinv Hob. wp_step.
  eapply (wp_sends (S n)); [done| |].
  { eapply inv_weaken; [|exact Hinv]. unfold node_records. lia. }
  clear g Hinv. intros l g Hinv. wp_step. eapply wp_resolve_next; [done|]. intros next. wp_step.
  eapply wp_stand_before; [done..|]. clear g Hinv. intros g Hinv. wp_step.
  apply wp_current; [|by eapply inv_bound]. intros y Hy. wp_step.
  eapply wp_add_history_record; [done..|]. intros e g' Hinv'. wp_step. by apply HQ.
Qed.

(** ** Runs *)

Lemma wp_hand_out g st result state (Q : option (sg_return (J := J)) -> graph -> Prop) :
  (forall x, Q x g) -> wp (hand_out st result state) Q (inv 0) g.
Proof. intros HQ w o. unfold hand_out. destruct (alloc o) as [b o']. by destruct b. Qed.

Lemma wp_finish_run n g r st latest steps (Q : option (sg_return (J := J)) -> graph -> Prop) : inv n g ->
  (forall x, Q x g) -> wp (finish_run r st latest steps) Q (inv 0) g.
Proof.
  intros Hinv HQ. unfold finish_run. wp_step. apply wp_current; [|by eapply inv_bound]. intros x _.
  by apply wp_hand_out.
Qed.

Lemma wp_run_loop fuel r options : may_run r ->
  forall node steps skip latest g (Q : option (sg_return (J := J)) -> graph -> Prop),
  inv (fuel * node_records) g -> (forall x g', inv 0 g' -> Q x g') ->
  wp (run_loop fuel r options node steps skip latest) Q (inv 0) g.
Proof.
  intros Hmay. induction fuel as [|fuel IH]; intros node steps skip latest g Q Hinv HQ; cbn [run_loop].
  { wp_step. apply HQ. by eapply inv_bound. }
  destruct (match options with Some _ => _ | None => _ end).
  { unfold stop_at_limit. wp_step. wp_step. do 2 wp_step.
    assert (Hinv' : inv 0 (update_run r (fun x => run_at_node (if b then Some node else None) (run_steps x)
                                                     false false x) g)).
    { apply inv_update; [by eapply inv_bound|done..|]. intros x _ Hst Hfl. split_and!; [done| |by right].
      by split. }
    wp_step. apply wp_current; [|done]. intros x _. wp_step. by apply HQ. }
  destruct (negb skip && _).
  { unfold interrupt_before. wp_step. wp_step; [|by eapply inv_bound]. do 2 wp_step.
    assert (Hinv' : inv 0 (update_run r (fun x => run_at_node (Some node) (run_steps x) true false x) g)).
    { apply inv_update; [by eapply inv_bound|done..|]. intros x _ Hst Hfl. split_and!; [done| |by right].
      split; [by split|done]. }
    wp_step. apply wp_current; [|done]. intros x _. apply wp_hand_out. by intros; apply HQ. }
  wp_step. eapply (wp_run_node (fuel * node_records)); [exact Hinv|done|].
  clear g Hinv. intros [[ctx next] e] g Hinv. destruct (ctx_stop ctx).
  - do 2 wp_step.
    assert (Hinv' : inv 0 (update_run r (fun x => run_at_node None (run_steps x) false true x) g)).
    { apply inv_update; [by eapply inv_bound|done..|]. intros x _ Hst Hfl. split_and!; [done| |by right].
      by split. }
    eapply wp_finish_run; [done|]. by intros; apply HQ.
  - destruct next as [next|]; [by apply IH|]. eapply wp_finish_run; [done|].
    intros x. apply HQ. by eapply inv_bound.
Qed.

Lemma wp_execute_run fuel g r options (Q : option (sg_return (J := J)) -> graph -> Prop) : may_run r ->
  inv (fuel * node_records) g -> (forall x g', inv 0 g' -> Q x g') ->
  wp (turbo_state_graph_execute_run fuel r options) Q (inv 0) g.
Proof.
  intros Hmay Hinv HQ. unfold turbo_state_graph_execute_run. do 3 wp_step.
  apply wp_current; [|by eapply inv_bound]. intros x Hx. cbn zeta.
  destruct (match options ≫= start_node with Some _ => _ | None => _ end) as [node|] eqn:Hnode;
    [by apply wp_run_loop|].
  do 3 wp_step. apply HQ. apply inv_update; [by eapply inv_bound|done..|].
  intros y Hy Hst Hfl. split_and!; [done| |by right]. split; [done|]. intros _. cbn.
  destruct (options ≫= start_node); [done|]. congruence.
Qed.

(** ** The seed of a run *)

Lemma wp_seed_run n g r kind source_name why update next_node step (Q : entry -> graph -> Prop) :
  inv (S n) g -> may_run r -> (forall x, runs g !! r = Some x -> run_interrupted x = false) ->
  (forall e g', inv n g' -> Q e g') ->
  wp (turbo_state_graph_seed_run r kind source_name why update next_node step) Q (inv 0) g.
Proof.
  intros Hinv Hmay Hfresh HQ. unfold turbo_state_graph_seed_run. wp_step. eapply wp_new_object; [done|]. wp_step.
  case_bool_decide as Hty; wp_step; [|by eapply inv_bound]. wp_step.
  eapply wp_apply_exactly; [done..|]. intros s Hinv1 _. do 2 wp_step. clear Hinv.
  match goal with |- wp _ _ _ ?g' => assert (Hinv2 : inv (S n) g') end.
  { apply inv_update; [done..|]. intros x Hx Hst [_ Hfl]. split_and!; [done| |by right].
    split; [|done]. cbn in Hx |- *. rewrite list_lookup_alter_eq in Hx.
    destruct (runs g !! r) as [y|] eqn:Hy; [|done]. cbn in Hx. injection Hx as <-. cbn. by rewrite (Hfresh y). }
  clear Hinv1. generalize dependent (update_run r (run_with_state s) g). intros g1 Hinv. clear g Hfresh.
  wp_step. wp_step; [|by eapply inv_bound]. do 2 wp_step.
  match goal with |- wp _ _ _ ?g' => assert (Hinv2 : inv (S n) g') end.
  { apply inv_update; [done..|]. intros x Hx Hst Hfl. split_and!; [done| |by right].
    split; [done|]. cbn. by rewrite bool_decide_eq_true. }
  wp_step. apply wp_current; [|by eapply inv_bound]. intros x Hx. by eapply wp_add_history_record.
Qed.

(** ** Threads and new runs *)

Lemma index_of_lookup {A} (p : A -> bool) l i : index_of p l = Some i -> exists x, l !! i = Some x /\ p x = true.
Proof.
  revert i. induction l as [|x l IH]; intros i; cbn; [done|]. destruct (p x) eqn:Hp; [intros [= <-]; by exists x|].
  destruct (index_of p l) as [j|]; [|done]. intros [= <-]. by apply IH.
Qed.

Lemma find_thread_lookup (g : graph) id t : turbo_state_graph_find_thread g id = Some t ->
  exists th, threads g !! t = Some th /\ th_id th = id.
Proof. intros (th & Ht & Hid%bool_decide_eq_true)%index_of_lookup. by exists th. Qed.

Lemma find_run_lookup (g : graph) id r : turbo_state_graph_find_run g id = Some r ->
  exists x, runs g !! r = Some x /\ run_id x = id.
Proof. intros (x & Hx & Hid%bool_decide_eq_true)%index_of_lookup. by exists x. Qed.

Lemma runs_grow n g : inv n g -> (length (runs g0) <= length (runs g))%nat.
Proof.
  intros (_ & Hext & _). destruct (decide (length (runs g0) <= length (runs g))%nat) as [|Hlt]; [done|].
  assert (is_Some (runs g0 !! length (runs g))) as [x Hx] by (apply lookup_lt_is_Some; lia).
  destruct (ext_runs _ _ _ _ Hext _ _ Hx) as (y & Hy & _). apply lookup_lt_Some in Hy. lia.
Qed.

Lemma threads_grow n g : inv n g -> (length (threads g0) <= length (threads g))%nat.
Proof.
  intros (_ & Hext & _). destruct (decide (length (threads g0) <= length (threads g))%nat) as [|Hlt]; [done|].
  assert (is_Some (threads g0 !! length (threads g))) as [x Hx] by (apply lookup_lt_is_Some; lia).
  destruct (ext_threads _ _ _ _ Hext _ _ Hx) as (y & Hy & _). apply lookup_lt_Some in Hy. lia.
Qed.

Lemma inv_new_thread n g id capacity : inv n g ->
  inv n (set_threads (threads g ++ [mk_thread id None]) capacity g).
Proof.
  intros (Hwf & Hext & Hr & Hh). split_and!; [| |done|done].
  - destruct Hwf. split; try done; cbn.
    + eapply Forall_impl; [exact wf_run_threads|]. intros x Hx. rewrite fmap_app, elem_of_app. by left.
    + apply Forall_app. split; [done|]. by repeat constructor.
  - destruct Hext. split; try done; cbn. intros i t Ht. destruct (ext_threads _ _ Ht) as (u & Hu & Hid & Heq).
    exists u. split; [|done]. by apply lookup_app_l_Some.
Qed.

Lemma inv_new_run n g x capacity : inv n g ->
  issued "run" (next_run_id g) ((run_id <$> runs g) ++ [run_id x]) ->
  run_thread_id x ∈ th_id <$> threads g -> state_holds (channels g) (run_state x) -> flags_agree x ->
  run_latest x = None -> inv n (set_runs (runs g ++ [x]) capacity g).
Proof.
  intros (Hwf & Hext & Hr & Hh) Hids Hth Hst Hfl Hl. split_and!; [| |done|done].
  - assert (Hin : forall y, y ∈ runs g -> y ∈ runs g ++ [x]) by (intros; apply elem_of_app; by left).
    destruct Hwf. split; try done; cbn.
    + by rewrite fmap_app.
    + eapply Forall_impl; [exact wf_history_runs|]. intros h (y & Hy & Heq). exists y. split; [by apply Hin|done].
    + apply Forall_app. split; [done|]. constructor; [by left|done].
    + apply Forall_app. split; [done|]. by constructor.
    + eapply Forall_impl; [exact wf_current|]. intros t Ht c Hc. destruct (Ht c Hc) as (y & Hy & Heq).
      exists y. split; [by apply Hin|done].
    + apply Forall_app. split; [done|]. by constructor.
  - destruct Hext as [Hs (new & Hh' & Hnew) Hruns Hths]. split; try done; cbn.
    + exists new. split; [done|]. eapply Forall_impl; [exact Hnew|]. intros h (i & y & Hy & Heq). exists i, y.
      split; [by apply lookup_app_l_Some|done].
    + intros i y Hy. destruct (Hruns i y Hy) as (z & Hz & Heq). exists z. split; [by apply lookup_app_l_Some|done].
Qed.

(** The thread that is found or made. *)
Lemma wp_add_thread n g requested (Q : nat -> graph -> Prop) : inv n g ->
  (forall t g', inv n g' -> runs g' = runs g ->
     (requested <> Some EmptyString /\ (requested ≫= turbo_state_graph_find_thread g) = Some t \/
      t = length (threads g)) -> Q t g') ->
  wp (turbo_state_graph_add_thread_record requested) Q (inv 0) g.
Proof.
  intros Hinv HQ. unfold turbo_state_graph_add_thread_record. do 2 wp_step.
  set (asked := match requested with Some EmptyString => None | r => r end).
  destruct (id ← asked; turbo_state_graph_find_thread g id) as [t|] eqn:Hf.
  { wp_step. apply HQ; [done..|]. left. subst asked. by destruct requested as [[]|]. }
  wp_step. eapply (sg_wp_mono _ _ _ (fun _ g' => inv n g' /\ runs g' = runs g /\ threads g' = threads g /\
    thread_capacity g' = thread_capacity g)).
  { destruct asked as [id|]; [by wp_step|]. do 3 wp_step. by split; [apply inv_thread_id|]. }
  intros id g' (Hinv' & Hr & Ht & Hc). wp_step. wp_step; [|by eapply inv_bound]. wp_step.
  wp_step; [|by eapply inv_bound]. do 3 wp_step. apply HQ; [|done|by right].
  rewrite <- Ht. by apply inv_new_thread.
Qed.

Lemma wp_add_run n g thread_id parent forked_from state node steps (Q : nat -> graph -> Prop) : inv (S n) g ->
  thread_id ∈ th_id <$> threads g -> state_holds (channels g) state ->
  (forall x g', inv n g' -> threads g' = threads g -> history g' = history g -> runs g' = runs g ++ [x] ->
     run_thread_id x = thread_id /\ run_parent_run_id x = parent /\ run_forked_from x = forked_from /\
     run_interrupted x = false /\ run_current_node x = node -> Q (length (runs g)) g') ->
  wp (turbo_state_graph_add_run_record thread_id parent forked_from state node steps) Q (inv 0) g.
Proof.
  intros Hinv Hth Hst HQ. unfold turbo_state_graph_add_run_record. do 3 wp_step.
  wp_step; [|by eapply inv_bound]. do 2 wp_step.
  pose proof (issued_next _ _ _ (proj1 (wf_counters _ _ (proj1 Hinv))) (wf_run_ids _ _ (proj1 Hinv))) as Hids.
  destruct (inv_run_id n g Hinv) as (-> & Hinv'). do 2 wp_step. wp_step.
  match goal with |- wp _ _ _ ?g' => assert (Hinv2 : inv n g') by (eapply inv_same; [|exact Hinv']; by repeat split) end.
  wp_step; [|by eapply inv_bound]. do 3 wp_step. cbn [runs set_runs set_counters].
  eapply HQ; [|done..|by split_and!]. apply (inv_new_run n _ _ _ Hinv2); try done.
  - by apply state_holds_clone.
  - split; cbn; [done|]. by rewrite bool_decide_eq_true.
Qed.

Lemma inv_point n g t c capacity : inv n g -> may_thread t ->
  (forall id th, c = Some id -> threads g !! t = Some th ->
     exists x, x ∈ runs g /\ run_id x = id /\ run_thread_id x = th_id th) ->
  inv n (set_threads (alter (fun th => mk_thread (th_id th) c) t (threads g)) capacity g).
Proof.
  intros (Hwf & Hext & Hr & Hh) Hmay Hc. split_and!; [| |done|done].
  - destruct Hwf. split; try done; cbn.
    + by rewrite fmap_alter_same.
    + apply Forall_forall. intros u [Hin|(th & Hth & ->)]%elem_alter; [by eapply Forall_forall in wf_current|].
      cbn. intros id Hid. by apply Hc.
  - destruct Hext as [Hs Hh' Hruns Hths]. split; try done; cbn. intros i th Hi.
    destruct (Hths i th Hi) as (u & Hu & Hid & Heq). destruct (decide (t = i)) as [<-|Hne].
    + exists (mk_thread (th_id u) c). rewrite list_lookup_alter_eq, Hu. split_and!; [done..|].
      intros HnT. destruct HnT. apply Hmay. by eapply lookup_lt_Some.
    + exists u. by rewrite list_lookup_alter_ne.
Qed.

Lemma wp_make_current n g t r x (Q : unit -> graph -> Prop) : inv n g -> may_thread t ->
  runs g !! r = Some x -> (forall th, threads g !! t = Some th -> th_id th = run_thread_id x) ->
  (forall g', inv n g' -> runs g' = runs g -> Q tt g') ->
  wp (make_current t r) Q (inv 0) g.
Proof.
  intros Hinv Hmay Hx Hth HQ. unfold make_current. do 2 wp_step.
  pose proof (inv_point n g t None (thread_capacity g) Hinv Hmay ltac:(done)) as Hinv1.
  wp_step. apply wp_current; [|by eapply inv_bound]. intros y Hy.
  assert (y = x) as -> by (cbn in Hy; congruence). wp_step. wp_step; [|by eapply inv_bound].
  wp_step. apply HQ; [|done]. apply (inv_point n _ t (Some (run_id x)) _ Hinv1 Hmay).
  intros id th [= <-]. cbn. rewrite list_lookup_alter_eq. destruct (threads g !! t) as [u|] eqn:Hu; [|done].
  intros [= <-]. cbn. exists x. split_and!; [by eapply list_elem_of_lookup_2|done|]. by rewrite (Hth u).
Qed.

End operations.

(** A step may be seen from a later graph: it changes one run and one thread. *)
Lemma inv_rebase {W J : Type} `{JsonSetters J, !JsonMembers J, !JsonHeight J, !JsonLaws J, !JsonNewLaws J,
    !JsonRecordLaws J} bound rest R T (g0 g1 g2 : state_graph (W := W) (J := J)) r t n m :
  inv bound rest R T g0 n g1 -> may_run R g0 r -> may_thread T g0 t ->
  inv bound rest (eq r) (eq t) g1 m g2 -> inv bound rest R T g0 m g2.
Proof.
  intros (Hwf & Hext & Hr & Hh) Hmr Hmt (Hwf' & Hext' & Hr' & Hh'). split_and!; [done| |done|done].
  eapply sg_extends_trans; [..|exact Hext|exact Hext'].
  - intros i Hi <-. by apply Hmr.
  - intros i Hi <-. by apply Hmt.
Qed.

Lemma inv_base {W J : Type} `{JsonSetters J, !JsonMembers J, !JsonHeight J, !JsonLaws J, !JsonNewLaws J,
    !JsonRecordLaws J} bound rest R T R' T' (g0 g1 : state_graph (W := W) (J := J)) n :
  inv bound rest R T g0 n g1 -> inv bound rest R' T' g1 n g1.
Proof. intros (Hwf & Hext & Hr & Hh). split_and!; [done|apply sg_extends_refl|done|done]. Qed.
