(* ===== verification/StateGraphSafe.v ===== *)
(** * State graphs: what the operations promise (src/runtime/src/turbo_state_graph.c)

    Any sequence of operations keeps the invariant, and an operation changes
    nothing but the run it is about: other runs, recorded history and the
    structure of the graph stay as they are. *)

From S2P Require Import Prelude RuntimeJson JsonBuild JsonMem JsonRecord StateGraph StateGraphApi StateGraphTypes StateGraphFacts StateGraphOps.

#[local] Open Scope string_scope.
#[local] Open Scope list_scope.
#[local] Open Scope Z_scope.

(** ** A start is a launch and an execution *)

Section launch.
Context {W J : Type} `{JsonSetters J, !JsonMembers J, !JsonHeight J}.

Lemma bind_ext {A B} (m : sg (W := W) (J := J) A) (k k' : A -> sg B) g w o :
  (forall x g w o, k x g w o = k' x g w o) -> (m ≫= k) g w o = (m ≫= k') g w o.
Proof. intros Hk. unfold mbind, sg_bind. destruct (m g w o) as [[[[x|x] g'] w'] o']; [apply Hk|done]. Qed.

Lemma bind_assoc {A B C} (m : sg (W := W) (J := J) A) (k : A -> sg B) (h : B -> sg C) g w o :
  ((m ≫= k) ≫= h) g w o = (m ≫= fun x => k x ≫= h) g w o.
Proof. unfold mbind, sg_bind. by destruct (m g w o) as [[[[x|x] g'] w'] o']. Qed.

(** Everything a start does before the execution of its run. *)
Definition launch (id : option string) (input : option J) (options : option run_options) : sg (W := W) (J := J) nat :=
  g ← get_graph;
  start ← found (match options ≫= start_node with Some n => Some n | None => entry_node g end)
            TURBO_STATE_GRAPH_INVALID_ARGUMENT;
  seed_state ← lift_mem create_object;
  seed_state ← lift (turbo_state_graph_seed_defaults (channels g) seed_state);
  t ← turbo_state_graph_add_thread_record id;
  g ← get_graph;
  thread ← found (threads g !! t) TURBO_STATE_GRAPH_INVALID_ARGUMENT;
  r ← turbo_state_graph_add_run_record (th_id thread) None None seed_state (Some start) 0;
  _ ← turbo_state_graph_seed_run r TURBO_STATE_GRAPH_SOURCE_START (Some "start") None input
        (Some start) 0;
  _ ← make_current t r;
  mret r.

Lemma start_launches fuel id input options g w o :
  turbo_state_graph_start fuel id input options g w o =
  (launch id input options ≫= fun r => turbo_state_graph_execute_run fuel r options) g w o.
Proof. unfold turbo_state_graph_start, launch. repeat (rewrite bind_assoc; apply bind_ext; intros). done. Qed.

End launch.

Section safe.
Context {W J : Type} `{JsonSetters J, !JsonMembers J, !JsonHeight J, !JsonLaws J, !JsonNewLaws J,
  !JsonRecordLaws J}.

Abbreviation graph := (state_graph (W := W) (J := J)).
Context (bound rest : nat).

Definition nothing (i : nat) : Prop := False.

(** What an operation keeps that may change the threads in [T]. *)
Abbreviation keeps R T g0 := (inv (W := W) (J := J) bound rest R T g0 0).

Section one_run.
Context (R T : nat -> Prop) (g0 g : graph) (r t n : nat).
Hypothesis Hinv : inv bound rest R T g0 n g.
Hypothesis Hrun : may_run R g0 r.
Hypothesis Hthread : may_thread T g0 t.

(** The rest of an operation that is about one run and one thread. *)
Lemma wp_rest {A} (m : sg A) (Q : A -> graph -> Prop) :
  (inv bound rest (eq r) (eq t) g n g -> wp m Q (keeps (eq r) (eq t) g) g) ->
  wp m Q (keeps R T g0) g.
Proof.
  intros Hm. eapply wp_consequence; [apply Hm; by eapply inv_base|done|].
  intros g' Hg'. by eapply inv_rebase.
Qed.

Lemma keeps_rest g' : keeps (eq r) (eq t) g g' -> keeps R T g0 g'.
Proof. intros Hg'. by eapply inv_rebase. Qed.

End one_run.

Lemma may_eq_run (g : graph) r : may_run (eq r) g r.
Proof. done. Qed.
Lemma may_eq_thread (g : graph) t : may_thread (eq t) g t.
Proof. done. Qed.

(** The run at an index has its identity later on. *)
Lemma later_run n (g g' : graph) R T r x : inv bound rest R T g n g' -> runs g !! r = Some x ->
  exists y, runs g' !! r = Some y /\ same_run x y.
Proof.
  intros (_ & Hext & _) Hx. destruct (ext_runs _ _ _ _ Hext r x Hx) as (y & Hy & Hs & _). by exists y.
Qed.

Lemma later_thread n (g g' : graph) R T t th : inv bound rest R T g n g' -> threads g !! t = Some th ->
  exists u, threads g' !! t = Some u /\ th_id u = th_id th.
Proof.
  intros (_ & Hext & _) Ht. destruct (ext_threads _ _ _ _ Hext t th Ht) as (u & Hu & Hid & _). by exists u.
Qed.

(** A new run of a thread is seeded, becomes current when asked, and runs. *)
Lemma wp_launch {A} (g : graph) r t x n kind source_name why update next_node step current
    (k : history_entry (J := J) -> sg A) (Q : A -> graph -> Prop) :
  inv bound rest (eq r) (eq t) g (S n) g -> runs g !! r = Some x -> run_interrupted x = false ->
  (current = true -> exists th, threads g !! t = Some th /\ th_id th = run_thread_id x) ->
  (forall e g', inv bound rest (eq r) (eq t) g n g' -> wp (k e) Q (keeps (eq r) (eq t) g) g') ->
  wp (e ← turbo_state_graph_seed_run r kind source_name why update next_node step;
      _ ← (if (current : bool) then make_current t r else mret tt); k e) Q (keeps (eq r) (eq t) g) g.
Proof.
  intros Hinv Hx Hint Ht Hk. wp_step.
  eapply wp_seed_run; [done|apply may_eq_run| |]. { intros y Hy. congruence. }
  intros e g' Hinv'. wp_step. destruct current; [|wp_step; by apply Hk].
  destruct (Ht eq_refl) as (th & Hth & Heq).
  destruct (later_run _ _ _ _ _ _ _ Hinv' Hx) as (y & Hy & Hs).
  eapply wp_make_current; [done|apply may_eq_thread|exact Hy| |].
  - intros u Hu. destruct (later_thread _ _ _ _ _ _ _ Hinv' Hth) as (u' & Hu' & Hid).
    destruct Hs as (_ & -> & _). congruence.
  - intros g2 Hinv2 _. by apply Hk.
Qed.

(** The threads that a start may change: the one it asks for. *)
Definition asked_thread (g : graph) (id : option string) (t : nat) : Prop :=
  exists th, threads g !! t = Some th /\ id = Some (th_id th).

Lemma new_run_may R (g0 g : graph) T n : inv bound rest R T g0 n g -> may_run R g0 (length (runs g)).
Proof. intros Hinv Hlt. pose proof (runs_grow _ _ _ _ _ _ _ Hinv). lia. Qed.

Lemma wp_launches n (g : graph) id input options (Q : nat -> graph -> Prop) :
  inv bound rest nothing (asked_thread g id) g (S (S n)) g ->
  (forall r g', inv bound rest nothing (asked_thread g id) g n g' -> may_run nothing g r -> Q r g') ->
  wp (launch id input options) Q (keeps nothing (asked_thread g id) g) g.
Proof.
  intros Hinv HQ. unfold launch. do 3 wp_step.
  apply wp_found; [|by eapply inv_bound]. intros start _. wp_step.
  eapply wp_new_object; [done|]. wp_step.
  eapply wp_lift; [apply seed_defaults_holds; [apply Hinv|apply Hinv|apply new_state_holds]| |by eapply inv_bound].
  intros seed Hseed. wp_step. eapply wp_add_thread; [done|]. intros t g1 Hinv1 Hruns Ht.
  assert (Hmay : may_thread (asked_thread g id) g t).
  { intros Hlt. destruct Ht as [[_ Ht]| ->]; [|lia]. destruct id as [id|]; [|done].
    destruct (find_thread_lookup _ _ _ Ht) as (th & Hth & <-). by exists th. }
  do 3 wp_step. apply wp_found; [|by eapply inv_bound]. intros th Hth. wp_step.
  eapply wp_add_run; [exact Hinv1|by eapply list_elem_of_fmap_2, list_elem_of_lookup_2| |].
  { destruct Hinv1 as (_ & [(_ & _ & -> & _) _ _ _] & _). exact Hseed. }
  intros x g2 Hinv2 Hth2 _ Hruns2 (Hxt & _ & _ & Hxi & _).
  assert (Hx : runs g2 !! length (runs g1) = Some x) by (rewrite Hruns2; by apply list_lookup_middle).
  pose proof (new_run_may _ _ _ _ _ Hinv1) as Hnew.
  eapply (wp_rest _ _ _ _ _ t _ Hinv2 Hnew Hmay). intros Hinv3.
  eapply (wp_launch g2 _ _ x) with (current := true); [exact Hinv3|done|done| |].
  { intros _. exists th. by rewrite Hth2. }
  intros e g' Hinv'. wp_step. apply HQ; [|done]. by eapply inv_rebase.
Qed.

Lemma wp_start fuel (g : graph) id input options :
  inv bound rest nothing (asked_thread g id) g (2 + fuel * node_records bound) g ->
  wp (turbo_state_graph_start fuel id input options)
    (fun _ => keeps nothing (asked_thread g id) g) (keeps nothing (asked_thread g id) g) g.
Proof.
  intros Hinv w o. rewrite start_launches. revert w o. change (wp (launch id input options ≫= fun r =>
    turbo_state_graph_execute_run fuel r options) (fun _ => keeps nothing (asked_thread g id) g)
    (keeps nothing (asked_thread g id) g) g).
  wp_step. eapply wp_launches; [exact Hinv|]. intros r g' Hinv' Hmay. by eapply wp_execute_run.
Qed.

(** The runs and threads that a resume may change: those of the identifier. *)
Definition run_named (g : graph) (id : option string) (r : nat) : Prop :=
  exists x, runs g !! r = Some x /\ id = Some (run_id x).

Definition thread_of (g : graph) (id : option string) (t : nat) : Prop :=
  exists x th, x ∈ runs g /\ id = Some (run_id x) /\ threads g !! t = Some th /\ th_id th = run_thread_id x.

Lemma wp_resume fuel (g : graph) id options :
  inv bound rest (run_named g id) (thread_of g id) g (fuel * node_records bound) g ->
  wp (turbo_state_graph_resume fuel id options)
    (fun _ => keeps (run_named g id) (thread_of g id) g) (keeps (run_named g id) (thread_of g id) g) g.
Proof.
  intros Hinv. unfold turbo_state_graph_resume. wp_step.
  apply wp_found; [|by eapply inv_bound]. intros name ->. do 3 wp_step.
  apply wp_found; [|by eapply inv_bound]. intros r (x & Hx & Hid)%find_run_lookup. wp_step.
  apply wp_current; [|by eapply inv_bound]. intros y Hy. assert (y = x) as -> by congruence. wp_step.
  apply wp_found; [|by eapply inv_bound]. intros node _. wp_step.
  apply wp_found; [|by eapply inv_bound]. intros t (th & Hth & Hthid)%find_thread_lookup. wp_step.
  assert (Hmr : may_run (run_named g (Some name)) g r) by (intros _; exists x; by rewrite Hid).
  assert (Hmt : may_thread (thread_of g (Some name)) g t).
  { intros _. exists x, th. rewrite Hid. split_and!; [by eapply list_elem_of_lookup_2|done..]. }
  eapply wp_make_current; [done|done|done| |].
  - intros u Hu. congruence.
  - intros g1 Hinv1 _. eapply wp_execute_run; [done..|]. by intros.
Qed.

Lemma wp_update_state (g : graph) id update options :
  inv bound rest (run_named g id) nothing g 1 g ->
  wp (turbo_state_graph_update_state id update options)
    (fun _ => keeps (run_named g id) nothing g) (keeps (run_named g id) nothing g) g.
Proof.
  intros Hinv. unfold turbo_state_graph_update_state. wp_step.
  apply wp_found; [|by eapply inv_bound]. intros name ->. wp_step.
  apply wp_found; [|by eapply inv_bound]. intros u ->. wp_step.
  case_bool_decide as Hty; wp_step; [|by eapply inv_bound]. do 2 wp_step.
  wp_step. apply wp_found; [|by eapply inv_bound]. intros r (x & Hx & Hid)%find_run_lookup. wp_step.
  assert (Hmr : may_run (run_named g (Some name)) g r) by (intros _; exists x; by rewrite Hid).
  eapply wp_new_object; [done|]. wp_step. eapply wp_apply_to_run; [done..|]. intros g1 Hinv1 _. wp_step.
  apply wp_current; [|by eapply inv_bound]. intros y Hy. wp_step.
  eapply wp_add_history_record; [done..|by rewrite clone_type|]. intros e g2 Hinv2. do 2 wp_step.
  destruct b; wp_step; by eapply inv_bound.
Qed.

Definition thread_of_entry (g : graph) (id : option string) (t : nat) : Prop :=
  exists h th, h ∈ history g /\ id = Some (he_id h) /\ threads g !! t = Some th /\ th_id th = he_thread_id h.

Lemma find_history_in (g : graph) id h : turbo_state_graph_find_history g (Some id) = Some h ->
  h ∈ history g /\ he_id h = id.
Proof. intros [Hin Hid%bool_decide_eq_true]%find_some. by rewrite list_elem_of_In. Qed.

(** A resume makes the new run current, a fork does not. *)
Definition branch_threads (g : graph) (id : option string) (current : bool) (t : nat) : Prop :=
  current = true /\ thread_of_entry g id t.

(** A branch ends with an execution, or at once when the run has no node. *)
Lemma wp_branch_end R T g0 n fuel (g : graph) r run_opts (res : run_entry (J := J) -> option (sg_return (J := J))) :
  inv bound rest R T g0 n g -> may_run R g0 r -> (fuel * node_records bound <= n)%nat ->
  forall Q : option (sg_return (J := J)) -> graph -> Prop, (forall x g', keeps R T g0 g' -> Q x g') ->
  wp (run ← current_run r;
      match run_current_node run with
      | Some _ => turbo_state_graph_execute_run fuel r run_opts
      | None => ok ← tried 1; if (ok : bool) then mret (res run) else leave TURBO_STATE_GRAPH_OUT_OF_MEMORY
      end) Q (keeps R T g0) g.
Proof.
  intros Hinv Hmay Hn Q HQ. wp_step. apply wp_current; [|by eapply inv_bound]. intros y Hy.
  destruct (run_current_node y).
  - eapply wp_execute_run; [done| |done]. by eapply inv_weaken.
  - do 2 wp_step. destruct b; wp_step; [apply HQ|]; by eapply inv_bound.
Qed.

Lemma wp_branch fuel (g : graph) id update options run_opts current kind :
  inv bound rest nothing (branch_threads g id current) g (2 + fuel * node_records bound) g ->
  wp (turbo_state_graph_branch_from_history fuel id update options run_opts current kind)
    (fun _ => keeps nothing (branch_threads g id current) g) (keeps nothing (branch_threads g id current) g) g.
Proof.
  intros Hinv. unfold turbo_state_graph_branch_from_history. wp_step.
  apply wp_found; [|by eapply inv_bound]. intros name ->. do 3 wp_step.
  apply wp_found; [|by eapply inv_bound]. intros h (Hh & Hid)%find_history_in. wp_step.
  apply wp_found; [|by eapply inv_bound]. intros _ _. wp_step.
  apply wp_found; [|by eapply inv_bound]. intros t (th & Hth & Hthid)%find_thread_lookup. wp_step.
  pose proof (wf_history_states _ _ (proj1 Hinv)) as Hst. eapply Forall_forall in Hst as [Hst _]; [|exact Hh].
  eapply wp_add_run; [exact Hinv| |exact Hst|].
  { rewrite <- Hthid. by eapply list_elem_of_fmap_2, list_elem_of_lookup_2. }
  intros x g1 Hinv1 Hth1 _ Hruns1 (Hxt & _ & _ & Hxi & Hxn).
  assert (Hx : runs g1 !! length (runs g) = Some x) by (rewrite Hruns1; by apply list_lookup_middle).
  pose proof (new_run_may _ _ _ _ _ Hinv) as Hnew.
  set (t' := if current then t else length (threads g)).
  assert (Hmay : may_thread (branch_threads g (Some name) current) g t').
  { intros Hlt. subst t'. destruct current; [|lia]. split; [done|]. exists h, th. by rewrite Hid. }
  eapply (wp_rest _ _ _ _ _ t' _ Hinv1 Hnew Hmay). intros Hinv2.
  pose proof (keeps_rest _ _ _ _ _ _ _ Hinv1 Hnew Hmay) as Hrest. subst t'. destruct current.
  - eapply (wp_launch g1 _ t x) with (current := true); [exact Hinv2|done|done| |].
    { intros _. exists th. by rewrite Hth1, Hxt. }
    intros e g' Hinv'. eapply (wp_branch_end _ _ _ _ _ _ _ _ (fun run => Some (mk_return TURBO_STATE_GRAPH_OK
      (Some (mk_result TURBO_STATE_GRAPH_OK (Some (run_thread_id run)) (Some (run_id run)) (Some (he_id e))
               (Some (he_checkpoint_id e)) None None (run_steps run))) (Some (json_clone (run_state run))))));
      [exact Hinv'|apply may_eq_run|done|by intros; apply Hrest].
  - eapply (wp_launch g1 _ (length (threads g)) x) with (current := false); [exact Hinv2|done..|].
    intros e g' Hinv'. eapply (wp_branch_end _ _ _ _ _ _ _ _ (fun run => Some (mk_return TURBO_STATE_GRAPH_OK
      (Some (mk_result TURBO_STATE_GRAPH_OK (Some (run_thread_id run)) (Some (run_id run)) (Some (he_id e))
               (Some (he_checkpoint_id e)) None None (run_steps run))) (Some (json_clone (run_state run))))));
      [exact Hinv'|apply may_eq_run|done|by intros; apply Hrest].
Qed.

(** ** Operations of a host *)

Inductive operation : Type :=
| op_add_channel (name : option string) (config : option (channel_config (J := J)))
| op_add_node (name : option string) (fn : option (node_fn (W := W) (J := J)))
| op_add_edge (from to : option string) (predicate : option (predicate_fn (W := W) (J := J)))
| op_set_entry (name : option string)
| op_start (fuel : nat) (id : option string) (input : option J) (options : option run_options)
| op_resume (fuel : nat) (id : option string) (options : option run_options)
| op_update_state (id : option string) (update : option J) (options : option history_options)
| op_resume_from_history (fuel : nat) (id : option string) (update : option J)
    (options : option history_options) (run_opts : option run_options)
| op_fork_from_history (fuel : nat) (id : option string) (update : option J)
    (options : option history_options) (run_opts : option run_options).

Definition host : Type := graph * W * oracle.

Definition called (m : sg (option (sg_return (J := J)))) (s : host) : host :=
  let '(g, w, o) := s in let '(_, g, w, o) := call m g w o in (g, w, o).
Definition built_by (f : graph -> oracle -> built (W := W) (J := J)) (s : host) : host :=
  let '(g, w, o) := s in let '(_, g, o) := f g o in (g, w, o).

Definition perform (op : operation) : host -> host :=
  match op with
  | op_add_channel name config => built_by (fun g => turbo_state_graph_add_channel g name config)
  | op_add_node name fn => built_by (fun g => turbo_state_graph_add_json_value_node g name fn)
  | op_add_edge from to predicate =>
      built_by (fun g => turbo_state_graph_add_json_value_edge g from to predicate)
  | op_set_entry name => built_by (fun g => turbo_state_graph_set_entry g name)
  | op_start fuel id input options => called (turbo_state_graph_start fuel id input options)
  | op_resume fuel id options => called (turbo_state_graph_resume fuel id options)
  | op_update_state id update options => called (turbo_state_graph_update_state id update options)
  | op_resume_from_history fuel id update options run_opts =>
      called (turbo_state_graph_resume_from_history fuel id update options run_opts)
  | op_fork_from_history fuel id update options run_opts =>
      called (turbo_state_graph_fork_from_history fuel id update options run_opts)
  end.

Definition performed (ops : list operation) (s : host) : host := foldl (fun s op => perform op s) s ops.
Definition host_graph (s : host) : graph := s.1.1.

(** The identifiers an operation may issue, with at most [bound] sends of a node. *)
Definition cost (op : operation) : nat :=
  match op with
  | op_start fuel _ _ _ | op_resume_from_history fuel _ _ _ _ | op_fork_from_history fuel _ _ _ _ =>
      2 + fuel * node_records bound
  | op_resume fuel _ _ => fuel * node_records bound
  | op_update_state _ _ _ => 1
  | _ => 0
  end.

Definition operation_ok (op : operation) : Prop :=
  match op with
  | op_add_node (Some name) (Some fn) => sends_at_most bound (mk_node name fn)
  | _ => True
  end.

(** The runs and threads an operation may change. *)
Definition may_change_run (op : operation) (g : graph) : nat -> Prop :=
  match op with
  | op_resume _ id _ | op_update_state id _ _ => run_named g id
  | _ => nothing
  end.

Definition may_change_thread (op : operation) (g : graph) : nat -> Prop :=
  match op with
  | op_start _ id _ _ => asked_thread g id
  | op_resume _ id _ => thread_of g id
  | op_resume_from_history _ id _ _ _ => thread_of_entry g id
  | _ => nothing
  end.

Definition is_run (op : operation) : bool :=
  match op with
  | op_add_channel _ _ | op_add_node _ _ | op_add_edge _ _ _ | op_set_entry _ => false
  | _ => true
  end.

Lemma called_keeps {R T} (g : graph) w o (m : sg (option (sg_return (J := J)))) :
  wp m (fun _ => keeps R T g) (keeps R T g) g -> keeps R T g (host_graph (called m (g, w, o))).
Proof.
  intros Hm. specialize (Hm w o). unfold called, call. by destruct (m g w o) as [[[[x|r] g'] w'] o'].
Qed.

(** Room for [n] more identifiers. *)
Definition room (n : nat) (g : graph) : Prop :=
  next_run_id g + Z.of_nat n < 2 ^ 64 /\ next_history_id g + Z.of_nat n < 2 ^ 64.

Lemma keeps_threads R T T' (g g' : graph) : keeps R T g g' -> (forall t, T t -> T' t) -> keeps R T' g g'.
Proof.
  intros (Hwf & Hext & Hr) HT. split_and!; [done| |apply Hr..].
  eapply sg_extends_trans; [..|apply sg_extends_refl|exact Hext]; [done|]. intros t _. apply HT.
Qed.

Lemma run_operation_keeps op (g : graph) w o : is_run op = true -> graph_wf bound g -> room (cost op + rest) g ->
  keeps (may_change_run op g) (may_change_thread op g) g (host_graph (perform op (g, w, o))).
Proof.
  intros Hop Hwf Hroom.
  assert (Hinv : forall R T, inv bound rest R T g (cost op) g)
    by (intros; split_and!; [done|apply sg_extends_refl|apply Hroom..]).
  destruct op; try done; apply called_keeps.
  - by apply wp_start.
  - by apply wp_resume.
  - by apply wp_update_state.
  - eapply wp_consequence; [apply wp_branch, Hinv| |]; cbn beta; [intros ?|]; intros g' Hg';
      (eapply keeps_threads; [exact Hg'|]; by intros t [? ?]).
  - eapply wp_consequence; [apply wp_branch, Hinv| |]; cbn beta; [intros ?|]; intros g' Hg';
      (eapply keeps_threads; [exact Hg'|]; by intros t [? ?]).
Qed.

(** ** Builder operations *)

(** The runtime state is not touched. *)
Definition same_runtime (g g' : graph) : Prop :=
  (threads g' = threads g /\ runs g' = runs g /\ history g' = history g) /\
  next_run_id g' = next_run_id g /\ next_history_id g' = next_history_id g.

Definition builds_well (g g' : graph) : Prop := graph_wf bound g' /\ same_runtime g g'.

Lemma builds_same (g g' : graph) : graph_wf bound g -> same_parts g g' -> builds_well g g'.
Proof.
  intros Hwf Hs. split; [by eapply same_parts_wf|]. destruct Hs as (_ & Hs & Hr & Hh & _). by split; [|split].
Qed.

Lemma names_snoc {A} (f : A -> string) l x : NoDup (f <$> l) ->
  Forall (fun y => f y <> f x) l -> NoDup (f <$> (l ++ [x])).
Proof.
  intros Hnd Hne. rewrite fmap_app. apply NoDup_app. split_and!; [done| |by apply NoDup_singleton].
  intros n (y & -> & Hy)%list_elem_of_fmap Hn. apply list_elem_of_singleton in Hn.
  rewrite Forall_forall in Hne. by apply (Hne y Hy).
Qed.

Lemma add_channel_builds (g : graph) name config o : graph_wf bound g ->
  builds_well g (turbo_state_graph_add_channel g name config o).1.2.
Proof.
  intros Hwf. pose proof (builds_same g g Hwf ltac:(by repeat split)) as Hsame.
  unfold turbo_state_graph_add_channel. destruct name as [name|]; [|done]. destruct config as [config|]; [|done].
  case_bool_decide as Hf; [done|]. destruct (turbo_state_graph_reserve _ _ o) as [[capacity|] o1]; [|done].
  assert (Hgrown : builds_well g (set_channels (channels g) capacity g))
    by (apply builds_same; [done|by repeat split]).
  destruct (alloc_all _ o1) as [[] o2]; [|done]. cbn [negb]. cbn zeta.
  match goal with |- context [turbo_state_graph_validate_channel_value ?c ?v] =>
    pose proof (validate_holds c v) as Hv; set (ch := c) in * end.
  destruct (turbo_state_graph_validate_channel_value _ _); try done. specialize (Hv eq_refl). cbn.
  split; [|by repeat split]. destruct Hwf. split; try done; cbn.
  - apply names_snoc; [done|]. apply Forall_forall. intros y Hy Heq. apply Hf.
    unfold turbo_state_graph_find_channel.
    destruct (List.find _ _) eqn:E; [done|]. eapply find_none in E; [|by apply list_elem_of_In].
    by rewrite bool_decide_eq_false in E.
  - by apply Forall_app; split; [|constructor].
  - eapply Forall_impl; [exact wf_run_states|]. intros x [Hs Hfl]. by split; [apply state_holds_grow|].
  - eapply Forall_impl; [exact wf_history_states|]. intros x [Hs Hfl]. by split; [apply state_holds_grow|].
Qed.

Lemma index_of_none {A} (p : A -> bool) l : index_of p l = None -> Forall (fun x => p x = false) l.
Proof.
  induction l as [|x l IH]; cbn; [done|]. destruct (p x) eqn:Hp; [done|].
  destruct (index_of p l); [done|]. intros _. constructor; [done|by apply IH].
Qed.

Lemma find_node_index_lt (g : graph) name i : turbo_state_graph_find_node_index g name = Some i ->
  (i < length (nodes g))%nat /\ name ∈ node_name <$> nodes g.
Proof.
  intros (x & Hx & Hn%bool_decide_eq_true)%index_of_lookup. split; [by eapply lookup_lt_Some|].
  rewrite <- Hn. by eapply list_elem_of_fmap_2, list_elem_of_lookup_2.
Qed.

Lemma add_node_builds (g : graph) name fn o : graph_wf bound g -> operation_ok (op_add_node name fn) ->
  builds_well g (turbo_state_graph_add_json_value_node g name fn o).1.2.
Proof.
  intros Hwf Hok. pose proof (builds_same g g Hwf ltac:(by repeat split)) as Hsame.
  unfold turbo_state_graph_add_json_value_node, turbo_state_graph_add_json_value_node_owned.
  destruct name as [name|]; [|done]. destruct fn as [fn|]; [|done]. cbn in Hok.
  case_bool_decide as Hf; [done|]. destruct (turbo_state_graph_reserve _ _ o) as [[capacity|] o1]; [|done].
  destruct (alloc o1) as [[] o2]; [|apply builds_same; [done|by repeat split]].
  split; [|by repeat split]. destruct Hwf. split; try done; cbn.
  - apply names_snoc; [done|]. apply eq_None_not_Some, index_of_none in Hf.
    eapply Forall_impl; [exact Hf|]. intros y. by rewrite bool_decide_eq_false.
  - intros n Hn. rewrite fmap_app. apply elem_of_app. left. by apply wf_entry.
  - eapply Forall_impl; [exact wf_edges|]. intros e. rewrite length_app. lia.
  - by apply Forall_app; split; [|constructor].
Qed.

Lemma add_edge_builds (g : graph) from to predicate o : graph_wf bound g ->
  builds_well g (turbo_state_graph_add_json_value_edge g from to predicate o).1.2.
Proof.
  intros Hwf. pose proof (builds_same g g Hwf ltac:(by repeat split)) as Hsame.
  unfold turbo_state_graph_add_json_value_edge. destruct from as [from|]; [|done]. destruct to as [to|]; [|done].
  destruct (turbo_state_graph_find_node_index g from) as [i|] eqn:Hi; [|done].
  destruct (turbo_state_graph_find_node_index g to) as [j|] eqn:Hj; [|done].
  destruct (turbo_state_graph_reserve _ _ o) as [[capacity|] o1]; [|done].
  apply find_node_index_lt in Hi as [Hi _]. apply find_node_index_lt in Hj as [Hj _].
  split; [|by repeat split]. destruct Hwf. split; try done; cbn.
  apply Forall_app. split; [done|]. by constructor.
Qed.

Lemma set_entry_builds (g : graph) name o : graph_wf bound g ->
  builds_well g (turbo_state_graph_set_entry g name o).1.2.
Proof.
  intros Hwf. pose proof (builds_same g g Hwf ltac:(by repeat split)) as Hsame.
  unfold turbo_state_graph_set_entry. destruct name as [name|]; [|done].
  destruct (turbo_state_graph_find_node_index g name) as [i|] eqn:Hi; [|done].
  destruct (alloc o) as [[] o1]; [|done]. apply find_node_index_lt in Hi as [_ Hi].
  split; [|by repeat split]. destruct Hwf. split; try done; cbn. by intros n [= <-].
Qed.

Lemma built_operation op (g : graph) w o : is_run op = false -> operation_ok op -> graph_wf bound g ->
  builds_well g (host_graph (perform op (g, w, o))).
Proof.
  intros Hop Hok Hwf. destruct op; try done; cbn.
  - pose proof (add_channel_builds g name config o Hwf) as Hb. by destruct (turbo_state_graph_add_channel _ _ _ _) as [[??]?].
  - pose proof (add_node_builds g name fn o Hwf Hok) as Hb.
    by destruct (turbo_state_graph_add_json_value_node _ _ _ _) as [[??]?].
  - pose proof (add_edge_builds g from to predicate o Hwf) as Hb.
    by destruct (turbo_state_graph_add_json_value_edge _ _ _ _ _) as [[??]?].
  - pose proof (set_entry_builds g name o Hwf) as Hb. by destruct (turbo_state_graph_set_entry _ _ _) as [[??]?].
Qed.

Lemma new_graph_wf name o (g : graph) o' : turbo_state_graph_create name o = (Some g, o') ->
  graph_wf bound g /\ next_run_id g = 0 /\ next_history_id g = 0.
Proof.
  unfold turbo_state_graph_create. destruct (alloc o) as [[] o1]; [|done].
  destruct (alloc_all _ o1) as [[] o2]; [|done]. intros [= <- _]. split; [|done].
  split; cbn; try done; first [apply NoDup_nil_2|apply issued_nil|by apply Forall_nil_2].
Qed.

(** History grows and runs keep their identity. *)
Definition grows (g g' : graph) : Prop :=
  (exists new, history g' = history g ++ new) /\
  forall i x, runs g !! i = Some x -> exists y, runs g' !! i = Some y /\ same_run x y.

Lemma grows_refl (g : graph) : grows g g.
Proof. split; [exists []; by rewrite app_nil_r|]. intros i x Hx. by exists x. Qed.

Lemma grows_trans (g1 g2 g3 : graph) : grows g1 g2 -> grows g2 g3 -> grows g1 g3.
Proof.
  intros [[n1 H1] Hr1] [[n2 H2] Hr2]. split; [exists (n1 ++ n2); by rewrite H2, H1, app_assoc|].
  intros i x Hx. destruct (Hr1 i x Hx) as (y & Hy & Hxy). destruct (Hr2 i y Hy) as (z & Hz & Hyz).
  exists z. split; [done|by eapply same_run_trans].
Qed.

End safe.

Lemma filter_none {A} (P : A -> Prop) `{!forall x, Decision (P x)} l : Forall (fun x => ~ P x) l -> filter P l = [].
Proof. induction 1 as [|x l Hx _ IH]; [done|]. by rewrite filter_cons_False. Qed.

Section reachable.
Context {W J : Type} `{JsonSetters J, !JsonMembers J, !JsonHeight J, !JsonLaws J, !JsonNewLaws J,
  !JsonRecordLaws J}.
Context (bound : nat).

Abbreviation graph := (state_graph (W := W) (J := J)).
Abbreviation operation := (operation (W := W) (J := J)).

Definition total_cost (ops : list operation) : nat := sum_list (cost bound <$> ops).

Lemma operation_step rest op (g : graph) w o : operation_ok bound op -> graph_wf bound g ->
  room (cost bound op + rest) g ->
  let g' := host_graph (perform op (g, w, o)) in graph_wf bound g' /\ room rest g' /\ grows g g'.
Proof.
  intros Hok Hwf Hroom. cbn zeta. destruct (is_run op) eqn:Hop.
  - destruct (run_operation_keeps bound rest op g w o Hop Hwf Hroom) as (Hwf' & [_ (new & Hh & _) Hr _] & Hr').
    split_and!; [done|done|]. split; [by exists new|]. intros i x Hx.
    destruct (Hr i x Hx) as (y & Hy & Hs & _). by exists y.
  - destruct (built_operation bound op g w o Hop Hok Hwf) as (Hwf' & (Ht & Hr & Hh) & Hri & Hhi).
    split_and!; [done|unfold room in *; rewrite Hri, Hhi; lia|].
    split; [exists []; by rewrite app_nil_r|]. intros i x Hx. exists x. by rewrite Hr.
Qed.

Lemma operations_step ops : forall rest (s : host (W := W) (J := J)), Forall (operation_ok bound) ops ->
  graph_wf bound (host_graph s) -> room (total_cost ops + rest) (host_graph s) ->
  graph_wf bound (host_graph (performed ops s)) /\ room rest (host_graph (performed ops s)) /\
  grows (host_graph s) (host_graph (performed ops s)).
Proof.
  induction ops as [|op ops IH]; intros rest s Hok Hwf Hroom; cbn.
  - split_and!; [done|done|apply grows_refl].
  - apply Forall_cons in Hok as [Hop Hok]. destruct s as [[g w] o].
    destruct (operation_step (total_cost ops + rest) op g w o Hop Hwf) as (Hwf' & Hroom' & Hg).
    { unfold total_cost in *. cbn in Hroom. by rewrite Nat.add_assoc. }
    destruct (IH rest (perform op (g, w, o)) Hok Hwf' Hroom') as (? & ? & Hg').
    split_and!; [done|done|by eapply grows_trans].
Qed.

(** C14. A host builds a new state graph, starts and resumes runs, updates their
    states, resumes and forks from history, in any order.  Whatever it does, and
    whatever nodes, predicates and memory do, the graph stays sound: the identifiers
    of runs, of history entries and of checkpoints are unique (a generated thread
    identifier can repeat a requested one), every record refers to its run and every
    run to a thread and its last record, a state has only channels of the graph with
    values the predicate [holds] allows: those of the channel's kind, but of an
    appended array also arrays of such values; history is only appended to and runs
    keep their identity.  Loading a snapshot is not among these operations, but C17's
    subject.  Nodes are assumed to send at most [bound] updates, and fewer than 2^64
    identifiers to be issued. *)
Theorem state_graph_sound name o o' w (g : graph) before after :
  turbo_state_graph_create name o = (Some g, o') ->
  Forall (operation_ok bound) (before ++ after) -> Z.of_nat (total_cost (before ++ after)) < 2 ^ 64 ->
  let s1 := performed before (g, w, o') in
  let s2 := performed after s1 in
  graph_wf bound (host_graph s2) /\
  (NoDup (run_id <$> runs (host_graph s2)) /\ NoDup (he_id <$> history (host_graph s2)) /\
   NoDup (he_checkpoint_id <$> history (host_graph s2))) /\
  grows (host_graph s1) (host_graph s2).
Proof.
  intros Hnew [Hok1 Hok2]%Forall_app Hcost. cbn zeta.
  destruct (new_graph_wf bound name o g o' Hnew) as (Hwf & Hr & Hh).
  assert (Hroom : room (total_cost before + total_cost after) g).
  { unfold room, total_cost in *. rewrite fmap_app, sum_list_with_app in Hcost. lia. }
  destruct (operations_step before (total_cost after) (g, w, o') Hok1 Hwf Hroom) as (Hwf1 & Hroom1 & _).
  rewrite <- (Nat.add_0_r (total_cost after)) in Hroom1.
  destruct (operations_step after 0 _ Hok2 Hwf1 Hroom1) as (Hwf2 & _ & Hg).
  split_and!; [done|eapply issued_nodup; apply Hwf2..|done].
Qed.

(** C15. An operation of a state graph changes at most the run it names: every other
    run, with all its state, every recorded entry, the structure of the graph and the
    threads it does not move are as before, and the history of other runs is the
    same; a start, a resume from history and a fork only ever change a new run, and
    a fork no thread at all. *)
Theorem state_graph_isolated op (g : graph) w o : is_run op = true -> graph_wf bound g -> room (cost bound op) g ->
  let g' := host_graph (perform op (g, w, o)) in
  (channels g' = channels g /\ nodes g' = nodes g /\ edges g' = edges g /\ entry_node g' = entry_node g) /\
  (exists new, history g' = history g ++ new) /\
  (forall i x, runs g !! i = Some x -> ~ may_change_run op g i ->
     runs g' !! i = Some x /\ history_of g' (run_id x) = history_of g (run_id x)) /\
  (forall i t, threads g !! i = Some t -> ~ may_change_thread op g i -> threads g' !! i = Some t).
Proof.
  intros Hop Hwf Hroom. cbn zeta.
  destruct (run_operation_keeps bound 0 op g w o Hop Hwf) as (Hwf' & [(_ & ? & ? & ? & ?) (new & Hh & Hnew) Hr Ht] & _).
  { by rewrite Nat.add_0_r. }
  split_and!; [done..|by exists new| |].
  - intros i x Hx Hi. destruct (Hr i x Hx) as (y & Hy & _ & Heq). rewrite (Heq Hi) in Hy. split; [done|].
    unfold history_of. rewrite Hh, filter_app.
    enough (filter (fun h => he_run_id h = run_id x) new = []) as -> by apply app_nil_r.
    apply filter_none. eapply Forall_impl; [exact Hnew|].
    intros h (j & z & Hz & Hid & HR) Heq'. assert (i = j) as <-.
    { eapply (nodup_lookup run_id); [eapply issued_nodup; apply Hwf'|exact Hy|exact Hz|congruence]. }
    apply Hi, HR. by apply lookup_lt_Some in Hx.
  - intros i t Hi Hn. destruct (Ht i t Hi) as (u & Hu & _ & Heq). by rewrite (Heq Hn) in Hu.
Qed.

End reachable.
