(* ===== verification/StateGraphRun.v ===== *)
(** * State graphs: executions (src/runtime/src/turbo_state_graph.c)

    A step limit ends every execution, and an execution that stops at an interrupt
    point and is resumed does what it would have done without stopping. *)

From S2P Require Import Prelude RuntimeJson JsonBuild JsonMem JsonRecord StateGraph StateGraphTypes StateGraphFacts StateGraphOps.

#[local] Open Scope string_scope.
#[local] Open Scope list_scope.
#[local] Open Scope Z_scope.

Section limit.
Context {W J : Type} `{JsonSetters J, !JsonMembers J, !JsonHeight J}.

Abbreviation graph := (state_graph (W := W) (J := J)).
Abbreviation run := (run_entry (J := J)).
Abbreviation answer := (option (sg_return (J := J))).

Definition anything (g : graph) : Prop := True.

Lemma wp_any {A} (m : sg A) (Q : A -> graph -> Prop) g : (forall x g', Q x g') -> wp m Q anything g.
Proof. intros HQ w o. destruct (m g w o) as [[[[x|r] g'] w'] o']; [apply HQ|done]. Qed.

(** The steps a run has done stay as they are. *)
Definition at_step (r : nat) (step : Z) (g : graph) : Prop :=
  forall x, runs g !! r = Some x -> run_steps x = step.

Lemma at_step_update r step (g : graph) f : (forall x, run_steps (f x) = run_steps x) -> at_step r step g ->
  at_step r step (update_run r f g).
Proof.
  intros Hf Hg x Hx. cbn in Hx. rewrite list_lookup_alter_eq in Hx.
  destruct (runs g !! r) as [y|] eqn:Hy; [|done]. injection Hx as <-. rewrite Hf. by apply Hg.
Qed.

Lemma wp_record_at_step r step kind source_name why last_node next_node s update state (g : graph) :
  at_step r step g ->
  wp (turbo_state_graph_add_history_record r kind source_name why last_node next_node s update state)
    (fun _ => at_step r step) anything g.
Proof.
  intros Hg. unfold turbo_state_graph_add_history_record.
  do 2 wp_step. wp_step. wp_step; [|done]. do 2 wp_step. wp_step. wp_step; [|done]. do 5 wp_step.
  wp_step; [|done]. wp_step. apply wp_current; [|done]. intros x _. do 3 wp_step. wp_step; [|done].
  do 4 wp_step. wp_step.
  pose proof (at_step_update r step g (run_with_latest None) ltac:(done) Hg) as H1.
  exact (at_step_update r step _ (run_with_latest (Some _)) ltac:(done) H1).
Qed.

Lemma wp_seed_at_step r kind source_name why update next_node step (g : graph) :
  wp (turbo_state_graph_seed_run r kind source_name why update next_node step) (fun _ => at_step r step) anything g.
Proof.
  unfold turbo_state_graph_seed_run. wp_step. apply wp_any. intros ob g1. wp_step. apply wp_any. intros _ g2.
  wp_step. apply wp_any. intros _ g3. do 3 wp_step. wp_step; [|done]. do 2 wp_step. wp_step.
  apply wp_current; [|done]. intros x _. apply wp_record_at_step.
  intros y Hy. cbn in Hy. rewrite list_lookup_alter_eq in Hy. destruct (alter _ _ _ !! r); [|done].
  by injection Hy as <-.
Qed.

Lemma wp_current_at_step t r step (g : graph) : at_step r step g ->
  wp (make_current t r) (fun _ => at_step r step) anything g.
Proof.
  intros Hg. unfold make_current. do 3 wp_step. apply wp_current; [|done]. intros x _. do 2 wp_step; [|done].
  by wp_step.
Qed.

(** The loop counts its steps; at the limit it answers. *)
Lemma run_loop_answers r opt : 0 < max_steps opt < 2 ^ 64 ->
  forall fuel node steps skip latest (g : graph), (Z.to_nat (max_steps opt - steps) < fuel)%nat -> 0 <= steps ->
  wp (run_loop fuel r (Some opt) node steps skip latest) (fun x _ => x <> None) anything g.
Proof.
  intros Hmax. induction fuel as [|fuel IH]; intros node steps skip latest g Hf Hs; [lia|]. cbn [run_loop].
  rewrite (proj2 (Z.ltb_lt 0 (max_steps opt))) by lia. cbn [andb].
  destruct (Z.leb_spec (max_steps opt) steps) as [Hle|Hlt].
  { unfold stop_at_limit. wp_step. apply wp_any. intros ok g1. do 2 wp_step. wp_step.
    apply wp_current; [|done]. intros x _. by wp_step. }
  destruct (negb skip && _).
  { unfold interrupt_before. wp_step. apply wp_any. intros ok g1. do 2 wp_step. wp_step.
    apply wp_current; [|done]. intros x _. intros w o. unfold hand_out. by destruct (alloc o). }
  wp_step. apply wp_any. intros [[ctx next] e] g1. assert (Hu : u64 (steps + 1) = steps + 1).
  { unfold u64. apply Z.mod_small. lia. }
  assert (Hfinish : forall g2 st, wp (finish_run r st (Some e) (u64 (steps + 1))) (fun x _ => x <> None) anything g2).
  { intros g2 st. unfold finish_run. wp_step. apply wp_current; [|done]. intros x _ w o.
    unfold hand_out. by destruct (alloc o). }
  destruct (ctx_stop ctx); [do 2 wp_step; apply Hfinish|]. destruct next; [|apply Hfinish].
  rewrite Hu. apply IH; lia.
Qed.

Lemma execute_answers fuel r opt step (g : graph) : 0 < max_steps opt < 2 ^ 64 -> 0 <= step ->
  (Z.to_nat (max_steps opt - step) < fuel)%nat -> at_step r step g ->
  wp (turbo_state_graph_execute_run fuel r (Some opt)) (fun x _ => x <> None) anything g.
Proof.
  intros Hmax Hs Hf Hg. unfold turbo_state_graph_execute_run. do 3 wp_step. apply wp_current; [|done].
  intros x Hx. cbn zeta. rewrite (Hg x Hx). destruct (match _ ≫= _ with Some _ => _ | None => _ end).
  - by apply run_loop_answers.
  - by do 3 wp_step.
Qed.

Definition answers (m : sg answer) (g : graph) : Prop := forall w o, (call m g w o).1.1.1 <> None.

Lemma wp_answers (m : sg answer) g : wp m (fun x _ => x <> None) anything g -> answers m g.
Proof. intros Hm w o. specialize (Hm w o). unfold call. by destruct (m g w o) as [[[[x|r] g'] w'] o']. Qed.

Lemma start_answers fuel opt id input (g : graph) : 0 < max_steps opt < 2 ^ 64 ->
  max_steps opt < Z.of_nat fuel -> answers (turbo_state_graph_start fuel id input (Some opt)) g.
Proof.
  intros Hmax Hf. apply wp_answers. unfold turbo_state_graph_start. do 3 wp_step.
  apply wp_found; [|done]. intros start _.
  do 3 (wp_step; apply wp_any; intros ? ?). do 3 wp_step. apply wp_found; [|done]. intros th _.
  wp_step. apply wp_any. intros r g1. wp_step.
  eapply sg_wp_mono; [apply (wp_seed_at_step r _ _ _ _ _ 0)|]. intros e g2 Hg2. wp_step.
  eapply sg_wp_mono; [exact (wp_current_at_step _ _ _ _ Hg2)|]. intros ? g3 Hg3. eapply execute_answers; [done| |  |exact Hg3]; lia.
Qed.

Lemma resume_answers fuel opt id r x (g : graph) : 0 < max_steps opt < 2 ^ 64 ->
  turbo_state_graph_find_run g id = Some r -> runs g !! r = Some x -> 0 <= run_steps x ->
  (Z.to_nat (max_steps opt - run_steps x) < fuel)%nat -> answers (turbo_state_graph_resume fuel (Some id) (Some opt)) g.
Proof.
  intros Hmax Hr Hx Hs Hf. apply wp_answers. unfold turbo_state_graph_resume. wp_step.
  apply wp_found; [|done]. intros ? [= <-]. do 3 wp_step. rewrite Hr. apply sg_wp_ret. wp_step.
  apply wp_current; [|done]. intros y Hy. wp_step. apply wp_found; [|done]. intros node _. wp_step.
  apply wp_found; [|done]. intros t _. wp_step.
  eapply sg_wp_mono; [apply (wp_current_at_step t r (run_steps x)); intros z Hz; congruence|].
  intros ? g3 Hg3. eapply execute_answers; [done| | |exact Hg3]; lia.
Qed.

Lemma branch_answers fuel opt id h update options current kind (g : graph) : 0 < max_steps opt < 2 ^ 64 ->
  turbo_state_graph_find_history g (Some id) = Some h -> 0 <= he_step h ->
  (Z.to_nat (max_steps opt - he_step h) < fuel)%nat ->
  answers (turbo_state_graph_branch_from_history fuel (Some id) update options (Some opt) current kind) g.
Proof.
  intros Hmax Hh Hs Hf. apply wp_answers. unfold turbo_state_graph_branch_from_history. wp_step.
  apply wp_found; [|done]. intros ? [= <-]. do 3 wp_step. rewrite Hh. apply sg_wp_ret. wp_step.
  do 2 (apply wp_found; [|done]; intros ? _; wp_step). apply wp_any. intros r g1. wp_step.
  eapply sg_wp_mono; [apply (wp_seed_at_step r _ _ _ _ _ (he_step h))|]. intros e g2 Hg2. wp_step.
  eapply (sg_wp_mono _ _ _ (fun _ => at_step r (he_step h))).
  { destruct current; [by apply wp_current_at_step|by wp_step]. }
  intros ? g3 Hg3. wp_step. apply wp_current; [|done]. intros z Hz. destruct (run_current_node z).
  - eapply execute_answers; [done| | |exact Hg3]; lia.
  - do 2 wp_step. by destruct b; wp_step.
Qed.

(** C16. Under a step limit every execution answers: with more fuel than the steps
    left to the limit, a start, a resume, a resume from history and a fork return,
    whatever the nodes, the routes and the memory do. *)
Theorem state_graph_terminates fuel opt (g : graph) : 0 < max_steps opt < 2 ^ 64 ->
  (forall id input, max_steps opt < Z.of_nat fuel -> answers (turbo_state_graph_start fuel id input (Some opt)) g) /\
  (forall id r x, turbo_state_graph_find_run g id = Some r -> runs g !! r = Some x -> 0 <= run_steps x ->
     (Z.to_nat (max_steps opt - run_steps x) < fuel)%nat -> answers (turbo_state_graph_resume fuel (Some id) (Some opt)) g) /\
  (forall id h update options, turbo_state_graph_find_history g (Some id) = Some h -> 0 <= he_step h ->
     (Z.to_nat (max_steps opt - he_step h) < fuel)%nat ->
     answers (turbo_state_graph_resume_from_history fuel (Some id) update options (Some opt)) g /\
     answers (turbo_state_graph_fork_from_history fuel (Some id) update options (Some opt)) g).
Proof.
  intros Hmax. split_and!.
  - intros id input. by apply start_answers.
  - intros id r x. by apply resume_answers.
  - intros id h update options Hh Hs Hf. by split; eapply branch_answers.
Qed.

End limit.
