(* ===== verification/StateGraphResume.v ===== *)
(** * State graphs: interrupts (src/runtime/src/turbo_state_graph.c)

    An execution that stops at interrupt points and is resumed each time, past the
    point it stopped at, ends as the execution without interrupt points does. *)

From S2P Require Import Prelude RuntimeJson JsonBuild JsonMem JsonRecord StateGraph StateGraphTypes StateGraphFacts StateGraphOps StateGraphRun.

#[local] Open Scope string_scope.
#[local] Open Scope list_scope.
#[local] Open Scope Z_scope.

Section follow.
Context {W J : Type} `{JsonSetters J, !JsonMembers J, !JsonHeight J}.

Abbreviation graph := (state_graph (W := W) (J := J)).
Abbreviation run := (run_entry (J := J)).
Abbreviation entry := (history_entry (J := J)).
Abbreviation answer := (option (sg_return (J := J))).

Context (r : nat).

(** A run whose interrupted flag is [b]. *)
Definition flagged (b : bool) (x : run) : run :=
  mk_run (run_id x) (run_thread_id x) (run_parent_run_id x) (run_forked_from x) (run_latest x)
    (run_current_node x) (run_steps x) b (run_completed x) (run_state x).

Definition marked (b : bool) (g : graph) : graph := update_run r (flagged b) g.

(** With memory at hand nodes find none lacking. *)
Definition silent (g : graph) : Prop :=
  Forall (fun node => forall ctx w, (node_json_value_fn node ctx w []).2 = []) (nodes g).

(** [m2], from a graph that only differs in the flag of the run, does what [m1] does;
    an early return carries no result. *)
Definition follows {A} (b : bool) (m1 m2 : sg (W := W) (J := J) A) (K : A -> A -> bool -> graph -> Prop) (g : graph)
  : Prop := forall w,
  match m1 g w [], m2 (marked b g) w [] with
  | (inl x, g1, w1, o1), (inl y, g2, w2, o2) =>
      exists c, K x y c g1 /\ g2 = marked c g1 /\ w2 = w1 /\ o1 = [] /\ o2 = []
  | (inr x, g1, w1, o1), (inr y, g2, w2, o2) =>
      exists c, x = y /\ ret_result x = None /\ g2 = marked c g1 /\ w2 = w1 /\ o1 = [] /\ o2 = []
  | _, _ => False
  end.

Section rules.
Context {A B : Type} (b : bool) (g : graph).

Lemma follows_bind (m1 m2 : sg A) (k1 k2 : A -> sg B) K :
  follows b m1 m2 (fun x y c g' => follows c (k1 x) (k2 y) K g') g -> follows b (m1 ≫= k1) (m2 ≫= k2) K g.
Proof.
  intros Hm w. specialize (Hm w). unfold mbind, sg_bind. cbn beta.
  destruct (m1 g w []) as [[[[x|x] g1] w1] o1], (m2 (marked b g) w []) as [[[[y|y] g2] w2] o2]; try done.
  destruct Hm as (c & Hk & -> & -> & -> & ->). apply Hk.
Qed.

Lemma follows_ret (x y : A) K : K x y b g -> follows b (mret x) (mret y) K g.
Proof. intros HK w. by exists b. Qed.

Lemma follows_leave st (K : A -> A -> bool -> graph -> Prop) : follows b (leave st) (leave st) K g.
Proof. intros w. by exists b. Qed.

Lemma follows_found (x : option A) st (K : A -> A -> bool -> graph -> Prop) :
  (forall y, x = Some y -> K y y b g) -> follows b (found x st) (found x st) K g.
Proof. intros HK. destruct x as [y|]; [by apply follows_ret, HK|apply follows_leave]. Qed.

Lemma follows_get K : K g (marked b g) b g -> follows b get_graph get_graph K g.
Proof. intros HK w. by exists b. Qed.

Lemma follows_modify f1 f2 c (K : unit -> unit -> bool -> graph -> Prop) :
  f2 (marked b g) = marked c (f1 g) -> K tt tt c (f1 g) -> follows b (modify f1) (modify f2) K g.
Proof. intros Hf HK w. by exists c. Qed.

Lemma alloc_all_nil n : alloc_all n [] = (true, []).
Proof. induction n as [|n IH]; [done|]. cbn. by rewrite IH. Qed.

Lemma follows_copied n K : K tt tt b g -> follows b (copied n) (copied n) K g.
Proof. intros HK w. unfold copied. rewrite alloc_all_nil. by exists b. Qed.

Lemma follows_tried n K : K true true b g -> follows b (tried n) (tried n) K g.
Proof. intros HK w. unfold tried. rewrite alloc_all_nil. by exists b. Qed.

Lemma follows_reserved capacity count K : (forall n, K n n b g) ->
  follows b (reserved capacity count) (reserved capacity count) K g.
Proof.
  intros HK w. unfold reserved, turbo_state_graph_reserve. destruct (_ <=? capacity); [by exists b|].
  cbn. by exists b.
Qed.

Lemma follows_current (K : run -> run -> bool -> graph -> Prop) :
  (forall x, runs g !! r = Some x -> K x (flagged b x) b g) ->
  follows b (current_run r) (current_run r) K g.
Proof.
  intros HK w. unfold current_run. cbn. rewrite list_lookup_alter_eq.
  destruct (runs g !! r) as [x|] eqn:Hx; cbn; [|by exists b]. exists b. by split; [apply HK|].
Qed.

Lemma follows_new (x : A) (K : A -> A -> bool -> graph -> Prop) :
  K x x b g -> follows b (lift_mem (create x)) (lift_mem (create x)) K g.
Proof. intros HK w. cbn. by exists b. Qed.

End rules.

(** Two changes of the run that come to the same. *)
Lemma update_twice f1 f2 h1 h2 (g : graph) : (forall x, f2 (f1 x) = h2 (h1 x)) ->
  update_run r f2 (update_run r f1 g) = update_run r h2 (update_run r h1 g).
Proof.
  intros Hf. assert (Hl : alter f2 r (alter f1 r (runs g)) = alter h2 r (alter h1 r (runs g))).
  { apply list_eq. intros i. destruct (decide (r = i)) as [<-|Hne]; [|by rewrite !list_lookup_alter_ne].
    rewrite !list_lookup_alter_eq. destruct (runs g !! r); cbn; by rewrite ?Hf. }
  unfold update_run. cbn. by rewrite Hl.
Qed.

(** No oracle is left over when memory does not run out. *)
Definition quiet_em {A} (m : em A) : Prop := (m []).2 = [].

Lemma quiet_bind {A B} (m : em A) (k : A -> em B) : quiet_em m -> (forall x, quiet_em (k x)) -> quiet_em (m ≫= k).
Proof.
  unfold quiet_em, mbind, em_bind. intros Hm Hk. destruct (m []) as [[x|st] o]; cbn in *; subst; [apply Hk|done].
Qed.

Lemma quiet_create {A} (x : A) : quiet_em (em_mem (create x)).
Proof. done. Qed.

Lemma quiet_fold {A S} (f : S -> A -> em S) l : (forall s x, quiet_em (f s x)) -> forall s, quiet_em (em_fold f l s).
Proof. intros Hf. induction l as [|x l IH]; intros s; cbn; [done|]. by apply quiet_bind. Qed.

Lemma quiet_put (obj : J) k v : quiet_em (em_mem (put obj k v)).
Proof. unfold quiet_em, em_mem, put, turbo_runtime_json_object_set. by case_bool_decide. Qed.

Lemma quiet_append_child channel (a v : J) : quiet_em (append_child channel a v).
Proof.
  unfold append_child. apply quiet_bind; [by destruct (turbo_state_graph_validate_channel_value _ _)|]. intros _.
  apply quiet_bind; [done|]. intros x. unfold quiet_em, em_mem, append, turbo_runtime_json_array_append.
  by case_bool_decide.
Qed.

Lemma quiet_merge fuel : forall (current : option J) (update : J), quiet_em (merge_object_values fuel current update).
Proof.
  induction fuel as [|fuel IH]; intros current update; cbn [merge_object_values]; [done|].
  destruct (negb _); [done|]. destruct (match current with Some _ => _ | None => _ end); [done|].
  apply quiet_bind; [done|]. intros result. apply quiet_fold. intros s key.
  destruct (json_object_get update key) as [child|]; [|done].
  apply quiet_bind; [|intros x; apply quiet_put]. destruct (json_object_get s key); [|done].
  by destruct (_ && _).
Qed.

Lemma quiet_reduce channel (current : option J) (update : J) :
  quiet_em (turbo_state_graph_reduce_channel channel current update).
Proof.
  unfold turbo_state_graph_reduce_channel. destruct (ch_reducer channel).
  - apply quiet_bind; [|done]. by destruct (turbo_state_graph_validate_channel_value _ _).
  - unfold reduce_append. destruct (match current with Some _ => _ | None => _ end); [done|].
    apply quiet_bind; [done|]. intros a. case_bool_decide; [apply quiet_fold; intros|]; apply quiet_append_child.
  - apply quiet_merge.
  - unfold reduce_add. destruct (negb _); [done|]. destruct (match current with Some _ => _ | None => _ end); [done|].
    by destruct (_ || _).
  - apply quiet_bind; [by destruct (turbo_state_graph_validate_channel_value _ _)|]. intros _.
    case_bool_decide; [|done]. by destruct current.
Qed.

Lemma quiet_apply (channels : list (channel_entry (J := J))) (state update : J) :
  (turbo_state_graph_apply_update channels state update []).2 = [].
Proof.
  unfold turbo_state_graph_apply_update. destruct (_ || _); [done|].
  generalize (keys update). intros names. revert state. induction names as [|k names IH]; intros state; cbn; [done|].
  destruct (json_object_get update k) as [v|]; [|done].
  destruct (turbo_state_graph_find_channel channels k) as [channel|]; [|done].
  pose proof (quiet_reduce channel (json_object_get state k) v) as Hq. unfold quiet_em in Hq.
  destruct (turbo_state_graph_reduce_channel _ _ _ []) as [[x|st] o]; cbn in Hq; subst; [|done].
  pose proof (quiet_put state k x) as Hp. unfold quiet_em, em_mem in Hp.
  destruct (put state k x []) as [[s|] o]; cbn in Hp; subst; [apply IH|done].
Qed.

End follow.

Ltac follow_step :=
  cbn beta iota;
  lazymatch goal with
  | |- follows _ _ (_ ≫= _) _ _ _ => apply follows_bind
  | |- follows _ _ (mret _) _ _ _ => apply follows_ret
  | |- follows _ _ get_graph _ _ _ => apply follows_get
  | |- follows _ _ (leave _) _ _ _ => apply follows_leave
  | |- follows _ _ (copied _) _ _ _ => apply follows_copied
  | |- follows _ _ (tried _) _ _ _ => apply follows_tried
  | |- follows _ _ (reserved _ _) _ _ _ => apply follows_reserved; intros ?
  | |- follows _ _ (lift_mem _) _ _ _ => apply follows_new
  end.

Section steps.
Context {W J : Type} `{JsonSetters J, !JsonMembers J, !JsonHeight J}.

Abbreviation graph := (state_graph (W := W) (J := J)).
Abbreviation run := (run_entry (J := J)).
Abbreviation entry := (history_entry (J := J)).
Abbreviation answer := (option (sg_return (J := J))).

Context (r : nat).

Lemma follows_apply b (g : graph) update (K : unit -> unit -> bool -> graph -> Prop) :
  (forall s, K tt tt b (update_run r (run_with_state s) g)) ->
  follows r b (apply_to_run r update) (apply_to_run r update) K g.
Proof.
  intros HK. unfold apply_to_run. follow_step. apply follows_current. intros x Hx w.
  unfold apply_state. cbn [channels marked update_run set_runs run_state flagged].
  pose proof (quiet_apply (channels g) (run_state x) update) as Hq.
  destruct (turbo_state_graph_apply_update (channels g) (run_state x) update []) as [[st s] o']. cbn in Hq. subst o'.
  assert (Hm : update_run r (run_with_state s) (marked r b g) = marked r b (update_run r (run_with_state s) g))
    by (by apply update_twice).
  destruct st; exists b; by rewrite Hm.
Qed.

Lemma follows_record b (g : graph) kind source_name why last_node next_node step update state
    (K : entry -> entry -> bool -> graph -> Prop) :
  (forall e g', nodes g' = nodes g -> K e e b g') ->
  follows r b (turbo_state_graph_add_history_record r kind source_name why last_node next_node step update state)
    (turbo_state_graph_add_history_record r kind source_name why last_node next_node step update state) K g.
Proof.
  intros HK. unfold turbo_state_graph_add_history_record. do 5 follow_step.
  apply (follows_modify _ _ _ _ _ b); [done|]. do 5 follow_step.
  apply (follows_modify _ _ _ _ _ b); [done|]. do 3 follow_step. apply follows_current. intros x Hx. follow_step.
  apply (follows_modify _ _ _ _ _ b); [by apply update_twice|]. do 3 follow_step.
  apply (follows_modify _ _ _ _ _ b); [by apply update_twice|]. follow_step.
  apply (follows_modify _ _ _ _ _ b); [done|]. follow_step. by apply HK.
Qed.

Lemma follows_call b (g : graph) node ctx (K : exec_ctx (J := J) -> exec_ctx -> bool -> graph -> Prop) :
  (forall w, (node_json_value_fn node ctx w []).2 = []) -> (forall x, K x x b g) ->
  follows r b (call_node node ctx) (call_node node ctx) K g.
Proof.
  intros Hs HK w. unfold call_node. specialize (Hs w).
  destruct (node_json_value_fn node ctx w []) as [[[st x] w'] o']. cbn in Hs. subst o'.
  destruct (st =? 0); exists b; [by split; [apply HK|]|done].
Qed.

Lemma silent_at (g : graph) i node : silent g -> nodes g !! i = Some node ->
  forall ctx w, (node_json_value_fn node ctx w []).2 = [].
Proof. intros Hs Hn. eapply Forall_forall in Hs; [exact Hs|]. by eapply list_elem_of_lookup_2. Qed.

Lemma follows_send b (g : graph) send step (K : entry -> entry -> bool -> graph -> Prop) : silent g ->
  (forall e g', nodes g' = nodes g -> K e e b g') ->
  follows r b (turbo_state_graph_execute_send_node r send step) (turbo_state_graph_execute_send_node r send step) K g.
Proof.
  intros Hs HK. unfold turbo_state_graph_execute_send_node. follow_step.
  case_bool_decide; follow_step. do 3 follow_step. apply follows_found. intros i _. follow_step.
  apply follows_found. intros node Hnode. do 3 follow_step.
  apply follows_apply. intros s. follow_step. apply follows_current. intros x Hx. follow_step.
  apply follows_record. intros e g1 Hg1. do 3 follow_step. apply follows_current. intros y Hy. follow_step.
  apply follows_call; [by apply (silent_at g i)|]. intros ctx. follow_step.
  destruct (_ || _); follow_step. follow_step. apply follows_apply. intros s'. follow_step.
  apply follows_current. intros z Hz. apply follows_record. intros e' g2 Hg2. apply HK. rewrite Hg2. exact Hg1.
Qed.

Lemma follows_sends b step sends : forall latest (g : graph) (K : option entry -> option entry -> bool -> graph -> Prop),
  silent g -> (forall l g', nodes g' = nodes g -> K l l b g') ->
  follows r b (sg_sends r sends step latest) (sg_sends r sends step latest) K g.
Proof.
  induction sends as [|send sends IH]; intros latest g K Hs HK; cbn [sg_sends].
  - follow_step. by apply HK.
  - follow_step. apply follows_send; [done|]. intros e g' Hg'. apply IH.
    + unfold silent. by rewrite Hg'.
    + intros l g2 Hg2. apply HK. by rewrite Hg2.
Qed.

Lemma follows_route b (g : graph) i state (K : bool * option nat -> bool * option nat -> bool -> graph -> Prop) :
  (forall x, K x x b g) -> follows r b (take_route i state) (take_route i state) K g.
Proof.
  intros HK w. unfold take_route. cbn [edges marked update_run set_runs].
  destruct (first_route i state (edges g) false w) as [[saw to] w']. exists b. by split; [apply HK|].
Qed.

Lemma follows_next b (g : graph) i ctx (K : option string -> option string -> bool -> graph -> Prop) :
  (forall x, K x x b g) -> follows r b (resolve_next r i ctx) (resolve_next r i ctx) K g.
Proof.
  intros HK. unfold resolve_next. destruct (ctx_next_node ctx) as [next|]; [by follow_step|].
  do 3 follow_step. apply follows_current. intros x Hx. follow_step. apply follows_route. intros [[] [to|]].
  - follow_step. apply follows_found. intros node _. by follow_step.
  - by follow_step.
  - follow_step. apply follows_found. intros node _. by follow_step.
  - by follow_step.
Qed.

(** A node that runs leaves no trace of the flag. *)
Lemma follows_run_node b (g : graph) node steps latest
    (K : exec_ctx (J := J) * option string * entry -> exec_ctx * option string * entry -> bool -> graph -> Prop) :
  silent g -> (forall x g', nodes g' = nodes g -> K x x false g') ->
  follows r b (run_node r node steps latest) (run_node r node steps latest) K g.
Proof.
  intros Hs HK. unfold run_node. do 3 follow_step. apply follows_found. intros i _. follow_step.
  apply follows_found. intros nd Hnd. do 3 follow_step. apply follows_current. intros x Hx. follow_step.
  apply follows_call; [by apply (silent_at g i)|]. intros ctx. follow_step.
  apply follows_apply. intros s. follow_step. apply follows_sends; [done|]. intros l g1 Hg1. follow_step.
  apply follows_next. intros next. follow_step. unfold stand_before. do 3 follow_step.
  apply (follows_modify _ _ _ _ _ false); [by apply update_twice|]. do 2 follow_step.
  apply follows_current. intros y Hy. follow_step. apply follows_record. intros e g2 Hg2. follow_step.
  apply HK. rewrite Hg2. exact Hg1.
Qed.

End steps.

(** ** What a node leaves behind *)

Section exact.
Context {W J : Type} `{JsonSetters J, !JsonMembers J, !JsonHeight J}.

Abbreviation graph := (state_graph (W := W) (J := J)).
Abbreviation run := (run_entry (J := J)).
Abbreviation entry := (history_entry (J := J)).

Context (r : nat).

(** The entry is recorded and the run, otherwise as [P] says, names it. *)
Definition recorded (P : run -> Prop) (e : entry) (g : graph) : Prop :=
  e ∈ history g /\ exists x, P x /\ runs g !! r = Some (run_with_latest (Some (he_id e)) x).

Lemma wp_record_exact P kind source_name why last_node next_node step update state (g : graph) :
  (forall x, runs g !! r = Some x -> P (run_with_latest None x)) ->
  wp (turbo_state_graph_add_history_record r kind source_name why last_node next_node step update state)
    (recorded P) anything g.
Proof.
  intros HP. unfold turbo_state_graph_add_history_record.
  do 2 wp_step. wp_step. wp_step; [|done]. do 2 wp_step. wp_step. wp_step; [|done]. do 5 wp_step.
  wp_step; [|done]. wp_step. apply wp_current; [|done]. intros x Hx. do 3 wp_step. wp_step; [|done].
  do 4 wp_step. wp_step. cbn in Hx. split; [cbn; apply elem_of_app; right; by left|].
  exists (run_with_latest None x). split; [by apply HP|]. cbn. by rewrite !list_lookup_alter_eq, Hx.
Qed.

(** The run stands before the next node. *)
Definition before_node (next : option string) (steps : Z) (x : run) : Prop :=
  run_current_node x = next /\ run_steps x = steps /\ run_interrupted x = false /\
  run_completed x = bool_decide (next = None).

Lemma wp_run_node_exact node steps latest (g : graph) :
  wp (run_node r node steps latest)
    (fun x g' => recorded (before_node x.1.2 (u64 (steps + 1))) x.2 g') anything g.
Proof.
  unfold run_node. do 3 wp_step. apply wp_found; [|done]. intros i _. wp_step.
  apply wp_found; [|done]. intros nd _. wp_step. do 5 (apply wp_any; intros ?x ?h; wp_step).
  apply wp_any. intros next g1. wp_step. unfold stand_before. do 4 wp_step.
  destruct b; wp_step; [|done]. wp_step. apply wp_current; [|done]. intros y _. wp_step.
  eapply sg_wp_mono; [apply (wp_record_exact (before_node next (u64 (steps + 1))))|].
  - intros z Hz. cbn in Hz. rewrite list_lookup_alter_eq in Hz. destruct (runs g1 !! r); [|done].
    by injection Hz as <-.
  - intros e g2 He. by wp_step.
Qed.

End exact.

(** ** Lookups later on *)

Lemma index_of_prefix {A} (p : A -> bool) (l k : list A) i :
  (forall j x, l !! j = Some x -> exists y, k !! j = Some y /\ p y = p x) ->
  index_of p l = Some i -> index_of p k = Some i.
Proof.
  revert k i. induction l as [|x l IH]; intros k i Hk; cbn; [done|].
  destruct (Hk 0%nat x eq_refl) as (y & Hy & Hp). destruct k as [|y' k]; [done|].
  injection Hy as ->. cbn. rewrite Hp. destruct (p x); [done|]. intros Hi.
  destruct (index_of p l) as [j|] eqn:Hj; [|done]. injection Hi as <-.
  rewrite (IH k j); [done| |done]. intros j' z Hz. by apply (Hk (S j') z).
Qed.

Lemma find_nodup {A} (f : A -> string) (l : list A) x : NoDup (f <$> l) -> x ∈ l ->
  List.find (fun y => bool_decide (f y = f x)) l = Some x.
Proof.
  induction l as [|y l IH]; [by intros _ ?%elem_of_nil|]. cbn. intros [Hn Hnd]%NoDup_cons [->|Hin]%elem_of_cons.
  - by rewrite bool_decide_eq_true_2.
  - rewrite bool_decide_eq_false_2; [by apply IH|]. intros Heq. apply Hn. rewrite Heq. by apply list_elem_of_fmap_2.
Qed.

Section resume.
Context {W J : Type} `{JsonSetters J, !JsonMembers J, !JsonHeight J, !JsonLaws J, !JsonNewLaws J,
  !JsonRecordLaws J}.

Abbreviation graph := (state_graph (W := W) (J := J)).
Abbreviation answer := (sg_return (J := J)).

(** An answer that tells of an interrupt of the run [id]. *)
Definition tells_interrupt (a : answer) (id : string) : Prop :=
  exists res, ret_result a = Some res /\ res_status res = TURBO_STATE_GRAPH_INTERRUPTED /\
    res_run_id res = Some id.

Lemma tells_once a id id' : tells_interrupt a id -> tells_interrupt a id' -> id = id'.
Proof. intros (res & Hres & _ & Hid) (res' & Hres' & _ & Hid'). congruence. Qed.

(** Options without interrupt points, and options to go on past one. *)
Definition uninterrupted (opt : run_options) : run_options :=
  mk_options (max_steps opt) (start_node opt) [] false.
Definition going_on (opt : run_options) : run_options :=
  mk_options (max_steps opt) None (interrupt_before_nodes opt) true.

(** A host that resumes the run every time it is interrupted, with [n] fuel in all. *)
Inductive resumed_until (opt : run_options) :
    nat -> answer * graph * W -> answer * graph * W -> Prop :=
| until_done a g w : (forall id, ~ tells_interrupt a id) -> resumed_until opt 0 (a, g, w) (a, g, w)
| until_resumed id fuel n a g w b g1 w1 last :
    tells_interrupt a id ->
    call (turbo_state_graph_resume fuel (Some id) (Some (going_on opt))) g w [] = (Some b, g1, w1, []) ->
    resumed_until opt n (b, g1, w1) last ->
    resumed_until opt (fuel + n) (a, g, w) last.

Context (bound r : nat).

(** The run stands before [node], and its thread is at it. *)
Record stands (id node : string) (steps : Z) (latest : option (history_entry (J := J))) (g : graph) : Prop := {
  st_run : exists x, runs g !! r = Some x /\ run_id x = id /\ run_current_node x = Some node /\
    run_steps x = steps /\ run_completed x = false /\ turbo_state_graph_find_history g (run_latest x) = latest /\
    exists t th, turbo_state_graph_find_thread g (run_thread_id x) = Some t /\ threads g !! t = Some th /\
      th_current_run_id th = Some id;
  st_find : turbo_state_graph_find_run g id = Some r
}.

Lemma stands_after id node steps latest (g g' : graph) next steps' e n :
  stands id node steps latest g -> inv bound 0 (eq r) (fun _ => False) g n g' ->
  recorded r (before_node (Some next) steps') e g' -> stands id next steps' (Some e) g'.
Proof.
  intros [(x & Hx & Hid & _ & _ & _ & _ & t & th & Hft & Hth & Hcur) Hfind] (Hwf & Hext & _)
    (He & y & (Hyn & Hys & _ & Hyc) & Hy).
  destruct (ext_runs _ _ _ _ Hext r x Hx) as (y' & Hy' & (Hyid & Hyth & _) & _).
  rewrite Hy in Hy'. injection Hy' as <-. cbn in Hyid, Hyth. split.
  - exists (run_with_latest (Some (he_id e)) y). cbn. rewrite Hyid, Hyth. split_and!; try done.
    + by apply find_nodup; [eapply issued_nodup, wf_history_ids|].
    + destruct (ext_threads _ _ _ _ Hext t th Hth) as (u & Hu & Huid & Heq). exists t, u. split_and!; [|done|].
      * eapply index_of_prefix; [|exact Hft]. intros j z Hz.
        destruct (ext_threads _ _ _ _ Hext j z Hz) as (v & Hv & Hvid & _). exists v. by rewrite Hvid.
      * rewrite Heq; [done|]. by intros [].
  - eapply index_of_prefix; [|exact Hfind]. intros j z Hz.
    destruct (ext_runs _ _ _ _ Hext j z Hz) as (v & Hv & (Hvid & _) & _). exists v. by rewrite Hvid.
Qed.

Lemma stands_marked id node steps latest b (g : graph) :
  stands id node steps latest g -> stands id node steps latest (marked r b g).
Proof.
  intros [(x & Hx & Hrest) Hfind]. split.
  - exists (flagged b x). split; [|exact Hrest]. cbn. by rewrite list_lookup_alter_eq, Hx.
  - unfold turbo_state_graph_find_run in *. eapply index_of_prefix; [|exact Hfind]. intros j z Hz. cbn.
    destruct (decide (r = j)) as [<-|Hne].
    + exists (flagged b z). by rewrite list_lookup_alter_eq, Hz.
    + exists z. by rewrite list_lookup_alter_ne.
Qed.

Lemma bind_at {A B} (m : sg (W := W) (J := J) A) (k : A -> sg B) g w o x g' w' o' :
  m g w o = (inl x, g', w', o') -> (m ≫= k) g w o = k x g' w' o'.
Proof. intros Hm. unfold mbind, sg_bind. by rewrite Hm. Qed.

Lemma found_answers {A} (x : option A) st y (g : graph) (w : W) o : x = Some y -> found x st g w o = (inl y, g, w, o).
Proof. by intros ->. Qed.

Lemma current_at x (g : graph) (w : W) o : runs g !! r = Some x -> current_run r g w o = (inl x, g, w, o).
Proof. intros Hx. unfold current_run. by rewrite Hx. Qed.

(** Making the run current again changes nothing. *)
Lemma current_again t th x (g : graph) (w : W) : runs g !! r = Some x -> threads g !! t = Some th ->
  th_current_run_id th = Some (run_id x) -> make_current t r g w [] = (inl tt, g, w, []).
Proof.
  intros Hx Ht Hc. unfold make_current. erewrite bind_at; [|done].
  erewrite bind_at; [|by apply current_at]. erewrite bind_at; [|done]. unfold modify. f_equal. f_equal. f_equal.
  assert (Hl : alter (fun th => mk_thread (th_id th) (Some (run_id x))) t
                 (alter (fun th => mk_thread (th_id th) None) t (threads g)) = threads g).
  { apply list_eq. intros i. destruct (decide (t = i)) as [<-|Hne]; [|by rewrite !list_lookup_alter_ne].
    rewrite !list_lookup_alter_eq, Ht. cbn. by destruct th; cbn in *; subst. }
  destruct g. cbn in *. unfold set_threads. cbn. by rewrite Hl.
Qed.

Lemma resume_at fuel opt id node steps latest (g : graph) (w : W) : stands id node steps latest g ->
  turbo_state_graph_resume fuel (Some id) (Some (going_on opt)) g w [] =
  run_loop fuel r (Some (going_on opt)) node steps true latest g w [].
Proof.
  intros [(x & Hx & Hid & Hn & Hs & _ & Hl & t & th & Hft & Hth & Hcur) Hfind].
  unfold turbo_state_graph_resume. erewrite bind_at; [|by apply found_answers]. erewrite bind_at; [|done].
  erewrite bind_at; [|by apply found_answers]. erewrite bind_at; [|by apply current_at].
  erewrite bind_at; [|by apply found_answers]. erewrite bind_at; [|by apply found_answers].
  erewrite bind_at; [|eapply current_again; [done|done|by rewrite Hid]].
  unfold turbo_state_graph_execute_run. erewrite bind_at; [|done]. erewrite bind_at; [|by apply current_at].
  cbn [mbind option_bind start_node going_on skip_initial_interrupt]. cbn zeta. by rewrite Hn, Hs, Hl.
Qed.

(** An interrupt only sets the flag. *)
Lemma interrupt_at id node steps latest (g : graph) (w : W) : stands id node steps latest g ->
  exists a, interrupt_before r node steps latest g w [] = (inl (Some a), marked r true g, w, []) /\ tells_interrupt a id.
Proof.
  intros [(x & Hx & Hid & Hn & Hs & Hc & _) _]. unfold interrupt_before. erewrite bind_at; [|done].
  erewrite bind_at; [|done].
  assert (Hm : update_run r (fun x => run_at_node (Some node) (run_steps x) true false x) g = marked r true g).
  { unfold marked, update_run. f_equal. apply list_eq. intros i.
    destruct (decide (r = i)) as [<-|Hne]; [|by rewrite !list_lookup_alter_ne].
    rewrite !list_lookup_alter_eq, Hx. cbn. unfold run_at_node, flagged. by rewrite Hn, Hc. }
  erewrite bind_at; [|apply current_at; cbn; by rewrite list_lookup_alter_eq, Hx].
  rewrite Hm. unfold hand_out. cbn. eexists. split; [done|]. eexists. split_and!; [done..|]. cbn. by rewrite Hid.
Qed.

(** The same answer, and not one that tells of an interrupt. *)
Definition ends (x y : option answer) (c : bool) (g : graph) : Prop :=
  x = y /\ forall a id, x = Some a -> ~ tells_interrupt a id.

Lemma until_ends opt n a g1 w1 last : resumed_until opt n (a, g1, w1) last ->
  (forall id, ~ tells_interrupt a id) -> last = (a, g1, w1).
Proof. inversion 1 as [|id]; subst; [done|]. intros Hn. by destruct (Hn id). Qed.

Lemma follows_ends opt n b (m1 m2 : sg (option answer)) (g : graph) w a g1 w1 o1 last :
  follows r b m1 m2 ends g -> call m1 g w [] = (Some a, g1, w1, o1) -> resumed_until opt n (a, g1, w1) last ->
  exists c, call m2 (marked r b g) w [] = (Some last.1.1, marked r c last.1.2, last.2, []).
Proof.
  intros Hf Hcall Hu. specialize (Hf w). unfold call in *.
  assert (Hna : (forall id, ~ tells_interrupt a id) /\ exists c, match m2 (marked r b g) w [] with
    | (inl x, g', w', o') => (x, g', w', o') | (inr x, g', w', o') => (Some x, g', w', o') end =
    (Some a, marked r c g1, w1, [])).
  { destruct (m1 g w []) as [[[[x|x] g'] w'] o'], (m2 (marked r b g) w []) as [[[[y|y] g2] w2] o2]; try done.
    - destruct Hf as (c & [<- Hn] & -> & -> & _ & ->). injection Hcall as -> -> -> _.
      split; [intros id; by apply Hn|]. by exists c.
    - destruct Hf as (c & <- & Hn & -> & -> & _ & ->). injection Hcall as -> -> -> _.
      split; [intros id (res & Hres & _); congruence|]. by exists c. }
  destruct Hna as [Hna (c & Hc)]. rewrite (until_ends _ _ _ _ _ _ Hu Hna). by exists c.
Qed.

Lemma follows_limit b node steps latest (g : graph) :
  follows r b (stop_at_limit r node steps latest) (stop_at_limit r node steps latest) ends g.
Proof.
  unfold stop_at_limit. do 3 follow_step. apply (follows_modify _ _ _ _ _ false); [by apply update_twice|].
  follow_step. apply follows_current. intros x Hx. follow_step. split; [done|]. intros a id [= <-] (res & [= <-] & Hst & _).
  discriminate.
Qed.

Lemma follows_finish b st latest steps (g : graph) : st <> TURBO_STATE_GRAPH_INTERRUPTED ->
  follows r b (finish_run r st latest steps) (finish_run r st latest steps) ends g.
Proof.
  intros Hst. unfold finish_run. follow_step. apply follows_current. intros x Hx w. unfold hand_out. cbn.
  exists b. split; [split; [done|]|done]. intros a id [= <-] (res & [= <-] & Hres & _). by cbn in Hres.
Qed.

(** The options agree but for the interrupt points. *)
Definition like (opt O : run_options) : Prop :=
  max_steps O = max_steps opt /\ interrupt_before_nodes O = interrupt_before_nodes opt.

Lemma never_interrupts opt node : turbo_state_graph_should_interrupt_before (Some (uninterrupted opt)) node = false.
Proof. done. Qed.

Lemma silent_nodes (g g' : graph) : nodes g' = nodes g -> silent g -> silent g'.
Proof. unfold silent. by intros ->. Qed.

(** What a step of an execution that is not cut short keeps. *)
Definition ready (id node : string) (steps : Z) (latest : option (history_entry (J := J))) (n : nat) (g : graph) : Prop :=
  silent g /\ stands id node steps latest g /\ inv bound 0 (eq r) (fun _ => False) g n g.

Lemma ready_after id node steps latest (g : graph) n w ctx next e g' w' o' :
  ready id node steps latest (node_records bound + n) g ->
  run_node r node steps latest g w [] = (inl (ctx, Some next, e), g', w', o') -> nodes g' = nodes g ->
  ready id next (u64 (steps + 1)) (Some e) n g'.
Proof.
  intros (Hsil & Hst & Hinv) Hrun Hn.
  pose proof (wp_run_node bound 0 (eq r) (fun _ => False) g n g r node steps latest
    (fun _ g' => inv bound 0 (eq r) (fun _ => False) g n g') Hinv ltac:(done) ltac:(done) w []) as Hinv'.
  pose proof (wp_run_node_exact r node steps latest g w []) as Hex. rewrite Hrun in Hinv', Hex.
  split_and!; [by eapply silent_nodes|by eapply stands_after|by eapply inv_base].
Qed.

(** What follows an interrupt, from the run it left. *)
Definition continues (opt : run_options) (id : string) (n : nat) (g1 : graph) (w1 : W)
    (last : answer * graph * W) : Prop :=
  forall node steps latest b, ready id node steps latest n g1 ->
  exists fuel' c, call (run_loop fuel' r (Some (uninterrupted opt)) node steps false latest) (marked r b g1) w1 [] =
    (Some last.1.1, marked r c last.1.2, last.2, []).

Lemma marked_ready id node steps latest n b (g : graph) :
  ready id node steps latest n g -> ready id node steps latest n (marked r b g).
Proof.
  intros (Hsil & Hst & Hinv). split_and!; [done|by apply stands_marked|].
  pose proof (st_run _ _ _ _ _ Hst) as (x & Hx & _ & Hn & _ & Hc & _).
  eapply (inv_base _ _ (eq r) (fun _ => False)). eapply inv_update; [exact Hinv|by intros _|done|].
  intros y Hy Hs Hf. assert (y = x) as -> by congruence. split_and!; [exact Hs| |by right].
  split; cbn; [|apply Hf]. intros _. by rewrite Hn.
Qed.

Lemma marked_twice b c (g : graph) : marked r b (marked r c g) = marked r b g.
Proof.
  assert (Hl : alter (flagged b) r (alter (flagged c) r (runs g)) = alter (flagged b) r (runs g)).
  { apply list_eq. intros i. destruct (decide (r = i)) as [<-|Hne]; [|by rewrite !list_lookup_alter_ne].
    rewrite !list_lookup_alter_eq. by destruct (runs g !! r). }
  unfold marked, update_run. cbn. by rewrite Hl.
Qed.

(** The uninterrupted loop over the limit, and its first node. *)
Lemma plain_loop opt fuel node steps latest (g : graph) w :
  (0 <? max_steps opt) && (max_steps opt <=? steps) = false ->
  run_loop (S fuel) r (Some (uninterrupted opt)) node steps false latest g w [] =
  (ran ← run_node r node steps latest;
   let '(ctx, next, entry) := ran in
   if ctx_stop ctx then
     _ ← modify (update_run r (fun x => run_at_node None (run_steps x) false true x));
     finish_run r TURBO_STATE_GRAPH_STOP (Some entry) (u64 (steps + 1))
   else
     match next with
     | Some next => run_loop fuel r (Some (uninterrupted opt)) next (u64 (steps + 1)) false (Some entry)
     | None => finish_run r TURBO_STATE_GRAPH_OK (Some entry) (u64 (steps + 1))
     end) g w [].
Proof. intros Hlim. cbn [run_loop uninterrupted max_steps]. by rewrite Hlim. Qed.

Lemma follows_stop b latest steps (g : graph) :
  follows r b
    (_ ← modify (update_run r (fun x => run_at_node None (run_steps x) false true x));
     finish_run r TURBO_STATE_GRAPH_STOP latest steps)
    (_ ← modify (update_run r (fun x => run_at_node None (run_steps x) false true x));
     finish_run r TURBO_STATE_GRAPH_STOP latest steps) ends g.
Proof.
  follow_step. apply (follows_modify _ _ _ _ _ false); [by apply update_twice|]. by apply follows_finish.
Qed.

Lemma loop_resumed_inner opt id n a g1 w1 last : resumed_until opt n (a, g1, w1) last ->
  (tells_interrupt a id -> continues opt id (n * node_records bound) g1 w1 last) ->
  forall fuel O node steps skip latest (g : graph) w b, like opt O ->
  ready id node steps latest (fuel * node_records bound + n * node_records bound) g ->
  call (run_loop fuel r (Some O) node steps skip latest) g w [] = (Some a, g1, w1, []) ->
  exists fuel' c, call (run_loop fuel' r (Some (uninterrupted opt)) node steps false latest) (marked r b g) w [] =
    (Some last.1.1, marked r c last.1.2, last.2, []).
Proof.
  intros Hu Hcont. induction fuel as [|fuel IH]; intros O node steps skip latest g w b [Hmax Hint] Hready Hcall; [done|].
  cbn [run_loop] in Hcall. rewrite Hmax in Hcall.
  destruct ((0 <? max_steps opt) && (max_steps opt <=? steps)) eqn:Hlim.
  { destruct (follows_ends _ _ b _ _ g w _ _ _ _ _ (follows_limit b node steps latest g) Hcall Hu) as (c & Hc).
    exists 1%nat, c. cbn [run_loop uninterrupted max_steps]. by rewrite Hlim. }
  destruct (negb skip && turbo_state_graph_should_interrupt_before (Some O) node).
  { pose proof Hready as (_ & Hst & _). destruct (interrupt_at id node steps latest g w Hst) as (a' & Ha & Htell).
    unfold call in Hcall. rewrite Ha in Hcall. injection Hcall as -> <- <-.
    destruct (Hcont Htell node steps latest b) as (fuel' & c & Hc).
    { apply marked_ready. destruct Hready as (? & ? & Hinv). split_and!; [done..|].
      eapply inv_weaken; [|exact Hinv]. lia. }
    exists fuel', c. by rewrite marked_twice in Hc. }
  pose proof (follows_run_node r b g node steps latest (fun x y _ g' => x = y /\ nodes g' = nodes g)
    (proj1 Hready) ltac:(done) w) as Hf.
  destruct (run_node r node steps latest g w []) as [[[[[[ctx next] e]|x] g'] w'] o'] eqn:Hrun.
  - destruct (run_node r node steps latest (marked r b g) w []) as [[[[y|y] g2] w2] o2] eqn:Hrun2; [|done].
    destruct Hf as (c & [<- Hnodes] & -> & -> & -> & ->). unfold call in Hcall.
    rewrite (bind_at _ _ _ _ _ _ _ _ _ Hrun) in Hcall.
    assert (Hplain : forall fuel, call (run_loop (S fuel) r (Some (uninterrupted opt)) node steps false latest)
      (marked r b g) w [] = call (if ctx_stop ctx then
          _ ← modify (update_run r (fun x => run_at_node None (run_steps x) false true x));
          finish_run r TURBO_STATE_GRAPH_STOP (Some e) (u64 (steps + 1))
        else match next with
             | Some next => run_loop fuel r (Some (uninterrupted opt)) next (u64 (steps + 1)) false (Some e)
             | None => finish_run r TURBO_STATE_GRAPH_OK (Some e) (u64 (steps + 1))
             end) (marked r c g') w' []).
    { intros f. unfold call. rewrite (plain_loop _ _ _ _ _ _ _ Hlim). by rewrite (bind_at _ _ _ _ _ _ _ _ _ Hrun2). }
    destruct (ctx_stop ctx).
    { destruct (follows_ends _ _ c _ _ _ _ _ _ _ _ _ (follows_stop c _ _ g') Hcall Hu) as (c2 & Hc).
      exists 1%nat, c2. by rewrite Hplain. }
    destruct next as [next|].
    + destruct (IH O next (u64 (steps + 1)) false (Some e) g' w' c) as (fuel' & c2 & Hc); [done| |exact Hcall|].
      { eapply ready_after; [|exact Hrun|exact Hnodes]. by rewrite Nat.add_assoc. }
      exists (S fuel'), c2. by rewrite Hplain.
    + destruct (follows_ends _ _ c _ _ _ _ _ _ _ _ _
        (follows_finish c TURBO_STATE_GRAPH_OK (Some e) (u64 (steps + 1)) g' ltac:(done)) Hcall Hu) as (c2 & Hc).
      exists 1%nat, c2. by rewrite Hplain.
  - destruct (run_node r node steps latest (marked r b g) w []) as [[[[y|y] g2] w2] o2] eqn:Hrun2; [done|].
    destruct Hf as (c & <- & Hn & -> & -> & -> & ->). unfold call, mbind, sg_bind in Hcall. rewrite Hrun in Hcall.
    injection Hcall as -> -> ->.
    assert (Hna : forall id, ~ tells_interrupt a id) by (intros ? (res & Hres & _); congruence).
    rewrite (until_ends _ _ _ _ _ _ Hu Hna).
    exists 1%nat, c. unfold call. rewrite (plain_loop _ _ _ _ _ _ _ Hlim). unfold mbind, sg_bind. by rewrite Hrun2.
Qed.

Lemma resumed_continues opt id n first last : resumed_until opt n first last ->
  tells_interrupt first.1.1 id -> continues opt id (n * node_records bound) first.1.2 first.2 last.
Proof.
  induction 1 as [a g1 w1 Hna|id' fuel n a g1 w1 a2 g2 w2 last Ha Hres Hu IH]; intros Htell; [by destruct (Hna id)|].
  rewrite (tells_once _ _ _ Ha Htell) in Hres.
  intros node steps latest b Hready. unfold call in Hres.
  rewrite (resume_at _ _ _ _ _ _ _ _ (proj1 (proj2 Hready))) in Hres.
  eapply (loop_resumed_inner opt id n a2 g2 w2 last Hu IH fuel (going_on opt)); [done| |exact Hres].
  by rewrite <- Nat.mul_add_distr_r.
Qed.

(** From a run that stands before a node, the loop with interrupts and the resumes
    that follow come to what the loop without them does. *)
Lemma loop_resumed opt id n a g1 w1 last fuel node steps skip latest (g : graph) w b :
  resumed_until opt n (a, g1, w1) last ->
  ready id node steps latest ((fuel + n) * node_records bound) g ->
  call (run_loop fuel r (Some opt) node steps skip latest) g w [] = (Some a, g1, w1, []) ->
  exists fuel' c, call (run_loop fuel' r (Some (uninterrupted opt)) node steps false latest) (marked r b g) w [] =
    (Some last.1.1, marked r c last.1.2, last.2, []).
Proof.
  intros Hu Hready. eapply loop_resumed_inner; [exact Hu|exact (resumed_continues _ id _ _ _ Hu)|done|].
  by rewrite <- Nat.mul_add_distr_r.
Qed.

End resume.
