(* ===== verification/StateGraphSeamless.v ===== *)
(** * State graphs: starting a run and resuming it (src/runtime/src/turbo_state_graph.c)

    What a start does before it executes, and the theorem that interrupts do not
    change what an execution comes to. *)

From S2P Require Import Prelude RuntimeJson JsonBuild JsonMem JsonRecord StateGraph StateGraphTypes StateGraphFacts StateGraphOps StateGraphSafe StateGraphRun StateGraphResume.

#[local] Open Scope string_scope.
#[local] Open Scope list_scope.
#[local] Open Scope Z_scope.

(** ** A launch, with memory at hand *)

Section launch.
Context {W J : Type} `{JsonSetters J, !JsonMembers J, !JsonHeight J}.

Abbreviation graph := (state_graph (W := W) (J := J)).

(** With memory at hand and away from the nodes: nothing is used up, the world stays,
    and an early return carries no result. *)
Definition wp0 {A} (m : sg (W := W) (J := J) A) (Q : A -> graph -> Prop) (g : graph) : Prop := forall w : W,
  match m g w [] with
  | (inl x, g', w', o') => w' = w /\ o' = [] /\ Q x g'
  | (inr x, g', w', o') => w' = w /\ o' = [] /\ ret_result x = None
  end.

Section rules.
Context {A : Type} (g : graph).

Lemma wp0_ret (x : A) (Q : A -> graph -> Prop) : Q x g -> wp0 (mret x) Q g.
Proof. by intros HQ w. Qed.

Lemma wp0_bind {B} (m : sg B) (k : B -> sg A) (Q : A -> graph -> Prop) :
  wp0 m (fun x g' => wp0 (k x) Q g') g -> wp0 (m ≫= k) Q g.
Proof.
  intros Hm w. specialize (Hm w). unfold mbind, sg_bind. cbn beta.
  destruct (m g w []) as [[[[x|r] g'] w'] o']; [|done]. destruct Hm as (-> & -> & Hk). apply Hk.
Qed.

Lemma wp0_leave st (Q : A -> graph -> Prop) : wp0 (leave st) Q g.
Proof. by intros w. Qed.

Lemma wp0_found (x : option A) st (Q : A -> graph -> Prop) :
  (forall y, x = Some y -> Q y g) -> wp0 (found x st) Q g.
Proof. intros HQ w. destruct x as [y|]; cbn; [by split_and!; [..|apply HQ]|done]. Qed.

Lemma wp0_lift (m : em A) (Q : A -> graph -> Prop) : quiet_em m -> (forall x, Q x g) -> wp0 (lift m) Q g.
Proof.
  unfold quiet_em. intros Hm HQ w. unfold lift. destruct (m []) as [[x|st] o1]; cbn in Hm; subst; [|done].
  by split_and!; [..|apply HQ].
Qed.

Lemma wp0_mono (m : sg A) (Q Q' : A -> graph -> Prop) :
  wp0 m Q g -> (forall x g', Q x g' -> Q' x g') -> wp0 m Q' g.
Proof.
  intros Hm HQ w. specialize (Hm w). destruct (m g w []) as [[[[x|r] g'] w'] o']; [|done].
  destruct Hm as (-> & -> & Hq). by split_and!; [..|apply HQ].
Qed.

End rules.

Section primitives.
Context (g : graph).

Lemma wp0_get (Q : graph -> graph -> Prop) : Q g g -> wp0 get_graph Q g.
Proof. by intros HQ w. Qed.

Lemma wp0_modify f (Q : unit -> graph -> Prop) : Q tt (f g) -> wp0 (modify f) Q g.
Proof. by intros HQ w. Qed.

Lemma wp0_copied n (Q : unit -> graph -> Prop) : Q tt g -> wp0 (copied n) Q g.
Proof. intros HQ w. unfold copied. by rewrite alloc_all_nil. Qed.

Lemma wp0_reserved capacity count (Q : Z -> graph -> Prop) : (forall n, Q n g) ->
  wp0 (reserved capacity count) Q g.
Proof.
  intros HQ w. unfold reserved, turbo_state_graph_reserve.
  destruct (_ <=? capacity); cbn; by split_and!; [..|apply HQ].
Qed.

Lemma wp0_current r (Q : run_entry (J := J) -> graph -> Prop) : (forall x, runs g !! r = Some x -> Q x g) ->
  wp0 (current_run r) Q g.
Proof. intros HQ w. unfold current_run. destruct (runs g !! r) as [x|] eqn:Hx; [|done]. by split_and!; [..|apply HQ]. Qed.

Lemma wp0_apply r update (Q : unit -> graph -> Prop) :
  (forall s, Q tt (update_run r (run_with_state s) g)) -> wp0 (apply_to_run r update) Q g.
Proof.
  intros HQ. unfold apply_to_run. apply wp0_bind, wp0_current. intros x Hx w. unfold apply_state.
  pose proof (quiet_apply (channels g) (run_state x) update) as Hq.
  destruct (turbo_state_graph_apply_update _ _ _ []) as [[st s] o']. cbn in Hq. subst o'.
  by destruct st.
Qed.

End primitives.

End launch.

Ltac wp0_step :=
  cbn beta iota;
  lazymatch goal with
  | |- wp0 (_ ≫= _) _ _ => apply wp0_bind
  | |- wp0 (mret _) _ _ => apply wp0_ret
  | |- wp0 get_graph _ _ => apply wp0_get
  | |- wp0 (modify _) _ _ => apply wp0_modify
  | |- wp0 (leave _) _ _ => apply wp0_leave
  | |- wp0 (copied _) _ _ => apply wp0_copied
  | |- wp0 (reserved _ _) _ _ => apply wp0_reserved; intros ?
  | |- wp0 (lift_mem (create _)) _ _ => apply wp0_lift; [done|intros ?]
  | |- wp0 (lift_mem create_object) _ _ => apply wp0_lift; [done|intros ?]
  end.

Section launched.
Context {W J : Type} `{JsonSetters J, !JsonMembers J, !JsonHeight J}.

Abbreviation graph := (state_graph (W := W) (J := J)).
Abbreviation run := (run_entry (J := J)).

Lemma wp0_record P r kind source_name why last_node next_node step update state (g : graph) :
  (forall x, runs g !! r = Some x -> P (run_with_latest None x)) ->
  wp0 (turbo_state_graph_add_history_record r kind source_name why last_node next_node step update state)
    (fun e g' => recorded r P e g' /\ threads g' = threads g) g.
Proof.
  intros HP. unfold turbo_state_graph_add_history_record.
  repeat wp0_step. apply wp0_current. intros x Hx. repeat wp0_step. cbn in Hx.
  split; [|done]. split; [cbn; apply elem_of_app; right; by left|].
  exists (run_with_latest None x). split; [by apply HP|]. cbn. by rewrite !list_lookup_alter_eq, Hx.
Qed.

(** The seeded run stands before [next_node]. *)
Definition seeded (x : run) (next_node : option string) (step : Z) (y : run) : Prop :=
  same_run x y /\ run_current_node y = next_node /\ run_steps y = step /\
  run_completed y = bool_decide (next_node = None).

Lemma wp0_seed r kind source_name why update next_node step x (g : graph) : runs g !! r = Some x ->
  wp0 (turbo_state_graph_seed_run r kind source_name why update next_node step)
    (fun e g' => recorded r (seeded x next_node step) e g' /\ threads g' = threads g) g.
Proof.
  intros Hx. unfold turbo_state_graph_seed_run. repeat wp0_step. case_bool_decide; repeat wp0_step.
  repeat wp0_step. apply wp0_apply. intros s. repeat wp0_step. apply wp0_current. intros y Hy.
  eapply wp0_mono; [apply (wp0_record (seeded x next_node step))|done].
  intros z Hz. cbn in Hz. rewrite !list_lookup_alter_eq, Hx in Hz. by injection Hz as <-.
Qed.

Lemma wp0_point t r x (g : graph) : runs g !! r = Some x ->
  wp0 (make_current t r) (fun _ g' => runs g' = runs g /\ history g' = history g /\
    threads g' = alter (fun th => mk_thread (th_id th) (Some (run_id x))) t
      (alter (fun th => mk_thread (th_id th) None) t (threads g))) g.
Proof.
  intros Hx. unfold make_current. repeat wp0_step. apply wp0_current. intros y Hy.
  assert (y = x) as -> by (cbn in Hy; congruence). by repeat wp0_step.
Qed.

Lemma index_of_snoc {A} (p : A -> bool) l x : index_of p l = None -> p x = true ->
  index_of p (l ++ [x]) = Some (length l).
Proof.
  induction l as [|y l IH]; cbn; intros Hn Hx; [by rewrite Hx|]. destruct (p y); [done|].
  destruct (index_of p l); [done|]. by rewrite IH.
Qed.

Lemma wp0_named_thread id (g : graph) : id <> EmptyString ->
  wp0 (turbo_state_graph_add_thread_record (Some id))
    (fun t g' => turbo_state_graph_find_thread g' id = Some t /\ runs g' = runs g) g.
Proof.
  intros Hid. unfold turbo_state_graph_add_thread_record. repeat wp0_step.
  destruct id as [|c id]; [done|]. cbn [mbind option_bind].
  destruct (turbo_state_graph_find_thread g (String c id)) as [t|] eqn:Hf; cbn in Hf |- *; rewrite ?Hf; [by wp0_step|].
  repeat wp0_step. split; [|done]. apply index_of_snoc; [exact Hf|]. by apply bool_decide_eq_true.
Qed.

Lemma wp0_new_run thread_id parent forked_from state node steps (g : graph) :
  wp0 (turbo_state_graph_add_run_record thread_id parent forked_from state node steps)
    (fun r g' => threads g' = threads g /\ r = length (runs g) /\
       exists x, runs g' = runs g ++ [x] /\ run_thread_id x = thread_id) g.
Proof.
  unfold turbo_state_graph_add_run_record. repeat wp0_step. split_and!; [done..|].
  eexists. split; [done|done].
Qed.

(** A run launched on a named thread stands before its node. *)
Definition launched (id start : string) (r : nat) (g : graph) : Prop :=
  exists x t th, runs g !! r = Some x /\ run_thread_id x = id /\ run_current_node x = Some start /\
    run_steps x = 0 /\ run_completed x = false /\ turbo_state_graph_find_thread g id = Some t /\
    threads g !! t = Some th /\ th_current_run_id th = Some (run_id x).

Lemma seed_quiet (channels : list (channel_entry (J := J))) (state : J) :
  quiet_em (turbo_state_graph_seed_defaults channels state).
Proof.
  unfold turbo_state_graph_seed_defaults. apply quiet_fold. intros s channel.
  apply quiet_bind; [done|]. intros v. apply quiet_put.
Qed.

Lemma wp0_launch id input options (g : graph) : id <> EmptyString ->
  wp0 (launch (Some id) input options)
    (fun r g' => exists start, match options ≫= start_node with Some n => Some n | None => entry_node g end = Some start /\
       launched id start r g') g.
Proof.
  intros Hid. unfold launch. repeat wp0_step. apply wp0_found. intros start Hstart. repeat wp0_step.
  apply wp0_lift; [apply seed_quiet|]. intros seed. repeat wp0_step.
  eapply wp0_mono; [by apply wp0_named_thread|]. intros t g1 (Ht & Hr1). repeat wp0_step. apply wp0_found.
  intros th Hth. repeat wp0_step. eapply wp0_mono; [apply wp0_new_run|]. intros r g2 (Hth2 & -> & z & Hr2 & Hz). repeat wp0_step.
  assert (Hrun : runs g2 !! length (runs g1) = Some z) by (rewrite Hr2; by apply list_lookup_middle).
  eapply wp0_mono; [by apply wp0_seed|]. intros e g3 ((_ & y & Hy & Hr3) & Hth3). repeat wp0_step.
  eapply wp0_mono; [by apply wp0_point|]. intros u g4 (Hr4 & _ & Hth4). repeat wp0_step. exists start. split; [done|].
  destruct (find_thread_lookup g1 id t Ht) as (th' & Hth' & Hidth). assert (th' = th) as -> by congruence.
  destruct Hy as ((Hyid & Hyth & _) & Hyn & Hys & Hyc).
  eexists _, t, (mk_thread (th_id th) (Some (run_id y))). rewrite Hr4, Hth4. split_and!; [exact Hr3|..]; cbn; try congruence.
  - by rewrite Hyc.
  - unfold turbo_state_graph_find_thread in *. rewrite ?Hth4, Hth3, Hth2.
    eapply index_of_prefix; [|exact Ht]. intros j v Hj. destruct (decide (t = j)) as [<-|Hne].
    + rewrite !list_lookup_alter_eq, Hj. by eexists.
    + rewrite !list_lookup_alter_ne, Hj by done. by eexists.
  - by rewrite !list_lookup_alter_eq, Hth3, Hth2, Hth.
Qed.

End launched.

Section seamless.
Context {W J : Type} `{JsonSetters J, !JsonMembers J, !JsonHeight J, !JsonLaws J, !JsonNewLaws J,
  !JsonRecordLaws J}.

Abbreviation graph := (state_graph (W := W) (J := J)).

Lemma launched_stands bound r id start (g : graph) n : launched id start r g ->
  inv bound 0 (eq r) (fun _ => False) g n g ->
  exists x, runs g !! r = Some x /\ run_current_node x = Some start /\ run_steps x = 0 /\
    stands r (run_id x) start 0 (turbo_state_graph_find_history g (run_latest x)) g.
Proof.
  intros (x & t & th & Hx & Hid & Hn & Hs & Hc & Ht & Hth & Hcur) Hinv. exists x. split_and!; [done..|].
  split; [exists x; split_and!; try done; exists t, th; by rewrite Hid|].
  unfold turbo_state_graph_find_run. pose proof (issued_nodup _ _ _ (wf_run_ids _ _ (proj1 Hinv))) as Hnd.
  destruct (index_of _ (runs g)) as [j|] eqn:Hj.
  - apply index_of_lookup in Hj as (y & Hy & Heq%bool_decide_eq_true).
    by rewrite (nodup_lookup run_id _ _ _ _ _ Hnd Hy Hx Heq).
  - eapply index_of_none, Forall_lookup_1 in Hj; [|exact Hx]. by rewrite bool_decide_eq_false in Hj.
Qed.

Lemma marked_same r c (g : graph) : (forall x, runs g !! r = Some x -> run_interrupted x = c) -> marked r c g = g.
Proof.
  intros Hc. assert (Hl : alter (flagged c) r (runs g) = runs g).
  { apply list_eq. intros i. destruct (decide (r = i)) as [<-|Hne]; [|by rewrite list_lookup_alter_ne].
    rewrite list_lookup_alter_eq. destruct (runs g !! r) as [x|]; [|done]. cbn. f_equal.
    rewrite <- (Hc x eq_refl). by destruct x. }
  destruct g. unfold marked, update_run, set_runs. cbn in *. by rewrite Hl.
Qed.

(** The execution of a launched run is its loop. *)
Lemma execute_launched fuel r opt start x (g : graph) w :
  (match start_node opt with Some n => Some n | None => Some start end) = Some start ->
  runs g !! r = Some x -> run_current_node x = Some start -> run_steps x = 0 ->
  turbo_state_graph_execute_run fuel r (Some opt) g w [] =
  run_loop fuel r (Some opt) start 0 (skip_initial_interrupt opt)
    (turbo_state_graph_find_history g (run_latest x)) g w [].
Proof.
  intros Hstart Hx Hn Hs. unfold turbo_state_graph_execute_run. erewrite bind_at; [|done].
  erewrite bind_at; [|by apply current_at]. cbn [mbind option_bind]. rewrite Hn, Hs. cbn zeta. by rewrite Hstart.
Qed.

(** C13. Interrupts do not change what an execution comes to: when a start on a named
    thread is interrupted and the host resumes the run every time it is, past the
    point it stopped at, the last answer, the world and the graph, with all state
    and history, are those of the same start without interrupt points, but for the
    interrupted flag of the run.  Memory does not run out, nodes send at most
    [bound] updates, and there are identifiers left. *)
Theorem state_graph_interrupts_seamless bound opt fuel n id input (g : graph) w a g1 w1 last : id <> EmptyString ->
  graph_wf bound g -> silent g -> room (2 + (fuel + n) * node_records bound) g ->
  call (turbo_state_graph_start fuel (Some id) input (Some opt)) g w [] = (Some a, g1, w1, []) ->
  resumed_until opt n (a, g1, w1) last ->
  exists fuel' r c, call (turbo_state_graph_start fuel' (Some id) input (Some (uninterrupted opt))) g w [] =
    (Some last.1.1, marked r c last.1.2, last.2, []).
Proof.
  intros Hid Hwf Hsil Hroom Hcall Hu. unfold call in Hcall. rewrite start_launches in Hcall.
  unfold mbind at 1, sg_bind in Hcall. cbn beta in Hcall.
  pose proof (wp0_launch id input (Some opt) g Hid w) as Hl.
  assert (Hinv : inv bound 0 nothing (asked_thread g (Some id)) g (2 + (fuel + n) * node_records bound) g).
  { split_and!; [done|apply sg_extends_refl|rewrite Nat.add_0_r; apply Hroom..]. }
  pose proof (wp_launches bound 0 ((fuel + n) * node_records bound) g (Some id) input (Some opt)
    (fun _ g' => inv bound 0 nothing (asked_thread g (Some id)) g ((fuel + n) * node_records bound) g')
    Hinv (fun _ _ Hi _ => Hi) w []) as Hwp.
  assert (Hplain : forall f, call (turbo_state_graph_start f (Some id) input (Some (uninterrupted opt))) g w [] =
    call (launch (Some id) input (Some opt) ≫= fun r =>
      turbo_state_graph_execute_run f r (Some (uninterrupted opt))) g w []).
  { intros f. unfold call. by rewrite start_launches. }
  destruct (launch (Some id) input (Some opt) g w []) as [[[[r|x] g'] w'] o'] eqn:Hlaunch.
  - destruct Hl as (-> & -> & start & Hstart & Hla).
    assert (Hnodes : nodes g' = nodes g) by (by eapply inv_nodes).
    assert (Hinv' := inv_base _ _ _ _ (eq r) (fun _ => False) _ _ _ Hwp).
    destruct (launched_stands bound r id start g' _ Hla Hinv') as (x & Hx & Hn & Hs & Hst).
    assert (Hso : match start_node opt with Some n => Some n | None => Some start end = Some start).
    { cbn in Hstart. by destruct (start_node opt). }
    rewrite (execute_launched _ _ _ _ _ _ _ Hso Hx Hn Hs) in Hcall.
    destruct (loop_resumed bound r opt (run_id x) n a g1 w1 last fuel start 0 (skip_initial_interrupt opt)
      (turbo_state_graph_find_history g' (run_latest x)) g' w
      (run_interrupted x) Hu) as (fuel' & c & Hc); [|exact Hcall|].
    { split_and!; [by eapply silent_nodes|done|exact Hinv']. }
    rewrite marked_same in Hc by congruence.
    exists fuel', r, c. rewrite Hplain. unfold call. rewrite (bind_at _ _ _ _ _ _ _ _ _ Hlaunch).
    by rewrite (execute_launched fuel' r (uninterrupted opt) start x g' w Hso Hx Hn Hs).
  - destruct Hl as (-> & -> & Hres). injection Hcall as -> -> ->.
    rewrite (until_ends _ _ _ _ _ _ Hu) by (intros ? (res & Hres' & _); congruence).
    exists 0%nat, (length (runs g1)), false. rewrite Hplain. unfold call, mbind, sg_bind. rewrite Hlaunch.
    rewrite marked_same; [done|]. intros y Hy. apply lookup_lt_Some in Hy. by apply Nat.lt_irrefl in Hy.
Qed.

End seamless.
