(* ===== verification/StateGraphRuns.v ===== *)
(** * State graphs: concrete runs (src/runtime/src/turbo_state_graph.c)

    The theorems on state graphs at a graph with channels, nodes and edges. *)

From S2P Require Import Prelude RuntimeJson JsonBuild JsonMem JsonRecord StateGraph StateGraphApi StateGraphTypes StateGraphFacts StateGraphOps StateGraphSafe StateGraphRun StateGraphResume StateGraphSeamless.

#[local] Open Scope string_scope.
#[local] Open Scope list_scope.
#[local] Open Scope Z_scope.

(** ** Heights of JSON trees *)

Module JsonHeightTree.
Import JsonTree.

Fixpoint height (j : jtree) : nat :=
  match j with
  | JArr l => S (list_max (map height l))
  | JObj l => S (list_max (map (fun kv => height (snd kv)) l))
  | _ => O
  end.

#[export] Instance jtree_height : JsonHeight jtree.
Proof.
  refine {| json_height := height |}. intros [] k v; cbn; try done.
  induction l as [|[k' v'] l IH]; cbn; [done|]. case_decide; [intros [= ->]; lia|].
  intros Hv%IH. unfold list_max in Hv. lia.
Defined.

End JsonHeightTree.

Module StateGraphDemo.
Import JsonTree JsonNew JsonRecordTree JsonHeightTree.

(** The world counts the nodes that ran. *)
Abbreviation graph := (state_graph (W := nat) (J := jtree)).
Abbreviation op := (operation (W := nat) (J := jtree)).

Definition says (key : string) (value : jtree) : node_fn (W := nat) (J := jtree) := fun ctx w o =>
  (0, mk_ctx (ctx_state ctx) (json_object_add (ctx_update ctx) key value) (ctx_current_node ctx)
        (ctx_next_node ctx) (ctx_sends ctx) (ctx_send_capacity ctx) (ctx_step ctx) (ctx_stop ctx), S w, o).

(** A node that also sends an update to another. *)
Definition sends (target key : string) (value : jtree) : node_fn (W := nat) (J := jtree) := fun ctx w o =>
  (0, mk_ctx (ctx_state ctx) (ctx_update ctx) (ctx_current_node ctx) (ctx_next_node ctx)
        [mk_send target (JObj [(key, value)])] 1 (ctx_step ctx) (ctx_stop ctx), S w, o).

Definition channel (reducer : turbo_state_graph_reducer_kind) (kind : json_kind) :=
  Some (mk_channel_config (J := jtree) reducer kind None None).

Definition building : list op :=
  [op_add_channel (Some "log") (channel TURBO_STATE_GRAPH_REDUCER_APPEND JSON_STRING);
   op_add_channel (Some "total") (channel TURBO_STATE_GRAPH_REDUCER_ADD JSON_NUMBER);
   op_add_node (Some "plan") (Some (says "log" (JStr "planned")));
   op_add_node (Some "act") (Some (sends "note" "total" (json_create_number (DFinite 2 0))));
   op_add_node (Some "note") (Some (says "log" (JStr "noted")));
   op_add_edge (Some "plan") (Some "act") None;
   op_set_entry (Some "plan")].

Definition limit (interrupts : list (option string)) : run_options := mk_options 10 None interrupts false.

Definition running : list op :=
  [op_start 11 (Some "t") (Some (JObj [("log", JStr "asked")])) (Some (limit [Some "act"]));
   op_update_state (Some "run-1") (Some (JObj [("log", JStr "approved")])) None;
   op_fork_from_history 11 (Some "history-2") None None (Some (limit []));
   op_resume 11 (Some "run-1") (Some (going_on (limit [])))].

Definition empty_graph : graph := mk_graph (Some "demo") None [] 0 [] 0 [] 0 [] 0 [] 0 [] 0 0 0 0 0.
Definition final : graph := host_graph (performed running (performed building (empty_graph, 0%nat, []))).

Example demo_history : map (fun h => (he_id h, he_run_id h, he_last_node h, he_step h)) (history final) =
  [("history-1", "run-1", None, 0); ("history-2", "run-1", Some "plan", 1);
   ("history-3", "run-1", Some "host_update", 1); ("history-4", "run-2", None, 1);
   ("history-5", "run-2", None, 2); ("history-6", "run-2", Some "note", 2);
   ("history-7", "run-2", Some "act", 2); ("history-8", "run-1", None, 2);
   ("history-9", "run-1", Some "note", 2); ("history-10", "run-1", Some "act", 2)].
Proof. vm_compute. reflexivity. Qed.

Lemma says_quiet name key value : sends_at_most 1 (mk_node name (says key value)).
Proof. intros ctx w o Hs. cbn. rewrite Hs. cbn. lia. Qed.

Lemma sends_one name target key value : sends_at_most 1 (mk_node name (sends target key value)).
Proof. intros ctx w o _. done. Qed.

Lemma demo_ok : Forall (operation_ok 1) (building ++ running).
Proof. repeat (apply Forall_cons; split; [first [exact I|apply says_quiet|apply sends_one]|]). by apply Forall_nil. Qed.

Lemma demo_cost : Z.of_nat (total_cost 1 (building ++ running)) < 2 ^ 64.
Proof. by vm_compute. Qed.

Lemma state_graph_sound_witness : length (history final) = 10%nat /\ NoDup (he_id <$> history final) /\
  grows (host_graph (performed building (empty_graph, 0%nat, []))) final.
Proof.
  split; [by vm_compute|].
  destruct (state_graph_sound 1 (Some "demo") [] [] 0%nat empty_graph building running eq_refl demo_ok demo_cost)
    as (_ & (_ & Hnd & _) & Hg).
  split; [exact Hnd|exact Hg].
Defined.

(** The graph whose first run waits before [act]. *)
Definition waiting : graph := host_graph (performed (take 2 running) (performed building (empty_graph, 0%nat, []))).

Lemma waiting_wf : graph_wf 1 waiting /\ room 35 waiting.
Proof.
  assert (Heq : waiting = host_graph (performed (building ++ take 2 running) (empty_graph, 0%nat, [])))
    by (unfold waiting, performed; by rewrite foldl_app).
  rewrite Heq.
  assert (Hwf : graph_wf 1 empty_graph) by (by eapply (new_graph_wf 1 (Some "demo") [])).
  assert (Hok : Forall (operation_ok 1) (building ++ take 2 running)) by exact (Forall_take _ 9%nat _ demo_ok).
  assert (Hroom : room (total_cost 1 (building ++ take 2 running) + 35) empty_graph) by (by split; vm_compute).
  destruct (operations_step 1 _ 35 (empty_graph, 0%nat, []) Hok Hwf Hroom) as (Hw & Hr & _).
  split; [exact Hw|exact Hr].
Qed.

Definition forking : op := op_fork_from_history 11 (Some "history-2") None None (Some (limit [])).
Definition forked : graph := host_graph (perform forking (waiting, 0%nat, [])).

Lemma forking_room : room (cost 1 forking) waiting.
Proof. exact (proj2 waiting_wf). Qed.

Lemma waiting_run : is_Some (runs waiting !! 0%nat) /\ is_Some (threads waiting !! 0%nat).
Proof. split; apply lookup_lt_is_Some; by vm_compute. Qed.

(** A fork of the first run leaves the first run as it is. *)
Lemma state_graph_isolated_witness :
  length (runs forked) = 2%nat /\ runs forked !! 0%nat = runs waiting !! 0%nat /\
  threads forked !! 0%nat = threads waiting !! 0%nat.
Proof.
  split; [by vm_compute|].
  destruct (state_graph_isolated 1 forking waiting 0%nat [] eq_refl (proj1 waiting_wf) forking_room)
    as (_ & _ & Hr & Ht).
  destruct waiting_run as [[x Hx] [t Hth]]. rewrite Hx, Hth.
  split; [exact (proj1 (Hr 0%nat x Hx (fun n => n)))|exact (Ht 0%nat t Hth (fun n => n))].
Defined.

Lemma state_graph_terminates_witness :
  (call (turbo_state_graph_start 11 (Some "t") None (Some (limit []))) waiting 0%nat []).1.1.1 <> None.
Proof.
  apply (proj1 (state_graph_terminates 11 (limit []) waiting ltac:(by split; vm_compute))). by vm_compute.
Defined.

(** A start that is interrupted before [act], and the resume of its run. *)
Definition demo : graph := host_graph (performed building (empty_graph, 0%nat, [])).
Definition pausing : run_options := limit [Some "act"].
Definition nobody : sg_return (J := jtree) := mk_return TURBO_STATE_GRAPH_ERROR None None.

Abbreviation first_call := (call (turbo_state_graph_start 11 (Some "t") None (Some pausing)) demo 0%nat []).
Abbreviation second_call := (call (turbo_state_graph_resume 11 (Some "run-1") (Some (going_on pausing)))
  first_call.1.1.2 first_call.1.2 []).
Definition paused_answer : sg_return := default nobody first_call.1.1.1.
Definition last_answer : sg_return := default nobody second_call.1.1.1.

(** A call that answers with memory left. *)
Lemma call_is (c : option (sg_return (J := jtree)) * graph * nat * oracle) a :
  c.1.1.1 = Some a -> c.2 = [] -> exists g w, c = (Some a, g, w, []).
Proof. destruct c as [[[x g'] w'] o]. cbn. intros -> ->. by exists g', w'. Qed.

Lemma first_call_is : exists g w, first_call = (Some paused_answer, g, w, []).
Proof. apply call_is; by vm_compute. Qed.

Lemma second_call_is : exists g w, second_call = (Some last_answer, g, w, []).
Proof. apply call_is; by vm_compute. Qed.

Lemma paused_tells : tells_interrupt paused_answer "run-1".
Proof. eexists. split; [by vm_compute|]. by vm_compute. Qed.

Lemma last_tells id : ~ tells_interrupt last_answer id.
Proof.
  intros (res & Hres & Hst & _).
  assert (Hl : res_status <$> ret_result last_answer = Some TURBO_STATE_GRAPH_OK) by (by vm_compute).
  rewrite Hres in Hl. cbn in Hl. congruence.
Qed.

Lemma demo_silent : silent demo.
Proof. repeat (apply Forall_cons; split; [by intros ctx w|]). by apply Forall_nil. Qed.

Lemma demo_graph_wf : graph_wf 1 demo /\ room 68 demo.
Proof.
  assert (Hwf : graph_wf 1 empty_graph) by (by eapply (new_graph_wf 1 (Some "demo") [])).
  assert (Hok : Forall (operation_ok 1) building) by exact (Forall_take _ 7%nat _ demo_ok).
  assert (Hroom : room (total_cost 1 building + 68) empty_graph) by (by split; vm_compute).
  destruct (operations_step 1 _ 68 (empty_graph, 0%nat, []) Hok Hwf Hroom) as (Hw & Hr & _).
  split; [exact Hw|exact Hr].
Qed.

Lemma second_call_after g w : first_call = (Some paused_answer, g, w, []) ->
  exists g2 w2, call (turbo_state_graph_resume 11 (Some "run-1") (Some (going_on pausing))) g w [] =
    (Some last_answer, g2, w2, []).
Proof.
  intros H1. destruct second_call_is as (g2 & w2 & H2).
  assert (Hg : first_call.1.1.2 = g) by (by rewrite H1). assert (Hw : first_call.1.2 = w) by (by rewrite H1).
  rewrite Hg, Hw in H2. by exists g2, w2.
Qed.

Lemma demo_resumed : exists g w last, first_call = (Some paused_answer, g, w, []) /\
  resumed_until pausing 11 (paused_answer, g, w) last /\ ret_status last.1.1 = TURBO_STATE_GRAPH_OK.
Proof.
  destruct first_call_is as (g & w & H1). destruct (second_call_after g w H1) as (g2 & w2 & H2).
  exists g, w, (last_answer, g2, w2). split; [exact H1|]. split; [|by vm_compute].
  exact (until_resumed pausing "run-1" 11 0 paused_answer g w last_answer g2 w2 _ paused_tells H2
    (until_done pausing _ _ _ last_tells)).
Qed.

Lemma state_graph_interrupts_seamless_witness :
  ret_status paused_answer = TURBO_STATE_GRAPH_INTERRUPTED /\
  exists last fuel' r c, ret_status last.1.1 = TURBO_STATE_GRAPH_OK /\
    call (turbo_state_graph_start fuel' (Some "t") None (Some (uninterrupted pausing))) demo 0%nat [] =
    (Some last.1.1, marked r c last.1.2, last.2, []).
Proof.
  split; [by vm_compute|]. destruct demo_resumed as (g & w & last & H1 & Hu & Hs). exists last.
  destruct (state_graph_interrupts_seamless (W := nat) (J := jtree) 1 pausing 11 11 "t" None demo 0%nat
    paused_answer g w last ltac:(done) (proj1 demo_graph_wf) demo_silent (proj2 demo_graph_wf) H1 Hu) as (fuel' & r & c & Hc).
  exists fuel', r, c. split; [exact Hs|exact Hc].
Defined.

End StateGraphDemo.
