(* ===== verification/StateGraphSnapshot.v ===== *)
(** * Snapshots of a state graph read back (src/runtime/src/turbo_state_graph.c)

    What a snapshot holds, as documents with their members in order, that
    serialization builds exactly them, and what loading makes of the text in a
    graph of the same topology and in any other. *)

From stdpp Require Import pretty.
From S2P Require Import Prelude RuntimeJson JsonBuild JsonMem JsonRecord StateGraph StateGraphApi StateGraphTypes StateGraphFacts StateGraphRuns.

#[local] Open Scope string_scope.
#[local] Open Scope list_scope.
#[local] Open Scope Z_scope.

(** ** Memory that may run out *)

Lemma alloc_all_ample n : forall o, plenty o -> (alloc_all n o).1 = true /\ plenty (alloc_all n o).2.
Proof.
  induction n as [|n IH]; intros o Ho; [done|]. cbn.
  destruct (alloc_ample o Ho) as [Ha Hp]. destruct (alloc o) as [a o1]. cbn in Ha, Hp. subst a.
  destruct (IH o1 Hp) as [Hb Hq]. by destruct (alloc_all n o1) as [b o2].
Qed.

Lemma builds_all_created n : builds (all_created n) tt.
Proof.
  intros o. unfold all_created. pose proof (alloc_all_ample n o) as Ho.
  destruct (alloc_all n o) as [[] o']; cbn in *.
  - split; [by left|]. intros Hp. by destruct (Ho Hp).
  - split; [by right|]. intros Hp. by destruct (Ho Hp).
Qed.

(** An import: an answer that satisfies [Q], or the report of exhausted memory. *)
Definition imports {A} (m : em A) (Q : A -> Prop) : Prop := forall o,
  ((exists x, (m o).1 = inl x /\ Q x) \/ (m o).1 = inr TURBO_STATE_GRAPH_OUT_OF_MEMORY) /\
  (plenty o -> (exists x, (m o).1 = inl x) /\ plenty (m o).2).

Lemma imports_ret {A} (x : A) (Q : A -> Prop) : Q x -> imports (mret x) Q.
Proof. intros HQ o. split; [left|]; eauto. Qed.

Lemma imports_found {A} (x : A) st (Q : A -> Prop) : Q x -> imports (em_found (Some x) st) Q.
Proof. apply imports_ret. Qed.

Lemma imports_bind {A B} (m : em A) (k : A -> em B) P (Q : B -> Prop) :
  imports m P -> (forall x, P x -> imports (k x) Q) -> imports (m ≫= k) Q.
Proof.
  intros Hm Hk o. destruct (Hm o) as [Hr Hp]. unfold mbind, em_bind.
  destruct (m o) as [[x|st] o1]; cbn in Hr, Hp.
  - destruct Hr as [(y & [= <-] & HP)|?]; [|done]. destruct (Hk x HP o1) as [Hr2 Hp2].
    split; [exact Hr2|]. intros Ho. by apply Hp2, Hp.
  - destruct Hr as [(? & ? & _)|[= ->]]; [done|]. split; [by right|]. intros Ho. by destruct (Hp Ho) as [[? ?] _].
Qed.

Lemma imports_mem {A} (m : mem A) x (Q : A -> Prop) : builds m x -> Q x -> imports (em_mem m) Q.
Proof.
  intros Hm HQ o. destruct (Hm o) as [Hr Hp]. unfold em_mem. destruct (m o) as [r o1]. cbn in Hr, Hp.
  destruct Hr as [-> | ->]; cbn.
  - split; [left; by exists x|]. intros Ho. split; [by exists x|]. by apply Hp.
  - split; [by right|]. intros Ho. by destruct (Hp Ho).
Qed.

Lemma imports_reserve capacity count (Q : Z -> Prop) : (forall n, Q n) ->
  imports (em_mem (turbo_state_graph_reserve capacity count)) Q.
Proof.
  intros HQ o. unfold em_mem, turbo_state_graph_reserve. destruct (count <=? capacity); cbn.
  { split; [left; by eexists|]. intros Ho. split; [by eexists|done]. }
  pose proof (alloc_ample o) as Ho. destruct (alloc o) as [[] o']; cbn in *.
  - split; [left; by eexists|]. intros Hp. split; [by eexists|]. by apply Ho.
  - split; [by right|]. intros Hp. by destruct (Ho Hp).
Qed.

(** ** The setters of the documents *)

Section building.
Context {J : Type} `{JsonSetters J, !JsonLaws J}.

Definition nullable (v : option string) : J :=
  match v with Some v => json_create_string v | None => json_create_null end.

Lemma set_member_adds k (v : J) : adds (set_member k v) (k, v).
Proof.
  intros obj o Hty. unfold set_member, turbo_runtime_json_object_set. rewrite bool_decide_eq_true_2 by done.
  cbn [negb]. pose proof (alloc_ample o) as Ho. destruct (alloc o) as [[] o1]; cbn in Ho |- *.
  - split; [done|]. intros Hp. split; [done|]. by apply Ho.
  - split; [done|]. intros Hp. by destruct (Ho Hp).
Qed.

Lemma set_json_clone_adds k (v : J) : adds (set_clone k v) (k, json_clone v).
Proof. apply (set_constructed_adds k (json_clone v)). Qed.

Lemma set_nullable_string_adds k v : adds (set_nullable_string k v) (k, nullable v).
Proof.
  intros obj o Hty. unfold set_nullable_string.
  pose proof (alloc_ample o) as Ho. destruct (alloc o) as [[] o1]; cbn in Ho.
  - pose proof (set_member_adds k (nullable v) obj o1 Hty) as Ha.
    destruct (set_member k (nullable v) (Some obj) o1) as [[st obj'] o2] eqn:E.
    unfold set_member, nullable in E. rewrite E. destruct Ha as [Hok Hp].
    split; [exact Hok|]. intros Hpl. by apply Hp, Ho.
  - split; [done|]. intros Hp. by destruct (Ho Hp).
Qed.

Lemma append_builds (a v : J) : json_type a = JSON_ARRAY -> builds (append a v) (json_array_add a v).
Proof.
  intros Hty o. unfold append, turbo_runtime_json_array_append. rewrite bool_decide_eq_true_2 by done.
  cbn [negb]. pose proof (alloc_ample o) as Ho. destruct (alloc o) as [[] o1]; cbn in Ho |- *.
  - split; [by left|]. intros Hp. split; [done|]. by apply Ho.
  - split; [by right|]. intros Hp. by destruct (Ho Hp).
Qed.

(** One appended document per element. *)
Lemma append_each_builds {A} (m : A -> mem J) (f : A -> J) (l : list A) :
  (forall x, x ∈ l -> builds (m x) (f x)) ->
  builds (mem_fold (fun a x => append_object (m x) a) l json_create_array) (array_of (f <$> l)).
Proof.
  intros Hm. unfold array_of. pose proof json_type_array as Ha. revert Ha. generalize (json_create_array (J := J)).
  induction l as [|x l IH]; intros a Ha; cbn [mem_fold]; [apply builds_ret|].
  rewrite fmap_cons. cbn [foldl]. eapply builds_bind.
  - eapply builds_bind; [apply Hm; by left|]. by apply append_builds.
  - apply IH; [intros y Hy; apply Hm; by right|]. by apply json_type_array_add.
Qed.

End building.

#[export] Hint Resolve set_member_adds set_json_clone_adds set_nullable_string_adds builds_all_created : builds.

(** ** What a snapshot holds *)

Section snapshot.
Context {W J : Type} `{JsonSetters J, !JsonMembers J, !JsonHeight J, !JsonLaws J, !JsonNewLaws J, !JsonRecordLaws J}.
(** The library's numbers of its kinds: the values of a C enumeration. *)
Context (kind_code : json_kind -> Z) `{!Inj (=) (=) kind_code}.
Context (kind_code_range : forall k, INT64_MIN <= kind_code k <= INT64_MAX).

Abbreviation graph := (state_graph (W := W) (J := J)).
Abbreviation run := (run_entry (J := J)).
Abbreviation entry := (history_entry (J := J)).

Definition channel_doc (c : channel_entry (J := J)) : list (string * J) :=
  [("name", json_create_string (ch_name c)); ("reducer", json_create_int64 (reducer_code (ch_reducer c)));
   ("value_kind", json_create_int64 (kind_code (ch_value_kind c))); ("description", nullable (ch_description c));
   ("default_value", json_clone (ch_default_value c))].

Definition edge_doc (g : graph) (e : edge_entry (W := W) (J := J)) : list (string * J) :=
  [("from", json_create_string (node_name_at g (from_index e)));
   ("to", json_create_string (node_name_at g (to_index e)))].

Definition topology_doc (g : graph) : list (string * J) :=
  [("graph_name", nullable (graph_name g)); ("entry_node", nullable (entry_node g));
   ("channels", array_of ((object_of ∘ channel_doc) <$> channels g));
   ("nodes", array_of ((json_create_string ∘ node_name) <$> nodes g));
   ("edges", array_of ((object_of ∘ edge_doc g) <$> edges g))].

Definition thread_doc (g : graph) (t : thread_entry) : list (string * J) :=
  [("thread_id", json_create_string (th_id t)); ("current_run_id", nullable (th_current_run_id t))] ++
  match current_state_of g t with Some s => [("current_state", json_clone s)] | None => [] end.

Definition run_doc (r : run) : list (string * J) :=
  [("run_id", json_create_string (run_id r)); ("thread_id", json_create_string (run_thread_id r));
   ("parent_run_id", nullable (run_parent_run_id r)); ("forked_from_history_id", nullable (run_forked_from r));
   ("latest_history_entry_id", nullable (run_latest r)); ("next_node", nullable (run_current_node r));
   ("status", json_create_string (turbo_state_graph_run_status_text r));
   ("steps", json_create_int64 (int64_of_size (run_steps r))); ("state", json_clone (run_state r))].

Definition history_doc (h : entry) : list (string * J) :=
  [("history_entry_id", json_create_string (he_id h)); ("checkpoint_id", json_create_string (he_checkpoint_id h));
   ("thread_id", json_create_string (he_thread_id h)); ("run_id", json_create_string (he_run_id h));
   ("source_kind", json_create_string (turbo_state_graph_source_kind_text (he_source_kind h)));
   ("source_name", nullable (he_source_name h)); ("reason", nullable (he_reason h));
   ("last_node", nullable (he_last_node h)); ("next_node", nullable (he_next_node h));
   ("step", json_create_int64 (int64_of_size (he_step h))); ("update", json_clone (he_update h));
   ("state", json_clone (he_state h)); ("checkpointable", json_create_bool true)].

Definition runtime_doc (g : graph) : list (string * J) :=
  [("next_thread_id", json_create_int64 (int64_of_size (next_thread_id g)));
   ("next_run_id", json_create_int64 (int64_of_size (next_run_id g)));
   ("next_history_id", json_create_int64 (int64_of_size (next_history_id g)));
   ("next_checkpoint_id", json_create_int64 (int64_of_size (next_checkpoint_id g)));
   ("threads", array_of ((object_of ∘ thread_doc g) <$> threads g));
   ("runs", array_of ((object_of ∘ run_doc) <$> runs g));
   ("history", array_of ((object_of ∘ history_doc) <$> history g))].

Definition snapshot_doc (g : graph) : list (string * J) :=
  [("snapshot_version", json_create_int64 turbo_state_graph_snapshot_schema_version);
   ("topology", object_of (topology_doc g)); ("runtime", object_of (runtime_doc g))].

(** *** Serialization builds it *)

Lemma more_fields_builds fs (kvs kvs' : list (string * J)) v : Forall2 adds fs kvs' ->
  v = object_of (kvs ++ kvs') -> builds (build_record fs (object_of kvs)) v.
Proof.
  intros Hfs ->. replace (object_of (kvs ++ kvs')) with (foldl add_member (object_of kvs) kvs')
    by (unfold object_of; by rewrite foldl_app).
  apply build_record_builds; [exact Hfs|apply object_of_type].
Qed.

Lemma first_fields_builds fs (kvs : list (string * J)) : Forall2 adds fs kvs ->
  builds (build_record fs json_create_object) (object_of kvs).
Proof. intros Hfs. by apply (more_fields_builds fs [] kvs). Qed.

Lemma channel_builds c : builds (turbo_state_graph_channel_object kind_code c) (object_of (channel_doc c)).
Proof. apply new_record_builds. builds_fields. Qed.

Lemma edge_builds g e : builds (edge_object g e) (object_of (edge_doc g e)).
Proof. apply new_record_builds. builds_fields. Qed.

Lemma run_builds r : builds (turbo_state_graph_run_object r) (object_of (run_doc r)).
Proof. apply new_record_builds. builds_fields. Qed.

Lemma thread_builds g t :
  builds (turbo_state_graph_thread_object t (current_state_of g t)) (object_of (thread_doc g t)).
Proof. apply new_record_builds. unfold thread_doc. destruct (current_state_of g t); cbn [app]; builds_fields. Qed.

Lemma history_builds h : builds (turbo_state_graph_history_object h) (object_of (history_doc h)).
Proof.
  eapply builds_bind; [apply builds_create|].
  eapply builds_bind; [apply first_fields_builds; builds_fields|].
  eapply builds_bind; [apply builds_create|]. eapply more_fields_builds; [builds_fields|done].
Qed.

Lemma topology_builds g : builds (turbo_state_graph_topology_snapshot kind_code g) (object_of (topology_doc g)).
Proof.
  eapply builds_bind; [apply builds_all_created|].
  eapply builds_bind; [apply first_fields_builds; builds_fields|].
  eapply builds_bind; [apply append_each_builds; intros c _; apply channel_builds|].
  eapply builds_bind; [apply append_each_builds; intros n _; apply builds_create|].
  eapply builds_bind; [apply append_each_builds; intros e _; apply edge_builds|].
  eapply more_fields_builds; [builds_fields|done].
Qed.

Lemma arrays_builds g : builds (runtime_arrays g)
  (array_of ((object_of ∘ thread_doc g) <$> threads g), array_of ((object_of ∘ run_doc) <$> runs g),
   array_of ((object_of ∘ history_doc) <$> history g)).
Proof.
  eapply builds_bind; [apply append_each_builds; intros t _; apply thread_builds|].
  eapply builds_bind; [apply append_each_builds; intros r _; apply run_builds|].
  eapply builds_bind; [apply append_each_builds; intros h _; apply history_builds|]. apply builds_ret.
Qed.

Lemma serialize_builds g : builds (turbo_state_graph_serialize_snapshot kind_code (Some g))
  (json_serialize (json_clone (object_of (snapshot_doc g)))).
Proof.
  eapply builds_bind; [apply builds_need|]. eapply builds_bind; [apply builds_all_created|].
  eapply builds_bind; [apply topology_builds|].
  eapply builds_bind; [apply first_fields_builds; builds_fields|].
  eapply builds_bind; [apply arrays_builds|]. cbv beta iota.
  eapply builds_bind; [apply first_fields_builds; builds_fields|].
  eapply builds_bind; [eapply more_fields_builds; [builds_fields|done]|].
  eapply builds_bind; [apply builds_create|]. apply builds_create.
Qed.

(** *** What a reader finds in an equivalent document *)

Lemma field_string v (kvs : list (string * J)) k s : record_is v kvs -> assoc k kvs = Some (json_create_string s) ->
  c_text s -> text_field v k = Some s.
Proof.
  intros Hv Hk Hc. destruct (record_text v kvs k s Hv Hk) as (y & Hy & Hty & Hs).
  unfold text_field, turbo_runtime_json_value_as_string, json_c_text.
  by rewrite Hy, bool_decide_eq_true_2, Hs, Hc by done.
Qed.

Lemma field_nullable v (kvs : list (string * J)) k x : record_is v kvs -> assoc k kvs = Some (nullable x) ->
  c_text_if x -> text_field v k = x.
Proof.
  intros Hv Hk Hc. destruct x as [s|]; [by eapply field_string|].
  destruct (record_member v kvs k _ Hv Hk) as (y & Hy & He). unfold text_field. rewrite Hy. cbn.
  rewrite bool_decide_eq_false_2; [done|]. rewrite (json_type_proper _ _ He). cbn. by rewrite json_type_null.
Qed.

Lemma field_array v (kvs : list (string * J)) k l : record_is v kvs -> assoc k kvs = Some (array_of l) ->
  exists y, json_object_get v k = Some y /\ json_type y = JSON_ARRAY /\ Forall2 json_equiv (json_array_items y) l.
Proof.
  intros Hv Hk. destruct (record_member v kvs k _ Hv Hk) as (y & Hy & He).
  destruct (array_of_spec l) as [Ht Hi]. exists y. split; [done|].
  rewrite (json_type_proper _ _ He). split; [done|]. rewrite <- Hi. by apply json_items_proper.
Qed.

Lemma size_there_and_back n : 0 <= n < 2 ^ 64 ->
  u64 (int64_of_size n) = n /\ INT64_MIN <= int64_of_size n <= INT64_MAX.
Proof.
  intros Hn. unfold u64, int64_of_size, INT64_MIN, INT64_MAX. destruct (Z.ltb_spec n (2 ^ 63)).
  - rewrite Z.mod_small by lia. lia.
  - split; [|lia]. replace (n - 2 ^ 64) with (n + (-1) * 2 ^ 64) by lia. by rewrite Z.mod_add, Z.mod_small by lia.
Qed.

Lemma field_size v (kvs : list (string * J)) k n : record_is v kvs ->
  assoc k kvs = Some (json_create_int64 (int64_of_size n)) -> 0 <= n < 2 ^ 64 -> size_field v k = n.
Proof.
  intros Hv Hk Hn. destruct (size_there_and_back n Hn) as [Hback Hrange].
  unfold size_field, number_field. by rewrite (record_number v kvs k _ 0 Hv Hk Hrange).
Qed.

Lemma field_value v (kvs : list (string * J)) k x : record_is v kvs -> assoc k kvs = Some (json_clone x) ->
  exists y, json_object_get v k = Some y /\ json_equiv (json_clone y) x.
Proof.
  intros Hv Hk. destruct (record_member v kvs k _ Hv Hk) as (y & Hy & He). exists y. split; [done|].
  by rewrite !json_clone_equiv in *.
Qed.

(** *** Entries read back

    Identifiers, names and reasons are C strings, which hold no NUL. *)

Definition thread_texts (t : thread_entry) : Prop := c_text (th_id t) /\ c_text_if (th_current_run_id t).

Definition run_texts (r : run) : Prop :=
  c_text (run_id r) /\ c_text (run_thread_id r) /\ c_text_if (run_parent_run_id r) /\
  c_text_if (run_forked_from r) /\ c_text_if (run_latest r) /\ c_text_if (run_current_node r).

Definition entry_texts (h : entry) : Prop :=
  (c_text (he_id h) /\ c_text (he_checkpoint_id h) /\ c_text (he_thread_id h) /\ c_text (he_run_id h)) /\
  c_text_if (he_source_name h) /\ c_text_if (he_reason h) /\ c_text_if (he_last_node h) /\
  c_text_if (he_next_node h).

Definition structure_texts (g : graph) : Prop :=
  Forall (fun c => c_text (ch_name c)) (channels g) /\ Forall (fun n => c_text (node_name n)) (nodes g).

#[export] Instance run_texts_dec (r : run) : Decision (run_texts r).
Proof. unfold run_texts. apply _. Defined.
#[export] Instance entry_texts_dec (h : entry) : Decision (entry_texts h).
Proof. unfold entry_texts. apply _. Defined.
#[export] Instance thread_texts_dec t : Decision (thread_texts t).
Proof. unfold thread_texts. apply _. Defined.
#[export] Instance structure_texts_dec (g : graph) : Decision (structure_texts g).
Proof. unfold structure_texts. apply _. Defined.

Lemma status_c_text (r : run) : c_text (turbo_state_graph_run_status_text r).
Proof. unfold turbo_state_graph_run_status_text. by destruct (run_completed r), (run_interrupted r). Qed.

Lemma source_kind_c_text k : c_text (turbo_state_graph_source_kind_text k).
Proof. by destruct k. Qed.

Lemma name_at_c_text g i : structure_texts g -> c_text (node_name_at g i).
Proof.
  intros [_ Hn]. unfold node_name_at. destruct (nodes g !! i) as [n|] eqn:E; [|done].
  exact (Forall_lookup_1 _ _ _ _ Hn E).
Qed.

(** Equal but for values, which are equivalent. *)
Definition run_reads (x y : run) : Prop :=
  (run_id x = run_id y /\ run_thread_id x = run_thread_id y /\ run_parent_run_id x = run_parent_run_id y /\
   run_forked_from x = run_forked_from y) /\
  (run_latest x = run_latest y /\ run_current_node x = run_current_node y /\ run_steps x = run_steps y) /\
  (run_interrupted x = run_interrupted y /\ run_completed x = run_completed y) /\
  json_equiv (run_state x) (run_state y).

Definition entry_reads (x y : entry) : Prop :=
  (he_id x = he_id y /\ he_checkpoint_id x = he_checkpoint_id y /\ he_thread_id x = he_thread_id y /\
   he_run_id x = he_run_id y) /\
  (he_source_kind x = he_source_kind y /\ he_source_name x = he_source_name y /\ he_reason x = he_reason y) /\
  (he_last_node x = he_last_node y /\ he_next_node x = he_next_node y /\ he_step x = he_step y) /\
  json_equiv (he_update x) (he_update y) /\ json_equiv (he_state x) (he_state y).

Lemma thread_reads_back g t v : record_is v (thread_doc g t) -> thread_texts t ->
  exists n, parse_thread v = Some (t, n).
Proof.
  intros Hv [Hcid Hccur]. assert (Hid : text_field v "thread_id" = Some (th_id t)).
  { eapply field_string; [exact Hv| |exact Hcid]. unfold thread_doc. by destruct (current_state_of g t). }
  assert (Hcur : text_field v "current_run_id" = th_current_run_id t).
  { eapply field_nullable; [exact Hv| |exact Hccur]. unfold thread_doc. by destruct (current_state_of g t). }
  unfold parse_thread. rewrite Hid, Hcur. cbn. destruct t as [id current]. by eexists.
Qed.

Lemma run_reads_back r v : record_is v (run_doc r) -> run_texts r -> 0 <= run_steps r < 2 ^ 64 ->
  (run_interrupted r = true -> run_completed r = false) ->
  exists r' n, parse_run v = Some (r', n) /\ run_reads r' r.
Proof.
  intros Hv (Ht1 & Ht2 & Ht3 & Ht4 & Ht5 & Ht6) Hn Hflags.
  destruct (field_value v _ "state" _ Hv eq_refl) as (y & Hy & He).
  pose proof (fun k s Hk => field_string v (run_doc r) k s Hv Hk) as Hs.
  pose proof (fun k x Hk => field_nullable v (run_doc r) k x Hv Hk) as Hx.
  unfold parse_run.
  rewrite (Hs "run_id" _ eq_refl Ht1), (Hs "thread_id" _ eq_refl Ht2), (Hx "parent_run_id" _ eq_refl Ht3),
    (Hx "forked_from_history_id" _ eq_refl Ht4), (Hx "latest_history_entry_id" _ eq_refl Ht5),
    (Hx "next_node" _ eq_refl Ht6), Hy, (Hs "status" _ eq_refl (status_c_text r)),
    (field_size v _ "steps" _ Hv eq_refl Hn).
  cbn [mbind option_bind]. eexists _, _. split; [done|].
  unfold run_reads, turbo_state_graph_run_status_text. cbn.
  split_and!; try done; destruct (run_completed r), (run_interrupted r); try done; discriminate (Hflags eq_refl).
Qed.

Lemma history_reads_back h v : record_is v (history_doc h) -> entry_texts h -> 0 <= he_step h < 2 ^ 64 ->
  exists h' n, parse_history v = Some (h', n) /\ entry_reads h' h.
Proof.
  intros Hv ((Ht1 & Ht2 & Ht3 & Ht4) & Ht5 & Ht6 & Ht7 & Ht8) Hn.
  destruct (field_value v _ "update" _ Hv eq_refl) as (u & Hu & Heu).
  destruct (field_value v _ "state" _ Hv eq_refl) as (y & Hy & Hey).
  pose proof (fun k s Hk => field_string v (history_doc h) k s Hv Hk) as Hs.
  pose proof (fun k x Hk => field_nullable v (history_doc h) k x Hv Hk) as Hx.
  unfold parse_history.
  rewrite (Hs "history_entry_id" _ eq_refl Ht1), (Hs "checkpoint_id" _ eq_refl Ht2),
    (Hs "thread_id" _ eq_refl Ht3), (Hs "run_id" _ eq_refl Ht4),
    (Hs "source_kind" _ eq_refl (source_kind_c_text _)), (Hx "source_name" _ eq_refl Ht5),
    (Hx "reason" _ eq_refl Ht6), (Hx "last_node" _ eq_refl Ht7), (Hx "next_node" _ eq_refl Ht8), Hu, Hy,
    (field_size v _ "step" _ Hv eq_refl Hn).
  cbn [mbind option_bind]. eexists _, _. split; [done|]. unfold entry_reads. cbn.
  split_and!; try done. by destruct (he_source_kind h).
Qed.

Lemma entries_import {E} (parse : J -> option (E * nat)) (R : E -> E -> Prop) (docs : list J) (l : list E) y :
  json_type y = JSON_ARRAY -> Forall2 json_equiv (json_array_items y) docs ->
  Forall2 (fun d e => forall v, json_equiv v d -> exists e' n, parse v = Some (e', n) /\ R e' e) docs l ->
  imports (import_entries parse y) (fun s => Forall2 R s.1 l).
Proof.
  intros Hty Hitems Hread. unfold import_entries. rewrite bool_decide_eq_true_2 by done.
  assert (Hgo : forall items docs done_ l capacity l0, Forall2 json_equiv items docs ->
    Forall2 (fun d e => forall v, json_equiv v d -> exists e' n, parse v = Some (e', n) /\ R e' e) docs l ->
    Forall2 R done_ l0 ->
    imports (em_fold (import_entry parse) items (done_, capacity)) (fun s => Forall2 R s.1 (l0 ++ l)));
    [|by apply (Hgo _ docs [] l 0 [])].
  clear. intros items docs. induction items as [|v items IH] in docs |- *; intros done_ l capacity l0 Hi Hl Hd.
  - apply Forall2_nil_inv_l in Hi as ->. apply Forall2_nil_inv_l in Hl as ->.
    apply imports_ret. cbn. by rewrite app_nil_r.
  - apply Forall2_cons_inv_l in Hi as (d & docs' & Hv & Hi & ->).
    apply Forall2_cons_inv_l in Hl as (e & l' & Hp & Hl & ->).
    destruct (Hp v Hv) as (e' & n & Hpv & HR). cbn [em_fold].
    eapply (imports_bind _ _ (fun s => Forall2 R s.1 (l0 ++ [e]))).
    + unfold import_entry. rewrite Hpv. eapply (imports_bind _ _ (eq (e', n))); [by apply imports_found|].
      intros ? <-. eapply (imports_bind _ _ (fun _ => True)); [by apply imports_reserve|]. intros c _.
      eapply (imports_bind _ _ (fun _ => True)); [by eapply imports_mem; [apply builds_all_created|]|].
      intros _ _. apply imports_ret. cbn. by apply Forall2_app; [|constructor].
    + intros [d' c'] Hd'. replace (l0 ++ e :: l') with ((l0 ++ [e]) ++ l') by (by rewrite <- app_assoc).
      by apply (IH docs').
Qed.

(** *** Topologies *)

(** What a snapshot says of the structure and a load compares: channels with their
    reducers and kinds, nodes, and edges by the names of their nodes. *)
Definition topology (g : graph)
  : list (string * turbo_state_graph_reducer_kind * json_kind) * list string * list (string * string) :=
  ((fun c => (ch_name c, ch_reducer c, ch_value_kind c)) <$> channels g, node_name <$> nodes g,
   (fun e => (node_name_at g (from_index e), node_name_at g (to_index e))) <$> edges g).

Lemma all2_spec {A B C} (p : A -> B -> bool) (f f0 : B -> C) vs l : Forall2 (fun v x => forall y, p v y = true <-> f0 y = f x) vs l ->
  forall l0, all2 p vs l0 = true <-> f0 <$> l0 = f <$> l.
Proof.
  induction 1 as [|v x vs l Hv _ IH]; intros [|y l0]; cbn; try done.
  rewrite andb_true_iff, Hv, IH. split; [by intros [-> ->]|]. by intros [= -> ->].
Qed.

Lemma items_read {B} (P : J -> B -> Prop) (f : B -> J) (l : list B) vs :
  Forall2 json_equiv vs (f <$> l) -> (forall v x, x ∈ l -> json_equiv v (f x) -> P v x) -> Forall2 P vs l.
Proof.
  intros Hvs HP. rewrite Forall2_fmap_r in Hvs. apply Forall2_same_length_lookup_2.
  - by eapply Forall2_length.
  - intros i v x Hv Hx. apply HP; [by eapply list_elem_of_lookup_2|exact (Forall2_lookup_lr _ _ _ _ _ _ Hvs Hv Hx)].
Qed.

Lemma reducer_code_eq a b : reducer_code a = reducer_code b <-> a = b.
Proof. by destruct a, b. Qed.

Lemma field_number v (kvs : list (string * J)) k z d : record_is v kvs ->
  assoc k kvs = Some (json_create_int64 z) -> INT64_MIN <= z <= INT64_MAX -> number_field v k d = z.
Proof. apply record_number. Qed.

Lemma member_array v (kvs : list (string * J)) k l : record_is v kvs -> assoc k kvs = Some (array_of l) ->
  exists vs, array_member v k = Some vs /\ Forall2 json_equiv vs l.
Proof.
  intros Hv Hk. destruct (field_array v kvs k l Hv Hk) as (y & Hy & Hty & Hitems).
  unfold array_member. rewrite Hy. cbn. rewrite bool_decide_eq_true_2 by done. by eexists.
Qed.

Lemma validation_compares (g g0 : graph) v : structure_texts g -> record_is v (topology_doc g) ->
  turbo_state_graph_validate_topology_snapshot kind_code g0 v = true <-> topology g0 = topology g.
Proof.
  intros Htexts Hv. unfold turbo_state_graph_validate_topology_snapshot.
  destruct (member_array v _ "channels" _ Hv eq_refl) as (cs & -> & Hcs).
  destruct (member_array v _ "nodes" _ Hv eq_refl) as (ns & -> & Hns).
  destruct (member_array v _ "edges" _ Hv eq_refl) as (es & -> & Hes).
  rewrite !andb_true_iff.
  rewrite (all2_spec _ (fun c => (ch_name c, ch_reducer c, ch_value_kind c))
    (fun c => (ch_name c, ch_reducer c, ch_value_kind c)) cs (channels g)).
  2: { eapply items_read; [exact Hcs|]. intros d c Hc Hd c0. eapply Forall_forall in Hc; [|exact (proj1 Htexts)].
    rewrite (field_string d (channel_doc c) "name" _ Hd eq_refl Hc),
      (field_number d (channel_doc c) "reducer" _ (-1) Hd eq_refl),
      (field_number d (channel_doc c) "value_kind" _ (-1) Hd eq_refl);
      [|apply kind_code_range|by destruct (ch_reducer c)].
    rewrite !andb_true_iff, bool_decide_eq_true, !Z.eqb_eq, reducer_code_eq.
    split; [by intros [[[= ->] ->] ->%(inj kind_code)]|by intros [= -> -> ->]]. }
  rewrite (all2_spec _ node_name node_name ns (nodes g)).
  2: { eapply items_read; [exact Hns|]. intros d n Hn Hd n0. cbn in Hd |- *.
    eapply Forall_forall in Hn; [|exact (proj2 Htexts)].
    rewrite (json_type_proper _ _ Hd), json_type_string. cbn.
    rewrite (json_c_text_proper _ _ Hd), json_c_text_create, Hn, bool_decide_eq_true.
    split; [by intros [= ->]|by intros ->]. }
  rewrite (all2_spec _ (fun e => (node_name_at g (from_index e), node_name_at g (to_index e)))
    (fun e => (node_name_at g0 (from_index e), node_name_at g0 (to_index e))) es (edges g)).
  2: { eapply items_read; [exact Hes|]. intros d e _ Hd e0.
    rewrite (field_string d (edge_doc g e) "from" _ Hd eq_refl (name_at_c_text g _ Htexts)),
      (field_string d (edge_doc g e) "to" _ Hd eq_refl (name_at_c_text g _ Htexts)).
    rewrite andb_true_iff, !bool_decide_eq_true. split; [by intros [[= ->] [= ->]]|by intros [= -> ->]]. }
  unfold topology. split; [by intros [[-> ->] ->]|by intros [= -> -> ->]].
Qed.

(** *** Loading *)

Definition is_size (n : Z) : Prop := 0 <= n < 2 ^ 64.

(** What a state held in memory always is: its counters are machine words, its
    names and identifiers C strings, and no run is both interrupted and completed. *)
Record snapshot_fits (g : graph) : Prop := {
  fits_counters : is_size (next_thread_id g) /\ is_size (next_run_id g) /\ is_size (next_history_id g) /\
    is_size (next_checkpoint_id g);
  fits_structure : structure_texts g;
  fits_threads : Forall thread_texts (threads g);
  fits_runs : Forall (fun r => run_texts r /\ is_size (run_steps r) /\
    (run_interrupted r = true -> run_completed r = false)) (runs g);
  fits_history : Forall (fun h => entry_texts h /\ is_size (he_step h)) (history g)
}.

(** [g'] has the structure of [g0] and the runtime state of [g]. *)
Record restores (g0 g g' : graph) : Prop := {
  restored_structure : graph_name g' = graph_name g0 /\ entry_node g' = entry_node g0 /\
    channels g' = channels g0 /\ nodes g' = nodes g0 /\ edges g' = edges g0;
  restored_threads : threads g' = threads g;
  restored_runs : Forall2 run_reads (runs g') (runs g);
  restored_history : Forall2 entry_reads (history g') (history g);
  restored_counters : (next_thread_id g' = next_thread_id g /\ next_run_id g' = next_run_id g) /\
    next_history_id g' = next_history_id g /\ next_checkpoint_id g' = next_checkpoint_id g
}.

Lemma entries_of_docs {E} (parse : J -> option (E * nat)) (R : E -> E -> Prop) (doc : E -> list (string * J))
    (l : list E) (P : E -> Prop) y :
  json_type y = JSON_ARRAY -> Forall2 json_equiv (json_array_items y) ((object_of ∘ doc) <$> l) -> Forall P l ->
  (forall e v, P e -> record_is v (doc e) -> exists e' n, parse v = Some (e', n) /\ R e' e) ->
  imports (import_entries parse y) (fun s => Forall2 R s.1 l).
Proof.
  intros Hty Hitems HP Hread. eapply entries_import; [exact Hty|exact Hitems|].
  rewrite Forall2_fmap_l. apply Forall_Forall2_diag. eapply Forall_impl; [exact HP|].
  intros e He v. by apply Hread.
Qed.

Lemma runtime_imports (g g1 : graph) rt : record_is rt (runtime_doc g) -> snapshot_fits g ->
  exists ts rs hs, json_object_get rt "threads" = Some ts /\ json_object_get rt "runs" = Some rs /\
    json_object_get rt "history" = Some hs /\
    imports (import_runtime ts rs hs g1) (fun g' => exists a b c, g' =
      set_threads (threads g) a (set_runs (runs g') b (set_history (history g') c g1)) /\
      Forall2 run_reads (runs g') (runs g) /\ Forall2 entry_reads (history g') (history g)).
Proof.
  intros Hrt Hfits.
  destruct (field_array rt _ "threads" _ Hrt eq_refl) as (ts & Hts & Tt & Ti).
  destruct (field_array rt _ "runs" _ Hrt eq_refl) as (rs & Hrs & Rt & Ri).
  destruct (field_array rt _ "history" _ Hrt eq_refl) as (hs & Hhs & Ht & Hi).
  exists ts, rs, hs. split_and!; [done..|]. unfold import_runtime.
  eapply (imports_bind _ _ (fun s => Forall2 eq s.1 (threads g))).
  { apply (entries_of_docs _ _ (thread_doc g) _ _ ts Tt Ti (fits_threads g Hfits)).
    intros t v Ht0 Hv. destruct (thread_reads_back g t v Hv Ht0) as [n Hn]. by exists t, n. }
  intros [ts' a] Hts'. apply list_eq_Forall2 in Hts'. cbn in Hts'. subst ts'.
  eapply (imports_bind _ _ (fun s => Forall2 run_reads s.1 (runs g))).
  { apply (entries_of_docs _ _ run_doc _ _ rs Rt Ri (fits_runs g Hfits)).
    intros r v (Htx & Hn & Hf) Hv. by apply run_reads_back. }
  intros [rs' b] Hrs'.
  eapply (imports_bind _ _ (fun s => Forall2 entry_reads s.1 (history g))).
  { apply (entries_of_docs _ _ history_doc _ _ hs Ht Hi (fits_history g Hfits)).
    intros h v [Htx Hn] Hv. by apply history_reads_back. }
  intros [hs' c] Hhs'. apply imports_ret. by exists a, b, c.
Qed.

Lemma sizes_read (g : graph) rt : record_is rt (runtime_doc g) -> snapshot_fits g ->
  size_field rt "next_thread_id" = next_thread_id g /\ size_field rt "next_run_id" = next_run_id g /\
  size_field rt "next_history_id" = next_history_id g /\
  size_field rt "next_checkpoint_id" = next_checkpoint_id g.
Proof.
  intros Hrt Hfits. destruct (fits_counters g Hfits) as (Ht & Hr & Hh & Hc).
  split_and!; by (eapply field_size; [exact Hrt|done|done]).
Qed.

(** What a load may leave when it does not answer OK. *)
Definition left_after_failure (g0 g' : graph) : Prop :=
  g' = g0 \/ g' = turbo_state_graph_clear_runtime_state g0.

(** How a load tells that memory ran out: with ERROR when it was the parser that
    ran out, which the answer does not tell from a text that is no document. *)
Definition memory_lost (g0 : graph) (st : turbo_state_graph_status) (g' : graph) : Prop :=
  st = TURBO_STATE_GRAPH_OUT_OF_MEMORY /\ left_after_failure g0 g' \/
  st = TURBO_STATE_GRAPH_ERROR /\ g' = g0.

Lemma parse_builds text (v : J) : json_parse text = Some v -> builds (parse_text text) v.
Proof. intros E. unfold parse_text. rewrite E. eapply builds_bind; [apply builds_need|apply builds_create]. Qed.

Definition snapshot_of (g : graph) : string := json_serialize (json_clone (object_of (snapshot_doc g))).

Lemma snapshot_text (g : graph) : exists v, json_parse (snapshot_of g) = Some v /\
  record_is (json_clone v) (snapshot_doc g).
Proof.
  destruct (json_parse_serialize (json_clone (object_of (snapshot_doc g)))) as (v & Hv & He).
  exists v. split; [exact Hv|]. unfold record_is. by rewrite json_clone_equiv, He, json_clone_equiv.
Qed.

Lemma load_same_topology (g g0 : graph) o : snapshot_fits g -> topology g0 = topology g ->
  let '(st, g', _) := turbo_state_graph_load_snapshot kind_code g0 (Some (snapshot_of g)) o in
  (st = TURBO_STATE_GRAPH_OK /\ restores g0 g g' \/ memory_lost g0 st g') /\
  (plenty o -> st = TURBO_STATE_GRAPH_OK).
Proof.
  intros Hfits Htop. unfold turbo_state_graph_load_snapshot, memory_lost.
  destruct (snapshot_text g) as (v & Hparse & Hroot).
  pose proof (parse_builds _ v Hparse o) as [Hv Hpv].
  destruct (parse_text (snapshot_of g) o) as [parsed o0]. cbn [fst snd] in Hv, Hpv.
  destruct parsed as [v'|]; [|split; [by auto|intros Hp; by destruct (Hpv Hp)]].
  assert (v' = v) as -> by (by destruct Hv as [[= ->]|?]).
  pose proof (alloc_ample o0) as Ho.
  destruct (alloc o0) as [[] o1]; cbn [negb fst snd] in *;
    [|split; [by right; left; split; [|left]|intros Hp; by destruct (Ho (proj2 (Hpv Hp)))]].
  destruct (record_member _ _ "topology" _ Hroot eq_refl) as (tp & Htp & Ht).
  destruct (record_member _ _ "runtime" _ Hroot eq_refl) as (rt & Hrt & Hr).
  rewrite Htp, Hrt, (field_number _ _ "snapshot_version" _ 0 Hroot eq_refl) by done.
  rewrite (proj2 (validation_compares g g0 tp (fits_structure g Hfits) Ht) Htop). cbn [negb Z.eqb].
  destruct (runtime_imports g (set_counters (next_thread_id g) (next_run_id g) (next_history_id g)
    (next_checkpoint_id g) (turbo_state_graph_clear_runtime_state g0)) rt Hr Hfits)
    as (ts & rs & hs & -> & -> & -> & Himports).
  destruct (sizes_read g rt Hr Hfits) as (-> & -> & -> & ->). cbn zeta.
  replace (TURBO_STATE_GRAPH_SNAPSHOT_SCHEMA_VERSION =? _) with true by done. cbn [negb].
  destruct (Himports o1) as [Hres Hp]. destruct (import_runtime ts rs hs _ o1) as [[g'|st] o2]; cbn in Hres, Hp.
  - destruct Hres as [(x & [= <-] & a & b & c & Hg' & Hruns & Hhist)|?]; [|done].
    split; [|done]. left. split; [done|]. split; [..|by rewrite Hg'|done|done|by rewrite Hg']. by rewrite Hg'.
  - destruct Hres as [(? & ? & _)|[= ->]]; [done|]. split; [by right; left; split; [|right]|].
    intros Hpl. by destruct (Hp (proj2 (Ho (proj2 (Hpv Hpl))))) as [[? ?] _].
Qed.

Lemma load_other_topology (g g0 : graph) o : snapshot_fits g -> topology g0 <> topology g ->
  let '(st, g', _) := turbo_state_graph_load_snapshot kind_code g0 (Some (snapshot_of g)) o in
  st <> TURBO_STATE_GRAPH_OK /\ g' = g0.
Proof.
  intros Hfits Htop. unfold turbo_state_graph_load_snapshot.
  destruct (snapshot_text g) as (v & Hparse & Hroot).
  pose proof (parse_builds _ v Hparse o) as [Hv _].
  destruct (parse_text (snapshot_of g) o) as [[v'|] o0]; [|done].
  assert (v' = v) as -> by (by destruct Hv as [[= ->]|?]).
  destruct (alloc o0) as [[] o1]; cbn [negb]; [|done].
  destruct (record_member _ _ "topology" _ Hroot eq_refl) as (tp & Htp & Ht).
  destruct (record_member _ _ "runtime" _ Hroot eq_refl) as (rt & Hrt & Hr).
  rewrite Htp, Hrt. destruct (number_field _ _ _ =? _); cbn [negb]; [|done].
  destruct (turbo_state_graph_validate_topology_snapshot kind_code g0 tp) eqn:Hval; [|done].
  by apply (validation_compares g g0 tp (fits_structure g Hfits) Ht) in Hval.
Qed.

(** *** The invariant survives *)

Lemma same_shape_found (cs cs0 : list (channel_entry (J := J))) k c :
  (fun c => (ch_name c, ch_reducer c, ch_value_kind c)) <$> cs0 = (fun c => (ch_name c, ch_reducer c, ch_value_kind c)) <$> cs ->
  turbo_state_graph_find_channel cs k = Some c -> exists c0, turbo_state_graph_find_channel cs0 k = Some c0 /\
    ch_reducer c0 = ch_reducer c /\ ch_value_kind c0 = ch_value_kind c.
Proof.
  unfold turbo_state_graph_find_channel. revert cs0. induction cs as [|d cs IH]; intros [|d0 cs0]; cbn; try done.
  intros [= Hn Hr Hk Hcs]. rewrite Hn. case_bool_decide; [|by apply IH]. intros [= <-]. by exists d0.
Qed.

Lemma state_holds_reads (g g0 : graph) (s s0 : J) : topology g0 = topology g -> json_equiv s0 s ->
  state_holds (channels g) s -> state_holds (channels g0) s0.
Proof.
  intros [= Hcs _ _] He [Hty Hm]. split; [by rewrite (json_type_proper _ _ He)|]. intros k v0 Hv0.
  pose proof (json_get_proper _ _ k He) as Hg. rewrite Hv0 in Hg. inversion Hg as [? v Hv Heq|]; subst.
  destruct (Hm k v (eq_sym H1)) as (c & Hc & Hh). destruct (same_shape_found _ _ k c Hcs Hc) as (c0 & Hc0 & Hr & Hk).
  exists c0. split; [done|]. eapply holds_proper; [symmetry; exact Hv|].
  unfold holds in *. by rewrite Hr, Hk.
Qed.

Lemma reads_fmap {A B} (R : A -> A -> Prop) (f : A -> B) l l' :
  Forall2 R l' l -> (forall x y, R x y -> f x = f y) -> f <$> l' = f <$> l.
Proof. intros HR Hf. induction HR as [|x y l' l Hxy _ IH]; [done|]. cbn. by rewrite IH, (Hf x y Hxy). Qed.

Lemma reads_elem {A} (R : A -> A -> Prop) l l' x : Forall2 R l' l -> x ∈ l' -> exists y, y ∈ l /\ R x y.
Proof.
  intros HR [i Hi]%list_elem_of_lookup. destruct (Forall2_lookup_l _ _ _ _ _ HR Hi) as (y & Hy & Hxy).
  exists y. split; [by eapply list_elem_of_lookup_2|done].
Qed.

Lemma reads_elem_r {A} (R : A -> A -> Prop) l l' y : Forall2 R l' l -> y ∈ l -> exists x, x ∈ l' /\ R x y.
Proof.
  intros HR [i Hi]%list_elem_of_lookup. destruct (Forall2_lookup_r _ _ _ _ _ HR Hi) as (x & Hx & Hxy).
  exists x. split; [by eapply list_elem_of_lookup_2|done].
Qed.

Lemma run_of_reads (g g' : graph) (P : run -> Prop) : Forall2 run_reads (runs g') (runs g) ->
  (forall x y, run_reads x y -> P y -> P x) -> (exists r, r ∈ runs g /\ P r) -> exists r, r ∈ runs g' /\ P r.
Proof.
  intros HR HP (r & Hr & Hp). destruct (reads_elem_r _ _ _ r HR Hr) as (x & Hx & Hxr).
  exists x. split; [done|]. by eapply HP.
Qed.

Lemma history_of_reads (l l' : list entry) id : Forall2 entry_reads l' l ->
  he_id <$> last (filter (fun h => he_run_id h = id) l') = he_id <$> last (filter (fun h => he_run_id h = id) l).
Proof.
  intros HR. rewrite <- !fmap_last. f_equal. induction HR as [|x y l' l Hxy _ IH]; [done|].
  destruct Hxy as ((Hid & _ & _ & Hrun) & _). rewrite !filter_cons, Hrun.
  case_decide; [|done]. rewrite !fmap_cons. by f_equal.
Qed.

Lemma restored_wf bound (g g0 g' : graph) : graph_wf bound g -> graph_wf bound g0 -> topology g0 = topology g ->
  restores g0 g g' -> graph_wf bound g'.
Proof.
  intros Hwf Hwf0 Htop [(Hn & He & Hcs & Hns & Hes) Hth Hruns Hhist ((_ & Hnr) & Hnh & Hnc)].
  assert (Hst : forall s s0, json_equiv s0 s -> state_holds (channels g) s -> state_holds (channels g0) s0)
    by (intros s s0; by apply state_holds_reads).
  destruct Hwf, Hwf0.
  split; rewrite ?He, ?Hcs, ?Hns, ?Hes, ?Hth, ?Hnr, ?Hnh, ?Hnc; try done.
  - by rewrite (reads_fmap _ run_id _ _ Hruns) by (by intros x y ((? & _) & _)).
  - by rewrite (reads_fmap _ he_id _ _ Hhist) by (by intros x y ((? & _) & _)).
  - by rewrite (reads_fmap _ he_checkpoint_id _ _ Hhist) by (by intros x y ((_ & ? & _) & _)).
  - apply Forall_forall. intros h (h0 & Hh0 & ((_ & _ & Ht & Hr) & _))%(reads_elem _ _ _ _ Hhist). rewrite Ht, Hr.
    apply (run_of_reads g g'); [done| |by eapply Forall_forall in wf_history_runs].
    by intros x y ((-> & -> & _) & _).
  - apply Forall_forall. intros r (r0 & Hr0 & ((Hid & _) & (Hl & _) & _))%(reads_elem _ _ _ _ Hruns).
    rewrite Hl, Hid. unfold history_of. rewrite (history_of_reads _ _ _ Hhist).
    by eapply Forall_forall in wf_latest.
  - apply Forall_forall. intros r (r0 & Hr0 & ((_ & -> & _) & _))%(reads_elem _ _ _ _ Hruns).
    by eapply Forall_forall in wf_run_threads.
  - eapply Forall_impl; [exact wf_current|]. intros t Ht c Hc.
    apply (run_of_reads g g'); [done| |by apply Ht]. by intros x y ((-> & -> & _) & _).
  - apply Forall_forall. intros r (r0 & Hr0 & (_ & (_ & Hcn & _) & (Hi & Hc) & Hs))%(reads_elem _ _ _ _ Hruns).
    eapply Forall_forall in wf_run_states as [Hs0 Hf]; [|exact Hr0].
    split; [by eapply Hst|]. unfold flags_agree in *. by rewrite Hi, Hc, Hcn.
  - apply Forall_forall. intros h (h0 & Hh0 & (_ & _ & _ & Hu & Hs))%(reads_elem _ _ _ _ Hhist).
    eapply Forall_forall in wf_history_states as [Hs0 Hu0]; [|exact Hh0].
    split; [by eapply Hst|]. by rewrite (json_type_proper _ _ Hu).
Qed.

(** *** The contract *)

(** C17. A snapshot restores the runtime state: serialization answers a text whenever
    memory lasts, and loading that text into any graph of the same topology gives OK
    and exactly the serialized threads, runs, history and counters, values up to the
    equivalence of the library, in the structure of that graph, or, only when memory
    runs out, answers OUT_OF_MEMORY with the graph as it was or without runtime state,
    or ERROR, when it is the parser that ran out, with the graph as it was; after OK
    the invariant carries over.  Into a graph of any other topology it
    never loads, and the graph is unchanged. *)
Theorem state_graph_snapshot_roundtrip (g : graph) o : snapshot_fits g ->
  let (written, _) := turbo_state_graph_serialize_snapshot kind_code (Some g) o in
  (plenty o -> is_Some written) /\
  forall text (g0 : graph) o0, written = Some text ->
    let '(st, g', _) := turbo_state_graph_load_snapshot kind_code g0 (Some text) o0 in
    (topology g0 = topology g ->
      (st = TURBO_STATE_GRAPH_OK /\ restores g0 g g' /\
        (forall bound, graph_wf bound g -> graph_wf bound g0 -> graph_wf bound g') \/
       memory_lost g0 st g') /\
      (plenty o0 -> st = TURBO_STATE_GRAPH_OK)) /\
    (topology g0 <> topology g -> st <> TURBO_STATE_GRAPH_OK /\ g' = g0).
Proof.
  intros Hfits. pose proof (serialize_builds g o) as [Hw Hp].
  destruct (turbo_state_graph_serialize_snapshot kind_code (Some g) o) as [written o']. cbn in Hw, Hp.
  split; [intros Ho; destruct (Hp Ho) as [-> _]; by eexists|]. intros text g0 o0 ->.
  assert (text = snapshot_of g) as -> by (by destruct Hw as [[= ->]|?]).
  pose proof (load_same_topology g g0 o0 Hfits) as Hsame. pose proof (load_other_topology g g0 o0 Hfits) as Hother.
  destruct (turbo_state_graph_load_snapshot kind_code g0 (Some (snapshot_of g)) o0) as [[st g'] o1].
  split; [|exact Hother]. intros Htop. destruct (Hsame Htop) as [[[Hst Hres]|Hfail] Hpl]; (split; [|exact Hpl]).
  - left. split_and!; [done|done|]. intros bound Hwf Hwf0. exact (restored_wf bound g g0 g' Hwf Hwf0 Htop Hres).
  - by right.
Qed.

End snapshot.

(** ** A snapshot of concrete runs, loaded into the graph they started from *)

Module StateGraphSnapshotDemo.
Import JsonTree JsonNew JsonRecordTree JsonHeightTree StateGraphDemo.

Definition code (k : json_kind) : Z :=
  match k with
  | JSON_NULL => 0 | JSON_BOOL => 1 | JSON_NUMBER => 2 | JSON_STRING => 3 | JSON_ARRAY => 4 | JSON_OBJECT => 5
  end.

#[export] Instance code_inj : Inj (=) (=) code.
Proof. by intros [] []. Qed.

Lemma code_range k : INT64_MIN <= code k <= INT64_MAX.
Proof. by destruct k. Qed.

Definition fits_run (r : run_entry (J := jtree)) : bool :=
  bool_decide (run_texts r) && (0 <=? run_steps r) && (run_steps r <? 2 ^ 64) &&
  negb (run_interrupted r && run_completed r).
Definition fits_entry (h : history_entry (J := jtree)) : bool :=
  bool_decide (entry_texts h) && (0 <=? he_step h) && (he_step h <? 2 ^ 64).

Lemma final_fits : snapshot_fits final.
Proof.
  assert (Hruns : forallb fits_run (runs final) = true) by (by vm_compute).
  assert (Hhist : forallb fits_entry (history final) = true) by (by vm_compute).
  assert (Ht : next_thread_id final = 0) by (by vm_compute). assert (Hr : next_run_id final = 2) by (by vm_compute).
  assert (Hh : next_history_id final = 10) by (by vm_compute).
  assert (Hc : next_checkpoint_id final = 10) by (by vm_compute).
  split; [rewrite Ht, Hr, Hh, Hc; unfold is_size; lia| | | |].
  - apply (bool_decide_eq_true_1 (structure_texts final)). by vm_compute.
  - apply (bool_decide_eq_true_1 (Forall thread_texts (threads final))). by vm_compute.
  - apply Forall_forall. intros r Hin%list_elem_of_In. rewrite forallb_forall in Hruns.
    specialize (Hruns r Hin). unfold fits_run in Hruns.
    rewrite !andb_true_iff, bool_decide_eq_true, Z.leb_le, Z.ltb_lt in Hruns.
    destruct Hruns as [[[Htx H0] Hn] Hf]. split; [exact Htx|].
    split; [exact (conj H0 Hn)|]. intros Hi. rewrite Hi in Hf. by destruct (run_completed r).
  - apply Forall_forall. intros h Hin%list_elem_of_In. rewrite forallb_forall in Hhist.
    specialize (Hhist h Hin). unfold fits_entry in Hhist.
    rewrite !andb_true_iff, bool_decide_eq_true, Z.leb_le, Z.ltb_lt in Hhist.
    destruct Hhist as [[Htx H0] Hn]. exact (conj Htx (conj H0 Hn)).
Qed.

Lemma state_graph_snapshot_roundtrip_witness : length (history final) = 10%nat /\
  exists text g' o', (turbo_state_graph_serialize_snapshot code (Some final) []).1 = Some text /\
    turbo_state_graph_load_snapshot code demo (Some text) [] = (TURBO_STATE_GRAPH_OK, g', o') /\
    restores demo final g'.
Proof.
  split; [by vm_compute|].
  pose proof (state_graph_snapshot_roundtrip (W := nat) (J := jtree) code code_range final [] final_fits) as Hrt.
  destruct (turbo_state_graph_serialize_snapshot code (Some final) []) as [written o1].
  destruct Hrt as [[text Htext] Hload]; [apply plenty_nil|].
  specialize (Hload text demo [] Htext). exists text.
  destruct (turbo_state_graph_load_snapshot code demo (Some text) []) as [[st g'] o']. exists g', o'.
  assert (Htop : topology demo = topology final) by (by vm_compute).
  destruct Hload as [Hsame _]. destruct (Hsame Htop) as [Hres Hok].
  specialize (Hok plenty_nil). split; [exact Htext|]. split; [by rewrite Hok|].
  destruct Hres as [(_ & Hr & _)|[[Hst _]|[Hst _]]]; [exact Hr|by rewrite Hok in Hst..].
Defined.

End StateGraphSnapshotDemo.
