(* ===== verification/AgentPolicy.v ===== *)
(** * The policy of an agent (src/agent/src/turbo_agent_policy.c)

    What a model-driven call may do: paths against the workspace, capabilities
    against the grants of the host, actions by their kind; and the projection of
    a registry to the tools a policy allows
    (src/agent/src/turbo_agent_tool_authority_internal.h).

    The build is the one for systems other than Windows; [tolower] is that of the
    C locale. *)

From S2P Require Import Prelude RuntimeJson JsonBuild JsonMem Tool ToolRegistry.

#[local] Open Scope string_scope.
#[local] Open Scope list_scope.
#[local] Open Scope Z_scope.

Abbreviation chars := (list Ascii.ascii).

(** ** Paths *)

Definition slash : Ascii.ascii := Ascii.ascii_of_nat 47.
Definition backslash : Ascii.ascii := Ascii.ascii_of_nat 92.
Definition dot : Ascii.ascii := Ascii.ascii_of_nat 46.

(* src/agent/src/turbo_agent_policy.c 10-10 turbo_policy_is_path_separator *)
Definition turbo_policy_is_path_separator (ch : Ascii.ascii) : bool :=
  bool_decide (ch = slash) || bool_decide (ch = backslash).

(* src/agent/src/turbo_agent_policy.c 12-22 turbo_policy_normalize_path_char *)
Definition turbo_policy_normalize_path_char (ch : Ascii.ascii) : Ascii.ascii :=
  if turbo_policy_is_path_separator ch then slash else ch.

(* src/agent/src/turbo_agent_policy.c 24-26 turbo_policy_component_eq *)
Definition turbo_policy_component_eq (text value : chars) : bool := bool_decide (text = value).

(** The loop back from [e] to the start of a component, not below [root_len]. *)
(* src/agent/src/turbo_agent_policy.c 34-37 turbo_policy_last_component_is_parent *)
Fixpoint component_start (b : chars) (root_len e : nat) : nat :=
  match e with
  | O => O
  | S e' =>
      if (root_len <? e)%nat && negb (bool_decide (b !! e' = Some slash)) then component_start b root_len e'
      else e
  end.

(** [b] is what is written of the buffer. *)
(* src/agent/src/turbo_agent_policy.c 28-39 turbo_policy_last_component_is_parent *)
Definition turbo_policy_last_component_is_parent (b : chars) (root_len : nat) : bool :=
  if (length b <=? root_len)%nat then false
  else
    let start := component_start b root_len (length b) in
    (length b - start =? 2)%nat && bool_decide (b !! start = Some dot) && bool_decide (b !! S start = Some dot).

(* src/agent/src/turbo_agent_policy.c 119-122 turbo_policy_normalize_path *)
Definition push_separator (b : chars) : chars :=
  if (0 <? length b)%nat && negb (bool_decide (last b = Some slash)) then b ++ [slash] else b.

(** A component that is [..]. *)
(* src/agent/src/turbo_agent_policy.c 109-126 turbo_policy_normalize_path *)
Definition parent_step (absolute : bool) (root_len : nat) (b : chars) : chars :=
  if (root_len <? length b)%nat && (absolute || negb (turbo_policy_last_component_is_parent b root_len)) then
    let e := component_start b root_len (length b) in
    take (if (root_len <? e)%nat then e - 1 else root_len)%nat b
  else if absolute then b
  else push_separator b ++ [dot; dot].

(* src/agent/src/turbo_agent_policy.c 105-134 turbo_policy_normalize_path *)
Definition component_step (absolute : bool) (root_len : nat) (b component : chars) : chars :=
  if turbo_policy_component_eq component [dot] then b
  else if turbo_policy_component_eq component [dot; dot] then parent_step absolute root_len b
  else push_separator b ++ (turbo_policy_normalize_path_char <$> component).

Fixpoint skip_separators (path : chars) : chars :=
  match path with
  | c :: rest => if turbo_policy_is_path_separator c then skip_separators rest else path
  | [] => []
  end.

(** A component and what follows it. *)
Fixpoint take_component (path : chars) : chars * chars :=
  match path with
  | c :: rest =>
      if turbo_policy_is_path_separator c then ([], path)
      else let (component, rest) := take_component rest in (c :: component, rest)
  | [] => ([], [])
  end.

(** [fuel]: no more components than characters. *)
(* src/agent/src/turbo_agent_policy.c 89-135 turbo_policy_normalize_path *)
Fixpoint normalize_loop (fuel : nat) (absolute : bool) (root_len : nat) (path b : chars) : chars :=
  match fuel with
  | O => b
  | S fuel =>
      match skip_separators path with
      | [] => b
      | path =>
          let (component, rest) := take_component path in
          normalize_loop fuel absolute root_len rest (component_step absolute root_len b component)
      end
  end.

(* src/agent/src/turbo_agent_policy.c 137-139 turbo_policy_normalize_path *)
Fixpoint trailing (b : chars) (root_len e : nat) : nat :=
  match e with
  | O => O
  | S e' => if (root_len <? e)%nat && bool_decide (b !! e' = Some slash) then trailing b root_len e' else e
  end.

Definition strip_trailing (root_len : nat) (b : chars) : chars := take (trailing b root_len (length b)) b.

(* src/agent/src/turbo_agent_policy.c 78-142 turbo_policy_normalize_path *)
Definition normalize (path : chars) : chars :=
  if match path with c :: _ => turbo_policy_is_path_separator c | [] => false end
  then strip_trailing 1 (normalize_loop (length path) true 1 (skip_separators path) [slash])
  else strip_trailing 0 (normalize_loop (length path) false 0 path []).

(* src/agent/src/turbo_agent_policy.c 41-144 turbo_policy_normalize_path *)
Definition turbo_policy_normalize_path (path : option string) : mem chars :=
  path ← need path; create (normalize (String.list_ascii_of_string path)).

(* src/agent/include/turbo_agent_policy.h 16-29 turbo_agent_policy_t *)
Record turbo_agent_policy : Type := mk_policy {
  workspace_root : option string;
  auto_approve_safe : bool;
  allow_shell : bool;
  allow_patch : bool;
  allow_custom_tools : bool;
  allow_runtime_tools : bool;
  allow_delegate : bool;
  allow_network : bool;
  allow_outside_workspace : bool;
  max_action_retries : Z;
  max_steps : Z;
  max_replans : Z
}.

(* src/agent/src/turbo_agent_policy.c 166-179 turbo_agent_policy_default *)
Definition turbo_agent_policy_default : turbo_agent_policy :=
  mk_policy None true false false false false false false false 1 32 3.

(** The comparison of the normalized texts; [b !! n] is the end of the text when
    there is no character. *)
(* src/agent/src/turbo_agent_policy.c 202-214 turbo_agent_policy_validate_path *)
Definition inside_root (normalized_root normalized_path : chars) : bool :=
  let root_len := length normalized_root in
  (root_len =? 0)%nat ||
  ((root_len <=? length normalized_path)%nat && bool_decide (take root_len normalized_path = normalized_root) &&
   match normalized_path !! root_len with None => true | Some c => bool_decide (c = slash) end).

(** [true] is 0, success. *)
(* src/agent/src/turbo_agent_policy.c 181-219 turbo_agent_policy_validate_path *)
Definition turbo_agent_policy_validate_path (policy : option turbo_agent_policy) (path : option string)
    (o : oracle) : bool * oracle :=
  match path with
  | None | Some EmptyString => (false, o)
  | Some path =>
      match policy with
      | None => (true, o)
      | Some p =>
          match workspace_root p with
          | None => (true, o)
          | Some root =>
              if allow_outside_workspace p then (true, o)
              else
                let (normalized_root, o) := turbo_policy_normalize_path (Some root) o in
                let (normalized_path, o) := turbo_policy_normalize_path (Some path) o in
                match normalized_root, normalized_path with
                | Some r, Some n => (inside_root r n, o)
                | _, _ => (false, o)
                end
          end
      end
  end.

(** ** Commands *)

Definition tolower (c : Ascii.ascii) : Ascii.ascii :=
  if (65 <=? char_code c) && (char_code c <=? 90) then Ascii.ascii_of_nat (Z.to_nat (char_code c + 32)) else c.

(** The inner loop: the pattern at the start of the text. *)
(* src/agent/src/turbo_agent_policy.c 233-241 turbo_policy_ascii_contains_case_insensitive *)
Fixpoint starts_with (text pattern : chars) : bool :=
  match pattern, text with
  | [], _ => true
  | p :: pattern, t :: text => bool_decide (tolower t = tolower p) && starts_with text pattern
  | _, [] => false
  end.

(* src/agent/src/turbo_agent_policy.c 232-242 turbo_policy_ascii_contains_case_insensitive *)
Fixpoint contains_from (text pattern : chars) : bool :=
  match text with
  | [] => false
  | _ :: rest => starts_with text pattern || contains_from rest pattern
  end.

(* src/agent/src/turbo_agent_policy.c 221-245 turbo_policy_ascii_contains_case_insensitive *)
Definition turbo_policy_ascii_contains_case_insensitive (text pattern : chars) : bool :=
  match pattern with [] => true | _ => contains_from text pattern end.

(* src/agent/src/turbo_agent_policy.c 248-249 turbo_agent_policy_is_dangerous_command *)
Definition dangerous_patterns : list string :=
  ["rm -rf"; "del /s"; "format"; "git reset --hard"; "git clean -fd"].

(* src/agent/src/turbo_agent_policy.c 247-263 turbo_agent_policy_is_dangerous_command *)
Definition turbo_agent_policy_is_dangerous_command (command : option string) : bool :=
  match command with
  | None => false
  | Some command =>
      existsb (fun pattern => turbo_policy_ascii_contains_case_insensitive (String.list_ascii_of_string command)
                                (String.list_ascii_of_string pattern)) dangerous_patterns
  end.

(** ** Capabilities *)

(* src/agent/include/turbo_agent_policy.h 37-45 turbo_agent_policy_capability_t *)
Inductive turbo_agent_policy_capability : Type :=
| TURBO_AGENT_POLICY_CAPABILITY_CUSTOM_TOOLS | TURBO_AGENT_POLICY_CAPABILITY_RUNTIME_TOOLS
| TURBO_AGENT_POLICY_CAPABILITY_DELEGATE | TURBO_AGENT_POLICY_CAPABILITY_NETWORK
| TURBO_AGENT_POLICY_CAPABILITY_SHELL | TURBO_AGENT_POLICY_CAPABILITY_PATCH
| TURBO_AGENT_POLICY_CAPABILITY_OUTSIDE_WORKSPACE.

(* src/agent/include/turbo_agent_policy.h 31-35 turbo_agent_policy_decision_t *)
Inductive turbo_agent_policy_decision : Type :=
| TURBO_AGENT_POLICY_ALLOW | TURBO_AGENT_POLICY_REQUIRE_APPROVAL | TURBO_AGENT_POLICY_DENY.

#[global] Instance decision_eq_dec : EqDecision turbo_agent_policy_decision.
Proof. solve_decision. Defined.

(** The flag of a capability, with the reason given when it is not set. *)
(* src/agent/src/turbo_agent_policy.c 278-335 turbo_agent_policy_allows_capability *)
Definition capability_flag (policy : turbo_agent_policy) (capability : turbo_agent_policy_capability)
  : bool * string :=
  match capability with
  | TURBO_AGENT_POLICY_CAPABILITY_CUSTOM_TOOLS => (allow_custom_tools policy, "custom_tools_disabled")
  | TURBO_AGENT_POLICY_CAPABILITY_RUNTIME_TOOLS => (allow_runtime_tools policy, "runtime_tools_disabled")
  | TURBO_AGENT_POLICY_CAPABILITY_DELEGATE => (allow_delegate policy, "delegate_disabled")
  | TURBO_AGENT_POLICY_CAPABILITY_NETWORK => (allow_network policy, "network_disabled")
  | TURBO_AGENT_POLICY_CAPABILITY_SHELL => (allow_shell policy, "shell_disabled")
  | TURBO_AGENT_POLICY_CAPABILITY_PATCH => (allow_patch policy, "patch_disabled")
  | TURBO_AGENT_POLICY_CAPABILITY_OUTSIDE_WORKSPACE =>
      (allow_outside_workspace policy, "outside_workspace_disabled")
  end.

(* src/agent/src/turbo_agent_policy.c 265-341 turbo_agent_policy_allows_capability *)
Definition turbo_agent_policy_allows_capability (policy : option turbo_agent_policy)
    (capability : turbo_agent_policy_capability) : bool * option string :=
  let (granted, reason) := capability_flag (default turbo_agent_policy_default policy) capability in
  (granted, if granted then None else Some reason).

(* src/agent/src/turbo_agent_policy.c 343-362 turbo_agent_policy_capability_name *)
Definition turbo_agent_policy_capability_name (capability : turbo_agent_policy_capability) : string :=
  match capability with
  | TURBO_AGENT_POLICY_CAPABILITY_CUSTOM_TOOLS => "custom_tools"
  | TURBO_AGENT_POLICY_CAPABILITY_RUNTIME_TOOLS => "runtime_tools"
  | TURBO_AGENT_POLICY_CAPABILITY_DELEGATE => "delegate"
  | TURBO_AGENT_POLICY_CAPABILITY_NETWORK => "network"
  | TURBO_AGENT_POLICY_CAPABILITY_SHELL => "shell"
  | TURBO_AGENT_POLICY_CAPABILITY_PATCH => "patch"
  | TURBO_AGENT_POLICY_CAPABILITY_OUTSIDE_WORKSPACE => "outside_workspace"
  end.

(** The enumeration in order. *)
Definition all_capabilities : list turbo_agent_policy_capability :=
  [TURBO_AGENT_POLICY_CAPABILITY_CUSTOM_TOOLS; TURBO_AGENT_POLICY_CAPABILITY_RUNTIME_TOOLS;
   TURBO_AGENT_POLICY_CAPABILITY_DELEGATE; TURBO_AGENT_POLICY_CAPABILITY_NETWORK;
   TURBO_AGENT_POLICY_CAPABILITY_SHELL; TURBO_AGENT_POLICY_CAPABILITY_PATCH;
   TURBO_AGENT_POLICY_CAPABILITY_OUTSIDE_WORKSPACE].

(* src/agent/src/turbo_agent_policy.c 364-382 turbo_agent_policy_capability_from_name *)
Definition turbo_agent_policy_capability_from_name (name : string) : option turbo_agent_policy_capability :=
  match List.find (fun c => bool_decide (turbo_agent_policy_capability_name c = name)) all_capabilities with
  | Some c => Some c
  | None => if bool_decide (name = "wasm") then Some TURBO_AGENT_POLICY_CAPABILITY_RUNTIME_TOOLS else None
  end.

(** ** Tools *)

Section tools.
Context {J W : Type} `{JsonApi J, Cmeta}.

Abbreviation registry := (turbo_tool_registry (J := J) (W := W)).

(** The required capabilities one by one; the first that is not granted ends it. *)
(* src/agent/src/turbo_agent_policy.c 407-418 turbo_agent_policy_check_tool *)
Fixpoint check_required (policy : option turbo_agent_policy) (required : list string)
  : turbo_agent_policy_decision * option string :=
  match required with
  | [] => (TURBO_AGENT_POLICY_ALLOW, None)
  | name :: required =>
      match turbo_agent_policy_capability_from_name name with
      | None => (TURBO_AGENT_POLICY_DENY, Some "unknown_tool_capability")
      | Some capability =>
          match turbo_agent_policy_allows_capability policy capability with
          | (true, _) => check_required policy required
          | (false, reason) => (TURBO_AGENT_POLICY_DENY, reason)
          end
      end
  end.

(* src/agent/src/turbo_agent_policy.c 384-420 turbo_agent_policy_check_tool *)
Definition turbo_agent_policy_check_tool (policy : option turbo_agent_policy) (r : option registry)
    (tool_name : option string) : turbo_agent_policy_decision * option string :=
  match turbo_tool_registry_get_required_capabilities r tool_name with
  | (TURBO_TOOL_OK, []) =>
      match turbo_agent_policy_allows_capability policy TURBO_AGENT_POLICY_CAPABILITY_CUSTOM_TOOLS with
      | (true, _) => (TURBO_AGENT_POLICY_ALLOW, None)
      | (false, reason) => (TURBO_AGENT_POLICY_DENY, reason)
      end
  | (TURBO_TOOL_OK, required) => check_required policy required
  | _ => (TURBO_AGENT_POLICY_DENY, Some "tool_not_found")
  end.

(** The names of the tools the policy allows, in the order of the registry. *)
(* src/agent/src/turbo_agent_tool_authority_internal.h 31-45 turbo_agent_tool_authority_project *)
Definition allowed_names (policy : option turbo_agent_policy) (source : registry) : list (option string) :=
  Some <$> filter (fun name => (turbo_agent_policy_check_tool policy (Some source) (Some name)).1 =
                               TURBO_AGENT_POLICY_ALLOW) (e_name <$> entries source).

(** Every entry has a definition, so the loop does not fail. *)
(* src/agent/src/turbo_agent_tool_authority_internal.h 13-52 turbo_agent_tool_authority_project *)
Definition turbo_agent_tool_authority_project (sizeof_native_projection : Z) (policy : option turbo_agent_policy)
    (source : option registry) (o : oracle) : built (J := J) (W := W) :=
  match source with
  | None =>
      match turbo_tool_registry_create o with
      | (Some r, o) => (TURBO_TOOL_OK, Some (Some r), o)
      | (None, o) => (TURBO_TOOL_OUT_OF_MEMORY, Some None, o)
      end
  | Some s =>
      let (ok, o) := match entries s with [] => (true, o) | _ => alloc o end in
      if negb ok then (TURBO_TOOL_ERROR, Some None, o)
      else turbo_tool_registry_project sizeof_native_projection (Some s) (Some (allowed_names policy s)) true o
  end.

End tools.

(** ** Actions *)

Section actions.
Context {J : Type} `{JsonApi J}.

(* src/agent/include/turbo_action_tool.h 27-31 turbo_action_kind_t *)
Inductive turbo_action_kind : Type :=
| TURBO_ACTION_OBSERVE | TURBO_ACTION_MUTATE | TURBO_ACTION_DANGEROUS.

#[global] Instance action_kind_eq_dec : EqDecision turbo_action_kind.
Proof. solve_decision. Defined.

(** What the policy looks at. *)
(* src/agent/include/turbo_action_tool.h 36-46 turbo_action_tool_definition_t *)
Record turbo_action_tool_definition : Type := mk_action {
  action_kind : turbo_action_kind;
  requires_approval : bool
}.

(** [json_get_string] of a member of the arguments, which must be an object. *)
Definition argument (args : option J) (key : string) : option string :=
  args ← args; if bool_decide (json_type args = JSON_OBJECT) then member_string (Some args) key else None.

(* src/agent/src/turbo_agent_policy.c 146-164 turbo_policy_get_path_arg *)
Definition turbo_policy_get_path_arg (args : option J) : option string :=
  match argument args "path" with
  | Some p => Some p
  | None =>
      match argument args "workdir" with
      | Some p => Some p
      | None => match argument args "root_dir" with Some p => Some p | None => argument args "cwd" end
      end
  end.

(* src/agent/src/turbo_agent_policy.c 447-495 turbo_agent_policy_check_action *)
Definition check_kind (policy : turbo_agent_policy) (definition : turbo_action_tool_definition)
    (args : option J) : turbo_agent_policy_decision * option string :=
  if bool_decide (action_kind definition = TURBO_ACTION_MUTATE) && negb (allow_patch policy)
  then (TURBO_AGENT_POLICY_DENY, Some "patch_disabled")
  else if bool_decide (action_kind definition = TURBO_ACTION_DANGEROUS) && negb (allow_shell policy)
  then (TURBO_AGENT_POLICY_DENY, Some "shell_disabled")
  else if turbo_agent_policy_is_dangerous_command (argument args "command")
  then (TURBO_AGENT_POLICY_REQUIRE_APPROVAL, Some "dangerous_command")
  else if requires_approval definition then (TURBO_AGENT_POLICY_REQUIRE_APPROVAL, Some "tool_requires_approval")
  else if auto_approve_safe policy && bool_decide (action_kind definition = TURBO_ACTION_OBSERVE)
  then (TURBO_AGENT_POLICY_ALLOW, None)
  else if bool_decide (action_kind definition = TURBO_ACTION_DANGEROUS)
  then (TURBO_AGENT_POLICY_REQUIRE_APPROVAL, Some "dangerous_action")
  else (TURBO_AGENT_POLICY_ALLOW, None).

(* src/agent/src/turbo_agent_policy.c 422-496 turbo_agent_policy_check_action *)
Definition turbo_agent_policy_check_action (policy : option turbo_agent_policy)
    (definition : option turbo_action_tool_definition) (args : option J) (o : oracle)
  : turbo_agent_policy_decision * option string * oracle :=
  let policy := default turbo_agent_policy_default policy in
  match definition with
  | None => (TURBO_AGENT_POLICY_DENY, Some "missing_definition", o)
  | Some definition =>
      match turbo_policy_get_path_arg args with
      | Some path =>
          match turbo_agent_policy_validate_path (Some policy) (Some path) o with
          | (true, o) => (check_kind policy definition args, o)
          | (false, o) => (TURBO_AGENT_POLICY_DENY, Some "path_outside_workspace", o)
          end
      | None => (check_kind policy definition args, o)
      end
  end.

(* src/agent/src/turbo_agent_policy.c 498-505 turbo_agent_policy_requires_approval *)
Definition turbo_agent_policy_requires_approval (policy : option turbo_agent_policy)
    (definition : option turbo_action_tool_definition) (args : option J) (o : oracle) : bool * oracle :=
  let '(decision, _, o) := turbo_agent_policy_check_action policy definition args o in
  (bool_decide (decision = TURBO_AGENT_POLICY_REQUIRE_APPROVAL), o).

End actions.
