(* ===== verification/AgentPolicyFacts.v ===== *)
(** * What a policy guarantees (src/agent/src/turbo_agent_policy.c)

    Normalized paths are stacks of components; a path that validates lies inside a
    workspace whose root ends in a name; what an allowed action is; and that a
    projection for a policy shows exactly the tools the policy lets run. *)

From S2P Require Import Prelude RuntimeJson JsonBuild JsonMem JsonRecord Tool ToolRegistry ToolRegistryFacts AgentPolicy.

#[local] Open Scope string_scope.
#[local] Open Scope list_scope.
#[local] Open Scope Z_scope.

(** ** Paths as components *)

Abbreviation sep := turbo_policy_is_path_separator.

(** The components between separators, empty ones dropped. *)
Fixpoint components_from (current path : chars) : list chars :=
  match path with
  | [] => if bool_decide (current = []) then [] else [current]
  | c :: path =>
      if sep c then (if bool_decide (current = []) then [] else [current]) ++ components_from [] path
      else components_from (current ++ [c]) path
  end.
Definition components (path : chars) : list chars := components_from [] path.

Definition is_absolute (path : chars) : bool := match path with c :: _ => sep c | [] => false end.

Definition here : chars := [dot].
Definition parent : chars := [dot; dot].

(** One step of a walk through directories, from the root down; the parent of the
    root is the root. *)
Definition walk_step (at_ : list chars) (c : chars) : list chars :=
  if bool_decide (c = here) then at_ else if bool_decide (c = parent) then removelast at_ else at_ ++ [c].
Definition walk : list chars -> list chars -> list chars := foldl walk_step.

(** The directory a path names for a process in [cwd]. *)
Definition locate (cwd : list chars) (path : chars) : list chars :=
  walk (if is_absolute path then [] else cwd) (components path).

(** The stack of a normalized path: leading parents are kept when it is relative. *)
Definition stack_step (absolute : bool) (st : list chars) (c : chars) : list chars :=
  if bool_decide (c = here) then st
  else if bool_decide (c = parent) then
    match last st with
    | None => if absolute then st else st ++ [c]
    | Some x => if absolute || negb (bool_decide (x = parent)) then removelast st else st ++ [c]
    end
  else st ++ [c].
Definition resolved (path : chars) : list chars :=
  foldl (stack_step (is_absolute path)) [] (components path).

(** A component of a path. *)
Definition is_component (c : chars) : Prop := c <> [] /\ Forall (fun x => sep x = false) c.

Fixpoint join (cs : list chars) : chars :=
  match cs with
  | [] => []
  | c :: rest => match rest with [] => c | _ => c ++ slash :: join rest end
  end.

Definition render (absolute : bool) (cs : list chars) : chars := (if absolute then [slash] else []) ++ join cs.

Lemma sep_slash : sep slash = true.
Proof. done. Qed.

Lemma component_no_slash c : is_component c -> slash ∉ c.
Proof. intros [_ Hc] Hin. eapply Forall_forall in Hc; [|exact Hin]. done. Qed.

Lemma components_from_good path : forall current, Forall (fun x => sep x = false) current ->
  Forall is_component (components_from current path).
Proof.
  induction path as [|c path IH]; intros current Hc; cbn.
  - case_bool_decide; [done|]. by repeat constructor.
  - destruct (sep c) eqn:Hs.
    + apply Forall_app. split; [|by apply IH]. case_bool_decide; [done|]. by repeat constructor.
    + apply IH. apply Forall_app. by repeat constructor.
Qed.

Lemma components_good path : Forall is_component (components path).
Proof. by apply components_from_good. Qed.

Lemma components_from_app c : Forall (fun x => sep x = false) c -> forall current path,
  components_from current (c ++ path) = components_from (current ++ c) path.
Proof.
  induction 1 as [|x c Hx Hc IH]; intros current path; cbn [app]; [by rewrite app_nil_r|].
  cbn [components_from]. rewrite Hx, IH. by rewrite <- app_assoc.
Qed.

Lemma components_component c path : is_component c -> path = [] \/ is_absolute path = true ->
  components (c ++ path) = c :: components path.
Proof.
  intros [Hne Hc] Hp. unfold components. rewrite components_from_app by done. cbn [app].
  destruct path as [|x path]; cbn [components_from].
  - by rewrite !bool_decide_eq_false_2 by done.
  - destruct Hp as [|Hp]; [done|]. cbn in Hp. rewrite Hp, bool_decide_eq_false_2 by done. done.
Qed.

Lemma components_skip path : components (skip_separators path) = components path.
Proof.
  induction path as [|c path IH]; [done|]. unfold components in *. cbn [skip_separators].
  destruct (sep c) eqn:Hc; [|done]. cbn. by rewrite Hc.
Qed.

Lemma take_component_spec path : forall c rest, take_component path = (c, rest) ->
  path = c ++ rest /\ Forall (fun x => sep x = false) c /\ (rest = [] \/ is_absolute rest = true).
Proof.
  induction path as [|x path IH]; intros c rest; cbn; [intros [= <- <-]; by split_and!; [| |left]|].
  destruct (sep x) eqn:Hx; [intros [= <- <-]; by split_and!; [| |right]|].
  destruct (take_component path) as [c' rest'] eqn:E. intros [= <- <-].
  destruct (IH c' rest' eq_refl) as (-> & Hc & Hr). split_and!; [done|by constructor|done].
Qed.

Lemma skip_head path x rest : skip_separators path = x :: rest -> sep x = false.
Proof.
  induction path as [|c path IH]; cbn; [done|]. destruct (sep c) eqn:Hc; [done|]. by intros [= -> ->].
Qed.

Lemma skip_length path : (length (skip_separators path) <= length path)%nat.
Proof. induction path as [|c path IH]; cbn; [done|]. destruct (sep c); cbn; lia. Qed.

(** The loop takes the components in order. *)
Lemma normalize_loop_components absolute root_len : forall fuel path b, (length path <= fuel)%nat ->
  normalize_loop fuel absolute root_len path b = foldl (component_step absolute root_len) b (components path).
Proof.
  induction fuel as [|fuel IH]; intros path b Hf.
  - by destruct path; [|cbn in Hf; lia].
  - cbn [normalize_loop]. rewrite <- (components_skip path). pose proof (skip_length path) as Hlen.
    destruct (skip_separators path) as [|x rest] eqn:Hs; [done|].
    destruct (take_component (x :: rest)) as [c rest'] eqn:Ht.
    destruct (take_component_spec _ _ _ Ht) as (Heq & Hc & Hr).
    assert (Hx : c <> []).
    { intros ->. cbn in Heq. subst rest'. pose proof (skip_head _ _ _ Hs) as Hx. destruct Hr as [|Hr]; [done|].
      cbn in Hr. by rewrite Hx in Hr. }
    rewrite Heq, (components_component c rest') by done. cbn [foldl]. apply IH.
    assert (length (x :: rest) = length c + length rest')%nat as Hl by (by rewrite Heq, length_app).
    assert (0 < length c)%nat by (destruct c; [done|cbn; lia]). cbn [length] in *. lia.
Qed.

(** ** The buffer is the text of the stack *)

Lemma component_start_back (b : chars) root_len n : (root_len <= n)%nat ->
  (n = root_len \/ b !! (n - 1)%nat = Some slash) -> forall k,
  (forall i, (n <= i < n + k)%nat -> b !! i <> Some slash) -> component_start b root_len (n + k) = n.
Proof.
  intros Hn Hstart. induction k as [|k IH]; intros Hk.
  - rewrite Nat.add_0_r. destruct n as [|m]; [done|]. cbn [component_start].
    replace (S m - 1)%nat with m in Hstart by lia. destruct Hstart as [<-|Hs].
    + by rewrite Nat.ltb_irrefl.
    + by rewrite (bool_decide_eq_true_2 _ Hs), andb_false_r.
  - rewrite Nat.add_succ_r. cbn [component_start].
    rewrite (proj2 (Nat.ltb_lt root_len (S (n + k)))) by lia.
    rewrite bool_decide_eq_false_2 by (apply Hk; lia). cbn. apply IH. intros i Hi. apply Hk. lia.
Qed.

(** A text that ends at the start of a component. *)
Definition at_start (root_len : nat) (pre : chars) : Prop :=
  (root_len <= length pre)%nat /\ (length pre = root_len \/ last pre = Some slash).

Lemma component_start_app root_len (pre c : chars) : at_start root_len pre -> slash ∉ c ->
  component_start (pre ++ c) root_len (length (pre ++ c)) = length pre.
Proof.
  intros [Hle Hst] Hc. rewrite length_app. apply component_start_back; [done| |].
  - destruct Hst as [Hst|Hst]; [by left|right]. rewrite last_lookup in Hst.
    replace (length pre - 1)%nat with (pred (length pre)) by lia.
    by apply lookup_app_l_Some.
  - intros i Hi Hs. rewrite lookup_app_r in Hs by lia. apply Hc. by eapply list_elem_of_lookup_2.
Qed.

Definition root_len_of (absolute : bool) : nat := if absolute then 1 else 0.

Lemma last_app_cons {A} (l k : list A) x : last (l ++ x :: k) = last (x :: k).
Proof. apply last_app_cons. Qed.

Lemma join_snoc st c : st <> [] -> join (st ++ [c]) = join st ++ slash :: c.
Proof.
  induction st as [|x st IH]; [done|]. intros _. destruct st as [|y st]; [done|].
  change ((x :: y :: st) ++ [c]) with (x :: (y :: st) ++ [c]).
  transitivity (x ++ slash :: join ((y :: st) ++ [c])); [done|]. rewrite IH by done.
  change (join (x :: y :: st)) with (x ++ slash :: join (y :: st)). by rewrite <- app_assoc.
Qed.

Lemma join_last st c : is_component c -> last (join (st ++ [c])) = last c.
Proof.
  intros [Hc _]. destruct c as [|x c]; [done|]. destruct (decide (st = [])) as [->|Hne]; [done|].
  rewrite join_snoc by done. rewrite (last_app_cons (join st) (x :: c) slash). by rewrite last_cons_cons.
Qed.

Lemma component_last c : is_component c -> exists x, last c = Some x /\ x <> slash.
Proof.
  intros Hc. destruct (last c) as [x|] eqn:Hl; [|by apply last_None in Hl; destruct Hc].
  exists x. split; [done|]. intros ->. apply (component_no_slash c Hc). by apply last_Some_elem_of.
Qed.

Lemma render_snoc absolute st c : Forall is_component st -> is_component c ->
  render absolute (st ++ [c]) = push_separator (render absolute st) ++ c.
Proof.
  intros Hst Hc. unfold render. destruct st as [|y st0] using rev_ind.
  - by destruct absolute.
  - clear IHst0. apply Forall_app in Hst as [_ [Hy _]%Forall_cons].
    rewrite join_snoc by (by destruct st0). destruct (component_last y Hy) as (x & Hx & Hne).
    assert (Hl : last ((if absolute then [slash] else []) ++ join (st0 ++ [y])) = Some x).
    { rewrite last_app, join_last, Hx by done. done. }
    unfold push_separator. rewrite Hl, bool_decide_eq_false_2 by congruence.
    rewrite (proj2 (Nat.ltb_lt _ _)); [cbn; by rewrite <- !app_assoc|].
    destruct ((if absolute then [slash] else []) ++ join (st0 ++ [y])); [done|cbn; lia].
Qed.

Lemma render_at_start absolute st : Forall is_component st ->
  at_start (root_len_of absolute) (push_separator (render absolute st)).
Proof.
  intros Hst. unfold push_separator, at_start. destruct (0 <? length _)%nat eqn:Hpos; cbn.
  - case_bool_decide as Hl; cbn.
    + split; [|by right]. unfold render, root_len_of. destruct absolute; cbn; lia.
    + rewrite length_app, last_snoc. split; [|by right]. unfold render, root_len_of. destruct absolute; cbn; lia.
  - apply Nat.ltb_ge in Hpos. unfold render in *. destruct absolute; cbn in *; [lia|]. split; [lia|left; lia].
Qed.

Lemma take_render absolute st : take (length (render absolute st)) (render absolute st) = render absolute st.
Proof. by apply take_ge. Qed.

Lemma push_separator_take absolute st c : Forall is_component st -> is_component c ->
  let b := render absolute (st ++ [c]) in let e := component_start b (root_len_of absolute) (length b) in
  take (if (root_len_of absolute <? e)%nat then e - 1 else root_len_of absolute)%nat b = render absolute st.
Proof.
  intros Hst Hc. cbn zeta. rewrite render_snoc by done.
  rewrite component_start_app by (try apply render_at_start; try apply component_no_slash; done).
  unfold push_separator. destruct st as [|y st0 _] using rev_ind.
  - by destruct absolute.
  - apply Forall_app in Hst as [_ [Hy _]%Forall_cons]. destruct (component_last y Hy) as (x & Hx & Hne).
    assert (Hl : last (render absolute (st0 ++ [y])) = Some x).
    { unfold render. rewrite last_app, join_last, Hx by done. done. }
    assert (Hpos : (root_len_of absolute < length (render absolute (st0 ++ [y])))%nat).
    { unfold render, root_len_of. rewrite length_app.
      assert (join (st0 ++ [y]) <> []) by (intros He; rewrite <- (join_last st0 y Hy), He in Hx; done).
      destruct (join (st0 ++ [y])); [done|]. destruct absolute; cbn; lia. }
    rewrite Hl, bool_decide_eq_false_2 by congruence.
    rewrite (proj2 (Nat.ltb_lt 0 _)) by lia. cbn [andb negb]. rewrite length_app. cbn [length].
    rewrite (proj2 (Nat.ltb_lt _ _)) by lia.
    replace (_ + 1 - 1)%nat with (length (render absolute (st0 ++ [y]))) by lia.
    rewrite <- app_assoc. by rewrite take_app_length.
Qed.

Lemma parent_component : is_component parent.
Proof. split; [done|]. by repeat constructor. Qed.

Lemma last_is_parent absolute st c : Forall is_component st -> is_component c ->
  turbo_policy_last_component_is_parent (render absolute (st ++ [c])) (root_len_of absolute) =
  bool_decide (c = parent).
Proof.
  intros Hst Hc. unfold turbo_policy_last_component_is_parent. rewrite render_snoc by done.
  set (pre := push_separator (render absolute st)).
  assert (Hpre : at_start (root_len_of absolute) pre) by by apply render_at_start.
  assert (Hlen : (0 < length c)%nat) by (destruct Hc as [Hc _]; destruct c; [done|cbn; lia]).
  rewrite (proj2 (Nat.leb_gt _ _)) by (rewrite length_app; destruct Hpre; lia).
  rewrite component_start_app by (try apply component_no_slash; done). cbn zeta.
  rewrite length_app. replace (length pre + length c - length pre)%nat with (length c) by lia.
  rewrite (lookup_app_r pre c (length pre)) by lia. rewrite (lookup_app_r pre c (S (length pre))) by lia.
  replace (length pre - length pre)%nat with O by lia. replace (S (length pre) - length pre)%nat with 1%nat by lia.
  destruct c as [|x [|y [|z c]]]; cbn; try by (rewrite bool_decide_eq_false_2 by done).
  apply Bool.eq_iff_eq_true. rewrite andb_true_iff, !bool_decide_eq_true. split; [by intros [[= ->] [= ->]]|].
  by intros [= -> ->].
Qed.

Lemma normalize_chars c : is_component c -> turbo_policy_normalize_path_char <$> c = c.
Proof.
  intros [_ Hc]. induction Hc as [|x c Hx Hc IH]; [done|]. cbn. rewrite IH.
  unfold turbo_policy_normalize_path_char. by rewrite Hx.
Qed.

Lemma component_step_render absolute st c : Forall is_component st -> is_component c ->
  component_step absolute (root_len_of absolute) (render absolute st) c = render absolute (stack_step absolute st c).
Proof.
  intros Hst Hc. unfold component_step, stack_step, turbo_policy_component_eq. fold parent here.
  case_bool_decide; [done|]. case_bool_decide as Hp; [|by rewrite normalize_chars, render_snoc by done].
  subst c. unfold parent_step. fold parent. destruct st as [|x st0 _] using rev_ind.
  - unfold render. by destruct absolute.
  - rewrite last_snoc. apply Forall_app in Hst as [Hst0 [Hx _]%Forall_cons].
    rewrite last_is_parent by done.
    assert (Hlen : (root_len_of absolute <? length (render absolute (st0 ++ [x])))%nat = true).
    { apply Nat.ltb_lt. rewrite render_snoc, length_app by done.
      destruct (render_at_start absolute st0 Hst0) as [Hle _]. destruct Hx as [Hx _]. destruct x; [done|cbn; lia]. }
    rewrite Hlen. cbn [andb]. destruct (absolute || negb (bool_decide (x = parent))) eqn:Hpop.
    + rewrite removelast_last. by apply (push_separator_take absolute st0 x).
    + apply orb_false_iff in Hpop as [-> _]. rewrite (render_snoc false (st0 ++ [x]) parent); [done| |apply parent_component].
      by apply Forall_app; split; [|constructor].
Qed.

Lemma stack_step_good absolute st c : Forall is_component st -> is_component c ->
  Forall is_component (stack_step absolute st c).
Proof.
  intros Hst Hc. assert (Hs : Forall is_component (st ++ [c])) by (by apply Forall_app; split; [|constructor]).
  unfold stack_step. case_bool_decide; [done|]. case_bool_decide; [|done]. destruct (last st) as [x|] eqn:Hl; [|by destruct absolute].
  apply last_Some in Hl as [st0 ->]. destruct (_ || _); [|done]. rewrite removelast_last.
  by apply Forall_app in Hst as [? _].
Qed.

(** The buffer at the end of the loop is the stack, and has no separator to strip. *)
Lemma steps_render absolute cs : Forall is_component cs -> forall st, Forall is_component st ->
  foldl (component_step absolute (root_len_of absolute)) (render absolute st) cs =
    render absolute (foldl (stack_step absolute) st cs) /\
  Forall is_component (foldl (stack_step absolute) st cs).
Proof.
  induction 1 as [|c cs Hc _ IH]; intros st Hst; [done|]. cbn [foldl].
  rewrite component_step_render by done. by apply IH, stack_step_good.
Qed.

Lemma strip_render absolute st : Forall is_component st ->
  strip_trailing (root_len_of absolute) (render absolute st) = render absolute st.
Proof.
  intros Hst. unfold strip_trailing.
  assert (Ht : trailing (render absolute st) (root_len_of absolute) (length (render absolute st)) =
    length (render absolute st)); [|rewrite Ht; by apply take_ge].
  destruct st as [|y st0 _] using rev_ind; [by destruct absolute|].
  apply Forall_app in Hst as [_ [Hy _]%Forall_cons]. destruct (component_last y Hy) as (x & Hx & Hne).
  assert (Hl : last (render absolute (st0 ++ [y])) = Some x).
  { unfold render. rewrite last_app, join_last, Hx by done. done. }
  rewrite last_lookup in Hl. destruct (length (render absolute (st0 ++ [y]))) as [|n]; [done|].
  cbn [pred] in Hl. cbn [trailing]. rewrite Hl, (bool_decide_eq_false_2 (Some x = Some slash)) by congruence.
  by rewrite andb_false_r.
Qed.

Lemma normalize_spec path : normalize path = render (is_absolute path) (resolved path) /\
  Forall is_component (resolved path).
Proof.
  pose proof (components_good path) as Hcs. unfold normalize, resolved. fold (is_absolute path).
  destruct (steps_render (is_absolute path) (components path) Hcs [] (List.Forall_nil _)) as [Hs Hg].
  split; [|exact Hg]. destruct (is_absolute path) eqn:Ha.
  - rewrite normalize_loop_components by apply skip_length. rewrite components_skip.
    transitivity (strip_trailing 1 (render true (foldl (stack_step true) [] (components path)))).
    + by rewrite <- Hs.
    + by apply (strip_render true).
  - rewrite normalize_loop_components by done.
    transitivity (strip_trailing 0 (render false (foldl (stack_step false) [] (components path)))).
    + by rewrite <- Hs.
    + by apply (strip_render false).
Qed.

(** ** Comparing the texts compares the stacks *)

Lemma components_from_then rest : rest = [] \/ is_absolute rest = true -> forall path current,
  components_from current (path ++ rest) = components_from current path ++ components rest.
Proof.
  intros Hrest. induction path as [|c path IH]; intros current; cbn [app components_from].
  - destruct Hrest as [->|Hrest]; [by rewrite app_nil_r|]. destruct rest as [|x rest]; [done|]. cbn in Hrest.
    unfold components. cbn. by rewrite Hrest.
  - destruct (sep c); [by rewrite IH, app_assoc|apply IH].
Qed.

Lemma components_join cs : Forall is_component cs -> components (join cs) = cs.
Proof.
  induction 1 as [|c cs Hc Hcs IH]; [done|]. destruct cs as [|d cs].
  - cbn [join]. rewrite <- (app_nil_r c) at 1. by rewrite components_component by (try left; done).
  - change (join (c :: d :: cs)) with (c ++ slash :: join (d :: cs)).
    rewrite components_component by (try right; done). f_equal. rewrite <- IH at 2. done.
Qed.

Lemma components_render absolute cs : Forall is_component cs -> components (render absolute cs) = cs.
Proof. intros Hcs. rewrite <- (components_join cs Hcs) at 2. by destruct absolute. Qed.

Lemma join_head c cs : is_component c -> exists x rest, join (c :: cs) = x :: rest /\ sep x = false.
Proof.
  intros [Hne Hc]. destruct c as [|x c]; [done|]. apply Forall_cons in Hc as [Hx _].
  exists x. destruct cs; cbn; by eexists.
Qed.

Lemma is_absolute_render absolute cs : Forall is_component cs -> absolute = true \/ cs <> [] ->
  is_absolute (render absolute cs) = absolute /\ render absolute cs <> [].
Proof.
  intros Hcs Hne. destruct absolute; [done|]. destruct cs as [|c cs]; [by destruct Hne|].
  apply Forall_cons in Hcs as [Hc _]. unfold render. cbn [app].
  by destruct (join_head c cs Hc) as (x & rest & -> & Hx).
Qed.

Lemma join_app cs ds : cs <> [] -> join (cs ++ ds) = join cs ++ match ds with [] => [] | _ => slash :: join ds end.
Proof.
  intros Hne. induction ds as [|d ds IH] using rev_ind; [by rewrite !app_nil_r|].
  rewrite app_assoc, join_snoc by (by destruct cs). rewrite IH. destruct ds as [|e ds].
  - rewrite app_nil_r. done.
  - cbn [app]. change (e :: ds ++ [d]) with ((e :: ds) ++ [d]). rewrite (join_snoc (e :: ds)) by done.
    by rewrite <- app_assoc.
Qed.

Lemma inside_render a rs b ps : Forall is_component rs -> Forall is_component ps -> rs <> [] ->
  inside_root (render a rs) (render b ps) = true <-> a = b /\ rs `prefix_of` ps.
Proof.
  intros Hrs Hps Hne. destruct (is_absolute_render a rs Hrs (or_intror Hne)) as [Ha Hr].
  unfold inside_root. cbn zeta. rewrite (proj2 (Nat.eqb_neq _ 0)) by (by destruct (render a rs)). cbn [orb].
  rewrite !andb_true_iff, Nat.leb_le, bool_decide_eq_true. split.
  - intros [[Hle Htake] Hnext]. pose proof (take_drop (length (render a rs)) (render b ps)) as Hsplit.
    rewrite Htake in Hsplit. set (rest := drop (length (render a rs)) (render b ps)) in *.
    assert (Hrest : rest = [] \/ is_absolute rest = true).
    { pose proof (lookup_drop (render b ps) (length (render a rs)) 0) as Hl. fold rest in Hl.
      rewrite Nat.add_0_r in Hl. rewrite <- Hl in Hnext. destruct rest as [|x rest']; [by left|right].
      cbn in Hnext. rewrite bool_decide_eq_true in Hnext. by subst x. }
    assert (Hcs : ps = rs ++ components rest).
    { rewrite <- (components_render b ps Hps), <- Hsplit. unfold components at 1.
      rewrite components_from_then by done. fold (components (render a rs)). by rewrite components_render. }
    split; [|by exists (components rest)].
    assert (Hpne : ps <> []) by (rewrite Hcs; by destruct rs).
    destruct (is_absolute_render b ps Hps (or_intror Hpne)) as [Hb _].
    rewrite <- Ha, <- Hb, <- Hsplit. by destruct (render a rs).
  - intros [<- [qs ->]]. unfold render. rewrite join_app, app_assoc by done.
    fold (render a rs). split_and!.
    + rewrite length_app. lia.
    + by rewrite take_app_length.
    + rewrite lookup_app_r by done. rewrite Nat.sub_diag. destruct qs; [done|]. cbn. by apply bool_decide_eq_true.
Qed.

(** ** What a stack means *)

(** The leading parents, then names. *)
Definition names_only (cs : list chars) : Prop := Forall (fun c => is_component c /\ c <> here /\ c <> parent) cs.

Lemma names_nil : names_only [].
Proof. apply List.Forall_nil. Qed.

Definition stack_ok (absolute : bool) (st : list chars) : Prop :=
  exists n names, st = replicate n parent ++ names /\ names_only names /\ (absolute = true -> n = 0%nat).

Lemma stack_nil absolute : stack_ok absolute [].
Proof. exists 0%nat, []. split_and!; [done|apply names_nil|done]. Qed.

Lemma stack_step_ok absolute st c : is_component c -> stack_ok absolute st -> stack_ok absolute (stack_step absolute st c).
Proof.
  intros Hc (n & names & -> & Hnames & Hn). unfold stack_step. case_bool_decide as Hh; [by exists n, names|].
  case_bool_decide as Hp.
  - subst c. destruct names as [|y names0 _] using rev_ind.
    + rewrite app_nil_r. destruct absolute.
      { rewrite (Hn eq_refl). apply stack_nil. }
      assert (Hl : last (replicate n parent) = None \/ last (replicate n parent) = Some parent).
      { destruct (last (replicate n parent)) as [x|] eqn:Hl; [right|by left].
        apply last_Some_elem_of in Hl. by apply elem_of_replicate in Hl as [-> _]. }
      exists (S n), []. assert (Hab : false = true -> S n = 0%nat) by done. split_and!; [|apply names_nil|exact Hab]. rewrite app_nil_r, <- replicate_cons_app.
      destruct Hl as [-> | ->]; cbn; [done|]. by rewrite bool_decide_eq_true_2.
    + rewrite app_assoc, last_snoc. apply Forall_app in Hnames as [Hnames [(_ & _ & Hy) _]%Forall_cons].
      rewrite bool_decide_eq_false_2, orb_true_r, removelast_last by done. by exists n, names0.
  - exists n, (names ++ [c]). split_and!; [by rewrite app_assoc| |done].
    apply Forall_app. split; [done|]. by apply Forall_singleton.
Qed.

Lemma resolved_ok path : stack_ok (is_absolute path) (resolved path).
Proof.
  unfold resolved. pose proof (components_good path) as Hcs. revert Hcs.
  pose proof (stack_nil (is_absolute path)) as H0.
  revert H0. generalize (@nil chars). generalize (components path). intros cs.
  induction cs as [|c cs IH]; intros st Hst Hcs; [done|]. apply Forall_cons in Hcs as [Hc Hcs].
  cbn [foldl]. apply IH; [|done]. by apply stack_step_ok.
Qed.

Lemma walk_app at_ cs ds : walk at_ (cs ++ ds) = walk (walk at_ cs) ds.
Proof. apply foldl_app. Qed.

Lemma walk_step_stack absolute cwd st c : stack_ok absolute st -> (absolute = true -> cwd = []) ->
  walk cwd (stack_step absolute st c) = walk_step (walk cwd st) c.
Proof.
  intros (n & names & -> & Hnames & Hn) Hcwd. unfold stack_step, walk_step.
  case_bool_decide; [done|]. case_bool_decide as Hp.
  - subst c. assert (Hpush : walk cwd ((replicate n parent ++ names) ++ [parent]) =
      removelast (walk cwd (replicate n parent ++ names))) by (by rewrite walk_app).
    destruct names as [|y names0 _] using rev_ind.
    + rewrite app_nil_r in *. destruct absolute.
      { rewrite (Hn eq_refl). cbn. by rewrite Hcwd. }
      destruct (last (replicate n parent)) as [x|] eqn:Hl; [|done].
      apply last_Some_elem_of in Hl. apply elem_of_replicate in Hl as [-> _].
      by rewrite bool_decide_eq_true_2.
    + rewrite app_assoc, last_snoc. apply Forall_app in Hnames as [_ [(_ & Hy1 & Hy2) _]%Forall_cons].
      rewrite (bool_decide_eq_false_2 (y = parent)), orb_true_r, removelast_last by done.
      rewrite (walk_app cwd (replicate n parent ++ names0) [y]). cbn. unfold walk_step.
      by rewrite !bool_decide_eq_false_2, removelast_last.
  - rewrite walk_app. cbn. unfold walk_step. by rewrite !bool_decide_eq_false_2.
Qed.

(** Normalizing a path does not change what it names. *)
Lemma locate_resolved cwd path : locate cwd path = walk (if is_absolute path then [] else cwd) (resolved path).
Proof.
  unfold locate, resolved. set (at_ := if is_absolute path then [] else cwd).
  assert (Hat : is_absolute path = true -> at_ = []) by (unfold at_; by intros ->).
  pose proof (stack_nil (is_absolute path)) as H0.
  pose proof (components_good path) as Hcs. revert Hcs. change at_ with (walk at_ []) at 1.
  revert H0. generalize (@nil chars). generalize (components path). intros cs.
  induction cs as [|c cs IH]; intros st Hst Hcs; [done|]. apply Forall_cons in Hcs as [Hc Hcs].
  cbn [foldl]. unfold walk at 1. cbn [foldl]. rewrite <- (walk_step_stack _ _ _ _ Hst Hat).
  apply (IH _ (stack_step_ok _ _ _ Hc Hst) Hcs).
Qed.

Lemma walk_names cwd names : names_only names -> walk cwd names = cwd ++ names.
Proof.
  revert cwd. induction names as [|c names IH]; intros cwd; [by rewrite app_nil_r|].
  intros [(_ & H1 & H2) Hn]%Forall_cons. cbn. unfold walk_step. rewrite !bool_decide_eq_false_2 by done.
  unfold walk in IH. rewrite IH by done. by rewrite <- app_assoc.
Qed.

Lemma stack_after_name absolute st x qs : stack_ok absolute (st ++ x :: qs) -> x <> parent -> names_only qs.
Proof.
  intros (n & names & Heq & Hnames & _) Hx. symmetry in Heq.
  apply app_eq_app in Heq as [l [[Hl Hr]|[Hl Hr]]].
  - destruct l as [|y l]; cbn in Hr.
    + rewrite <- Hr in Hnames. by apply Forall_cons in Hnames as [_ ?].
    + injection Hr as -> _. assert (Hin : y ∈ replicate n parent) by (rewrite Hl; set_solver).
      by apply elem_of_replicate in Hin as [-> _].
  - rewrite Hr in Hnames. apply Forall_app in Hnames as [_ Hnames]. by apply Forall_cons in Hnames as [_ ?].
Qed.

(** A root that does not end in its own name, such as [.] or [..], bounds nothing. *)
Definition ends_in_name (path : chars) : Prop := exists st x, resolved path = st ++ [x] /\ x <> parent.

Lemma inside_confined root path : ends_in_name root -> inside_root (normalize root) (normalize path) = true ->
  is_absolute root = is_absolute path /\ exists qs, resolved path = resolved root ++ qs /\ names_only qs.
Proof.
  intros (st & x & Hroot & Hx) Hin. destruct (normalize_spec root) as [Hr Hrg].
  destruct (normalize_spec path) as [Hp Hpg]. rewrite Hr, Hp in Hin.
  apply inside_render in Hin as [Ha [qs Hqs]]; [|done|done|rewrite Hroot; by destruct st].
  split; [done|]. exists qs. split; [done|]. pose proof (resolved_ok path) as Hok.
  rewrite Hqs, Hroot, <- app_assoc in Hok. by eapply stack_after_name.
Qed.

Lemma absolute_names path : is_absolute path = true -> names_only (resolved path).
Proof.
  intros Ha. destruct (resolved_ok path) as (n & names & -> & Hnames & Hn). by rewrite (Hn Ha).
Qed.

(** The buffer of the code has room for a normalized path and its end. *)
Lemma component_step_length absolute root_len b c :
  (length (component_step absolute root_len b c) <= length (push_separator b) + length c)%nat.
Proof.
  assert (Hb : (length b <= length (push_separator b))%nat).
  { unfold push_separator. destruct (_ && _); [rewrite length_app; cbn|]; lia. }
  unfold component_step, turbo_policy_component_eq, parent_step. case_bool_decide; [lia|].
  case_bool_decide as Hp; [|by rewrite length_app, length_fmap].
  subst c. destruct (_ && _); [rewrite length_take; lia|]. destruct absolute; [lia|]. rewrite length_app. done.
Qed.

Lemma normalize_loop_length absolute root_len : forall fuel path b,
  (push_separator b = b \/ path = [] \/ is_absolute path = true) ->
  (length (normalize_loop fuel absolute root_len path b) <= length b + length path)%nat.
Proof.
  induction fuel as [|fuel IH]; intros path b Hb; cbn [normalize_loop]; [lia|].
  pose proof (skip_length path) as Hlen.
  assert (Hskip : is_absolute path = true -> (S (length (skip_separators path)) <= length path)%nat).
  { destruct path as [|c path]; [done|]. cbn. intros ->. pose proof (skip_length path). lia. }
  destruct (skip_separators path) as [|x rest] eqn:Hs; [lia|].
  destruct (take_component (x :: rest)) as [c rest'] eqn:Ht.
  destruct (take_component_spec _ _ _ Ht) as (Heq & _ & Hr).
  pose proof (component_step_length absolute root_len b c) as Hstep.
  assert (Hpush : (length (push_separator b) <= S (length b))%nat).
  { unfold push_separator. destruct (_ && _); [rewrite length_app; cbn|]; lia. }
  assert (length (x :: rest) = length c + length rest')%nat as Hl by (by rewrite Heq, length_app).
  etransitivity; [apply IH; by right|]. destruct Hb as [Hb|[Hb|Hb]].
  - rewrite Hb in Hstep. lia.
  - by rewrite Hb in Hs.
  - specialize (Hskip Hb). lia.
Qed.

Lemma normalize_length path : (length (normalize path) <= length path)%nat.
Proof.
  unfold normalize. fold (is_absolute path). destruct (is_absolute path) eqn:Ha.
  - etransitivity; [unfold strip_trailing; rewrite length_take; apply Nat.le_min_r|].
    etransitivity; [apply normalize_loop_length; by left|]. cbn. destruct path as [|c path]; [done|].
    cbn in Ha |- *. rewrite Ha. pose proof (skip_length path). lia.
  - etransitivity; [unfold strip_trailing; rewrite length_take; apply Nat.le_min_r|].
    etransitivity; [apply normalize_loop_length; by left|]. cbn. lia.
Qed.

(** With a root that counts, the answer is the comparison unless memory fails. *)
Lemma validate_answers p root path o : workspace_root p = Some root -> allow_outside_workspace p = false ->
  path <> EmptyString ->
  let x := (turbo_agent_policy_validate_path (Some p) (Some path) o).1 in
  x = inside_root (normalize (String.list_ascii_of_string root)) (normalize (String.list_ascii_of_string path)) \/
  x = false /\ ~ plenty o.
Proof.
  intros Hroot Hout Hpath. unfold turbo_agent_policy_validate_path, turbo_policy_normalize_path, create.
  destruct path as [|ch path]; [done|]. rewrite Hroot, Hout.
  unfold mbind, mem_bind, need. pose proof (alloc_ample o) as Ho.
  destruct (alloc o) as [a1 o1]. pose proof (alloc_ample o1) as Ho1. cbn beta iota.
  destruct (alloc o1) as [a2 o2]. cbn in *. destruct a1, a2; cbn; [by left|..]; right; (split; [done|]); intros Hp; destruct (Ho Hp) as [? Hp1]; try done.
  by destruct (Ho1 Hp1).
Qed.

(** C18. Paths are confined.  When the workspace root ends in a name, an accepted path
    names something in the workspace, whatever the working directory; for an absolute
    root, with memory, the accepted paths are exactly the absolute ones that do.  A
    normalized path fits the buffer of its length.  A relative root that resolves to
    nothing, such as [.] or [a/..], accepts every path; a root such as [..] does not
    end in a name either, and nothing is said of it here. *)
Theorem policy_confines_paths (p : turbo_agent_policy) (root path : string) (o : oracle) :
  workspace_root p = Some root -> allow_outside_workspace p = false -> path <> EmptyString ->
  let r := String.list_ascii_of_string root in
  let f := String.list_ascii_of_string path in
  let (accepted, _) := turbo_agent_policy_validate_path (Some p) (Some path) o in
  (ends_in_name r -> accepted = true -> forall cwd, locate cwd r `prefix_of` locate cwd f) /\
  (ends_in_name r -> is_absolute r = true -> plenty o ->
    accepted = true <-> is_absolute f = true /\ locate [] r `prefix_of` locate [] f) /\
  (length (normalize r) <= length r)%nat /\ (length (normalize f) <= length f)%nat /\
  (is_absolute r = false -> resolved r = [] -> plenty o -> accepted = true).
Proof.
  intros Hroot Hout Hpath r f. pose proof (validate_answers p root path o Hroot Hout Hpath) as Hx.
  destruct (turbo_agent_policy_validate_path (Some p) (Some path) o) as [accepted o']. cbn in Hx. fold r f in Hx.
  assert (Hin : plenty o -> accepted = inside_root (normalize r) (normalize f)) by (by destruct Hx as [|[? ?]]).
  split_and!; try apply normalize_length.
  - intros Hend Hacc cwd. destruct Hx as [Hx|[Hx _]]; [|congruence]. rewrite Hx in Hacc.
    destruct (inside_confined r f Hend Hacc) as (Ha & qs & Hqs & Hn).
    rewrite !locate_resolved, Ha, Hqs, walk_app, (walk_names _ qs) by done. by exists qs.
  - intros Hend Ha Hp. rewrite (Hin Hp), !locate_resolved, Ha. split.
    + intros Hacc. destruct (inside_confined r f Hend Hacc) as (Hf & qs & Hqs & Hn). rewrite Ha in Hf.
      split; [done|]. rewrite <- Hf, Hqs, walk_app, (walk_names _ qs) by done. by exists qs.
    + intros [Hf [qs Hqs]]. rewrite Hf, !walk_names in Hqs by (by apply absolute_names). cbn in Hqs.
      destruct (normalize_spec r) as [-> Hr]. destruct (normalize_spec f) as [-> Hf'].
      destruct Hend as (st & x & Hst & _). apply inside_render; [done|done|rewrite Hst; by destruct st|].
      rewrite Ha, Hf. split; [done|]. by exists qs.
  - intros Ha Hr Hp. rewrite (Hin Hp). destruct (normalize_spec r) as [-> _]. by rewrite Ha, Hr.
Qed.

(** ** Tools *)

Section tools.
Context {J W : Type} `{JsonLaws J, Cmeta} (sizeof_native_projection : Z).

Abbreviation registry := (turbo_tool_registry (J := J) (W := W)).
Abbreviation entry := (turbo_tool_entry (J := J) (W := W)).

Definition granted (policy : option turbo_agent_policy) (c : turbo_agent_policy_capability) : Prop :=
  (capability_flag (default turbo_agent_policy_default policy) c).1 = true.

(** What a tool needs: custom tools when it says nothing, else all it names. *)
Definition permitted (policy : option turbo_agent_policy) (required : list string) : Prop :=
  match required with
  | [] => granted policy TURBO_AGENT_POLICY_CAPABILITY_CUSTOM_TOOLS
  | _ => Forall (fun name => exists c, turbo_agent_policy_capability_from_name name = Some c /\ granted policy c) required
  end.

Lemma check_required_allows policy required : (check_required policy required).1 = TURBO_AGENT_POLICY_ALLOW <->
  Forall (fun name => exists c, turbo_agent_policy_capability_from_name name = Some c /\ granted policy c) required.
Proof.
  induction required as [|name required IH]; [done|]. cbn [check_required]. rewrite Forall_cons.
  destruct (turbo_agent_policy_capability_from_name name) as [c|] eqn:Hc.
  - unfold turbo_agent_policy_allows_capability, granted in *. rewrite <- IH.
    destruct (capability_flag _ c) as [[] reason] eqn:Hf; cbn.
    + split; [|by intros [_ ?]]. intros Ha. split; [|done]. exists c. by rewrite Hf.
    + split; [done|]. intros [(c' & [= <-] & Hg) _]. by rewrite Hf in Hg.
  - cbn. split; [done|]. by intros [(c & ? & _) _].
Qed.

Lemma check_tool_allows policy (r : registry) name :
  (turbo_agent_policy_check_tool policy (Some r) (Some name)).1 = TURBO_AGENT_POLICY_ALLOW <->
  exists e, found (Some r) (Some name) = Some e /\ permitted policy (e_required_capabilities e).
Proof.
  unfold turbo_agent_policy_check_tool, turbo_tool_registry_get_required_capabilities, read_entry.
  destruct (found (Some r) (Some name)) as [e|]; [|cbn; split; [done|by intros (? & ? & _)]].
  assert (Hiff : forall P, (exists e0, Some e = Some e0 /\ P e0) <-> P e)
    by (intros P; split; [by intros (? & [= <-] & ?)|by exists e]).
  rewrite (Hiff (fun e => permitted policy (e_required_capabilities e))).
  destruct (e_required_capabilities e) as [|c cs] eqn:Hcs; [|apply check_required_allows].
  unfold turbo_agent_policy_allows_capability, permitted, granted.
  by destruct (capability_flag _ _) as [[] reason].
Qed.

Lemma check_tool_decides policy (r : registry) name :
  (turbo_agent_policy_check_tool policy (Some r) (Some name)).1 <> TURBO_AGENT_POLICY_ALLOW ->
  (turbo_agent_policy_check_tool policy (Some r) (Some name)).1 = TURBO_AGENT_POLICY_DENY.
Proof.
  assert (Hreq : forall required, (check_required policy required).1 <> TURBO_AGENT_POLICY_ALLOW ->
    (check_required policy required).1 = TURBO_AGENT_POLICY_DENY).
  { induction required as [|n required IH]; [done|]. cbn [check_required].
    destruct (turbo_agent_policy_capability_from_name n); [|done].
    by destruct (turbo_agent_policy_allows_capability _ _) as [[] ?]. }
  unfold turbo_agent_policy_check_tool. destruct (turbo_tool_registry_get_required_capabilities _ _) as [[] [|c cs]];
    try done; [|apply Hreq]. by destruct (turbo_agent_policy_allows_capability _ _) as [[] ?].
Qed.

(** A policy that grants nothing denies every tool. *)
Lemma nothing_permitted required : ~ permitted None required.
Proof.
  destruct required as [|name required]; [by unfold permitted, granted|].
  intros [(c & _ & Hc) _]%Forall_cons. by destruct c.
Qed.

Lemma filter_names (P : string -> Prop) `{!forall x, Decision (P x)} (Q : entry -> Prop) `{!forall x, Decision (Q x)}
    (l : list entry) : (forall e, e ∈ l -> P (e_name e) <-> Q e) ->
  filter P (e_name <$> l) = e_name <$> filter Q l.
Proof.
  induction l as [|e l IH]; intros HPQ; [done|]. rewrite fmap_cons, !filter_cons.
  assert (Hrest : forall e, e ∈ l -> P (e_name e) <-> Q e) by (intros x Hx; apply HPQ; by right).
  specialize (HPQ e (list_elem_of_here _ _)).
  destruct (decide (P (e_name e))), (decide (Q e)); try tauto. rewrite fmap_cons. f_equal. by apply IH.
Qed.

Lemma found_own (r : registry) e : NoDup (e_name <$> entries r) -> e ∈ entries r ->
  found (Some r) (Some (e_name e)) = Some e.
Proof.
  intros Hnd [i Hi]%list_elem_of_lookup. unfold found, turbo_tool_registry_find.
  by rewrite (find_exact_unique _ _ i e Hnd Hi).
Qed.

Lemma named_unique (r : registry) (l k : list entry) : NoDup (e_name <$> entries r) ->
  Forall (fun e => e ∈ entries r) k -> named r (Some <$> (e_name <$> k)) l -> l = k.
Proof.
  intros Hnd Hk Hn. unfold named in Hn. rewrite !Forall2_fmap_l in Hn.
  induction Hn as [|e e' k l [[= Hname] Hin] _ IH]; [done|]. apply Forall_cons in Hk as [He Hk].
  f_equal; [|by apply IH]. pose proof (found_own r e Hnd He) as Hf. rewrite Hname in Hf.
  rewrite (found_own r e' Hnd Hin) in Hf. congruence.
Qed.

#[local] Instance permitted_decision policy required : Decision (permitted policy required).
Proof.
  destruct required as [|name required]; [unfold permitted, granted; apply _|].
  destruct (decide ((check_required policy (name :: required)).1 = TURBO_AGENT_POLICY_ALLOW)) as [Hd|Hd];
    rewrite check_required_allows in Hd; [by left|by right].
Defined.

Lemma allowed_names_spec policy (source : registry) : NoDup (e_name <$> entries source) ->
  allowed_names policy source =
  Some <$> (e_name <$> filter (fun e => permitted policy (e_required_capabilities e)) (entries source)).
Proof.
  intros Hnd. unfold allowed_names. f_equal. apply filter_names. intros e He.
  rewrite check_tool_allows, (found_own source e Hnd He).
  split; [by intros (? & [= <-] & ?)|by exists e].
Qed.

(** The projection keeps names and capabilities. *)
Lemma contract_capabilities (l k : list entry) e' : Forall2 (same_contract sizeof_native_projection) l k -> e' ∈ k ->
  exists e, e ∈ l /\ e_name e' = e_name e /\ e_required_capabilities e' = e_required_capabilities e.
Proof.
  intros Hc [i Hi]%list_elem_of_lookup. destruct (Forall2_lookup_r _ _ _ _ _ Hc Hi) as (e & He & Hsame).
  exists e. split; [by eapply list_elem_of_lookup_2|]. destruct Hsame. by split.
Qed.

(** C19. What a policy shows is what it lets run.  Projecting a registry for a policy
    either fails with no registry, or gives a well-formed registry with exactly the
    tools, in order and with their contracts, whose capabilities the policy grants;
    any name that resolves in it is one the policy allows, in the projection and by
    the tool's own name in the source; destroying it leaves the source's user data
    alone.  Without a policy no tool is allowed at all. *)
Theorem policy_projection_exact (policy : option turbo_agent_policy) (source : registry) (o : oracle) (w : W) :
  registry_wf sizeof_native_projection source ->
  let b := turbo_agent_tool_authority_project sizeof_native_projection policy (Some source) o in
  (b.1.1 = TURBO_TOOL_OK -> exists r' : registry, b.1.2 = Some (Some r') /\
    registry_wf sizeof_native_projection r' /\
    Forall2 (same_contract sizeof_native_projection)
      (filter (fun e => permitted policy (e_required_capabilities e)) (entries source)) (entries r') /\
    turbo_tool_registry_destroy (Some r') w = w /\
    forall name e, found (Some r') (Some name) = Some e ->
      (turbo_agent_policy_check_tool policy (Some r') (Some name)).1 = TURBO_AGENT_POLICY_ALLOW /\
      (turbo_agent_policy_check_tool policy (Some source) (Some (e_name e))).1 = TURBO_AGENT_POLICY_ALLOW) /\
  (b.1.1 <> TURBO_TOOL_OK -> b.1.2 = Some None) /\
  (forall name, (turbo_agent_policy_check_tool None (Some source) (Some name)).1 = TURBO_AGENT_POLICY_DENY).
Proof.
  intros Hwf b. pose proof (wf_names _ _ Hwf) as Hnd. split_and!.
  3: { intros name. apply check_tool_decides. intros (e & _ & Hp)%check_tool_allows. by destruct (nothing_permitted _ Hp). }
  all: subst b; unfold turbo_agent_tool_authority_project.
  - destruct (match entries source with [] => (true, o) | _ => alloc o end) as [[] o1]; cbn [negb]; [|done].
    destruct (projection_faithful sizeof_native_projection source (allowed_names policy source) [] o1 w Hwf
      (List.Forall_nil _)) as [[Hok _] _].
    intros Hs. destruct (Hok Hs) as (r' & l & Hr' & Hwf' & Hl & Hall & Hdestroy). exists r'.
    rewrite allowed_names_spec in Hl by done.
    apply named_unique in Hl; [subst l|done|apply Forall_forall; by intros e [_ ?]%list_elem_of_filter].
    split_and!; [done..|]. intros name e Hf.
    destruct (contract_capabilities _ _ e Hall (found_member _ _ _ Hf)) as (e0 & [Hp Hin]%list_elem_of_filter & Hn & Hc).
    rewrite <- Hc in Hp. split; apply check_tool_allows; [by exists e|].
    exists e0. rewrite Hn, <- Hc. split; [by apply found_own|done].
  - destruct (match entries source with [] => (true, o) | _ => alloc o end) as [[] o1]; cbn [negb]; [|done].
    destruct (projection_faithful sizeof_native_projection source (allowed_names policy source) [] o1 w Hwf
      (List.Forall_nil _)) as [[_ Hfail] _]. exact Hfail.
Qed.

End tools.

(** ** Actions *)

(** The pattern stands in the text, whatever the case of letters. *)
Definition occurs (pattern text : chars) : Prop :=
  exists before after, tolower <$> text = before ++ (tolower <$> pattern) ++ after.

Lemma starts_with_spec text pattern : starts_with text pattern = true <->
  exists after, tolower <$> text = (tolower <$> pattern) ++ after.
Proof.
  revert text. induction pattern as [|p pattern IH]; intros text; cbn.
  - split; [intros _; by eexists|by intros _; destruct text].
  - destruct text as [|t text]; cbn; [split; [done|by intros [? ?]]|].
    rewrite andb_true_iff, bool_decide_eq_true, IH. split.
    + intros [-> [after ->]]. by exists after.
    + intros [after [= -> Heq]]. split; [done|]. by exists after.
Qed.

Lemma contains_spec text pattern : pattern <> [] ->
  turbo_policy_ascii_contains_case_insensitive text pattern = true <-> occurs pattern text.
Proof.
  intros Hne. unfold turbo_policy_ascii_contains_case_insensitive. destruct pattern as [|p pattern]; [done|].
  clear Hne. induction text as [|t text IH]; unfold occurs; cbn [contains_from].
  - split; [done|]. intros (before & after & Heq). by destruct before.
  - rewrite orb_true_iff, starts_with_spec, IH. unfold occurs. split.
    + intros [[after Heq]|(before & after & Heq)]; [by exists [], after|].
      exists (tolower t :: before), after. cbn [fmap list_fmap app]. by f_equal.
    + intros ([|b before] & after & Heq); [left; by exists after|right].
      exists before, after. by injection Heq.
Qed.

Definition dangerous (command : string) : Prop := exists pattern, pattern ∈ dangerous_patterns /\
  occurs (String.list_ascii_of_string pattern) (String.list_ascii_of_string command).

Lemma dangerous_spec command : turbo_agent_policy_is_dangerous_command (Some command) = true <-> dangerous command.
Proof.
  unfold turbo_agent_policy_is_dangerous_command, dangerous. rewrite existsb_exists. split.
  - intros (pattern & Hin & Hc). exists pattern. rewrite list_elem_of_In. split; [done|].
    apply contains_spec; [|done]. repeat destruct Hin as [<-|Hin]; done.
  - intros (pattern & Hin & Hc). exists pattern. apply list_elem_of_In in Hin. split; [done|].
    apply contains_spec; [|done]. repeat destruct Hin as [<-|Hin]; done.
Qed.

Section actions.
Context {J : Type} `{JsonApi J}.

(** The path argument, if there is one, validates. *)
Definition path_accepted (p : turbo_agent_policy) (args : option J) (o : oracle) : Prop :=
  forall path, turbo_policy_get_path_arg args = Some path ->
    (turbo_agent_policy_validate_path (Some p) (Some path) o).1 = true.

(** The kinds of action the policy forbids. *)
Definition kind_forbidden (p : turbo_agent_policy) (d : turbo_action_tool_definition) : Prop :=
  action_kind d = TURBO_ACTION_MUTATE /\ allow_patch p = false \/
  action_kind d = TURBO_ACTION_DANGEROUS /\ allow_shell p = false.

(** What a person has to approve. *)
Definition needs_approval (d : turbo_action_tool_definition) (args : option J) : Prop :=
  action_kind d = TURBO_ACTION_DANGEROUS \/ requires_approval d = true \/
  exists command, argument args "command" = Some command /\ dangerous command.

Lemma check_kind_spec p d (args : option J) : let decision := (check_kind p d args).1 in
  (decision = TURBO_AGENT_POLICY_DENY <-> kind_forbidden p d) /\
  (decision = TURBO_AGENT_POLICY_REQUIRE_APPROVAL <-> ~ kind_forbidden p d /\ needs_approval d args) /\
  (decision = TURBO_AGENT_POLICY_ALLOW <-> ~ kind_forbidden p d /\ ~ needs_approval d args).
Proof.
  cbn zeta. unfold check_kind, kind_forbidden, needs_approval.
  assert (Hd : turbo_agent_policy_is_dangerous_command (argument args "command") = true <->
    exists command, argument args "command" = Some command /\ dangerous command).
  { destruct (argument args "command") as [command|].
    - rewrite dangerous_spec. split; [by exists command|by intros (? & [= <-] & ?)].
    - cbn. split; [done|by intros (? & ? & _)]. }
  rewrite <- Hd. destruct d as [kind ra]. cbn.
  destruct (turbo_agent_policy_is_dangerous_command (argument args "command")), ra, kind, (allow_patch p),
    (allow_shell p), (auto_approve_safe p); cbn; repeat (case_bool_decide; try done); cbn; intuition congruence.
Qed.

(** Whether an action runs.  It is denied exactly when its path argument does not
    validate, or it changes files and patches are not allowed, or it is dangerous and
    the shell is not allowed; otherwise it waits for approval exactly when it is of
    the dangerous kind, declares that it needs approval, or has a command that
    contains one of the dangerous patterns in any case of letters; and it is allowed
    exactly when none of these holds, so no policy runs a dangerous action unasked. *)
Theorem policy_action_gate (policy : option turbo_agent_policy) (d : turbo_action_tool_definition)
    (args : option J) (o : oracle) :
  let p := default turbo_agent_policy_default policy in
  let decision := (turbo_agent_policy_check_action policy (Some d) args o).1.1 in
  (decision = TURBO_AGENT_POLICY_DENY <-> ~ path_accepted p args o \/ kind_forbidden p d) /\
  (decision = TURBO_AGENT_POLICY_REQUIRE_APPROVAL <->
     path_accepted p args o /\ ~ kind_forbidden p d /\ needs_approval d args) /\
  (decision = TURBO_AGENT_POLICY_ALLOW <->
     path_accepted p args o /\ ~ kind_forbidden p d /\ ~ needs_approval d args).
Proof.
  cbn zeta. unfold turbo_agent_policy_check_action, path_accepted.
  set (p := default turbo_agent_policy_default policy). pose proof (check_kind_spec p d args) as (Hdeny & Hask & Hallow).
  destruct (turbo_policy_get_path_arg args) as [path|].
  - destruct (turbo_agent_policy_validate_path (Some p) (Some path) o) as [[] o'] eqn:Hv; cbn.
    + assert (Hacc : (forall q, Some path = Some q ->
        (turbo_agent_policy_validate_path (Some p) (Some q) o).1 = true) <-> True).
      { split; [done|]. intros _ q [= <-]. by rewrite Hv. }
      rewrite Hacc, Hdeny, Hask, Hallow. tauto.
    + assert (Hacc : (forall q, Some path = Some q ->
        (turbo_agent_policy_validate_path (Some p) (Some q) o).1 = true) <-> False).
      { split; [|done]. intros Hq. specialize (Hq path eq_refl). by rewrite Hv in Hq. }
      rewrite Hacc. intuition congruence.
  - assert (Hacc : (forall q, (None : option string) = Some q ->
      (turbo_agent_policy_validate_path (Some p) (Some q) o).1 = true) <-> True) by done.
    cbn [fst snd]. rewrite Hacc, Hdeny, Hask, Hallow. tauto.
Qed.

End actions.

(** ** Concrete policies *)

Module AgentPolicyRuns.
Import JsonTree CmetaToy ToolRegistryRuns.

Definition rooted (root : string) : turbo_agent_policy :=
  mk_policy (Some root) true true true true true true true false 1 32 3.

Definition validates (root path : string) : bool :=
  (turbo_agent_policy_validate_path (Some (rooted root)) (Some path) []).1.

Example paths : (validates "/ws" "/ws/src/../main.c", validates "/ws" "/ws/../etc", validates "/ws" "/wsx",
    validates "/ws" "ws/a", validates "/ws/" "//ws//a/./b") = (true, false, false, false, true).
Proof. vm_compute. reflexivity. Qed.

(** The roots that bound nothing, and the one that admits only itself. *)
Example unbounded_roots : (validates "." "/etc/passwd", validates ".." "../../secret", validates "/" "/etc",
    validates "/" "/") = (true, true, false, true).
Proof. vm_compute. reflexivity. Qed.

Lemma ws_ends_in_name : ends_in_name (String.list_ascii_of_string "/ws").
Proof. exists [], (String.list_ascii_of_string "ws"). split; [by vm_compute|]. by vm_compute. Qed.

Lemma policy_confines_paths_witness : validates "/ws" "/ws/src/../main.c" = true /\
  locate [] (String.list_ascii_of_string "/ws") `prefix_of`
  locate [] (String.list_ascii_of_string "/ws/src/../main.c").
Proof.
  split; [by vm_compute|].
  pose proof (policy_confines_paths (rooted "/ws") "/ws" "/ws/src/../main.c" [] eq_refl eq_refl ltac:(done)) as Hp.
  assert (Hv : (turbo_agent_policy_validate_path (Some (rooted "/ws")) (Some "/ws/src/../main.c") []).1 = true)
    by (by vm_compute).
  destruct (turbo_agent_policy_validate_path (Some (rooted "/ws")) (Some "/ws/src/../main.c") []) as [x o'].
  destruct Hp as [Hp _]. exact (Hp ws_ends_in_name Hv []).
Defined.

Lemma policy_projection_exact_witness : registry_wf 40 two /\ exists r' : toy_registry,
  registry_wf 40 r' /\ Forall2 (same_contract 40) (entries two) (entries r') /\
  turbo_tool_registry_destroy (Some r') ["kept"] = ["kept"].
Proof.
  pose proof (built_registry_wf 40 two two_built) as Hwf. split; [exact Hwf|].
  destruct (policy_projection_exact (J := jtree) 40 (Some (rooted "/ws")) two [] ["kept"] Hwf) as [Hok _].
  destruct Hok as (r' & _ & Hwf' & Hall & Hd & _); [vm_compute; reflexivity|].
  exists r'. split; [exact Hwf'|]. split; [|exact Hd]. exact Hall.
Defined.

End AgentPolicyRuns.
