(* ===== verification/AgentInbox.v ===== *)
(** * The inbox of a session (src/agent/src/turbo_agent_inbox.c)

    A bounded queue of user messages whose payloads and transitions are records of
    a runtime's store, so that a new process can recover it.  An operation is a
    few sections under the inbox's mutex with store operations between them; each
    section is a definition of its own, and the operation is their composition.

    Identifiers and timestamps come from the host (cmeta, the system clock).  The
    deque is the library's: it has room for [max_items] entries from the start. *)

From S2P Require Import Prelude RuntimeJson JsonBuild JsonMem RuntimeStore.

#[local] Open Scope string_scope.
#[local] Open Scope list_scope.
#[local] Open Scope Z_scope.

Definition PAYLOADS : string := "agent_inbox_payloads".
Definition TRANSITIONS : string := "agent_inbox_transitions".
Definition MAX_EXACT_JSON_INTEGER : Z := 9007199254740991.

(* src/agent/include/turbo_agent_inbox.h 19-22 turbo_agent_inbox_kind_t *)
Inductive turbo_agent_inbox_kind : Type := TURBO_AGENT_INBOX_STEER | TURBO_AGENT_INBOX_FOLLOW_UP.

#[global] Instance inbox_kind_eq_dec : EqDecision turbo_agent_inbox_kind.
Proof. solve_decision. Defined.

(* src/agent/include/turbo_agent_inbox.h 24-28 turbo_agent_inbox_status_t *)
Inductive turbo_agent_inbox_status_kind : Type :=
| TURBO_AGENT_INBOX_QUEUED | TURBO_AGENT_INBOX_CLAIMED | TURBO_AGENT_INBOX_APPLIED.

#[global] Instance inbox_status_eq_dec : EqDecision turbo_agent_inbox_status_kind.
Proof. solve_decision. Defined.

(* src/agent/include/turbo_agent_inbox.h 30-37 turbo_agent_inbox_config_t *)
Record turbo_agent_inbox_config : Type := mk_inbox_config {
  max_items : Z;
  max_total_bytes : Z;
  max_item_bytes : Z;
  max_follow_ups_per_execution : Z
}.

(* src/agent/src/turbo_agent_inbox.c 21-27 turbo_agent_inbox_ready_t *)
Record turbo_agent_inbox_ready : Type := mk_ready {
  inbox_id : string;
  kind : turbo_agent_inbox_kind;
  payload_bytes : Z;
  sequence : Z;
  transition_seq : Z
}.

(* src/agent/src/turbo_agent_inbox.c 29-45 turbo_agent_inbox_s *)
Record turbo_agent_inbox : Type := mk_inbox {
  thread_id : string;
  config : turbo_agent_inbox_config;
  ready : list turbo_agent_inbox_ready;
  used_items : Z;
  used_bytes : Z;
  reserved_items : Z;
  reserved_bytes : Z;
  next_sequence : Z;
  closed : bool;
  active_claim : option turbo_agent_inbox_ready;
  active_event_id : option string
}.

Definition set_ready (l : list turbo_agent_inbox_ready) (i : turbo_agent_inbox) : turbo_agent_inbox :=
  mk_inbox (thread_id i) (config i) l (used_items i) (used_bytes i) (reserved_items i) (reserved_bytes i)
    (next_sequence i) (closed i) (active_claim i) (active_event_id i).
Definition set_used (items bytes : Z) (i : turbo_agent_inbox) : turbo_agent_inbox :=
  mk_inbox (thread_id i) (config i) (ready i) items bytes (reserved_items i) (reserved_bytes i)
    (next_sequence i) (closed i) (active_claim i) (active_event_id i).
Definition set_reserved (items bytes : Z) (i : turbo_agent_inbox) : turbo_agent_inbox :=
  mk_inbox (thread_id i) (config i) (ready i) (used_items i) (used_bytes i) items bytes
    (next_sequence i) (closed i) (active_claim i) (active_event_id i).
Definition set_next_sequence (n : Z) (i : turbo_agent_inbox) : turbo_agent_inbox :=
  mk_inbox (thread_id i) (config i) (ready i) (used_items i) (used_bytes i) (reserved_items i)
    (reserved_bytes i) n (closed i) (active_claim i) (active_event_id i).
Definition set_closed (i : turbo_agent_inbox) : turbo_agent_inbox :=
  mk_inbox (thread_id i) (config i) (ready i) (used_items i) (used_bytes i) (reserved_items i)
    (reserved_bytes i) (next_sequence i) true (active_claim i) (active_event_id i).
Definition set_active (claim : option turbo_agent_inbox_ready) (event : option string)
    (i : turbo_agent_inbox) : turbo_agent_inbox :=
  mk_inbox (thread_id i) (config i) (ready i) (used_items i) (used_bytes i) (reserved_items i)
    (reserved_bytes i) (next_sequence i) (closed i) claim event.

(** ** Texts *)

(* src/agent/src/turbo_agent_inbox.c 51-53 turbo_agent_inbox_kind_text *)
Definition turbo_agent_inbox_kind_text (k : turbo_agent_inbox_kind) : string :=
  match k with TURBO_AGENT_INBOX_STEER => "steer" | TURBO_AGENT_INBOX_FOLLOW_UP => "follow_up" end.

(** 0, which is no kind, is [None]. *)
(* src/agent/src/turbo_agent_inbox.c 55-59 turbo_agent_inbox_kind_from_text *)
Definition turbo_agent_inbox_kind_from_text (k : option string) : option turbo_agent_inbox_kind :=
  k ← k;
  if bool_decide (k = "steer") then Some TURBO_AGENT_INBOX_STEER
  else if bool_decide (k = "follow_up") then Some TURBO_AGENT_INBOX_FOLLOW_UP else None.

(* src/agent/src/turbo_agent_inbox.c 61-72 turbo_agent_inbox_status_text *)
Definition turbo_agent_inbox_status_text (s : turbo_agent_inbox_status_kind) : string :=
  match s with
  | TURBO_AGENT_INBOX_QUEUED => "queued"
  | TURBO_AGENT_INBOX_CLAIMED => "claimed"
  | TURBO_AGENT_INBOX_APPLIED => "applied"
  end.

(* src/agent/src/turbo_agent_inbox.c 74-79 turbo_agent_inbox_status_from_text *)
Definition turbo_agent_inbox_status_from_text (s : option string) : option turbo_agent_inbox_status_kind :=
  s ← s;
  if bool_decide (s = "queued") then Some TURBO_AGENT_INBOX_QUEUED
  else if bool_decide (s = "claimed") then Some TURBO_AGENT_INBOX_CLAIMED
  else if bool_decide (s = "applied") then Some TURBO_AGENT_INBOX_APPLIED else None.

(* src/agent/src/turbo_agent_inbox.c 81-83 turbo_agent_inbox_saturating_add *)
Definition turbo_agent_inbox_saturating_add (left right : Z) : Z :=
  if UINT64_MAX - left <? right then UINT64_MAX else left + right.

(** ** The queue *)

Definition deque_push_back (i : turbo_agent_inbox) (l : list turbo_agent_inbox_ready)
    (entry : turbo_agent_inbox_ready) : option (list turbo_agent_inbox_ready) :=
  if Z.of_nat (length l) <? max_items (config i) then Some (l ++ [entry]) else None.

(** The entry at [index] moves towards the front past later ones. *)
(* src/agent/src/turbo_agent_inbox.c 103-115 turbo_agent_inbox_ready_insert *)
Fixpoint move_forward (index : nat) (l : list turbo_agent_inbox_ready) : list turbo_agent_inbox_ready :=
  match index with
  | O => l
  | S before =>
      match l !! index, l !! before with
      | Some current, Some previous =>
          if sequence previous <=? sequence current then l
          else move_forward before (<[before := current]> (<[index := previous]> l))
      | _, _ => l
      end
  end.

(* src/agent/src/turbo_agent_inbox.c 98-117 turbo_agent_inbox_ready_insert *)
Definition turbo_agent_inbox_ready_insert (i : turbo_agent_inbox) (entry : turbo_agent_inbox_ready)
  : salts_status * turbo_agent_inbox :=
  match deque_push_back i (ready i) entry with
  | None => (SALTS_ENOMEM, i)
  | Some l => (SALTS_OK, set_ready (move_forward (length l - 1) l) i)
  end.

(** [count] entries are looked at; those of another kind go to the back. *)
(* src/agent/src/turbo_agent_inbox.c 125-136 turbo_agent_inbox_ready_take_kind *)
Fixpoint take_kind_loop (i : turbo_agent_inbox) (k : turbo_agent_inbox_kind) (count : nat)
    (l : list turbo_agent_inbox_ready)
  : (turbo_agent_inbox_ready + salts_status) * list turbo_agent_inbox_ready :=
  match count with
  | O => (inr SALTS_ENOENT, l)
  | S count =>
      match l with
      | [] => (inr SALTS_EIO, l)
      | entry :: rest =>
          if bool_decide (kind entry = k) then (inl entry, rest)
          else
            match deque_push_back i rest entry with
            | Some l => take_kind_loop i k count l
            | None => (inr SALTS_EIO, rest)
            end
      end
  end.

(* src/agent/src/turbo_agent_inbox.c 119-138 turbo_agent_inbox_ready_take_kind *)
Definition turbo_agent_inbox_ready_take_kind (i : turbo_agent_inbox) (k : turbo_agent_inbox_kind)
  : (turbo_agent_inbox_ready + salts_status) * turbo_agent_inbox :=
  let (found, l) := take_kind_loop i k (length (ready i)) (ready i) in (found, set_ready l i).

(* src/agent/src/turbo_agent_inbox.c 140-144 turbo_agent_inbox_has_capacity *)
Definition turbo_agent_inbox_has_capacity (i : turbo_agent_inbox) (bytes : Z) : bool :=
  (u64 (used_items i + reserved_items i) <? max_items (config i)) &&
  (bytes <=? u64 (max_total_bytes (config i) - u64 (used_bytes i + reserved_bytes i))).

(** Waiting for room.  [turns] is what happens: at each turn the clock that is read
    and what others make of the inbox before the wait returns.  None: the code is
    still waiting when the turns end. *)
(* src/agent/src/turbo_agent_inbox.c 146-166 turbo_agent_inbox_wait_for_capacity *)
Fixpoint wait_loop (deadline : option Z) (bytes : Z) (turns : list (Z * (turbo_agent_inbox -> turbo_agent_inbox)))
    (i : turbo_agent_inbox) : option (salts_status * turbo_agent_inbox) :=
  if closed i then Some (SALTS_ECANCELED, i)
  else if turbo_agent_inbox_has_capacity i bytes then Some (SALTS_OK, i)
  else
    match turns with
    | [] => None
    | (now, others) :: turns =>
        match deadline with
        | Some d => if d <=? now then Some (SALTS_EBUSY, i) else wait_loop deadline bytes turns (others i)
        | None => wait_loop deadline bytes turns (others i)
        end
    end.

Definition WAIT_INFINITE : Z := UINT64_MAX.

(* src/agent/src/turbo_agent_inbox.c 146-166 turbo_agent_inbox_wait_for_capacity *)
Definition turbo_agent_inbox_wait_for_capacity (i : turbo_agent_inbox) (bytes timeout_ms now : Z)
    (turns : list (Z * (turbo_agent_inbox -> turbo_agent_inbox))) : option (salts_status * turbo_agent_inbox) :=
  wait_loop (if timeout_ms =? WAIT_INFINITE then None else Some (turbo_agent_inbox_saturating_add now timeout_ms))
    bytes turns i.

(** ** The sections under the mutex *)

(** Room and a sequence number for a message. *)
(* src/agent/src/turbo_agent_inbox.c 554-562 turbo_agent_inbox_enqueue *)
Definition reserve_section (bytes : Z) (i : turbo_agent_inbox) : (Z + salts_status) * turbo_agent_inbox :=
  if MAX_EXACT_JSON_INTEGER <? next_sequence i then (inr SALTS_ERANGE, i)
  else
    (inl (next_sequence i),
     set_next_sequence (next_sequence i + 1) (set_reserved (reserved_items i + 1) (reserved_bytes i + bytes) i)).

(* src/agent/src/turbo_agent_inbox.c 607-610 turbo_agent_inbox_enqueue *)
Definition release_reserved (bytes : Z) (i : turbo_agent_inbox) : turbo_agent_inbox :=
  set_reserved (reserved_items i - 1) (reserved_bytes i - bytes) i.

(** The stored message becomes visible. *)
(* src/agent/src/turbo_agent_inbox.c 591-601 turbo_agent_inbox_enqueue *)
Definition commit_section (entry : turbo_agent_inbox_ready) (i : turbo_agent_inbox)
  : salts_status * turbo_agent_inbox :=
  let (st, i) := turbo_agent_inbox_ready_insert (release_reserved (payload_bytes entry) i) entry in
  (st, if bool_decide (st = SALTS_OK)
       then set_used (used_items i + 1) (used_bytes i + payload_bytes entry) i else i).

(* src/agent/src/turbo_agent_inbox.c 661-678 turbo_agent_inbox_claim *)
Definition begin_claim_section (k : turbo_agent_inbox_kind) (i : turbo_agent_inbox)
  : (turbo_agent_inbox_ready + salts_status) * turbo_agent_inbox :=
  if closed i then (inr SALTS_ECANCELED, i)
  else
    match active_claim i with
    | Some _ => (inr SALTS_EBUSY, i)
    | None =>
        let (found, i) := turbo_agent_inbox_ready_take_kind i k in
        match found with
        | inl entry => (inl entry, set_active (Some entry) (active_event_id i) i)
        | inr st => (inr st, i)
        end
    end.

Definition next_transition (entry : turbo_agent_inbox_ready) : turbo_agent_inbox_ready :=
  mk_ready (inbox_id entry) (kind entry) (payload_bytes entry) (sequence entry) (transition_seq entry + 1).

(** After the claim was written, or was not: then the entry goes back. *)
(* src/agent/src/turbo_agent_inbox.c 688-697 turbo_agent_inbox_claim *)
Definition end_claim_section (written : bool) (i : turbo_agent_inbox) : turbo_agent_inbox :=
  if written then set_active (next_transition <$> active_claim i) (active_event_id i) i
  else
    match active_claim i with
    | Some entry => (turbo_agent_inbox_ready_insert (set_active None (active_event_id i) i) entry).2
    | None => i
    end.

Definition is_active (id : string) (i : turbo_agent_inbox) : bool :=
  match active_claim i with Some entry => bool_decide (inbox_id entry = id) | None => false end.

(* src/agent/src/turbo_agent_inbox.c 745-750 turbo_agent_inbox_mark_applied *)
Definition drop_active (id : string) (i : turbo_agent_inbox) : turbo_agent_inbox :=
  if is_active id i then set_active None None i else i.

(* src/agent/src/turbo_agent_inbox.c 744-756 turbo_agent_inbox_mark_applied *)
Definition applied_section (entry : turbo_agent_inbox_ready) (i : turbo_agent_inbox) : turbo_agent_inbox :=
  let i := drop_active (inbox_id entry) i in
  if (0 <? used_items i) && (payload_bytes entry <=? used_bytes i)
  then set_used (used_items i - 1) (used_bytes i - payload_bytes entry) i else i.

(* src/agent/src/turbo_agent_inbox.c 775-785 turbo_agent_inbox_requeue *)
Definition requeue_section (entry : turbo_agent_inbox_ready) (i : turbo_agent_inbox)
  : salts_status * turbo_agent_inbox :=
  turbo_agent_inbox_ready_insert (drop_active (inbox_id entry) i) (next_transition entry).

(* src/agent/src/turbo_agent_inbox.c 791-809 turbo_agent_inbox_bind_applied_event *)
Definition turbo_agent_inbox_bind_applied_event (id event_id : option string) (i : turbo_agent_inbox) (o : oracle)
  : salts_status * turbo_agent_inbox * oracle :=
  match id, event_id with
  | Some (String a id), Some (String b event) =>
      let (copied, o) := alloc o in
      if negb copied then (SALTS_ENOMEM, i, o)
      else if negb (is_active (String a id) i) || bool_decide (is_Some (active_event_id i))
      then (SALTS_EINVAL, i, o)
      else (SALTS_OK, set_active (active_claim i) (Some (String b event)) i, o)
  | _, _ => (SALTS_EINVAL, i, o)
  end.

(* src/agent/src/turbo_agent_inbox.c 834-845 turbo_agent_inbox_close *)
Definition turbo_agent_inbox_close (i : turbo_agent_inbox) : salts_status * turbo_agent_inbox :=
  if closed i then (SALTS_EALREADY, i) else (SALTS_OK, set_closed i).

(** ** Records *)

Section records.
Context {W J : Type} `{JsonSetters J}.
(** New identifiers and the time, from the host; None when it fails. *)
Context (host_uuid host_timestamp : W -> oracle -> option string * W * oracle).
Context (runtime : option (turbo_agent_runtime (W := W))).

Definition from_host (f : W -> oracle -> option string * W * oracle) : io W string := fun w o =>
  match f w o with
  | (Some text, w, o) => (inl text, w, o)
  | (None, w, o) => (inr SALTS_EIO, w, o)
  end.

(* src/agent/src/turbo_agent_inbox.c 85-90 turbo_agent_inbox_make_uuid *)
Definition turbo_agent_inbox_make_uuid : io W string := from_host host_uuid.

(** An empty text counts as none. *)
Definition present (text : option string) : option string :=
  match text with Some EmptyString => None | _ => text end.

(** Setters that are not checked. *)
Definition io_raw (setters : list (raw_setter J)) (obj : J) : io W J := fun w o =>
  let (obj, o) := raw_all setters obj o in (inl obj, w, o).

(* src/agent/src/turbo_agent_inbox.c 168-198 turbo_agent_inbox_build_transition *)
Definition turbo_agent_inbox_build_transition (i : turbo_agent_inbox) (id : string)
    (status : turbo_agent_inbox_status_kind) (action : string) (seq : Z) (run_id event_id : option string)
  : io W (string * J) :=
  tid ← turbo_agent_inbox_make_uuid;
  timestamp ← from_host host_timestamp;
  transition ← io_mem SALTS_ENOMEM create_object;
  transition ← io_raw
      [raw_number "schema_version" 1; raw_string "transition_id" tid; raw_string "inbox_id" id;
       raw_string "thread_id" (thread_id i); raw_string "status" (turbo_agent_inbox_status_text status);
       raw_string "action" action; raw_number "transition_seq" seq; raw_string "created_at" timestamp;
       raw_optional "claimed_by_run_id" (present run_id); raw_optional "applied_event_id" (present event_id)]
      transition;
  mret (tid, transition).

(** A checked copy as a member. *)
Definition io_clone (key : string) (value obj : J) : io W J := fun w o =>
  match turbo_runtime_json_object_set_clone (Some obj) (Some key) (Some value) o with
  | (TURBO_RUNTIME_JSON_OK, Some obj, o) => (inl obj, w, o)
  | (_, _, o) => (inr SALTS_EIO, w, o)
  end.

Definition eio_unless_stored (m : io W unit) : io W unit :=
  r ← io_try m; match r with inl _ => mret tt | inr _ => io_fail SALTS_EIO end.

(** The identifier is read back from the record. *)
(* src/agent/src/turbo_agent_inbox.c 200-216 turbo_agent_inbox_persist_transition *)
Definition turbo_agent_inbox_persist_transition (i : turbo_agent_inbox) (id : string)
    (status : turbo_agent_inbox_status_kind) (action : string) (seq : Z) (run_id event_id : option string)
  : io W unit :=
  built ← turbo_agent_inbox_build_transition i id status action seq run_id event_id;
  eio_unless_stored
    (turbo_agent_runtime_store_put_json runtime (Some TRANSITIONS) (member_string (Some built.2) "transition_id")
       (Some built.2)).

(** [json_get_double]. *)
Definition get_double (v : option J) (key : string) (fallback : cdouble) : cdouble :=
  turbo_runtime_json_value_as_double (member v key) fallback.

(** [value > 0 ? (uint64_t)value : 0]; a fraction is cut off. *)
Definition positive_part (d : cdouble) : Z :=
  match d with
  | DFinite m e => if 0 <? m then Z.shiftl m e else 0
  | _ => 0
  end.

(** The record with the greatest number, the first of equals; None: none has a
    positive one. *)
(* src/agent/src/turbo_agent_inbox.c 232-240 turbo_agent_inbox_latest_transition *)
Definition latest_of (transitions : list J) : option J * Z :=
  foldl (fun (best : option J * Z) candidate =>
    let seq := positive_part (get_double (Some candidate) "transition_seq" (DFinite 0 0)) in
    if best.2 <? seq then (Some candidate, seq) else best) (None, 0) transitions.

(** A copy that fails is reported as absence. *)
(* src/agent/src/turbo_agent_inbox.c 218-244 turbo_agent_inbox_latest_transition *)
Definition turbo_agent_inbox_latest_transition (id : string) : io W J :=
  listed ← io_try (turbo_agent_runtime_store_list_json runtime (Some TRANSITIONS) (Some "inbox_id") (Some id));
  match listed with
  | inr _ => io_fail SALTS_EIO
  | inl transitions =>
      match (latest_of (json_array_items transitions)).1 with
      | Some latest => io_mem SALTS_ENOENT (create (json_clone latest))
      | None => io_fail SALTS_ENOENT
      end
  end.

(** A positive integer a double holds exactly, or with [0] allowed. *)
Definition exact_integer (least : Z) (d : cdouble) : option Z :=
  n ← double_integral d;
  if (least <=? n) && (n <=? MAX_EXACT_JSON_INTEGER) then Some n else None.

Definition is_text (v : option J) (key : string) (text : string) : bool :=
  bool_decide (member_string v key = Some text).

(* src/agent/src/turbo_agent_inbox.c 264-290 turbo_agent_inbox_load_ready *)
Definition read_ready (i : turbo_agent_inbox) (id : string) (payload transition : J)
  : option (turbo_agent_inbox_ready * turbo_agent_inbox_status_kind) :=
  k ← turbo_agent_inbox_kind_from_text (member_string (Some payload) "kind");
  status ← turbo_agent_inbox_status_from_text (member_string (Some transition) "status");
  bytes ← exact_integer 0 (get_double (Some payload) "payload_bytes" (DFinite (-1) 0));
  seq ← exact_integer 1 (get_double (Some payload) "sequence" (DFinite (-1) 0));
  tseq ← exact_integer 1 (get_double (Some transition) "transition_seq" (DFinite (-1) 0));
  if is_text (Some payload) "thread_id" (thread_id i) && is_text (Some transition) "thread_id" (thread_id i)
  then Some (mk_ready id k bytes seq tseq, status) else None.

(* src/agent/src/turbo_agent_inbox.c 246-294 turbo_agent_inbox_load_ready *)
Definition turbo_agent_inbox_load_ready (i : turbo_agent_inbox) (id : string)
  : io W (turbo_agent_inbox_ready * turbo_agent_inbox_status_kind) :=
  payload ← io_try (turbo_agent_runtime_store_get_json runtime (Some PAYLOADS) (Some id));
  match payload with
  | inr _ => io_fail SALTS_EIO
  | inl payload =>
      transition ← turbo_agent_inbox_latest_transition id;
      match read_ready i id payload transition with
      | None => io_fail SALTS_EIO
      | Some found => io_mem SALTS_ENOMEM (create found)
      end
  end.

(** ** The state of the run that claimed a message *)

(* src/runtime/src/turbo_runtime_history.c 76-94 turbo_runtime_history_state_from_checkpoint_record *)
Definition turbo_runtime_history_state_from_checkpoint_record (checkpoint_record : J) : io W J :=
  match json_object_get checkpoint_record "checkpoint_json" with
  | Some checkpoint =>
      if negb (bool_decide (json_type checkpoint = JSON_OBJECT)) then io_fail MINUS_ONE
      else
        match json_object_get checkpoint "state" with
        | Some state => io_mem MINUS_ONE (create (json_clone state))
        | None => io_fail MINUS_ONE
        end
  | None => io_fail MINUS_ONE
  end.

(* src/runtime/src/turbo_runtime_history.c 96-124 turbo_runtime_history_state_from_run_record *)
Definition turbo_runtime_history_state_from_run_record (run_record : J) : io W J :=
  let snapshot := json_object_get run_record "state_snapshot" in
  match snapshot with
  | Some state =>
      if negb (bool_decide (json_type state = JSON_NULL)) then io_mem MINUS_ONE (create (json_clone state))
      else
        match present (member_string (Some run_record) "latest_checkpoint_id") with
        | Some checkpoint_id =>
            record ← turbo_agent_runtime_store_get_json runtime (Some "checkpoints") (Some checkpoint_id);
            turbo_runtime_history_state_from_checkpoint_record record
        | None => io_fail MINUS_ONE
        end
  | None =>
      match present (member_string (Some run_record) "latest_checkpoint_id") with
      | Some checkpoint_id =>
          record ← turbo_agent_runtime_store_get_json runtime (Some "checkpoints") (Some checkpoint_id);
          turbo_runtime_history_state_from_checkpoint_record record
      | None => io_fail MINUS_ONE
      end
  end.

(* src/runtime/src/turbo_runtime_history.c 445-463 turbo_agent_runtime_get_run_state_json_value *)
Definition turbo_agent_runtime_get_run_state_json_value (run_id : string) : io W J :=
  run_record ← io_try (turbo_agent_runtime_store_get_json runtime (Some "runs") (Some run_id));
  match run_record with
  | inl run_record => turbo_runtime_history_state_from_run_record run_record
  | inr _ => io_fail MINUS_ONE
  end.

(** A member that is missing, null or an array. *)
Definition events_readable (state : J) : bool :=
  match json_object_get state "events" with
  | None => true
  | Some events => bool_decide (json_type events = JSON_NULL) || bool_decide (json_type events = JSON_ARRAY)
  end.

(** None: no run record, the claim preceded it. *)
(* src/agent/src/turbo_agent_inbox.c 299-338 turbo_agent_inbox_claimed_state *)
Definition turbo_agent_inbox_claimed_state (i : turbo_agent_inbox) (id : string) : io W (option J) :=
  transition ← turbo_agent_inbox_latest_transition id;
  match present (member_string (Some transition) "claimed_by_run_id") with
  | None => io_fail SALTS_EPROTO
  | Some run_id =>
      run ← io_try (turbo_agent_runtime_store_get_json_status runtime (Some "runs") (Some run_id));
      match run with
      | inr SALTS_ENOENT => mret None
      | inr st => io_fail st
      | inl run =>
          if negb (is_text (Some run) "id" run_id && is_text (Some run) "thread_id" (thread_id i))
          then io_fail SALTS_EPROTO
          else
            state ← io_try (turbo_agent_runtime_get_run_state_json_value run_id);
            match state with
            | inr _ => io_fail SALTS_EIO
            | inl state =>
                if bool_decide (json_type state = JSON_OBJECT) && events_readable state
                then mret (Some state) else io_fail SALTS_EPROTO
            end
      end
  end.

(** The event that carries the message: its identifier, or a fault of the event. *)
(* src/agent/src/turbo_agent_inbox.c 385-406 turbo_agent_inbox_recover *)
Definition applied_event (id : string) (state : option J) : option (option string) :=
  let events := match s ← state; json_object_get s "events" with
                | Some events => json_array_items events | None => [] end in
  match List.find (fun event => is_text (Some event) "kind" "inbox_message" &&
                                is_text (Some event) "inbox_id" id) events with
  | None => Some None
  | Some event => match present (member_string (Some event) "event_id") with
                  | Some event_id => Some (Some event_id) | None => None end
  end.

(** ** Recovery *)

(* src/agent/src/turbo_agent_inbox.c 430-450 turbo_agent_inbox_recover *)
Definition admit_recovered (entry : turbo_agent_inbox_ready) (status : turbo_agent_inbox_status_kind)
    (i : turbo_agent_inbox) : turbo_agent_inbox + salts_status :=
  match status with
  | TURBO_AGENT_INBOX_APPLIED => inl i
  | _ =>
      if (used_items i =? max_items (config i)) ||
         (u64 (max_total_bytes (config i) - used_bytes i) <? payload_bytes entry) then inr SALTS_EBUSY
      else
        let i := set_used (used_items i + 1) (used_bytes i + payload_bytes entry) i in
        match status with
        | TURBO_AGENT_INBOX_QUEUED =>
            match turbo_agent_inbox_ready_insert i entry with
            | (SALTS_OK, i) => inl i
            | (st, _) => inr st
            end
        | _ => inl i
        end
  end.

Definition io_sum {A} (x : A + salts_status) : io W A := match x with inl x => mret x | inr st => io_fail st end.

(** A claim is settled by the run it names: applied when that run has the event. *)
(* src/agent/src/turbo_agent_inbox.c 367-429 turbo_agent_inbox_recover *)
Definition recover_claim (i : turbo_agent_inbox) (id : string) (entry : turbo_agent_inbox_ready)
  : io W turbo_agent_inbox :=
  if MAX_EXACT_JSON_INTEGER <=? transition_seq entry then io_fail SALTS_ERANGE
  else
    state ← turbo_agent_inbox_claimed_state i id;
    match applied_event id state with
    | None => io_fail SALTS_EPROTO
    | Some (Some event_id) =>
        _ ← turbo_agent_inbox_persist_transition i id TURBO_AGENT_INBOX_APPLIED "recovered_applied"
              (transition_seq entry + 1) None (Some event_id);
        mret i
    | Some None =>
        _ ← turbo_agent_inbox_persist_transition i id TURBO_AGENT_INBOX_QUEUED "recovered_requeue"
              (transition_seq entry + 1) None None;
        io_sum (admit_recovered (next_transition entry) TURBO_AGENT_INBOX_QUEUED i)
    end.

(* src/agent/src/turbo_agent_inbox.c 347-451 turbo_agent_inbox_recover *)
Definition recover_payload (i : turbo_agent_inbox) (payload : J) : io W turbo_agent_inbox :=
  match member_string (Some payload) "inbox_id" with
  | None => io_fail SALTS_EIO
  | Some id =>
      loaded ← io_try (turbo_agent_inbox_load_ready i id);
      match loaded with
      | inr SALTS_ENOENT => mret i
      | inr st => io_fail st
      | inl (entry, status) =>
          let i := if next_sequence i <=? sequence entry then set_next_sequence (sequence entry + 1) i else i in
          match status with
          | TURBO_AGENT_INBOX_CLAIMED => recover_claim i id entry
          | _ => io_sum (admit_recovered entry status i)
          end
      end
  end.

Fixpoint io_fold {A S : Type} (f : S -> A -> io W S) (l : list A) (s : S) : io W S :=
  match l with
  | [] => mret s
  | x :: l => s ← f s x; io_fold f l s
  end.

(* src/agent/src/turbo_agent_inbox.c 340-456 turbo_agent_inbox_recover *)
Definition turbo_agent_inbox_recover (i : turbo_agent_inbox) : io W turbo_agent_inbox :=
  payloads ← io_try (turbo_agent_runtime_store_list_json runtime (Some PAYLOADS) (Some "thread_id")
                       (Some (thread_id i)));
  match payloads with
  | inr _ => io_fail SALTS_EIO
  | inl payloads => io_fold recover_payload (json_array_items payloads) i
  end.

(** The configuration is the caller's structure at its declared size and version. *)
(* src/agent/src/turbo_agent_inbox.c 464-472 turbo_agent_inbox_create *)
Definition config_valid (c : turbo_agent_inbox_config) : bool :=
  negb (max_items c =? 0) && negb (max_total_bytes c =? 0) && negb (max_item_bytes c =? 0) &&
  (max_item_bytes c <=? max_total_bytes c) && negb (max_follow_ups_per_execution c =? 0) &&
  (max_items c <=? MAX_EXACT_JSON_INTEGER) && (max_total_bytes c <=? MAX_EXACT_JSON_INTEGER).

Definition new_inbox (thread : string) (c : turbo_agent_inbox_config) : turbo_agent_inbox :=
  mk_inbox thread c [] 0 0 0 0 1 false None None.

(** The inbox itself, the thread's name, the mutex, the condition and the deque. *)
(* src/agent/src/turbo_agent_inbox.c 458-498 turbo_agent_inbox_create *)
Definition turbo_agent_inbox_create (thread : option string) (c : option turbo_agent_inbox_config)
  : io W turbo_agent_inbox :=
  match runtime, present thread, c with
  | Some _, Some thread, Some c =>
      if negb (config_valid c) then io_fail SALTS_EINVAL
      else
        _ ← io_mem SALTS_ENOMEM (_ ← create tt; _ ← create tt; _ ← create tt; _ ← create tt; create tt);
        turbo_agent_inbox_recover (new_inbox thread c)
  | _, _, _ => io_fail SALTS_EINVAL
  end.

(** ** Operations *)

(** What an operation answers, with the inbox afterwards. *)
Definition done (A : Type) : Type := (A + salts_status) * turbo_agent_inbox * W * oracle.

(* src/agent/src/turbo_agent_inbox.c 527-546 turbo_agent_inbox_enqueue *)
Definition message_valid (message : J) : bool :=
  bool_decide (json_type message = JSON_OBJECT) && is_text (Some message) "role" "user" &&
  bool_decide (is_Some (present (member_string (Some message) "content"))).

(** The message with its size, its new identifier and the time, all private. *)
(* src/agent/src/turbo_agent_inbox.c 527-552 turbo_agent_inbox_enqueue *)
Definition prepare_message (i : turbo_agent_inbox) (message : J) : io W (J * Z * string * string) :=
  if negb (message_valid message) then io_fail SALTS_EINVAL
  else
    text ← io_mem SALTS_EINVAL (create (json_serialize message));
    let bytes := Z.of_nat (String.length text) in
    if (bytes =? 0) || (max_item_bytes (config i) <? bytes) || (max_total_bytes (config i) <? bytes)
    then io_fail SALTS_ERANGE
    else
      copy ← io_mem SALTS_EIO (copy ← need (json_parse text); create copy);
      id ← turbo_agent_inbox_make_uuid;
      timestamp ← from_host host_timestamp;
      _ ← io_mem SALTS_ENOMEM (a ← attempt (create tt); b ← attempt (create tt); _ ← need a; need b);
      mret (copy, bytes, id, timestamp).

(** The payload and its first transition. *)
(* src/agent/src/turbo_agent_inbox.c 565-586 turbo_agent_inbox_enqueue *)
Definition persist_message (i : turbo_agent_inbox) (k : turbo_agent_inbox_kind) (payload : J) (bytes seq : Z)
    (id timestamp : string) : io W unit :=
  record ← io_mem SALTS_ENOMEM create_object;
  stored ← io_try
    (record ← io_raw
         [raw_number "schema_version" 1; raw_string "inbox_id" id; raw_string "thread_id" (thread_id i);
          raw_null "execution_id"; raw_string "kind" (turbo_agent_inbox_kind_text k);
          raw_number "payload_bytes" bytes; raw_number "sequence" seq; raw_string "created_at" timestamp]
         record;
     record ← io_clone "payload" payload record;
     _ ← turbo_agent_runtime_store_put_json runtime (Some PAYLOADS) (Some id) (Some record);
     turbo_agent_inbox_persist_transition i id TURBO_AGENT_INBOX_QUEUED "enqueued" 1 None None);
  match stored with inl _ => mret tt | inr _ => io_fail SALTS_EIO end.

(** [now] and [turns] are what the wait for room sees.  None: still waiting. *)
(* src/agent/src/turbo_agent_inbox.c 514-619 turbo_agent_inbox_enqueue *)
Definition turbo_agent_inbox_enqueue (i : turbo_agent_inbox) (k : option turbo_agent_inbox_kind)
    (message : option J) (timeout_ms now : Z) (turns : list (Z * (turbo_agent_inbox -> turbo_agent_inbox)))
    (w : W) (o : oracle) : option (done string) :=
  match message, k with
  | Some message, Some k =>
      match prepare_message i message w o with
      | (inr st, w, o) => Some (inr st, i, w, o)
      | (inl (copy, bytes, id, timestamp), w, o) =>
          match turbo_agent_inbox_wait_for_capacity i bytes timeout_ms now turns with
          | None => None
          | Some (SALTS_OK, i) =>
              match reserve_section bytes i with
              | (inr st, i) => Some (inr st, i, w, o)
              | (inl seq, i) =>
                  match persist_message i k copy bytes seq id timestamp w o with
                  | (inr st, w, o) => Some (inr st, release_reserved bytes i, w, o)
                  | (inl _, w, o) =>
                      let (st, i) := commit_section (mk_ready id k bytes seq 1) i in
                      Some (if bool_decide (st = SALTS_OK) then inl id else inr st, i, w, o)
                  end
              end
          | Some (st, i) => Some (inr st, i, w, o)
          end
      end
  | _, _ => Some (inr SALTS_EINVAL, i, w, o)
  end.

(* src/agent/src/turbo_agent_inbox.c 621-650 turbo_agent_inbox_status *)
Definition turbo_agent_inbox_status (i : turbo_agent_inbox) (id : option string) : io W J :=
  match present id with
  | None => io_fail SALTS_ENOENT
  | Some id =>
      both ← io_try (payload ← turbo_agent_runtime_store_get_json runtime (Some PAYLOADS) (Some id);
                     transition ← turbo_agent_inbox_latest_transition id; mret (payload, transition));
      match both with
      | inr _ => io_fail SALTS_ENOENT
      | inl (payload, transition) =>
          match member_string (Some transition) "status" with
          | Some status =>
              if negb (is_text (Some payload) "thread_id" (thread_id i) &&
                       is_text (Some transition) "thread_id" (thread_id i)) then io_fail SALTS_EIO
              else
                payload ← io_clone "latest_transition" transition payload;
                io_raw [raw_string "status" status] payload
          | None => io_fail SALTS_EIO
          end
      end
  end.

(** The record of the claimed message and the transition that claims it. *)
(* src/agent/src/turbo_agent_inbox.c 679-687 turbo_agent_inbox_claim *)
Definition persist_claim (i : turbo_agent_inbox) (entry : turbo_agent_inbox_ready) (run_id : string) : io W J :=
  record ← io_try (turbo_agent_runtime_store_get_json runtime (Some PAYLOADS) (Some (inbox_id entry)));
  match record with
  | inr _ => io_fail SALTS_EIO
  | inl record =>
      _ ← turbo_agent_inbox_persist_transition i (inbox_id entry) TURBO_AGENT_INBOX_CLAIMED "claimed"
            (transition_seq entry + 1) (Some run_id) None;
      mret record
  end.

(* src/agent/src/turbo_agent_inbox.c 652-704 turbo_agent_inbox_claim *)
Definition turbo_agent_inbox_claim (i : turbo_agent_inbox) (k : option turbo_agent_inbox_kind)
    (run_id : option string) (w : W) (o : oracle) : done J :=
  match present run_id, k with
  | Some run_id, Some k =>
      match begin_claim_section k i with
      | (inr st, i) => (inr st, i, w, o)
      | (inl entry, i) =>
          match persist_claim i entry run_id w o with
          | (inl record, w, o) =>
              let (record, o) := raw_string "status" "claimed" record o in
              (inl record, end_claim_section true i, w, o)
          | (inr st, w, o) => (inr st, end_claim_section false i, w, o)
          end
      end
  | _, _ => (inr SALTS_EINVAL, i, w, o)
  end.

(** The entry of the active claim, or one the store says is claimed. *)
(* src/agent/src/turbo_agent_inbox.c 706-726 turbo_agent_inbox_resolve_entry *)
Definition turbo_agent_inbox_resolve_entry (i : turbo_agent_inbox) (id : string) : io W turbo_agent_inbox_ready :=
  match (if is_active id i then active_claim i else None) with
  | Some entry => io_mem SALTS_ENOMEM (create entry)
  | None =>
      loaded ← turbo_agent_inbox_load_ready i id;
      if bool_decide (loaded.2 = TURBO_AGENT_INBOX_CLAIMED) then mret loaded.1 else io_fail SALTS_EINVAL
  end.

(** A transition from the entry as it stands. *)
Definition settle (i : turbo_agent_inbox) (id : string) (status : turbo_agent_inbox_status_kind) (action : string)
    (event_id : option string) : io W turbo_agent_inbox_ready :=
  entry ← turbo_agent_inbox_resolve_entry i id;
  if MAX_EXACT_JSON_INTEGER <=? transition_seq entry then io_fail SALTS_ERANGE
  else
    _ ← turbo_agent_inbox_persist_transition i id status action (transition_seq entry + 1) None event_id;
    mret entry.

(* src/agent/src/turbo_agent_inbox.c 728-760 turbo_agent_inbox_mark_applied *)
Definition turbo_agent_inbox_mark_applied (i : turbo_agent_inbox) (id event_id : option string) (w : W) (o : oracle)
  : done unit :=
  match present id, present event_id with
  | Some id, Some event_id =>
      match settle i id TURBO_AGENT_INBOX_APPLIED "applied" (Some event_id) w o with
      | (inl entry, w, o) => (inl tt, applied_section entry i, w, o)
      | (inr st, w, o) => (inr st, i, w, o)
      end
  | _, _ => (inr SALTS_EINVAL, i, w, o)
  end.

(* src/agent/src/turbo_agent_inbox.c 762-789 turbo_agent_inbox_requeue *)
Definition turbo_agent_inbox_requeue (i : turbo_agent_inbox) (id : option string) (w : W) (o : oracle) : done unit :=
  match present id with
  | Some id =>
      match settle i id TURBO_AGENT_INBOX_QUEUED "requeued" None w o with
      | (inl entry, w, o) =>
          let (st, i) := requeue_section entry i in
          (if bool_decide (st = SALTS_OK) then inl tt else inr st, i, w, o)
      | (inr st, w, o) => (inr st, i, w, o)
      end
  | None => (inr SALTS_EINVAL, i, w, o)
  end.

(** Nothing to commit is success; so is, silently, that neither copy was made. *)
(* src/agent/src/turbo_agent_inbox.c 811-832 turbo_agent_inbox_commit_bound_claim *)
Definition turbo_agent_inbox_commit_bound_claim (i : turbo_agent_inbox) (w : W) (o : oracle) : done unit :=
  match active_claim i, active_event_id i with
  | Some entry, Some event_id =>
      let (id, o) := alloc o in
      let (event, o) := alloc o in
      match id, event with
      | true, true => turbo_agent_inbox_mark_applied i (Some (inbox_id entry)) (Some event_id) w o
      | false, false => (inl tt, i, w, o)
      | _, _ => (inr SALTS_ENOMEM, i, w, o)
      end
  | _, _ => (inl tt, i, w, o)
  end.

End records.
