(* ===== verification/AgentInboxQueue.v ===== *)
(** * The inbox as a queue shared by threads (src/agent/src/turbo_agent_inbox.c)

    Producers and the consumer run the sections of the inbox's operations in any
    interleaving, and the store may answer anything in between.  No acknowledged
    message is lost or doubled, the limits hold, and sections never find the queue
    full. *)

From Stdlib Require Import Sorting.Sorted.
From stdpp Require Import relations.
From S2P Require Import Prelude RuntimeJson JsonBuild JsonMem RuntimeStore AgentInbox.

#[local] Open Scope string_scope.
#[local] Open Scope list_scope.
#[local] Open Scope Z_scope.

Abbreviation inbox := turbo_agent_inbox.
Abbreviation entry := turbo_agent_inbox_ready.

(** ** Insertion and removal *)

Lemma move_forward_spec (e : entry) : forall l m, exists l1 l2, l = l1 ++ l2 /\
  move_forward (length l) (l ++ e :: m) = l1 ++ e :: l2 ++ m /\
  Forall (fun x => sequence e < sequence x) l2 /\
  (forall x, last l1 = Some x -> sequence x <= sequence e).
Proof.
  induction l as [|p l IH] using rev_ind; intros m; [by exists [], []|].
  rewrite length_app, Nat.add_1_r. cbn [move_forward].
  rewrite <- app_assoc. cbn [app]. rewrite (lookup_app_r l) by lia. rewrite list_lookup_middle by done.
  replace (S (length l) - length l)%nat with 1%nat by lia. cbn [lookup list_lookup].
  destruct (Z.leb_spec (sequence p) (sequence e)) as [Hle|Hlt].
  - exists (l ++ [p]), []. rewrite app_nil_r, <- app_assoc. split_and!; [done|done|done|].
    intros x. rewrite last_snoc. by intros [= <-].
  - assert (Hswap : <[length l := e]> (<[S (length l) := p]> (l ++ p :: e :: m)) = l ++ e :: p :: m).
    { rewrite insert_app_r_alt by lia. replace (S (length l) - length l)%nat with 1%nat by lia.
      rewrite insert_app_r_alt by lia. by rewrite Nat.sub_diag. }
    rewrite Hswap. destruct (IH (p :: m)) as (l1 & l2 & Hl & Hm & Hgt & Hlast). rewrite Hm.
    exists l1, (l2 ++ [p]). rewrite Hl, <- !app_assoc. split_and!; [done|done| |done].
    apply Forall_app. by split; [|constructor].
Qed.

Lemma ready_insert_spec (i : inbox) (e : entry) : Z.of_nat (length (ready i)) < max_items (config i) ->
  exists l1 l2, ready i = l1 ++ l2 /\
    turbo_agent_inbox_ready_insert i e = (SALTS_OK, set_ready (l1 ++ e :: l2) i) /\
    Forall (fun x => sequence e < sequence x) l2 /\
    (forall x, last l1 = Some x -> sequence x <= sequence e).
Proof.
  intros Hlen. unfold turbo_agent_inbox_ready_insert, deque_push_back.
  rewrite (proj2 (Z.ltb_lt _ _) Hlen). rewrite length_app. cbn [length].
  replace (length (ready i) + 1 - 1)%nat with (length (ready i)) by lia.
  destruct (move_forward_spec e (ready i) []) as (l1 & l2 & Hl & Hm & Hgt & Hlast).
  rewrite Hm, app_nil_r. by exists l1, l2.
Qed.

Ltac lengths := repeat (rewrite ?length_app, ?length_fmap in *; cbn [length] in * ); lia.

(** The first entry of the kind; what stood before it goes behind what follows. *)
Lemma take_kind_loop_spec (i : inbox) k : forall pre e post tail,
  Forall (fun x => kind x <> k) pre -> kind e = k ->
  Z.of_nat (length (pre ++ e :: post ++ tail)) <= max_items (config i) ->
  forall n, (length pre < n)%nat ->
  take_kind_loop i k n (pre ++ e :: post ++ tail) = (inl e, post ++ tail ++ pre).
Proof.
  induction pre as [|x pre IH]; intros e post tail Hpre He Hlen n Hn; (destruct n as [|n]; [cbn in Hn; lia|]); cbn.
  - rewrite bool_decide_eq_true_2 by done. by rewrite app_nil_r.
  - apply Forall_cons in Hpre as [Hx Hpre]. rewrite bool_decide_eq_false_2 by done.
    unfold deque_push_back. cbn [app] in Hlen. rewrite length_cons in Hlen.
    rewrite (proj2 (Z.ltb_lt _ _)) by lia. rewrite <- app_assoc. cbn [app]. rewrite <- app_assoc.
    rewrite (IH e post (tail ++ [x])); [by rewrite <- app_assoc|done|done| |cbn in Hn; lia].
    lengths.
Qed.

Lemma take_kind_loop_none (i : inbox) k : forall l tail, Forall (fun x => kind x <> k) l ->
  Z.of_nat (length (l ++ tail)) <= max_items (config i) ->
  take_kind_loop i k (length l) (l ++ tail) = (inr SALTS_ENOENT, tail ++ l).
Proof.
  induction l as [|x l IH]; intros tail Hl Hlen; cbn; [by rewrite app_nil_r|].
  apply Forall_cons in Hl as [Hx Hl]. rewrite bool_decide_eq_false_2 by done.
  unfold deque_push_back. cbn [app] in Hlen. rewrite length_cons in Hlen. rewrite (proj2 (Z.ltb_lt _ _)) by lia.
  rewrite <- app_assoc. rewrite (IH (tail ++ [x])); [by rewrite <- app_assoc|done|].
  rewrite length_app in Hlen |- *. rewrite length_app. cbn. lia.
Qed.

Lemma first_of_kind k (l : list entry) :
  Forall (fun x => kind x <> k) l \/ exists pre e post, l = pre ++ e :: post /\ Forall (fun x => kind x <> k) pre /\ kind e = k.
Proof.
  induction l as [|x l IH]; [by left|]. destruct (decide (kind x = k)) as [Hx|Hx].
  - right. by exists [], x, l.
  - destruct IH as [Hl|(pre & e & post & -> & Hpre & He)]; [left; by constructor|].
    right. exists (x :: pre), e, post. split_and!; [done|by constructor|done].
Qed.

Lemma take_kind_spec (i : inbox) k : Z.of_nat (length (ready i)) <= max_items (config i) ->
  (Forall (fun x => kind x <> k) (ready i) /\ turbo_agent_inbox_ready_take_kind i k = (inr SALTS_ENOENT, set_ready (ready i) i)) \/
  exists pre e post, ready i = pre ++ e :: post /\ Forall (fun x => kind x <> k) pre /\ kind e = k /\
    turbo_agent_inbox_ready_take_kind i k = (inl e, set_ready (post ++ pre) i).
Proof.
  intros Hlen. unfold turbo_agent_inbox_ready_take_kind.
  destruct (first_of_kind k (ready i)) as [Hnone|(pre & e & post & Heq & Hpre & He)].
  - left. split; [done|]. pose proof (take_kind_loop_none i k (ready i) [] Hnone) as Hl.
    rewrite app_nil_r in Hl. by rewrite Hl.
  - right. exists pre, e, post. split_and!; [done..|].
    pose proof (take_kind_loop_spec i k pre e post [] Hpre He) as Hl. rewrite app_nil_r in Hl. rewrite Heq in *.
    rewrite Hl; [done|done|rewrite length_app; cbn; lia].
Qed.

(** ** The threads that share an inbox

    [pending] holds what producers have reserved room for and not yet committed,
    [acked] what callers were told is queued, [applied] what the consumer has
    marked applied, and [claiming] that a claim is between its two sections.  One
    consumer claims, applies and requeues, as the interface asks. *)
Record system : Type := mk_system {
  box : inbox;
  pending : list entry;
  acked : list entry;
  applied : list entry;
  claiming : bool
}.

Definition live (s : system) : list entry := ready (box s) ++ option_list (active_claim (box s)).

(** What is settled about a message when it is accepted. *)
Definition message (e : entry) : string * turbo_agent_inbox_kind * Z * Z :=
  (inbox_id e, kind e, payload_bytes e, sequence e).

Definition bytes_of (l : list entry) : Z := foldr (fun e => Z.add (payload_bytes e)) 0 l.

Definition known_ids (s : system) : list string := inbox_id <$> live s ++ pending s ++ applied s.

(** One section, by whichever thread. *)
Inductive step : system -> system -> Prop :=
| step_reserve id k bytes seq i s :
    closed (box s) = false -> turbo_agent_inbox_has_capacity (box s) bytes = true ->
    0 <= bytes <= UINT64_MAX -> id ∉ known_ids s ->
    reserve_section bytes (box s) = (inl seq, i) ->
    step s (mk_system i (mk_ready id k bytes seq 1 :: pending s) (acked s) (applied s) (claiming s))
| step_commit e before after st i s :
    pending s = before ++ e :: after -> commit_section e (box s) = (st, i) ->
    step s (mk_system i (before ++ after) (if bool_decide (st = SALTS_OK) then e :: acked s else acked s)
              (applied s) (claiming s))
| step_abort e before after s :
    pending s = before ++ e :: after ->
    step s (mk_system (release_reserved (payload_bytes e) (box s)) (before ++ after) (acked s) (applied s) (claiming s))
| step_begin_claim k found i s :
    begin_claim_section k (box s) = (found, i) ->
    step s (mk_system i (pending s) (acked s) (applied s)
              (match found with inl _ => true | inr _ => claiming s end))
| step_end_claim written s :
    claiming s = true ->
    step s (mk_system (end_claim_section written (box s)) (pending s) (acked s) (applied s) false)
| step_applied e s :
    claiming s = false -> active_claim (box s) = Some e ->
    step s (mk_system (applied_section e (box s)) (pending s) (acked s) (e :: applied s) false)
| step_requeue e st i s :
    claiming s = false -> active_claim (box s) = Some e -> requeue_section e (box s) = (st, i) ->
    step s (mk_system i (pending s) (acked s) (applied s) false)
| step_bind id event st i o o' s :
    turbo_agent_inbox_bind_applied_event id event (box s) o = (st, i, o') ->
    step s (mk_system i (pending s) (acked s) (applied s) (claiming s))
| step_close st i s :
    turbo_agent_inbox_close (box s) = (st, i) ->
    step s (mk_system i (pending s) (acked s) (applied s) (claiming s)).

(** An inbox as it is created: what was recovered counts as accepted. *)
Definition start (i : inbox) : system := mk_system i [] (ready i) [] false.

(** ** The invariant *)

Lemma bytes_of_cons e l : bytes_of (e :: l) = payload_bytes e + bytes_of l.
Proof. done. Qed.

Lemma bytes_of_app l1 l2 : bytes_of (l1 ++ l2) = bytes_of l1 + bytes_of l2.
Proof. induction l1 as [|e l1 IH]; [done|]. cbn [app]. rewrite !bytes_of_cons, IH. lia. Qed.

#[global] Instance bytes_of_proper : Proper (Permutation ==> eq) bytes_of.
Proof. intros l1 l2. induction 1; rewrite ?bytes_of_cons; lia. Qed.

Lemma bytes_of_messages l1 l2 : message <$> l1 ≡ₚ message <$> l2 -> bytes_of l1 = bytes_of l2.
Proof.
  assert (Hb : forall l, bytes_of l = foldr (fun m => Z.add m.1.2) 0 (message <$> l)).
  { induction l as [|e l IH]; [done|]. rewrite bytes_of_cons, IH. done. }
  rewrite !Hb. generalize (message <$> l1), (message <$> l2). induction 1; cbn; lia.
Qed.

Lemma bytes_of_nonneg l : Forall (fun e => 0 <= payload_bytes e) l -> 0 <= bytes_of l.
Proof. induction 1; rewrite ?bytes_of_cons; [done|lia]. Qed.

Definition entry_ok (i : inbox) (m : string * turbo_agent_inbox_kind * Z * Z) : Prop :=
  0 <= m.1.2 /\ 1 <= m.2 < next_sequence i.

Record inv (c : turbo_agent_inbox_config) (s : system) : Prop := {
  inv_config : config (box s) = c;
  inv_used : used_items (box s) = Z.of_nat (length (live s));
  inv_bytes : used_bytes (box s) = bytes_of (live s);
  inv_reserved : reserved_items (box s) = Z.of_nat (length (pending s));
  inv_reserved_bytes : reserved_bytes (box s) = bytes_of (pending s);
  inv_items : used_items (box s) + reserved_items (box s) <= max_items c;
  inv_total : used_bytes (box s) + reserved_bytes (box s) <= max_total_bytes c;
  inv_entries : Forall (entry_ok (box s)) (message <$> live s ++ pending s);
  inv_sequence : 1 <= next_sequence (box s);
  inv_ids : NoDup (known_ids s);
  inv_acked : message <$> acked s ≡ₚ message <$> live s ++ applied s;
  inv_claiming : claiming s = true -> is_Some (active_claim (box s))
}.

(** A configuration that is accepted; its fields are unsigned. *)
Definition config_ok (c : turbo_agent_inbox_config) : Prop :=
  config_valid c = true /\ 0 <= max_items c /\ 0 <= max_total_bytes c.

Lemma config_ok_bounds c : config_ok c ->
  0 <= max_items c <= MAX_EXACT_JSON_INTEGER /\ 0 <= max_total_bytes c <= MAX_EXACT_JSON_INTEGER.
Proof. unfold config_ok, config_valid. intros [H ?]. repeat (apply andb_prop in H as [H ?]). lia. Qed.

Lemma inv_room c s : inv c s -> 0 <= used_bytes (box s) /\ 0 <= reserved_bytes (box s).
Proof.
  intros Hinv. rewrite (inv_bytes _ _ Hinv), (inv_reserved_bytes _ _ Hinv). pose proof (inv_entries _ _ Hinv) as H.
  rewrite fmap_app in H. apply Forall_app in H as [H1 H2].
  rewrite Forall_fmap in H1, H2.
  split; apply bytes_of_nonneg; [eapply Forall_impl; [exact H1|]|eapply Forall_impl; [exact H2|]];
    intros e [He _]; exact He.
Qed.

(** ** The sections on the queue, up to order *)

Lemma insert_perm (i : inbox) (e : entry) : Z.of_nat (length (ready i)) < max_items (config i) ->
  exists l, turbo_agent_inbox_ready_insert i e = (SALTS_OK, set_ready l i) /\ l ≡ₚ e :: ready i.
Proof.
  intros Hlen. destruct (ready_insert_spec i e Hlen) as (l1 & l2 & Hl & Hi & _ & _).
  exists (l1 ++ e :: l2). split; [done|]. rewrite Hl. by rewrite Permutation_middle.
Qed.

Lemma begin_claim_perm k (i : inbox) found i' : Z.of_nat (length (ready i)) <= max_items (config i) ->
  begin_claim_section k i = (found, i') ->
  (exists st, found = inr st /\ i' = i) \/
  exists e l, found = inl e /\ active_claim i = None /\ ready i ≡ₚ e :: l /\
    i' = set_active (Some e) (active_event_id i) (set_ready l i).
Proof.
  intros Hlen. unfold begin_claim_section. destruct (closed i); [intros [= <- <-]; left; eauto|].
  destruct (active_claim i); [intros [= <- <-]; left; eauto|].
  destruct (take_kind_spec i k Hlen) as [[_ ->]|(pre & e & post & Hl & _ & _ & ->)]; intros [= <- <-].
  - left. exists SALTS_ENOENT. split; [done|]. by destruct i.
  - right. exists e, (post ++ pre). split_and!; [done..| |done].
    rewrite Hl. by rewrite <- Permutation_middle, (Permutation_app_comm pre).
Qed.

Lemma ids_of_messages (l : list entry) : inbox_id <$> l = (fun m => m.1.1.1) <$> (message <$> l).
Proof. by rewrite <- list_fmap_compose. Qed.

(** What a section that only moves entries about has to leave alone. *)
Lemma inv_moves c s s' : inv c s ->
  config (box s') = config (box s) -> used_items (box s') = used_items (box s) ->
  used_bytes (box s') = used_bytes (box s) -> reserved_items (box s') = reserved_items (box s) ->
  reserved_bytes (box s') = reserved_bytes (box s) -> next_sequence (box s') = next_sequence (box s) ->
  pending s' = pending s -> acked s' = acked s -> applied s' = applied s ->
  message <$> live s' ≡ₚ message <$> live s ->
  (claiming s' = true -> is_Some (active_claim (box s'))) -> inv c s'.
Proof.
  intros [] Hc Hu Hub Hr Hrb Hn Hp Ha Hd Hl Hcl.
  assert (Hlen : length (live s') = length (live s)).
  { pose proof (Permutation_length Hl) as H. by rewrite !length_fmap in H. }
  split; try congruence; rewrite ?Hc, ?Hu, ?Hub, ?Hr, ?Hrb, ?Hn, ?Hp, ?Ha, ?Hd.
  - rewrite (bytes_of_messages _ _ Hl). done.
  - rewrite fmap_app, Hl, <- fmap_app. unfold entry_ok. by rewrite Hn.
  - unfold known_ids in *. rewrite Hp, Hd, fmap_app. rewrite (ids_of_messages (live s')), Hl, <- ids_of_messages.
    by rewrite <- fmap_app.
  - by rewrite inv_acked0, !fmap_app, Hl.
  - exact Hcl.
Qed.

Lemma ready_bound c s : inv c s -> Z.of_nat (length (ready (box s))) <= max_items (config (box s)) /\
  (is_Some (active_claim (box s)) -> Z.of_nat (length (ready (box s))) < max_items (config (box s))) /\
  (pending s <> [] -> Z.of_nat (length (ready (box s))) < max_items (config (box s))).
Proof.
  intros []. rewrite inv_config0. unfold live in inv_used0. rewrite length_app in inv_used0.
  split_and!; [lia| |].
  - intros [e He]. rewrite He in inv_used0. cbn in inv_used0. lia.
  - intros Hp. destruct (pending s); [done|]. cbn [length] in inv_reserved0. lia.
Qed.

(** ** Every section keeps the invariant *)

Lemma live_active (s : system) e : active_claim (box s) = Some e -> live s ≡ₚ e :: ready (box s).
Proof. intros H. unfold live. rewrite H. cbn. by rewrite Permutation_app_comm. Qed.

Lemma message_next e : message (next_transition e) = message e.
Proof. done. Qed.

Lemma drop_active_own (i : inbox) e : active_claim i = Some e -> drop_active (inbox_id e) i = set_active None None i.
Proof. intros H. unfold drop_active, is_active. by rewrite H, bool_decide_eq_true_2. Qed.

Lemma requeue_perm (i : inbox) e st i' : active_claim i = Some e ->
  Z.of_nat (length (ready i)) < max_items (config i) -> requeue_section e i = (st, i') ->
  st = SALTS_OK /\ exists l, i' = set_ready l (set_active None None i) /\ l ≡ₚ next_transition e :: ready i.
Proof.
  intros Ha Hlen. unfold requeue_section. rewrite drop_active_own by done.
  destruct (insert_perm (set_active None None i) (next_transition e) Hlen) as (l & -> & Hl).
  intros [= <- <-]. eauto.
Qed.

Lemma end_claim_perm (i : inbox) e written : active_claim i = Some e ->
  Z.of_nat (length (ready i)) < max_items (config i) ->
  end_claim_section written i = set_active (Some (next_transition e)) (active_event_id i) i \/
  exists l, end_claim_section written i = set_ready l (set_active None (active_event_id i) i) /\ l ≡ₚ e :: ready i.
Proof.
  intros Ha Hlen. unfold end_claim_section. rewrite Ha. destruct written; [by left|right].
  destruct (insert_perm (set_active None (active_event_id i) i) e Hlen) as (l & -> & Hl). eauto.
Qed.

Lemma begin_claim_keeps c s k found i : inv c s -> begin_claim_section k (box s) = (found, i) ->
  inv c (mk_system i (pending s) (acked s) (applied s) (match found with inl _ => true | inr _ => claiming s end)).
Proof.
  intros Hinv Hb. destruct (begin_claim_perm _ _ _ _ (proj1 (ready_bound _ _ Hinv)) Hb)
    as [(st & -> & ->)|(e & l & -> & Hnone & Hl & ->)].
  - apply (inv_moves c s); try done. apply (inv_claiming _ _ Hinv).
  - apply (inv_moves c s); try done. unfold live. cbn. by rewrite Hnone, Hl, app_nil_r, Permutation_app_comm.
Qed.

Lemma end_claim_keeps c s written : inv c s -> claiming s = true ->
  inv c (mk_system (end_claim_section written (box s)) (pending s) (acked s) (applied s) false).
Proof.
  intros Hinv Hcl. destruct (inv_claiming _ _ Hinv Hcl) as [e He].
  destruct (end_claim_perm (box s) e written He (proj1 (proj2 (ready_bound _ _ Hinv)) (ex_intro _ _ He)))
    as [->|(l & -> & Hl)]; apply (inv_moves c s); try done; unfold live; cbn; rewrite He.
  - by rewrite !fmap_app.
  - by rewrite app_nil_r, Hl, !fmap_app, Permutation_app_comm.
Qed.

Lemma requeue_keeps c s e st i : inv c s -> active_claim (box s) = Some e -> requeue_section e (box s) = (st, i) ->
  inv c (mk_system i (pending s) (acked s) (applied s) false).
Proof.
  intros Hinv He Hr. destruct (requeue_perm _ _ _ _ He (proj1 (proj2 (ready_bound _ _ Hinv)) (ex_intro _ _ He)) Hr)
    as (-> & l & -> & Hl).
  apply (inv_moves c s); try done. unfold live. cbn. by rewrite He, app_nil_r, Hl, !fmap_app, Permutation_app_comm.
Qed.

Lemma applied_keeps c s e : inv c s -> active_claim (box s) = Some e ->
  inv c (mk_system (applied_section e (box s)) (pending s) (acked s) (e :: applied s) false).
Proof.
  intros Hinv He. pose proof (live_active s e He) as Hl. destruct Hinv.
  assert (Hpos : Forall (fun e => 0 <= payload_bytes e) (ready (box s)) /\ 0 <= payload_bytes e).
  { unfold live in inv_entries0. rewrite He, Forall_fmap in inv_entries0.
    apply Forall_app in inv_entries0 as [H _]. apply Forall_app in H as [H1 H2]. split.
    - eapply Forall_impl; [exact H1|]. intros x [Hx _]. exact Hx.
    - by inversion_clear H2 as [|? ? [Hx _] _]. }
  destruct Hpos as [Hready Hbytes]. apply bytes_of_nonneg in Hready.
  rewrite Hl in inv_used0. rewrite Hl, bytes_of_cons in inv_bytes0. cbn [length] in inv_used0.
  unfold applied_section. rewrite drop_active_own by done.
  change (used_items (set_active _ _ _)) with (used_items (box s)).
  change (used_bytes (set_active _ _ _)) with (used_bytes (box s)).
  rewrite (proj2 (Z.ltb_lt _ _)) by lia. rewrite (proj2 (Z.leb_le _ _)) by lia. cbn [andb].
  assert (Hlive : forall i a p d c', ready i = ready (box s) -> active_claim i = None ->
    live (mk_system i p a d c') = ready (box s)).
  { intros i a p d c' H1 H2. unfold live. cbn [box]. by rewrite H1, H2, app_nil_r. }
  split; rewrite ?Hlive by done; try done.
  - change (used_items (box s) - 1 = Z.of_nat (length (ready (box s)))). lia.
  - change (used_bytes (box s) - payload_bytes e = bytes_of (ready (box s))). lia.
  - change (used_items (box s) - 1 + reserved_items (box s) <= max_items c). lia.
  - change (used_bytes (box s) - payload_bytes e + reserved_bytes (box s) <= max_total_bytes c). lia.
  - rewrite Hl in inv_entries0. by inversion_clear inv_entries0.
  - unfold known_ids in *. rewrite Hlive by done. rewrite Hl in inv_ids0. cbn [pending applied].
    rewrite app_assoc, <- Permutation_middle, <- app_assoc. exact inv_ids0.
  - cbn [acked applied]. by rewrite inv_acked0, Hl, !fmap_app, !fmap_cons, <- Permutation_middle.
Qed.

Lemma reserved_split c s e before after : inv c s -> pending s = before ++ e :: after ->
  reserved_items (box s) = Z.of_nat (length (before ++ after)) + 1 /\
  reserved_bytes (box s) = bytes_of (before ++ after) + payload_bytes e.
Proof.
  intros [] Hp. rewrite Hp in inv_reserved0, inv_reserved_bytes0.
  rewrite <- Permutation_middle in inv_reserved0, inv_reserved_bytes0.
  rewrite bytes_of_cons in inv_reserved_bytes0. cbn [length] in inv_reserved0. lia.
Qed.

(** A pending entry leaves, the room it held with it. *)
Lemma abort_keeps c s e before after : inv c s -> pending s = before ++ e :: after ->
  inv c (mk_system (release_reserved (payload_bytes e) (box s)) (before ++ after) (acked s) (applied s) (claiming s)).
Proof.
  intros Hinv Hp. destruct (reserved_split _ _ _ _ _ Hinv Hp) as [Hr Hrb].
  assert (Hpos : 0 <= payload_bytes e).
  { pose proof (inv_entries _ _ Hinv) as H. rewrite Hp, Forall_fmap in H. apply Forall_app in H as [_ H].
    apply Forall_app in H as [_ H]. by inversion_clear H as [|? ? [Hx _] _]. }
  destruct Hinv. split; try done.
  - change (reserved_items (box s) - 1 = Z.of_nat (length (before ++ after))). lia.
  - change (reserved_bytes (box s) - payload_bytes e = bytes_of (before ++ after)). lia.
  - change (used_items (box s) + (reserved_items (box s) - 1) <= max_items c). lia.
  - change (used_bytes (box s) + (reserved_bytes (box s) - payload_bytes e) <= max_total_bytes c). lia.
  - rewrite Hp in inv_entries0. rewrite <- Permutation_middle, Permutation_app_comm in inv_entries0.
    cbn [app] in inv_entries0. rewrite (Permutation_app_comm (before ++ after)) in inv_entries0. by inversion_clear inv_entries0.
  - unfold known_ids in *. rewrite Hp, <- Permutation_middle in inv_ids0. cbn [app] in inv_ids0.
    rewrite <- Permutation_middle in inv_ids0. by inversion_clear inv_ids0.
Qed.

Lemma commit_perm c s e before after st i : inv c s -> pending s = before ++ e :: after ->
  commit_section e (box s) = (st, i) -> st = SALTS_OK /\ exists l, l ≡ₚ e :: ready (box s) /\
    i = set_used (used_items (box s) + 1) (used_bytes (box s) + payload_bytes e)
          (set_ready l (release_reserved (payload_bytes e) (box s))).
Proof.
  intros Hinv Hp. unfold commit_section.
  destruct (insert_perm (release_reserved (payload_bytes e) (box s)) e) as (l & -> & Hl).
  { apply (ready_bound _ _ Hinv). rewrite Hp. by destruct before. }
  intros [= <- <-]. eauto.
Qed.

Lemma commit_keeps c s e before after st i : inv c s -> pending s = before ++ e :: after ->
  commit_section e (box s) = (st, i) ->
  inv c (mk_system i (before ++ after) (if bool_decide (st = SALTS_OK) then e :: acked s else acked s)
           (applied s) (claiming s)).
Proof.
  intros Hinv Hp Hc. destruct (commit_perm _ _ _ _ _ _ _ Hinv Hp Hc) as (-> & l & Hl & ->).
  destruct (reserved_split _ _ _ _ _ Hinv Hp) as [Hr Hrb]. rewrite bool_decide_eq_true_2 by done.
  assert (Hlive : forall i p a d c', ready i ≡ₚ e :: ready (box s) -> active_claim i = active_claim (box s) ->
    live (mk_system i p a d c') ≡ₚ e :: live s).
  { intros i p a d c' H1 H2. unfold live. cbn [box]. by rewrite H1, H2. }
  destruct Hinv. split; rewrite ?Hlive by done; try done.
  - change (used_items (box s) + 1 = Z.of_nat (S (length (live s)))). lia.
  - change (used_bytes (box s) + payload_bytes e = payload_bytes e + bytes_of (live s)). lia.
  - change (reserved_items (box s) - 1 = Z.of_nat (length (before ++ after))). lia.
  - change (reserved_bytes (box s) - payload_bytes e = bytes_of (before ++ after)). lia.
  - change (used_items (box s) + 1 + (reserved_items (box s) - 1) <= max_items c). lia.
  - change (used_bytes (box s) + payload_bytes e + (reserved_bytes (box s) - payload_bytes e) <= max_total_bytes c). lia.
  - rewrite Hp, <- Permutation_middle, <- Permutation_middle in inv_entries0. exact inv_entries0.
  - unfold known_ids in *. rewrite Hlive by done. cbn [pending applied].
    rewrite Hp, <- Permutation_middle in inv_ids0. cbn [app] in inv_ids0 |- *.
    rewrite <- Permutation_middle in inv_ids0. exact inv_ids0.
  - cbn [acked applied app]. rewrite !fmap_cons. by rewrite inv_acked0.
Qed.

Lemma has_capacity_spec c s bytes : inv c s -> config_ok c -> 0 <= bytes <= UINT64_MAX ->
  turbo_agent_inbox_has_capacity (box s) bytes = true ->
  used_items (box s) + reserved_items (box s) < max_items c /\
  used_bytes (box s) + reserved_bytes (box s) + bytes <= max_total_bytes c.
Proof.
  intros Hinv Hc Hb H. destruct (config_ok_bounds c Hc) as [Hmax Htotal].
  destruct (inv_room _ _ Hinv) as [Hub Hrb]. destruct Hinv.
  unfold MAX_EXACT_JSON_INTEGER in *.
  unfold turbo_agent_inbox_has_capacity in H. apply andb_prop in H as [H1 H2]. rewrite inv_config0 in H1, H2.
  apply Z.ltb_lt in H1. apply Z.leb_le in H2.
  rewrite u64_small in H1 by (unfold UINT64_MAX; lia). rewrite (u64_small (used_bytes _ + _)) in H2 by (unfold UINT64_MAX; lia).
  rewrite u64_small in H2 by (unfold UINT64_MAX; lia). lia.
Qed.

Lemma reserve_keeps c s id k bytes seq i : inv c s -> config_ok c ->
  turbo_agent_inbox_has_capacity (box s) bytes = true -> 0 <= bytes <= UINT64_MAX -> id ∉ known_ids s ->
  reserve_section bytes (box s) = (inl seq, i) ->
  inv c (mk_system i (mk_ready id k bytes seq 1 :: pending s) (acked s) (applied s) (claiming s)).
Proof.
  intros Hinv Hc Hcap Hb Hfresh Hr. destruct (has_capacity_spec _ _ _ Hinv Hc Hb Hcap) as [Hi Ht].
  unfold reserve_section in Hr. destruct (_ <? _); [done|]. injection Hr as <- <-. destruct Hinv. split; try done.
  - change (reserved_items (box s) + 1 = Z.of_nat (S (length (pending s)))). lia.
  - change (reserved_bytes (box s) + bytes = bytes + bytes_of (pending s)). lia.
  - change (used_items (box s) + (reserved_items (box s) + 1) <= max_items c). lia.
  - change (used_bytes (box s) + (reserved_bytes (box s) + bytes) <= max_total_bytes c). lia.
  - cbn [pending]. rewrite <- Permutation_middle. constructor.
    + split; cbn; lia.
    + eapply Forall_impl; [exact inv_entries0|]. intros m [H1 H2]. split; [exact H1|cbn; lia].
  - cbn. lia.
  - unfold known_ids in *. cbn [pending app]. rewrite <- Permutation_middle. by constructor.
Qed.

Lemma step_keeps c s s' : config_ok c -> inv c s -> step s s' -> inv c s'.
Proof.
  intros Hc Hinv Hstep. destruct Hstep.
  - by apply reserve_keeps.
  - by eapply commit_keeps.
  - by apply abort_keeps.
  - by eapply begin_claim_keeps.
  - by apply end_claim_keeps.
  - by apply applied_keeps.
  - by eapply requeue_keeps.
  - assert (Hi : i = box s \/ exists ev, i = set_active (active_claim (box s)) ev (box s)).
    { revert H. unfold turbo_agent_inbox_bind_applied_event. repeat case_match; intros [= <- <- <-]; eauto. }
    destruct Hi as [->|[ev ->]]; (apply (inv_moves c s); try done); apply (inv_claiming _ _ Hinv).
  - unfold turbo_agent_inbox_close in H. destruct (closed (box s)); injection H as <- <-;
      (apply (inv_moves c s); try done); apply (inv_claiming _ _ Hinv).
Qed.

Definition older (x y : entry) : Prop := sequence x <= sequence y.

(** What an inbox must be to start from; a created one is (below). *)
Record box_ok (c : turbo_agent_inbox_config) (i : inbox) : Prop := {
  ok_config : config i = c;
  ok_active : active_claim i = None;
  ok_used : used_items i = Z.of_nat (length (ready i));
  ok_bytes : used_bytes i = bytes_of (ready i);
  ok_reserved : reserved_items i = 0 /\ reserved_bytes i = 0;
  ok_items : used_items i <= max_items c;
  ok_total : used_bytes i <= max_total_bytes c;
  ok_entries : Forall (entry_ok i) (message <$> ready i);
  ok_sequence : 1 <= next_sequence i;
  ok_sorted : Sorted older (ready i)
}.

Lemma start_inv c i : box_ok c i -> NoDup (inbox_id <$> ready i) -> inv c (start i).
Proof.
  intros [] Hids. destruct ok_reserved0 as [Hr Hrb].
  assert (Hl : live (start i) = ready i) by (unfold live; cbn; by rewrite ok_active0, app_nil_r).
  split; unfold known_ids; rewrite ?Hl; cbn; rewrite ?app_nil_r; try done; lia.
Qed.

Lemma reachable_inv c i s : config_ok c -> box_ok c i -> NoDup (inbox_id <$> ready i) -> rtc step (start i) s -> inv c s.
Proof.
  intros Hc Hi Hids Hs. assert (H : forall a b, rtc step a b -> inv c a -> inv c b).
  { intros a b. induction 1 as [|x y z Hxy _ IH]; [done|]. intros Hx. apply IH. by eapply step_keeps. }
  by apply (H _ _ Hs), start_inv.
Qed.

(** ** Order *)

Lemma insert_sorted (l1 l2 : list entry) e : Sorted older (l1 ++ l2) ->
  Forall (fun x => sequence e < sequence x) l2 -> (forall x, last l1 = Some x -> sequence x <= sequence e) ->
  Sorted older (l1 ++ e :: l2).
Proof.
  intros Hs Hgt. assert (Hhd : HdRel older e l2).
  { inversion Hgt; constructor. unfold older. lia. }
  induction l1 as [|x l1 IH]; intros Hlast; cbn [app] in *; [by constructor|].
  apply Sorted_inv in Hs as [Hs Hrel]. constructor.
  - apply IH; [done|]. intros y Hy. apply Hlast. destruct l1; [done|exact Hy].
  - destruct l1 as [|y l1]; cbn [app] in *; [constructor; by apply Hlast|].
    apply HdRel_inv in Hrel. by constructor.
Qed.

Lemma insert_keeps_order (i i' : inbox) e st : Sorted older (ready i) ->
  turbo_agent_inbox_ready_insert i e = (st, i') -> Sorted older (ready i').
Proof.
  intros Hs. destruct (decide (Z.of_nat (length (ready i)) < max_items (config i))) as [Hlen|Hlen].
  - destruct (ready_insert_spec i e Hlen) as (l1 & l2 & Hl & -> & Hgt & Hlast). intros [= <- <-].
    rewrite Hl in Hs. by apply insert_sorted.
  - unfold turbo_agent_inbox_ready_insert, deque_push_back. rewrite (proj2 (Z.ltb_ge _ _)) by lia.
    by intros [= <- <-].
Qed.

(** Nothing is rotated when every entry is of one kind. *)
Lemma claim_of_one_kind k k' (i i' : inbox) found : Z.of_nat (length (ready i)) <= max_items (config i) ->
  Forall (fun e => kind e = k) (ready i) -> begin_claim_section k' i = (found, i') ->
  match found with
  | inl e => exists l, ready i = e :: l /\ ready i' = l
  | inr _ => ready i' = ready i
  end.
Proof.
  intros Hlen Hk. unfold begin_claim_section. destruct (closed i); [by intros [= <- <-]|].
  destruct (active_claim i); [by intros [= <- <-]|].
  destruct (take_kind_spec i k' Hlen) as [[_ ->]|(pre & e & post & Hl & Hpre & He & ->)]; intros [= <- <-]; [done|].
  exists post. rewrite Hl in Hk |- *. destruct pre as [|x pre]; cbn in *; [by rewrite app_nil_r|].
  apply Forall_cons in Hk as [Hx Hk]. apply Forall_cons in Hpre as [Hx' _].
  apply Forall_app in Hk as [_ Hk]. inversion Hk. congruence.
Qed.

Lemma ready_kinds c s k : inv c s -> Forall (fun e => kind e = k) (acked s) ->
  Forall (fun e => kind e = k) (ready (box s)).
Proof.
  intros Hinv Ha. assert (Hm : Forall (fun m => m.1.1.2 = k) (message <$> live s ++ applied s)).
  { rewrite <- (inv_acked _ _ Hinv). by apply Forall_fmap. }
  apply Forall_fmap, Forall_app in Hm as [Hm _]. by apply Forall_app in Hm as [Hm _].
Qed.

Definition fifo (k : turbo_agent_inbox_kind) (s : system) : Prop :=
  Forall (fun e => kind e = k) (acked s) -> Sorted older (ready (box s)).

Lemma step_fifo c s s' k : config_ok c -> inv c s -> step s s' -> fifo k s -> fifo k s'.
Proof.
  intros Hc Hinv Hstep Hf Hk. assert (Hold : Forall (fun e => kind e = k) (acked s)).
  { destruct Hstep; cbn in Hk; try done. case_match; [by inversion Hk|done]. }
  pose proof (Hf Hold) as Hs. pose proof (ready_kinds _ _ _ Hinv Hold) as Hr. destruct Hstep; cbn [box].
  - unfold reserve_section in *. case_match; [done|]. by simplify_eq.
  - unfold commit_section in *. destruct (turbo_agent_inbox_ready_insert _ _) as [st' i'] eqn:Hins. simplify_eq.
    apply insert_keeps_order in Hins; [|exact Hs]. by destruct (bool_decide _).
  - done.
  - pose proof (claim_of_one_kind _ _ _ _ _ (proj1 (ready_bound _ _ Hinv)) Hr H) as Ho.
    destruct found; [destruct Ho as (l & Hl & ->)|by rewrite Ho]. rewrite Hl in Hs. by apply Sorted_inv in Hs as [? _].
  - unfold end_claim_section. destruct written; [done|]. destruct (active_claim (box s)) as [e|]; [|done].
    destruct (turbo_agent_inbox_ready_insert _ _) eqn:Hins. by eapply insert_keeps_order in Hins.
  - unfold applied_section. rewrite drop_active_own by done. by case_match.
  - unfold requeue_section in *. rewrite drop_active_own in * by done. eapply insert_keeps_order; [|eassumption]. exact Hs.
  - unfold turbo_agent_inbox_bind_applied_event in *. by repeat case_match; simplify_eq.
  - unfold turbo_agent_inbox_close in *. by case_match; simplify_eq.
Qed.

Lemma reachable_fifo c i s k : config_ok c -> box_ok c i -> NoDup (inbox_id <$> ready i) ->
  rtc step (start i) s -> fifo k s.
Proof.
  intros Hc Hi Hids Hs. assert (H : forall a b, rtc step a b -> inv c a -> fifo k a -> fifo k b).
  { intros a b. induction 1 as [|x y z Hxy _ IH]; [done|]. intros Hx Hf.
    apply IH; [by eapply step_keeps|by eapply step_fifo]. }
  apply (H _ _ Hs); [by apply start_inv|intros _; apply Hi].
Qed.

Lemma head_oldest e l : Sorted older (e :: l) -> Forall (fun x => sequence e <= sequence x) (e :: l).
Proof.
  intros Hs. apply Sorted_StronglySorted in Hs; [|intros ???; unfold older; lia].
  apply StronglySorted_inv in Hs as [_ H]. constructor; [lia|exact H].
Qed.


(** ** Recovery leaves such an inbox *)

(** What a computation's results satisfy. *)
Definition results {W A} (m : io W A) (Q : A -> Prop) : Prop :=
  forall w o x w' o', m w o = (inl x, w', o') -> Q x.

Lemma results_bind {W A B} (m : io W A) (f : A -> io W B) (P : A -> Prop) (Q : B -> Prop) :
  results m P -> (forall x, P x -> results (f x) Q) -> results (m ≫= f) Q.
Proof.
  intros Hm Hf w o y w' o'. unfold mbind, io_bind.
  destruct (m w o) as [[[x|st] w1] o1] eqn:Hx; [|done]. apply (Hf _ (Hm _ _ _ _ _ Hx)).
Qed.

Lemma results_any {W A} (m : io W A) : results m (fun _ => True).
Proof. done. Qed.

Lemma results_ret {W A} (x : A) (Q : A -> Prop) : Q x -> results (W := W) (mret x) Q.
Proof. intros Hx w o y w' o' [= <- <- <-]. exact Hx. Qed.

Lemma results_fail {W A} st (Q : A -> Prop) : results (W := W) (io_fail st) Q.
Proof. done. Qed.

Lemma results_mem {W A} st (m : mem A) (Q : A -> Prop) :
  (forall o x o', m o = (Some x, o') -> Q x) -> results (W := W) (io_mem st m) Q.
Proof.
  intros Hm w o y w' o'. unfold io_mem. destruct (m o) as [[x|] o1] eqn:Hx; [|done].
  intros [= <- <- <-]. eauto.
Qed.

Lemma results_try {W A} (m : io W A) (Q : A -> Prop) : results m Q ->
  results (io_try m) (fun r => match r with inl x => Q x | inr _ => True end).
Proof.
  intros Hm w o y w' o'. unfold io_try. destruct (m w o) as [[[x|st] w1] o1] eqn:Hx; intros [= <- <- <-]; [eauto|done].
Qed.

Lemma results_mono {W A} (m : io W A) (P Q : A -> Prop) : results m P -> (forall x, P x -> Q x) -> results m Q.
Proof. intros Hm H w o x w' o' Hx. eapply H, Hm, Hx. Qed.

Section recovery.
Context {W J : Type} `{JsonSetters J}.
Context (host_uuid host_timestamp : W -> oracle -> option string * W * oracle).
Context (runtime : option (turbo_agent_runtime (W := W))).

Lemma read_ready_bounds (i : inbox) id (payload transition : J) e status :
  read_ready i id payload transition = Some (e, status) ->
  0 <= payload_bytes e <= MAX_EXACT_JSON_INTEGER /\ 1 <= sequence e.
Proof.
  unfold read_ready, exact_integer, mbind, option_bind.
  repeat (case_match; try done); intros [= <- <-]; cbn; simplify_eq; lia.
Qed.

Lemma load_ready_bounds (i : inbox) id :
  results (turbo_agent_inbox_load_ready (J := J) runtime i id) (fun r =>
    0 <= payload_bytes r.1 <= MAX_EXACT_JSON_INTEGER /\ 1 <= sequence r.1).
Proof.
  unfold turbo_agent_inbox_load_ready. eapply results_bind; [apply results_any|]. intros [payload|st] _; [|apply results_fail].
  eapply results_bind; [apply results_any|]. intros transition _.
  destruct (read_ready i id payload transition) as [[e status]|] eqn:Hr; [|apply results_fail].
  apply results_mem. intros o x o'. unfold create. destruct (alloc o) as [[] ?]; intros [= <- _].
  by apply read_ready_bounds in Hr.
Qed.

Lemma box_ok_sequence c (i : inbox) seq : box_ok c i -> 1 <= seq ->
  box_ok c (if next_sequence i <=? seq then set_next_sequence (seq + 1) i else i) /\
  seq < next_sequence (if next_sequence i <=? seq then set_next_sequence (seq + 1) i else i).
Proof.
  intros Hi Hseq. destruct (Z.leb_spec (next_sequence i) seq); [|done]. destruct Hi. split; [|cbn; lia].
  split; try done; [|cbn; lia]. eapply Forall_impl; [exact ok_entries0|]. intros m [Hm1 Hm2]. split; [exact Hm1|cbn; lia].
Qed.

Lemma admit_recovered_ok c (i i' : inbox) e status : config_ok c -> box_ok c i -> status <> TURBO_AGENT_INBOX_CLAIMED ->
  0 <= payload_bytes e <= MAX_EXACT_JSON_INTEGER -> 1 <= sequence e < next_sequence i ->
  admit_recovered e status i = inl i' -> box_ok c i'.
Proof.
  intros Hc Hi Hstatus Hb Hseq. unfold admit_recovered. destruct status; [|done|by intros [= <-]].
  destruct (config_ok_bounds c Hc) as [Hmax Htotal].
  assert (Hpos : 0 <= bytes_of (ready i)).
  { apply bytes_of_nonneg. pose proof (ok_entries c i Hi) as He. rewrite Forall_fmap in He.
    eapply Forall_impl; [exact He|]. intros m [Hm _]. exact Hm. }
  destruct Hi. rewrite ok_config0. unfold MAX_EXACT_JSON_INTEGER in *.
  rewrite u64_small by (unfold UINT64_MAX; lia).
  destruct (Z.eqb_spec (used_items i) (max_items c)); [done|].
  destruct (Z.ltb_spec (max_total_bytes c - used_bytes i) (payload_bytes e)); [done|]. cbn [orb].
  set (i1 := set_used _ _ i).
  assert (Hlen : Z.of_nat (length (ready i1)) < max_items (config i1)) by (cbn; rewrite ok_config0; lia).
  destruct (ready_insert_spec i1 e Hlen) as (l1 & l2 & Hl & -> & Hgt & Hlast). intros [= <-].
  change (ready i1) with (ready i) in Hl.
  assert (Hp : l1 ++ e :: l2 ≡ₚ e :: ready i) by (rewrite Hl; by rewrite Permutation_middle).
  split; try done; cbn [ready set_ready].
  - change (used_items i + 1 = Z.of_nat (length (l1 ++ e :: l2))). rewrite Hp. cbn [length]. lia.
  - change (used_bytes i + payload_bytes e = bytes_of (l1 ++ e :: l2)). rewrite Hp, bytes_of_cons. lia.
  - change (used_items i + 1 <= max_items c). lia.
  - change (used_bytes i + payload_bytes e <= max_total_bytes c). lia.
  - change (Forall (entry_ok i) (message <$> l1 ++ e :: l2)). rewrite Hp. constructor; [split; cbn; lia|done].
  - apply insert_sorted; [by rewrite <- Hl|done|done].
Qed.

Lemma results_fold {A S} (f : S -> A -> io W S) (P : S -> Prop) : (forall s x, P s -> results (f s x) P) ->
  forall l s, P s -> results (io_fold f l s) P.
Proof.
  intros Hf. induction l as [|x l IH]; intros s Hs; cbn; [by apply results_ret|].
  eapply results_bind; [by apply Hf|]. exact IH.
Qed.

Lemma results_sum {A} (x : A + salts_status) (Q : A -> Prop) :
  (forall a, x = inl a -> Q a) -> results (W := W) (io_sum x) Q.
Proof. intros Hx. destruct x; [by apply results_ret, Hx|apply results_fail]. Qed.

Lemma recover_claim_ok c (i : inbox) id e : config_ok c -> box_ok c i ->
  0 <= payload_bytes e <= MAX_EXACT_JSON_INTEGER -> 1 <= sequence e < next_sequence i ->
  results (recover_claim (J := J) host_uuid host_timestamp runtime i id e) (box_ok c).
Proof.
  intros Hc Hi Hb Hs. unfold recover_claim. destruct (_ <=? _); [apply results_fail|].
  eapply results_bind; [apply results_any|]. intros state _.
  destruct (applied_event id state) as [[event|]|]; [| |apply results_fail];
    (eapply results_bind; [apply results_any|]); intros [] _; [by apply results_ret|].
  apply results_sum. intros i' Ha. by eapply admit_recovered_ok in Ha.
Qed.

Lemma recover_payload_ok c (i : inbox) (payload : J) : config_ok c -> box_ok c i ->
  results (recover_payload (J := J) host_uuid host_timestamp runtime i payload) (box_ok c).
Proof.
  intros Hc Hi. unfold recover_payload. destruct (member_string _ _) as [id|]; [|apply results_fail].
  eapply results_bind; [apply results_try, load_ready_bounds|]. intros [[e status]|st] Hload.
  - cbn [fst] in Hload. destruct Hload as [Hb Hseq]. destruct (box_ok_sequence c i (sequence e) Hi Hseq) as [Hi' Hlt].
    cbv zeta. destruct status; [|by apply recover_claim_ok|]; apply results_sum; intros i' Ha;
      by eapply admit_recovered_ok in Ha.
  - destruct st; try apply results_fail. by apply results_ret.
Qed.

Lemma new_inbox_ok thread c : config_ok c -> box_ok c (new_inbox thread c).
Proof. intros Hc. destruct (config_ok_bounds c Hc). split; try done; cbn; try lia; constructor. Qed.

Lemma inbox_create_ok thread (c : turbo_agent_inbox_config) : 0 <= max_items c -> 0 <= max_total_bytes c ->
  results (turbo_agent_inbox_create (J := J) host_uuid host_timestamp runtime thread (Some c)) (fun i =>
    config_ok c /\ box_ok c i).
Proof.
  intros Hitems Htotal. unfold turbo_agent_inbox_create.
  destruct runtime as [r|] eqn:Hruntime; [|apply results_fail]. rewrite <- Hruntime. destruct (present thread) as [t|]; [|apply results_fail].
  destruct (config_valid c) eqn:Hc; [|apply results_fail]. cbn [negb].
  assert (Hok : config_ok c) by done.
  eapply results_bind; [apply results_any|]. intros _ _. unfold turbo_agent_inbox_recover.
  eapply results_bind; [apply results_any|]. intros [payloads|st] _; [|apply results_fail].
  eapply results_mono; [apply results_fold|done].
  - intros i x Hi. by apply recover_payload_ok.
  - by apply new_inbox_ok.
Qed.

End recovery.

(** ** The operations run those sections *)

(** From [s] to [s'] by sections, the inbox being [i] and no claim half made. *)
Definition runs_to (s s' : system) (i : inbox) : Prop :=
  rtc step s s' /\ box s' = i /\ pending s' = pending s /\ claiming s' = false.

Lemma runs_to_one s s' : step s s' -> pending s' = pending s -> claiming s' = false -> runs_to s s' (box s').
Proof. intros Hs Hp Hc. split_and!; [by apply rtc_once|done..]. Qed.

Lemma runs_to_none s : claiming s = false -> runs_to s s (box s).
Proof. intros Hc. by split_and!. Qed.

Section operations.
Context {W J : Type} `{JsonSetters J}.
Context (host_uuid host_timestamp : W -> oracle -> option string * W * oracle).
Context (runtime : option (turbo_agent_runtime (W := W))).

Lemma prepare_message_results (i : inbox) (message : J) (fresh : string -> Prop) :
  (forall w o id w' o', host_uuid w o = (Some id, w', o') -> fresh id) ->
  results (prepare_message (J := J) host_uuid host_timestamp i message) (fun r =>
    0 <= r.1.1.2 <= max_total_bytes (config i) /\ fresh r.1.2 /\
    r.1.1.2 = Z.of_nat (String.length (json_serialize message))).
Proof.
  intros Hfresh. unfold prepare_message. destruct (message_valid message); [|apply results_fail]. cbn [negb].
  eapply (results_bind _ _ (fun text => text = json_serialize message)).
  { apply results_mem. intros o x o'. unfold create. by destruct (alloc o) as [[] ?]; intros [= <- _]. }
  intros text ->. cbv zeta.
  destruct (_ || _) eqn:Hb; [apply results_fail|]. apply orb_false_iff in Hb as [_ Hb]. apply Z.ltb_ge in Hb.
  eapply results_bind; [apply results_any|]. intros copy _.
  eapply (results_bind _ _ fresh).
  { intros w o id w' o'. unfold turbo_agent_inbox_make_uuid, from_host.
    destruct (host_uuid w o) as [[[id'|] w1] o1] eqn:Hid; intros [= <- <- <-]. by eapply Hfresh. }
  intros id Hid. eapply results_bind; [apply results_any|]. intros timestamp _.
  eapply results_bind; [apply results_any|]. intros _ _. apply results_ret. cbn. split; [lia|done].
Qed.

(** Why an operation answers a status instead of doing its work. *)
Definition enqueue_refused (i : inbox) k (message : option J) (w : W) (o : oracle) (st : salts_status) : Prop :=
  match message, k with
  | Some message, Some k =>
      match prepare_message (J := J) host_uuid host_timestamp i message w o with
      | (inr st', _, _) => st = st'
      | (inl (copy, bytes, id, timestamp), w, o) =>
          closed i = true /\ st = SALTS_ECANCELED \/
          MAX_EXACT_JSON_INTEGER < next_sequence i /\ st = SALTS_ERANGE \/
          (persist_message (J := J) host_uuid host_timestamp runtime (reserve_section bytes i).2 k copy bytes
             (next_sequence i) id timestamp w o).1.1 = inr st
      end
  | _, _ => st = SALTS_EINVAL
  end.

Definition claim_refused (i : inbox) k run (w : W) (o : oracle) (st : salts_status) : Prop :=
  match present run, k with
  | Some run_id, Some k =>
      closed i = true /\ st = SALTS_ECANCELED \/
      is_Some (active_claim i) /\ st = SALTS_EBUSY \/
      Forall (fun x => kind x <> k) (ready i) /\ st = SALTS_ENOENT \/
      exists e, e ∈ ready i /\ kind e = k /\
        (persist_claim (J := J) host_uuid host_timestamp runtime (begin_claim_section k i).2 e run_id w o).1.1 = inr st
  | _, _ => st = SALTS_EINVAL
  end.

Definition settle_refused (i : inbox) e status action (event : option string) (given : bool) (w : W) (o : oracle)
    (st : salts_status) : Prop :=
  if bool_decide (inbox_id e = "") || negb given then st = SALTS_EINVAL
  else (settle (J := J) host_uuid host_timestamp runtime i (inbox_id e) status action event w o).1.1 = inr st.

(** A producer that does not wait: reserved, then committed or given back. *)
Lemma enqueue_runs c s k message timeout now w o r i w' o' : config_ok c -> inv c s -> claiming s = false ->
  (forall w o id w' o', host_uuid w o = (Some id, w', o') -> id ∉ known_ids s) ->
  turbo_agent_inbox_enqueue (J := J) host_uuid host_timestamp runtime (box s) k message timeout now [] w o =
    Some (r, i, w', o') ->
  exists s', runs_to s s' i /\ applied s' = applied s /\
    active_claim i = active_claim (box s) /\
    match r with
    | inl id => exists e m, inbox_id e = id /\ Some (kind e) = k /\ message = Some m /\
        payload_bytes e = Z.of_nat (String.length (json_serialize m)) /\ acked s' = e :: acked s /\
        ready i ≡ₚ e :: ready (box s)
    | inr st => acked s' = acked s /\ ready i = ready (box s) /\ enqueue_refused (box s) k message w o st
    end.
Proof.
  intros Hc Hinv Hcl Hfresh. unfold turbo_agent_inbox_enqueue, enqueue_refused.
  assert (Hstay : forall P : Prop, P -> exists s', runs_to s s' (box s) /\ applied s' = applied s /\
    active_claim (box s) = active_claim (box s) /\ acked s' = acked s /\ ready (box s) = ready (box s) /\ P)
    by (intros P HP; exists s; split; [by apply runs_to_none|done]).
  destruct message as [m|]; [|intros [= <- <- <- <-]; by apply Hstay].
  destruct k as [k|]; [|intros [= <- <- <- <-]; by apply Hstay].
  pose proof (prepare_message_results (box s) m _ Hfresh w o) as Hprep.
  destruct (prepare_message _ _ _ _ w o) as [[[[[[copy bytes] id] timestamp]|st] w1] o1];
    [|intros [= <- <- <- <-]; by apply Hstay].
  destruct (Hprep _ _ _ eq_refl) as (Hb & Hid & Hlen). cbn [fst snd] in Hb, Hid, Hlen.
  unfold turbo_agent_inbox_wait_for_capacity. cbn [wait_loop].
  destruct (closed (box s)) eqn:Hclosed; [intros [= <- <- <- <-]; apply Hstay; by left|].
  destruct (turbo_agent_inbox_has_capacity (box s) bytes) eqn:Hcap; [|done].
  destruct (reserve_section bytes (box s)) as [[seq|st] i1] eqn:Hres.
  2:{ unfold reserve_section in Hres. destruct (Z.ltb_spec MAX_EXACT_JSON_INTEGER (next_sequence (box s))); [|done].
      injection Hres as <- <-. intros [= <- <- <- <-]. apply Hstay. right; by left. }
  assert (Hseq : seq = next_sequence (box s) /\ ready i1 = ready (box s) /\ active_claim i1 = active_claim (box s)).
  { unfold reserve_section in Hres. destruct (_ <? _); [done|]. by injection Hres as <- <-. }
  destruct Hseq as (Hseq & Hready & Hactive).
  assert (Hbytes : 0 <= bytes <= UINT64_MAX).
  { pose proof (config_ok_bounds c Hc). rewrite (inv_config _ _ Hinv) in Hb. unfold MAX_EXACT_JSON_INTEGER, UINT64_MAX in *. lia. }
  pose proof (step_reserve id k bytes seq i1 s Hclosed Hcap Hbytes Hid Hres) as Hstep.
  pose proof (step_keeps _ _ _ Hc Hinv Hstep) as Hinv1. set (s1 := mk_system i1 _ _ _ _) in *.
  rewrite <- Hseq. cbn [snd].
  destruct (persist_message _ _ _ _ _ _ _ _ _ _ w1 o1) as [[[[]|st] w2] o2].
  - destruct (commit_section _ i1) as [st i2] eqn:Hcommit. intros [= <- <- <- <-].
    pose proof (step_commit _ [] (pending s) _ _ s1 eq_refl Hcommit) as Hstep2.
    destruct (commit_perm c s1 _ [] (pending s) _ _ Hinv1 eq_refl Hcommit) as (-> & l & Hl & Hi2).
    eexists. split; [split_and!; [eapply rtc_l; [exact Hstep|]; apply rtc_once, Hstep2|done..]|].
    split; [done|]. rewrite Hi2. split; [exact Hactive|].
    exists (mk_ready id k bytes seq 1), m. do 3 (split; [done|]). split; [exact Hlen|]. split; [reflexivity|].
    cbn [ready set_used set_ready release_reserved]. by rewrite <- Hready.
  - intros [= <- <- <- <-]. pose proof (step_abort _ [] (pending s) s1 eq_refl) as Hstep2.
    eexists. split; [split_and!; [eapply rtc_l; [exact Hstep|]; apply rtc_once, Hstep2|done..]|].
    split; [done|]. split; [exact Hactive|]. split; [done|]. split; [exact Hready|]. by right; right.
Qed.

(** What a claim makes of the queue: the first waiting message of the kind is the
    active claim, the messages of the other kind before it now wait behind the
    others; or, refused, all wait as before. *)
Definition claim_made k (i j : inbox) : Prop :=
  closed i = false /\ active_claim i = None /\ exists before e after,
    ready i = before ++ e :: after /\ Some (kind e) = k /\ Forall (fun x => kind x <> kind e) before /\
    ready j = after ++ before /\ active_claim j = Some (next_transition e).

Lemma begin_claim_cases k (i : inbox) found i' : Z.of_nat (length (ready i)) <= max_items (config i) ->
  begin_claim_section k i = (found, i') ->
  (exists st, found = inr st /\ i' = i /\
     (closed i = true /\ st = SALTS_ECANCELED \/ is_Some (active_claim i) /\ st = SALTS_EBUSY \/
      Forall (fun x => kind x <> k) (ready i) /\ st = SALTS_ENOENT)) \/
  exists before e after, found = inl e /\ closed i = false /\ active_claim i = None /\ ready i = before ++ e :: after /\
    kind e = k /\ Forall (fun x => kind x <> k) before /\
    i' = set_active (Some e) (active_event_id i) (set_ready (after ++ before) i).
Proof.
  intros Hlen. unfold begin_claim_section.
  destruct (closed i) eqn:Hc; [intros [= <- <-]; left; eexists; split_and!; [done|done|by left]|].
  destruct (active_claim i) eqn:Ha; [intros [= <- <-]; left; eexists; split_and!; [done|done|right; left; by eauto]|].
  destruct (take_kind_spec i k Hlen) as [[Hnone ->]|(pre & e & post & Hl & Hpre & Hk & ->)]; intros [= <- <-].
  - left. exists SALTS_ENOENT. split_and!; [done|by destruct i|right; by right].
  - right. by exists pre, e, post.
Qed.

Lemma claim_runs c s k run w o r i w' o' : inv c s -> claiming s = false ->
  turbo_agent_inbox_claim (J := J) host_uuid host_timestamp runtime (box s) k run w o = (r, i, w', o') ->
  exists s', runs_to s s' i /\ acked s' = acked s /\ applied s' = applied s /\
    match r with
    | inl _ => claim_made k (box s) i
    | inr st => ready i ≡ₚ ready (box s) /\ active_claim i = active_claim (box s) /\
        claim_refused (box s) k run w o st
    end.
Proof.
  intros Hinv Hcl. unfold turbo_agent_inbox_claim, claim_refused.
  destruct (present run) as [run_id|]; [|intros [= <- <- <- <-]; exists s; split; [by apply runs_to_none|done]].
  destruct k as [k|]; [|intros [= <- <- <- <-]; exists s; split; [by apply runs_to_none|done]].
  destruct (begin_claim_section k (box s)) as [found i1] eqn:Hb. pose proof (step_begin_claim k found i1 s Hb) as Hstep.
  destruct (begin_claim_cases _ _ _ _ (proj1 (ready_bound _ _ Hinv)) Hb)
    as [(st & -> & -> & Hst)|(before & e & after & -> & Hopen & Hnone & Hl & Hk & Hbefore & ->)].
  2: pose proof (insert_perm (set_active None (active_event_id (box s)) (set_ready (after ++ before) (box s))) e)
    as Hback; assert (Hlen : Z.of_nat (length (after ++ before)) < max_items (config (box s)))
    by (pose proof (proj1 (ready_bound _ _ Hinv)) as Hlen; rewrite Hl in Hlen; rewrite length_app in *; cbn in Hlen; lia).
  - intros [= <- <- <- <-]. eexists. split; [exact (runs_to_one _ _ Hstep eq_refl Hcl)|].
    split_and!; try done. tauto.
  - pose proof (fun b => step_end_claim b (mk_system (set_active (Some e) (active_event_id (box s))
      (set_ready (after ++ before) (box s))) (pending s) (acked s) (applied s) true) eq_refl) as Hend.
    cbn [snd]. destruct (persist_claim _ _ _ _ _ _ w o) as [[[record|st] w1] o1] eqn:Hp.
    + destruct (raw_string _ _ record o1) as [record' o2]. intros [= <- <- <- <-].
      eexists (mk_system (end_claim_section true _) (pending s) (acked s) (applied s) false).
      split; [split_and!; [eapply rtc_l; [exact Hstep|]; apply rtc_once, (Hend true)|done..]|].
      do 2 (split; [done|]). do 2 (split; [done|]). exists before, e, after. by rewrite Hk.
    + intros [= <- <- <- <-].
      eexists (mk_system (end_claim_section false _) (pending s) (acked s) (applied s) false).
      split; [split_and!; [eapply rtc_l; [exact Hstep|]; apply rtc_once, (Hend false)|done..]|].
      do 2 (split; [done|]). unfold end_claim_section. cbn [active_claim set_active box].
      destruct (Hback Hlen) as (l & Hins & Hperm).
      match goal with |- context [turbo_agent_inbox_ready_insert ?a e] =>
        change a with (set_active None (active_event_id (box s)) (set_ready (after ++ before) (box s))) end.
      rewrite Hins. cbn [snd]. split; [|split].
      * cbn [ready set_ready]. rewrite Hperm, Hl. cbn. by rewrite <- Permutation_middle, (Permutation_app_comm before).
      * by rewrite Hnone.
      * right. right. right. exists e. split; [rewrite Hl; apply elem_of_app; right; by left|]. by rewrite Hp.
Qed.

Lemma is_active_some id (i : inbox) : is_active id i = true -> exists e, active_claim i = Some e /\ inbox_id e = id.
Proof. unfold is_active. destruct (active_claim i) as [e|]; [|done]. intros Hid%bool_decide_eq_true. eauto. Qed.

Lemma settle_active (i : inbox) e status action event : active_claim i = Some e ->
  results (settle (J := J) host_uuid host_timestamp runtime i (inbox_id e) status action event) (fun x => x = e).
Proof.
  intros He. unfold settle. eapply (results_bind _ _ (fun x => x = e)).
  - unfold turbo_agent_inbox_resolve_entry, is_active. rewrite He, bool_decide_eq_true_2 by done.
    apply results_mem. intros o x o'. unfold create. by destruct (alloc o) as [[] ?]; intros [= <- _].
  - intros x ->. destruct (_ <=? _); [apply results_fail|]. eapply results_bind; [apply results_any|].
    intros [] _. by apply results_ret.
Qed.

Lemma present_given (id : string) :
  present (Some id) = None /\ bool_decide (id = "") = true \/
  present (Some id) = Some id /\ bool_decide (id = "") = false.
Proof. by destruct id; [left|right]. Qed.

(** The claimed message, settled: dropped when the store took the transition. *)
Lemma mark_applied_runs s e event w o r i w' o' : claiming s = false -> active_claim (box s) = Some e ->
  turbo_agent_inbox_mark_applied (J := J) host_uuid host_timestamp runtime (box s) (Some (inbox_id e)) event w o =
    (r, i, w', o') ->
  exists s', runs_to s s' i /\ acked s' = acked s /\
    match r with
    | inl _ => applied s' = e :: applied s /\ active_claim i = None /\ ready i = ready (box s)
    | inr st => applied s' = applied s /\ i = box s /\
        settle_refused (box s) e TURBO_AGENT_INBOX_APPLIED "applied" (present event)
          (bool_decide (is_Some (present event))) w o st
    end.
Proof.
  intros Hcl He. unfold turbo_agent_inbox_mark_applied, settle_refused.
  assert (Hstay : forall P : Prop, P -> exists s', runs_to s s' (box s) /\ acked s' = acked s /\
    applied s' = applied s /\ box s = box s /\ P) by (intros P HP; exists s; split; [by apply runs_to_none|done]).
  destruct (present_given (inbox_id e)) as [[-> Hid]|[-> Hid]]; rewrite Hid; cbn [orb];
    [intros [= <- <- <- <-]; by apply Hstay|].
  destruct (present event) as [event_id|]; [|intros [= <- <- <- <-]; by apply Hstay].
  pose proof (settle_active (box s) e TURBO_AGENT_INBOX_APPLIED "applied" (Some event_id) He w o) as Hs.
  change (negb (bool_decide (is_Some (Some event_id)))) with false. cbv iota.
  destruct (settle _ _ _ _ _ _ _ _ w o) as [[[x|st] w1] o1]; intros [= <- <- <- <-]; [|by apply Hstay].
  specialize (Hs _ _ _ eq_refl) as ->. pose proof (step_applied e s Hcl He) as Hstep.
  eexists. split; [exact (runs_to_one _ _ Hstep eq_refl eq_refl)|]. split; [done|]. split; [done|].
  unfold applied_section. rewrite drop_active_own by done. by destruct (_ && _).
Qed.

Lemma requeue_runs c s e w o r i w' o' : inv c s -> claiming s = false -> active_claim (box s) = Some e ->
  turbo_agent_inbox_requeue (J := J) host_uuid host_timestamp runtime (box s) (Some (inbox_id e)) w o = (r, i, w', o') ->
  exists s', runs_to s s' i /\ acked s' = acked s /\ applied s' = applied s /\
    match r with
    | inl _ => active_claim i = None /\ ready i ≡ₚ next_transition e :: ready (box s) /\
        message e ∈ message <$> ready i
    | inr st => i = box s /\
        settle_refused (box s) e TURBO_AGENT_INBOX_QUEUED "requeued" None true w o st
    end.
Proof.
  intros Hinv Hcl He. unfold turbo_agent_inbox_requeue, settle_refused.
  assert (Hstay : forall P : Prop, P -> exists s', runs_to s s' (box s) /\ acked s' = acked s /\
    applied s' = applied s /\ box s = box s /\ P) by (intros P HP; exists s; split; [by apply runs_to_none|done]).
  destruct (present_given (inbox_id e)) as [[-> Hid]|[-> Hid]]; rewrite Hid; cbn [orb negb];
    [intros [= <- <- <- <-]; by apply Hstay|].
  pose proof (settle_active (box s) e TURBO_AGENT_INBOX_QUEUED "requeued" None He w o) as Hs.
  destruct (settle _ _ _ _ _ _ _ _ w o) as [[[x|st] w1] o1]; [|intros [= <- <- <- <-]; by apply Hstay].
  specialize (Hs _ _ _ eq_refl) as ->. destruct (requeue_section e (box s)) as [st i1] eqn:Hr.
  pose proof (step_requeue e st i1 s Hcl He Hr) as Hstep.
  destruct (requeue_perm _ _ _ _ He (proj1 (proj2 (ready_bound _ _ Hinv)) (ex_intro _ _ He)) Hr) as (-> & l & Hi & Hl).
  rewrite bool_decide_eq_true_2 by done. intros [= <- <- <- <-].
  eexists. split; [exact (runs_to_one _ _ Hstep eq_refl eq_refl)|]. split; [done|]. split; [done|]. rewrite Hi.
  cbn [ready set_ready]. split; [done|]. split; [exact Hl|]. rewrite Hl. left.
Qed.

(** The claim a commit applies: one that is bound to its event. *)
Definition bound_claim (i : inbox) : option (entry * string) :=
  e ← active_claim i; ev ← active_event_id i; Some (e, ev).

Lemma commit_bound_claim_runs s w o r i w' o' : claiming s = false ->
  turbo_agent_inbox_commit_bound_claim (J := J) host_uuid host_timestamp runtime (box s) w o = (r, i, w', o') ->
  exists s', runs_to s s' i /\ acked s' = acked s /\
    ((applied s' = applied s /\ i = box s /\ (plenty o -> bound_claim (box s) = None \/ r <> inl tt)) \/
     exists e ev, bound_claim (box s) = Some (e, ev) /\ applied s' = e :: applied s /\ r = inl tt /\
       active_claim i = None /\ ready i = ready (box s)).
Proof.
  intros Hcl. unfold turbo_agent_inbox_commit_bound_claim, bound_claim.
  pose proof (runs_to_none s Hcl) as Hstay.
  destruct (active_claim (box s)) as [e|] eqn:He; [|intros [= <- <- <- <-]; exists s; eauto 10].
  destruct (active_event_id (box s)) as [event|]; [|intros [= <- <- <- <-]; exists s; eauto 10].
  destruct (alloc o) as [a o1] eqn:Ha. destruct (alloc o1) as [b o2] eqn:Hb.
  assert (Hgiven : plenty o -> a = true /\ b = true).
  { intros Ho. destruct (alloc_plenty _ Ho) as (o3 & Ho3 & Hal). rewrite Ha in Hal. injection Hal as -> ->.
    destruct (alloc_plenty _ Ho3) as (o4 & _ & Hal). rewrite Hb in Hal. by injection Hal as -> _. }
  destruct a, b; [|intros [= <- <- <- <-]; exists s; (split; [done|]); (split; [done|]); left;
    (do 2 (split; [done|])); intros Ho; by destruct (Hgiven Ho)..]. intros Hm.
  destruct (mark_applied_runs _ _ _ _ _ _ _ _ _ Hcl He Hm) as (s' & Hrun & Hack & Hr).
  exists s'. split; [done|]. split; [done|].
  destruct r as [[]|st]; [right; exists e, event; destruct Hr as (? & ? & ?); by split_and!|left; destruct Hr as (Hr & -> & _)].
  do 2 (split; [done|]). by right.
Qed.

End operations.
