(* ===== verification/AgentInboxSafe.v ===== *)
(** * What the inbox promises (src/agent/src/turbo_agent_inbox.c)

    The queue's invariant over every interleaving of its users, that each operation
    is a run of the sections the invariant speaks of, and concrete runs over the
    memory backend. *)

From Stdlib Require Import Sorting.Sorted.
From stdpp Require Import relations pretty.
From S2P Require Import Prelude RuntimeJson JsonBuild JsonMem JsonRecord RuntimeStore RuntimeStoreFacts AgentInbox AgentInboxQueue.

#[local] Open Scope string_scope.
#[local] Open Scope list_scope.
#[local] Open Scope Z_scope.

Section inbox.
Context {W J : Type} `{JsonSetters J}.
Context (host_uuid host_timestamp : W -> oracle -> option string * W * oracle).
Context (runtime : option (turbo_agent_runtime (W := W))).

(** C20. An accepted message is delivered once.  An inbox is created over whatever the
    store holds, under distinct identifiers; then any number of producers and one
    consumer run the sections of their operations in any interleaving, and the store
    answers what it likes between them.  The messages that were recovered or that
    callers were told are queued are, kind, size and sequence number unchanged,
    exactly those that wait, are claimed or were applied, each once; items and bytes
    are accounted for exactly, and with what is reserved they stay within the limits;
    a reserved message always finds its place; and while all messages are of one kind,
    a claim takes the oldest. *)
Theorem inbox_conserves thread c w o i w' o' s : 0 <= max_items c -> 0 <= max_total_bytes c ->
  turbo_agent_inbox_create (J := J) host_uuid host_timestamp runtime thread (Some c) w o = (inl i, w', o') ->
  NoDup (inbox_id <$> ready i) -> rtc step (start i) s ->
  message <$> acked s ≡ₚ message <$> live s ++ applied s /\ NoDup (inbox_id <$> live s ++ applied s) /\
  used_items (box s) = Z.of_nat (length (live s)) /\ used_bytes (box s) = bytes_of (live s) /\
  used_items (box s) + reserved_items (box s) <= max_items c /\
  used_bytes (box s) + reserved_bytes (box s) <= max_total_bytes c /\
  (forall e, e ∈ pending s -> (commit_section e (box s)).1 = SALTS_OK) /\
  (forall k e i, Forall (fun e => kind e = k) (acked s) -> begin_claim_section k (box s) = (inl e, i) ->
     Forall (fun x => sequence e <= sequence x) (ready (box s))).
Proof.
  intros Hitems Htotal Hcreate Hdistinct Hs.
  destruct (inbox_create_ok (J := J) host_uuid host_timestamp runtime thread c Hitems Htotal _ _ _ _ _ Hcreate) as [Hc Hi].
  pose proof (reachable_inv _ _ _ Hc Hi Hdistinct Hs) as Hinv.
  split_and!; try apply Hinv.
  - pose proof (inv_ids _ _ Hinv) as Hids. unfold known_ids in Hids.
    rewrite (Permutation_app_comm (pending s)), app_assoc, fmap_app in Hids. by apply NoDup_app in Hids as [Hids _].
  - intros e (before & after & Hp)%list_elem_of_split. destruct (commit_section e (box s)) as [st j] eqn:He.
    by destruct (commit_perm _ _ _ _ _ _ _ Hinv Hp He) as [-> _].
  - intros k e j Hk Hb. pose proof (reachable_fifo _ _ _ k Hc Hi Hdistinct Hs Hk) as Hsorted.
    destruct (claim_of_one_kind _ _ _ _ _ (proj1 (ready_bound _ _ Hinv)) (ready_kinds _ _ _ Hinv Hk) Hb) as (l & Hl & _).
    rewrite Hl in Hsorted |- *. by apply head_oldest.
Qed.


End inbox.

(** ** Concrete runs, over the memory backend *)

Module AgentInboxRuns.
Import JsonTree JsonNew JsonRecordTree.

Abbreviation callbacks := (memory_callbacks (J := jtree)).

(** Identifiers count the records; the clock stands. *)
Definition demo_uuid (m : memory_store) (o : oracle) : option string * memory_store * oracle :=
  (Some ("id-" +:+ pretty (length m)), m, o).
Definition demo_timestamp (m : memory_store) (o : oracle) : option string * memory_store * oracle :=
  (Some "2026-01-01T00:00:00Z", m, o).

Definition demo_config : turbo_agent_inbox_config := mk_inbox_config 3 2000 1000 1.

Definition demo_box : inbox := new_inbox "thread-1" demo_config.

Definition demo_message (text : string) : jtree := JObj [("role", JStr "user"); ("content", JStr text)].

Lemma demo_created : turbo_agent_inbox_create (J := jtree) demo_uuid demo_timestamp (Some callbacks)
  (Some "thread-1") (Some demo_config) [] [] = (inl demo_box, [], []).
Proof. by vm_compute. Qed.

(** Two producers reserve, the later commits first; then one message is claimed. *)
Definition demo_state : system :=
  mk_system
    (mk_inbox "thread-1" demo_config [mk_ready "b" TURBO_AGENT_INBOX_STEER 20 2 1] 2 30 0 0 3 false
       (Some (mk_ready "a" TURBO_AGENT_INBOX_STEER 10 1 2)) None)
    [] [mk_ready "a" TURBO_AGENT_INBOX_STEER 10 1 1; mk_ready "b" TURBO_AGENT_INBOX_STEER 20 2 1] [] false.

Ltac concrete := first [by apply (bool_decide_unpack _) | vm_compute; reflexivity].

Lemma demo_reached : rtc step (start demo_box) demo_state.
Proof.
  eapply rtc_l; [apply (step_reserve "a" TURBO_AGENT_INBOX_STEER 10); concrete|].
  eapply rtc_l; [apply (step_reserve "b" TURBO_AGENT_INBOX_STEER 20); concrete|].
  eapply rtc_l; [apply (step_commit (mk_ready "b" TURBO_AGENT_INBOX_STEER 20 2 1) []); concrete|].
  eapply rtc_l; [apply (step_commit (mk_ready "a" TURBO_AGENT_INBOX_STEER 10 1 1) []); concrete|].
  eapply rtc_l; [apply (step_begin_claim TURBO_AGENT_INBOX_STEER); concrete|].
  eapply rtc_l; [apply (step_end_claim true); concrete|]. apply rtc_refl.
Qed.

Lemma demo_config_ok : config_ok demo_config.
Proof. by split_and!. Qed.

(** "a" was accepted after "b", reserved before it, and is claimed first. *)
Lemma inbox_conserves_witness :
  rtc step (start demo_box) demo_state /\ inbox_id <$> acked demo_state = ["a"; "b"] /\
  NoDup (inbox_id <$> live demo_state ++ applied demo_state) /\ used_bytes (box demo_state) = bytes_of (live demo_state).
Proof.
  pose proof (inbox_conserves (J := jtree) demo_uuid demo_timestamp (Some callbacks) (Some "thread-1") demo_config
    [] [] demo_box [] [] demo_state) as Hr.
  specialize (Hr (bool_decide_unpack (0 <= 3) I) (bool_decide_unpack (0 <= 2000) I) demo_created
    NoDup_nil_2 demo_reached).
  destruct Hr as (_ & Hids & _ & Hbytes & _). split_and!; [exact demo_reached|done|exact Hids|exact Hbytes].
Defined.

Definition demo_enqueue := turbo_agent_inbox_enqueue (J := jtree) demo_uuid demo_timestamp (Some callbacks) demo_box
  (Some TURBO_AGENT_INBOX_STEER) (Some (demo_message "hello")) 0 0 [] [] [].


(** A claim of the other kind leaves the queue out of order: of follow-ups 1 and 3 about
    a steering message 2, the claim of a follow-up after the steering one takes 3. *)
Definition two_kinds : inbox :=
  set_ready [mk_ready "f1" TURBO_AGENT_INBOX_FOLLOW_UP 1 1 1; mk_ready "s2" TURBO_AGENT_INBOX_STEER 1 2 1;
             mk_ready "f3" TURBO_AGENT_INBOX_FOLLOW_UP 1 3 1] (set_used 3 3 demo_box).

Definition claimed_id (r : entry + salts_status) : option string :=
  match r with inl e => Some (inbox_id e) | inr _ => None end.

Example other_kind_overtakes :
  let (first, i) := begin_claim_section TURBO_AGENT_INBOX_STEER two_kinds in
  (claimed_id first, claimed_id
     (begin_claim_section TURBO_AGENT_INBOX_FOLLOW_UP
        (applied_section (mk_ready "s2" TURBO_AGENT_INBOX_STEER 1 2 2) (end_claim_section true i))).1) =
  (Some "s2", Some "f3").
Proof. by vm_compute. Qed.

End AgentInboxRuns.
