(* ===== verification/AgentExecution.v ===== *)
(** * Executions (src/agent/src/turbo_agent_execution.c)

    A runtime operation that a thread pool runs: its admission, what the worker
    publishes, and the single handing over of its result.  An operation under the
    execution's mutex is one atomic step; [worker_run] and [worker_finish] are the
    worker's two critical sections, with the runtime's answer as argument.

    The pool, new identifiers and the clock belong to the host. *)

From S2P Require Import Prelude RuntimeJson JsonBuild JsonMem RuntimeStore.
From S2P Require RuntimeControl.

Module Control := RuntimeControl.Control.

#[local] Open Scope string_scope.
#[local] Open Scope list_scope.
#[local] Open Scope Z_scope.

(* src/agent/include/turbo_agent_execution.h 21-29 turbo_agent_execution_status_t *)
Inductive turbo_agent_execution_status : Type :=
| TURBO_AGENT_EXECUTION_QUEUED
| TURBO_AGENT_EXECUTION_RUNNING
| TURBO_AGENT_EXECUTION_COMPLETED
| TURBO_AGENT_EXECUTION_INTERRUPTED
| TURBO_AGENT_EXECUTION_CANCELLED
| TURBO_AGENT_EXECUTION_TIMED_OUT
| TURBO_AGENT_EXECUTION_FAILED.

#[global] Instance execution_status_eq_dec : EqDecision turbo_agent_execution_status.
Proof. solve_decision. Defined.

(* src/agent/src/turbo_agent_execution.c 19-23 turbo_agent_execution_kind_t *)
Inductive turbo_agent_execution_kind : Type :=
| TURBO_AGENT_EXECUTION_START | TURBO_AGENT_EXECUTION_RESUME | TURBO_AGENT_EXECUTION_FORK.

#[global] Instance execution_kind_eq_dec : EqDecision turbo_agent_execution_kind.
Proof. solve_decision. Defined.

(* src/agent/src/turbo_agent_execution.c 47-49 turbo_agent_execution_is_terminal *)
Definition turbo_agent_execution_is_terminal (s : turbo_agent_execution_status) : bool :=
  match s with TURBO_AGENT_EXECUTION_QUEUED | TURBO_AGENT_EXECUTION_RUNNING => false | _ => true end.

(** Where a run comes from. *)
(* src/agent/include/turbo_agent_runtime.h 14-20 turbo_agent_runtime_parent_link_t *)
Record turbo_agent_runtime_parent_link : Type := mk_parent_link {
  parent_agent_run_id : option string;
  parent_tool_call_id : option string;
  parent_tool_name : option string;
  parent_graph_run_id : option string;
  call_frame_id : option string
}.

Section execution.
Context {J : Type} `{JsonApi J}.

(** The cancel source and its token are owned, so they outlive every use. *)
(* src/agent/src/turbo_agent_execution.c 25-45 turbo_agent_execution_s *)
Record turbo_agent_execution : Type := mk_execution {
  execution_id : string;
  status : turbo_agent_execution_status;
  kind : turbo_agent_execution_kind;
  operation_rc : salts_status;
  result_taken : bool;
  cancel_source : Control.cancel_heap (World := Z);
  summary : option J;
  final_state : option J
}.

(* src/agent/src/turbo_agent_execution.c 185-205 turbo_agent_execution_status_from_summary *)
Definition turbo_agent_execution_status_from_summary (s : option J) : turbo_agent_execution_status :=
  match member_string s "status" with
  | None => TURBO_AGENT_EXECUTION_FAILED
  | Some text =>
      if bool_decide (text = "completed") then TURBO_AGENT_EXECUTION_COMPLETED
      else if bool_decide (text = "interrupted") then TURBO_AGENT_EXECUTION_INTERRUPTED
      else if bool_decide (text = "cancelled") then TURBO_AGENT_EXECUTION_CANCELLED
      else if bool_decide (text = "timed_out") then TURBO_AGENT_EXECUTION_TIMED_OUT
      else TURBO_AGENT_EXECUTION_FAILED
  end.

(** ** The worker *)

(* src/agent/src/turbo_agent_execution.c 252-260 turbo_agent_execution_worker *)
Definition worker_run (e : turbo_agent_execution) : turbo_agent_execution :=
  mk_execution (execution_id e) TURBO_AGENT_EXECUTION_RUNNING (kind e) (operation_rc e) (result_taken e)
    (cancel_source e) (summary e) (final_state e).

(* src/agent/src/turbo_agent_execution.c 282-290 turbo_agent_execution_worker *)
Definition worker_finish (rc : salts_status) (s st : option J) (e : turbo_agent_execution) : turbo_agent_execution :=
  mk_execution (execution_id e)
    (if bool_decide (rc = SALTS_OK) then turbo_agent_execution_status_from_summary s else TURBO_AGENT_EXECUTION_FAILED)
    (kind e) rc (result_taken e) (cancel_source e) s st.

(** ** Operations on a handle *)

Definition set_cancel_source (h : Control.cancel_heap) (e : turbo_agent_execution) : turbo_agent_execution :=
  mk_execution (execution_id e) (status e) (kind e) (operation_rc e) (result_taken e) h (summary e) (final_state e).

Definition terminal (e : turbo_agent_execution) : bool := turbo_agent_execution_is_terminal (status e).

(* src/agent/src/turbo_agent_execution.c 507-517 turbo_agent_execution_cancel *)
Definition turbo_agent_execution_cancel (reason now : Z) (e : turbo_agent_execution)
  : salts_status * turbo_agent_execution :=
  if terminal e then (SALTS_EALREADY, e)
  else
    match Control.turbo_cancel_source_cancel (fun w => w) reason now (cancel_source e) with
    | Some (st, h) => (st, set_cancel_source h e)
    | None => (SALTS_EINVAL, e)
    end.

(** The wait, with what the execution is at each turn and the clock read then;
    None: still waiting. *)
(* src/agent/src/turbo_agent_execution.c 519-554 turbo_agent_execution_wait *)
Fixpoint wait_turns (deadline_ms : option Z) (turns : list (Z * turbo_agent_execution)) (e : turbo_agent_execution)
  : option salts_status :=
  if terminal e then Some SALTS_OK
  else
    match turns with
    | [] => None
    | (now_ms, next) :: turns =>
        match deadline_ms with
        | Some d => if d <=? now_ms then Some SALTS_ETIMEDOUT else wait_turns deadline_ms turns next
        | None => wait_turns deadline_ms turns next
        end
    end.

(* src/agent/src/turbo_agent_execution.c 51-53 turbo_agent_execution_saturating_add *)
Definition turbo_agent_execution_saturating_add (left right : Z) : Z :=
  if UINT64_MAX - left <? right then UINT64_MAX else left + right.

(* src/agent/src/turbo_agent_execution.c 519-554 turbo_agent_execution_wait *)
Definition turbo_agent_execution_wait (timeout_ms now : Z) (turns : list (Z * turbo_agent_execution))
    (e : turbo_agent_execution) : option salts_status :=
  wait_turns (if timeout_ms =? UINT64_MAX then None else Some (turbo_agent_execution_saturating_add now timeout_ms))
    turns e.

(** With a timeout of 0 the first look decides. *)
(* src/agent/src/turbo_agent_execution.c 519-554 turbo_agent_execution_wait *)
Definition wait_now (e : turbo_agent_execution) : salts_status :=
  if terminal e then SALTS_OK else SALTS_ETIMEDOUT.

(* src/agent/src/turbo_agent_execution.c 567-580 turbo_agent_execution_result_code *)
Definition turbo_agent_execution_result_code (e : turbo_agent_execution) : salts_status + salts_status :=
  if terminal e then inl (operation_rc e) else inr SALTS_EBUSY.

(* src/agent/src/turbo_agent_execution.c 582-594 turbo_agent_execution_peek_result_internal *)
Definition turbo_agent_execution_peek_result_internal (e : turbo_agent_execution)
  : option J * option J + salts_status :=
  if negb (terminal e) then inr SALTS_EBUSY
  else if result_taken e then inr SALTS_EALREADY
  else inl (summary e, final_state e).

(** The result and the execution without it. *)
(* src/agent/src/turbo_agent_execution.c 596-619 turbo_agent_execution_take_result *)
Definition turbo_agent_execution_take_result (e : turbo_agent_execution)
  : (option J * option J + salts_status) * turbo_agent_execution :=
  if negb (terminal e) then (inr SALTS_EBUSY, e)
  else if result_taken e then (inr SALTS_EALREADY, e)
  else
    (inl (summary e, final_state e),
     mk_execution (execution_id e) (status e) (kind e) (operation_rc e) true (cancel_source e) None None).

(** ** Admission *)

Section admission.
Context {W : Type} (cmeta_uuid : io W string) (pool_submit : io W unit).

Definition copy_optional (text : option string) : mem unit :=
  match text with Some _ => create tt | None => mret tt end.

(** An interrupt node that is NULL is invalid. *)
(* src/agent/src/turbo_agent_execution.c 69-118 turbo_agent_execution_copy_graph_options *)
Definition turbo_agent_execution_copy_graph_options (start_node : option string)
    (interrupts : list (option string)) : io W unit :=
  _ ← io_mem SALTS_ENOMEM (copy_optional start_node);
  match interrupts with
  | [] => mret tt
  | _ =>
      _ ← io_mem SALTS_ENOMEM (create tt);
      foldr (fun name rest => match name with
                              | None => io_fail SALTS_EINVAL
                              | Some _ => _ ← io_mem SALTS_ENOMEM (create tt); rest
                              end) (mret tt) interrupts
  end.

(* src/agent/src/turbo_agent_execution.c 142-183 turbo_agent_execution_copy_runtime_options *)
Definition turbo_agent_execution_copy_runtime_options (checkpoint_id thread_id : option string)
    (link : option turbo_agent_runtime_parent_link) : mem unit :=
  _ ← copy_optional checkpoint_id;
  _ ← copy_optional thread_id;
  match link with
  | None => mret tt
  | Some l =>
      _ ← copy_optional (parent_agent_run_id l);
      _ ← copy_optional (parent_tool_call_id l);
      _ ← copy_optional (parent_tool_name l);
      _ ← copy_optional (parent_graph_run_id l);
      copy_optional (call_frame_id l)
  end.

(** What a submission gives to an execution. *)
Record submission : Type := mk_submission {
  sub_start_node : option string;
  sub_interrupts : list (option string);
  sub_checkpoint_id : option string;
  sub_thread_id : option string;
  sub_parent_link : option turbo_agent_runtime_parent_link;
  sub_deadline_mono_ms : Z
}.

(** The execution's source with its token; every failure but a source that
    cannot be created is a lack of memory too. *)
Definition create_source (deadline_mono_ms : Z) : io W (Control.cancel_heap (World := Z)) := fun w o =>
  match Control.turbo_cancel_source_create
          (Some (Control.mk_config Control.sizeof_config Control.TURBO_RUNTIME_CONTROL_ABI_VERSION
                   deadline_mono_ms None)) true o with
  | (SALTS_OK, Some h, o) =>
      match Control.turbo_cancel_source_token 0 true h o with
      | Some (SALTS_OK, h, o) => (inl h, w, o)
      | Some (_, _, o) => (inr SALTS_ENOMEM, w, o)
      | None => (inr SALTS_ENOMEM, w, o)
      end
  | (st, _, o) => (inr st, w, o)
  end.

(** [before_admit] is called with the new identifier, before the pool. *)
(* src/agent/src/turbo_agent_execution.c 302-405 turbo_agent_execution_submit *)
Definition turbo_agent_execution_submit (k : turbo_agent_execution_kind) (input : option J) (s : submission)
    (before_admit : option (string -> io W unit)) : io W turbo_agent_execution :=
  if bool_decide (k = TURBO_AGENT_EXECUTION_START) && negb (bool_decide (is_Some input)) then io_fail SALTS_EINVAL
  else
    _ ← io_mem SALTS_ENOMEM (_ ← create tt; a ← attempt (create tt); b ← attempt (create tt); _ ← need a; need b);
    _ ← io_mem SALTS_ENOMEM (match input with Some _ => create tt | None => mret tt end);
    _ ← turbo_agent_execution_copy_graph_options (sub_start_node s) (sub_interrupts s);
    _ ← io_mem SALTS_ENOMEM (turbo_agent_execution_copy_runtime_options (sub_checkpoint_id s) (sub_thread_id s)
                               (sub_parent_link s));
    source ← create_source (sub_deadline_mono_ms s);
    id ← cmeta_uuid;
    _ ← match before_admit with Some gate => gate id | None => mret tt end;
    _ ← pool_submit;
    mret (mk_execution id TURBO_AGENT_EXECUTION_QUEUED k SALTS_EBUSY false source None None).

End admission.
End execution.
