(* ===== verification/AgentRouter.v ===== *)
(** * The router (src/agent/src/turbo_agent_router.c)

    A host routes model calls to a few configured endpoints.  Here: the router, the
    authority of agents, the choice of an endpoint for a request, and the task that
    an accepted request becomes.

    Pointers to agents, runtimes and tool registries are numbers, 0 for NULL.  A
    model has one router; agents are borrowed, and the host may replace their
    policies. *)

From S2P Require Import Prelude RuntimeJson JsonBuild JsonMem JsonRecord RuntimeStore AgentExecution.
From S2P Require AgentPolicy Graph.

#[local] Open Scope string_scope.
#[local] Open Scope list_scope.
#[local] Open Scope Z_scope.

(* src/agent/include/turbo_agent_router.h 13-13 TURBO_AGENT_ROUTER_MAX_ENDPOINTS *)
Definition TURBO_AGENT_ROUTER_MAX_ENDPOINTS : Z := 16.
(* src/agent/include/turbo_agent_router.h 14-14 TURBO_AGENT_ROUTER_MAX_MODEL_TURNS *)
Definition TURBO_AGENT_ROUTER_MAX_MODEL_TURNS : Z := 16.
(* src/agent/include/turbo_agent_router.h 15-15 TURBO_AGENT_ROUTER_MAX_REVIEW_RESUMES *)
Definition TURBO_AGENT_ROUTER_MAX_REVIEW_RESUMES : Z := 32.
(* src/agent/include/turbo_agent_router.h 43-43 TURBO_AGENT_ROUTER_TEXT *)
Definition TURBO_AGENT_ROUTER_TEXT : Z := 1.
(* src/agent/include/turbo_agent_router.h 45-45 TURBO_AGENT_ROUTER_TOOL_PROPOSALS *)
Definition TURBO_AGENT_ROUTER_TOOL_PROPOSALS : Z := 4.

(** ** Identifiers *)

Definition id_char (c : Ascii.ascii) : bool :=
  let n := Z.of_nat (Ascii.nat_of_ascii c) in
  ((97 <=? n) && (n <=? 122)) || ((65 <=? n) && (n <=? 90)) || ((48 <=? n) && (n <=? 57)) ||
  (n =? 45) || (n =? 95).

(* src/agent/src/turbo_agent_router.c 14-23 turbo_agent_router_id_valid_internal *)
Definition turbo_agent_router_id_valid_internal (text : option string) : bool :=
  match text with
  | Some t =>
      let n := Z.of_nat (String.length t) in
      negb (n =? 0) && (n <=? 64) && forallb id_char (String.list_ascii_of_string t)
  | None => false
  end.

(** ** Authority *)

(** Of an agent: what routing reads.  [before_tool] has a guardrail's presence of a
    callback. *)
(* src/agent/src/turbo_agent_core_internal.h 60-64 turbo_agent_s *)
Record turbo_agent : Type := mk_agent {
  model : string;
  provider_name : string;
  tool_policy : AgentPolicy.turbo_agent_policy;
  tool_policy_generation : Z;
  tool_registry : nat;
  tool_registry_count : Z;
  before_tool : list bool
}.

(* src/agent/src/turbo_agent_lifecycle.c 192-209 turbo_agent_set_tool_policy *)
Definition turbo_agent_set_tool_policy (policy : option AgentPolicy.turbo_agent_policy) (a : turbo_agent) (o : oracle)
  : salts_status * turbo_agent * oracle :=
  let replacement := match policy with Some p => p | None => AgentPolicy.turbo_agent_policy_default end in
  let (copied, o) := match AgentPolicy.workspace_root replacement with Some _ => alloc o | None => (true, o) end in
  if copied then
    (SALTS_OK, mk_agent (model a) (provider_name a) replacement (u64 (tool_policy_generation a + 1))
                 (tool_registry a) (tool_registry_count a) (before_tool a), o)
  else (MINUS_ONE, a, o).

(* src/agent/include/turbo_agent_policy.h 48-48 TURBO_AGENT_TOOL_AUTHORITY_CAPABILITY_BIT *)
Definition capability_bit (c : AgentPolicy.turbo_agent_policy_capability) : Z :=
  Z.shiftl 1 (match c with
              | AgentPolicy.TURBO_AGENT_POLICY_CAPABILITY_CUSTOM_TOOLS => 0
              | AgentPolicy.TURBO_AGENT_POLICY_CAPABILITY_RUNTIME_TOOLS => 1
              | AgentPolicy.TURBO_AGENT_POLICY_CAPABILITY_DELEGATE => 2
              | AgentPolicy.TURBO_AGENT_POLICY_CAPABILITY_NETWORK => 3
              | AgentPolicy.TURBO_AGENT_POLICY_CAPABILITY_SHELL => 4
              | AgentPolicy.TURBO_AGENT_POLICY_CAPABILITY_PATCH => 5
              | AgentPolicy.TURBO_AGENT_POLICY_CAPABILITY_OUTSIDE_WORKSPACE => 6
              end).

(** The size and version of the structure are those of the library. *)
(* src/agent/include/turbo_agent_policy.h 50-56 turbo_agent_tool_authority_snapshot_t *)
Record turbo_agent_tool_authority_snapshot : Type := mk_snapshot {
  generation : Z;
  capability_mask : Z
}.

(* src/agent/src/turbo_agent_lifecycle.c 211-236 turbo_agent_tool_authority_snapshot_get *)
Definition policy_mask (policy : AgentPolicy.turbo_agent_policy) : Z :=
  foldl (fun mask c => if (AgentPolicy.capability_flag policy c).1 then Z.lor mask (capability_bit c) else mask)
    0 AgentPolicy.all_capabilities.

(* src/agent/src/turbo_agent_lifecycle.c 211-236 turbo_agent_tool_authority_snapshot_get *)
Definition turbo_agent_tool_authority_snapshot_get (a : turbo_agent) : turbo_agent_tool_authority_snapshot :=
  mk_snapshot (tool_policy_generation a) (policy_mask (tool_policy a)).

(** A generation of 0 is no snapshot. *)
(* src/agent/src/turbo_agent_lifecycle.c 238-245 turbo_agent_tool_authority_snapshot_is_current *)
Definition turbo_agent_tool_authority_snapshot_is_current (a : turbo_agent)
    (s : turbo_agent_tool_authority_snapshot) : bool :=
  negb (generation s =? 0) && (tool_policy_generation a =? generation s).

(** ** Endpoints *)

(* src/agent/include/turbo_agent_router.h 48-60 turbo_agent_router_endpoint_t *)
Record turbo_agent_router_endpoint : Type := mk_endpoint {
  endpoint_id : option string;
  agent : nat;
  runtime : nat;
  roles : Z;
  capabilities : Z;
  max_difficulty : Z;
  max_input_tokens : Z;
  max_output_tokens : Z;
  input_price_micros : Z;
  output_price_micros : Z
}.

(** Its identifier is the router's copy of the configured one. *)
(* src/agent/src/turbo_agent_router_internal.h 7-11 router_endpoint_t *)
Record router_endpoint : Type := mk_router_endpoint {
  endpoint_config : turbo_agent_router_endpoint;
  busy : bool
}.

(** The tool lane is not part of the model. *)
(* src/agent/src/turbo_agent_router_internal.h 13-21 turbo_agent_router_s *)
Record turbo_agent_router : Type := mk_router {
  authority_agent : nat;
  tool_task_limit : Z;
  tool_task_count : Z;
  endpoints : list router_endpoint
}.

(* src/agent/src/turbo_agent_router.c 62-71 turbo_agent_router_create *)
Definition endpoint_valid (authority : nat) (e : turbo_agent_router_endpoint) : bool :=
  turbo_agent_router_id_valid_internal (endpoint_id e) && negb (Nat.eqb (agent e) 0) &&
  negb (Nat.eqb (runtime e) 0) && negb (Nat.eqb (agent e) authority) &&
  negb (roles e =? 0) && (Z.land (roles e) (Z.lnot 3) =? 0) &&
  negb (capabilities e =? 0) && (Z.land (capabilities e) (Z.lnot 7) =? 0) &&
  (max_difficulty e <=? 100) && negb (max_input_tokens e =? 0) && (max_input_tokens e <=? 1000000) &&
  negb (max_output_tokens e =? 0) && (max_output_tokens e <=? 1000000) &&
  (input_price_micros e <=? 1000000000) && (output_price_micros e <=? 1000000000).

(* src/agent/src/turbo_agent_router.c 72-76 turbo_agent_router_create *)
Definition endpoints_clash (e previous : turbo_agent_router_endpoint) : bool :=
  bool_decide (endpoint_id e = endpoint_id previous) || Nat.eqb (agent e) (agent previous) ||
  Nat.eqb (runtime e) (runtime previous).

(* src/agent/src/turbo_agent_router.c 62-77 turbo_agent_router_create *)
Fixpoint endpoints_valid (authority : nat) (before es : list turbo_agent_router_endpoint) : bool :=
  match es with
  | [] => true
  | e :: es =>
      endpoint_valid authority e && negb (existsb (endpoints_clash e) before) &&
      endpoints_valid authority (before ++ [e]) es
  end.

(** The router, its mutex and condition, whose failures are not looked at, and the
    identifiers. *)
(* src/agent/src/turbo_agent_router.c 52-95 turbo_agent_router_create *)
Definition turbo_agent_router_create (authority : nat) (es : list turbo_agent_router_endpoint) (o : oracle)
  : (turbo_agent_router + salts_status) * oracle :=
  if Nat.eqb authority 0 || bool_decide (es = []) || (TURBO_AGENT_ROUTER_MAX_ENDPOINTS <? Z.of_nat (length es)) ||
     negb (endpoints_valid authority [] es)
  then (inr SALTS_EINVAL, o)
  else
    match (_ ← create tt; _ ← attempt (create tt); _ ← attempt (create tt);
           mem_fold (fun (_ : unit) (_ : turbo_agent_router_endpoint) => create tt) es tt) o with
    | (Some _, o) => (inl (mk_router authority 1 0 (map (fun e => mk_router_endpoint e false) es)), o)
    | (None, o) => (inr SALTS_ENOMEM, o)
    end.

Definition any_busy (r : turbo_agent_router) : bool := existsb busy (endpoints r).

(** Freed when the answer is OK. *)
(* src/agent/src/turbo_agent_router.c 40-50 turbo_agent_router_destroy *)
Definition turbo_agent_router_destroy (r : turbo_agent_router) : salts_status :=
  if any_busy r then SALTS_EBUSY else SALTS_OK.

(* src/agent/src/turbo_agent_router.c 97-104 turbo_agent_router_set_tool_task_limit *)
Definition turbo_agent_router_set_tool_task_limit (limit : Z) (r : turbo_agent_router)
  : salts_status * turbo_agent_router :=
  if (limit =? 0) || (TURBO_AGENT_ROUTER_MAX_ENDPOINTS <? limit) then (SALTS_EINVAL, r)
  else if any_busy r then (SALTS_EBUSY, r)
  else (SALTS_OK, mk_router (authority_agent r) limit (tool_task_count r) (endpoints r)).

(** ** Requests *)

(* src/agent/include/turbo_agent_router.h 36-39 turbo_agent_router_role_t *)
Inductive turbo_agent_router_role : Type := TURBO_AGENT_ROUTER_PLAN | TURBO_AGENT_ROUTER_EXECUTE.

#[global] Instance router_role_eq_dec : EqDecision turbo_agent_router_role.
Proof. solve_decision. Defined.

Definition role_bit (r : turbo_agent_router_role) : Z :=
  match r with TURBO_AGENT_ROUTER_PLAN => 1 | TURBO_AGENT_ROUTER_EXECUTE => 2 end.

(* src/agent/include/turbo_agent_router.h 70-83 turbo_agent_router_request_t *)
Record turbo_agent_router_request : Type := mk_request {
  role : turbo_agent_router_role;
  difficulty : Z;
  required_capabilities : Z;
  input_tokens : Z;
  output_tokens : Z;
  budget_micros : Z;
  timeout_ms : Z;
  heartbeat_timeout_ms : Z;
  thread_id : option string;
  parent_link : option turbo_agent_runtime_parent_link
}.

Definition parent_run (r : turbo_agent_router_request) : option string :=
  match parent_link r with
  | Some l => match parent_agent_run_id l with Some (String a t) => Some (String a t) | _ => None end
  | None => None
  end.

(* src/agent/src/turbo_agent_router.c 341-353 router_submit *)
Definition request_valid (r : turbo_agent_router_request) : bool :=
  (difficulty r <=? 100) && negb (input_tokens r =? 0) && (input_tokens r <=? 1000000) &&
  negb (required_capabilities r =? 0) && (Z.land (required_capabilities r) (Z.lnot 7) =? 0) &&
  negb (output_tokens r =? 0) && (output_tokens r <=? 1000000) &&
  (budget_micros r <=? 9007199254740991) &&
  negb (timeout_ms r =? 0) && (timeout_ms r <=? 86400000) &&
  negb (heartbeat_timeout_ms r =? 0) && (heartbeat_timeout_ms r <=? timeout_ms r) &&
  turbo_agent_router_id_valid_internal (thread_id r) && bool_decide (is_Some (parent_run r)).

(** ** The choice of an endpoint *)

(* src/agent/src/turbo_agent_router.c 279-283 router_estimated_cost *)
Definition router_estimated_cost (e : turbo_agent_router_endpoint) (r : turbo_agent_router_request) : Z :=
  u64 (u64 (u64 (input_tokens r * input_price_micros e) + 999999) / 1000000 +
       u64 (u64 (output_tokens r * output_price_micros e) + 999999) / 1000000).

(* src/agent/src/turbo_agent_router.c 387-387 router_submit *)
Definition endpoint_cost (turns : Z) (r : turbo_agent_router_request) (e : turbo_agent_router_endpoint) : Z :=
  u64 (router_estimated_cost e r * (if turns =? 0 then 1 else turns)).

(** [registry] is the authority's. *)
(* src/agent/src/turbo_agent_router.c 381-386 router_submit *)
Definition qualified (agents : nat -> turbo_agent) (registry : nat) (turns : Z) (r : turbo_agent_router_request)
    (e : turbo_agent_router_endpoint) : bool :=
  negb (Z.land (roles e) (role_bit (role r)) =? 0) && negb (max_difficulty e <? difficulty r) &&
  (Z.land (capabilities e) (required_capabilities r) =? required_capabilities r) &&
  negb (max_input_tokens e <? input_tokens r) && negb (max_output_tokens e <? output_tokens r) &&
  ((turns =? 0) || Nat.eqb (tool_registry (agents (agent e))) registry).

(* src/agent/src/turbo_agent_router.c 391-392 router_submit *)
Definition contained (parent child : turbo_agent_tool_authority_snapshot) : bool :=
  Z.land (capability_mask child) (Z.lnot (capability_mask parent)) =? 0.

(** The endpoint chosen so far with its snapshot and cost; whether one was busy. *)
Definition selection : Type := option (nat * turbo_agent_tool_authority_snapshot * Z) * bool.

Definition best_cost (s : selection) : Z := match s.1 with Some (_, _, cost) => cost | None => UINT64_MAX end.

(* src/agent/src/turbo_agent_router.c 377-398 router_submit *)
Definition consider (agents : nat -> turbo_agent) (registry : nat) (turns : Z) (r : turbo_agent_router_request)
    (parent : turbo_agent_tool_authority_snapshot) (s : selection) (index : nat) (e : router_endpoint) : selection :=
  let config := endpoint_config e in
  let cost := endpoint_cost turns r config in
  if negb (qualified agents registry turns r config) then s
  else if budget_micros r <? cost then s
  else if busy e then (s.1, true)
  else
    let child := turbo_agent_tool_authority_snapshot_get (agents (agent config)) in
    if negb (contained parent child) then s
    else if cost <? best_cost s then (Some (index, child, cost), s.2) else s.

(* src/agent/src/turbo_agent_router.c 377-398 router_submit *)
Fixpoint consider_all (agents : nat -> turbo_agent) (registry : nat) (turns : Z) (r : turbo_agent_router_request)
    (parent : turbo_agent_tool_authority_snapshot) (s : selection) (index : nat) (es : list router_endpoint)
  : selection :=
  match es with
  | [] => s
  | e :: es => consider_all agents registry turns r parent (consider agents registry turns r parent s index e) (S index) es
  end.

(** The index of the endpoint, its agent's snapshot and the cost, or the answer. *)
(* src/agent/src/turbo_agent_router.c 374-399 router_submit *)
Definition choose_endpoint (agents : nat -> turbo_agent) (router : turbo_agent_router) (turns : Z)
    (r : turbo_agent_router_request) : (nat * turbo_agent_tool_authority_snapshot * Z) + salts_status :=
  let authority := agents (authority_agent router) in
  let parent := turbo_agent_tool_authority_snapshot_get authority in
  if Z.land (capability_mask parent) (capability_bit AgentPolicy.TURBO_AGENT_POLICY_CAPABILITY_DELEGATE) =? 0
  then inr SALTS_EPERM
  else
    match consider_all agents (tool_registry authority) turns r parent (None, false) 0 (endpoints router) with
    | (Some chosen, _) => inl chosen
    | (None, true) => inr SALTS_EBUSY
    | (None, false) => inr SALTS_ENOENT
    end.
