(* ===== verification/AgentRouterTask.v ===== *)
(** * Tasks of the router (src/agent/src/turbo_agent_router.c)

    The task an accepted request becomes, the documents about it, and how it is
    built.  A task and an execution are numbers into lists of the state; a released
    task is [None], an execution stays, since releasing it only frees. *)

From S2P Require Import Prelude RuntimeJson JsonBuild JsonMem JsonRecord RuntimeStore AgentExecution AgentRouter.
From S2P Require Graph.

#[local] Open Scope string_scope.
#[local] Open Scope list_scope.
#[local] Open Scope Z_scope.

Section tasks.
Context {W J : Type} `{JsonSetters J}.

(** ** State *)

(** What is settled when a task is admitted. *)
(* src/agent/src/turbo_agent_router_internal.h 23-41 turbo_agent_router_task_s *)
Record task_route : Type := mk_route {
  route_endpoint : nat;
  route_id : string;
  route_config : turbo_agent_router_endpoint;
  parent_authority : turbo_agent_tool_authority_snapshot;
  child_authority : turbo_agent_tool_authority_snapshot;
  route_thread_id : string;
  parent_run_id : string;
  admission_id : option string;
  route_parent_link : turbo_agent_runtime_parent_link;
  started_ms : Z;
  deadline_ms : Z;
  route_request : turbo_agent_router_request;
  estimated_micros : Z;
  max_model_turns : Z
}.

(** Times are in milliseconds of the monotonic clock.  [model_turns] is counted by
    the model node, the tool lane's flag is left out. *)
(* src/agent/src/turbo_agent_router_internal.h 23-41 turbo_agent_router_task_s *)
Record router_task : Type := mk_task {
  route : task_route;
  task_graph : Graph.turbo_graph (W := W) (J := J);
  task_execution : nat;
  identity_execution : option nat;
  review_checkpoint : option string;
  review_run_id : option string;
  model_turns : Z;
  review_resumes : Z;
  pending_review : bool;
  review_cancelled : bool;
  observed_ms : Z;
  heartbeat_ms : Z;
  unresponsive : bool;
  taken : bool;
  task_group : option nat
}.

(* src/agent/src/turbo_agent_router_internal.h 43-49 turbo_agent_router_group_s *)
Record turbo_agent_router_group : Type := mk_group {
  group_id : string;
  group_observed_ms : Z;
  failure_code : salts_status;
  input_built : bool;
  results_taken : bool;
  members : list nat
}.

(** A router with everything that hangs off it. *)
Record router_state : Type := mk_router_state {
  agents : nat -> turbo_agent;
  router : turbo_agent_router;
  tasks : list (option router_task);
  groups : list (option turbo_agent_router_group);
  executions : list (turbo_agent_execution (J := J))
}.

Definition set_agents (f : nat -> turbo_agent) (s : router_state) : router_state :=
  mk_router_state f (router s) (tasks s) (groups s) (executions s).
Definition set_router (r : turbo_agent_router) (s : router_state) : router_state :=
  mk_router_state (agents s) r (tasks s) (groups s) (executions s).
Definition set_tasks (l : list (option router_task)) (s : router_state) : router_state :=
  mk_router_state (agents s) (router s) l (groups s) (executions s).
Definition set_groups (l : list (option turbo_agent_router_group)) (s : router_state) : router_state :=
  mk_router_state (agents s) (router s) (tasks s) l (executions s).
Definition set_executions (l : list turbo_agent_execution) (s : router_state) : router_state :=
  mk_router_state (agents s) (router s) (tasks s) (groups s) l.

Definition task_at (s : router_state) (t : nat) : option router_task := mjoin (tasks s !! t).
Definition group_at (s : router_state) (g : nat) : option turbo_agent_router_group := mjoin (groups s !! g).
Definition update_task (t : nat) (f : router_task -> router_task) (s : router_state) : router_state :=
  set_tasks (alter (fmap f) t (tasks s)) s.
Definition update_group (g : nat) (f : turbo_agent_router_group -> turbo_agent_router_group) (s : router_state)
  : router_state := set_groups (alter (fmap f) g (groups s)) s.
Definition update_execution (e : nat) (f : turbo_agent_execution -> turbo_agent_execution) (s : router_state)
  : router_state := set_executions (alter f e (executions s)) s.

Definition task_observed (now : Z) (t : router_task) : router_task :=
  mk_task (route t) (task_graph t) (task_execution t) (identity_execution t) (review_checkpoint t) (review_run_id t)
    (model_turns t) (review_resumes t) (pending_review t) (review_cancelled t) now (heartbeat_ms t)
    (unresponsive t) (taken t) (task_group t).
Definition task_heartbeat (now : Z) (t : router_task) : router_task :=
  mk_task (route t) (task_graph t) (task_execution t) (identity_execution t) (review_checkpoint t) (review_run_id t)
    (model_turns t) (review_resumes t) (pending_review t) (review_cancelled t) (observed_ms t) now
    (unresponsive t) (taken t) (task_group t).
Definition task_lost (t : router_task) : router_task :=
  mk_task (route t) (task_graph t) (task_execution t) (identity_execution t) (review_checkpoint t) (review_run_id t)
    (model_turns t) (review_resumes t) (pending_review t) (review_cancelled t) (observed_ms t) (heartbeat_ms t)
    true (taken t) (task_group t).
Definition task_taken (t : router_task) : router_task :=
  mk_task (route t) (task_graph t) (task_execution t) (identity_execution t) (review_checkpoint t) (review_run_id t)
    (model_turns t) (review_resumes t) (pending_review t) (review_cancelled t) (observed_ms t) (heartbeat_ms t)
    (unresponsive t) true (task_group t).
Definition task_review_cancelled (b : bool) (t : router_task) : router_task :=
  mk_task (route t) (task_graph t) (task_execution t) (identity_execution t) (review_checkpoint t) (review_run_id t)
    (model_turns t) (review_resumes t) (pending_review t) b (observed_ms t) (heartbeat_ms t)
    (unresponsive t) (taken t) (task_group t).
Definition task_in_group (g : option nat) (t : router_task) : router_task :=
  mk_task (route t) (task_graph t) (task_execution t) (identity_execution t) (review_checkpoint t) (review_run_id t)
    (model_turns t) (review_resumes t) (pending_review t) (review_cancelled t) (observed_ms t) (heartbeat_ms t)
    (unresponsive t) (taken t) g.

(** ** Documents *)

(** A value that is created, and a member that takes it. *)
(* src/agent/src/turbo_agent_router.c 285-291 router_set *)
Definition router_set (key : string) (value : J) : setter J :=
  fun obj o => set_constructed obj (Some key) (Some value) o.

Definition role_text (r : turbo_agent_router_role) : string :=
  match r with TURBO_AGENT_ROUTER_PLAN => "plan" | TURBO_AGENT_ROUTER_EXECUTE => "execute" end.

(* src/agent/src/turbo_agent_router.c 293-323 router_decision *)
Definition router_decision (agent : turbo_agent) (r : task_route) : mem J :=
  let request := route_request r in
  view ← create_object;
  build_record
    ([set_string "endpoint" (Some (route_id r)); set_string "model" (Some (model agent));
      set_string "provider" (Some (provider_name agent)); set_string "role" (Some (role_text (role request)));
      set_string "reason" (Some "lowest_estimated_cost_qualified_idle");
      set_int64 "difficulty" (difficulty request);
      set_int64 "required_model_capabilities" (required_capabilities request);
      set_int64 "input_tokens_estimate" (input_tokens request);
      set_int64 "output_tokens_estimate" (output_tokens request);
      set_int64 "input_price_micros_per_million" (input_price_micros (route_config r));
      set_int64 "output_price_micros_per_million" (output_price_micros (route_config r));
      set_int64 "estimated_cost_micros" (estimated_micros r);
      set_int64 "budget_micros" (budget_micros request);
      router_set "actual_cost_micros" json_create_null] ++
     match admission_id r with Some id => [set_string "admission_id" (Some id)] | None => [] end) view.

(* src/agent/src/turbo_agent_router.c 115-127 router_loop_record *)
Definition router_loop_record (turns max_turns : Z) (reason : string) (state : J) : mem J :=
  record ← (record ← create_object;
            build_record [set_int64 "schema_version" 1; set_int64 "model_turns" turns;
                          set_int64 "max_model_turns" max_turns; set_string "reason" (Some reason)] record);
  put state "router_tool_loop" record.

(** A version appended to the array of versions, which is made when it is missing. *)
(* src/agent/src/turbo_agent_state_version.c 29-50 turbo_agent_state_get_versions_array_local *)
Definition versions_array (state : J) (key : string) : mem (J * J) :=
  if negb (bool_decide (json_type state = JSON_OBJECT)) then mem_fail
  else
    match json_object_get state key with
    | Some versions => if bool_decide (json_type versions = JSON_ARRAY) then mret (state, versions) else mem_fail
    | None => versions ← create_array; state ← put state key versions; mret (state, versions)
    end.

(* src/agent/src/turbo_agent_state_version.c 73-87 turbo_agent_state_append_object_version *)
Definition turbo_agent_state_append_object_version (state : J) (key : string) (value : J) : mem J :=
  found ← versions_array state key;
  versions ← append found.2 value;
  mret (json_object_add found.1 key versions).

(* src/agent/src/turbo_agent_state_version.c 194-211 turbo_agent_state_append_review_version_local *)
Definition turbo_agent_state_append_review_version (state : J) (required approved : bool) (note : string) : mem J :=
  if negb (bool_decide (json_type state = JSON_OBJECT)) then mem_fail
  else
    review ← create_object;
    review ← quiet (raw_bool "required" required) review;
    review ← quiet (raw_bool "approved" approved) review;
    review ← quiet (raw_string "note" note) review;
    turbo_agent_state_append_object_version state "review_versions" review.

(* src/agent/src/turbo_agent_state_flow.c 559-561 turbo_agent_state_clear_review_impl *)
Definition turbo_agent_state_clear_review (state : J) : mem J :=
  turbo_agent_state_append_review_version state false false "".

(** ** Building a task *)

Definition built (r : Graph.turbo_graph (W := W) (J := J) -> oracle -> Graph.build_result (W := W) (J := J))
    (g : Graph.turbo_graph) : mem Graph.turbo_graph := fun o =>
  match r g o with
  | (Graph.TURBO_GRAPH_EXEC_OK, g, o) => (Some g, o)
  | (_, _, o) => (None, o)
  end.

(** The nodes call the agents' models and tools. *)
Context (router_model_node router_tools_node : Graph.node_fn (W := W) (J := J)).

(** The task's graph and its first state; whatever fails is a lack of memory. *)
(* src/agent/src/turbo_agent_router.c 402-438 router_submit *)
Definition build_task (agent : turbo_agent) (r : task_route) (input : J) : mem (Graph.turbo_graph * J) :=
  _ ← create tt;
  thread ← attempt (create tt);
  parent ← attempt (create tt);
  admission ← match admission_id r with Some _ => attempt (create tt) | None => mret (Some tt) end;
  graph ← attempt (Graph.turbo_graph_create (Some "tiered-model-call"));
  state ← attempt (create (json_clone input));
  decision ← attempt (router_decision agent r);
  _ ← need thread; _ ← need parent; _ ← need admission;
  graph ← need graph; state ← need state; decision ← need decision;
  state ← put state "model_route" decision;
  graph ← built (fun g => Graph.turbo_graph_add_node g (Some "model") (Some router_model_node)) graph;
  graph ← built (fun g => Graph.turbo_graph_set_entry g (Some "model")) graph;
  if max_model_turns r =? 0 then mret (graph, state)
  else
    state ← turbo_agent_state_clear_review state;
    state ← router_loop_record 0 (max_model_turns r) "admitted" state;
    graph ← built (fun g => Graph.turbo_graph_add_node g (Some "tools") (Some router_tools_node)) graph;
    mret (graph, state).

(** ** The end of a segment *)

(* src/agent/src/turbo_agent_state_version.c 7-22 turbo_agent_state_current_object_version_local *)
Definition current_object_version (state : option J) (key : string) : option J :=
  s ← state;
  if negb (bool_decide (json_type s = JSON_OBJECT)) then None
  else
    versions ← json_object_get s key;
    if bool_decide (json_type versions = JSON_ARRAY) then last (json_array_items versions) else None.

(* src/agent/src/turbo_agent_state_version.c 150-158 turbo_agent_state_current_version_bool_field_local *)
Definition current_version_bool (state : option J) (version_key field_key : string) : bool :=
  match current_object_version state version_key with
  | Some v => match json_object_get v field_key with
              | Some b => bool_decide (json_type b = JSON_BOOL) && json_bool b
              | None => false
              end
  | None => false
  end.

(** The review a segment stopped for: its checkpoint and run. *)
(* src/agent/src/turbo_agent_router.c 245-275 router_loop_complete *)
Definition router_loop_complete (summary state : option J) (t : router_task)
  : mem (salts_status * router_task) := fun o =>
  let pending :=
    bool_decide (member_string summary "status" = Some "interrupted") &&
    bool_decide (member_string (member state "router_tool_loop") "reason" = Some "approval_pending") &&
    match member_string summary "checkpoint_id" with Some (String _ _) => true | _ => false end &&
    current_version_bool state "review_versions" "required" in
  let settle checkpoint run := mk_task (route t) (task_graph t) (task_execution t) (identity_execution t)
      checkpoint run (model_turns t) (review_resumes t) pending (review_cancelled t) (observed_ms t)
      (heartbeat_ms t) (unresponsive t) (taken t) (task_group t) in
  if negb pending then (Some (SALTS_OK, settle None None), o)
  else
    match member summary "run_id", member_string summary "run_id" with
    | Some v, Some (String a run) =>
        if negb (bool_decide (String.length (json_string v) = String.length (String a run)))
           || (128 <? Z.of_nat (String.length (String a run))) then (Some (SALTS_EPROTO, t), o)
        else
          let (a1, o) := alloc o in
          let (a2, o) := alloc o in
          if a1 && a2
          then (Some (SALTS_OK, settle (member_string summary "checkpoint_id") (Some (String a run))), o)
          else (Some (SALTS_ENOMEM, t), o)
    | _, _ => (Some (SALTS_EPROTO, t), o)
    end.

End tasks.
