(* ===== verification/AgentRouterIntent.v ===== *)
(** * Admission intents (src/agent/src/turbo_agent_router_admission.c)

    The record a host may have written before a task, or the resumption of a reviewed
    one, is admitted, and the validator both the writer and the loader run. *)

From S2P Require Import Prelude RuntimeJson JsonBuild JsonMem JsonRecord RuntimeStore AgentExecution AgentRouter AgentRouterTask.

#[local] Open Scope string_scope.
#[local] Open Scope list_scope.
#[local] Open Scope Z_scope.

Definition ADMISSION_MAX_INTEGER : Z := 9007199254740991.
(* src/agent/include/turbo_agent_router.h 21-21 TURBO_AGENT_ROUTER_ADMISSION_MAX_BYTES *)
Definition TURBO_AGENT_ROUTER_ADMISSION_MAX_BYTES : Z := 16384.
(* src/agent/include/turbo_agent_router.h 20-20 TURBO_AGENT_ROUTER_ADMISSION_COLLECTION *)
Definition ADMISSION_COLLECTION : string := "router_admission_intents".
(* src/agent/include/turbo_agent_router.h 22-22 TURBO_AGENT_ROUTER_REVIEW_INTENT_COLLECTION *)
Definition REVIEW_INTENT_COLLECTION : string := "router_review_intents".

(** The first check that fails. *)
Fixpoint checks (l : list salts_status) : salts_status :=
  match l with
  | [] => SALTS_OK
  | SALTS_OK :: l => checks l
  | st :: _ => st
  end.

Definition holds_or_eproto (b : bool) : salts_status := if b then SALTS_OK else SALTS_EPROTO.

Section intents.
Context {J : Type} `{JsonSetters J, !JsonMembers J}.

(** ** The validator *)

(* src/agent/src/turbo_agent_router_admission.c 21-28 admission_text *)
Definition admission_text (record : J) (key : string) (limit : Z) (nullable : bool) : salts_status :=
  match json_object_get record key with
  | None => SALTS_EPROTO
  | Some v =>
      if nullable && bool_decide (json_type v = JSON_NULL) then SALTS_OK
      else if negb (bool_decide (json_type v = JSON_STRING)) || bool_decide (json_c_text v = "")
              || negb (bool_decide (String.length (json_c_text v) = String.length (json_string v))) then SALTS_EPROTO
      else if limit <? Z.of_nat (String.length (json_string v)) then SALTS_ENOBUFS else SALTS_OK
  end.

(* src/agent/src/turbo_agent_router_admission.c 30-32 admission_integer *)
Definition admission_integer (record : J) (key : string) : Z :=
  turbo_runtime_json_value_as_int64 (json_object_get record key) INT64_MIN.

Definition text_is (record : J) (key text : string) : bool := bool_decide (member_string (Some record) key = Some text).

(** The members one by one: known, and none twice. *)
(* src/agent/src/turbo_agent_router_admission.c 57-66 admission_validate *)
Fixpoint known_keys (fields seen keys : list string) : bool :=
  match keys with
  | [] => true
  | k :: keys =>
      bool_decide (k ∈ fields) && negb (bool_decide (k ∈ seen)) && known_keys fields (k :: seen) keys
  end.

(* src/agent/src/turbo_agent_router_admission.c 55-66 admission_validate *)
Definition exact_fields (fields : list string) (record : J) : bool :=
  bool_decide (json_type record = JSON_OBJECT) &&
  (json_object_size record =? Z.of_nat (length fields)) && known_keys fields [] (json_members record).*1.

(** Identifiers: their length, then their characters. *)
Definition id_checks (record : J) (key : string) : list salts_status :=
  [admission_text record key 64 false;
   holds_or_eproto (turbo_agent_router_id_valid_internal (member_string (Some record) key))].

Definition in_range (record : J) (key : string) : salts_status :=
  let n := admission_integer record key in holds_or_eproto ((0 <=? n) && (n <=? ADMISSION_MAX_INTEGER)).

Definition admission_fields : list string :=
  ["schema_version"; "admission_id"; "semantics"; "clock_domain"; "recorded_at";
   "task_id"; "endpoint"; "model"; "provider"; "role"; "thread_id"; "parent_run_id";
   "parent_tool_call_id"; "parent_tool_name"; "parent_graph_run_id"; "call_frame_id";
   "difficulty"; "required_model_capabilities"; "input_tokens_estimate"; "output_tokens_estimate";
   "input_price_micros_per_million"; "output_price_micros_per_million";
   "estimated_cost_micros"; "budget_micros"; "max_model_turns"; "heartbeat_timeout_ms";
   "started_mono_ms"; "deadline_mono_ms"].

Definition admission_numbers : list string :=
  ["difficulty"; "required_model_capabilities"; "input_tokens_estimate"; "output_tokens_estimate";
   "input_price_micros_per_million"; "output_price_micros_per_million"; "estimated_cost_micros"; "budget_micros";
   "max_model_turns"; "heartbeat_timeout_ms"; "started_mono_ms"; "deadline_mono_ms"].

(* src/agent/src/turbo_agent_router_admission.c 108-112 admission_validate *)
Definition expected_cost (input_tokens input_price output_tokens output_price turns : Z) : Z :=
  u64 (u64 (u64 (u64 (input_tokens * input_price) + 999999) / 1000000 +
            u64 (u64 (output_tokens * output_price) + 999999) / 1000000) *
       (if turns =? 0 then 1 else turns)).

(** Bounds and relations of the numbers, all in range. *)
(* src/agent/src/turbo_agent_router_admission.c 88-114 admission_validate *)
Definition admission_numbers_valid (record : J) : bool :=
  let n := admission_integer record in
  let turns := n "max_model_turns" in
  let started := n "started_mono_ms" in
  let deadline := n "deadline_mono_ms" in
  let heartbeat := n "heartbeat_timeout_ms" in
  let wanted := n "required_model_capabilities" in
  negb (negb (turns =? 0) && ((turns <? 2) || (TURBO_AGENT_ROUTER_MAX_MODEL_TURNS <? turns))) &&
  negb (wanted =? 0) && (Z.land wanted (Z.lnot 7) =? 0) &&
  negb (negb (turns =? 0) && (negb (text_is record "role" "execute") ||
                              (Z.land wanted TURBO_AGENT_ROUTER_TOOL_PROPOSALS =? 0))) &&
  (n "difficulty" <=? 100) && (started <? deadline) && (deadline - started <=? 86400000) &&
  (0 <? heartbeat) && (heartbeat <=? deadline - started) &&
  (1 <=? n "input_tokens_estimate") && (n "input_tokens_estimate" <=? 1000000) &&
  (1 <=? n "output_tokens_estimate") && (n "output_tokens_estimate" <=? 1000000) &&
  (n "input_price_micros_per_million" <=? 1000000000) && (n "output_price_micros_per_million" <=? 1000000000) &&
  (expected_cost (n "input_tokens_estimate") (n "input_price_micros_per_million")
     (n "output_tokens_estimate") (n "output_price_micros_per_million") turns =? n "estimated_cost_micros") &&
  (n "estimated_cost_micros" <=? n "budget_micros").

(* src/agent/src/turbo_agent_router_admission.c 34-115 admission_validate *)
Definition admission_validate (record : J) (id : string) : salts_status :=
  checks
    ([holds_or_eproto (exact_fields admission_fields record)] ++
     concat (map (id_checks record) ["admission_id"; "task_id"; "endpoint"; "thread_id"]) ++
     map (fun key => admission_text record key 128 true) ["parent_tool_call_id"; "parent_graph_run_id"; "call_frame_id"] ++
     [admission_text record "parent_run_id" 128 false; admission_text record "parent_tool_name" 1024 true;
      admission_text record "model" 1024 false; admission_text record "provider" 1024 false;
      admission_text record "recorded_at" 31 false; admission_text record "semantics" 64 false;
      admission_text record "clock_domain" 64 false; admission_text record "role" 16 false;
      holds_or_eproto
        ((admission_integer record "schema_version" =? 1) && text_is record "admission_id" id &&
         text_is record "semantics" "pre_dispatch_intent" &&
         text_is record "clock_domain" "origin_process_monotonic" &&
         (text_is record "role" "plan" || text_is record "role" "execute"))] ++
     map (in_range record) admission_numbers ++
     [holds_or_eproto (admission_numbers_valid record)]).

(** ** Writing and loading *)

Context {W : Type} (host_timestamp : W -> oracle -> option string * W * oracle).
(** The stores of the runtimes, by their numbers. *)
Context (store_of : nat -> turbo_agent_runtime (W := W)).

Definition io_status (st : salts_status) : io W unit :=
  match st with SALTS_OK => mret tt | st => io_fail st end.

(* src/agent/src/turbo_agent_router_admission.c 117-124 admission_size *)
Definition admission_size (record : J) (limit : Z) : io W unit :=
  text ← io_mem SALTS_ENOMEM (create (json_serialize record));
  if limit <? Z.of_nat (String.length text) then io_fail SALTS_ENOBUFS else mret tt.

(* src/agent/src/turbo_agent_router_admission.c 11-19 admission_nullable *)
Definition admission_nullable (key : string) (text : option string) : setter J :=
  router_set key (match text with Some t => json_create_string t | None => json_create_null end).

Definition admission_setters (agent : turbo_agent) (r : task_route) (id execution_id timestamp : string)
  : list (setter J) :=
  let request := route_request r in
  let parent := route_parent_link r in
  [set_int64 "schema_version" 1; set_string "admission_id" (Some id);
   set_string "semantics" (Some "pre_dispatch_intent");
   set_string "clock_domain" (Some "origin_process_monotonic"); set_string "recorded_at" (Some timestamp);
   set_string "task_id" (Some execution_id); set_string "endpoint" (Some (route_id r));
   set_string "model" (Some (model agent)); set_string "provider" (Some (provider_name agent));
   set_string "role" (Some (role_text (role request))); set_string "thread_id" (Some (route_thread_id r));
   set_string "parent_run_id" (Some (parent_run_id r));
   admission_nullable "parent_tool_call_id" (parent_tool_call_id parent);
   admission_nullable "parent_tool_name" (parent_tool_name parent);
   admission_nullable "parent_graph_run_id" (parent_graph_run_id parent);
   admission_nullable "call_frame_id" (call_frame_id parent);
   set_int64 "difficulty" (difficulty request);
   set_int64 "required_model_capabilities" (required_capabilities request);
   set_int64 "input_tokens_estimate" (input_tokens request);
   set_int64 "output_tokens_estimate" (output_tokens request);
   set_int64 "input_price_micros_per_million" (input_price_micros (route_config r));
   set_int64 "output_price_micros_per_million" (output_price_micros (route_config r));
   set_int64 "estimated_cost_micros" (estimated_micros r); set_int64 "budget_micros" (budget_micros request);
   set_int64 "max_model_turns" (max_model_turns r);
   set_int64 "heartbeat_timeout_ms" (heartbeat_timeout_ms request);
   set_int64 "started_mono_ms" (started_ms r); set_int64 "deadline_mono_ms" (deadline_ms r)].

(** The identifier of the intent is the task's. *)
(* src/agent/src/turbo_agent_router_admission.c 126-174 turbo_agent_router_admission_write_internal *)
Definition turbo_agent_router_admission_write_internal (agent : turbo_agent) (r : task_route) (host_runtime : nat)
    (id execution_id : string) : io W unit :=
  if (ADMISSION_MAX_INTEGER <? started_ms r) || (ADMISSION_MAX_INTEGER <? deadline_ms r) then io_fail SALTS_ENOBUFS
  else
    timestamp ← (fun w o => match host_timestamp w o with
                            | (Some t, w, o) => (inl t, w, o)
                            | (None, w, o) => (inr SALTS_EIO, w, o) end);
    record ← io_mem SALTS_ENOMEM (create_object ≫= build_record (admission_setters agent r id execution_id timestamp));
    _ ← io_status (admission_validate record id);
    _ ← admission_size record TURBO_AGENT_ROUTER_ADMISSION_MAX_BYTES;
    turbo_agent_runtime_store_create_json_if_absent (Some (store_of host_runtime)) (Some ADMISSION_COLLECTION)
      (Some id) (Some record).

(* src/agent/src/turbo_agent_router_admission.c 176-190 turbo_agent_router_load_intent *)
Definition turbo_agent_router_load_intent (host_runtime : nat) (admission_id : option string) : io W J :=
  if Nat.eqb host_runtime 0 || negb (turbo_agent_router_id_valid_internal admission_id) then io_fail SALTS_EINVAL
  else
    record ← turbo_agent_runtime_store_get_json_status (Some (store_of host_runtime)) (Some ADMISSION_COLLECTION)
               admission_id;
    _ ← io_status (admission_validate record (default "" admission_id));
    _ ← admission_size record TURBO_AGENT_ROUTER_ADMISSION_MAX_BYTES;
    mret record.

End intents.
