(* ===== verification/AgentRouterOps.v ===== *)
(** * Operations of the router (src/agent/src/turbo_agent_router.c, turbo_agent_router_group.c)

    Submission, supervision and delivery of tasks and groups of tasks.  An operation
    changes the router's state and the host's world (clock, pool, stores), and
    answers a value or a status; what it changed before it failed stays changed.

    The host serializes control operations, so each is one step; a pool worker's
    steps may come between any two. *)

From S2P Require Import Prelude RuntimeJson JsonBuild JsonMem JsonRecord RuntimeStore AgentExecution AgentRouter AgentRouterTask AgentRouterIntent.
From S2P Require Graph RuntimeControl.

#[local] Open Scope string_scope.
#[local] Open Scope list_scope.
#[local] Open Scope Z_scope.

Section ops.
Context {W J : Type} `{JsonSetters J, !JsonMembers J}.

#[local] Abbreviation state := (router_state (W := W) (J := J)).
#[local] Abbreviation task := (router_task (W := W) (J := J)).
#[local] Abbreviation group := turbo_agent_router_group.
#[local] Abbreviation executed := (turbo_agent_execution (J := J)).

(** ** Operations on the state *)

Definition op (A : Type) : Type := state -> W -> oracle -> (A + salts_status) * state * W * oracle.

#[global] Instance op_ret : MRet op := fun A x s w o => (inl x, s, w, o).
#[global] Instance op_bind : MBind op := fun A B k m s w o =>
  match m s w o with
  | (inl x, s, w, o) => k x s w o
  | (inr st, s, w, o) => (inr st, s, w, o)
  end.

Definition op_fail {A} (st : salts_status) : op A := fun s w o => (inr st, s, w, o).
Definition op_get : op state := fun s w o => (inl s, s, w, o).
Definition op_modify (f : state -> state) : op unit := fun s w o => (inl tt, f s, w, o).
Definition op_io {A} (m : io W A) : op A := fun s w o =>
  match m w o with (r, w, o) => (r, s, w, o) end.
Definition op_try {A} (m : op A) : op (A + salts_status) := fun s w o =>
  match m s w o with (r, s, w, o) => (inl r, s, w, o) end.
Definition op_status (st : salts_status) : op unit :=
  match st with SALTS_OK => mret tt | st => op_fail st end.

(** The clock, the identifiers, the pool and the time stamps of the host. *)
Context (cmeta_monotonic_ms : W -> Z).
Context (cmeta_uuid : io W string) (pool_submit : io W unit).
Context (host_timestamp : W -> oracle -> option string * W * oracle).
Context (store_of : nat -> turbo_agent_runtime (W := W)).
Context (router_model_node router_tools_node : Graph.node_fn (W := W) (J := J)).

Definition op_now : op Z := fun s w o => (inl (cmeta_monotonic_ms w), s, w, o).

(** A handle of a task; one that is not live is not given. *)
Definition get_task (t : nat) : op task := fun s w o =>
  match task_at s t with Some x => (inl x, s, w, o) | None => (inr SALTS_EINVAL, s, w, o) end.

Definition execution_of (s : state) (t : task) : option executed := executions s !! task_execution t.

Definition task_terminal (s : state) (t : task) : bool :=
  match execution_of s t with Some e => terminal e | None => true end.

(* src/agent/src/turbo_agent_router.c 106-111 turbo_agent_router_authority_current_internal *)
Definition turbo_agent_router_authority_current_internal (s : state) (t : task) : bool :=
  turbo_agent_tool_authority_snapshot_is_current (agents s (authority_agent (router s))) (parent_authority (route t)) &&
  turbo_agent_tool_authority_snapshot_is_current (agents s (agent (route_config (route t)))) (child_authority (route t)).

(** ** Submission *)

Definition set_busy (index : nat) (b : bool) (r : turbo_agent_router) : turbo_agent_router :=
  mk_router (authority_agent r) (tool_task_limit r) (tool_task_count r)
    (alter (fun e => mk_router_endpoint (endpoint_config e) b) index (endpoints r)).
Definition count_tool_task (n : Z) (r : turbo_agent_router) : turbo_agent_router :=
  mk_router (authority_agent r) (tool_task_limit r) (tool_task_count r + n) (endpoints r).

(** The endpoint's slot, and the router's when the task may run tools. *)
(* src/agent/src/turbo_agent_router.c 455-456 router_submit *)
Definition occupy (index : nat) (turns : Z) (r : turbo_agent_router) : turbo_agent_router :=
  let r := set_busy index true r in if turns =? 0 then r else count_tool_task 1 r.
(* src/agent/src/turbo_agent_router.c 460-461 router_submit *)
Definition vacate (index : nat) (turns : Z) (r : turbo_agent_router) : turbo_agent_router :=
  let r := set_busy index false r in if turns =? 0 then r else count_tool_task (-1) r.

(** A host that records intents has a runtime of its own. *)
(* src/agent/src/turbo_agent_router.c 354-358 router_submit *)
Definition host_valid (r : turbo_agent_router) (host : option (nat * option string)) : bool :=
  match host with
  | None => true
  | Some (host_runtime, id) =>
      negb (Nat.eqb host_runtime 0) && turbo_agent_router_id_valid_internal id &&
      negb (existsb (fun e => Nat.eqb host_runtime (runtime (endpoint_config e))) (endpoints r))
  end.

(* src/agent/src/turbo_agent_router.c 359-373 router_submit *)
Definition tool_loop_admitted (s : state) (turns : Z) (request : turbo_agent_router_request) : salts_status :=
  let r := router s in
  if (tool_task_limit r =? 1) && negb (tool_task_count r =? 0) then SALTS_EBUSY
  else if turns =? 0 then SALTS_OK
  else if (turns <? 2) || (TURBO_AGENT_ROUTER_MAX_MODEL_TURNS <? turns) ||
          negb (bool_decide (role request = TURBO_AGENT_ROUTER_EXECUTE)) ||
          (Z.land (required_capabilities request) TURBO_AGENT_ROUTER_TOOL_PROPOSALS =? 0) then SALTS_EINVAL
  else if tool_task_limit r <=? tool_task_count r then SALTS_EBUSY
  else if (tool_task_limit r =? 1) && any_busy r then SALTS_EBUSY
  else
    let authority := agents s (authority_agent r) in
    if negb (existsb id (before_tool authority)) || Nat.eqb (tool_registry authority) 0 ||
       (tool_registry_count authority =? 0) then SALTS_EPERM else SALTS_OK.

Definition no_parent_link : turbo_agent_runtime_parent_link := mk_parent_link None None None None None.

(* src/agent/src/turbo_agent_router.c 402-420 router_submit *)
Definition new_route (r : turbo_agent_router) (request : turbo_agent_router_request) (index : nat)
    (parent child : turbo_agent_tool_authority_snapshot) (cost now turns : Z) (id : option string) : option task_route :=
  match endpoints r !! index with
  | None => None
  | Some e =>
      Some (mk_route index (default "" (endpoint_id (endpoint_config e))) (endpoint_config e) parent child
              (default "" (thread_id request)) (default "" (parent_run request)) id
              (default no_parent_link (parent_link request)) now (now + timeout_ms request) request cost turns)
  end.

Definition new_task (r : task_route) (g : Graph.turbo_graph (W := W) (J := J)) (execution : nat) : task :=
  mk_task r g execution None None None 0 0 false false (started_ms r) (started_ms r) false false None.

(** The gate of an admission: the intent, when the host wants one. *)
Definition admission_gate (a : turbo_agent) (r : task_route) (host : option (nat * option string))
  : option (string -> io W unit) :=
  match host with
  | Some (host_runtime, Some id) =>
      Some (fun execution_id => turbo_agent_router_admission_write_internal host_timestamp store_of a r host_runtime
                                  id execution_id)
  | _ => None
  end.

(** The endpoint is taken before the execution is started, and given back when that
    is refused. *)
(* src/agent/src/turbo_agent_router.c 440-466 router_submit *)
Definition start_task (a : turbo_agent) (r : task_route) (host : option (nat * option string))
    (g : Graph.turbo_graph (W := W) (J := J)) (input : J) : op nat :=
  let turns := max_model_turns r in
  _ ← op_modify (fun s => set_router (occupy (route_endpoint r) turns (router s)) s);
  started ← op_try (op_io (turbo_agent_execution_submit cmeta_uuid pool_submit TURBO_AGENT_EXECUTION_START (Some input)
      (mk_submission None [] None (Some (route_thread_id r)) (Some (route_parent_link r)) (deadline_ms r))
      (admission_gate a r host)));
  match started with
  | inr st =>
      _ ← op_modify (fun s => set_router (vacate (route_endpoint r) turns (router s)) s);
      op_fail st
  | inl e =>
      s ← op_get;
      _ ← op_modify (fun s => set_executions (executions s ++ [e])
                               (set_tasks (tasks s ++ [Some (new_task r g (length (executions s)))]) s));
      mret (length (tasks s))
  end.

(* src/agent/src/turbo_agent_router.c 325-475 router_submit *)
Definition router_submit (request : turbo_agent_router_request) (input : option J) (turns : Z)
    (host : option (nat * option string)) : op nat :=
  match input with
  | None => op_fail SALTS_EINVAL
  | Some input =>
      s ← op_get;
      if negb (request_valid request) || negb (bool_decide (json_type input = JSON_OBJECT)) ||
         negb (host_valid (router s) host) then op_fail SALTS_EINVAL
      else
        _ ← op_status (tool_loop_admitted s turns request);
        match choose_endpoint (agents s) (router s) turns request with
        | inr st => op_fail st
        | inl (index, child, cost) =>
            now ← op_now;
            if UINT64_MAX - now <? timeout_ms request then op_fail SALTS_ERANGE
            else
              let parent := turbo_agent_tool_authority_snapshot_get (agents s (authority_agent (router s))) in
              match new_route (router s) request index parent child cost now turns
                      (match host with Some (_, id) => id | None => None end) with
              | None => op_fail SALTS_EINVAL
              | Some r =>
                  let a := agents s (agent (route_config r)) in
                  prepared ← op_io (io_mem SALTS_ENOMEM (build_task router_model_node router_tools_node a r input));
                  start_task a r host prepared.1 prepared.2
              end
        end
  end.

(* src/agent/src/turbo_agent_router.c 477-481 turbo_agent_router_submit *)
Definition turbo_agent_router_submit (request : turbo_agent_router_request) (input : option J) : op nat :=
  router_submit request input 0 None.

(* src/agent/src/turbo_agent_router.c 483-491 turbo_agent_router_submit_tool_loop *)
Definition turbo_agent_router_submit_tool_loop (request : turbo_agent_router_request) (input : option J) (turns : Z)
  : op nat := if turns =? 0 then op_fail SALTS_EINVAL else router_submit request input turns None.

(* src/agent/src/turbo_agent_router.c 493-503 turbo_agent_router_submit_with_intent *)
Definition turbo_agent_router_submit_with_intent (host_runtime : nat) (id : option string)
    (request : turbo_agent_router_request) (input : option J) (turns : Z) : op nat :=
  if Nat.eqb host_runtime 0 || negb (bool_decide (is_Some id)) then op_fail SALTS_EINVAL
  else router_submit request input turns (Some (host_runtime, id)).

(** ** Executions of tasks *)

(** The worker runs a task's execution, and publishes what the runtime answered; a
    tool loop first keeps the review it stopped for. *)
(* src/agent/src/turbo_agent_execution.c 252-295 turbo_agent_execution_worker *)
Definition worker_starts (e : nat) (s : state) : state := update_execution e worker_run s.

(* src/agent/src/turbo_agent_execution.c 276-295 turbo_agent_execution_worker *)
Definition worker_ends (t : nat) (rc : salts_status) (summary final : option J) : op unit :=
  x ← get_task t;
  if bool_decide (rc = SALTS_OK) && negb (max_model_turns (route x) =? 0) then
    done ← op_io (io_mem SALTS_ENOMEM (router_loop_complete summary final x));
    _ ← op_modify (update_task t (fun _ => done.2));
    op_modify (update_execution (task_execution x) (worker_finish done.1 summary final))
  else op_modify (update_execution (task_execution x) (worker_finish rc summary final)).

Definition cancel_execution (reason : Z) (e : nat) : op salts_status := fun s w o =>
  match executions s !! e with
  | Some x => let (st, x) := turbo_agent_execution_cancel reason (cmeta_monotonic_ms w) x in
              (inl st, update_execution e (fun _ => x) s, w, o)
  | None => (inl SALTS_EINVAL, s, w, o)
  end.

Definition take_execution (e : nat) : op (option J * option J) := fun s w o =>
  match executions s !! e with
  | Some x => let (r, x) := turbo_agent_execution_take_result x in (r, update_execution e (fun _ => x) s, w, o)
  | None => (inr SALTS_EINVAL, s, w, o)
  end.

(** ** Supervision of a task *)

(* src/agent/src/turbo_agent_router.c 616-626 turbo_agent_router_task_poll_internal *)
Definition turbo_agent_router_task_poll_internal (t : nat) (now_ms : Z) : op unit :=
  x ← get_task t;
  if (now_ms <? observed_ms x) || (9007199254740991 <? now_ms) then op_fail SALTS_EINVAL
  else
    _ ← op_modify (update_task t (task_observed now_ms));
    s ← op_get;
    if unresponsive x then op_fail SALTS_ECANCELED
    else if task_terminal s x then mret tt
    else if now_ms - heartbeat_ms x <? heartbeat_timeout_ms (route_request (route x)) then mret tt
    else
      _ ← op_modify (update_task t task_lost);
      st ← cancel_execution Control.TURBO_CANCEL_PARENT (task_execution x);
      op_fail (match st with SALTS_OK | SALTS_EALREADY => SALTS_ECANCELED | st => st end).

(* src/agent/src/turbo_agent_router.c 628-631 turbo_agent_router_task_poll *)
Definition turbo_agent_router_task_poll (t : nat) (now_ms : Z) : op unit :=
  x ← get_task t;
  match task_group x with Some _ => op_fail SALTS_EBUSY | None => turbo_agent_router_task_poll_internal t now_ms end.

(* src/agent/src/turbo_agent_router.c 633-639 turbo_agent_router_task_heartbeat *)
Definition turbo_agent_router_task_heartbeat (t : nat) (now_ms : Z) : op unit :=
  _ ← turbo_agent_router_task_poll t now_ms;
  x ← get_task t;
  s ← op_get;
  if task_terminal s x then op_fail SALTS_EALREADY else op_modify (update_task t (task_heartbeat now_ms)).

(* src/agent/src/turbo_agent_router.c 603-614 turbo_agent_router_task_cancel *)
Definition turbo_agent_router_task_cancel (t : nat) (reason : Z) : op salts_status :=
  x ← get_task t;
  s ← op_get;
  match task_group x with
  | Some _ => op_fail SALTS_EBUSY
  | None =>
      if negb (max_model_turns (route x) =? 0) &&
         bool_decide (status <$> execution_of s x = Some TURBO_AGENT_EXECUTION_INTERRUPTED) && pending_review x
      then _ ← op_modify (update_task t (task_review_cancelled true)); mret SALTS_OK
      else cancel_execution reason (task_execution x)
  end.

(** ** Review of a tool loop *)

(** The command's state, from the runtime that has the checkpoint. *)
Context (prepare_override : nat -> string -> bool -> io W J).

(* src/agent/src/turbo_agent_router.c 562-576 router_task_review *)
Definition resume_task (next : nat) (now : Z) (x : task) : task :=
  mk_task (route x) (task_graph x) next
    (match identity_execution x with Some e => Some e | None => Some (task_execution x) end)
    (review_checkpoint x) (review_run_id x) (model_turns x) (review_resumes x + 1) (pending_review x)
    (review_cancelled x) now now (unresponsive x) false (task_group x).

(** Without a host that records the review. *)
(* src/agent/src/turbo_agent_router.c 505-580 router_task_review *)
Definition turbo_agent_router_task_review (t : nat) (approved : bool) : op unit :=
  x ← get_task t;
  s ← op_get;
  if max_model_turns (route x) =? 0 then op_fail SALTS_EINVAL
  else if negb (task_terminal s x) then op_fail SALTS_EBUSY
  else if unresponsive x || review_cancelled x then op_fail SALTS_ECANCELED
  else if negb (turbo_agent_router_authority_current_internal s x) then op_fail SALTS_EPERM
  else
    match review_checkpoint x with
    | Some checkpoint =>
        if negb (bool_decide (status <$> execution_of s x = Some TURBO_AGENT_EXECUTION_INTERRUPTED)) ||
           negb (pending_review x) then op_fail SALTS_EINVAL
        else if TURBO_AGENT_ROUTER_MAX_REVIEW_RESUMES <=? review_resumes x then op_fail SALTS_ERANGE
        else
          now ← op_now;
          if (deadline_ms (route x) <=? now) || (now <? observed_ms x) then op_fail SALTS_ETIMEDOUT
          else
            _ ← op_io (io_mem SALTS_ENOMEM (a ← attempt (create tt); command ← attempt create_object;
                                             _ ← need a; command ← need command;
                                             build_record [set_string "kind" (Some (if approved then "approve_review"
                                                                                   else "reject_review"))] command));
            override ← op_io (prepare_override (runtime (route_config (route x))) checkpoint approved);
            _ ← op_modify (update_task t (task_review_cancelled (negb approved)));
            started ← op_try (op_io (turbo_agent_execution_submit cmeta_uuid pool_submit TURBO_AGENT_EXECUTION_RESUME
                                       (Some override)
                                       (mk_submission None [] (Some checkpoint) None None (deadline_ms (route x))) None));
            match started with
            | inr st => _ ← op_modify (update_task t (task_review_cancelled (review_cancelled x))); op_fail st
            | inl e =>
                _ ← (if taken x then mret tt
                     else _ ← op_try (take_execution (task_execution x)); mret tt);
                op_modify (fun s => update_task t (resume_task (length (executions s)) now)
                                      (set_executions (executions s ++ [e]) s))
            end
    | None => op_fail SALTS_EINVAL
    end.

(** ** Delivery and release *)

(* src/agent/src/turbo_agent_router.c 682-706 turbo_agent_router_task_take_result *)
Definition turbo_agent_router_task_take_result (t : nat) : op (option J * option J) :=
  x ← get_task t;
  s ← op_get;
  match task_group x with
  | Some _ => op_fail SALTS_EBUSY
  | None =>
      if taken x then op_fail SALTS_EALREADY
      else if negb (task_terminal s x) then op_fail SALTS_EBUSY
      else if unresponsive x then op_fail SALTS_ECANCELED
      else if negb (turbo_agent_router_authority_current_internal s x) then op_fail SALTS_EPERM
      else
        result ← take_execution (task_execution x);
        _ ← op_modify (update_task t task_taken);
        mret result
  end.

Definition free_task (t : nat) (x : task) (s : state) : state :=
  set_router (vacate (route_endpoint (route x)) (max_model_turns (route x)) (router s))
    (set_tasks (<[t := None]> (tasks s)) s).

(* src/agent/src/turbo_agent_router.c 720-736 turbo_agent_router_task_release *)
Definition turbo_agent_router_task_release (t : nat) : op unit :=
  x ← get_task t;
  s ← op_get;
  match task_group x with
  | Some _ => op_fail SALTS_EBUSY
  | None => if negb (task_terminal s x) then op_fail SALTS_EBUSY else op_modify (free_task t x)
  end.

(** ** Groups *)

Definition get_group (g : nat) : op group := fun s w o =>
  match group_at s g with Some x => (inl x, s, w, o) | None => (inr SALTS_EINVAL, s, w, o) end.

(** One member, after those before it. *)
(* src/agent/src/turbo_agent_router_group.c 26-36 turbo_agent_router_group_adopt *)
Definition adoptable (s : state) (before : list nat) (first : option task) (t : nat) : salts_status :=
  match task_at s t with
  | None => SALTS_EINVAL
  | Some x =>
      if negb (max_model_turns (route x) =? 0) || (128 <? Z.of_nat (String.length (parent_run_id (route x))))
      then SALTS_EINVAL
      else if bool_decide (is_Some (task_group x)) then SALTS_EBUSY
      else if taken x then SALTS_EALREADY
      else if negb (bool_decide ((fun y => parent_run_id (route y)) <$> first = Some (parent_run_id (route x))))
      then SALTS_EINVAL
      else if existsb (fun b => Nat.eqb b t ||
                match task_at s b with
                | Some y => bool_decide (route_thread_id (route y) = route_thread_id (route x)) | None => false end) before
      then SALTS_EINVAL else SALTS_OK
  end.

(* src/agent/src/turbo_agent_router_group.c 26-36 turbo_agent_router_group_adopt *)
Fixpoint adopt_checks (s : state) (first : option task) (before rest : list nat) : salts_status :=
  match rest with
  | [] => SALTS_OK
  | t :: rest =>
      match adoptable s before first t with
      | SALTS_OK => adopt_checks s first (before ++ [t]) rest
      | st => st
      end
  end.

Definition task_observed_at (s : state) (t : nat) : Z := match task_at s t with Some x => observed_ms x | None => 0 end.

(* src/agent/src/turbo_agent_router_group.c 17-49 turbo_agent_router_group_adopt *)
Definition turbo_agent_router_group_adopt (id : option string) (ts : list nat) : op nat :=
  s ← op_get;
  match id with
  | Some name =>
      if negb (turbo_agent_router_id_valid_internal id) || (Z.of_nat (length ts) <? 2) ||
         (TURBO_AGENT_ROUTER_MAX_ENDPOINTS <? Z.of_nat (length ts)) then op_fail SALTS_EINVAL
      else
        _ ← op_status (adopt_checks s (t ← head ts; task_at s t) [] ts);
        _ ← op_io (io_mem SALTS_ENOMEM (_ ← create tt; create tt));
        let g := length (groups s) in
        let observed := foldr (fun t => Z.max (task_observed_at s t)) 0 ts in
        _ ← op_modify (fun s => set_groups (groups s ++ [Some (mk_group name observed SALTS_OK false false ts)])
                                 (foldr (fun t => update_task t (task_in_group (Some g))) s ts));
        mret g
  | None => op_fail SALTS_EINVAL
  end.

Definition members_terminal (s : state) (g : group) : bool :=
  forallb (fun t => match task_at s t with Some x => task_terminal s x | None => true end) (members g).

Definition group_failed (st : salts_status) (g : group) : group :=
  mk_group (group_id g) (group_observed_ms g) (if bool_decide (failure_code g = SALTS_OK) then st else failure_code g)
    (input_built g) (results_taken g) (members g).
Definition group_observed (now : Z) (g : group) : group :=
  mk_group (group_id g) now (failure_code g) (input_built g) (results_taken g) (members g).
Definition group_collected (g : group) : group :=
  mk_group (group_id g) (group_observed_ms g) (failure_code g) (input_built g) true (members g).

Definition op_each (f : nat -> op unit) : list nat -> op unit :=
  fix each l := match l with [] => mret tt | x :: l => _ ← f x; each l end.

(* src/agent/src/turbo_agent_router_group.c 71-78 group_halt *)
Definition group_halt (g : nat) (reason : salts_status) (cancel_reason : Z) : op salts_status :=
  _ ← op_modify (update_group g (group_failed reason));
  x ← get_group g;
  _ ← op_each (fun t => y ← get_task t; _ ← cancel_execution cancel_reason (task_execution y); mret tt) (members x);
  mret (failure_code x).

(* src/agent/src/turbo_agent_state_event.c 45-65 turbo_agent_state_last_event_of_kind_local *)
Definition last_event_of_kind (state : option J) (kind : string) : option J :=
  s ← state;
  if negb (bool_decide (json_type s = JSON_OBJECT)) then None
  else
    events ← json_object_get s "events";
    if bool_decide (json_type events = JSON_ARRAY)
    then List.find (fun e => bool_decide (json_type e = JSON_OBJECT) &&
                             bool_decide (member_string (Some e) "kind" = Some kind)) (rev (json_array_items events))
    else None.

(* src/agent/src/turbo_agent_state_flow.c 453-460 turbo_agent_state_pending_tool_calls_impl *)
Definition turbo_agent_state_pending_tool_calls (state : option J) : Z :=
  match (event ← last_event_of_kind state "model"; json_object_get event "tool_calls") with
  | Some calls => if bool_decide (json_type calls = JSON_ARRAY) then Z.of_nat (length (json_array_items calls)) else 0
  | None => 0
  end.

(* src/agent/src/turbo_agent_state_flow.c 445-447 turbo_agent_state_failure_kind_impl *)
Definition turbo_agent_state_failure_kind (state : option J) : option string :=
  member_string (current_object_version state "failure_versions") "kind".

(* src/agent/src/turbo_agent_router_group.c 82-103 group_member_failure *)
Definition group_member_failure (s : state) (x : task) : salts_status :=
  if negb (turbo_agent_router_authority_current_internal s x) then SALTS_EPERM
  else if unresponsive x then SALTS_ECANCELED
  else
    match execution_of s x with
    | None => SALTS_EINVAL
    | Some e =>
        match status e with
        | TURBO_AGENT_EXECUTION_QUEUED | TURBO_AGENT_EXECUTION_RUNNING => SALTS_OK
        | TURBO_AGENT_EXECUTION_TIMED_OUT => SALTS_ETIMEDOUT
        | TURBO_AGENT_EXECUTION_CANCELLED => SALTS_ECANCELED
        | TURBO_AGENT_EXECUTION_FAILED => SALTS_EIO
        | TURBO_AGENT_EXECUTION_INTERRUPTED => SALTS_EPROTO
        | TURBO_AGENT_EXECUTION_COMPLETED =>
            if taken x then SALTS_OK
            else
              match turbo_agent_execution_peek_result_internal e with
              | inr st => st
              | inl (summary, final) =>
                  if negb (bool_decide (is_Some summary)) || negb (bool_decide (is_Some final)) ||
                     negb (turbo_agent_state_pending_tool_calls final =? 0) ||
                     match turbo_agent_state_failure_kind final with Some (String _ _) => true | _ => false end
                  then SALTS_EPROTO else SALTS_OK
              end
        end
    end.

(** Each member is observed and looked at; the first fault counts. *)
(* src/agent/src/turbo_agent_router_group.c 115-120 turbo_agent_router_group_poll *)
Fixpoint poll_members (now_ms : Z) (first : salts_status) (ts : list nat) : op salts_status :=
  match ts with
  | [] => mret first
  | t :: ts =>
      polled ← op_try (turbo_agent_router_task_poll_internal t now_ms);
      let first := match first, polled with SALTS_OK, inr st => st | st, _ => st end in
      x ← get_task t;
      s ← op_get;
      poll_members now_ms (match first with SALTS_OK => group_member_failure s x | st => st end) ts
  end.

(* src/agent/src/turbo_agent_router_group.c 105-123 turbo_agent_router_group_poll *)
Definition turbo_agent_router_group_poll (g : nat) (now_ms : Z) : op unit :=
  x ← get_group g;
  if (now_ms <? group_observed_ms x) || (9007199254740991 <? now_ms) then op_fail SALTS_EINVAL
  else if results_taken x then op_fail SALTS_EALREADY
  else
    _ ← op_modify (update_group g (group_observed now_ms));
    first ← poll_members now_ms SALTS_OK (members x);
    if negb (bool_decide (first = SALTS_OK)) || negb (bool_decide (failure_code x = SALTS_OK))
    then st ← group_halt g first Control.TURBO_CANCEL_PARENT; op_status st
    else mret tt.

(* src/agent/src/turbo_agent_router_group.c 125-135 turbo_agent_router_group_heartbeat *)
Definition turbo_agent_router_group_heartbeat (g index : nat) (now_ms : Z) : op unit :=
  x ← get_group g;
  match members x !! index with
  | None => op_fail SALTS_EINVAL
  | Some t =>
      _ ← turbo_agent_router_group_poll g now_ms;
      y ← get_task t;
      s ← op_get;
      if task_terminal s y then op_fail SALTS_EALREADY else op_modify (update_task t (task_heartbeat now_ms))
  end.

(* src/agent/src/turbo_agent_router_group.c 137-143 turbo_agent_router_group_cancel *)
Definition turbo_agent_router_group_cancel (g : nat) (reason : Z) : op unit :=
  x ← get_group g;
  if (reason <? Control.TURBO_CANCEL_USER) || (Control.TURBO_CANCEL_PARENT <? reason) then op_fail SALTS_EINVAL
  else if negb (bool_decide (failure_code x = SALTS_OK)) || results_taken x then op_fail SALTS_EALREADY
  else _ ← group_halt g SALTS_ECANCELED reason; mret tt.

(* src/agent/src/turbo_agent_router_group.c 191-195 group_delivery_preflight *)
Fixpoint preflight_members (s : state) (ts : list nat) : salts_status :=
  match ts with
  | [] => SALTS_OK
  | t :: ts =>
      match task_at s t with
      | None => SALTS_EINVAL
      | Some x =>
          if unresponsive x then SALTS_ECANCELED
          else if negb (turbo_agent_router_authority_current_internal s x) then SALTS_EPERM
          else if taken x then SALTS_EALREADY
          else preflight_members s ts
      end
  end.

(* src/agent/src/turbo_agent_router_group.c 187-197 group_delivery_preflight *)
Definition group_delivery_preflight (s : state) (g : group) : salts_status :=
  if results_taken g then SALTS_EALREADY
  else if negb (members_terminal s g) then SALTS_EBUSY
  else preflight_members s (members g).

(** The pairs that were moved, then the answer. *)
(* src/agent/src/turbo_agent_router_group.c 299-306 group_take_results *)
Fixpoint take_members (g : nat) (ts : list nat) : op (list (option J * option J) * salts_status) :=
  match ts with
  | [] => mret ([], SALTS_OK)
  | t :: ts =>
      x ← get_task t;
      moved ← op_try (take_execution (task_execution x));
      match moved with
      | inr st => mret ([], st)
      | inl results =>
          _ ← op_modify (update_task t task_taken);
          _ ← op_modify (update_group g group_collected);
          rest ← take_members g ts;
          mret (results :: rest.1, rest.2)
      end
  end.

(* src/agent/src/turbo_agent_router_group.c 282-307 group_take_results *)
Definition turbo_agent_router_group_take_results (g : nat) (capacity : Z)
  : op (list (option J * option J) * salts_status) :=
  x ← get_group g;
  s ← op_get;
  if capacity <? Z.of_nat (length (members x)) then op_fail SALTS_EINVAL
  else
    _ ← op_status (group_delivery_preflight s x);
    take_members g (members x).

(* src/agent/src/turbo_agent_router_group.c 324-335 turbo_agent_router_group_release *)
Definition turbo_agent_router_group_release (g : nat) : op unit :=
  x ← get_group g;
  s ← op_get;
  if negb (members_terminal s x) then op_fail SALTS_EBUSY
  else
    _ ← op_each (fun t => _ ← op_modify (update_task t (task_in_group None));
                          _ ← op_try (turbo_agent_router_task_release t); mret tt) (members x);
    op_modify (fun s => set_groups (<[g := None]> (groups s)) s).

End ops.
