(* ===== verification/AgentRouterFacts.v ===== *)
(** * The choice of an endpoint (src/agent/src/turbo_agent_router.c)

    The endpoint that a request gets is the first cheapest of those that qualify, are
    idle, affordable and within the caller's authority; its cost is the rounded-up
    price, which no 64-bit computation wraps. *)

From S2P Require Import Prelude RuntimeJson AgentExecution AgentRouter.
From S2P Require AgentPolicy.

#[local] Open Scope string_scope.
#[local] Open Scope list_scope.
#[local] Open Scope Z_scope.

(** ** Costs *)

(** Micro-units rounded up, for one direction. *)
Definition price_of (tokens price : Z) : Z := (tokens * price + 999999) / 1000000.

Definition call_cost (e : turbo_agent_router_endpoint) (r : turbo_agent_router_request) : Z :=
  price_of (input_tokens r) (input_price_micros e) + price_of (output_tokens r) (output_price_micros e).

Definition cost_of (turns : Z) (r : turbo_agent_router_request) (e : turbo_agent_router_endpoint) : Z :=
  call_cost e r * Z.max 1 turns.

(** What the types of the fields say: they are unsigned. *)
Definition request_unsigned (r : turbo_agent_router_request) : Prop :=
  0 <= input_tokens r /\ 0 <= output_tokens r /\ 0 <= budget_micros r.
Definition endpoint_unsigned (e : turbo_agent_router_endpoint) : Prop :=
  0 <= input_price_micros e /\ 0 <= output_price_micros e.

Definition admitted_turns (turns : Z) : Prop := 0 <= turns <= TURBO_AGENT_ROUTER_MAX_MODEL_TURNS.

Lemma price_of_bounds tokens price : 0 <= tokens <= 1000000 -> 0 <= price <= 1000000000 ->
  0 <= tokens * price <= 1000000000000000 /\ 0 <= price_of tokens price <= 1000000000.
Proof.
  intros Ht Hp. assert (Hprod : 0 <= tokens * price <= 1000000000000000) by nia. split; [done|].
  unfold price_of. split; [apply Z.div_pos; lia|]. apply Z.lt_succ_r, Z.div_lt_upper_bound; lia.
Qed.

(** A price is the least number of micro-units that pays for the tokens. *)
Lemma price_of_least tokens price n : price_of tokens price <= n <-> tokens * price <= n * 1000000.
Proof.
  unfold price_of. pose proof (Z.div_mod (tokens * price + 999999) 1000000) as Hd.
  pose proof (Z.mod_pos_bound (tokens * price + 999999) 1000000). split; intros Hn; [|apply Z.lt_succ_r, Z.div_lt_upper_bound]; lia.
Qed.

Lemma endpoint_cost_exact turns r e : admitted_turns turns -> request_unsigned r -> endpoint_unsigned e ->
  request_valid r = true -> input_price_micros e <= 1000000000 -> output_price_micros e <= 1000000000 ->
  endpoint_cost turns r e = cost_of turns r e /\ 0 <= cost_of turns r e < UINT64_MAX.
Proof.
  unfold admitted_turns, TURBO_AGENT_ROUTER_MAX_MODEL_TURNS, request_unsigned, endpoint_unsigned.
  intros Ht (Hi & Ho & _) (Hpi & Hpo) Hr Hci Hco. unfold request_valid in Hr.
  repeat (apply andb_prop in Hr as [Hr ?]).
  destruct (price_of_bounds (input_tokens r) (input_price_micros e)) as [Ha Hb]; [lia|lia|].
  destruct (price_of_bounds (output_tokens r) (output_price_micros e)) as [Hc Hd]; [lia|lia|].
  unfold endpoint_cost, router_estimated_cost, cost_of, call_cost, price_of in *.
  assert (Hbig : UINT64_MAX = 18446744073709551615) by done.
  rewrite (u64_small (input_tokens r * input_price_micros e)), (u64_small (output_tokens r * output_price_micros e)) by lia.
  rewrite (u64_small (input_tokens r * input_price_micros e + 999999)),
    (u64_small (output_tokens r * output_price_micros e + 999999)) by lia.
  rewrite (u64_small (_ / _ + _)) by lia.
  assert (Hm : (if turns =? 0 then 1 else turns) = Z.max 1 turns) by (destruct (Z.eqb_spec turns 0); lia).
  rewrite Hm. set (c := _ / _ + _) in *. assert (Hc2 : 0 <= c <= 2000000000) by (subst c; clear -Hb Hd; lia).
  assert (Hprod : 0 <= c * Z.max 1 turns <= 2000000000 * 16)
    by (split; [apply Z.mul_nonneg_nonneg|apply Z.mul_le_mono_nonneg]; lia).
  rewrite u64_small by lia. split; [done|lia].
Qed.

(** ** Authority *)

Definition capability_index (c : AgentPolicy.turbo_agent_policy_capability) : Z := Z.log2 (capability_bit c).

Lemma lor_if_bit m (b : bool) k i : 0 <= k ->
  Z.testbit (if b then Z.lor m (Z.shiftl 1 k) else m) i = Z.testbit m i || (b && (k =? i)).
Proof.
  intros Hk. destruct b; [|by rewrite orb_false_r].
  by rewrite Z.lor_spec, Z.shiftl_1_l, Z.pow2_bits_eqb.
Qed.

(** Bit [i] of a mask is set exactly when the capability of that index is given. *)
Lemma policy_mask_testbit p i : Z.testbit (policy_mask p) i =
  existsb (fun c => (AgentPolicy.capability_flag p c).1 && (capability_index c =? i)) AgentPolicy.all_capabilities.
Proof.
  unfold policy_mask, AgentPolicy.all_capabilities, capability_bit. cbn [foldl existsb].
  rewrite !lor_if_bit by lia. rewrite Z.bits_0, orb_false_l, orb_false_r, !orb_assoc. reflexivity.
Qed.

Lemma capability_index_inj c c' : capability_index c = capability_index c' -> c = c'.
Proof. by destruct c, c'. Qed.

Lemma policy_mask_capability p c :
  Z.testbit (policy_mask p) (capability_index c) = (AgentPolicy.capability_flag p c).1.
Proof.
  rewrite policy_mask_testbit. apply eq_bool_prop_intro. rewrite !Is_true_true, existsb_exists. split.
  - intros (c' & _ & [Hf Hi]%andb_prop). apply Z.eqb_eq, capability_index_inj in Hi. by subst.
  - intros Hf. exists c. rewrite Hf, Z.eqb_refl. split; [|done]. destruct c; cbn; tauto.
Qed.

Lemma delegate_bit p : (Z.land (policy_mask p) (capability_bit AgentPolicy.TURBO_AGENT_POLICY_CAPABILITY_DELEGATE) =? 0) =
  negb (AgentPolicy.allow_delegate p).
Proof. destruct p as [wr aas sh pa cu ru de ne ou mr ms mp]. destruct sh, pa, cu, ru, de, ne, ou; reflexivity. Qed.

(** A child is contained exactly when it has no capability its authority lacks. *)
Lemma contained_spec g g' p p' : contained (mk_snapshot g (policy_mask p)) (mk_snapshot g' (policy_mask p')) = true <->
  forall c, (AgentPolicy.capability_flag p' c).1 = true -> (AgentPolicy.capability_flag p c).1 = true.
Proof.
  unfold contained. cbn [capability_mask]. rewrite Z.eqb_eq. split.
  - intros H0 c Hc. apply (f_equal (fun z => Z.testbit z (capability_index c))) in H0.
    rewrite Z.land_spec, Z.lnot_spec, Z.bits_0, !policy_mask_capability, Hc in H0 by (by destruct c).
    by destruct (AgentPolicy.capability_flag p c).1.
  - intros Hsub. apply Z.bits_inj'. intros i Hi. rewrite Z.land_spec, Z.lnot_spec, Z.bits_0 by done.
    destruct (Z.testbit (policy_mask p') i) eqn:Hb; [|done]. rewrite policy_mask_testbit, existsb_exists in Hb.
    destruct Hb as (c & _ & [Hf Hc]%andb_prop). apply Z.eqb_eq in Hc. subst i.
    by rewrite policy_mask_capability, Hsub.
Qed.

(** ** The choice *)

Section choice.
Context (agents : nat -> turbo_agent) (registry : nat) (turns : Z) (r : turbo_agent_router_request).
Context (parent : turbo_agent_tool_authority_snapshot).

(** Qualified and affordable; of those the idle ones within the authority. *)
Definition affordable (e : router_endpoint) : bool :=
  qualified agents registry turns r (endpoint_config e) &&
  (endpoint_cost turns r (endpoint_config e) <=? budget_micros r).

Definition child_of (e : router_endpoint) : turbo_agent_tool_authority_snapshot :=
  turbo_agent_tool_authority_snapshot_get (agents (agent (endpoint_config e))).

Definition candidate (e : router_endpoint) : bool :=
  affordable e && negb (busy e) && contained parent (child_of e).

Abbreviation cost e := (endpoint_cost turns r (endpoint_config e)).

(** The selection after the endpoints [before]. *)
Definition selected_of (before : list router_endpoint) (s : selection) : Prop :=
  s.2 = existsb (fun e => affordable e && busy e) before /\
  match s.1 with
  | None => forall e, e ∈ before -> candidate e = false
  | Some (k, child, c) => exists e, before !! k = Some e /\ candidate e = true /\ child = child_of e /\ c = cost e /\
      forall j e', before !! j = Some e' -> candidate e' = true -> c <= cost e' /\ ((j < k)%nat -> c < cost e')
  end.

Lemma consider_selected before s e : (forall e', candidate e' = true -> e' ∈ before ++ [e] -> cost e' < UINT64_MAX) ->
  selected_of before s ->
  selected_of (before ++ [e]) (consider agents registry turns r parent s (length before) e).
Proof.
  intros Hmax [Hbusy Hsel]. unfold consider.
  assert (Hskip : forall b, b = s.2 || (affordable e && busy e) -> candidate e = false -> selected_of (before ++ [e]) (s.1, b)).
  { intros b -> Hno. split; cbn [fst snd]; [by rewrite existsb_app, Hbusy; cbn; rewrite orb_false_r|].
    destruct s.1 as [[[k child] c]|].
    - destruct Hsel as (x & Hx & Hcand & Hch & Hc & Hleast). exists x. split_and!; try done.
      + by rewrite lookup_app_l by (eapply lookup_lt_Some; exact Hx).
      + intros j e' Hj He'. apply lookup_app_Some in Hj as [Hj|[Hj1 Hj2]]; [by apply (Hleast j)|].
        destruct (j - length before)%nat; [|done]. cbn in Hj2. injection Hj2 as <-. congruence.
    - intros e' [He'|He']%elem_of_app; [by apply Hsel|]. by apply list_elem_of_singleton in He' as ->. }
  assert (Haff : affordable e = qualified agents registry turns r (endpoint_config e) && (cost e <=? budget_micros r)) by done.
  destruct (qualified agents registry turns r (endpoint_config e)) eqn:Hq; cbn [negb andb] in *.
  2:{ replace s with (s.1, s.2) by (by destruct s). apply Hskip; unfold candidate; rewrite Haff; [by rewrite orb_false_r|done]. }
  destruct (Z.ltb_spec (budget_micros r) (cost e)) as [Hover|Hover].
  { rewrite (proj2 (Z.leb_gt _ _) Hover) in Haff. replace s with (s.1, s.2) by (by destruct s).
    apply Hskip; unfold candidate; rewrite Haff; [by rewrite orb_false_r|done]. }
  rewrite (proj2 (Z.leb_le _ _) Hover) in Haff.
  destruct (busy e) eqn:Hb.
  { apply Hskip; unfold candidate; rewrite Haff, ?Hb; [by rewrite orb_true_r|done]. }
  fold (child_of e). destruct (contained parent (child_of e)) eqn:Hin; cbn [negb].
  2:{ replace s with (s.1, s.2) by (by destruct s). apply Hskip; unfold candidate; rewrite Haff, ?Hb, ?Hin; [by rewrite orb_false_r|done]. }
  assert (Hcand : candidate e = true) by (unfold candidate; by rewrite Haff, ?Hb, ?Hin).
  rename Hsel into Hsel0. unfold selected_of, best_cost. rewrite existsb_app. cbn [existsb].
  rewrite ?Hb, ?andb_false_r, ?orb_false_r.
  assert (Hlast : (before ++ [e]) !! length before = Some e) by (by rewrite lookup_app_r, Nat.sub_diag).
  destruct s as [[[[k child] c]|] b]; cbn [fst snd] in *.
  - destruct Hsel0 as (x & Hx & Hcx & Hch & Hc & Hleast). pose proof (lookup_lt_Some _ _ _ Hx) as Hk.
    destruct (Z.ltb_spec (cost e) c) as [Hless|Hless]; cbn [fst snd]; (split; [done|]).
    + exists e. split_and!; try done. intros j e' Hj He'. apply lookup_app_Some in Hj as [Hj|[Hj1 Hj2]].
      * destruct (Hleast j e' Hj He'). split; [lia|]. lia.
      * destruct (j - length before)%nat eqn:Hd; [|done]. injection Hj2 as <-. split; lia.
    + exists x. split_and!; try done; [by rewrite lookup_app_l|].
      intros j e' Hj He'. apply lookup_app_Some in Hj as [Hj|[Hj1 Hj2]]; [by apply (Hleast j)|].
      destruct (j - length before)%nat eqn:Hd; [|done]. injection Hj2 as <-. split; [lia|]. lia.
  - assert (Hlt : cost e < UINT64_MAX) by (apply Hmax; [done|apply elem_of_app; right; by apply list_elem_of_singleton]).
    rewrite (proj2 (Z.ltb_lt _ _) Hlt). cbn [fst snd]. split; [done|]. exists e. split_and!; try done.
    intros j e' Hj He'. apply lookup_app_Some in Hj as [Hj|[Hj1 Hj2]].
    + rewrite (Hsel0 e') in He'; [done|]. by eapply list_elem_of_lookup_2.
    + destruct (j - length before)%nat eqn:Hd; [|done]. injection Hj2 as <-. split; lia.
Qed.

Lemma consider_all_selected es : forall before s,
  (forall e', candidate e' = true -> e' ∈ before ++ es -> cost e' < UINT64_MAX) -> selected_of before s ->
  selected_of (before ++ es) (consider_all agents registry turns r parent s (length before) es).
Proof.
  induction es as [|e es IH]; intros before s Hmax Hs; cbn [consider_all]; [by rewrite app_nil_r|].
  replace (before ++ e :: es) with ((before ++ [e]) ++ es) in * by (by rewrite <- app_assoc).
  replace (S (length before)) with (length (before ++ [e])) by (rewrite length_app; cbn; lia).
  apply IH; [done|]. apply consider_selected; [|done].
  intros e' He' Hin. apply Hmax; [done|]. apply elem_of_app. by left.
Qed.

End choice.

(** C24. The first cheapest endpoint is chosen.  For a valid request to a router with
    valid endpoints, a choice is an idle endpoint that serves the role, the difficulty,
    the features and the token counts, whose agent has no capability its authority
    lacks, whose cost, each direction rounded up to whole micro-units and times the
    turns, is within the budget, and than which no other such endpoint is cheaper, nor
    an earlier one as cheap; no wrap occurs.  Without the right to delegate the answer
    is EPERM, otherwise there is no such endpoint, and it is EBUSY exactly when an
    occupied endpoint would have qualified. *)
Theorem router_chooses_cheapest agents router turns r : request_valid r = true -> admitted_turns turns ->
  request_unsigned r ->
  Forall (fun e => endpoint_valid (authority_agent router) (endpoint_config e) = true /\
    endpoint_unsigned (endpoint_config e)) (endpoints router) ->
  let authority := agents (authority_agent router) in
  let parent := turbo_agent_tool_authority_snapshot_get authority in
  let fits := candidate agents (tool_registry authority) turns r parent in
  let delegates := AgentPolicy.allow_delegate (tool_policy authority) in
  match choose_endpoint agents router turns r with
  | inl (k, child, cost) => delegates = true /\ exists e, endpoints router !! k = Some e /\ fits e = true /\
    child = child_of agents e /\ cost = cost_of turns r (endpoint_config e) /\ cost <= budget_micros r /\
    forall j e', endpoints router !! j = Some e' -> fits e' = true ->
        cost <= cost_of turns r (endpoint_config e') /\ ((j < k)%nat -> cost < cost_of turns r (endpoint_config e'))
  | inr SALTS_EPERM => delegates = false
  | inr st => delegates = true /\ (forall e, e ∈ endpoints router -> fits e = false) /\
    st = if existsb (fun e => affordable agents (tool_registry authority) turns r e && busy e) (endpoints router)
           then SALTS_EBUSY else SALTS_ENOENT
  end.
Proof.
  intros Hr Ht Hu Hes authority parent fits delegates. unfold choose_endpoint. fold authority parent.
  assert (Hcost : forall e, e ∈ endpoints router -> endpoint_cost turns r (endpoint_config e) = cost_of turns r (endpoint_config e) /\
    cost_of turns r (endpoint_config e) < UINT64_MAX).
  { intros e He. rewrite Forall_forall in Hes. destruct (Hes e He) as [Hv Hue]. unfold endpoint_valid in Hv.
    repeat (apply andb_prop in Hv as [Hv ?]).
    destruct (endpoint_cost_exact turns r (endpoint_config e) Ht Hu Hue Hr) as [-> ?]; [lia|lia|]. split; [done|lia]. }
  rewrite (delegate_bit (tool_policy authority) : (Z.land (capability_mask parent) _ =? 0) = _).
  fold delegates. destruct delegates; cbn [negb]; [|done].
  pose proof (consider_all_selected agents (tool_registry authority) turns r parent (endpoints router) [] (None, false)) as Hsel.
  destruct Hsel as [Hbusy Hchosen].
  { intros e _ He. destruct (Hcost e He) as [-> ?]. done. }
  { split; [done|]. intros e He. by apply not_elem_of_nil in He. }
  cbn [app length] in Hbusy, Hchosen. destruct (consider_all _ _ _ _ _ _ _ _) as [[[[k child] cost]|] b]; cbn [fst snd] in *.
  - split; [done|]. destruct Hchosen as (e & He & Hfit & Hch & Hc & Hleast).
    pose proof (list_elem_of_lookup_2 _ _ _ He) as Hin. destruct (Hcost e Hin) as [Heq _]. rewrite Heq in Hc.
    exists e. split_and!; try done.
    + unfold candidate, affordable in Hfit. repeat (apply andb_prop in Hfit as [Hfit ?]). lia.
    + intros j e' Hj He'. destruct (Hcost e' (list_elem_of_lookup_2 _ _ _ Hj)) as [<- _]. by apply Hleast.
  - destruct b; cbn; (split_and!; [done|exact Hchosen|by rewrite <- Hbusy]).
Qed.

(** ** A choice *)

Module AgentRouterChoice.

Definition policy_of (a : nat) : AgentPolicy.turbo_agent_policy :=
  AgentPolicy.mk_policy None true false false false false (Nat.eqb a 9) (Nat.eqb a 3) false 1 32 3.

(** Agent 9 is the authority; agent 3 may use the network, which 9 may not. *)
Definition some_agents (a : nat) : turbo_agent := mk_agent "model" "provider" (policy_of a) 1 7 1 [true].

Definition some_endpoint (id : string) (a : nat) (price : Z) (b : bool) : router_endpoint :=
  mk_router_endpoint (mk_endpoint (Some id) a (10 + a) 3 7 100 100000 100000 price price) b.

(** The cheapest is occupied, the next has too much authority, and the last two cost
    the same: 1500 * 200 and 1500 * 300 micro-units per million, rounded up. *)
Definition some_router : turbo_agent_router :=
  mk_router 9 1 0 [some_endpoint "large" 1 3000 false; some_endpoint "tiny" 2 100 true; some_endpoint "net" 3 150 false;
                   some_endpoint "small" 4 200 false; some_endpoint "same" 5 300 false].

Definition some_request : turbo_agent_router_request :=
  mk_request TURBO_AGENT_ROUTER_EXECUTE 50 5 1500 1500 1000000 60000 1000 (Some "thread-1")
    (Some (mk_parent_link (Some "run-1") None None None None)).

Lemma router_chooses_cheapest_witness :
  choose_endpoint some_agents some_router 0 some_request = inl (3%nat, mk_snapshot 1 0, 2) /\
  (3 <= 4)%nat /\ candidate some_agents 7 0 some_request (mk_snapshot 1 4) (some_endpoint "small" 4 200 false) = true /\
  exists e, endpoints some_router !! 3%nat = Some e /\ 2 = cost_of 0 some_request (endpoint_config e).
Proof.
  assert (Hc : choose_endpoint some_agents some_router 0 some_request = inl (3%nat, mk_snapshot 1 0, 2)) by (vm_compute; reflexivity).
  pose proof (router_chooses_cheapest some_agents some_router 0 some_request) as Ht. cbv zeta in Ht. rewrite Hc in Ht.
  destruct Ht as (_ & e & He & _ & _ & Hcost & _); [reflexivity|split; vm_compute; discriminate|split_and!; vm_compute; discriminate| |].
  { repeat constructor; vm_compute; discriminate. }
  split_and!; [done|lia|vm_compute; reflexivity|]. by exists e.
Defined.

End AgentRouterChoice.
