(* ===== verification/AgentRouterInv.v ===== *)
(** * The router's invariant (src/agent/src/turbo_agent_router.c, turbo_agent_router_group.c)

    What holds between operations, and the changes of state that keep it: occupied
    endpoints and live tasks correspond one to one, the tool tasks are counted and
    exclude others at limit 1, and members and groups refer to each other. *)

From S2P Require Import Prelude RuntimeJson AgentExecution AgentRouter AgentRouterTask AgentRouterOps.

#[local] Open Scope string_scope.
#[local] Open Scope list_scope.
#[local] Open Scope Z_scope.

Section invariant.
Context {W J : Type}.

#[local] Abbreviation state := (router_state (W := W) (J := J)).
#[local] Abbreviation task := (router_task (W := W) (J := J)).
#[local] Abbreviation executed := (turbo_agent_execution (J := J)).

(** ** The invariant *)

Definition is_tool (x : task) : bool := negb (max_model_turns (route x) =? 0).
Definition live_tasks (s : state) : list task := omap id (tasks s).
Definition tool_tasks (s : state) : Z := Z.of_nat (length (List.filter is_tool (live_tasks s))).

Definition occupied (s : state) (i : nat) : bool := match endpoints (router s) !! i with Some e => busy e | None => false end.

Record tasks_inv (s : state) : Prop := mk_tasks_inv {
  slots_taken : forall i, occupied s i = true <-> exists t x, task_at s t = Some x /\ route_endpoint (route x) = i;
  slots_distinct : forall t t' x x', task_at s t = Some x -> task_at s t' = Some x' ->
    route_endpoint (route x) = route_endpoint (route x') -> t = t';
  tools_counted : tool_task_count (router s) = tool_tasks s;
  tools_limited : tool_task_count (router s) <= tool_task_limit (router s);
  tools_exclude : tool_task_limit (router s) = 1 -> tool_task_count (router s) <> 0 ->
    forall t t' x x', task_at s t = Some x -> task_at s t' = Some x' -> t = t';
  executions_kept : forall t x, task_at s t = Some x ->
    exists e, executions s !! task_execution x = Some e /\ result_taken e = taken x;
  executions_distinct : forall t t' x x', task_at s t = Some x -> task_at s t' = Some x' ->
    task_execution x = task_execution x' -> t = t'
}.

(** Groups and their members; [but] is a group that is being released and [left] what
    is left of its members. *)
Record groups_inv (but : option nat) (left : list nat) (s : state) : Prop := mk_groups_inv {
  members_distinct : forall g x, group_at s g = Some x -> NoDup (members x) /\ members x <> [];
  members_live : forall g x, group_at s g = Some x -> but <> Some g ->
    forall t, t ∈ members x -> exists y, task_at s t = Some y /\ task_group y = Some g;
  members_known : forall t y g, task_at s t = Some y -> task_group y = Some g ->
    if decide (but = Some g) then t ∈ left else exists x, group_at s g = Some x /\ t ∈ members x
}.

Definition router_inv (s : state) : Prop := tasks_inv s /\ groups_inv None [] s.

(** ** Counting *)

Definition weight (o : option task) : nat := match o with Some x => if is_tool x then 1 else 0 | None => 0 end.

Definition tools_in (l : list (option task)) : nat := length (List.filter is_tool (omap id l)).

Lemma tool_tasks_in (s : state) : tool_tasks s = Z.of_nat (tools_in (tasks s)).
Proof. done. Qed.

Lemma tools_in_cons o l : tools_in (o :: l) = (weight o + tools_in l)%nat.
Proof. unfold tools_in. destruct o as [x|]; cbn; [|done]. by destruct (is_tool x). Qed.

Lemma tools_in_app l l' : tools_in (l ++ l') = (tools_in l + tools_in l')%nat.
Proof. induction l as [|o l IH]; [done|]. cbn [app]. rewrite !tools_in_cons, IH. lia. Qed.

Lemma tools_in_insert l t o o' : l !! t = Some o -> (tools_in (<[t := o']> l) + weight o = tools_in l + weight o')%nat.
Proof.
  revert t. induction l as [|x l IH]; intros t Hl; [done|].
  destruct t as [|t]; cbn [lookup] in Hl.
  - injection Hl as ->. change (<[0%nat := o']> (o :: l)) with (o' :: l). rewrite !tools_in_cons. lia.
  - change (<[S t := o']> (x :: l)) with (x :: <[t := o']> l). rewrite !tools_in_cons. specialize (IH t Hl). lia.
Qed.

Lemma tools_in_alter f t l : (forall x, is_tool (f x) = is_tool x) -> tools_in (alter (fmap f) t l) = tools_in l.
Proof.
  intros Hf. revert t. induction l as [|o l IH]; intros t; [done|].
  destruct t as [|t].
  - change (alter (fmap f) 0%nat (o :: l)) with ((f <$> o) :: l). rewrite !tools_in_cons.
    destruct o as [x|]; cbn; [by rewrite Hf|done].
  - change (alter (fmap f) (S t) (o :: l)) with (o :: alter (fmap f) t l). by rewrite !tools_in_cons, (IH t).
Qed.

(** ** Lookups *)

Lemma task_at_update t f (s : state) t' : task_at (update_task t f s) t' =
  if decide (t = t') then f <$> task_at s t' else task_at s t'.
Proof.
  unfold task_at, update_task. cbn [tasks set_tasks]. destruct (decide (t = t')) as [->|Hne].
  - rewrite list_lookup_alter_eq. destruct (tasks s !! t') as [[x|]|]; done.
  - by rewrite list_lookup_alter_ne.
Qed.

Lemma task_at_lookup (s : state) t x : task_at s t = Some x -> tasks s !! t = Some (Some x).
Proof. unfold task_at. destruct (tasks s !! t) as [[y|]|]; cbn; congruence. Qed.

Lemma group_at_update g f (s : state) g' : group_at (update_group g f s) g' =
  if decide (g = g') then f <$> group_at s g' else group_at s g'.
Proof.
  unfold group_at, update_group. cbn [groups set_groups]. destruct (decide (g = g')) as [->|Hne].
  - rewrite list_lookup_alter_eq. destruct (groups s !! g') as [[x|]|]; done.
  - by rewrite list_lookup_alter_ne.
Qed.

Lemma group_at_update_task t f (s : state) g : group_at (update_task t f s) g = group_at s g.
Proof. done. Qed.

Lemma occupied_any (s : state) : any_busy (router s) = true <-> exists i, occupied s i = true.
Proof.
  unfold any_busy, occupied. rewrite existsb_exists. split.
  - intros (e & He & Hb). apply list_elem_of_In, list_elem_of_lookup in He as [i Hi]. exists i. by rewrite Hi.
  - intros [i Hi]. destruct (endpoints (router s) !! i) as [e|] eqn:He; [|done].
    exists e. split; [|done]. apply list_elem_of_In. by eapply list_elem_of_lookup_2.
Qed.

(** Some endpoint is occupied exactly when some task is live. *)
Lemma busy_live (s : state) : tasks_inv s -> (any_busy (router s) = true <-> exists t x, task_at s t = Some x).
Proof.
  intros Hs. rewrite occupied_any. split.
  - intros [i Hi]. apply (slots_taken s Hs) in Hi as (t & x & Hx & _). eauto.
  - intros (t & x & Hx). exists (route_endpoint (route x)). apply (slots_taken s Hs). eauto.
Qed.

(** ** Changes that keep it *)

(** The tasks keep their endpoints and kinds, and the router does not change. *)
Lemma keeps_tasks (s s' : state) : tasks_inv s -> router s' = router s -> tools_in (tasks s') = tools_in (tasks s) ->
  (forall t, (fun x => route_endpoint (route x)) <$> task_at s' t = (fun x => route_endpoint (route x)) <$> task_at s t) ->
  (forall t x, task_at s' t = Some x -> exists e, executions s' !! task_execution x = Some e /\ result_taken e = taken x) ->
  (forall t t' x x', task_at s' t = Some x -> task_at s' t' = Some x' -> task_execution x = task_execution x' -> t = t') ->
  tasks_inv s'.
Proof.
  intros Hs Hr Hn Hep Hk Hd.
  assert (Hto : forall t x, task_at s' t = Some x -> exists y, task_at s t = Some y /\ route_endpoint (route y) = route_endpoint (route x)).
  { intros t x Hx. specialize (Hep t). rewrite Hx in Hep. destruct (task_at s t) as [y|]; [|done].
    exists y. split; [done|]. by injection Hep. }
  constructor; try done; unfold occupied; rewrite ?Hr.
  - intros i. fold (occupied s i). rewrite (slots_taken s Hs). split; intros (t & x & Hx & Hi).
    + specialize (Hep t). rewrite Hx in Hep. destruct (task_at s' t) as [y|] eqn:Hy; [|done].
      exists t, y. split; [done|]. injection Hep as ->. done.
    + destruct (Hto t x Hx) as (y & Hy & He). exists t, y. split; [done|congruence].
  - intros t t' x x' Hx Hx' He. destruct (Hto _ _ Hx) as (y & Hy & He1), (Hto _ _ Hx') as (y' & Hy' & He2).
    apply (slots_distinct s Hs t t' y y'); congruence.
  - rewrite (tools_counted s Hs). rewrite !tool_tasks_in. lia.
  - apply (tools_limited s Hs).
  - intros Hl Hc t t' x x' Hx Hx'. destruct (Hto _ _ Hx) as (y & Hy & _), (Hto _ _ Hx') as (y' & Hy' & _).
    by apply (tools_exclude s Hs Hl Hc t t' y y').
Qed.

Lemma keeps_groups but left (s s' : state) : groups_inv but left s ->
  (forall t, task_group <$> task_at s' t = task_group <$> task_at s t) ->
  (forall g, members <$> group_at s' g = members <$> group_at s g) -> groups_inv but left s'.
Proof.
  intros [Hd Hl Hk] Ht Hg. constructor.
  - intros g x Hx. specialize (Hg g). rewrite Hx in Hg. destruct (group_at s g) as [x'|] eqn:Hx'; [|done].
    injection Hg as ->. by apply (Hd g).
  - intros g x Hx Hb t Hm. specialize (Hg g) as Hg'. rewrite Hx in Hg'. destruct (group_at s g) as [x'|] eqn:Hx'; [|done].
    injection Hg' as Hm'. destruct (Hl g x' Hx' Hb t) as (y & Hy & Hgr); [congruence|]. specialize (Ht t). rewrite Hy in Ht.
    destruct (task_at s' t) as [y'|]; [|done]. exists y'. split; [done|]. cbn in Ht. congruence.
  - intros t y g Hy Hgr. specialize (Ht t) as Ht'. rewrite Hy in Ht'. destruct (task_at s t) as [y'|] eqn:Hy'; [|done].
    cbn in Ht'. specialize (Hk t y' g Hy'). destruct (decide (but = Some g)); [apply Hk; congruence|].
    destruct Hk as (x & Hx & Hm); [congruence|]. specialize (Hg g). rewrite Hx in Hg.
    destruct (group_at s' g) as [x'|]; [|done]. exists x'. split; [done|]. cbn in Hg. congruence.
Qed.

(** A change of a task that leaves what the invariant reads. *)
Definition same_shape (f : task -> task) : Prop := forall x,
  route (f x) = route x /\ task_execution (f x) = task_execution x /\ taken (f x) = taken x /\ task_group (f x) = task_group x.

Lemma tasks_keep_update t f (s : state) : (forall x, route (f x) = route x /\ task_execution (f x) = task_execution x /\ taken (f x) = taken x) ->
  tasks_inv s -> tasks_inv (update_task t f s).
Proof.
  intros Hf Hs. assert (Hat : forall t' x, task_at (update_task t f s) t' = Some x -> exists y, task_at s t' = Some y /\
      task_execution x = task_execution y /\ taken x = taken y).
  { intros t' x. rewrite task_at_update. destruct (decide (t = t')) as [_|_]; [|by eauto].
    destruct (task_at s t') as [y|]; [|done]. intros Hx. injection Hx as <-. destruct (Hf y) as (_ & ? & ?). eauto. }
  apply (keeps_tasks s); try done.
  - apply tools_in_alter. intros x. unfold is_tool. destruct (Hf x) as (-> & _). done.
  - intros t'. rewrite task_at_update. destruct (decide (t = t')) as [_|_]; [|done].
    destruct (task_at s t') as [y|]; [|done]. cbn. destruct (Hf y) as (-> & _). done.
  - intros t' x Hx. destruct (Hat _ _ Hx) as (y & Hy & -> & ->). by apply (executions_kept s Hs t' y).
  - intros t1 t2 x1 x2 Hx1 Hx2. destruct (Hat _ _ Hx1) as (y1 & Hy1 & -> & _), (Hat _ _ Hx2) as (y2 & Hy2 & -> & _).
    by apply (executions_distinct s Hs).
Qed.

Lemma inv_update_task t f (s : state) : same_shape f -> router_inv s -> router_inv (update_task t f s).
Proof.
  intros Hf [Ht Hg]. split.
  - apply tasks_keep_update; [|done]. intros x. by destruct (Hf x) as (? & ? & ? & ?).
  - apply (keeps_groups _ _ s); [done| |done]. intros t'. rewrite task_at_update. destruct (decide (t = t')); [|done].
    destruct (task_at s t') as [x|]; [|done]. cbn. by destruct (Hf x) as (_ & _ & _ & ->).
Qed.

Lemma inv_update_execution e f (s : state) : (forall x, result_taken (f x) = result_taken x) ->
  router_inv s -> router_inv (update_execution e f s).
Proof.
  intros Hf [Ht Hg]. split; [|by apply (keeps_groups _ _ s)]. apply (keeps_tasks s); try done.
  - intros t x Hx. destruct (executions_kept s Ht t x Hx) as (y & Hy & Htk). cbn [executions update_execution set_executions].
    destruct (decide (e = task_execution x)) as [->|Hne].
    + exists (f y). rewrite list_lookup_alter_eq, Hy. split; [done|]. by rewrite Hf.
    + exists y. by rewrite list_lookup_alter_ne.
  - apply (executions_distinct s Ht).
Qed.

Lemma inv_update_group g f (s : state) : (forall x, members (f x) = members x) -> router_inv s -> router_inv (update_group g f s).
Proof.
  intros Hf [Ht Hg]. split; [by apply (keeps_tasks s); try done; [apply (executions_kept s Ht)|apply (executions_distinct s Ht)]|].
  apply (keeps_groups _ _ s); [done|done|]. intros g'. rewrite group_at_update. destruct (decide (g = g')); [|done].
  destruct (group_at s g'); [|done]. cbn. by rewrite Hf.
Qed.

(** ** A task and its execution *)

(** A task whose execution changes or is replaced, the other executions being kept. *)
Lemma inv_settle t x f l (s : state) : task_at s t = Some x -> route (f x) = route x -> task_group (f x) = task_group x ->
  (forall t' x', t' <> t -> task_at s t' = Some x' ->
    l !! task_execution x' = executions s !! task_execution x' /\ task_execution x' <> task_execution (f x)) ->
  (exists e, l !! task_execution (f x) = Some e /\ result_taken e = taken (f x)) ->
  router_inv s -> router_inv (update_task t f (set_executions l s)).
Proof.
  intros Hx Hr Hgr Hothers Hown [Ht Hg].
  assert (Hat : forall t', task_at (update_task t f (set_executions l s)) t' = if decide (t = t') then f <$> task_at s t' else task_at s t')
    by (intros t'; by rewrite task_at_update).
  split.
  - apply (keeps_tasks s); try done.
    + cbn [tasks update_task set_tasks set_executions]. apply task_at_lookup in Hx.
      assert (Halter : alter (fmap f) t (tasks s) = <[t := Some (f x)]> (tasks s)).
      { apply list_eq. intros i. destruct (decide (t = i)) as [->|Hne].
        - rewrite list_lookup_alter_eq, list_lookup_insert_eq by (by eapply lookup_lt_Some). by rewrite Hx.
        - by rewrite list_lookup_alter_ne, list_lookup_insert_ne. }
      rewrite Halter. pose proof (tools_in_insert (tasks s) t (Some x) (Some (f x)) Hx) as Hn.
      unfold weight, is_tool in Hn. rewrite Hr in Hn. lia.
    + intros t'. rewrite Hat. destruct (decide (t = t')) as [<-|_]; [|done]. rewrite Hx. cbn. by rewrite Hr.
    + intros t' x'. rewrite Hat. destruct (decide (t = t')) as [<-|Hne].
      * rewrite Hx. intros Hx'. injection Hx' as <-. done.
      * intros Hx'. destruct (Hothers t' x') as [He _]; [congruence|done|]. cbn [executions update_task set_tasks set_executions].
        rewrite He. by apply (executions_kept s Ht t').
    + intros t1 t2 x1 x2. rewrite !Hat. destruct (decide (t = t1)) as [<-|H1], (decide (t = t2)) as [<-|H2]; rewrite ?Hx; cbn; [done| | |].
      * intros E1 Hx2 He. injection E1 as <-. destruct (Hothers t2 x2) as [_ Hn]; congruence.
      * intros Hx1 E2 He. injection E2 as <-. destruct (Hothers t1 x1) as [_ Hn]; congruence.
      * apply (executions_distinct s Ht).
  - apply (keeps_groups _ _ s); [done| |done]. intros t'. rewrite Hat. destruct (decide (t = t')) as [<-|_]; [|done].
    rewrite Hx. cbn. by rewrite Hgr.
Qed.

(** Another task's execution is not the task's. *)
Lemma other_execution (s : state) t t' x x' : tasks_inv s -> task_at s t = Some x -> task_at s t' = Some x' -> t' <> t ->
  task_execution x' <> task_execution x.
Proof. intros Ht Hx Hx' Hne He. by apply Hne, (executions_distinct s Ht t' t x' x). Qed.

(** A result handed over. *)
Lemma inv_take t x (e' : executed) (s : state) : task_at s t = Some x -> result_taken e' = true ->
  router_inv s -> router_inv (update_task t task_taken (update_execution (task_execution x) (fun _ => e') s)).
Proof.
  intros Hx He Hs. pose proof (proj1 Hs) as Ht.
  apply (inv_settle t x task_taken (alter (fun _ => e') (task_execution x) (executions s))); try done.
  - intros t' x' Hne Hx'. pose proof (other_execution s t t' x x' Ht Hx Hx' Hne) as Hn. cbn [task_execution task_taken].
    split; [|done]. by rewrite list_lookup_alter_ne.
  - destruct (executions_kept s Ht t x Hx) as (e & Hy & _). exists e'. cbn [task_execution task_taken taken].
    by rewrite list_lookup_alter_eq, Hy.
Qed.

(** An execution taken over by a new one, whatever becomes of the old one. *)
Lemma inv_resume t x f g (e' : executed) (s : state) : task_at s t = Some x -> result_taken e' = false ->
  (forall y, route (f y) = route y /\ task_group (f y) = task_group y /\ task_execution (f y) = length (executions s) /\ taken (f y) = false) ->
  router_inv s -> router_inv (update_task t f (set_executions (alter g (task_execution x) (executions s) ++ [e']) s)).
Proof.
  intros Hx He Hf Hs. pose proof (proj1 Hs) as Ht. destruct (Hf x) as (Hr & Hgr & Hex & Htk).
  apply (inv_settle t x); try done.
  - intros t' x' Hne Hx'. pose proof (other_execution s t t' x x' Ht Hx Hx' Hne) as Hn.
    destruct (executions_kept s Ht t' x' Hx') as (e & Hy & _). pose proof (lookup_lt_Some _ _ _ Hy) as Hlt.
    rewrite Hex. split; [|lia]. rewrite lookup_app_l by (by rewrite length_alter). by rewrite list_lookup_alter_ne.
  - exists e'. rewrite Hex, Htk. split; [|done]. rewrite lookup_app_r by (by rewrite length_alter). by rewrite length_alter, Nat.sub_diag.
Qed.

End invariant.
