(* ===== verification/AgentRouterSlots.v ===== *)
(** * Slots of the router (src/agent/src/turbo_agent_router.c, turbo_agent_router_group.c)

    Admission and release of tasks, and the changes of their groups, keep the router's
    invariant. *)

From S2P Require Import Prelude RuntimeJson AgentExecution AgentRouter AgentRouterTask AgentRouterOps AgentRouterInv.
From S2P Require Graph.

#[local] Open Scope string_scope.
#[local] Open Scope list_scope.
#[local] Open Scope Z_scope.

Section slots.
Context {W J : Type}.

#[local] Abbreviation state := (router_state (W := W) (J := J)).
#[local] Abbreviation task := (router_task (W := W) (J := J)).
#[local] Abbreviation executed := (turbo_agent_execution (J := J)).

(** ** Slots *)

Lemma set_busy_lookup i b r j : endpoints (set_busy i b r) !! j =
  if decide (i = j) then (fun e => mk_router_endpoint (endpoint_config e) b) <$> endpoints r !! j else endpoints r !! j.
Proof.
  unfold set_busy. cbn [endpoints]. destruct (decide (i = j)) as [->|Hne]; [by rewrite list_lookup_alter_eq|by rewrite list_lookup_alter_ne].
Qed.

(** What is given back is what was taken. *)
Lemma vacate_occupy i turns r : (match endpoints r !! i with Some e => busy e | None => false end) = false ->
  vacate i turns (occupy i turns r) = r.
Proof.
  intros Hfree. destruct r as [a l n es]. unfold vacate, occupy. cbn [endpoints] in Hfree.
  assert (Hes : endpoints (set_busy i false (set_busy i true (mk_router a l n es))) = es).
  { apply list_eq. intros j. rewrite !set_busy_lookup. cbn [endpoints]. destruct (decide (i = j)) as [<-|]; [|done].
    destruct (es !! i) as [[c b]|]; [|done]. cbn in *. by subst b. }
  unfold set_busy in Hes. cbn [endpoints] in Hes. destruct (turns =? 0).
  - unfold set_busy. cbn [authority_agent tool_task_limit tool_task_count endpoints]. by rewrite Hes.
  - unfold count_tool_task, set_busy. cbn [authority_agent tool_task_limit tool_task_count endpoints]. rewrite Hes. f_equal. lia.
Qed.

Lemma occupied_occupy i turns (s : state) j : (i < length (endpoints (router s)))%nat ->
  occupied (set_router (occupy i turns (router s)) s) j = if decide (i = j) then true else occupied s j.
Proof.
  intros Hi. unfold occupied, occupy. cbn [router set_router].
  assert (Hl : endpoints (if turns =? 0 then set_busy i true (router s) else count_tool_task 1 (set_busy i true (router s))) =
               endpoints (set_busy i true (router s))) by (by destruct (turns =? 0)).
  rewrite Hl, set_busy_lookup. destruct (decide (i = j)) as [<-|]; [|done].
  apply lookup_lt_is_Some_2 in Hi as [e ->]. done.
Qed.

Lemma occupied_vacate i turns (s : state) l j :
  occupied (set_router (vacate i turns (router s)) (set_tasks l s)) j = if decide (i = j) then false else occupied s j.
Proof.
  unfold occupied, vacate. cbn [router set_router].
  assert (Hl : endpoints (if turns =? 0 then set_busy i false (router s) else count_tool_task (-1) (set_busy i false (router s))) =
               endpoints (set_busy i false (router s))) by (by destruct (turns =? 0)).
  rewrite Hl, set_busy_lookup. destruct (decide (i = j)) as [<-|]; [|done].
  destruct (endpoints (router s) !! i); done.
Qed.

(** ** Admission *)

Definition admit_task (x : task) (e : executed) (s : state) : state :=
  set_executions (executions s ++ [e]) (set_tasks (tasks s ++ [Some x])
    (set_router (occupy (route_endpoint (route x)) (max_model_turns (route x)) (router s)) s)).

Lemma task_at_admit x e (s : state) t : task_at (admit_task x e s) t =
  if decide (t = length (tasks s)) then Some x else task_at s t.
Proof.
  unfold task_at. cbn [tasks admit_task set_executions set_tasks]. destruct (decide (t = length (tasks s))) as [->|Hne].
  - by rewrite lookup_app_r, Nat.sub_diag.
  - destruct (decide (t < length (tasks s))%nat) as [Hlt|Hge]; [by rewrite lookup_app_l|].
    rewrite lookup_ge_None_2 by (rewrite length_app; cbn; lia). by rewrite lookup_ge_None_2 by lia.
Qed.

Lemma task_at_fresh (s : state) : task_at s (length (tasks s)) = None.
Proof. unfold task_at. by rewrite lookup_ge_None_2. Qed.

(** A task is admitted to a free slot, a tool task when there is room for it, and no
    task beside the tool task of a router with limit 1. *)
Lemma tasks_admit x e (s : state) : tasks_inv s -> occupied s (route_endpoint (route x)) = false ->
  (route_endpoint (route x) < length (endpoints (router s)))%nat ->
  (tool_task_limit (router s) = 1 -> tool_task_count (router s) = 0) ->
  (is_tool x = true -> tool_task_count (router s) < tool_task_limit (router s) /\
     (tool_task_limit (router s) = 1 -> any_busy (router s) = false)) ->
  task_execution x = length (executions s) -> taken x = result_taken e -> tasks_inv (admit_task x e s).
Proof.
  intros Hs Hfree Hlen Hone Htool Hex Htk.
  assert (Hr : router (admit_task x e s) = occupy (route_endpoint (route x)) (max_model_turns (route x)) (router s)) by done.
  assert (Hlim : tool_task_limit (router (admit_task x e s)) = tool_task_limit (router s))
    by (rewrite Hr; unfold occupy; by destruct (_ =? 0)).
  assert (Hcnt : tool_task_count (router (admit_task x e s)) = tool_task_count (router s) + (if is_tool x then 1 else 0)).
  { rewrite Hr. unfold occupy, is_tool. destruct (_ =? 0); cbn; lia. }
  constructor.
  - intros i. change (occupied (admit_task x e s) i) with (occupied (set_router (occupy (route_endpoint (route x)) (max_model_turns (route x)) (router s)) s) i).
    rewrite occupied_occupy by done. split.
    + destruct (decide (route_endpoint (route x) = i)) as [Hi|_].
      * intros _. exists (length (tasks s)), x. split; [|done]. by rewrite task_at_admit, decide_True.
      * intros (t & y & Hy & Hi)%(slots_taken s Hs). exists t, y. split; [|done]. rewrite task_at_admit, decide_False; [done|].
        intros ->. by rewrite task_at_fresh in Hy.
    + intros (t & y & Hy & Hi). rewrite task_at_admit in Hy. destruct (decide (_ = i)) as [|Hne]; [done|].
      destruct (decide (t = _)) as [->|]; [congruence|]. apply (slots_taken s Hs). eauto.
  - intros t t' y y'. rewrite !task_at_admit. destruct (decide (t = _)) as [->|], (decide (t' = _)) as [->|]; [done| | |apply (slots_distinct s Hs)].
    + intros E Hy' He. injection E as <-. exfalso. assert (Ho : occupied s (route_endpoint (route x)) = true) by (apply (slots_taken s Hs); eauto). congruence.
    + intros Hy E He. injection E as <-. exfalso. assert (Ho : occupied s (route_endpoint (route x)) = true) by (apply (slots_taken s Hs); eauto). congruence.
  - rewrite Hcnt, (tools_counted s Hs). rewrite !tool_tasks_in. cbn [tasks admit_task set_executions set_tasks].
    rewrite tools_in_app, tools_in_cons. cbn [weight].
    change (tools_in []) with 0%nat. destruct (is_tool x); lia.
  - rewrite Hcnt, Hlim. pose proof (tools_limited s Hs). destruct (is_tool x) eqn:Hx; [|lia]. destruct Htool; [done|lia].
  - rewrite Hlim, Hcnt. intros Hl Hc t t' y y'. rewrite (Hone Hl) in Hc. destruct (is_tool x) eqn:Hx; [|done].
    destruct (Htool eq_refl) as [_ Hidle]. specialize (Hidle Hl).
    assert (Hnone : forall k z, task_at s k = Some z -> False).
    { intros k z Hz. assert (any_busy (router s) = true) by (apply busy_live; eauto). congruence. }
    rewrite !task_at_admit. destruct (decide (t = _)) as [->|], (decide (t' = _)) as [->|]; [done| | |];
      intros Ha Hb; exfalso; eapply Hnone; eassumption.
  - intros t y. rewrite task_at_admit. cbn [executions admit_task set_executions]. destruct (decide (t = _)) as [->|].
    + intros E. injection E as <-. exists e. by rewrite Hex, lookup_app_r, Nat.sub_diag.
    + intros Hy. destruct (executions_kept s Hs t y Hy) as (e' & He' & Hk). exists e'. split; [|done].
      rewrite lookup_app_l; [done|]. by eapply lookup_lt_Some.
  - assert (Hold : forall t y, task_at s t = Some y -> task_execution y <> task_execution x).
    { intros t y Hy He. destruct (executions_kept s Hs t y Hy) as (e' & He' & _). apply lookup_lt_Some in He'. lia. }
    intros t t' y y'. rewrite !task_at_admit. destruct (decide (t = _)) as [->|], (decide (t' = _)) as [->|]; [done| | |apply (executions_distinct s Hs)].
    + intros E Hy' He. injection E as <-. by edestruct Hold.
    + intros Hy E He. injection E as <-. by edestruct Hold.
Qed.

Lemma inv_admit x e (s : state) : router_inv s -> occupied s (route_endpoint (route x)) = false ->
  (route_endpoint (route x) < length (endpoints (router s)))%nat ->
  (tool_task_limit (router s) = 1 -> tool_task_count (router s) = 0) ->
  (is_tool x = true -> tool_task_count (router s) < tool_task_limit (router s) /\
     (tool_task_limit (router s) = 1 -> any_busy (router s) = false)) ->
  task_execution x = length (executions s) -> taken x = result_taken e -> task_group x = None -> router_inv (admit_task x e s).
Proof.
  intros [Ht Hg] Hfree Hlen Hone Htool Hex Htk Hgr. split; [by apply tasks_admit|].
  constructor; [apply (members_distinct _ _ s Hg)| |].
  - intros g y Hy Hb t Hm. destruct (members_live _ _ s Hg g y Hy Hb t Hm) as (z & Hz & Hzg). exists z. split; [|done].
    rewrite task_at_admit, decide_False; [done|]. intros ->. by rewrite task_at_fresh in Hz.
  - intros t y g. rewrite task_at_admit. destruct (decide (t = _)) as [->|]; [|apply (members_known _ _ s Hg)].
    intros E. injection E as <-. by rewrite Hgr.
Qed.

(** ** Release *)

Lemma task_at_free t x (s : state) t' : task_at s t = Some x ->
  task_at (free_task t x s) t' = if decide (t = t') then None else task_at s t'.
Proof.
  intros Hx. unfold task_at, free_task. cbn [tasks set_router set_tasks]. apply task_at_lookup in Hx.
  destruct (decide (t = t')) as [<-|Hne]; [|by rewrite list_lookup_insert_ne].
  by rewrite list_lookup_insert_eq by (by eapply lookup_lt_Some).
Qed.

Lemma tasks_free t x (s : state) : task_at s t = Some x -> tasks_inv s -> tasks_inv (free_task t x s).
Proof.
  intros Hx Hs. set (s' := free_task t x s).
  assert (Hat : forall t' y, task_at s' t' = Some y <-> t <> t' /\ task_at s t' = Some y).
  { intros t' y. unfold s'. rewrite task_at_free by done. destruct (decide (t = t')); [|tauto]. split; [done|by intros [? _]]. }
  assert (Hlim : tool_task_limit (router s') = tool_task_limit (router s)) by (unfold s', free_task, vacate; cbn; by destruct (_ =? 0)).
  assert (Hcnt : tool_task_count (router s') = tool_task_count (router s) - (if is_tool x then 1 else 0)).
  { unfold s', free_task, vacate, is_tool. cbn. destruct (_ =? 0); cbn; lia. }
  constructor.
  - intros i. unfold s', free_task. rewrite occupied_vacate. destruct (decide (route_endpoint (route x) = i)) as [Hi|Hi].
    + split; [done|]. intros (t' & y & [Hne Hy]%Hat & He). destruct Hne. apply (slots_distinct s Hs t t' x y); congruence.
    + rewrite (slots_taken s Hs). split; intros (t' & y & Hy & He).
      * exists t', y. split; [|done]. apply Hat. split; [|done]. intros <-. congruence.
      * apply Hat in Hy as [_ Hy]. eauto.
  - intros t1 t2 y1 y2 [_ H1]%Hat [_ H2]%Hat. by apply (slots_distinct s Hs).
  - rewrite Hcnt, (tools_counted s Hs). rewrite !tool_tasks_in.
    pose proof (tools_in_insert (tasks s) t (Some x) None (task_at_lookup s t x Hx)) as Hn. cbn [weight] in Hn.
    replace (tasks s') with (<[t:=None]> (tasks s)) by done. destruct (is_tool x); lia.
  - rewrite Hcnt, Hlim. pose proof (tools_limited s Hs). destruct (is_tool x); lia.
  - rewrite Hlim, Hcnt. intros Hl Hc t1 t2 y1 y2 [Hn1 H1]%Hat [Hn2 H2]%Hat.
    destruct (decide (tool_task_count (router s) = 0)) as [Hz|Hz]; [|by apply (tools_exclude s Hs Hl Hz t1 t2 y1 y2)].
    destruct (is_tool x) eqn:Hx'; [|lia]. exfalso. pose proof (tools_counted s Hs) as Hc'. rewrite tool_tasks_in in Hc'.
    pose proof (tools_in_insert (tasks s) t (Some x) None (task_at_lookup s t x Hx)) as Hn.
    cbn [weight] in Hn. rewrite Hx' in Hn. lia.
  - intros t' y [_ Hy]%Hat. by apply (executions_kept s Hs t').
  - intros t1 t2 y1 y2 [_ H1]%Hat [_ H2]%Hat. by apply (executions_distinct s Hs).
Qed.

(** A task outside the groups leaves them as they are. *)
Lemma groups_free t x but left (s : state) : task_at s t = Some x -> task_group x = None ->
  groups_inv but left s -> groups_inv but left (free_task t x s).
Proof.
  intros Hx Hgr Hg. constructor; [apply (members_distinct _ _ s Hg)| |].
  - intros g y Hy Hb t' Hm. destruct (members_live _ _ s Hg g y Hy Hb t' Hm) as (z & Hz & Hzg). exists z. split; [|done].
    rewrite task_at_free, decide_False by (done || congruence). done.
  - intros t' y g. rewrite task_at_free by done. destruct (decide (t = t')); [done|]. apply (members_known _ _ s Hg).
Qed.

Lemma inv_free t x (s : state) : task_at s t = Some x -> task_group x = None -> router_inv s -> router_inv (free_task t x s).
Proof. intros Hx Hgr [Ht Hg]. split; [by apply tasks_free|by apply groups_free]. Qed.

(** ** Membership *)

Definition all_in_group (g : nat) (ts : list nat) (s : state) : state :=
  foldr (fun t => update_task t (task_in_group (Some g))) s ts.

Lemma all_in_group_rest g ts (s : state) : router (all_in_group g ts s) = router s /\ groups (all_in_group g ts s) = groups s /\
  executions (all_in_group g ts s) = executions s.
Proof. induction ts as [|t ts IH]; [done|]. exact IH. Qed.

Lemma task_at_all g ts (s : state) t : task_at (all_in_group g ts s) t =
  if decide (t ∈ ts) then task_in_group (Some g) <$> task_at s t else task_at s t.
Proof.
  induction ts as [|t' ts IH]; [done|]. cbn [all_in_group foldr]. rewrite task_at_update. unfold all_in_group in IH. rewrite IH.
  destruct (decide (t' = t)) as [->|Hne], (decide (t ∈ ts)) as [Hin|Hin].
  - rewrite decide_True by constructor. by destruct (task_at s t).
  - by rewrite decide_True by constructor.
  - by rewrite decide_True by (by constructor).
  - rewrite decide_False; [done|]. intros [->|?]%elem_of_cons; done.
Qed.

Lemma group_at_push (s : state) x g : group_at (set_groups (groups s ++ [Some x]) s) g =
  if decide (g = length (groups s)) then Some x else group_at s g.
Proof.
  unfold group_at. cbn [groups set_groups]. destruct (decide (g = length (groups s))) as [->|Hne].
  - by rewrite lookup_app_r, Nat.sub_diag.
  - destruct (decide (g < length (groups s))%nat) as [Hlt|Hge]; [by rewrite lookup_app_l|].
    rewrite lookup_ge_None_2 by (rewrite length_app; cbn; lia). by rewrite lookup_ge_None_2 by lia.
Qed.

(** Free tasks that become the members of a new group. *)
Lemma inv_adopt x (s : state) : NoDup (members x) -> members x <> [] -> (forall t, t ∈ members x -> exists y, task_at s t = Some y /\ task_group y = None) ->
  router_inv s ->
  router_inv (set_groups (groups s ++ [Some x]) (all_in_group (length (groups s)) (members x) s)).
Proof.
  intros Hnd Hsome Hfree [Ht Hg]. set (g := length (groups s)). set (s1 := all_in_group g (members x) s).
  assert (Hs1 : tasks_inv s1).
  { unfold s1, all_in_group. clear Hfree Hnd Hsome. induction (members x) as [|t ts IH]; [done|]. by apply tasks_keep_update. }
  assert (Hgs : groups s1 = groups s) by apply all_in_group_rest.
  assert (Hfresh : group_at s g = None) by (unfold group_at; by rewrite lookup_ge_None_2).
  assert (Hga : forall g', group_at (set_groups (groups s ++ [Some x]) s1) g' = if decide (g' = g) then Some x else group_at s g').
  { intros g'. apply (group_at_push s x g'). }
  split; [destruct Hs1; by constructor|]. constructor.
  { intros g' y. rewrite Hga. destruct (decide (g' = g)); [intros E; by injection E as <-|]. apply (members_distinct _ _ s Hg). }
  - intros g' y. rewrite Hga. change (task_at (set_groups (groups s ++ [Some x]) s1)) with (task_at s1). unfold s1.
    destruct (decide (g' = g)) as [->|Hne].
    + intros E _ t Hm. injection E as <-. destruct (Hfree t Hm) as (z & Hz & _). exists (task_in_group (Some g) z).
      by rewrite task_at_all, decide_True, Hz by done.
    + intros Hy _ t Hm. destruct (members_live _ _ s Hg g' y Hy) with (t := t) as (z & Hz & Hzg); [done|done|]. exists z. split; [|done].
      rewrite task_at_all, decide_False; [done|]. intros Hin. destruct (Hfree t Hin) as (z' & Hz' & Hn). congruence.
  - intros t y g' Hy Hgr. rewrite decide_False by done. rewrite Hga.
    change (task_at (set_groups (groups s ++ [Some x]) s1)) with (task_at s1) in Hy. unfold s1 in Hy. rewrite task_at_all in Hy.
    destruct (decide (t ∈ members x)) as [Hin|Hin].
    + destruct (task_at s t) as [z|]; [|done]. injection Hy as <-. injection Hgr as <-. exists x. by rewrite decide_True.
    + destruct (members_known _ _ s Hg t y g' Hy Hgr) as (z & Hz & Hm). exists z. rewrite decide_False by congruence. done.
Qed.

(** ** Release of a group *)

(** What is left of its members is in the group or in none. *)
Definition releasing (g : nat) (left : list nat) (s : state) : Prop :=
  tasks_inv s /\ groups_inv (Some g) left s /\
  forall t y, t ∈ left -> task_at s t = Some y -> task_group y = Some g \/ task_group y = None.

Lemma releasing_starts g x (s : state) : group_at s g = Some x -> router_inv s -> releasing g (members x) s.
Proof.
  intros Hx [Ht Hg]. split_and!; [done| |].
  - constructor; [apply (members_distinct _ _ s Hg)| |].
    + intros g' y Hy Hb. by apply (members_live _ _ s Hg).
    + intros t y g' Hy Hgr. pose proof (members_known _ _ s Hg t y g' Hy Hgr) as Hk. rewrite decide_False in Hk by done.
      destruct (decide (Some g = Some g')) as [E|]; [|done]. injection E as <-. destruct Hk as (x' & Hx' & Hm). congruence.
  - intros t y Hin Hy. left. destruct (members_live _ _ s Hg g x Hx) with (t := t) as (z & Hz & Hzg); [done|done|congruence].
Qed.

Lemma releasing_leaves g t left (s : state) : releasing g (t :: left) s -> releasing g left (update_task t (task_in_group None) s).
Proof.
  intros (Ht & Hg & Hl). split_and!; [by apply tasks_keep_update| |].
  - constructor; [apply (members_distinct _ _ s Hg)| |].
    + intros g' y Hy Hb t' Hm. destruct (members_live _ _ s Hg g' y Hy Hb t' Hm) as (z & Hz & Hzg). exists z. split; [|done].
      rewrite task_at_update, decide_False; [done|]. intros ->. destruct (Hl t' z); [constructor|done|congruence|congruence].
    + intros t' y g'. rewrite task_at_update. change (group_at (update_task t (task_in_group None) s)) with (group_at s).
      destruct (decide (t = t')) as [<-|Hne]; [by destruct (task_at s t); intros E; [injection E as <-|]|].
      intros Hy Hgr. pose proof (members_known _ _ s Hg t' y g' Hy Hgr) as Hk. destruct (decide (Some g = Some g')); [|done].
      apply elem_of_cons in Hk as [->|Hk]; done.
  - intros t' y Hin. rewrite task_at_update. destruct (decide (t = t')) as [<-|Hne].
    + destruct (task_at s t); intros E; [injection E as <-|done]. by right.
    + intros Hy. apply (Hl t' y); [by constructor|done].
Qed.

Lemma releasing_frees g t x left (s : state) : task_at s t = Some x -> task_group x = None -> releasing g left s ->
  releasing g left (free_task t x s).
Proof.
  intros Hx Hgr (Ht & Hg & Hl). split_and!; [by apply tasks_free|by apply groups_free|].
  intros t' y Hin. rewrite task_at_free by done. destruct (decide (t = t')); [done|]. by apply Hl.
Qed.

Lemma releasing_ends g (s : state) : releasing g [] s -> router_inv (set_groups (<[g := None]> (groups s)) s).
Proof.
  intros (Ht & Hg & _).
  assert (Hga : forall g' y, group_at (set_groups (<[g := None]> (groups s)) s) g' = Some y <-> g <> g' /\ group_at s g' = Some y).
  { intros g' y. unfold group_at. cbn [groups set_groups]. destruct (decide (g = g')) as [<-|Hne].
    - split; [|by intros [? _]]. destruct (decide (g < length (groups s))%nat) as [Hlt|Hge].
      + by rewrite list_lookup_insert_eq.
      + rewrite lookup_ge_None_2 by (rewrite length_insert; lia). done.
    - rewrite list_lookup_insert_ne by done. tauto. }
  split; [destruct Ht; by constructor|]. constructor.
  { intros g' y [_ Hy]%Hga. by apply (members_distinct _ _ s Hg g'). }
  - intros g' y [Hne Hy]%Hga _ t Hm. apply (members_live _ _ s Hg g' y Hy); [congruence|done].
  - intros t y g' Hy Hgr. rewrite decide_False by done. pose proof (members_known _ _ s Hg t y g' Hy Hgr) as Hk.
    destruct (decide (Some g = Some g')) as [_|Hne]; [by apply not_elem_of_nil in Hk|]. destruct Hk as (x & Hx & Hm). exists x.
    split; [|done]. apply Hga. split; [congruence|done].
Qed.

End slots.
