(* ===== verification/AgentRouterLife.v ===== *)
(** * The life of the router's tasks

    Every operation of the host and every step of a worker keeps the router's
    invariant, so it holds after any sequence of them. *)

From S2P Require Import Prelude RuntimeJson JsonBuild JsonMem JsonRecord RuntimeStore AgentExecution AgentRouter AgentRouterTask AgentRouterIntent AgentRouterOps AgentRouterInv AgentRouterSlots.
From S2P Require Graph RuntimeControl AgentPolicy.

#[local] Open Scope string_scope.
#[local] Open Scope list_scope.
#[local] Open Scope Z_scope.

Create HintDb router.

Section life.
Context {W J : Type} `{JsonSetters J, !JsonMembers J}.

#[local] Abbreviation state := (router_state (W := W) (J := J)).
#[local] Abbreviation task := (router_task (W := W) (J := J)).
#[local] Abbreviation executed := (turbo_agent_execution (J := J)).

(** ** Results of operations *)

(** [Q] holds of the answer and the state after [m], whatever the host's world and
    allocator are. *)
Definition after {A} (m : op (W := W) (J := J) A) (Q : A + salts_status -> state -> Prop) (s : state) : Prop :=
  forall w o, match m s w o with (r, s', _, _) => Q r s' end.

Lemma after_mono {A} (m : op A) (Q Q' : A + salts_status -> state -> Prop) s :
  after m Q s -> (forall r s', Q r s' -> Q' r s') -> after m Q' s.
Proof. intros Hm HQ w o. specialize (Hm w o). destruct (m s w o) as [[[r s'] w'] o']. by apply HQ. Qed.

Lemma after_ret {A} (x : A) Q s : Q (inl x) s -> after (mret x) Q s.
Proof. by intros HQ w o. Qed.

Lemma after_fail {A} st (Q : A + salts_status -> state -> Prop) s : Q (inr st) s -> after (op_fail st) Q s.
Proof. by intros HQ w o. Qed.

Lemma after_bind {A B} (m : op A) (k : A -> op B) (Q : B + salts_status -> state -> Prop) s :
  after m (fun r s' => match r with inl x => after (k x) Q s' | inr st => Q (inr st) s' end) s -> after (m ≫= k) Q s.
Proof.
  intros Hm w o. specialize (Hm w o). unfold mbind, op_bind. destruct (m s w o) as [[[[x|st] s'] w'] o']; [apply Hm|done].
Qed.

Lemma after_get Q s : Q (inl s) s -> after op_get Q s.
Proof. by intros HQ w o. Qed.

Lemma after_modify f Q s : Q (inl tt) (f s) -> after (op_modify f) Q s.
Proof. by intros HQ w o. Qed.

Lemma after_io {A} (m : io W A) (Q : A + salts_status -> state -> Prop) s :
  (forall r, (exists w o w' o', m w o = (r, w', o')) -> Q r s) -> after (op_io m) Q s.
Proof. intros HQ w o. unfold op_io. destruct (m w o) as [[r w'] o'] eqn:E. apply HQ. by exists w, o, w', o'. Qed.

Lemma after_try {A} (m : op A) (Q : (A + salts_status) + salts_status -> state -> Prop) s :
  after m (fun r => Q (inl r)) s -> after (op_try m) Q s.
Proof. intros Hm w o. specialize (Hm w o). unfold op_try. by destruct (m s w o) as [[[r s'] w'] o']. Qed.

Lemma after_status st (Q : unit + salts_status -> state -> Prop) s :
  Q (if bool_decide (st = SALTS_OK) then inl tt else inr st) s -> after (op_status st) Q s.
Proof. intros HQ w o. by destruct st. Qed.

Lemma after_task t (Q : task + salts_status -> state -> Prop) s :
  (forall x, task_at s t = Some x -> Q (inl x) s) -> (task_at s t = None -> Q (inr SALTS_EINVAL) s) -> after (get_task t) Q s.
Proof. intros HS HN w o. unfold get_task. destruct (task_at s t) as [x|]; [by apply HS|by apply HN]. Qed.

Lemma after_group g (Q : turbo_agent_router_group + salts_status -> state -> Prop) s :
  (forall x, group_at s g = Some x -> Q (inl x) s) -> (group_at s g = None -> Q (inr SALTS_EINVAL) s) -> after (get_group g) Q s.
Proof. intros HS HN w o. unfold get_group. destruct (group_at s g) as [x|]; [by apply HS|by apply HN]. Qed.

(** ** Operations that keep the invariant step by step *)

Definition keeps {A} (m : op (W := W) (J := J) A) : Prop := forall s, router_inv s -> after m (fun _ => router_inv) s.

Lemma keeps_ret {A} (x : A) : keeps (mret x).
Proof. intros s Hs. by apply after_ret. Qed.

Lemma keeps_fail {A} st : keeps (op_fail (A := A) st).
Proof. intros s Hs. by apply after_fail. Qed.

Lemma keeps_bind {A B} (m : op A) (k : A -> op B) : keeps m -> (forall x, keeps (k x)) -> keeps (m ≫= k).
Proof.
  intros Hm Hk s Hs. apply after_bind. eapply after_mono; [by apply Hm|]. intros [x|st] s' Hs'; [by apply Hk|done].
Qed.

Lemma keeps_get : keeps op_get.
Proof. intros s Hs. by apply after_get. Qed.

Lemma keeps_io {A} (m : io W A) : keeps (op_io m).
Proof. intros s Hs. by apply after_io. Qed.

Lemma keeps_try {A} (m : op A) : keeps m -> keeps (op_try m).
Proof. intros Hm s Hs. apply after_try. by apply Hm. Qed.

Lemma keeps_status st : keeps (op_status st).
Proof. intros s Hs. by apply after_status. Qed.

Lemma keeps_task t : keeps (get_task t).
Proof. intros s Hs. by apply after_task. Qed.

Lemma keeps_group g : keeps (get_group g).
Proof. intros s Hs. by apply after_group. Qed.

Lemma keeps_update_task t f : same_shape f -> keeps (op_modify (update_task t f)).
Proof. intros Hf s Hs. apply after_modify. by apply inv_update_task. Qed.

Lemma keeps_update_group g f : (forall x, members (f x) = members x) -> keeps (op_modify (update_group g f)).
Proof. intros Hf s Hs. apply after_modify. by apply inv_update_group. Qed.

Lemma keeps_update_execution e f : (forall x : executed, result_taken (f x) = result_taken x) -> keeps (op_modify (update_execution e f)).
Proof. intros Hf s Hs. apply after_modify. by apply inv_update_execution. Qed.

Lemma update_execution_at e f g (x : executed) (s : state) : executions s !! e = Some x -> f x = g x ->
  update_execution e f s = update_execution e g s.
Proof.
  intros Hx Hf. unfold update_execution. f_equal. apply list_eq. intros i. destruct (decide (e = i)) as [<-|Hne].
  - by rewrite !list_lookup_alter_eq, Hx; cbn; rewrite Hf.
  - by rewrite !list_lookup_alter_ne.
Qed.

Lemma cancel_result_taken reason now (x : executed) : result_taken (turbo_agent_execution_cancel reason now x).2 = result_taken x.
Proof.
  unfold turbo_agent_execution_cancel. destruct (terminal x); [done|].
  by destruct (Control.turbo_cancel_source_cancel _ _ _ _) as [[st h]|].
Qed.

Context (cmeta_monotonic_ms : W -> Z).

Lemma after_now (Q : Z + salts_status -> state -> Prop) s : (forall now, Q (inl now) s) -> after (op_now cmeta_monotonic_ms) Q s.
Proof. intros HQ w o. apply HQ. Qed.

Lemma keeps_cancel reason e : keeps (cancel_execution (J := J) cmeta_monotonic_ms reason e).
Proof.
  intros s Hs w o. unfold cancel_execution. destruct (executions s !! e) as [x|] eqn:Hx; [|done].
  pose proof (cancel_result_taken reason (cmeta_monotonic_ms w) x) as Hk.
  destruct (turbo_agent_execution_cancel reason (cmeta_monotonic_ms w) x) as [st y]. cbn in Hk.
  rewrite (update_execution_at e _ (fun z => mk_execution (execution_id y) (status y) (kind y) (operation_rc y)
    (result_taken z) (cancel_source y) (summary y) (final_state y)) x s Hx).
  - by apply inv_update_execution.
  - rewrite <- Hk. by destruct y.
Qed.

End life.

#[export] Hint Resolve keeps_ret keeps_fail keeps_get keeps_io keeps_status keeps_task keeps_group keeps_cancel : router.

(** The steps of an operation, one after the other. *)
Ltac keep := repeat first
  [ progress intros
  | solve [auto with router nocore]
  | apply keeps_bind
  | apply keeps_try
  | apply keeps_update_task; intros ?; by split_and!
  | apply keeps_update_group; by intros ?
  | match goal with |- keeps (if ?b then _ else _) => destruct b end
  | match goal with |- keeps (match ?x with _ => _ end) => destruct x end ].
