(* ===== verification/AgentRouterSafe.v ===== *)
(** * The safety of the router

    The invariant holds after any sequence of operations and worker steps. *)

From S2P Require Import Prelude RuntimeJson JsonBuild JsonMem JsonRecord RuntimeStore AgentExecution AgentRouter AgentRouterTask AgentRouterIntent AgentRouterOps AgentRouterInv AgentRouterSlots AgentRouterLife.
From S2P Require Graph RuntimeControl AgentPolicy.

#[local] Open Scope string_scope.
#[local] Open Scope list_scope.
#[local] Open Scope Z_scope.

Section safe.
Context {W J : Type} `{JsonSetters J, !JsonMembers J}.

#[local] Abbreviation state := (router_state (W := W) (J := J)).
#[local] Abbreviation task := (router_task (W := W) (J := J)).
#[local] Abbreviation executed := (turbo_agent_execution (J := J)).

Context (cmeta_monotonic_ms : W -> Z).
Context (cmeta_uuid : io W string) (pool_submit : io W unit).
Context (host_timestamp : W -> oracle -> option string * W * oracle).
Context (store_of : nat -> turbo_agent_runtime (W := W)).
Context (router_model_node router_tools_node : Graph.node_fn (W := W) (J := J)).
Context (prepare_override : nat -> string -> bool -> io W J).

(** ** Supervision *)

Lemma keeps_poll_internal t now : keeps (turbo_agent_router_task_poll_internal (W := W) (J := J) cmeta_monotonic_ms t now).
Proof. unfold turbo_agent_router_task_poll_internal. keep. Qed.
#[local] Hint Resolve keeps_poll_internal : router.

Lemma keeps_poll t now : keeps (turbo_agent_router_task_poll (W := W) (J := J) cmeta_monotonic_ms t now).
Proof. unfold turbo_agent_router_task_poll. keep. Qed.
#[local] Hint Resolve keeps_poll : router.

Lemma keeps_heartbeat t now : keeps (turbo_agent_router_task_heartbeat (W := W) (J := J) cmeta_monotonic_ms t now).
Proof. unfold turbo_agent_router_task_heartbeat. keep. Qed.

Lemma keeps_task_cancel t reason : keeps (turbo_agent_router_task_cancel (W := W) (J := J) cmeta_monotonic_ms t reason).
Proof. unfold turbo_agent_router_task_cancel. keep. Qed.

Lemma keeps_each f l : (forall x, keeps (W := W) (J := J) (f x)) -> keeps (op_each f l).
Proof. intros Hf. induction l as [|x l IH]; cbn [op_each]; keep. Qed.

Lemma keeps_halt g reason cancel_reason : keeps (group_halt (W := W) (J := J) cmeta_monotonic_ms g reason cancel_reason).
Proof. unfold group_halt. keep. apply keeps_each. keep. Qed.
#[local] Hint Resolve keeps_halt : router.

Lemma keeps_poll_members now ts : forall first, keeps (poll_members (W := W) (J := J) cmeta_monotonic_ms now first ts).
Proof. induction ts as [|t ts IH]; intros first; cbn [poll_members]; keep; apply IH. Qed.
#[local] Hint Resolve keeps_poll_members : router.

Lemma keeps_group_poll g now : keeps (turbo_agent_router_group_poll (W := W) (J := J) cmeta_monotonic_ms g now).
Proof. unfold turbo_agent_router_group_poll. keep. Qed.
#[local] Hint Resolve keeps_group_poll : router.

Lemma keeps_group_heartbeat g i now : keeps (turbo_agent_router_group_heartbeat (W := W) (J := J) cmeta_monotonic_ms g i now).
Proof. unfold turbo_agent_router_group_heartbeat. keep. Qed.

Lemma keeps_group_cancel g reason : keeps (turbo_agent_router_group_cancel (W := W) (J := J) cmeta_monotonic_ms g reason).
Proof. unfold turbo_agent_router_group_cancel. keep. Qed.

(** ** Delivery *)

Lemma take_result_taken (e : executed) r e' : turbo_agent_execution_take_result e = (r, e') ->
  (exists x, r = inl x /\ result_taken e = false /\ result_taken e' = true) \/ (exists st, r = inr st /\ e' = e).
Proof.
  unfold turbo_agent_execution_take_result. destruct (terminal e); cbn [negb]; [|intros E; injection E as <- <-; eauto].
  destruct (result_taken e) eqn:Ht; intros E; injection E as <- <-; [eauto|]. left. by eexists.
Qed.

(** A result taken from a task's execution, then noted on the task. *)
Lemma after_take t x (Q : (option J * option J) + salts_status -> state -> Prop) s : task_at s t = Some x ->
  (forall v e', result_taken e' = true -> Q (inl v) (update_execution (task_execution x) (fun _ => e') s)) ->
  (forall st e', (forall y, executions s !! task_execution x = Some y -> e' = y) ->
     Q (inr st) (update_execution (task_execution x) (fun _ => e') s)) ->
  (forall st, Q (inr st) s) -> after (take_execution (W := W) (task_execution x)) Q s.
Proof.
  intros Hx Hok Hno Hnone w o. unfold take_execution. destruct (executions s !! task_execution x) as [e|] eqn:He; [|apply Hnone].
  destruct (turbo_agent_execution_take_result e) as [r e'] eqn:Ht.
  destruct (take_result_taken e r e' Ht) as [(v & -> & _ & Hk)|(st & -> & ->)]; [by apply Hok|].
  apply Hno. intros y Hy. congruence.
Qed.

Lemma inv_update_same e e' (s : state) : (forall y, executions s !! e = Some y -> e' = y) -> router_inv s ->
  router_inv (update_execution e (fun _ => e') s).
Proof.
  intros Hsame Hs. destruct (executions s !! e) as [y|] eqn:Hy.
  - rewrite (update_execution_at e _ id y s Hy); [by apply inv_update_execution|]. by apply Hsame.
  - replace (update_execution e (fun _ => e') s) with (update_execution e id s); [by apply inv_update_execution|].
    unfold update_execution. f_equal. apply list_eq. intros i. destruct (decide (e = i)) as [<-|Hne].
    + by rewrite !list_lookup_alter_eq, Hy.
    + by rewrite !list_lookup_alter_ne.
Qed.

Lemma keeps_take_result t : keeps (turbo_agent_router_task_take_result (W := W) (J := J) t).
Proof.
  intros s Hs. unfold turbo_agent_router_task_take_result. apply after_bind, after_task; [|done]. intros x Hx.
  apply after_bind, after_get. destruct (task_group x); [by apply after_fail|].
  do 4 (match goal with |- after (if ?b then _ else _) _ _ => destruct b; [by apply after_fail|] end).
  apply after_bind, (after_take t x); [done| |by intros; apply inv_update_same|done].
  intros v e' He'. apply after_bind, after_modify, after_ret. by apply inv_take.
Qed.

Lemma keeps_take_members g ts : keeps (take_members (W := W) (J := J) g ts).
Proof.
  induction ts as [|t ts IH]; intros s Hs; cbn [take_members]; [by apply after_ret|].
  apply after_bind, after_task; [|done]. intros x Hx. apply after_bind, after_try, (after_take t x); [done| | |].
  - intros v e' He'. apply after_bind, after_modify, after_bind, after_modify, after_bind.
    eapply after_mono; [apply IH, inv_update_group; [done|by apply inv_take]|]. intros [r|st] s' Hs'; [by apply after_ret|done].
  - intros st e' Hsame. by apply after_ret, inv_update_same.
  - intros st. by apply after_ret.
Qed.
#[local] Hint Resolve keeps_take_members : router.

Lemma keeps_group_take g capacity : keeps (turbo_agent_router_group_take_results (W := W) (J := J) g capacity).
Proof. unfold turbo_agent_router_group_take_results. keep. Qed.

(** ** Release *)

Lemma keeps_release t : keeps (turbo_agent_router_task_release (W := W) (J := J) t).
Proof.
  intros s Hs. unfold turbo_agent_router_task_release. apply after_bind, after_task; [|done]. intros x Hx.
  apply after_bind, after_get. destruct (task_group x) eqn:Hgr; [by apply after_fail|].
  destruct (negb _); [by apply after_fail|]. apply after_modify. by apply inv_free.
Qed.

Lemma releasing_release g left t s : releasing g left s ->
  after (turbo_agent_router_task_release (W := W) (J := J) t) (fun _ => releasing g left) s.
Proof.
  intros Hs. unfold turbo_agent_router_task_release. apply after_bind, after_task; [|done]. intros x Hx.
  apply after_bind, after_get. destruct (task_group x) eqn:Hgr; [by apply after_fail|].
  destruct (negb _); [by apply after_fail|]. apply after_modify. by apply releasing_frees.
Qed.

Lemma keeps_group_release g : keeps (turbo_agent_router_group_release (W := W) (J := J) g).
Proof.
  intros s Hs. unfold turbo_agent_router_group_release. apply after_bind, after_group; [|done]. intros x Hx.
  apply after_bind, after_get. destruct (negb _); [by apply after_fail|]. apply after_bind.
  assert (Hloop : after (op_each (fun t => _ ← op_modify (update_task t (task_in_group None));
      _ ← op_try (turbo_agent_router_task_release t); mret tt) (members x))
      (fun r s' => r = inl tt /\ releasing g [] s') s).
  { pose proof (releasing_starts g x s Hx Hs) as Hrel. revert Hrel. clear. revert s. induction (members x) as [|t ts IH]; intros s Hs.
    - by apply after_ret.
    - cbn [op_each]. apply after_bind, after_bind, after_modify, after_bind, after_try.
      eapply after_mono; [by apply releasing_release, releasing_leaves|]. intros r s' Hs'. apply after_ret. by apply IH. }
  eapply after_mono; [exact Hloop|]. intros r s' [-> Hrel]. apply after_modify. by apply releasing_ends.
Qed.

End safe.
