(* ===== verification/AgentRouterLifecycle.v ===== *)
(** * The lifecycle of routed tasks

    Admission, review and the end of a segment keep the router's invariant too, so it
    holds after any sequence of calls. *)

From S2P Require Import Prelude RuntimeJson JsonBuild JsonMem JsonRecord RuntimeStore AgentExecution AgentRouter AgentRouterTask AgentRouterIntent AgentRouterOps AgentRouterInv AgentRouterSlots AgentRouterLife AgentRouterSafe.
From S2P Require Graph RuntimeControl AgentPolicy.

#[local] Open Scope string_scope.
#[local] Open Scope list_scope.
#[local] Open Scope Z_scope.

(** ** The chosen endpoint is idle *)

Definition chosen_idle (es : list router_endpoint) (s : selection) : Prop :=
  match s.1 with
  | Some (k, _, _) => exists e, es !! k = Some e /\ busy e = false
  | None => True
  end.

Lemma consider_all_idle agents registry turns r parent es : forall before s, chosen_idle (before ++ es) s ->
  chosen_idle (before ++ es) (consider_all agents registry turns r parent s (length before) es).
Proof.
  induction es as [|e es IH]; intros before s Hs; cbn [consider_all]; [done|].
  replace (before ++ e :: es) with ((before ++ [e]) ++ es) in * by (by rewrite <- app_assoc).
  replace (S (length before)) with (length (before ++ [e])) by (rewrite length_app; cbn; lia).
  apply IH. unfold consider. destruct (negb _); [done|]. destruct (_ <? _); [done|].
  destruct (busy e) eqn:Hb; [done|]. destruct (negb _); [done|]. destruct (_ <? _); [|done].
  exists e. split; [|done]. rewrite <- app_assoc. cbn [app]. by rewrite lookup_app_r, Nat.sub_diag.
Qed.

Lemma choose_idle agents r turns request k child cost : choose_endpoint agents r turns request = inl (k, child, cost) ->
  exists e, endpoints r !! k = Some e /\ busy e = false.
Proof.
  unfold choose_endpoint. destruct (_ =? 0); [done|]. intros Hc.
  pose proof (consider_all_idle agents (tool_registry (agents (authority_agent r))) turns request
    (turbo_agent_tool_authority_snapshot_get (agents (authority_agent r))) (endpoints r) [] (None, false) I) as Hi.
  cbn [app length] in Hi. destruct (consider_all _ _ _ _ _ _ _ _) as [[[[k' child'] cost']|] []]; [| |done|done];
    injection Hc as -> -> ->; exact Hi.
Qed.

Section lifecycle.
Context {W J : Type} `{JsonSetters J, !JsonMembers J}.

#[local] Abbreviation state := (router_state (W := W) (J := J)).
#[local] Abbreviation task := (router_task (W := W) (J := J)).
#[local] Abbreviation executed := (turbo_agent_execution (J := J)).

Context (cmeta_monotonic_ms : W -> Z).
Context (cmeta_uuid : io W string) (pool_submit : io W unit).
Context (host_timestamp : W -> oracle -> option string * W * oracle).
Context (store_of : nat -> turbo_agent_runtime (W := W)).
Context (router_model_node router_tools_node : Graph.node_fn (W := W) (J := J)).
Context (prepare_override : nat -> string -> bool -> io W J).

(** ** Submission *)

Lemma io_bind_inl {A B} (m : io W A) (k : A -> io W B) w o y w' o' : (m ≫= k) w o = (inl y, w', o') ->
  exists x w1 o1, m w o = (inl x, w1, o1) /\ k x w1 o1 = (inl y, w', o').
Proof. unfold mbind, io_bind. destruct (m w o) as [[[x|st] w1] o1]; intros E; [by exists x, w1, o1|done]. Qed.

(** A new execution has its result. *)
Lemma execution_submitted k input sub gate w o (e : executed) w' o' :
  turbo_agent_execution_submit cmeta_uuid pool_submit k input sub gate w o = (inl e, w', o') -> result_taken e = false.
Proof.
  unfold turbo_agent_execution_submit. destruct (_ && _); [done|]. intros E.
  do 8 (apply io_bind_inl in E as (? & ? & ? & _ & E)). by injection E as <- _ _.
Qed.

Lemma tool_loop_admitted_spec (s : state) turns request : tool_loop_admitted s turns request = SALTS_OK ->
  (tool_task_limit (router s) = 1 -> tool_task_count (router s) = 0) /\
  (turns <> 0 -> tool_task_count (router s) < tool_task_limit (router s) /\
                 (tool_task_limit (router s) = 1 -> any_busy (router s) = false)).
Proof.
  unfold tool_loop_admitted. destruct (Z.eqb_spec (tool_task_limit (router s)) 1) as [Hl|Hl], (Z.eqb_spec (tool_task_count (router s)) 0) as [Hc|Hc];
    cbn [negb andb]; intros E; (split; [done|]); intros Ht; try done; revert E;
    rewrite (proj2 (Z.eqb_neq turns 0) Ht); destruct (_ || _ || _ || _); try done;
    destruct (Z.leb_spec (tool_task_limit (router s)) (tool_task_count (router s))) as [Hle|Hle]; try done.
  destruct (any_busy (router s)); [done|]. intros _. split; [lia|done].
Qed.

Lemma keeps_start a r host g input s : router_inv s -> occupied s (route_endpoint r) = false ->
  (route_endpoint r < length (endpoints (router s)))%nat ->
  (tool_task_limit (router s) = 1 -> tool_task_count (router s) = 0) ->
  (max_model_turns r <> 0 -> tool_task_count (router s) < tool_task_limit (router s) /\
                 (tool_task_limit (router s) = 1 -> any_busy (router s) = false)) ->
  after (start_task cmeta_uuid pool_submit host_timestamp store_of a r host g input) (fun _ => router_inv) s.
Proof.
  intros Hs Hfree Hlen Hone Htool. unfold start_task. apply after_bind, after_modify, after_bind, after_try, after_io.
  intros [e|st] (w & o & w' & o' & E).
  - apply after_bind, after_get, after_bind, after_modify, after_ret.
    refine (inv_admit (new_task r g (length (executions s))) e s _ _ _ _ _ _ _ _); try done.
    + intros Hx. apply Htool. unfold is_tool in Hx. cbn in Hx. lia.
    + cbn. symmetry. by eapply execution_submitted.
  - apply after_bind, after_modify, after_fail. cbn [router set_router]. rewrite vacate_occupy by exact Hfree.
    by destruct s.
Qed.

Lemma keeps_submit request input turns host : keeps (router_submit cmeta_monotonic_ms cmeta_uuid pool_submit
  host_timestamp store_of router_model_node router_tools_node request input turns host).
Proof.
  intros s Hs. unfold router_submit. destruct input as [input|]; [|by apply after_fail]. apply after_bind, after_get.
  destruct (_ || _ || _); [by apply after_fail|]. apply after_bind, after_status.
  destruct (bool_decide_reflect (tool_loop_admitted s turns request = SALTS_OK)) as [Hadm|_]; [|done].
  apply tool_loop_admitted_spec in Hadm as [Hone Htool].
  destruct (choose_endpoint _ _ _ _) as [[[index child] cost]|st] eqn:Hc; [|by apply after_fail].
  apply choose_idle in Hc as (e & He & Hidle). apply after_bind, after_now.
  intros now. destruct (_ <? _); [by apply after_fail|]. unfold new_route. rewrite He.
  apply after_bind, after_io. intros [prepared|st] _; [|done]. apply keeps_start; cbn [route_endpoint max_model_turns]; try done.
  - unfold occupied. by rewrite He.
  - by eapply lookup_lt_Some.
Qed.

(** ** Review *)

Lemma alter_id (l : list executed) i : alter id i l = l.
Proof.
  apply list_eq. intros j. destruct (decide (i = j)) as [<-|Hne]; [|by rewrite list_lookup_alter_ne].
  rewrite list_lookup_alter_eq. by destruct (l !! i).
Qed.

Lemma inv_cancelled t b (s : state) : router_inv s -> router_inv (update_task t (task_review_cancelled b) s).
Proof. by apply inv_update_task. Qed.

(** A task goes on with a new execution, the old one's result taken if need be. *)
Lemma resumes t x0 (x : task) now (e : executed) (s : state) : task_at s t = Some x0 -> task_execution x = task_execution x0 ->
  result_taken e = false -> router_inv s ->
  after (_ ← (if taken x then mret tt else _ ← op_try (take_execution (W := W) (task_execution x)); mret tt);
         op_modify (fun s => update_task t (resume_task (length (executions s)) now) (set_executions (executions s ++ [e]) s)))
    (fun _ => router_inv) s.
Proof.
  intros Hx Hex He Hs. apply after_bind. destruct (taken x).
  - apply after_ret, after_modify. rewrite <- (alter_id (executions s) (task_execution x0)) at 2.
    apply inv_resume; try done.
  - apply after_bind, after_try. intros w o. unfold take_execution. rewrite Hex.
    destruct (executions s !! task_execution x0) as [y|] eqn:Hy.
    + destruct (turbo_agent_execution_take_result y) as [r y']. apply after_ret, after_modify.
      refine (inv_resume t x0 (resume_task (length (alter (fun _ => y') _ (executions s))) now) (fun _ => y') e s Hx He _ Hs).
      intros z. cbn. by rewrite length_alter.
    + apply after_ret, after_modify. rewrite <- (alter_id (executions s) (task_execution x0)) at 2.
      by apply inv_resume.
Qed.

Lemma keeps_review t approved : keeps (turbo_agent_router_task_review cmeta_monotonic_ms cmeta_uuid pool_submit
  prepare_override t approved).
Proof.
  intros s Hs. unfold turbo_agent_router_task_review. apply after_bind, after_task; [|done]. intros x Hx.
  apply after_bind, after_get.
  do 4 (match goal with |- after (if ?b then _ else _) _ _ => destruct b; [by apply after_fail|] end).
  destruct (review_checkpoint x) as [checkpoint|]; [|by apply after_fail].
  do 2 (match goal with |- after (if ?b then _ else _) _ _ => destruct b; [by apply after_fail|] end).
  apply after_bind, after_now. intros now. destruct (_ || _); [by apply after_fail|].
  apply after_bind, after_io. intros [command|st] _; [|done]. apply after_bind, after_io. intros [override|st] _; [|done].
  apply after_bind, after_modify, after_bind, after_try, after_io. intros [e|st] (w & o & w' & o' & E).
  - apply (resumes t (task_review_cancelled (negb approved) x) x); [|done|by eapply execution_submitted|by apply inv_cancelled].
    by rewrite task_at_update, decide_True, Hx.
  - apply after_bind, after_modify, after_fail. by repeat apply inv_cancelled.
Qed.

(** ** The end of a segment *)

Lemma loop_complete_shape summary final (x : task) o st y o' :
  router_loop_complete (J := J) summary final x o = (Some (st, y), o') ->
  route y = route x /\ task_execution y = task_execution x /\ taken y = taken x /\ task_group y = task_group x.
Proof.
  unfold router_loop_complete. destruct (negb _); [by intros E; injection E as <- <- <-|].
  destruct (member summary "run_id") as [v|]; [|by intros E; injection E as <- <- <-].
  destruct (member_string summary "run_id") as [[|a run]|]; try (by intros E; injection E as <- <- <-).
  destruct (_ || _); [by intros E; injection E as <- <- <-|].
  destruct (alloc o) as [a1 o1], (alloc o1) as [a2 o2]. destruct (a1 && a2); by intros E; injection E as <- <- <-.
Qed.

Lemma keeps_worker_ends t rc summary final : keeps (worker_ends (W := W) (J := J) t rc summary final).
Proof.
  intros s Hs. unfold worker_ends. apply after_bind, after_task; [|done]. intros x Hx. destruct (_ && _).
  - apply after_bind, after_io. intros [[st y]|st] (w & o & w' & o' & E); [|done]. unfold io_mem in E.
    destruct (router_loop_complete summary final x o) as [[[st' y']|] o1] eqn:El; [|done]. injection E as -> -> <- <-.
    apply loop_complete_shape in El as (Hr & Hex & Htk & Hgr).
    apply after_bind, after_modify, after_modify, inv_update_execution; [done|].
    replace s with (set_executions (executions s) s) by (by destruct s). pose proof (proj1 Hs) as Ht.
    apply (inv_settle t x (fun _ => y)); cbn [snd]; try done.
    + intros t' x' Hne Hx'. rewrite Hex. split; [done|]. by apply (other_execution s t t').
    + rewrite Hex, Htk. by apply (executions_kept s Ht t).
  - apply after_modify. by apply inv_update_execution.
Qed.

(** ** Adoption *)

Lemma adopt_checks_free (s : state) first before ts : adopt_checks s first before ts = SALTS_OK ->
  forall t, t ∈ ts -> exists y, task_at s t = Some y /\ task_group y = None.
Proof.
  revert before. induction ts as [|t ts IH]; intros before Hc t' Hin; [by apply not_elem_of_nil in Hin|].
  cbn [adopt_checks] in Hc. destruct (adoptable s before first t) eqn:Ha; try done.
  apply elem_of_cons in Hin as [->|Hin]; [|by apply (IH _ Hc)]. unfold adoptable in Ha.
  destruct (task_at s t) as [x|]; [|done]. exists x. split; [done|].
  destruct (negb _ || _); [done|]. by destruct (task_group x).
Qed.

Lemma adopt_checks_nodup (s : state) first before ts : NoDup before -> adopt_checks s first before ts = SALTS_OK ->
  NoDup (before ++ ts).
Proof.
  revert before. induction ts as [|t ts IH]; intros before Hnd Hc; [by rewrite app_nil_r|].
  cbn [adopt_checks] in Hc. destruct (adoptable s before first t) eqn:Ha; try done.
  replace (before ++ t :: ts) with ((before ++ [t]) ++ ts) by (by rewrite <- app_assoc). apply IH; [|done].
  apply NoDup_app. split_and!; [done| |apply NoDup_singleton]. intros b Hb Hin. apply list_elem_of_singleton in Hin as ->.
  unfold adoptable in Ha. destruct (task_at s t) as [x|]; [|done].
  repeat (match type of Ha with (if ?c then _ else _) = _ => destruct c eqn:? end; [done|]). 
  match goal with He : existsb _ before = false |- _ => apply not_true_iff_false in He; apply He end.
  apply existsb_exists. exists t. split; [by apply list_elem_of_In|]. by rewrite Nat.eqb_refl.
Qed.

Lemma keeps_adopt name ts : keeps (turbo_agent_router_group_adopt (W := W) (J := J) name ts).
Proof.
  intros s Hs. unfold turbo_agent_router_group_adopt. apply after_bind, after_get.
  destruct name as [name|]; [|by apply after_fail]. destruct (_ || _ || _) eqn:Hlen; [by apply after_fail|].
  apply after_bind, after_status. destruct (bool_decide_reflect (adopt_checks s (t ← head ts; task_at s t) [] ts = SALTS_OK)) as [Hc|_]; [|done].
  apply after_bind, after_io. intros [u|st] _; [|done]. apply after_bind, after_modify, after_ret.
  apply orb_false_iff in Hlen as [[_ Hlen]%orb_false_iff _].
  apply (inv_adopt (mk_group name (foldr (fun t => Z.max (task_observed_at s t)) 0 ts) SALTS_OK false false ts) s); [| | |done].
  2:{ cbn [members]. intros ->. done. }
  { by apply (adopt_checks_nodup s _ [] ts (NoDup_nil_2) Hc). }
  by apply (adopt_checks_free s _ _ _ Hc).
Qed.

(** ** The router's own operations *)

Definition set_limit_op (limit : Z) : op (W := W) (J := J) unit :=
  s ← op_get;
  let (st, r) := turbo_agent_router_set_tool_task_limit limit (router s) in
  _ ← op_modify (set_router r);
  op_status st.

Definition set_policy_op (a : nat) (p : option AgentPolicy.turbo_agent_policy) : op (W := W) (J := J) unit := fun s w o =>
  match turbo_agent_set_tool_policy p (agents s a) o with
  | (st, x, o) => op_status st (set_agents (fun b => if Nat.eqb b a then x else agents s b) s) w o
  end.

Lemma inv_set_limit limit (s : state) : 0 < limit -> any_busy (router s) = false -> router_inv s ->
  router_inv (set_router (mk_router (authority_agent (router s)) limit (tool_task_count (router s)) (endpoints (router s))) s).
Proof.
  intros Hl Hb [Ht Hg]. assert (Hnone : forall t x, task_at s t = Some x -> False).
  { intros t x Hx. assert (any_busy (router s) = true) by (apply busy_live; eauto). congruence. }
  split; [|by apply (keeps_groups _ _ s)]. destruct Ht as [H1 H2 H3 H4 H5 H6 H7]. constructor; try done.
  - cbn [router set_router tool_task_count tool_task_limit].
    assert (Hz : tool_task_count (router s) = 0); [|lia]. rewrite H3. unfold tool_tasks, live_tasks.
    destruct (omap id (tasks s)) as [|x l] eqn:Hl'; [done|]. exfalso.
    assert (Hin : x ∈ omap id (tasks s)) by (rewrite Hl'; constructor). apply list_elem_of_omap in Hin as (ox & Hin & Hx).
    cbn in Hx. subst ox. apply list_elem_of_lookup in Hin as [t Ht]. apply (Hnone t x). unfold task_at. by rewrite Ht.
  - intros _ _ t t' x x' Hx. by destruct (Hnone t x).
Qed.

Lemma keeps_set_limit limit : 0 <= limit -> keeps (set_limit_op limit).
Proof.
  intros Hl s Hs. unfold set_limit_op. apply after_bind, after_get. unfold turbo_agent_router_set_tool_task_limit.
  assert (Hsame : set_router (router s) s = s) by (by destruct s).
  destruct ((limit =? 0) || (TURBO_AGENT_ROUTER_MAX_ENDPOINTS <? limit)) eqn:Hr.
  { apply after_bind, after_modify, after_status. rewrite Hsame. done. }
  destruct (any_busy (router s)) eqn:Hb; apply after_bind, after_modify, after_status; [rewrite Hsame; done|].
  apply inv_set_limit; [|done|done]. apply orb_false_iff in Hr. lia.
Qed.

Lemma keeps_set_policy a p : keeps (set_policy_op a p).
Proof.
  intros s Hs w o. unfold set_policy_op. destruct (turbo_agent_set_tool_policy p (agents s a) o) as [[st x] o1].
  assert (Hs' : router_inv (set_agents (fun b => if Nat.eqb b a then x else agents s b) s)) by (by destruct Hs as [[] []]).
  by destruct st.
Qed.

End lifecycle.
