(* ===== verification/AgentRouterSystem.v ===== *)
(** * The router and its workers as one system

    Any sequence of calls of the host and steps of the workers, each with the world and
    the allocator it meets; what then holds of the router. *)

From stdpp Require Import pretty.
From S2P Require Import Prelude RuntimeJson JsonBuild JsonMem JsonRecord RuntimeStore AgentExecution AgentRouter AgentRouterTask AgentRouterIntent AgentRouterOps AgentRouterInv AgentRouterSlots AgentRouterLife AgentRouterSafe AgentRouterLifecycle.
From S2P Require Graph AgentPolicy.

#[local] Open Scope string_scope.
#[local] Open Scope list_scope.
#[local] Open Scope Z_scope.

Section system.
Context {W J : Type} `{JsonSetters J, !JsonMembers J}.

#[local] Abbreviation state := (router_state (W := W) (J := J)).

Context (cmeta_monotonic_ms : W -> Z).
Context (cmeta_uuid : io W string) (pool_submit : io W unit).
Context (host_timestamp : W -> oracle -> option string * W * oracle).
Context (store_of : nat -> turbo_agent_runtime (W := W)).
Context (router_model_node router_tools_node : Graph.node_fn (W := W) (J := J)).
Context (prepare_override : nat -> string -> bool -> io W J).

(** A policy given to an agent, the calls of turbo_agent_router.h, and the two steps of
    the worker of a task. *)
Inductive router_call : Type :=
| call_set_policy (a : nat) (policy : option AgentPolicy.turbo_agent_policy)
| call_set_limit (limit : N)
| call_submit (request : turbo_agent_router_request) (input : option J)
| call_submit_tool_loop (request : turbo_agent_router_request) (input : option J) (turns : Z)
| call_submit_with_intent (host_runtime : nat) (id : option string) (request : turbo_agent_router_request)
    (input : option J) (turns : Z)
| call_poll (t : nat) (now_ms : Z)
| call_heartbeat (t : nat) (now_ms : Z)
| call_cancel (t : nat) (reason : Z)
| call_review (t : nat) (approved : bool)
| call_take_result (t : nat)
| call_release (t : nat)
| call_group_adopt (id : option string) (ts : list nat)
| call_group_poll (g : nat) (now_ms : Z)
| call_group_heartbeat (g index : nat) (now_ms : Z)
| call_group_cancel (g : nat) (reason : Z)
| call_group_take_results (g : nat) (capacity : Z)
| call_group_release (g : nat)
| worker_starts_task (t : nat)
| worker_ends_task (t : nat) (rc : salts_status) (summary final : option J).

Definition ignore {A} (m : op (W := W) (J := J) A) : op (W := W) (J := J) unit := _ ← m; mret tt.

Definition run_call (c : router_call) : op (W := W) (J := J) unit :=
  match c with
  | call_set_policy a p => set_policy_op a p
  | call_set_limit limit => set_limit_op (Z.of_N limit)
  | call_submit request input =>
      ignore (turbo_agent_router_submit cmeta_monotonic_ms cmeta_uuid pool_submit host_timestamp store_of
                router_model_node router_tools_node request input)
  | call_submit_tool_loop request input turns =>
      ignore (turbo_agent_router_submit_tool_loop cmeta_monotonic_ms cmeta_uuid pool_submit host_timestamp store_of
                router_model_node router_tools_node request input turns)
  | call_submit_with_intent host id request input turns =>
      ignore (turbo_agent_router_submit_with_intent cmeta_monotonic_ms cmeta_uuid pool_submit host_timestamp store_of
                router_model_node router_tools_node host id request input turns)
  | call_poll t now => turbo_agent_router_task_poll cmeta_monotonic_ms t now
  | call_heartbeat t now => turbo_agent_router_task_heartbeat cmeta_monotonic_ms t now
  | call_cancel t reason => ignore (turbo_agent_router_task_cancel cmeta_monotonic_ms t reason)
  | call_review t approved =>
      turbo_agent_router_task_review cmeta_monotonic_ms cmeta_uuid pool_submit prepare_override t approved
  | call_take_result t => ignore (turbo_agent_router_task_take_result t)
  | call_release t => turbo_agent_router_task_release t
  | call_group_adopt id ts => ignore (turbo_agent_router_group_adopt id ts)
  | call_group_poll g now => turbo_agent_router_group_poll cmeta_monotonic_ms g now
  | call_group_heartbeat g i now => turbo_agent_router_group_heartbeat cmeta_monotonic_ms g i now
  | call_group_cancel g reason => turbo_agent_router_group_cancel cmeta_monotonic_ms g reason
  | call_group_take_results g capacity => ignore (turbo_agent_router_group_take_results g capacity)
  | call_group_release g => turbo_agent_router_group_release g
  | worker_starts_task t => x ← get_task t; op_modify (worker_starts (task_execution x))
  | worker_ends_task t rc summary final => worker_ends t rc summary final
  end.

Fixpoint run_calls (cs : list (router_call * W * oracle)) (s : state) : state :=
  match cs with
  | [] => s
  | (c, w, o) :: cs => match run_call c s w o with (_, s, _, _) => run_calls cs s end
  end.

Definition new_state (agents : nat -> turbo_agent) (r : turbo_agent_router) : state := mk_router_state agents r [] [] [].

(** ** Every call keeps the invariant *)

Lemma keeps_ignore {A} (m : op A) : keeps m -> keeps (ignore m).
Proof. intros Hm. apply keeps_bind; [done|]. intros x. apply keeps_ret. Qed.

Lemma keeps_call c : keeps (run_call c).
Proof.
  destruct c; cbn [run_call].
  - apply keeps_set_policy.
  - apply keeps_set_limit. lia.
  - apply keeps_ignore, keeps_submit.
  - apply keeps_ignore. unfold turbo_agent_router_submit_tool_loop. destruct (_ =? _); [apply keeps_fail|apply keeps_submit].
  - apply keeps_ignore. unfold turbo_agent_router_submit_with_intent. destruct (_ || _); [apply keeps_fail|apply keeps_submit].
  - apply keeps_poll.
  - apply keeps_heartbeat.
  - apply keeps_ignore, keeps_task_cancel.
  - apply keeps_review.
  - apply keeps_ignore, keeps_take_result.
  - apply keeps_release.
  - apply keeps_ignore, keeps_adopt.
  - apply keeps_group_poll.
  - apply keeps_group_heartbeat.
  - apply keeps_group_cancel.
  - apply keeps_ignore, keeps_group_take.
  - apply keeps_group_release.
  - apply keeps_bind; [apply keeps_task|]. intros x. by apply keeps_update_execution.
  - apply keeps_worker_ends.
Qed.

Lemma inv_calls cs : forall s, router_inv s -> router_inv (run_calls cs s).
Proof.
  induction cs as [|[[c w] o] cs IH]; intros s Hs; [done|]. cbn [run_calls].
  pose proof (keeps_call c s Hs w o) as Hc. destruct (run_call c s w o) as [[[r s'] w'] o']. by apply IH.
Qed.

Lemma inv_created agents authority es o r o' : turbo_agent_router_create authority es o = (inl r, o') ->
  router_inv (new_state agents r).
Proof.
  unfold turbo_agent_router_create. destruct (_ || _ || _ || _); [done|]. match goal with |- (match ?m o with _ => _ end) = _ -> _ => destruct (m o) as [[u|] o1]; [|done] end.
  intros E. injection E as <- _. split; constructor; try done.
  intros i. unfold occupied. cbn [router new_state endpoints]. rewrite list_lookup_fmap. split.
  - by destruct (es !! i).
  - by intros (t & x & Hx & _).
Qed.

(** C22. The router's slots are exactly its live tasks.  After any calls of the host and
    steps of the workers on a created router, whatever the clock, the pool, the stores
    and the allocator did: an endpoint is occupied exactly when a live task has it, and
    by one task only; the tool tasks are counted exactly and within the limit, and under
    a limit of 1 a tool task is alone; each task has an execution of its own, whose
    result is gone exactly when the task says so; members of a live group are live and
    know it, and the reverse; and the router can be destroyed exactly when no task is
    live. *)
Theorem router_lifecycle agents authority es o r o' cs :
  turbo_agent_router_create authority es o = (inl r, o') ->
  let s := run_calls cs (new_state agents r) in
  router_inv s /\ (turbo_agent_router_destroy (router s) = SALTS_OK <-> forall t, task_at s t = None).
Proof.
  intros Hc s. assert (Hs : router_inv s) by (eapply inv_calls, inv_created, Hc). split; [done|].
  pose proof (busy_live s (proj1 Hs)) as Hb. unfold turbo_agent_router_destroy.
  destruct (any_busy (router s)).
  - split; [done|]. intros Hnone. destruct (proj1 Hb eq_refl) as (t & x & Hx). congruence.
  - split; [|done]. intros _ t. destruct (task_at s t) as [x|] eqn:Hx; [|done]. by discriminate (proj2 Hb (ex_intro _ t (ex_intro _ x Hx))).
Qed.

End system.

(** ** A run *)

Module AgentRouterRun.
Import JsonTree JsonNew JsonRecordTree.

Definition policy (delegate network : bool) : AgentPolicy.turbo_agent_policy :=
  AgentPolicy.mk_policy None true false false false false delegate network false 1 32 3.

(** Agent 9 is the authority; agents 1 and 2 serve the endpoints. *)
Definition demo_agents (a : nat) : turbo_agent :=
  mk_agent "model" "provider" (policy (Nat.eqb a 9) false) 1 7 1 [true].

Definition demo_endpoint (id : string) (a : nat) (price : Z) : turbo_agent_router_endpoint :=
  mk_endpoint (Some id) a (10 + a) 3 7 100 100000 100000 price price.
Definition demo_endpoints : list turbo_agent_router_endpoint := [demo_endpoint "large" 1 3000; demo_endpoint "small" 2 200].

Definition demo_request (thread : string) : turbo_agent_router_request :=
  mk_request TURBO_AGENT_ROUTER_EXECUTE 50 5 1000 1000 1000000 60000 1000 (Some thread)
    (Some (mk_parent_link (Some "run-1") None None None None)).

Definition demo_router : turbo_agent_router := mk_router 9 1 0 (map (fun e => mk_router_endpoint e false) demo_endpoints).

Lemma demo_router_created : turbo_agent_router_create 9 demo_endpoints [] = (inl demo_router, []).
Proof. by vm_compute. Qed.

(** The world counts identifiers and is the clock. *)
Definition demo_uuid : io Z string := fun w o => (inl ("execution-" +:+ pretty w), w + 1, o).
Definition demo_pool : io Z unit := fun w o => (inl tt, w, o).
Definition demo_timestamp (w : Z) (o : oracle) : option string * Z * oracle := (Some "2026-01-01T00:00:00Z", w, o).
Definition demo_store (n : nat) : turbo_agent_runtime (W := Z) := mk_store None None None None.
Definition demo_node : Graph.node_fn (W := Z) (J := jtree) := fun ctx w => (0, ctx, w).
Definition demo_override (n : nat) (checkpoint : string) (approved : bool) : io Z jtree := fun w o => (inl (JObj []), w, o).

Abbreviation demo_run cs :=
  (run_calls (fun w : Z => w) demo_uuid demo_pool demo_timestamp demo_store demo_node demo_node demo_override cs
    (new_state demo_agents demo_router)).

(** The cheaper endpoint goes first, the second task gets the other, a third finds both
    occupied; as a group they are polled, end, and are collected. *)
Definition demo_calls : list (router_call (J := jtree) * Z * oracle) :=
  [(call_submit (demo_request "thread-1") (Some (JObj [])), 5, []);
   (call_submit (demo_request "thread-2") (Some (JObj [])), 6, []);
   (call_submit (demo_request "thread-3") (Some (JObj [])), 7, []);
   (call_group_adopt (Some "both") [0%nat; 1%nat], 8, []);
   (worker_starts_task 0, 9, []);
   (call_group_poll 0 20, 20, []);
   (worker_ends_task 0 SALTS_OK (Some (JObj [("status", JStr "completed")])) (Some (JObj [])), 21, [])].

Definition demo_shape (s : router_state (W := Z) (J := jtree)) : list (option (nat * nat * option nat * bool)) :=
  map (fmap (fun x => (route_endpoint (route x), task_execution x, task_group x, taken x))) (tasks s).

Lemma router_lifecycle_witness :
  demo_shape (demo_run demo_calls) = [Some (1%nat, 0%nat, Some 0%nat, false); Some (0%nat, 1%nat, Some 0%nat, false)] /\
  (router_inv (demo_run demo_calls) /\
   (turbo_agent_router_destroy (router (demo_run demo_calls)) = SALTS_OK <-> forall t, task_at (demo_run demo_calls) t = None)).
Proof.
  split; [by vm_compute|].
  exact (router_lifecycle (fun w => w) demo_uuid demo_pool demo_timestamp demo_store demo_node demo_node demo_override
    demo_agents 9 demo_endpoints [] demo_router [] demo_calls demo_router_created).
Defined.

End AgentRouterRun.
