(* ===== verification/AgentRouterGroup.v ===== *)
(** * Delivery of a group of tasks (src/agent/src/turbo_agent_router_group.c)

    The results of a group are handed over all at once, in the order of its members,
    or not at all. *)

From stdpp Require Import pretty.
From S2P Require Import Prelude RuntimeJson JsonBuild JsonMem JsonRecord RuntimeStore AgentExecution AgentRouter AgentRouterTask AgentRouterIntent AgentRouterOps AgentRouterInv AgentRouterSlots AgentRouterLife AgentRouterSafe AgentRouterLifecycle AgentRouterSystem.
From S2P Require Graph AgentPolicy.

#[local] Open Scope string_scope.
#[local] Open Scope list_scope.
#[local] Open Scope Z_scope.

Section delivery.
Context {W J : Type}.

#[local] Abbreviation state := (router_state (W := W) (J := J)).
#[local] Abbreviation task := (router_task (W := W) (J := J)).
#[local] Abbreviation executed := (turbo_agent_execution (J := J)).

(** A result that may be handed over, and what it is. *)
Definition deliverable (s : state) (y : task) : bool :=
  task_terminal s y && negb (unresponsive y) && turbo_agent_router_authority_current_internal s y && negb (taken y).

Definition result_of (s : state) (y : task) : option J * option J :=
  match execution_of s y with Some e => (summary e, final_state e) | None => (None, None) end.

Definition result_at (s : state) (t : nat) : option J * option J :=
  match task_at s t with Some y => result_of s y | None => (None, None) end.

Definition emptied (e : executed) : executed :=
  mk_execution (execution_id e) (status e) (kind e) (operation_rc e) true (cancel_source e) None None.

(** The state after the result of a member is moved. *)
Definition moved (g t : nat) (y : task) (e : executed) (s : state) : state :=
  update_group g group_collected (update_task t task_taken (update_execution (task_execution y) (fun _ => emptied e) s)).

Lemma take_ready (s : state) (y : task) w o : router_inv s ->
  (exists t, task_at s t = Some y) -> task_terminal s y = true -> taken y = false ->
  exists e, execution_of s y = Some e /\
    take_execution (W := W) (task_execution y) s w o =
      (inl (result_of s y), update_execution (task_execution y) (fun _ => emptied e) s, w, o).
Proof.
  intros Hs [t Hy] Hend Htk. destruct (executions_kept s (proj1 Hs) t y Hy) as (e & He & Hr). exists e.
  unfold task_terminal, execution_of, result_of, take_execution in *. split; [done|].
  unfold execution_of. rewrite He in *. unfold turbo_agent_execution_take_result. by rewrite Hend, Hr, Htk.
Qed.

Lemma moved_at g t y e (s : state) t' : task_at (moved g t y e s) t' =
  if decide (t = t') then task_taken <$> task_at s t' else task_at s t'.
Proof. apply (task_at_update t task_taken s). Qed.

Lemma moved_execution g t y e (s : state) (z : task) : execution_of (moved g t y e s) z =
  if decide (task_execution y = task_execution z) then (fun _ => emptied e) <$> execution_of s z else execution_of s z.
Proof.
  unfold execution_of, moved. cbn [executions update_group update_task update_execution set_groups set_tasks set_executions].
  destruct (decide (task_execution y = task_execution z)) as [->|Hne]; [by rewrite list_lookup_alter_eq|by rewrite list_lookup_alter_ne].
Qed.

Lemma inv_moved g t y e (s : state) : task_at s t = Some y -> router_inv s -> router_inv (moved g t y e s).
Proof. intros Hy Hs. apply inv_update_group; [done|]. by apply inv_take. Qed.

(** What the loop over the members has done. *)
Record collected (g : nat) (ts : list nat) (s s' : state) (results : list (option J * option J)) : Prop := mk_collected {
  in_order : results = map (result_at s) ts;
  all_moved : forall t, t ∈ ts -> exists y e, task_at s' t = Some y /\ taken y = true /\ execution_of s' y = Some e /\
    result_taken e = true /\ summary e = None /\ final_state e = None;
  others_kept : forall t, t ∉ ts -> task_at s' t = task_at s t /\
    forall y, task_at s t = Some y -> execution_of s' y = execution_of s y;
  group_marked : group_at s' g = if decide (ts = []) then group_at s g else group_collected <$> group_at s g
}.

Lemma take_all g ts w o : forall s : state, router_inv s -> NoDup ts ->
  (forall t, t ∈ ts -> exists y, task_at s t = Some y /\ task_terminal s y = true /\ taken y = false) ->
  exists results s', take_members (W := W) (J := J) g ts s w o = (inl (results, SALTS_OK), s', w, o) /\ collected g ts s s' results.
Proof.
  induction ts as [|t ts IH]; intros s Hs Hnd Hready.
  { exists [], s. split; [done|]. constructor; try done. intros t Hin. by apply not_elem_of_nil in Hin. }
  apply NoDup_cons in Hnd as [Hnotin Hnd]. destruct (Hready t) as (y & Hy & Hend & Htk); [constructor|].
  destruct (take_ready s y w o Hs) as (e & He & Htake); [by eexists|done|done|]. set (s1 := moved g t y e s).
  assert (Hkeep : forall t', t' <> t -> task_at s1 t' = task_at s t' /\
      forall z, task_at s t' = Some z -> execution_of s1 z = execution_of s z).
  { intros t' Hne. unfold s1. rewrite moved_at, decide_False by done. split; [done|]. intros z Hz.
    rewrite moved_execution, decide_False; [done|]. intros E. symmetry in E. revert E. by apply (other_execution s t t' y z (proj1 Hs)). }
  destruct (IH s1) as (results & s' & Hrun & Hcol).
  - by apply inv_moved.
  - done.
  - intros t' Hin. assert (Hne : t' <> t) by (intros ->; done). destruct (Hready t') as (z & Hz & Hzend & Hztk); [by constructor|].
    destruct (Hkeep t' Hne) as [Ha Hex]. exists z. rewrite Ha. split_and!; try done. unfold task_terminal in *. by rewrite (Hex z Hz).
  - exists (result_of s y :: results), s'. split.
    { cbn [take_members]. unfold mbind, op_bind, get_task, op_try, op_modify, mret, op_ret. rewrite Hy, Htake.
      change (update_group g group_collected (update_task t task_taken (update_execution (task_execution y) (fun _ => emptied e) s))) with s1.
      by rewrite Hrun. }
    destruct Hcol as [Hord Hmv Hoth Hgr]. destruct (Hoth t Hnotin) as [Hat Hsame].
    assert (Hy1 : task_at s1 t = Some (task_taken y)) by (unfold s1; by rewrite moved_at, decide_True, Hy).
    constructor.
    + rewrite Hord. cbn [map]. f_equal; [unfold result_at; by rewrite Hy|]. apply map_ext_in. intros t' Hin%list_elem_of_In.
      destruct (Hkeep t') as [Ha Hex]; [by intros ->|]. unfold result_at. rewrite Ha. destruct (task_at s t') as [z|] eqn:Hz; [|done].
      unfold result_of. by rewrite (Hex z eq_refl).
    + intros t' [->|Hin]%elem_of_cons; [|by apply Hmv]. exists (task_taken y), (emptied e).
      rewrite Hat, Hy1. split_and!; try done. rewrite (Hsame _ Hy1). unfold s1. rewrite moved_execution, decide_True by done.
      change (execution_of s (task_taken y)) with (execution_of s y). by rewrite He.
    + intros t' [Hne Hin]%not_elem_of_cons. destruct (Hoth t' Hin) as [Ha Hex]. destruct (Hkeep t' Hne) as [Hb Hex1].
      split; [congruence|]. intros z Hz. rewrite (Hex z) by congruence. by apply Hex1.
    + assert (Hg1 : group_at s1 g = group_collected <$> group_at s g) by (unfold s1, moved; by rewrite group_at_update, decide_True).
      rewrite Hgr, Hg1. destruct (decide (t :: ts = [])); [done|]. destruct (decide (ts = [])); [done|]. by destruct (group_at s g).
Qed.

Lemma forallb_false_elem {A} (f : A -> bool) l : forallb f l = false -> exists x, x ∈ l /\ f x = false.
Proof.
  induction l as [|a l IH]; [done|]. cbn [forallb]. destruct (f a) eqn:Ha; cbn [andb].
  - intros (x & Hin & Hx)%IH. exists x. split; [by constructor|done].
  - intros _. exists a. split; [constructor|done].
Qed.

(** The preflight passes exactly when every member may be handed over. *)
Lemma preflight_members_spec (s : state) ts : (forall t, t ∈ ts -> exists y, task_at s t = Some y /\ task_terminal s y = true) ->
  if bool_decide (preflight_members s ts = SALTS_OK)
  then forall t y, t ∈ ts -> task_at s t = Some y -> deliverable s y = true
  else exists t y, t ∈ ts /\ task_at s t = Some y /\ deliverable s y = false.
Proof.
  induction ts as [|t ts IH]; intros Hlive; cbn [preflight_members].
  { intros t y Hin. by apply not_elem_of_nil in Hin. }
  destruct (Hlive t) as (y & Hy & Hend); [constructor|]. rewrite Hy.
  assert (Hbad : deliverable s y = false -> exists t' y', t' ∈ t :: ts /\ task_at s t' = Some y' /\ deliverable s y' = false)
    by (intros Hd; exists t, y; split_and!; [constructor|done|done]).
  assert (Hd : deliverable s y = negb (unresponsive y) && turbo_agent_router_authority_current_internal s y && negb (taken y))
    by (unfold deliverable; by rewrite Hend).
  destruct (unresponsive y), (turbo_agent_router_authority_current_internal s y), (taken y); cbn [negb andb] in *; try by apply Hbad.
  assert (Hlive' : forall t', t' ∈ ts -> exists y', task_at s t' = Some y' /\ task_terminal s y' = true)
    by (intros t' Hin; apply Hlive; by constructor).
  specialize (IH Hlive'). destruct (bool_decide _).
  - intros t' y' [->|Hin]%elem_of_cons Hy'; [congruence|]. by apply (IH t').
  - destruct IH as (t' & y' & Hin & Hy' & Hd'). exists t', y'. split_and!; [by constructor|done|done].
Qed.

Lemma delivery_ready (s : state) g x : router_inv s -> group_at s g = Some x ->
  if bool_decide (group_delivery_preflight s x = SALTS_OK)
  then results_taken x = false /\ forall t, t ∈ members x -> exists y, task_at s t = Some y /\ deliverable s y = true
  else results_taken x = true \/ exists t y, t ∈ members x /\ task_at s t = Some y /\ deliverable s y = false.
Proof.
  intros Hs Hx. pose proof (members_live _ _ s (proj2 Hs) g x Hx ltac:(done)) as Hlive.
  unfold group_delivery_preflight. destruct (results_taken x); [by left|]. destruct (members_terminal s x) eqn:Hend; cbn [negb].
  - unfold members_terminal in Hend. rewrite forallb_forall in Hend.
    assert (Hall : forall t, t ∈ members x -> exists y, task_at s t = Some y /\ task_terminal s y = true).
    { intros t Hin. destruct (Hlive t Hin) as (y & Hy & _). exists y. split; [done|].
      apply list_elem_of_In, Hend in Hin. by rewrite Hy in Hin. }
    pose proof (preflight_members_spec s (members x) Hall) as Hp. destruct (bool_decide _); [|by right].
    split; [done|]. intros t Hin. destruct (Hall t Hin) as (y & Hy & _). exists y. split; [done|]. by apply (Hp t).
  - right. apply forallb_false_elem in Hend as (t & Hin & Ht). exists t.
    destruct (task_at s t) as [y|] eqn:Hy; [|done]. exists y. split_and!; [done|done|]. unfold deliverable. by rewrite Ht.
Qed.

End delivery.

Section groups.
Context {W J : Type} `{JsonSetters J, !JsonMembers J}.

Context (cmeta_monotonic_ms : W -> Z).
Context (cmeta_uuid : io W string) (pool_submit : io W unit).
Context (host_timestamp : W -> oracle -> option string * W * oracle).
Context (store_of : nat -> turbo_agent_runtime (W := W)).
Context (router_model_node router_tools_node : Graph.node_fn (W := W) (J := J)).
Context (prepare_override : nat -> string -> bool -> io W J).

(** C23. A group's results are delivered all at once or not at all.  In any reachable
    state, collecting a live group either gives the summary and state of every member
    in the order of the members, each of them ended, responsive, under authority that
    is still current and not taken before, and then all of them are marked taken and
    their executions hold no result, the group is marked, and no other task or its
    result has changed; or it answers a failure, changes nothing, and there is too
    little room, the group was collected, or some member may not be handed over. *)
Theorem group_delivery_atomic agents authority es o0 r o1 cs g x capacity w o :
  turbo_agent_router_create authority es o0 = (inl r, o1) ->
  let s := run_calls cmeta_monotonic_ms cmeta_uuid pool_submit host_timestamp store_of router_model_node router_tools_node
             prepare_override cs (new_state agents r) in
  group_at s g = Some x ->
  match turbo_agent_router_group_take_results g capacity s w o with
  | (inl (results, st), s', w', o') => st = SALTS_OK /\ Z.of_nat (length (members x)) <= capacity /\
      results = map (result_at s) (members x) /\
      (forall t, t ∈ members x -> exists y, task_at s t = Some y /\ deliverable s y = true) /\
      (forall t, t ∈ members x -> exists y e, task_at s' t = Some y /\ taken y = true /\ execution_of s' y = Some e /\
         result_taken e = true /\ summary e = None /\ final_state e = None) /\
      results_taken x = false /\ group_at s' g = Some (group_collected x) /\
      (forall t, t ∉ members x -> task_at s' t = task_at s t /\ result_at s' t = result_at s t)
  | (inr st, s', w', o') => st <> SALTS_OK /\ s' = s /\
      (capacity < Z.of_nat (length (members x)) \/ results_taken x = true \/
       exists t y, t ∈ members x /\ task_at s t = Some y /\ deliverable s y = false)
  end.
Proof.
  intros Hc s Hx. assert (Hs : router_inv s) by (eapply inv_calls, inv_created, Hc).
  unfold turbo_agent_router_group_take_results, mbind, op_bind, get_group, op_get. rewrite Hx.
  destruct (Z.ltb_spec capacity (Z.of_nat (length (members x)))) as [Hcap|Hcap].
  { split; [done|]. split; [done|]. by left. }
  pose proof (delivery_ready s g x Hs Hx) as Hready. destruct (bool_decide_reflect (group_delivery_preflight s x = SALTS_OK)) as [Hp|Hp].
  - destruct Hready as [Hnt Hall]. rewrite Hp. cbn [op_status].
    destruct (members_distinct _ _ s (proj2 Hs) g x Hx) as [Hnd Hsome].
    destruct (take_all g (members x) w o s Hs Hnd) as (results & s' & Hrun & [Hord Hmv Hoth Hgr]).
    { intros t Hin. destruct (Hall t Hin) as (y & Hy & Hd). exists y. split; [done|]. unfold deliverable in Hd.
      repeat (apply andb_prop in Hd as [Hd ?]). split; [done|]. by apply negb_true_iff. }
    unfold mret, op_ret. rewrite Hrun. rewrite decide_False, Hx in Hgr by done. split_and!; try done.
    intros t Hin. destruct (Hoth t Hin) as [Ha Hex]. split; [done|]. unfold result_at. rewrite Ha.
    destruct (task_at s t) as [y|]; [|done]. unfold result_of. by rewrite (Hex y eq_refl).
  - destruct (group_delivery_preflight s x); try done; (split; [done|]; split; [done|by right]).
Qed.

End groups.

(** ** A delivery *)

Module AgentRouterDelivery.
Import JsonTree JsonNew JsonRecordTree AgentRouterRun.

Definition completed (answer : string) : option jtree * option jtree :=
  (Some (JObj [("status", JStr "completed")]), Some (JObj [("answer", JStr answer)])).

(** The second member ends first. *)
Definition delivery_calls : list (router_call (J := jtree) * Z * oracle) :=
  [(call_submit (demo_request "thread-1") (Some (JObj [])), 5, []);
   (call_submit (demo_request "thread-2") (Some (JObj [])), 6, []);
   (call_group_adopt (Some "both") [0%nat; 1%nat], 8, []);
   (worker_ends_task 1 SALTS_OK (completed "second").1 (completed "second").2, 21, []);
   (worker_ends_task 0 SALTS_OK (completed "first").1 (completed "first").2, 22, [])].

Definition delivery_group : turbo_agent_router_group := mk_group "both" 6 SALTS_OK false false [0%nat; 1%nat].

Definition delivered (capacity : Z) : option (list (option jtree * option jtree)) :=
  match turbo_agent_router_group_take_results 0 capacity (demo_run delivery_calls) 30 [] with
  | (inl (results, _), _, _, _) => Some results
  | (inr _, _, _, _) => None
  end.

Lemma group_delivery_atomic_witness :
  group_at (demo_run delivery_calls) 0 = Some delivery_group /\ delivered 2 = Some [completed "first"; completed "second"] /\
  match turbo_agent_router_group_take_results 0 1 (demo_run delivery_calls) 30 [] with
  | (inl _, _, _, _) => False
  | (inr st, s', _, _) => st <> SALTS_OK /\ s' = demo_run delivery_calls
  end.
Proof.
  assert (Hg : group_at (demo_run delivery_calls) 0 = Some delivery_group) by (vm_compute; reflexivity).
  split; [exact Hg|]. split; [vm_compute; reflexivity|].
  pose proof (group_delivery_atomic (fun w => w) demo_uuid demo_pool demo_timestamp demo_store demo_node demo_node demo_override
    demo_agents 9 demo_endpoints [] demo_router [] delivery_calls 0 delivery_group 1 30 [] demo_router_created Hg) as Ht.
  cbv zeta in Ht.
  match type of Ht with match ?m with _ => _ end => destruct m as [[[[[results st]|st] s'] w'] o'] end.
  - destruct Ht as (_ & Hcap & _). cbn in Hcap. lia.
  - destruct Ht as (Hst & Hs' & _). by split.
Defined.

End AgentRouterDelivery.
